(* ===== verification/_CoqProject ===== *)
-Q . S2P
Prelude.v
MemMgr.v
Bytes.v
Text.v
LxHeader.v
LxFile.v
Codepage.v
GuestMem.v
Uconv.v
HandleTable.v
Managers.v
Constants.v
ApiTrace.v
ApiRegistry.v
Descriptors.v
Ipc.v
Console.v
Dbcs.v
Viocalls.v
LxLoader.v
LxLink.v
LxLinkFile.v
LxLinkLoad.v
NeFile.v
HostFs.v
Vfs.v
HostDir.v
Sandbox.v
Sharing.v
Seh.v
Startup.v
SysCalls.v
NeExec.v
Sockets.v
FileFormat.v
FileApi.v
FileSeq.v
FileCalls.v
CmdParse.v
CmdLine.v
CmdShell.v
CmdIo.v
CmdEdit.v
PmTypes.v
PmRes.v
PmControls.v
PmWin.v
PmCall.v
PmGpi.v
PmInv.v
Mci.v
