(* ===== verification/Prelude.v ===== *)
(** * Verification library of warpine

    warpine runs 32-bit OS/2 programs on Linux: it parses an LX executable, places its pages in
    guest memory, fixes them up, builds descriptor tables, and runs the code on a KVM virtual
    CPU.  A call to an OS/2 API lands on a stub address, whose distance from [MAGIC_API_BASE]
    is the ordinal that a registry maps to a Rust handler; the handlers work on shared managers
    and on guest memory.  This library models that machinery between the file and the vCPU, and
    proves what makes each part correct.  Paths below are under src/src/.

    ** The files, in the order of their dependencies

    - [Prelude]: outcomes (a value, an error, a panic, out of fuel), machine arithmetic in the
      two build profiles, loops with invariants, bit fields, tactics.
    - [MemMgr]: [MemoryManager] of loader/managers.rs, the allocator of the guest heap.
    - [Bytes]: bytes and Rust strings, little-endian integers, and the reader monad over a file
      ([Read]/[Seek] of the standard library), with the calculus "total", "advances", "decodes"
      that the parser proofs use.
    - [LxHeader]: lx/header.rs, the records of the LX format, with reference encoders.
    - [LxFile]: lx.rs, [LxFile::parse] and its loops.
    - [Text]: the operations on Rust strings that several components use (trimming, splitting,
      parsing and printing of numbers).
    - [Codepage]: loader/codepage.rs; the CJK and Windows encodings are parameters.
    - [GuestMem]: loader/guest_mem.rs, guest memory as a finite map of bytes with a size.
    - [Uconv]: loader/uconv.rs, the Uni* calls that convert between codepages and UTF-16.
    - [HandleTable], [Managers]: the other managers of loader/managers.rs.  [HandleTable] is the
      interface (a record of operations with laws) that the pipe, directory and process tables
      implement, with the theorems proved once against it, and who owns a host resource.
    - [Constants]: loader/constants.rs, the part the models use.
    - [ApiTrace]: loader/api_trace.rs, names of ordinals and trace lines.
    - [ApiRegistry]: loader/api_registry.rs, api_ring.rs and api_dispatch.rs: the table of API
      functions with the arguments each handler gets, its binary search, the ring of the last
      calls, and the dispatch of a call.
    - [Descriptors]: loader/descriptors.rs (imports, GDT and IDT) and the selector calls of
      loader/doscalls.rs.
    - [Ipc]: loader/ipc.rs and the semaphore and queue calls of doscalls.rs and stubs.rs.
    - [Console], [Dbcs], [Viocalls]: loader/console.rs (screen), loader/locale.rs and
      gui/text_renderer.rs (double-byte cells), loader/viocalls.rs (the Vio* handlers over the
      guest stack).
    - [Sockets]: loader/tcpip.rs, the socket calls; the host's sockets are a class of operations.
    - [Mci]: loader/mmpm.rs, the MCI devices and commands, their calls and watcher threads as
      interleaved steps; SDL's audio is a class of operations.
    - [LxLoader]: loader/lx_loader.rs: pages, fixups, resources, DLLs and their dependencies.
    - [LxLink], [LxLinkFile], [LxLinkLoad]: bin/lx_link.rs, the linker tool: its sections, the
      file it writes, and that file parsed back by [LxFile] and placed by [LxLoader].
    - [NeFile], [NeExec]: ne.rs and loader/ne_exec.rs, the 16-bit format, the loading of its
      segments with their relocations, and the 16-bit call thunks.
    - [HostFs]: the part of the host file system that std::fs shows to the backend: a tree of
      files, directories and symbolic links, path lookup, and the calls on it.
    - [Vfs], [HostDir]: loader/vfs.rs (the drive manager, against the class [VfsBackend]) and
      loader/vfs_hostdir.rs (the backend over a host directory, an instance of it).  [Sandbox]
      and [Sharing] hold the two theorems on all runs of that backend.
    - [FileFormat]: the records the file calls exchange with the guest (FILESTATUS3, search
      buffers, attribute lists), as writers on guest memory.  [FileApi]: the file, path, search,
      disk and pipe calls of loader/doscalls.rs and stubs.rs over the drive manager, with console
      input and output.  [FileSeq]: a file handle as a byte sequence, through [FileApi], [Vfs],
      [HostDir] and [HostFs].  [FileCalls]: these calls by their names in the registry, and the
      theorems on all of them.
    - [Seh]: loader/seh.rs, the handler-chain calls of stubs.rs, and the stops of loader/vcpu.rs
      at a fault and at the return of an exception handler.
    - [Startup]: the environment, command line and information blocks a program starts with.
      [SysCalls]: the rest of loader/stubs.rs (shared memory, codepages, country information,
      modules, messages, system values, environment).
    - [CmdParse], [CmdLine], [CmdShell], [CmdIo], [CmdEdit]: the built-in command shell: its
      parser, the expansion and evaluation of a line, its commands and batch scripts,
      redirections and pipes, and the line editor.
    - [PmTypes]: the window tree of loader/pm_types.rs, its geometry and z-order.  [PmRes]: menu
      and dialog templates.  [PmControls]: the window procedures of the built-in controls.
      [PmWin]: the calls of loader/pm_win.rs and the message queues.  [PmCall]: calls into
      window procedures of the guest and modal dialog loops, as frames on the guest stack.
      [PmGpi]: the drawing calls of loader/pm_gpi.rs.  [PmInv]: runs of all these calls.

    ** Conventions

    A [w]-bit integer is a [Z]; [uadd], [usub], [umul] and [ushl] panic on overflow when
    [overflow_checks] holds (the dev profile) and wrap otherwise (the release profile), so a
    definition takes the profile as the class argument [Build] and a theorem says which profile
    it needs.  A panic of the source ([unwrap], [expect], an index out of range) is [Panic].  A
    Rust method on [&mut self] is a function that returns the new state.  A blocking call is the
    list of its turns under the lock: a turn returns or waits.  Locks are held for one turn, so
    an interleaving of threads is a sequence of turns; [Ipc] states mutual exclusion over all
    of them.  The calls of [Mci], which let go of their lock in between, are sequences of steps,
    and its runs interleave these.  Log output is left out.

    ** What the theorems show

    - Parsing: [LxFile] returns on every file (no panic, no endless loop), a parsed module has
      the tables its header announces, entry by entry those of the file, export ordinals increase; [LxHeader] readers invert the
      format.
    - Memory: the allocator never panics and keeps a tiling of the heap, [alloc] returns a fresh
      block or fails for want of room; guest accesses succeed exactly inside the mapping and
      obey the laws of a memory.
    - Loading: a fixup record makes its fields refer to the target and touches nothing else; an
      image that fits loads with the file's bytes in place; imports from a loaded DLL resolve to
      its exports; loading ends even when modules import each other in a cycle.
    - Calls: the registry agrees with the trace tables and with the argument counts; an import
      by ordinal reaches the handler of its entry, one by name only where the base of the module
      is 0 (elsewhere it is added twice); descriptors tile the address space; selectors and flat
      addresses convert back and forth.
    - Synchronisation and managers: mutual exclusion, event waits, queue reads, handle
      freshness, and the DLL table as a reference counter.
    - Files: an operation reaches only the drive it names; the backend never changes the host
      outside the root of its volume (with the two kinds of links that break this shown to);
      sharing modes are enforced as the opens asked for them; the calls on an open file act on a sequence of
      bytes; an error leaves guest memory alone; a handle reaches only its own table; a search
      buffer reads back as the entries found; wildcards accept the language of their
      pattern; DOS dates are those of the Gregorian calendar.
    - Exceptions: a fault is offered to the handlers from the innermost outwards, each called
      with the documented arguments; registering and deregistering are push and pop; unwinding
      ends on cyclic chains; a context record is read back as written.
    - Screen: scrolling, teletype output, resizing, reading back written text, DBCS pairing,
      and that no VIO call can panic the release build.
    - Linking and 16-bit programs: what the linker writes, the parser reads back and the loader
      accepts; linker and loader give every absolute relocation the address that it denotes;
      segments are placed as their table says, relocation chains put the far pointer that the
      format asks for at every link.
    - Sockets and multimedia: socket handles stand one to one for the host's descriptors, and the
      host reads no further than the buffer it is given (two calls excepted); every open audio
      device has one owner however calls and watchers interleave, with the ways to lose one shown.
    - Program start and system calls: the startup blocks point where the program looks for them;
      [DosScanEnv] finds a variable of the block that start wrote; country information stays in
      the caller's buffer; text survives the trip to UTF-16 and back.
    - Shell: a line written from words, pipelines and redirections parses to exactly these; every
      line leaves output, input and history as they were, and a redirected one keeps off the
      screen; no command reads its piped input; the line returned is the one on the screen.
    - Presentation Manager: every run of calls, drawing calls and window procedures included,
      keeps the window tree, the z-order and the queues consistent; a posted message arrives;
      a click on a menu does what the drawn menu says; menu and dialog templates read back as
      built and their readers end; a window or dialog procedure is called with its message and
      returns to its caller with the stack it left.

    ** Fuel

    Loops that are not structural take fuel, and a theorem says how much is enough: the parser
    loops take one more than the bytes left in the file (each turn reads at least one);
    [coalesce] takes the length of the free list; the binary search takes one more than the
    table size; unwinding takes 257 (it gives up after 256 records) and the scan for a 16-bit thunk
    16384 (the dwords of 64 KiB); the walk over a list of attribute names takes one more than the
    positions in it; [load_dll] takes more than the number of modules that can be found on the host.
    A list of entry bundles takes one per byte and one, a relocation chain as many as it has links
    (an endless chain exists, and diverges); the command parser takes more than the length of the
    line, the shell the depth of nested scripts, the line editor the keys pressed; a menu template
    takes [menu_fuel], one per byte of its size and one (an item has at least six bytes);
    a walk up or down the window tree takes [tree_fuel], the number of windows and one, which only
    a circle of parents exceeds (the source then loops for ever); a dialog loop takes the
    messages it handles; a WAV file its chunks; [DosScanEnv] takes more than the number of variables.
    [Diverge] is the outcome for lack of fuel, and these theorems exclude it.

    ** Not modelled

    Host I/O and code of other crates: the KVM interface and the vCPU loop around the dispatch
    (ioctls on a mapped register file), host threads and timers, terminal input behind the Kbd*
    calls, the tone of DosBeep (floating-point samples), child processes, SDL2 and text
    rendering of a finished screen, crash dumps, the gdb stub's protocol (an external crate),
    the locale query, and the program's own entry and code generator.  These
    are sequences of host calls with little state of their own.  Where a modelled function calls
    them they are parameters: for the loader the host file system is a function from path to
    contents, the file lock call is a function to its errno, [encoding_rs] is a pair of
    functions, a pipe, the host's sockets and SDL's audio are classes of operations, and a drawing surface is the list of the requests
    sent to it. *)
From Stdlib Require Export ZArith Lia.
From stdpp Require Export gmap list strings sorting.

#[global] Open Scope Z_scope.

(** * Outcomes

    A Rust computation ends with a value, with an [Err] of its error type, in a
    panic, or (for a loop run with fuel) not within the fuel given. *)
Inductive outcome (E A : Type) : Type :=
| Ok (a : A)
| Err (e : E)
| Panic
| Diverge.
Arguments Ok {E A} a.
Arguments Err {E A} e.
Arguments Panic {E A}.
Arguments Diverge {E A}.

#[export] Instance outcome_ret E : MRet (outcome E) := λ A a, Ok a.
#[export] Instance outcome_bind E : MBind (outcome E) := λ A B f m,
  match m with
  | Ok a => f a
  | Err e => Err e
  | Panic => Panic
  | Diverge => Diverge
  end.
#[export] Instance outcome_fmap E : FMap (outcome E) := λ A B f m,
  match m with
  | Ok a => Ok (f a)
  | Err e => Err e
  | Panic => Panic
  | Diverge => Diverge
  end.

#[export] Instance outcome_eq_dec {E A} `{!EqDecision E, !EqDecision A} :
  EqDecision (outcome E A).
Proof. solve_decision. Defined.

(** [o.ok_or(e)?] *)
Definition ok_or {E A} (e : E) (o : option A) : outcome E A :=
  match o with Some a => Ok a | None => Err e end.

(** [o.unwrap()] and [o.expect(..)] *)
Definition unwrap {E A} (o : option A) : outcome E A :=
  match o with Some a => Ok a | None => Panic end.

(** The computation returns: no panic and the fuel sufficed. *)
Definition returns {E A} (m : outcome E A) : Prop :=
  match m with Panic | Diverge => False | _ => True end.

Lemma bind_Ok_inv {E A B} (m : outcome E A) (f : A → outcome E B) b :
  m ≫= f = Ok b → ∃ a, m = Ok a ∧ f a = Ok b.
Proof. destruct m; naive_solver. Qed.

(** The first step of a computation yields a value, of which the rest goes on. *)
Lemma bind_eq {E A C} (m : outcome E A) (f : A → outcome E C) a r : m = Ok a → f a = r → m ≫= f = r.
Proof. by intros ->. Qed.
Lemma bind_ex {E A C} (m : outcome E A) (f : A → outcome E C) a (P : C → Prop) :
  m = Ok a → (∃ c, f a = Ok c ∧ P c) → ∃ c, m ≫= f = Ok c ∧ P c.
Proof. by intros ->. Qed.
Lemma bind_yields {E A C} (m : outcome E A) (f : A → outcome E C) (P : A → Prop) (Q : C → Prop) :
  (∃ a, m = Ok a ∧ P a) → (∀ a, P a → ∃ c, f a = Ok c ∧ Q c) → ∃ c, m ≫= f = Ok c ∧ Q c.
Proof. intros (a & -> & Ha) Hf. by apply Hf. Qed.

Lemma returns_bind {E A B} (m : outcome E A) (f : A → outcome E B) :
  returns m → (∀ a, m = Ok a → returns (f a)) → returns (m ≫= f).
Proof. destruct m; simpl; naive_solver. Qed.

(** * Machine integers

    An unsigned [w]-bit integer is a [Z] in [0, 2^w).  [+], [-] and [*] panic on
    overflow in a build with overflow checks (the dev profile) and wrap without
    them (the release profile of Cargo.toml); [Build] is the profile, and every
    definition that uses unchecked arithmetic takes it as an argument. *)
Class Build := overflow_checks : bool.
Definition dev_profile : Build := true.
Definition release_profile : Build := false.

Abbreviation M8 := 256 (only parsing).
Abbreviation M16 := 65536 (only parsing).
Abbreviation M32 := 4294967296 (only parsing).
Abbreviation M64 := 18446744073709551616 (only parsing).

Definition u8 (x : Z) : Prop := 0 ≤ x < M8.
Definition u16 (x : Z) : Prop := 0 ≤ x < M16.
Definition u32 (x : Z) : Prop := 0 ≤ x < M32.

(** [overflowing m r x]: the value of an operation whose exact result is [x],
    [r] telling whether it fits the type of modulus [m]. *)
Definition overflowing {B : Build} {E} (m : Z) (fits : bool) (x : Z) : outcome E Z :=
  if fits then Ok x else if overflow_checks then Panic else Ok (x mod m).
Definition uadd {B : Build} {E} (m a b : Z) : outcome E Z :=
  overflowing m (a + b <? m) (a + b).
Definition usub {B : Build} {E} (m a b : Z) : outcome E Z :=
  overflowing m (b <=? a) (a - b).
Definition umul {B : Build} {E} (m a b : Z) : outcome E Z :=
  overflowing m (a * b <? m) (a * b).
(** [a << n] on [w] bits: the shift amount is checked (masked without checks),
    bits shifted out are lost silently. *)
Definition ushl {B : Build} {E} (w a n : Z) : outcome E Z :=
  if n <? w then Ok (Z.shiftl a n mod 2 ^ w)
  else if overflow_checks then Panic else Ok (Z.shiftl a (n mod w) mod 2 ^ w).

(** [a.checked_add(b)], [a.wrapping_add(b)], [a.saturating_sub(b)], [x as uN] *)
Definition checked_add (m a b : Z) : option Z :=
  if a + b <? m then Some (a + b) else None.
Definition wrapping_add (m a b : Z) : Z := (a + b) mod m.
Definition wrapping_sub (m a b : Z) : Z := (a - b) mod m.
Definition saturating_sub (a b : Z) : Z := Z.max 0 (a - b).
Definition as_u (m x : Z) : Z := x mod m.

Section arith.
Context {B : Build} {E : Type}.

Lemma overflowing_ok m x : overflowing (E:=E) m true x = Ok x.
Proof. done. Qed.
Lemma uadd_ok m a b : a + b < m → uadd (E:=E) m a b = Ok (a + b).
Proof. intros. unfold uadd. by rewrite (proj2 (Z.ltb_lt _ _)). Qed.
Lemma uadd_ends m a b : uadd (E:=E) m a b ≠ Diverge.
Proof. unfold uadd, overflowing. destruct (_ <? _); [done|]. by destruct overflow_checks. Qed.
Lemma umul_ends m a b : umul (E:=E) m a b ≠ Diverge.
Proof. unfold umul, overflowing. destruct (_ <? _); [done|]. by destruct overflow_checks. Qed.
Lemma usub_ok m a b : b ≤ a → usub (E:=E) m a b = Ok (a - b).
Proof. intros. unfold usub. by rewrite (proj2 (Z.leb_le _ _)). Qed.
Lemma umul_ok m a b : a * b < m → umul (E:=E) m a b = Ok (a * b).
Proof. intros. unfold umul. by rewrite (proj2 (Z.ltb_lt _ _)). Qed.
Lemma ushl_ok w a n : n < w → ushl (E:=E) w a n = Ok (Z.shiftl a n mod 2 ^ w).
Proof. intros. unfold ushl. by rewrite (proj2 (Z.ltb_lt _ _)). Qed.
End arith.

Lemma checked_add_Some m a b c : checked_add m a b = Some c ↔ c = a + b ∧ a + b < m.
Proof. unfold checked_add. destruct (Z.ltb_spec (a + b) m); naive_solver lia. Qed.
Lemma checked_add_None m a b : checked_add m a b = None ↔ m ≤ a + b.
Proof. unfold checked_add. destruct (Z.ltb_spec (a + b) m); naive_solver lia. Qed.

Lemma as_u_small m x : 0 ≤ x < m → as_u m x = x.
Proof. apply Z.mod_small. Qed.
Lemma as_u_range m x : 0 < m → 0 ≤ as_u m x < m.
Proof. apply Z.mod_pos_bound. Qed.

(** [x & !(2^k - 1)] rounds down to a multiple of [2^k]. *)
Lemma land_lnot_ones x k : 0 ≤ k → Z.land x (Z.lnot (Z.ones k)) = x - x mod 2 ^ k.
Proof.
  intros. rewrite <- Z.ldiff_land, Z.ldiff_ones_r, Z.shiftl_mul_pow2, Z.shiftr_div_pow2 by lia.
  pose proof (Z.div_mod x (2 ^ k)). lia.
Qed.
Lemma land_ones_mod x k : 0 ≤ k → Z.land x (Z.ones k) = x mod 2 ^ k.
Proof. intros. by rewrite Z.land_ones. Qed.

(** Bit fields: putting a field above the bits of [a], and taking one out. *)
Lemma lor_shiftl_add a b k : 0 ≤ k → 0 ≤ a < 2 ^ k → Z.lor a (Z.shiftl b k) = a + b * 2 ^ k.
Proof.
  intros Hk Ha. rewrite <- Z.shiftl_mul_pow2 by done. pose proof (Z.add_lor_land a (Z.shiftl b k)).
  assert (Z.land a (Z.shiftl b k) = 0); [|lia].
  apply Z.bits_inj'. intros n Hn. rewrite Z.land_spec, Z.bits_0.
  destruct (Z.ltb_spec n k); [by rewrite Z.shiftl_spec_low, andb_false_r by done|].
  replace (Z.testbit a n) with false; [done|]. symmetry.
  destruct (decide (a = 0)) as [->|]; [apply Z.bits_0|].
  apply Z.bits_above_log2; [lia|]. apply Z.log2_lt_pow2; [lia|].
  pose proof (Z.pow_le_mono_r 2 k n). lia.
Qed.
Lemma field_mod x a k : 0 ≤ a → 0 ≤ k → Z.land (Z.shiftr x a) (Z.ones k) = x / 2 ^ a mod 2 ^ k.
Proof. intros. by rewrite land_ones_mod, Z.shiftr_div_pow2. Qed.
Lemma land_shifted_ones x a k :
  0 ≤ a → 0 ≤ k → Z.land x (Z.shiftl (Z.ones k) a) = x / 2 ^ a mod 2 ^ k * 2 ^ a.
Proof.
  intros. rewrite <- field_mod, <- Z.shiftl_mul_pow2 by done.
  apply Z.bits_inj'. intros n Hn. rewrite Z.land_spec.
  destruct (Z.ltb_spec n a).
  - by rewrite !Z.shiftl_spec_low, andb_false_r by done.
  - rewrite !Z.shiftl_spec, Z.land_spec, Z.shiftr_spec by lia. do 2 f_equal. lia.
Qed.

(** * Tactics *)

(** Reduce the monadic structure of an outcome. *)
Ltac out_simpl := cbn [mbind outcome_bind mret outcome_ret fmap outcome_fmap] in *.

(** Discharge the overflow side conditions of the arithmetic in the goal. *)
Ltac arith_ok :=
  repeat
    (first
      [ rewrite uadd_ok by lia | rewrite usub_ok by lia | rewrite umul_ok by lia
      | rewrite ushl_ok by lia ];
     cbn [mbind outcome_bind mret outcome_ret fmap outcome_fmap]);
  out_simpl.

(** The function that a term applies. *)
Ltac head_symbol t := match t with ?f _ => head_symbol f | _ => t end.

(** Case split on the boolean comparisons of the goal. *)
Ltac bool_split :=
  repeat match goal with
  | |- context [ ?a <? ?b ] => destruct (Z.ltb_spec a b)
  | |- context [ ?a <=? ?b ] => destruct (Z.leb_spec a b)
  | |- context [ ?a =? ?b ] => destruct (Z.eqb_spec a b)
  end.

(** * Errors

    A computation that has no [Err] outcome, whatever its error type. *)
Create HintDb errless.

Section errless.
Context {B : Build} {E : Type}.

Definition errless {A} (o : outcome E A) : Prop := ∀ e, o ≠ Err e.
Lemma errless_ok {A} (a : A) : errless (Ok a).
Proof. done. Qed.
Lemma errless_panic {A} : errless (A:=A) Panic.
Proof. done. Qed.
Lemma errless_bind {A D} (o : outcome E A) (f : A → outcome E D) :
  errless o → (∀ a, errless (f a)) → errless (o ≫= f).
Proof. intros Ho Hf e. destruct o; cbn; [apply Hf|intros [= ->]; by destruct (Ho e)|done..]. Qed.
Lemma errless_uadd m a b : errless (uadd m a b).
Proof. intros e. unfold uadd, overflowing. by repeat case_match. Qed.
Lemma errless_usub m a b : errless (usub m a b).
Proof. intros e. unfold usub, overflowing. by repeat case_match. Qed.
End errless.
#[export] Hint Resolve errless_uadd errless_usub errless_ok errless_panic : errless.
Ltac errless :=
  repeat match goal with
  | |- errless (_ ≫= _) => apply errless_bind; [by auto with errless|intros ?]
  | |- errless (if ?b then _ else _) => destruct b
  | |- errless (match ?x with _ => _ end) => destruct x
  end; auto with errless.

(** * Loops

    [for x in l { body }] over the state [s]; [a..b] and [a..=b] are lists of integers. *)
Fixpoint for_in {E A S} (l : list A) (body : A → S → outcome E S) (s : S) : outcome E S :=
  match l with
  | [] => Ok s
  | a :: l => s ← body a s; for_in l body s
  end.
Definition range (a b : Z) : list Z := seqZ a (b - a).
Definition range_incl (a b : Z) : list Z := seqZ a (b - a + 1).

Lemma for_in_all {E A S} (P : S → Prop) l (body : A → S → outcome E S) s :
  P s → (∀ a s, a ∈ l → P s → ∃ s', body a s = Ok s' ∧ P s') →
  ∃ s', for_in l body s = Ok s' ∧ P s'.
Proof.
  revert s. induction l as [|a l IH]; intros s Hs Hb; cbn [for_in]; [by eexists|].
  destruct (Hb a s) as (s1 & -> & H1); [by left|done|]. out_simpl.
  apply IH; [done|]. intros a' s' Hin. apply Hb. by right.
Qed.
(** An invariant of a loop that ends. *)
Lemma for_in_inv {E A S} (P : S → Prop) l (body : A → S → outcome E S) s s' :
  P s → (∀ a s s', a ∈ l → P s → body a s = Ok s' → P s') → for_in l body s = Ok s' → P s'.
Proof.
  revert s. induction l as [|a l IH]; intros s Hs Hb; cbn [for_in]; [by intros [= <-]|].
  intros (s1 & H1 & H2)%bind_Ok_inv. eapply IH; [| |exact H2].
  - eapply Hb; [by left|done|done].
  - intros a' s2 s3 Hin. apply Hb. by right.
Qed.
Lemma for_in_map {E A C S} (g : A → C) l (body : C → S → outcome E S) s :
  for_in (map g l) body s = for_in l (λ a, body (g a)) s.
Proof. revert s. induction l as [|a l IH]; intros s; cbn [for_in map]; [done|]. by destruct (body _ _); simpl. Qed.
Lemma for_in_app {E A S} l1 l2 (body : A → S → outcome E S) s :
  for_in (l1 ++ l2) body s = (s ← for_in l1 body s; for_in l2 body s).
Proof. revert s. induction l1 as [|a l IH]; intros s; cbn [for_in app]; [done|]. by destruct (body _ _); simpl. Qed.
(** Upward and downward loops, with an invariant indexed by the counter. *)
Lemma for_up {E S} (P : Z → S → Prop) a n (body : Z → S → outcome E S) s :
  P a s → (∀ i s, a ≤ i < a + Z.of_nat n → P i s → ∃ s', body i s = Ok s' ∧ P (i + 1) s') →
  ∃ s', for_in (seqZ a (Z.of_nat n)) body s = Ok s' ∧ P (a + Z.of_nat n) s'.
Proof.
  revert a s. induction n as [|n IH]; intros a s Hs Hb.
  { rewrite Z.add_0_r. by eexists. }
  rewrite seqZ_cons by lia. cbn [for_in].
  destruct (Hb a s) as (s1 & -> & H1); [lia|done|]. out_simpl.
  replace (Z.pred (Z.of_nat (Datatypes.S n))) with (Z.of_nat n) by lia.
  destruct (IH (Z.succ a) s1) as (s2 & -> & H2).
  - by rewrite <- Z.add_1_r.
  - intros i s' Hi. apply Hb. lia.
  - exists s2. split; [done|]. by replace (a + _) with (Z.succ a + Z.of_nat n) by lia.
Qed.
Lemma for_down {E S} (P : Z → S → Prop) a n (body : Z → S → outcome E S) s :
  P (a + Z.of_nat n) s →
  (∀ i s, a ≤ i < a + Z.of_nat n → P (i + 1) s → ∃ s', body i s = Ok s' ∧ P i s') →
  ∃ s', for_in (rev (seqZ a (Z.of_nat n))) body s = Ok s' ∧ P a s'.
Proof.
  revert s. induction n as [|n IH]; intros s Hs Hb.
  { rewrite Z.add_0_r in Hs. by eexists. }
  rewrite Nat2Z.inj_succ, <- Z.add_1_r, seqZ_app by lia. cbn [seqZ]. rewrite rev_app_distr.
  change (seqZ (a + Z.of_nat n) 1) with [Z.of_nat 0 + (a + Z.of_nat n)].
  cbn [rev app for_in].
  destruct (Hb (a + Z.of_nat n) s) as (s1 & H1 & Hs1); [lia| |].
  { by replace (a + Z.of_nat n + 1) with (a + Z.of_nat (Datatypes.S n)) by lia. }
  change (Z.of_nat 0 + (a + Z.of_nat n)) with (a + Z.of_nat n). rewrite H1. out_simpl.
  apply IH; [done|]. intros i s' Hi. apply Hb. lia.
Qed.
Lemma elem_of_range a b i : i ∈ range a b ↔ a ≤ i < b.
Proof. unfold range. rewrite elem_of_seqZ. lia. Qed.


(** A boolean test on [a, a + p), by halves: what computation shows of a large range. *)
Fixpoint all_from (p : positive) (a : Z) (f : Z → bool) : bool :=
  match p with
  | xH => f a
  | xO p => all_from p a f && all_from p (a + Zpos p) f
  | xI p => f a && (all_from p (a + 1) f && all_from p (a + 1 + Zpos p) f)
  end.
Lemma all_from_spec p a f z : all_from p a f = true → a ≤ z < a + Zpos p → f z = true.
Proof.
  revert a. induction p as [p IH|p IH|]; intros a; cbn [all_from]; rewrite ?andb_true_iff.
  - intros (H0 & H1 & H2) Hz. destruct (Z.eq_dec z a) as [->|]; [done|].
    destruct (Z.lt_ge_cases z (a + 1 + Zpos p)); [apply (IH (a + 1))|apply (IH (a + 1 + Zpos p))]; lia || done.
  - intros (H1 & H2) Hz.
    destruct (Z.lt_ge_cases z (a + Zpos p)); [apply (IH a)|apply (IH (a + Zpos p))]; lia || done.
  - intros Hf Hz. by replace z with a by lia.
Qed.
