(* ===== verification/MemMgr.v ===== *)
(** The guest heap allocator [MemoryManager] of src/src/loader/managers.rs:
    first-fit over a free list, bump allocation above it, and reclaiming of the
    topmost free blocks.  The invariant says that the blocks of positive size
    tile the heap from its base to the bump pointer. *)
From S2P Require Import Prelude.

(** [AllocBlock] (managers.rs). *)
Record AllocBlock := mk_block { addr : Z; _size : Z }.

(** [MemoryManager] (managers.rs). *)
Record MemoryManager := mk_mm {
  allocated : list AllocBlock;
  free_list : list AllocBlock;
  next_free : Z;
  limit : Z;
}.

#[export] Instance AllocBlock_eq_dec : EqDecision AllocBlock.
Proof. solve_decision. Defined.

(** [MemoryManager::new] *)
Definition new (base lim : Z) : MemoryManager :=
  {| allocated := []; free_list := []; next_free := base; limit := lim |}.

(** [sort_by_key(|b| b.addr)]: a stable sort. *)
Fixpoint insert_by_addr (b : AllocBlock) (l : list AllocBlock) : list AllocBlock :=
  match l with
  | [] => [b]
  | c :: l' => if addr b <=? addr c then b :: c :: l' else c :: insert_by_addr b l'
  end.
Definition sort_by_addr (l : list AllocBlock) : list AllocBlock :=
  foldr insert_by_addr [] l.

Section ops.
Context {B : Build} {E : Type}.

(** [MemoryManager::alloc] *)
Definition alloc (m : MemoryManager) (size : Z) : outcome E (option Z * MemoryManager) :=
  match checked_add M32 size 4095 with
  | None => Ok (None, m)
  | Some s =>
    let size := Z.land s (Z.lnot 4095) in
    match list_find (λ b, size ≤ _size b) (free_list m) with
    | Some (idx, block) =>
      let free_list' := delete idx (free_list m) in
      free_list' ←
        (if size <? _size block then
           a ← uadd M32 (addr block) size;
           r ← usub M32 (_size block) size;
           Ok (free_list' ++ [mk_block a r])
         else Ok free_list');
      Ok (Some (addr block),
          mk_mm (allocated m ++ [mk_block (addr block) size]) free_list' (next_free m) (limit m))
    | None =>
      match checked_add M32 (next_free m) size with
      | None => Ok (None, m)
      | Some end_ =>
        if limit m <? end_ then Ok (None, m)
        else Ok (Some (next_free m),
                 mk_mm (allocated m ++ [mk_block (next_free m) size]) (free_list m)
                       end_ (limit m))
      end
    end
  end.

(** The [while let Some(last)] loop of [MemoryManager::free]; each turn pops
    one block, so the length of the free list is fuel enough. *)
Fixpoint coalesce (fuel : nat) (fl : list AllocBlock) (nf : Z)
    : outcome E (list AllocBlock * Z) :=
  match last fl with
  | None => Ok (fl, nf)
  | Some lst =>
    end_ ← uadd M32 (addr lst) (_size lst);
    if end_ =? nf then
      match fuel with
      | O => Diverge
      | S fuel => coalesce fuel (take (length fl - 1) fl) (addr lst)
      end
    else Ok (fl, nf)
  end.

(** [MemoryManager::free] *)
Definition free (m : MemoryManager) (a : Z) : outcome E (bool * MemoryManager) :=
  match list_find (λ b, addr b = a) (allocated m) with
  | Some (idx, block) =>
    let fl := sort_by_addr (free_list m ++ [block]) in
    '(fl, nf) ← coalesce (length fl) fl (next_free m);
    Ok (true, mk_mm (delete idx (allocated m)) fl nf (limit m))
  | None => Ok (false, m)
  end.

(** Any sequence of calls on one manager. *)
Inductive op := OpAlloc (size : Z) | OpFree (a : Z).

Definition step (m : MemoryManager) (o : op) : outcome E MemoryManager :=
  match o with
  | OpAlloc size => snd <$> alloc m size
  | OpFree a => snd <$> free m a
  end.
Fixpoint run (m : MemoryManager) (os : list op) : outcome E MemoryManager :=
  match os with
  | [] => Ok m
  | o :: os => m' ← step m o; run m' os
  end.
End ops.

(** * Lemmas on the sort *)

Lemma insert_by_addr_perm b l : insert_by_addr b l ≡ₚ b :: l.
Proof.
  induction l as [|c l IH]; simpl; [done|].
  destruct (addr b <=? addr c); [done|]. rewrite IH. by constructor.
Qed.
Lemma sort_by_addr_perm l : sort_by_addr l ≡ₚ l.
Proof. induction l as [|b l IH]; simpl; [done|]. by rewrite insert_by_addr_perm, IH. Qed.

Definition addr_sorted (l : list AllocBlock) : Prop :=
  ∀ i j b c, (i < j)%nat → l !! i = Some b → l !! j = Some c → addr b ≤ addr c.

Lemma addr_sorted_cons b l :
  addr_sorted (b :: l) ↔ Forall (λ c, addr b ≤ addr c) l ∧ addr_sorted l.
Proof.
  split.
  - intros H. split.
    + apply Forall_lookup. intros i c Hc. apply (H 0%nat (S i)); auto with lia.
    + intros i j x y ? Hx Hy. apply (H (S i) (S j)); auto with lia.
  - intros [Hb Hl] [|i] [|j] x y Hij Hx Hy; simplify_eq/=; try lia.
    + by eapply Forall_lookup_1 in Hb.
    + eapply (Hl i j); eauto with lia.
Qed.

Lemma insert_by_addr_sorted b l : addr_sorted l → addr_sorted (insert_by_addr b l).
Proof.
  induction l as [|c l IH]; simpl.
  - intros _. apply addr_sorted_cons. split; [constructor|]. intros ??; by intros.
  - rewrite addr_sorted_cons. intros [Hc Hl]. destruct (Z.leb_spec (addr b) (addr c)).
    + rewrite !addr_sorted_cons. split; [|done]. constructor; [done|].
      eapply Forall_impl; [done|]. simpl; lia.
    + rewrite addr_sorted_cons. split; [|auto]. rewrite insert_by_addr_perm.
      constructor; [lia|done].
Qed.
Lemma sort_by_addr_sorted l : addr_sorted (sort_by_addr l).
Proof.
  induction l; simpl; [intros ??; by intros|]. by apply insert_by_addr_sorted.
Qed.

(** * The heap invariant *)

(** [l], in this order, covers [a, b) without gap or overlap. *)
Fixpoint tiles (a : Z) (l : list AllocBlock) (b : Z) : Prop :=
  match l with
  | [] => a = b
  | x :: l => addr x = a ∧ 0 < _size x ∧ tiles (a + _size x) l b
  end.

Abbreviation positive := (filter (λ b : AllocBlock, 0 < _size b)).

Definition block_ok (base top : Z) (b : AllocBlock) : Prop :=
  0 ≤ _size b ∧ base ≤ addr b ∧ addr b + _size b ≤ top ∧
  _size b mod 4096 = 0 ∧ (addr b - base) mod 4096 = 0.

(** [blocks] of positive size cover exactly [base, nf). *)
Definition covers (base : Z) (blocks : list AllocBlock) (nf : Z) : Prop :=
  ∃ l, l ≡ₚ positive blocks ∧ tiles base l nf.

Definition heap_top (base : Z) (m : MemoryManager) : Z := Z.max base (limit m).

Record inv (base : Z) (m : MemoryManager) : Prop := {
  inv_base : 0 ≤ base;
  inv_top : next_free m ≤ heap_top base m;
  inv_range : heap_top base m < M32;
  inv_blocks : Forall (block_ok base (heap_top base m)) (allocated m ++ free_list m);
  inv_covers : covers base (allocated m ++ free_list m) (next_free m);
  inv_aligned : (next_free m - base) mod 4096 = 0;
}.

Lemma tiles_app a l1 l2 c :
  tiles a (l1 ++ l2) c ↔ ∃ b, tiles a l1 b ∧ tiles b l2 c.
Proof.
  revert a. induction l1 as [|x l1 IH]; intros a; simpl; [naive_solver|].
  rewrite IH. naive_solver.
Qed.
Lemma tiles_le a l b : tiles a l b → a ≤ b.
Proof. revert a. induction l as [|x l IH]; simpl; intros a; [lia|]. intros (?&?&?%IH). lia. Qed.
Lemma tiles_self a l : tiles a l a → l = [].
Proof. destruct l; simpl; [done|]. intros (?&?&?%tiles_le). lia. Qed.
Lemma tiles_middle a l1 x l2 c :
  tiles a (l1 ++ x :: l2) c ↔
  tiles a l1 (addr x) ∧ 0 < _size x ∧ tiles (addr x + _size x) l2 c.
Proof. rewrite tiles_app. simpl. split; [intros (?&?&<-&?&?)|intros (?&?&?)]; eauto. Qed.
Lemma tiles_bounds a l b x : tiles a l b → x ∈ l → a ≤ addr x ∧ addr x + _size x ≤ b.
Proof.
  intros H (l1&l2&->)%list_elem_of_split.
  apply tiles_middle in H as (?%tiles_le & ? & ?%tiles_le). lia.
Qed.
(** Two distinct places of a tiling hold disjoint blocks. *)
Lemma tiles_disjoint a l c i j x y :
  tiles a l c → (i < j)%nat → l !! i = Some x → l !! j = Some y →
  addr x + _size x ≤ addr y.
Proof.
  intros H Hij Hx Hy. apply take_drop_middle in Hx. rewrite <- Hx in H, Hy.
  apply tiles_middle in H as (_ & _ & H).
  rewrite lookup_app_r in Hy by (rewrite length_take; lia).
  rewrite length_take in Hy. destruct (j - _ `min` _)%nat eqn:Hj; [lia|].
  apply (tiles_bounds _ _ _ y) in H; [lia|]. by eapply list_elem_of_lookup_2.
Qed.

#[export] Instance covers_proper base : Proper ((≡ₚ) ==> (=) ==> iff) (covers base).
Proof. intros l l' Hl ? ? ->. unfold covers. by setoid_rewrite Hl. Qed.

(** Replacing one block by blocks that cover the same range. *)
Lemma covers_subst base x ys rest nf :
  0 ≤ _size x → covers (addr x) ys (addr x + _size x) →
  covers base (x :: rest) nf → covers base (ys ++ rest) nf.
Proof.
  intros Hx (ly & Hy & Hty) (l & Hl & Ht). unfold covers. rewrite filter_app.
  destruct (decide (0 < _size x)) as [Hpos|].
  - rewrite filter_cons_True in Hl by done.
    assert (x ∈ l) as (l1 & l2 & ->)%list_elem_of_split by (rewrite Hl; set_solver).
    exists (l1 ++ ly ++ l2). apply tiles_middle in Ht as (? & _ & ?). split.
    + rewrite <- Hy. rewrite <- Permutation_middle in Hl. apply (inj (cons x)) in Hl.
      rewrite <- Hl. by rewrite Permutation_app_swap_app.
    + apply tiles_app. eexists; split; [done|]. apply tiles_app. eauto.
  - assert (_size x = 0) as H0 by lia. rewrite H0, Z.add_0_r in Hty.
    apply tiles_self in Hty as ->. apply Permutation_nil_l in Hy as Hy'.
    exists l. split; [|done]. rewrite Hl, filter_cons_False by done. by rewrite <- Hy'.
Qed.

(** Popping a block that ends at the bump pointer. *)
Lemma covers_pop base x rest :
  0 ≤ _size x → covers base (x :: rest) (addr x + _size x) → covers base rest (addr x).
Proof.
  intros Hx (l & Hl & Ht). destruct (decide (0 < _size x)).
  - rewrite filter_cons_True in Hl by done.
    assert (x ∈ l) as (l1 & l2 & ->)%list_elem_of_split by (rewrite Hl; set_solver).
    apply tiles_middle in Ht as (? & _ & ->%tiles_self). exists l1. split; [|done].
    rewrite Permutation_app_comm in Hl. simpl in Hl. by apply (inj (cons x)) in Hl.
  - rewrite filter_cons_False in Hl by done. exists l. split; [done|].
    by replace (addr x) with (addr x + _size x) by lia.
Qed.

Lemma page_round s : 0 ≤ s →
  s ≤ Z.land (s + 4095) (Z.lnot 4095) < s + 4096 ∧
  Z.land (s + 4095) (Z.lnot 4095) mod 4096 = 0.
Proof.
  intros Hs. pose proof (land_lnot_ones (s + 4095) 12 ltac:(done)) as Hr.
  change (Z.ones 12) with 4095 in Hr. change (2 ^ 12) with 4096 in Hr. rewrite Hr.
  pose proof (Z.mod_pos_bound (s + 4095) 4096). pose proof (Z.div_mod (s + 4095) 4096).
  split; [lia|].
  replace (_ - _) with ((s + 4095) / 4096 * 4096) by lia. apply Z_mod_mult.
Qed.

(** * The allocator under the invariant *)

Section correct.
Context {B : Build} {E : Type}.
Implicit Types m : MemoryManager.

Lemma new_inv base lim : 0 ≤ base → base < M32 → lim < M32 → inv base (new base lim).
Proof.
  intros. split; unfold heap_top; simpl; try lia.
  - constructor.
  - exists []. done.
  - by rewrite Z.sub_diag.
Qed.

(** The bump pointer never passes [limit] (nor the base, when the limit is below it),
    and every operation's parts are described by these equations. *)
Lemma alloc_free_case base m size idx block :
  inv base m → 0 ≤ size → size mod 4096 = 0 →
  list_find (λ b, size ≤ _size b) (free_list m) = Some (idx, block) →
  let rest := delete idx (free_list m) in
  let fl := rest ++ (if size <? _size block
                     then [mk_block (addr block + size) (_size block - size)] else []) in
  inv base (mk_mm (allocated m ++ [mk_block (addr block) size]) fl (next_free m) (limit m)).
Proof.
  intros [Hb Ht Hr Hok Hcov Hal] Hs Hs0 (Hidx & Hle & _)%list_find_Some rest fl.
  pose proof (delete_Permutation _ _ _ Hidx) as Hperm. fold rest in Hperm.
  set (ys := mk_block (addr block) size :: drop (length rest) fl).
  assert (Hfl : allocated m ++ [mk_block (addr block) size] ++ fl
                ≡ₚ ys ++ allocated m ++ rest).
  { subst ys fl. rewrite drop_app_length. simpl. rewrite (Permutation_app_comm rest).
    rewrite <- !Permutation_middle. constructor. rewrite !(assoc_L (++)).
    by rewrite (Permutation_app_comm (allocated m)). }
  rewrite Hperm in Hok, Hcov. rewrite <- Permutation_middle in Hok, Hcov.
  apply Forall_cons in Hok as [Hblock Hok]. unfold block_ok, heap_top in *.
  split; unfold heap_top; simpl; rewrite <- ?(assoc_L (++)); try done.
  - rewrite Hfl. apply Forall_app. split; [|done]. unfold block_ok. simpl.
    subst ys fl. rewrite drop_app_length. constructor; [simpl; lia|].
    destruct (Z.ltb_spec size (_size block)); constructor; [|constructor]. simpl.
    split_and!; try lia.
    + rewrite Zminus_mod, Hs0. replace (_size block mod 4096) with 0 by lia. done.
    + replace (_ - base) with ((addr block - base) + size) by lia.
      rewrite Zplus_mod, Hs0. by replace ((addr block - base) mod 4096) with 0 by lia.
  - rewrite Hfl. apply (covers_subst base block); [lia| |done]. subst ys fl.
    rewrite drop_app_length. unfold covers. eexists; split; [done|].
    destruct (Z.ltb_spec size (_size block)); rewrite filter_cons; simpl.
    + rewrite filter_cons_True by (simpl; lia). case_decide; simpl; split_and!; lia.
    + case_decide; simpl; [split_and!|]; lia.
Qed.

Lemma alloc_bump_case base m size :
  inv base m → 0 ≤ size → size mod 4096 = 0 → next_free m + size ≤ limit m →
  inv base (mk_mm (allocated m ++ [mk_block (next_free m) size]) (free_list m)
                  (next_free m + size) (limit m)).
Proof.
  intros [Hb Ht Hr Hok Hcov Hal] Hs Hs0 Hlim. unfold heap_top in *.
  assert (base ≤ next_free m) by (destruct Hcov as (? & _ & ?%tiles_le); lia).
  assert (Hp : allocated m ++ [mk_block (next_free m) size] ++ free_list m
          ≡ₚ mk_block (next_free m) size :: allocated m ++ free_list m)
    by (simpl; by rewrite <- Permutation_middle).
  split; unfold heap_top; simpl; rewrite <- ?(assoc_L (++)); try lia.
  - rewrite Hp. constructor; [|done]. unfold block_ok; simpl. split_and!; try lia; done.
  - rewrite Hp. destruct Hcov as (l & Hl & Htl). unfold covers. rewrite filter_cons. simpl.
    case_decide; simpl in *.
    + exists (l ++ [mk_block (next_free m) size]). split.
      * rewrite Hl. by rewrite <- Permutation_cons_append.
      * apply tiles_app. exists (next_free m). by simpl.
    + exists l. split; [done|]. by replace (next_free m + size) with (next_free m) by lia.
  - replace (_ - base) with ((next_free m - base) + size) by lia.
    by rewrite Zplus_mod, Hs0, Hal.
Qed.

(** What one call of [alloc] does, on every path. *)
Lemma alloc_spec base m size :
  inv base m → u32 size → let sz := Z.land (size + 4095) (Z.lnot 4095) in
  ∃ r m', alloc (E:=E) m size = Ok (r, m') ∧ inv base m' ∧ limit m' = limit m ∧
    match r with
    | Some a => allocated m' = allocated m ++ [mk_block a sz]
    | None => m' = m ∧
        (M32 ≤ size + 4095 ∨
         Forall (λ b, _size b < sz) (free_list m) ∧ limit m < next_free m + sz)
    end.
Proof.
  intros Hinv Hu sz. unfold u32, alloc in *.
  pose proof (page_round size ltac:(lia)) as [Hsz Hsz0]. fold sz in Hsz, Hsz0.
  destruct (checked_add _ _ _) as [s|] eqn:Hca; simpl.
  2: { apply checked_add_None in Hca. exists None, m. naive_solver lia. }
  apply checked_add_Some in Hca as [-> Hlt]. fold sz.
  destruct (list_find _ (free_list m)) as [[idx block]|] eqn:Hfind.
  - pose proof (alloc_free_case base m sz idx block Hinv ltac:(lia) Hsz0 Hfind) as Hinv'.
    apply list_find_Some in Hfind as (Hidx & Hle & _).
    destruct Hinv as [Hb _ Hr Hok _ _].
    assert (block_ok base (heap_top base m) block) as Hbl.
    { rewrite Forall_forall in Hok. apply Hok, elem_of_app. right.
      by eapply list_elem_of_lookup_2. }
    unfold block_ok, heap_top in *. simpl in Hinv'.
    destruct (Z.ltb_spec sz (_size block)); simpl.
    + rewrite uadd_ok, usub_ok by lia. simpl. by eexists _, _.
    + rewrite app_nil_r in Hinv'. by eexists _, _.
  - rewrite list_find_None in Hfind.
    assert (Forall (λ b, _size b < sz) (free_list m)) as Hnone.
    { eapply Forall_impl; [done|]. simpl; lia. }
    destruct (checked_add _ (next_free m) _) as [e|] eqn:Hca.
    + apply checked_add_Some in Hca as [-> ?].
      destruct (Z.ltb_spec (limit m) (next_free m + sz)).
      * eexists _, _. naive_solver lia.
      * eexists _, _. split; [done|]. split; [|done]. apply alloc_bump_case; auto; lia.
    + apply checked_add_None in Hca. eexists _, _. split; [done|].
      split; [done|]. split_and!; [done..|]. destruct Hinv as [? _ Hr _ _ _].
      unfold heap_top in Hr. right. split; [done|lia].
Qed.

Lemma covers_disjoint base x y rest nf :
  covers base (x :: y :: rest) nf → 0 < _size x → 0 < _size y →
  addr x + _size x ≤ addr y ∨ addr y + _size y ≤ addr x.
Proof.
  intros (l & Hl & Ht) Hx Hy. rewrite !filter_cons_True in Hl by done.
  assert (x ∈ l) as (l1 & l2 & ->)%list_elem_of_split by (rewrite Hl; set_solver).
  rewrite <- Permutation_middle in Hl. apply (inj (cons x)) in Hl.
  assert (y ∈ l1 ++ l2) as [Hin|Hin]%elem_of_app by (rewrite Hl; set_solver);
    apply tiles_middle in Ht as (H1 & _ & H2).
  - right. apply (tiles_bounds _ _ _ _ H1) in Hin. lia.
  - left. apply (tiles_bounds _ _ _ _ H2) in Hin. lia.
Qed.

Lemma last_take (fl : list AllocBlock) x :
  last fl = Some x → fl = take (length fl - 1) fl ++ [x].
Proof.
  intros [l ->]%last_Some. rewrite length_app. simpl.
  replace (_ + 1 - 1)%nat with (length l) by lia. by rewrite take_app_length.
Qed.

(** The loop of [free] ends, keeps the invariant, and stops only when the topmost
    free block does not touch the bump pointer. *)
Lemma coalesce_spec base top A fuel fl nf :
  (length fl ≤ fuel)%nat → 0 ≤ base → top < M32 → nf ≤ top → (nf - base) mod 4096 = 0 →
  Forall (block_ok base top) (A ++ fl) → covers base (A ++ fl) nf →
  ∃ fl' nf', coalesce (E:=E) fuel fl nf = Ok (fl', nf') ∧ fl' `prefix_of` fl ∧
    nf' ≤ nf ∧ (nf' - base) mod 4096 = 0 ∧
    Forall (block_ok base top) (A ++ fl') ∧ covers base (A ++ fl') nf' ∧
    (∀ x, last fl' = Some x → addr x + _size x ≠ nf').
Proof.
  revert fl nf. induction fuel as [|fuel IH]; intros fl nf Hlen Hb Htop Hnf Hal Hok Hcov.
  { destruct fl; [|simpl in *; lia]. exists [], nf. naive_solver. }
  cbn [coalesce]. destruct (last fl) as [x|] eqn:Hlast.
  2: { exists fl, nf. rewrite Hlast. naive_solver. }
  pose proof (last_take _ _ Hlast) as Hfl.
  assert (length (take (length fl - 1) fl) ≤ fuel)%nat as Hlen0 by (rewrite length_take; lia).
  generalize dependent (take (length fl - 1) fl). intros fl0 Hfl Hlen0.
  assert (Hperm : A ++ fl ≡ₚ x :: A ++ fl0).
  { rewrite Hfl. rewrite (assoc_L (++)). by rewrite <- Permutation_cons_append. }
  assert (block_ok base top x) as Hx by (rewrite Hperm in Hok; by inversion Hok).
  unfold block_ok in Hx. rewrite uadd_ok by lia. out_simpl.
  destruct (Z.eqb_spec (addr x + _size x) nf) as [<-|].
  2: { exists fl, nf. rewrite Hlast. naive_solver. }
  rewrite Hperm in Hok, Hcov. apply Forall_cons in Hok as [_ Hok].
  apply covers_pop in Hcov; [|lia].
  destruct (IH fl0 (addr x)) as (fl' & nf' & Heq & ? & ? & ?); auto; try lia.
  exists fl', nf'. split; [done|]. split; [|naive_solver lia].
  rewrite Hfl. by apply prefix_app_r.
Qed.

(** What one call of [free] does, on every path. *)
Lemma free_spec base m a :
  inv base m →
  match list_find (λ b, addr b = a) (allocated m) with
  | None => free (E:=E) m a = Ok (false, m)
  | Some (idx, _) =>
    ∃ m', free (E:=E) m a = Ok (true, m') ∧ inv base m' ∧ limit m' = limit m ∧
      allocated m' = delete idx (allocated m) ∧ next_free m' ≤ next_free m ∧
      addr_sorted (free_list m') ∧
      (∀ x, last (free_list m') = Some x → addr x + _size x ≠ next_free m') ∧
      free_list m' ⊆ (free_list m ++ allocated m)
  end.
Proof.
  intros [Hb Ht Hr Hok Hcov Hal]. unfold free.
  destruct (list_find _ _) as [[idx block]|] eqn:Hfind; [|done].
  apply list_find_Some in Hfind as (Hidx & _ & _).
  pose proof (sort_by_addr_perm (free_list m ++ [block])) as Hsort.
  pose proof (sort_by_addr_sorted (free_list m ++ [block])) as Hsorted.
  set (fl := sort_by_addr _) in *.
  assert (Hperm : allocated m ++ free_list m ≡ₚ delete idx (allocated m) ++ fl).
  { rewrite Hsort, (delete_Permutation _ _ _ Hidx) at 1. rewrite <- Permutation_cons_append.
    by rewrite <- Permutation_middle. }
  rewrite Hperm in Hok, Hcov.
  destruct (coalesce_spec base (heap_top base m) (delete idx (allocated m)) (length fl) fl
              (next_free m)) as (fl' & nf' & -> & Hpre & ? & ? & ? & ? & ?); auto.
  out_simpl. eexists. split; [done|]. simpl. split_and!; auto.
  - split; unfold heap_top in *; simpl; auto; lia.
  - destruct Hpre as [k Hk]. intros i j b c Hij Hbi Hcj.
    apply (Hsorted i j); [done| |]; rewrite Hk; by apply lookup_app_l_Some.
  - destruct Hpre as [k Hk]. intros x Hx. assert (x ∈ fl) as Hx' by (rewrite Hk; set_solver).
    rewrite Hsort in Hx'. apply list_elem_of_lookup_2 in Hidx. set_solver.
Qed.
End correct.

(** * Properties *)

Definition op_ok (o : op) : Prop := match o with OpAlloc size => u32 size | OpFree _ => True end.

Lemma run_inv {B : Build} {E} base (os : list op) m :
  inv base m → Forall op_ok os →
  ∃ m', run (E:=E) m os = Ok m' ∧ inv base m' ∧ limit m' = limit m.
Proof.
  intros Hinv Hos. revert m Hinv.
  induction Hos as [|o os Ho _ IH]; intros m Hinv; [eauto|].
  destruct o as [size|a]; cbn [run step].
  - destruct (alloc_spec (E:=E) base m size Hinv Ho) as (r & m' & -> & Hinv' & <- & _).
    by apply IH.
  - pose proof (free_spec (E:=E) base m a Hinv) as Hf.
    destruct (list_find _ _) as [[idx b]|].
    + destruct Hf as (m' & -> & Hinv' & <- & _). by apply IH.
    + rewrite Hf. by apply IH.
Qed.

(** C2: whatever sequence of allocations and frees the guest issues on a fresh heap (sizes
    any u32, freed addresses arbitrary, valid or not), no call panics, in either build
    profile: the unchecked additions and subtractions of [alloc] and [free] never
    overflow and the reclaiming loop ends; and the blocks of positive size, live and free,
    tile the heap from its base to the bump pointer without gap or overlap. *)
Theorem run_never_panics {B : Build} {E} base lim (os : list op) :
  0 ≤ base → base < M32 → lim < M32 → Forall op_ok os →
  ∃ m, run (E:=E) (new base lim) os = Ok m ∧ inv base m ∧ limit m = lim.
Proof. intros. apply (run_inv base os (new base lim)); [by apply new_inv|done]. Qed.

Definition heap_lo := 0x2000000.
Definition heap_hi := 0x10000000.
Lemma run_never_panics_witness :
  ∃ m, run (B:=dev_profile) (E:=unit) (new heap_lo heap_hi)
         [OpAlloc 5000; OpAlloc 1; OpFree heap_lo; OpAlloc 4096; OpFree 7; OpAlloc 0]
       = Ok m ∧ inv heap_lo m ∧ limit m = heap_hi.
Proof.
  apply (run_never_panics (B:=dev_profile)); unfold heap_lo, heap_hi; [lia..|].
  repeat constructor; unfold op_ok, u32; lia.
Defined.

(** The two blocks share an address. *)
Definition overlaps (x y : AllocBlock) : Prop :=
  ∃ a, addr x ≤ a < addr x + _size x ∧ addr y ≤ a < addr y + _size y.

(** C4: on a heap satisfying the invariant, [alloc] of a non-zero size answers with the start
    of a block of the size rounded up to whole pages, page-aligned relative to the heap
    base, inside the heap, recorded as live and overlapping no block that was live; it
    fails, leaving the manager as it was, exactly when rounding overflows, or no free block
    is large enough and the bump pointer cannot advance below the limit. *)
Theorem alloc_fresh {B : Build} {E} base m size :
  inv base m → u32 size → 0 < size →
  let sz := Z.land (size + 4095) (Z.lnot 4095) in
  ∃ r m', alloc (E:=E) m size = Ok (r, m') ∧ inv base m' ∧
    match r with
    | Some a =>
        allocated m' = allocated m ++ [mk_block a sz] ∧
        base ≤ a ∧ a + sz ≤ heap_top base m ∧ (a - base) mod 4096 = 0 ∧
        size ≤ sz < size + 4096 ∧ sz mod 4096 = 0 ∧
        Forall (λ b, ¬ overlaps (mk_block a sz) b) (allocated m)
    | None => m' = m ∧
        (M32 ≤ size + 4095 ∨
         Forall (λ b, _size b < sz) (free_list m) ∧ limit m < next_free m + sz)
    end.
Proof.
  intros Hinv Hu Hpos sz.
  destruct (page_round size ltac:(lia)) as [Hsz Hsz0]. fold sz in Hsz, Hsz0.
  destruct (alloc_spec (E:=E) base m size Hinv Hu) as (r & m' & Heq & Hinv' & Hl & Hr).
  exists r, m'. split_and!; [done..|]. destruct r as [a|]; [|done].
  destruct Hinv' as [_ _ _ Hok Hcov _]. fold sz in Hr. rewrite Hr in Hok, Hcov.
  rewrite <- (assoc_L (++)) in Hok, Hcov. simpl in Hok, Hcov.
  rewrite <- Permutation_middle in Hok, Hcov. apply Forall_cons in Hok as [Ha Hok].
  unfold block_ok, heap_top in *. rewrite Hl in Ha. simpl in Ha.
  split_and!; try done; try lia. apply Forall_forall. intros b Hb (z & H1 & H2). simpl in *.
  apply list_elem_of_lookup in Hb as [i Hi]. pose proof (delete_Permutation _ _ _ Hi) as Hp.
  rewrite Hp in Hcov. apply Forall_app in Hok as [Hok _].
  apply (Forall_lookup_1 _ _ _ _ Hok) in Hi as Hbok.
  simpl in Hcov. apply covers_disjoint in Hcov; simpl in *; lia.
Qed.

Lemma alloc_fresh_witness :
  ∃ r m', alloc (B:=dev_profile) (E:=unit) (new heap_lo heap_hi) 5000 = Ok (r, m') ∧
    r = Some heap_lo.
Proof.
  destruct (alloc_fresh (B:=dev_profile) (E:=unit) heap_lo (new heap_lo heap_hi) 5000)
    as (r & m' & H & _); [apply new_inv; done|done|done|].
  exists r, m'. split; [exact H|]. vm_compute in H. by injection H.
Defined.

Definition all_positive (m : MemoryManager) : Prop :=
  Forall (λ b, 0 < _size b) (allocated m ++ free_list m).

Lemma filter_all_positive l : Forall (λ b, 0 < _size b) l → positive l = l.
Proof. induction 1; [done|]. rewrite filter_cons_True by done. by f_equal. Qed.

Lemma sorted_cover_last base l nf x :
  covers base l nf → Forall (λ b, 0 < _size b) l → addr_sorted l → last l = Some x →
  addr x + _size x = nf.
Proof.
  intros (t & Ht & Htl) Hpos Hs Hx. rewrite filter_all_positive in Ht by done.
  destruct (last t) as [y|] eqn:Hy.
  2: { apply last_None in Hy as ->. apply Permutation_nil_l in Ht. by subst. }
  apply last_Some in Hy as [t' ->]. pose proof Htl as Htl'.
  apply tiles_middle in Htl as (Ht1 & Hyp & Hend). simpl in Hend.
  assert (x ∈ t' ++ [y]) as Hin.
  { rewrite Ht. rewrite last_lookup in Hx. by eapply list_elem_of_lookup_2. }
  apply elem_of_app in Hin as [Hin| ->%list_elem_of_singleton]; [|done].
  pose proof (tiles_bounds _ _ _ _ Ht1 Hin).
  assert (y ∈ l) as [j Hj]%list_elem_of_lookup by (rewrite <- Ht; set_solver).
  rewrite last_lookup in Hx. pose proof (lookup_lt_Some _ _ _ Hj).
  assert (0 < _size x) by apply (Forall_lookup_1 _ _ _ _ Hpos Hx).
  destruct (decide (j = pred (length l))) as [->|].
  - rewrite Hj in Hx. by injection Hx as ->.
  - assert (addr y ≤ addr x); [|lia]. apply (Hs j (pred (length l))); [lia|done|done].
Qed.

(** When every block has a positive size, freeing the last live block gives back the
    whole heap: the manager is again the one [new] built, whatever fragmentation the
    earlier calls left. *)
Theorem free_last_resets {B : Build} {E} base m b :
  inv base m → all_positive m → allocated m = [b] →
  free (E:=E) m (addr b) = Ok (true, new base (limit m)).
Proof.
  intros Hinv Hpos Hb. pose proof (free_spec (E:=E) base m (addr b) Hinv) as Hf.
  rewrite Hb in Hf. simpl in Hf. rewrite decide_True in Hf by done.
  destruct Hf as (m' & -> & Hinv' & Hl & Ha & _ & Hs & Hstop & Hsub). do 2 f_equal.
  destruct m' as [al fl nf lim]; simpl in *. subst al lim.
  destruct Hinv' as [_ _ _ _ Hcov _]. simpl in *.
  assert (Forall (λ b, 0 < _size b) fl) as Hfl.
  { unfold all_positive in Hpos. rewrite Hb in Hpos. rewrite Forall_forall in Hpos |- *.
    intros x Hx. apply Hpos. apply Hsub in Hx. set_solver. }
  destruct (last fl) as [x|] eqn:Hx.
  - by destruct (Hstop x eq_refl); eapply sorted_cover_last.
  - apply last_None in Hx as ->. destruct Hcov as (t & Ht & Htl).
    simpl in Ht. apply Permutation_nil_r in Ht as ->. simpl in Htl. by subst.
Qed.

Definition demo_ops : list op :=
  [OpAlloc 5000; OpAlloc 1; OpAlloc 9000; OpFree heap_lo; OpAlloc 1;
   OpFree heap_lo; OpFree (heap_lo + 0x3000)].
Definition demo_mm : MemoryManager :=
  match run (B:=dev_profile) (E:=unit) (new heap_lo heap_hi) demo_ops with
  | Ok m => m | _ => new heap_lo heap_hi end.
Lemma demo_mm_inv : inv heap_lo demo_mm.
Proof.
  assert (Forall op_ok demo_ops) as Hops by (repeat constructor; done).
  destruct (run_inv (B:=dev_profile) (E:=unit) heap_lo demo_ops (new heap_lo heap_hi))
    as (m & H & Hinv & _); [by apply new_inv|done|].
  unfold demo_mm. by rewrite H.
Qed.

Lemma free_last_resets_witness :
  ∃ b, allocated demo_mm = [b] ∧
    free (B:=dev_profile) (E:=unit) demo_mm (addr b) = Ok (true, new heap_lo heap_hi).
Proof.
  eexists. split; [vm_compute; reflexivity|].
  refine (free_last_resets (B:=dev_profile) heap_lo demo_mm _ demo_mm_inv _ _);
    vm_compute; repeat constructor.
Defined.

(** A request of size 0 is granted, with the address the next request gets too: two live
    allocations share an address, and freeing either frees the first of them. *)
Lemma alloc_zero_shares :
  ∃ m, run (B:=release_profile) (E:=unit) (new heap_lo heap_hi) [OpAlloc 0; OpAlloc 4096] = Ok m ∧
    allocated m = [mk_block heap_lo 0; mk_block heap_lo 4096].
Proof. eexists; split; vm_compute; reflexivity. Qed.
