(* ===== verification/Bytes.v ===== *)
(** Bytes and text: little-endian integers, the [Read + Seek] stream the parsers read
    from, and the Rust [String] operations the components share.

    A byte is a [Z] in [0, 256).  A stream is the whole byte sequence of the file and
    a position, as [std::io::Cursor] has it: a read past the end fails with
    [UnexpectedEof].  A Rust [String] is the list of its Unicode scalar values. *)
From S2P Require Import Prelude.

Definition bytes := list Z.
Definition rstring := list Z.

Definition is_byte (b : Z) : Prop := 0 ≤ b < 256.
#[export] Instance is_byte_dec b : Decision (is_byte b).
Proof. unfold is_byte. apply _. Defined.
Definition len {A} (l : list A) : Z := Z.of_nat (length l).
(** [l[i]] as an option, for an index of type usize. *)
Definition idx {A} (l : list A) (i : Z) : option A :=
  if (0 <=? i) && (i <? len l) then l !! Z.to_nat i else None.
(** [&l[a..a + n]], for a range that is in bounds. *)
Definition slice {A} (l : list A) (a n : Z) : list A :=
  take (Z.to_nat n) (drop (Z.to_nat a) l).

(** A literal of the source, as bytes or as a string. *)
Definition str (s : string) : list Z :=
  map (λ a, Z.of_N (Ascii.N_of_ascii a)) (String.list_ascii_of_string s).

Ltac zbool :=
  repeat match goal with
  | |- context [?a <? ?b] =>
      first [rewrite (proj2 (Z.ltb_lt a b)) by lia | rewrite (proj2 (Z.ltb_ge a b)) by lia]
  | |- context [?a <=? ?b] =>
      first [rewrite (proj2 (Z.leb_le a b)) by lia | rewrite (proj2 (Z.leb_gt a b)) by lia]
  | |- context [?a =? ?b] =>
      first [rewrite (proj2 (Z.eqb_eq a b)) by lia | rewrite (proj2 (Z.eqb_neq a b)) by lia]
  end; cbn [andb orb negb].

(** * Little-endian integers *)

(** The value of a little-endian byte list ([from_le_bytes]) and the [n] low bytes of an
    integer ([to_le_bytes]). *)
Fixpoint le_val (l : bytes) : Z :=
  match l with [] => 0 | b :: l => b + 256 * le_val l end.
Fixpoint le_bytes (n : nat) (x : Z) : bytes :=
  match n with O => [] | S n => x mod 256 :: le_bytes n (x / 256) end.

Abbreviation le16 := (le_bytes 2).
Abbreviation le32 := (le_bytes 4).

Lemma length_le_bytes n x : length (le_bytes n x) = n.
Proof. revert x. induction n; simpl; auto. Qed.
Lemma le_bytes_bytes n x : Forall is_byte (le_bytes n x).
Proof.
  revert x. induction n; constructor; auto. unfold is_byte. apply Z.mod_pos_bound. lia.
Qed.
Lemma le_val_range l : Forall is_byte l → 0 ≤ le_val l < 256 ^ Z.of_nat (length l).
Proof.
  unfold is_byte. induction 1 as [|b l Hb Hl IH]; cbn [le_val length]; [lia|].
  rewrite Nat2Z.inj_succ, Z.pow_succ_r by lia. lia.
Qed.
Lemma le_val_bytes n x : 0 ≤ x < 256 ^ Z.of_nat n → le_val (le_bytes n x) = x.
Proof.
  revert x. induction n as [|n IH]; intros x; [simpl; lia|].
  rewrite Nat2Z.inj_succ, Z.pow_succ_r by lia. intros Hx. cbn [le_bytes le_val].
  pose proof (Z.div_mod x 256 ltac:(lia)). rewrite IH; [lia|].
  split; [apply Z.div_pos; lia|]. apply Z.div_lt_upper_bound; lia.
Qed.
Lemma le_val_bytes_mod n x : le_val (le_bytes n x) = x mod 256 ^ Z.of_nat n.
Proof.
  revert x. induction n as [|n IH]; intros x; [by rewrite Z.mod_1_r|].
  rewrite Nat2Z.inj_succ, Z.pow_succ_r by lia. cbn [le_bytes le_val]. rewrite IH.
  by rewrite Z.rem_mul_r by lia.
Qed.
Lemma le_bytes_val l : Forall is_byte l → le_bytes (length l) (le_val l) = l.
Proof.
  unfold is_byte. induction 1 as [|b l Hb Hl IH]; cbn [le_val le_bytes length]; [done|].
  rewrite (Z.mul_comm 256), Z.mod_add, Z.div_add by lia.
  rewrite Z.mod_small, Z.div_small by lia. by rewrite Z.add_0_l, IH.
Qed.

(** * The input stream *)

Inductive io_error :=
| UnexpectedEof
| InvalidData (msg : string) (args : list Z).
#[export] Instance io_error_eq_dec : EqDecision io_error.
Proof. solve_decision. Defined.

Definition io := outcome io_error.
Definition rd (A : Type) : Type := bytes → Z → io (A * Z).
#[export] Instance rd_ret : MRet rd := λ A a data pos, Ok (a, pos).
#[export] Instance rd_bind : MBind rd := λ A B f m data pos,
  match m data pos with
  | Ok (a, pos) => f a data pos
  | Err e => Err e
  | Panic => Panic
  | Diverge => Diverge
  end.

(** [seek(SeekFrom::Start(pos))], [stream_position()], [read_exact] of [n] bytes *)
Definition seek (pos : Z) : rd unit := λ _ _, Ok (tt, pos).
Definition stream_position : rd Z := λ _ pos, Ok (pos, pos).
Definition read_exact (n : Z) : rd bytes := λ data pos,
  if (n =? 0) || (pos + n <=? len data) then Ok (slice data pos n, pos + n)
  else Err UnexpectedEof.
Definition fail {A} (e : io_error) : rd A := λ _ _, Err e.
Definition lift {A} (m : io A) : rd A := λ _ pos,
  match m with Ok a => Ok (a, pos) | Err e => Err e | Panic => Panic | Diverge => Diverge end.
Definition diverge {A} : rd A := λ _ _, Diverge.
(** [if reader.read_exact(..).is_err() { .. }]: the read as an option. *)
Definition try_read (n : Z) : rd (option bytes) := λ data pos,
  match read_exact n data pos with
  | Ok (b, pos) => Ok (Some b, pos)
  | _ => Ok (None, len data)
  end.
Definition read_u8 : rd Z := b ← read_exact 1; mret (le_val b).
Definition read_u16 : rd Z := b ← read_exact 2; mret (le_val b).
Definition read_u32 : rd Z := b ← read_exact 4; mret (le_val b).
(** [for _ in 0..n { v.push(m?) }] *)
Fixpoint read_n {A} (n : nat) (m : rd A) : rd (list A) :=
  match n with
  | O => mret []
  | S n => a ← m; l ← read_n n m; mret (a :: l)
  end.

(** [m] never panics nor runs out of fuel. *)
Definition total {A} (m : rd A) : Prop := ∀ data pos, returns (m data pos).
(** [m] reads forward: by at least [k] bytes, all of them inside the file. *)
Definition advances {A} (k : Z) (m : rd A) : Prop :=
  ∀ data pos a pos', m data pos = Ok (a, pos') →
    pos + k ≤ pos' ∧ (pos' = pos ∨ pos' ≤ len data).

Create HintDb stream.

Lemma rd_bind_Ok {A B} (m : rd A) (f : A → rd B) data pos b pos' :
  (m ≫= f) data pos = Ok (b, pos') ↔
  ∃ a p, m data pos = Ok (a, p) ∧ f a data p = Ok (b, pos').
Proof.
  unfold mbind, rd_bind. destruct (m data pos) as [[a p]| | |]; naive_solver.
Qed.

Lemma total_ret {A} (a : A) : total (mret a).
Proof. by intros ??. Qed.
Lemma total_bind {A B} (m : rd A) (f : A → rd B) :
  total m → (∀ a, total (f a)) → total (m ≫= f).
Proof.
  intros Hm Hf data pos. unfold mbind, rd_bind. specialize (Hm data pos).
  destruct (m data pos) as [[a p]| | |]; [apply Hf|done..].
Qed.
Lemma total_seek p : total (seek p).
Proof. by intros ??. Qed.
Lemma total_position : total stream_position.
Proof. by intros ??. Qed.
Lemma total_read_exact n : total (read_exact n).
Proof. intros ??. unfold read_exact. by destruct (_ || _). Qed.
Lemma total_try_read n : total (try_read n).
Proof. intros ??. unfold try_read. by destruct (read_exact n _ _) as [[]| | |]. Qed.
Lemma total_fail {A} e : total (fail (A:=A) e).
Proof. by intros ??. Qed.
Lemma total_if {A} (b : bool) (m1 m2 : rd A) : total m1 → total m2 → total (if b then m1 else m2).
Proof. by destruct b. Qed.
Lemma total_read_n {A} n (m : rd A) : total m → total (read_n n m).
Proof.
  intros Hm. induction n; simpl; [apply total_ret|].
  apply total_bind; [done|]. intros a. apply total_bind; [done|]. intros. apply total_ret.
Qed.
#[export] Hint Resolve total_ret total_bind total_seek total_position total_read_exact
  total_try_read total_fail total_if total_read_n : stream.
Lemma total_read_uint n : total (b ← read_exact n; mret (le_val b)).
Proof. auto with stream. Qed.
Lemma total_read_u8 : total read_u8.
Proof. apply total_read_uint. Qed.
Lemma total_read_u16 : total read_u16.
Proof. apply total_read_uint. Qed.
Lemma total_read_u32 : total read_u32.
Proof. apply total_read_uint. Qed.
Lemma total_returns {A} (m : rd A) data pos : total m → returns (m data pos).
Proof. intros H. apply H. Qed.
#[export] Hint Resolve total_read_u8 total_read_u16 total_read_u32 total_returns : stream.

Lemma advances_weaken {A} k k' (m : rd A) : k' ≤ k → advances k m → advances k' m.
Proof. intros ? H data pos a pos' [? ?]%H. split; [lia|done]. Qed.
Lemma advances_ret {A} (a : A) : advances 0 (mret a).
Proof. intros data pos a' pos' [= <- <-]. split; [lia|by left]. Qed.
Lemma advances_bind {A B} k1 k2 (m : rd A) (f : A → rd B) :
  0 ≤ k1 → 0 ≤ k2 → advances k1 m → (∀ a, advances k2 (f a)) → advances (k1 + k2) (m ≫= f).
Proof.
  intros ?? Hm Hf data pos b pos' (a & p & Ha%Hm & Hb%Hf)%rd_bind_Ok. lia.
Qed.
Lemma advances_read_exact n : 0 ≤ n → advances n (read_exact n).
Proof.
  intros ? data pos a pos'. unfold read_exact.
  destruct (Z.eqb_spec n 0), (Z.leb_spec (pos + n) (len data)); simpl; naive_solver lia.
Qed.
Lemma advances_try_read n data pos b pos' :
  0 ≤ n → try_read n data pos = Ok (Some b, pos') → pos + n ≤ pos' ∧ (pos' = pos ∨ pos' ≤ len data).
Proof.
  intros ?. unfold try_read. destruct (read_exact n data pos) as [[b' p]| | |] eqn:Hr; [|done..].
  intros [= -> ->]. eapply advances_read_exact; [|done]. lia.
Qed.

Lemma advances_read_u8 : advances 1 read_u8.
Proof. apply (advances_bind 1 0); [lia..| |intros; apply advances_ret]. by apply advances_read_exact. Qed.
Lemma advances0_ret {A} (a : A) : advances 0 (mret a).
Proof. apply advances_ret. Qed.
Lemma advances0_bind {A B} (m : rd A) (f : A → rd B) :
  advances 0 m → (∀ a, advances 0 (f a)) → advances 0 (m ≫= f).
Proof. by apply (advances_bind 0 0). Qed.
Lemma advances0_read_exact n : 0 ≤ n → advances 0 (read_exact n).
Proof. intros ?. by eapply advances_weaken, advances_read_exact. Qed.
Lemma advances0_if {A} (b : bool) (m1 m2 : rd A) :
  advances 0 m1 → advances 0 m2 → advances 0 (if b then m1 else m2).
Proof. by destruct b. Qed.
Lemma advances0_lift {A} (m : io A) : advances 0 (lift m).
Proof. intros data pos a pos'. unfold lift. destruct m; naive_solver lia. Qed.
Lemma advances0_read_n {A} n (m : rd A) : advances 0 m → advances 0 (read_n n m).
Proof.
  intros Hm. induction n; simpl; [apply advances0_ret|].
  apply advances0_bind; [done|]. intros a. apply advances0_bind; [done|]. intros.
  apply advances0_ret.
Qed.

(** Every result of [m] on well-formed bytes satisfies [P]. *)
Definition yields {A} (m : rd A) (P : A → Prop) : Prop :=
  ∀ data pos a p, Forall is_byte data → m data pos = Ok (a, p) → P a.

Lemma slice_byte data pos n : Forall is_byte data → Forall is_byte (slice data pos n).
Proof. intros. by apply Forall_take, Forall_drop. Qed.
Lemma length_slice {A} (l : list A) pos n :
  0 ≤ pos → 0 ≤ n → pos + n ≤ len l → length (slice l pos n) = Z.to_nat n.
Proof. intros. unfold slice, len in *. rewrite length_take, length_drop. lia. Qed.
Lemma length_slice_le {A} (l : list A) pos n : (length (slice l pos n) ≤ Z.to_nat n)%nat.
Proof. unfold slice. rewrite length_take. lia. Qed.

Lemma yields_uint (n : nat) :
  yields (b ← read_exact (Z.of_nat n); mret (le_val b)) (λ x, 0 ≤ x < 256 ^ Z.of_nat n).
Proof.
  intros data pos a p Hd (b & p' & Hb & [= <- <-])%rd_bind_Ok. unfold read_exact in Hb.
  destruct (_ || _); [|done]. injection Hb as <- <-.
  pose proof (le_val_range _ (slice_byte data pos (Z.of_nat n) Hd)).
  pose proof (length_slice_le data pos (Z.of_nat n)).
  pose proof (Z.pow_le_mono_r 256 (Z.of_nat (length (slice data pos (Z.of_nat n))))
                (Z.of_nat n)). lia.
Qed.
Lemma yields_u8 : yields read_u8 u8.
Proof. apply (yields_uint 1). Qed.
Lemma yields_u16 : yields read_u16 u16.
Proof. apply (yields_uint 2). Qed.
Lemma yields_u32 : yields read_u32 u32.
Proof. apply (yields_uint 4). Qed.

Lemma read_n_Ok {A} n (m : rd A) data pos l p :
  read_n n m data pos = Ok (l, p) → length l = n.
Proof.
  revert pos l p. induction n as [|n IH]; intros pos l p; simpl; [by intros [= <- <-]|].
  intros (a & p1 & _ & (l' & p2 & H%IH & [= <- <-])%rd_bind_Ok)%rd_bind_Ok. simpl. by rewrite H.
Qed.

Lemma read_n_yields {A} n (m : rd A) P : yields m P → yields (read_n n m) (Forall P).
Proof.
  intros Hm data pos l p Hd. revert pos l p. induction n as [|n IH]; intros pos l p; simpl.
  { intros [= <- <-]. constructor. }
  intros (a & p1 & Ha & (l' & p2 & H%IH & [= <- <-])%rd_bind_Ok)%rd_bind_Ok.
  constructor; [by eapply Hm|done].
Qed.
Lemma seek_Ok pos data p u p' : seek pos data p = Ok (u, p') → p' = pos.
Proof. by intros [= _ <-]. Qed.
Lemma idx_lookup {A} (l : list A) i : 0 ≤ i → idx l i = l !! Z.to_nat i.
Proof.
  intros. unfold idx, len. zbool. destruct (Z.ltb_spec i (Z.of_nat (length l))); [done|].
  symmetry. apply lookup_ge_None. lia.
Qed.
Lemma idx_is_Some {A} (l : list A) i : 0 ≤ i < len l → ∃ x, idx l i = Some x ∧ x ∈ l.
Proof.
  intros. rewrite idx_lookup by lia. unfold len in *.
  destruct (lookup_lt_is_Some_2 l (Z.to_nat i) ltac:(lia)) as [x Hx].
  exists x. split; [done|]. by eapply list_elem_of_lookup_2.
Qed.
Lemma idx_Some_range {A} (l : list A) i x : idx l i = Some x → 0 ≤ i < len l.
Proof.
  unfold idx. destruct (Z.leb_spec 0 i), (Z.ltb_spec i (len l)); cbn [andb]; done || lia.
Qed.

(** [m] returns from every position of the file [data]. *)
Definition total_at {A} (data : bytes) (m : rd A) : Prop := ∀ pos, returns (m data pos).
Lemma total_total_at {A} data (m : rd A) : total m → total_at data m.
Proof. intros H pos. apply H. Qed.
Lemma total_at_bind {A B} data (m : rd A) (f : A → rd B) :
  total_at data m → (∀ a p p', m data p = Ok (a, p') → total_at data (f a)) →
  total_at data (m ≫= f).
Proof.
  intros Hm Hf pos. unfold mbind, rd_bind. specialize (Hm pos).
  destruct (m data pos) as [[a p]| | |] eqn:Heq; [by eapply Hf|done..].
Qed.
Lemma total_at_if {A} data (b : bool) (m1 m2 : rd A) :
  (b = true → total_at data m1) → (b = false → total_at data m2) →
  total_at data (if b then m1 else m2).
Proof. destruct b; auto. Qed.

Lemma rd_bind_returns {A B} data pos (m : rd A) (f : A → rd B) :
  returns (m data pos) → (∀ a p, m data pos = Ok (a, p) → returns (f a data p)) →
  returns ((m ≫= f) data pos).
Proof. unfold mbind, rd_bind. destruct (m data pos) as [[a p]| | |]; naive_solver. Qed.
Lemma total_lift_ok {A} (a : A) : total (lift (Ok a)).
Proof. by intros ??. Qed.
(** A loop that consumes input ends: the fuel needed at [pos] is the bytes left. *)
Definition left (data : bytes) (pos : Z) : nat := Z.to_nat (len data - pos).
Lemma left_advance data pos pos' :
  pos < pos' → pos' ≤ len data → (left data pos' < left data pos)%nat.
Proof. unfold left. lia. Qed.
Lemma left_le data pos : 0 ≤ pos → (left data pos ≤ length data)%nat.
Proof. unfold left, len. lia. Qed.
(** Fuel from the size of the input. *)
Definition with_fuel {A} (f : nat → rd A) : rd A := λ data pos, f (S (length data)) data pos.

(** [m] reads exactly the bytes [b], wherever they are in the file, as [a]. *)
Definition decodes {A} (m : rd A) (b : bytes) (a : A) : Prop :=
  ∀ pre post, m (pre ++ b ++ post) (len pre) = Ok (a, len pre + len b).

Lemma len_app {A} (l1 l2 : list A) : len (l1 ++ l2) = len l1 + len l2.
Proof. unfold len. rewrite length_app. lia. Qed.
Lemma len_nonneg {A} (l : list A) : 0 ≤ len l.
Proof. unfold len. lia. Qed.
Lemma len_cons {A} (x : A) l : len (x :: l) = 1 + len l.
Proof. unfold len. cbn [length]. lia. Qed.

Lemma len_le_bytes n x : len (le_bytes n x) = Z.of_nat n.
Proof. unfold len. by rewrite length_le_bytes. Qed.
Lemma len_replicate {A} n (x : A) : len (replicate n x) = Z.of_nat n.
Proof. unfold len. by rewrite length_replicate. Qed.
Lemma slice_app_r {A} (pre body : list A) x n : 0 ≤ x → slice (pre ++ body) (len pre + x) n = slice body x n.
Proof.
  intros Hx. unfold slice, len. f_equal. rewrite drop_app_ge by lia. f_equal. lia.
Qed.
Lemma slice_app_l {A} (l1 l2 : list A) a n : 0 ≤ a → a + n ≤ len l1 → slice (l1 ++ l2) a n = slice l1 a n.
Proof.
  intros Ha Hn. unfold slice, len in *. destruct (Z.lt_ge_cases n 0).
  { replace (Z.to_nat n) with O by lia. done. }
  rewrite drop_app_le by lia. rewrite take_app_le; [done|]. rewrite length_drop. lia.
Qed.
Lemma slice_middle {A} (pre b post : list A) n :
  n = len b → slice (pre ++ b ++ post) (len pre) n = b.
Proof.
  intros ->. unfold slice, len. rewrite !Nat2Z.id, drop_app_length. apply take_app_length.
Qed.

Lemma decodes_ret {A} (a : A) : decodes (mret a) [] a.
Proof. intros pre post. unfold mret, rd_ret. do 2 f_equal. unfold len; simpl; lia. Qed.
Lemma decodes_bind {A C} (m : rd A) (f : A → rd C) b1 b2 a c :
  decodes m b1 a → decodes (f a) b2 c → decodes (m ≫= f) (b1 ++ b2) c.
Proof.
  intros Hm Hf pre post. unfold mbind, rd_bind.
  rewrite <- (assoc_L (++)), Hm. specialize (Hf (pre ++ b1) post).
  rewrite <- (assoc_L (++)), !len_app in Hf. rewrite Hf. do 2 f_equal. rewrite len_app. lia.
Qed.
Lemma decodes_bind_ret {A C} (m : rd A) (f : A → C) b a :
  decodes m b a → decodes (x ← m; mret (f x)) b (f a).
Proof. intros. rewrite <- (app_nil_r b). eapply decodes_bind; [done|apply decodes_ret]. Qed.
Lemma decodes_read_exact n b : n = len b → decodes (read_exact n) b b.
Proof.
  intros -> pre post. unfold read_exact. rewrite !len_app.
  rewrite slice_middle by done. pose proof (len_nonneg post).
  by rewrite (proj2 (Z.leb_le _ _)), orb_true_r by lia.
Qed.
Lemma decodes_uint (n : nat) x :
  0 ≤ x < 256 ^ Z.of_nat n →
  decodes (b ← read_exact (Z.of_nat n); mret (le_val b)) (le_bytes n x) x.
Proof.
  intros Hx. rewrite <- (le_val_bytes n x) at 2 by done. apply decodes_bind_ret.
  apply decodes_read_exact. unfold len. by rewrite length_le_bytes.
Qed.
Lemma decodes_u8 x : u8 x → decodes read_u8 (le_bytes 1 x) x.
Proof. apply (decodes_uint 1). Qed.
Lemma decodes_u16 x : u16 x → decodes read_u16 (le16 x) x.
Proof. apply (decodes_uint 2). Qed.
Lemma decodes_u32 x : u32 x → decodes read_u32 (le32 x) x.
Proof. apply (decodes_uint 4). Qed.
#[export] Hint Resolve decodes_ret decodes_u8 decodes_u16 decodes_u32 : stream.

Lemma decodes_read_n {A} (m : rd A) (enc : A → bytes) l :
  Forall (λ a, decodes m (enc a) a) l →
  decodes (read_n (length l) m) (concat (map enc l)) l.
Proof.
  induction 1 as [|a l Ha _ IH]; simpl; [apply decodes_ret|].
  eapply decodes_bind; [done|]. rewrite <- (app_nil_r (concat _)).
  eapply decodes_bind; [done|]. apply decodes_ret.
Qed.

(** ** What was read is what the file holds

    [encodes m enc]: a result of [m] is the one whose encoding lies at the position it read from,
    and [m] stops at the end of it. *)
Definition spans (data : bytes) (pos : Z) (b : bytes) (p : Z) : Prop :=
  p = pos + len b ∧ slice data pos (len b) = b.
Definition encodes {A} (m : rd A) (enc : A → bytes) : Prop := ∀ data pos a p,
  Forall is_byte data → 0 ≤ pos → m data pos = Ok (a, p) → spans data pos (enc a) p.

Lemma slice_nil {A} (l : list A) pos : slice l pos 0 = [].
Proof. done. Qed.
Lemma slice_split {A} (l : list A) pos n1 n2 : 0 ≤ pos → 0 ≤ n1 → 0 ≤ n2 →
  slice l pos (n1 + n2) = slice l pos n1 ++ slice l (pos + n1) n2.
Proof.
  intros. unfold slice. rewrite (Z2Nat.inj_add n1 n2), (Z2Nat.inj_add pos n1) by done.
  rewrite <- drop_drop. by rewrite <- take_take_drop.
Qed.
Lemma spans_nil data pos : spans data pos [] pos.
Proof. split; [unfold len; cbn; lia|]. apply slice_nil. Qed.
Lemma spans_app data pos b1 p1 b2 p2 : 0 ≤ pos →
  spans data pos b1 p1 → spans data p1 b2 p2 → spans data pos (b1 ++ b2) p2.
Proof.
  intros Hp [-> H1] [-> H2]. pose proof (len_nonneg b1). pose proof (len_nonneg b2).
  split; rewrite len_app; [lia|]. rewrite slice_split by lia. by rewrite H1, H2.
Qed.
Lemma spans_pos data pos b p : 0 ≤ pos → spans data pos b p → 0 ≤ p.
Proof. intros ? [-> _]. pose proof (len_nonneg b). lia. Qed.
Lemma read_exact_spans n data pos b p : 0 ≤ n → 0 ≤ pos → read_exact n data pos = Ok (b, p) →
  spans data pos b p ∧ len b = n.
Proof.
  intros Hn Hp. unfold read_exact. destruct (Z.eqb_spec n 0) as [->|Hne].
  { intros [= <- <-]. rewrite slice_nil, Z.add_0_r. split; [apply spans_nil|done]. }
  destruct (Z.leb_spec (pos + n) (len data)); [|done]. cbn [orb]. intros [= <- <-].
  assert (len (slice data pos n) = n) as Hl by (unfold len; rewrite length_slice by lia; lia).
  split; [split|done]; by rewrite Hl.
Qed.
Lemma encodes_uint (n : nat) :
  encodes (b ← read_exact (Z.of_nat n); mret (le_val b)) (le_bytes n).
Proof.
  intros data pos a p Hd Hp (b & p' & Hb & [= <- <-])%rd_bind_Ok.
  apply read_exact_spans in Hb as [[-> Hs] Hl]; [|lia..].
  assert (le_bytes n (le_val b) = b) as ->; [|by split].
  replace n with (length b) by (unfold len in Hl; lia). apply le_bytes_val.
  rewrite <- Hs. by apply slice_byte.
Qed.
Lemma encodes_u8 : encodes read_u8 (le_bytes 1).
Proof. apply (encodes_uint 1). Qed.
Lemma encodes_u16 : encodes read_u16 le16.
Proof. apply (encodes_uint 2). Qed.
Lemma encodes_u32 : encodes read_u32 le32.
Proof. apply (encodes_uint 4). Qed.
Lemma encodes_read_n {A} n (m : rd A) (enc : A → bytes) :
  encodes m enc → encodes (read_n n m) (λ l, concat (map enc l)).
Proof.
  intros Hm data pos l p Hd Hp. revert pos l p Hp. induction n as [|n IH]; intros pos l p Hp; cbn [read_n].
  { intros [= <- <-]. apply spans_nil. }
  intros (a & p1 & Ha & (l' & p2 & Hl & [= <- <-])%rd_bind_Ok)%rd_bind_Ok.
  apply Hm in Ha; [|done..]. cbn [map concat]. eapply spans_app; [done|exact Ha|].
  apply IH; [by eapply spans_pos|done].
Qed.
(** The readers of records, field by field. *)
Ltac encodes_fields :=
  match goal with
  | H : (_ ≫= _) _ _ = Ok _ |- _ =>
    apply rd_bind_Ok in H as (? & ? & ?H & H); encodes_fields
  | H : mret _ _ _ = Ok _ |- _ => injection H as <- <-
  end.
Ltac spans_fields :=
  match goal with
  | |- spans _ _ [] _ => apply spans_nil
  | H : read_u8 ?d ?q = Ok (?a, ?p) |- spans ?d ?q _ _ =>
    apply encodes_u8 in H; [|done..]; eapply spans_app; [done|exact H|];
    apply spans_pos in H; [|done]; spans_fields
  | H : read_u16 ?d ?q = Ok (?a, ?p) |- spans ?d ?q _ _ =>
    apply encodes_u16 in H; [|done..]; eapply spans_app; [done|exact H|];
    apply spans_pos in H; [|done]; spans_fields
  | H : read_u32 ?d ?q = Ok (?a, ?p) |- spans ?d ?q _ _ =>
    apply encodes_u32 in H; [|done..]; eapply spans_app; [done|exact H|];
    apply spans_pos in H; [|done]; spans_fields
  end.

(** A parser that starts with [seek] on a file holding [b] at that place. *)
Lemma decodes_at {A} (m : rd A) b a pre post pos :
  decodes m b a → pos = len pre → m (pre ++ b ++ post) pos = Ok (a, pos + len b).
Proof. intros H ->. apply H. Qed.

(** * Text *)

(** A Unicode scalar value. *)
Definition is_char (c : Z) : Prop := 0 ≤ c < 0xD800 ∨ 0xE000 ≤ c < 0x110000.
Definition REPLACEMENT_CHARACTER : Z := 0xFFFD.

Definition utf8_char (c : Z) : bytes :=
  if c <? 0x80 then [c]
  else if c <? 0x800 then [0xC0 + c / 64; 0x80 + c mod 64]
  else if c <? 0x10000 then [0xE0 + c / 4096; 0x80 + c / 64 mod 64; 0x80 + c mod 64]
  else [0xF0 + c / 262144; 0x80 + c / 4096 mod 64; 0x80 + c / 64 mod 64; 0x80 + c mod 64].
(** [s.as_bytes()] *)
Definition as_bytes (s : rstring) : bytes := concat (map utf8_char s).

Definition in_range (a b x : Z) : bool := (a <=? x) && (x <=? b).
Definition is_cont (b : Z) : bool := in_range 0x80 0xBF b.

(** The second bytes that may follow a three- or four-byte lead. *)
Definition second3 (b0 b1 : Z) : bool :=
  if b0 =? 0xE0 then in_range 0xA0 0xBF b1
  else if b0 =? 0xED then in_range 0x80 0x9F b1
  else is_cont b1.
Definition second4 (b0 b1 : Z) : bool :=
  if b0 =? 0xF0 then in_range 0x90 0xBF b1
  else if b0 =? 0xF4 then in_range 0x80 0x8F b1
  else is_cont b1.

(** [String::from_utf8_lossy]: a maximal prefix of an ill-formed sequence becomes one
    replacement character. *)
Fixpoint from_utf8_lossy (l : bytes) : rstring :=
  match l with
  | [] => []
  | b0 :: l0 =>
    if b0 <? 0x80 then b0 :: from_utf8_lossy l0
    else if in_range 0xC2 0xDF b0 then
      match l0 with
      | b1 :: l1 =>
        if is_cont b1 then ((b0 - 0xC0) * 64 + (b1 - 0x80)) :: from_utf8_lossy l1
        else REPLACEMENT_CHARACTER :: from_utf8_lossy l0
      | [] => [REPLACEMENT_CHARACTER]
      end
    else if in_range 0xE0 0xEF b0 then
      match l0 with
      | b1 :: l1 =>
        if second3 b0 b1 then
          match l1 with
          | b2 :: l2 =>
            if is_cont b2 then
              ((b0 - 0xE0) * 4096 + (b1 - 0x80) * 64 + (b2 - 0x80)) :: from_utf8_lossy l2
            else REPLACEMENT_CHARACTER :: from_utf8_lossy l1
          | [] => [REPLACEMENT_CHARACTER]
          end
        else REPLACEMENT_CHARACTER :: from_utf8_lossy l0
      | [] => [REPLACEMENT_CHARACTER]
      end
    else if in_range 0xF0 0xF4 b0 then
      match l0 with
      | b1 :: l1 =>
        if second4 b0 b1 then
          match l1 with
          | b2 :: l2 =>
            if is_cont b2 then
              match l2 with
              | b3 :: l3 =>
                if is_cont b3 then
                  ((b0 - 0xF0) * 262144 + (b1 - 0x80) * 4096 + (b2 - 0x80) * 64 + (b3 - 0x80))
                    :: from_utf8_lossy l3
                else REPLACEMENT_CHARACTER :: from_utf8_lossy l2
              | [] => [REPLACEMENT_CHARACTER]
              end
            else REPLACEMENT_CHARACTER :: from_utf8_lossy l1
          | [] => [REPLACEMENT_CHARACTER]
          end
        else REPLACEMENT_CHARACTER :: from_utf8_lossy l0
      | [] => [REPLACEMENT_CHARACTER]
      end
    else REPLACEMENT_CHARACTER :: from_utf8_lossy l0
  end.

Lemma in_range_true a b x : a ≤ x ≤ b → in_range a b x = true.
Proof. intros. unfold in_range. by zbool. Qed.
Lemma in_range_false a b x : x < a ∨ b < x → in_range a b x = false.
Proof. intros. unfold in_range. apply andb_false_iff. rewrite !Z.leb_gt. lia. Qed.

Lemma lossy_char c l : is_char c → from_utf8_lossy (utf8_char c ++ l) = c :: from_utf8_lossy l.
Proof.
  unfold is_char. intros Hc. unfold utf8_char.
  pose proof (Z.div_mod c 64 ltac:(lia)). pose proof (Z.mod_pos_bound c 64 ltac:(lia)).
  pose proof (Z.div_mod (c / 64) 64 ltac:(lia)).
  pose proof (Z.mod_pos_bound (c / 64) 64 ltac:(lia)).
  pose proof (Z.div_mod (c / 4096) 64 ltac:(lia)).
  pose proof (Z.mod_pos_bound (c / 4096) 64 ltac:(lia)).
  assert (c / 64 / 64 = c / 4096) by (by rewrite Z.div_div).
  assert (c / 4096 / 64 = c / 262144) by (by rewrite Z.div_div).
  destruct (Z.ltb_spec c 0x80); [by cbn [app from_utf8_lossy]; zbool|].
  destruct (Z.ltb_spec c 0x800).
  { cbn [app from_utf8_lossy]. zbool. unfold is_cont. rewrite !in_range_true by lia. f_equal. lia. }
  destruct (Z.ltb_spec c 0x10000); cbn [app from_utf8_lossy]; zbool.
  - rewrite (in_range_false 0xC2) by lia. rewrite (in_range_true 0xE0) by lia.
    assert (second3 (0xE0 + c / 4096) (0x80 + c / 64 mod 64) = true) as ->.
    { unfold second3, is_cont. bool_split; apply in_range_true; lia. }
    unfold is_cont. rewrite in_range_true by lia. f_equal. lia.
  - rewrite !(in_range_false _ _ (240 + _)) by lia. rewrite (in_range_true 0xF0) by lia.
    assert (second4 (0xF0 + c / 262144) (0x80 + c / 4096 mod 64) = true) as ->.
    { unfold second4, is_cont. bool_split; apply in_range_true; lia. }
    unfold is_cont. rewrite !in_range_true by lia. f_equal. lia.
Qed.

Lemma lossy_as_bytes s : Forall is_char s → from_utf8_lossy (as_bytes s) = s.
Proof.
  unfold as_bytes. induction 1 as [|c s Hc Hs IH]; simpl; [done|]. by rewrite lossy_char, IH.
Qed.
Lemma as_bytes_bytes s : Forall is_char s → Forall is_byte (as_bytes s).
Proof.
  unfold as_bytes. induction 1 as [|c s Hc _ IH]; simpl; [constructor|]. apply Forall_app.
  split; [|exact IH]. unfold is_char in Hc. unfold utf8_char, is_byte.
  pose proof (Z.mod_pos_bound c 64 ltac:(lia)). pose proof (Z.mod_pos_bound (c / 64) 64 ltac:(lia)).
  pose proof (Z.mod_pos_bound (c / 4096) 64 ltac:(lia)).
  repeat case_match; rewrite ?Z.ltb_lt, ?Z.ltb_ge in *;
    repeat (constructor; [try (Z.to_euclidean_division_equations; lia)|]); constructor.
Qed.
Lemma lossy_ascii l : Forall (λ b, 0 ≤ b < 128) l → from_utf8_lossy l = l.
Proof.
  induction 1 as [|b l Hb Hl IH]; cbn [from_utf8_lossy]; [done|]. zbool. by rewrite IH.
Qed.

(** * Formatting of integers *)

(** The digits of [n] in base [b], most significant first; a u64 has at most 64. *)
Fixpoint digits_aux (fuel : nat) (b n : Z) (acc : list Z) : list Z :=
  match fuel with
  | O => acc
  | S fuel => let acc := n mod b :: acc in
              if n / b =? 0 then acc else digits_aux fuel b (n / b) acc
  end.
Definition digits (b n : Z) : list Z := digits_aux 64 b n [].
Definition digit_char (d : Z) : Z := if d <? 10 then 0x30 + d else 0x41 + (d - 10).
(** [{}] and [{:X}] of an unsigned integer. *)
Definition dec_str (n : Z) : rstring := map digit_char (digits 10 n).
Definition hex_str (n : Z) : rstring := map digit_char (digits 16 n).
(** [{:0wX}] *)
Definition hex_str_w (w : nat) (n : Z) : rstring :=
  let s := hex_str n in replicate (w - length s) 0x30 ++ s.

(** The value a list of digits denotes. *)
Definition digits_val (b : Z) (l : list Z) : Z := foldl (λ v d, v * b + d) 0 l.

Lemma digits_aux_val fuel b n acc :
  1 < b → 0 ≤ n < b ^ Z.of_nat fuel →
  digits_val b (digits_aux fuel b n acc) = foldl (λ v d, v * b + d) n acc.
Proof.
  intros Hb. revert n acc. induction fuel as [|fuel IH]; intros n acc Hn; cbn [digits_aux].
  { assert (n = 0) as -> by (simpl in Hn; lia). done. }
  rewrite Nat2Z.inj_succ, Z.pow_succ_r in Hn by lia.
  pose proof (Z.div_mod n b ltac:(lia)). pose proof (Z.mod_pos_bound n b ltac:(lia)).
  destruct (Z.eqb_spec (n / b) 0) as [Hz|].
  - unfold digits_val. cbn [foldl]. f_equal. lia.
  - rewrite IH. { cbn [foldl]. f_equal. lia. }
    split; [apply Z.div_pos; lia|]. apply Z.div_lt_upper_bound; lia.
Qed.
Lemma digits_val_digits b n : 1 < b → 0 ≤ n < b ^ 64 → digits_val b (digits b n) = n.
Proof. intros. by apply (digits_aux_val 64). Qed.
