(* ===== verification/Text.v ===== *)
(** The text operations of Rust's [str] and [char] that the linker and the command shell
    use, on strings as lists of Unicode scalar values, with the lemmas their parsers rest
    on.  [to_uppercase] of a non-ASCII character is a parameter where it is used. *)
From S2P Require Import Prelude Bytes.

(** [char::is_whitespace]: the Unicode property White_Space. *)
Definition is_whitespace (c : Z) : bool :=
  in_range 0x09 0x0D c || (c =? 0x20) || (c =? 0x85) || (c =? 0xA0) || (c =? 0x1680) ||
  in_range 0x2000 0x200A c || (c =? 0x2028) || (c =? 0x2029) || (c =? 0x202F) ||
  (c =? 0x205F) || (c =? 0x3000).

(** [s.starts_with(p)], [s.strip_prefix(p)], [s.ends_with(p)] *)
Fixpoint strip_prefix (p s : rstring) : option rstring :=
  match p, s with
  | [], _ => Some s
  | c :: p, x :: s => if c =? x then strip_prefix p s else None
  | _, [] => None
  end.
Definition starts_with (p s : rstring) : bool := bool_decide (is_Some (strip_prefix p s)).
Definition ends_with (p s : rstring) : bool := starts_with (rev p) (rev s).

(** [s.trim_start_matches(f)], [s.trim_end_matches(f)], [s.trim()] *)
Fixpoint trim_start_by (f : Z → bool) (s : rstring) : rstring :=
  match s with c :: s' => if f c then trim_start_by f s' else s | [] => [] end.
Definition trim_end_by (f : Z → bool) (s : rstring) : rstring := rev (trim_start_by f (rev s)).
Definition trim_start (s : rstring) : rstring := trim_start_by is_whitespace s.
Definition trim_end (s : rstring) : rstring := trim_end_by is_whitespace s.
Definition trim (s : rstring) : rstring := trim_end (trim_start s).

(** The pieces of [s] between the characters [f] holds of ([s.split(f)]). *)
Fixpoint split_by (f : Z → bool) (s : rstring) : list rstring :=
  match s with
  | [] => [[]]
  | c :: s =>
    if f c then [] :: split_by f s
    else match split_by f s with
         | p :: ps => (c :: p) :: ps
         | [] => [[c]]
         end
  end.
(** [s.split_whitespace()]: the non-empty pieces. *)
Definition split_whitespace (s : rstring) : list rstring :=
  filter (λ p, p ≠ []) (split_by is_whitespace s).
(** [s.lines()]: the pieces that end in a line feed, each without a carriage return before it,
    and what is left at the end, if anything. *)
Definition strip_cr (s : rstring) : rstring :=
  if bool_decide (last s = Some 0x0D) then removelast s else s.
Definition lines (s : rstring) : list rstring :=
  let ps := split_by (Z.eqb 0x0A) s in
  map strip_cr (removelast ps) ++ (let r := default [] (last ps) in
                                   if bool_decide (r = []) then [] else [r]).

(** [s.find(c)] with what comes before and after ([s.split_once(c)]). *)
Fixpoint split_once (c : Z) (s : rstring) : option (rstring * rstring) :=
  match s with
  | [] => None
  | x :: s => if x =? c then Some ([], s)
              else (λ '(a, b), (x :: a, b)) <$> split_once c s
  end.

(** [s.parse::<uN>()] for the type of modulus [m]: decimal digits after an optional plus. *)
Definition digit_of (c : Z) : option Z := if in_range 0x30 0x39 c then Some (c - 0x30) else None.
Fixpoint parse_digits (m v : Z) (s : rstring) : option Z :=
  match s with
  | [] => Some v
  | c :: s =>
    d ← digit_of c;
    let v := v * 10 + d in
    if v <? m then parse_digits m v s else None
  end.
Definition parse_uint (m : Z) (s : rstring) : option Z :=
  match s with
  | [] => None
  | c :: s' => if c =? 0x2B then (match s' with [] => None | _ => parse_digits m 0 s' end)
               else parse_digits m 0 s
  end.

(** [s.to_ascii_lowercase()], [s.to_ascii_uppercase()], [a.eq_ignore_ascii_case(b)] *)
Definition lower_char (c : Z) : Z := if in_range 0x41 0x5A c then c + 0x20 else c.
Definition upper_char (c : Z) : Z := if in_range 0x61 0x7A c then c - 0x20 else c.
Definition to_ascii_lowercase (s : rstring) : rstring := map lower_char s.
Definition to_ascii_uppercase (s : rstring) : rstring := map upper_char s.

(** * Lemmas *)

Lemma strip_prefix_app p s : strip_prefix p (p ++ s) = Some s.
Proof. induction p; simpl; [done|]. by rewrite Z.eqb_refl. Qed.
Lemma strip_prefix_Some p s r : strip_prefix p s = Some r ↔ s = p ++ r.
Proof.
  split; [|intros ->; apply strip_prefix_app].
  revert s. induction p as [|c p IH]; intros s; simpl; [by intros [= ->]|].
  destruct s as [|x s]; [done|]. destruct (Z.eqb_spec c x) as [->|]; [|done].
  by intros ->%IH.
Qed.
Lemma starts_with_app p s : starts_with p s = true ↔ ∃ r, s = p ++ r.
Proof.
  unfold starts_with. rewrite bool_decide_eq_true. unfold is_Some.
  by setoid_rewrite strip_prefix_Some.
Qed.
Lemma ends_with_spec p s : ends_with p s = true ↔ ∃ r, s = r ++ p.
Proof.
  unfold ends_with. rewrite starts_with_app. split; intros [r Hr].
  - exists (rev r). by rewrite <- (rev_involutive s), Hr, rev_app_distr, rev_involutive.
  - exists (rev r). by rewrite Hr, rev_app_distr.
Qed.

Lemma split_by_ne f s : split_by f s ≠ [].
Proof. induction s as [|c s IH]; simpl; [done|]. destruct (f c); [done|]. by destruct (split_by f s). Qed.
(** A piece without separators, then a separator. *)
Lemma split_by_app f p c s :
  Forall (λ x, f x = false) p → f c = true → split_by f (p ++ c :: s) = p :: split_by f s.
Proof.
  induction 1 as [|x p Hx Hp IH]; intros Hc; simpl; [by rewrite Hc|].
  rewrite Hx, IH by done. done.
Qed.
Lemma split_by_none f p : Forall (λ x, f x = false) p → split_by f p = [p].
Proof. induction 1 as [|x p Hx Hp IH]; simpl; [done|]. by rewrite Hx, IH. Qed.
(** Joining the pieces with separators gives the text back. *)
Lemma split_by_pieces f s : Forall (Forall (λ x, f x = false)) (split_by f s).
Proof.
  induction s as [|c s IH]; simpl; [by repeat constructor|]. destruct (f c) eqn:Hc.
  { by constructor; [constructor|]. }
  destruct (split_by f s) as [|p ps]; [by repeat constructor|].
  apply Forall_cons in IH as [Hp Hps]. by repeat constructor.
Qed.
Lemma split_whitespace_words s :
  Forall (λ w, w ≠ [] ∧ Forall (λ x, is_whitespace x = false) w) (split_whitespace s).
Proof.
  apply Forall_forall. intros w Hw. unfold split_whitespace in Hw.
  apply list_elem_of_filter in Hw as [Hne Hin]. split; [done|].
  pose proof (split_by_pieces is_whitespace s) as H. rewrite Forall_forall in H. auto.
Qed.
(** The words of a text that starts with a word, and of one that starts with a blank. *)
Lemma split_whitespace_word w c s :
  w ≠ [] → Forall (λ x, is_whitespace x = false) w → is_whitespace c = true →
  split_whitespace (w ++ c :: s) = w :: split_whitespace s.
Proof.
  intros Hne Hw Hc. unfold split_whitespace. rewrite split_by_app by done.
  by rewrite filter_cons_True.
Qed.
Lemma split_whitespace_last w :
  w ≠ [] → Forall (λ x, is_whitespace x = false) w → split_whitespace w = [w].
Proof.
  intros Hne Hw. unfold split_whitespace. rewrite split_by_none by done.
  by rewrite filter_cons_True.
Qed.
Lemma split_whitespace_blank c s :
  is_whitespace c = true → split_whitespace (c :: s) = split_whitespace s.
Proof. intros Hc. unfold split_whitespace. simpl. rewrite Hc. by rewrite filter_cons_False by naive_solver. Qed.

Lemma split_once_app c a b :
  Forall (λ x, x ≠ c) a → split_once c (a ++ c :: b) = Some (a, b).
Proof.
  induction 1 as [|x a Hx Ha IH]; simpl; [by rewrite Z.eqb_refl|].
  rewrite (proj2 (Z.eqb_neq _ _)) by done. by rewrite IH.
Qed.
Lemma split_once_Some c s a b : split_once c s = Some (a, b) → s = a ++ c :: b ∧ Forall (λ x, x ≠ c) a.
Proof.
  revert a. induction s as [|x s IH]; intros a; simpl; [done|].
  destruct (Z.eqb_spec x c) as [->|]; [by intros [= <- <-]|].
  destruct (split_once c s) as [[a' b']|]; [|done]. intros [= <- <-].
  destruct (IH a' eq_refl) as [-> ?]. split; [done|]. by constructor.
Qed.

Lemma digit_of_digit d : 0 ≤ d < 10 → digit_of (digit_char d) = Some d.
Proof. intros. unfold digit_of, digit_char. zbool. rewrite in_range_true by lia. f_equal. lia. Qed.
Lemma parse_digits_bound m v s x : 0 ≤ v < m → parse_digits m v s = Some x → 0 ≤ x < m.
Proof.
  revert v. induction s as [|c s IH]; intros v Hv; simpl; [by intros [= <-]|].
  unfold digit_of. destruct (in_range 0x30 0x39 c) eqn:Hc; [|done].
  cbn [mbind option_bind]. unfold in_range in Hc. apply andb_true_iff in Hc as [H1%Z.leb_le H2%Z.leb_le].
  destruct (Z.ltb_spec (v * 10 + (c - 0x30)) m); [|done]. apply IH. lia.
Qed.
Lemma parse_uint_bound m s x : 0 < m → parse_uint m s = Some x → 0 ≤ x < m.
Proof.
  intros Hm. unfold parse_uint. destruct s as [|c s]; [done|].
  destruct (c =? 0x2B); [destruct s; [done|]|]; apply parse_digits_bound; lia.
Qed.

(** What is printed in decimal is parsed back. *)
Lemma parse_digits_map m v ds :
  0 ≤ v → Forall (λ d, 0 ≤ d < 10) ds → foldl (λ v d, v * 10 + d) v ds < m →
  parse_digits m v (map digit_char ds) = Some (foldl (λ v d, v * 10 + d) v ds).
Proof.
  intros Hv Hds. revert v Hv. induction Hds as [|d ds Hd Hds IH]; intros v Hv Hm; cbn [map parse_digits foldl]; [done|].
  rewrite digit_of_digit by done. cbn [mbind option_bind].
  assert (v * 10 + d ≤ foldl (λ v d, v * 10 + d) (v * 10 + d) ds).
  { cbn [foldl] in Hm. assert (0 ≤ v * 10 + d) as H0 by lia. revert H0. clear -Hds.
    generalize (v * 10 + d). induction Hds as [|e ds He Hds IH]; intros w Hw; cbn [foldl]; [lia|].
    specialize (IH (w * 10 + e)). lia. }
  cbn [foldl] in Hm. zbool. apply IH; lia.
Qed.
Lemma digits_aux_range fuel b n acc :
  1 < b → 0 ≤ n → Forall (λ d, 0 ≤ d < b) acc → Forall (λ d, 0 ≤ d < b) (digits_aux fuel b n acc).
Proof.
  intros Hb. revert n acc. induction fuel as [|fuel IH]; intros n acc Hn Hacc; cbn [digits_aux]; [done|].
  assert (Forall (λ d, 0 ≤ d < b) (n mod b :: acc)).
  { constructor; [apply Z.mod_pos_bound; lia|done]. }
  destruct (_ =? 0); [done|]. apply IH; [apply Z.div_pos; lia|done].
Qed.
Lemma digits_aux_ne fuel b n acc : (0 < fuel)%nat ∨ acc ≠ [] → digits_aux fuel b n acc ≠ [].
Proof.
  revert n acc. induction fuel as [|fuel IH]; intros n acc Ha; cbn [digits_aux]; [naive_solver lia|].
  destruct (_ =? 0); [done|]. apply IH. by right.
Qed.
Lemma parse_dec_str m n : 0 ≤ n < m → n < 10 ^ 64 → parse_uint m (dec_str n) = Some n.
Proof.
  intros Hn H64. unfold dec_str.
  pose proof (digits_aux_range 64 10 n [] ltac:(lia) ltac:(lia) ltac:(constructor)) as Hr.
  change (digits_aux 64 10 n []) with (digits 10 n) in Hr.
  pose proof (digits_val_digits 10 n ltac:(lia) ltac:(lia)) as Hv. unfold digits_val in Hv.
  pose proof (parse_digits_map m 0 (digits 10 n) ltac:(lia) Hr ltac:(lia)) as Hp. rewrite Hv in Hp.
  pose proof (digits_aux_ne 64 10 n [] ltac:(left; lia)) as Hne.
  change (digits_aux 64 10 n []) with (digits 10 n) in Hne.
  destruct (digits 10 n) as [|d ds] eqn:Hd; [done|]. cbn [map] in *. unfold parse_uint.
  apply Forall_cons in Hr as [Hd0 _].
  assert ((digit_char d =? 0x2B) = false) as -> by (unfold digit_char; by zbool).
  done.
Qed.
