(* ===== verification/LxHeader.v ===== *)
(** The structures of an LX module and their readers (src/src/lx/header.rs): the
    header, object table, page map, resource table and fixup records, with the byte
    formats they are read from as reference encoders. *)
From S2P Require Import Prelude Bytes.

(** [LxHeader] *)
Record LxHeader := mk_header {
  signature : bytes;
  byte_order : Z;
  word_order : Z;
  format_level : Z;
  cpu_type : Z;
  os_type : Z;
  module_version : Z;
  module_flags : Z;
  module_num_pages : Z;
  eip_object : Z;
  eip : Z;
  esp_object : Z;
  esp : Z;
  page_size : Z;
  page_offset_shift : Z;
  fixup_section_size : Z;
  fixup_section_checksum : Z;
  loader_section_size : Z;
  loader_section_checksum : Z;
  object_table_offset : Z;
  object_count : Z;
  object_page_map_offset : Z;
  object_iter_data_map_offset : Z;
  resource_table_offset : Z;
  resource_count : Z;
  resident_name_table_offset : Z;
  entry_table_offset : Z;
  module_directives_offset : Z;
  module_directives_count : Z;
  fixup_page_table_offset : Z;
  fixup_record_table_offset : Z;
  imported_modules_name_table_offset : Z;
  imported_modules_count : Z;
  import_procedure_name_table_offset : Z;
  per_page_checksum_table_offset : Z;
  data_pages_offset : Z;
  num_preload_pages : Z;
  non_resident_name_table_offset : Z;
  non_resident_name_table_length : Z;
  non_resident_name_table_checksum : Z;
  auto_ds_object : Z;
  debug_info_offset : Z;
  debug_info_length : Z;
  num_instance_preload : Z;
  num_instance_demand : Z;
  heap_size : Z;
}.

Definition SIGNATURE : bytes := str "LX".

(** [LxHeader::read] after its [seek] *)
Definition read_fields : rd LxHeader :=
  signature ← read_exact 2;
  if negb (bool_decide (signature = SIGNATURE)) then fail (InvalidData "Invalid LX signature" [])
  else
  byte_order ← read_u8;
  word_order ← read_u8;
  format_level ← read_u32;
  cpu_type ← read_u16;
  os_type ← read_u16;
  module_version ← read_u32;
  module_flags ← read_u32;
  module_num_pages ← read_u32;
  eip_object ← read_u32;
  eip ← read_u32;
  esp_object ← read_u32;
  esp ← read_u32;
  page_size ← read_u32;
  page_offset_shift ← read_u32;
  fixup_section_size ← read_u32;
  fixup_section_checksum ← read_u32;
  loader_section_size ← read_u32;
  loader_section_checksum ← read_u32;
  object_table_offset ← read_u32;
  object_count ← read_u32;
  object_page_map_offset ← read_u32;
  object_iter_data_map_offset ← read_u32;
  resource_table_offset ← read_u32;
  resource_count ← read_u32;
  resident_name_table_offset ← read_u32;
  entry_table_offset ← read_u32;
  module_directives_offset ← read_u32;
  module_directives_count ← read_u32;
  fixup_page_table_offset ← read_u32;
  fixup_record_table_offset ← read_u32;
  imported_modules_name_table_offset ← read_u32;
  imported_modules_count ← read_u32;
  import_procedure_name_table_offset ← read_u32;
  per_page_checksum_table_offset ← read_u32;
  data_pages_offset ← read_u32;
  num_preload_pages ← read_u32;
  non_resident_name_table_offset ← read_u32;
  non_resident_name_table_length ← read_u32;
  non_resident_name_table_checksum ← read_u32;
  auto_ds_object ← read_u32;
  debug_info_offset ← read_u32;
  debug_info_length ← read_u32;
  num_instance_preload ← read_u32;
  num_instance_demand ← read_u32;
  heap_size ← read_u32;
  mret {| signature := signature; byte_order := byte_order;
    word_order := word_order; format_level := format_level;
    cpu_type := cpu_type; os_type := os_type;
    module_version := module_version; module_flags := module_flags;
    module_num_pages := module_num_pages; eip_object := eip_object;
    eip := eip; esp_object := esp_object;
    esp := esp; page_size := page_size;
    page_offset_shift := page_offset_shift; fixup_section_size := fixup_section_size;
    fixup_section_checksum := fixup_section_checksum; loader_section_size := loader_section_size;
    loader_section_checksum := loader_section_checksum; object_table_offset := object_table_offset;
    object_count := object_count; object_page_map_offset := object_page_map_offset;
    object_iter_data_map_offset := object_iter_data_map_offset; resource_table_offset := resource_table_offset;
    resource_count := resource_count; resident_name_table_offset := resident_name_table_offset;
    entry_table_offset := entry_table_offset; module_directives_offset := module_directives_offset;
    module_directives_count := module_directives_count; fixup_page_table_offset := fixup_page_table_offset;
    fixup_record_table_offset := fixup_record_table_offset; imported_modules_name_table_offset := imported_modules_name_table_offset;
    imported_modules_count := imported_modules_count; import_procedure_name_table_offset := import_procedure_name_table_offset;
    per_page_checksum_table_offset := per_page_checksum_table_offset; data_pages_offset := data_pages_offset;
    num_preload_pages := num_preload_pages; non_resident_name_table_offset := non_resident_name_table_offset;
    non_resident_name_table_length := non_resident_name_table_length; non_resident_name_table_checksum := non_resident_name_table_checksum;
    auto_ds_object := auto_ds_object; debug_info_offset := debug_info_offset;
    debug_info_length := debug_info_length; num_instance_preload := num_instance_preload;
    num_instance_demand := num_instance_demand; heap_size := heap_size |}.

(** [LxHeader::read] *)
Definition read_header (offset : Z) : rd LxHeader := seek offset;; read_fields.

(** The header's bytes, in the order of the format. *)
Definition header_bytes (h : LxHeader) : bytes :=
  signature h ++
  le_bytes 1 (byte_order h) ++ le_bytes 1 (word_order h) ++
  le32 (format_level h) ++ le16 (cpu_type h) ++
  le16 (os_type h) ++ le32 (module_version h) ++
  le32 (module_flags h) ++ le32 (module_num_pages h) ++
  le32 (eip_object h) ++ le32 (eip h) ++
  le32 (esp_object h) ++ le32 (esp h) ++
  le32 (page_size h) ++ le32 (page_offset_shift h) ++
  le32 (fixup_section_size h) ++ le32 (fixup_section_checksum h) ++
  le32 (loader_section_size h) ++ le32 (loader_section_checksum h) ++
  le32 (object_table_offset h) ++ le32 (object_count h) ++
  le32 (object_page_map_offset h) ++ le32 (object_iter_data_map_offset h) ++
  le32 (resource_table_offset h) ++ le32 (resource_count h) ++
  le32 (resident_name_table_offset h) ++ le32 (entry_table_offset h) ++
  le32 (module_directives_offset h) ++ le32 (module_directives_count h) ++
  le32 (fixup_page_table_offset h) ++ le32 (fixup_record_table_offset h) ++
  le32 (imported_modules_name_table_offset h) ++ le32 (imported_modules_count h) ++
  le32 (import_procedure_name_table_offset h) ++ le32 (per_page_checksum_table_offset h) ++
  le32 (data_pages_offset h) ++ le32 (num_preload_pages h) ++
  le32 (non_resident_name_table_offset h) ++ le32 (non_resident_name_table_length h) ++
  le32 (non_resident_name_table_checksum h) ++ le32 (auto_ds_object h) ++
  le32 (debug_info_offset h) ++ le32 (debug_info_length h) ++
  le32 (num_instance_preload h) ++ le32 (num_instance_demand h) ++
  le32 (heap_size h) ++ [].

(** Every field fits its width. *)
Definition header_wf (h : LxHeader) : Prop :=
  signature h = SIGNATURE ∧
  u8 (byte_order h) ∧ u8 (word_order h) ∧ u32 (format_level h) ∧
  u16 (cpu_type h) ∧ u16 (os_type h) ∧ u32 (module_version h) ∧
  u32 (module_flags h) ∧ u32 (module_num_pages h) ∧ u32 (eip_object h) ∧
  u32 (eip h) ∧ u32 (esp_object h) ∧ u32 (esp h) ∧
  u32 (page_size h) ∧ u32 (page_offset_shift h) ∧ u32 (fixup_section_size h) ∧
  u32 (fixup_section_checksum h) ∧ u32 (loader_section_size h) ∧ u32 (loader_section_checksum h) ∧
  u32 (object_table_offset h) ∧ u32 (object_count h) ∧ u32 (object_page_map_offset h) ∧
  u32 (object_iter_data_map_offset h) ∧ u32 (resource_table_offset h) ∧ u32 (resource_count h) ∧
  u32 (resident_name_table_offset h) ∧ u32 (entry_table_offset h) ∧ u32 (module_directives_offset h) ∧
  u32 (module_directives_count h) ∧ u32 (fixup_page_table_offset h) ∧ u32 (fixup_record_table_offset h) ∧
  u32 (imported_modules_name_table_offset h) ∧ u32 (imported_modules_count h) ∧ u32 (import_procedure_name_table_offset h) ∧
  u32 (per_page_checksum_table_offset h) ∧ u32 (data_pages_offset h) ∧ u32 (num_preload_pages h) ∧
  u32 (non_resident_name_table_offset h) ∧ u32 (non_resident_name_table_length h) ∧ u32 (non_resident_name_table_checksum h) ∧
  u32 (auto_ds_object h) ∧ u32 (debug_info_offset h) ∧ u32 (debug_info_length h) ∧
  u32 (num_instance_preload h) ∧ u32 (num_instance_demand h) ∧ u32 (heap_size h).
#[export] Instance u8_dec x : Decision (u8 x).
Proof. unfold u8. apply _. Defined.
#[export] Instance u16_dec x : Decision (u16 x).
Proof. unfold u16. apply _. Defined.
#[export] Instance u32_dec x : Decision (u32 x).
Proof. unfold u32. apply _. Defined.
#[export] Instance header_wf_dec h : Decision (header_wf h).
Proof. unfold header_wf. repeat apply and_dec; apply _. Defined.

(** [ObjectTableEntry] and its [read] *)
Record ObjectTableEntry := mk_object {
  size : Z; base_address : Z; flags : Z; page_map_index : Z; page_count : Z; reserved : Z;
}.
Definition read_object : rd ObjectTableEntry :=
  size ← read_u32; base_address ← read_u32; flags ← read_u32;
  page_map_index ← read_u32; page_count ← read_u32; reserved ← read_u32;
  mret (mk_object size base_address flags page_map_index page_count reserved).
Definition object_bytes (o : ObjectTableEntry) : bytes :=
  le32 (size o) ++ le32 (base_address o) ++ le32 (flags o) ++ le32 (page_map_index o) ++
  le32 (page_count o) ++ le32 (reserved o) ++ [].
Definition object_wf (o : ObjectTableEntry) : Prop :=
  u32 (size o) ∧ u32 (base_address o) ∧ u32 (flags o) ∧ u32 (page_map_index o) ∧
  u32 (page_count o) ∧ u32 (reserved o).

(** [ObjectPageMapEntry] and its [read] *)
Record ObjectPageMapEntry := mk_page { data_offset : Z; data_size : Z; page_flags : Z }.
Definition read_page : rd ObjectPageMapEntry :=
  data_offset ← read_u32; data_size ← read_u16; flags ← read_u16;
  mret (mk_page data_offset data_size flags).
Definition page_bytes (p : ObjectPageMapEntry) : bytes :=
  le32 (data_offset p) ++ le16 (data_size p) ++ le16 (page_flags p) ++ [].
Definition page_wf (p : ObjectPageMapEntry) : Prop :=
  u32 (data_offset p) ∧ u16 (data_size p) ∧ u16 (page_flags p).

(** [LxResourceEntry] and its [read] *)
Record LxResourceEntry := mk_resource {
  type_id : Z; name_id : Z; res_size : Z; res_object_num : Z; res_offset : Z;
}.
Definition read_resource : rd LxResourceEntry :=
  type_id ← read_u16; name_id ← read_u16; size ← read_u32;
  object_num ← read_u16; offset ← read_u32;
  mret (mk_resource type_id name_id size object_num offset).
Definition resource_bytes (r : LxResourceEntry) : bytes :=
  le16 (type_id r) ++ le16 (name_id r) ++ le32 (res_size r) ++ le16 (res_object_num r) ++
  le32 (res_offset r) ++ [].
Definition resource_wf (r : LxResourceEntry) : Prop :=
  u16 (type_id r) ∧ u16 (name_id r) ∧ u32 (res_size r) ∧ u16 (res_object_num r) ∧
  u32 (res_offset r).

(** * Fixup records *)

(** [FixupTarget] *)
Inductive FixupTarget :=
| Internal (object_num target_offset : Z)
| ExternalOrdinal (module_ordinal proc_ordinal : Z)
| ExternalName (module_ordinal proc_name_offset : Z)
| InternalEntry (entry_ordinal : Z).

(** [LxFixupRecord] *)
Record LxFixupRecord := mk_fixup {
  source_type : Z;
  target_flags : Z;
  source_offsets : list Z;
  target : FixupTarget;
  additive : option Z;
}.

#[export] Instance FixupTarget_eq_dec : EqDecision FixupTarget.
Proof. solve_decision. Defined.
#[export] Instance LxFixupRecord_eq_dec : EqDecision LxFixupRecord.
Proof. solve_decision. Defined.

(** [(x & mask) != 0] *)
Definition has (x mask : Z) : bool := negb (Z.land x mask =? 0).

(** The integers of a record that are read narrow or wide by a flag. *)
Definition read_index (wide : bool) : rd Z := if wide then read_u16 else read_u8.
Definition read_offset (wide : bool) : rd Z := if wide then read_u32 else read_u16.

(** The source offsets of [LxFixupRecord::read]. *)
Definition read_sources (source_type : Z) : rd (list Z) :=
  if has source_type 0x20 then
    count ← read_u8; read_n (Z.to_nat count) read_u16
  else o ← read_u16; mret [o].

(** The [match target_type] of [LxFixupRecord::read]; its last arm is [unreachable!()]. *)
Definition read_target (target_flags : Z) : rd FixupTarget :=
  let index_is_16bit := has target_flags 0x40 in
  let offset_is_32bit := has target_flags 0x10 in
  match Z.land target_flags 3 with
  | 0 =>
    object_num ← read_index index_is_16bit;
    target_offset ← read_offset offset_is_32bit;
    mret (Internal object_num target_offset)
  | 1 =>
    module_ordinal ← read_index index_is_16bit;
    proc_ordinal ← (if has target_flags 0x80 then read_u8 else read_offset offset_is_32bit);
    mret (ExternalOrdinal module_ordinal proc_ordinal)
  | 2 =>
    module_ordinal ← read_index index_is_16bit;
    proc_name_offset ← read_offset offset_is_32bit;
    mret (ExternalName module_ordinal proc_name_offset)
  | 3 =>
    entry_ordinal ← read_index index_is_16bit;
    mret (InternalEntry entry_ordinal)
  | _ => lift Panic
  end.

Definition read_additive (target_flags : Z) : rd (option Z) :=
  if has target_flags 0x04 then
    a ← (if has target_flags 0x20 then read_u32 else read_u16); mret (Some a)
  else mret None.

(** [LxFixupRecord::read] *)
Definition read_fixup : rd LxFixupRecord :=
  source_type ← read_u8;
  target_flags ← read_u8;
  source_offsets ← read_sources source_type;
  target ← read_target target_flags;
  additive ← read_additive target_flags;
  mret (mk_fixup source_type target_flags source_offsets target additive).

(** The bytes of a record, each integer as narrow or wide as the flags say. *)
Definition index_bytes (wide : bool) (x : Z) : bytes := if wide then le16 x else le_bytes 1 x.
Definition offset_bytes (wide : bool) (x : Z) : bytes := if wide then le32 x else le16 x.
Definition sources_bytes (r : LxFixupRecord) : bytes :=
  if has (source_type r) 0x20 then
    le_bytes 1 (len (source_offsets r)) ++ concat (map le16 (source_offsets r))
  else concat (map le16 (source_offsets r)).
Definition target_bytes (fl : Z) (t : FixupTarget) : bytes :=
  match t with
  | Internal n o | ExternalName n o =>
      index_bytes (has fl 0x40) n ++ offset_bytes (has fl 0x10) o ++ []
  | ExternalOrdinal n o =>
      index_bytes (has fl 0x40) n ++
      (if has fl 0x80 then le_bytes 1 o else offset_bytes (has fl 0x10) o) ++ []
  | InternalEntry e => index_bytes (has fl 0x40) e ++ []
  end.
Definition additive_bytes (fl : Z) (a : option Z) : bytes :=
  match a with Some a => (if has fl 0x20 then le32 a else le16 a) ++ [] | None => [] end.
Definition fixup_bytes (r : LxFixupRecord) : bytes :=
  le_bytes 1 (source_type r) ++ le_bytes 1 (target_flags r) ++ sources_bytes r ++
  target_bytes (target_flags r) (target r) ++ additive_bytes (target_flags r) (additive r) ++ [].

(** The record is one the flags can describe: the target's kind is the low two bits, the
    integers fit the widths chosen, one source offset unless the list bit is set. *)
Definition index_wf (wide : bool) (x : Z) : Prop := if wide then u16 x else u8 x.
Definition offset_wf (wide : bool) (x : Z) : Prop := if wide then u32 x else u16 x.
Definition target_wf (fl : Z) (t : FixupTarget) : Prop :=
  match t with
  | Internal n o => Z.land fl 3 = 0 ∧ index_wf (has fl 0x40) n ∧ offset_wf (has fl 0x10) o
  | ExternalOrdinal n o => Z.land fl 3 = 1 ∧ index_wf (has fl 0x40) n ∧
      (if has fl 0x80 then u8 o else offset_wf (has fl 0x10) o)
  | ExternalName n o => Z.land fl 3 = 2 ∧ index_wf (has fl 0x40) n ∧ offset_wf (has fl 0x10) o
  | InternalEntry e => Z.land fl 3 = 3 ∧ index_wf (has fl 0x40) e
  end.
Definition fixup_wf (r : LxFixupRecord) : Prop :=
  u8 (source_type r) ∧ u8 (target_flags r) ∧ Forall u16 (source_offsets r) ∧
  (if has (source_type r) 0x20 then u8 (len (source_offsets r))
   else length (source_offsets r) = 1%nat) ∧
  target_wf (target_flags r) (target r) ∧
  match additive r with
  | Some a => has (target_flags r) 0x04 = true ∧ offset_wf (has (target_flags r) 0x20) a
  | None => has (target_flags r) 0x04 = false
  end.

(** * The readers decode the formats *)

(** One field after another. *)
Ltac decode_step := eapply decodes_bind; [solve [auto with stream] | cbn beta iota].

Lemma read_fields_decodes h : header_wf h → decodes read_fields (header_bytes h) h.
Proof.
  intros Hwf. unfold header_wf in Hwf. destruct_and!. unfold read_fields, header_bytes.
  eapply decodes_bind; [apply decodes_read_exact|].
  { by match goal with H : signature h = _ |- _ => rewrite H end. }
  rewrite bool_decide_true by done. cbn [negb]. repeat decode_step.
  destruct h; apply decodes_ret.
Qed.

Lemma read_object_decodes o : object_wf o → decodes read_object (object_bytes o) o.
Proof.
  intros Hwf. unfold object_wf in Hwf. destruct_and!. unfold read_object, object_bytes.
  repeat decode_step. destruct o; apply decodes_ret.
Qed.
Lemma read_page_decodes p : page_wf p → decodes read_page (page_bytes p) p.
Proof.
  intros Hwf. unfold page_wf in Hwf. destruct_and!. unfold read_page, page_bytes.
  repeat decode_step. destruct p; apply decodes_ret.
Qed.
Lemma read_resource_decodes r : resource_wf r → decodes read_resource (resource_bytes r) r.
Proof.
  intros Hwf. unfold resource_wf in Hwf. destruct_and!. unfold read_resource, resource_bytes.
  repeat decode_step. destruct r; apply decodes_ret.
Qed.

Lemma read_index_decodes w x : index_wf w x → decodes (read_index w) (index_bytes w x) x.
Proof. destruct w; [apply decodes_u16|apply decodes_u8]. Qed.
Lemma read_offset_decodes w x : offset_wf w x → decodes (read_offset w) (offset_bytes w x) x.
Proof. destruct w; [apply decodes_u32|apply decodes_u16]. Qed.
#[export] Hint Resolve read_index_decodes read_offset_decodes : stream.

Lemma read_sources_decodes r :
  Forall u16 (source_offsets r) →
  (if has (source_type r) 0x20 then u8 (len (source_offsets r))
   else length (source_offsets r) = 1%nat) →
  decodes (read_sources (source_type r)) (sources_bytes r) (source_offsets r).
Proof.
  intros Hall Hn. unfold read_sources, sources_bytes. destruct (has _ _).
  - decode_step. unfold len. rewrite Nat2Z.id. apply decodes_read_n.
    eapply Forall_impl; [done|]. auto with stream.
  - destruct (source_offsets r) as [|o [|? ?]]; try discriminate Hn.
    apply Forall_cons in Hall as [Ho _]. cbn [map concat]. decode_step. apply decodes_ret.
Qed.
Lemma read_target_decodes fl t : target_wf fl t → decodes (read_target fl) (target_bytes fl t) t.
Proof.
  intros Hwf. unfold read_target. destruct t; cbn in Hwf; destruct_and!;
    match goal with H : Z.land fl 3 = _ |- _ => rewrite H end; cbn iota.
  - repeat decode_step. apply decodes_ret.
  - decode_step. eapply decodes_bind; [|apply decodes_ret].
    destruct (has fl 0x80); auto with stream.
  - repeat decode_step. apply decodes_ret.
  - repeat decode_step. apply decodes_ret.
Qed.
Lemma read_additive_decodes fl a :
  match a with
  | Some a => has fl 0x04 = true ∧ offset_wf (has fl 0x20) a
  | None => has fl 0x04 = false
  end → decodes (read_additive fl) (additive_bytes fl a) a.
Proof.
  unfold read_additive. destruct a as [a|]; [intros [-> Ha]|intros ->]; [|apply decodes_ret].
  eapply decodes_bind; [|apply decodes_ret].
  exact (read_offset_decodes _ _ Ha).
Qed.

Lemma read_fixup_decodes r : fixup_wf r → decodes read_fixup (fixup_bytes r) r.
Proof.
  intros (? & ? & ? & ? & ? & ?). unfold read_fixup, fixup_bytes. do 2 decode_step.
  eapply decodes_bind; [by apply read_sources_decodes|].
  eapply decodes_bind; [by apply read_target_decodes|].
  eapply decodes_bind; [by apply read_additive_decodes|]. destruct r. apply decodes_ret.
Qed.

(** * The readers are total and read forward *)

Lemma total_read_fields : total read_fields.
Proof.
  unfold read_fields. apply total_bind; [auto with stream|]. intros sg.
  apply total_if; [auto with stream|]. repeat (apply total_bind; [auto with stream|intros ?]).
  auto with stream.
Qed.
Lemma total_read_header off : total (read_header off).
Proof. apply total_bind; [auto with stream|]. intros []. apply total_read_fields. Qed.
Lemma total_read_object : total read_object.
Proof. repeat (apply total_bind; [auto with stream|intros ?]). auto with stream. Qed.
Lemma total_read_page : total read_page.
Proof. repeat (apply total_bind; [auto with stream|intros ?]). auto with stream. Qed.
Lemma total_read_resource : total read_resource.
Proof. repeat (apply total_bind; [auto with stream|intros ?]). auto with stream. Qed.

(** The [unreachable!()] of the fixup reader is. *)
Lemma land_3 x : Z.land x 3 = 0 ∨ Z.land x 3 = 1 ∨ Z.land x 3 = 2 ∨ Z.land x 3 = 3.
Proof.
  change 3 with (Z.ones 2). rewrite Z.land_ones by lia.
  pose proof (Z.mod_pos_bound x (2 ^ 2)). change (Z.ones 2) with 3. lia.
Qed.
Lemma total_read_index w : total (read_index w).
Proof. destruct w; simpl; auto with stream. Qed.
Lemma total_read_offset w : total (read_offset w).
Proof. destruct w; simpl; auto with stream. Qed.
#[export] Hint Resolve total_read_index total_read_offset : stream.
Lemma total_read_fixup : total read_fixup.
Proof.
  do 2 (apply total_bind; [auto with stream|intros ?]).
  apply total_bind; [|intros ?].
  { unfold read_sources. apply total_if; apply total_bind; auto with stream. }
  apply total_bind; [|intros ?].
  { unfold read_target. destruct (land_3 a0) as [-> | [-> | [-> | ->]]];
      repeat (apply total_bind; [auto with stream|intros ?]); auto with stream. }
  apply total_bind; [|auto with stream].
  unfold read_additive. apply total_if; [|auto with stream]. apply total_bind; auto with stream.
Qed.
#[export] Hint Resolve total_read_header total_read_object total_read_page total_read_resource
  total_read_fixup : stream.

Lemma advances0_read_uint n : 0 ≤ n → advances 0 (b ← read_exact n; mret (le_val b)).
Proof. intros. apply advances0_bind; [by apply advances0_read_exact|intros; apply advances0_ret]. Qed.
Lemma advances0_read_index w : advances 0 (read_index w).
Proof. destruct w; by apply advances0_read_uint. Qed.
Lemma advances0_read_offset w : advances 0 (read_offset w).
Proof. destruct w; by apply advances0_read_uint. Qed.
Lemma advances0_read_sources st : advances 0 (read_sources st).
Proof.
  apply advances0_if; (apply advances0_bind; [by apply advances0_read_uint|intros ?]).
  - by apply advances0_read_n, advances0_read_uint.
  - apply advances0_ret.
Qed.
Lemma advances0_read_target fl : advances 0 (read_target fl).
Proof.
  unfold read_target. destruct (land_3 fl) as [-> | [-> | [-> | ->]]];
    (apply advances0_bind; [apply advances0_read_index|intros ?]);
    try (apply advances0_bind; [|intros ?]); try apply advances0_ret;
    try apply advances0_read_offset.
  apply advances0_if; [by apply advances0_read_uint|apply advances0_read_offset].
Qed.
Lemma advances0_read_additive fl : advances 0 (read_additive fl).
Proof.
  apply advances0_if; [|apply advances0_ret].
  apply advances0_bind; [apply advances0_if; by apply advances0_read_uint|].
  intros; apply advances0_ret.
Qed.
Lemma advances_read_fixup : advances 1 read_fixup.
Proof.
  apply (advances_bind 1 0); [lia..|apply advances_read_u8|intros ?].
  apply advances0_bind; [by apply advances0_read_uint|intros ?].
  apply advances0_bind; [apply advances0_read_sources|intros ?].
  apply advances0_bind; [apply advances0_read_target|intros ?].
  apply advances0_bind; [apply advances0_read_additive|intros ?]. apply advances0_ret.
Qed.

(** Reading from well-formed bytes yields a header whose fields fit. *)
Lemma read_fields_wf : yields read_fields header_wf.
Proof.
  intros data pos h p Hd H. unfold read_fields in H.
  apply rd_bind_Ok in H as (sg & p0 & Hsg & H).
  destruct (bool_decide_reflect (sg = SIGNATURE)) as [->|]; [|done]. cbn [negb] in H.
  repeat (apply rd_bind_Ok in H as (? & ? & ? & H)). injection H as <- <-.
  unfold header_wf; cbn. split_and!; [done|..];
    match goal with
    | |- u8 _ => by eapply yields_u8
    | |- u16 _ => by eapply yields_u16
    | |- u32 _ => by eapply yields_u32
    end.
Qed.

(** The readers of the fixed-size records read what the file holds there. *)
Lemma encodes_object : encodes read_object object_bytes.
Proof. intros data pos a p Hd Hp H. unfold read_object in H. encodes_fields. unfold object_bytes. spans_fields. Qed.
Lemma encodes_page : encodes read_page page_bytes.
Proof. intros data pos a p Hd Hp H. unfold read_page in H. encodes_fields. unfold page_bytes. spans_fields. Qed.
Lemma encodes_resource : encodes read_resource resource_bytes.
Proof. intros data pos a p Hd Hp H. unfold read_resource in H. encodes_fields. unfold resource_bytes. spans_fields. Qed.
Lemma encodes_header : encodes read_fields header_bytes.
Proof.
  intros data pos h p Hd Hp H. unfold read_fields in H.
  apply rd_bind_Ok in H as (sg & p0 & Hsg & H).
  destruct (bool_decide_reflect (sg = SIGNATURE)) as [->|]; [|done]. cbn [negb] in H.
  apply read_exact_spans in Hsg as [Hsg _]; [|lia..]. pose proof (spans_pos _ _ _ _ Hp Hsg).
  encodes_fields. unfold header_bytes. eapply spans_app; [done|exact Hsg|]. spans_fields.
Qed.

(** * Properties *)

(** The readers invert the formats.  A fixup record of any shape the flags can describe
    (source lists, 8/16/32-bit indexes and offsets, the four target kinds, additive
    values) is read back from its bytes, wherever they lie in the file, and the reader
    stops exactly at the end of them; so are the 172-byte header and the object, page map
    and resource entries. *)
Theorem records_roundtrip (pre post : bytes) :
  (∀ r, fixup_wf r →
     read_fixup (pre ++ fixup_bytes r ++ post) (len pre) = Ok (r, len pre + len (fixup_bytes r))) ∧
  (∀ h, header_wf h →
     read_header (len pre) (pre ++ header_bytes h ++ post) 0 = Ok (h, len pre + 172)) ∧
  (∀ o, object_wf o →
     read_object (pre ++ object_bytes o ++ post) (len pre) = Ok (o, len pre + 24)) ∧
  (∀ p, page_wf p → read_page (pre ++ page_bytes p ++ post) (len pre) = Ok (p, len pre + 8)) ∧
  (∀ r, resource_wf r →
     read_resource (pre ++ resource_bytes r ++ post) (len pre) = Ok (r, len pre + 14)).
Proof.
  split_and!; intros x Hx.
  - by apply read_fixup_decodes.
  - pose proof (read_fields_decodes x Hx pre post) as H.
    replace (len (header_bytes x)) with 172 in H; [exact H|].
    unfold header_bytes, len. rewrite length_app.
    replace (signature x) with SIGNATURE by (symmetry; apply Hx). reflexivity.
  - exact (read_object_decodes x Hx pre post).
  - exact (read_page_decodes x Hx pre post).
  - exact (read_resource_decodes x Hx pre post).
Qed.
