(* ===== verification/LxFile.v ===== *)
(** The LX module parser [LxFile::parse] (src/src/lx.rs), one definition per table it
    reads.  The file is a byte sequence; positions and offsets are u64 sums of u32 header
    fields and cannot overflow. *)
From S2P Require Import Prelude Bytes LxHeader.

(** [LxExport] *)
Record LxExport := mk_export { ordinal : Z; export_object : Z; export_offset : Z }.
#[export] Instance LxExport_eq_dec : EqDecision LxExport.
Proof. solve_decision. Defined.

(** [LxFile] *)
Record LxFile := mk_lx {
  header : LxHeader;
  object_table : list ObjectTableEntry;
  page_map : list ObjectPageMapEntry;
  fixup_page_table : list Z;
  fixup_records_by_page : list (list LxFixupRecord);
  resources : list LxResourceEntry;
  imported_modules : list rstring;
  import_procedure_names : bytes;
  exports : list LxExport;
  nonresident_names : list (Z * rstring);
}.

Definition MAX_OBJECTS := 1024.
Definition MAX_PAGES := 65536.
Definition MAX_RESOURCES := 4096.

(** The checks on the header fields of [parse]. *)
Definition validate (h : LxHeader) : io () :=
  if MAX_OBJECTS <? object_count h then
    Err (InvalidData "Object count {} exceeds maximum {}" [object_count h; MAX_OBJECTS])
  else if MAX_PAGES <? module_num_pages h then
    Err (InvalidData "Page count {} exceeds maximum {}" [module_num_pages h; MAX_PAGES])
  else if 32 <=? page_offset_shift h then
    Err (InvalidData "Invalid page_offset_shift: {}" [page_offset_shift h])
  else if (0 <? eip_object h) && (object_count h <? eip_object h) then
    Err (InvalidData "eip_object {} exceeds object_count {}" [eip_object h; object_count h])
  else if (0 <? esp_object h) && (object_count h <? esp_object h) then
    Err (InvalidData "esp_object {} exceeds object_count {}" [esp_object h; object_count h])
  else Ok tt.

(** 1-3: the MZ header, the LX header it points to, and the checks. *)
Definition read_lx_header : rd (Z * LxHeader) :=
  mz_header ← read_exact 64;
  if negb (bool_decide (slice mz_header 0 2 = str "MZ"))
  then fail (InvalidData "Invalid MZ signature" [])
  else
    let lx_offset := le_val (slice mz_header 0x3C 4) in
    header ← read_header lx_offset;
    lift (validate header);;
    mret (lx_offset, header).

(** 4: the object table. *)
Definition read_object_table (lx_offset : Z) (h : LxHeader) : rd (list ObjectTableEntry) :=
  seek (lx_offset + object_table_offset h);;
  read_n (Z.to_nat (object_count h)) read_object.

(** 5: the object page map. *)
Definition read_page_map (lx_offset : Z) (h : LxHeader) : rd (list ObjectPageMapEntry) :=
  seek (lx_offset + object_page_map_offset h);;
  read_n (Z.to_nat (module_num_pages h)) read_page.

(** 5b: the resource table. *)
Definition read_resources (lx_offset : Z) (h : LxHeader) : rd (list LxResourceEntry) :=
  if MAX_RESOURCES <? resource_count h then
    fail (InvalidData "Resource count {} exceeds maximum {}" [resource_count h; MAX_RESOURCES])
  else if (0 <? resource_count h) && (0 <? resource_table_offset h) then
    seek (lx_offset + resource_table_offset h);;
    read_n (Z.to_nat (resource_count h)) read_resource
  else mret [].

(** 6: the fixup page table. *)
Definition read_fixup_page_table {B : Build} (lx_offset : Z) (h : LxHeader) : rd (list Z) :=
  seek (lx_offset + fixup_page_table_offset h);;
  num_fixup_pages ← lift (uadd M32 (module_num_pages h) 1);
  read_n (Z.to_nat num_fixup_pages) read_u32.

(** 7: the records of one page, read until the position reaches its end. *)
Fixpoint read_fixups_until (fuel : nat) (end_ : Z) : rd (list LxFixupRecord) :=
  match fuel with
  | O => diverge
  | S fuel =>
    pos ← stream_position;
    if pos <? end_ then
      r ← read_fixup; l ← read_fixups_until fuel end_; mret (r :: l)
    else mret []
  end.
Definition read_page_fixups (start start_offset end_offset : Z) : rd (list LxFixupRecord) :=
  if start_offset <? end_offset then
    seek (start + start_offset);;
    with_fuel (λ fuel, read_fixups_until fuel (start + end_offset))
  else mret [].
(** [for i in 0..module_num_pages], [n] pages left from page [i]. *)
Fixpoint read_fixup_pages (start : Z) (table : list Z) (i : Z) (n : nat)
    : rd (list (list LxFixupRecord)) :=
  match n with
  | O => mret []
  | S n =>
    start_offset ← lift (unwrap (idx table i));
    end_offset ← lift (unwrap (idx table (i + 1)));
    page ← read_page_fixups start start_offset end_offset;
    pages ← read_fixup_pages start table (i + 1) n;
    mret (page :: pages)
  end.
Definition read_fixup_records (lx_offset : Z) (h : LxHeader) (table : list Z)
    : rd (list (list LxFixupRecord)) :=
  read_fixup_pages (lx_offset + fixup_record_table_offset h) table 0
    (Z.to_nat (module_num_pages h)).

(** 8: the import module name table. *)
Definition read_pstring : rd rstring :=
  len ← read_u8; name ← read_exact len; mret (from_utf8_lossy name).
Definition read_imported_modules (lx_offset : Z) (h : LxHeader) : rd (list rstring) :=
  seek (lx_offset + imported_modules_name_table_offset h);;
  read_n (Z.to_nat (imported_modules_count h)) read_pstring.

(** 9: the import procedure name table, up to the end of the loader section. *)
Definition read_import_procedure_names (lx_offset : Z) (h : LxHeader) : rd bytes :=
  let start := lx_offset + import_procedure_name_table_offset h in
  if 0 <? import_procedure_name_table_offset h then
    seek start;;
    let remaining := saturating_sub (lx_offset + loader_section_size h) start in
    if 0 <? remaining then read_exact remaining else mret []
  else mret [].

(** 10: the entry table. *)
Section entry_table.
Context {B : Build}.

(** A bundle of 32-bit entries: flags and offset each; returns the next ordinal. *)
Fixpoint read_entries32 (n : nat) (object_num ordinal : Z) (exports : list LxExport)
    : rd (Z * list LxExport) :=
  match n with
  | O => mret (ordinal, exports)
  | S n =>
    entry_buf ← read_exact 5;
    let offset := le_val (slice entry_buf 1 4) in
    ordinal' ← lift (uadd M32 ordinal 1);
    read_entries32 n object_num ordinal' (exports ++ [mk_export ordinal object_num offset])
  end.
(** The entries of a bundle that is skipped, [size] bytes each. *)
Fixpoint skip_entries (n : nat) (size ordinal : Z) : rd Z :=
  match n with
  | O => mret ordinal
  | S n => read_exact size;; ordinal ← lift (uadd M32 ordinal 1); skip_entries n size ordinal
  end.

Fixpoint read_bundles (fuel : nat) (ordinal : Z) (exports : list LxExport)
    : rd (list LxExport) :=
  match fuel with
  | O => diverge
  | S fuel =>
    b1 ← try_read 1;
    match b1 with
    | None => mret exports
    | Some b =>
      let count := le_val b in
      if count =? 0 then mret exports else
      bundle_type ← read_u8;
      match bundle_type with
      | 0 => ordinal ← lift (uadd M32 ordinal count); read_bundles fuel ordinal exports
      | 3 =>
        object_num ← read_u16;
        '(ordinal, exports) ← read_entries32 (Z.to_nat count) object_num ordinal exports;
        read_bundles fuel ordinal exports
      | 1 => ordinal ← skip_entries (Z.to_nat count) 3 ordinal;
             read_bundles fuel ordinal exports
      | 2 => ordinal ← skip_entries (Z.to_nat count) 5 ordinal;
             read_bundles fuel ordinal exports
      | _ => mret exports
      end
    end
  end.

Definition read_exports (lx_offset : Z) (h : LxHeader) : rd (list LxExport) :=
  if 0 <? entry_table_offset h then
    seek (lx_offset + entry_table_offset h);;
    with_fuel (λ fuel, read_bundles fuel 1 [])
  else mret [].
End entry_table.

(** 11: the non-resident names table, at an absolute file offset. *)
Fixpoint read_names (fuel : nat) : rd (list (Z * rstring)) :=
  match fuel with
  | O => diverge
  | S fuel =>
    lb ← try_read 1;
    match lb with
    | None => mret []
    | Some b =>
      let len := le_val b in
      if len =? 0 then mret [] else
      name_buf ← read_exact len;
      ordinal ← read_u16;
      names ← read_names fuel;
      mret ((ordinal, from_utf8_lossy name_buf) :: names)
    end
  end.
Definition read_nonresident_names (h : LxHeader) : rd (list (Z * rstring)) :=
  if (0 <? non_resident_name_table_offset h) && (0 <? non_resident_name_table_length h) then
    seek (non_resident_name_table_offset h);; with_fuel read_names
  else mret [].

(** [LxFile::parse], from the start of the file. *)
Definition parse_lx {B : Build} : rd LxFile :=
  '(lx_offset, h) ← read_lx_header;
  object_table ← read_object_table lx_offset h;
  page_map ← read_page_map lx_offset h;
  resources ← read_resources lx_offset h;
  fixup_page_table ← read_fixup_page_table lx_offset h;
  fixup_records_by_page ← read_fixup_records lx_offset h fixup_page_table;
  imported_modules ← read_imported_modules lx_offset h;
  import_procedure_names ← read_import_procedure_names lx_offset h;
  exports ← read_exports lx_offset h;
  nonresident_names ← read_nonresident_names h;
  mret (mk_lx h object_table page_map fixup_page_table fixup_records_by_page resources
              imported_modules import_procedure_names exports nonresident_names).
Definition parse {B : Build} (data : bytes) : io LxFile := fst <$> parse_lx data 0.

(** [LxFile::get_proc_name] *)
Definition get_proc_name (f : LxFile) (offset : Z) : option rstring :=
  let names := import_procedure_names f in
  if len names <=? offset then None else
  len_ ← idx names offset;
  if len names <? offset + 1 + len_ then None
  else Some (from_utf8_lossy (slice names (offset + 1) len_)).

(** * The parser returns *)

Section total.
Context (data : bytes) (Hd : Forall is_byte data).

Lemma read_fixups_until_total fuel end_ pos :
  (left data pos < fuel)%nat → returns (read_fixups_until fuel end_ data pos).
Proof.
  revert pos. induction fuel as [|fuel IH]; intros pos Hf; [lia|].
  cbn [read_fixups_until]. apply rd_bind_returns; [done|]. intros p0 ? [= <- <-].
  destruct (pos <? end_); [|done].
  apply rd_bind_returns; [apply total_read_fixup|]. intros r p Hr.
  apply advances_read_fixup in Hr as [? [->|?]]; [lia|].
  pose proof (left_advance data pos p) as Hla.
  apply rd_bind_returns; [apply IH; lia|done].
Qed.

(** A byte that was read is a u8. *)
Lemma try_read_u8 b pos p : try_read 1 data pos = Ok (Some b, p) → u8 (le_val b).
Proof.
  unfold try_read. destruct (read_exact 1 data pos) as [[b' p']| | |] eqn:H; [|done..].
  intros [= -> ->]. apply (yields_u8 data pos (le_val b) p Hd).
  unfold read_u8, mbind, rd_bind. by rewrite H.
Qed.
(** What is left after a first byte and further reads. *)
Lemma left_after pos p1 p2 :
  pos + 1 ≤ p1 ∧ (p1 = pos ∨ p1 ≤ len data) → p1 + 0 ≤ p2 ∧ (p2 = p1 ∨ p2 ≤ len data) →
  (left data p2 < left data pos)%nat.
Proof. intros. apply left_advance; lia. Qed.

Lemma read_names_total fuel pos :
  (left data pos < fuel)%nat → returns (read_names fuel data pos).
Proof.
  revert pos. induction fuel as [|fuel IH]; intros pos Hf; [lia|].
  cbn [read_names]. apply rd_bind_returns; [apply total_try_read|].
  intros [b|] p Hb; [|done]. pose proof (try_read_u8 _ _ _ Hb) as Hu.
  apply advances_try_read in Hb; [|lia]. destruct (le_val b =? 0); [done|].
  apply rd_bind_returns; [apply total_read_exact|]. intros nm p1 Hn.
  apply advances0_read_exact in Hn; [|unfold u8 in Hu; lia].
  apply rd_bind_returns; [auto with stream|]. intros o p2 Ho.
  apply (advances0_read_uint 2) in Ho; [|lia].
  pose proof (left_after pos p p2 Hb ltac:(lia)).
  apply rd_bind_returns; [apply IH; lia|done].
Qed.

Section entries.
Context {B : Build}.

(** The next ordinal never exceeds 128 per byte read: no overflow in a file below
    32 MiB; without overflow checks the loops return whatever the size. *)
Definition ordinal_ok (ordinal pos : Z) : Prop :=
  len data < 2 ^ 25 → 0 ≤ ordinal ≤ 1 + 128 * pos.
Definition size_ok : Prop := overflow_checks = true → len data < 2 ^ 25.

Lemma ordinal_step ordinal pos n pos' :
  size_ok → ordinal_ok ordinal pos → 0 ≤ n → n ≤ 128 * (pos' - pos) → pos' ≤ len data →
  ∃ o, uadd (E:=io_error) M32 ordinal n = Ok o ∧ ordinal_ok o pos' ∧
    (len data < 2 ^ 25 → o = ordinal + n).
Proof.
  unfold size_ok, ordinal_ok, uadd, overflowing. intros Hs Ho Hn Hp Hl.
  destruct (Z.ltb_spec (len data) (2 ^ 25)).
  - specialize (Ho ltac:(done)). zbool. eexists; split; [done|]. lia.
  - destruct overflow_checks; [by specialize (Hs eq_refl); lia|].
    destruct (ordinal + n <? M32); eexists; (split; [done|lia]).
Qed.

Lemma read_entries32_total n object_num ordinal exports pos :
  size_ok → ordinal_ok ordinal pos →
  match read_entries32 n object_num ordinal exports data pos with
  | Ok ((ordinal', _), pos') =>
      pos ≤ pos' ∧ (pos' = pos ∨ pos' ≤ len data) ∧ ordinal_ok ordinal' pos'
  | Err _ => True
  | _ => False
  end.
Proof.
  intros Hs. revert ordinal exports pos.
  induction n as [|n IH]; intros ordinal exports pos Ho; simpl; [naive_solver lia|].
  unfold mbind at 1, rd_bind. pose proof (total_read_exact 5 data pos) as Ht.
  destruct (read_exact 5 data pos) as [[b p]| | |] eqn:Hb; [|done..].
  apply advances_read_exact in Hb; [|lia].
  destruct (ordinal_step ordinal pos 1 p Hs Ho) as (o & Hadd & Ho' & _); [lia..|].
  unfold mbind, lift, rd_bind. rewrite Hadd. specialize (IH o (exports ++
    [mk_export ordinal object_num (le_val (slice b 1 4))]) p Ho').
  destruct (read_entries32 _ _ _ _ _ _) as [[[o' l] p']| | |]; naive_solver lia.
Qed.

Lemma skip_entries_total n size ordinal pos :
  0 < size → size_ok → ordinal_ok ordinal pos →
  match skip_entries n size ordinal data pos with
  | Ok (ordinal', pos') =>
      pos ≤ pos' ∧ (pos' = pos ∨ pos' ≤ len data) ∧ ordinal_ok ordinal' pos'
  | Err _ => True
  | _ => False
  end.
Proof.
  intros Hsz Hs. revert ordinal pos.
  induction n as [|n IH]; intros ordinal pos Ho; simpl; [naive_solver lia|].
  unfold mbind at 1, rd_bind. pose proof (total_read_exact size data pos) as Ht.
  destruct (read_exact size data pos) as [[b p]| | |] eqn:Hb; [|done..].
  apply advances_read_exact in Hb; [|lia].
  destruct (ordinal_step ordinal pos 1 p Hs Ho) as (o & Hadd & Ho' & _); [lia..|].
  unfold mbind, lift, rd_bind. rewrite Hadd. specialize (IH o p Ho').
  destruct (skip_entries _ _ _ _ _) as [[o' p']| | |]; naive_solver lia.
Qed.

Lemma read_bundles_total fuel ordinal exports pos :
  size_ok → ordinal_ok ordinal pos → (left data pos < fuel)%nat →
  returns (read_bundles fuel ordinal exports data pos).
Proof.
  intros Hs. revert ordinal exports pos.
  induction fuel as [|fuel IH]; intros ordinal exports pos Ho Hf; [lia|].
  cbn [read_bundles]. apply rd_bind_returns; [apply total_try_read|].
  intros [b|] p Hb; [|done]. pose proof (try_read_u8 _ _ _ Hb) as Hu. unfold u8 in Hu.
  apply advances_try_read in Hb; [|lia]. destruct (le_val b =? 0); [done|].
  apply rd_bind_returns; [auto with stream|]. intros bt p1 Hbt.
  apply advances_read_u8 in Hbt.
  assert (ordinal_ok ordinal p1) as Ho1 by (unfold ordinal_ok in *; naive_solver lia).
  assert (Hskip : ∀ size, 0 < size → returns ((ordinal ← skip_entries (Z.to_nat (le_val b)) size
    ordinal; read_bundles fuel ordinal exports) data p1)).
  { intros size Hsz. pose proof (skip_entries_total (Z.to_nat (le_val b)) size ordinal p1
      Hsz Hs Ho1) as Hk. unfold mbind, rd_bind.
    destruct (skip_entries _ _ _ _ _) as [[o p2]| | |]; [|done..].
    destruct Hk as (? & ? & Ho2). apply IH; [done|].
    pose proof (left_after pos p p2 Hb). lia. }
  destruct bt as [|[[ | | ]|[ | | ]|]|]; try done; try (by apply Hskip).
  - destruct (ordinal_step ordinal pos (le_val b) p1 Hs Ho) as (o & Hadd & Ho' & _); [lia..|].
    unfold mbind, lift, rd_bind. rewrite Hadd. apply IH; [done|].
    pose proof (left_after pos p p1 Hb). lia.
  - apply rd_bind_returns; [auto with stream|]. intros ob p2 Hob.
    apply (advances0_read_uint 2) in Hob; [|lia].
    pose proof (read_entries32_total (Z.to_nat (le_val b)) ob ordinal exports p2 Hs) as Hk.
    unfold mbind, rd_bind.
    assert (ordinal_ok ordinal p2) as Ho2 by (unfold ordinal_ok in *; naive_solver lia).
    specialize (Hk Ho2). destruct (read_entries32 _ _ _ _ _ _) as [[[o l] p3]| | |]; [|done..].
    destruct Hk as (? & ? & Ho3). apply IH; [done|].
    pose proof (left_after pos p p3 Hb). lia.
Qed.

(** The entries read so far, below the next ordinal and in increasing order. *)
Definition sorted_below (exports : list LxExport) (o : Z) : Prop :=
  StronglySorted Z.lt (ordinal <$> exports) ∧ Forall (λ e, ordinal e < o) exports.

Lemma sorted_below_mono l o o' : o ≤ o' → sorted_below l o → sorted_below l o'.
Proof. intros ? [? H]. split; [done|]. eapply Forall_impl; [exact H|]. simpl; lia. Qed.
Lemma sorted_below_snoc l o n off :
  sorted_below l o → sorted_below (l ++ [mk_export o n off]) (o + 1).
Proof.
  intros [Hs Hb]. split.
  - rewrite fmap_app. apply StronglySorted_app_2; simpl.
    + intros x y Hx ->%list_elem_of_singleton.
      apply list_elem_of_fmap in Hx as (e & -> & He).
      rewrite Forall_forall in Hb. auto.
    + done.
    + repeat constructor.
  - apply Forall_app. split; [|by repeat constructor; simpl; lia].
    eapply Forall_impl; [exact Hb|]. simpl; lia.
Qed.

Context (Hsmall : len data < 2 ^ 25).

Lemma read_entries32_sorted n object_num o l pos o' l' p' :
  ordinal_ok o pos → sorted_below l o →
  read_entries32 n object_num o l data pos = Ok ((o', l'), p') → sorted_below l' o'.
Proof.
  revert o l pos. induction n as [|n IH]; intros o l pos Ho Hl; cbn [read_entries32].
  { by intros [= <- <- <-]. }
  intros (b & p & Hb & (o1 & p1 & Hadd & H)%rd_bind_Ok)%rd_bind_Ok.
  apply advances_read_exact in Hb; [|lia].
  destruct (ordinal_step o pos 1 p (λ _, Hsmall) Ho) as (o2 & Hadd' & Ho' & Heq); [lia..|].
  unfold lift in Hadd. rewrite Hadd' in Hadd. injection Hadd as <- <-.
  apply (IH o2 _ p) in H; [done|done|]. rewrite (Heq Hsmall). by apply sorted_below_snoc.
Qed.
Lemma skip_entries_le n size o pos o' p' :
  0 < size → ordinal_ok o pos →
  skip_entries n size o data pos = Ok (o', p') → o ≤ o'.
Proof.
  intros Hsz. revert o pos. induction n as [|n IH]; intros o pos Ho; cbn [skip_entries].
  { intros [= <- <-]. lia. }
  intros (b & p & Hb & (o1 & p1 & Hadd & H)%rd_bind_Ok)%rd_bind_Ok.
  apply advances_read_exact in Hb; [|lia].
  destruct (ordinal_step o pos 1 p (λ _, Hsmall) Ho) as (o2 & Hadd' & Ho' & Heq); [lia..|].
  unfold lift in Hadd. rewrite Hadd' in Hadd. injection Hadd as <- <-.
  apply (IH o2 p Ho') in H. rewrite (Heq Hsmall) in H. lia.
Qed.

Lemma read_bundles_sorted fuel o l pos l' p' :
  ordinal_ok o pos → sorted_below l o →
  read_bundles fuel o l data pos = Ok (l', p') → StronglySorted Z.lt (ordinal <$> l').
Proof.
  revert o l pos. induction fuel as [|fuel IH]; intros o l pos Ho Hl; [done|].
  cbn [read_bundles]. intros (b & p & Hb & H)%rd_bind_Ok.
  destruct b as [b|]; [|injection H as <- <-; apply Hl].
  pose proof (try_read_u8 _ _ _ Hb) as Hu. unfold u8 in Hu.
  apply advances_try_read in Hb; [|lia].
  destruct (le_val b =? 0); [injection H as <- <-; apply Hl|].
  apply rd_bind_Ok in H as (bt & p1 & Hbt & H). apply advances_read_u8 in Hbt.
  assert (ordinal_ok o p1) as Ho1 by (unfold ordinal_ok in *; naive_solver lia).
  assert (Hskip : ∀ size, 0 < size → (o ← skip_entries (Z.to_nat (le_val b)) size o;
    read_bundles fuel o l) data p1 = Ok (l', p') → StronglySorted Z.lt (ordinal <$> l')).
  { intros size Hsz (o2 & p2 & Hk & Hr)%rd_bind_Ok.
    pose proof (skip_entries_total (Z.to_nat (le_val b)) size o p1 Hsz (λ _, Hsmall) Ho1) as Ht.
    rewrite Hk in Ht. destruct Ht as (_ & _ & Ho2).
    apply skip_entries_le in Hk; [|done..].
    eapply IH; [done| |done]. by eapply sorted_below_mono. }
  destruct bt as [|[[ | | ]|[ | | ]|]|]; try (injection H as <- <-; by apply Hl);
    try (by eapply Hskip; [|exact H]).
  - apply rd_bind_Ok in H as (o2 & p2 & Hadd & H).
    destruct (ordinal_step o pos (le_val b) p1 (λ _, Hsmall) Ho)
      as (o3 & Hadd' & Ho' & Heq); [lia..|].
    unfold lift in Hadd. rewrite Hadd' in Hadd. injection Hadd as <- <-.
    eapply IH; [done| |exact H]. eapply sorted_below_mono; [|done].
    rewrite (Heq Hsmall). lia.
  - apply rd_bind_Ok in H as (ob & p2 & Hob & H).
    apply (advances0_read_uint 2) in Hob; [|lia].
    assert (ordinal_ok o p2) as Ho2 by (unfold ordinal_ok in *; naive_solver lia).
    apply rd_bind_Ok in H as ([o3 l3] & p3 & Hk & H).
    pose proof (read_entries32_total (Z.to_nat (le_val b)) ob o l p2 (λ _, Hsmall) Ho2) as Ht.
    rewrite Hk in Ht. destruct Ht as (_ & _ & Ho3).
    apply read_entries32_sorted in Hk; [|done..]. by eapply IH.
Qed.
End entries.
End total.

Section parse_total.
Context {B : Build} (data : bytes) (Hd : Forall is_byte data).

Lemma with_fuel_returns {A} (f : nat → rd A) pos :
  0 ≤ pos → (∀ fuel, (left data pos < fuel)%nat → returns (f fuel data pos)) →
  returns (with_fuel f data pos).
Proof. intros Hp Hf. apply Hf. pose proof (left_le data pos Hp). lia. Qed.

Lemma read_fixup_pages_total start table i n pos :
  0 ≤ start → 0 ≤ i → Forall u32 table → i + Z.of_nat n < len table →
  returns (read_fixup_pages start table i n data pos).
Proof.
  intros Hst. revert i pos. induction n as [|n IH]; intros i pos Hi Ht Hn; [done|].
  cbn [read_fixup_pages].
  destruct (idx_is_Some table i) as (s & -> & Hs); [lia|].
  destruct (idx_is_Some table (i + 1)) as (e & -> & _); [lia|].
  rewrite Forall_forall in Ht. pose proof (Ht s Hs) as Hsu. unfold u32 in Hsu.
  apply rd_bind_returns; [done|intros ?? [= <- <-]].
  apply rd_bind_returns; [done|intros ?? [= <- <-]].
  apply rd_bind_returns.
  { unfold read_page_fixups. destruct (s <? e); [|done].
    apply rd_bind_returns; [done|]. intros [] p ->%seek_Ok.
    apply with_fuel_returns; [lia|]. intros fuel Hf. by apply read_fixups_until_total. }
  intros page p _. apply rd_bind_returns; [apply IH; [lia|by rewrite Forall_forall|lia]|done].
Qed.

Lemma le_val_slice l a n : Forall is_byte l → 0 ≤ le_val (slice l a n).
Proof. intros Hl. by pose proof (le_val_range _ (slice_byte l a n Hl)); lia. Qed.

(** What the parser knows after the header is read. *)
Lemma read_lx_header_Ok pos off h p :
  read_lx_header data pos = Ok ((off, h), p) →
  0 ≤ off ∧ header_wf h ∧ validate h = Ok tt.
Proof.
  intros (mz & p1 & Hmz & H)%rd_bind_Ok. destruct (negb _); [done|].
  apply rd_bind_Ok in H as (h' & p2 & Hh & H). apply rd_bind_Ok in H as ([] & p3 & Hv & H).
  injection H as <- <- <-. unfold lift in Hv. apply rd_bind_Ok in Hh as ([] & p4 & _ & Hh).
  split_and!.
  - apply le_val_slice. unfold read_exact in Hmz. destruct (_ || _); [|done].
    injection Hmz as <- <-. by apply slice_byte.
  - by eapply read_fields_wf.
  - by destruct (validate h') as [[]| | |].
Qed.
Lemma total_validate h : total (lift (validate h)).
Proof. intros ??. unfold lift, validate. by repeat case_match. Qed.
Lemma total_read_lx_header : total read_lx_header.
Proof.
  apply total_bind; [auto with stream|]. intros mz. apply total_if; [auto with stream|].
  apply total_bind; [auto with stream|]. intros h.
  apply total_bind; [apply total_validate|auto with stream].
Qed.

(** The checks bound the sizes of the tables. *)
Lemma validate_Ok h :
  validate h = Ok tt ↔
  object_count h ≤ MAX_OBJECTS ∧ module_num_pages h ≤ MAX_PAGES ∧ page_offset_shift h < 32 ∧
  (0 < eip_object h → eip_object h ≤ object_count h) ∧
  (0 < esp_object h → esp_object h ≤ object_count h).
Proof.
  unfold validate.
  destruct (Z.ltb_spec MAX_OBJECTS (object_count h)); [naive_solver lia|].
  destruct (Z.ltb_spec MAX_PAGES (module_num_pages h)); [naive_solver lia|].
  destruct (Z.leb_spec 32 (page_offset_shift h)); [naive_solver lia|].
  destruct (Z.ltb_spec 0 (eip_object h)), (Z.ltb_spec (object_count h) (eip_object h));
    cbn [andb]; try (split; [done|lia]);
  destruct (Z.ltb_spec 0 (esp_object h)), (Z.ltb_spec (object_count h) (esp_object h));
    cbn [andb]; try (split; [done|lia]); split; auto; intros _; split_and!; lia.
Qed.

Lemma read_fixup_page_table_Ok off h pos t p :
  0 ≤ module_num_pages h ≤ MAX_PAGES → read_fixup_page_table off h data pos = Ok (t, p) →
  Forall u32 t ∧ len t = module_num_pages h + 1.
Proof.
  unfold MAX_PAGES. intros Hn (? & p1 & _ & H)%rd_bind_Ok. rewrite uadd_ok in H by lia.
  apply rd_bind_Ok in H as (k & p2 & [= <- <-] & H). split.
  - eapply read_n_yields; [apply yields_u32|done|done].
  - apply read_n_Ok in H. unfold len. lia.
Qed.

Lemma parse_lx_total : size_ok data → returns (parse_lx data 0).
Proof.
  intros Hs. apply rd_bind_returns; [apply total_read_lx_header|].
  intros [off h] p0 (Hoff & Hwf & Hv)%read_lx_header_Ok.
  apply validate_Ok in Hv as (_ & Hpages & _).
  assert (0 ≤ module_num_pages h ∧ 0 ≤ entry_table_offset h ∧ 0 ≤ fixup_record_table_offset h
          ∧ 0 ≤ non_resident_name_table_offset h) as (? & ? & ? & ?).
  { unfold header_wf, u32 in Hwf. lia. }
  apply rd_bind_returns; [unfold read_object_table; auto with stream|intros ot p1 _].
  apply rd_bind_returns; [unfold read_page_map; auto with stream|intros pm p2 _].
  apply rd_bind_returns; [unfold read_resources; auto 10 with stream|intros rs p3 _].
  apply rd_bind_returns.
  { unfold read_fixup_page_table, MAX_PAGES in *. rewrite uadd_ok by lia.
    apply rd_bind_returns; [done|intros ? ? _].
    apply rd_bind_returns; [done|intros ? ? _]. auto with stream. }
  intros t p4 (Ht & Hlen)%read_fixup_page_table_Ok; [|lia].
  apply rd_bind_returns; [apply read_fixup_pages_total; lia || done|intros recs p5 _].
  apply rd_bind_returns.
  { unfold read_imported_modules, read_pstring. auto 10 with stream. }
  intros im p6 _.
  apply rd_bind_returns; [unfold read_import_procedure_names; auto 10 with stream|intros ip p7 _].
  apply rd_bind_returns.
  { unfold read_exports. destruct (Z.ltb_spec 0 (entry_table_offset h)); [|done].
    apply rd_bind_returns; [done|intros [] p ->%seek_Ok].
    apply with_fuel_returns; [lia|]. intros fuel Hf.
    apply read_bundles_total; [done..| |done]. unfold ordinal_ok. lia. }
  intros ex p8 _. apply rd_bind_returns; [|done].
  unfold read_nonresident_names.
  destruct (Z.ltb_spec 0 (non_resident_name_table_offset h)),
           (Z.ltb_spec 0 (non_resident_name_table_length h)); try done.
  apply rd_bind_returns; [done|intros [] p ->%seek_Ok].
  apply with_fuel_returns; [lia|]. intros fuel Hf. by apply read_names_total.
Qed.
End parse_total.

(** * Properties *)

(** C1: the LX parser returns on every input file: whatever the bytes, no table index is
    out of range, no reader hits its [unreachable!()], every loop ends and, for files
    below 32 MiB, no ordinal overflows (without overflow checks: whatever the size). *)
Theorem parse_returns {B : Build} (data : bytes) :
  Forall is_byte data → (overflow_checks = true → len data < 2 ^ 25) → returns (parse data).
Proof.
  intros Hd Hs. unfold parse. pose proof (parse_lx_total data Hd Hs) as H.
  by destruct (parse_lx data 0) as [[]| | |].
Qed.
Lemma parse_returns_witness : returns (parse (B:=dev_profile) (str "MZ")).
Proof. apply (parse_returns (B:=dev_profile)); [repeat constructor; done|done]. Defined.

(** What the loader relies on in a parsed module. *)
Record lx_wf (f : LxFile) : Prop := {
  wf_header : header_wf (header f);
  wf_objects : len (object_table f) = object_count (header f) ∧ object_count (header f) ≤ 1024;
  wf_pages : len (page_map f) = module_num_pages (header f) ∧
             module_num_pages (header f) ≤ 65536;
  wf_page_table : len (fixup_page_table f) = module_num_pages (header f) + 1;
  wf_fixups : len (fixup_records_by_page f) = module_num_pages (header f);
  wf_resources : len (resources f) =
    (if 0 <? resource_table_offset (header f) then resource_count (header f) else 0) ∧
    resource_count (header f) ≤ 4096;
  wf_modules : len (imported_modules f) = imported_modules_count (header f);
  wf_shift : 0 ≤ page_offset_shift (header f) < 32;
  wf_entry : 0 < eip_object (header f) → eip_object (header f) ≤ len (object_table f);
  wf_stack : 0 < esp_object (header f) → esp_object (header f) ≤ len (object_table f);
}.

Lemma read_fixup_pages_Ok start table data i n pos l p :
  read_fixup_pages start table i n data pos = Ok (l, p) → length l = n.
Proof.
  revert i pos l p. induction n as [|n IH]; intros i pos l p; cbn [read_fixup_pages].
  { by intros [= <- <-]. }
  intros (s & p1 & _ & (e & p2 & _ & (page & p3 & _ & (pages & p4 & H%IH & [= <- <-])
    %rd_bind_Ok)%rd_bind_Ok)%rd_bind_Ok)%rd_bind_Ok. simpl. by rewrite H.
Qed.
Lemma read_resources_Ok off h data pos l p :
  0 ≤ resource_count h → read_resources off h data pos = Ok (l, p) →
  len l = (if 0 <? resource_table_offset h then resource_count h else 0) ∧ resource_count h ≤ 4096.
Proof.
  unfold read_resources, MAX_RESOURCES, len. intros Hn.
  destruct (Z.ltb_spec 4096 (resource_count h)); [done|].
  destruct (Z.ltb_spec 0 (resource_count h)), (Z.ltb_spec 0 (resource_table_offset h)); cbn [andb];
    first [intros (? & ? & _ & Hl%read_n_Ok)%rd_bind_Ok; lia | intros [= <- <-]; cbn [length]; lia].
Qed.

(** The tables of a module are those of its file: at the offsets of the header lie the encodings of
    the entries, in their order. *)
Definition table_of {A} (data : bytes) (off : Z) (enc : A → bytes) (l : list A) : Prop :=
  slice data off (len (concat (map enc l))) = concat (map enc l).
Record file_tables (data : bytes) (off : Z) (f : LxFile) : Prop := {
  ft_header : slice data off (len (header_bytes (header f))) = header_bytes (header f);
  ft_objects : table_of data (off + object_table_offset (header f)) object_bytes (object_table f);
  ft_pages : table_of data (off + object_page_map_offset (header f)) page_bytes (page_map f);
  ft_resources : table_of data (off + resource_table_offset (header f)) resource_bytes (resources f);
  ft_fixup_pages : table_of data (off + fixup_page_table_offset (header f)) le32 (fixup_page_table f);
  ft_proc_names : import_procedure_names f =
    if 0 <? import_procedure_name_table_offset (header f) then
      slice data (off + import_procedure_name_table_offset (header f))
        (saturating_sub (loader_section_size (header f)) (import_procedure_name_table_offset (header f)))
    else [];
}.
Lemma read_table {A} n (m : rd A) enc data q l p : encodes m enc → Forall is_byte data → 0 ≤ q →
  read_n n m data q = Ok (l, p) → table_of data q enc l.
Proof. intros Hm Hd Hq H. by destruct (encodes_read_n n m enc Hm data q l p Hd Hq H). Qed.
Lemma read_lx_header_at data off h p : Forall is_byte data → read_lx_header data 0 = Ok ((off, h), p) →
  slice data 0 2 = str "MZ" ∧ off = le_val (slice data 0x3C 4) ∧ slice data off (len (header_bytes h)) = header_bytes h.
Proof.
  intros Hd H. pose proof (read_lx_header_Ok data Hd 0 off h p H) as (Hoff & _).
  apply rd_bind_Ok in H as (mz & p1 & Hmz & H). destruct (negb _) eqn:Hsig; [done|].
  apply rd_bind_Ok in H as (h' & p2 & Hh & H). apply rd_bind_Ok in H as ([] & p3 & _ & H).
  injection H as <- <- _. apply read_exact_spans in Hmz as [[_ Hmz] Hl]; [|lia..]. rewrite Hl in Hmz.
  assert (Hsl : ∀ a n, 0 ≤ a → 0 ≤ n → a + n ≤ 64 → slice mz a n = slice data a n).
  { intros a n Ha Hn Hle. rewrite <- Hmz. unfold slice. change (Z.to_nat 0) with 0%nat. rewrite drop_0.
    rewrite skipn_firstn_comm, take_take. f_equal. lia. }
  rewrite negb_false_iff, bool_decide_eq_true in Hsig. rewrite Hsl in Hsig by lia.
  split; [done|]. rewrite Hsl in * by lia. split; [done|].
  apply rd_bind_Ok in Hh as ([] & p4 & [= <-] & Hh). by destruct (encodes_header data _ _ _ Hd Hoff Hh).
Qed.
Lemma read_resources_at off h data pos l p : Forall is_byte data → 0 ≤ off →
  read_resources off h data pos = Ok (l, p) → table_of data (off + resource_table_offset h) resource_bytes l.
Proof.
  intros Hd Hoff. unfold read_resources. case_match; [done|].
  destruct (Z.ltb_spec 0 (resource_count h)), (Z.ltb_spec 0 (resource_table_offset h)); cbn [andb];
    try (intros [= <- <-]; done).
  intros ([] & q & [= <-] & Hl)%rd_bind_Ok. eapply read_table; [apply encodes_resource|done|lia|exact Hl].
Qed.
Lemma read_names_at off h data pos l p : 0 ≤ off →
  read_import_procedure_names off h data pos = Ok (l, p) →
  l = if 0 <? import_procedure_name_table_offset h then
        slice data (off + import_procedure_name_table_offset h)
          (saturating_sub (loader_section_size h) (import_procedure_name_table_offset h))
      else [].
Proof.
  intros Hoff. unfold read_import_procedure_names.
  replace (saturating_sub (off + loader_section_size h) (off + import_procedure_name_table_offset h))
    with (saturating_sub (loader_section_size h) (import_procedure_name_table_offset h))
    by (unfold saturating_sub; lia).
  destruct (Z.ltb_spec 0 (import_procedure_name_table_offset h)) as [Ho|]; [|by intros [= <- <-]].
  intros ([] & q & [= <-] & H)%rd_bind_Ok. revert H. set (n := saturating_sub _ _).
  destruct (Z.ltb_spec 0 n) as [Hn|Hn].
  - intros H. apply read_exact_spans in H as [[_ Hs] <-]; [done|lia..].
  - intros [= <- <-]. assert (n = 0) as -> by (subst n; unfold saturating_sub in *; lia). by rewrite slice_nil.
Qed.

Lemma parse_Ok_steps {B : Build} data f :
  parse data = Ok f → ∃ off p0 p1 p2 p3 p4 p5 p6 p7 p8 p9 p10,
    read_lx_header data 0 = Ok ((off, header f), p0) ∧
    read_object_table off (header f) data p0 = Ok (object_table f, p1) ∧
    read_page_map off (header f) data p1 = Ok (page_map f, p2) ∧
    read_resources off (header f) data p2 = Ok (resources f, p3) ∧
    read_fixup_page_table off (header f) data p3 = Ok (fixup_page_table f, p4) ∧
    read_fixup_records off (header f) (fixup_page_table f) data p4
      = Ok (fixup_records_by_page f, p5) ∧
    read_imported_modules off (header f) data p5 = Ok (imported_modules f, p6) ∧
    read_import_procedure_names off (header f) data p6 = Ok (import_procedure_names f, p7) ∧
    read_exports off (header f) data p7 = Ok (exports f, p8) ∧
    read_nonresident_names (header f) data p8 = Ok (nonresident_names f, p9) ∧ p10 = p9.
Proof.
  unfold parse. destruct (parse_lx data 0) as [[f' q]| | |] eqn:H; [|done..].
  intros [= ->]. apply rd_bind_Ok in H as ([off h] & p0 & H0 & H).
  do 9 (apply rd_bind_Ok in H as (? & ? & ? & H)). injection H as <- <-. cbn.
  do 12 eexists. split_and!; done.
Qed.

(** C35: a parsed module is the one in the file.  Its tables have exactly the sizes its header
    announces (a resource table at offset 0 is none), within the limits the parser enforces; the
    header, the objects, the page map, the resources, the fixup page table and the procedure names
    are what the file holds at the places the header names, entry by entry; and the entry and stack
    objects exist, or are 0. *)
Theorem parse_wf {B : Build} (data : bytes) (f : LxFile) :
  Forall is_byte data → parse data = Ok f →
  slice data 0 2 = str "MZ" ∧ lx_wf f ∧ file_tables data (le_val (slice data 0x3C 4)) f.
Proof.
  intros Hd (off & p0 & p1 & p2 & p3 & p4 & p5 & p6 & p7 & p8 & p9 & p10 & H0 & H1 & H2 & H3
    & H4 & H5 & H6 & H7 & _)%parse_Ok_steps.
  pose proof (read_lx_header_at _ _ _ _ Hd H0) as (Hmz & <- & Hhd).
  apply read_lx_header_Ok in H0 as (Hoff & Hwf & Hv); [|done].
  apply validate_Ok in Hv as (Ho & Hp & Hs & He & Hst). unfold MAX_OBJECTS, MAX_PAGES in *.
  pose proof Hwf as Hwf'. unfold header_wf, u32 in Hwf'. destruct_and! Hwf'.
  pose proof (read_resources_at _ _ _ _ _ _ Hd Hoff H3) as Hres.
  apply read_names_at in H7; [|done].
  apply rd_bind_Ok in H1 as ([] & ? & [= <-] & H1). apply rd_bind_Ok in H2 as ([] & ? & [= <-] & H2).
  pose proof H4 as Ht. apply rd_bind_Ok in Ht as ([] & ? & [= <-] & Ht).
  apply rd_bind_Ok in Ht as (k & ? & Hk & Ht). rewrite uadd_ok in Hk by lia. injection Hk as <- <-.
  split; [done|]. split.
  - apply read_n_Ok in H1, H2. apply read_resources_Ok in H3; [|lia].
    apply read_fixup_page_table_Ok in H4 as [_ H4]; [|done|unfold MAX_PAGES; lia].
    apply read_fixup_pages_Ok in H5. apply rd_bind_Ok in H6 as (? & ? & _ & H6%read_n_Ok).
    split; unfold len in *; try done; try lia.
  - split; try done.
    + eapply read_table; [apply encodes_object|done|lia|exact H1].
    + eapply read_table; [apply encodes_page|done|lia|exact H2].
    + eapply read_table; [apply encodes_u32|done|lia|exact Ht].
Qed.

(** A module with one object, one page with one fixup, one import and two exports. *)
Definition demo_header : LxHeader :=
  mk_header (str "LX") 0 0 0 2 1 0 0 1 1 0 0 0 4096 0 0 0 290 0 172 1 196 0 0 0 0 204 0 0
    222 230 239 1 248 0 312 0 0 0 0 0 0 0 0 0 0.
Definition demo_file : bytes :=
  str "MZ" ++ replicate 58 0 ++ le32 64 ++ header_bytes demo_header ++
  object_bytes (mk_object 4096 65536 8197 1 1 0) ++ page_bytes (mk_page 0 4096 0) ++
  [2; 3] ++ le16 1 ++ [0] ++ le32 16 ++ [0] ++ le32 32 ++ [0; 0; 0; 0] ++
  le32 0 ++ le32 9 ++ fixup_bytes (mk_fixup 7 0x11 [4] (ExternalOrdinal 1 2) None) ++
  [8] ++ str "DOSCALLS" ++ replicate 50 0.

Lemma demo_file_bytes : Forall is_byte demo_file.
Proof. apply (bool_decide_unpack _). by vm_compute. Qed.

Definition demo_lx : LxFile :=
  match parse (B:=dev_profile) demo_file with
  | Ok f => f
  | _ => mk_lx demo_header [] [] [] [] [] [] [] [] []
  end.
Example demo_exports : exports demo_lx = [mk_export 1 1 16; mk_export 2 1 32].
Proof. vm_compute. reflexivity. Qed.

Lemma parse_wf_witness :
  parse (B:=dev_profile) demo_file = Ok demo_lx ∧ lx_wf demo_lx ∧ file_tables demo_file 64 demo_lx.
Proof.
  assert (parse (B:=dev_profile) demo_file = Ok demo_lx) as H by (vm_compute; reflexivity).
  split; [exact H|]. apply (parse_wf (B:=dev_profile) demo_file); [apply demo_file_bytes|exact H].
Defined.

(** The exports of a parsed module (of a file below 32 MiB) carry strictly increasing
    ordinals, hence no ordinal twice: an import by ordinal names at most one entry. *)
Theorem exports_increasing {B : Build} (data : bytes) (f : LxFile) :
  Forall is_byte data → len data < 2 ^ 25 → parse data = Ok f →
  StronglySorted Z.lt (ordinal <$> exports f).
Proof.
  intros Hd Hs (off & p0 & p1 & p2 & p3 & p4 & p5 & p6 & p7 & p8 & p9 & p10 & H0 & _ & _ & _
    & _ & _ & _ & _ & H8 & _)%parse_Ok_steps.
  apply read_lx_header_Ok in H0 as (Hoff & Hwf & _); [|done].
  assert (0 ≤ entry_table_offset (header f)) by (unfold header_wf, u32 in Hwf; lia).
  unfold read_exports in H8. destruct (0 <? _); [|injection H8 as <- <-; constructor].
  apply rd_bind_Ok in H8 as ([] & p & ->%seek_Ok & H8).
  eapply (read_bundles_sorted data Hd Hs); [| |exact H8].
  - unfold ordinal_ok. lia.
  - repeat constructor.
Qed.
Lemma exports_increasing_witness :
  parse (B:=dev_profile) demo_file = Ok demo_lx ∧
  StronglySorted Z.lt (ordinal <$> exports demo_lx).
Proof.
  assert (parse (B:=dev_profile) demo_file = Ok demo_lx) as H by (vm_compute; reflexivity).
  split; [exact H|].
  apply (exports_increasing (B:=dev_profile) demo_file); [apply demo_file_bytes|done|exact H].
Defined.
