(* ===== verification/Codepage.v ===== *)
(** Codepage conversion (src/src/loader/codepage.rs): the embedded tables of the DOS
    codepages 437, 850 and 852, decoding and encoding of guest byte strings, and the
    1:1 upper-casing of a byte.

    The encodings of encoding_rs (Windows and DBCS codepages) and the case mapping of the
    Unicode database are arguments of the definitions that use them. *)
From S2P Require Import Prelude Bytes.

Definition CP437_UPPER : list Z :=
  [0x00C7; 0x00FC; 0x00E9; 0x00E2; 0x00E4; 0x00E0; 0x00E5; 0x00E7;
   0x00EA; 0x00EB; 0x00E8; 0x00EF; 0x00EE; 0x00EC; 0x00C4; 0x00C5;
   0x00C9; 0x00E6; 0x00C6; 0x00F4; 0x00F6; 0x00F2; 0x00FB; 0x00F9;
   0x00FF; 0x00D6; 0x00DC; 0x00A2; 0x00A3; 0x00A5; 0x20A7; 0x0192;
   0x00E1; 0x00ED; 0x00F3; 0x00FA; 0x00F1; 0x00D1; 0x00AA; 0x00BA;
   0x00BF; 0x2310; 0x00AC; 0x00BD; 0x00BC; 0x00A1; 0x00AB; 0x00BB;
   0x2591; 0x2592; 0x2593; 0x2502; 0x2524; 0x2561; 0x2562; 0x2556;
   0x2555; 0x2563; 0x2551; 0x2557; 0x255D; 0x255C; 0x255B; 0x2510;
   0x2514; 0x2534; 0x252C; 0x251C; 0x2500; 0x253C; 0x255E; 0x255F;
   0x255A; 0x2554; 0x2569; 0x2566; 0x2560; 0x2550; 0x256C; 0x2567;
   0x2568; 0x2564; 0x2565; 0x2559; 0x2558; 0x2552; 0x2553; 0x256B;
   0x256A; 0x2518; 0x250C; 0x2588; 0x2584; 0x258C; 0x2590; 0x2580;
   0x03B1; 0x00DF; 0x0393; 0x03C0; 0x03A3; 0x03C3; 0x00B5; 0x03C4;
   0x03A6; 0x0398; 0x03A9; 0x03B4; 0x221E; 0x03C6; 0x03B5; 0x2229;
   0x2261; 0x00B1; 0x2265; 0x2264; 0x2320; 0x2321; 0x00F7; 0x2248;
   0x00B0; 0x2219; 0x00B7; 0x221A; 0x207F; 0x00B2; 0x25A0; 0x00A0].

Definition CP850_UPPER : list Z :=
  [0x00C7; 0x00FC; 0x00E9; 0x00E2; 0x00E4; 0x00E0; 0x00E5; 0x00E7;
   0x00EA; 0x00EB; 0x00E8; 0x00EF; 0x00EE; 0x00EC; 0x00C4; 0x00C5;
   0x00C9; 0x00E6; 0x00C6; 0x00F4; 0x00F6; 0x00F2; 0x00FB; 0x00F9;
   0x00FF; 0x00D6; 0x00DC; 0x00F8; 0x00A3; 0x00D8; 0x00D7; 0x0192;
   0x00E1; 0x00ED; 0x00F3; 0x00FA; 0x00F1; 0x00D1; 0x00AA; 0x00BA;
   0x00BF; 0x00AE; 0x00AC; 0x00BD; 0x00BC; 0x00A1; 0x00AB; 0x00BB;
   0x2591; 0x2592; 0x2593; 0x2502; 0x2524; 0x00C1; 0x00C2; 0x00C0;
   0x00A9; 0x2563; 0x2551; 0x2557; 0x255D; 0x00A2; 0x00A5; 0x2510;
   0x2514; 0x2534; 0x252C; 0x251C; 0x2500; 0x253C; 0x00E3; 0x00C3;
   0x255A; 0x2554; 0x2569; 0x2566; 0x2560; 0x2550; 0x256C; 0x00A4;
   0x00F0; 0x00D0; 0x00CA; 0x00CB; 0x00C8; 0x0131; 0x00CD; 0x00CE;
   0x00CF; 0x2518; 0x250C; 0x2588; 0x2584; 0x00A6; 0x00CC; 0x2580;
   0x00D3; 0x00DF; 0x00D4; 0x00D2; 0x00F5; 0x00D5; 0x00B5; 0x00FE;
   0x00DE; 0x00DA; 0x00DB; 0x00D9; 0x00FD; 0x00DD; 0x00AF; 0x00B4;
   0x00AD; 0x00B1; 0x2017; 0x00BE; 0x00B6; 0x00A7; 0x00F7; 0x00B8;
   0x00B0; 0x00A8; 0x00B7; 0x00B9; 0x00B3; 0x00B2; 0x25A0; 0x00A0].

Definition CP852_UPPER : list Z :=
  [0x00C7; 0x00FC; 0x00E9; 0x00E2; 0x00E4; 0x016F; 0x0107; 0x00E7;
   0x0142; 0x00EB; 0x0150; 0x0151; 0x00EE; 0x0179; 0x00C4; 0x0106;
   0x00C9; 0x0139; 0x013A; 0x00F4; 0x00F6; 0x013D; 0x013E; 0x015A;
   0x015B; 0x00D6; 0x00DC; 0x0164; 0x0165; 0x0141; 0x00D7; 0x010D;
   0x00E1; 0x00ED; 0x00F3; 0x00FA; 0x0104; 0x0105; 0x017D; 0x017E;
   0x0118; 0x0119; 0x00AC; 0x017A; 0x010C; 0x015F; 0x00AB; 0x00BB;
   0x2591; 0x2592; 0x2593; 0x2502; 0x2524; 0x00C1; 0x00C2; 0x011A;
   0x0160; 0x2563; 0x2551; 0x2557; 0x255D; 0x017B; 0x017C; 0x2510;
   0x2514; 0x2534; 0x252C; 0x251C; 0x2500; 0x253C; 0x0102; 0x0103;
   0x255A; 0x2554; 0x2569; 0x2566; 0x2560; 0x2550; 0x256C; 0x00A4;
   0x0111; 0x0110; 0x010E; 0x00CB; 0x010F; 0x0147; 0x00CD; 0x00CE;
   0x011B; 0x2518; 0x250C; 0x2588; 0x2584; 0x0162; 0x016E; 0x2580;
   0x00D3; 0x00DF; 0x00D4; 0x0143; 0x0144; 0x0148; 0x0160; 0x016F;
   0x00DE; 0x00DA; 0x00DB; 0x00D9; 0x00FD; 0x00DD; 0x0163; 0x00B4;
   0x00AD; 0x02DD; 0x02DB; 0x02C7; 0x02D8; 0x00A7; 0x00F7; 0x00B8;
   0x00B0; 0x00A8; 0x02D9; 0x0171; 0x0158; 0x0159; 0x25A0; 0x00A0].

(** The static encodings of encoding_rs that [cp_to_encoding] names. *)
Inductive Encoding :=
| IBM866 | SHIFT_JIS | GBK | EUC_KR | BIG5
| WINDOWS_1250 | WINDOWS_1251 | WINDOWS_1252 | WINDOWS_1253 | WINDOWS_1254
| WINDOWS_1255 | WINDOWS_1256 | WINDOWS_1257 | WINDOWS_1258.

Definition cp_to_encoding (cp : Z) : option Encoding :=
  match cp with
  | 866 => Some IBM866
  | 932 => Some SHIFT_JIS
  | 936 => Some GBK
  | 949 => Some EUC_KR
  | 950 => Some BIG5
  | 1250 => Some WINDOWS_1250
  | 1251 => Some WINDOWS_1251
  | 1252 => Some WINDOWS_1252
  | 1253 => Some WINDOWS_1253
  | 1254 => Some WINDOWS_1254
  | 1255 => Some WINDOWS_1255
  | 1256 => Some WINDOWS_1256
  | 1257 => Some WINDOWS_1257
  | 1258 => Some WINDOWS_1258
  | _ => None
  end.

(** [upper.iter().position(|&t| t == ch)] *)
Fixpoint position (ch : Z) (l : list Z) : option Z :=
  match l with
  | [] => None
  | t :: l => if t =? ch then Some 0 else Z.succ <$> position ch l
  end.

Definition decode_single_byte (bs : bytes) (upper : list Z) : rstring :=
  map (λ b, if b <? 0x80 then b else nth (Z.to_nat (b - 0x80)) upper 0) bs.

Definition encode_single_byte (s : rstring) (upper : list Z) : bytes :=
  map (λ ch, if ch <? 0x80 then ch
             else match position ch upper with
                  | Some i => i + 0x80
                  | None => 0x3F
                  end) s.

Section codepages.
(** encoding_rs: [decode], [encode], and [decode_without_bom_handling] of one byte. *)
Context (enc_decode : Encoding → bytes → rstring).
Context (enc_encode : Encoding → rstring → bytes).
Context (enc_decode_raw : Encoding → bytes → rstring).
(** [char::to_uppercase] *)
Context (to_uppercase : Z → rstring).

Definition cp_decode (bs : bytes) (cp : Z) : rstring :=
  match cp with
  | 437 => decode_single_byte bs CP437_UPPER
  | 850 => decode_single_byte bs CP850_UPPER
  | 852 => decode_single_byte bs CP852_UPPER
  | _ =>
    match cp_to_encoding cp with
    | Some enc => enc_decode enc bs
    | None => bs
    end
  end.

Definition cp_encode (s : rstring) (cp : Z) : bytes :=
  match cp with
  | 437 => encode_single_byte s CP437_UPPER
  | 850 => encode_single_byte s CP850_UPPER
  | 852 => encode_single_byte s CP852_UPPER
  | _ =>
    match cp_to_encoding cp with
    | Some enc => enc_encode enc s
    | None => map (λ c, if c <? 0x80 then c else 0x3F) s
    end
  end.

(** [byte.to_ascii_uppercase()] *)
Definition to_ascii_uppercase (b : Z) : Z := if in_range 0x61 0x7A b then b - 0x20 else b.

Definition map_case_sbcs (byte : Z) (upper : list Z) : Z :=
  let ch := nth (Z.to_nat (byte - 0x80)) upper 0 in
  match to_uppercase ch with
  | [up] =>
    if up =? ch then byte
    else if up <? 0x80 then up
    else match position up upper with
         | Some i => i + 0x80
         | None => byte
         end
  | _ => byte
  end.

(** The last arm of [cp_map_case_upper]. *)
Definition map_case_encoding (byte cp : Z) : Z :=
  match cp_to_encoding cp with
  | Some enc =>
    match enc_decode_raw enc [byte] with
    | ch :: _ =>
      match to_uppercase ch with
      | [up] =>
        if up =? ch then byte
        else match enc_encode enc [up] with
             | b :: _ => b
             | [] => byte
             end
      | _ => byte
      end
    | [] => byte
    end
  | None => byte
  end.

Definition cp_map_case_upper (byte cp : Z) : Z :=
  if byte <? 0x80 then to_ascii_uppercase byte
  else match cp with
  | 437 => map_case_sbcs byte CP437_UPPER
  | 850 => map_case_sbcs byte CP850_UPPER
  | 852 => map_case_sbcs byte CP852_UPPER
  | 932 | 936 | 949 | 950 => byte
  | _ => map_case_encoding byte cp
  end.

Definition decode_dbcs (lead trail cp : Z) : Z :=
  match cp_decode [lead; trail] cp with
  | c :: _ => c
  | [] => 0xFFFD
  end.
End codepages.

(** * Properties of the tables *)

Definition table_ok (upper : list Z) : Prop :=
  length upper = 128%nat ∧ NoDup upper ∧ Forall (λ c, 0x80 ≤ c) upper.

Lemma position_nth upper i :
  NoDup upper → (i < length upper)%nat → position (nth i upper 0) upper = Some (Z.of_nat i).
Proof.
  intros Hn. revert i. induction Hn as [|t l Ht Hn IH]; intros i Hi; [simpl in Hi; lia|].
  destruct i as [|i]; simpl; [by rewrite Z.eqb_refl|].
  destruct (Z.eqb_spec t (nth i l 0)) as [->|].
  - destruct Ht. apply list_elem_of_In, nth_In. simpl in Hi. lia.
  - rewrite IH by (simpl in Hi; lia). simpl. f_equal. lia.
Qed.
Lemma position_Some ch upper i :
  position ch upper = Some i → 0 ≤ i < len upper ∧ nth (Z.to_nat i) upper 0 = ch.
Proof.
  revert i. induction upper as [|t l IH]; intros i; simpl; [done|]. rewrite len_cons.
  pose proof (len_nonneg l). destruct (Z.eqb_spec t ch) as [->|].
  - intros [= <-]. split; [lia|done].
  - destruct (position ch l) as [j|]; [|done]. intros [= <-].
    destruct (IH j eq_refl) as [Hj <-]. split; [lia|].
    by replace (Z.to_nat (Z.succ j)) with (S (Z.to_nat j)) by lia.
Qed.

Lemma table_roundtrip upper bs :
  table_ok upper → Forall is_byte bs →
  encode_single_byte (decode_single_byte bs upper) upper = bs.
Proof.
  intros (Hl & Hn & Hu) Hb. unfold encode_single_byte, decode_single_byte. rewrite map_map.
  rewrite <- (map_id bs) at 2. apply map_ext_in. intros b Hin%list_elem_of_In.
  rewrite Forall_forall in Hb. specialize (Hb b Hin). unfold is_byte in Hb.
  destruct (Z.ltb_spec b 0x80) as [Hlt|Hge]; [by zbool|].
  assert (Z.to_nat (b - 0x80) < length upper)%nat as Hi by lia.
  rewrite position_nth by done. rewrite Forall_forall in Hu.
  pose proof (Hu _ (proj2 (list_elem_of_In _ _) (nth_In upper 0 Hi))). zbool. lia.
Qed.
Lemma table_encode_decode upper s :
  table_ok upper → Forall (λ c, 0 ≤ c < 0x80 ∨ c ∈ upper) s →
  decode_single_byte (encode_single_byte s upper) upper = s.
Proof.
  intros (Hl & Hn & Hu) Hs. unfold encode_single_byte, decode_single_byte. rewrite map_map.
  rewrite <- (map_id s) at 2. apply map_ext_in. intros c Hin%list_elem_of_In.
  rewrite Forall_forall in Hs, Hu. destruct (Hs c Hin) as [?|Hc]; [by do 2 zbool|].
  pose proof (Hu c Hc). destruct (Z.ltb_spec c 0x80); [lia|].
  apply list_elem_of_In in Hc. destruct (In_nth _ _ 0 Hc) as (i & Hi & <-).
  rewrite position_nth by done. zbool.
  by replace (Z.to_nat (Z.of_nat i + 0x80 - 0x80)) with i by lia.
Qed.

Lemma CP437_ok : table_ok CP437_UPPER.
Proof. split_and!; [done| |]; apply (bool_decide_unpack _); by vm_compute. Qed.
Lemma CP850_ok : table_ok CP850_UPPER.
Proof. split_and!; [done| |]; apply (bool_decide_unpack _); by vm_compute. Qed.

(** For codepages 437 and 850 decoding loses nothing: every byte string is the
    encoding of its decoding, and every string over ASCII and the characters of the table is
    the decoding of its encoding. *)
Theorem dos_codepage_roundtrip dec enc cp bs :
  cp = 437 ∨ cp = 850 → Forall is_byte bs →
  cp_encode enc (cp_decode dec bs cp) cp = bs ∧
  (∀ s, Forall (λ c, 0 ≤ c < 0x80 ∨ c ∈ if cp =? 437 then CP437_UPPER else CP850_UPPER) s →
        cp_decode dec (cp_encode enc s cp) cp = s).
Proof.
  intros [-> | ->] Hb; (split; [|intros s Hs]); cbn [cp_decode cp_encode Z.eqb].
  - by apply table_roundtrip; [apply CP437_ok|].
  - by apply table_encode_decode; [apply CP437_ok|].
  - by apply table_roundtrip; [apply CP850_ok|].
  - by apply table_encode_decode; [apply CP850_ok|].
Qed.
Lemma dos_codepage_roundtrip_witness :
  cp_encode (λ _ s, s) (cp_decode (λ _ b, b) [0x41; 0x82; 0xFF] 437) 437 = [0x41; 0x82; 0xFF].
Proof.
  apply (dos_codepage_roundtrip (λ _ b, b) (λ _ s, s) 437); [by left|].
  repeat constructor; done.
Defined.

(** Codepage 852 is not injective: its table has two characters twice, so two bytes come
    back as others. *)
Lemma cp852_not_injective dec enc :
  cp_encode enc (cp_decode dec [0xE6; 0xE7] 852) 852 = [0xB8; 0x85].
Proof. vm_compute. reflexivity. Qed.

(** For a Windows codepage, the byte of a character whose upper case the codepage lacks is
    replaced by the first byte of what [encode] emits for it (encoding_rs writes a numeric
    character reference, which starts with [&]): the micro sign of codepage 1252. *)
Lemma cp1252_micro_sign raw enc up :
  raw WINDOWS_1252 [0xB5] = [0xB5] → up 0xB5 = [0x39C] →
  enc WINDOWS_1252 [0x39C] = str "&#924;" → cp_map_case_upper enc raw up 0xB5 1252 = 0x26.
Proof. intros H1 H2 H3. cbn. unfold map_case_encoding. cbn. rewrite H1, H2, H3. done. Qed.
