(* ===== verification/GuestMem.v ===== *)
(** Guest physical memory (src/src/loader/guest_mem.rs): the one access point of the
    host to the guest's address space.  The mapping is a size and the bytes written so
    far; a byte never written reads as 0.  A checked pointer is the offset it points to. *)
From S2P Require Import Prelude Bytes Codepage.

Record GuestMemory := mk_mem { size : Z; cells : gmap Z Z }.

(** [GuestMemory::alloc], the [mmap] that succeeds. *)
Definition alloc (size : Z) : GuestMemory := mk_mem size ∅.

(** [GuestMemory::ptr_at]: [offset] is a u32 and [n] a usize. *)
Definition ptr_at (m : GuestMemory) (offset n : Z) : option Z :=
  match checked_add M64 offset n with
  | None => None
  | Some end_ => if size m <? end_ then None else Some offset
  end.

(** The bytes of the mapping from [p]. *)
Definition load (m : GuestMemory) (p : Z) : Z := default 0 (cells m !! p).
Fixpoint load_bytes (m : GuestMemory) (p : Z) (n : nat) : bytes :=
  match n with
  | O => []
  | S n => load m p :: load_bytes m (p + 1) n
  end.
Fixpoint store_bytes (m : GuestMemory) (p : Z) (data : bytes) : GuestMemory :=
  match data with
  | [] => m
  | b :: data => store_bytes (mk_mem (size m) (<[p := b]> (cells m))) (p + 1) data
  end.

(** [read::<T>] and [write::<T>] for an integer type of [n] bytes; [write_bytes];
    [slice_mut], the bytes it exposes (an update of the slice is a [write_bytes]). *)
Definition read (n : nat) (m : GuestMemory) (offset : Z) : option Z :=
  p ← ptr_at m offset (Z.of_nat n);
  Some (le_val (load_bytes m p n)).
Definition write (n : nat) (m : GuestMemory) (offset val : Z) : option GuestMemory :=
  p ← ptr_at m offset (Z.of_nat n);
  Some (store_bytes m p (le_bytes n val)).
Definition write_bytes (m : GuestMemory) (offset : Z) (data : bytes) : option GuestMemory :=
  p ← ptr_at m offset (len data);
  Some (store_bytes m p data).
Definition slice_mut (m : GuestMemory) (offset n : Z) : option bytes :=
  p ← ptr_at m offset n;
  Some (load_bytes m p (Z.to_nat n)).

Abbreviation read8 := (read 1).
Abbreviation read16 := (read 2).
Abbreviation read32 := (read 4).
Abbreviation read64 := (read 8).
Abbreviation write8 := (write 1).
Abbreviation write16 := (write 2).
Abbreviation write32 := (write 4).
Abbreviation write64 := (write 8).

(** [guest_write] with its result dropped. *)
Definition poke (n : nat) (m : GuestMemory) (offset val : Z) : GuestMemory :=
  default m (write n m offset val).

(** The loop of [read_guest_string], [n] bytes left. *)
Fixpoint read_cstr (m : GuestMemory) (p : Z) (n : nat) : bytes :=
  match n with
  | O => []
  | S n =>
    let byte := default 0 (read8 m (as_u M32 p)) in
    if byte =? 0 then [] else byte :: read_cstr m (p + 1) n
  end.

Definition MAX_GUEST_STRING_LEN := 4096.

(** [Loader::read_guest_string], with the active codepage. *)
Definition read_guest_string (dec : Encoding → bytes → rstring) (active_codepage : Z)
    (m : GuestMemory) (ptr : Z) : rstring :=
  if size m <=? ptr then []
  else
    let max_len := Z.min MAX_GUEST_STRING_LEN (size m - ptr) in
    cp_decode dec (read_cstr m ptr (Z.to_nat max_len)) active_codepage.

(** * Lemmas *)

(** The mapping holds bytes only and is smaller than the host's address space. *)
Record mem_wf (m : GuestMemory) : Prop := {
  mem_size : 0 ≤ size m < M64;
  mem_bytes : map_Forall (λ _ b, is_byte b) (cells m);
}.

Lemma alloc_wf n : 0 ≤ n < M64 → mem_wf (alloc n).
Proof. split; simpl; [done|apply map_Forall_empty]. Qed.

Lemma ptr_at_Some m offset n p :
  size m < M64 → ptr_at m offset n = Some p ↔ p = offset ∧ offset + n ≤ size m.
Proof.
  intros Hs. unfold ptr_at. destruct (checked_add M64 offset n) as [e|] eqn:He.
  - apply checked_add_Some in He as [-> ?].
    destruct (Z.ltb_spec (size m) (offset + n)); naive_solver lia.
  - apply checked_add_None in He. naive_solver lia.
Qed.
Lemma ptr_at_None m offset n :
  size m < M64 → ptr_at m offset n = None ↔ size m < offset + n.
Proof.
  intros Hs. destruct (ptr_at m offset n) as [p|] eqn:H.
  - apply ptr_at_Some in H; [|done]. naive_solver lia.
  - split; [|done]. intros _. destruct (Z.ltb_spec (size m) (offset + n)); [done|].
    assert (ptr_at m offset n = Some offset) by (apply ptr_at_Some; [done|split; [done|lia]]).
    congruence.
Qed.

Lemma load_byte m p : mem_wf m → is_byte (load m p).
Proof.
  intros Hm. unfold load. destruct (cells m !! p) as [b|] eqn:H; simpl; [|done].
  by eapply (mem_bytes m Hm).
Qed.
Lemma load_bytes_bytes m p n : mem_wf m → Forall is_byte (load_bytes m p n).
Proof. intros Hm. revert p. induction n; constructor; [by apply load_byte|auto]. Qed.
Lemma load_bytes_app m p i j :
  load_bytes m p (i + j) = load_bytes m p i ++ load_bytes m (p + Z.of_nat i) j.
Proof.
  revert p. induction i as [|i IH]; intros p; cbn [Nat.add load_bytes app].
  { by rewrite Z.add_0_r. }
  rewrite IH. do 2 f_equal. f_equal. lia.
Qed.
Lemma length_load_bytes m p n : length (load_bytes m p n) = n.
Proof. revert p. induction n; simpl; auto. Qed.
Lemma load_bytes_lookup m p n i :
  (i < n)%nat → load_bytes m p n !! i = Some (load m (p + Z.of_nat i)).
Proof.
  revert p i. induction n as [|n IH]; intros p [|i] Hi; simpl; [lia|lia| |].
  - by rewrite Z.add_0_r.
  - rewrite IH by lia. do 2 f_equal. lia.
Qed.

Lemma store_bytes_size m p data : size (store_bytes m p data) = size m.
Proof. revert m p. induction data; intros; simpl; [done|]. by rewrite IHdata. Qed.
(** A byte after a store is the stored one in the range written, the old one elsewhere. *)
Lemma load_store m p data q :
  load (store_bytes m p data) q =
  if bool_decide (p ≤ q < p + len data) then nth (Z.to_nat (q - p)) data 0 else load m q.
Proof.
  revert m p. induction data as [|b data IH]; intros m p; cbn [store_bytes].
  { rewrite bool_decide_false; [done|]. unfold len; simpl; lia. }
  rewrite IH, len_cons. unfold load at 1. cbn [cells].
  pose proof (len_nonneg data).
  repeat case_bool_decide; try lia.
  - replace (Z.to_nat (q - p)) with (S (Z.to_nat (q - (p + 1)))) by lia. done.
  - assert (q = p) as -> by lia. by rewrite lookup_insert_eq, Z.sub_diag.
  - by rewrite lookup_insert_ne by lia.
Qed.
Lemma store_bytes_wf m p data : mem_wf m → Forall is_byte data → mem_wf (store_bytes m p data).
Proof.
  intros Hm Hd. revert m p Hm. induction Hd as [|b data Hb _ IH]; intros m p Hm; simpl; [done|].
  apply IH. destruct Hm as [Hs Hc]. split; simpl; [done|]. by apply map_Forall_insert_2.
Qed.
Lemma load_store_bytes m p data : load_bytes (store_bytes m p data) p (length data) = data.
Proof.
  apply list_eq. intros i. destruct (decide (i < length data)%nat) as [Hi|].
  - rewrite load_bytes_lookup by done. rewrite load_store, bool_decide_true by (unfold len; lia).
    replace (Z.to_nat _) with i by lia.
    destruct (nth_lookup_or_length data i 0) as [H|]; [by rewrite H|lia].
  - rewrite !lookup_ge_None_2; [done|lia|rewrite length_load_bytes; lia].
Qed.
Lemma load_store_other m p data q n :
  q + Z.of_nat n ≤ p ∨ p + len data ≤ q →
  load_bytes (store_bytes m p data) q n = load_bytes m q n.
Proof.
  revert q. induction n as [|n IH]; intros q Hq; simpl; [done|]. rewrite IH by lia.
  rewrite load_store, bool_decide_false; [done|]. lia.
Qed.

Lemma read_range n m offset v :
  mem_wf m → read n m offset = Some v → 0 ≤ v < 256 ^ Z.of_nat n.
Proof.
  intros Hm. unfold read. destruct (ptr_at _ _ _); simpl; [|done]. intros [= <-].
  pose proof (le_val_range _ (load_bytes_bytes m z n Hm)). by rewrite length_load_bytes in H.
Qed.
Lemma read_is_Some n m offset :
  size m < M64 → offset + Z.of_nat n ≤ size m → is_Some (read n m offset).
Proof.
  intros Hs Ho. unfold read. rewrite (proj2 (ptr_at_Some m offset _ offset Hs)); [by eexists|done].
Qed.
Lemma write_Some n m offset v m' :
  size m < M64 → write n m offset v = Some m' ↔
  m' = store_bytes m offset (le_bytes n v) ∧ offset + Z.of_nat n ≤ size m.
Proof.
  intros Hs. unfold write. destruct (ptr_at m offset (Z.of_nat n)) as [p|] eqn:Hp; simpl.
  - apply ptr_at_Some in Hp as [-> ?]; [|done]. naive_solver.
  - apply ptr_at_None in Hp; [|done]. naive_solver lia.
Qed.
Lemma write_ok n m offset v :
  size m < M64 → offset + Z.of_nat n ≤ size m →
  write n m offset v = Some (store_bytes m offset (le_bytes n v)).
Proof. intros. by apply write_Some. Qed.
Lemma read_ok n m offset :
  size m < M64 → offset + Z.of_nat n ≤ size m → read n m offset = Some (le_val (load_bytes m offset n)).
Proof.
  intros Hs Ho. unfold read. by rewrite (proj2 (ptr_at_Some m offset _ offset Hs)).
Qed.
Lemma write_wf n m offset v m' : mem_wf m → write n m offset v = Some m' → mem_wf m'.
Proof.
  intros Hm Hw. apply write_Some in Hw as [-> _]; [|apply Hm].
  apply store_bytes_wf; [done|apply le_bytes_bytes].
Qed.
Lemma write_size n m offset v m' : write n m offset v = Some m' → size m' = size m.
Proof.
  unfold write. destruct (ptr_at _ _ _); simpl; [|done]. intros [= <-]. apply store_bytes_size.
Qed.
Lemma read_write_same n m offset v m' :
  mem_wf m → write n m offset v = Some m' → read n m' offset = Some (v mod 256 ^ Z.of_nat n).
Proof.
  intros Hm Hw. pose proof (write_size _ _ _ _ _ Hw) as Hsz.
  apply write_Some in Hw as [-> Ho]; [|apply Hm].
  rewrite read_ok; [|rewrite store_bytes_size; by apply Hm|by rewrite store_bytes_size].
  rewrite <- (length_le_bytes n v) at 2. rewrite load_store_bytes.
  by rewrite le_val_bytes_mod.
Qed.
Lemma read_write_other n k m offset v m' o :
  mem_wf m → write n m offset v = Some m' → o + Z.of_nat k ≤ offset ∨ offset + Z.of_nat n ≤ o →
  read k m' o = read k m o.
Proof.
  intros Hm Hw Ho. apply write_Some in Hw as [-> _]; [|apply Hm].
  unfold read. unfold ptr_at. rewrite store_bytes_size.
  destruct (checked_add _ _ _); simpl; [|done]. destruct (_ <? _); simpl; [done|].
  rewrite load_store_other; [done|]. unfold len. rewrite length_le_bytes. lia.
Qed.

Lemma poke_wf n m offset v : mem_wf m → mem_wf (poke n m offset v).
Proof.
  intros Hm. unfold poke. destruct (write n m offset v) eqn:H; simpl; [|done]. by eapply write_wf.
Qed.
Lemma poke_size n m offset v : size (poke n m offset v) = size m.
Proof.
  unfold poke. destruct (write n m offset v) eqn:H; simpl; [|done]. by eapply write_size.
Qed.
Lemma read_poke_same n m offset v :
  mem_wf m → offset + Z.of_nat n ≤ size m →
  read n (poke n m offset v) offset = Some (v mod 256 ^ Z.of_nat n).
Proof.
  intros Hm Ho. unfold poke. rewrite write_ok by (done || apply Hm). simpl.
  apply (read_write_same n m offset v); [done|]. by rewrite write_ok by (done || apply Hm).
Qed.
Lemma read_poke_other n k m offset v o :
  mem_wf m → o + Z.of_nat k ≤ offset ∨ offset + Z.of_nat n ≤ o →
  read k (poke n m offset v) o = read k m o.
Proof.
  intros Hm Ho. unfold poke. destruct (write n m offset v) eqn:H; simpl; [|done].
  by eapply read_write_other.
Qed.

(** * Properties *)

(** C30: an access of [n] bytes succeeds exactly when it lies inside the allocation, for reads
    and writes alike, and a failing write changes nothing because it yields no memory: the
    guest can never make the host touch memory outside the mapping. *)
Theorem access_in_bounds (m : GuestMemory) (offset v : Z) (n : nat) :
  mem_wf m →
  (is_Some (read n m offset) ↔ offset + Z.of_nat n ≤ size m) ∧
  (is_Some (write n m offset v) ↔ offset + Z.of_nat n ≤ size m) ∧
  (∀ data, is_Some (write_bytes m offset data) ↔ offset + len data ≤ size m) ∧
  (∀ p k, ptr_at m offset k = Some p → p = offset ∧ p + k ≤ size m).
Proof.
  intros [Hs _]. unfold read, write, write_bytes.
  assert (Hp : ∀ k, match ptr_at m offset k with
                    | Some p => p = offset ∧ offset + k ≤ size m
                    | None => size m < offset + k end).
  { intros k. destruct (ptr_at m offset k) eqn:H; [apply ptr_at_Some in H|apply ptr_at_None in H];
      naive_solver lia. }
  assert (Hi : ∀ (A : Type) (f : Z → A) k, is_Some (p ← ptr_at m offset k; Some (f p)) ↔
                                  offset + k ≤ size m).
  { intros A f k. specialize (Hp k). destruct (ptr_at m offset k); simpl.
    - split; [intros _; lia|by eexists].
    - split; [by intros [? ?]|lia]. }
  split_and!; [apply Hi..| |].
  - intros data. apply Hi.
  - intros p k H. specialize (Hp k). rewrite H in Hp. destruct Hp as [-> ?]. done.
Qed.
Lemma access_in_bounds_witness :
  is_Some (read 4 (alloc 0x1000) 0xFFC) ↔ 0xFFC + 4 ≤ 0x1000.
Proof. apply (access_in_bounds (alloc 0x1000) 0xFFC 0 4). apply alloc_wf. lia. Defined.

(** Memory is memory: what a read of the width of the last write sees at its place is the
    value written modulo the width, disjoint places are untouched whatever the widths, and
    writes keep the memory well formed and its size. *)
Theorem read_after_write (m m' : GuestMemory) (offset v : Z) (n : nat) :
  mem_wf m → write n m offset v = Some m' →
  read n m' offset = Some (v mod 256 ^ Z.of_nat n) ∧
  (∀ o k, o + Z.of_nat k ≤ offset ∨ offset + Z.of_nat n ≤ o → read k m' o = read k m o) ∧
  mem_wf m' ∧ size m' = size m.
Proof.
  intros Hm Hw. split_and!.
  - by eapply read_write_same.
  - intros o k Ho. by eapply read_write_other.
  - by eapply write_wf.
  - by eapply write_size.
Qed.
Lemma read_after_write_witness :
  ∃ m', write32 (alloc 0x1000) 0x100 0xDEADBEEF = Some m' ∧
        read32 m' 0x100 = Some 0xDEADBEEF ∧ read16 m' 0xFE = Some 0.
Proof.
  destruct (write_ok 4 (alloc 0x1000) 0x100 0xDEADBEEF) as [].
  - simpl; lia.
  - simpl; lia.
  - eexists. split; [reflexivity|].
    destruct (read_after_write (alloc 0x1000) _ 0x100 0xDEADBEEF 4
                (alloc_wf 0x1000 ltac:(lia)) eq_refl) as (H & Ho & _).
    split; [exact H|]. rewrite (Ho 0xFE 2%nat) by (left; lia). reflexivity.
Defined.

(** [read_cstr] stops at the first zero byte. *)
Lemma read_cstr_spec m p n s k :
  mem_wf m → 0 ≤ p → p + Z.of_nat n ≤ size m → size m ≤ M32 →
  load_bytes m p (length s) = s → Forall (λ b, b ≠ 0) s →
  (length s < n)%nat → load m (p + len s) = 0 → k = n → read_cstr m p k = s.
Proof.
  intros Hm. revert p n k. induction s as [|b s IH]; intros p n k Hp Hn Hs Hl Hz Hlt H0 ->.
  - destruct n as [|n]; [simpl in Hlt; lia|]. cbn [read_cstr].
    rewrite as_u_small, read_ok by (first [apply Hm|lia]). unfold len in H0. simpl in H0.
    rewrite Z.add_0_r in H0. cbn [load_bytes le_val default]. by rewrite H0.
  - destruct n as [|n]; [simpl in Hlt; lia|]. cbn [read_cstr].
    injection Hl as Hb Hl. apply Forall_cons in Hz as [Hb0 Hz].
    rewrite as_u_small, read_ok by (first [apply Hm|lia]). cbn [load_bytes le_val default].
    rewrite Hb, Z.mul_0_r, Z.add_0_r. unfold default, id. zbool. f_equal.
    apply (IH (p + 1) n); try done; try lia; [simpl in Hlt; lia|].
    rewrite len_cons in H0. by rewrite <- Z.add_assoc.
Qed.

(** [read_guest_string] gives the empty string for a pointer past the end of memory, and
    decodes exactly the bytes before the first zero byte of a string shorter than 4096 bytes
    that ends inside memory. *)
Theorem read_guest_string_spec dec cp (m : GuestMemory) (ptr : Z) :
  mem_wf m → size m ≤ M32 → 0 ≤ ptr →
  (size m ≤ ptr → read_guest_string dec cp m ptr = []) ∧
  (∀ s, ptr + len s < size m → len s < 4096 → load_bytes m ptr (length s) = s →
        Forall (λ b, b ≠ 0) s → load m (ptr + len s) = 0 →
        read_guest_string dec cp m ptr = cp_decode dec s cp).
Proof.
  intros Hm Hsz Hp. unfold read_guest_string, MAX_GUEST_STRING_LEN. split.
  - intros H. by zbool.
  - intros s He Hmax Hl Hz H0. pose proof (len_nonneg s). zbool. f_equal.
    eapply read_cstr_spec; try done; unfold len in *; lia.
Qed.
Definition demo_mem : GuestMemory :=
  store_bytes (alloc 0x1000) 0x500 (str "OS/2 Warp" ++ [0] ++ str "x").
Lemma read_guest_string_spec_witness :
  read_guest_string (λ _ b, b) 437 demo_mem 0x500 = str "OS/2 Warp" ∧
  read_guest_string (λ _ b, b) 437 demo_mem 0x1000 = [].
Proof.
  assert (mem_wf demo_mem) as Hm.
  { apply store_bytes_wf; [by apply alloc_wf|]. repeat constructor; done. }
  split.
  - refine (proj2 (read_guest_string_spec (λ _ b, b) 437 demo_mem 0x500 Hm _ _)
              (str "OS/2 Warp") _ _ _ _ _); try (vm_compute; done).
    repeat constructor; done.
  - refine (proj1 (read_guest_string_spec (λ _ b, b) 437 demo_mem 0x1000 Hm _ _) _);
      vm_compute; done.
Defined.
