(* ===== verification/Uconv.v ===== *)
(** Unicode conversion (src/src/loader/uconv.rs): the conversion objects, the names of codepages
    and the conversions of guest buffers between a codepage and UTF-16, through the strings of
    [Codepage]. *)
From S2P Require Import Prelude Bytes Text Codepage GuestMem.

Definition ULS_SUCCESS := 0.
Definition ULS_INVALID := 1.
Definition ULS_BADOBJECT := 2.
Definition ULS_BUFFERFULL := 8.
Definition ULS_INVALID_CPID := 10.
Definition CP_UTF8 := 0xFFFFFFFE.

(** * UTF-16

    [str::encode_utf16] and [String::from_utf16_lossy]: a unit of a surrogate pair without its
    partner becomes a replacement character. *)
Definition utf16_char (c : Z) : list Z :=
  if c <? 0x10000 then [c]
  else [0xD800 + (c - 0x10000) / 1024; 0xDC00 + (c - 0x10000) mod 1024].
Definition encode_utf16 (s : rstring) : list Z := concat (map utf16_char s).
Fixpoint from_utf16_lossy (l : list Z) : rstring :=
  match l with
  | [] => []
  | u :: l1 =>
    if negb (in_range 0xD800 0xDFFF u) then u :: from_utf16_lossy l1
    else if 0xDC00 <=? u then REPLACEMENT_CHARACTER :: from_utf16_lossy l1
    else
      match l1 with
      | [] => [REPLACEMENT_CHARACTER]
      | u2 :: l2 =>
        if in_range 0xDC00 0xDFFF u2 then
          (0x10000 + (u - 0xD800) * 1024 + (u2 - 0xDC00)) :: from_utf16_lossy l2
        else REPLACEMENT_CHARACTER :: from_utf16_lossy l1
      end
  end.

(** * Names of codepages *)

Definition SUPPORTED : list Z :=
  [437; 850; 852; 932; 936; 949; 950; 1250; 1251; 1252; 1253; 1254; 1255; 1256; 1257; 1258].
Definition parse_uconv_name (name : rstring) : option Z :=
  let s := trim (Text.to_ascii_uppercase name) in
  if bool_decide (s = str "UTF-8") || bool_decide (s = str "UTF8") then Some CP_UTF8
  else
    let digits :=
      match strip_prefix (str "IBM-") s with
      | Some rest => rest
      | None =>
        match strip_prefix (str "IBM") s with
        | Some rest => rest
        | None =>
          match strip_prefix (str "CP-") s with
          | Some rest => rest
          | None => default s (strip_prefix (str "CP") s)
          end
        end
      end in
    cp ← parse_uint M32 (trim digits);
    if bool_decide (cp ∈ SUPPORTED) then Some cp else None.
Definition cp_to_ibm_name (cp : Z) : rstring :=
  if cp =? CP_UTF8 then str "UTF-8" else str "IBM-" ++ dec_str cp.

(** * Conversion objects *)

(** [UconvManager] *)
Record UconvManager := mk_uconv { objects : gmap Z Z; next_handle : Z }.
Definition uconv_new : UconvManager := mk_uconv ∅ 0x8001.

Section uconv.
Context {B : Build}.
Context (enc_decode : Encoding → bytes → rstring) (enc_encode : Encoding → rstring → bytes).

Definition create (cp : Z) (u : UconvManager) : outcome () (Z * UconvManager) :=
  let h := next_handle u in
  n ← uadd M32 (next_handle u) 1;
  Ok (h, mk_uconv (<[h := cp]> (objects u)) (Z.lor n 0x8000)).
Definition lookup (u : UconvManager) (h : Z) : option Z := objects u !! h.
Definition free (h : Z) (u : UconvManager) : bool * UconvManager :=
  (bool_decide (is_Some (objects u !! h)), mk_uconv (delete h (objects u)) (next_handle u)).

(** * Guest buffers *)

(** What the calls share: guest memory and the objects. *)
Record Uni := mk_uni { mem : GuestMemory; mgr : UconvManager }.
Definition with_mem (s : Uni) (m : GuestMemory) : Uni := mk_uni m (mgr s).

(** [read_guest_ucs2]; the loop ends after 513 characters. *)
Fixpoint ucs2_loop (n : nat) (m : GuestMemory) (off : Z) : outcome () (list Z) :=
  match n with
  | O => Ok []
  | S n =>
    match read16 m off with
    | Some wc =>
      if wc =? 0 then Ok []
      else off ← uadd M32 off 2; l ← ucs2_loop n m off; Ok (wc :: l)
    | None => Ok []
    end
  end.
Definition read_guest_ucs2 (m : GuestMemory) (ptr : Z) : outcome () rstring :=
  l ← ucs2_loop 513 m ptr; Ok (from_utf16_lossy l).
(** Units written from [p + 2 * i]. *)
Fixpoint write_units (m : GuestMemory) (p i : Z) (l : list Z) : outcome () GuestMemory :=
  match l with
  | [] => Ok m
  | wc :: l => d ← umul M32 i 2; a ← uadd M32 p d; write_units (poke 2 m a wc) p (i + 1) l
  end.
(** [(0..n).filter_map(|i| self.guest_read(p + i * k))] for units of [k] bytes. *)
Fixpoint read_units (k : nat) (n : nat) (m : GuestMemory) (p i : Z) : outcome () (list Z) :=
  match n with
  | O => Ok []
  | S n =>
    d ← (if bool_decide (k = 1%nat) then Ok i else umul M32 i (Z.of_nat k));
    a ← uadd M32 p d;
    l ← read_units k n m p (i + 1);
    Ok (match read k m a with Some v => v :: l | None => l end)
  end.

(** * Calls *)

Definition uni_create_uconv_object (ucs_name_ptr p_uobj : Z) (s : Uni) : outcome () (Z * Uni) :=
  if (ucs_name_ptr =? 0) || (p_uobj =? 0) then Ok (ULS_INVALID, s)
  else
    name ← read_guest_ucs2 (mem s) ucs_name_ptr;
    match parse_uconv_name name with
    | None => Ok (ULS_INVALID_CPID, s)
    | Some cp =>
      '(h, u) ← create cp (mgr s);
      Ok (ULS_SUCCESS, mk_uni (poke 4 (mem s) p_uobj h) u)
    end.
Definition uni_free_uconv_object (uobj : Z) (s : Uni) : Z * Uni :=
  let '(ok, u) := free uobj (mgr s) in
  ((if ok then ULS_SUCCESS else ULS_BADOBJECT), mk_uni (mem s) u).

(** The four cells a conversion reads, and its end, which updates them. *)
Definition four_cells (m : GuestMemory) (pp_in p_in_left pp_out p_out_left : Z) : option (Z * Z * Z * Z) :=
  in_ptr ← read32 m pp_in; in_left ← read32 m p_in_left;
  out_ptr ← read32 m pp_out; out_left ← read32 m p_out_left;
  Some (in_ptr, in_left, out_ptr, out_left).
Definition advance (m : GuestMemory) (pp_in p_in_left pp_out p_out_left p_subs in_ptr out_ptr out_left
    used made produced : Z) : outcome () GuestMemory :=
  i ← uadd M32 in_ptr used;
  let m := poke 4 (poke 4 m pp_in i) p_in_left 0 in
  o ← uadd M32 out_ptr made;
  let m := poke 4 m pp_out o in
  left ← usub M32 out_left produced;
  let m := poke 4 m p_out_left left in
  Ok (if p_subs =? 0 then m else poke 4 m p_subs 0).

Definition uni_uconv_to_ucs (uobj pp_in p_in_left pp_out p_out_left p_subs : Z) (s : Uni) : outcome () (Z * Uni) :=
  match lookup (mgr s) uobj, four_cells (mem s) pp_in p_in_left pp_out p_out_left with
  | None, _ => Ok (ULS_BADOBJECT, s)
  | _, None => Ok (ULS_INVALID, s)
  | Some cp, Some (in_ptr, in_left, out_ptr, out_left) =>
    if (in_ptr =? 0) || (out_ptr =? 0) then Ok (ULS_INVALID, s)
    else
      data ← read_units 1 (Z.to_nat in_left) (mem s) in_ptr 0;
      let text := if cp =? CP_UTF8 then from_utf8_lossy data else cp_decode enc_decode data cp in
      let ucs2 := encode_utf16 text in
      if out_left <? len ucs2 then Ok (ULS_BUFFERFULL, s)
      else
        m ← write_units (mem s) out_ptr 0 ucs2;
        made ← umul M32 (len ucs2) 2;
        m ← advance m pp_in p_in_left pp_out p_out_left p_subs in_ptr out_ptr out_left (len data) made (len ucs2);
        Ok (ULS_SUCCESS, with_mem s m)
  end.
Definition uni_uconv_from_ucs (uobj pp_in p_in_left pp_out p_out_left p_subs : Z) (s : Uni) : outcome () (Z * Uni) :=
  match lookup (mgr s) uobj, four_cells (mem s) pp_in p_in_left pp_out p_out_left with
  | None, _ => Ok (ULS_BADOBJECT, s)
  | _, None => Ok (ULS_INVALID, s)
  | Some cp, Some (in_ptr, in_left, out_ptr, out_left) =>
    if (in_ptr =? 0) || (out_ptr =? 0) then Ok (ULS_INVALID, s)
    else
      wchars ← read_units 2 (Z.to_nat in_left) (mem s) in_ptr 0;
      let text := from_utf16_lossy wchars in
      let data := if cp =? CP_UTF8 then as_bytes text else cp_encode enc_encode text cp in
      if out_left <? len data then Ok (ULS_BUFFERFULL, s)
      else
        let m := default (mem s) (write_bytes (mem s) out_ptr data) in
        used ← umul M32 (len wchars) 2;
        m ← advance m pp_in p_in_left pp_out p_out_left p_subs in_ptr out_ptr out_left used (len data) (len data);
        Ok (ULS_SUCCESS, with_mem s m)
  end.
Definition uni_map_cp_to_ucs_cp (cp out_ptr max_chars : Z) (s : Uni) : outcome () (Z * Uni) :=
  if out_ptr =? 0 then Ok (ULS_INVALID, s)
  else
    let ucs2 := encode_utf16 (cp_to_ibm_name cp) in
    if max_chars <? as_u M32 (len ucs2 + 1) then Ok (ULS_BUFFERFULL, s)
    else
      m ← write_units (mem s) out_ptr 0 ucs2;
      d ← umul M32 (len ucs2) 2;
      a ← uadd M32 out_ptr d;
      Ok (ULS_SUCCESS, with_mem s (poke 2 m a 0)).
End uconv.

(** * UTF-16 loses nothing *)

Lemma utf16_char_back c l : is_char c → from_utf16_lossy (utf16_char c ++ l) = c :: from_utf16_lossy l.
Proof.
  unfold is_char. intros Hc. unfold utf16_char. pose proof (Z.div_mod (c - 0x10000) 1024 ltac:(lia)).
  pose proof (Z.mod_pos_bound (c - 0x10000) 1024 ltac:(lia)).
  destruct (Z.ltb_spec c 0x10000); cbn [app from_utf16_lossy].
  { by rewrite in_range_false by lia. }
  assert (0 ≤ (c - 0x10000) / 1024 < 1024) by (split; [apply Z.div_pos; lia|apply Z.div_lt_upper_bound; lia]).
  rewrite (in_range_true 0xD800) by lia. cbn [negb]. replace (0xDC00 <=? _) with false by lia.
  rewrite in_range_true by lia. f_equal. lia.
Qed.
Lemma utf16_back s : Forall is_char s → from_utf16_lossy (encode_utf16 s) = s.
Proof. unfold encode_utf16. induction 1 as [|c s Hc _ IH]; cbn; [done|]. by rewrite utf16_char_back, IH. Qed.
Lemma utf16_units s : Forall is_char s → Forall u16 (encode_utf16 s).
Proof.
  unfold encode_utf16. induction 1 as [|c s Hc _ IH]; cbn; [constructor|]. apply Forall_app. split; [|done].
  unfold is_char in Hc. unfold utf16_char. pose proof (Z.mod_pos_bound (c - 0x10000) 1024 ltac:(lia)).
  destruct (Z.ltb_spec c 0x10000); repeat constructor; unfold u16; try lia.
  - assert (0 ≤ (c - 0x10000) / 1024) by (apply Z.div_pos; lia). lia.
  - assert ((c - 0x10000) / 1024 < 1024) by (apply Z.div_lt_upper_bound; lia). lia.
Qed.
(** The name of each codepage is accepted for it. *)
Lemma names_back cp : cp = CP_UTF8 ∨ cp ∈ SUPPORTED → parse_uconv_name (cp_to_ibm_name cp) = Some cp.
Proof.
  intros [->|H]; [by vm_compute|].
  assert (Forall (λ cp, parse_uconv_name (cp_to_ibm_name cp) = Some cp) SUPPORTED) as Hall.
  { apply (bool_decide_unpack _). by vm_compute. }
  rewrite Forall_forall in Hall. by apply Hall.
Qed.

(** * Buffers *)

Section buffers.
Context {B : Build}.
Implicit Types m : GuestMemory.

(** Memory between [p] and [p + n] is the program's. *)
Definition within m (p n : Z) : Prop := 0 ≤ p ∧ 0 ≤ n ∧ p + n ≤ size m ∧ p + n < M32.
Definition apart (a k b n : Z) : Prop := a + k ≤ b ∨ b + n ≤ a.

Lemma write_units_run m p i l :
  mem_wf m → Forall u16 l → 0 ≤ i → within m p (2 * (i + len l)) →
  ∃ m', write_units m p i l = Ok m' ∧ mem_wf m' ∧ size m' = size m ∧
    (∀ k a, apart a (Z.of_nat k) (p + 2 * i) (2 * len l) → read k m' a = read k m a) ∧
    (∀ j, (j < length l)%nat → read16 m' (p + 2 * (i + Z.of_nat j)) = l !! j).
Proof.
  intros Hm Hl. revert m i Hm. induction Hl as [|wc l Hwc Hl IH]; intros m i Hm Hi (Hp & Hn & Hs & H32); cbn [write_units].
  { exists m. split_and!; [done..|]. intros j Hj. simpl in Hj. lia. }
  rewrite len_cons in *. pose proof (Nat2Z.is_nonneg (length l)) as Hlen. fold (len l) in Hlen.
  rewrite umul_ok by lia. out_simpl. rewrite uadd_ok by lia. out_simpl.
  destruct (IH (poke 2 m (p + i * 2) wc) (i + 1)) as (m' & Hw & Hwf & Hsz & Hother & Hread).
  { by apply poke_wf. }
  { lia. }
  { unfold within. rewrite poke_size. split_and!; lia. }
  rewrite poke_size in Hsz. exists m'. split_and!; [done..| |].
  - intros k a Ha. unfold apart in Ha. rewrite Hother by (unfold apart; lia). apply read_poke_other; [done|lia].
  - intros [|j] Hj; cbn [length] in *.
    + rewrite Hother by (unfold apart; lia). replace (p + 2 * (i + Z.of_nat 0)) with (p + i * 2) by lia.
      rewrite read_poke_same by (done || lia). cbn. by rewrite Z.mod_small.
    + change ((wc :: l) !! S j) with (l !! j). rewrite <- Hread by lia. f_equal. lia.
Qed.
(** The units [l] lie in memory from [p]. *)
Definition spells (k : nat) m (p : Z) (l : list Z) : Prop :=
  ∀ j, (j < length l)%nat → read k m (p + Z.of_nat k * Z.of_nat j) = l !! j.
Lemma read_units_run k m l p : ∀ i, k = 1%nat ∨ k = 2%nat → 0 ≤ i → 0 ≤ p → p + Z.of_nat k * (i + len l) < M32 →
  spells k m (p + Z.of_nat k * i) l → read_units k (length l) m p i = Ok l.
Proof.
  induction l as [|v l IH]; intros i Hk Hi Hp H32 Hs; cbn [read_units length]; [done|].
  rewrite len_cons in H32. pose proof (len_nonneg l).
  assert ((if bool_decide (k = 1%nat) then Ok i else umul M32 i (Z.of_nat k)) = Ok (E:=()) (Z.of_nat k * i)) as ->.
  { destruct Hk as [-> | ->]; cbn; [f_equal; lia|]. rewrite umul_ok by lia. f_equal. lia. }
  out_simpl. rewrite uadd_ok by lia. out_simpl. rewrite IH; [|done|lia|done|lia|].
  - out_simpl. pose proof (Hs 0%nat ltac:(cbn; lia)) as H0. rewrite Z.mul_0_r, Z.add_0_r in H0. by rewrite H0.
  - intros j Hj. pose proof (Hs (S j) ltac:(cbn; lia)) as H1. etransitivity; [|exact H1].
    f_equal. rewrite Nat2Z.inj_succ. ring.
Qed.
Lemma spells_clear k m m' p l :
  (∀ a, p ≤ a → a + Z.of_nat k ≤ p + Z.of_nat k * len l → read k m' a = read k m a) → spells k m p l → spells k m' p l.
Proof. intros H Hs j Hj. rewrite <- (Hs j Hj). apply H; unfold len; nia. Qed.
Lemma write_bytes_run m p data :
  mem_wf m → Forall is_byte data → within m p (len data) →
  ∃ m', default m (write_bytes m p data) = m' ∧ mem_wf m' ∧ size m' = size m ∧ spells 1 m' p data ∧
    ∀ k a, apart a (Z.of_nat k) p (len data) → read k m' a = read k m a.
Proof.
  intros Hm Hd (Hp & Hn & Hs & _). unfold write_bytes. rewrite (proj2 (ptr_at_Some m p _ p ltac:(apply Hm))) by lia. cbn.
  eexists. split; [reflexivity|]. split; [by apply store_bytes_wf|]. split; [apply store_bytes_size|]. split.
  - intros j Hj. rewrite read_ok; rewrite ?store_bytes_size; [|apply Hm|unfold len in *; lia].
    cbn [load_bytes]. rewrite load_store, bool_decide_true by (unfold len in *; lia).
    replace (Z.to_nat _) with j by lia. cbn [le_val]. rewrite Z.add_0_r.
    destruct (nth_lookup_or_length data j 0) as [H|]; [by rewrite H|lia].
  - intros k a Ha. unfold read, ptr_at. rewrite store_bytes_size. destruct (checked_add _ _ _); cbn; [|done].
    destruct (_ <? _); cbn; [done|]. by rewrite load_store_other.
Qed.

(** The four cells of a call lie apart from each other and from the fifth, if there is one. *)
Definition cells_apart (a b c d e : Z) : Prop :=
  apart a 4 b 4 ∧ apart a 4 c 4 ∧ apart a 4 d 4 ∧ apart b 4 c 4 ∧ apart b 4 d 4 ∧ apart c 4 d 4 ∧
  (e = 0 ∨ apart e 4 a 4 ∧ apart e 4 b 4 ∧ apart e 4 c 4 ∧ apart e 4 d 4).
(** Whether [n] bytes from [p] lie apart from all five. *)
Definition clear (a b c d e p n : Z) : Prop :=
  apart a 4 p n ∧ apart b 4 p n ∧ apart c 4 p n ∧ apart d 4 p n ∧ (e = 0 ∨ apart e 4 p n).
Lemma four_cells_Some m a b c d r :
  four_cells m a b c d = Some r →
  read32 m a = Some r.1.1.1 ∧ read32 m b = Some r.1.1.2 ∧ read32 m c = Some r.1.2 ∧ read32 m d = Some r.2.
Proof.
  unfold four_cells. destruct (read32 m a), (read32 m b), (read32 m c), (read32 m d); try done. by intros [= <-].
Qed.
Lemma read_inside n m a v : mem_wf m → read n m a = Some v → a + Z.of_nat n ≤ size m.
Proof.
  intros Hm. unfold read. destruct (ptr_at m a _) as [x|] eqn:Hp; [|done]. intros _.
  by apply ptr_at_Some in Hp as [-> ?]; [|apply Hm].
Qed.
Ltac pokes := repeat first
  [ rewrite read_poke_same by (repeat apply poke_wf; assumption || (rewrite ?poke_size; lia))
  | rewrite read_poke_other by (repeat apply poke_wf; assumption || (unfold apart in *; lia)) ].
Lemma advance_run m a b c d e r inp outp left used made produced :
  mem_wf m → four_cells m a b c d = Some r → cells_apart a b c d e →
  0 ≤ inp + used < M32 → 0 ≤ outp + made < M32 → 0 ≤ produced ≤ left → left < M32 →
  ∃ m', advance m a b c d e inp outp left used made produced = Ok m' ∧ mem_wf m' ∧ size m' = size m ∧
    four_cells m' a b c d = Some (inp + used, 0, outp + made, left - produced) ∧
    (∀ k p, clear a b c d e p (Z.of_nat k) → read k m' p = read k m p).
Proof.
  intros Hm Hr (H1 & H2 & H3 & H4 & H5 & H6 & H7) Hi Ho Hp Hl.
  apply four_cells_Some in Hr as (Ra & Rb & Rc & Rd).
  apply (read_inside 4) in Ra, Rb, Rc, Rd; [|done..].
  unfold advance. rewrite uadd_ok by lia. out_simpl. rewrite uadd_ok by lia. out_simpl. rewrite usub_ok by lia. out_simpl.
  eexists. split; [reflexivity|]. split; [destruct (e =? 0); repeat apply poke_wf; assumption|].
  split; [destruct (e =? 0); by rewrite !poke_size|]. split.
  - unfold four_cells. destruct (Z.eqb_spec e 0) as [He|He]; [|destruct H7 as [?|(? & ? & ? & ?)]; [done|]]; pokes;
      change (256 ^ Z.of_nat 4) with M32; rewrite !Z.mod_small by lia; done.
  - intros k p (? & ? & ? & ? & Hpe). destruct (Z.eqb_spec e 0) as [He|He]; [|destruct Hpe; [done|]]; by pokes.
Qed.
End buffers.

(** * Conversions *)

Section conversions.
Context {B : Build}.
Context (dec : Encoding → bytes → rstring) (enc : Encoding → rstring → bytes).

(** The bytes that stand for a text in UTF-8 and in the two DOS codepages without gaps. *)
Definition codec (cp : Z) (data : bytes) (t : rstring) : Prop :=
  (cp = CP_UTF8 ∧ Forall is_char t ∧ data = as_bytes t) ∨
  ((cp = 437 ∨ cp = 850) ∧ Forall is_byte data ∧ t = cp_decode dec data cp).
Lemma table_chars upper data :
  length upper = 128%nat → Forall is_char upper → Forall is_byte data → Forall is_char (decode_single_byte data upper).
Proof.
  intros Hl Hu Hd. unfold decode_single_byte. apply Forall_map. eapply Forall_impl; [exact Hd|]. intros b Hb. cbn.
  unfold is_byte in Hb. destruct (Z.ltb_spec b 0x80); [unfold is_char; lia|]. rewrite Forall_forall in Hu. apply Hu.
  apply list_elem_of_In, nth_In. lia.
Qed.
Lemma codec_facts cp data t :
  codec cp data t →
  Forall is_byte data ∧ Forall is_char t ∧
  (if cp =? CP_UTF8 then from_utf8_lossy data else cp_decode dec data cp) = t ∧
  (if cp =? CP_UTF8 then as_bytes t else cp_encode enc t cp) = data.
Proof.
  intros [(-> & Ht & ->)|(Hcp & Hd & ->)].
  { split_and!; [by apply as_bytes_bytes|done| |done]. cbn. by apply lossy_as_bytes. }
  assert (Forall is_char CP437_UPPER ∧ Forall is_char CP850_UPPER) as [H1 H2]
    by (split; apply (bool_decide_unpack _); vm_compute; exact I).
  destruct (dos_codepage_roundtrip dec enc cp data Hcp Hd) as [Hback _].
  destruct Hcp as [-> | ->]; split_and!; try done; by apply table_chars.
Qed.

Lemma four_cells_same m m' a b c d :
  read32 m' a = read32 m a → read32 m' b = read32 m b → read32 m' c = read32 m c → read32 m' d = read32 m d →
  four_cells m' a b c d = four_cells m a b c d.
Proof. unfold four_cells. by intros -> -> -> ->. Qed.
Lemma to_ucs_run s h cp a b c d e src dst room data t :
  let k := len (encode_utf16 t) in
  mem_wf (mem s) → objects (mgr s) !! h = Some cp → codec cp data t →
  four_cells (mem s) a b c d = Some (src, len data, dst, room) → src ≠ 0 → dst ≠ 0 →
  spells 1 (mem s) src data → within (mem s) src (len data) → within (mem s) dst (2 * k) → k ≤ room →
  cells_apart a b c d e → clear a b c d e dst (2 * k) →
  ∃ m, uni_uconv_to_ucs dec h a b c d e s = Ok (ULS_SUCCESS, with_mem s m) ∧ mem_wf m ∧ size m = size (mem s) ∧
    four_cells m a b c d = Some (src + len data, 0, dst + 2 * k, room - k) ∧ spells 2 m dst (encode_utf16 t).
Proof.
  intros k Hm Ho Hc Hcells Hs0 Hd0 Hsp Hsrc Hdst Hroom Hap Hcl.
  apply codec_facts in Hc as (Hb & Ht & Hdec & _).
  pose proof (four_cells_Some _ _ _ _ _ _ Hcells) as (_ & _ & _ & Rd). apply (read_range 4) in Rd; [|done].
  change (256 ^ Z.of_nat 4) with M32 in Rd. cbn [fst snd] in Rd.
  unfold uni_uconv_to_ucs, lookup. rewrite Ho, Hcells.
  replace (src =? 0) with false by lia. replace (dst =? 0) with false by lia. cbn [orb].
  replace (Z.to_nat (len data)) with (length data) by (unfold len; lia).
  destruct Hsrc as (? & ? & ? & ?), (Hdst) as (? & ? & ? & ?).
  rewrite (read_units_run 1 _ data src 0); [|by left|lia|done|lia|by rewrite Z.mul_0_r, Z.add_0_r].
  out_simpl. rewrite Hdec. fold k. replace (room <? k) with false by lia.
  destruct (write_units_run (mem s) dst 0 (encode_utf16 t)) as (m1 & -> & Hm1 & Hsz1 & Hother & Hread);
    [done|by apply utf16_units|lia|done|].
  out_simpl. fold k in Hother. rewrite umul_ok by lia. out_simpl. destruct Hcl as (C1 & C2 & C3 & C4 & C5).
  rewrite <- (four_cells_same _ m1 a b c d) in Hcells;
    [|apply (Hother 4%nat); unfold apart in *; lia..].
  destruct (advance_run m1 a b c d e (src, len data, dst, room) src dst room (len data) (k * 2) k) as (m2 & -> & Hm2 & Hsz2 & Hc2 & Hother2);
    [done|exact Hcells|done|lia..|].
  out_simpl. exists m2. split_and!; [done..|congruence| |].
  - by replace (dst + 2 * k) with (dst + k * 2) by lia.
  - apply (spells_clear 2 m1); [|intros j Hj; by apply Hread].
    intros p Hp1 Hp2. fold k in Hp2. apply Hother2. unfold clear, apart in *. repeat split; try lia.
Qed.
Lemma from_ucs_run s h cp a b c d e src dst room data t :
  let k := len (encode_utf16 t) in
  mem_wf (mem s) → objects (mgr s) !! h = Some cp → codec cp data t →
  four_cells (mem s) a b c d = Some (src, k, dst, room) → src ≠ 0 → dst ≠ 0 →
  spells 2 (mem s) src (encode_utf16 t) → within (mem s) src (2 * k) → within (mem s) dst (len data) → len data ≤ room →
  cells_apart a b c d e → clear a b c d e dst (len data) →
  ∃ m, uni_uconv_from_ucs enc h a b c d e s = Ok (ULS_SUCCESS, with_mem s m) ∧ mem_wf m ∧ size m = size (mem s) ∧
    four_cells m a b c d = Some (src + 2 * k, 0, dst + len data, room - len data) ∧ spells 1 m dst data.
Proof.
  intros k Hm Ho Hc Hcells Hs0 Hd0 Hsp Hsrc Hdst Hroom Hap Hcl.
  apply codec_facts in Hc as (Hb & Ht & _ & Henc).
  pose proof (four_cells_Some _ _ _ _ _ _ Hcells) as (_ & _ & _ & Rd). apply (read_range 4) in Rd; [|done].
  change (256 ^ Z.of_nat 4) with M32 in Rd. cbn [fst snd] in Rd.
  unfold uni_uconv_from_ucs, lookup. rewrite Ho, Hcells.
  replace (src =? 0) with false by lia. replace (dst =? 0) with false by lia. cbn [orb].
  replace (Z.to_nat k) with (length (encode_utf16 t)) by (unfold k, len; lia).
  destruct Hsrc as (? & ? & ? & ?), (Hdst) as (? & ? & ? & ?).
  rewrite (read_units_run 2 _ (encode_utf16 t) src 0); [|by right|lia|done|fold k; lia|by rewrite Z.mul_0_r, Z.add_0_r].
  out_simpl. rewrite utf16_back by done. rewrite Henc. replace (room <? len data) with false by lia.
  destruct (write_bytes_run (mem s) dst data Hm Hb Hdst) as (m1 & -> & Hm1 & Hsz1 & Hread & Hother).
  fold k. rewrite umul_ok by lia. out_simpl. destruct Hcl as (C1 & C2 & C3 & C4 & C5).
  rewrite <- (four_cells_same _ m1 a b c d) in Hcells;
    [|apply (Hother 4%nat); unfold apart in *; lia..].
  destruct (advance_run m1 a b c d e (src, k, dst, room) src dst room (k * 2) (len data) (len data)) as (m2 & -> & Hm2 & Hsz2 & Hc2 & Hother2);
    [done|exact Hcells|done|lia..|].
  out_simpl. exists m2. split_and!; [done..|congruence| |].
  - by replace (src + 2 * k) with (src + k * 2) by lia.
  - apply (spells_clear 1 m1); [|done].
    intros p Hp1 Hp2. apply Hother2. unfold clear, apart in *. repeat split; try lia.
Qed.
End conversions.

(** * Handles of objects *)

(** Every object was given a handle before the next one. *)
Definition uconv_ok (u : UconvManager) : Prop :=
  0x8001 ≤ next_handle u ∧ ∀ h cp, objects u !! h = Some cp → 0x8001 ≤ h < next_handle u.
Lemma uconv_new_ok : uconv_ok uconv_new.
Proof. split; [done|]. intros h cp Hh. unfold uconv_new in Hh. cbn [objects] in Hh. by rewrite lookup_empty in Hh. Qed.
Lemma lor_ge a b : 0 ≤ b → a ≤ Z.lor a b.
Proof.
  intros Hb. assert (Z.land a (Z.ldiff b a) = 0) as Hz.
  { apply Z.bits_inj'. intros i _. rewrite Z.land_spec, Z.ldiff_spec, Z.bits_0.
    by destruct (Z.testbit a i), (Z.testbit b i). }
  assert (Z.lor a b = a + Z.ldiff b a) as ->.
  { rewrite (Z.add_nocarry_lxor _ _ Hz), (Z.lxor_lor _ _ Hz). apply Z.bits_inj'. intros i _.
    rewrite !Z.lor_spec, Z.ldiff_spec. by destruct (Z.testbit a i), (Z.testbit b i). }
  assert (0 ≤ Z.ldiff b a) by (apply Z.ldiff_nonneg; by left). lia.
Qed.
(** A new object has a handle of its own, until all 2^32 are used up. *)
Lemma uconv_created {B : Build} cp u :
  uconv_ok u → next_handle u < M32 - 1 →
  ∃ u', create cp u = Ok (next_handle u, u') ∧ uconv_ok u' ∧ objects u !! next_handle u = None ∧
    lookup u' (next_handle u) = Some cp ∧ ∀ h, h ≠ next_handle u → lookup u' h = lookup u h.
Proof.
  intros [H0 H] Hroom. unfold create. rewrite uadd_ok by lia. out_simpl. eexists. split; [reflexivity|].
  pose proof (lor_ge (next_handle u + 1) 0x8000 ltac:(lia)) as Hge. split_and!.
  - split; cbn; [lia|]. intros h c [[<- _]|[_ Hh]]%lookup_insert_Some; [lia|]. apply H in Hh. lia.
  - destruct (objects u !! next_handle u) as [c|] eqn:E; [|done]. apply H in E. lia.
  - apply lookup_insert_eq.
  - intros h Hne. by apply lookup_insert_ne.
Qed.

(** C39: converting loses nothing.  A text of codepage 437, of codepage 850 or of UTF-8 that
    UniUconvToUcs converts to UTF-16 comes back byte by byte from UniUconvFromUcs, which finds the
    units where the first call left them, and both calls move the pointers of the program behind
    what they read and wrote and take it off the lengths left. *)
Theorem text_survives {B : Build} dec enc (s : Uni) (h cp src dst room : Z) (data : bytes) (t : rstring)
    (a b c d e : Z) :
  let k := len (encode_utf16 t) in
  mem_wf (mem s) → objects (mgr s) !! h = Some cp → codec dec cp data t →
  four_cells (mem s) a b c d = Some (src, len data, dst, room) → src ≠ 0 → dst ≠ 0 →
  spells 1 (mem s) src data → within (mem s) src (len data) → within (mem s) dst (2 * k) → k ≤ room →
  cells_apart a b c d e → clear a b c d e dst (2 * k) →
  ∃ m, uni_uconv_to_ucs dec h a b c d e s = Ok (ULS_SUCCESS, with_mem s m) ∧
    four_cells m a b c d = Some (src + len data, 0, dst + 2 * k, room - k) ∧
    ∀ s2 a2 b2 c2 d2 e2 back room2,
      mem_wf (mem s2) → mgr s2 = mgr s → size (mem s2) = size m →
      (∀ p, dst ≤ p → p + 2 ≤ dst + 2 * k → read16 (mem s2) p = read16 m p) →
      four_cells (mem s2) a2 b2 c2 d2 = Some (dst, k, back, room2) → back ≠ 0 → len data ≤ room2 →
      within (mem s2) back (len data) → cells_apart a2 b2 c2 d2 e2 → clear a2 b2 c2 d2 e2 back (len data) →
      ∃ m3, uni_uconv_from_ucs enc h a2 b2 c2 d2 e2 s2 = Ok (ULS_SUCCESS, with_mem s2 m3) ∧
        four_cells m3 a2 b2 c2 d2 = Some (dst + 2 * k, 0, back + len data, room2 - len data) ∧ spells 1 m3 back data.
Proof.
  intros k Hm Ho Hc Hcells Hs0 Hd0 Hsp Hsrc Hdst Hroom Hap Hcl.
  destruct (to_ucs_run dec enc s h cp a b c d e src dst room data t) as (m & H1 & Hm1 & Hsz & Hc1 & Hu); [done..|].
  exists m. split_and!; [done..|]. intros s2 a2 b2 c2 d2 e2 back room2 Hm2 Hg Hsz2 Hsame Hc2 Hb0 Hroom2 Hback Hap2 Hcl2.
  destruct (from_ucs_run dec enc s2 h cp a2 b2 c2 d2 e2 dst back room2 data t) as (m3 & H3 & _ & _ & Hc3 & Hu3);
    try done.
  - by rewrite Hg.
  - by apply (spells_clear 2 m).
  - unfold within in *. lia.
  - by exists m3.
Qed.
Definition demo_cells (p : Z) (l : list Z) (m : GuestMemory) : GuestMemory := store_bytes m p (concat (map le32 l)).
Definition demo_uni : Uni :=
  mk_uni (store_bytes (demo_cells 0x100 [0x200; 3; 0x300; 8] (alloc 0x1000)) 0x200 [0x63; 0x82; 0x21])
    (mk_uconv {[0x8001 := 850]} 0x8002).
Lemma text_survives_witness :
  ∃ m, @uni_uconv_to_ucs dev_profile (λ _ b, b) 0x8001 0x100 0x104 0x108 0x10C 0 demo_uni = Ok (ULS_SUCCESS, with_mem demo_uni m) ∧
    four_cells m 0x100 0x104 0x108 0x10C = Some (0x203, 0, 0x306, 5).
Proof.
  destruct (@text_survives dev_profile (λ _ b, b) (λ _ b, b) demo_uni 0x8001 850 0x200 0x300 8 [0x63; 0x82; 0x21]
    [0x63; 0xE9; 0x21] 0x100 0x104 0x108 0x10C 0) as (m & H1 & H2 & _).
  - repeat apply store_bytes_wf; try (apply alloc_wf; lia); repeat (apply Forall_app; split); try apply le_bytes_bytes;
      repeat constructor; unfold is_byte; lia.
  - vm_compute. reflexivity.
  - right. split; [by right|]. split; [repeat constructor; unfold is_byte; lia|reflexivity].
  - vm_compute. reflexivity.
  - discriminate.
  - discriminate.
  - intros [|[|[|j]]] Hj; try (cbn in Hj; lia); vm_compute; reflexivity.
  - repeat split; vm_compute; discriminate || reflexivity.
  - repeat split; vm_compute; discriminate || reflexivity.
  - vm_compute. discriminate.
  - unfold cells_apart, apart. lia.
  - replace (len (encode_utf16 _)) with 3 by reflexivity. unfold clear, apart. lia.
  - exists m. split; [exact H1|]. exact H2.
Defined.
