(* ===== verification/HandleTable.v ===== *)
(** The handle-table interface: a counter that names new entries and a map from names to
    entries.  The file, directory-search, process, semaphore and queue managers all
    implement it; what clients rely on (a handle is never given out twice, a live handle
    names the entry it was created for, a closed handle stays dead) is proved here once,
    against the interface.  At its end, the tables whose entries are resources of the host. *)
From S2P Require Import Prelude.

(** [T] is the state of a manager, [V] its entries. *)
Class HandleTable (B : Build) (T V : Type) := {
  entries : T → gmap Z V;
  counter : T → Z;
  add : T → V → outcome () (Z * T);
  remove : T → Z → T;
}.

(** What an implementation promises. *)
Class HandleTableLaws (B : Build) (T V : Type) {HT : HandleTable B T V} : Prop := {
  add_law t v : counter t + 1 < M32 →
    ∃ t', add t v = Ok (counter t, t') ∧ entries t' = <[counter t := v]> (entries t) ∧
          counter t' = counter t + 1;
  remove_entries t h : entries (remove t h) = delete h (entries t);
  remove_counter t h : counter (remove t h) = counter t;
}.

Section client.
Context {B : Build} {T V : Type} {HT : HandleTable B T V} {HL : HandleTableLaws B T V}.

(** Every live handle is below the counter. *)
Definition bounded (t : T) : Prop := ∀ h v, entries t !! h = Some v → h < counter t.

(** A client: creates entries and closes handles. *)
Inductive action := Add (v : V) | Remove (h : Z).

(** Running a client collects the handles given out, in order. *)
Fixpoint perform (t : T) (acts : list action) : outcome () (list (Z * V) * T) :=
  match acts with
  | [] => Ok ([], t)
  | Add v :: acts =>
    '(h, t) ← add t v;
    '(hs, t) ← perform t acts;
    Ok ((h, v) :: hs, t)
  | Remove h :: acts => perform (remove t h) acts
  end.

(** The handles a client closes. *)
Definition closed (acts : list action) : list Z :=
  omap (λ a, match a with Remove h => Some h | Add _ => None end) acts.

Lemma bounded_add t v h t' :
  bounded t → add t v = Ok (h, t') → counter t + 1 < M32 → bounded t'.
Proof.
  intros Hb Ha Hn. destruct (add_law t v Hn) as (t1 & Heq & He & Hc).
  rewrite Ha in Heq. injection Heq as -> ->. intros k w. rewrite He, Hc.
  intros [[<- _]|[_ Hk]]%lookup_insert_Some; [lia|]. apply Hb in Hk. lia.
Qed.
Lemma bounded_remove t h : bounded t → bounded (remove t h).
Proof.
  intros Hb k w. rewrite remove_entries, remove_counter. intros [_ Hk]%lookup_delete_Some.
  by apply Hb in Hk.
Qed.

Lemma perform_spec t acts :
  bounded t → counter t + Z.of_nat (length acts) < M32 →
  ∃ hs t', perform t acts = Ok (hs, t') ∧ bounded t' ∧ counter t ≤ counter t' ∧
    Forall (λ p, counter t ≤ p.1 < counter t') hs ∧ NoDup hs.*1 ∧
    (∀ h v, (h, v) ∈ hs → h ∉ closed acts → entries t' !! h = Some v) ∧
    (∀ h, h < counter t → h ∉ closed acts → entries t' !! h = entries t !! h) ∧
    (∀ h, h < counter t → entries t !! h = None → entries t' !! h = None).
Proof.
  revert t. induction acts as [|[v|h] acts IH]; intros t Hb Hn; cbn [perform length] in *.
  - exists [], t. split_and!; try done; try lia; try constructor. set_solver.
  - destruct (add_law t v) as (t1 & Ha & He & Hc); [lia|].
    pose proof (bounded_add _ _ _ _ Hb Ha ltac:(lia)) as Hb1. rewrite Ha. out_simpl.
    destruct (IH t1 Hb1 ltac:(lia)) as (hs & t' & -> & Hb' & Hle & Hr & Hnd & Hlive & Hold & Hdead).
    cbn. exists ((counter t, v) :: hs), t'. split_and!; try done; try lia.
    + constructor; [simpl; lia|]. eapply Forall_impl; [exact Hr|]. simpl; lia.
    + constructor; [|done]. intros ((k & w) & Hk & Hin)%list_elem_of_fmap. simpl in Hk. subst k.
      rewrite Forall_forall in Hr. apply Hr in Hin. simpl in Hin. lia.
    + intros k w [[= -> ->]|Hin]%elem_of_cons Hcl.
      * rewrite Hold by (cbn in Hcl; first [lia|done]). by rewrite He, lookup_insert_eq.
      * by apply Hlive.
    + intros k Hk Hcl. rewrite Hold by (cbn in Hcl; first [lia|done]).
      rewrite He. by rewrite lookup_insert_ne by lia.
    + intros k Hk Hnone. apply Hdead; [lia|]. rewrite He. by rewrite lookup_insert_ne by lia.
  - destruct (IH (remove t h) (bounded_remove _ h Hb)) as
      (hs & t' & -> & Hb' & Hle & Hr & Hnd & Hlive & Hold & Hdead).
    { rewrite remove_counter. lia. }
    rewrite remove_counter in *. exists hs, t'. split_and!; try done; cbn [closed omap list_omap].
    + intros k w Hin Hcl. apply Hlive; set_solver.
    + intros k Hk Hcl. rewrite Hold by set_solver. rewrite remove_entries.
      apply lookup_delete_ne. set_solver.
    + intros k Hk Hnone. apply Hdead; [done|]. rewrite remove_entries.
      apply lookup_delete_None. by right.
Qed.
End client.

(** * Tables that own resources of the host

    [held] are the resources the host has given out, [h0] those that belong to others, [p] those on
    their way between the host and the table [t]. *)
Record owns (h0 p held : gset Z) (t : gmap Z Z) : Prop := {
  owns_held : ∀ x, x ∈ held ↔ (x ∈ h0) ∨ (x ∈ p) ∨ (∃ k, t !! k = Some x);
  owns_apart : ∀ k x, t !! k = Some x → (x ∉ h0) ∧ x ∉ p;
  owns_pending : h0 ## p;
  owns_one : ∀ j k x, t !! j = Some x → t !! k = Some x → j = k;
}.

Section owns.

Lemma owns_new (h0 : gset Z) : owns h0 ∅ h0 ∅.
Proof.
  split; [intros x; split; [by left|]; intros [?|[?|[k Hk]]]; [done|set_solver|by rewrite lookup_empty in Hk]|..].
  - intros k x. by rewrite lookup_empty.
  - set_solver.
  - intros j k x. by rewrite lookup_empty.
Qed.
(** The host gives out a new one. *)
Lemma owns_opened h0 p held t x : owns h0 p held t → x ∉ held → owns h0 ({[x]} ∪ p) ({[x]} ∪ held) t.
Proof.
  intros [Ho Ha Hp H1] Hx. split; [|intros k y Hl| |done].
  - intros y. rewrite elem_of_union, Ho. set_solver.
  - split; [by eapply Ha|]. intros [->%elem_of_singleton|Hy]%elem_of_union; [|by eapply Ha].
    apply Hx, Ho. right. right. by exists k.
  - assert (x ∉ h0) by (intros Hh; apply Hx, Ho; by left). set_solver.
Qed.
(** It goes into the table. *)
Lemma owns_stored h0 p held t k x : owns h0 ({[x]} ∪ p) held t → x ∉ p → t !! k = None →
  owns h0 p held (<[k := x]> t).
Proof.
  intros [Ho Ha Hp H1] Hx Hk. assert (Hn : ∀ j, t !! j ≠ Some x) by (intros j Hl; apply Ha in Hl; set_solver).
  split; [|intros j y| |intros i j y].
  - intros y. rewrite Ho. split.
    + intros [?|[[->%elem_of_singleton|?]%elem_of_union|[j Hl]]]; [by left| |by right; left|]; right; right.
      * exists k. apply lookup_insert_eq.
      * exists j. rewrite lookup_insert_ne; [done|]. by intros ->; rewrite Hk in Hl.
    + intros [?|[?|[j [[_ <-]|[_ Hl]]%lookup_insert_Some]]]; set_solver.
  - intros [[_ <-]|[_ Hl]]%lookup_insert_Some; [set_solver|]. apply Ha in Hl. set_solver.
  - set_solver.
  - intros [[E1 E1']|[E1 L1]]%lookup_insert_Some [[E2 E2']|[E2 L2]]%lookup_insert_Some; subst.
    + done.
    + by apply Hn in L2.
    + by apply Hn in L1.
    + by eapply H1.
Qed.
(** An entry leaves the table with its resource. *)
Lemma owns_taken h0 p held t k x : owns h0 p held t → t !! k = Some x → owns h0 ({[x]} ∪ p) held (delete k t).
Proof.
  intros [Ho Ha Hp H1] Hl. split; [|intros j y| |intros i j y].
  - intros y. rewrite Ho. split.
    + intros [?|[?|[j Hj]]]; [by left|set_solver|right]. destruct (decide (j = k)) as [->|]; [left; set_solver|].
      right. exists j. by rewrite lookup_delete_ne.
    + intros [?|[[->%elem_of_singleton|?]%elem_of_union|[j [_ Hj]%lookup_delete_Some]]];
        [by left|right; right; by exists k|by right; left|]. right; right. by exists j.
  - intros [Hne Hj]%lookup_delete_Some. split; [by eapply Ha|].
    intros [->%elem_of_singleton|Hy]%elem_of_union; [|by eapply Ha]. apply Hne. by eapply H1.
  - apply Ha in Hl. set_solver.
  - intros [_ ?]%lookup_delete_Some [_ ?]%lookup_delete_Some. by eapply H1.
Qed.
(** The host takes it back. *)
Lemma owns_closed h0 p held t x : owns h0 ({[x]} ∪ p) held t → x ∉ p → owns h0 p (held ∖ {[x]}) t.
Proof.
  intros [Ho Ha Hp H1] Hx. split; [|intros k y Hl|set_solver|done].
  - intros y. rewrite elem_of_difference, Ho. split; [set_solver|].
    intros [?|[?|[k Hk]]]; [set_solver|set_solver|]. split; [by right; right; exists k|]. apply Ha in Hk. set_solver.
  - apply Ha in Hl. set_solver.
Qed.
Lemma owns_dropped h0 p held t k x : owns h0 p held t → t !! k = Some x → owns h0 p (held ∖ {[x]}) (delete k t).
Proof.
  intros Ho Hk. apply owns_closed; [by apply owns_taken|]. by apply (owns_apart _ _ _ _ Ho) in Hk as [_ ?].
Qed.
End owns.
