(* ===== verification/Managers.v ===== *)
(** The managers of src/src/loader/managers.rs other than the heap: pipe handles,
    directory searches, child processes, named shared memory, resources and loaded DLLs.

    Host objects (files, directory iterators, child processes, threads) are opaque: their
    types are parameters. *)
From S2P Require Import Prelude Bytes HandleTable.

Definition PIPE_HANDLE_BASE := 0x1000.

(** A counter-indexed HashMap: the shape of [HandleManager], [HDirManager] and the process
    table ([handles]/[next_handle], [iterators]/[next_handle], [children]/[next_pid]). *)
Section tables.
Context {B : Build} {File ReadDir Child JoinHandle : Type}.

(** [HandleManager] *)
Record HandleManager := mk_hm { handles : gmap Z File; hm_next_handle : Z }.
Definition handle_manager_new : HandleManager := mk_hm ∅ PIPE_HANDLE_BASE.
Definition handle_add (m : HandleManager) (file : File) : outcome () (Z * HandleManager) :=
  let h := hm_next_handle m in
  next ← uadd M32 (hm_next_handle m) 1;
  Ok (h, mk_hm (<[h := file]> (handles m)) next).
Definition handle_get (m : HandleManager) (h : Z) : option File := handles m !! h.
Definition handle_insert := handle_add.
Definition handle_replace (m : HandleManager) (h : Z) (file : File) : HandleManager :=
  mk_hm (<[h := file]> (handles m)) (hm_next_handle m).
Definition handle_close (m : HandleManager) (h : Z) : bool * HandleManager :=
  (bool_decide (is_Some (handles m !! h)), mk_hm (delete h (handles m)) (hm_next_handle m)).

(** [HDirEntry], [HDirManager] *)
Record HDirEntry := mk_hdir { iterator : ReadDir; pattern : rstring }.
Record HDirManager := mk_hdm { iterators : gmap Z HDirEntry; hd_next_handle : Z }.
Definition hdir_manager_new : HDirManager := mk_hdm ∅ 10.
Definition hdir_add (m : HDirManager) (it : ReadDir) (pattern : rstring)
    : outcome () (Z * HDirManager) :=
  let h := hd_next_handle m in
  next ← uadd M32 (hd_next_handle m) 1;
  Ok (h, mk_hdm (<[h := mk_hdir it pattern]> (iterators m)) next).
Definition hdir_get (m : HDirManager) (h : Z) : option HDirEntry := iterators m !! h.
Definition hdir_close (m : HDirManager) (h : Z) : bool * HDirManager :=
  (bool_decide (is_Some (iterators m !! h)), mk_hdm (delete h (iterators m)) (hd_next_handle m)).

(** [ProcessManager] *)
Record ProcessManager := mk_pm {
  current_disk : Z;
  current_dir : rstring;
  children : gmap Z Child;
  relay_threads : gmap Z JoinHandle;
  next_pid : Z;
}.
Definition process_manager_new : ProcessManager := mk_pm 3 (str "\") ∅ ∅ 100.
(** [trim_start_matches(c)] *)
Fixpoint trim_start_matches (c : Z) (s : rstring) : rstring :=
  match s with
  | x :: s' => if x =? c then trim_start_matches c s' else s
  | [] => []
  end.
Definition current_dir_no_leading_slash (m : ProcessManager) : rstring :=
  trim_start_matches 0x5C (current_dir m).
Definition add_child (m : ProcessManager) (child : Child) : outcome () (Z * ProcessManager) :=
  let pid := next_pid m in
  next ← uadd M32 (next_pid m) 1;
  Ok (pid, mk_pm (current_disk m) (current_dir m) (<[pid := child]> (children m))
                 (relay_threads m) next).
Definition take_child (m : ProcessManager) (pid : Z) : option Child * ProcessManager :=
  (children m !! pid,
   mk_pm (current_disk m) (current_dir m) (delete pid (children m)) (relay_threads m) (next_pid m)).
Definition add_relay_thread (m : ProcessManager) (pid : Z) (h : JoinHandle) : ProcessManager :=
  mk_pm (current_disk m) (current_dir m) (children m) (<[pid := h]> (relay_threads m)) (next_pid m).
Definition take_relay_thread (m : ProcessManager) (pid : Z) : option JoinHandle * ProcessManager :=
  (relay_threads m !! pid,
   mk_pm (current_disk m) (current_dir m) (children m) (delete pid (relay_threads m)) (next_pid m)).

(** [wait_any]: [try_wait c] is the exit status of a finished child ([None] while it runs or
    when the wait fails), its code absent when a signal ended it; [order] is the order in
    which the HashMap yields its entries. *)
Definition wait_any (try_wait : Child → option (option Z)) (order : list (Z * Child))
    (m : ProcessManager) : option (Z * Z) * ProcessManager :=
  match list_find (λ p, is_Some (try_wait p.2)) order with
  | Some (_, (pid, child)) =>
    let code := default 1 (default None (try_wait child)) in
    (Some (pid, code), (take_child m pid).2)
  | None => (None, m)
  end.
End tables.
Arguments HandleManager : clear implicits.
Arguments HDirEntry : clear implicits.
Arguments HDirManager : clear implicits.
Arguments ProcessManager : clear implicits.

(** The three tables implement the interface. *)
#[export] Instance handle_table B File : HandleTable B (HandleManager File) File := {
  entries := handles; counter := hm_next_handle; add := handle_add;
  remove m h := (handle_close m h).2;
}.
#[export] Instance handle_table_laws B File : HandleTableLaws B (HandleManager File) File.
Proof.
  split; cbn; try done. intros t v H. unfold handle_add. rewrite uadd_ok by done. by eexists.
Qed.
#[export] Instance hdir_table B ReadDir :
    HandleTable B (HDirManager ReadDir) (HDirEntry ReadDir) := {
  entries := iterators; counter := hd_next_handle;
  add m e := hdir_add m (iterator e) (pattern e);
  remove m h := (hdir_close m h).2;
}.
#[export] Instance hdir_table_laws B ReadDir :
  HandleTableLaws B (HDirManager ReadDir) (HDirEntry ReadDir).
Proof.
  split; cbn; try done. intros t [it p] H. unfold hdir_add. rewrite uadd_ok by done. by eexists.
Qed.
#[export] Instance process_table B Child JoinHandle :
    HandleTable B (ProcessManager Child JoinHandle) Child := {
  entries := children; counter := next_pid; add := add_child;
  remove m h := (take_child m h).2;
}.
#[export] Instance process_table_laws B Child JoinHandle :
  HandleTableLaws B (ProcessManager Child JoinHandle) Child.
Proof.
  split; cbn; try done. intros t v H. unfold add_child. rewrite uadd_ok by done. by eexists.
Qed.

(** * Named shared memory and resources *)

(** [SharedMemManager] *)
Record SharedMemManager := mk_shm { named_blocks : gmap rstring Z }.
Definition shared_mem_new : SharedMemManager := mk_shm ∅.
Definition shared_register (m : SharedMemManager) (name : rstring) (addr : Z) : SharedMemManager :=
  mk_shm (<[name := addr]> (named_blocks m)).
Definition shared_find (m : SharedMemManager) (name : rstring) : option Z :=
  named_blocks m !! name.

(** [ResourceManager] *)
Record ResourceManager := mk_res { resources : gmap (Z * Z) (Z * Z) }.
Definition resource_manager_new : ResourceManager := mk_res ∅.
Definition resource_add (m : ResourceManager) (type_id name_id guest_addr size : Z)
    : ResourceManager :=
  mk_res (<[(type_id, name_id) := (guest_addr, size)]> (resources m)).
Definition resource_find (m : ResourceManager) (type_id name_id : Z) : option (Z * Z) :=
  resources m !! (type_id, name_id).

(** * Loaded DLLs *)

(** [s.to_ascii_uppercase()] *)
Definition ascii_upper_char (c : Z) : Z := if in_range 0x61 0x7A c then c - 0x20 else c.
Definition to_ascii_uppercase (s : rstring) : rstring := map ascii_upper_char s.

(** [LoadedDll] *)
Record LoadedDll := mk_dll {
  name : rstring;
  handle : Z;
  object_bases : list Z;
  exports_by_ordinal : gmap Z Z;
  exports_by_name : gmap rstring Z;
  ref_count : Z;
  initterm_addr : option Z;
  is_builtin : bool;
}.
Definition with_ref_count (d : LoadedDll) (n : Z) : LoadedDll :=
  mk_dll (name d) (handle d) (object_bases d) (exports_by_ordinal d) (exports_by_name d) n
         (initterm_addr d) (is_builtin d).

(** [DllManager] *)
Record DllManager := mk_dlls { dlls : list LoadedDll; dll_next_handle : Z }.
Definition dll_manager_new : DllManager := mk_dlls [] 0x1000.

Definition dll_find_by_name (m : DllManager) (n : rstring) : option LoadedDll :=
  snd <$> list_find (λ d, name d = to_ascii_uppercase n) (dlls m).
Definition dll_find_by_handle (m : DllManager) (h : Z) : option LoadedDll :=
  snd <$> list_find (λ d, handle d = h) (dlls m).
Definition resolve_ordinal (m : DllManager) (module : rstring) (ordinal : Z) : option Z :=
  d ← dll_find_by_name m module; exports_by_ordinal d !! ordinal.
Definition resolve_name (m : DllManager) (module n : rstring) : option Z :=
  d ← dll_find_by_name m module; exports_by_name d !! to_ascii_uppercase n.

Section dlls.
Context {B : Build}.

Definition dll_alloc_handle (m : DllManager) : outcome () (Z * DllManager) :=
  let h := dll_next_handle m in
  next ← uadd M32 (dll_next_handle m) 1;
  Ok (h, mk_dlls (dlls m) next).
Definition dll_register (m : DllManager) (d : LoadedDll) : Z * DllManager :=
  (handle d, mk_dlls (dlls m ++ [d]) (dll_next_handle m)).

Definition increment_refcount (m : DllManager) (h : Z) : outcome () (bool * DllManager) :=
  match list_find (λ d, handle d = h) (dlls m) with
  | Some (i, d) =>
    n ← uadd M32 (ref_count d) 1;
    Ok (true, mk_dlls (<[i := with_ref_count d n]> (dlls m)) (dll_next_handle m))
  | None => Ok (false, m)
  end.

Definition decrement_refcount (m : DllManager) (h : Z)
    : option (list Z * option Z) * DllManager :=
  match list_find (λ d, handle d = h) (dlls m) with
  | None => (None, m)
  | Some (i, d) =>
    let d := if 0 <? ref_count d then with_ref_count d (ref_count d - 1) else d in
    if ref_count d =? 0 then
      (Some (object_bases d, initterm_addr d), mk_dlls (delete i (dlls m)) (dll_next_handle m))
    else (None, mk_dlls (<[i := d]> (dlls m)) (dll_next_handle m))
  end.
End dlls.

(** * Properties *)

(** Pipe handles are never reused: a client of [HandleManager] that opens and closes
    files in any order (fewer than 2^32 - 0x1000 calls) never sees a panic, is given
    pairwise distinct handles of at least [PIPE_HANDLE_BASE], and a handle it has not
    closed still names the file it was created for. *)
Theorem pipe_handles_unique {B : Build} {File : Type} (acts : list (action (V:=File))) :
  PIPE_HANDLE_BASE + Z.of_nat (length acts) < M32 →
  ∃ hs m, perform (T:=HandleManager File) handle_manager_new acts = Ok (hs, m) ∧
    NoDup hs.*1 ∧ Forall (λ p, PIPE_HANDLE_BASE ≤ p.1) hs ∧
    (∀ h f, (h, f) ∈ hs → h ∉ closed acts → handle_get m h = Some f).
Proof.
  intros Hn. destruct (perform_spec (T:=HandleManager File) handle_manager_new acts)
    as (hs & m & Hp & _ & _ & Hr & Hnd & Hlive & _); [|exact Hn|].
  - intros h v. cbn. by rewrite lookup_empty.
  - exists hs, m. split_and!; [done..| |exact Hlive].
    eapply Forall_impl; [exact Hr|]. intros p [Hp' _]. exact Hp'.
Qed.
Lemma pipe_handles_unique_witness :
  ∃ hs m, perform (B:=dev_profile) (T:=HandleManager Z) handle_manager_new
            [Add 7; Add 8; Remove 0x1000; Add 9] = Ok (hs, m) ∧ NoDup hs.*1.
Proof.
  destruct (pipe_handles_unique (B:=dev_profile) [Add 7; Add 8; Remove 0x1000; Add 9])
    as (hs & m & H & Hn & _); [vm_compute; done|]. by exists hs, m.
Defined.

(** The abstract state of a DLL: its reference count, if it is loaded. *)
Definition refs (m : DllManager) (h : Z) : option Z := ref_count <$> dll_find_by_handle m h.
Record dlls_ok (m : DllManager) : Prop := {
  dlls_nodup : NoDup (handle <$> dlls m);
  dlls_counted : Forall (λ d, 1 ≤ ref_count d) (dlls m);
  dlls_below : Forall (λ d, handle d < dll_next_handle m) (dlls m);
}.

Lemma find_by_handle_Some l h i d :
  list_find (λ d, handle d = h) l = Some (i, d) → l !! i = Some d ∧ handle d = h.
Proof. intros (? & ? & _)%list_find_Some. done. Qed.
(** With unique handles, looking up by handle is membership. *)
Lemma find_unique l h d :
  NoDup (handle <$> l) → d ∈ l → handle d = h →
  snd <$> list_find (λ d, handle d = h) l = Some d.
Proof.
  intros Hn Hd Hh. destruct (list_find _ l) as [[i e]|] eqn:Hf; simpl.
  - apply find_by_handle_Some in Hf as [Hi He]. f_equal.
    apply list_elem_of_lookup in Hd as [j Hj].
    assert (i = j) as ->; [|congruence].
    eapply (NoDup_lookup (handle <$> l) i j); [done|rewrite list_lookup_fmap, Hi; done|].
    rewrite list_lookup_fmap, Hj. simpl. by rewrite Hh, He.
  - apply list_find_None in Hf. rewrite Forall_forall in Hf. by destruct (Hf d Hd).
Qed.
Lemma find_absent l h :
  h ∉ (handle <$> l) → snd <$> list_find (λ d, handle d = h) l = None.
Proof.
  intros Hn. destruct (list_find _ l) as [[i e]|] eqn:Hf; [|done].
  apply find_by_handle_Some in Hf as [Hi He]. destruct Hn. apply list_elem_of_fmap.
  exists e. split; [done|]. by eapply list_elem_of_lookup_2.
Qed.
(** Lookup by another handle does not see the entry replaced or removed. *)
Lemma find_insert_other l i d e h :
  l !! i = Some d → handle e = handle d → handle d ≠ h →
  snd <$> list_find (λ d, handle d = h) (<[i := e]> l) = snd <$> list_find (λ d, handle d = h) l.
Proof.
  revert i. induction l as [|x l IH]; intros [|i] Hi He Hh; simplify_eq/=.
  - rewrite !decide_False by congruence. by destruct (list_find _ l) as [[]|].
  - case_decide; [done|]. specialize (IH i Hi He Hh).
    destruct (list_find _ (<[i:=e]> l)) as [[]|], (list_find _ l) as [[]|]; simplify_eq/=; done.
Qed.
Lemma find_delete_other l i d h :
  l !! i = Some d → handle d ≠ h →
  snd <$> list_find (λ d, handle d = h) (delete i l) = snd <$> list_find (λ d, handle d = h) l.
Proof.
  revert i. induction l as [|x l IH]; intros [|i] Hi Hh; simplify_eq/=.
  - rewrite decide_False by congruence. by destruct (list_find _ l) as [[]|].
  - case_decide; [done|]. specialize (IH i Hi Hh).
    destruct (list_find _ (delete i l)) as [[]|], (list_find _ l) as [[]|]; simplify_eq/=; done.
Qed.
Lemma handles_insert (l : list LoadedDll) i d e :
  l !! i = Some d → handle e = handle d → handle <$> <[i := e]> l = handle <$> l.
Proof.
  intros Hi He. rewrite list_fmap_insert. apply list_insert_id.
  by rewrite list_lookup_fmap, Hi, He.
Qed.

(** Reference counting: [decrement_refcount] unloads a DLL (answers with its object bases
    and forgets it) exactly at the count 1, otherwise counts down and answers [None];
    [increment_refcount] counts up; neither touches another DLL, and handles stay unique
    and counts positive.  So a DLL loaded [n] times is unloaded by the [n]-th free. *)
Theorem refcount_refines {B : Build} (m : DllManager) (h : Z) :
  dlls_ok m →
  (let '(r, m') := decrement_refcount m h in
   dlls_ok m' ∧
   (∀ k, k ≠ h → dll_find_by_handle m' k = dll_find_by_handle m k) ∧
   match refs m h with
   | None => r = None ∧ m' = m
   | Some n =>
       if n =? 1 then
         r = (λ d, (object_bases d, initterm_addr d)) <$> dll_find_by_handle m h ∧
         refs m' h = None
       else r = None ∧ refs m' h = Some (n - 1)
   end) ∧
  (default 0 (refs m h) < M32 - 1 →
   ∃ r m', increment_refcount m h = Ok (r, m') ∧ dlls_ok m' ∧
   (∀ k, k ≠ h → dll_find_by_handle m' k = dll_find_by_handle m k) ∧
   refs m' h = Z.succ <$> refs m h ∧ r = bool_decide (is_Some (refs m h))).
Proof.
  intros [Hn Hc Hb]. unfold refs, dll_find_by_handle, decrement_refcount, increment_refcount.
  destruct (list_find _ (dlls m)) as [[i d]|] eqn:Hf.
  2: { split; [done|]. intros _. exists false, m. split_and!; try done. by rewrite Hf. }
  apply find_by_handle_Some in Hf as [Hi <-]. cbn [fmap option_fmap option_map snd].
  pose proof (Forall_lookup_1 _ _ _ _ Hc Hi) as Hd. cbn in Hd.
  assert (Hins : ∀ n, 1 ≤ n → dlls_ok (mk_dlls (<[i:=with_ref_count d n]> (dlls m))
                                        (dll_next_handle m))).
  { intros n Hpos. split; cbn.
    - by rewrite (handles_insert _ _ d).
    - by apply Forall_insert.
    - apply Forall_insert; [done|]. exact (Forall_lookup_1 _ _ _ _ Hb Hi). }
  assert (Href : ∀ n, snd <$> list_find (λ e, handle e = handle d)
                   (<[i:=with_ref_count d n]> (dlls m)) = Some (with_ref_count d n)).
  { intros n. apply find_unique; [by rewrite (handles_insert _ _ d)| |done].
    apply list_elem_of_lookup. exists i. apply list_lookup_insert_eq.
    by eapply lookup_lt_Some. }
  split.
  - rewrite (proj2 (Z.ltb_lt 0 (ref_count d))) by lia. cbn [ref_count with_ref_count].
    destruct (Z.eqb_spec (ref_count d) 1) as [H1|H1].
    + rewrite H1. cbn. split_and!; [|by intros; eapply find_delete_other|done|].
      * pose proof (delete_Permutation _ _ _ Hi) as Hp. split; cbn.
        -- rewrite Hp in Hn. cbn in Hn. by apply NoDup_cons in Hn as [_ ?].
        -- by apply Forall_delete.
        -- by apply Forall_delete.
      * rewrite find_absent; [done|]. pose proof (delete_Permutation _ _ _ Hi) as Hp.
        rewrite Hp in Hn. cbn in Hn. by apply NoDup_cons in Hn as [? _].
    + destruct (Z.eqb_spec (ref_count d - 1) 0); [lia|]. cbn. split_and!; [apply Hins; lia| |done|].
      * intros k Hk. by eapply find_insert_other.
      * by rewrite Href.
  - cbn [default]. intros Hlt. rewrite uadd_ok by (cbn in Hlt; lia). out_simpl.
    eexists _, _. split; [done|]. cbn [dlls]. split_and!; [apply Hins; lia| | |done].
    + intros k Hk. by eapply find_insert_other.
    + rewrite Href. done.
Qed.

Definition demo_dll : LoadedDll := mk_dll (str "JPOS2DLL") 0x1000 [0x100000] ∅ ∅ 1 None false.
Lemma refcount_refines_witness :
  ∃ m, dlls_ok m ∧ (decrement_refcount m 0x1000).1 = Some ([0x100000], None).
Proof.
  assert (dlls_ok (mk_dlls [demo_dll] 0x1001)) as Hok.
  { split; cbn; repeat constructor; set_solver || lia. }
  exists (mk_dlls [demo_dll] 0x1001). split; [done|].
  pose proof (proj1 (refcount_refines (B:=dev_profile) _ 0x1000 Hok)) as (_ & _ & H & _).
  exact H.
Defined.
