(* ===== verification/Constants.v ===== *)
(** The constants of src/src/loader/constants.rs that the components share: the magic
    addresses of the API stubs, the ordinal base of each module, and the layout of the
    descriptor tables. *)
From S2P Require Import Prelude.

Definition MAGIC_API_BASE := 0x01000000.
Definition EXIT_TRAP_ADDR := 0x010003FF.
Definition CALLBACK_RET_TRAP := 0x010003FE.
Definition DYNAMIC_ALLOC_BASE := 0x02000000.

Definition PMWIN_BASE := 2048.
Definition PMGPI_BASE := 3072.
Definition KBDCALLS_BASE := 4096.
Definition VIOCALLS_BASE := 5120.
Definition SESMGR_BASE := 6144.
Definition NLS_BASE := 7168.
Definition MSG_BASE := 8192.
Definition MDM_BASE := 10240.
Definition UCONV_BASE := 12288.
Definition SO32DLL_BASE := 13312.
Definition TCP32DLL_BASE := 14336.
Definition STUB_AREA_SIZE := 16384.

Definition GDT_BASE := 0x00080000.
Definition TILED_SEL_START_INDEX := 6.
Definition TILE_SIZE := 0x10000.
Definition NUM_TILES := 4096.
Definition NUM_CODE_TILES := 2048.
Definition TILED_CODE_START_INDEX := TILED_SEL_START_INDEX + NUM_TILES.
Definition IDT_BASE := 0x0008D000.
Definition IDT_HANDLER_BASE := 0x0008D800.

Definition TIB_BASE := 0x00090000.
Definition PIB_BASE := 0x00091000.
Definition ENV_ADDR := 0x00092000.
