(* ===== verification/ApiTrace.v ===== *)
(** API names for traces and crash dumps (src/src/loader/api_trace.rs): the name, the
    module and the parameter names of a flat ordinal, and the formatting of a call. *)
From S2P Require Import Prelude Bytes Constants.

(** The arms of a [match] on an ordinal. *)
Definition arms (A : Type) := list (Z * A).
Fixpoint arm {A} (d : A) (l : arms A) (n : Z) : A :=
  match l with
  | [] => d
  | (k, v) :: l => if k =? n then v else arm d l n
  end.
(** [o if (lo..hi).contains(&o) => match o - base { .. }] *)
Fixpoint ranged {A} (d : A) (groups : list (Z * Z * Z * arms A)) (o : Z) : A :=
  match groups with
  | [] => d
  | (lo, hi, base, l) :: groups =>
    if (lo <=? o) && (o <? hi) then arm d l (o - base) else ranged d groups o
  end.

Definition ORDINAL_TO_NAME_FLAT : arms string := [
  (8, "DosGetInfoSeg");
  (75, "DosQueryFileMode16");
  (84, "DosSetFileMode");
  (110, "DosForceDelete");
  (111, "DosKillThread");
  (209, "DosSetMaxFH");
  (210, "DosSetVerify");
  (212, "DosError");
  (218, "DosSetFileInfo");
  (219, "DosSetPathInfo");
  (220, "DosSetDefaultDisk");
  (221, "DosSetFHState");
  (223, "DosQueryPathInfo");
  (224, "DosQueryHType");
  (225, "DosQueryVerify");
  (226, "DosDeleteDir");
  (227, "DosScanEnv");
  (229, "DosSleep");
  (230, "DosGetDateTime");
  (231, "DosDevConfig");
  (234, "DosExit");
  (235, "DosKillProcess");
  (236, "DosSetPriority");
  (239, "DosCreatePipe");
  (241, "DosConnectNPipe");
  (243, "DosCreateNPipe");
  (250, "DosSetNPHState");
  (254, "DosResetBuffer");
  (255, "DosSetCurrentDir");
  (256, "DosSetFilePtr");
  (257, "DosClose");
  (258, "DosCopy");
  (259, "DosDelete");
  (260, "DosDupHandle");
  (261, "DosEditName");
  (263, "DosFindClose");
  (264, "DosFindFirst");
  (265, "DosFindNext");
  (267, "DOS16REQUESTVDD");
  (270, "DosCreateDir");
  (271, "DosMove");
  (272, "DosSetFileSize");
  (273, "DosOpen");
  (274, "DosQueryCurrentDir");
  (275, "DosQueryCurrentDisk");
  (276, "DosQueryFHState");
  (277, "DosQueryFSAttach");
  (278, "DosQueryFSInfo");
  (279, "DosQueryFileInfo");
  (280, "DosWaitChild");
  (281, "DosRead");
  (282, "DosWrite");
  (283, "DosExecPgm");
  (284, "DosDevIOCtl");
  (285, "DosFSCtl");
  (286, "DosBeep");
  (289, "DosSetProcessCp");
  (291, "DosQueryCp");
  (292, "DosSetDateTime");
  (299, "DosAllocMem");
  (300, "DosAllocSharedMem");
  (301, "DosGetNamedSharedMem");
  (302, "DosGetSharedMem");
  (304, "DosFreeMem");
  (305, "DosSetMem");
  (306, "DosQueryMem");
  (311, "DosCreateThread");
  (312, "DosGetInfoBlocks");
  (317, "DosDebug");
  (318, "DosLoadModule");
  (319, "DosQueryModuleHandle");
  (321, "DosQueryProcAddr");
  (322, "DosFreeModule");
  (323, "DosQueryAppType");
  (324, "DosCreateEventSem");
  (325, "DosOpenEventSem");
  (326, "DosCloseEventSem");
  (328, "DosPostEventSem");
  (329, "DosWaitEventSem");
  (331, "DosCreateMutexSem");
  (332, "DosOpenMutexSem");
  (333, "DosCloseMutexSem");
  (334, "DosRequestMutexSem");
  (335, "DosReleaseMutexSem");
  (337, "DosCreateMuxWaitSem");
  (339, "DosCloseMuxWaitSem");
  (340, "DosWaitMuxWaitSem");
  (342, "DosDeleteMuxWaitSem");
  (348, "DosQuerySysInfo");
  (349, "DosWaitThread");
  (352, "DosGetResource");
  (353, "DosFreeResource");
  (354, "DosSetExceptionHandler");
  (355, "DosUnsetExceptionHandler");
  (356, "DosRaiseException");
  (357, "DosUnwindException");
  (368, "DosQuerySysState");
  (372, "DosEnumAttribute");
  (373, "DosQueryDBCSEnv");
  (378, "DosSetSignalExceptionFocus");
  (380, "DosEnterMustComplete");
  (381, "DosExitMustComplete");
  (382, "DosSetRelMaxFH");
  (397, "DosQueryCtryInfo");
  (415, "DosShutdown");
  (418, "DosAcknowledgeSignalException");
  (425, "DosFlatToSel");
  (426, "DosSelToFlat");
  (428, "DosSetFileLocks");
  (572, "DosQueryResourceSize");
  (639, "DosProtectSetFileLocks");
  (873, "DosSetExtLIBPATH");
  (874, "DosQueryExtLIBPATH")].

Definition ORDINAL_TO_NAME_GROUPS : list (Z * Z * Z * arms string) := [
  (1024, PMWIN_BASE, 1024, [
    (9, "DosReadQueue");
    (10, "DosPurgeQueue");
    (11, "DosCloseQueue");
    (12, "DosQueryQueue");
    (14, "DosWriteQueue");
    (15, "DosOpenQueue");
    (16, "DosCreateQueue")]);
  (KBDCALLS_BASE, VIOCALLS_BASE, KBDCALLS_BASE, [
    (4, "KbdCharIn");
    (9, "KbdStringIn");
    (10, "KbdGetStatus")]);
  (VIOCALLS_BASE, SESMGR_BASE, VIOCALLS_BASE, [
    (3, "VioGetAnsi");
    (5, "VioSetAnsi");
    (7, "VioScrollUp");
    (9, "VioGetCurPos");
    (10, "VioWrtCellStr");
    (15, "VioSetCurPos");
    (19, "VioWrtTTY");
    (21, "VioGetMode");
    (22, "VioSetMode");
    (24, "VioReadCellStr");
    (26, "VioWrtNAttr");
    (27, "VioGetCurType");
    (31, "VioGetBuf");
    (32, "VioSetCurType");
    (47, "VioScrollDn");
    (39, "VioCheckCharType");
    (42, "VioSetCp");
    (43, "VioShowBuf");
    (46, "VioGetConfig");
    (48, "VioWrtCharStrAtt");
    (51, "VioSetState");
    (52, "VioWrtNCell")]);
  (NLS_BASE, MSG_BASE, NLS_BASE, [
    (5, "NlsQueryCp");
    (6, "NlsQueryCtryInfo");
    (7, "NlsMapCase");
    (8, "NlsGetDBCSEv");
    (9, "NlsDosMapCase")]);
  (MSG_BASE, MDM_BASE, MSG_BASE, [
    (3, "DosPutMessage");
    (6, "DosGetMessage")]);
  (MDM_BASE, UCONV_BASE, MDM_BASE, [
    (1, "mciSendCommand");
    (2, "mciSendString");
    (3, "mciFreeBlock");
    (4, "mciGetLastError")]);
  (UCONV_BASE, SO32DLL_BASE, UCONV_BASE, [
    (1, "UniCreateUconvObject");
    (2, "UniFreeUconvObject");
    (3, "UniUconvToUcs");
    (4, "UniUconvFromUcs");
    (6, "UniMapCpToUcsCp")]);
  (SO32DLL_BASE, TCP32DLL_BASE, SO32DLL_BASE, [
    (1, "accept");
    (2, "bind");
    (3, "connect");
    (4, "gethostid");
    (5, "gethostname");
    (6, "getpeername");
    (7, "getsockname");
    (8, "getsockopt");
    (10, "listen");
    (11, "recv");
    (12, "recvfrom");
    (13, "select");
    (14, "send");
    (15, "sendto");
    (16, "setsockopt");
    (17, "shutdown");
    (18, "sock_errno");
    (19, "socket");
    (20, "soclose");
    (21, "psock_errno");
    (22, "sock_init");
    (40, "gethostbyname");
    (41, "gethostbyaddr");
    (42, "getservbyname");
    (43, "getservbyport");
    (44, "getprotobyname");
    (45, "getprotobynumber")]);
  (TCP32DLL_BASE, STUB_AREA_SIZE, TCP32DLL_BASE, [
    (1, "accept");
    (2, "bind");
    (3, "connect");
    (6, "getpeername");
    (7, "getsockname");
    (8, "getsockopt");
    (10, "listen");
    (11, "recv");
    (12, "recvfrom");
    (13, "select");
    (14, "send");
    (15, "sendto");
    (16, "setsockopt");
    (17, "shutdown");
    (18, "sock_errno");
    (19, "socket");
    (20, "soclose");
    (22, "sock_init");
    (40, "gethostbyname");
    (41, "gethostbyaddr");
    (42, "getservbyname");
    (43, "getservbyport");
    (44, "getprotobyname");
    (45, "getprotobynumber")])].

Definition ordinal_to_name (ordinal : Z) : string :=
  match list_find (λ p, p.1 = ordinal) ORDINAL_TO_NAME_FLAT with
  | Some (_, (_, n)) => n
  | None => ranged "?" ORDINAL_TO_NAME_GROUPS ordinal
  end.

Definition module_for_ordinal (ordinal : Z) : string :=
  if ordinal <? 1024 then "DOSCALLS"
  else if ordinal <? PMWIN_BASE then "QUECALLS"
  else if ordinal <? PMGPI_BASE then "PMWIN"
  else if ordinal <? KBDCALLS_BASE then "PMGPI"
  else if ordinal <? VIOCALLS_BASE then "KBDCALLS"
  else if ordinal <? SESMGR_BASE then "VIOCALLS"
  else if ordinal <? NLS_BASE then "SESMGR"
  else if ordinal <? MSG_BASE then "NLS"
  else if ordinal <? MDM_BASE then "MSG"
  else if ordinal <? UCONV_BASE then "MDM"
  else if ordinal <? SO32DLL_BASE then "UCONV"
  else if ordinal <? TCP32DLL_BASE then "SO32DLL"
  else if ordinal <? STUB_AREA_SIZE then "TCP32DLL"
  else "?".

Definition ARG_NAMES_FOR_ORDINAL_FLAT : arms (list string) := [
  (8, ["pGlobal"; "pLocal"]);
  (75, ["pszName"; "pulAttribute"]);
  (84, ["pszName"; "ulAttribute"]);
  (110, ["pszPathName"]);
  (209, ["cFH"]);
  (210, ["fVerify"]);
  (212, ["fEnable"]);
  (218, ["hFile"; "ulInfoLevel"; "pInfoBuf"; "cbInfoBuf"]);
  (219, ["pszPathName"; "ulInfoLevel"; "pInfoBuf"; "cbInfoBuf"; "flOptions"]);
  (220, ["usDriveNumber"]);
  (221, ["hFile"; "flState"]);
  (223, ["pszPathName"; "ulInfoLevel"; "pInfoBuf"; "cbInfoBuf"]);
  (224, ["hFile"; "pulType"; "pAttr"]);
  (225, ["pfVerify"]);
  (226, ["pszDirName"]);
  (229, ["ulSleep"]);
  (230, ["pDT"]);
  (231, ["pDevInfo"; "ulDevInfo"]);
  (234, ["ulAction"; "ulResult"]);
  (235, ["ulAction"; "PID"]);
  (239, ["phfRead"; "phfWrite"; "ulPipeSize"]);
  (241, ["hFile"]);
  (243, ["pszName"; "phPipe"; "openMode"; "pipeMode"; "cbInBuf"; "cbOutBuf"]);
  (250, ["hPipe"; "flState"]);
  (254, ["hFile"]);
  (255, ["pszDirName"]);
  (256, ["hFile"; "ib"; "method"; "pibNew"]);
  (257, ["hFile"]);
  (258, ["pszOldName"; "pszNewName"; "ulOption"]);
  (259, ["pszPathName"]);
  (260, ["hFile"; "phFile2"]);
  (261, ["metaLevel"; "pszSrc"; "pszEdit"; "pszDst"; "cbDst"]);
  (263, ["hDir"]);
  (264, ["pszFileSpec"; "phDir"; "flAttribute"; "pfindbuf"; "cbBuf"; "pcFileNames"; "ulInfoLevel"]);
  (265, ["hDir"; "pfindbuf"; "cbBuf"; "pcFileNames"]);
  (267, ["hVDD"; "usReqFn"; "pRequest"]);
  (270, ["pszDirName"; "pEABuf"]);
  (271, ["pszOldName"; "pszNewName"]);
  (272, ["hFile"; "cbSize"]);
  (273, ["pszFileName"; "phFile"; "pulAction"; "cbFile"; "ulAttribute"; "fsOpenFlags"; "fsOpenMode"; "peaop2"]);
  (274, ["usDriveNumber"; "pszDir"; "pcbDirPath"]);
  (275, ["pusDriveNumber"; "pLogicalDriveMap"]);
  (276, ["hFile"; "pflState"]);
  (277, ["pszDeviceName"; "ulOrdinal"; "ulFSAInfoLevel"; "pfsqb"; "pcbBuf"]);
  (278, ["usDriveNumber"; "ulFSInfoLevel"; "pBuf"; "cbBuf"]);
  (279, ["hFile"; "ulInfoLevel"; "pInfoBuf"; "cbInfoBuf"]);
  (280, ["ulAction"; "ulWait"; "pRes"; "ppid"]);
  (281, ["hFile"; "pBuf"; "cbBuf"; "pcbActual"]);
  (282, ["hFile"; "pBuf"; "cbBuf"; "pcbActual"]);
  (283, ["pObjname"; "cbObjname"; "execFlag"; "pArg"; "pEnv"; "pRes"; "pszProgName"]);
  (284, ["hDevice"; "ulCategory"; "ulFunction"; "pParams"; "cbParmList"; "pcbParmList"; "pData"; "cbData"; "pcbData"]);
  (285, ["pszPathName"; "iFunc"; "pFSData"; "cbFSData"; "pBuf"; "cbBuf"; "hDir"]);
  (286, ["ulFreq"; "ulDuration"]);
  (289, ["ulCodePage"]);
  (291, ["cb"; "arCP"; "pcCP"]);
  (292, ["pDT"]);
  (299, ["ppb"; "cb"; "flAttr"]);
  (300, ["ppb"; "pszName"; "cb"; "flag"]);
  (301, ["ppb"; "pszName"; "flag"]);
  (302, ["pb"; "flag"]);
  (304, ["pb"]);
  (305, ["pb"; "cb"; "flag"]);
  (306, ["pb"; "pcb"; "pfl"]);
  (311, ["ptid"; "pfn"; "param"; "flag"; "cbStack"]);
  (312, ["pptib"; "pppib"]);
  (317, ["pdbgbuf"]);
  (318, ["pszObj"; "cbObj"; "pszModule"; "phmod"]);
  (319, ["pszModuleName"; "phmod"]);
  (321, ["hmod"; "ordinal"; "pszName"; "ppfn"]);
  (322, ["hmod"]);
  (323, ["pszName"; "pFlags"]);
  (324, ["pszName"; "phev"; "flAttr"; "fState"]);
  (325, ["pszName"; "phev"]);
  (326, ["hev"]);
  (328, ["hev"]);
  (329, ["hev"; "ulTimeout"]);
  (331, ["pszName"; "phmtx"; "flAttr"; "fState"]);
  (332, ["pszName"; "phmtx"]);
  (333, ["hmtx"]);
  (334, ["hmtx"; "ulTimeout"]);
  (335, ["hmtx"]);
  (337, ["pszName"; "phmux"; "cSemRec"; "pSemRec"; "flAttr"]);
  (339, ["hmux"]);
  (340, ["hmux"; "ulTimeout"; "pulUser"]);
  (342, ["hmux"; "flAttr"]);
  (348, ["iStart"; "iLast"; "pBuf"; "cbBuf"]);
  (349, ["ptid"; "option"]);
  (352, ["hmod"; "ulTypeID"; "ulNameID"; "ppb"]);
  (353, ["pb"]);
  (354, ["pERegRec"]);
  (355, ["pERegRec"]);
  (356, ["pexcept"; "pRegRec"]);
  (357, ["pHandler"; "pTargetIP"; "pexcept"]);
  (368, ["EntityList"; "EntityLevel"; "PID"; "TID"; "pDataBuf"; "cbBuf"]);
  (372, ["ulRefType"; "pvFile"; "ulEntry"; "pvBuf"; "cbBuf"; "pcbActual"; "ulInfoLevel"]);
  (373, ["cb"; "pcc"; "pBuf"]);
  (378, ["fEnable"; "pulTimes"]);
  (380, ["pulNesting"]);
  (381, ["pulNesting"]);
  (382, ["pcbReqCount"; "pcbCurMaxFH"]);
  (397, ["cb"; "pCountryCode"; "pCountryInfo"; "pcb"]);
  (415, ["ulReserved"]);
  (418, ["ulSignalNum"]);
  (425, ["ptr"]);
  (426, ["ptr"]);
  (428, ["hFile"; "pUnlockRange"; "pLockRange"; "ulTimeout"; "ulFlags"]);
  (572, ["hmod"; "ulTypeID"; "ulNameID"; "pcb"]);
  (639, ["hFile"; "pUnlockRange"; "pLockRange"; "ulTimeout"; "ulFlags"])].

Definition ARG_NAMES_FOR_ORDINAL_GROUPS : list (Z * Z * Z * arms (list string)) := [
  (1024, 2048, 1024, [
    (9, ["hq"; "pRequest"; "pcbData"; "ppbuf"; "ulElement"; "fWait"; "pElemCode"; "hsem"]);
    (10, ["hq"]);
    (11, ["hq"]);
    (12, ["hq"; "pcbEntries"]);
    (14, ["hq"; "ulRequest"; "cbData"; "pbData"; "ulPriority"]);
    (15, ["ppid"; "phq"; "pszName"]);
    (16, ["phq"; "flQueueAttr"; "pszName"])]);
  (NLS_BASE, MSG_BASE, NLS_BASE, [
    (5, ["cb"; "arCP"; "pcCP"]);
    (6, ["cb"; "pCountryCode"; "pCountryInfo"; "pcb"]);
    (7, ["cb"; "pCC"; "pString"]);
    (8, ["cb"; "pCC"; "pBuf"])]);
  (MSG_BASE, MDM_BASE, MSG_BASE, [
    (3, ["pszPathName"; "pszBuffer"; "cbBuffer"; "ulMsgNumber"; "pTable"; "cTable"; "hFile"]);
    (6, ["ulMsgNumber"; "pTable"; "cTable"; "pBuffer"; "cbBuffer"; "pcbMsg"; "pszFile"])]);
  (MDM_BASE, UCONV_BASE, MDM_BASE, [
    (1, ["usDeviceID"; "usMessage"; "ulParam1"; "pParam2"]);
    (2, ["pszCommandBuf"; "pszReturnString"; "usReturnLength"; "hwndCallback"]);
    (3, ["pMemToFree"]);
    (4, ["pszErrorBuf"; "usBufLen"])]);
  (UCONV_BASE, SO32DLL_BASE, UCONV_BASE, [
    (1, ["ucsName"; "puobj"]);
    (2, ["uobj"]);
    (3, ["uobj"; "ppInBuf"; "pInBytesLeft"; "ppOutBuf"; "pOutCharsLeft"; "pNumSubs"]);
    (4, ["uobj"; "ppInBuf"; "pInCharsLeft"; "ppOutBuf"; "pOutBytesLeft"; "pNumSubs"]);
    (6, ["ulCodePage"; "ucsCodePage"; "n"])]);
  (SO32DLL_BASE, TCP32DLL_BASE, SO32DLL_BASE, [
    (1, ["s"; "addr"; "addrlen"]);
    (2, ["s"; "name"; "namelen"]);
    (3, ["s"; "name"; "namelen"]);
    (5, ["name"; "namelen"]);
    (6, ["s"; "name"; "namelen"]);
    (7, ["s"; "name"; "namelen"]);
    (8, ["s"; "level"; "optname"; "optval"; "optlen"]);
    (10, ["s"; "backlog"]);
    (11, ["s"; "buf"; "len"; "flags"]);
    (12, ["s"; "buf"; "len"; "flags"; "from"; "fromlen"]);
    (13, ["nfds"; "readfds"; "writefds"; "exceptfds"; "timeout"]);
    (14, ["s"; "msg"; "len"; "flags"]);
    (15, ["s"; "msg"; "len"; "flags"; "to"; "tolen"]);
    (16, ["s"; "level"; "optname"; "optval"; "optlen"]);
    (17, ["s"; "how"]);
    (19, ["domain"; "type"; "protocol"]);
    (20, ["s"]);
    (21, ["pszMsg"]);
    (40, ["pszName"]);
    (41, ["addr"; "len"; "type"]);
    (42, ["pszName"; "pszProto"]);
    (43, ["port"; "pszProto"]);
    (44, ["pszName"]);
    (45, ["proto"])]);
  (TCP32DLL_BASE, STUB_AREA_SIZE, TCP32DLL_BASE, [
    (1, ["s"; "addr"; "addrlen"]);
    (2, ["s"; "name"; "namelen"]);
    (3, ["s"; "name"; "namelen"]);
    (6, ["s"; "name"; "namelen"]);
    (7, ["s"; "name"; "namelen"]);
    (8, ["s"; "level"; "optname"; "optval"; "optlen"]);
    (10, ["s"; "backlog"]);
    (11, ["s"; "buf"; "len"; "flags"]);
    (12, ["s"; "buf"; "len"; "flags"; "from"; "fromlen"]);
    (13, ["nfds"; "readfds"; "writefds"; "exceptfds"; "timeout"]);
    (14, ["s"; "msg"; "len"; "flags"]);
    (15, ["s"; "msg"; "len"; "flags"; "to"; "tolen"]);
    (16, ["s"; "level"; "optname"; "optval"; "optlen"]);
    (17, ["s"; "how"]);
    (19, ["domain"; "type"; "protocol"]);
    (20, ["s"]);
    (40, ["pszName"]);
    (41, ["addr"; "len"; "type"]);
    (42, ["pszName"; "pszProto"]);
    (43, ["port"; "pszProto"]);
    (44, ["pszName"]);
    (45, ["proto"])])].

Definition arg_names_for_ordinal (ordinal : Z) : list string :=
  match list_find (λ p, p.1 = ordinal) ARG_NAMES_FOR_ORDINAL_FLAT with
  | Some (_, (_, n)) => n
  | None => ranged [] ARG_NAMES_FOR_ORDINAL_GROUPS ordinal
  end.

Definition starts_with (p : string) (s : string) : bool := String.prefix p s.

(** One formatted parameter of [format_call]; [debug_str] is the [{:?}] of a string. *)
Definition format_arg (read_guest_str : Z → rstring) (debug_str : rstring → rstring)
    (aname : string) (val : Z) : rstring :=
  if starts_with "psz" aname && negb (val =? 0) then
    str aname ++ str "=" ++ debug_str (read_guest_str val)
  else if starts_with "h" aname && negb (starts_with "hw" aname) then
    str aname ++ str "=" ++ dec_str val
  else str aname ++ str "=0x" ++ hex_str val.

(** [parts.join(sep)] *)
Fixpoint join (sep : rstring) (parts : list rstring) : rstring :=
  match parts with
  | [] => []
  | [p] => p
  | p :: parts => p ++ sep ++ join sep parts
  end.

(** [format_call]; [args[i]] panics past the ten words that were read. *)
Definition format_call (name : string) (ordinal : Z) (args : list Z)
    (read_guest_str : Z → rstring) (debug_str : rstring → rstring) : outcome () rstring :=
  match arg_names_for_ordinal ordinal with
  | [] => Ok (str name ++ [0x28; 0x2026; 0x29])
  | arg_names =>
    parts ← foldr (λ '(i, aname) acc,
              parts ← acc;
              val ← unwrap (idx args i);
              Ok (format_arg read_guest_str debug_str aname val :: parts))
            (Ok []) (zip (seqZ 0 (len arg_names)) arg_names);
    Ok (str name ++ str "(" ++ join (str ", ") parts ++ str ")")
  end.
