(* ===== verification/ApiRegistry.v ===== *)
(** The API registry and its dispatch (src/src/loader/api_registry.rs, api_dispatch.rs)
    and the ring buffer of recorded calls (api_ring.rs).

    A handler is kept as what it does: the [Loader] method it calls and the words of the
    guest stack it passes.  The methods themselves are parameters of the dispatch. *)
From S2P Require Import Prelude Bytes Constants GuestMem ApiTrace.

(** An argument of a handler: [a[i]], [a[i] as i32], the vcpu, the vcpu id. *)
Inductive Arg := A (i : nat) | AsI32 (i : nat) | Lit (z : Z) | Vcpu | Id.

(** The handler closures of the table: [ApiResult::Normal(l.m(..))], [l.m(..)],
    [{ l.m(..); ApiResult::Normal(0) }], [ApiResult::Normal(v)] and the three that do more:
    DosExit, NlsQueryCp and NlsMapCase. *)
Inductive Handler :=
| Normal (method : string) (args : list Arg)
| Direct (method : string) (args : list Arg)
| Perform (method : string) (args : list Arg)
| Stub (v : Z)
| Exit
| QueryCp
| MapCase.

(** [ApiEntry] *)
Record ApiEntry := mk_entry {
  ordinal : Z; module : string; name : string; argc : Z; handler : Handler;
}.

Definition REGISTRY_1 : list ApiEntry := [
  mk_entry (8) "DOSCALLS" "DosGetInfoSeg" 2 (Normal "dos_get_info_seg" [A 0; A 1]);
  mk_entry (75) "DOSCALLS" "DosQueryFileMode16" 2 (Normal "dos_query_file_mode_16" [A 0; A 1]);
  mk_entry (84) "DOSCALLS" "DosSetFileMode" 2 (Normal "dos_set_file_mode" [A 0; A 1]);
  mk_entry (110) "DOSCALLS" "DosForceDelete" 1 (Normal "dos_delete" [A 0]);
  mk_entry (111) "DOSCALLS" "DosKillThread" 1 (Normal "dos_kill_thread" [A 0]);
  mk_entry (209) "DOSCALLS" "DosSetMaxFH" 1 (Normal "dos_set_max_fh" [A 0]);
  mk_entry (210) "DOSCALLS" "DosSetVerify" 1 (Normal "dos_set_verify" [A 0]);
  mk_entry (212) "DOSCALLS" "DosError" 1 (Normal "dos_error" [A 0]);
  mk_entry (218) "DOSCALLS" "DosSetFileInfo" 4 (Normal "dos_set_file_info" [A 0; A 1; A 2; A 3]);
  mk_entry (219) "DOSCALLS" "DosSetPathInfo" 5 (Normal "dos_set_path_info" [A 0; A 1; A 2; A 3; A 4]);
  mk_entry (220) "DOSCALLS" "DosSetDefaultDisk" 1 (Normal "dos_set_default_disk" [A 0]);
  mk_entry (221) "DOSCALLS" "DosSetFHState" 2 (Normal "dos_set_fh_state" [A 0; A 1]);
  mk_entry (223) "DOSCALLS" "DosQueryPathInfo" 4 (Normal "dos_query_path_info" [A 0; A 1; A 2; A 3]);
  mk_entry (224) "DOSCALLS" "DosQueryHType" 3 (Normal "dos_query_h_type" [A 0; A 1; A 2]);
  mk_entry (225) "DOSCALLS" "DosQueryVerify" 1 (Normal "dos_query_verify" [A 0]);
  mk_entry (226) "DOSCALLS" "DosDeleteDir" 1 (Normal "dos_delete_dir" [A 0]);
  mk_entry (227) "DOSCALLS" "DosScanEnv" 2 (Normal "dos_scan_env" [A 0; A 1]);
  mk_entry (229) "DOSCALLS" "DosSleep" 1 (Normal "dos_sleep" [A 0]);
  mk_entry (230) "DOSCALLS" "DosGetDateTime" 1 (Normal "dos_get_date_time" [A 0]);
  mk_entry (231) "DOSCALLS" "DosDevConfig" 2 (Normal "dos_dev_config" [A 0; A 1]);
  mk_entry (234) "DOSCALLS" "DosExit" 2 (Exit);
  mk_entry (235) "DOSCALLS" "DosKillProcess" 2 (Normal "dos_kill_process" [A 0; A 1]);
  mk_entry (236) "DOSCALLS" "DosSetPriority" 4 (Normal "dos_set_priority" [A 0; A 1; A 2; A 3]);
  mk_entry (239) "DOSCALLS" "DosCreatePipe" 3 (Normal "dos_create_pipe" [A 0; A 1; A 2]);
  mk_entry (241) "DOSCALLS" "DosConnectNPipe" 1 (Stub 0);
  mk_entry (243) "DOSCALLS" "DosCreateNPipe" 6 (Stub 0);
  mk_entry (250) "DOSCALLS" "DosSetNPHState" 2 (Stub 0);
  mk_entry (254) "DOSCALLS" "DosResetBuffer" 1 (Normal "dos_reset_buffer" [A 0]);
  mk_entry (255) "DOSCALLS" "DosSetCurrentDir" 1 (Normal "dos_set_current_dir" [A 0]);
  mk_entry (256) "DOSCALLS" "DosSetFilePtr" 4 (Normal "dos_set_file_ptr" [A 0; AsI32 1; A 2; A 3]);
  mk_entry (257) "DOSCALLS" "DosClose" 1 (Normal "dos_close" [A 0]);
  mk_entry (258) "DOSCALLS" "DosCopy" 3 (Normal "dos_copy" [A 0; A 1; A 2]);
  mk_entry (259) "DOSCALLS" "DosDelete" 1 (Normal "dos_delete" [A 0]);
  mk_entry (260) "DOSCALLS" "DosDupHandle" 2 (Normal "dos_dup_handle" [A 0; A 1]);
  mk_entry (261) "DOSCALLS" "DosEditName" 5 (Normal "dos_edit_name" [A 0; A 1; A 2; A 3; A 4]);
  mk_entry (263) "DOSCALLS" "DosFindClose" 1 (Normal "dos_find_close" [A 0]);
  mk_entry (264) "DOSCALLS" "DosFindFirst" 7 (Normal "dos_find_first" [A 0; A 1; A 2; A 3; A 4; A 5; A 6]);
  mk_entry (265) "DOSCALLS" "DosFindNext" 4 (Normal "dos_find_next" [A 0; A 1; A 2; A 3]);
  mk_entry (267) "DOSCALLS" "DOS16REQUESTVDD" 3 (Stub 0);
  mk_entry (270) "DOSCALLS" "DosCreateDir" 2 (Normal "dos_create_dir" [A 0]);
  mk_entry (271) "DOSCALLS" "DosMove" 2 (Normal "dos_move" [A 0; A 1]);
  mk_entry (272) "DOSCALLS" "DosSetFileSize" 2 (Normal "dos_set_file_size" [A 0; A 1]);
  mk_entry (273) "DOSCALLS" "DosOpen" 7 (Normal "dos_open" [A 0; A 1; A 2; A 5; A 6]);
  mk_entry (274) "DOSCALLS" "DosQueryCurrentDir" 3 (Normal "dos_query_current_dir" [A 0; A 1; A 2]);
  mk_entry (275) "DOSCALLS" "DosQueryCurrentDisk" 2 (Normal "dos_query_current_disk" [A 0; A 1]);
  mk_entry (276) "DOSCALLS" "DosQueryFHState" 2 (Normal "dos_query_fh_state" [A 0; A 1]);
  mk_entry (277) "DOSCALLS" "DosQueryFSAttach" 5 (Normal "dos_query_fs_attach" [A 0; A 1; A 2; A 3; A 4]);
  mk_entry (278) "DOSCALLS" "DosQueryFSInfo" 4 (Normal "dos_query_fs_info" [A 0; A 1; A 2; A 3]);
  mk_entry (279) "DOSCALLS" "DosQueryFileInfo" 4 (Normal "dos_query_file_info" [A 0; A 1; A 2; A 3]);
  mk_entry (280) "DOSCALLS" "DosWaitChild" 5 (Normal "dos_wait_child" [A 0; A 1; A 2; A 3; A 4]);
  mk_entry (281) "DOSCALLS" "DosRead" 4 (Normal "dos_read" [A 0; A 1; A 2; A 3]);
  mk_entry (282) "DOSCALLS" "DosWrite" 4 (Normal "dos_write" [A 0; A 1; A 2; A 3]);
  mk_entry (283) "DOSCALLS" "DosExecPgm" 7 (Normal "dos_exec_pgm" [A 0; A 1; A 2; A 3; A 4; A 5; A 6]);
  mk_entry (284) "DOSCALLS" "DosDevIOCtl" 9 (Normal "dos_dev_ioctl" [A 0; A 1; A 2; A 3; A 4; A 5; A 6; A 7; A 8]);
  mk_entry (285) "DOSCALLS" "DosFSCtl" 7 (Stub 0);
  mk_entry (286) "DOSCALLS" "DosBeep" 2 (Normal "dos_beep" [A 0; A 1]);
  mk_entry (289) "DOSCALLS" "DosSetProcessCp" 1 (Normal "dos_set_process_cp" [A 0]);
  mk_entry (291) "DOSCALLS" "DosQueryCp" 3 (Normal "dos_query_cp" [A 0; A 1; A 2]);
  mk_entry (292) "DOSCALLS" "DosSetDateTime" 1 (Normal "dos_set_date_time" [A 0])].

Definition REGISTRY_2 : list ApiEntry := [
  mk_entry (299) "DOSCALLS" "DosAllocMem" 2 (Normal "dos_alloc_mem" [A 0; A 1]);
  mk_entry (300) "DOSCALLS" "DosAllocSharedMem" 4 (Normal "dos_alloc_shared_mem" [A 0; A 1; A 2; A 3]);
  mk_entry (301) "DOSCALLS" "DosGetNamedSharedMem" 3 (Normal "dos_get_named_shared_mem" [A 0; A 1; A 2]);
  mk_entry (302) "DOSCALLS" "DosGetSharedMem" 2 (Normal "dos_get_shared_mem" [A 0; A 1]);
  mk_entry (304) "DOSCALLS" "DosFreeMem" 1 (Normal "dos_free_mem" [A 0]);
  mk_entry (305) "DOSCALLS" "DosSetMem" 3 (Normal "dos_set_mem" [A 0; A 1; A 2]);
  mk_entry (306) "DOSCALLS" "DosQueryMem" 3 (Normal "dos_query_mem" [A 0; A 1; A 2]);
  mk_entry (311) "DOSCALLS" "DosCreateThread" 5 (Normal "dos_create_thread" [Id; A 0; A 1; A 2; A 4]);
  mk_entry (312) "DOSCALLS" "DosGetInfoBlocks" 2 (Normal "dos_get_info_blocks" [Vcpu; A 0; A 1]);
  mk_entry (317) "DOSCALLS" "DosDebug" 1 (Stub 87);
  mk_entry (318) "DOSCALLS" "DosLoadModule" 4 (Direct "dos_load_module" [A 0; A 1; A 2; A 3]);
  mk_entry (319) "DOSCALLS" "DosQueryModuleHandle" 2 (Normal "dos_query_module_handle" [A 0; A 1]);
  mk_entry (321) "DOSCALLS" "DosQueryProcAddr" 4 (Normal "dos_query_proc_addr" [A 0; A 1; A 2; A 3]);
  mk_entry (322) "DOSCALLS" "DosFreeModule" 1 (Direct "dos_free_module" [A 0]);
  mk_entry (323) "DOSCALLS" "DosQueryAppType" 2 (Normal "dos_query_app_type" [A 0; A 1]);
  mk_entry (324) "DOSCALLS" "DosCreateEventSem" 4 (Normal "dos_create_event_sem" [A 0; A 1; A 2; A 3]);
  mk_entry (325) "DOSCALLS" "DosOpenEventSem" 2 (Normal "dos_open_event_sem" [A 0; A 1]);
  mk_entry (326) "DOSCALLS" "DosCloseEventSem" 1 (Normal "dos_close_event_sem" [A 0]);
  mk_entry (328) "DOSCALLS" "DosPostEventSem" 1 (Normal "dos_post_event_sem" [A 0]);
  mk_entry (329) "DOSCALLS" "DosWaitEventSem" 2 (Normal "dos_wait_event_sem" [A 0; A 1]);
  mk_entry (331) "DOSCALLS" "DosCreateMutexSem" 4 (Normal "dos_create_mutex_sem" [A 0; A 1; A 2; A 3]);
  mk_entry (332) "DOSCALLS" "DosOpenMutexSem" 2 (Normal "dos_open_mutex_sem" [A 0; A 1]);
  mk_entry (333) "DOSCALLS" "DosCloseMutexSem" 1 (Normal "dos_close_mutex_sem" [A 0]);
  mk_entry (334) "DOSCALLS" "DosRequestMutexSem" 2 (Normal "dos_request_mutex_sem" [Id; A 0; A 1]);
  mk_entry (335) "DOSCALLS" "DosReleaseMutexSem" 1 (Normal "dos_release_mutex_sem" [Id; A 0]);
  mk_entry (337) "DOSCALLS" "DosCreateMuxWaitSem" 5 (Normal "dos_create_mux_wait_sem" [A 0; A 1; A 2; A 3; A 4]);
  mk_entry (339) "DOSCALLS" "DosCloseMuxWaitSem" 1 (Normal "dos_close_mux_wait_sem" [A 0]);
  mk_entry (340) "DOSCALLS" "DosWaitMuxWaitSem" 3 (Normal "dos_wait_mux_wait_sem" [Id; A 0; A 1; A 2]);
  mk_entry (342) "DOSCALLS" "DosDeleteMuxWaitSem" 2 (Stub 0);
  mk_entry (348) "DOSCALLS" "DosQuerySysInfo" 4 (Normal "dos_query_sys_info" [A 0; A 1; A 2; A 3]);
  mk_entry (349) "DOSCALLS" "DosWaitThread" 2 (Normal "dos_wait_thread" [Id; A 0]);
  mk_entry (352) "DOSCALLS" "DosGetResource" 4 (Normal "dos_get_resource" [A 0; A 1; A 2; A 3]);
  mk_entry (353) "DOSCALLS" "DosFreeResource" 1 (Normal "dos_free_resource" [A 0]);
  mk_entry (354) "DOSCALLS" "DosSetExceptionHandler" 1 (Normal "dos_set_exception_handler" [A 0]);
  mk_entry (355) "DOSCALLS" "DosUnsetExceptionHandler" 1 (Normal "dos_unset_exception_handler" [A 0]);
  mk_entry (356) "DOSCALLS" "DosRaiseException" 1 (Direct "dos_raise_exception" [A 0]);
  mk_entry (357) "DOSCALLS" "DosUnwindException" 4 (Normal "dos_unwind_exception" [A 0; A 1; A 2; A 3]);
  mk_entry (368) "DOSCALLS" "DosQuerySysState" 5 (Normal "dos_query_sys_state" [A 0; A 1; A 2; A 3; A 4]);
  mk_entry (372) "DOSCALLS" "DosEnumAttribute" 7 (Normal "dos_enum_attribute" [A 0; A 1; A 2; A 3; A 4; A 5; A 6]);
  mk_entry (373) "DOSCALLS" "DosQueryDBCSEnv" 3 (Normal "dos_query_dbcs_env" [A 0; A 1; A 2]);
  mk_entry (378) "DOSCALLS" "DosSetSignalExceptionFocus" 1 (Normal "dos_set_signal_exception_focus" [A 0]);
  mk_entry (380) "DOSCALLS" "DosEnterMustComplete" 1 (Normal "dos_enter_must_complete" [A 0]);
  mk_entry (381) "DOSCALLS" "DosExitMustComplete" 1 (Normal "dos_exit_must_complete" [A 0]);
  mk_entry (382) "DOSCALLS" "DosSetRelMaxFH" 2 (Normal "dos_set_rel_max_fh" [A 0; A 1]);
  mk_entry (397) "DOSCALLS" "DosQueryCtryInfo" 4 (Normal "dos_query_ctry_info" [A 0; A 1; A 2; A 3]);
  mk_entry (415) "DOSCALLS" "DosShutdown" 1 (Stub 0);
  mk_entry (418) "DOSCALLS" "DosAcknowledgeSignalException" 1 (Normal "dos_acknowledge_signal_exception" [A 0]);
  mk_entry (425) "DOSCALLS" "DosFlatToSel" 1 (Normal "dos_flat_to_sel" [A 0]);
  mk_entry (426) "DOSCALLS" "DosSelToFlat" 1 (Normal "dos_sel_to_flat" [A 0]);
  mk_entry (428) "DOSCALLS" "DosSetFileLocks" 5 (Normal "dos_set_file_locks" [A 0; A 1; A 2; A 3; A 4]);
  mk_entry (572) "DOSCALLS" "DosQueryResourceSize" 4 (Normal "dos_query_resource_size" [A 0; A 1; A 2; A 3]);
  mk_entry (639) "DOSCALLS" "DosProtectSetFileLocks" 6 (Normal "dos_protect_set_file_locks" [A 0; A 1; A 2; A 3; A 4; A 5]);
  mk_entry (873) "DOSCALLS" "DosSetExtLIBPATH" 2 (Normal "dos_set_ext_libpath" [A 0; A 1]);
  mk_entry (874) "DOSCALLS" "DosQueryExtLIBPATH" 2 (Normal "dos_query_ext_libpath" [A 0; A 1]);
  mk_entry (1024 + 9) "QUECALLS" "DosReadQueue" 8 (Normal "dos_read_queue" [A 0; A 1; A 2; A 3; A 4; A 5; A 6; A 7]);
  mk_entry (1024 + 10) "QUECALLS" "DosPurgeQueue" 1 (Perform "dos_purge_queue" [A 0]);
  mk_entry (1024 + 11) "QUECALLS" "DosCloseQueue" 1 (Normal "dos_close_queue" [A 0])].

Definition REGISTRY_3 : list ApiEntry := [
  mk_entry (1024 + 12) "QUECALLS" "DosQueryQueue" 2 (Normal "dos_query_queue" [A 0; A 1]);
  mk_entry (1024 + 14) "QUECALLS" "DosWriteQueue" 5 (Normal "dos_write_queue" [A 0; A 1; A 2; A 3; A 4]);
  mk_entry (1024 + 15) "QUECALLS" "DosOpenQueue" 3 (Normal "dos_open_queue" [A 0; A 1; A 2]);
  mk_entry (1024 + 16) "QUECALLS" "DosCreateQueue" 3 (Normal "dos_create_queue" [A 0; A 1; A 2]);
  mk_entry (NLS_BASE + 5) "NLS" "NlsQueryCp" 3 (QueryCp);
  mk_entry (NLS_BASE + 6) "NLS" "NlsQueryCtryInfo" 4 (Normal "dos_query_ctry_info" [A 0; A 1; A 2; A 3]);
  mk_entry (NLS_BASE + 7) "NLS" "NlsMapCase" 3 (MapCase);
  mk_entry (NLS_BASE + 8) "NLS" "NlsGetDBCSEv" 3 (Normal "dos_query_dbcs_env" [A 0; A 1; A 2]);
  mk_entry (MSG_BASE + 3) "MSG" "DosPutMessage" 3 (Normal "dos_put_message" [A 0; A 1; A 2]);
  mk_entry (MSG_BASE + 6) "MSG" "DosGetMessage" 7 (Normal "dos_get_message" [A 0; A 1; A 2; A 3; A 4; A 5; A 6]);
  mk_entry (MDM_BASE + 1) "MDM" "mciSendCommand" 4 (Normal "mci_send_command" [A 0; A 1; A 2; A 3]);
  mk_entry (MDM_BASE + 2) "MDM" "mciSendString" 4 (Normal "mci_send_string" [A 0; A 1; A 2; A 3]);
  mk_entry (MDM_BASE + 3) "MDM" "mciFreeBlock" 1 (Normal "mci_free_block" [A 0]);
  mk_entry (MDM_BASE + 4) "MDM" "mciGetLastError" 3 (Normal "mci_get_last_error" [A 0; A 1; A 2]);
  mk_entry (UCONV_BASE + 1) "UCONV" "UniCreateUconvObject" 2 (Normal "uni_create_uconv_object" [A 0; A 1]);
  mk_entry (UCONV_BASE + 2) "UCONV" "UniFreeUconvObject" 1 (Normal "uni_free_uconv_object" [A 0]);
  mk_entry (UCONV_BASE + 3) "UCONV" "UniUconvToUcs" 6 (Normal "uni_uconv_to_ucs" [A 0; A 1; A 2; A 3; A 4; A 5]);
  mk_entry (UCONV_BASE + 4) "UCONV" "UniUconvFromUcs" 6 (Normal "uni_uconv_from_ucs" [A 0; A 1; A 2; A 3; A 4; A 5]);
  mk_entry (UCONV_BASE + 6) "UCONV" "UniMapCpToUcsCp" 3 (Normal "uni_map_cp_to_ucs_cp" [A 0; A 1; A 2]);
  mk_entry (SO32DLL_BASE + 1) "SO32DLL" "accept" 3 (Normal "so_accept" [A 0; A 1; A 2]);
  mk_entry (SO32DLL_BASE + 2) "SO32DLL" "bind" 3 (Normal "so_bind" [A 0; A 1; A 2]);
  mk_entry (SO32DLL_BASE + 3) "SO32DLL" "connect" 3 (Normal "so_connect" [A 0; A 1; A 2]);
  mk_entry (SO32DLL_BASE + 4) "SO32DLL" "gethostid" 0 (Normal "so_gethostid" []);
  mk_entry (SO32DLL_BASE + 5) "SO32DLL" "gethostname" 2 (Normal "so_gethostname" [A 0; A 1]);
  mk_entry (SO32DLL_BASE + 6) "SO32DLL" "getpeername" 3 (Normal "so_getpeername" [A 0; A 1; A 2]);
  mk_entry (SO32DLL_BASE + 7) "SO32DLL" "getsockname" 3 (Normal "so_getsockname" [A 0; A 1; A 2]);
  mk_entry (SO32DLL_BASE + 8) "SO32DLL" "getsockopt" 5 (Normal "so_getsockopt" [A 0; A 1; A 2; A 3; A 4]);
  mk_entry (SO32DLL_BASE + 10) "SO32DLL" "listen" 2 (Normal "so_listen" [A 0; A 1]);
  mk_entry (SO32DLL_BASE + 11) "SO32DLL" "recv" 4 (Normal "so_recv" [A 0; A 1; A 2; A 3]);
  mk_entry (SO32DLL_BASE + 12) "SO32DLL" "recvfrom" 6 (Normal "so_recvfrom" [A 0; A 1; A 2; A 3; A 4; A 5]);
  mk_entry (SO32DLL_BASE + 13) "SO32DLL" "select" 5 (Normal "so_select" [A 0; A 1; A 2; A 3; A 4]);
  mk_entry (SO32DLL_BASE + 14) "SO32DLL" "send" 4 (Normal "so_send" [A 0; A 1; A 2; A 3]);
  mk_entry (SO32DLL_BASE + 15) "SO32DLL" "sendto" 6 (Normal "so_sendto" [A 0; A 1; A 2; A 3; A 4; A 5]);
  mk_entry (SO32DLL_BASE + 16) "SO32DLL" "setsockopt" 5 (Normal "so_setsockopt" [A 0; A 1; A 2; A 3; A 4]);
  mk_entry (SO32DLL_BASE + 17) "SO32DLL" "shutdown" 2 (Normal "so_shutdown" [A 0; A 1]);
  mk_entry (SO32DLL_BASE + 18) "SO32DLL" "sock_errno" 0 (Normal "so_sock_errno" []);
  mk_entry (SO32DLL_BASE + 19) "SO32DLL" "socket" 3 (Normal "so_socket" [A 0; A 1; A 2]);
  mk_entry (SO32DLL_BASE + 20) "SO32DLL" "soclose" 1 (Normal "so_close" [A 0]);
  mk_entry (SO32DLL_BASE + 21) "SO32DLL" "psock_errno" 1 (Normal "so_psock_errno" [A 0]);
  mk_entry (SO32DLL_BASE + 22) "SO32DLL" "sock_init" 0 (Normal "so_sock_init" []);
  mk_entry (SO32DLL_BASE + 40) "SO32DLL" "gethostbyname" 1 (Normal "so_gethostbyname" [A 0]);
  mk_entry (SO32DLL_BASE + 41) "SO32DLL" "gethostbyaddr" 3 (Normal "so_gethostbyaddr" [A 0; A 1; A 2]);
  mk_entry (SO32DLL_BASE + 42) "SO32DLL" "getservbyname" 2 (Normal "so_getservbyname" [A 0; A 1]);
  mk_entry (SO32DLL_BASE + 43) "SO32DLL" "getservbyport" 2 (Normal "so_getservbyport" [A 0; A 1]);
  mk_entry (SO32DLL_BASE + 44) "SO32DLL" "getprotobyname" 1 (Normal "so_getprotobyname" [A 0]);
  mk_entry (SO32DLL_BASE + 45) "SO32DLL" "getprotobynumber" 1 (Normal "so_getprotobynumber" [A 0]);
  mk_entry (TCP32DLL_BASE + 1) "TCP32DLL" "accept" 3 (Normal "so_accept" [A 0; A 1; A 2]);
  mk_entry (TCP32DLL_BASE + 2) "TCP32DLL" "bind" 3 (Normal "so_bind" [A 0; A 1; A 2]);
  mk_entry (TCP32DLL_BASE + 3) "TCP32DLL" "connect" 3 (Normal "so_connect" [A 0; A 1; A 2]);
  mk_entry (TCP32DLL_BASE + 6) "TCP32DLL" "getpeername" 3 (Normal "so_getpeername" [A 0; A 1; A 2]);
  mk_entry (TCP32DLL_BASE + 7) "TCP32DLL" "getsockname" 3 (Normal "so_getsockname" [A 0; A 1; A 2]);
  mk_entry (TCP32DLL_BASE + 8) "TCP32DLL" "getsockopt" 5 (Normal "so_getsockopt" [A 0; A 1; A 2; A 3; A 4]);
  mk_entry (TCP32DLL_BASE + 10) "TCP32DLL" "listen" 2 (Normal "so_listen" [A 0; A 1]);
  mk_entry (TCP32DLL_BASE + 11) "TCP32DLL" "recv" 4 (Normal "so_recv" [A 0; A 1; A 2; A 3]);
  mk_entry (TCP32DLL_BASE + 12) "TCP32DLL" "recvfrom" 6 (Normal "so_recvfrom" [A 0; A 1; A 2; A 3; A 4; A 5]);
  mk_entry (TCP32DLL_BASE + 13) "TCP32DLL" "select" 5 (Normal "so_select" [A 0; A 1; A 2; A 3; A 4])].

Definition REGISTRY_4 : list ApiEntry := [
  mk_entry (TCP32DLL_BASE + 14) "TCP32DLL" "send" 4 (Normal "so_send" [A 0; A 1; A 2; A 3]);
  mk_entry (TCP32DLL_BASE + 15) "TCP32DLL" "sendto" 6 (Normal "so_sendto" [A 0; A 1; A 2; A 3; A 4; A 5]);
  mk_entry (TCP32DLL_BASE + 16) "TCP32DLL" "setsockopt" 5 (Normal "so_setsockopt" [A 0; A 1; A 2; A 3; A 4]);
  mk_entry (TCP32DLL_BASE + 17) "TCP32DLL" "shutdown" 2 (Normal "so_shutdown" [A 0; A 1]);
  mk_entry (TCP32DLL_BASE + 18) "TCP32DLL" "sock_errno" 0 (Normal "so_sock_errno" []);
  mk_entry (TCP32DLL_BASE + 19) "TCP32DLL" "socket" 3 (Normal "so_socket" [A 0; A 1; A 2]);
  mk_entry (TCP32DLL_BASE + 20) "TCP32DLL" "soclose" 1 (Normal "so_close" [A 0]);
  mk_entry (TCP32DLL_BASE + 22) "TCP32DLL" "sock_init" 0 (Normal "so_sock_init" []);
  mk_entry (TCP32DLL_BASE + 40) "TCP32DLL" "gethostbyname" 1 (Normal "so_gethostbyname" [A 0]);
  mk_entry (TCP32DLL_BASE + 41) "TCP32DLL" "gethostbyaddr" 3 (Normal "so_gethostbyaddr" [A 0; A 1; A 2]);
  mk_entry (TCP32DLL_BASE + 42) "TCP32DLL" "getservbyname" 2 (Normal "so_getservbyname" [A 0; A 1]);
  mk_entry (TCP32DLL_BASE + 43) "TCP32DLL" "getservbyport" 2 (Normal "so_getservbyport" [A 0; A 1]);
  mk_entry (TCP32DLL_BASE + 44) "TCP32DLL" "getprotobyname" 1 (Normal "so_getprotobyname" [A 0]);
  mk_entry (TCP32DLL_BASE + 45) "TCP32DLL" "getprotobynumber" 1 (Normal "so_getprotobynumber" [A 0])].

Definition REGISTRY : list ApiEntry :=
  REGISTRY_1 ++ REGISTRY_2 ++ REGISTRY_3 ++ REGISTRY_4.

Definition STUB_ORDINALS : list Z := [241; 243; 250; 267; 285; 317; 342; 356; 357; 415].

(** [binary_search_by_key]: the part [base, base + size) of the table is left. *)
Fixpoint binary_search (fuel : nat) (l : list ApiEntry) (key base size : Z) : option Z :=
  match fuel with
  | O => None
  | S fuel =>
    if size =? 0 then None
    else
      let half := size / 2 in
      let mid := base + half in
      match idx l mid with
      | None => None
      | Some e =>
        if ordinal e =? key then Some mid
        else if ordinal e <? key then binary_search fuel l key (mid + 1) (size - half - 1)
        else binary_search fuel l key base half
      end
  end.
(** The range at least halves in each turn: 64 turns are enough for any table. *)
Definition find (o : Z) : option ApiEntry :=
  i ← binary_search 64 REGISTRY o 0 (len REGISTRY);
  idx REGISTRY i.

Definition find_by_module_and_name (m n : string) : option Z :=
  (λ p, ordinal p.2) <$> list_find (λ e, module e = m ∧ name e = n) REGISTRY.

(** * The ring of recorded calls *)

Definition CAPACITY := 256.

(** [ApiCallRecord] *)
Record ApiCallRecord := mk_call {
  r_ordinal : Z; r_module : string; r_name : string; call_str : rstring; ret_val : Z; seq : Z;
}.
(** [ApiRingBuffer] *)
Record ApiRingBuffer := mk_ring { records : list ApiCallRecord; next_seq : Z }.
Definition ring_new : ApiRingBuffer := mk_ring [] 0.
Definition with_seq (r : ApiCallRecord) (s : Z) : ApiCallRecord :=
  mk_call (r_ordinal r) (r_module r) (r_name r) (call_str r) (ret_val r) s.
Definition ring_push (b : ApiRingBuffer) (r : ApiCallRecord) : ApiRingBuffer :=
  let r := with_seq r (next_seq b) in
  let kept := if CAPACITY <=? len (records b) then tail (records b) else records b in
  mk_ring (kept ++ [r]) (wrapping_add M64 (next_seq b) 1).
Definition snapshot (b : ApiRingBuffer) : list ApiCallRecord := records b.

(** * Dispatch *)

(** [FaultContext] *)
Record FaultContext := mk_fault {
  eax : Z; ebx : Z; ecx : Z; edx : Z; esi : Z; edi : Z; ebp : Z;
  esp : Z; eip : Z; eflags : Z;
  cs : Z; ds : Z; es : Z; fs : Z; gs : Z; ss : Z;
}.

(** [ApiResult] *)
Inductive ApiResult :=
| RNormal (v : Z)
| Callback (wnd_proc hwnd msg mp1 mp2 : Z)
| WmCreateCallback (wnd_proc hwnd h_frame : Z)
| CallGuest (addr hmod phmod : Z) (object_bases : list Z)
| DlgRunLoop (dlg_proc hwnd_dlg hmq : Z)
| ExceptionDispatch (handler_addr exc_report reg_rec ctx_record : Z) (saved : FaultContext)
                    (next_handler : Z) (guest_allocs : list Z).

(** The subsystems with a dispatcher of their own. *)
Inductive Subsystem := PMWIN | PMGPI | KBDCALLS | VIOCALLS.

(** Where an ordinal without a registry entry goes. *)
Definition sub_dispatch (o : Z) : option (Subsystem * Z) :=
  if in_range PMWIN_BASE (PMGPI_BASE - 1) o then Some (PMWIN, o - PMWIN_BASE)
  else if in_range PMGPI_BASE (KBDCALLS_BASE - 1) o then Some (PMGPI, o - PMGPI_BASE)
  else if in_range KBDCALLS_BASE (VIOCALLS_BASE - 1) o then Some (KBDCALLS, o - KBDCALLS_BASE)
  else if in_range VIOCALLS_BASE (SESMGR_BASE - 1) o then Some (VIOCALLS, o - VIOCALLS_BASE)
  else None.

(** The shared state the dispatch itself touches. *)
Record SharedState := mk_shared {
  guest_mem : GuestMemory;
  api_ring : ApiRingBuffer;
  exit_code : Z;
  exit_requested : bool;
  active_codepage : Z;
}.

(** [x as i32] *)
Definition as_i32 (x : Z) : Z := if x mod M32 <? 2147483648 then x mod M32 else x mod M32 - M32.

Section dispatch.
Context {B : Build} {E : Type}.
(** The [Loader] methods by name, with the words they are given, for the vcpu [id]. *)
Context (method : string → Z → list Z → SharedState → outcome E (ApiResult * SharedState)).
Context (subsystem : Subsystem → Z → Z → SharedState → outcome E (ApiResult * SharedState)).
(** The decoder of guest strings and the [{:?}] of a string, for the call record. *)
Context (read_str : SharedState → Z → rstring) (debug_str : rstring → rstring).

Definition arg_value (id : Z) (args : list Z) (a : Arg) : Z :=
  match a with
  | A i => nth i args 0
  | AsI32 i => as_i32 (nth i args 0)
  | Lit z => z
  | Vcpu | Id => id
  end.

(** The number in an [ApiResult::Normal]. *)
Definition normal_value (r : ApiResult) : Z := match r with RNormal v => v | _ => 0 end.

(** [(entry.handler)(self, vcpu, vcpu_id, args)] *)
Definition run_handler (h : Handler) (id : Z) (args : list Z) (s : SharedState)
    : outcome E (ApiResult * SharedState) :=
  let values := map (arg_value id args) in
  match h with
  | Normal m l | Direct m l => method m id (values l) s
  | Perform m l => '(_, s) ← method m id (values l) s; Ok (RNormal 0, s)
  | Stub v => Ok (RNormal v, s)
  | Exit =>
    Ok (RNormal 0, mk_shared (guest_mem s) (api_ring s) (as_i32 (nth 1 args 0)) true
                             (active_codepage s))
  | QueryCp =>
    if 44 <=? nth 0 args 0 then
      method "dos_query_ctry_info" id [nth 0 args 0; nth 1 args 0; nth 2 args 0; 0] s
    else method "dos_query_cp" id [nth 0 args 0; nth 1 args 0; nth 2 args 0] s
  | MapCase =>
    '(_, s) ← method "map_case_guest_buf" id [nth 2 args 0; nth 0 args 0; active_codepage s] s;
    Ok (RNormal 0, s)
  end.

(** The ten words of [args], read from the guest stack. *)
Definition read_args (m : GuestMemory) (esp : Z) : list Z :=
  map (λ i, default 0 (read32 m (as_u M32 (esp + 4 + i * 4)))) (seqZ 0 10).

(** [Loader::handle_api_call_ex] *)
Definition handle_api_call_ex (id esp o : Z) (s : SharedState)
    : outcome E (ApiResult * SharedState) :=
  _ ← unwrap (read32 (guest_mem s) (as_u M32 esp));
  let api_name := ordinal_to_name o in
  let api_mod := module_for_ordinal o in
  let args := read_args (guest_mem s) esp in
  call ← match format_call api_name o args (read_str s) debug_str with
         | Ok c => Ok c
         | _ => Panic
         end;
  '(result, s) ←
    match find o with
    | Some e => run_handler (handler e) id args s
    | None =>
      match sub_dispatch o with
      | Some (sub, o') => subsystem sub id o' s
      | None => Ok (RNormal 0, s)
      end
    end;
  let record := mk_call o api_mod api_name call (normal_value result) 0 in
  Ok (result, mk_shared (guest_mem s) (ring_push (api_ring s) record) (exit_code s)
                        (exit_requested s) (active_codepage s)).
End dispatch.

(** * Properties *)

Definition ordinals : list Z := ordinal <$> REGISTRY.

(** Strictly increasing, as a boolean. *)
Fixpoint increasing (l : list Z) : bool :=
  match l with
  | a :: ((b :: _) as l') => (a <? b) && increasing l'
  | _ => true
  end.
Lemma increasing_sorted l : increasing l = true → StronglySorted Z.lt l.
Proof.
  intros H. apply Sorted.Sorted_StronglySorted; [intros x y z; apply Z.lt_trans|]. revert H.
  induction l as [|a [|b l] IH]; cbn [increasing]; [constructor|repeat constructor|].
  intros [Hab Hl]%andb_true_iff. constructor; [by apply IH|]. constructor. by apply Z.ltb_lt.
Qed.
Lemma REGISTRY_sorted : StronglySorted Z.lt ordinals.
Proof. apply increasing_sorted. vm_compute. reflexivity. Qed.

Lemma sorted_lookup l i j x y :
  StronglySorted Z.lt l → (i < j)%nat → l !! i = Some x → l !! j = Some y → x < y.
Proof.
  intros Hs. revert i j. induction Hs as [|a l Hs IH Ha]; intros [|i] [|j] Hij Hx Hy;
    simplify_eq/=; try lia.
  - rewrite Forall_forall in Ha. apply Ha. by eapply list_elem_of_lookup_2.
  - apply (IH i j); [lia|done..].
Qed.

(** Binary search on a sorted table finds the entry of a key iff there is one: [lo, lo + n)
    is where it can be. *)
Lemma binary_search_spec fuel l key lo n :
  StronglySorted Z.lt (ordinal <$> l) → 0 ≤ lo → 0 ≤ n → lo + n ≤ len l →
  n < 2 ^ (Z.of_nat fuel - 1) →
  (∀ i e, l !! i = Some e → ordinal e = key → lo ≤ Z.of_nat i < lo + n) →
  match binary_search fuel l key lo n with
  | Some i => ∃ e, idx l i = Some e ∧ ordinal e = key
  | None => ∀ i e, l !! i = Some e → ordinal e ≠ key
  end.
Proof.
  intros Hs. revert lo n. induction fuel as [|fuel IH]; intros lo n Hlo Hn Hl Hf Hin.
  { cbn in Hf. replace (2 ^ (0 - 1)) with 0 in Hf by done. lia. }
  cbn [binary_search]. destruct (Z.eqb_spec n 0) as [->|Hn0].
  { intros i e Hi He. specialize (Hin i e Hi He). lia. }
  pose proof (Z.div_mod n 2 ltac:(lia)) as Hdiv. pose proof (Z.mod_pos_bound n 2 ltac:(lia)).
  set (half := n / 2) in *. destruct fuel as [|fuel'].
  { cbn in Hf. lia. }
  assert (half < 2 ^ (Z.of_nat (S fuel') - 1)).
  { replace (Z.of_nat (S (S fuel')) - 1) with (Z.succ (Z.of_nat (S fuel') - 1)) in Hf by lia.
    rewrite Z.pow_succ_r in Hf by lia. lia. }
  destruct (idx_is_Some l (lo + half)) as (e & He & _); [lia|]. rewrite He.
  rewrite idx_lookup in He by lia.
  assert (Hcmp : ∀ i x, l !! i = Some x → ordinal x = key →
            (ordinal e < key → lo + half < Z.of_nat i) ∧
            (key < ordinal e → Z.of_nat i < lo + half)).
  { intros i x Hi Hx. split; intros Hlt; apply Znot_ge_lt; intros Hge.
    - destruct (decide (Z.of_nat i = lo + half)) as [Heq|].
      + rewrite <- Heq, Nat2Z.id in He. assert (e = x) by congruence. subst. lia.
      + pose proof (sorted_lookup (ordinal <$> l) i (Z.to_nat (lo + half)) (ordinal x) (ordinal e)
          Hs ltac:(lia)) as Hlt'.
        rewrite !list_lookup_fmap, Hi, He in Hlt'. specialize (Hlt' eq_refl eq_refl). lia.
    - destruct (decide (Z.of_nat i = lo + half)) as [Heq|].
      + rewrite <- Heq, Nat2Z.id in He. assert (e = x) by congruence. subst. lia.
      + pose proof (sorted_lookup (ordinal <$> l) (Z.to_nat (lo + half)) i (ordinal e) (ordinal x)
          Hs ltac:(lia)) as Hlt'.
        rewrite !list_lookup_fmap, Hi, He in Hlt'. specialize (Hlt' eq_refl eq_refl). lia. }
  destruct (Z.eqb_spec (ordinal e) key) as [Hk|Hk].
  { exists e. split; [|done]. by rewrite idx_lookup by lia. }
  destruct (Z.ltb_spec (ordinal e) key).
  - apply IH; try lia. intros i x Hi Hx. specialize (Hin i x Hi Hx).
    specialize (Hcmp i x Hi Hx). lia.
  - apply IH; try lia. intros i x Hi Hx. specialize (Hin i x Hi Hx).
    specialize (Hcmp i x Hi Hx). lia.
Qed.

Lemma find_lookup (o : Z) (e : ApiEntry) :
  (find o = Some e ↔ e ∈ REGISTRY ∧ ordinal e = o) ∧
  (find o = None ↔ ∀ e', e' ∈ REGISTRY → ordinal e' ≠ o) ∧ NoDup ordinals.
Proof.
  pose proof (binary_search_spec 64 REGISTRY o 0 (len REGISTRY) REGISTRY_sorted) as Hb.
  assert (NoDup ordinals) as Hnd.
  { apply NoDup_alt. intros i j x Hi Hj. destruct (Nat.lt_trichotomy i j) as [Hlt|[->|Hlt]];
      [|done|]; pose proof (sorted_lookup _ _ _ _ _ REGISTRY_sorted Hlt Hi Hj) as Hx ||
      pose proof (sorted_lookup _ _ _ _ _ REGISTRY_sorted Hlt Hj Hi) as Hx; lia. }
  assert (∀ e1 e2, e1 ∈ REGISTRY → e2 ∈ REGISTRY → ordinal e1 = ordinal e2 → e1 = e2) as Hinj.
  { intros e1 e2 [i Hi]%list_elem_of_lookup [j Hj]%list_elem_of_lookup Heq.
    assert (i = j) as ->; [|congruence]. eapply (NoDup_lookup ordinals i j); [done| |].
    - unfold ordinals. by rewrite list_lookup_fmap, Hi.
    - unfold ordinals. rewrite list_lookup_fmap, Hj. simpl. by rewrite Heq. }
  unfold find. pose proof (len_nonneg REGISTRY).
  assert (len REGISTRY < 2 ^ (Z.of_nat 64 - 1)) by (vm_compute; done).
  specialize (Hb ltac:(lia) ltac:(lia) ltac:(lia) ltac:(lia)).
  destruct (binary_search 64 REGISTRY o 0 (len REGISTRY)) as [i|]; cbn [mbind option_bind].
  - destruct Hb as (e' & He' & Ho).
    { intros i' x Hi _. apply lookup_lt_Some in Hi. unfold len. lia. }
    rewrite He'. assert (e' ∈ REGISTRY) as Hin.
    { unfold idx in He'. destruct (_ && _); [|done]. by eapply list_elem_of_lookup_2. }
    split_and!; [|naive_solver|done]. split; [naive_solver|].
    intros [He Hoe]. f_equal. apply Hinj; congruence.
  - assert (∀ e', e' ∈ REGISTRY → ordinal e' ≠ o) as Hno.
    { intros e' [k Hk]%list_elem_of_lookup. eapply Hb; [|done].
      intros i' x Hi _. apply lookup_lt_Some in Hi. unfold len. lia. }
    split_and!; naive_solver.
Qed.
Lemma find_ordinal o e : find o = Some e ↔ e ∈ REGISTRY ∧ ordinal e = o.
Proof. apply find_lookup. Qed.

(** The registry lookup is exact: binary search finds, for an ordinal, the one entry of
    the table that carries it, and answers [None] when no entry does; in particular the table
    is strictly sorted and no two entries share an ordinal. *)
Theorem find_exact (o : Z) (e : ApiEntry) :
  (find o = Some e ↔ e ∈ REGISTRY ∧ ordinal e = o) ∧
  (find o = None ↔ ∀ e', e' ∈ REGISTRY → ordinal e' ≠ o) ∧ NoDup ordinals.
Proof. apply find_lookup. Qed.

(** The words of the stack a handler uses. *)
Definition arg_index (a : Arg) : list nat :=
  match a with A i | AsI32 i => [i] | Lit _ | Vcpu | Id => [] end.
Definition handler_indices (h : Handler) : list nat :=
  match h with
  | Normal _ l | Direct _ l | Perform _ l => concat (map arg_index l)
  | Stub _ => []
  | Exit => [1%nat]
  | QueryCp | MapCase => [0%nat; 2%nat]
  end.

(** The base of each module of the registry. *)
Definition module_base (m : string) : option Z :=
  match list_find (λ p, p.1 = m)
    [("DOSCALLS", 0); ("QUECALLS", 1024); ("NLS", NLS_BASE); ("MSG", MSG_BASE); ("MDM", MDM_BASE);
     ("UCONV", UCONV_BASE); ("SO32DLL", SO32DLL_BASE); ("TCP32DLL", TCP32DLL_BASE)] with
  | Some (_, (_, b)) => Some b
  | None => None
  end.

Definition entry_ok (e : ApiEntry) : bool :=
  String.eqb (module_for_ordinal (ordinal e)) (module e) &&
  String.eqb (ordinal_to_name (ordinal e)) (name e) &&
  forallb (λ i, Z.of_nat i <? argc e) (handler_indices (handler e)) &&
  (argc e <=? 10) && (ordinal e <? STUB_AREA_SIZE) &&
  match module_base (module e) with Some b => b <=? ordinal e | None => false end.

(** C33: every entry of the registry is consistent: its ordinal lies in the range of its
    module and inside the stub area, the trace tables give the same module and name for it,
    and its handler reads only stack words below its argument count, all of them among the
    ten words the dispatcher reads. *)
Theorem registry_consistent (e : ApiEntry) :
  e ∈ REGISTRY →
  module_for_ordinal (ordinal e) = module e ∧ ordinal_to_name (ordinal e) = name e ∧
  Forall (λ i, Z.of_nat i < argc e) (handler_indices (handler e)) ∧ argc e ≤ 10 ∧
  ordinal e < STUB_AREA_SIZE ∧ (∃ b, module_base (module e) = Some b ∧ b ≤ ordinal e).
Proof.
  intros He. assert (forallb entry_ok REGISTRY = true) as Hall by (vm_compute; reflexivity).
  rewrite forallb_forall in Hall. specialize (Hall e (proj1 (list_elem_of_In _ _) He)).
  unfold entry_ok in Hall. rewrite !andb_true_iff in Hall.
  destruct Hall as [[[[[H1 H2] H3] H4] H5] H6].
  split_and!.
  - by apply String.eqb_eq.
  - by apply String.eqb_eq.
  - apply Forall_forall. intros i Hi. rewrite forallb_forall in H3.
    apply Z.ltb_lt, H3. by apply list_elem_of_In.
  - by apply Z.leb_le.
  - by apply Z.ltb_lt.
  - destruct (module_base (module e)) as [b|]; [|done]. exists b. split; [done|]. by apply Z.leb_le.
Qed.
Lemma registry_consistent_witness :
  ∃ e, find 256 = Some e ∧ name e = "DosSetFilePtr" ∧
       Forall (λ i, Z.of_nat i < argc e) (handler_indices (handler e)).
Proof.
  eexists. split; [vm_compute; reflexivity|]. split; [reflexivity|].
  refine (proj1 (proj2 (proj2 (registry_consistent _ _)))).
  apply (list_elem_of_lookup_2 REGISTRY 29). vm_compute. reflexivity.
Defined.

(** Entries the compatibility report counts as stubs although their handlers do the work:
    STUB_ORDINALS lists DosRaiseException and DosUnwindException. *)
Lemma stub_ordinals_not_stubs :
  handler <$> find 356 = Some (Direct "dos_raise_exception" [A 0]) ∧
  handler <$> find 357 = Some (Normal "dos_unwind_exception" [A 0; A 1; A 2; A 3]) ∧
  356 ∈ STUB_ORDINALS ∧ 357 ∈ STUB_ORDINALS.
Proof.
  split_and!; try (vm_compute; reflexivity); apply (bool_decide_unpack _); vm_compute; done.
Qed.

(** The ring after pushing [rs], as a function of the calls. *)
Definition ring_after (b : ApiRingBuffer) (rs : list ApiCallRecord) : ApiRingBuffer :=
  foldl ring_push b rs.
(** The calls numbered from [s]. *)
Fixpoint numbered (s : Z) (rs : list ApiCallRecord) : list ApiCallRecord :=
  match rs with
  | [] => []
  | r :: rs => with_seq r s :: numbered (wrapping_add M64 s 1) rs
  end.
(** The last [n] elements. *)
Definition lastn {X} (n : nat) (l : list X) : list X := drop (length l - n) l.

Lemma lastn_snoc {X} n (l : list X) x :
  (0 < n)%nat →
  lastn n (l ++ [x]) = (if (n <=? length (lastn n l))%nat then tail (lastn n l) else lastn n l) ++ [x].
Proof.
  intros Hn. unfold lastn. rewrite length_app, length_drop. cbn [length].
  destruct (Nat.leb_spec n (length l - (length l - n))).
  - rewrite drop_app_le by lia. replace (length l + 1 - n)%nat with (S (length l - n)) by lia.
    destruct (drop (length l - n) l) as [|y k] eqn:Hd.
    + apply (f_equal length) in Hd. rewrite length_drop in Hd. simpl in Hd. lia.
    + cbn [tail]. f_equal. replace (S (length l - n)) with ((length l - n) + 1)%nat by lia.
      by rewrite <- drop_drop, Hd.
  - rewrite !(proj2 (Nat.sub_0_le _ _)) by lia. by rewrite !drop_0.
Qed.
Lemma numbered_snoc s rs r :
  numbered s (rs ++ [r]) =
  numbered s rs ++ [with_seq r (Nat.iter (length rs) (λ x, wrapping_add M64 x 1) s)].
Proof.
  revert s. induction rs as [|r' rs IH]; intros s; cbn [numbered app length]; [done|].
  pose proof (Nat.iter_swap (length rs) _ (λ x, wrapping_add M64 x 1) s) as H. cbn beta in H.
  by rewrite IH, H.
Qed.
Lemma length_numbered s rs : length (numbered s rs) = length rs.
Proof. revert s. induction rs; intros; simpl; auto. Qed.

(** The ring buffer holds the last 256 calls, oldest first, numbered consecutively from
    0: after any sequence of pushes its content is the tail of the whole numbered history. *)
Theorem ring_holds_last (rs : list ApiCallRecord) :
  records (ring_after ring_new rs) = lastn 256 (numbered 0 rs) ∧
  next_seq (ring_after ring_new rs) = Z.of_nat (length rs) mod M64 ∧
  len (records (ring_after ring_new rs)) ≤ CAPACITY.
Proof.
  assert (H : records (ring_after ring_new rs) = lastn 256 (numbered 0 rs) ∧
    next_seq (ring_after ring_new rs) =
      Nat.iter (length rs) (λ x, wrapping_add M64 x 1) 0).
  { induction rs as [|r rs IH] using rev_ind; [done|]. destruct IH as [IH1 IH2].
    unfold ring_after in *. rewrite foldl_app. cbn [foldl]. unfold ring_push at 1 3.
    cbn [records next_seq]. split.
    - rewrite numbered_snoc, lastn_snoc by lia. rewrite IH1, IH2. f_equal.
      unfold CAPACITY, len. destruct (Z.leb_spec 256 (Z.of_nat (length (lastn 256 (numbered 0 rs)))));
        destruct (Nat.leb_spec 256 (length (lastn 256 (numbered 0 rs)))); try done; lia.
    - rewrite length_app, Nat.add_comm. cbn [length Nat.add]. by rewrite IH2. }
  destruct H as [H1 H2]. split_and!; [done| |].
  - rewrite H2. clear. induction (length rs) as [|k IH]; [done|].
    cbn [Nat.iter nat_rect]. unfold wrapping_add at 1. fold (Nat.iter k (λ x, wrapping_add M64 x 1) 0).
    rewrite IH. rewrite Nat2Z.inj_succ. rewrite Z.add_mod_idemp_l by lia. f_equal.
  - rewrite H1. unfold CAPACITY, len, lastn. rewrite length_drop. lia.
Qed.
