(* ===== verification/Descriptors.v ===== *)
(** Import resolution and the descriptor tables (src/src/loader/descriptors.rs), and the
    flat / 16:16 address conversions that rely on the tiled descriptors (doscalls.rs).

    A read of guest memory is over [GuestMem]; an [expect] or [unwrap] on it is a panic. *)
From S2P Require Import Prelude Bytes Constants GuestMem Managers ApiTrace ApiRegistry.

Definition VIOCALLS_NAMES : list (string * Z) := [
  ("VioGetAnsi", 3); ("VioSetAnsi", 5); ("VioScrollUp", 7); ("VioScrollDn", 47);
  ("VioGetCurPos", 9); ("VioWrtCellStr", 10); ("VioSetCurPos", 15); ("VioWrtTTY", 19);
  ("VioGetMode", 21); ("VioSetMode", 22); ("VioReadCellStr", 24); ("VioWrtNAttr", 26);
  ("VioGetBuf", 31); ("VioSetCurType", 32); ("VioGetCurType", 27); ("VioCheckCharType", 39);
  ("VioSetCp", 42); ("VioShowBuf", 43); ("VioGetConfig", 46); ("VioWrtCharStrAtt", 48);
  ("VioSetState", 51); ("VioWrtNCell", 52)].
Definition KBDCALLS_NAMES : list (string * Z) := [
  ("KbdCharIn", 4); ("KbdStringIn", 9); ("KbdGetStatus", 10); ("KbdFlushBuffer", 6)].

Definition assoc (l : list (string * Z)) (n : rstring) : option Z :=
  (λ p, p.2.2) <$> list_find (λ p, str p.1 = n) l.

(** [Loader::resolve_import]; module names are compared as strings, user DLLs last. *)
Definition resolve_import (dll_mgr : DllManager) (module : rstring) (ordinal : Z) : Z :=
  if bool_decide (module = str "DOSCALLS") then MAGIC_API_BASE + ordinal
  else if bool_decide (module = str "QUECALLS") then MAGIC_API_BASE + 1024 + ordinal
  else if bool_decide (module = str "PMWIN") then MAGIC_API_BASE + PMWIN_BASE + ordinal
  else if bool_decide (module = str "PMGPI") then MAGIC_API_BASE + PMGPI_BASE + ordinal
  else if bool_decide (module = str "KBDCALLS") then MAGIC_API_BASE + KBDCALLS_BASE + ordinal
  else if bool_decide (module = str "VIOCALLS") then MAGIC_API_BASE + VIOCALLS_BASE + ordinal
  else if bool_decide (module = str "SESMGR") then MAGIC_API_BASE + SESMGR_BASE + ordinal
  else if bool_decide (module = str "NLS") then MAGIC_API_BASE + NLS_BASE + ordinal
  else if bool_decide (module = str "MSG") then MAGIC_API_BASE + MSG_BASE + ordinal
  else if bool_decide (module = str "MDM") then MAGIC_API_BASE + MDM_BASE + ordinal
  else if bool_decide (module = str "UCONV") then MAGIC_API_BASE + UCONV_BASE + ordinal
  else if bool_decide (module = str "SO32DLL") then MAGIC_API_BASE + SO32DLL_BASE + ordinal
  else if bool_decide (module = str "TCP32DLL") then MAGIC_API_BASE + TCP32DLL_BASE + ordinal
  else match resolve_ordinal dll_mgr module ordinal with
       | Some addr => addr
       | None => MAGIC_API_BASE + (STUB_AREA_SIZE - 1)
       end.

(** [find_by_module_and_name] on names read from a module. *)
Definition find_by_names (m n : rstring) : option Z :=
  (λ p, ApiRegistry.ordinal p.2) <$>
    list_find (λ e, str (ApiRegistry.module e) = m ∧ str (ApiRegistry.name e) = n) REGISTRY.

(** [Loader::resolve_import_by_name] *)
Definition resolve_import_by_name (dll_mgr : DllManager) (module proc_name : rstring) : Z :=
  let ordinal :=
    if bool_decide (module = str "VIOCALLS") then assoc VIOCALLS_NAMES proc_name
    else if bool_decide (module = str "KBDCALLS") then assoc KBDCALLS_NAMES proc_name
    else find_by_names module proc_name in
  match ordinal with
  | Some ord => resolve_import dll_mgr module ord
  | None => 0
  end.

(** * Descriptors *)

(** [Loader::make_gdt_entry] *)
Definition make_gdt_entry (base limit access flags : Z) : Z :=
  let entry := 0 in
  let entry := Z.lor entry (Z.land limit 0xFFFF) in
  let entry := Z.lor entry (Z.shiftl (Z.land base 0xFFFF) 16) in
  let entry := Z.lor entry (Z.shiftl (Z.land (Z.shiftr base 16) 0xFF) 32) in
  let entry := Z.lor entry (Z.shiftl access 40) in
  let entry := Z.lor entry
    (Z.shiftl (Z.lor (Z.land (Z.shiftr limit 16) 0x0F) (Z.land flags 0xF0)) 48) in
  Z.lor entry (Z.shiftl (Z.land (Z.shiftr base 24) 0xFF) 56).

(** The decoding of [gdt_entry_base] and [gdt_entry_limit]. *)
Definition entry_base (entry : Z) : Z :=
  let base_lo := Z.land (Z.shiftr entry 16) 0xFFFF in
  let base_mid := Z.land (Z.shiftr entry 32) 0xFF in
  let base_hi := Z.land (Z.shiftr entry 56) 0xFF in
  Z.lor (Z.lor base_lo (Z.shiftl base_mid 16)) (Z.shiftl base_hi 24).
Definition entry_limit (entry : Z) : Z :=
  let limit_lo := Z.land entry 0xFFFF in
  let limit_hi := Z.land (Z.shiftr entry 48) 0x0F in
  Z.lor limit_lo (Z.shiftl limit_hi 16).

(** [Loader::gdt_entry_base] and [Loader::gdt_entry_limit] *)
Definition gdt_entry (m : GuestMemory) (selector : Z) : Z :=
  let gdt_idx := selector / 8 in
  default 0 (read64 m (GDT_BASE + gdt_idx * 8)).
Definition gdt_entry_base (m : GuestMemory) (selector : Z) : Z := entry_base (gdt_entry m selector).
Definition gdt_entry_limit (m : GuestMemory) (selector : Z) : Z := entry_limit (gdt_entry m selector).

Definition mem := outcome ().

(** [for i in 0..n { guest_write(addr(i), f(i)).unwrap() }], from [i]. *)
Fixpoint for_range (n : nat) (i : Z) (body : Z → GuestMemory → mem GuestMemory) (m : GuestMemory)
    : mem GuestMemory :=
  match n with
  | O => Ok m
  | S n => m ← body i m; for_range n (i + 1) body m
  end.

(** [Loader::setup_stubs] *)
Definition setup_stubs (m : GuestMemory) : mem GuestMemory :=
  for_range (Z.to_nat STUB_AREA_SIZE) 0 (λ i m, unwrap (write8 m (MAGIC_API_BASE + i) 0xCC)) m.

Definition NUM_VECTORS := 32.

(** The six fixed entries of the GDT. *)
Definition setup_fixed (m : GuestMemory) : mem GuestMemory :=
  m ← unwrap (write64 m GDT_BASE 0);
  m ← unwrap (write64 m (GDT_BASE + 8) (make_gdt_entry 0 0xFFFFF 0x9B 0xCF));
  m ← unwrap (write64 m (GDT_BASE + 16) (make_gdt_entry 0 0xFFFFF 0x93 0xCF));
  m ← unwrap (write64 m (GDT_BASE + 24) (make_gdt_entry 0 0xFFFFF 0x93 0xCF));
  m ← unwrap (write64 m (GDT_BASE + 32) (make_gdt_entry 0 0xFFFF 0x93 0x00));
  unwrap (write64 m (GDT_BASE + 40) (make_gdt_entry 0 0xFFFF 0x9B 0x00)).

(** The tiled data and code descriptors. *)
Definition setup_data_tile (i : Z) (m : GuestMemory) : mem GuestMemory :=
  unwrap (write64 m (GDT_BASE + (TILED_SEL_START_INDEX + i) * 8)
                    (make_gdt_entry (i * TILE_SIZE) 0xFFFF 0xD3 0x00)).
Definition setup_code_tile (i : Z) (m : GuestMemory) : mem GuestMemory :=
  unwrap (write64 m (GDT_BASE + (TILED_CODE_START_INDEX + i) * 8)
                    (make_gdt_entry (i * TILE_SIZE) 0xFFFF 0x9B 0x00)).

(** [matches!(i, 8 | 10 | 11 | 12 | 13 | 14 | 17)] *)
Definition has_error_code (i : Z) : bool :=
  bool_decide (i ∈ [8; 10; 11; 12; 13; 14; 17]).

(** One exception vector: the fake error code, then the rest of its handler stub and its gate
    in the IDT. *)
Definition push_error_code (i : Z) (m : GuestMemory) : mem (GuestMemory * Z) :=
  let handler_addr := IDT_HANDLER_BASE + i * 16 in
  if has_error_code i then Ok (m, 0)
  else
    m ← unwrap (write8 m handler_addr 0x6A);
    m ← unwrap (write8 m (handler_addr + 1) 0x00);
    Ok (m, 2).
Definition fill_vector (i off : Z) (m : GuestMemory) : mem GuestMemory :=
  let handler_addr := IDT_HANDLER_BASE + i * 16 in
  m ← unwrap (write8 m (handler_addr + off) 0x6A);
  m ← unwrap (write8 m (handler_addr + off + 1) i);
  let off := off + 2 in
  m ← unwrap (write8 m (handler_addr + off) 0xCC);
  let idt_entry_addr := IDT_BASE + i * 8 in
  let offset_lo := Z.land handler_addr 0xFFFF in
  let offset_hi := Z.land (Z.shiftr handler_addr 16) 0xFFFF in
  m ← unwrap (write16 m idt_entry_addr offset_lo);
  m ← unwrap (write16 m (idt_entry_addr + 2) 0x08);
  m ← unwrap (write16 m (idt_entry_addr + 4) 0x8E00);
  unwrap (write16 m (idt_entry_addr + 6) offset_hi).
Definition setup_vector (i : Z) (m : GuestMemory) : mem GuestMemory :=
  '(m, off) ← push_error_code i m; fill_vector i off m.

(** [Loader::setup_idt] *)
Definition setup_idt (m : GuestMemory) : mem GuestMemory :=
  m ← setup_fixed m;
  m ← for_range (Z.to_nat NUM_TILES) 0 setup_data_tile m;
  m ← for_range (Z.to_nat NUM_CODE_TILES) 0 setup_code_tile m;
  for_range (Z.to_nat NUM_VECTORS) 0 setup_vector m.

(** * Flat and 16:16 addresses (doscalls.rs) *)

(** [dos_flat_to_sel]: the additions and the multiplication fit a u32, the shift drops the
    high bits of the selector. *)
Definition dos_flat_to_sel (flat_addr : Z) : Z :=
  let tile_index := Z.shiftr flat_addr 16 in
  let offset := Z.land flat_addr 0xFFFF in
  let selector := (TILED_SEL_START_INDEX + tile_index) * 8 in
  Z.lor (Z.shiftl selector 16 mod M32) offset.

(** [dos_sel_to_flat] *)
Definition dos_sel_to_flat (sel_off : Z) : Z :=
  let selector := as_u M16 (Z.shiftr sel_off 16) in
  let offset := Z.land sel_off 0xFFFF in
  let gdt_index := selector / 8 in
  if TILED_CODE_START_INDEX <=? gdt_index then
    (gdt_index - TILED_CODE_START_INDEX) * TILE_SIZE + offset
  else if TILED_SEL_START_INDEX <=? gdt_index then
    (gdt_index - TILED_SEL_START_INDEX) * TILE_SIZE + offset
  else offset.

(** * Lemmas *)

(** A descriptor as the sum of its fields. *)
Lemma make_gdt_entry_sum base limit access flags :
  0 ≤ base < M32 → 0 ≤ limit < 0x100000 → 0 ≤ access < 256 → 0 ≤ flags < 256 →
  make_gdt_entry base limit access flags =
    limit mod 2 ^ 16 + base mod 2 ^ 16 * 2 ^ 16 + base / 2 ^ 16 mod 2 ^ 8 * 2 ^ 32 +
    access * 2 ^ 40 + (limit / 2 ^ 16 mod 2 ^ 4 + flags / 2 ^ 4 mod 2 ^ 4 * 2 ^ 4) * 2 ^ 48 +
    base / 2 ^ 24 mod 2 ^ 8 * 2 ^ 56.
Proof.
  intros Hb Hl Ha Hf. unfold make_gdt_entry.
  change 0xFFFF with (Z.ones 16). change 0xFF with (Z.ones 8). change 0x0F with (Z.ones 4).
  change 0xF0 with (Z.shiftl (Z.ones 4) 4).
  rewrite land_shifted_ones, !field_mod, !land_ones_mod, Z.lor_0_l by lia.
  rewrite <- (Z.shiftl_mul_pow2 (_ mod 2 ^ 4) 4) by lia.
  pose proof (Z.mod_pos_bound limit (2 ^ 16) ltac:(lia)).
  pose proof (Z.mod_pos_bound base (2 ^ 16) ltac:(lia)).
  pose proof (Z.mod_pos_bound (base / 2 ^ 16) (2 ^ 8) ltac:(lia)).
  pose proof (Z.mod_pos_bound (limit / 2 ^ 16) (2 ^ 4) ltac:(lia)).
  pose proof (Z.mod_pos_bound (flags / 2 ^ 4) (2 ^ 4) ltac:(lia)).
  rewrite (lor_shiftl_add (limit / 2 ^ 16 mod 2 ^ 4)) by lia.
  rewrite (lor_shiftl_add (limit mod 2 ^ 16)) by lia.
  rewrite (lor_shiftl_add _ _ 32) by lia. rewrite (lor_shiftl_add _ _ 40) by lia.
  rewrite (lor_shiftl_add _ _ 48) by lia. rewrite (lor_shiftl_add _ _ 56) by lia.
  by rewrite (Z.shiftl_mul_pow2 _ 4) by lia.
Qed.

Lemma entry_base_sum e :
  0 ≤ e → entry_base e =
    e / 2 ^ 16 mod 2 ^ 16 + e / 2 ^ 32 mod 2 ^ 8 * 2 ^ 16 + e / 2 ^ 56 mod 2 ^ 8 * 2 ^ 24.
Proof.
  intros He. unfold entry_base. change 0xFFFF with (Z.ones 16). change 0xFF with (Z.ones 8).
  rewrite !field_mod by lia.
  pose proof (Z.mod_pos_bound (e / 2 ^ 16) (2 ^ 16) ltac:(lia)).
  pose proof (Z.mod_pos_bound (e / 2 ^ 32) (2 ^ 8) ltac:(lia)).
  rewrite (lor_shiftl_add _ _ 16) by lia. by rewrite (lor_shiftl_add _ _ 24) by lia.
Qed.
Lemma entry_limit_sum e :
  0 ≤ e → entry_limit e = e mod 2 ^ 16 + e / 2 ^ 48 mod 2 ^ 4 * 2 ^ 16.
Proof.
  intros He. unfold entry_limit. change 0xFFFF with (Z.ones 16). change 0x0F with (Z.ones 4).
  rewrite field_mod, land_ones_mod by lia.
  pose proof (Z.mod_pos_bound e (2 ^ 16) ltac:(lia)). by rewrite (lor_shiftl_add _ _ 16) by lia.
Qed.

Lemma make_gdt_entry_decode base limit access flags :
  0 ≤ base < M32 → 0 ≤ limit < 0x100000 → 0 ≤ access < 256 → 0 ≤ flags < 256 →
  entry_base (make_gdt_entry base limit access flags) = base ∧
  entry_limit (make_gdt_entry base limit access flags) = limit ∧
  0 ≤ make_gdt_entry base limit access flags < M64.
Proof.
  intros Hb Hl Ha Hf. rewrite make_gdt_entry_sum by done.
  set (b0 := base mod 2 ^ 16). set (b1 := base / 2 ^ 16 mod 2 ^ 8).
  set (b2 := base / 2 ^ 24 mod 2 ^ 8).
  set (l0 := limit mod 2 ^ 16). set (l1 := limit / 2 ^ 16 mod 2 ^ 4).
  set (f := flags / 2 ^ 4 mod 2 ^ 4).
  assert (base = b0 + b1 * 2 ^ 16 + b2 * 2 ^ 24 ∧ 0 ≤ b0 < 2 ^ 16 ∧ 0 ≤ b1 < 2 ^ 8 ∧
          0 ≤ b2 < 2 ^ 8) as (Hbase & ? & ? & ?).
  { subst b0 b1 b2. pose proof (Z.div_div base (2 ^ 16) (2 ^ 8) ltac:(lia) ltac:(lia)) as Hd.
    change (2 ^ 16 * 2 ^ 8) with (2 ^ 24) in Hd. rewrite <- Hd. Z.to_euclidean_division_equations. lia. }
  assert (limit = l0 + l1 * 2 ^ 16 ∧ 0 ≤ l0 < 2 ^ 16 ∧ 0 ≤ l1 < 2 ^ 4) as (Hlimit & ? & ?).
  { subst l0 l1. Z.to_euclidean_division_equations. lia. }
  assert (0 ≤ f < 2 ^ 4) by (apply Z.mod_pos_bound; lia).
  clearbody b0 b1 b2 l0 l1 f. rewrite entry_base_sum, entry_limit_sum by lia.
  rewrite Hbase, Hlimit. split_and!.
  - Z.to_euclidean_division_equations. lia.
  - Z.to_euclidean_division_equations. lia.
  - lia.
  - lia.
Qed.

(** [m'] is [m] changed in [lo, hi) only. *)
Record changed_in (lo hi : Z) (m m' : GuestMemory) : Prop := {
  ch_wf : mem_wf m';
  ch_size : GuestMem.size m' = GuestMem.size m;
  ch_read : ∀ o k, o + Z.of_nat k ≤ lo ∨ hi ≤ o → read k m' o = read k m o;
}.

Lemma changed_refl lo hi m : mem_wf m → changed_in lo hi m m.
Proof. by split. Qed.
Lemma changed_trans lo hi m1 m2 m3 :
  changed_in lo hi m1 m2 → changed_in lo hi m2 m3 → changed_in lo hi m1 m3.
Proof.
  intros [? Hs1 H1] [? Hs2 H2]. split; [done|congruence|]. intros o k Ho. by rewrite H2, H1.
Qed.
Lemma changed_mono lo hi lo' hi' m m' :
  lo' ≤ lo → hi ≤ hi' → changed_in lo hi m m' → changed_in lo' hi' m m'.
Proof. intros ?? [? ? H]. split; [done..|]. intros o k Ho. apply H. lia. Qed.

(** A write in range does not panic and changes its place only. *)
Lemma write_step (lo hi : Z) n m o v :
  mem_wf m → o + Z.of_nat n ≤ GuestMem.size m → lo ≤ o → o + Z.of_nat n ≤ hi →
  ∃ m', unwrap (E:=()) (write n m o v) = Ok m' ∧ changed_in lo hi m m' ∧
        read n m' o = Some (v mod 256 ^ Z.of_nat n).
Proof.
  intros Hm Ho Hlo Hhi. destruct (write n m o v) as [m'|] eqn:Hw.
  - exists m'. split_and!; [done| |by eapply read_write_same].
    split; [by eapply write_wf|by eapply write_size|].
    intros p k Hp. eapply read_write_other; [done..|]. lia.
  - rewrite write_ok in Hw by (first [apply Hm|done]). done.
Qed.
(** A chain of writes, each in the range. *)
Lemma chain_write {A} lo hi m0 m n o v (k : GuestMemory → mem A) (P : A → Prop) :
  changed_in lo hi m0 m → o + Z.of_nat n ≤ GuestMem.size m0 → lo ≤ o → o + Z.of_nat n ≤ hi →
  (∀ m', changed_in lo hi m0 m' → ∃ r, k m' = Ok r ∧ P r) →
  ∃ r, (m' ← unwrap (write n m o v); k m') = Ok r ∧ P r.
Proof.
  intros Hc Ho Hlo Hhi Hk.
  destruct (write_step lo hi n m o v) as (m' & -> & Hc' & _); [apply Hc| |done..|].
  - by rewrite (ch_size _ _ _ _ Hc).
  - apply Hk. by eapply changed_trans.
Qed.
Lemma chain_last lo hi m0 m n o v :
  changed_in lo hi m0 m → o + Z.of_nat n ≤ GuestMem.size m0 → lo ≤ o → o + Z.of_nat n ≤ hi →
  ∃ r, unwrap (E:=()) (write n m o v) = Ok r ∧ changed_in lo hi m0 r.
Proof.
  intros Hc Ho Hlo Hhi.
  destruct (write_step lo hi n m o v) as (m' & -> & Hc' & _); [apply Hc| |done..|].
  - by rewrite (ch_size _ _ _ _ Hc).
  - exists m'. split; [done|]. by eapply changed_trans.
Qed.

(** A loop that writes one u64 per turn. *)
Lemma for_range_writes n i a0 f body m :
  mem_wf m → a0 + (i + Z.of_nat n) * 8 ≤ GuestMem.size m →
  (∀ j m, body j m = unwrap (write64 m (a0 + j * 8) (f j))) →
  ∃ m', for_range n i body m = Ok m' ∧
    changed_in (a0 + i * 8) (a0 + (i + Z.of_nat n) * 8) m m' ∧
    (∀ j, i ≤ j < i + Z.of_nat n → read64 m' (a0 + j * 8) = Some (f j mod M64)).
Proof.
  intros Hm Hsz Hbody. revert i m Hm Hsz.
  induction n as [|n IH]; intros i m Hm Hsz; cbn [for_range].
  { exists m. split_and!; [done|by apply changed_refl|lia]. }
  rewrite Hbody. destruct (write_step (a0 + i * 8) (a0 + (i + Z.of_nat (S n)) * 8) 8 m
    (a0 + i * 8) (f i) Hm) as (m1 & -> & Hch & Hrd); [lia..|]. out_simpl.
  destruct (IH (i + 1) m1) as (m' & -> & Hch' & Hall);
    [apply Hch|rewrite (ch_size _ _ _ _ Hch); lia|].
  exists m'. split_and!; [done| |].
  - eapply changed_trans; [exact Hch|]. eapply changed_mono; [..|exact Hch']; lia.
  - intros j Hj. destruct (decide (j = i)) as [->|].
    + rewrite (ch_read _ _ _ _ Hch'); [exact Hrd|lia].
    + apply Hall. lia.
Qed.
(** A loop whose turns each change a range only. *)
Lemma for_range_changes n i lo hi body m0 m :
  changed_in lo hi m0 m →
  (∀ j m, i ≤ j < i + Z.of_nat n → changed_in lo hi m0 m →
          ∃ m', body j m = Ok m' ∧ changed_in lo hi m0 m') →
  ∃ m', for_range n i body m = Ok m' ∧ changed_in lo hi m0 m'.
Proof.
  revert i m. induction n as [|n IH]; intros i m Hc Hbody; cbn [for_range]; [by eexists|].
  destruct (Hbody i m) as (m1 & -> & Hc1); [lia|done|]. out_simpl.
  apply IH; [done|]. intros. apply Hbody; [lia|done].
Qed.

Lemma setup_fixed_ok m :
  mem_wf m → IDT_BASE ≤ GuestMem.size m →
  ∃ m', setup_fixed m = Ok m' ∧ changed_in GDT_BASE (GDT_BASE + 48) m m'.
Proof.
  unfold setup_fixed, GDT_BASE, IDT_BASE. intros Hm Hsz.
  pose proof (changed_refl 0x80000 (0x80000 + 48) m Hm) as Hc.
  do 5 (eapply chain_write; [done|lia..|]; clear Hc; intros ? Hc).
  by apply (chain_last 0x80000 (0x80000 + 48) m); [done|lia..].
Qed.

Definition IDT_END := IDT_HANDLER_BASE + NUM_VECTORS * 16.

Lemma push_error_code_ok i m0 m :
  0 ≤ i < NUM_VECTORS → IDT_END ≤ GuestMem.size m0 → changed_in IDT_BASE IDT_END m0 m →
  ∃ r, push_error_code i m = Ok r ∧ changed_in IDT_BASE IDT_END m0 r.1 ∧ 0 ≤ r.2 ≤ 2.
Proof.
  unfold push_error_code, IDT_END, IDT_BASE, IDT_HANDLER_BASE, NUM_VECTORS. intros Hi Hsz Hc.
  destruct (has_error_code i); [by eexists|].
  do 2 (eapply chain_write; [done|lia..|]; clear Hc; intros ? Hc). by eexists.
Qed.
Lemma fill_vector_ok i off m0 m :
  0 ≤ i < NUM_VECTORS → 0 ≤ off ≤ 2 → IDT_END ≤ GuestMem.size m0 →
  changed_in IDT_BASE IDT_END m0 m →
  ∃ m', fill_vector i off m = Ok m' ∧ changed_in IDT_BASE IDT_END m0 m'.
Proof.
  unfold fill_vector, IDT_END, IDT_BASE, IDT_HANDLER_BASE, NUM_VECTORS. intros Hi Hoff Hsz Hc.
  do 6 (eapply chain_write; [done|lia..|]; clear Hc; intros ? Hc).
  eapply chain_last; [done|lia..].
Qed.
Lemma setup_vector_ok i m0 m :
  0 ≤ i < NUM_VECTORS → IDT_END ≤ GuestMem.size m0 → changed_in IDT_BASE IDT_END m0 m →
  ∃ m', setup_vector i m = Ok m' ∧ changed_in IDT_BASE IDT_END m0 m'.
Proof.
  intros Hi Hsz Hc. unfold setup_vector.
  destruct (push_error_code_ok i m0 m Hi Hsz Hc) as ([m1 off] & -> & Hc1 & Hoff). out_simpl.
  by apply fill_vector_ok.
Qed.

(** What [setup_idt] leaves: the tiles. *)
Lemma setup_idt_ok m :
  mem_wf m → IDT_END ≤ GuestMem.size m →
  ∃ m', setup_idt m = Ok m' ∧ changed_in GDT_BASE IDT_END m m' ∧
    (∀ i, 0 ≤ i < NUM_TILES →
       read64 m' (GDT_BASE + (TILED_SEL_START_INDEX + i) * 8) =
         Some (make_gdt_entry (i * TILE_SIZE) 0xFFFF 0xD3 0)) ∧
    (∀ i, 0 ≤ i < NUM_CODE_TILES →
       read64 m' (GDT_BASE + (TILED_CODE_START_INDEX + i) * 8) =
         Some (make_gdt_entry (i * TILE_SIZE) 0xFFFF 0x9B 0)).
Proof.
  unfold IDT_END, NUM_VECTORS, IDT_HANDLER_BASE. intros Hm Hsz. unfold setup_idt.
  destruct (setup_fixed_ok m Hm) as (m1 & -> & H1); [unfold IDT_BASE; lia|]. out_simpl.
  destruct (for_range_writes (Z.to_nat NUM_TILES) 0 (GDT_BASE + 48)
    (λ i, make_gdt_entry (i * TILE_SIZE) 0xFFFF 0xD3 0) setup_data_tile m1)
    as (m2 & -> & H2 & Hd).
  { apply H1. }
  { rewrite (ch_size _ _ _ _ H1). unfold NUM_TILES, GDT_BASE. lia. }
  { intros j mj. unfold setup_data_tile, TILED_SEL_START_INDEX. do 2 f_equal. lia. }
  out_simpl.
  destruct (for_range_writes (Z.to_nat NUM_CODE_TILES) 0 (GDT_BASE + 4102 * 8)
    (λ i, make_gdt_entry (i * TILE_SIZE) 0xFFFF 0x9B 0) setup_code_tile m2)
    as (m3 & -> & H3 & Hcd).
  { apply H2. }
  { rewrite (ch_size _ _ _ _ H2), (ch_size _ _ _ _ H1). unfold NUM_CODE_TILES, GDT_BASE. lia. }
  { intros j mj. unfold setup_code_tile, TILED_CODE_START_INDEX, TILED_SEL_START_INDEX, NUM_TILES.
    do 2 f_equal. lia. }
  out_simpl.
  destruct (for_range_changes (Z.to_nat NUM_VECTORS) 0 IDT_BASE IDT_END setup_vector m3 m3)
    as (m4 & -> & H4).
  { apply changed_refl, H3. }
  { intros j mj Hj Hc. apply setup_vector_ok; [unfold NUM_VECTORS in *; lia| |done].
    rewrite (ch_size _ _ _ _ H3), (ch_size _ _ _ _ H2), (ch_size _ _ _ _ H1).
    unfold IDT_END, IDT_HANDLER_BASE, NUM_VECTORS. lia. }
  unfold NUM_TILES, NUM_CODE_TILES, GDT_BASE, IDT_BASE, IDT_END, IDT_HANDLER_BASE, NUM_VECTORS,
    TILED_CODE_START_INDEX, TILED_SEL_START_INDEX, NUM_TILES in *.
  exists m4. split_and!; [done| | |].
  - eapply changed_trans; [eapply changed_mono; [..|exact H1]; lia|].
    eapply changed_trans; [eapply changed_mono; [..|exact H2]; lia|].
    eapply changed_trans; [eapply changed_mono; [..|exact H3]; lia|].
    eapply changed_mono; [..|exact H4]; lia.
  - intros i Hi. rewrite (ch_read _ _ _ _ H4), (ch_read _ _ _ _ H3) by lia.
    replace (0x80000 + (6 + i) * 8) with (0x80000 + 48 + i * 8) by lia. rewrite Hd by lia.
    f_equal. apply Z.mod_small, make_gdt_entry_decode; unfold TILE_SIZE; lia.
  - intros i Hi. rewrite (ch_read _ _ _ _ H4) by lia.
    replace (0x80000 + (6 + 4096 + i) * 8) with (0x80000 + 4102 * 8 + i * 8) by lia.
    rewrite Hcd by lia.
    f_equal. apply Z.mod_small, make_gdt_entry_decode; unfold TILE_SIZE; lia.
Qed.

(** * Properties *)

(** [setup_idt] succeeds on any guest memory that reaches the end of the handler stubs;
    afterwards every data-tile selector decodes to the base of its 64 KiB tile with limit
    0xFFFF, every code-tile selector to the same, and memory outside the tables is untouched. *)
Theorem setup_idt_tiles (m : GuestMemory) :
  mem_wf m → IDT_END ≤ GuestMem.size m →
  ∃ m', setup_idt m = Ok m' ∧
    (∀ i, 0 ≤ i < NUM_TILES →
       gdt_entry_base m' ((TILED_SEL_START_INDEX + i) * 8) = i * TILE_SIZE ∧
       gdt_entry_limit m' ((TILED_SEL_START_INDEX + i) * 8) = 0xFFFF) ∧
    (∀ i, 0 ≤ i < NUM_CODE_TILES →
       gdt_entry_base m' ((TILED_CODE_START_INDEX + i) * 8) = i * TILE_SIZE ∧
       gdt_entry_limit m' ((TILED_CODE_START_INDEX + i) * 8) = 0xFFFF) ∧
    (∀ o k, o + Z.of_nat k ≤ GDT_BASE ∨ IDT_END ≤ o → read k m' o = read k m o).
Proof.
  intros Hm Hsz. destruct (setup_idt_ok m Hm Hsz) as (m' & Heq & Hc & Hd & Hcd).
  unfold NUM_TILES, NUM_CODE_TILES, TILE_SIZE in *.
  exists m'. split_and!; [done| | |apply Hc]; intros i Hi;
    unfold gdt_entry_base, gdt_entry_limit, gdt_entry; rewrite Z.div_mul by done.
  - rewrite Hd by done. cbn [default].
    destruct (make_gdt_entry_decode (i * 0x10000) 0xFFFF 0xD3 0) as (? & ? & _); [lia..|done].
  - rewrite Hcd by done. cbn [default].
    destruct (make_gdt_entry_decode (i * 0x10000) 0xFFFF 0x9B 0) as (? & ? & _); [lia..|done].
Qed.
Lemma setup_idt_tiles_witness :
  ∃ m', setup_idt (alloc 0x100000) = Ok m' ∧ gdt_entry_base m' ((6 + 17) * 8) = 17 * 0x10000.
Proof.
  destruct (setup_idt_tiles (alloc 0x100000)) as (m' & Heq & Hd & _).
  - apply alloc_wf. lia.
  - vm_compute. discriminate.
  - exists m'. split; [exact Heq|]. apply (Hd 17). split; [discriminate|reflexivity].
Defined.

Lemma flat_to_sel_parts f :
  u32 f → dos_flat_to_sel f = (6 + f / 65536) * 8 mod 65536 * 65536 + f mod 65536.
Proof.
  unfold u32. intros Hf. unfold dos_flat_to_sel, TILED_SEL_START_INDEX.
  change 0xFFFF with (Z.ones 16). rewrite land_ones_mod, Z.shiftr_div_pow2 by lia.
  change (2 ^ 16) with 65536. rewrite (Z.shiftl_mul_pow2 _ 16) by lia. change (2 ^ 16) with 65536.
  replace M32 with (65536 * 65536) by done. rewrite Z.mul_mod_distr_r by lia.
  set (sel := (6 + f / 65536) * 8 mod 65536).
  replace (sel * 65536) with (Z.shiftl sel 16) by (by rewrite Z.shiftl_mul_pow2).
  rewrite Z.lor_comm. pose proof (Z.mod_pos_bound f 65536 ltac:(lia)).
  rewrite lor_shiftl_add, Z.shiftl_mul_pow2 by lia. apply Z.add_comm.
Qed.
Lemma sel_to_flat_parts s off :
  0 ≤ s < 65536 → 0 ≤ off < 65536 →
  dos_sel_to_flat (s * 65536 + off) =
    (if 4102 <=? s / 8 then s / 8 - 4102 else if 6 <=? s / 8 then s / 8 - 6 else 0) * 65536 + off.
Proof.
  intros Hs Ho. unfold dos_sel_to_flat, as_u. change 0xFFFF with (Z.ones 16).
  rewrite land_ones_mod, Z.shiftr_div_pow2 by lia. change (2 ^ 16) with 65536.
  rewrite (Z.add_comm (s * 65536)), Z.mod_add, Z.div_add by lia.
  rewrite (Z.div_small off), (Z.mod_small off), Z.add_0_l, (Z.mod_small s) by lia.
  unfold TILED_CODE_START_INDEX, TILED_SEL_START_INDEX, NUM_TILES, TILE_SIZE.
  bool_split; lia.
Qed.

(** DosFlatToSel and DosSelToFlat are inverse exactly on the first 256 MiB, the part of
    the address space the data tiles cover: above it the selector falls on a code tile or
    is truncated, and another address comes back. *)
Theorem flat_sel_roundtrip (f : Z) :
  u32 f → (dos_sel_to_flat (dos_flat_to_sel f) = f ↔ f < 0x10000000).
Proof.
  unfold u32. intros Hf. rewrite flat_to_sel_parts by done.
  pose proof (Z.div_mod f 65536 ltac:(lia)). pose proof (Z.mod_pos_bound f 65536 ltac:(lia)).
  set (t := f / 65536) in *. set (o := f mod 65536) in *. clearbody t o.
  pose proof (Z.mod_pos_bound ((6 + t) * 8) 65536 ltac:(lia)).
  rewrite sel_to_flat_parts by done.
  replace ((6 + t) * 8 mod 65536) with ((6 + t) mod 8192 * 8)
    by (rewrite <- Z.mul_mod_distr_r by lia; done).
  rewrite Z.div_mul by lia. bool_split; Z.to_euclidean_division_equations; lia.
Qed.
Lemma flat_sel_roundtrip_witness :
  dos_sel_to_flat (dos_flat_to_sel 0x15678) = 0x15678 ∧
  dos_sel_to_flat (dos_flat_to_sel 0x10000000) ≠ 0x10000000.
Proof.
  split.
  - apply (flat_sel_roundtrip 0x15678); vm_compute; [split; [discriminate|reflexivity]|reflexivity].
  - intros H. apply (flat_sel_roundtrip 0x10000000) in H; vm_compute in *;
      [discriminate|split; [discriminate|reflexivity]].
Defined.

(** The calls of the modules with a dispatcher of their own: base, subsystem, and the ordinals that
    stay in its range. *)
Definition SUBSYSTEMS : list (string * (Z * Subsystem * Z)) :=
  [("PMWIN", (PMWIN_BASE, PMWIN, PMGPI_BASE - PMWIN_BASE));
   ("PMGPI", (PMGPI_BASE, PMGPI, KBDCALLS_BASE - PMGPI_BASE));
   ("KBDCALLS", (KBDCALLS_BASE, KBDCALLS, VIOCALLS_BASE - KBDCALLS_BASE));
   ("VIOCALLS", (VIOCALLS_BASE, VIOCALLS, SESMGR_BASE - VIOCALLS_BASE))]%string.
(** The address of a stub, and what the dispatcher finds for the ordinal it recovers from it: an
    entry of the registry or a call of a subsystem. *)
Definition stub (addr : Z) : Prop := MAGIC_API_BASE ≤ addr < MAGIC_API_BASE + STUB_AREA_SIZE.
Definition reaches_entry (addr : Z) (e : ApiEntry) : Prop := stub addr ∧ find (addr - MAGIC_API_BASE) = Some e.
Definition reaches_call (addr : Z) (sub : Subsystem) (o : Z) : Prop :=
  stub addr ∧ find (addr - MAGIC_API_BASE) = None ∧ sub_dispatch (addr - MAGIC_API_BASE) = Some (sub, o).

(** The modules of the API are not looked up among the user's. *)
Definition api_module (m : string) : bool :=
  existsb (String.eqb m)
    ["DOSCALLS"; "QUECALLS"; "NLS"; "MSG"; "MDM"; "UCONV"; "SO32DLL"; "TCP32DLL";
     "PMWIN"; "PMGPI"; "KBDCALLS"; "VIOCALLS"]%string.
Lemma resolve_api dll_mgr m o : api_module m = true →
  resolve_import dll_mgr (str m) o = resolve_import dll_manager_new (str m) o.
Proof. intros (x & Hx & ->%String.eqb_eq)%existsb_exists. cbn in Hx. by intuition (subst; reflexivity). Qed.
Lemma resolve_api_name dll_mgr m n : api_module m = true →
  resolve_import_by_name dll_mgr (str m) n = resolve_import_by_name dll_manager_new (str m) n.
Proof.
  intros Hm. unfold resolve_import_by_name.
  destruct (if bool_decide (str m = _) then _ else _); [by apply resolve_api|done].
Qed.
Definition import_ok (e : ApiEntry) : bool :=
  match module_base (ApiRegistry.module e) with
  | Some b =>
    api_module (ApiRegistry.module e) && (0 <=? ApiRegistry.ordinal e) &&
    (ApiRegistry.ordinal e <? STUB_AREA_SIZE) &&
    (resolve_import dll_manager_new (str (ApiRegistry.module e)) (ApiRegistry.ordinal e - b) =?
       MAGIC_API_BASE + ApiRegistry.ordinal e) &&
    (resolve_import_by_name dll_manager_new (str (ApiRegistry.module e)) (str (ApiRegistry.name e)) =?
       MAGIC_API_BASE + b + ApiRegistry.ordinal e)
  | None => false
  end.
Lemma imports_ok e : e ∈ REGISTRY → import_ok e = true.
Proof.
  assert (forallb import_ok REGISTRY = true) as Hall by (vm_compute; reflexivity).
  rewrite forallb_forall in Hall. intros He. apply Hall. by apply list_elem_of_In.
Qed.
(** The range of a subsystem holds no entry of the registry. *)
Lemma subsystem_free o : PMWIN_BASE ≤ o < SESMGR_BASE → find o = None.
Proof.
  intros Ho. assert (all_from (Z.to_pos (SESMGR_BASE - PMWIN_BASE)) PMWIN_BASE
    (λ o, bool_decide (find o = None)) = true) as H by (vm_compute; reflexivity).
  apply (bool_decide_unpack _). rewrite (all_from_spec _ _ _ o H); [done|].
  change (Z.pos (Z.to_pos (SESMGR_BASE - PMWIN_BASE))) with (SESMGR_BASE - PMWIN_BASE). lia.
Qed.
Lemma subsystem_call m base sub n o dll_mgr : (m, (base, sub, n)) ∈ SUBSYSTEMS → 0 ≤ o < n →
  reaches_call (resolve_import dll_mgr (str m) o) sub o.
Proof.
  intros Hm Ho. unfold SUBSYSTEMS in Hm. rewrite !elem_of_cons in Hm.
  assert (PMWIN_BASE ≤ base + o < SESMGR_BASE ∧
    resolve_import dll_mgr (str m) o = MAGIC_API_BASE + base + o ∧
    sub_dispatch (base + o) = Some (sub, o)) as (Hr & -> & Hsub).
  { unfold sub_dispatch, in_range.
    change PMWIN_BASE with 2048 in *. change PMGPI_BASE with 3072 in *. change KBDCALLS_BASE with 4096 in *.
    change VIOCALLS_BASE with 5120 in *. change SESMGR_BASE with 6144 in *.
    destruct Hm as [Hm|[Hm|[Hm|[Hm|Hm%elem_of_nil]]]]; [..|done]; injection Hm as -> -> -> ->;
      (split; [lia|]); (split; [reflexivity|]); zbool; f_equal; f_equal; lia. }
  unfold reaches_call, stub. replace (_ + _ + _ - _) with (base + o) by lia.
  split_and!; [..|by apply subsystem_free|done];
    unfold PMWIN_BASE, SESMGR_BASE, STUB_AREA_SIZE in *; lia.
Qed.
(** The names of the two tables of [resolve_import_by_name]. *)
Lemma named_calls m l n o dll_mgr :
  (m, l) ∈ [("VIOCALLS", VIOCALLS_NAMES); ("KBDCALLS", KBDCALLS_NAMES)]%string → (n, o) ∈ l →
  0 ≤ o < 1024 ∧
  resolve_import_by_name dll_mgr (str m) (str n) = resolve_import dll_mgr (str m) o.
Proof.
  assert (Hall : forallb (λ '(m, l), forallb (λ '(n, o), (0 <=? o) && (o <? 1024) &&
    bool_decide (assoc l (str n) = Some o)) l)
    [("VIOCALLS", VIOCALLS_NAMES); ("KBDCALLS", KBDCALLS_NAMES)]%string = true) by (vm_compute; reflexivity).
  intros Hm Hn. rewrite forallb_forall in Hall. specialize (Hall _ (proj1 (list_elem_of_In _ _) Hm)).
  cbn beta iota in Hall. rewrite forallb_forall in Hall. specialize (Hall _ (proj1 (list_elem_of_In _ _) Hn)).
  cbn beta iota in Hall. rewrite !andb_true_iff, Z.leb_le, Z.ltb_lt, bool_decide_eq_true in Hall.
  destruct Hall as [[? ?] Ha]. split; [lia|]. unfold resolve_import_by_name.
  rewrite !elem_of_cons, elem_of_nil in Hm.
  destruct Hm as [[= -> ->]|[[= -> ->]|[]]]; [rewrite bool_decide_true by done|
    rewrite bool_decide_false by done; rewrite bool_decide_true by done]; by rewrite Ha.
Qed.

