(* ===== verification/Ipc.v ===== *)
(** Semaphores and queues: the managers of src/src/loader/ipc.rs and the Dos* calls on them
    (doscalls.rs, stubs.rs).

    An [Arc] outlives its entry in the handle table: a thread blocked on a semaphore that
    is closed keeps the object.  Each kind of object therefore has a heap, indexed by the
    handle it was created under, and a set of the handles still in the table.  A blocking
    call is a loop that looks at the object under its lock, once per turn; what the other
    threads, the clock and the shutdown flag do between turns is an argument. *)
From S2P Require Import Prelude Bytes Codepage GuestMem MemMgr.

Abbreviation free := MemMgr.free.

(** [EventSemaphore], [MutexSemaphore], [SemHandle], [MuxWaitRecord], [MuxWaitSemaphore] *)
Record EventSemaphore := mk_event { posted : bool; ev_attr : Z; ev_name : option rstring }.
Record MutexSemaphore := mk_mutex {
  owner_tid : option Z; request_count : Z; mx_attr : Z; mx_name : option rstring;
}.
Inductive SemHandle := Event (h : Z) | Mutex (h : Z).
Record MuxWaitRecord := mk_mux_record { hsem : SemHandle; user : Z }.
Record MuxWaitSemaphore := mk_mux {
  records : list MuxWaitRecord; wait_all : bool; mux_attr : Z; mux_name : option rstring;
}.
#[export] Instance MutexSemaphore_eq_dec : EqDecision MutexSemaphore.
Proof. solve_decision. Defined.

(** [SemaphoreManager] *)
Record SemaphoreManager := mk_sems {
  events : gmap Z EventSemaphore;
  event_sems : gset Z;
  mutexes : gmap Z MutexSemaphore;
  mutex_sems : gset Z;
  mux_sems : gmap Z MuxWaitSemaphore;
  next_handle : Z;
}.
Definition sems_new : SemaphoreManager := mk_sems ∅ ∅ ∅ ∅ ∅ 1.

Definition set_event (m : SemaphoreManager) (h : Z) (e : EventSemaphore) : SemaphoreManager :=
  mk_sems (<[h := e]> (events m)) (event_sems m) (mutexes m) (mutex_sems m) (mux_sems m)
          (next_handle m).
Definition set_mutex (m : SemaphoreManager) (h : Z) (s : MutexSemaphore) : SemaphoreManager :=
  mk_sems (events m) (event_sems m) (<[h := s]> (mutexes m)) (mutex_sems m) (mux_sems m)
          (next_handle m).

Section manager.
Context {B : Build} {E : Type}.

Definition create_event (m : SemaphoreManager) (name : option rstring) (attr : Z) (posted : bool)
    : outcome E (Z * SemaphoreManager) :=
  let h := next_handle m in
  next ← uadd M32 (next_handle m) 1;
  Ok (h, mk_sems (<[h := mk_event posted attr name]> (events m)) ({[h]} ∪ event_sems m)
                 (mutexes m) (mutex_sems m) (mux_sems m) next).
Definition get_event (m : SemaphoreManager) (h : Z) : option EventSemaphore :=
  if bool_decide (h ∈ event_sems m) then events m !! h else None.
Definition close_event (m : SemaphoreManager) (h : Z) : bool * SemaphoreManager :=
  (bool_decide (h ∈ event_sems m),
   mk_sems (events m) (event_sems m ∖ {[h]}) (mutexes m) (mutex_sems m) (mux_sems m)
           (next_handle m)).

Definition create_mutex (m : SemaphoreManager) (name : option rstring) (attr : Z) (state : bool)
    : outcome E (Z * SemaphoreManager) :=
  let h := next_handle m in
  let owner_tid := if state then Some 0 else None in
  let request_count := if state then 1 else 0 in
  next ← uadd M32 (next_handle m) 1;
  Ok (h, mk_sems (events m) (event_sems m)
                 (<[h := mk_mutex owner_tid request_count attr name]> (mutexes m))
                 ({[h]} ∪ mutex_sems m) (mux_sems m) next).
Definition get_mutex (m : SemaphoreManager) (h : Z) : option MutexSemaphore :=
  if bool_decide (h ∈ mutex_sems m) then mutexes m !! h else None.
Definition close_mutex (m : SemaphoreManager) (h : Z) : bool * SemaphoreManager :=
  (bool_decide (h ∈ mutex_sems m),
   mk_sems (events m) (event_sems m) (mutexes m) (mutex_sems m ∖ {[h]}) (mux_sems m)
           (next_handle m)).

Definition create_mux (m : SemaphoreManager) (name : option rstring) (attr : Z)
    (records : list MuxWaitRecord) (wait_all : bool) : outcome E (Z * SemaphoreManager) :=
  let h := next_handle m in
  next ← uadd M32 (next_handle m) 1;
  Ok (h, mk_sems (events m) (event_sems m) (mutexes m) (mutex_sems m)
                 (<[h := mk_mux records wait_all attr name]> (mux_sems m)) next).
Definition get_mux (m : SemaphoreManager) (h : Z) : option MuxWaitSemaphore := mux_sems m !! h.
Definition close_mux (m : SemaphoreManager) (h : Z) : bool * SemaphoreManager :=
  (bool_decide (is_Some (mux_sems m !! h)),
   mk_sems (events m) (event_sems m) (mutexes m) (mutex_sems m) (delete h (mux_sems m))
           (next_handle m)).

(** [open_event_by_name], [open_mutex_by_name]: [order] is the order in which the HashMap
    yields its handles. *)
Definition open_event_by_name (m : SemaphoreManager) (order : list Z) (name : rstring)
    : option Z :=
  snd <$> list_find (λ h, get_event m h ≫= ev_name = Some name) order.
Definition open_mutex_by_name (m : SemaphoreManager) (order : list Z) (name : rstring)
    : option Z :=
  snd <$> list_find (λ h, get_mutex m h ≫= mx_name = Some name) order.
End manager.

(** * The calls *)

(** [self.guest_write(ptr, v);] with its result ignored. *)
Definition put32 (m : GuestMemory) (ptr v : Z) : GuestMemory := default m (write32 m ptr v).
Definition put8 (m : GuestMemory) (ptr v : Z) : GuestMemory := default m (write8 m ptr v).

Section calls.
Context {B : Build} {E : Type}.
Implicit Types s : SemaphoreManager.

Definition dos_create_event_sem s (g : GuestMemory) (phev_ptr fl_attr f_state : Z)
    : outcome E (Z * SemaphoreManager * GuestMemory) :=
  '(h, s) ← create_event s None fl_attr (negb (f_state =? 0));
  Ok (0, s, put32 g phev_ptr h).
Definition dos_close_event_sem s (hev : Z) : Z * SemaphoreManager :=
  let '(ok, s) := close_event s hev in (if ok then 0 else 6, s).
Definition dos_post_event_sem s (hev : Z) : Z * SemaphoreManager :=
  match get_event s hev with
  | Some sem =>
    if posted sem then (299, s)
    else (0, set_event s hev (mk_event true (ev_attr sem) (ev_name sem)))
  | None => (6, s)
  end.

(** One turn of the wait of [dos_wait_event_sem]: what it sees after finding the semaphore
    not posted (shutdown, deadline), and after the timed wait on the condition variable
    (the semaphore, whether the wait timed out, the deadline again). *)
Record EventTurn := mk_event_turn {
  et_down : bool; et_expired : bool;
  et_sem : EventSemaphore; et_timed_out : bool; et_expired_after : bool;
}.
(** [None]: still waiting when the turns are used up. *)
Fixpoint wait_event_loop (sem : EventSemaphore) (turns : list EventTurn) : option Z :=
  if posted sem then Some 0
  else match turns with
  | [] => None
  | t :: turns =>
    if et_down t then Some 640
    else if et_expired t then Some 640
    else if et_timed_out t && negb (posted (et_sem t)) && et_expired_after t then Some 640
    else wait_event_loop (et_sem t) turns
  end.
Definition dos_wait_event_sem s (hev : Z) (turns : list EventTurn) : option Z :=
  match get_event s hev with
  | Some sem => wait_event_loop sem turns
  | None => Some 6
  end.

Definition dos_create_mutex_sem s (g : GuestMemory) (phmtx_ptr fl_attr f_state : Z)
    : outcome E (Z * SemaphoreManager * GuestMemory) :=
  '(h, s) ← create_mutex s None fl_attr (negb (f_state =? 0));
  Ok (0, s, put32 g phmtx_ptr h).
Definition dos_close_mutex_sem s (hmtx : Z) : Z * SemaphoreManager :=
  let '(ok, s) := close_mutex s hmtx in (if ok then 0 else 6, s).

(** One turn of [dos_request_mutex_sem], under the lock of the semaphore: it returns with
    a code and the semaphore it leaves, or waits. *)
Inductive turn := Return (code : Z) (sem : MutexSemaphore) | Wait.
Definition request_turn (shutting_down expired : bool) (tid : Z) (sem : MutexSemaphore)
    : outcome E turn :=
  if shutting_down then Ok (Return 640 sem)
  else match owner_tid sem with
  | None => Ok (Return 0 (mk_mutex (Some tid) 1 (mx_attr sem) (mx_name sem)))
  | Some owner =>
    if owner =? tid then
      n ← uadd M32 (request_count sem) 1;
      Ok (Return 0 (mk_mutex (owner_tid sem) n (mx_attr sem) (mx_name sem)))
    else if expired then Ok (Return 640 sem)
    else Ok Wait
  end.

(** [dos_release_mutex_sem], under the lock. *)
Definition release_mutex (tid : Z) (sem : MutexSemaphore) : outcome E (Z * MutexSemaphore) :=
  match owner_tid sem with
  | Some owner =>
    if owner =? tid then
      n ← usub M32 (request_count sem) 1;
      Ok (0, mk_mutex (if n =? 0 then None else Some owner) n (mx_attr sem) (mx_name sem))
    else Ok (288, sem)
  | None => Ok (288, sem)
  end.
Definition dos_release_mutex_sem s (tid hmtx : Z) : outcome E (Z * SemaphoreManager) :=
  match get_mutex s hmtx with
  | Some sem =>
    '(rc, sem) ← release_mutex tid sem;
    Ok (rc, set_mutex s hmtx sem)
  | None => Ok (6, s)
  end.

(** The records of [dos_create_mux_wait_sem], from [i]. *)
Fixpoint read_mux_records (g : GuestMemory) (records_ptr i : Z) (n : nat)
    : outcome E (list MuxWaitRecord) :=
  match n with
  | O => Ok []
  | S n =>
    off ← umul M32 i 8;
    p ← uadd M32 records_ptr off;
    p4 ← uadd M32 p 4;
    let hsem := default 0 (read32 g p) in
    let user := default 0 (read32 g p4) in
    l ← read_mux_records g records_ptr (i + 1) n;
    Ok (mk_mux_record (Event hsem) user :: l)
  end.
Definition dos_create_mux_wait_sem s (g : GuestMemory) (phmux_ptr count records_ptr fl_attr : Z)
    : outcome E (Z * SemaphoreManager * GuestMemory) :=
  records ← read_mux_records g records_ptr 0 (Z.to_nat count);
  let wait_all := negb (Z.land fl_attr 4 =? 0) in
  '(h, s) ← create_mux s None fl_attr records wait_all;
  Ok (0, s, put32 g phmux_ptr h).
Definition dos_close_mux_wait_sem s (hmux : Z) : Z * SemaphoreManager :=
  let '(ok, s) := close_mux s hmux in (if ok then 0 else 6, s).

(** The scan of one turn of [dos_wait_mux_wait_sem]: the last ready record and whether all
    are ready. *)
Definition is_ready s (tid : Z) (r : MuxWaitRecord) : bool :=
  let h := match hsem r with Event h | Mutex h => h end in
  match get_event s h with
  | Some e => posted e
  | None =>
    match get_mutex s h with
    | Some mx => bool_decide (owner_tid mx = None) || bool_decide (owner_tid mx = Some tid)
    | None => false
    end
  end.
Fixpoint mux_scan (views : list SemaphoreManager) (tid : Z) (records : list MuxWaitRecord)
    (acc : option MuxWaitRecord * bool) : option MuxWaitRecord * bool :=
  match views, records with
  | s :: views, r :: records =>
    mux_scan views tid records (if is_ready s tid r then (Some r, acc.2) else (acc.1, false))
  | _, _ => acc
  end.
(** One turn: a code and the memory, or [None] to sleep and look again.  The manager is
    locked anew for each record: [views] is what it holds then, record by record. *)
Definition mux_turn (shutting_down expired : bool) (views : list SemaphoreManager)
    (g : GuestMemory) (tid : Z) (mux : MuxWaitSemaphore) (pul_user_ptr : Z)
    : option (Z * GuestMemory) :=
  if shutting_down then Some (640, g)
  else
    let '(ready_idx, all_ready) := mux_scan views tid (records mux) (None, true) in
    if (wait_all mux && all_ready) || (negb (wait_all mux) && bool_decide (is_Some ready_idx)) then
      Some (0, match ready_idx with
               | Some r => if pul_user_ptr =? 0 then g else put32 g pul_user_ptr (user r)
               | None => g
               end)
    else if expired then Some (640, g)
    else None.

(** [dos_open_event_sem], [dos_open_mutex_sem] (stubs.rs) *)
Definition dos_open_event_sem (read_guest_string : GuestMemory → Z → rstring) s
    (order : list Z) (g : GuestMemory) (psz_name phev : Z) : Z * GuestMemory :=
  if psz_name =? 0 then
    let h := default 0 (read32 g phev) in
    (if bool_decide (is_Some (get_event s h)) then 0 else 6, g)
  else match open_event_by_name s order (read_guest_string g psz_name) with
       | Some h => (0, put32 g phev h)
       | None => (2, g)
       end.
Definition dos_open_mutex_sem (read_guest_string : GuestMemory → Z → rstring) s
    (order : list Z) (g : GuestMemory) (psz_name phmtx : Z) : Z * GuestMemory :=
  if psz_name =? 0 then
    let h := default 0 (read32 g phmtx) in
    (if bool_decide (is_Some (get_mutex s h)) then 0 else 6, g)
  else match open_mutex_by_name s order (read_guest_string g psz_name) with
       | Some h => (0, put32 g phmtx h)
       | None => (2, g)
       end.
End calls.

(** * Queues *)

(** [QueueEntry], [OS2Queue], [QueueManager]: as for semaphores, [queues] is the heap of the
    queues created and [queue_table] the handles that name them. *)
Record QueueEntry := mk_entry { data : bytes; event : Z; priority : Z }.
Record OS2Queue := mk_queue { q_name : rstring; items : list QueueEntry; q_attr : Z }.
Record QueueManager := mk_queues {
  queues : gmap Z OS2Queue; queue_table : gset Z; q_next_handle : Z;
}.
Definition queues_new : QueueManager := mk_queues ∅ ∅ 1.
Definition set_queue (m : QueueManager) (h : Z) (q : OS2Queue) : QueueManager :=
  mk_queues (<[h := q]> (queues m)) (queue_table m) (q_next_handle m).
Definition with_items (q : OS2Queue) (l : list QueueEntry) : OS2Queue :=
  mk_queue (q_name q) l (q_attr q).

Section queues.
Context {B : Build} {E : Type}.

Definition queue_create (m : QueueManager) (name : rstring) (attr : Z)
    : outcome E (Z * QueueManager) :=
  let h := q_next_handle m in
  next ← uadd M32 (q_next_handle m) 1;
  Ok (h, mk_queues (<[h := mk_queue name [] attr]> (queues m)) ({[h]} ∪ queue_table m) next).
Definition queue_get (m : QueueManager) (h : Z) : option OS2Queue :=
  if bool_decide (h ∈ queue_table m) then queues m !! h else None.
Definition queue_close (m : QueueManager) (h : Z) : bool * QueueManager :=
  (bool_decide (h ∈ queue_table m),
   mk_queues (queues m) (queue_table m ∖ {[h]}) (q_next_handle m)).
(** [find_by_name], in the HashMap's [order]. *)
Definition queue_find_by_name (m : QueueManager) (order : list Z) (name : rstring) : option Z :=
  snd <$> list_find (λ h, q_name <$> queue_get m h = Some name) order.

Definition dos_create_queue (m : QueueManager) (g : GuestMemory) (phq_ptr attr : Z)
    (name : rstring) : outcome E (Z * QueueManager * GuestMemory) :=
  '(h, m) ← queue_create m name attr;
  Ok (0, m, put32 g phq_ptr h).
Definition dos_open_queue (m : QueueManager) (order : list Z) (g : GuestMemory) (phq_ptr : Z)
    (name : rstring) : Z * GuestMemory :=
  match queue_find_by_name m order name with
  | Some h => (0, put32 g phq_ptr h)
  | None => (343, g)
  end.

Definition MAX_QUEUE_DATA := 64 * 1024 * 1024.

Definition dos_write_queue (m : QueueManager) (g : GuestMemory)
    (hq event len buf_ptr priority : Z) : Z * QueueManager :=
  match queue_get m hq with
  | Some q =>
    let len := Z.min len MAX_QUEUE_DATA in
    let data := default (replicate (Z.to_nat len) 0) (slice_mut g buf_ptr len) in
    (0, set_queue m hq (with_items q (items q ++ [mk_entry data event priority])))
  | None => (337, m)
  end.

(** One turn of [dos_read_queue] on the queue [hq] (which the caller holds even when it is
    closed): the code and the state after it, or [None] to wait. *)
Definition read_queue_turn (shutting_down : bool) (m : QueueManager) (mm : MemoryManager)
    (g : GuestMemory) (hq preq_ptr pcb_ptr ppbuf_ptr wait pprio_ptr : Z)
    : outcome E (option (Z * QueueManager * MemoryManager * GuestMemory)) :=
  if shutting_down then Ok (Some (342, m, mm, g))
  else match items <$> queues m !! hq with
  | Some (entry :: rest) =>
    let m := match queues m !! hq with Some q => set_queue m hq (with_items q rest) | None => m end in
    let len := as_u M32 (Bytes.len (data entry)) in
    '(addr, mm) ← MemMgr.alloc mm len;
    match addr with
    | Some guest_addr =>
      let g := default g (write_bytes g guest_addr (data entry)) in
      let g := put32 g ppbuf_ptr guest_addr in
      let g := put32 g pcb_ptr len in
      g ← (if preq_ptr =? 0 then Ok g else p ← uadd M32 preq_ptr 4; Ok (put32 g p (event entry)));
      let g := if pprio_ptr =? 0 then g else put8 g pprio_ptr (as_u M8 (priority entry)) in
      Ok (Some (0, m, mm, g))
    | None => Ok (Some (8, m, mm, g))
    end
  | _ => if wait =? 0 then Ok (Some (342, m, mm, g)) else Ok None
  end.
Definition dos_close_queue (m : QueueManager) (hq : Z) : Z * QueueManager :=
  let '(ok, m) := queue_close m hq in (if ok then 0 else 337, m).
Definition dos_purge_queue (m : QueueManager) (hq : Z) : QueueManager :=
  match queue_get m hq with
  | Some q => set_queue m hq (with_items q [])
  | None => m
  end.
Definition dos_query_queue (m : QueueManager) (g : GuestMemory) (hq pcb_ptr : Z)
    : Z * GuestMemory :=
  match queue_get m hq with
  | Some q => (0, put32 g pcb_ptr (as_u M32 (len (items q))))
  | None => (337, g)
  end.
End queues.

(** * Threads on one mutex semaphore *)

(** The state of a mutex semaphore shared by any number of threads, with the history of
    who was granted it: [held t] counts the successful requests of thread [t] not yet
    matched by a successful release. *)
Record MutexSys := mk_sys { mx : MutexSemaphore; held : gmap Z Z }.
Definition holds (s : MutexSys) (t : Z) : Z := default 0 (held s !! t).

(** The atomic steps, in any interleaving: a turn of a request (with whatever the shutdown
    flag and the clock say) and a release. *)
Inductive mutex_step {B : Build} : MutexSys → MutexSys → Prop :=
| step_acquire s t down expired sem :
    request_turn (E:=()) down expired t (mx s) = Ok (Return 0 sem) →
    mutex_step s (mk_sys sem (<[t := holds s t + 1]> (held s)))
| step_refuse s t down expired code sem :
    request_turn (E:=()) down expired t (mx s) = Ok (Return code sem) → code ≠ 0 →
    mutex_step s (mk_sys sem (held s))
| step_wait s t down expired :
    request_turn (E:=()) down expired t (mx s) = Ok Wait → mutex_step s s
| step_release s t sem :
    release_mutex (E:=()) t (mx s) = Ok (0, sem) →
    mutex_step s (mk_sys sem (<[t := holds s t - 1]> (held s)))
| step_not_owner s t rc sem :
    release_mutex (E:=()) t (mx s) = Ok (rc, sem) → rc ≠ 0 → mutex_step s (mk_sys sem (held s)).

(** The system of a mutex just created, unowned. *)
Definition mutex_init : MutexSys := mk_sys (mk_mutex None 0 0 None) ∅.

(** The owner holds it [request_count] times, nobody else holds it. *)
Record mutex_inv (s : MutexSys) : Prop := {
  mi_free : owner_tid (mx s) = None → request_count (mx s) = 0;
  mi_owned : ∀ t, owner_tid (mx s) = Some t → 0 < request_count (mx s) < M32 ∧
                  holds s t = request_count (mx s);
  mi_others : ∀ t, owner_tid (mx s) ≠ Some t → holds s t = 0;
}.

Lemma mutex_init_inv : mutex_inv mutex_init.
Proof. split; cbn; try done. Qed.

Lemma holds_insert s t v sem u :
  holds (mk_sys sem (<[t := v]> (held s))) u = if decide (u = t) then v else holds s u.
Proof.
  unfold holds. cbn. case_decide; subst; [by rewrite lookup_insert_eq|].
  by rewrite lookup_insert_ne by done.
Qed.

Lemma mutex_step_inv {B : Build} s s' :
  mutex_inv s → overflow_checks = true ∨ request_count (mx s) + 1 < M32 → mutex_step s s' →
  mutex_inv s' ∧ request_count (mx s') ≤ request_count (mx s) + 1.
Proof.
  intros [Hf Ho Hn] Hov Hstep. destruct Hstep as
    [s t down expired sem Hr|s t down expired code sem Hr Hc|s t down expired Hr
    |s t sem Hr|s t rc sem Hr Hc]; unfold request_turn, release_mutex in Hr.
  - destruct down; [done|]. destruct (owner_tid (mx s)) as [o|] eqn:Hown.
    + destruct (Z.eqb_spec o t) as [->|]; [|by destruct expired].
      destruct (Ho t eq_refl) as [Hc Hh].
      assert (uadd (E:=()) M32 (request_count (mx s)) 1 = Ok (request_count (mx s) + 1) ∧
              request_count (mx s) + 1 < M32) as [Hadd Hlt].
      { unfold uadd, overflowing in *. destruct (Z.ltb_spec (request_count (mx s) + 1) M32); [done|].
        destruct Hov as [Hov|]; [|lia]. rewrite Hov in Hr. done. }
      rewrite Hadd in Hr. injection Hr as <-. split; [|cbn; lia]. split; cbn.
      * done.
      * intros u [= <-]. rewrite holds_insert, decide_True by done. lia.
      * intros u Hu. rewrite holds_insert, decide_False by congruence. apply Hn. congruence.
    + injection Hr as <-. specialize (Hf eq_refl). split; [|cbn; lia]. split; cbn.
      * done.
      * intros u [= <-]. rewrite holds_insert, decide_True by done. rewrite Hn by done. lia.
      * intros u Hu. rewrite holds_insert, decide_False by congruence. by apply Hn.
  - assert (sem = mx s) as ->.
    { destruct down; [congruence|]. destruct (owner_tid (mx s)) as [o|]; [|congruence].
      destruct (Z.eqb_spec o t); [|destruct expired; congruence].
      destruct (uadd _ _ _); [|done..]. cbn in Hr. congruence. }
    split; [split; done|cbn; lia].
  - split; [split; done|lia].
  - destruct (owner_tid (mx s)) as [o|] eqn:Hown; [|done].
    destruct (Z.eqb_spec o t) as [->|]; [|done]. destruct (Ho t eq_refl) as [Hc Hh].
    rewrite usub_ok in Hr by lia. injection Hr as <-. split; [|cbn; lia].
    split; cbn; destruct (Z.eqb_spec (request_count (mx s) - 1) 0) as [H1|H1]; try done.
    + intros u [= <-]. rewrite holds_insert, decide_True by done. lia.
    + intros u _. rewrite holds_insert. case_decide; [lia|]. apply Hn. congruence.
    + intros u Hu. rewrite holds_insert, decide_False by congruence. apply Hn. congruence.
  - assert (sem = mx s) as ->.
    { destruct (owner_tid (mx s)) as [o|]; [|congruence].
      destruct (Z.eqb_spec o t); [|congruence]. destruct (usub _ _ _); [|done..]. cbn in Hr.
      congruence. }
    split; [split; done|cbn; lia].
Qed.

(** C5: mutual exclusion with recursion.  In every state that any interleaving of requests
    and releases by any threads can reach from an unowned mutex, at most one thread is inside
    (has more successful requests than releases), it is the recorded owner, and the request
    count is exactly how deep it is; this needs overflow checks or fewer than 2^32 - 1 steps,
    since the count is a u32. *)
Theorem mutex_exclusion {B : Build} (n : nat) (s : MutexSys) :
  nsteps mutex_step n mutex_init s → overflow_checks = true ∨ Z.of_nat n < M32 - 1 →
  (∀ t, 0 < holds s t → owner_tid (mx s) = Some t ∧ holds s t = request_count (mx s)) ∧
  (∀ t u, 0 < holds s t → 0 < holds s u → t = u) ∧
  (owner_tid (mx s) = None → ∀ t, holds s t = 0).
Proof.
  intros Hn Hov.
  assert (mutex_inv s ∧ request_count (mx s) ≤ Z.of_nat n) as [[Hf Ho Hne] _].
  { revert s Hn Hov. induction n as [|n IH]; intros s Hn Hov.
    - inversion Hn; subst. split; [apply mutex_init_inv|cbn; lia].
    - apply nsteps_inv_r in Hn as (s1 & H1 & Hs).
      destruct (IH s1 H1) as [Hi Hc]; [destruct Hov; [by left|right; lia]|].
      destruct (mutex_step_inv s1 s Hi) as [Hi' Hc']; [|done|split; [done|lia]].
      destruct Hov; [by left|right; lia]. }
  assert (∀ t, 0 < holds s t → owner_tid (mx s) = Some t) as Hown.
  { intros t Ht. destruct (decide (owner_tid (mx s) = Some t)) as [|Hd]; [done|].
    apply Hne in Hd. lia. }
  split_and!.
  - intros t Ht. split; [auto|]. by apply Ho, Hown.
  - intros t u Ht%Hown Hu%Hown. congruence.
  - intros Hnone t. apply Hne. congruence.
Qed.
Lemma mutex_exclusion_witness :
  ∃ s, nsteps (mutex_step (B:=dev_profile)) 2 mutex_init s ∧ holds s 7 = 2 ∧
       ∀ u, 0 < holds s u → u = 7.
Proof.
  assert (nsteps (mutex_step (B:=dev_profile)) 2 mutex_init
    (mk_sys (mk_mutex (Some 7) 2 0 None) (<[7:=2]> (<[7:=1]> ∅)))) as Hs.
  { eapply nsteps_l; [by apply (step_acquire (B:=dev_profile) mutex_init 7 false false)|].
    eapply nsteps_l; [by apply (step_acquire (B:=dev_profile) _ 7 false false)|]. constructor. }
  eexists. split; [exact Hs|]. split; [reflexivity|]. intros u Hu.
  refine (proj1 (proj2 (mutex_exclusion (B:=dev_profile) 2 _ Hs _)) u 7 Hu _);
    [by left|vm_compute; reflexivity].
Defined.

(** A mutex created owned belongs to thread 0, whoever creates it: a creator with another
    thread id cannot release it. *)
Lemma created_owned_by_zero :
  ∃ s g, dos_create_mutex_sem (B:=dev_profile) (E:=()) sems_new (GuestMem.alloc 16) 0 0 1 = Ok (0, s, g) ∧
         dos_release_mutex_sem (B:=dev_profile) (E:=()) s 5 1 = Ok (288, s).
Proof. eexists _, _. split; vm_compute; reflexivity. Qed.

(** * Events *)

(** The turn makes the waiter give up. *)
Definition gives_up (t : EventTurn) : bool :=
  et_down t || et_expired t || (et_timed_out t && negb (posted (et_sem t)) && et_expired_after t).

(** C36: DosWaitEventSem neither misses nor invents a post: it returns 0 exactly when some look
    at the semaphore finds it posted before a turn gives up (shutdown or deadline), and 640
    exactly when a turn gives up before any look finds it posted; a closed or unknown
    handle gives 6. *)
Theorem wait_event_exact (s : SemaphoreManager) (hev : Z) (turns : list EventTurn) :
  let looks sem := posted sem :: map (λ t, posted (et_sem t)) turns in
  match get_event s hev with
  | None => dos_wait_event_sem s hev turns = Some 6
  | Some sem =>
      (dos_wait_event_sem s hev turns = Some 0 ↔
         ∃ k, looks sem !! k = Some true ∧
              ∀ j t, (j < k)%nat → turns !! j = Some t → gives_up t = false) ∧
      (dos_wait_event_sem s hev turns = Some 640 ↔
         ∃ k t, turns !! k = Some t ∧ gives_up t = true ∧
                ∀ j, (j ≤ k)%nat → looks sem !! j = Some false) ∧
      (dos_wait_event_sem s hev turns = Some 0 ∨ dos_wait_event_sem s hev turns = Some 640 ∨
       dos_wait_event_sem s hev turns = None)
  end.
Proof.
  cbv zeta. unfold dos_wait_event_sem. destruct (get_event s hev) as [sem|]; [|done]. clear s hev.
  revert sem. induction turns as [|t turns IH]; intros sem; cbn [wait_event_loop map].
  - destruct (posted sem); (split_and!; [| |auto]).
    + split; [|done]. intros _. exists 0%nat. split; [done|]. lia.
    + split; [done|]. intros (k & t & Ht & _). done.
    + split; [done|]. intros ([|k] & Hk & _); done.
    + split; [done|]. intros (k & t & Ht & _). done.
  - destruct (posted sem) eqn:Hp.
    { split_and!; [| |by left].
      - split; [|done]. intros _. exists 0%nat. split; [done|]. lia.
      - split; [done|]. intros (k & t' & _ & _ & Hj). specialize (Hj 0%nat ltac:(lia)). done. }
    assert (Hstop : (if et_down t then Some 640 else if et_expired t then Some 640
       else if et_timed_out t && negb (posted (et_sem t)) && et_expired_after t then Some 640
       else wait_event_loop (et_sem t) turns) =
       if gives_up t then Some 640 else wait_event_loop (et_sem t) turns).
    { unfold gives_up. by destruct (et_down t), (et_expired t). }
    rewrite Hstop. destruct (gives_up t) eqn:Hg.
    + split_and!; [| |auto].
      * split; [done|]. intros ([|k] & Hk & Hj); [done|].
        specialize (Hj 0%nat t ltac:(lia) eq_refl). congruence.
      * split; [|done]. intros _. exists 0%nat, t. split_and!; [done..|].
        intros j Hj. by replace j with 0%nat by lia.
    + destruct (IH (et_sem t)) as (H0 & H640 & Hres). split_and!; [| |done].
      * rewrite H0. split.
        -- intros (k & Hk & Hj). exists (S k). split; [done|]. intros [|j] t' Hlt Ht'.
           ++ cbn in Ht'. congruence.
           ++ apply (Hj j); [lia|done].
        -- intros ([|k] & Hk & Hj); [done|]. exists k. split; [done|].
           intros j t' Hlt Ht'. apply (Hj (S j)); [lia|done].
      * rewrite H640. split.
        -- intros (k & t' & Ht' & Hg' & Hj). exists (S k), t'. split_and!; [done..|].
           intros [|j] Hlt; [done|]. apply Hj. lia.
        -- intros ([|k] & t' & Ht' & Hg' & Hj); [cbn in Ht'; congruence|].
           exists k, t'. split_and!; [done..|]. intros j Hlt. apply (Hj (S j)). lia.
Qed.

(** No call gives a semaphore a name, so DosOpenEventSem by name always fails. *)
Definition unnamed (s : SemaphoreManager) : Prop :=
  map_Forall (λ _ e, ev_name e = None) (events s) ∧
  map_Forall (λ _ e, mx_name e = None) (mutexes s).
Lemma create_event_unnamed {B : Build} s g p attr st rc s' g' :
  unnamed s → dos_create_event_sem (E:=()) s g p attr st = Ok (rc, s', g') → unnamed s'.
Proof.
  intros [He Hm]. unfold dos_create_event_sem, create_event. destruct (uadd _ _ _); [|done..].
  cbn. intros [= <- <- <-]. split; cbn; [|done]. by apply map_Forall_insert_2.
Qed.
Lemma create_mutex_unnamed {B : Build} s g p attr st rc s' g' :
  unnamed s → dos_create_mutex_sem (E:=()) s g p attr st = Ok (rc, s', g') → unnamed s'.
Proof.
  intros [He Hm]. unfold dos_create_mutex_sem, create_mutex. destruct (uadd _ _ _); [|done..].
  cbn. intros [= <- <- <-]. split; cbn; [done|]. by apply map_Forall_insert_2.
Qed.
Lemma open_by_name_fails rgs s order g psz p :
  unnamed s → psz ≠ 0 → dos_open_event_sem rgs s order g psz p = (2, g) ∧
                        dos_open_mutex_sem rgs s order g psz p = (2, g).
Proof.
  intros [He Hm] Hp. unfold dos_open_event_sem, dos_open_mutex_sem.
  rewrite (proj2 (Z.eqb_neq psz 0)) by done. unfold open_event_by_name, open_mutex_by_name. split.
  - rewrite (proj2 (list_find_None _ _)); [done|]. apply Forall_forall. intros h _.
    unfold get_event. case_bool_decide; [|done]. destruct (events s !! h) as [e|] eqn:Hh; [|done].
    cbn. by rewrite (He h e Hh).
  - rewrite (proj2 (list_find_None _ _)); [done|]. apply Forall_forall. intros h _.
    unfold get_mutex. case_bool_decide; [|done]. destruct (mutexes s !! h) as [e|] eqn:Hh; [|done].
    cbn. by rewrite (Hm h e Hh).
Qed.

(** * Queue messages *)

(** [g'] is [g] with a range stored: the one byte string of a write that is in bounds. *)
Lemma write_bytes_ok g p d :
  mem_wf g → Forall is_byte d → p + len d ≤ GuestMem.size g →
  ∃ g', write_bytes g p d = Some g' ∧ mem_wf g' ∧ GuestMem.size g' = GuestMem.size g ∧
    load_bytes g' p (length d) = d ∧
    ∀ q n, q + Z.of_nat n ≤ p ∨ p + len d ≤ q → load_bytes g' q n = load_bytes g q n.
Proof.
  intros Hg Hd Hp. exists (store_bytes g p d). unfold write_bytes.
  rewrite (proj2 (ptr_at_Some g p (len d) p (proj2 (mem_size g Hg)))) by done. split_and!.
  - done.
  - by apply store_bytes_wf.
  - apply store_bytes_size.
  - apply load_store_bytes.
  - intros. by apply load_store_other.
Qed.
Lemma put32_ok g p v :
  mem_wf g → p + 4 ≤ GuestMem.size g →
  mem_wf (put32 g p v) ∧ GuestMem.size (put32 g p v) = GuestMem.size g ∧
  load_bytes (put32 g p v) p 4 = le_bytes 4 v ∧
  ∀ q n, q + Z.of_nat n ≤ p ∨ p + 4 ≤ q → load_bytes (put32 g p v) q n = load_bytes g q n.
Proof.
  intros Hg Hp. unfold put32. rewrite write_ok by (first [apply Hg|lia]). cbn [default].
  split_and!.
  - apply store_bytes_wf; [done|apply le_bytes_bytes].
  - apply store_bytes_size.
  - apply (load_store_bytes g p (le_bytes 4 v)).
  - intros. apply load_store_other. unfold len. rewrite length_le_bytes. lia.
Qed.
Lemma put8_ok g p v :
  mem_wf g → p + 1 ≤ GuestMem.size g →
  mem_wf (put8 g p v) ∧ GuestMem.size (put8 g p v) = GuestMem.size g ∧
  load_bytes (put8 g p v) p 1 = le_bytes 1 v ∧
  ∀ q n, q + Z.of_nat n ≤ p ∨ p + 1 ≤ q → load_bytes (put8 g p v) q n = load_bytes g q n.
Proof.
  intros Hg Hp. unfold put8. rewrite write_ok by (first [apply Hg|lia]). cbn [default].
  split_and!.
  - apply store_bytes_wf; [done|apply le_bytes_bytes].
  - apply store_bytes_size.
  - apply (load_store_bytes g p (le_bytes 1 v)).
  - intros. apply load_store_other. unfold len. rewrite length_le_bytes. lia.
Qed.

(** The result cells of a read: distinct, inside memory, outside the heap [lo, hi). *)
Definition cells_ok (g : GuestMemory) (lo hi : Z) (cells : list (Z * Z)) : Prop :=
  Forall (λ c, 0 ≤ c.1 ∧ c.1 + c.2 ≤ GuestMem.size g ∧ (c.1 + c.2 ≤ lo ∨ hi ≤ c.1)) cells ∧
  ∀ i j c d, (i < j)%nat → cells !! i = Some c → cells !! j = Some d →
             c.1 + c.2 ≤ d.1 ∨ d.1 + d.2 ≤ c.1.

(** DosReadQueue delivers the oldest message intact: it takes the head of the queue and no
    other entry and either puts its bytes in a fresh block of the guest heap, with the block's
    address, the length, the event code and the priority byte in the caller's cells, and
    answers 0; or, when the heap has no room, answers 8 and the message is lost. *)
Theorem read_queue_delivers {B : Build} (m : QueueManager) (mm : MemoryManager)
    (g : GuestMemory) (hq base preq pcb ppbuf wait pprio : Z) (q : OS2Queue)
    (e : QueueEntry) (rest : list QueueEntry) :
  queues m !! hq = Some q → items q = e :: rest →
  0 < len (data e) < M32 → Forall is_byte (data e) → u32 (event e) →
  mem_wf g → inv base mm → heap_top base mm ≤ GuestMem.size g →
  0 < preq → preq + 4 < M32 → 0 < pprio →
  cells_ok g base (heap_top base mm) [(ppbuf, 4); (pcb, 4); (preq + 4, 4); (pprio, 1)] →
  ∃ rc m' mm' g',
    read_queue_turn (E:=()) false m mm g hq preq pcb ppbuf wait pprio = Ok (Some (rc, m', mm', g')) ∧
    m' = set_queue m hq (with_items q rest) ∧ inv base mm' ∧
    ((rc = 8 ∧ mm' = mm ∧ g' = g) ∨
     (rc = 0 ∧ ∃ a, load_bytes g' a (length (data e)) = data e ∧
        (∃ sz, allocated mm' = allocated mm ++ [mk_block a sz] ∧ len (data e) ≤ sz) ∧
        read32 g' ppbuf = Some a ∧ read32 g' pcb = Some (len (data e)) ∧
        read32 g' (preq + 4) = Some (event e) ∧ read8 g' pprio = Some (priority e mod 256))).
Proof.
  intros Hq Hitems Hlen Hbytes Hev Hg Hinv Htop Hpreq Hpreq4 Hpprio [Hcells Hdisj].
  unfold read_queue_turn. rewrite Hq. cbn [fmap option_fmap option_map]. rewrite Hitems.
  rewrite (as_u_small M32 (len (data e))) by lia.
  destruct (alloc_spec (E:=()) base mm (len (data e)) Hinv ltac:(unfold u32; lia))
    as (r & mm' & Hal & Hinv' & Hlim & Hr). rewrite Hal. out_simpl.
  destruct r as [a|].
  2: { destruct Hr as [-> _]. eexists _, _, _, _. split; [done|]. split_and!; [done..|by left]. }
  pose proof (page_round (len (data e)) ltac:(lia)) as [Hsz _].
  set (sz := Z.land (len (data e) + 4095) (Z.lnot 4095)) in *.
  assert (base ≤ a ∧ a + sz ≤ heap_top base mm ∧ 0 ≤ base ∧ heap_top base mm < M32) as (Ha1 & Ha2 & Hb0 & Hb1).
  { destruct Hinv' as [Hb _ Hrg Hok _ _]. rewrite Hr in Hok. rewrite <- (assoc_L (++)) in Hok.
    apply Forall_app in Hok as [_ Hok]. apply Forall_app in Hok as [Hok _].
    apply Forall_cons in Hok as [Hok _]. unfold block_ok, heap_top in *. rewrite Hlim in *.
    cbn in Hok. lia. }
  apply Forall_cons in Hcells as [C1 Hcells]. apply Forall_cons in Hcells as [C2 Hcells].
  apply Forall_cons in Hcells as [C3 Hcells]. apply Forall_cons in Hcells as [C4 _].
  pose proof (Hdisj 0 1 _ _ ltac:(lia) eq_refl eq_refl)%nat as D01.
  pose proof (Hdisj 0 2 _ _ ltac:(lia) eq_refl eq_refl)%nat as D02.
  pose proof (Hdisj 0 3 _ _ ltac:(lia) eq_refl eq_refl)%nat as D03.
  pose proof (Hdisj 1 2 _ _ ltac:(lia) eq_refl eq_refl)%nat as D12.
  pose proof (Hdisj 1 3 _ _ ltac:(lia) eq_refl eq_refl)%nat as D13.
  pose proof (Hdisj 2 3 _ _ ltac:(lia) eq_refl eq_refl)%nat as D23.
  cbn [fst snd] in *. clear Hdisj.
  destruct (write_bytes_ok g a (data e) Hg Hbytes ltac:(lia)) as (g0 & -> & W0 & S0 & L0 & F0).
  cbn [default].
  destruct (put32_ok g0 ppbuf a W0 ltac:(lia)) as (W1 & S1 & L1 & F1).
  set (g1 := put32 g0 ppbuf a) in *.
  destruct (put32_ok g1 pcb (len (data e)) W1 ltac:(lia)) as (W2 & S2 & L2 & F2).
  set (g2 := put32 g1 pcb (len (data e))) in *.
  zbool. rewrite uadd_ok by lia. out_simpl.
  destruct (put32_ok g2 (preq + 4) (event e) W2 ltac:(lia)) as (W3 & S3 & L3 & F3).
  set (g3 := put32 g2 (preq + 4) (event e)) in *. zbool.
  destruct (put8_ok g3 pprio (as_u M8 (priority e)) W3 ltac:(lia)) as (W4 & S4 & L4 & F4).
  set (g4 := put8 g3 pprio (as_u M8 (priority e))) in *.
  eexists _, _, _, _. split; [done|]. split_and!; [done..|]. right. split; [done|].
  assert (Hrd : ∀ n p v, p + Z.of_nat n ≤ GuestMem.size g → 0 ≤ v < 256 ^ Z.of_nat n →
            load_bytes g4 p n = le_bytes n v → read n g4 p = Some v).
  { intros n p v Hp Hv Hl. rewrite read_ok; [|apply W4|lia]. f_equal.
    rewrite Hl. by apply le_val_bytes. }
  exists a. split_and!.
  - rewrite F4, F3, F2, F1 by (unfold len in *; lia). exact L0.
  - exists sz. split; [done|lia].
  - apply Hrd; [lia..|]. by rewrite F4, F3, F2 by lia.
  - apply Hrd; [lia..|]. by rewrite F4, F3 by lia.
  - apply Hrd; [lia|unfold u32 in Hev; lia|]. by rewrite F4 by lia.
  - apply Hrd; [lia|pose proof (Z.mod_pos_bound (priority e) 256); lia|exact L4].
Qed.

Definition demo_queue : QueueManager :=
  mk_queues {[1 := mk_queue (str "Q") [mk_entry (str "hi") 7 3] 0]} {[1]} 2.
Lemma demo_cells_ok :
  cells_ok (GuestMem.alloc 0x9000) 0x1000 (heap_top 0x1000 (MemMgr.new 0x1000 0x8000))
    [(0x300, 4); (0x200, 4); (0x104, 4); (0x400, 1)].
Proof.
  split.
  - repeat apply Forall_cons_2; try apply Forall_nil_2; vm_compute; split_and!; try done; by left.
  - intros i j c d Hij Hi Hj.
    destruct i as [|[|[|[|i]]]], j as [|[|[|[|j]]]]; simplify_eq/=; lia.
Qed.
Lemma read_queue_delivers_witness :
  ∃ rc m' mm' g' a, read_queue_turn (B:=dev_profile) (E:=()) false demo_queue
      (MemMgr.new 0x1000 0x8000) (GuestMem.alloc 0x9000) 1 0x100 0x200 0x300 0 0x400
    = Ok (Some (rc, m', mm', g')) ∧ (rc = 0 → load_bytes g' a 2 = str "hi").
Proof.
  assert (Forall is_byte (str "hi")) as Hb by (repeat constructor; done).
  destruct (read_queue_delivers (B:=dev_profile) demo_queue (MemMgr.new 0x1000 0x8000)
     (GuestMem.alloc 0x9000) 1 0x1000 0x100 0x200 0x300 0 0x400
     (mk_queue (str "Q") [mk_entry (str "hi") 7 3] 0) (mk_entry (str "hi") 7 3) []
     eq_refl eq_refl ltac:(done) Hb ltac:(done) (alloc_wf 0x9000 ltac:(done))
     (new_inv 0x1000 0x8000 ltac:(done) ltac:(done) ltac:(done)) ltac:(done) ltac:(done)
     ltac:(done) ltac:(done) demo_cells_ok)
    as (rc & m' & mm' & g' & H & _ & _ & [(-> & _)|(-> & a & Hl & _)]).
  - exists 8, m', mm', g', 0. split; [exact H|done].
  - exists 0, m', mm', g', a. split; [exact H|]. intros _. exact Hl.
Defined.
