(* ===== verification/Console.v ===== *)
(** The screen of the VIO subsystem (src/src/loader/console.rs): the cell buffer, the cursor,
    the text and scroll operations, and the escape sequences each operation prints.

    An operation gives the new screen and the bytes it writes to stdout.  [io::stdout] accepts
    every write (the source drops the results).  The terminal attributes saved for the raw
    mode, and the two fields of the cooked standard input, are not part of the record. *)
From S2P Require Import Prelude Bytes Codepage.

(** [CGA_TO_ANSI_FG], [CGA_TO_ANSI_BG] *)
Definition CGA_TO_ANSI_FG : list Z := [30; 34; 32; 36; 31; 35; 33; 37].
Definition CGA_TO_ANSI_BG : list Z := [40; 44; 42; 46; 41; 45; 43; 47].

(** A cell: the decoded character and its attribute. *)
Abbreviation Cell := (Z * Z)%type.

Record VioManager := mk_vio {
  buffer : list Cell;
  raw_bytes : list Z;
  rows : Z;
  cols : Z;
  cursor_row : Z;
  cursor_col : Z;
  cursor_visible : bool;
  cursor_start : Z;
  cursor_end : Z;
  ansi_mode : bool;
  codepage : Z;
  sdl2_mode : bool;
}.

Definition with_cells (v : VioManager) (b : list Cell) (r : list Z) : VioManager :=
  mk_vio b r (rows v) (cols v) (cursor_row v) (cursor_col v) (cursor_visible v)
         (cursor_start v) (cursor_end v) (ansi_mode v) (codepage v) (sdl2_mode v).
Definition with_size (v : VioManager) (r c : Z) : VioManager :=
  mk_vio (buffer v) (raw_bytes v) r c (cursor_row v) (cursor_col v) (cursor_visible v)
         (cursor_start v) (cursor_end v) (ansi_mode v) (codepage v) (sdl2_mode v).
Definition with_cursor (v : VioManager) (r c : Z) : VioManager :=
  mk_vio (buffer v) (raw_bytes v) (rows v) (cols v) r c (cursor_visible v)
         (cursor_start v) (cursor_end v) (ansi_mode v) (codepage v) (sdl2_mode v).
Definition with_visible (v : VioManager) (b : bool) : VioManager :=
  mk_vio (buffer v) (raw_bytes v) (rows v) (cols v) (cursor_row v) (cursor_col v) b
         (cursor_start v) (cursor_end v) (ansi_mode v) (codepage v) (sdl2_mode v).
Definition with_ansi (v : VioManager) (b : bool) : VioManager :=
  mk_vio (buffer v) (raw_bytes v) (rows v) (cols v) (cursor_row v) (cursor_col v)
         (cursor_visible v) (cursor_start v) (cursor_end v) b (codepage v) (sdl2_mode v).
Definition with_sdl2 (v : VioManager) : VioManager :=
  mk_vio (buffer v) (raw_bytes v) (rows v) (cols v) (cursor_row v) (cursor_col v)
         (cursor_visible v) (cursor_start v) (cursor_end v) (ansi_mode v) (codepage v) true.

Definition SPACE := 0x20.
Definition BLANK : Cell := (SPACE, 0x07).

(** [VioManager::new], with the size [detect_terminal_size] found. *)
Definition new (size : option (Z * Z)) : VioManager :=
  let '(rows, cols) := match size with
                       | Some (r, c) => if (0 <? r) && (0 <? c) then (r, c) else (25, 80)
                       | None => (25, 80)
                       end in
  let size := Z.to_nat (rows * cols) in
  mk_vio (replicate size BLANK) (replicate size SPACE) rows cols 0 0 true 14 15 true 437 false.

Section console.
Context {B : Build}.
(** The decoder of encoding_rs. *)
Context (enc_decode : Encoding → bytes → rstring).

Abbreviation con := (outcome ()) (only parsing).

(** [self.buffer[i] = cell; self.raw_bytes[i] = raw] when [i] is inside the buffer. *)
Definition put (v : VioManager) (i : Z) (cell : Cell) (raw : Z) : con VioManager :=
  if i <? len (buffer v) then
    if i <? len (raw_bytes v) then
      Ok (with_cells v (<[Z.to_nat i := cell]> (buffer v)) (<[Z.to_nat i := raw]> (raw_bytes v)))
    else Panic
  else Ok v.

(** The cell and raw byte of index [src] copied to [dst], when both are inside. *)
Definition copy (dst src : Z) (v : VioManager) : con VioManager :=
  if (src <? len (buffer v)) && (dst <? len (buffer v)) then
    cell ← unwrap (idx (buffer v) src);
    raw ← unwrap (idx (raw_bytes v) src);
    put v dst cell raw
  else Ok v.

(** ** Escape sequences *)

Definition ESC := 0x1B.
Definition csi (s : bytes) : bytes := ESC :: str "[" ++ s.
(** [write!(stdout, "\x1b[{};{}H", row + 1, col + 1)] *)
Definition goto (row col : Z) : con bytes :=
  r ← uadd M16 row 1;
  c ← uadd M16 col 1;
  Ok (csi (dec_str r ++ str ";" ++ dec_str c ++ str "H")).
Definition RESET : bytes := csi (str "0m").
Definition goto_cursor (v : VioManager) : con bytes := goto (cursor_row v) (cursor_col v).

(** [write_ansi_attr] *)
Definition write_ansi_attr (attr : Z) : bytes :=
  let fg_idx := Z.land attr 0x07 in
  let fg_bright := negb (Z.land attr 0x08 =? 0) in
  let bg_idx := Z.land (Z.shiftr attr 4) 0x07 in
  let fg := nth (Z.to_nat fg_idx) CGA_TO_ANSI_FG 0 in
  let bg := nth (Z.to_nat bg_idx) CGA_TO_ANSI_BG 0 in
  if fg_bright then csi (dec_str fg ++ str ";" ++ dec_str bg ++ str ";1m")
  else csi (dec_str fg ++ str ";" ++ dec_str bg ++ str "m").

(** [write_char] *)
Definition write_char (ch : Z) : bytes := as_bytes [ch].

(** Output of terminal mode only. *)
Definition terminal (v : VioManager) (out : con bytes) : con bytes :=
  if sdl2_mode v then Ok [] else out.

(** [decode_vio_byte] *)
Definition decode_vio_byte (b cp : Z) : Z :=
  if b <? 0x80 then b
  else match cp_decode enc_decode [b] cp with
       | c :: _ => c
       | [] => b
       end.

(** ** Resizing *)

(** The copy loop of [resize], into the new buffers. *)
Definition resize_cell (v : VioManager) (new_cols r c : Z) (b : list Cell * list Z)
    : con (list Cell * list Z) :=
  let src := r * cols v + c in
  let dst := r * new_cols + c in
  cell ← unwrap (idx (buffer v) src);
  raw ← unwrap (idx (raw_bytes v) src);
  if (dst <? len b.1) && (dst <? len b.2) then
    Ok (<[Z.to_nat dst := cell]> b.1, <[Z.to_nat dst := raw]> b.2)
  else Panic.

Definition resize (v : VioManager) (new_rows new_cols : Z) : con VioManager :=
  if (rows v =? new_rows) && (cols v =? new_cols) then Ok v
  else
    let new_size := Z.to_nat (new_rows * new_cols) in
    let copy_rows := Z.min (rows v) new_rows in
    let copy_cols := Z.min (cols v) new_cols in
    '(b, r) ← for_in (range 0 copy_rows) (λ r b,
                for_in (range 0 copy_cols) (λ c b, resize_cell v new_cols r c b) b)
                (replicate new_size BLANK, replicate new_size SPACE);
    Ok (with_cursor (with_size (with_cells v b r) new_rows new_cols)
          (Z.min (cursor_row v) (saturating_sub new_rows 1))
          (Z.min (cursor_col v) (saturating_sub new_cols 1))).

Definition enable_sdl2_mode (v : VioManager) : con VioManager := resize (with_sdl2 v) 25 80.

Definition set_cursor_shape (v : VioManager) (start end_ : Z) : VioManager :=
  mk_vio (buffer v) (raw_bytes v) (rows v) (cols v) (cursor_row v) (cursor_col v)
         (cursor_visible v) start end_ (ansi_mode v) (codepage v) (sdl2_mode v).

(** ** Scrolling *)

(** The rows of [l], each filled with the fill cell, and each copied from the row the
    counter [src] gives. *)
Definition fill_rows (l : list Z) (fill_cell : Cell) (fill_raw : Z) (v : VioManager)
    : con VioManager :=
  for_in l (λ row v,
    for_in (range 0 (cols v)) (λ c v, put v (row * cols v + c) fill_cell fill_raw) v) v.
Definition copy_rows (l : list Z) (src : Z → con Z) (v : VioManager) : con VioManager :=
  for_in l (λ row v,
    s ← src row;
    for_in (range 0 (cols v)) (λ c v, copy (row * cols v + c) (s * cols v + c) v) v) v.

(** The scroll region [top..bottom] selected, [scroll] printed in it, and the cursor put back. *)
Definition in_region (v : VioManager) (top bottom : Z) (scroll : con bytes) : con bytes :=
  t ← uadd M16 top 1;
  b ← uadd M16 bottom 1;
  s ← scroll;
  g ← goto_cursor v;
  Ok (csi (dec_str t ++ str ";" ++ dec_str b ++ str "r") ++ s ++ csi (str ";r") ++ g).
(** The number of rows of the region. *)
Definition height (top bottom : Z) : con Z := d ← usub M16 bottom top; uadd M16 d 1.

Definition scroll_up (v : VioManager) (top bottom lines : Z) (fill_cell : Cell) (fill_raw : Z)
    : con (VioManager * bytes) :=
  if (bottom <? top) || (rows v <=? bottom) then Ok (v, [])
  else if lines =? 0 then
    v ← fill_rows (range_incl top bottom) fill_cell fill_raw v;
    out ← terminal v (in_region v top bottom
            (h ← height top bottom; Ok (concat (replicate (Z.to_nat h) (csi (str "1S"))))));
    Ok (v, out)
  else
    h ← height top bottom;
    let lines := Z.min lines h in
    stop ← d ← usub M16 bottom lines; uadd M16 d 1;
    v ← copy_rows (range top stop) (λ row, uadd M16 row lines) v;
    v ← fill_rows (range_incl stop bottom) fill_cell fill_raw v;
    out ← terminal v
      (last ← usub M16 (rows v) 1;
       if (top =? 0) && (bottom =? last) then
         b ← uadd M16 bottom 1;
         g ← goto_cursor v;
         Ok (concat (replicate (Z.to_nat lines) (csi (dec_str b ++ str ";1H") ++ [0x0A])) ++ g)
       else in_region v top bottom (Ok (csi (dec_str lines ++ str "S"))));
    Ok (v, out).

Definition scroll_down (v : VioManager) (top bottom lines : Z) (fill_cell : Cell) (fill_raw : Z)
    : con (VioManager * bytes) :=
  if (bottom <? top) || (rows v <=? bottom) then Ok (v, [])
  else if lines =? 0 then
    v ← fill_rows (range_incl top bottom) fill_cell fill_raw v;
    out ← terminal v (in_region v top bottom
            (h ← height top bottom; Ok (concat (replicate (Z.to_nat h) (csi (str "1T"))))));
    Ok (v, out)
  else
    h ← height top bottom;
    let lines := Z.min lines h in
    start ← uadd M16 top lines;
    v ← copy_rows (rev (range_incl start bottom)) (λ row, usub M16 row lines) v;
    v ← fill_rows (range top start) fill_cell fill_raw v;
    out ← terminal v (in_region v top bottom (Ok (csi (dec_str lines ++ str "T"))));
    Ok (v, out).

(** ** Text *)

(** [if self.cursor_row >= self.rows { scroll; self.cursor_row = self.rows - 1 }] *)
Definition scroll_at_end (v : VioManager) : con (VioManager * bytes) :=
  if rows v <=? cursor_row v then
    last ← usub M16 (rows v) 1;
    '(v, out) ← scroll_up v 0 last 1 BLANK SPACE;
    last ← usub M16 (rows v) 1;
    Ok (with_cursor v last (cursor_col v), out)
  else Ok (v, []).

(** [self.cursor_row += 1; self.cursor_col = 0] and the scroll *)
Definition next_line (v : VioManager) : con (VioManager * bytes) :=
  r ← uadd M16 (cursor_row v) 1;
  scroll_at_end (with_cursor v r 0).

(** One byte of [write_tty]; [applied] tells whether the colour was printed. *)
Definition tty_byte (attr cp ch : Z) (v : VioManager) (applied : bool)
    : con (VioManager * bool * bytes) :=
  let sdl2 := sdl2_mode v in
  if ch =? 0x0A then
    '(v, o) ← next_line v;
    if sdl2 then Ok (v, applied, o)
    else Ok (v, false, o ++ (if applied then RESET else []) ++ [0x0A])
  else if ch =? 0x0D then
    Ok (with_cursor v (cursor_row v) 0, applied, if sdl2 then [] else [0x0D])
  else if ch =? 0x08 then
    let c := if 0 <? cursor_col v then cursor_col v - 1 else cursor_col v in
    Ok (with_cursor v (cursor_row v) c, applied, if sdl2 then [] else [0x08])
  else if ch =? 0x07 then
    Ok (v, applied, if sdl2 then [] else [0x07])
  else
    let decoded := decode_vio_byte ch cp in
    v ← (if (cursor_row v <? rows v) && (cursor_col v <? cols v) then
           put v (cursor_row v * cols v + cursor_col v) (decoded, attr) ch
         else Ok v);
    c ← uadd M16 (cursor_col v) 1;
    let v := with_cursor v (cursor_row v) c in
    '(v, o) ← (if cols v <=? cursor_col v then next_line v else Ok (v, []));
    if sdl2 then Ok (v, applied, o)
    else Ok (v, true, o ++ (if applied then [] else write_ansi_attr attr) ++ write_char decoded).

Fixpoint tty_loop (attr cp : Z) (text : bytes) (v : VioManager) (applied : bool)
    : con (VioManager * bool * bytes) :=
  match text with
  | [] => Ok (v, applied, [])
  | ch :: text =>
    '(v, applied, o1) ← tty_byte attr cp ch v applied;
    '(v, applied, o2) ← tty_loop attr cp text v applied;
    Ok (v, applied, o1 ++ o2)
  end.

Definition write_tty (v : VioManager) (text : bytes) (attr cp : Z) : con (VioManager * bytes) :=
  '(v, applied, o) ← tty_loop attr cp text v false;
  Ok (v, if sdl2_mode v then o else o ++ (if (applied : bool) then RESET else [])).

(** The frame of the three positioned writes: the cursor sent to (row, col) with the colour,
    the cells, and the cursor back. *)
Definition positioned (v : VioManager) (row col attr : Z)
    (cells : VioManager → con (VioManager * bytes)) : con (VioManager * bytes) :=
  o1 ← terminal v (g ← goto row col; Ok (g ++ write_ansi_attr attr));
  '(v, o2) ← cells v;
  o3 ← terminal v (g ← goto_cursor v; Ok (RESET ++ g));
  Ok (v, o1 ++ o2 ++ o3).

(** The loop over the text; [c] stays at most [cols]. *)
Fixpoint char_str_loop (row c attr cp : Z) (text : bytes) (v : VioManager)
    : con (VioManager * bytes) :=
  match text with
  | [] => Ok (v, [])
  | ch :: text =>
    if cols v <=? c then Ok (v, [])
    else
      let decoded := decode_vio_byte ch cp in
      v ← put v (row * cols v + c) (decoded, attr) ch;
      let o := if sdl2_mode v then [] else write_char decoded in
      c ← uadd M16 c 1;
      '(v, o') ← char_str_loop row c attr cp text v;
      Ok (v, o ++ o')
  end.
Definition write_char_str_att (v : VioManager) (row col : Z) (text : bytes) (attr cp : Z)
    : con (VioManager * bytes) :=
  positioned v row col attr (char_str_loop row col attr cp text).

Fixpoint n_cell_loop (n : nat) (row c raw_byte : Z) (cell : Cell) (v : VioManager)
    : con (VioManager * bytes) :=
  match n with
  | O => Ok (v, [])
  | S n =>
    if cols v <=? c then Ok (v, [])
    else
      v ← put v (row * cols v + c) cell raw_byte;
      let o := if sdl2_mode v then [] else write_char cell.1 in
      c ← uadd M16 c 1;
      '(v, o') ← n_cell_loop n row c raw_byte cell v;
      Ok (v, o ++ o')
  end.
Definition write_n_cell (v : VioManager) (row col raw_byte : Z) (cell : Cell) (count : Z)
    : con (VioManager * bytes) :=
  positioned v row col cell.2 (n_cell_loop (Z.to_nat count) row col raw_byte cell).

Fixpoint n_attr_loop (n : nat) (row c attr : Z) (v : VioManager) : con (VioManager * bytes) :=
  match n with
  | O => Ok (v, [])
  | S n =>
    if cols v <=? c then Ok (v, [])
    else
      let i := row * cols v + c in
      '(v, o) ← match idx (buffer v) i with
                | Some (ch, _) =>
                  Ok (with_cells v (<[Z.to_nat i := (ch, attr)]> (buffer v)) (raw_bytes v),
                      if sdl2_mode v then [] else write_char ch)
                | None => Ok (v, [])
                end;
      c ← uadd M16 c 1;
      '(v, o') ← n_attr_loop n row c attr v;
      Ok (v, o ++ o')
  end.
Definition write_n_attr (v : VioManager) (row col attr count : Z) : con (VioManager * bytes) :=
  positioned v row col attr (n_attr_loop (Z.to_nat count) row col attr).

(** [read_cell_str] *)
Fixpoint read_cells (n : nat) (row c : Z) (v : VioManager) : con (list Cell) :=
  match n with
  | O => Ok []
  | S n =>
    if cols v <=? c then Ok []
    else
      let here := match idx (buffer v) (row * cols v + c) with Some x => [x] | None => [] end in
      c ← uadd M16 c 1;
      rest ← read_cells n row c v;
      Ok (here ++ rest)
  end.
Definition read_cell_str (v : VioManager) (row col max_len : Z) : con (list Cell) :=
  read_cells (Z.to_nat (max_len / 2)) row col v.

Definition set_cursor_pos (v : VioManager) (row col : Z) : con (VioManager * bytes) :=
  r ← usub M16 (rows v) 1;
  c ← usub M16 (cols v) 1;
  let v := with_cursor v (Z.min row r) (Z.min col c) in
  out ← terminal v (goto_cursor v);
  Ok (v, out).

Definition set_cursor_type (v : VioManager) (visible : bool) : VioManager * bytes :=
  let v := with_visible v visible in
  (v, if sdl2_mode v then [] else csi (if visible then str "?25h" else str "?25l")).
End console.

(** * Lemmas *)

(** The cell and raw byte of an index, and a screen that differs in its cells only. *)
Definition cell_at (v : VioManager) (i : Z) : option (Cell * Z) :=
  c ← idx (buffer v) i;
  r ← idx (raw_bytes v) i;
  Some (c, r).
Record redrawn (v v' : VioManager) : Prop := {
  redrawn_frame : v' = with_cells v (buffer v') (raw_bytes v');
  redrawn_buffer : len (buffer v') = len (buffer v);
  redrawn_raw : len (raw_bytes v') = len (raw_bytes v);
}.
#[export] Instance redrawn_pre : PreOrder redrawn.
Proof.
  split; [by intros []|]. intros x y z [H1 H2 H3] [H4 H5 H6]. split; [|congruence..].
  rewrite H4 at 1. by rewrite H1.
Qed.

(** The two buffers are parallel and cover the screen; the cursor is on it. *)
Record grid_ok (v : VioManager) : Prop := {
  ok_buffer : len (buffer v) = rows v * cols v;
  ok_raw : len (raw_bytes v) = rows v * cols v;
  ok_rows : 0 < rows v < M16;
  ok_cols : 0 < cols v < M16;
}.
Record screen_ok (v : VioManager) : Prop := {
  ok_grid : grid_ok v;
  ok_row : 0 ≤ cursor_row v < rows v;
  ok_col : 0 ≤ cursor_col v < cols v;
}.

Lemma redrawn_fields v v' : redrawn v v' →
  rows v' = rows v ∧ cols v' = cols v ∧ cursor_row v' = cursor_row v ∧
  cursor_col v' = cursor_col v ∧ sdl2_mode v' = sdl2_mode v ∧ codepage v' = codepage v.
Proof. intros [-> _ _]. done. Qed.
Lemma redrawn_ok v v' : grid_ok v → redrawn v v' → grid_ok v'.
Proof.
  intros [] Hr. destruct (redrawn_fields _ _ Hr) as (E1 & E2 & _).
  destruct Hr as [_ H2 H3]. by split; rewrite ?H2, ?H3, ?E1, ?E2.
Qed.

Lemma cell_at_inside v i :
  grid_ok v → 0 ≤ i → cell_at v i = None ↔ rows v * cols v ≤ i.
Proof.
  intros [Hb Hr _ _] Hi. unfold cell_at, idx, len in *.
  destruct (Z.ltb_spec i (Z.of_nat (length (buffer v)))) as [H|H];
    rewrite (proj2 (Z.leb_le 0 i)) by lia; cbn [andb mbind option_bind].
  - split; [|lia]. rewrite (proj2 (Z.ltb_lt i (Z.of_nat (length (raw_bytes v))))) by lia.
    destruct (lookup_lt_is_Some_2 (buffer v) (Z.to_nat i)) as [? ->]; [lia|].
    destruct (lookup_lt_is_Some_2 (raw_bytes v) (Z.to_nat i)) as [? ->]; [lia|]. done.
  - split; [lia|done].
Qed.

Section lemmas.
Context {B : Build} (enc_decode : Encoding → bytes → rstring).

Lemma idx_insert {A} (l : list A) i j x : 0 ≤ i < len l → 0 ≤ j →
  idx (<[Z.to_nat i := x]> l) j = if j =? i then Some x else idx l j.
Proof.
  intros Hi Hj. unfold idx, len in *. rewrite length_insert.
  destruct (Z.eqb_spec j i) as [->|Hne].
  - rewrite (proj2 (Z.leb_le 0 i)), (proj2 (Z.ltb_lt i _)) by lia. cbn [andb].
    apply list_lookup_insert_eq. lia.
  - destruct (_ && _); [|done]. apply list_lookup_insert_ne. lia.
Qed.

Lemma put_spec v i x r : grid_ok v → 0 ≤ i →
  ∃ v', put v i x r = Ok v' ∧ redrawn v v' ∧
    ∀ j, 0 ≤ j → cell_at v' j =
      if (j =? i) && (i <? rows v * cols v) then Some (x, r) else cell_at v j.
Proof.
  intros [Hb Hr _ _] Hi. unfold put. rewrite Hb, Hr.
  destruct (Z.ltb_spec i (rows v * cols v)) as [H|H].
  - eexists. split; [done|]. split.
    + split; [done|..]; cbn; unfold len; by rewrite length_insert.
    + intros j Hj. unfold cell_at. cbn [buffer raw_bytes with_cells].
      rewrite !idx_insert by lia. by destruct (j =? i).
  - eexists. split; [done|]. split; [done|]. intros j Hj. by rewrite andb_false_r.
Qed.

Lemma copy_spec v dst src : grid_ok v → 0 ≤ dst < rows v * cols v →
  0 ≤ src < rows v * cols v →
  ∃ v', copy dst src v = Ok v' ∧ redrawn v v' ∧
    ∀ j, 0 ≤ j → cell_at v' j = if j =? dst then cell_at v src else cell_at v j.
Proof.
  intros Hv Hd Hs. pose proof Hv as [Hb Hr _ _]. unfold copy. rewrite Hb. zbool.
  destruct (cell_at v src) as [[x r]|] eqn:Hc.
  - unfold cell_at in Hc. destruct (idx (buffer v) src) as [x'|]; [|done].
    destruct (idx (raw_bytes v) src) as [r'|]; [|done]. injection Hc as -> ->.
    cbn [unwrap]. out_simpl. destruct (put_spec v dst x r Hv) as (v' & -> & Hre & Hat); [lia|].
    exists v'. split; [done|]. split; [done|]. intros j Hj. rewrite Hat by done. zbool.
    by rewrite andb_true_r.
  - apply cell_at_inside in Hc; [lia|done|lia].
Qed.

(** A row filled, and a row copied from another one. *)
Lemma fill_row v row x r : grid_ok v → 0 ≤ row →
  ∃ v', for_in (range 0 (cols v)) (λ c v, put v (row * cols v + c) x r) v = Ok v' ∧
    redrawn v v' ∧
    ∀ j, 0 ≤ j < rows v * cols v → cell_at v' j =
      if bool_decide (row * cols v ≤ j < (row + 1) * cols v) then Some (x, r) else cell_at v j.
Proof.
  intros Hv Hrow. pose proof (ok_cols v Hv) as Hc. unfold range.
  replace (cols v - 0) with (Z.of_nat (Z.to_nat (cols v))) by lia.
  destruct (for_up (E := ()) (λ c v', redrawn v v' ∧
    ∀ j, 0 ≤ j < rows v * cols v → cell_at v' j =
      if bool_decide (row * cols v ≤ j < row * cols v + c) then Some (x, r) else cell_at v j)
    0 (Z.to_nat (cols v)) (λ c v, put v (row * cols v + c) x r) v) as (v' & Hf & Hre & Hat).
  - split; [done|]. intros j Hj. rewrite bool_decide_false; [done|lia].
  - intros c v1 Hcr [Hre Hat]. destruct (redrawn_fields _ _ Hre) as (E1 & E2 & _).
    destruct (put_spec v1 (row * cols v1 + c) x r) as (v2 & -> & Hre2 & Hat2);
      [by eapply redrawn_ok|rewrite E2; nia|].
    exists v2. split; [done|]. split; [by etrans|]. intros j Hj. rewrite Hat2, Hat by lia.
    rewrite E1, E2. destruct (Z.eqb_spec j (row * cols v + c)) as [->|]; cbn [andb].
    + zbool. by rewrite bool_decide_true by lia.
    + destruct (decide (row * cols v ≤ j < row * cols v + c)).
      * rewrite !bool_decide_true by lia. done.
      * rewrite !bool_decide_false by lia. done.
  - exists v'. rewrite Z.add_0_l, Z2Nat.id in Hat by lia. split; [done|]. split; [done|].
    intros j Hj. rewrite Hat by done. by rewrite Z.mul_add_distr_r, Z.mul_1_l.
Qed.

Lemma copy_row v row s : grid_ok v → 0 ≤ row < rows v → 0 ≤ s < rows v → row ≠ s →
  ∃ v', for_in (range 0 (cols v)) (λ c v, copy (row * cols v + c) (s * cols v + c) v) v = Ok v' ∧
    redrawn v v' ∧
    ∀ j, 0 ≤ j < rows v * cols v → cell_at v' j =
      if bool_decide (row * cols v ≤ j < (row + 1) * cols v)
      then cell_at v (j - row * cols v + s * cols v) else cell_at v j.
Proof.
  intros Hv Hrow Hs Hne. pose proof (ok_cols v Hv) as Hc. unfold range.
  replace (cols v - 0) with (Z.of_nat (Z.to_nat (cols v))) by lia.
  destruct (for_up (E := ()) (λ c v', redrawn v v' ∧
    ∀ j, 0 ≤ j < rows v * cols v → cell_at v' j =
      if bool_decide (row * cols v ≤ j < row * cols v + c)
      then cell_at v (j - row * cols v + s * cols v) else cell_at v j)
    0 (Z.to_nat (cols v)) (λ c v, copy (row * cols v + c) (s * cols v + c) v) v)
    as (v' & Hf & Hre & Hat).
  - split; [done|]. intros j Hj. rewrite bool_decide_false; [done|lia].
  - intros c v1 Hcr [Hre Hat]. destruct (redrawn_fields _ _ Hre) as (E1 & E2 & _).
    assert (∀ k, 0 ≤ k < rows v → 0 ≤ k * cols v + c < rows v * cols v) as Hin by (intros; nia).
    destruct (copy_spec v1 (row * cols v1 + c) (s * cols v1 + c)) as (v2 & -> & Hre2 & Hat2);
      [by eapply redrawn_ok|rewrite E1, E2; auto..|].
    exists v2. split; [done|]. split; [by etrans|]. intros j Hj. rewrite Hat2 by lia.
    rewrite E2. destruct (Z.eqb_spec j (row * cols v + c)) as [->|].
    + rewrite Hat by auto. rewrite bool_decide_false, bool_decide_true by nia. f_equal. lia.
    + rewrite Hat by done. destruct (decide (row * cols v ≤ j < row * cols v + c)).
      * rewrite !bool_decide_true by lia. done.
      * rewrite !bool_decide_false by lia. done.
  - exists v'. rewrite Z.add_0_l, Z2Nat.id in Hat by lia. split; [done|]. split; [done|].
    intros j Hj. rewrite Hat by done. by rewrite Z.mul_add_distr_r, Z.mul_1_l.
Qed.

Lemma range_incl_range a b : range_incl a b = range a (b + 1).
Proof. unfold range_incl, range. f_equal. lia. Qed.
Lemma range_nat a b : a ≤ b → range a b = seqZ a (Z.of_nat (Z.to_nat (b - a))).
Proof. intros. unfold range. f_equal. lia. Qed.

(** Consecutive rows filled, and consecutive rows moved up or down by [n] rows. *)
Lemma fill_rows_spec v a b x r : grid_ok v → 0 ≤ a → a ≤ b →
  ∃ v', fill_rows (range a b) x r v = Ok v' ∧ redrawn v v' ∧
    ∀ j, 0 ≤ j < rows v * cols v → cell_at v' j =
      if bool_decide (a * cols v ≤ j < b * cols v) then Some (x, r) else cell_at v j.
Proof.
  intros Hv Ha Hab. pose proof (ok_cols v Hv) as Hc. unfold fill_rows. rewrite range_nat by done.
  edestruct (for_up (E := ()) (λ k v', redrawn v v' ∧
    ∀ j, 0 ≤ j < rows v * cols v → cell_at v' j =
      if bool_decide (a * cols v ≤ j < k * cols v) then Some (x, r) else cell_at v j)
    a (Z.to_nat (b - a))) as (v' & Hf & Hre & Hat);
    [..|exists v'; split; [exact Hf|]; split; [exact Hre|]; intros j Hj;
        rewrite Hat by done; by replace (a + Z.of_nat (Z.to_nat (b - a))) with b by lia].
  - split; [done|]. intros j Hj. rewrite bool_decide_false; [done|lia].
  - intros k v1 Hk [Hre Hat]. destruct (redrawn_fields _ _ Hre) as (E1 & E2 & _).
    destruct (fill_row v1 k x r) as (v2 & -> & Hre2 & Hat2); [by eapply redrawn_ok|lia|].
    exists v2. split; [done|]. split; [by etrans|]. intros j Hj.
    rewrite Hat2 by (rewrite E1, E2; lia). rewrite Hat, E2 by lia.
    repeat case_bool_decide; try done; nia.
Qed.

Lemma rows_up_spec v a b n : grid_ok v → 0 ≤ a → a ≤ b → 0 < n → b + n ≤ rows v →
  ∃ v', copy_rows (range a b) (λ row, uadd M16 row n) v = Ok v' ∧ redrawn v v' ∧
    ∀ j, 0 ≤ j < rows v * cols v → cell_at v' j =
      if bool_decide (a * cols v ≤ j < b * cols v)
      then cell_at v (j + n * cols v) else cell_at v j.
Proof.
  intros Hv Ha Hab Hn Hb. pose proof (ok_cols v Hv) as Hc. pose proof (ok_rows v Hv).
  unfold copy_rows. rewrite range_nat by done.
  edestruct (for_up (E := ()) (λ k v', redrawn v v' ∧
    ∀ j, 0 ≤ j < rows v * cols v → cell_at v' j =
      if bool_decide (a * cols v ≤ j < k * cols v)
      then cell_at v (j + n * cols v) else cell_at v j)
    a (Z.to_nat (b - a))) as (v' & Hf & Hre & Hat);
    [..|exists v'; split; [exact Hf|]; split; [exact Hre|]; intros j Hj;
        rewrite Hat by done; by replace (a + Z.of_nat (Z.to_nat (b - a))) with b by lia].
  - split; [done|]. intros j Hj. rewrite bool_decide_false; [done|lia].
  - intros k v1 Hk [Hre Hat]. destruct (redrawn_fields _ _ Hre) as (E1 & E2 & _).
    rewrite uadd_ok by lia. out_simpl.
    destruct (copy_row v1 k (k + n)) as (v2 & -> & Hre2 & Hat2); [by eapply redrawn_ok|lia..|].
    exists v2. split; [done|]. split; [by etrans|]. intros j Hj.
    rewrite Hat2 by (rewrite E1, E2; lia). rewrite E2.
    case_bool_decide as H1.
    + rewrite Hat by nia. rewrite bool_decide_false by nia. rewrite bool_decide_true by nia.
      f_equal. lia.
    + rewrite Hat by lia. repeat case_bool_decide; try done; nia.
Qed.

Lemma rows_down_spec v a b n : grid_ok v → n ≤ a → a ≤ b → 0 < n → b ≤ rows v →
  ∃ v', copy_rows (rev (range a b)) (λ row, usub M16 row n) v = Ok v' ∧ redrawn v v' ∧
    ∀ j, 0 ≤ j < rows v * cols v → cell_at v' j =
      if bool_decide (a * cols v ≤ j < b * cols v)
      then cell_at v (j - n * cols v) else cell_at v j.
Proof.
  intros Hv Ha Hab Hn Hb. pose proof (ok_cols v Hv) as Hc. pose proof (ok_rows v Hv).
  unfold copy_rows. rewrite range_nat by done.
  edestruct (for_down (E := ()) (λ k v', redrawn v v' ∧
    ∀ j, 0 ≤ j < rows v * cols v → cell_at v' j =
      if bool_decide (k * cols v ≤ j < b * cols v)
      then cell_at v (j - n * cols v) else cell_at v j)
    a (Z.to_nat (b - a))) as (v' & Hf & Hre & Hat);
    [..|exists v'; split; [exact Hf|]; split; [exact Hre|]; exact Hat].
  - split; [done|]. intros j Hj. rewrite bool_decide_false; [done|]. nia.
  - intros k v1 Hk [Hre Hat]. destruct (redrawn_fields _ _ Hre) as (E1 & E2 & _).
    rewrite usub_ok by lia. out_simpl.
    destruct (copy_row v1 k (k - n)) as (v2 & -> & Hre2 & Hat2); [by eapply redrawn_ok|lia..|].
    exists v2. split; [done|]. split; [by etrans|]. intros j Hj.
    rewrite Hat2 by (rewrite E1, E2; lia). rewrite E2.
    case_bool_decide as H1.
    + rewrite Hat by nia. rewrite bool_decide_false by nia. rewrite bool_decide_true by nia.
      f_equal. lia.
    + rewrite Hat by lia. repeat case_bool_decide; try done; nia.
Qed.

(** Printing succeeds when the cursor coordinates plus one fit. *)
Lemma goto_ok r c : r + 1 < M16 → c + 1 < M16 → ∃ o, goto r c = Ok o.
Proof. intros. unfold goto. arith_ok. by eexists. Qed.
Lemma terminal_ok v out : (∃ o, out = Ok o) → ∃ o, terminal v out = Ok o.
Proof. intros [o ->]. unfold terminal. destruct (sdl2_mode v); by eexists. Qed.
Lemma terminal_sdl2 v out : sdl2_mode v = true → terminal v out = Ok [].
Proof. intros H. unfold terminal. by rewrite H. Qed.
Lemma height_ok top bottom : 0 ≤ top ≤ bottom → bottom + 1 < M16 →
  height top bottom = Ok (bottom - top + 1).
Proof. intros. unfold height. by arith_ok. Qed.
Lemma in_region_ok v top bottom s :
  cursor_row v + 1 < M16 → cursor_col v + 1 < M16 → 0 ≤ top ≤ bottom → bottom + 1 < M16 →
  (∃ o, s = Ok o) → ∃ o, in_region v top bottom s = Ok o.
Proof.
  intros Hr Hc Ht Hb [o ->]. unfold in_region, goto_cursor.
  destruct (goto_ok (cursor_row v) (cursor_col v)) as [g Hg]; [done..|].
  arith_ok. rewrite Hg. out_simpl. by eexists.
Qed.

(** Cell (r, c) of the screen. *)
Definition at_ (v : VioManager) (r c : Z) : option (Cell * Z) := cell_at v (r * cols v + c).

Lemma fill_rows_at v a b x r : grid_ok v → 0 ≤ a → a ≤ b →
  ∃ v', fill_rows (range a b) x r v = Ok v' ∧ redrawn v v' ∧
    ∀ i c, 0 ≤ i < rows v → 0 ≤ c < cols v →
      at_ v' i c = if bool_decide (a ≤ i < b) then Some (x, r) else at_ v i c.
Proof.
  intros Hv Ha Hab. destruct (fill_rows_spec v a b x r Hv Ha Hab) as (v' & Hf & Hre & Hat).
  exists v'. split_and!; [done..|]. intros i c Hi Hc.
  destruct (redrawn_fields _ _ Hre) as (_ & E & _). unfold at_. rewrite E, Hat by nia.
  repeat case_bool_decide; try done; nia.
Qed.
Lemma rows_up_at v a b n : grid_ok v → 0 ≤ a → a ≤ b → 0 < n → b + n ≤ rows v →
  ∃ v', copy_rows (range a b) (λ row, uadd M16 row n) v = Ok v' ∧ redrawn v v' ∧
    ∀ i c, 0 ≤ i < rows v → 0 ≤ c < cols v →
      at_ v' i c = if bool_decide (a ≤ i < b) then at_ v (i + n) c else at_ v i c.
Proof.
  intros Hv Ha Hab Hn Hb. destruct (rows_up_spec v a b n Hv Ha Hab Hn Hb) as (v' & Hf & Hre & Hat).
  exists v'. split_and!; [done..|]. intros i c Hi Hc.
  destruct (redrawn_fields _ _ Hre) as (_ & E & _). unfold at_. rewrite E, Hat by nia.
  repeat case_bool_decide; try done; try nia. f_equal. nia.
Qed.
Lemma rows_down_at v a b n : grid_ok v → n ≤ a → a ≤ b → 0 < n → b ≤ rows v →
  ∃ v', copy_rows (rev (range a b)) (λ row, usub M16 row n) v = Ok v' ∧ redrawn v v' ∧
    ∀ i c, 0 ≤ i < rows v → 0 ≤ c < cols v →
      at_ v' i c = if bool_decide (a ≤ i < b) then at_ v (i - n) c else at_ v i c.
Proof.
  intros Hv Ha Hab Hn Hb.
  destruct (rows_down_spec v a b n Hv Ha Hab Hn Hb) as (v' & Hf & Hre & Hat).
  exists v'. split_and!; [done..|]. intros i c Hi Hc.
  destruct (redrawn_fields _ _ Hre) as (_ & E & _). unfold at_. rewrite E, Hat by nia.
  repeat case_bool_decide; try done; try nia. f_equal. nia.
Qed.

(** The screen printed with the cursor on it, or just below it, never overflows. *)
Definition printable (v : VioManager) : Prop :=
  rows v < M16 - 1 ∧ 0 ≤ cursor_row v ≤ rows v ∧ 0 ≤ cursor_col v < cols v.
Lemma printable_redrawn v v' : redrawn v v' → printable v → printable v'.
Proof.
  intros Hre (? & ? & ?). destruct (redrawn_fields _ _ Hre) as (E1 & E2 & E3 & E4 & _).
  unfold printable. rewrite E1, E2, E3, E4. done.
Qed.
Lemma goto_cursor_ok v : grid_ok v → printable v → ∃ o, goto_cursor v = Ok o.
Proof. intros [] (? & ? & ?). apply goto_ok; lia. Qed.
Lemma region_ok v top bottom s : grid_ok v → printable v → 0 ≤ top ≤ bottom → bottom < rows v →
  (∃ o, s = Ok o) → ∃ o, terminal v (in_region v top bottom s) = Ok o.
Proof.
  intros [] (? & ? & ?) Ht Hb Hs. apply terminal_ok. apply in_region_ok; try done; lia.
Qed.

(** What a scroll leaves in the region: the fill cell in the vacated rows (all of them for
    [lines = 0]), the moved rows elsewhere, and the other rows as they were. *)
Definition scrolled (v v' : VioManager) (top bottom : Z) (vacated : Z → bool) (shift : Z)
    (fill : Cell * Z) : Prop :=
  redrawn v v' ∧
  ∀ r c, 0 ≤ r < rows v → 0 ≤ c < cols v →
    at_ v' r c = if bool_decide (top ≤ r ≤ bottom) then
                   if vacated r then Some fill else at_ v (r + shift) c
                 else at_ v r c.

Lemma terminal_out v v' out : redrawn v v' → (∃ o, terminal v' out = Ok o) →
  ∃ o, terminal v' out = Ok o ∧ (sdl2_mode v = true → o = []).
Proof.
  intros Hre [o Ho]. exists o. split; [done|]. intros Hs.
  destruct (redrawn_fields _ _ Hre) as (_ & _ & _ & _ & E & _).
  rewrite terminal_sdl2 in Ho by congruence. by injection Ho.
Qed.

Lemma scroll_clear v top bottom x r s :
  grid_ok v → printable v → 0 ≤ top ≤ bottom → bottom < rows v →
  ∃ v' out,
    (v' ← fill_rows (range_incl top bottom) x r v;
     out ← terminal v' (in_region v' top bottom
             (h ← height top bottom; Ok (concat (replicate (Z.to_nat h) s))));
     Ok (v', out)) = Ok (v', out) ∧
    scrolled v v' top bottom (λ _, true) 0 (x, r) ∧ (sdl2_mode v = true → out = []).
Proof.
  intros Hv Hp Ht Hb. pose proof (ok_rows v Hv). rewrite range_incl_range.
  destruct (fill_rows_at v top (bottom + 1) x r) as (v' & -> & Hre & Hat); [done|lia..|].
  out_simpl. destruct (redrawn_fields _ _ Hre) as (E1 & _).
  destruct (terminal_out v v' (in_region v' top bottom
     (h ← height top bottom; Ok (concat (replicate (Z.to_nat h) s)))) Hre) as (o & -> & Ho).
  { apply region_ok; [by eapply redrawn_ok|by eapply printable_redrawn|done|lia|].
    rewrite height_ok by lia. by eexists. }
  exists v', o. split; [done|]. split; [|done]. split; [done|]. intros i c Hi Hc.
  rewrite Hat by done. repeat case_bool_decide; try done; lia.
Qed.

Lemma scroll_up_spec v top bottom lines x r :
  grid_ok v → printable v → 0 ≤ top ≤ bottom → bottom < rows v → 0 ≤ lines →
  overflow_checks = false ∨ 0 < top ∨ lines ≤ bottom →
  ∃ v' out, scroll_up v top bottom lines x r = Ok (v', out) ∧
    scrolled v v' top bottom (λ i, (lines =? 0) || (bottom - lines <? i)) lines (x, r) ∧
    (sdl2_mode v = true → out = []).
Proof.
  intros Hv Hp Ht Hb Hl Hno. pose proof (ok_rows v Hv) as Hrows. unfold scroll_up. zbool.
  destruct (Z.eqb_spec lines 0) as [->|Hl0].
  { destruct (scroll_clear v top bottom x r (csi (str "1S"))) as (v' & o & H & [Hre Hat] & Ho);
      [done..|]. exists v', o. split; [exact H|]. done. }
  rewrite height_ok by lia. out_simpl. set (n := Z.min lines (bottom - top + 1)).
  assert (Hstop : (d ← usub M16 bottom n; uadd M16 d 1) = Ok (E := ()) (bottom - n + 1)).
  { destruct (Z.leb_spec n bottom); [by arith_ok|].
    assert (overflow_checks = false) as Hf by (destruct Hno as [?|[?|?]]; [done|lia..]).
    unfold usub, overflowing. rewrite Hf. zbool. out_simpl.
    replace (bottom - n) with (-1) by lia. unfold uadd, overflowing. rewrite Hf.
    change (-1 mod M16 + 1 <? M16) with false. done. }
  rewrite Hstop. out_simpl. rewrite range_incl_range.
  destruct (rows_up_at v top (bottom - n + 1) n) as (v1 & -> & Hre1 & Hat1); [done|lia..|].
  out_simpl. destruct (redrawn_fields _ _ Hre1) as (E1 & E1c & _).
  destruct (fill_rows_at v1 (bottom - n + 1) (bottom + 1) x r) as (v2 & -> & Hre2 & Hat2);
    [by eapply redrawn_ok|lia..|].
  out_simpl. destruct (redrawn_fields _ _ Hre2) as (E2 & _).
  assert (redrawn v v2) as Hre by (by etrans).
  match goal with |- context [terminal v2 ?o] =>
    destruct (terminal_out v v2 o Hre) as (o' & -> & Ho) end.
  { assert (grid_ok v2) as Hv2 by (by eapply redrawn_ok).
    assert (printable v2) as Hp2 by (by eapply printable_redrawn).
    rewrite usub_ok by lia. out_simpl. destruct (_ && _).
    - apply terminal_ok. rewrite uadd_ok by lia. out_simpl.
      destruct (goto_cursor_ok v2 Hv2 Hp2) as [g ->]. by eexists.
    - apply region_ok; [done..|lia|by eexists]. }
  exists v2, o'. split; [done|]. split; [|done]. split; [done|]. intros i c Hi Hc.
  rewrite Hat2, Hat1 by lia. zbool. repeat case_bool_decide; try done; try lia.
  - by zbool.
  - destruct (Z.ltb_spec (bottom - lines) i); [lia|]. do 2 f_equal. lia.
Qed.

Lemma scroll_down_spec v top bottom lines x r :
  grid_ok v → printable v → 0 ≤ top ≤ bottom → bottom < rows v → 0 ≤ lines →
  ∃ v' out, scroll_down v top bottom lines x r = Ok (v', out) ∧
    scrolled v v' top bottom (λ i, (lines =? 0) || (i <? top + lines)) (- lines) (x, r) ∧
    (sdl2_mode v = true → out = []).
Proof.
  intros Hv Hp Ht Hb Hl. pose proof (ok_rows v Hv) as Hrows. unfold scroll_down. zbool.
  destruct (Z.eqb_spec lines 0) as [->|Hl0].
  { destruct (scroll_clear v top bottom x r (csi (str "1T"))) as (v' & o & H & [Hre Hat] & Ho);
      [done..|]. exists v', o. split; [exact H|]. done. }
  rewrite height_ok by lia. out_simpl. set (n := Z.min lines (bottom - top + 1)).
  rewrite uadd_ok by lia. out_simpl. rewrite range_incl_range.
  destruct (rows_down_at v (top + n) (bottom + 1) n) as (v1 & -> & Hre1 & Hat1); [done|lia..|].
  out_simpl. destruct (redrawn_fields _ _ Hre1) as (E1 & E1c & _).
  destruct (fill_rows_at v1 top (top + n) x r) as (v2 & -> & Hre2 & Hat2);
    [by eapply redrawn_ok|lia..|].
  out_simpl. destruct (redrawn_fields _ _ Hre2) as (E2 & _).
  assert (redrawn v v2) as Hre by (by etrans).
  match goal with |- context [terminal v2 ?o] =>
    destruct (terminal_out v v2 o Hre) as (o' & -> & Ho) end.
  { apply region_ok; [by eapply redrawn_ok|by eapply printable_redrawn|lia..|by eexists]. }
  exists v2, o'. split; [done|]. split; [|done]. split; [done|]. intros i c Hi Hc.
  rewrite Hat2, Hat1 by lia. zbool. repeat case_bool_decide; try done; try lia.
  - by zbool.
  - destruct (Z.ltb_spec i (top + lines)); [lia|]. do 2 f_equal. lia.
Qed.

(** ** Text output keeps the screen *)

(** The screens [write_tty] is safe on: with overflow checks a one-row screen panics. *)
Definition tty_ok (v : VioManager) : Prop :=
  screen_ok v ∧ rows v < M16 - 1 ∧ (overflow_checks = false ∨ 2 ≤ rows v).
(** The fields text output never touches. *)
Definition same_mode (v v' : VioManager) : Prop :=
  rows v' = rows v ∧ cols v' = cols v ∧ codepage v' = codepage v ∧ sdl2_mode v' = sdl2_mode v.

Lemma tty_ok_of v v' : tty_ok v → same_mode v v' → grid_ok v' →
  0 ≤ cursor_row v' < rows v' → 0 ≤ cursor_col v' < cols v' → tty_ok v'.
Proof. intros (Hs & Hr & Hc) (E1 & E2 & _) Hg Hrow Hcol. split; [by split|]. by rewrite E1. Qed.

Lemma next_line_ok v : tty_ok v ∨ (∃ c, tty_ok (with_cursor v (cursor_row v) c)) →
  ∃ v' out, next_line v = Ok (v', out) ∧ tty_ok v' ∧ same_mode v v' ∧
    cursor_col v' = 0 ∧ cursor_row v' = Z.min (cursor_row v + 1) (rows v - 1) ∧
    (sdl2_mode v = true → out = []).
Proof.
  intros Hv. assert (grid_ok v ∧ rows v < M16 - 1 ∧ (overflow_checks = false ∨ 2 ≤ rows v) ∧
    0 ≤ cursor_row v < rows v) as (Hg & Hr & Hno & Hrow).
  { destruct Hv as [([Hg Hr Hc] & ? & ?)|[c ([Hg Hr Hc] & ? & ?)]]; [done|].
    split; [by split; destruct Hg|done]. }
  pose proof (ok_cols v Hg). unfold next_line. arith_ok. unfold scroll_at_end.
  cbn [rows cursor_row with_cursor]. destruct (Z.leb_spec (rows v) (cursor_row v + 1)) as [H1|H1].
  - rewrite usub_ok by lia. out_simpl. set (v1 := with_cursor v (cursor_row v + 1) 0).
    assert (grid_ok v1) as Hg1 by (by split; destruct Hg).
    destruct (scroll_up_spec v1 0 (rows v - 1) 1 BLANK SPACE) as (v2 & o & -> & [Hre Hat] & Ho);
      [done|unfold printable, v1; cbn; lia|lia|unfold v1; cbn; lia|lia
      |destruct Hno; [by left|right; lia]|].
    out_simpl. destruct (redrawn_fields _ _ Hre) as (E1 & E2 & E3 & E4 & E5 & E6).
    rewrite E1. cbn [rows v1 with_cursor]. rewrite usub_ok by lia. out_simpl.
    eexists _, o. split; [done|]. subst v1. cbn in *. split_and!; try done; try lia.
    apply (redrawn_ok _ _ Hg1) in Hre as [].
    split; [split; [by split|cbn; lia..]|]. cbn. by rewrite E1.
  - eexists _, []. split; [done|]. cbn. split_and!; try done; try lia.
    split; [split; [by split; destruct Hg|cbn; lia..]|]. done.
Qed.

Lemma put_ok v i x r : grid_ok v → 0 ≤ i →
  ∃ v', put v i x r = Ok v' ∧ redrawn v v'.
Proof. intros Hv Hi. destruct (put_spec v i x r Hv Hi) as (v' & ? & ? & _). by exists v'. Qed.

Lemma same_mode_trans v1 v2 v3 : same_mode v1 v2 → same_mode v2 v3 → same_mode v1 v3.
Proof. intros (?&?&?&?) (?&?&?&?). split_and!; congruence. Qed.

Lemma tty_byte_ok attr cp ch v applied : tty_ok v →
  ∃ v' applied' out, tty_byte enc_decode attr cp ch v applied = Ok (v', applied', out) ∧
    tty_ok v' ∧ same_mode v v' ∧ (sdl2_mode v = true → out = [] ∧ applied' = applied).
Proof.
  intros Hv. pose proof Hv as ([Hg Hrow Hcol] & Hr & Hno). pose proof (ok_cols v Hg).
  assert (Hmove : ∀ c, 0 ≤ c < cols v → tty_ok (with_cursor v (cursor_row v) c) ∧
                       same_mode v (with_cursor v (cursor_row v) c)).
  { intros c Hc. split; [|done]. apply (tty_ok_of v); [done..| |done|done]. by split; destruct Hg. }
  unfold tty_byte. destruct (ch =? 0x0A).
  { destruct (next_line_ok v (or_introl Hv)) as (v' & o & -> & Hv' & Hm & _ & _ & Ho). out_simpl.
    destruct (sdl2_mode v); eexists _, _, _; (split; [done|]); split_and!; try done. auto. }
  destruct (ch =? 0x0D).
  { eexists _, _, _. split; [done|]. destruct (Hmove 0) as [? ?]; [lia|].
    split_and!; try done. by intros ->. }
  destruct (ch =? 0x08).
  { eexists _, _, _. split; [done|]. destruct (Hmove (if 0 <? cursor_col v then cursor_col v - 1
      else cursor_col v)) as [? ?]; [destruct (Z.ltb_spec 0 (cursor_col v)); lia|].
    split_and!; try done. by intros ->. }
  destruct (ch =? 0x07).
  { eexists _, _, _. split; [done|]. split_and!; try done. by intros ->. }
  zbool. destruct (put_ok v (cursor_row v * cols v + cursor_col v)
    (decode_vio_byte enc_decode ch cp, attr) ch Hg) as (v1 & -> & Hre); [nia|]. out_simpl.
  destruct (redrawn_fields _ _ Hre) as (E1 & E2 & E3 & E4 & E5 & E6).
  assert (same_mode v v1) as Hm1 by done. pose proof (redrawn_ok _ _ Hg Hre) as Hg1.
  assert (tty_ok v1) as Hv1 by (apply (tty_ok_of v); rewrite ?E1, ?E2, ?E3, ?E4; done).
  rewrite E4, uadd_ok by lia. out_simpl. set (v2 := with_cursor v1 (cursor_row v1) (cursor_col v + 1)).
  match goal with |- context [?m ≫= _] => assert (∃ v' o, m = Ok (v', o) ∧
    tty_ok v' ∧ same_mode v v' ∧ (sdl2_mode v = true → o = [])) as (v' & o & -> & Hv' & Hm & Ho) end.
  { subst v2. cbn [cols cursor_col with_cursor]. rewrite E2.
    destruct (Z.leb_spec (cols v) (cursor_col v + 1)).
    - destruct (next_line_ok (with_cursor v1 (cursor_row v1) (cursor_col v + 1)))
        as (v' & o & -> & Hv' & Hm & _ & _ & Ho).
      { right. exists (cursor_col v1). by destruct v1. }
      exists v', o. cbn in *. rewrite E5 in Ho. split_and!; try done.
      by apply (same_mode_trans _ v1).
    - eexists _, []. split; [done|]. split_and!; try done.
      apply (tty_ok_of v1); cbn; rewrite ?E1, ?E2, ?E3, ?E4; try done; try lia.
      by split; destruct Hg1. }
  out_simpl. destruct (sdl2_mode v); eexists _, _, _; (split; [done|]); split_and!; try done. auto.
Qed.

Lemma tty_loop_ok attr cp text v applied : tty_ok v →
  ∃ v' applied' out, tty_loop enc_decode attr cp text v applied = Ok (v', applied', out) ∧
    tty_ok v' ∧ same_mode v v' ∧ (sdl2_mode v = true → out = [] ∧ applied' = applied).
Proof.
  revert v applied. induction text as [|ch text IH]; intros v applied Hv; cbn [tty_loop].
  { by eexists _, _, _. }
  destruct (tty_byte_ok attr cp ch v applied Hv) as (v1 & a1 & o1 & -> & Hv1 & Hm1 & Ho1).
  out_simpl. destruct (IH v1 a1 Hv1) as (v2 & a2 & o2 & -> & Hv2 & Hm2 & Ho2). out_simpl.
  eexists _, _, _. split; [done|]. split_and!; [done|by eapply same_mode_trans|].
  intros Hs. destruct (Ho1 Hs) as [-> ->]. apply Ho2. by destruct Hm1 as (_ & _ & _ & ->).
Qed.

(** ** Resizing *)

Definition pair_at (b : list Cell * list Z) (i : Z) : option (Cell * Z) :=
  c ← idx b.1 i;
  r ← idx b.2 i;
  Some (c, r).
Definition sized (n : Z) (b : list Cell * list Z) : Prop := len b.1 = n ∧ len b.2 = n.

Lemma flat_inj n i j k c : 0 ≤ j < n → 0 ≤ c < n → i * n + j = k * n + c ↔ i = k ∧ j = c.
Proof. intros. split; [|by intros [-> ->]]. intros H1. assert (i = k) by nia. subst. lia. Qed.

Lemma at_Some v r c : grid_ok v → 0 ≤ r < rows v → 0 ≤ c < cols v → is_Some (at_ v r c).
Proof.
  intros Hv Hr Hc. destruct (at_ v r c) eqn:H; [done|]. unfold at_ in H.
  apply cell_at_inside in H; [nia|done|nia].
Qed.

Lemma resize_cell_spec v nc n r c b : grid_ok v → 0 ≤ r < rows v → 0 ≤ c < cols v →
  sized n b → 0 ≤ r * nc + c < n →
  ∃ b', resize_cell v nc r c b = Ok b' ∧ sized n b' ∧
    ∀ i, 0 ≤ i → pair_at b' i = if i =? r * nc + c then at_ v r c else pair_at b i.
Proof.
  intros Hv Hr Hc [H1 H2] Hn. unfold resize_cell.
  destruct (at_Some v r c Hv Hr Hc) as [[x w] Hat]. pose proof Hat as Hat'.
  unfold at_, cell_at in Hat'. destruct (idx (buffer v) _) as [x'|]; [|done].
  destruct (idx (raw_bytes v) _) as [w'|]; [|done]. injection Hat' as -> ->.
  cbn [unwrap]. out_simpl. rewrite H1, H2. zbool. eexists. split; [done|]. split.
  - split; cbn; unfold len in *; by rewrite length_insert.
  - intros i Hi. unfold pair_at. cbn [fst snd]. rewrite !idx_insert by lia. rewrite Hat.
    by destruct (i =? _).
Qed.

Lemma idx_replicate {A} (x : A) n i : 0 ≤ i < Z.of_nat n → idx (replicate n x) i = Some x.
Proof.
  intros Hi. unfold idx, len. rewrite length_replicate. zbool.
  apply lookup_replicate_2. lia.
Qed.

Lemma resize_spec v nr nc : grid_ok v → 0 < nr < M16 → 0 < nc < M16 →
  ∃ v', resize v nr nc = Ok v' ∧ grid_ok v' ∧ rows v' = nr ∧ cols v' = nc ∧
    codepage v' = codepage v ∧ sdl2_mode v' = sdl2_mode v ∧
    (screen_ok v → screen_ok v') ∧
    ∀ r c, 0 ≤ r < nr → 0 ≤ c < nc →
      at_ v' r c = if (r <? rows v) && (c <? cols v) then at_ v r c else Some (BLANK, SPACE).
Proof.
  intros Hv Hnr Hnc. pose proof (ok_rows v Hv) as Hrows. pose proof (ok_cols v Hv) as Hcols.
  unfold resize. destruct ((rows v =? nr) && (cols v =? nc)) eqn:Hsame.
  { apply andb_true_iff in Hsame as [H1%Z.eqb_eq H2%Z.eqb_eq].
    exists v. split_and!; try done. intros r c Hr Hc. by zbool. }
  set (n := nr * nc). assert (0 < n) as Hn by (subst n; nia).
  set (cr := Z.min (rows v) nr). set (cc := Z.min (cols v) nc).
  pose (Q := λ k c (b : list Cell * list Z), sized n b ∧
    ∀ i j, 0 ≤ i < nr → 0 ≤ j < nc → pair_at b (i * nc + j) =
      if ((i <? k) && (j <? cc)) || ((i =? k) && (j <? c)) then at_ v i j
      else Some (BLANK, SPACE)).
  assert (Hin : ∀ k b, 0 ≤ k < cr → Q k 0 b → ∃ b',
    for_in (range 0 cc) (λ c b, resize_cell v nc k c b) b = Ok b' ∧ Q (k + 1) 0 b').
  { intros k b Hk HQ. rewrite range_nat by lia.
    destruct (for_up (E := ()) (Q k) 0 (Z.to_nat (cc - 0))
      (λ c b, resize_cell v nc k c b) b) as (b' & -> & [Hsz' Hat']); [done| |].
    - intros c b1 Hc [Hsz Hat]. destruct (resize_cell_spec v nc n k c b1) as (b2 & -> & Hsz2 & Hat2);
        [done|lia|lia|done|subst n cr cc; nia|].
      exists b2. split; [done|]. split; [done|]. intros i j Hi Hj. rewrite Hat2 by nia.
      destruct (Z.eqb_spec (i * nc + j) (k * nc + c)) as [E|E].
      + apply flat_inj in E as [-> ->]; [|lia..]. zbool. done.
      + rewrite Hat by done. destruct (Z.eqb_spec i k) as [->|]; [|done].
        assert (j ≠ c) by (intros ->; done). zbool. cbn.
        replace (j <? c + 1) with (j <? c) by (destruct (Z.ltb_spec j c); symmetry; zbool; done).
        done.
    - exists b'. split; [done|]. split; [done|]. intros i j Hi Hj. rewrite Hat' by done.
      rewrite Z.add_0_l, Z2Nat.id by lia.
      destruct (Z.ltb_spec j 0); [lia|]. rewrite andb_false_r, orb_false_r, Z.sub_0_r.
      destruct (Z.ltb_spec i k), (Z.ltb_spec i (k + 1)), (Z.eqb_spec i k); try lia;
        by destruct (j <? cc). }
  rewrite (range_nat 0 cr) by lia.
  destruct (for_up (E := ()) (λ k, Q k 0) 0 (Z.to_nat (cr - 0))
    (λ k b, for_in (range 0 cc) (λ c b, resize_cell v nc k c b) b)
    (replicate (Z.to_nat n) BLANK, replicate (Z.to_nat n) SPACE))
    as ([b r] & Hloop & [[Hs1 Hs2] Hat]).
  - split; [split; cbn; unfold len; rewrite length_replicate; lia|]. intros i j Hi Hj.
    unfold pair_at. cbn [fst snd]. rewrite !idx_replicate by (subst n; nia). cbn.
    destruct (Z.ltb_spec i 0), (Z.ltb_spec j 0); try lia. by rewrite andb_false_r.
  - intros k b Hk HQ. apply Hin; [lia|done].
  - cbn in Hloop |- *. rewrite Hloop. out_simpl. eexists. split; [done|].
    assert (grid_ok (with_cursor (with_size (with_cells v b r) nr nc)
      (Z.min (cursor_row v) (saturating_sub nr 1)) (Z.min (cursor_col v) (saturating_sub nc 1)))).
    { by split. }
    split_and!; try done.
    + intros [_ ? ?]. split; [done|cbn; unfold saturating_sub; lia..].
    + intros i j Hi Hj. specialize (Hat i j Hi Hj). unfold pair_at in Hat.
      unfold at_ at 1. unfold cell_at. cbn [buffer raw_bytes with_cursor with_size with_cells cols].
      cbn [fst snd] in Hat. rewrite Hat. destruct (Z.ltb_spec j 0); [lia|].
      rewrite andb_false_r, orb_false_r. subst cr cc.
      destruct (Z.ltb_spec i (rows v)), (Z.ltb_spec j (cols v)); cbn [andb]; by zbool.
Qed.

(** ** Positioned text *)

(** The cell that byte [ch] leaves on the screen. *)
Definition cell_of (attr cp ch : Z) : Cell * Z := ((decode_vio_byte enc_decode ch cp, attr), ch).

Lemma put_at v row c x r : grid_ok v → 0 ≤ row < rows v → 0 ≤ c < cols v →
  ∃ v', put v (row * cols v + c) x r = Ok v' ∧ redrawn v v' ∧
    ∀ i j, 0 ≤ i < rows v → 0 ≤ j < cols v →
      at_ v' i j = if (i =? row) && (j =? c) then Some (x, r) else at_ v i j.
Proof.
  intros Hv Hrow Hc. destruct (put_spec v (row * cols v + c) x r Hv) as (v' & -> & Hre & Hat); [nia|].
  exists v'. split_and!; [done..|]. intros i j Hi Hj.
  destruct (redrawn_fields _ _ Hre) as (_ & E & _). unfold at_. rewrite E, Hat by nia.
  destruct (Z.eqb_spec (i * cols v + j) (row * cols v + c)) as [Eq|Ne].
  - apply flat_inj in Eq as [-> ->]; [|lia..]. rewrite !Z.eqb_refl.
    by rewrite (proj2 (Z.ltb_lt _ _)) by nia.
  - cbn. destruct (Z.eqb_spec i row) as [->|]; [|done]. by zbool.
Qed.

(** A cell after one byte and then the rest of the text. *)
Definition texted (attr cp row c : Z) (text : bytes) (i j : Z) (old : option (Cell * Z)) :=
  if (i =? row) && (c <=? j) && (j <? c + len text)
  then cell_of attr cp <$> idx text (j - c) else old.
Lemma texted_nil attr cp row c i j old : texted attr cp row c [] i j old = old.
Proof.
  unfold texted, len. cbn [length]. rewrite Z.add_0_r.
  destruct (Z.leb_spec c j), (Z.ltb_spec j c); try lia; by rewrite ?andb_false_r.
Qed.
Lemma texted_cons attr cp row c ch text i j old :
  texted attr cp row (c + 1) text i j
    (if (i =? row) && (j =? c) then Some (cell_of attr cp ch) else old) =
  texted attr cp row c (ch :: text) i j old.
Proof.
  unfold texted. rewrite len_cons. pose proof (len_nonneg text).
  replace (c + 1 + len text) with (c + (1 + len text)) by lia.
  destruct (Z.eqb_spec i row) as [->|]; cbn [andb]; [|done].
  destruct (Z.leb_spec (c + 1) j), (Z.leb_spec c j), (Z.eqb_spec j c); try lia; cbn [andb]; try done.
  - destruct (j <? _); [|done]. f_equal. unfold idx. rewrite len_cons.
    replace (Z.to_nat (j - c)) with (S (Z.to_nat (j - (c + 1)))) by lia. cbn [lookup list_lookup].
    destruct (Z.leb_spec 0 (j - (c + 1))), (Z.leb_spec 0 (j - c)),
      (Z.ltb_spec (j - (c + 1)) (len text)), (Z.ltb_spec (j - c) (1 + len text)); try lia; done.
  - zbool. subst j. rewrite Z.sub_diag. unfold idx. rewrite len_cons. zbool. done.
Qed.

Lemma char_str_loop_spec attr cp row text : ∀ v c, grid_ok v → 0 ≤ row < rows v → 0 ≤ c →
  ∃ v' o, char_str_loop enc_decode row c attr cp text v = Ok (v', o) ∧ redrawn v v' ∧
    (sdl2_mode v = true → o = []) ∧
    ∀ i j, 0 ≤ i < rows v → 0 ≤ j < cols v →
      at_ v' i j = texted attr cp row c text i j (at_ v i j).
Proof.
  induction text as [|ch text IH]; intros v c Hv Hrow Hc; cbn [char_str_loop].
  { eexists _, _. split; [done|]. split_and!; try done. intros. by rewrite texted_nil. }
  pose proof (ok_cols v Hv). destruct (Z.leb_spec (cols v) c).
  { eexists _, _. split; [done|]. split_and!; try done. intros i j Hi Hj. unfold texted.
    destruct (Z.leb_spec c j); [lia|]. by rewrite andb_false_r. }
  destruct (put_at v row c (cell_of attr cp ch).1 ch Hv) as (v1 & Hput & Hre1 & Hat1); [lia..|].
  cbn [fst cell_of] in Hput. rewrite Hput. out_simpl. rewrite uadd_ok by lia. out_simpl.
  destruct (redrawn_fields _ _ Hre1) as (E1 & E2 & E3 & E4 & E5 & E6).
  destruct (IH v1 (c + 1)) as (v2 & o & -> & Hre2 & Ho & Hat2);
    [by eapply redrawn_ok|by rewrite E1|lia|].
  out_simpl. eexists _, _. split; [done|]. split_and!; [by etrans| |].
  - intros Hs. rewrite E5, Hs. cbn. apply Ho. congruence.
  - intros i j Hi Hj. rewrite Hat2 by (rewrite ?E1, ?E2; done). rewrite Hat1 by done.
    apply texted_cons.
Qed.

(** [write_tty] of plain text that ends before the last column. *)
Definition plain (ch : Z) : bool := bool_decide (ch ∉ [0x0A; 0x0D; 0x08; 0x07]).
Lemma tty_loop_plain attr cp text : ∀ v applied, tty_ok v → forallb plain text = true →
  cursor_col v + len text < cols v →
  ∃ v' applied' o, tty_loop enc_decode attr cp text v applied = Ok (v', applied', o) ∧
    cursor_row v' = cursor_row v ∧ cursor_col v' = cursor_col v + len text ∧
    ∀ i j, 0 ≤ i < rows v → 0 ≤ j < cols v →
      at_ v' i j = texted attr cp (cursor_row v) (cursor_col v) text i j (at_ v i j).
Proof.
  induction text as [|ch text IH]; intros v applied Hv Hp Hfit; cbn [tty_loop].
  { eexists _, _, _. split; [done|]. unfold len; cbn. rewrite Z.add_0_r. split_and!; try done.
    intros. by rewrite texted_nil. }
  cbn [forallb] in Hp. apply andb_true_iff in Hp as [Hch Hp].
  rewrite len_cons in Hfit |- *. pose proof (len_nonneg text).
  pose proof Hv as ([Hg Hrow Hcol] & Hr & Hno). pose proof (ok_cols v Hg).
  unfold plain in Hch. apply bool_decide_eq_true in Hch. unfold tty_byte.
  destruct (Z.eqb_spec ch 0x0A) as [->|]; [set_solver|].
  destruct (Z.eqb_spec ch 0x0D) as [->|]; [set_solver|].
  destruct (Z.eqb_spec ch 0x08) as [->|]; [set_solver|].
  destruct (Z.eqb_spec ch 0x07) as [->|]; [set_solver|]. clear Hch. zbool.
  destruct (put_at v (cursor_row v) (cursor_col v) (cell_of attr cp ch).1 ch Hg)
    as (v1 & Hput & Hre & Hat); [lia..|].
  cbn [fst cell_of] in Hput. rewrite Hput. out_simpl.
  destruct (redrawn_fields _ _ Hre) as (E1 & E2 & E3 & E4 & E5 & E6).
  pose proof (redrawn_ok _ _ Hg Hre) as Hg1.
  rewrite E4, uadd_ok by lia. out_simpl. cbn [cols cursor_col with_cursor]. rewrite E2. zbool.
  out_simpl. set (v2 := with_cursor v1 (cursor_row v1) (cursor_col v + 1)).
  assert (tty_ok v2) as Hv2.
  { apply (tty_ok_of v); subst v2; cbn; rewrite ?E1, ?E2, ?E3; try done; try lia.
    by split; destruct Hg1. }
  assert (∀ i j, at_ v2 i j = at_ v1 i j) as Hat2 by done.
  destruct (sdl2_mode v); out_simpl;
    (edestruct (IH v2) as (v3 & a3 & o3 & -> & Hr3 & Hc3 & Hat3);
       [done..|subst v2; cbn; rewrite E2; lia|]; out_simpl;
     eexists _, _, _; split; [done|]; subst v2; cbn in Hr3, Hc3, Hat3;
     split_and!; [congruence|lia|]; intros i j Hi Hj;
     rewrite Hat3 by (rewrite ?E1, ?E2; done); rewrite Hat2, Hat, E3 by done;
     apply texted_cons).
Qed.

Lemma positioned_ok v row col attr cells :
  grid_ok v → printable v → row + 1 < M16 → col + 1 < M16 →
  (∃ v' o, cells v = Ok (v', o) ∧ redrawn v v' ∧ (sdl2_mode v = true → o = [])) →
  ∃ v' o, positioned v row col attr cells = Ok (v', o) ∧ redrawn v v' ∧
    (sdl2_mode v = true → o = []) ∧ (fst <$> cells v) = Ok v'.
Proof.
  intros Hv Hp Hr Hc (v' & o & Hcells & Hre & Ho). unfold positioned.
  destruct (terminal_out v v (g ← goto row col; Ok (g ++ write_ansi_attr attr))) as (o1 & -> & Ho1);
    [done|apply terminal_ok; destruct (goto_ok row col) as [g ->]; [done..|by eexists]|].
  out_simpl. rewrite Hcells. out_simpl.
  destruct (terminal_out v v' (g ← goto_cursor v'; Ok (RESET ++ g))) as (o3 & -> & Ho3); [done| |].
  { apply terminal_ok. destruct (goto_cursor_ok v') as [g ->];
      [by eapply redrawn_ok|by eapply printable_redrawn|by eexists]. }
  out_simpl. eexists _, _. split; [done|]. split_and!; try done.
  intros Hs. by rewrite Ho1, Ho, Ho3.
Qed.

Lemma at_buffer v r c : at_ v r c = None ∨
  ∃ x w, at_ v r c = Some (x, w) ∧ idx (buffer v) (r * cols v + c) = Some x.
Proof.
  unfold at_, cell_at. destruct (idx (buffer v) _); [|by left].
  destruct (idx (raw_bytes v) _); [right; by eexists _, _|by left].
Qed.

Lemma read_cells_spec row v n c : grid_ok v → 0 ≤ row < rows v → 0 ≤ c →
  ∃ l, read_cells n row c v = Ok l ∧
    len l = Z.max 0 (Z.min (Z.of_nat n) (cols v - c)) ∧
    ∀ k, 0 ≤ k < len l → idx l k = fst <$> at_ v row (c + k).
Proof.
  intros Hv Hrow. pose proof (ok_cols v Hv) as Hcols. revert c.
  induction n as [|n IH]; intros c Hc; cbn [read_cells].
  { eexists. split; [done|]. split; [unfold len; cbn; lia|]. unfold len; cbn. lia. }
  destruct (Z.leb_spec (cols v) c) as [H|H].
  { eexists. split; [done|]. split; [unfold len; cbn; lia|]. unfold len; cbn. lia. }
  rewrite uadd_ok by lia. out_simpl. destruct (IH (c + 1)) as (l & -> & Hl & Hat); [lia|].
  out_simpl. destruct (at_Some v row c Hv Hrow) as [y Hy]; [lia|].
  destruct (at_buffer v row c) as [Hn|(x & w & Hx & ->)]; [congruence|].
  eexists. split; [done|]. cbn [app]. rewrite len_cons. split; [lia|].
  intros k Hk. destruct (Z.eqb_spec k 0) as [->|].
  - rewrite Z.add_0_r, Hx. unfold idx. rewrite len_cons. by zbool.
  - replace (c + k) with (c + 1 + (k - 1)) by lia. rewrite <- Hat by lia.
    unfold idx. rewrite len_cons. zbool.
    replace (Z.to_nat k) with (S (Z.to_nat (k - 1))) by lia. done.
Qed.
End lemmas.

(** * Properties *)

Section properties.
Context {B : Build} (enc_decode : Encoding → bytes → rstring).

(** Scrolling is exact in both directions: a region that is not on the screen changes
    nothing; otherwise exactly the rows of the region change, the vacated ones (all of them for
    a count of 0) get the fill cell, the others the cell [lines] rows away, and an SDL2 screen
    prints nothing.  The one exception is [scroll_up] of a region at the top of the screen by
    its whole height or more, which panics where arithmetic is checked. *)
Theorem scroll_exact (v : VioManager) (top bottom lines r : Z) (x : Cell) :
  screen_ok v → rows v < M16 - 1 → 0 ≤ top → 0 ≤ lines →
  (bottom < top ∨ rows v ≤ bottom →
     scroll_up v top bottom lines x r = Ok (v, []) ∧
     scroll_down v top bottom lines x r = Ok (v, [])) ∧
  (top ≤ bottom < rows v →
     (if overflow_checks && (top =? 0) && (bottom <? lines) then
        scroll_up v top bottom lines x r = Panic
      else ∃ v' out, scroll_up v top bottom lines x r = Ok (v', out) ∧
        scrolled v v' top bottom (λ i, (lines =? 0) || (bottom - lines <? i)) lines (x, r) ∧
        (sdl2_mode v = true → out = [])) ∧
     ∃ v' out, scroll_down v top bottom lines x r = Ok (v', out) ∧
       scrolled v v' top bottom (λ i, (lines =? 0) || (i <? top + lines)) (- lines) (x, r) ∧
       (sdl2_mode v = true → out = [])).
Proof.
  intros [Hg Hrow Hcol] Hr Ht Hl. assert (printable v) as Hp by (split_and!; lia). split.
  - intros Hout. unfold scroll_up, scroll_down.
    assert ((bottom <? top) || (rows v <=? bottom) = true) as -> by (apply orb_true_iff; lia). done.
  - intros Hb. split; [|apply scroll_down_spec; done || lia].
    destruct (overflow_checks && (top =? 0) && (bottom <? lines)) eqn:Hov.
    + apply andb_true_iff in Hov as [[Hc Ht0%Z.eqb_eq]%andb_true_iff Hbl%Z.ltb_lt]. subst top.
      unfold scroll_up. zbool. rewrite height_ok by lia. out_simpl.
      unfold usub, overflowing. zbool. rewrite Hc. done.
    + apply scroll_up_spec; try done; try lia.
      destruct overflow_checks; [|by left]. right. cbn [andb] in Hov.
      apply andb_false_iff in Hov as [?%Z.eqb_neq|?%Z.ltb_ge]; lia.
Qed.

(** [write_tty] keeps the screen: for every text, attribute and codepage it returns, the
    size and mode of the screen are as before, the cursor is on the screen, and an SDL2 screen
    prints nothing.  Text without control characters that ends before the last column lands in
    the cells at the cursor, one decoded character and raw byte each, changes no other cell, and
    moves the cursor past it.  (A screen of one row is excluded where arithmetic is checked:
    its scroll panics.) *)
Theorem tty_keeps_screen (v : VioManager) (text : bytes) (attr cp : Z) :
  tty_ok v →
  ∃ v' out, write_tty enc_decode v text attr cp = Ok (v', out) ∧ tty_ok v' ∧ same_mode v v' ∧
    (sdl2_mode v = true → out = []) ∧
    (forallb plain text = true → cursor_col v + len text < cols v →
       cursor_row v' = cursor_row v ∧ cursor_col v' = cursor_col v + len text ∧
       ∀ i j, 0 ≤ i < rows v → 0 ≤ j < cols v →
         at_ v' i j = if (i =? cursor_row v) && (cursor_col v <=? j) && (j <? cursor_col v + len text)
                      then cell_of enc_decode attr cp <$> idx text (j - cursor_col v)
                      else at_ v i j).
Proof.
  intros Hv. unfold write_tty.
  destruct (tty_loop_ok enc_decode attr cp text v false Hv) as (v' & a & o & Hl & Hv' & Hm & Ho).
  rewrite Hl. out_simpl. eexists v', _. split; [done|]. split_and!; [done..| |].
  - intros Hs. destruct (Ho Hs) as [-> ->]. destruct Hm as (_ & _ & _ & ->). by rewrite Hs.
  - intros Hp Hfit. destruct (tty_loop_plain enc_decode attr cp text v false Hv Hp Hfit)
      as (v2 & a2 & o2 & Hl2 & Hr & Hc & Hat). rewrite Hl in Hl2. injection Hl2 as -> -> ->.
    done.
Qed.

(** [resize] to a size in range returns; the new screen is well formed with the cursor on
    it, its top-left part is the old screen and every other cell is a blank. *)
Theorem resize_keeps (v : VioManager) (nr nc : Z) :
  screen_ok v → 0 < nr < M16 → 0 < nc < M16 →
  ∃ v', resize v nr nc = Ok v' ∧ screen_ok v' ∧ rows v' = nr ∧ cols v' = nc ∧
    ∀ r c, 0 ≤ r < nr → 0 ≤ c < nc →
      at_ v' r c = if (r <? rows v) && (c <? cols v) then at_ v r c else Some (BLANK, SPACE).
Proof.
  intros Hv Hnr Hnc. destruct (resize_spec v nr nc) as (v' & H & _ & Hr & Hc & _ & _ & Hok & Hat);
    [apply Hv|done..|]. exists v'. split_and!; auto.
Qed.

(** What [write_char_str_att] puts on a row of the screen, [read_cell_str] reads back: the
    decoded characters with the attribute, cut at the end of the row; every cell outside is
    unchanged. *)
Theorem text_roundtrip (v : VioManager) (row col : Z) (text : bytes) (attr cp : Z) :
  screen_ok v → rows v < M16 - 1 → 0 ≤ row < rows v → 0 ≤ col < cols v →
  ∃ v' out, write_char_str_att enc_decode v row col text attr cp = Ok (v', out) ∧
    redrawn v v' ∧
    read_cell_str v' row col (2 * len text) =
      Ok (map (λ ch, (decode_vio_byte enc_decode ch cp, attr))
            (take (Z.to_nat (cols v - col)) text)) ∧
    ∀ i j, 0 ≤ i < rows v → 0 ≤ j < cols v →
      i ≠ row ∨ j < col ∨ col + len text ≤ j → at_ v' i j = at_ v i j.
Proof.
  intros [Hg Hrow Hcol] Hr Hi Hj. pose proof (ok_cols v Hg). unfold write_char_str_att.
  destruct (char_str_loop_spec enc_decode attr cp row text v col Hg Hi)
    as (v1 & o1 & Hl & Hre & Ho & Hat); [lia|].
  destruct (positioned_ok v row col attr (char_str_loop enc_decode row col attr cp text) Hg)
    as (v' & out & -> & _ & _ & Heq); [split_and!; lia|lia..|by eexists _, _|].
  rewrite Hl in Heq. out_simpl. injection Heq as <-. exists v1, out.
  destruct (redrawn_fields _ _ Hre) as (E1 & E2 & _). split_and!; [done..| |].
  - unfold read_cell_str. rewrite Z.mul_comm, Z.div_mul by lia.
    destruct (read_cells_spec row v1 (Z.to_nat (len text)) col) as (l & -> & Hlen & Hl1);
      [by eapply redrawn_ok|by rewrite E1|lia|]. f_equal.
    rewrite E2 in Hlen. pose proof (len_nonneg text). unfold len in Hlen at 1.
    apply list_eq. intros k. rewrite list_lookup_fmap.
    destruct (decide (k < length l)%nat) as [Hk|Hk].
    + specialize (Hl1 (Z.of_nat k)). unfold idx in Hl1. unfold len in Hl1 at 1 2.
      rewrite Hat in Hl1 by lia. revert Hl1. zbool. intros Hl1. rewrite Nat2Z.id in Hl1.
      rewrite Hl1 by lia. unfold texted. zbool. replace (col + Z.of_nat k - col) with (Z.of_nat k) by lia.
      rewrite lookup_take_lt by lia. unfold idx. zbool. rewrite Nat2Z.id.
      destruct (lookup_lt_is_Some_2 text k) as [ch Hch]; [unfold len in *; lia|].
      by rewrite !Hch.
    + rewrite !lookup_ge_None_2; [done| |lia]. rewrite length_take. unfold len in *. lia.
  - intros i j Hi' Hj' Hout. rewrite Hat by done. unfold texted.
    destruct (Z.eqb_spec i row), (Z.leb_spec col j), (Z.ltb_spec j (col + len text));
      cbn [andb]; done || lia.
Qed.
End properties.

(** A small SDL2 screen. *)
Definition demo : VioManager := with_sdl2 (new (Some (4, 10))).
Lemma demo_ok : screen_ok demo.
Proof. split; [split|..]; vm_compute; done. Qed.

Lemma scroll_exact_witness :
  scroll_up (B := dev_profile) demo 0 3 4 BLANK SPACE = Panic ∧
  ∃ v' out, scroll_up (B := dev_profile) demo 0 3 1 BLANK SPACE = Ok (v', out) ∧ out = [].
Proof.
  assert (Hd : rows demo < M16 - 1) by (vm_compute; done).
  split.
  - destruct (scroll_exact (B := dev_profile) demo 0 3 4 SPACE BLANK demo_ok Hd) as [_ H]; [lia..|].
    apply H. vm_compute. split; done.
  - destruct (scroll_exact (B := dev_profile) demo 0 3 1 SPACE BLANK demo_ok Hd) as [_ H]; [lia..|].
    destruct H as [(v' & out & ? & ? & Ho) _]; [vm_compute; split; done|].
    exists v', out. split; [done|]. by apply Ho.
Defined.
Lemma tty_keeps_screen_witness :
  ∃ v' out, write_tty (B := dev_profile) (λ _ b, b) demo (str "OS/2") 0x1F 437 = Ok (v', out) ∧
    cursor_col v' = 4 ∧ at_ v' 0 1 = Some ((0x53, 0x1F), 0x53).
Proof.
  destruct (tty_keeps_screen (B := dev_profile) (λ _ b, b) demo (str "OS/2") 0x1F 437)
    as (v' & out & H & _ & _ & _ & Hp).
  { split; [apply demo_ok|]. vm_compute. split; [done|]. right. done. }
  destruct Hp as (_ & Hc & Hat); [vm_compute; done..|].
  exists v', out. split; [done|]. split; [done|]. rewrite Hat by (vm_compute; done). done.
Defined.
Lemma resize_keeps_witness :
  ∃ v', resize demo 2 20 = Ok v' ∧ rows v' = 2 ∧ at_ v' 1 15 = Some (BLANK, SPACE).
Proof.
  destruct (resize_keeps demo 2 20 demo_ok) as (v' & H & _ & Hr & _ & Hat); [lia..|].
  exists v'. split; [done|]. split; [done|]. rewrite Hat by lia. done.
Defined.
Lemma text_roundtrip_witness :
  ∃ v' out,
    write_char_str_att (B := dev_profile) (λ _ b, b) demo 2 7 (str "WARP4") 7 437 = Ok (v', out) ∧
    read_cell_str (B := dev_profile) v' 2 7 10 = Ok [(0x57, 7); (0x41, 7); (0x52, 7)].
Proof.
  destruct (text_roundtrip (B := dev_profile) (λ _ b, b) demo 2 7 (str "WARP4") 7 437 demo_ok)
    as (v' & out & H & _ & Hr & _); [vm_compute; done..|].
  exists v', out. split; [done|]. exact Hr.
Defined.
