(* ===== verification/Dbcs.v ===== *)
(** Double-byte characters on the screen: the lead-byte tables (src/src/loader/locale.rs),
    the classification of the cells and the frame snapshot (src/src/gui/text_renderer.rs). *)
From S2P Require Import Prelude Bytes Codepage Console.

(** [dbcs_lead_ranges], [is_dbcs_lead_byte] *)
Definition dbcs_lead_ranges (cp : Z) : list (Z * Z) :=
  match cp with
  | 932 => [(0x81, 0x9F); (0xE0, 0xFC)]
  | 936 => [(0x81, 0xFE)]
  | 949 => [(0x81, 0xFE)]
  | 950 => [(0x81, 0xFE)]
  | _ => []
  end.
Definition is_dbcs_lead_byte (byte cp : Z) : bool :=
  existsb (λ '(lo, hi), (lo <=? byte) && (byte <=? hi)) (dbcs_lead_ranges cp).

(** [CellKind] *)
Inductive CellKind := Sbcs | DbcsLead | DbcsTail.
#[export] Instance cell_kind_dec : EqDecision CellKind.
Proof. solve_decision. Defined.

(** The loop of [annotate_dbcs]; [lead] is [is_dbcs_lead_byte] at the codepage. *)
Fixpoint annotate_loop (fuel : nat) (lead : Z → bool) (raw_bytes : list Z) (cols i : Z)
    (kinds : list CellKind) : outcome () (list CellKind) :=
  match fuel with
  | O => Diverge
  | S fuel =>
    if i <? len raw_bytes then
      let col := i mod cols in
      b ← unwrap (idx raw_bytes i);
      if lead b && (col + 1 <? cols) && (i + 1 <? len raw_bytes) then
        annotate_loop fuel lead raw_bytes cols (i + 2)
          (<[Z.to_nat (i + 1) := DbcsTail]> (<[Z.to_nat i := DbcsLead]> kinds))
      else annotate_loop fuel lead raw_bytes cols (i + 1) kinds
    else Ok kinds
  end.
Definition annotate_dbcs (raw_bytes : list Z) (codepage cols : Z) : outcome () (list CellKind) :=
  let kinds := replicate (length raw_bytes) Sbcs in
  if bool_decide (dbcs_lead_ranges codepage = []) then Ok kinds
  else if cols =? 0 then Ok kinds
  else annotate_loop (S (length raw_bytes)) (λ b, is_dbcs_lead_byte b codepage)
         raw_bytes cols 0 kinds.

(** [VgaTextBuffer] and [VgaTextBuffer::snapshot] *)
Record VgaTextBuffer := mk_vga {
  vga_rows : Z;
  vga_cols : Z;
  cells : list Cell;
  vga_raw_bytes : list Z;
  cell_kind : list CellKind;
  vga_cursor_row : Z;
  vga_cursor_col : Z;
  vga_cursor_visible : bool;
  vga_cursor_start : Z;
  vga_cursor_end : Z;
}.

Section snapshot.
Context (enc_decode : Encoding → bytes → rstring).

(** The fix-up of the lead cells; [cells[i].0 = ch] panics outside the buffer. *)
Definition fix_lead (raw_bytes : list Z) (codepage : Z) (p : Z * CellKind) (cells : list Cell)
    : outcome () (list Cell) :=
  let '(i, kind) := p in
  if bool_decide (kind = DbcsLead) && (i + 1 <? len raw_bytes) then
    lead ← unwrap (idx raw_bytes i);
    trail ← unwrap (idx raw_bytes (i + 1));
    '(_, attr) ← unwrap (idx cells i);
    Ok (<[Z.to_nat i := (decode_dbcs enc_decode lead trail codepage, attr)]> cells)
  else Ok cells.

Definition snapshot (vio : VioManager) : outcome () VgaTextBuffer :=
  let raw_bytes := raw_bytes vio in
  let cp := codepage vio in
  kinds ← annotate_dbcs raw_bytes cp (cols vio);
  cells ← for_in (zip (seqZ 0 (len kinds)) kinds) (fix_lead raw_bytes cp) (buffer vio);
  Ok (mk_vga (rows vio) (cols vio) cells raw_bytes kinds (cursor_row vio) (cursor_col vio)
             (cursor_visible vio) (cursor_start vio) (cursor_end vio)).
End snapshot.

(** * Lemmas *)

Section annotate.
Context (lead : Z → bool).

(** What a classification of [raw] in rows of [cols] must satisfy: a lead cell holds a lead
    byte, has its tail to its right on the same row; a tail follows a lead; a single cell that
    could have started a pair is one that cannot: no lead byte, or no room. *)
Definition can_pair (raw : list Z) (cols i : Z) : Prop :=
  (∃ b, idx raw i = Some b ∧ lead b = true) ∧ i mod cols + 1 < cols ∧ i + 1 < len raw.
Record paired (raw : list Z) (cols : Z) (kinds : list CellKind) : Prop := {
  paired_len : length kinds = length raw;
  paired_lead : ∀ i, idx kinds i = Some DbcsLead →
    can_pair raw cols i ∧ idx kinds (i + 1) = Some DbcsTail;
  paired_tail : ∀ i, idx kinds i = Some DbcsTail → idx kinds (i - 1) = Some DbcsLead;
  paired_sbcs : ∀ i, idx kinds i = Some Sbcs → ¬ can_pair raw cols i;
}.


(** The classification is determined. *)
Lemma paired_unique raw cols k1 k2 : paired raw cols k1 → paired raw cols k2 → k1 = k2.
Proof.
  intros [L1 A1 B1 C1] [L2 A2 B2 C2].
  assert (∀ n : nat, ∀ i, i < Z.of_nat n → 0 ≤ i → idx k1 i = idx k2 i) as Heq.
  { induction n as [|n IH]; intros i Hi H0; [lia|].
    destruct (idx k1 i) as [x|] eqn:H1.
    - assert (is_Some (idx k2 i)) as [y H2].
      { apply idx_Some_range in H1. destruct (idx_is_Some k2 i) as (y & -> & _); [|done].
        unfold len in *. lia. }
      rewrite H2. assert (x ≠ DbcsTail → y ≠ DbcsTail → x = y) as Hxy.
      { intros Hx Hy. destruct x, y; try done;
          [by destruct (C1 _ H1), (A2 _ H2)|by destruct (C2 _ H2), (A1 _ H1)]. }
      f_equal. destruct (decide (x = DbcsTail)) as [->|Hx]; [|destruct (decide (y = DbcsTail)) as [->|Hy]].
      + pose proof (B1 _ H1) as Hl. pose proof (idx_Some_range _ _ _ Hl).
        rewrite IH in Hl by lia. destruct (A2 _ Hl) as [_ Ht].
        replace (i - 1 + 1) with i in Ht by lia. congruence.
      + pose proof (B2 _ H2) as Hl. pose proof (idx_Some_range _ _ _ Hl).
        rewrite <- IH in Hl by lia. destruct (A1 _ Hl) as [_ Ht].
        replace (i - 1 + 1) with i in Ht by lia. congruence.
      + auto.
    - destruct (idx k2 i) as [y|] eqn:H2; [|done]. apply idx_Some_range in H2.
      destruct (idx_is_Some k1 i) as (x & ? & _); [unfold len in *; lia|]. congruence. }
  apply list_eq. intros n. specialize (Heq (S n) (Z.of_nat n)).
  unfold idx, len in Heq. rewrite L1, L2 in Heq.
  destruct (decide (n < length raw)%nat) as [Hn|Hn].
  - rewrite Nat2Z.id in Heq. revert Heq. zbool. intros Heq. apply Heq; lia.
  - rewrite !lookup_ge_None_2; [done|lia..].
Qed.

(** The state of the loop at [i]: the cells before [i] are classified, the others are single. *)
Record partial (raw : list Z) (cols i : Z) (kinds : list CellKind) : Prop := {
  part_len : length kinds = length raw;
  part_rest : ∀ j, i ≤ j → 0 ≤ j < len raw → idx kinds j = Some Sbcs;
  part_lead : ∀ j, idx kinds j = Some DbcsLead →
    j + 1 < i ∧ can_pair raw cols j ∧ idx kinds (j + 1) = Some DbcsTail;
  part_tail : ∀ j, idx kinds j = Some DbcsTail → idx kinds (j - 1) = Some DbcsLead;
  part_sbcs : ∀ j, j < i → idx kinds j = Some Sbcs → ¬ can_pair raw cols j;
}.

Lemma annotate_loop_ok raw cols fuel : ∀ i kinds, 0 < cols → 0 ≤ i →
  (Z.to_nat (len raw - i) < fuel)%nat → partial raw cols i kinds →
  ∃ kinds', annotate_loop fuel lead raw cols i kinds = Ok kinds' ∧ paired raw cols kinds'.
Proof.
  induction fuel as [|fuel IH]; intros i kinds Hc Hi Hf Hp; [lia|]. cbn [annotate_loop].
  destruct (Z.ltb_spec i (len raw)) as [Hlt|Hge].
  - destruct (idx_is_Some raw i) as (b & Hb & _); [lia|]. rewrite Hb. cbn [unwrap]. out_simpl.
    pose proof Hp as [L R A T C].
    assert (len kinds = len raw) as Hlk by (unfold len; congruence).
    destruct (lead b && (i mod cols + 1 <? cols) && (i + 1 <? len raw)) eqn:Hcan.
    + apply andb_true_iff in Hcan as [[Hl H1%Z.ltb_lt]%andb_true_iff H2%Z.ltb_lt].
      apply IH; [done|lia|lia|].
      set (k1 := <[Z.to_nat i := DbcsLead]> kinds).
      assert (len k1 = len raw) as Hl1 by (subst k1; unfold len; rewrite length_insert; done).
      assert (Hk : ∀ j, 0 ≤ j → idx (<[Z.to_nat (i + 1) := DbcsTail]> k1) j =
         if j =? i + 1 then Some DbcsTail else if j =? i then Some DbcsLead else idx kinds j).
      { intros j Hj. rewrite idx_insert by lia. subst k1. by rewrite idx_insert by lia. }
      assert (Hneg : ∀ (l : list CellKind) j x, idx l j = Some x → 0 ≤ j)
        by (intros l j x Hx%idx_Some_range; lia).
      split.
      * subst k1. by rewrite !length_insert.
      * intros j Hj Hjl. rewrite Hk by lia. zbool. apply R; lia.
      * intros j Hj. pose proof (Hneg _ _ _ Hj). rewrite Hk in Hj by done.
        destruct (Z.eqb_spec j (i + 1)); [done|]. destruct (Z.eqb_spec j i) as [Eji|]; [subst j|].
        -- split; [lia|]. split; [split; [by exists b|done]|]. rewrite Hk by lia. by zbool.
        -- destruct (A _ Hj) as (? & ? & ?). split; [lia|]. split; [done|].
           rewrite Hk by lia. zbool. done.
      * intros j Hj. pose proof (Hneg _ _ _ Hj). rewrite Hk in Hj by done.
        destruct (Z.eqb_spec j (i + 1)) as [E1|]; [subst j|].
        -- replace (i + 1 - 1) with i by lia. rewrite Hk by lia. by zbool.
        -- destruct (Z.eqb_spec j i) as [E2|]; [done|]. pose proof (T _ Hj) as Ht.
           pose proof (Hneg _ _ _ Ht). destruct (A _ Ht). rewrite Hk by lia.
           zbool. done.
      * intros j Hj1 Hj. pose proof (Hneg _ _ _ Hj). rewrite Hk in Hj by done.
        destruct (Z.eqb_spec j (i + 1)); [done|]. destruct (Z.eqb_spec j i); [done|].
        apply C; [lia|done].
    + apply IH; [done|lia|lia|]. split; try done.
      * intros j Hj. apply R. lia.
      * intros j Hj. destruct (A _ Hj) as (? & ?). split; [lia|done].
      * intros j Hj Hs [(b' & Hb' & Hl) [H1 H2]]. destruct (Z.eqb_spec j i) as [E2|]; [subst j|].
        -- rewrite Hb in Hb'. injection Hb' as <-. rewrite Hl in Hcan. revert Hcan. by zbool.
        -- apply (C j); [lia|done|]. split; [by exists b'|done].
  - exists kinds. split; [done|]. destruct Hp as [L R A T C]. split; [done|..|done|].
    + intros j Hj. by destruct (A _ Hj) as (_ & ? & ?).
    + intros j Hj. apply (C j); [|done]. apply idx_Some_range in Hj.
      unfold len in *. rewrite L in Hj. lia.
Qed.
End annotate.

Lemma idx_slice {A} (l : list A) a n i : 0 ≤ a → a + n ≤ len l → 0 ≤ i < n →
  idx (slice l a n) i = idx l (a + i).
Proof.
  intros Ha Hn Hi. unfold idx, slice, len in *. rewrite length_take, length_drop.
  zbool. rewrite lookup_take_lt by lia. rewrite lookup_drop. f_equal. lia.
Qed.
Lemma paired_row lead raw cols kinds r : 0 < cols → 0 ≤ r → (r + 1) * cols ≤ len raw →
  paired lead raw cols kinds →
  paired lead (slice raw (r * cols) cols) cols (slice kinds (r * cols) cols).
Proof.
  intros Hc Hr Hlen [L A T C]. assert (len kinds = len raw) as Hlk by (unfold len; congruence).
  assert (Hmod : ∀ i, (r * cols + i) mod cols = i mod cols).
  { intros i. by rewrite Z.add_comm, Z.mod_add by lia. }
  assert (Hls : len (slice raw (r * cols) cols) = cols).
  { unfold len. rewrite length_slice by nia. lia. }
  assert (Hks : len (slice kinds (r * cols) cols) = cols).
  { unfold len. rewrite length_slice by nia. lia. }
  assert (Hin : ∀ i x, idx (slice kinds (r * cols) cols) i = Some x →
            0 ≤ i < cols ∧ idx kinds (r * cols + i) = Some x).
  { intros i x Hi. pose proof (idx_Some_range _ _ _ Hi) as Hri. rewrite Hks in Hri.
    rewrite idx_slice in Hi by nia. done. }
  split.
  - rewrite !length_slice by nia. done.
  - intros i Hi%Hin. destruct Hi as [Hi Hk]. destruct (A _ Hk) as [[(b & Hb & Hl) [H1 H2]] Ht].
    rewrite Hmod in H1. assert (i + 1 < cols) by (rewrite Z.mod_small in H1; lia).
    split; [split; [exists b; rewrite idx_slice by nia; done|]|].
    + rewrite Hls. done.
    + rewrite idx_slice by nia. by replace (r * cols + (i + 1)) with (r * cols + i + 1) by lia.
  - intros i Hi%Hin. destruct Hi as [Hi Hk]. pose proof (T _ Hk) as Ht.
    assert (i ≠ 0).
    { intros ->. destruct (A _ Ht) as [[_ [H1 _]] _].
      assert ((r * cols + 0 - 1) mod cols = cols - 1) as Hm; [|lia].
      replace (r * cols + 0 - 1) with (cols - 1 + (r - 1) * cols) by lia.
      rewrite Z.mod_add, Z.mod_small by lia. done. }
    rewrite idx_slice by nia. by replace (r * cols + (i - 1)) with (r * cols + i - 1) by lia.
  - intros i Hi%Hin. destruct Hi as [Hi Hk]. intros [(b & Hb & Hl) [H1 H2]].
    rewrite Hls in H2. rewrite idx_slice in Hb by nia. apply (C _ Hk).
    split; [by exists b|]. rewrite Hmod. split; [done|nia].
Qed.

Lemma partial_init lead raw cols : partial lead raw cols 0 (replicate (length raw) Sbcs).
Proof.
  assert (Hk : ∀ j x, idx (replicate (length raw) Sbcs) j = Some x → x = Sbcs).
  { intros j x H. pose proof (idx_Some_range _ _ _ H) as Hr. unfold len in Hr.
    rewrite length_replicate in Hr. rewrite idx_replicate in H by lia. congruence. }
  split.
  - apply length_replicate.
  - intros j _ Hj. apply idx_replicate. unfold len in Hj. lia.
  - by intros j ?%Hk.
  - by intros j ?%Hk.
  - intros j Hj H%idx_Some_range. lia.
Qed.
Lemma annotate_ok raw cp cols : 0 < cols →
  ∃ kinds, annotate_dbcs raw cp cols = Ok kinds ∧
           paired (λ b, is_dbcs_lead_byte b cp) raw cols kinds.
Proof.
  intros Hc. unfold annotate_dbcs.
  pose proof (partial_init (λ b, is_dbcs_lead_byte b cp) raw cols) as Hp.
  case_bool_decide as Hr.
  - eexists. split; [done|]. destruct Hp as [L R A T C]. split; [done|..|done|].
    + intros i Hi. by destruct (A _ Hi) as (_ & ? & ?).
    + intros i _ [(b & _ & Hl) _]. unfold is_dbcs_lead_byte in Hl. by rewrite Hr in Hl.
  - zbool. apply annotate_loop_ok; [done|lia| |done]. unfold len. lia.
Qed.

(** The fix-up loop from index [k]. *)
Lemma fix_loop enc raw cp kinds : ∀ k cs, 0 ≤ k → k + len kinds ≤ len raw → len cs = len raw →
  (∀ i, idx kinds i = Some DbcsLead → k + i + 1 < len raw) →
  ∃ cs', for_in (zip (seqZ k (len kinds)) kinds) (fix_lead enc raw cp) cs = Ok cs' ∧
    len cs' = len cs ∧
    ∀ j, 0 ≤ j → idx cs' j =
      if bool_decide (idx kinds (j - k) = Some DbcsLead) then
        b1 ← idx raw j; b2 ← idx raw (j + 1); c ← idx cs j;
        Some (decode_dbcs enc b1 b2 cp, c.2)
      else idx cs j.
Proof.
  induction kinds as [|x kinds IH]; intros k cs Hk Hlen Hcs Hlead.
  { cbn. eexists. split; [done|]. split; [done|]. intros j Hj. case_bool_decide as H; [|done].
    apply idx_Some_range in H. unfold len in H; cbn in H. lia. }
  rewrite len_cons in *. pose proof (len_nonneg kinds). rewrite seqZ_cons by lia.
  cbn [zip zip_with for_in]. replace (Z.pred (1 + len kinds)) with (len kinds) by lia.
  assert (Hshift : ∀ j, j ≠ k → idx (x :: kinds) (j - k) = idx kinds (j - Z.succ k)).
  { intros j Hj. unfold idx. rewrite len_cons.
    destruct (Z.leb_spec 0 (j - k)), (Z.leb_spec 0 (j - Z.succ k)); try lia; cbn [andb]; try done.
    replace (Z.to_nat (j - k)) with (S (Z.to_nat (j - Z.succ k))) by lia. cbn [lookup list_lookup].
    destruct (Z.ltb_spec (j - k) (1 + len kinds)), (Z.ltb_spec (j - Z.succ k) (len kinds));
      try lia; done. }
  assert (H0 : idx (x :: kinds) (k - k) = Some x).
  { rewrite Z.sub_diag. unfold idx. rewrite len_cons. by zbool. }
  destruct (idx_is_Some cs k) as ([ch attr] & Hch & _); [lia|].
  destruct (idx_is_Some raw k) as (b1 & Hb1 & _); [lia|].
  assert (∃ cs1, fix_lead enc raw cp (k, x) cs = Ok cs1 ∧ len cs1 = len cs ∧
    (∀ j, 0 ≤ j → j ≠ k → idx cs1 j = idx cs j) ∧
    idx cs1 k = if bool_decide (x = DbcsLead) then
                  b2 ← idx raw (k + 1); Some (decode_dbcs enc b1 b2 cp, attr) else Some (ch, attr))
    as (cs1 & -> & Hl1 & Hne & Hat).
  { unfold fix_lead. case_bool_decide as Hx; cbn [andb].
    - subst x. specialize (Hlead 0). rewrite Z.sub_diag in H0. specialize (Hlead H0).
      zbool. destruct (idx_is_Some raw (k + 1)) as (b2 & Hb2 & _); [lia|].
      rewrite Hb1, Hb2. cbn [unwrap]. out_simpl. rewrite Hch. cbn [unwrap]. out_simpl.
      eexists. split; [done|]. split; [unfold len; by rewrite length_insert|]. split.
      + intros j Hj Hne. rewrite idx_insert by lia. by zbool.
      + rewrite idx_insert by lia. by zbool.
    - eexists. split; [done|]. done. }
  out_simpl. destruct (IH (Z.succ k) cs1) as (cs2 & -> & Hl2 & Hat2); [lia..| |].
  { intros i Hi. assert (0 ≤ i) by (apply idx_Some_range in Hi; lia).
    specialize (Hlead (Z.succ i)). specialize (Hshift (Z.succ i + k)).
    replace (Z.succ i + k - k) with (Z.succ i) in Hshift by lia.
    replace (Z.succ i + k - Z.succ k) with i in Hshift by lia.
    rewrite Hshift in Hlead by lia. specialize (Hlead Hi). lia. }
  exists cs2. split; [done|]. split; [lia|]. intros j Hj. rewrite Hat2 by done.
  destruct (Z.eqb_spec j k) as [E|E].
  - subst j. rewrite H0, bool_decide_false.
    + rewrite Hat, Hb1, Hch. cbn [mbind option_bind]. do 2 case_bool_decide; try done; congruence.
    + intros H'%idx_Some_range. lia.
  - by rewrite Hshift, Hne by done.
Qed.

(** * Properties *)

(** C37: the classification of the cells terminates and is the pairing it should be: a lead cell
    holds a lead byte of the codepage and has its tail next to it on the same row, a tail
    follows a lead, a cell left single could not have started a pair; there is only one such
    classification.  Rows are independent: what [VioCheckCharType] computes from one row is the
    part of the whole-screen classification (the renderer's) for that row. *)
Theorem annotate_exact (raw : list Z) (cp cols : Z) : 0 < cols →
  ∃ kinds, annotate_dbcs raw cp cols = Ok kinds ∧
    paired (λ b, is_dbcs_lead_byte b cp) raw cols kinds ∧
    (∀ kinds', paired (λ b, is_dbcs_lead_byte b cp) raw cols kinds' → kinds' = kinds) ∧
    ∀ r, 0 ≤ r → (r + 1) * cols ≤ len raw →
      annotate_dbcs (slice raw (r * cols) cols) cp cols = Ok (slice kinds (r * cols) cols).
Proof.
  intros Hc. destruct (annotate_ok raw cp cols Hc) as (kinds & H & Hp). exists kinds.
  split_and!; [done..| |].
  - intros k' Hk'. by eapply paired_unique.
  - intros r Hr Hlen. destruct (annotate_ok (slice raw (r * cols) cols) cp cols Hc) as (k' & -> & Hk').
    f_equal. eapply paired_unique; [done|]. by apply paired_row.
Qed.
Lemma annotate_exact_witness :
  annotate_dbcs [0x41; 0xC4; 0xE3; 0xC4; 0xE3; 0x20] 936 3 =
    Ok [Sbcs; DbcsLead; DbcsTail; DbcsLead; DbcsTail; Sbcs] ∧
  annotate_dbcs [0xC4; 0xE3; 0x20] 936 3 = Ok [DbcsLead; DbcsTail; Sbcs].
Proof.
  destruct (annotate_exact [0x41; 0xC4; 0xE3; 0xC4; 0xE3; 0x20] 936 3) as (k & H & _ & _ & Hr);
    [lia|]. vm_compute in H. injection H as <-. split; [done|].
  apply (Hr 1); vm_compute; done.
Defined.

(** A frame snapshot never panics and shows the screen: every cell is the stored one, except
    that a lead cell shows the character of its two bytes with its own attribute. *)
Theorem snapshot_exact enc (v : VioManager) : screen_ok v →
  ∃ s, snapshot enc v = Ok s ∧
    paired (λ b, is_dbcs_lead_byte b (codepage v)) (raw_bytes v) (cols v) (cell_kind s) ∧
    len (cells s) = rows v * cols v ∧
    ∀ i, 0 ≤ i → idx (cells s) i =
      if bool_decide (idx (cell_kind s) i = Some DbcsLead) then
        b1 ← idx (raw_bytes v) i; b2 ← idx (raw_bytes v) (i + 1); c ← idx (buffer v) i;
        Some (decode_dbcs enc b1 b2 (codepage v), c.2)
      else idx (buffer v) i.
Proof.
  intros [[Hb Hr Hrows Hcols] _ _].
  destruct (annotate_ok (raw_bytes v) (codepage v) (cols v)) as (kinds & Hk & Hp); [lia|].
  assert (len kinds = len (raw_bytes v)) as Hlk by (unfold len; f_equal; apply Hp).
  unfold snapshot. rewrite Hk. out_simpl.
  destruct (fix_loop enc (raw_bytes v) (codepage v) kinds 0 (buffer v)) as (cs & -> & Hl & Hat);
    [lia..| |].
  { intros i Hi. destruct (paired_lead _ _ _ _ Hp _ Hi) as [[_ [_ ?]] _]. lia. }
  out_simpl. eexists. split; [done|]. cbn [cell_kind cells]. split_and!; [done|lia|].
  intros i Hi. rewrite Hat by done. by rewrite Z.sub_0_r.
Qed.
Lemma snapshot_exact_witness :
  ∃ s, snapshot (λ _ b, b) demo = Ok s ∧ len (cells s) = 40.
Proof.
  destruct (snapshot_exact (λ _ b, b) demo demo_ok) as (s & H & _ & Hl & _).
  exists s. split; [done|]. exact Hl.
Defined.
