(* ===== verification/Viocalls.v ===== *)
(** The VIOCALLS handlers (src/src/loader/viocalls.rs): the Pascal-convention dispatch over the
    guest stack and the Vio* functions over guest memory and the screen.

    [VioWorld] is the part of the shared state they use, with what was printed so far.  A guest
    write whose result the source drops is a [poke].  The debug and warning logs are left out. *)
From S2P Require Import Prelude Bytes Codepage Constants GuestMem Console Dbcs.

Definition NO_ERROR := 0.
Definition ERROR_INVALID_FUNCTION := 87.
Definition ERROR_INVALID_LEVEL := 124.
Definition ERROR_VIO_ROW := 426.
Definition ERROR_VIO_COL := 427.

Record VioWorld := mk_world {
  guest : GuestMemory;
  console : VioManager;
  active_codepage : Z;
  stdout : bytes;
}.
Definition with_guest (w : VioWorld) (g : GuestMemory) : VioWorld :=
  mk_world g (console w) (active_codepage w) (stdout w).
Definition with_console (w : VioWorld) (v : VioManager) (out : bytes) : VioWorld :=
  mk_world (guest w) v (active_codepage w) (stdout w ++ out).

Section viocalls.
Context {B : Build}.
Context (enc_decode : Encoding → bytes → rstring) (enc_encode : Encoding → rstring → bytes).

Abbreviation vio := (outcome () (Z * VioWorld)) (only parsing).

(** [(0..n).filter_map(|i| self.guest_read::<u8>(psz + i)).collect()], from [i] *)
Fixpoint guest_bytes (n : nat) (g : GuestMemory) (psz i : Z) : outcome () bytes :=
  match n with
  | O => Ok []
  | S n =>
    p ← uadd M32 psz i;
    rest ← guest_bytes n g psz (i + 1);
    Ok (match read8 g p with Some b => b :: rest | None => rest end)
  end.

(** The screen operation [m] applied, and [NO_ERROR]. *)
Definition on_console (w : VioWorld) (m : outcome () (VioManager * bytes)) : vio :=
  '(v, out) ← m;
  Ok (NO_ERROR, with_console w v out).

Definition vio_wrt_tty (w : VioWorld) (psz cb : Z) : vio :=
  if (cb =? 0) || (psz =? 0) then Ok (NO_ERROR, w)
  else
    data ← guest_bytes (Z.to_nat cb) (guest w) psz 0;
    on_console w (write_tty enc_decode (console w) data 0x07 (active_codepage w)).

Definition viocalls_arg_bytes (ordinal : Z) : Z :=
  match ordinal with
  | 19 => 12 | 21 => 8 | 9 => 12 | 15 => 12 | 7 => 28 | 47 => 28
  | 48 => 24 | 52 => 20 | 26 => 20 | 24 => 20 | 32 => 8 | 27 => 8
  | 5 => 8 | 3 => 8 | 51 => 8 | 42 => 12 | 46 => 12
  | 22 => 8 | 31 => 12 | 43 => 12
  | 10 => 20
  | 39 => 16
  | _ => 0
  end.

(** [self.guest_write::<uN>(p + off, v)] *)
Definition poke_at (n : nat) (g : GuestMemory) (p off v : Z) : outcome () GuestMemory :=
  q ← uadd M32 p off;
  Ok (poke n g q v).
(** [self.guest_read::<uN>(p + off).unwrap_or(d)] *)
Definition peek_at (n : nat) (g : GuestMemory) (p off d : Z) : outcome () Z :=
  q ← uadd M32 p off;
  Ok (default d (read n g q)).

Definition vio_get_mode (w : VioWorld) (p_mode : Z) : vio :=
  if p_mode =? 0 then Ok (NO_ERROR, w)
  else
    let v := console w in
    let g := poke 2 (guest w) p_mode 12 in
    g ← poke_at 1 g p_mode 2 1;
    g ← poke_at 1 g p_mode 3 4;
    g ← poke_at 2 g p_mode 4 (cols v);
    g ← poke_at 2 g p_mode 6 (rows v);
    hres ← umul M16 (cols v) 8;
    g ← poke_at 2 g p_mode 8 hres;
    vres ← umul M16 (rows v) 16;
    g ← poke_at 2 g p_mode 10 vres;
    Ok (NO_ERROR, with_guest w g).

Definition vio_set_mode (w : VioWorld) (p_mode : Z) : vio :=
  if p_mode =? 0 then Ok (ERROR_INVALID_FUNCTION, w)
  else
    let cb := default 0 (read16 (guest w) p_mode) in
    if cb <? 8 then Ok (ERROR_INVALID_LEVEL, w)
    else
      fb_type ← peek_at 1 (guest w) p_mode 2 0;
      if negb (fb_type =? 1) then Ok (ERROR_INVALID_FUNCTION, w)
      else
        new_cols ← peek_at 2 (guest w) p_mode 4 80;
        new_rows ← peek_at 2 (guest w) p_mode 6 25;
        if (new_cols <? 1) || (new_rows <? 1) || (255 <? new_cols) || (255 <? new_rows)
        then Ok (ERROR_INVALID_LEVEL, w)
        else
          v ← resize (console w) new_rows new_cols;
          Ok (NO_ERROR, with_console w v []).

Definition vio_get_cur_pos (w : VioWorld) (p_row p_col : Z) : vio :=
  let g := guest w in
  let g := if p_row =? 0 then g else poke 2 g p_row (cursor_row (console w)) in
  let g := if p_col =? 0 then g else poke 2 g p_col (cursor_col (console w)) in
  Ok (NO_ERROR, with_guest w g).

Definition vio_set_cur_pos (w : VioWorld) (row col : Z) : vio :=
  on_console w (set_cursor_pos (console w) (as_u M16 row) (as_u M16 col)).

(** The fill cell of the scroll calls. *)
Definition fill_of (w : VioWorld) (p_cell : Z) : outcome () (Cell * Z) :=
  if p_cell =? 0 then Ok (BLANK, SPACE)
  else
    let ch_byte := default SPACE (read8 (guest w) p_cell) in
    attr ← peek_at 1 (guest w) p_cell 1 0x07;
    Ok ((decode_vio_byte enc_decode ch_byte (active_codepage w), attr), ch_byte).

Definition vio_scroll_up (w : VioWorld) (top bottom lines p_cell : Z) : vio :=
  '(fill_cell, fill_raw) ← fill_of w p_cell;
  on_console w (scroll_up (console w) (as_u M16 top) (as_u M16 bottom) (as_u M16 lines)
                          fill_cell fill_raw).
Definition vio_scroll_dn (w : VioWorld) (top bottom lines p_cell : Z) : vio :=
  '(fill_cell, fill_raw) ← fill_of w p_cell;
  on_console w (scroll_down (console w) (as_u M16 top) (as_u M16 bottom) (as_u M16 lines)
                            fill_cell fill_raw).

Definition vio_wrt_char_str_att (w : VioWorld) (psz cb row col p_attr : Z) : vio :=
  let attr := if p_attr =? 0 then 0x07 else default 0x07 (read8 (guest w) p_attr) in
  data ← guest_bytes (Z.to_nat cb) (guest w) psz 0;
  on_console w (write_char_str_att enc_decode (console w) (as_u M16 row) (as_u M16 col) data attr
                                   (active_codepage w)).

Definition vio_wrt_n_cell (w : VioWorld) (p_cell count row col : Z) : vio :=
  let ch_byte := default SPACE (read8 (guest w) p_cell) in
  attr ← peek_at 1 (guest w) p_cell 1 0x07;
  let ch := decode_vio_byte enc_decode ch_byte (active_codepage w) in
  on_console w (write_n_cell (console w) (as_u M16 row) (as_u M16 col) ch_byte (ch, attr)
                             (as_u M16 count)).

Definition vio_wrt_n_attr (w : VioWorld) (p_attr count row col : Z) : vio :=
  let attr := default 0x07 (read8 (guest w) p_attr) in
  on_console w (write_n_attr (console w) (as_u M16 row) (as_u M16 col) attr (as_u M16 count)).

(** The loop of [vio_read_cell_str]; the [break] is when the buffer is full. *)
Fixpoint store_cells (cells : list Cell) (cp max_len p_buf offset : Z) (g : GuestMemory)
    : outcome () (Z * GuestMemory) :=
  match cells with
  | [] => Ok (offset, g)
  | (ch, attr) :: cells =>
    if max_len <? offset + 2 then Ok (offset, g)
    else
      let byte := if ch <? 0x80 then ch
                  else match cp_encode enc_encode [ch] cp with b :: _ => b | [] => 0x3F end in
      p ← uadd M32 p_buf offset;
      let g := poke 1 g p byte in
      q ← uadd M32 p 1;
      let g := poke 1 g q attr in
      store_cells cells cp max_len p_buf (offset + 2) g
  end.
Definition vio_read_cell_str (w : VioWorld) (p_buf pcb row col : Z) : vio :=
  let max_len := default 0 (read16 (guest w) pcb) in
  cells ← read_cell_str (console w) (as_u M16 row) (as_u M16 col) max_len;
  '(offset, g) ← store_cells cells (active_codepage w) max_len p_buf 0 (guest w);
  Ok (NO_ERROR, with_guest w (poke 2 g pcb (as_u M16 offset))).

Definition vio_set_cur_type (w : VioWorld) (p_cur_data : Z) : vio :=
  if p_cur_data =? 0 then Ok (NO_ERROR, w)
  else
    let y_start := default 14 (read16 (guest w) p_cur_data) in
    c_end ← peek_at 2 (guest w) p_cur_data 2 15;
    attr ← peek_at 2 (guest w) p_cur_data 6 0;
    let visible := negb (attr =? 0xFFFF) in
    let '(v, out) := set_cursor_type (console w) visible in
    Ok (NO_ERROR, with_console w (set_cursor_shape v (as_u M8 y_start) (as_u M8 c_end)) out).

Definition vio_get_cur_type (w : VioWorld) (p_cur_data : Z) : vio :=
  if p_cur_data =? 0 then Ok (NO_ERROR, w)
  else
    let v := console w in
    let attr := if cursor_visible v then 0 else 0xFFFF in
    let g := poke 2 (guest w) p_cur_data (cursor_start v) in
    g ← poke_at 2 g p_cur_data 2 (cursor_end v);
    g ← poke_at 2 g p_cur_data 4 0;
    g ← poke_at 2 g p_cur_data 6 attr;
    Ok (NO_ERROR, with_guest w g).

Definition vio_set_ansi (w : VioWorld) (flag : Z) : vio :=
  Ok (NO_ERROR, with_console w (with_ansi (console w) (negb (flag =? 0))) []).
Definition vio_get_ansi (w : VioWorld) (p_flag : Z) : vio :=
  Ok (NO_ERROR, if p_flag =? 0 then w
                else with_guest w (poke 4 (guest w) p_flag (if ansi_mode (console w) then 1 else 0))).

Definition vio_check_char_type (w : VioWorld) (p_type row col : Z) : vio :=
  let v := console w in
  if rows v <=? row then Ok (ERROR_VIO_ROW, w)
  else if cols v <=? col then Ok (ERROR_VIO_COL, w)
  else
    let row_start := row * cols v in
    row_bytes ← (if row_start + cols v <=? len (raw_bytes v)
                 then Ok (slice (raw_bytes v) row_start (cols v)) else Panic);
    kinds ← annotate_dbcs row_bytes (codepage v) (cols v);
    if p_type =? 0 then Ok (NO_ERROR, w)
    else
      kind ← unwrap (idx kinds col);
      let type_val := match kind with Sbcs => 0 | DbcsLead => 2 | DbcsTail => 3 end in
      Ok (NO_ERROR, with_guest w (poke 2 (guest w) p_type type_val)).

Definition vio_get_config (w : VioWorld) (p_config : Z) : vio :=
  if p_config =? 0 then Ok (NO_ERROR, w)
  else
    let g := poke 2 (guest w) p_config 10 in
    g ← poke_at 2 g p_config 2 3;
    g ← poke_at 2 g p_config 4 3;
    g ← poke_at 4 g p_config 6 0x10000;
    Ok (NO_ERROR, with_guest w g).

(** The dispatch on the ordinal, over the stack words it reads. *)
Definition dispatch (w : VioWorld) (ordinal : Z) (read_stack : Z → outcome () Z) : vio :=
  if ordinal =? 19 then
    p ← read_stack 12; n ← read_stack 8; _ ← read_stack 4; vio_wrt_tty w p n
  else if ordinal =? 21 then p ← read_stack 8; _ ← read_stack 4; vio_get_mode w p
  else if ordinal =? 9 then
    p ← read_stack 12; q ← read_stack 8; _ ← read_stack 4; vio_get_cur_pos w p q
  else if ordinal =? 15 then
    r ← read_stack 12; c ← read_stack 8; _ ← read_stack 4; vio_set_cur_pos w r c
  else if ordinal =? 7 then
    top ← read_stack 28; _ ← read_stack 24; bottom ← read_stack 20; _ ← read_stack 16;
    n ← read_stack 12; p ← read_stack 8; _ ← read_stack 4; vio_scroll_up w top bottom n p
  else if ordinal =? 47 then
    top ← read_stack 28; _ ← read_stack 24; bottom ← read_stack 20; _ ← read_stack 16;
    n ← read_stack 12; p ← read_stack 8; _ ← read_stack 4; vio_scroll_dn w top bottom n p
  else if ordinal =? 48 then
    p ← read_stack 24; n ← read_stack 20; r ← read_stack 16; c ← read_stack 12;
    a ← read_stack 8; vio_wrt_char_str_att w p n r c a
  else if ordinal =? 52 then
    p ← read_stack 20; n ← read_stack 16; r ← read_stack 12; c ← read_stack 8;
    _ ← read_stack 4; vio_wrt_n_cell w p n r c
  else if ordinal =? 26 then
    p ← read_stack 20; n ← read_stack 16; r ← read_stack 12; c ← read_stack 8;
    _ ← read_stack 4; vio_wrt_n_attr w p n r c
  else if ordinal =? 24 then
    p ← read_stack 20; n ← read_stack 16; r ← read_stack 12; c ← read_stack 8;
    _ ← read_stack 4; vio_read_cell_str w p n r c
  else if ordinal =? 32 then p ← read_stack 8; _ ← read_stack 4; vio_set_cur_type w p
  else if ordinal =? 27 then p ← read_stack 8; _ ← read_stack 4; vio_get_cur_type w p
  else if ordinal =? 5 then m ← read_stack 8; _ ← read_stack 4; vio_set_ansi w m
  else if ordinal =? 3 then p ← read_stack 8; _ ← read_stack 4; vio_get_ansi w p
  else if ordinal =? 46 then _ ← read_stack 12; p ← read_stack 8; vio_get_config w p
  else if ordinal =? 22 then p ← read_stack 8; _ ← read_stack 4; vio_set_mode w p
  else if ordinal =? 39 then
    p ← read_stack 16; r ← read_stack 12; c ← read_stack 8; _ ← read_stack 4;
    vio_check_char_type w p r c
  else Ok (NO_ERROR, w).

(** [handle_viocalls]; [rsp] is the 64-bit stack pointer. *)
Definition read_stack (w : VioWorld) (rsp off : Z) : outcome () Z :=
  a ← uadd M64 rsp off;
  unwrap (read32 (guest w) (as_u M32 a)).
Definition handle_viocalls (w : VioWorld) (rsp ordinal : Z) : vio :=
  dispatch w ordinal (read_stack w rsp).
End viocalls.

(** * The release build never panics *)

(** The worlds of the handlers, and what each handler keeps. *)
Definition vio_ok (v : VioManager) : Prop := screen_ok v ∧ rows v < M16 - 1.
Definition world_ok (w : VioWorld) : Prop := vio_ok (console w) ∧ mem_wf (guest w).
Record keeps (w w' : VioWorld) : Prop := {
  keeps_ok : world_ok w';
  keeps_size : size (guest w') = size (guest w);
  keeps_codepage : codepage (console w') = codepage (console w);
  keeps_active : active_codepage w' = active_codepage w;
}.

Section total.
Context {B : Build}.
Context (enc_decode : Encoding → bytes → rstring) (enc_encode : Encoding → rstring → bytes).
Hypothesis release : overflow_checks = false.

(** Returns, and keeps the world. *)
Definition safe (w : VioWorld) (m : outcome () (Z * VioWorld)) : Prop :=
  ∃ r w', m = Ok (r, w') ∧ keeps w w'.

Lemma uadd_total m a b : ∃ z, uadd (E := ()) m a b = Ok z.
Proof. unfold uadd, overflowing. rewrite release. destruct (_ <? _); by eexists. Qed.
Lemma umul_total m a b : ∃ z, umul (E := ()) m a b = Ok z.
Proof. unfold umul, overflowing. rewrite release. destruct (_ <? _); by eexists. Qed.
Lemma poke_at_total n g p off v : mem_wf g →
  ∃ g', poke_at n g p off v = Ok g' ∧ mem_wf g' ∧ size g' = size g.
Proof.
  intros Hg. unfold poke_at. destruct (uadd_total M32 p off) as [q ->]. out_simpl.
  eexists. split; [done|]. split; [by apply poke_wf|apply poke_size].
Qed.
Lemma peek_at_total n g p off d : ∃ z, peek_at n g p off d = Ok z.
Proof. unfold peek_at. destruct (uadd_total M32 p off) as [q ->]. by eexists. Qed.
Lemma guest_bytes_total n g psz i : ∃ data, guest_bytes n g psz i = Ok data.
Proof.
  revert i. induction n as [|n IH]; intros i; cbn [guest_bytes]; [by eexists|].
  destruct (uadd_total M32 psz i) as [p ->]. out_simpl. destruct (IH (i + 1)) as [r ->].
  by eexists.
Qed.

Lemma keeps_refl w : world_ok w → keeps w w.
Proof. by split. Qed.
Lemma safe_ret w r : world_ok w → safe w (Ok (r, w)).
Proof. intros. eexists _, _. split; [done|]. by apply keeps_refl. Qed.
Lemma safe_guest w g r : world_ok w → mem_wf g → size g = size (guest w) →
  safe w (Ok (r, with_guest w g)).
Proof. intros [Hv _] Hg Hs. eexists _, _. split; [done|]. by split. Qed.
Lemma safe_vio w v o r : world_ok w → vio_ok v → codepage v = codepage (console w) →
  safe w (Ok (r, with_console w v o)).
Proof. intros [_ Hg] Hv Hc. eexists _, _. split; [done|]. by split. Qed.

Lemma vio_redrawn v v' : vio_ok v → redrawn v v' → vio_ok v' ∧ codepage v' = codepage v.
Proof.
  intros [[Hg ? ?] ?] Hre. destruct (redrawn_fields _ _ Hre) as (E1 & E2 & E3 & E4 & _ & E6).
  split; [|done]. split; [|by rewrite E1]. split; [by eapply redrawn_ok|by rewrite ?E1, ?E3..|].
  by rewrite E2, E4.
Qed.
Lemma vio_printable v : vio_ok v → printable v.
Proof. intros [[? ? ?] ?]. split_and!; lia. Qed.

(** A console operation that redraws or is a well-behaved [write_tty]. *)
Lemma safe_console w m : world_ok w →
  (∃ v' o, m = Ok (v', o) ∧ vio_ok v' ∧ codepage v' = codepage (console w)) →
  safe w (on_console w m).
Proof. intros Hw (v' & o & -> & Hv & Hc). unfold on_console. out_simpl. by apply safe_vio. Qed.
Lemma safe_redraw w m : world_ok w →
  (∃ v' o, m = Ok (v', o) ∧ redrawn (console w) v') → safe w (on_console w m).
Proof.
  intros Hw (v' & o & -> & Hre). apply safe_console; [done|]. exists v', o.
  split; [done|]. apply vio_redrawn; [apply Hw|done].
Qed.

Lemma terminal_total v out : (∃ o, out = Ok o) → ∃ o, terminal v out = Ok o.
Proof. apply terminal_ok. Qed.
Lemma goto_total r c : ∃ o, goto r c = Ok o.
Proof.
  unfold goto. destruct (uadd_total M16 r 1) as [? ->]. out_simpl.
  destruct (uadd_total M16 c 1) as [? ->]. by eexists.
Qed.
Lemma positioned_total v row col attr cells :
  (∃ v' o, cells v = Ok (v', o) ∧ redrawn v v') →
  ∃ v' o, positioned v row col attr cells = Ok (v', o) ∧ redrawn v v'.
Proof.
  intros (v' & o & Hc & Hre). unfold positioned.
  destruct (terminal_total v (g ← goto row col; Ok (g ++ write_ansi_attr attr))) as [o1 ->].
  { destruct (goto_total row col) as [g ->]. by eexists. }
  out_simpl. rewrite Hc. out_simpl.
  destruct (terminal_total v' (g ← goto_cursor v'; Ok (RESET ++ g))) as [o3 ->].
  { unfold goto_cursor. destruct (goto_total (cursor_row v') (cursor_col v')) as [g ->].
    by eexists. }
  by eexists _, _.
Qed.
Lemma char_str_loop_total row attr cp text : ∀ c v, grid_ok v → 0 ≤ row → 0 ≤ c →
  ∃ v' o, char_str_loop enc_decode row c attr cp text v = Ok (v', o) ∧ redrawn v v'.
Proof.
  induction text as [|ch text IH]; intros c v Hv Hr Hc; cbn [char_str_loop]; [by eexists _, _|].
  destruct (Z.leb_spec (cols v) c); [by eexists _, _|]. pose proof (ok_cols v Hv).
  destruct (put_ok v (row * cols v + c) (decode_vio_byte enc_decode ch cp, attr) ch Hv)
    as (v1 & -> & Hre); [nia|]. out_simpl. rewrite uadd_ok by lia. out_simpl.
  destruct (IH (c + 1) v1) as (v2 & o & -> & Hre2); [by eapply redrawn_ok|lia..|]. out_simpl.
  eexists _, _. split; [done|]. by etrans.
Qed.
Lemma n_cell_loop_total row raw cell n : ∀ c v, grid_ok v → 0 ≤ row → 0 ≤ c →
  ∃ v' o, n_cell_loop n row c raw cell v = Ok (v', o) ∧ redrawn v v'.
Proof.
  induction n as [|n IH]; intros c v Hv Hr Hc; cbn [n_cell_loop]; [by eexists _, _|].
  destruct (Z.leb_spec (cols v) c); [by eexists _, _|]. pose proof (ok_cols v Hv).
  destruct (put_ok v (row * cols v + c) cell raw Hv) as (v1 & -> & Hre); [nia|]. out_simpl.
  rewrite uadd_ok by lia. out_simpl.
  destruct (IH (c + 1) v1) as (v2 & o & -> & Hre2); [by eapply redrawn_ok|lia..|]. out_simpl.
  eexists _, _. split; [done|]. by etrans.
Qed.
Lemma n_attr_loop_total row attr n : ∀ c v, grid_ok v → 0 ≤ row → 0 ≤ c →
  ∃ v' o, n_attr_loop n row c attr v = Ok (v', o) ∧ redrawn v v'.
Proof.
  induction n as [|n IH]; intros c v Hv Hr Hc; cbn [n_attr_loop]; [by eexists _, _|].
  destruct (Z.leb_spec (cols v) c); [by eexists _, _|]. pose proof (ok_cols v Hv).
  set (i := row * cols v + c).
  assert (∃ v1 o1, match idx (buffer v) i with
    | Some (ch, _) => Ok (with_cells v (<[Z.to_nat i := (ch, attr)]> (buffer v)) (raw_bytes v),
                          if sdl2_mode v then [] else write_char ch)
    | None => Ok (v, [])
    end = Ok (E := ()) (v1, o1) ∧ redrawn v v1) as (v1 & o1 & -> & Hre).
  { destruct (idx (buffer v) i) as [[ch a]|]; eexists _, _; (split; [done|]); [|done].
    split; [done| |done]. cbn. unfold len. by rewrite length_insert. }
  out_simpl. rewrite uadd_ok by lia. out_simpl.
  destruct (IH (c + 1) v1) as (v2 & o & -> & Hre2); [by eapply redrawn_ok|lia..|]. out_simpl.
  eexists _, _. split; [done|]. by etrans.
Qed.
Lemma read_cells_total row v n : ∀ c, 0 ≤ c → cols v < M16 →
  ∃ l, read_cells n row c v = Ok l.
Proof.
  induction n as [|n IH]; intros c Hc Hv; cbn [read_cells]; [by eexists|].
  destruct (Z.leb_spec (cols v) c); [by eexists|]. rewrite uadd_ok by lia. out_simpl.
  destruct (IH (c + 1)) as [l ->]; [lia|done|]. by eexists.
Qed.
Lemma store_cells_total cells cp ml p : ∀ off g, mem_wf g →
  ∃ off' g', store_cells enc_encode cells cp ml p off g = Ok (off', g') ∧ mem_wf g' ∧
             size g' = size g.
Proof.
  induction cells as [|[ch a] cells IH]; intros off g Hg; cbn [store_cells]; [by eexists _, _|].
  destruct (_ <? _); [by eexists _, _|].
  destruct (uadd_total M32 p off) as [q ->]. out_simpl.
  destruct (uadd_total M32 q 1) as [q1 ->]. out_simpl.
  edestruct (IH (off + 2)) as (o' & g' & -> & Hg' & Hs'); [by do 2 apply poke_wf|].
  eexists _, _. split; [done|]. split; [done|]. by rewrite Hs', !poke_size.
Qed.
Lemma scroll_total v top bottom lines x r : vio_ok v → 0 ≤ top → 0 ≤ lines →
  (∃ v' o, scroll_up v top bottom lines x r = Ok (v', o) ∧ redrawn v v') ∧
  (∃ v' o, scroll_down v top bottom lines x r = Ok (v', o) ∧ redrawn v v').
Proof.
  intros Hv Ht Hl. pose proof (vio_printable v Hv). destruct Hv as [[Hg _ _] _].
  destruct ((bottom <? top) || (rows v <=? bottom)) eqn:Hout.
  - unfold scroll_up, scroll_down. rewrite Hout. split; by eexists _, _.
  - apply orb_false_iff in Hout as [?%Z.ltb_ge ?%Z.leb_gt]. split.
    + destruct (scroll_up_spec v top bottom lines x r) as (v' & o & ? & [? _] & _);
        [done|done|lia..|by left|]. by eexists _, _.
    + destruct (scroll_down_spec v top bottom lines x r) as (v' & o & ? & [? _] & _);
        [done|done|lia..|]. by eexists _, _.
Qed.
Lemma fill_of_total w p : ∃ x r, fill_of enc_decode w p = Ok (x, r).
Proof.
  unfold fill_of. destruct (_ =? _); [by eexists _, _|].
  destruct (peek_at_total 1 (guest w) p 1 0x07) as [a ->]. by eexists _, _.
Qed.

Lemma as_u16_nonneg x : 0 ≤ as_u M16 x.
Proof. by apply as_u_range. Qed.
Hint Resolve as_u16_nonneg : core.

Lemma wrt_tty_safe w p n : world_ok w → safe w (vio_wrt_tty enc_decode w p n).
Proof.
  intros Hw. unfold vio_wrt_tty. destruct (_ || _); [by apply safe_ret|].
  destruct (guest_bytes_total (Z.to_nat n) (guest w) p 0) as [data ->]. out_simpl.
  apply safe_console; [done|]. destruct Hw as [[Hs Hr] _].
  destruct (tty_loop_ok enc_decode 0x07 (active_codepage w) data (console w) false)
    as (v' & a & o & Hl & (Hs' & Hr' & _) & Hm & _); [by split_and!; try done; left|].
  unfold write_tty. rewrite Hl. out_simpl. eexists _, _. split; [done|].
  split; [done|]. apply Hm.
Qed.
Lemma get_mode_safe w p : world_ok w → safe w (vio_get_mode w p).
Proof.
  intros Hw. unfold vio_get_mode. destruct (_ =? _); [by apply safe_ret|].
  pose proof (poke_wf 2 _ p 12 (proj2 Hw)) as G0. pose proof (poke_size 2 (guest w) p 12) as S0.
  destruct (poke_at_total 1 _ p 2 1 G0) as (g1 & -> & G1 & S1). out_simpl.
  destruct (poke_at_total 1 g1 p 3 4 G1) as (g2 & -> & G2 & S2). out_simpl.
  destruct (poke_at_total 2 g2 p 4 (cols (console w)) G2) as (g3 & -> & G3 & S3). out_simpl.
  destruct (poke_at_total 2 g3 p 6 (rows (console w)) G3) as (g4 & -> & G4 & S4). out_simpl.
  destruct (umul_total M16 (cols (console w)) 8) as [h ->]. out_simpl.
  destruct (poke_at_total 2 g4 p 8 h G4) as (g5 & -> & G5 & S5). out_simpl.
  destruct (umul_total M16 (rows (console w)) 16) as [k ->]. out_simpl.
  destruct (poke_at_total 2 g5 p 10 k G5) as (g6 & -> & G6 & S6). out_simpl.
  apply safe_guest; [done..|congruence].
Qed.
Lemma set_mode_safe w p : world_ok w → safe w (vio_set_mode w p).
Proof.
  intros Hw. unfold vio_set_mode. destruct (p =? 0); [by apply safe_ret|].
  destruct (_ <? 8); [by apply safe_ret|].
  destruct (peek_at_total 1 (guest w) p 2 0) as [t ->]. out_simpl.
  destruct (negb _); [by apply safe_ret|].
  destruct (peek_at_total 2 (guest w) p 4 80) as [c ->]. out_simpl.
  destruct (peek_at_total 2 (guest w) p 6 25) as [r ->]. out_simpl.
  destruct ((c <? 1) || (r <? 1) || (255 <? c) || (255 <? r)) eqn:Hb; [by apply safe_ret|].
  rewrite !orb_false_iff in Hb. destruct Hb as [[[?%Z.ltb_ge ?%Z.ltb_ge] ?%Z.ltb_ge] ?%Z.ltb_ge].
  pose proof Hw as [[Hs Hr] _].
  destruct (resize_spec (console w) r c) as (v' & -> & _ & E1 & E2 & E3 & _ & Hok & _);
    [apply Hs|lia..|].
  out_simpl. apply safe_vio; [done| |done]. split; [by apply Hok|lia].
Qed.
Lemma cur_pos_safe w p q r c : world_ok w →
  safe w (vio_get_cur_pos w p q) ∧ safe w (vio_set_cur_pos w r c).
Proof.
  intros Hw. split.
  - unfold vio_get_cur_pos. apply safe_guest; [done| |].
    + destruct Hw as [_ Hg]. destruct (p =? 0), (q =? 0); auto using poke_wf.
    + destruct (p =? 0), (q =? 0); by rewrite ?poke_size.
  - unfold vio_set_cur_pos. apply safe_console; [done|]. pose proof Hw as [[[Hg Hr Hc] Hm] _].
    unfold set_cursor_pos. rewrite !usub_ok by lia. out_simpl.
    destruct (terminal_total (with_cursor (console w)
       (Z.min (as_u M16 r) (rows (console w) - 1)) (Z.min (as_u M16 c) (cols (console w) - 1)))
       (goto_cursor (with_cursor (console w) (Z.min (as_u M16 r) (rows (console w) - 1))
          (Z.min (as_u M16 c) (cols (console w) - 1))))) as [o ->]; [apply goto_total|].
    out_simpl. eexists _, _. split; [done|]. split; [|done].
    pose proof (as_u16_nonneg r). pose proof (as_u16_nonneg c).
    split; [split; [by split; destruct Hg|cbn; lia..]|done].
Qed.
Lemma scroll_safe w top bottom n p : world_ok w →
  safe w (vio_scroll_up enc_decode w top bottom n p) ∧
  safe w (vio_scroll_dn enc_decode w top bottom n p).
Proof.
  intros Hw. unfold vio_scroll_up, vio_scroll_dn.
  destruct (fill_of_total w p) as (x & r & ->). out_simpl.
  destruct (scroll_total (console w) (as_u M16 top) (as_u M16 bottom) (as_u M16 n) x r)
    as [Hu Hd]; [apply Hw|done..|]. split; by apply safe_redraw.
Qed.
Lemma write_safe w p n r c a : world_ok w →
  safe w (vio_wrt_char_str_att enc_decode w p n r c a) ∧
  safe w (vio_wrt_n_cell enc_decode w p n r c) ∧ safe w (vio_wrt_n_attr w p n r c).
Proof.
  intros Hw. pose proof (ok_grid _ (proj1 (proj1 Hw))) as Hg. split_and!.
  - unfold vio_wrt_char_str_att.
    destruct (guest_bytes_total (Z.to_nat n) (guest w) p 0) as [data ->]. out_simpl.
    apply safe_redraw; [done|]. apply positioned_total. by apply char_str_loop_total.
  - unfold vio_wrt_n_cell. destruct (peek_at_total 1 (guest w) p 1 0x07) as [at_ ->]. out_simpl.
    apply safe_redraw; [done|]. apply positioned_total. by apply n_cell_loop_total.
  - apply safe_redraw; [done|]. apply positioned_total. by apply n_attr_loop_total.
Qed.
Lemma read_cell_str_safe w p n r c : world_ok w →
  safe w (vio_read_cell_str enc_encode w p n r c).
Proof.
  intros Hw. unfold vio_read_cell_str, read_cell_str.
  destruct (read_cells_total (as_u M16 r) (console w)
    (Z.to_nat (default 0 (read16 (guest w) n) / 2)) (as_u M16 c)) as [l ->];
    [done|apply Hw|]. out_simpl.
  destruct (store_cells_total l (active_codepage w) (default 0 (read16 (guest w) n)) p 0 (guest w))
    as (o & g & -> & Hg & Hs); [apply Hw|]. out_simpl.
  apply safe_guest; [done|by apply poke_wf|by rewrite poke_size].
Qed.
Lemma cur_type_safe w p : world_ok w →
  safe w (vio_set_cur_type w p) ∧ safe w (vio_get_cur_type w p).
Proof.
  intros Hw. unfold vio_set_cur_type, vio_get_cur_type.
  destruct (p =? 0); [by split; apply safe_ret|]. split.
  - destruct (peek_at_total 2 (guest w) p 2 15) as [c ->]. out_simpl.
    destruct (peek_at_total 2 (guest w) p 6 0) as [a ->]. out_simpl.
    unfold set_cursor_type. apply safe_vio; [done| |done].
    destruct Hw as [[[[] ? ?] ?] _]. split; [split; [by split|done..]|done].
  - pose proof (poke_wf 2 _ p (cursor_start (console w)) (proj2 Hw)) as G0.
    pose proof (poke_size 2 (guest w) p (cursor_start (console w))) as S0.
    destruct (poke_at_total 2 _ p 2 (cursor_end (console w)) G0) as (g1 & -> & G1 & S1). out_simpl.
    destruct (poke_at_total 2 g1 p 4 0 G1) as (g2 & -> & G2 & S2). out_simpl.
    destruct (poke_at_total 2 g2 p 6 (if cursor_visible (console w) then 0 else 0xFFFF) G2)
      as (g3 & -> & G3 & S3). out_simpl. apply safe_guest; [done..|congruence].
Qed.
Lemma ansi_config_safe w m p : world_ok w →
  safe w (vio_set_ansi w m) ∧ safe w (vio_get_ansi w p) ∧ safe w (vio_get_config w p).
Proof.
  intros Hw. split_and!.
  - apply safe_vio; [done| |done]. destruct Hw as [[[[] ? ?] ?] _]. split; [split; [by split|done..]|done].
  - unfold vio_get_ansi. destruct (p =? 0); [by apply safe_ret|].
    apply safe_guest; [done|apply poke_wf, Hw|apply poke_size].
  - unfold vio_get_config. destruct (p =? 0); [by apply safe_ret|].
    pose proof (poke_wf 2 _ p 10 (proj2 Hw)) as G0. pose proof (poke_size 2 (guest w) p 10) as S0.
    destruct (poke_at_total 2 _ p 2 3 G0) as (g1 & -> & G1 & S1). out_simpl.
    destruct (poke_at_total 2 g1 p 4 3 G1) as (g2 & -> & G2 & S2). out_simpl.
    destruct (poke_at_total 4 g2 p 6 0x10000 G2) as (g3 & -> & G3 & S3). out_simpl.
    apply safe_guest; [done..|congruence].
Qed.
Lemma check_char_type_safe w p r c : world_ok w → 0 ≤ r → 0 ≤ c →
  safe w (vio_check_char_type w p r c).
Proof.
  intros Hw Hr Hc. unfold vio_check_char_type. pose proof Hw as [[[[Hb Hraw Hrows Hcols] _ _] _] Hg].
  destruct (Z.leb_spec (rows (console w)) r); [by apply safe_ret|].
  destruct (Z.leb_spec (cols (console w)) c); [by apply safe_ret|].
  rewrite Hraw. rewrite (proj2 (Z.leb_le _ _)) by nia. out_simpl.
  destruct (annotate_ok (slice (raw_bytes (console w)) (r * cols (console w)) (cols (console w)))
    (codepage (console w)) (cols (console w))) as (kinds & -> & Hp); [lia|]. out_simpl.
  destruct (p =? 0); [by apply safe_ret|].
  assert (len kinds = cols (console w)) as Hl.
  { unfold len. rewrite (paired_len _ _ _ _ Hp), length_slice by (rewrite ?Hraw; nia). lia. }
  destruct (idx_is_Some kinds c) as (k & -> & _); [lia|]. cbn [unwrap]. out_simpl.
  apply safe_guest; [done|by apply poke_wf|apply poke_size].
Qed.
End total.

(** * Properties *)

Lemma read_stack_ok {B : Build} w rsp off : mem_wf (guest w) → 0 ≤ rsp → 0 ≤ off →
  rsp + off + 4 ≤ size (guest w) → size (guest w) ≤ M32 →
  ∃ z, read_stack w rsp off = Ok z ∧ 0 ≤ z.
Proof.
  intros Hg Hr Ho Hs Hm. unfold read_stack. rewrite uadd_ok by lia. out_simpl.
  rewrite as_u_small by lia.
  destruct (read_is_Some 4 (guest w) (rsp + off)) as [z Hz]; [apply Hg|lia|].
  rewrite Hz. exists z. split; [done|]. by apply (read_range 4 (guest w) (rsp + off)).
Qed.

(** C6: in the release build no VIO call can crash the emulator: with its argument words on the
    guest stack inside guest memory, every ordinal, with every argument value, returns; the
    screen stays well formed with the cursor on it, guest memory well formed and its size
    unchanged. *)
Theorem vio_calls_total {B : Build} enc_decode enc_encode (w : VioWorld) (rsp ordinal : Z) :
  overflow_checks = false → world_ok w →
  0 ≤ rsp → rsp + 32 ≤ size (guest w) → size (guest w) ≤ M32 →
  ∃ r w', handle_viocalls enc_decode enc_encode w rsp ordinal = Ok (r, w') ∧ keeps w w'.
Proof.
  intros Hrel Hw Hrsp Hs Hm. pose proof (proj2 Hw) as Hg. unfold handle_viocalls, dispatch.
  destruct (read_stack_ok w rsp 4) as (a4 & -> & ?); [done|lia..|].
  destruct (read_stack_ok w rsp 8) as (a8 & -> & ?); [done|lia..|].
  destruct (read_stack_ok w rsp 12) as (a12 & -> & ?); [done|lia..|].
  destruct (read_stack_ok w rsp 16) as (a16 & -> & ?); [done|lia..|].
  destruct (read_stack_ok w rsp 20) as (a20 & -> & ?); [done|lia..|].
  destruct (read_stack_ok w rsp 24) as (a24 & -> & ?); [done|lia..|].
  destruct (read_stack_ok w rsp 28) as (a28 & -> & ?); [done|lia..|].
  out_simpl.
  repeat (destruct (ordinal =? _); [first
    [ by apply wrt_tty_safe | by apply get_mode_safe | by apply set_mode_safe
    | by apply cur_pos_safe | by apply scroll_safe | by apply write_safe
    | by apply read_cell_str_safe | by apply cur_type_safe | by apply ansi_config_safe
    | by apply check_char_type_safe ]|]).
  by apply safe_ret.
Qed.

(** A call reads only the argument words it pops: the result of every ordinal depends on no
    stack word beyond the [viocalls_arg_bytes] that the caller removes after the return. *)
Theorem pascal_args_popped {B : Build} enc_decode enc_encode (w : VioWorld) (ordinal : Z)
    (stack stack' : Z → outcome () Z) :
  (∀ off, 4 ≤ off ≤ viocalls_arg_bytes ordinal → stack off = stack' off) →
  dispatch enc_decode enc_encode w ordinal stack = dispatch enc_decode enc_encode w ordinal stack'.
Proof.
  intros Heq. unfold dispatch.
  repeat match goal with |- context [ordinal =? ?o] => destruct (Z.eqb_spec ordinal o) as [->|_];
    [cbn [viocalls_arg_bytes] in Heq;
     repeat (match goal with |- stack ?k ≫= _ = _ => rewrite (Heq k) by lia; destruct (stack' k) end;
             out_simpl; [|done..]); done|] end.
  done.
Qed.

(** Reads through a sequence of pokes. *)
Ltac peel := repeat first
  [ rewrite read_poke_same by (repeat apply poke_wf; rewrite ?poke_size; done || lia)
  | rewrite read_poke_other by (done || (repeat apply poke_wf; done) || lia) ].

(** The VIO mode round-trips: [VioSetMode] with a text mode of 1 to 255 rows and columns
    resizes the screen, and [VioGetMode] then reports that size, the text type, 16 colours and
    the pixel resolution; a null pointer, a short structure, a graphics mode and a size out of
    range are refused and change nothing. *)
Theorem mode_roundtrip {B : Build} (w : VioWorld) (p q cb t c r : Z) :
  world_ok w → size (guest w) ≤ M32 → 0 < p → p + 8 ≤ size (guest w) →
  0 < q → q + 12 ≤ size (guest w) →
  read16 (guest w) p = Some cb → read8 (guest w) (p + 2) = Some t →
  read16 (guest w) (p + 4) = Some c → read16 (guest w) (p + 6) = Some r →
  if (8 <=? cb) && (t =? 1) && in_range 1 255 c && in_range 1 255 r then
    ∃ w1 w2, vio_set_mode w p = Ok (NO_ERROR, w1) ∧ guest w1 = guest w ∧
      rows (console w1) = r ∧ cols (console w1) = c ∧
      vio_get_mode w1 q = Ok (NO_ERROR, w2) ∧ console w2 = console w1 ∧
      read16 (guest w2) q = Some 12 ∧ read8 (guest w2) (q + 2) = Some 1 ∧
      read8 (guest w2) (q + 3) = Some 4 ∧ read16 (guest w2) (q + 4) = Some c ∧
      read16 (guest w2) (q + 6) = Some r ∧ read16 (guest w2) (q + 8) = Some (c * 8) ∧
      read16 (guest w2) (q + 10) = Some (r * 16)
  else ∃ e, vio_set_mode w p = Ok (e, w) ∧ e ≠ NO_ERROR.
Proof.
  intros [[Hs Hrows] Hg] Hm Hp Hps Hq Hqs Hcb Ht Hc Hr.
  unfold vio_set_mode. zbool. rewrite Hcb. cbn [default id].
  destruct (Z.ltb_spec cb 8) as [Hlt|Hge].
  { destruct (Z.leb_spec 8 cb); [lia|]. by eexists. }
  unfold peek_at. arith_ok. rewrite Ht, Hc, Hr. cbn [default]. unfold id.
  destruct (Z.leb_spec 8 cb); [|lia]. destruct (t =? 1); cbn [andb negb]; [|by eexists].
  unfold in_range.
  destruct (Z.ltb_spec c 1), (Z.ltb_spec r 1), (Z.ltb_spec 255 c), (Z.ltb_spec 255 r),
    (Z.leb_spec 1 c), (Z.leb_spec 1 r), (Z.leb_spec c 255), (Z.leb_spec r 255);
    cbn [andb orb]; try lia; try by eexists.
  destruct (resize_spec (console w) r c) as (v' & -> & _ & E1 & E2 & _);
    [apply Hs|lia..|]. out_simpl.
  eexists _, _. split; [done|]. cbn [guest console with_console].
  split; [done|]. split; [done|]. split; [done|]. split.
  { unfold vio_get_mode. zbool. cbn [guest console with_console]. unfold poke_at. arith_ok.
    rewrite E1, E2. arith_ok. done. }
  cbn [guest console with_guest with_console].
  split_and!; [done|..]; peel; do 2 f_equal; apply Z.mod_small; lia.
Qed.

(** The screen is classified with the codepage of the console, which is 437 from the start and
    which no call changes: whatever the active codepage and the bytes on the screen,
    [VioCheckCharType] answers "single byte" for every cell. *)
Lemma check_char_type_never_dbcs (w : VioWorld) (p row col : Z) :
  world_ok w → codepage (console w) = 437 → p ≠ 0 →
  0 ≤ row < rows (console w) → 0 ≤ col < cols (console w) →
  vio_check_char_type w p row col = Ok (NO_ERROR, with_guest w (poke 2 (guest w) p 0)).
Proof.
  intros [[[[Hb Hraw Hrows Hcols] _ _] _] Hg] Hcp Hp Hr Hc. unfold vio_check_char_type. zbool.
  rewrite Hraw. rewrite (proj2 (Z.leb_le _ _)) by nia. out_simpl. rewrite Hcp.
  unfold annotate_dbcs. rewrite bool_decide_true by done. out_simpl. zbool.
  rewrite idx_replicate; [done|]. rewrite length_slice by (rewrite ?Hraw; nia). lia.
Qed.

(** A guest with its stack at 0x1000 and a mode structure at 0x2000. *)
Definition demo_guest : GuestMemory :=
  poke 2 (poke 2 (poke 1 (poke 2 (alloc 0x10000) 0x2000 12) 0x2002 1) 0x2004 40) 0x2006 12.
Definition demo_world : VioWorld := mk_world demo_guest demo 437 [].
Lemma demo_world_ok : world_ok demo_world.
Proof.
  split; [split; [apply demo_ok|vm_compute; done]|]. repeat apply poke_wf. apply alloc_wf. lia.
Qed.

Lemma vio_calls_total_witness :
  ∃ r w', handle_viocalls (B := release_profile) (λ _ b, b) (λ _ s, s) demo_world 0x1000 7 = Ok (r, w').
Proof.
  destruct (vio_calls_total (B := release_profile) (λ _ b, b) (λ _ s, s) demo_world 0x1000 7
              eq_refl demo_world_ok) as (r & w' & H & _); [vm_compute; done..|].
  by exists r, w'.
Defined.
Lemma pascal_args_popped_witness :
  dispatch (B := dev_profile) (λ _ b, b) (λ _ s, s) demo_world 5 (λ _, Ok 1) =
  dispatch (B := dev_profile) (λ _ b, b) (λ _ s, s) demo_world 5
    (λ off, if off <=? 8 then Ok 1 else Panic).
Proof.
  apply (pascal_args_popped (B := dev_profile) (λ _ b, b) (λ _ s, s) demo_world 5 (λ _, Ok 1)
           (λ off, if off <=? 8 then Ok 1 else Panic)).
  cbn [viocalls_arg_bytes]. intros off Hoff. by zbool.
Defined.
Lemma mode_roundtrip_witness :
  ∃ w1 w2, vio_set_mode (B := dev_profile) demo_world 0x2000 = Ok (NO_ERROR, w1) ∧
    vio_get_mode (B := dev_profile) w1 0x3000 = Ok (NO_ERROR, w2) ∧
    read16 (guest w2) 0x3004 = Some 40.
Proof.
  destruct (mode_roundtrip (B := dev_profile) demo_world 0x2000 0x3000 12 1 40 12 demo_world_ok)
    as (w1 & w2 & H1 & _ & _ & _ & H2 & _ & _ & _ & _ & H3 & _); [vm_compute; done..|].
  exists w1, w2. split; [exact H1|]. split; [exact H2|exact H3].
Defined.
