(* ===== verification/LxLoader.v ===== *)
(** The LX image loader (src/src/loader/lx_loader.rs): pages into guest memory, fixups,
    resources, DLLs with their dependencies, and the search for a DLL on the host.

    The host files are a function from path to contents ([Path::exists] is whether it has one);
    the directory of the running executable and the host root of drive C: are arguments.  The
    monad [ld] threads the managers and guest memory through errors, because a failed DLL load
    leaves its effects behind.  The log messages are left out. *)
From S2P Require Import Prelude Bytes LxHeader LxFile MemMgr Constants Codepage GuestMem.
From S2P Require Import Managers ApiRegistry Descriptors.

(** [BUILTIN_MODULES] *)
Definition BUILTIN_MODULES : list rstring :=
  map str ["DOSCALLS"; "QUECALLS"; "PMWIN"; "PMGPI"; "KBDCALLS";
           "VIOCALLS"; "SESMGR"; "NLS"; "MSG"; "MDM"; "UCONV"].

Record World := mk_world {
  guest : GuestMemory;
  mem_mgr : MemoryManager;
  dll_mgr : DllManager;
  resource_mgr : ResourceManager;
}.
Definition with_guest (w : World) (g : GuestMemory) : World :=
  mk_world g (mem_mgr w) (dll_mgr w) (resource_mgr w).
Definition with_mem (w : World) (m : MemoryManager) : World :=
  mk_world (guest w) m (dll_mgr w) (resource_mgr w).
Definition with_dlls (w : World) (d : DllManager) : World :=
  mk_world (guest w) (mem_mgr w) d (resource_mgr w).
Definition with_resources (w : World) (r : ResourceManager) : World :=
  mk_world (guest w) (mem_mgr w) (dll_mgr w) r.

(** The error messages of [load_dll], and the I/O error of [load]. *)
Inductive load_error :=
| FailedToParse (dll_path : rstring)
| OutOfGuestMemory (dll_name : rstring)
| PageOutOfBounds (target : Z)
| PageReadError.

(** A computation over the world that may fail, keeping what it did. *)
Definition ld (A : Type) : Type := World → outcome load_error A * World.
#[export] Instance ld_ret : MRet ld := λ A a w, (Ok a, w).
#[export] Instance ld_bind : MBind ld := λ A B f m w,
  let '(r, w) := m w in
  match r with
  | Ok a => f a w
  | Err e => (Err e, w)
  | Panic => (Panic, w)
  | Diverge => (Diverge, w)
  end.
Definition fail {A} (e : load_error) : ld A := λ w, (Err e, w).
Definition diverge {A} : ld A := λ w, (Diverge, w).
(** A pure step that may panic; reading and writing the world. *)
Definition pure {A} (m : outcome () A) : ld A := λ w,
  (match m with Ok a => Ok a | Diverge => Diverge | _ => Panic end, w).
Definition get : ld World := λ w, (Ok w, w).
Definition set (w : World) : ld unit := λ _, (Ok tt, w).
Fixpoint each {A} (l : list A) (body : A → ld unit) : ld unit :=
  match l with
  | [] => mret tt
  | a :: l => body a;; each l body
  end.

(** [n.wrapping_sub(1)] on a usize. *)
Definition pred_index (n : Z) : Z := wrapping_sub M64 n 1.

(** [is_pm_app] *)
Definition is_pm_app (f : LxFile) : bool :=
  existsb (λ m, bool_decide (m = str "PMWIN") || bool_decide (m = str "PMGPI")) (imported_modules f).

Section loader.
Context {B : Build}.

(** ** Pages *)

(** The pages of an object with their numbers: the loops over [page_count] stop at the end of
    the table [l] ([page_map], or the fixups by page). *)
Definition object_pages {A} (obj : ObjectTableEntry) (l : list A) : list (Z * A) :=
  let start := saturating_sub (page_map_index obj) 1 in
  let n := Z.min (page_count obj) (len l - start) in
  zip (seqZ 0 n) (slice l start n).

(** [file.seek(off); file.read_exact(slice)]: a short file leaves what it had in the slice. *)
Definition read_page_at (file : bytes) (off target size : Z) : ld unit :=
  w ← get;
  let data := slice file off size in
  set (with_guest w (store_bytes (guest w) target data));;
  if len data =? size then mret tt else fail PageReadError.

Definition page_file_offset (f : LxFile) (pm : ObjectPageMapEntry) : Z :=
  data_pages_offset (header f) + Z.shiftl (data_offset pm) (page_offset_shift (header f)).

(** The mapping loop of [load]; the target is truncated to a u32, a page outside guest memory
    is an [expect] that fails. *)
Definition load_pages (f : LxFile) (file : bytes) : ld unit :=
  each (object_table f) (λ obj,
    each (object_pages obj (page_map f)) (λ '(p, pm),
      let target := base_address obj + p * 4096 in
      if 0 <? data_size pm then
        w ← get;
        t ← pure (unwrap (ptr_at (guest w) (as_u M32 target) (data_size pm)));
        read_page_at file (page_file_offset f pm) t (data_size pm)
      else mret tt)).

(** The resources of [load]. *)
Definition load_resources (f : LxFile) : ld unit :=
  each (LxFile.resources f) (λ res,
    match idx (object_table f) (pred_index (res_object_num res)) with
    | Some obj =>
      guest_addr ← pure (uadd M32 (base_address obj) (res_offset res));
      w ← get;
      set (with_resources w (resource_add (resource_mgr w) (type_id res) (name_id res)
                                          guest_addr (res_size res)))
    | None => mret tt
    end).

(** ** Fixups *)

(** [imported_modules.get(ordinal - 1)], or the empty name. *)
Definition import_module (f : LxFile) (module_ordinal : Z) : rstring :=
  default [] (idx (imported_modules f) (pred_index module_ordinal)).

(** The target address of a record; 0 for one that is skipped. *)
Definition target_addr (f : LxFile) (object_bases : list Z) (d : DllManager) (t : FixupTarget) : Z :=
  match t with
  | Internal object_num target_offset =>
    match idx object_bases (pred_index object_num) with
    | Some base => base + target_offset
    | None => 0
    end
  | ExternalOrdinal module_ordinal proc_ordinal =>
    resolve_import d (import_module f module_ordinal) proc_ordinal
  | ExternalName module_ordinal proc_name_offset =>
    resolve_import_by_name d (import_module f module_ordinal)
      (default [] (get_proc_name f proc_name_offset))
  | InternalEntry _ => 0
  end.

(** [guest_write(..).expect(..)] *)
Definition write_or_panic (n : nat) (g : GuestMemory) (a v : Z) : outcome () GuestMemory :=
  unwrap (write n g a v).

(** One source location of a record. *)
Definition apply_one (src_type target source_phys : Z) (g : GuestMemory) : outcome () GuestMemory :=
  let at_ := as_u M32 source_phys in
  match src_type with
  | 0x07 => write_or_panic 4 g at_ (as_u M32 target)
  | 0x08 => write_or_panic 4 g at_ (as_u M32 (target - (source_phys + 4)))
  | 0x02 | 0x03 =>
    let tile_index := as_u M32 (Z.shiftr target 16) in
    let offset16 := Z.land target 0xFFFF in
    t ← uadd M32 TILED_SEL_START_INDEX tile_index;
    s ← umul M32 t 8;
    let selector := as_u M16 s in
    g ← write_or_panic 2 g at_ offset16;
    a ← uadd M32 at_ 2;
    write_or_panic 2 g a selector
  | 0x05 => write_or_panic 2 g at_ (Z.land target 0xFFFF)
  | 0x06 =>
    g ← write_or_panic 4 g at_ (as_u M32 target);
    a ← uadd M32 at_ 4;
    write_or_panic 2 g a 0x08
  | _ => Ok g
  end.

(** The offsets of one record on page [p] of the object at [base]. *)
Definition apply_record (f : LxFile) (object_bases : list Z) (d : DllManager) (base p : Z)
    (r : LxFixupRecord) (g : GuestMemory) : outcome () GuestMemory :=
  let target := target_addr f object_bases d (target r) in
  if target =? 0 then Ok g
  else for_in (source_offsets r) (λ off g,
         apply_one (Z.land (source_type r) 0x0F) target (base + p * 4096 + off) g) g.

(** [apply_fixups]: the bases are those of the object table, in order. *)
Definition apply_fixups (f : LxFile) (object_bases : list Z) : ld unit :=
  each (zip (seqZ 0 (len (object_table f))) (object_table f)) (λ '(obj_idx, obj),
    base ← pure (unwrap (idx object_bases obj_idx));
    each (object_pages obj (fixup_records_by_page f)) (λ '(p, records),
      each records (λ r,
        w ← get;
        g ← pure (apply_record f object_bases (dll_mgr w) base p r (guest w));
        set (with_guest w g)))).

(** [Loader::load] of the opened file. *)
Definition load (f : LxFile) (file : bytes) : ld unit :=
  load_pages f file;;
  load_resources f;;
  apply_fixups f (map base_address (object_table f)).

(** ** DLLs *)

(** [s.to_ascii_lowercase()], [s.strip_suffix(x)] *)
Definition to_ascii_lowercase (s : rstring) : rstring :=
  map (λ c, if in_range 0x41 0x5A c then c + 0x20 else c) s.
Definition strip_suffix (x s : rstring) : option rstring :=
  let n := (length s - length x)%nat in
  if bool_decide (length x ≤ length s)%nat && bool_decide (drop n s = x) then Some (take n s)
  else None.

Section host.
(** The host files, the directory of the executable, and the host root of drive C:. *)
Context (host_file : rstring → option bytes) (exe_dir : rstring) (c_root : option rstring).

Definition exists_ (p : rstring) : bool := bool_decide (is_Some (host_file p)).

(** [find_dll_path] *)
Definition find_dll_path (dll_name : rstring) : option rstring :=
  let upper := to_ascii_uppercase dll_name in
  let stem := default upper (strip_suffix (str ".DLL") upper) in
  let filename_lower := to_ascii_lowercase stem ++ str ".dll" in
  let filename_upper := stem ++ str ".DLL" in
  let names := [filename_lower; filename_upper] in
  let next_to_exe := if bool_decide (exe_dir = []) then []
                     else map (λ n, exe_dir ++ str "/" ++ n) names in
  let on_c := match c_root with
              | Some c => flat_map (λ subdir, map (λ n, c ++ str "/" ++ subdir ++ str "/" ++ n) names)
                                   [str "os2/dll"; str "OS2/DLL"]
              | None => []
              end in
  snd <$> list_find (λ p, exists_ p) (next_to_exe ++ on_c).

(** Step 2: memory for each object, at least a page. *)
Fixpoint alloc_objects (dll_name : rstring) (objs : list ObjectTableEntry) : ld (list Z) :=
  match objs with
  | [] => mret []
  | obj :: objs =>
    w ← get;
    '(addr, m) ← pure (MemMgr.alloc (mem_mgr w) (Z.max (LxHeader.size obj) 4096));
    set (with_mem w m);;
    match addr with
    | Some a => bases ← alloc_objects dll_name objs; mret (a :: bases)
    | None => fail (OutOfGuestMemory dll_name)
    end
  end.

(** Step 3: the pages at the allocated bases. *)
Definition load_dll_pages (f : LxFile) (file : bytes) (object_bases : list Z) : ld unit :=
  each (zip (seqZ 0 (len (object_table f))) (object_table f)) (λ '(i, obj),
    base ← pure (unwrap (idx object_bases i));
    each (object_pages obj (page_map f)) (λ '(p, pm),
      if data_size pm =? 0 then mret tt
      else
        d ← pure (umul M32 (as_u M32 p) 4096);
        target ← pure (uadd M32 base d);
        w ← get;
        match ptr_at (guest w) target (data_size pm) with
        | Some t => read_page_at file (page_file_offset f pm) t (data_size pm)
        | None => fail (PageOutOfBounds target)
        end)).

(** Step 5: the exports by ordinal and by name. *)
Definition export_entry (object_bases : list Z) (e : LxExport) (m : gmap Z Z)
    : outcome () (gmap Z Z) :=
  match idx object_bases (pred_index (export_object e)) with
  | Some base => a ← uadd M32 base (export_offset e); Ok (<[LxFile.ordinal e := a]> m)
  | None => Ok m
  end.
Definition exports_by_ordinal_of (f : LxFile) (object_bases : list Z) : outcome () (gmap Z Z) :=
  for_in (exports f) (export_entry object_bases) ∅.
Definition exports_by_name_of (names : list (Z * rstring)) (by_ordinal : gmap Z Z)
    : gmap rstring Z :=
  foldl (λ m '(ordinal, name),
    match by_ordinal !! ordinal with
    | Some addr => <[to_ascii_uppercase name := addr]> m
    | None => m
    end) ∅ names.

(** Step 6: the INITTERM entry. *)
Definition initterm_of (f : LxFile) (object_bases : list Z) : outcome () (option Z) :=
  if eip_object (header f) =? 0 then Ok None
  else match idx object_bases (pred_index (eip_object (header f))) with
       | Some base => Some <$> uadd M32 base (LxHeader.eip (header f))
       | None => Ok None
       end.

(** Steps 4 to 7: fixups, export maps, registration. *)
Definition finish_dll (dll_name : rstring) (f : LxFile) (object_bases : list Z) : ld Z :=
  apply_fixups f object_bases;;
  by_ordinal ← pure (exports_by_ordinal_of f object_bases);
  let by_name := exports_by_name_of (nonresident_names f) by_ordinal in
  initterm ← pure (initterm_of f object_bases);
  w ← get;
  '(h, m) ← pure (dll_alloc_handle (dll_mgr w));
  set (with_dlls w (dll_register m (mk_dll dll_name h object_bases by_ordinal by_name 1 initterm
                                           false)).2);;
  mret h.

(** The loop over the imported modules (step 3.5): [load] loads one of them; its failure is
    only logged.  [loading] is the set of names on the call stack. *)
Fixpoint load_deps (load : rstring → rstring → gset rstring → ld (outcome load_error Z * gset rstring))
    (deps : list rstring) (loading : gset rstring) : ld (gset rstring) :=
  match deps with
  | [] => mret loading
  | dep_name :: deps =>
    let dep_upper := to_ascii_uppercase dep_name in
    w ← get;
    loading ←
      (if bool_decide (dep_upper ∈ BUILTIN_MODULES) then mret loading
       else if bool_decide (is_Some (dll_find_by_name (dll_mgr w) dep_upper)) then mret loading
       else if bool_decide (dep_upper ∈ loading) then mret loading
       else match find_dll_path dep_upper with
            | Some dep_path => '(_, loading) ← load dep_upper dep_path loading; mret loading
            | None => mret loading
            end);
    load_deps load deps loading
  end.

(** The result of [m] as a value: an [Err] does not end the caller. *)
Definition catch {A} (m : ld A) : ld (outcome load_error A) := λ w,
  let '(r, w) := m w in
  match r with
  | Ok a => (Ok (Ok a), w)
  | Err e => (Ok (Err e), w)
  | Panic => (Panic, w)
  | Diverge => (Diverge, w)
  end.

(** [load_dll_impl]; an error after the insertion leaves the name in [loading]. *)
Fixpoint load_dll_impl (fuel : nat) (dll_name dll_path : rstring) (loading : gset rstring)
    : ld (outcome load_error Z * gset rstring) :=
  match fuel with
  | O => diverge
  | S fuel =>
    let dll_name_upper := to_ascii_uppercase dll_name in
    w ← get;
    match dll_find_by_name (dll_mgr w) dll_name_upper with
    | Some d =>
      '(_, m) ← pure (increment_refcount (dll_mgr w) (handle d));
      set (with_dlls w m);;
      mret (Ok (handle d), loading)
    | None =>
      match host_file dll_path with
      | None => mret (Err (FailedToParse dll_path), loading)
      | Some file =>
        match parse file with
        | Ok f =>
          bases ← catch (bases ← alloc_objects dll_name_upper (object_table f);
                         load_dll_pages f file bases;;
                         mret bases);
          match bases with
          | Ok object_bases =>
            loading ← load_deps (load_dll_impl fuel) (imported_modules f)
                                ({[dll_name_upper]} ∪ loading);
            h ← finish_dll dll_name_upper f object_bases;
            mret (Ok h, loading ∖ {[dll_name_upper]})
          | Err e => mret (Err e, loading)
          | Panic => pure Panic
          | Diverge => diverge
          end
        | Err _ => mret (Err (FailedToParse dll_path), loading)
        | Panic => pure Panic
        | Diverge => diverge
        end
      end
    end
  end.

(** [load_dll] *)
Definition load_dll (fuel : nat) (dll_name dll_path : rstring) : ld (outcome load_error Z) :=
  '(r, _) ← load_dll_impl fuel dll_name dll_path ∅;
  mret r.
End host.
End loader.

(** * Lemmas *)

(** [m] from [w] returns, with [Q] of a result and world, or an error. *)
Definition runs {A} (m : ld A) (w : World) (Q : A → World → Prop) : Prop :=
  match m w with (Ok a, w') => Q a w' | (Err _, _) => True | _ => False end.

Lemma runs_ret {A} (a : A) w (Q : A → World → Prop) : Q a w → runs (mret a) w Q.
Proof. done. Qed.
Lemma runs_bind {A C} (m : ld A) (f : A → ld C) w Q :
  runs m w (λ a w', runs (f a) w' Q) → runs (m ≫= f) w Q.
Proof.
  unfold runs, mbind, ld_bind. destruct (m w) as [[a|e| |] w']; done.
Qed.
Lemma runs_mono {A} (m : ld A) w (Q Q' : A → World → Prop) :
  runs m w Q → (∀ a w', Q a w' → Q' a w') → runs m w Q'.
Proof. unfold runs. destruct (m w) as [[a|e| |] w']; auto. Qed.
Lemma runs_get w Q : Q w w → runs get w Q.
Proof. done. Qed.
Lemma runs_set w w' Q : Q tt w' → runs (set w') w Q.
Proof. done. Qed.
Lemma runs_fail {A} e w Q : runs (fail (A := A) e) w Q.
Proof. done. Qed.
Lemma runs_pure {A} (m : outcome () A) a w (Q : A → World → Prop) :
  m = Ok a → Q a w → runs (pure m) w Q.
Proof. by intros ->. Qed.
Lemma runs_each {A} (I : World → Prop) l (body : A → ld unit) w :
  I w → (∀ a w, a ∈ l → I w → runs (body a) w (λ _ w', I w')) →
  runs (each l body) w (λ _ w', I w').
Proof.
  revert w. induction l as [|a l IH]; intros w Hw Hb; cbn [each]; [done|].
  apply runs_bind. eapply runs_mono; [apply Hb; [by left|done]|].
  intros [] w' Hw'. apply IH; [done|]. intros b w2 Hin. apply Hb. by right.
Qed.

(** ** One fixup *)

Section fixups.
Context {B : Build}.

(** What a source location holds for a target: the address (0x07), the distance to it from the
    next instruction (0x08), a far pointer to it through the tiled selectors (0x02, 0x03), its
    low word (0x05), or a 16:32 pointer through the flat code selector (0x06). *)
Definition points_to (src_type target s : Z) (g : GuestMemory) : Prop :=
  match src_type with
  | 0x07 => read32 g s = Some (target mod M32)
  | 0x08 => ∃ v, read32 g s = Some v ∧ (s + 4 + v) mod M32 = target mod M32
  | 0x02 | 0x03 => ∃ sel, read16 g s = Some (target mod 65536) ∧ read16 g (s + 2) = Some sel ∧
      sel = (6 + target / 65536) * 8 mod 65536 ∧
      (target < NUM_TILES * TILE_SIZE → dos_sel_to_flat (sel * 65536 + target mod 65536) = target)
  | 0x05 => read16 g s = Some (target mod 65536)
  | 0x06 => read32 g s = Some (target mod M32) ∧ read16 g (s + 4) = Some 0x08
  | _ => True
  end.
(** The bytes a source location has. *)
Definition field_width (src_type : Z) : Z :=
  match src_type with
  | 0x07 | 0x08 | 0x02 | 0x03 => 4
  | 0x05 => 2
  | 0x06 => 6
  | _ => 0
  end.
Definition known_type (ty : Z) : Prop := ty ∈ [7; 8; 2; 3; 5; 6].
Lemma known_or_not ty : ty = 7 ∨ ty = 8 ∨ (ty = 2 ∨ ty = 3) ∨ ty = 5 ∨ ty = 6 ∨ ¬ known_type ty.
Proof. unfold known_type. rewrite !elem_of_cons, elem_of_nil. lia. Qed.
Lemma field_width_unknown ty : ¬ known_type ty → field_width ty = 0.
Proof.
  unfold known_type. rewrite !elem_of_cons, elem_of_nil. intros H.
  destruct ty as [|p|p]; try done. repeat (destruct p as [p|p|]; try done); lia.
Qed.
Lemma field_width_bounds ty : 0 ≤ field_width ty ≤ 6.
Proof.
  destruct (known_or_not ty) as [->|[->|[[->| ->]|[->|[->|H]]]]]; cbn; [lia..|].
  rewrite field_width_unknown by done. lia.
Qed.

(** A write of [k] bytes at [s]. *)
Record touches (k s : Z) (g g' : GuestMemory) : Prop := {
  touches_wf : mem_wf g';
  touches_size : GuestMem.size g' = GuestMem.size g;
  touches_other : ∀ q n, q + Z.of_nat n ≤ s ∨ s + k ≤ q → read n g' q = read n g q;
}.

Lemma write_or_panic_ok k n g s a v :
  mem_wf g → s ≤ a → a + Z.of_nat n ≤ s + k → s + k ≤ GuestMem.size g →
  ∃ g', write_or_panic n g a v = Ok g' ∧ touches k s g g' ∧
    read n g' a = Some (v mod 256 ^ Z.of_nat n) ∧
    ∀ q k, q + Z.of_nat k ≤ a ∨ a + Z.of_nat n ≤ q → read k g' q = read k g q.
Proof.
  intros Hg Hs Ha Hsz. unfold write_or_panic. rewrite write_ok by (apply Hg || lia). cbn [unwrap].
  assert (write n g a v = Some (store_bytes g a (le_bytes n v))) as Hw by (apply write_ok; apply Hg || lia).
  eexists. split; [done|]. split; [split|].
  - by eapply write_wf.
  - by eapply write_size.
  - intros q k' Hq. eapply read_write_other; [done..|]. lia.
  - split; [by apply (read_write_same n g a)|]. intros q k' Hq. by eapply read_write_other.
Qed.
Lemma touches_trans k s g1 g2 g3 : touches k s g1 g2 → touches k s g2 g3 → touches k s g1 g3.
Proof.
  intros [A1 B1 C1] [A2 B2 C2]. split; [done|congruence|]. intros q n Hq.
  by rewrite C2, C1.
Qed.

Lemma sel_flat target : 0 ≤ target < NUM_TILES * TILE_SIZE →
  dos_sel_to_flat (as_u M16 ((TILED_SEL_START_INDEX + target / 65536) * 8) * 65536 + target mod 65536)
  = target.
Proof.
  unfold NUM_TILES, TILE_SIZE, TILED_SEL_START_INDEX. intros Ht.
  assert (0 ≤ target / 65536 < 4096) as Hi.
  { split; [apply Z.div_pos; lia|]. apply Z.div_lt_upper_bound; lia. }
  pose proof (Z.mod_pos_bound target 65536). rewrite as_u_small by lia.
  set (i := target / 65536) in *. set (o := target mod 65536) in *.
  unfold dos_sel_to_flat. rewrite Z.shiftr_div_pow2 by lia. change (2 ^ 16) with 65536.
  change 0xFFFF with (Z.ones 16). rewrite Z.land_ones by lia. change (2 ^ 16) with 65536.
  rewrite Z.div_add_l by lia. rewrite (Z.div_small o) by lia. rewrite Z.add_0_r.
  rewrite (Z.add_comm ((6 + i) * 8 * 65536)), Z.mod_add, Z.mod_small by lia.
  rewrite as_u_small by lia. rewrite Z.div_mul by lia.
  unfold TILED_CODE_START_INDEX, TILED_SEL_START_INDEX, NUM_TILES, TILE_SIZE.
  destruct (Z.leb_spec (6 + 4096) (6 + i)); [lia|]. destruct (Z.leb_spec 6 (6 + i)); [|lia].
  subst i o. pose proof (Z.div_mod target 65536). lia.
Qed.

Lemma apply_one_spec ty target s g :
  mem_wf g → GuestMem.size g ≤ M32 → 0 ≤ s → s + field_width ty ≤ GuestMem.size g → 0 ≤ target < 2 ^ 40 →
  ∃ g', apply_one ty target s g = Ok g' ∧ touches (field_width ty) s g g' ∧ points_to ty target s g' ∧
    (¬ known_type ty → g' = g).
Proof.
  intros Hg Hm Hs Hsz Ht.
  assert (Hland : Z.land target 0xFFFF = target mod 65536).
  { change 0xFFFF with (Z.ones 16). by rewrite Z.land_ones. }
  assert (H7 : ∀ v, s + 4 ≤ GuestMem.size g → ∃ g', write_or_panic 4 g s (as_u M32 v) = Ok g' ∧
                touches 4 s g g' ∧ read32 g' s = Some (v mod M32)).
  { intros v Hsz4. destruct (write_or_panic_ok 4 4 g s s (as_u M32 v)) as (g' & -> & Hto & Hr & _);
      [done|lia..|]. exists g'. split_and!; [done..|]. rewrite Hr. unfold as_u.
    change (256 ^ Z.of_nat 4) with M32. by rewrite Z.mod_mod. }
  unfold apply_one.
  destruct (known_or_not ty) as [->|[->|[Hty|[->|[->|Hn]]]]]; cbn [field_width] in *;
    try (rewrite (as_u_small M32 s) by lia).
  - destruct (H7 target Hsz) as (g' & ? & ? & ?). exists g'. split_and!; [done..|]. intros []. by left.
  - destruct (H7 (target - (s + 4)) Hsz) as (g' & ? & ? & Hr). exists g'. split; [done|]. split; [done|].
    split; [|intros []; right; by left].
    exists ((target - (s + 4)) mod M32). split; [done|].
    rewrite Z.add_mod_idemp_r by lia. f_equal. lia.
  - assert (s + 4 ≤ GuestMem.size g) as Hsz4 by (destruct Hty as [->| ->]; exact Hsz).
    assert (∃ g', (
      t ← uadd M32 TILED_SEL_START_INDEX (as_u M32 (Z.shiftr target 16));
      s' ← umul M32 t 8;
      g ← write_or_panic 2 g (as_u M32 s) (Z.land target 0xFFFF);
      a ← uadd M32 (as_u M32 s) 2;
      write_or_panic 2 g a (as_u M16 s')) = Ok g' ∧ touches 4 s g g' ∧ points_to 2 target s g') as Hfar.
    { rewrite (as_u_small M32 s) by lia. rewrite Z.shiftr_div_pow2 by lia. change (2 ^ 16) with 65536.
      assert (0 ≤ target / 65536 < 2 ^ 24).
      { split; [apply Z.div_pos; lia|]. apply Z.div_lt_upper_bound; lia. }
      rewrite as_u_small by lia. unfold TILED_SEL_START_INDEX at 1. arith_ok.
      rewrite Hland.
      destruct (write_or_panic_ok 4 2 g s s (target mod 65536)) as (g1 & -> & Hto1 & Hr1 & _);
        [done|lia..|]. out_simpl. arith_ok.
      destruct (write_or_panic_ok 4 2 g1 s (s + 2) (as_u M16 ((6 + target / 65536) * 8)))
        as (g2 & -> & Hto2 & Hr2 & Ho2); [apply Hto1|lia|lia|by rewrite (touches_size _ _ _ _ Hto1)|].
      exists g2. split; [done|]. split; [by eapply touches_trans|].
      exists (as_u M16 ((6 + target / 65536) * 8)). split_and!.
      - rewrite Ho2, Hr1 by lia. change (256 ^ Z.of_nat 2) with 65536. by rewrite Z.mod_mod.
      - rewrite Hr2. change (256 ^ Z.of_nat 2) with 65536. f_equal. unfold as_u.
        by rewrite Z.mod_mod.
      - done.
      - intros Hlt. apply sel_flat. lia. }
    destruct Hfar as (g' & Hw & Hto & Hp). exists g'.
    destruct Hty as [->| ->]; (split_and!; [done..|]); intros []; unfold known_type; rewrite !elem_of_cons, elem_of_nil; lia.
  - rewrite Hland. destruct (write_or_panic_ok 2 2 g s s (target mod 65536)) as (g1 & -> & Hto & Hr & _);
      [done|lia..|]. exists g1. split_and!; [done..| |intros []; unfold known_type; rewrite !elem_of_cons, elem_of_nil; lia].
    cbn [points_to]. rewrite Hr. change (256 ^ Z.of_nat 2) with 65536. by rewrite Z.mod_mod.
  - destruct (write_or_panic_ok 6 4 g s s (as_u M32 target)) as (g1 & -> & Hto1 & Hr1 & _);
      [done|lia..|]. out_simpl. arith_ok.
    destruct (write_or_panic_ok 6 2 g1 s (s + 4) 0x08)
      as (g2 & -> & Hto2 & Hr2 & Ho2); [apply Hto1|lia|lia|by rewrite (touches_size _ _ _ _ Hto1)|].
    exists g2. split; [done|]. split; [by eapply touches_trans|].
    split; [split|intros []; unfold known_type; rewrite !elem_of_cons, elem_of_nil; lia].
    + rewrite Ho2, Hr1 by lia. unfold as_u. change (256 ^ Z.of_nat 4) with M32. by rewrite Z.mod_mod.
    + by rewrite Hr2.
  - exists g. unfold known_type in Hn. rewrite !elem_of_cons, elem_of_nil in Hn.
    split; [|split; [by split|split; [|done]]].
    + destruct ty as [|p|p]; try done. repeat (destruct p as [p|p|]; try done); lia.
    + unfold points_to. destruct ty as [|p|p]; try done. repeat (destruct p as [p|p|]; try done); lia.
Qed.

(** A location keeps what it holds while its bytes stay. *)
Lemma points_to_ext ty target s g g' :
  (∀ q n, s ≤ q → q + Z.of_nat n ≤ s + field_width ty → read n g' q = read n g q) →
  points_to ty target s g → points_to ty target s g'.
Proof.
  intros H. destruct (known_or_not ty) as [->|[->|[[->| ->]|[->|[->|Hn]]]]]; cbn [points_to field_width] in *;
    try (by rewrite !H by lia); try (setoid_rewrite H; [done|lia..]).
  unfold known_type in Hn. rewrite !elem_of_cons, elem_of_nil in Hn. intros _.
  unfold points_to. destruct ty as [|p|p]; try done. repeat (destruct p as [p|p|]; try done); lia.
Qed.
(** All sources of a record whose locations do not overlap. *)
Definition apart (k a b : Z) : Prop := a + k ≤ b ∨ b + k ≤ a.
Lemma apply_sources ty target l : ∀ g,
  mem_wf g → GuestMem.size g ≤ M32 → 0 ≤ target < 2 ^ 40 →
  Forall (λ s, 0 ≤ s ∧ s + field_width ty ≤ GuestMem.size g) l → ForallOrdPairs (apart (field_width ty)) l →
  ∃ g', for_in l (apply_one ty target) g = Ok g' ∧ mem_wf g' ∧ GuestMem.size g' = GuestMem.size g ∧
    Forall (λ s, points_to ty target s g') l ∧ (¬ known_type ty → g' = g) ∧
    ∀ q n, (∀ s, s ∈ l → q + Z.of_nat n ≤ s ∨ s + field_width ty ≤ q) → read n g' q = read n g q.
Proof.
  induction l as [|s l IH]; intros g Hg Hm Ht Hin Hap; cbn [for_in].
  { exists g. split_and!; done. }
  apply Forall_cons in Hin as [[Hs Hsz] Hin]. inversion Hap as [|? ? Hal Hap']; subst.
  destruct (apply_one_spec ty target s g) as (g1 & -> & [W1 S1 O1] & P1 & U1); [done..|]. out_simpl.
  destruct (IH g1) as (g' & H' & W2 & S2 & P2 & U2 & O2); [done|lia|done|by rewrite S1|done|].
  exists g'. split_and!; [done|done|congruence| | |].
  - apply Forall_cons. split; [|done]. eapply points_to_ext; [|exact P1]. intros q n Hq Hn.
    apply O2. intros s' Hs'. rewrite Forall_forall in Hal. destruct (Hal s' Hs'); lia.
  - intros Hk. by rewrite U2, U1.
  - intros q n Hq. rewrite O2, O1; [done|apply Hq; by left|]. intros s' Hs'. apply Hq. by right.
Qed.
End fixups.

(** ** Pages and fixups of an image *)

Lemma bind_ext {A C} (m m' : ld A) (f f' : A → ld C) w :
  m w = m' w → (∀ a w', f a w' = f' a w') → (m ≫= f) w = (m' ≫= f') w.
Proof. intros Hm Hf. unfold mbind, ld_bind. rewrite Hm. by destruct (m' w) as [[]]. Qed.
Lemma each_app {A} (l1 l2 : list A) body w :
  each (l1 ++ l2) body w = (each l1 body;; each l2 body) w.
Proof.
  revert w. induction l1 as [|a l1 IH]; intros w; cbn [each app]; [done|].
  unfold mbind, ld_bind. by destruct (body a w) as [[[]|e| |] w1].
Qed.
(** Nested loops are one loop over the pairs. *)
Definition pairs {A C} (l : list A) (k : A → list C) : list (A * C) :=
  l ≫= λ a, pair a <$> k a.
Lemma each_pairs {A C} (l : list A) (k : A → list C) (body : A → C → ld unit) w :
  each l (λ a, each (k a) (body a)) w = each (pairs l k) (λ '(a, c), body a c) w.
Proof.
  revert w. induction l as [|a l IH]; intros w; cbn [each]; [done|].
  change (pairs (a :: l) k) with ((pair a <$> k a) ++ pairs l k). rewrite each_app.
  assert (∀ m w, each m (body a) w = each (pair a <$> m) (λ '(a, c), body a c) w) as Hk.
  { intros m. induction m as [|c m IHm]; intros w'; [done|]. cbn [each fmap list_fmap].
    unfold mbind, ld_bind. destruct (body a c w') as [[[]|e| |] w1]; try done. }
  unfold mbind, ld_bind. rewrite Hk.
  destruct (each (pair a <$> k a) _ w) as [[[]|e| |] w1]; try done.
Qed.

(** A page to place: its target, file offset and size. *)
Record placement := mk_placement { at_ : Z; from : Z; bytes_of : Z }.
Definition place_pages (f : LxFile) : list placement :=
  (λ '(obj, (p, pm)), mk_placement (base_address obj + p * 4096) (page_file_offset f pm)
                                   (data_size pm))
    <$> filter (λ '(_, (_, pm)), 0 < data_size pm)
          (pairs (object_table f) (λ obj, object_pages obj (page_map f))).
Definition disjoint_pages (p q : placement) : Prop :=
  at_ p + bytes_of p ≤ at_ q ∨ at_ q + bytes_of q ≤ at_ p.
Definition place (file : bytes) (q : placement) : ld unit :=
  w ← get;
  t ← pure (unwrap (ptr_at (guest w) (as_u M32 (at_ q)) (bytes_of q)));
  read_page_at file (from q) t (bytes_of q).

Lemma load_pages_places f file w : load_pages f file w = each (place_pages f) (place file) w.
Proof.
  unfold load_pages. rewrite each_pairs. unfold place_pages.
  induction (pairs (object_table f) _) as [|[obj [p pm]] l IH] in w |- *; [done|].
  cbn [each]. rewrite filter_cons. destruct (Z.ltb_spec 0 (data_size pm)) as [H|H].
  - rewrite decide_True by done. cbn [fmap list_fmap each]. apply bind_ext; [done|].
    intros _ w'. apply IH.
  - rewrite decide_False by lia. cbn. apply IH.
Qed.

Definition fits (g : GuestMemory) (q : placement) : Prop :=
  0 ≤ at_ q ∧ 0 ≤ from q ∧ 0 ≤ bytes_of q ∧ at_ q + bytes_of q ≤ GuestMem.size g.
(** The world changed in guest memory only. *)
Record guest_only (w w' : World) : Prop := {
  go_wf : mem_wf (guest w');
  go_size : GuestMem.size (guest w') = GuestMem.size (guest w);
  go_rest : w' = with_guest w (guest w');
}.
Lemma guest_only_trans w1 w2 w3 : guest_only w1 w2 → guest_only w2 w3 → guest_only w1 w3.
Proof. intros [A1 B1 C1] [A2 B2 C2]. split; [done|congruence|]. rewrite C2, C1. done. Qed.

Lemma load_bytes_ext g g' p n :
  (∀ a, p ≤ a < p + Z.of_nat n → GuestMem.load g' a = GuestMem.load g a) →
  load_bytes g' p n = load_bytes g p n.
Proof.
  revert p. induction n as [|n IH]; intros p H; cbn [load_bytes]; [done|].
  rewrite H by lia. f_equal. apply IH. intros a Ha. apply H. lia.
Qed.

Lemma place_spec file q w : Forall is_byte file → mem_wf (guest w) →
  GuestMem.size (guest w) ≤ M32 → 0 < bytes_of q → fits (guest w) q →
  runs (place file q) w (λ _ w', guest_only w w' ∧
    load_bytes (guest w') (at_ q) (Z.to_nat (bytes_of q)) = slice file (from q) (bytes_of q) ∧
    ∀ a, a < at_ q ∨ at_ q + bytes_of q ≤ a → GuestMem.load (guest w') a = GuestMem.load (guest w) a).
Proof.
  intros Hf Hg Hm Hp (H1 & H2 & H3 & H4). unfold place. apply runs_bind, runs_get.
  rewrite as_u_small by lia. apply runs_bind. eapply runs_pure.
  { rewrite (proj2 (ptr_at_Some (guest w) (at_ q) (bytes_of q) (at_ q) (proj2 (mem_size _ Hg))));
      [done|]. split; [done|lia]. }
  unfold read_page_at. apply runs_bind, runs_get. apply runs_bind, runs_set.
  set (data := slice file (from q) (bytes_of q)).
  destruct (Z.eqb_spec (len data) (bytes_of q)) as [Hl|]; [|apply runs_fail]. apply runs_ret.
  cbn [guest with_guest]. split_and!.
  - split; [|apply store_bytes_size|done]. apply store_bytes_wf; [done|].
    by apply slice_byte.
  - replace (Z.to_nat (bytes_of q)) with (length data) by (unfold len in Hl; lia).
    apply load_store_bytes.
  - intros a Ha. rewrite load_store, bool_decide_false; [done|]. lia.
Qed.

Lemma places_spec file qs : Forall is_byte file →
  ForallOrdPairs disjoint_pages qs → ∀ w, mem_wf (guest w) → GuestMem.size (guest w) ≤ M32 →
  Forall (λ q, 0 < bytes_of q ∧ fits (guest w) q) qs →
  runs (each qs (place file)) w (λ _ w', guest_only w w' ∧
    (∀ q, q ∈ qs → load_bytes (guest w') (at_ q) (Z.to_nat (bytes_of q)) =
                   slice file (from q) (bytes_of q)) ∧
    ∀ a, (∀ q, q ∈ qs → a < at_ q ∨ at_ q + bytes_of q ≤ a) →
      GuestMem.load (guest w') a = GuestMem.load (guest w) a).
Proof.
  intros Hf Hd. induction Hd as [|q qs Hq Hd IH]; intros w Hg Hm Hfit; cbn [each].
  { apply runs_ret. split_and!; [by split; destruct w| |done]. by intros q ?%elem_of_nil. }
  apply Forall_cons in Hfit as [[Hp Hfq] Hfit]. apply runs_bind.
  eapply runs_mono; [by apply place_spec|]. intros [] w1 (Hgo & Hb & Ho).
  eapply runs_mono.
  { apply IH; [apply Hgo|by rewrite (go_size _ _ Hgo)|].
    eapply Forall_impl; [exact Hfit|]. intros q' [? (? & ? & ? & ?)].
    split; [done|]. unfold fits. by rewrite (go_size _ _ Hgo). }
  intros [] w2 (Hgo2 & Hb2 & Ho2). split_and!; [by eapply guest_only_trans| |].
  - intros q' [->|Hin]%elem_of_cons; [|by apply Hb2]. rewrite <- Hb. apply load_bytes_ext.
    intros a Ha. apply Ho2. intros q'' Hin. rewrite Forall_forall in Hq.
    destruct (Hq q'' Hin); lia.
  - intros a Ha. rewrite Ho2, Ho; [done| |]; [apply Ha; by left|].
    intros q' Hin. apply Ha. by right.
Qed.

Section images.
Context {B : Build}.

(** Every fixup source of the image lies in guest memory, with its target in range. *)
Definition fixups_fit (f : LxFile) (object_bases : list Z) (w : World) : Prop :=
  len (object_table f) ≤ len object_bases ∧
  ∀ i obj base p records r off,
    idx (object_table f) i = Some obj → idx object_bases i = Some base →
    (p, records) ∈ object_pages obj (fixup_records_by_page f) → r ∈ records →
    off ∈ source_offsets r →
    0 ≤ base + p * 4096 + off ∧ base + p * 4096 + off + 6 ≤ GuestMem.size (guest w) ∧
    0 ≤ target_addr f object_bases (dll_mgr w) (target r) < 2 ^ 40.

Definition world_ok (w : World) : Prop := mem_wf (guest w) ∧ GuestMem.size (guest w) ≤ M32.

Lemma apply_record_ok f bases d base p r g :
  mem_wf g → GuestMem.size g ≤ M32 →
  (∀ off, off ∈ source_offsets r → 0 ≤ base + p * 4096 + off ∧
     base + p * 4096 + off + 6 ≤ GuestMem.size g ∧ 0 ≤ target_addr f bases d (target r) < 2 ^ 40) →
  ∃ g', apply_record f bases d base p r g = Ok g' ∧ mem_wf g' ∧ GuestMem.size g' = GuestMem.size g.
Proof.
  intros Hg Hm Hoff. unfold apply_record. destruct (_ =? 0); [by eexists|].
  apply (for_in_all (λ g', mem_wf g' ∧ GuestMem.size g' = GuestMem.size g)); [done|].
  intros off g1 Hin [Hg1 Hs1]. destruct (Hoff off Hin) as (H1 & H2 & H3).
  destruct (apply_one_spec (Z.land (source_type r) 0x0F) (target_addr f bases d (target r))
    (base + p * 4096 + off) g1) as (g2 & H & Hto & _); [done|lia..| |lia|].
  { pose proof (field_width_bounds (Z.land (source_type r) 0x0F)). lia. }
  exists g2. split; [exact H|]. destruct Hto. split; [done|congruence].
Qed.

Lemma apply_fixups_ok f bases w : world_ok w → fixups_fit f bases w →
  runs (apply_fixups f bases) w (λ _ w', guest_only w w').
Proof.
  intros [Hg Hm] [Hlen Hfit]. unfold apply_fixups.
  apply (runs_each (guest_only w)); [by split; destruct w|].
  intros [i obj] w1 Hin Hgo. apply elem_of_lookup_zip_with in Hin as (k & i' & obj' & [= <- <-] & Hk1 & Hk2).
  apply lookup_seqZ in Hk1 as [-> Hk1].
  assert (Hobj : idx (object_table f) (0 + Z.of_nat k) = Some obj).
  { unfold idx. zbool. by rewrite Z.add_0_l, Nat2Z.id. }
  assert (∃ base, idx bases (0 + Z.of_nat k) = Some base) as [base Hbase].
  { destruct (idx_is_Some bases (0 + Z.of_nat k)) as (b & ? & _); [lia|]. by exists b. }
  apply runs_bind. eapply runs_pure; [by rewrite Hbase|].
  apply (runs_each (guest_only w)); [done|]. intros [p records] w2 Hp Hgo2.
  apply (runs_each (guest_only w)); [done|]. intros r w3 Hr Hgo3.
  apply runs_bind, runs_get. pose proof Hgo3 as [G1 G2 G3].
  assert (dll_mgr w3 = dll_mgr w) as Hd by (by rewrite G3).
  destruct (apply_record_ok f bases (dll_mgr w3) base p r (guest w3)) as (g' & Hap & Hg' & Hs').
  { done. } { lia. }
  { intros off Hoff. rewrite Hd, G2. by eapply Hfit. }
  apply runs_bind. eapply runs_pure; [exact Hap|]. apply runs_set.
  split; [done|cbn; congruence|]. rewrite G3. done.
Qed.

Lemma load_resources_ok f w :
  (overflow_checks = true → ∀ res obj, res ∈ LxFile.resources f →
     idx (object_table f) (pred_index (res_object_num res)) = Some obj →
     base_address obj + res_offset res < M32) →
  runs (load_resources f) w (λ _ w', guest w' = guest w ∧ dll_mgr w' = dll_mgr w).
Proof.
  intros Hov. unfold load_resources.
  apply (runs_each (λ w', guest w' = guest w ∧ dll_mgr w' = dll_mgr w)); [done|].
  intros res w1 Hin Hw1. destruct (idx (object_table f) _) as [obj|] eqn:Hobj; [|by apply runs_ret].
  assert (∃ a, uadd (E := ()) M32 (base_address obj) (res_offset res) = Ok a) as [a Ha].
  { unfold uadd, overflowing. destruct (Z.ltb_spec (base_address obj + res_offset res) M32); [by eexists|].
    destruct overflow_checks; [|by eexists]. specialize (Hov eq_refl res obj Hin Hobj). lia. }
  apply runs_bind. eapply runs_pure; [exact Ha|]. apply runs_bind, runs_get. by apply runs_set.
Qed.
End images.

(** ** Exports *)

Section exports.
Context {B : Build}.

(** The ordinals of the entry table are distinct ([LxFile.exports_increasing] gives more). *)
Lemma exports_map f bases m :
  NoDup (LxFile.ordinal <$> exports f) → exports_by_ordinal_of f bases = Ok m →
  ∀ o a, m !! o = Some a ↔ ∃ e base, e ∈ exports f ∧ LxFile.ordinal e = o ∧
    idx bases (pred_index (export_object e)) = Some base ∧
    uadd (E := ()) M32 base (export_offset e) = Ok a.
Proof.
  unfold exports_by_ordinal_of. intros Hnd Hm.
  assert (Hgen : ∀ l m0 m, NoDup (LxFile.ordinal <$> l) →
    (∀ e, e ∈ l → m0 !! LxFile.ordinal e = None) →
    for_in l (export_entry bases) m0 = Ok m →
    ∀ o a, m !! o = Some a ↔ m0 !! o = Some a ∨ ∃ e base, e ∈ l ∧ LxFile.ordinal e = o ∧
      idx bases (pred_index (export_object e)) = Some base ∧
      uadd (E := ()) M32 base (export_offset e) = Ok a).
  { clear. intros l. induction l as [|e l IH]; intros m0 m Hnd Hm0 Hm o a; cbn [for_in] in Hm.
    { injection Hm as <-. split; [by left|]. intros [?|(? & ? & ?%elem_of_nil & _)]; done. }
    apply bind_Ok_inv in Hm as (m1 & H1 & Hm). cbn [fmap list_fmap] in Hnd.
    apply NoDup_cons in Hnd as [Hni Hnd].
    assert (Hfresh : ∀ e', e' ∈ l → LxFile.ordinal e' ≠ LxFile.ordinal e).
    { intros e' Hin Heq. apply Hni. rewrite <- Heq. by apply list_elem_of_fmap_2. }
    unfold export_entry in H1. destruct (idx bases (pred_index (export_object e))) as [b|] eqn:Hb.
    - apply bind_Ok_inv in H1 as (a1 & Ha1 & [= <-]).
      rewrite (IH _ _ Hnd) by (first [exact Hm | intros e' Hin;
        rewrite lookup_insert_ne by (by apply not_eq_sym, Hfresh); apply Hm0; by right]).
      rewrite lookup_insert_Some. split.
      + intros [[[<- <-]|[_ ?]]|(e' & b' & Hin & H)]; [|by left|].
        * right. exists e, b. split; [by left|]. done.
        * right. exists e', b'. split; [by right|]. done.
      + intros [H|(e' & b' & [->|Hin]%elem_of_cons & Ho & Hb' & Ha)].
        * left. right. split; [|done]. intros <-.
          specialize (Hm0 e (list_elem_of_here _ _)). congruence.
        * left. left. split; [done|]. congruence.
        * right. by exists e', b'.
    - injection H1 as <-. rewrite (IH _ _ Hnd) by (first [exact Hm | intros; apply Hm0; by right]).
      split; (intros [?|(e' & b' & Hin & H)]; [by left|right]).
      + exists e', b'. split; [by right|done].
      + apply elem_of_cons in Hin as [->|Hin]; [|by exists e', b']. destruct H as (_ & H & _).
        congruence. }
  intros o a. rewrite (Hgen _ _ _ Hnd) by (first [exact Hm | intros; apply lookup_empty]).
  rewrite lookup_empty. naive_solver.
Qed.

Lemma names_map names (by_ordinal : gmap Z Z) :
  NoDup ((λ p, to_ascii_uppercase p.2) <$> names) →
  ∀ n a, exports_by_name_of names by_ordinal !! n = Some a ↔
    ∃ o nm, (o, nm) ∈ names ∧ to_ascii_uppercase nm = n ∧ by_ordinal !! o = Some a.
Proof.
  intros Hnd. unfold exports_by_name_of.
  assert (Hgen : ∀ m0 : gmap rstring Z,
    (∀ p, p ∈ names → m0 !! to_ascii_uppercase p.2 = None) → ∀ n a,
    foldl (λ m '(ordinal, name), match by_ordinal !! ordinal with
                                 | Some addr => <[to_ascii_uppercase name := addr]> m
                                 | None => m end) m0 names !! n = Some a ↔
    m0 !! n = Some a ∨
    ∃ o nm, (o, nm) ∈ names ∧ to_ascii_uppercase nm = n ∧ by_ordinal !! o = Some a).
  { induction names as [|[o nm] l IH]; intros m0 Hm0 n a; cbn [foldl].
    { split; [by left|]. intros [?|(? & ? & ?%elem_of_nil & _)]; done. }
    cbn [fmap list_fmap] in Hnd. apply NoDup_cons in Hnd as [Hni Hnd].
    destruct (by_ordinal !! o) as [ad|] eqn:Ho.
    - rewrite (IH Hnd).
      2: { intros p Hp. rewrite lookup_insert_ne; [apply Hm0; by right|]. intros Heq. apply Hni.
           cbn [snd] in *. rewrite Heq. by apply (list_elem_of_fmap_2 (λ p, to_ascii_uppercase p.2)). }
      rewrite lookup_insert_Some. split.
      + intros [[[<- <-]|[_ ?]]|(o' & nm' & Hin & H)]; [|by left|].
        * right. exists o, nm. split; [by left|done].
        * right. exists o', nm'. split; [by right|done].
      + intros [H|(o' & nm' & [[= -> ->]|Hin]%elem_of_cons & Hn & Ha)].
        * left. right. split; [|done]. intros <-.
          specialize (Hm0 (o, nm) (list_elem_of_here _ _)). cbn [snd] in Hm0. congruence.
        * left. left. split; [done|congruence].
        * right. by exists o', nm'.
    - rewrite (IH Hnd) by (intros; apply Hm0; by right).
      split; (intros [?|(o' & nm' & Hin & H)]; [by left|right]).
      + exists o', nm'. split; [by right|done].
      + apply elem_of_cons in Hin as [[= -> ->]|Hin]; [destruct H; congruence|by exists o', nm']. }
  intros n a. rewrite Hgen by (intros; apply lookup_empty). rewrite lookup_empty. naive_solver.
Qed.
End exports.

(** ** Termination of DLL loading *)

Section termination.
Context {B : Build}.

(** [m] never runs out of fuel. *)
Definition ends {A} (m : ld A) : Prop := ∀ w, (m w).1 ≠ Diverge.

Lemma ends_ret {A} (a : A) : ends (mret a).
Proof. done. Qed.
Lemma ends_bind {A C} (m : ld A) (f : A → ld C) : ends m → (∀ a, ends (f a)) → ends (m ≫= f).
Proof.
  intros Hm Hf w. specialize (Hm w). unfold mbind, ld_bind.
  destruct (m w) as [[a|e| |] w1]; try done. apply Hf.
Qed.
Lemma ends_get : ends get.
Proof. done. Qed.
Lemma ends_set w : ends (set w).
Proof. done. Qed.
Lemma ends_fail {A} e : ends (fail (A := A) e).
Proof. done. Qed.
Lemma ends_pure {A} (m : outcome () A) : m ≠ Diverge → ends (pure m).
Proof. intros Hm w. by destruct m. Qed.
Lemma ends_each {A} (l : list A) body : (∀ a, ends (body a)) → ends (each l body).
Proof.
  intros Hb. induction l; cbn [each]; [apply ends_ret|]. apply ends_bind; auto.
Qed.
Lemma ends_catch {A} (m : ld A) : ends m → ends (catch m).
Proof. intros Hm w. specialize (Hm w). unfold catch. by destruct (m w) as [[]]. Qed.

Lemma catch_value {A} (m : ld A) w r w' : catch m w = (Ok r, w') → r ≠ Diverge.
Proof. unfold catch. destruct (m w) as [[]]; intros [= <- <-]; done. Qed.

(** The pure pieces have no fuel. *)
Lemma bind_ends {A C} (m : outcome () A) (f : A → outcome () C) :
  m ≠ Diverge → (∀ a, f a ≠ Diverge) → m ≫= f ≠ Diverge.
Proof. destruct m; simpl; auto. Qed.
Lemma usub_ends m a b : usub (E := ()) m a b ≠ Diverge.
Proof. unfold usub, overflowing. destruct (_ <=? _); [done|]. by destruct overflow_checks. Qed.
Lemma unwrap_ends {A} (o : option A) : unwrap (E := ()) o ≠ Diverge.
Proof. by destruct o. Qed.
Lemma for_in_ends {A S} (l : list A) (body : A → S → outcome () S) s :
  (∀ a s, body a s ≠ Diverge) → for_in l body s ≠ Diverge.
Proof.
  intros Hb. revert s. induction l; intros s; cbn [for_in]; [done|]. apply bind_ends; auto.
Qed.
End termination.
Create HintDb ends.
#[export] Hint Resolve ends_ret ends_bind ends_get ends_set ends_fail ends_pure ends_each
  ends_catch bind_ends uadd_ends umul_ends usub_ends unwrap_ends for_in_ends : ends.

Section termination2.
Context {B : Build}.

Lemma apply_one_ends ty t s g : apply_one ty t s g ≠ Diverge.
Proof.
  unfold apply_one, write_or_panic.
  destruct ty as [|p|p]; try done.
  repeat (destruct p as [p|p|]; try done); auto 10 with ends.
Qed.
Lemma apply_fixups_ends f bases : ends (apply_fixups f bases).
Proof.
  unfold apply_fixups. apply ends_each. intros [i obj]. apply ends_bind; [auto with ends|].
  intros base. apply ends_each. intros [p records]. apply ends_each. intros r.
  apply ends_bind; [auto with ends|]. intros w. apply ends_bind; [|auto with ends].
  apply ends_pure. unfold apply_record. destruct (_ =? 0); [done|].
  apply for_in_ends. intros off g. apply apply_one_ends.
Qed.
Lemma alloc_ends m s : MemMgr.alloc (E := ()) m s ≠ Diverge.
Proof.
  unfold MemMgr.alloc. destruct (checked_add _ _ _); [|done].
  destruct (list_find _ _) as [[i b]|].
  - apply bind_ends; [|done]. destruct (_ <? _); [|done]. auto with ends.
  - repeat case_match; done.
Qed.
Lemma alloc_objects_ends n objs : ends (alloc_objects n objs).
Proof.
  induction objs as [|o objs IH]; cbn [alloc_objects]; [apply ends_ret|].
  apply ends_bind; [apply ends_get|]. intros w. apply ends_bind; [apply ends_pure, alloc_ends|].
  intros [[a|] m]; (apply ends_bind; [apply ends_set|intros []]); auto with ends.
Qed.
Lemma load_dll_pages_ends f file bases : ends (load_dll_pages f file bases).
Proof.
  unfold load_dll_pages. apply ends_each. intros [i obj]. apply ends_bind; [auto with ends|].
  intros base. apply ends_each. intros [p pm]. destruct (_ =? 0); [apply ends_ret|].
  apply ends_bind; [auto with ends|intros d]. apply ends_bind; [auto with ends|intros t].
  apply ends_bind; [auto with ends|intros w]. destruct (ptr_at _ _ _); [|auto with ends].
  unfold read_page_at. apply ends_bind; [auto with ends|intros w'].
  apply ends_bind; [auto with ends|intros []]. destruct (_ =? _); auto with ends.
Qed.
Lemma finish_dll_ends n f bases : ends (finish_dll n f bases).
Proof.
  unfold finish_dll. apply ends_bind; [apply apply_fixups_ends|intros []].
  apply ends_bind; [apply ends_pure|intros m].
  { unfold exports_by_ordinal_of. apply for_in_ends. intros e m. unfold export_entry.
    destruct (idx _ _); auto with ends. }
  apply ends_bind; [apply ends_pure|intros i].
  { unfold initterm_of. destruct (_ =? 0); [done|]. destruct (idx _ _) as [b|]; [|done].
    pose proof (uadd_ends (E:=()) M32 b (LxHeader.eip (header f))). by destruct (uadd M32 _ _). }
  apply ends_bind; [apply ends_get|intros w].
  apply ends_bind; [apply ends_pure; unfold dll_alloc_handle; auto with ends|].
  intros [h m']. auto with ends.
Qed.
End termination2.

Lemma upper_idempotent s : to_ascii_uppercase (to_ascii_uppercase s) = to_ascii_uppercase s.
Proof.
  unfold to_ascii_uppercase. rewrite map_map. apply map_ext. intros c. unfold ascii_upper_char, in_range.
  destruct (Z.leb_spec 0x61 c), (Z.leb_spec c 0x7A); cbn [andb];
    try (destruct (Z.leb_spec 0x61 c), (Z.leb_spec c 0x7A); cbn [andb]; done || lia).
  destruct (Z.leb_spec 0x61 (c - 0x20)), (Z.leb_spec (c - 0x20) 0x7A); cbn [andb]; done || lia.
Qed.

Section deps.
Context {B : Build}.
Context (host_file : rstring → option bytes) (exe_dir : rstring) (c_root : option rstring).
(** The host files are files the parser is total on, and finitely many modules are found. *)
Hypothesis files_ok : ∀ p file, host_file p = Some file →
  Forall is_byte file ∧ (overflow_checks = true → len file < 2 ^ 25).
Context (names : gset rstring).
Hypothesis names_found : ∀ n, to_ascii_uppercase n = n →
  is_Some (find_dll_path host_file exe_dir c_root n) → n ∈ names.

Abbreviation load_impl := (load_dll_impl host_file exe_dir c_root).

(** [m] from [w] ends, and its result satisfies [Q]. *)
Definition ends_with {A} (m : ld A) (w : World) (Q : A → Prop) : Prop :=
  match m w with (Ok a, _) => Q a | (Diverge, _) => False | _ => True end.
Lemma ends_with_bind {A C} (m : ld A) (f : A → ld C) w Q (R : A → Prop) :
  ends_with m w R → (∀ a w', R a → ends_with (f a) w' Q) → ends_with (m ≫= f) w Q.
Proof.
  unfold ends_with, mbind, ld_bind. intros Hm Hf.
  destruct (m w) as [[a|e| |] w1]; [by apply Hf|done..].
Qed.
Lemma ends_with_ends {A} (m : ld A) w : ends m → ends_with m w (λ _, True).
Proof. intros Hm. specialize (Hm w). unfold ends_with. by destruct (m w) as [[]]. Qed.
Lemma ends_with_ret {A} (a : A) w (Q : A → Prop) : Q a → ends_with (mret a) w Q.
Proof. done. Qed.
Lemma ends_with_get {C} (f : World → ld C) w Q :
  ends_with (f w) w Q → ends_with (get ≫= f) w Q.
Proof. done. Qed.

(** What the recursion is given: fuel above the number of modules not yet being loaded; and
    what it returns: a set that still contains the caller's names. *)
Definition good (load : rstring → rstring → gset rstring →
                        ld (outcome load_error Z * gset rstring)) (fuel : nat) : Prop :=
  ∀ name path loading w,
    (base.size (names ∖ ({[to_ascii_uppercase name]} ∪ loading)) < fuel)%nat →
    ends_with (load name path loading) w
      (λ '(_, L), to_ascii_uppercase name ∉ loading → loading ⊆ L).

Lemma load_deps_good load fuel deps : good load fuel →
  ∀ loading w, (base.size (names ∖ loading) ≤ fuel)%nat →
    ends_with (load_deps host_file exe_dir c_root load deps loading) w (λ L, loading ⊆ L).
Proof.
  intros Hgood. induction deps as [|dep deps IH]; intros loading w Hf; cbn [load_deps].
  { by apply ends_with_ret. }
  apply ends_with_get. set (d := to_ascii_uppercase dep).
  apply (ends_with_bind _ _ _ _ (λ L, loading ⊆ L)).
  2: { intros L w' HL. assert (ends_with (load_deps host_file exe_dir c_root load deps L) w'
         (λ L', L ⊆ L')) as H.
       { apply IH. etrans; [|exact Hf]. apply subseteq_size. set_solver. }
       unfold ends_with in *. destruct (load_deps _ _ _ _ _ _ _) as [[]]; set_solver. }
  case_bool_decide; [by apply ends_with_ret|]. case_bool_decide; [by apply ends_with_ret|].
  case_bool_decide as Hin; [by apply ends_with_ret|].
  destruct (find_dll_path host_file exe_dir c_root d) as [path|] eqn:Hp; [|by apply ends_with_ret].
  assert (d ∈ names) as Hd by (apply names_found; [apply upper_idempotent|by rewrite Hp]).
  assert (to_ascii_uppercase d = d) as Hup by apply upper_idempotent.
  eapply ends_with_bind.
  - apply (Hgood d path loading). rewrite Hup. eapply Nat.lt_le_trans; [|exact Hf].
    apply subset_size. set_solver.
  - intros [r L] w' HL. apply ends_with_ret. rewrite Hup in HL. auto.
Qed.

Lemma load_impl_good fuel : good (load_impl fuel) fuel.
Proof.
  induction fuel as [|fuel IH]; intros name path loading w Hf; [lia|]. cbn [load_dll_impl].
  set (n := to_ascii_uppercase name) in *. apply ends_with_get.
  destruct (dll_find_by_name (dll_mgr w) n) as [d|].
  { eapply ends_with_bind; [apply ends_with_ends, ends_pure|].
    - unfold increment_refcount. destruct (list_find _ _) as [[i x]|]; [|done]. auto with ends.
    - intros [b m] w1 _. eapply ends_with_bind; [apply ends_with_ends, ends_set|].
      intros _ w2 _. by apply ends_with_ret. }
  destruct (host_file path) as [file|] eqn:Hfile; [|by apply ends_with_ret].
  destruct (files_ok path file Hfile) as [Hby Hlen].
  assert (returns (parse file)) as Hret.
  { unfold parse. pose proof (parse_lx_total file Hby Hlen) as H.
    by destruct (parse_lx file 0) as [[]| | |]. }
  destruct (parse file) as [f|e| |]; [|by apply ends_with_ret|done|done].
  apply (ends_with_bind _ _ _ _ (λ r, r ≠ Diverge)).
  { match goal with |- ends_with (catch ?m) _ _ => assert (ends (catch m)) as Hm end.
    { apply ends_catch. apply ends_bind; [apply alloc_objects_ends|intros bases].
      apply ends_bind; [apply load_dll_pages_ends|intros []; apply ends_ret]. }
    specialize (Hm w). unfold ends_with.
    match goal with |- context [catch ?m w] => destruct (catch m w) as [[r|e| |] w1] eqn:Hc end;
      try done. by eapply catch_value. }
  intros [bases|e| |] w1 Hb; [|by apply ends_with_ret|done|done].
  eapply ends_with_bind.
  { apply (load_deps_good (load_impl fuel) fuel (imported_modules f) IH ({[n]} ∪ loading)). lia. }
  intros L w2 HL. eapply ends_with_bind; [apply ends_with_ends, finish_dll_ends|].
  intros h w3 _. apply ends_with_ret. intros Hni. set_solver.
Qed.
End deps.

(** * Properties *)

(** A fixup leaves the DLL table alone. *)
Lemma each_frame {A X} (proj : World → X) (l : list A) body :
  (∀ a w, proj (body a w).2 = proj w) → ∀ w, proj (each l body w).2 = proj w.
Proof.
  intros Hb. induction l as [|a l IH]; intros w; cbn [each]; [done|].
  unfold mbind, ld_bind. pose proof (Hb a w). destruct (body a w) as [[[]|e| |] w1]; cbn in *;
    congruence.
Qed.
Lemma apply_fixups_frame {B : Build} f bases w :
  dll_mgr (apply_fixups f bases w).2 = dll_mgr w.
Proof.
  unfold apply_fixups. apply each_frame. intros [i obj] w1. unfold mbind at 1, ld_bind at 1, pure.
  destruct (unwrap (idx bases i)) as [b|e| |]; cbn; try done.
  apply each_frame. intros [p records] w2. apply each_frame. intros r w3.
  unfold mbind, ld_bind, get, pure, set. by destruct (apply_record _ _ _ _ _ _ _).
Qed.

Section properties.
Context {B : Build}.


(** An image whose pages and fixups lie in guest memory loads without a panic, whatever its
    tables and file say otherwise (a short file is an I/O error).  Its pages do not overlap:
    then after the page loop every page holds the bytes of the file at its offset, and every
    other byte of guest memory is as before. *)
Theorem image_loaded (f : LxFile) (file : bytes) (w : World) :
  Forall is_byte file → world_ok w →
  ForallOrdPairs disjoint_pages (place_pages f) → Forall (fits (guest w)) (place_pages f) →
  fixups_fit f (map base_address (object_table f)) w →
  (overflow_checks = true → ∀ res obj, res ∈ LxFile.resources f →
     idx (object_table f) (pred_index (res_object_num res)) = Some obj →
     base_address obj + res_offset res < M32) →
  runs (load_pages f file) w (λ _ w',
    (∀ q, q ∈ place_pages f → load_bytes (guest w') (at_ q) (Z.to_nat (bytes_of q)) =
                              slice file (from q) (bytes_of q)) ∧
    ∀ a, (∀ q, q ∈ place_pages f → a < at_ q ∨ at_ q + bytes_of q ≤ a) →
      GuestMem.load (guest w') a = GuestMem.load (guest w) a) ∧
  runs (load f file) w (λ _ w', world_ok w' ∧ GuestMem.size (guest w') = GuestMem.size (guest w) ∧
    dll_mgr w' = dll_mgr w).
Proof.
  intros Hf [Hg Hm] Hd Hfit Hfix Hres.
  assert (Hpages : runs (load_pages f file) w (λ _ w', guest_only w w' ∧
    (∀ q, q ∈ place_pages f → load_bytes (guest w') (at_ q) (Z.to_nat (bytes_of q)) =
                              slice file (from q) (bytes_of q)) ∧
    ∀ a, (∀ q, q ∈ place_pages f → a < at_ q ∨ at_ q + bytes_of q ≤ a) →
      GuestMem.load (guest w') a = GuestMem.load (guest w) a)).
  { unfold runs. rewrite load_pages_places. apply places_spec; [done..|].
    apply Forall_forall. intros q Hq. split; [|by eapply Forall_forall in Hq].
    unfold place_pages in Hq. apply list_elem_of_fmap in Hq as ([obj [p pm]] & -> & Hq).
    by apply list_elem_of_filter in Hq as [? _]. }
  split; [eapply runs_mono; [exact Hpages|]; by intros [] w' (_ & ? & ?)|].
  unfold load. apply runs_bind. eapply runs_mono; [exact Hpages|]. intros [] w1 ([G1 G2 G3] & _).
  apply runs_bind. eapply runs_mono; [by apply load_resources_ok|]. intros [] w2 [E1 E2].
  assert (dll_mgr w2 = dll_mgr w) as Hdll by (rewrite E2, G3; done).
  eapply runs_mono.
  { apply apply_fixups_ok.
    - split; rewrite E1; [done|lia].
    - destruct Hfix as [Hlen Hfix]. split; [done|]. rewrite E1, G2, Hdll. done. }
  assert (GuestMem.size (guest w2) = GuestMem.size (guest w)) as Hsz by (rewrite E1; exact G2).
  intros [] w3 [A1 A2 A3]. split; [split; [done|congruence]|]. split; [congruence|]. rewrite A3. done.
Qed.

(** A DLL is reachable through exactly its exports.  After the last step of [load_dll], an
    import by ordinal from the new module gives the address of the entry with that ordinal
    (the base of its object plus its offset) and nothing else; an import by name gives the
    address of the entry the name is listed for, whatever the case of the letters; imports from
    other modules resolve as before. *)
Theorem dll_exports_resolve (n : rstring) (f : LxFile) (bases : list Z) (w w' : World) (h : Z) :
  finish_dll n f bases w = (Ok h, w') → to_ascii_uppercase n = n →
  dll_find_by_name (dll_mgr w) n = None →
  NoDup (LxFile.ordinal <$> exports f) →
  NoDup ((λ p, to_ascii_uppercase p.2) <$> nonresident_names f) →
  (∀ o a, resolve_ordinal (dll_mgr w') n o = Some a ↔
     ∃ e base, e ∈ exports f ∧ LxFile.ordinal e = o ∧
       idx bases (pred_index (export_object e)) = Some base ∧
       uadd (E := ()) M32 base (export_offset e) = Ok a) ∧
  (∀ nm a, resolve_name (dll_mgr w') n nm = Some a ↔
     ∃ o nm', (o, nm') ∈ nonresident_names f ∧ to_ascii_uppercase nm' = to_ascii_uppercase nm ∧
       resolve_ordinal (dll_mgr w') n o = Some a) ∧
  (∀ m o, to_ascii_uppercase m ≠ n →
     resolve_ordinal (dll_mgr w') m o = resolve_ordinal (dll_mgr w) m o).
Proof.
  intros H Hup Hnone Hnd1 Hnd2. unfold finish_dll in H. unfold mbind, ld_bind in H.
  pose proof (apply_fixups_frame f bases w) as Hfr.
  destruct (apply_fixups f bases w) as [[[]|e| |] w1]; try done. cbn [snd] in Hfr.
  unfold pure, get, set in H.
  destruct (exports_by_ordinal_of f bases) as [by_ord|e| |] eqn:Hbo; try done.
  destruct (initterm_of f bases) as [it|e| |]; try done.
  destruct (dll_alloc_handle (dll_mgr w1)) as [[h' m]|e| |] eqn:Hal; try done.
  injection H as <- <-. cbn [dll_mgr with_dlls].
  assert (dlls m = dlls (dll_mgr w)) as Hm.
  { rewrite <- Hfr. unfold dll_alloc_handle in Hal. apply bind_Ok_inv in Hal as (x & _ & [= _ <-]).
    done. }
  set (d := mk_dll n h' bases by_ord _ 1 it false).
  assert (Hfind : ∀ k, dll_find_by_name (dll_register m d).2 k =
    match dll_find_by_name (dll_mgr w) k with
    | Some x => Some x
    | None => if bool_decide (n = to_ascii_uppercase k) then Some d else None end).
  { intros k. unfold dll_find_by_name. cbn [dll_register snd dlls]. rewrite Hm.
    destruct (list_find (λ d, Managers.name d = to_ascii_uppercase k) (dlls (dll_mgr w))) as [[i x]|] eqn:Hl.
    - by rewrite (list_find_app_l _ _ _ _ _ Hl).
    - rewrite (list_find_app_r _ _ _ Hl). cbn [list_find].
      case_bool_decide; [by rewrite decide_True|by rewrite decide_False]. }
  assert (Hself : ∀ o, resolve_ordinal (dll_register m d).2 n o = by_ord !! o).
  { intros o. unfold resolve_ordinal. rewrite Hfind, Hnone, bool_decide_true by done. done. }
  split_and!.
  - intros o a. rewrite Hself. by apply exports_map.
  - intros nm a. unfold resolve_name. rewrite Hfind, Hnone, bool_decide_true by done.
    cbn [mbind option_bind exports_by_name d]. rewrite names_map by done.
    setoid_rewrite Hself. done.
  - intros k o Hk. unfold resolve_ordinal. rewrite Hfind.
    destruct (dll_find_by_name (dll_mgr w) k); [done|]. by rewrite bool_decide_false.
Qed.

(** C32: loading a DLL ends: with fuel above the number of modules that can be found on the host,
    [load_dll] returns (a handle or an error) or panics, but never runs out of fuel, however the
    modules import each other: an import cycle is cut by the set of names being loaded. *)
Theorem load_dll_terminates (host_file : rstring → option bytes) (exe_dir : rstring)
    (c_root : option rstring) (names : gset rstring) (dll_name dll_path : rstring) (fuel : nat)
    (w : World) :
  (∀ p file, host_file p = Some file →
     Forall is_byte file ∧ (overflow_checks = true → len file < 2 ^ 25)) →
  (∀ n, to_ascii_uppercase n = n →
     is_Some (find_dll_path host_file exe_dir c_root n) → n ∈ names) →
  (base.size names < fuel)%nat →
  (load_dll host_file exe_dir c_root fuel dll_name dll_path w).1 ≠ Diverge.
Proof.
  intros Hfiles Hnames Hfuel. unfold load_dll.
  pose proof (load_impl_good host_file exe_dir c_root Hfiles names Hnames fuel
                dll_name dll_path ∅ w) as Hg.
  assert (base.size (names ∖ ({[to_ascii_uppercase dll_name]} ∪ ∅)) ≤ base.size names)%nat.
  { apply subseteq_size. set_solver. }
  specialize (Hg ltac:(lia)). unfold ends_with in Hg. unfold mbind, ld_bind.
  by destruct (load_dll_impl _ _ _ _ _ _ _ _) as [[[r L]|e| |] w1].
Qed.
End properties.

(** The module of [LxFile.demo_file] with its page, and a world to load it in. *)
Definition demo_image : bytes := demo_file ++ replicate 4096 0x90.
Definition demo_world : World :=
  mk_world (GuestMem.alloc 0x20000) (MemMgr.new 0x02000000 0x08000000) dll_manager_new
           resource_manager_new.
Lemma demo_loader_ok : world_ok demo_world.
Proof. split; [apply alloc_wf; lia|vm_compute; done]. Qed.
Lemma demo_objects : object_table demo_lx = [mk_object 4096 65536 8197 1 1 0].
Proof. vm_compute. reflexivity. Qed.
Lemma demo_fixups :
  fixup_records_by_page demo_lx = [[mk_fixup 7 0x11 [4] (ExternalOrdinal 1 2) None]].
Proof. vm_compute. reflexivity. Qed.
Lemma demo_fit : fixups_fit demo_lx (map base_address (object_table demo_lx)) demo_world.
Proof.
  rewrite demo_objects. split; [rewrite demo_objects; vm_compute; done|].
  rewrite demo_objects, demo_fixups. intros i obj base p records r off Hi Hb Hp Hr Hoff.
  assert (i = 0) as ->.
  { unfold idx, len in Hi. cbn [length] in Hi.
    destruct (Z.leb_spec 0 i), (Z.ltb_spec i (Z.of_nat 1)); cbn [andb] in Hi; done || lia. }
  injection Hi as <-. injection Hb as <-. cbv in Hp.
  apply list_elem_of_singleton in Hp as [= -> ->]. apply list_elem_of_singleton in Hr as ->.
  apply list_elem_of_singleton in Hoff as ->. vm_compute. repeat split; done.
Qed.

Lemma image_loaded_witness :
  runs (load (B := dev_profile) demo_lx demo_image) demo_world (λ _ w', world_ok w').
Proof.
  eapply runs_mono.
  - apply (image_loaded (B := dev_profile) demo_lx demo_image demo_world).
    + apply Forall_app. split; [apply demo_file_bytes|]. by apply Forall_replicate.
    + apply demo_loader_ok.
    + assert (place_pages demo_lx = [mk_placement 65536 312 4096]) as -> by (vm_compute; reflexivity).
      repeat constructor.
    + assert (place_pages demo_lx = [mk_placement 65536 312 4096]) as -> by (vm_compute; reflexivity).
      repeat constructor; vm_compute; done.
    + apply demo_fit.
    + intros _ res obj Hin.
      assert (LxFile.resources demo_lx = []) as Hr by (vm_compute; reflexivity).
      rewrite Hr in Hin. by apply elem_of_nil in Hin.
  - intros [] w' [H _]. exact H.
Defined.
Definition demo_after : World :=
  (finish_dll (B := dev_profile) (str "DEMO") demo_lx [0x10000] demo_world).2.
Lemma demo_finish :
  finish_dll (B := dev_profile) (str "DEMO") demo_lx [0x10000] demo_world = (Ok 0x1000, demo_after).
Proof. vm_compute. reflexivity. Qed.
Lemma dll_exports_resolve_witness :
  resolve_ordinal (dll_mgr demo_after) (str "DEMO") 2 = Some 0x10020.
Proof.
  destruct (dll_exports_resolve (B := dev_profile) (str "DEMO") demo_lx [0x10000] demo_world
              demo_after 0x1000 demo_finish) as [H _].
  - vm_compute. reflexivity.
  - vm_compute. reflexivity.
  - apply (bool_decide_unpack _). vm_compute. exact I.
  - apply (bool_decide_unpack _). vm_compute. exact I.
  - apply H. exists (mk_export 2 1 32), 0x10000. rewrite demo_exports.
    split; [right; left|]. vm_compute. done.
Defined.
Definition demo_host (p : rstring) : option bytes :=
  if bool_decide (p = str "/x/DEMO.DLL") then Some demo_image else None.
Definition demo_names : gset rstring := {[str "DEMO"; str "DEMO.DLL"]}.
Lemma load_dll_terminates_witness :
  (load_dll (B := dev_profile) demo_host (str "/x") None 3 (str "demo") (str "/x/DEMO.DLL")
     demo_world).1 ≠ Diverge.
Proof.
  refine (load_dll_terminates (B := dev_profile) demo_host (str "/x") None demo_names (str "demo")
            (str "/x/DEMO.DLL") 3 demo_world _ _ _); unfold demo_host.
  - intros p file. case_bool_decide; [|done]. intros [= <-]. split.
    + apply Forall_app. split; [apply demo_file_bytes|]. by apply Forall_replicate.
    + intros _. vm_compute. done.
  - intros n Hup [path Hp]. unfold find_dll_path in Hp. rewrite Hup in Hp.
    destruct (list_find _ _) as [[i q]|] eqn:Hl in Hp; [|done]. apply list_find_Some in Hl as (Hi & Hq & _).
    unfold exists_ in Hq. apply bool_decide_unpack in Hq. case_bool_decide as Hpath; [|by destruct Hq].
    subst q. cbn [app] in Hi. rewrite bool_decide_false in Hi by done.
    rewrite app_nil_r in Hi. destruct i as [|[|i]]; cbn [map lookup list_lookup] in Hi.
    + injection Hi as Hi. exfalso. revert Hi.
      generalize (to_ascii_lowercase (default n (strip_suffix (str ".DLL") n))). intros s Hs.
      apply (f_equal last) in Hs. change (str "/x/DEMO.DLL") with (str "/x/DEMO.DL" ++ [0x4C]) in Hs.
      change (str ".dll") with (str ".dl" ++ [0x6C]) in Hs.
      rewrite !app_assoc, !last_snoc in Hs. done.
    + injection Hi as Hi.
      change (default n (strip_suffix (str ".DLL") n) ++ str ".DLL" = str "DEMO" ++ str ".DLL") in Hi.
      apply app_inv_tail in Hi as Hs.
      unfold strip_suffix in Hs. destruct (bool_decide _ && bool_decide _) eqn:Hb.
      * apply andb_true_iff in Hb as [_ Hb%bool_decide_eq_true]. cbn [default] in Hs.
        rewrite <- (take_drop (length n - length (str ".DLL")) n). unfold id in Hs.
        rewrite Hb, Hs. unfold demo_names. set_solver.
      * cbn [default id] in Hs. unfold id in Hs. subst n. unfold demo_names. set_solver.
    + done.
  - vm_compute. lia.
Defined.
