(* ===== verification/LxLink.v ===== *)
(** The ELF-to-LX linker (src/src/bin/lx_link.rs): command line, .def file, section layout,
    relocation, and the writer of the LX file.

    The ELF and archive formats are read by the [object] crate: what it says of a file is an
    argument ([ElfFile], [members]), and [parse_elf] is the linker's own selection from it.
    The warnings on stderr are left out.  Unchecked u32 arithmetic panics or wraps with the
    build profile; [as] casts truncate silently. *)
From S2P Require Import Prelude Bytes Text.

Definition MAGIC_API_BASE := 0x1000000.
Definition PMWIN_BASE := 2048.
Definition PMGPI_BASE := 3072.
Definition KBDCALLS_BASE := 4096.
Definition VIOCALLS_BASE := 5120.
Definition SESMGR_BASE := 6144.
Definition NLS_BASE := 7168.
Definition MSG_BASE := 8192.
Definition MDM_BASE := 10240.
Definition UCONV_BASE := 12288.
Definition CODE_OBJECT_BASE := 0x10000.
Definition DATA_OBJECT_BASE := 0x60000.
Definition STACK_SIZE := 0x10000.
Definition STACK_OBJECT_BASE := 0x80000 - STACK_SIZE.
Definition PAGE_SIZE := 4096.
Definition LX_HEADER_OFFSET := 0x40.
Definition LX_HEADER_SIZE := 172.
Definition OBJ_READ := 0x0001.
Definition OBJ_WRITE := 0x0002.
Definition OBJ_EXEC := 0x0004.
Definition OBJ_BIG := 0x0040.
Definition OBJ_USE32 := 0x2000.

(** * Command line *)

(** [Args] *)
Record Args := mk_args { inputs : list rstring; output : rstring; def_file : option rstring }.
#[export] Instance Args_eq_dec : EqDecision Args.
Proof. solve_decision. Defined.

(** The flags that take a value. *)
Definition VALUE_FLAGS : list rstring :=
  map str ["--sysroot"; "-m"; "--hash-style"; "-z"; "-rpath"; "-soname"].
Definition is_input (arg : rstring) : bool :=
  let lower := to_ascii_lowercase arg in
  ends_with (str ".o") lower || ends_with (str ".rlib") lower || ends_with (str ".a") lower.

(** The loop of [parse_args], over the arguments that are left. *)
Fixpoint parse_args_from (raw : list rstring) (a : Args) : Args :=
  match raw with
  | [] => a
  | arg :: raw =>
    if bool_decide (arg = str "-o") then
      match raw with
      | [] => a
      | v :: raw => parse_args_from raw (mk_args (inputs a) v (def_file a))
      end
    else match strip_prefix (str "-o") arg with
    | Some path => parse_args_from raw (mk_args (inputs a) path (def_file a))
    | None =>
      if bool_decide (arg = str "--def") then
        match raw with
        | [] => a
        | v :: raw => parse_args_from raw (mk_args (inputs a) (output a) (Some v))
        end
      else if starts_with (str "-") arg then
        if bool_decide (arg ∈ VALUE_FLAGS) then
          match raw with [] => a | _ :: raw => parse_args_from raw a end
        else parse_args_from raw a
      else if is_input arg then
        parse_args_from raw (mk_args (inputs a ++ [arg]) (output a) (def_file a))
      else parse_args_from raw a
    end
  end.
(** [parse_args]: the first argument is the program. *)
Definition parse_args (raw : list rstring) : Args :=
  parse_args_from (tail raw) (mk_args [] (str "a.out") None).

(** * The .def file *)

Abbreviation def_map := (gmap rstring (rstring * Z)) (only parsing).

Section def_parser.
(** [char::to_uppercase] *)
Context (to_uppercase : Z → rstring).

(** One line of [parse_def]: the entry it adds. *)
Definition parse_def_line (line : rstring) : option (rstring * (rstring * Z)) :=
  let line := trim line in
  if bool_decide (line = []) || starts_with (str "#") line then None else
  match split_whitespace line with
  | mod_ord :: sym :: _ =>
    '(module, ord) ← split_once 0x2E mod_ord;
    ordinal ← parse_uint M32 ord;
    Some (sym, (flat_map to_uppercase module, ordinal))
  | _ => None
  end.
(** [parse_def] *)
Definition parse_def (content : rstring) : def_map :=
  foldl (λ m line, match parse_def_line line with
                   | Some (sym, e) => <[sym := e]> m
                   | None => m
                   end) ∅ (lines content).
End def_parser.

(** * ELF objects *)

(** The enumerations of the [object] crate, as far as the linker tells them apart. *)
Inductive SectionKind :=
| Text | Data | ReadOnlyData | ReadOnlyString | UninitializedData | OtherSection.
Inductive RelocationKind := Absolute | Relative | OtherRelocation.
Inductive SymbolKind := SymFile | SymSection | SymUnknown | OtherSymbol.
Inductive SymbolScope := ScopeDynamic | ScopeLinkage | OtherScope.
#[export] Instance SectionKind_eq_dec : EqDecision SectionKind.
Proof. solve_decision. Defined.

(** What the crate says of a file: its iterators as lists, names and data that may fail to
    decode as options. *)
Inductive RawTarget := TargetSymbol (i : Z) | TargetSection (i : Z) | TargetOther.
Record RawReloc := mk_raw_reloc {
  rr_kind : RelocationKind; rr_size : Z; rr_addend : Z; rr_target : RawTarget }.
Record RawSection := mk_raw_section {
  rs_index : Z; rs_kind : SectionKind; rs_data : option bytes; rs_size : Z; rs_align : Z;
  rs_name : option rstring; rs_relocs : list (Z * RawReloc) }.
Record RawSymbol := mk_raw_symbol {
  ry_name : option rstring; ry_section : option Z; ry_kind : SymbolKind; ry_scope : SymbolScope;
  ry_address : Z }.
Record ElfFile := mk_elf_file {
  ef_sections : list RawSection; ef_symbol : Z → option RawSymbol; ef_symbols : list RawSymbol }.

(** [RelocTarget], [Reloc], [ElfSection], [ElfSymbol], [ElfObject] *)
Inductive RelocTarget := Symbol (name : rstring) | Section_ (name : rstring).
Record Reloc := mk_reloc {
  offset : Z; kind : RelocationKind; addend : Z; target : RelocTarget }.
Record ElfSection := mk_section {
  name : rstring; sec_kind : SectionKind; data : bytes; align : Z; relocs : list Reloc }.
Record ElfSymbol := mk_symbol { sym_name : rstring; section_idx : option Z; sym_offset : Z }.
Record ElfObject := mk_object { sections : list ElfSection; symbols : list ElfSymbol }.

(** The sections that are linked. *)
Definition kept (k : SectionKind) : bool :=
  match k with OtherSection => false | _ => true end.
(** The first loop of [parse_elf]: the sections kept, and where each went. *)
Definition select_sections (raw : list RawSection) : list ElfSection * gmap Z Z :=
  foldl (λ '(secs, m) s,
    if kept (rs_kind s) then
      let data_bytes := default (replicate (Z.to_nat (rs_size s)) 0) (rs_data s) in
      (secs ++ [mk_section (default [] (rs_name s)) (rs_kind s) data_bytes (Z.max 1 (rs_align s)) []],
       <[rs_index s := len secs]> m)
    else (secs, m)) ([], ∅) raw.
Definition section_name (secs : list ElfSection) (i : Z) : outcome () rstring :=
  name <$> unwrap (idx secs i).

(** The target of a relocation: a symbol of a linked section stands for the section. *)
Definition reloc_target (f : ElfFile) (m : gmap Z Z) (secs : list ElfSection) (t : RawTarget)
    : outcome () (option RelocTarget) :=
  match t with
  | TargetSymbol sym_idx =>
    sym ← ok_or tt (ef_symbol f sym_idx);
    match s ← ry_section sym; m !! s with
    | Some local_sec => n ← section_name secs local_sec; Ok (Some (Section_ n))
    | None => Ok (Some (Symbol (default [] (ry_name sym))))
    end
  | TargetSection sec_idx =>
    match m !! sec_idx with
    | Some local_sec => n ← section_name secs local_sec; Ok (Some (Section_ n))
    | None => Ok (Some (Symbol []))
    end
  | TargetOther => Ok None
  end.
Definition push_reloc (r : Reloc) (s : ElfSection) : ElfSection :=
  mk_section (name s) (sec_kind s) (data s) (align s) (relocs s ++ [r]).
(** The second loop: the 32-bit relocations of each section kept. *)
Definition read_relocs (f : ElfFile) (m : gmap Z Z) (secs : list ElfSection)
    : outcome () (list ElfSection) :=
  for_in (ef_sections f) (λ s secs,
    match m !! rs_index s with
    | None => Ok secs
    | Some local_idx =>
      for_in (rs_relocs s) (λ '(off, r) secs,
        if negb (rr_size r =? 32) then Ok secs else
        t ← reloc_target f m secs (rr_target r);
        match t with
        | None => Ok secs
        | Some t => Ok (alter (push_reloc (mk_reloc off (rr_kind r) (rr_addend r) t))
                              (Z.to_nat local_idx) secs)
        end) secs
    end) secs.
(** The third loop: the named symbols of dynamic or linkage scope. *)
Definition read_symbol (m : gmap Z Z) (s : RawSymbol) : option ElfSymbol :=
  match ry_name s with
  | None | Some [] => None
  | Some n =>
    match ry_kind s, ry_scope s with
    | OtherSymbol, (ScopeDynamic | ScopeLinkage) =>
      Some (mk_symbol n (i ← ry_section s; m !! i) (ry_address s))
    | _, _ => None
    end
  end.
(** [parse_elf] of a file the crate accepts. *)
Definition parse_elf (f : ElfFile) : outcome () ElfObject :=
  let '(secs, m) := select_sections (ef_sections f) in
  secs ← read_relocs f m secs;
  Ok (mk_object secs (omap (read_symbol m) (ef_symbols f))).

(** * Layout *)

(** [InputEntry], [MergedSection], [LinkerState] *)
Record InputEntry := mk_entry { obj_idx : Z; sec_idx : Z; merged_offset : Z }.
Record MergedSection := mk_merged {
  merged_data : bytes; bss_size : Z; va : Z; input_map : list InputEntry }.
Record LinkerState := mk_state {
  code_section : MergedSection; data_section : MergedSection;
  symbol_table : gmap rstring Z; entry_va : Z }.

(** The elements of a vector with their positions ([iter().enumerate()]), and the sections of
    all objects in order. *)
Definition enumerate {A} (l : list A) : list (Z * A) := zip (seqZ 0 (len l)) l.
Definition all_sections (objects : list ElfObject) : list (Z * Z * ElfSection) :=
  flat_map (λ '(oi, obj), map (λ '(si, sec), (oi, si, sec)) (enumerate (sections obj)))
    (enumerate objects).

Section linker.
Context {B : Build}.

(** [align_up], and [align_to] of the writer, for an alignment above 1 *)
Definition align_to (val align : Z) : outcome () Z :=
  s ← uadd M32 val align; t ← usub M32 s 1; a ← usub M32 align 1;
  Ok (Z.land t (M32 - 1 - a)).
Definition align_up (val align : Z) : outcome () Z :=
  if align <=? 1 then Ok val else align_to val align.
(** [v.resize(n, 0)] *)
Definition resize (l : bytes) (n : Z) : bytes :=
  take (Z.to_nat n) l ++ replicate (Z.to_nat n - length l) 0.

(** [append_section] *)
Definition append_section (merged : MergedSection) (obj_idx sec_idx : Z) (sec : ElfSection)
    : outcome () MergedSection :=
  let align := as_u M32 (align sec) in
  let cur_len := as_u M32 (len (merged_data merged)) in
  aligned ← align_up cur_len align;
  let d := resize (merged_data merged) aligned in
  let merged_offset := as_u M32 (len d) in
  Ok (mk_merged (d ++ data sec) (bss_size merged) (va merged)
        (input_map merged ++ [mk_entry obj_idx sec_idx merged_offset])).
(** The [UninitializedData] arm: room after the data of the sections seen so far. *)
Definition append_bss (merged : MergedSection) (sec : ElfSection) : outcome () MergedSection :=
  let size := as_u M32 (len (data sec)) in
  cur ← uadd M32 (as_u M32 (len (merged_data merged))) (bss_size merged);
  let align_req := as_u M32 (align sec) in
  padded ← align_up cur align_req;
  gap ← usub M32 padded cur;
  gap ← uadd M32 gap size;
  bss ← uadd M32 (bss_size merged) gap;
  Ok (mk_merged (merged_data merged) bss (va merged) (input_map merged)).

(** [find_merged_va] *)
Fixpoint find_entry (l : list InputEntry) (oi si : Z) : option Z :=
  match l with
  | [] => None
  | e :: l => if (obj_idx e =? oi) && (sec_idx e =? si) then Some (merged_offset e)
              else find_entry l oi si
  end.
Definition find_merged_va (merged : MergedSection) (oi si : Z) : outcome () (option Z) :=
  match find_entry (input_map merged) oi si with
  | Some off => v ← uadd M32 (va merged) off; Ok (Some v)
  | None => Ok None
  end.
(** [page_count] *)
Definition page_count (data_len bss_size : Z) : outcome () Z :=
  s ← uadd M32 data_len bss_size; Ok ((s + PAGE_SIZE - 1) / PAGE_SIZE).

(** The loops of [build] over the sections, and over the symbols. *)
Definition merge_code (objects : list ElfObject) : outcome () MergedSection :=
  for_in (all_sections objects) (λ '(oi, si, sec) m,
    match sec_kind sec with
    | Text => append_section m oi si sec
    | _ => Ok m
    end) (mk_merged [] 0 CODE_OBJECT_BASE []).
Definition merge_data (objects : list ElfObject) : outcome () MergedSection :=
  for_in (all_sections objects) (λ '(oi, si, sec) m,
    match sec_kind sec with
    | Data | ReadOnlyData | ReadOnlyString => append_section m oi si sec
    | UninitializedData => append_bss m sec
    | _ => Ok m
    end) (mk_merged [] 0 DATA_OBJECT_BASE []).
Definition merge_symbols (objects : list ElfObject) (code_sec data_sec : MergedSection)
    : outcome () (gmap rstring Z) :=
  for_in (enumerate objects) (λ '(oi, obj) t,
    for_in (symbols obj) (λ sym t,
      match section_idx sym with
      | None => Ok t
      | Some si =>
        sec ← unwrap (idx (sections obj) si);
        base_va ← find_merged_va
          (if bool_decide (sec_kind sec = Text) then code_sec else data_sec) oi si;
        match base_va with
        | None => Ok t
        | Some base => v ← uadd M32 base (as_u M32 (sym_offset sym));
                       Ok (<[sym_name sym := v]> t)
        end
      end) t) ∅.
(** [LinkerState::build] *)
Definition build (objects : list ElfObject) : outcome () LinkerState :=
  code_sec ← merge_code objects;
  data_sec ← merge_data objects;
  symbol_table ← merge_symbols objects code_sec data_sec;
  let entry_va :=
    match symbol_table !! str "_start" with
    | Some v => v
    | None => default CODE_OBJECT_BASE (symbol_table !! str "main")
    end in
  Ok (mk_state code_sec data_sec symbol_table entry_va).

(** [code_va_for], [data_va_for] *)
Definition code_va_for (st : LinkerState) (oi si : Z) := find_merged_va (code_section st) oi si.
Definition data_va_for (st : LinkerState) (oi si : Z) := find_merged_va (data_section st) oi si.

(** * Relocation *)

(** [resolve_import] *)
Definition resolve_import (module : rstring) (ordinal : Z) : outcome () Z :=
  let base :=
    if bool_decide (module = str "DOSCALLS") then Some 0
    else if bool_decide (module = str "QUECALLS") then Some 1024
    else if bool_decide (module = str "PMWIN") then Some PMWIN_BASE
    else if bool_decide (module = str "PMGPI") then Some PMGPI_BASE
    else if bool_decide (module = str "KBDCALLS") then Some KBDCALLS_BASE
    else if bool_decide (module = str "VIOCALLS") then Some VIOCALLS_BASE
    else if bool_decide (module = str "SESMGR") then Some SESMGR_BASE
    else if bool_decide (module = str "NLS") then Some NLS_BASE
    else if bool_decide (module = str "MSG") then Some MSG_BASE
    else if bool_decide (module = str "MDM") then Some MDM_BASE
    else if bool_decide (module = str "UCONV") then Some UCONV_BASE
    else None in
  match base with
  | Some base => b ← uadd M32 MAGIC_API_BASE base; uadd M32 b ordinal
  | None => Ok MAGIC_API_BASE
  end.

(** [FixupTarget], [LxFixup] *)
Inductive FixupTarget :=
| Internal (object_num target_offset : Z)
| ExternalOrdinal (module_idx ordinal : Z).
Record LxFixup := mk_lx_fixup {
  source_type : Z; source_offset : Z; fix_target : FixupTarget }.

(** [va_to_lx_object] *)
Definition va_to_lx_object (va : Z) : outcome () (Z * Z) :=
  if DATA_OBJECT_BASE <=? va then o ← usub M32 va DATA_OBJECT_BASE; Ok (2, o)
  else o ← usub M32 va CODE_OBJECT_BASE; Ok (1, o).

(** The imported modules: the list written to the file and the number of each. *)
Record Modules := mk_modules { module_map : gmap rstring Z; imported : list rstring }.
(** [get_or_insert_module] *)
Definition get_or_insert_module (name : rstring) (ms : Modules) : Z * Modules :=
  match module_map ms !! name with
  | Some i => (i, ms)
  | None =>
    let l := imported ms ++ [name] in
    let i := as_u M8 (len l) in
    (i, mk_modules (<[name := i]> (module_map ms)) l)
  end.

(** [find_section_va]: the first section of that name in any object. *)
Definition find_section_va (objects : list ElfObject) (st : LinkerState) (sec_name : rstring)
    : outcome () (option Z) :=
  match list_find (λ '(_, _, sec), name sec = sec_name) (all_sections objects) with
  | Some (_, (oi, si, _)) =>
    c ← code_va_for st oi si;
    match c with Some v => Ok (Some v) | None => data_va_for st oi si end
  | None => Ok None
  end.

(** [resolve_reloc]: 0 for a target that is not found. *)
Definition resolve_reloc (r : Reloc) (dm : def_map) (st : LinkerState) (objects : list ElfObject)
    (ms : Modules) : outcome () (Z * option FixupTarget * Modules) :=
  match target r with
  | Symbol n =>
    match symbol_table st !! n with
    | Some va =>
      '(obj_num, off) ← va_to_lx_object va; Ok (va, Some (Internal obj_num off), ms)
    | None =>
      match dm !! n with
      | Some (module, ordinal) =>
        resolved ← resolve_import module ordinal;
        let '(i, ms) := get_or_insert_module module ms in
        Ok (resolved, Some (ExternalOrdinal i ordinal), ms)
      | None => Ok (0, None, ms)
      end
    end
  | Section_ n =>
    found ← find_section_va objects st n;
    match found with
    | Some base =>
      '(obj_num, off) ← va_to_lx_object base; Ok (base, Some (Internal obj_num off), ms)
    | None => Ok (0, None, ms)
    end
  end.

(** What the relocation loop of [write_lx] builds up: the modules, and for code ([fst]) and
    data the fixups of each page and the patches of the merged bytes.  A patch is a place and
    32-bit value. *)
Record Work := mk_work {
  modules : Modules;
  code_fixups : list (list LxFixup); data_fixups : list (list LxFixup);
  code_patches : list (Z * Z); data_patches : list (Z * Z); code_patches_i32 : list (Z * Z) }.
Definition with_modules (w : Work) (ms : Modules) : Work :=
  mk_work ms (code_fixups w) (data_fixups w) (code_patches w) (data_patches w) (code_patches_i32 w).
Definition push_patch (is_code : bool) (p : Z * Z) (w : Work) : Work :=
  if is_code then mk_work (modules w) (code_fixups w) (data_fixups w) (code_patches w ++ [p])
                    (data_patches w) (code_patches_i32 w)
  else mk_work (modules w) (code_fixups w) (data_fixups w) (code_patches w)
         (data_patches w ++ [p]) (code_patches_i32 w).
Definition push_patch_rel (is_code : bool) (p : Z * Z) (w : Work) : Work :=
  if is_code then mk_work (modules w) (code_fixups w) (data_fixups w) (code_patches w)
                    (data_patches w) (code_patches_i32 w ++ [p])
  else push_patch false p w.
(** [if page_idx < fixups.len() { fixups[page_idx].push(..) }] *)
Definition add_fixup (page_idx : Z) (fx : LxFixup) (fixups : list (list LxFixup)) :=
  if page_idx <? len fixups then alter (λ l, l ++ [fx]) (Z.to_nat page_idx) fixups else fixups.
Definition push_fixup (is_code : bool) (page_idx : Z) (fx : LxFixup) (w : Work) : Work :=
  mk_work (modules w)
    (if is_code then add_fixup page_idx fx (code_fixups w) else code_fixups w)
    (if is_code then data_fixups w else add_fixup page_idx fx (data_fixups w))
    (code_patches w) (data_patches w) (code_patches_i32 w).

(** An i64 sum; its low 32 bits are what is used of it. *)
Definition i64_add (a b : Z) : outcome () Z :=
  if in_range (-9223372036854775808) 9223372036854775807 (a + b) then Ok (a + b)
  else if overflow_checks then Panic
  else Ok ((a + b + 9223372036854775808) mod M64 - 9223372036854775808).

Definition obj_base (is_code : bool) : Z :=
  if is_code then CODE_OBJECT_BASE else DATA_OBJECT_BASE.
(** One relocation of the section at [section_base_va], its bytes at [buf_base]. *)
Definition relocate_one (dm : def_map) (st : LinkerState) (objects : list ElfObject)
    (is_code : bool) (section_base_va buf_base : Z) (r : Reloc) (w : Work) : outcome () Work :=
  source_va ← uadd M32 section_base_va (as_u M32 (offset r));
  buf_off ← uadd M64 buf_base (offset r);
  '(target_va, maybe_ft, ms) ← resolve_reloc r dm st objects (modules w);
  let w := with_modules w ms in
  if target_va =? 0 then Ok w else
  match kind r with
  | Absolute =>
    let actual := wrapping_add M32 target_va (as_u M32 (addend r)) in
    let w := push_patch is_code (buf_off, actual) w in
    match maybe_ft with
    | None => Ok w
    | Some ft =>
      rel ← usub M32 source_va (obj_base is_code);
      Ok (push_fixup is_code (rel / PAGE_SIZE)
            (mk_lx_fixup 0x07 (as_u M16 (rel mod PAGE_SIZE)) ft) w)
    end
  | Relative =>
    disp ← i64_add (target_va - (source_va + 4)) (addend r);
    Ok (push_patch_rel is_code (buf_off, as_u M32 disp) w)
  | OtherRelocation => Ok w
  end.
(** One section: [continue] for one that was not laid out. *)
Definition relocate_section (dm : def_map) (st : LinkerState) (objects : list ElfObject)
    (oi si : Z) (sec : ElfSection) (w : Work) : outcome () Work :=
  let is_code := bool_decide (sec_kind sec = Text) in
  base_va ← (if is_code then code_va_for st oi si else data_va_for st oi si);
  match base_va with
  | None => Ok w
  | Some base =>
    buf_base ← usub M32 base (obj_base is_code);
    for_in (relocs sec) (relocate_one dm st objects is_code base buf_base) w
  end.
Definition relocate (objects : list ElfObject) (st : LinkerState) (dm : def_map)
    (code_pages data_pages : Z) : outcome () Work :=
  for_in (all_sections objects) (λ '(oi, si, sec), relocate_section dm st objects oi si sec)
    (mk_work (mk_modules ∅ []) (replicate (Z.to_nat code_pages) [])
       (replicate (Z.to_nat data_pages) []) [] [] []).

(** [buf[off..off + b.len()].copy_from_slice(b)] in bounds *)
Definition splice (buf : bytes) (off : Z) (b : bytes) : bytes :=
  take (Z.to_nat off) buf ++ b ++ drop (Z.to_nat off + length b) buf.
(** [apply_patches_u32], [apply_patches_i32]; a range that ends before it starts panics. *)
Definition apply_patches (buf : bytes) (patches : list (Z * Z)) : outcome () bytes :=
  for_in patches (λ '(off, val) buf,
    e ← uadd M64 off 4;
    if e <=? len buf then (if off <=? e then Ok (splice buf off (le32 val)) else Panic)
    else Ok buf) buf.
(** [pad_to_page] *)
Definition pad_to_page (d : bytes) : bytes :=
  let rem := len d mod PAGE_SIZE in
  if rem =? 0 then d else resize d (len d + (PAGE_SIZE - rem)).

(** * The LX file *)

(** [encode_fixup] *)
Definition encode_fixup (fx : LxFixup) : bytes :=
  match fix_target fx with
  | Internal object_num target_offset =>
    le_bytes 1 (source_type fx) ++ [0x10] ++ le16 (source_offset fx) ++
    le_bytes 1 object_num ++ le32 target_offset
  | ExternalOrdinal module_idx ordinal =>
    le_bytes 1 (source_type fx) ++ [0x11] ++ le16 (source_offset fx) ++
    le_bytes 1 module_idx ++ le32 ordinal
  end.
(** [encode_object_entry] *)
Definition encode_object_entry (size base flags page_map_index page_count : Z) : bytes :=
  le32 size ++ le32 base ++ le32 flags ++ le32 page_map_index ++ le32 page_count ++ le32 0.

(** The fixup page table and the records: each page's records start where those before end. *)
Definition fixup_section (pages : list (list LxFixup)) : list Z * bytes :=
  foldl (λ '(table, records) page,
    (table ++ [as_u M32 (len records)], records ++ concat (map encode_fixup page))) ([], []) pages.

(** The entries of [n] pages from page [pi] of data of [data_len] bytes, the first at
    [file_off]; returns the next offset. *)
Fixpoint page_map_of (n : nat) (pi data_len file_off : Z) : outcome () (bytes * Z) :=
  match n with
  | O => Ok ([], file_off)
  | S n =>
    let slice_end := Z.min ((pi + 1) * PAGE_SIZE) data_len in
    let slice_start := pi * PAGE_SIZE in
    psize ← usub M64 slice_end slice_start;
    next ← uadd M32 file_off PAGE_SIZE;
    '(rest, last) ← page_map_of n (pi + 1) data_len next;
    Ok (le32 file_off ++ le16 psize ++ le16 0 ++ rest, last)
  end.
(** The stack's pages: whole ones. *)
Fixpoint stack_page_map (n : nat) (file_off : Z) : outcome () bytes :=
  match n with
  | O => Ok []
  | S n =>
    next ← uadd M32 file_off PAGE_SIZE;
    rest ← stack_page_map n next;
    Ok (le32 file_off ++ le16 PAGE_SIZE ++ le16 0 ++ rest)
  end.

(** The name tables. *)
Definition import_module_bytes (l : list rstring) : bytes :=
  flat_map (λ m, le_bytes 1 (len (as_bytes m)) ++ as_bytes m) l.
Definition resident_name_bytes : bytes := [len (str "WARPEXE")] ++ str "WARPEXE" ++ le16 0 ++ [0].
Definition entry_table_bytes : bytes := [0; 0].

(** [build_lx_header] *)
Definition build_lx_header (entry_offset total_pages obj_table_off num_objects page_map_off
    resident_name_off entry_table_off fixup_page_table_off fixup_record_off import_modules_off
    imported_modules_count import_proc_name_off loader_section_size fixup_section_size
    data_pages_offset_abs : Z) : bytes :=
  str "LX" ++ [0] ++ [0] ++
  le32 0 ++ le16 2 ++ le16 1 ++ le32 0 ++ le32 0 ++
  le32 total_pages ++ le32 1 ++ le32 entry_offset ++ le32 3 ++ le32 STACK_SIZE ++
  le32 4096 ++ le32 0 ++ le32 fixup_section_size ++ le32 0 ++
  le32 loader_section_size ++ le32 0 ++
  le32 obj_table_off ++ le32 num_objects ++ le32 page_map_off ++ le32 0 ++ le32 0 ++ le32 0 ++
  le32 resident_name_off ++ le32 entry_table_off ++ le32 0 ++ le32 0 ++
  le32 fixup_page_table_off ++ le32 fixup_record_off ++
  le32 import_modules_off ++ le32 imported_modules_count ++ le32 import_proc_name_off ++
  le32 0 ++ le32 data_pages_offset_abs ++ le32 0 ++ le32 0 ++ le32 0 ++ le32 0 ++ le32 2 ++
  le32 0 ++ le32 0 ++ le32 0 ++ le32 0 ++ le32 0.
(** The MZ stub. *)
Definition mz_stub : bytes :=
  str "MZ" ++ replicate 58 0 ++ [as_u M8 LX_HEADER_OFFSET] ++ replicate 3 0.

(** The second half of [write_lx]: the file, from the patched and padded data, the page
    counts, the fixups and the modules. *)
Definition assemble (entry_offset : Z) (st : LinkerState) (code_data data_data : bytes)
    (code_pages data_pages stack_pages : Z) (w : Work) : outcome () bytes :=
  let total_pages := code_pages + data_pages + stack_pages in
  let '(table, fixup_records) := fixup_section
    (code_fixups w ++ data_fixups w ++ replicate (Z.to_nat stack_pages) []) in
  let fixup_page_table := table ++ [as_u M32 (len fixup_records)] in
  let import_modules_bytes := import_module_bytes (imported (modules w)) in
  let num_objects := 3 in
  let obj_table_off := LX_HEADER_SIZE in
  page_map_off ← uadd M32 obj_table_off (num_objects * 24);
  page_map_len ← umul M32 (as_u M32 total_pages) 8;
  resident_name_off ← uadd M32 page_map_off page_map_len;
  entry_table_off ← uadd M32 resident_name_off (len resident_name_bytes);
  fixup_page_table_off ← uadd M32 entry_table_off (len entry_table_bytes);
  table_entries ← uadd M32 (as_u M32 total_pages) 1;
  table_len ← umul M32 table_entries 4;
  fixup_record_off ← uadd M32 fixup_page_table_off table_len;
  import_modules_off ← uadd M32 fixup_record_off (as_u M32 (len fixup_records));
  import_proc_name_off ← uadd M32 import_modules_off (as_u M32 (len import_modules_bytes));
  let loader_section_size := fixup_page_table_off in
  fixup_section_size ← uadd M32 table_len (as_u M32 (len fixup_records));
  fixup_section_size ← uadd M32 fixup_section_size (as_u M32 (len import_modules_bytes));
  loader_section_end ← uadd M32 LX_HEADER_OFFSET import_proc_name_off;
  data_pages_offset_abs ← align_to loader_section_end 16;
  padding_before_data ← usub M32 data_pages_offset_abs loader_section_end;
  code_size ← uadd M32 (as_u M32 (len code_data)) (bss_size (code_section st));
  data_size ← uadd M32 (as_u M32 (len data_data)) (bss_size (data_section st));
  data_index ← uadd M32 (as_u M32 code_pages) 1;
  stack_index ← uadd M32 (as_u M32 code_pages) (as_u M32 data_pages);
  stack_index ← uadd M32 stack_index 1;
  '(code_map, file_off) ← page_map_of (Z.to_nat code_pages) 0 (len code_data) 0;
  '(data_map, file_off) ← page_map_of (Z.to_nat data_pages) 0 (len data_data) file_off;
  stack_map ← stack_page_map (Z.to_nat stack_pages) file_off;
  Ok (mz_stub ++
    build_lx_header entry_offset (as_u M32 total_pages) obj_table_off num_objects page_map_off
      resident_name_off entry_table_off fixup_page_table_off fixup_record_off import_modules_off
      (as_u M32 (len (imported (modules w)))) import_proc_name_off loader_section_size
      fixup_section_size data_pages_offset_abs ++
    encode_object_entry code_size CODE_OBJECT_BASE
      (Z.lor (Z.lor (Z.lor OBJ_READ OBJ_EXEC) OBJ_BIG) OBJ_USE32) 1 (as_u M32 code_pages) ++
    encode_object_entry data_size DATA_OBJECT_BASE
      (Z.lor (Z.lor (Z.lor OBJ_READ OBJ_WRITE) OBJ_BIG) OBJ_USE32) data_index (as_u M32 data_pages) ++
    encode_object_entry STACK_SIZE STACK_OBJECT_BASE
      (Z.lor (Z.lor (Z.lor OBJ_READ OBJ_WRITE) OBJ_BIG) OBJ_USE32) stack_index
      (STACK_SIZE / PAGE_SIZE) ++
    code_map ++ data_map ++ stack_map ++
    resident_name_bytes ++ entry_table_bytes ++
    concat (map le32 fixup_page_table) ++ fixup_records ++ import_modules_bytes ++
    replicate (Z.to_nat padding_before_data) 0 ++
    code_data ++ data_data ++ replicate (Z.to_nat (stack_pages * PAGE_SIZE)) 0).

(** [write_lx] *)
Definition write_lx (objects : list ElfObject) (st : LinkerState) (dm : def_map)
    : outcome () bytes :=
  entry_offset ← usub M32 (entry_va st) CODE_OBJECT_BASE;
  let code_data := merged_data (code_section st) in
  let data_data := merged_data (data_section st) in
  code_pages ← page_count (as_u M32 (len code_data)) (bss_size (code_section st));
  data_pages ← page_count (as_u M32 (len data_data)) (bss_size (data_section st));
  let stack_pages := STACK_SIZE / PAGE_SIZE in
  w ← relocate objects st dm code_pages data_pages;
  code_data ← apply_patches code_data (code_patches w);
  data_data ← apply_patches data_data (data_patches w);
  code_data ← apply_patches code_data (code_patches_i32 w);
  assemble entry_offset st (pad_to_page code_data) (pad_to_page data_data)
    code_pages data_pages stack_pages w.

(** * The program *)

Section main.
Context (to_uppercase : Z → rstring).
(** [object::File::parse], and [ArchiveFile] as its members with names and data, each of
    which may be malformed; the host files, and the text of [os2api.def] built in. *)
Context (parse_object : bytes → option ElfFile).
Context (members : bytes → option (list (option (bytes * option bytes)))).
Context (read_file : rstring → option bytes) (exe_def : option rstring) (EMBEDDED : rstring).
Context (from_utf8 : bytes → option rstring).

Definition parse_elf_bytes (d : bytes) : outcome () ElfObject :=
  f ← ok_or tt (parse_object d); parse_elf f.

(** [read_to_string] *)
Definition read_to_string (p : rstring) : option rstring := d ← read_file p; from_utf8 d.
(** [load_def_file] *)
Definition load_def_file (explicit : option rstring) : rstring :=
  match explicit with
  | Some p => default EMBEDDED (read_to_string p)
  | None =>
    match read_to_string (str "targets/os2api.def") with
    | Some s => s
    | None => default EMBEDDED (p ← exe_def; read_to_string p)
    end
  end.

(** [load_input]: every object of an archive that parses, or the one object. *)
Definition load_input (path : rstring) (objects : list ElfObject) : outcome () (list ElfObject) :=
  d ← ok_or tt (read_file path);
  if starts_with (str "!<arch>" ++ [0x0A]) d then
    ms ← ok_or tt (members d);
    for_in ms (λ m objects,
      '(member_name, obj_data) ← ok_or tt m;
      if ends_with (str ".o") (default [] (from_utf8 member_name)) then
        obj_data ← ok_or tt obj_data;
        match parse_elf_bytes obj_data with
        | Ok obj => Ok (objects ++ [obj])
        | Err _ => Ok objects
        | Panic => Panic
        | Diverge => Diverge
        end
      else Ok objects) objects
  else
    obj ← parse_elf_bytes d; Ok (objects ++ [obj]).

(** [main]: the file written and its contents, or exit code 1. *)
Definition main (raw_args : list rstring) : outcome () (rstring * bytes) :=
  let parsed := parse_args raw_args in
  if bool_decide (inputs parsed = []) then Err tt else
  let dm := parse_def to_uppercase (load_def_file (def_file parsed)) in
  objects ← for_in (inputs parsed) load_input [];
  if bool_decide (objects = []) then Err tt else
  state ← build objects;
  lx_bytes ← write_lx objects state dm;
  Ok (output parsed, lx_bytes).
End main.
End linker.
