(* ===== verification/LxLinkFile.v ===== *)
(** What the linker writes is what the parser reads: the LX file of [write_lx] parses to the
    objects, pages, fixups and imports it was written from, and the loader resolves its
    fixups to the addresses the linker laid out. *)
From S2P Require Import Prelude Bytes Text LxHeader LxFile LxLink.

(** * Results of unchecked arithmetic are u32 *)

Section arith.
Context {B : Build} {E : Type}.

Lemma overflowing_range m (b : bool) x y :
  0 < m → (b = true → 0 ≤ x < m) → overflowing (E:=E) m b x = Ok y → 0 ≤ y < m.
Proof.
  unfold overflowing. intros Hm Hb. destruct b; [intros [= <-]; auto|].
  destruct overflow_checks; [done|]. intros [= <-]. by apply Z.mod_pos_bound.
Qed.
Lemma uadd_range m a b c : 0 < m → 0 ≤ a → 0 ≤ b → uadd (E:=E) m a b = Ok c → 0 ≤ c < m.
Proof. intros ???. apply overflowing_range; [done|]. intros ?%Z.ltb_lt. lia. Qed.
Lemma usub_range m a b c : 0 < m → a < m → 0 ≤ b → usub (E:=E) m a b = Ok c → 0 ≤ c < m.
Proof. intros ???. apply overflowing_range; [done|]. intros ?%Z.leb_le. lia. Qed.
End arith.

(** * The fixup records *)

(** The record a fixup is written as. *)
Definition target_of (t : LxLink.FixupTarget) : LxHeader.FixupTarget :=
  match t with
  | LxLink.Internal n o => LxHeader.Internal n o
  | LxLink.ExternalOrdinal i o => LxHeader.ExternalOrdinal i o
  end.
Definition record_of (fx : LxFixup) : LxFixupRecord :=
  mk_fixup (LxLink.source_type fx) (match fix_target fx with LxLink.Internal _ _ => 0x10 | _ => 0x11 end)
    [source_offset fx] (target_of (fix_target fx)) None.
Definition lx_fixup_wf (fx : LxFixup) : Prop :=
  LxLink.source_type fx = 7 ∧ u16 (source_offset fx) ∧
  match fix_target fx with
  | LxLink.Internal n o => u8 n ∧ u32 o
  | LxLink.ExternalOrdinal i o => u8 i ∧ u32 o
  end.

Lemma encode_record fx : lx_fixup_wf fx → encode_fixup fx = fixup_bytes (record_of fx).
Proof.
  intros (Ht & _ & _). unfold encode_fixup, fixup_bytes, record_of, sources_bytes.
  destruct (fix_target fx) eqn:Hf; cbn [LxHeader.source_type target_flags source_offsets LxHeader.target additive
    target_of target_bytes additive_bytes]; rewrite Ht;
    change (has 7 0x20) with false; cbn iota; cbn [map concat]; rewrite ?app_nil_r; reflexivity.
Qed.
Lemma record_wf fx : lx_fixup_wf fx → fixup_wf (record_of fx).
Proof.
  intros (Ht & Ho & Hf). unfold fixup_wf, record_of.
  destruct (fix_target fx); cbn -[Z.land Z.le Z.lt has u8 u16 u32]; rewrite Ht;
    (split; [by unfold u8|]); (split; [by unfold u8|]); (split; [by constructor|]); repeat split; try apply Hf.
Qed.

(** Where the records of each page start. *)
Fixpoint starts_from (pos : Z) (pages : list (list LxFixup)) : list Z :=
  match pages with
  | [] => []
  | p :: ps => pos :: starts_from (pos + len (concat (map encode_fixup p))) ps
  end.
Definition all_records (pages : list (list LxFixup)) : bytes :=
  concat (map (λ p, concat (map encode_fixup p)) pages).

Lemma fixup_section_spec pages :
  len (all_records pages) < M32 →
  fixup_section pages = (starts_from 0 pages, all_records pages).
Proof.
  intros Hl. unfold fixup_section.
  enough (∀ t r, len r + len (all_records pages) < M32 →
    foldl (λ '(table, records) page, (table ++ [as_u M32 (len records)],
      records ++ concat (map encode_fixup page))) (t, r) pages =
    (t ++ starts_from (len r) pages, r ++ all_records pages)) as H.
  { rewrite H by (change (len []) with 0; lia). done. }
  clear Hl. induction pages as [|p ps IH]; intros t r Hl; cbn [foldl starts_from all_records concat map].
  { by rewrite !app_nil_r. }
  unfold all_records in *. cbn [map concat] in Hl. rewrite len_app in Hl.
  pose proof (len_nonneg r). pose proof (len_nonneg (concat (map encode_fixup p))).
  rewrite IH by (rewrite len_app; lia). rewrite <- !(assoc_L (++)), len_app.
  pose proof (len_nonneg (concat (map (λ p, concat (map encode_fixup p)) ps))).
  by rewrite as_u_small by lia.
Qed.
Lemma length_starts_from pos pages : length (starts_from pos pages) = length pages.
Proof. revert pos. induction pages; intros; simpl; auto. Qed.

Lemma len_encode_fixup fx : lx_fixup_wf fx → len (encode_fixup fx) = 9.
Proof. intros _. unfold encode_fixup, len. by destruct (fix_target fx). Qed.
Lemma len_page_records page :
  Forall lx_fixup_wf page → len (concat (map encode_fixup page)) = 9 * len page.
Proof.
  induction 1 as [|fx page Hf _ IH]; [done|]. cbn [map concat].
  rewrite len_app, len_cons, IH, len_encode_fixup by done. lia.
Qed.
Lemma all_records_app a b : all_records (a ++ b) = all_records a ++ all_records b.
Proof. unfold all_records. by rewrite map_app, concat_app. Qed.
Lemma idx_starts pos a b :
  idx (starts_from pos (a ++ b) ++ [pos + len (all_records (a ++ b))]) (len a) =
  Some (pos + len (all_records a)).
Proof.
  rewrite idx_lookup by apply len_nonneg. replace (Z.to_nat (len a)) with (length a) by (unfold len; lia).
  revert pos. induction a as [|p a IH]; intros pos; cbn [app starts_from length].
  - destruct b as [|q b]; cbn [starts_from app lookup list_lookup]; do 2 f_equal.
    unfold all_records at 1. cbn [map concat]. change (len []) with 0. lia.
  - cbn [lookup list_lookup]. unfold all_records in *. cbn [map concat]. rewrite !len_app.
    rewrite !Z.add_assoc. apply IH.
Qed.

Lemma read_fixups_written fuel page pre post :
  Forall lx_fixup_wf page → (length page < fuel)%nat →
  let body := concat (map encode_fixup page) in
  read_fixups_until fuel (len pre + len body) (pre ++ body ++ post) (len pre) =
    Ok (map record_of page, len pre + len body).
Proof.
  intros Hwf. revert fuel pre. induction Hwf as [|fx page Hf Hp IH]; intros fuel pre Hl body; subst body;
    (destruct fuel as [|fuel]; [cbn [length] in Hl; lia|]); cbn [read_fixups_until map concat].
  - unfold mbind, rd_bind, stream_position. change (len []) with 0. zbool.
    unfold mret, rd_ret. by rewrite Z.add_0_r.
  - cbn [length] in Hl. unfold mbind at 1, rd_bind, stream_position.
    pose proof (len_encode_fixup fx Hf). rewrite len_app.
    pose proof (len_nonneg (concat (map encode_fixup page))). zbool. rewrite encode_record in * by done.
    pose proof (read_fixup_decodes (record_of fx) (record_wf fx Hf) pre
      (concat (map encode_fixup page) ++ post)) as Hd.
    rewrite <- !(assoc_L (++)). unfold mbind, rd_bind. rewrite Hd.
    specialize (IH fuel (pre ++ fixup_bytes (record_of fx)) ltac:(lia)). cbv zeta in IH.
    rewrite len_app, <- !(assoc_L (++)) in IH. rewrite Z.add_assoc, IH. done.
Qed.
Lemma read_page_written page pre start s e post pos :
  Forall lx_fixup_wf page → start + s = len pre → e = s + len (concat (map encode_fixup page)) →
  ∃ p, read_page_fixups start s e (pre ++ concat (map encode_fixup page) ++ post) pos =
    Ok (map record_of page, p).
Proof.
  intros Hwf Hs ->. unfold read_page_fixups. pose proof (len_page_records page Hwf) as Hlen.
  destruct (Z.ltb_spec s (s + len (concat (map encode_fixup page)))).
  - unfold mbind, rd_bind, seek. rewrite Hs, Z.add_assoc, Hs. unfold with_fuel.
    rewrite read_fixups_written; [by eexists|done|].
    unfold len in Hlen. rewrite !length_app. lia.
  - destruct page; [by eexists|]. rewrite len_cons in Hlen. pose proof (len_nonneg page). lia.
Qed.

Lemma read_fixup_pages_written pages pre post : Forall (Forall lx_fixup_wf) pages →
  ∀ done rest pos, pages = done ++ rest →
  ∃ p, read_fixup_pages (len pre) (starts_from 0 pages ++ [len (all_records pages)]) (len done)
         (length rest) (pre ++ all_records pages ++ post) pos = Ok (map (map record_of) rest, p).
Proof.
  intros Hwf done_ rest. revert done_. induction rest as [|page rest IH]; intros done_ pos Heq;
    cbn [length read_fixup_pages map]; [by eexists|].
  pose proof (idx_starts 0 done_ (page :: rest)) as H1.
  pose proof (idx_starts 0 (done_ ++ [page]) rest) as H2.
  rewrite <- (assoc_L (++)) in H2. cbn [app] in H2. rewrite <- Heq, Z.add_0_l in H1, H2.
  rewrite len_app in H2. change (len [page]) with 1 in H2.
  rewrite H1, H2. unfold mbind, rd_bind, lift, unwrap.
  assert (Forall lx_fixup_wf page) as Hpage.
  { rewrite Heq in Hwf. apply Forall_app in Hwf as [_ Hwf]. by apply Forall_cons in Hwf as [? _]. }
  destruct (read_page_written page (pre ++ all_records done_) (len pre) (0 + len (all_records done_))
    (0 + len (all_records (done_ ++ [page]))) (all_records rest ++ post) pos Hpage) as [p Hp].
  { rewrite len_app. lia. }
  { rewrite all_records_app, len_app. unfold all_records at 2. cbn [map concat]. rewrite app_nil_r. lia. }
  assert (pre ++ all_records pages ++ post =
    (pre ++ all_records done_) ++ concat (map encode_fixup page) ++ all_records rest ++ post) as Hdata.
  { rewrite Heq, all_records_app. unfold all_records. cbn [map concat]. by rewrite <- !(assoc_L (++)). }
  rewrite <- Hdata in Hp. rewrite Hp. specialize (IH (done_ ++ [page]) p).
  rewrite len_app in IH. change (len [page]) with 1 in IH. destruct IH as [q Hq].
  { by rewrite Heq, <- (assoc_L (++)). }
  rewrite Hq. by eexists.
Qed.

(** * The tables *)

(** [n] whole pages from the offset [off]. *)
Definition full_pages (off : Z) (n : nat) : list ObjectPageMapEntry :=
  map (λ i, mk_page (off + 4096 * Z.of_nat i) 4096 0) (seq 0 n).
Lemma full_pages_S off n :
  full_pages off (S n) = mk_page off 4096 0 :: full_pages (off + 4096) n.
Proof.
  unfold full_pages. cbn [seq map]. f_equal; [f_equal; lia|].
  rewrite <- seq_shift, map_map. apply map_ext. intros i. f_equal. lia.
Qed.
Lemma full_pages_app off n m :
  full_pages off (n + m) = full_pages off n ++ full_pages (off + 4096 * Z.of_nat n) m.
Proof.
  revert off. induction n as [|n IH]; intros off; [cbn [full_pages seq map app plus]; by rewrite Z.add_0_r|].
  replace (off + 4096 * Z.of_nat (S n)) with (off + 4096 + 4096 * Z.of_nat n) by lia.
  cbn [plus]. by rewrite !full_pages_S, IH.
Qed.
Definition pages_bytes (l : list ObjectPageMapEntry) : bytes := concat (map page_bytes l).

Section tables.
Context {B : Build}.

Lemma page_map_of_full n pi data_len off :
  0 ≤ pi → (pi + Z.of_nat n) * 4096 ≤ data_len → off + 4096 * Z.of_nat n < M32 →
  page_map_of n pi data_len off = Ok (pages_bytes (full_pages off n), off + 4096 * Z.of_nat n).
Proof.
  revert pi off. induction n as [|n IH]; intros pi off Hpi Hd Ho; cbn [page_map_of].
  { by rewrite Z.add_0_r. }
  unfold PAGE_SIZE. rewrite Z.min_l by lia. rewrite usub_ok, uadd_ok by lia. out_simpl.
  rewrite IH by lia. out_simpl. rewrite full_pages_S. unfold pages_bytes. cbn [map concat page_bytes].
  do 2 f_equal; [|lia]. unfold page_bytes. cbn [data_offset data_size page_flags].
  replace ((pi + 1) * 4096 - pi * 4096) with 4096 by lia. by rewrite <- !(assoc_L (++)), ?app_nil_r.
Qed.
Lemma stack_page_map_full n off :
  off + 4096 * Z.of_nat n < M32 → stack_page_map n off = Ok (pages_bytes (full_pages off n)).
Proof.
  revert off. induction n as [|n IH]; intros off Ho; cbn [stack_page_map]; [done|].
  unfold PAGE_SIZE. rewrite uadd_ok by lia. out_simpl. rewrite IH by lia. out_simpl.
  rewrite full_pages_S. unfold pages_bytes. cbn [map concat]. unfold page_bytes at 2.
  cbn [data_offset data_size]. by rewrite <- !(assoc_L (++)), ?app_nil_r.
Qed.
End tables.

(** * The header and the objects *)

Definition link_header (entry_offset tp R I N : Z) : LxHeader :=
  let fpt := 257 + 8 * tp in
  let im := fpt + 4 * (tp + 1) + R in
  mk_header (str "LX") 0 0 0 2 1 0 0 tp 1 entry_offset 3 STACK_SIZE 4096 0
    (4 * (tp + 1) + R + I) 0 fpt 0
    172 3 244 0 0 0 (244 + 8 * tp) (255 + 8 * tp) 0 0 fpt (fpt + 4 * (tp + 1)) im N (im + I)
    0 (64 + (im + I) + (- (64 + (im + I))) mod 16) 0 0 0 0 2 0 0 0 0 0.
Definition link_objects (code_size data_size code_pages data_pages : Z) : list ObjectTableEntry :=
  [LxHeader.mk_object code_size CODE_OBJECT_BASE 0x2045 1 code_pages 0;
   LxHeader.mk_object data_size DATA_OBJECT_BASE 0x2043 (code_pages + 1) data_pages 0;
   LxHeader.mk_object STACK_SIZE STACK_OBJECT_BASE 0x2043 (code_pages + data_pages + 1) 16 0].
(** The whole file. *)
Definition link_file (h : LxHeader) (objs : list ObjectTableEntry) (tp : Z)
    (pages : list (list LxFixup)) (mods : list rstring) (pad : Z) (C D : bytes) : bytes :=
  mz_stub ++ header_bytes h ++ concat (map object_bytes objs) ++
  pages_bytes (full_pages 0 (Z.to_nat tp)) ++ resident_name_bytes ++ entry_table_bytes ++
  concat (map le32 (starts_from 0 pages ++ [len (all_records pages)])) ++ all_records pages ++
  import_module_bytes mods ++ replicate (Z.to_nat pad) 0 ++ C ++ D ++ replicate (Z.to_nat STACK_SIZE) 0.

(** Rounding up to a power of two. *)
Lemma land_high x k : 0 ≤ k ≤ 32 → u32 x → Z.land x (M32 - 2 ^ k) = x - x mod 2 ^ k.
Proof.
  intros Hk Hx. unfold u32 in Hx.
  replace (M32 - 2 ^ k) with (Z.shiftl (Z.ones (32 - k)) k).
  - rewrite land_shifted_ones by lia. rewrite (Z.mod_small (x / 2 ^ k)).
    + pose proof (Z.div_mod x (2 ^ k)). lia.
    + split; [apply Z.div_pos; lia|]. apply Z.div_lt_upper_bound; [lia|].
      rewrite <- Z.pow_add_r by lia. replace (k + (32 - k)) with 32 by lia. lia.
  - rewrite Z.shiftl_mul_pow2, Z.ones_equiv by lia.
    pose proof (Z.pow_add_r 2 (32 - k) k ltac:(lia) ltac:(lia)) as Hp.
    replace (32 - k + k) with 32 in Hp by lia. change (2 ^ 32) with M32 in Hp. lia.
Qed.
Lemma align_to_pow2 {B : Build} v k :
  0 ≤ k < 32 → 0 ≤ v → v + 2 ^ k < M32 →
  align_to v (2 ^ k) = Ok (v + (- v) mod 2 ^ k).
Proof.
  intros Hk Hv Hb. unfold align_to. pose proof (Z.pow_pos_nonneg 2 k ltac:(lia) ltac:(lia)).
  arith_ok. f_equal. replace (M32 - 1 - (2 ^ k - 1)) with (M32 - 2 ^ k) by lia.
  rewrite land_high by (unfold u32; lia).
  pose proof (Z.div_mod (v + 2 ^ k - 1) (2 ^ k)) as H1. pose proof (Z.mod_pos_bound (v + 2 ^ k - 1) (2 ^ k)) as H2.
  pose proof (Z.div_mod (- v) (2 ^ k)) as H3. pose proof (Z.mod_pos_bound (- v) (2 ^ k)) as H4.
  revert H H1 H2 H3 H4. generalize (2 ^ k), ((v + 2 ^ k - 1) `div` 2 ^ k), ((- v) `div` 2 ^ k),
    ((v + 2 ^ k - 1) `mod` 2 ^ k), ((- v) `mod` 2 ^ k). intros m q1 q3 r1 r3 Hm H1 H2 H3 H4.
  specialize (H1 ltac:(lia)). specialize (H2 Hm). specialize (H3 ltac:(lia)). specialize (H4 Hm).
  assert (m * (q1 + q3) + (r1 + r3) = m - 1) by lia. assert (q1 + q3 = 0) by nia. nia.
Qed.

Lemma len_concat_const {A} (f : A → bytes) (n : Z) l :
  (∀ a, len (f a) = n) → len (concat (map f l)) = n * len l.
Proof.
  intros Hf. induction l as [|a l IH]; cbn [map concat]; [by rewrite Z.mul_0_r|].
  rewrite len_app, len_cons, Hf, IH. lia.
Qed.
Lemma len_pages_bytes off n : len (pages_bytes (full_pages off n)) = 8 * Z.of_nat n.
Proof.
  unfold pages_bytes. rewrite (len_concat_const _ 8) by done.
  unfold full_pages, len. by rewrite length_map, length_seq.
Qed.

Lemma len_import_bytes l : len l ≤ len (import_module_bytes l).
Proof.
  unfold import_module_bytes. induction l as [|m l IH]; [done|].
  cbn [flat_map]. rewrite len_cons, !len_app, len_le_bytes. pose proof (len_nonneg (as_bytes m)). lia.
Qed.

Lemma link_objects_wf cs ds cp dp :
  u32 cs → u32 ds → 0 ≤ cp → 0 ≤ dp → cp + dp < 2 ^ 28 → Forall object_wf (link_objects cs ds cp dp).
Proof.
  unfold link_objects, object_wf, u32, CODE_OBJECT_BASE, DATA_OBJECT_BASE, STACK_OBJECT_BASE, STACK_SIZE.
  intros. do 3 (apply Forall_cons; split; [cbn -[Z.add Z.sub Z.le Z.lt]; lia|]). done.
Qed.

Lemma starts_u32 pos pages :
  0 ≤ pos → pos + len (all_records pages) < M32 → Forall u32 (starts_from pos pages).
Proof.
  revert pos. induction pages as [|p ps IH]; intros pos Hp Hl; cbn [starts_from]; constructor.
  - unfold u32. pose proof (len_nonneg (all_records (p :: ps))). lia.
  - unfold all_records in *. cbn [map concat] in Hl. rewrite len_app in Hl.
    pose proof (len_nonneg (concat (map encode_fixup p))). apply IH; lia.
Qed.


Section assemble.
Context {B : Build}.
Context (entry_offset : Z) (st : LinkerState) (C D : bytes) (w : Work).
(** The pages of the two objects are those of their bytes. *)
Context (cp dp : Z) (HC : len C = cp * 4096) (HD : len D = dp * 4096).
Context (Hcp : 0 ≤ cp) (Hdp : 0 ≤ dp).
Context (Hcf : len (code_fixups w) = cp) (Hdf : len (data_fixups w) = dp).

Definition written_pages : list (list LxFixup) :=
  code_fixups w ++ data_fixups w ++ replicate 16 [].
Context (Hwf : Forall (Forall lx_fixup_wf) written_pages).
Let tp := cp + dp + 16.
Let R := len (all_records written_pages).
Let I := len (import_module_bytes (imported (modules w))).
Let h := link_header entry_offset tp R I (as_u M32 (len (imported (modules w)))).

(** The bounds that the size of the file gives. *)
Definition sizes_ok : Prop := len C + len D + R + I < 2 ^ 28.

Lemma assemble_Ok :
  sizes_ok → 0 ≤ bss_size (code_section st) < 4096 → 0 ≤ bss_size (data_section st) < 4096 →
  assemble entry_offset st C D cp dp 16 w =
    Ok (link_file h (link_objects (len C + bss_size (code_section st))
          (len D + bss_size (data_section st)) cp dp) tp written_pages (imported (modules w))
          ((- (64 + (257 + 8 * tp + 4 * (tp + 1) + R + I))) mod 16) C D).
Proof using All.
  unfold sizes_ok. intros Hs Hb1 Hb2. assert (0 ≤ R) by apply len_nonneg. assert (0 ≤ I) by apply len_nonneg.
  assert (tp < 2 ^ 17) by lia. unfold assemble.
  change (replicate (Z.to_nat 16) []) with (replicate 16 (@nil LxFixup)).
  change (code_fixups w ++ data_fixups w ++ replicate 16 []) with written_pages.
  rewrite fixup_section_spec by (fold R; lia). fold R I tp.
  rewrite !(as_u_small M32 tp), !(as_u_small M32 R), !(as_u_small M32 I), !(as_u_small M32 (len C)), !(as_u_small M32 (len D)),
    !(as_u_small M32 cp), !(as_u_small M32 dp) by lia.
  unfold LX_HEADER_SIZE, LX_HEADER_OFFSET.
  change (len resident_name_bytes) with 11. change (len entry_table_bytes) with 2.
  arith_ok.
  replace (172 + 3 * 24 + tp * 8 + 11 + 2 + (tp + 1) * 4 + R + I)
    with (257 + 8 * tp + 4 * (tp + 1) + R + I) by lia.
  replace (172 + 3 * 24 + tp * 8 + 11 + 2 + (tp + 1) * 4 + R)
    with (257 + 8 * tp + 4 * (tp + 1) + R) by lia.
  replace (172 + 3 * 24 + tp * 8 + 11 + 2 + (tp + 1) * 4)
    with (257 + 8 * tp + 4 * (tp + 1)) by lia.
  replace (172 + 3 * 24 + tp * 8 + 11 + 2) with (257 + 8 * tp) by lia.
  replace (172 + 3 * 24 + tp * 8 + 11) with (255 + 8 * tp) by lia.
  replace (172 + 3 * 24 + tp * 8) with (244 + 8 * tp) by lia.
  replace ((tp + 1) * 4 + R + I) with (4 * (tp + 1) + R + I) by lia.
  rewrite (align_to_pow2 _ 4) by lia. out_simpl.
  set (pad := (- _) mod 2 ^ 4).
  assert (0 ≤ pad) by (apply Z.mod_pos_bound; lia).
  rewrite usub_ok by lia. out_simpl. rewrite !page_map_of_full by lia. out_simpl.
  rewrite page_map_of_full by lia. out_simpl. rewrite stack_page_map_full by lia. out_simpl.
  f_equal. unfold link_file. f_equal. unfold h, link_header. fold tp R I. cbv zeta.
  replace (64 + (257 + 8 * tp + 4 * (tp + 1) + R + I) + pad -
    (64 + (257 + 8 * tp + 4 * (tp + 1) + R + I))) with pad by lia.
  replace (Z.to_nat tp) with (Z.to_nat cp + Z.to_nat dp + Z.to_nat 16)%nat by lia.
  rewrite !full_pages_app. unfold pages_bytes. rewrite !map_app, !concat_app.
  rewrite !Z.add_0_l, !Z2Nat.id by lia.
  replace (4096 * cp + 4096 * dp) with (4096 * Z.of_nat (Z.to_nat cp + Z.to_nat dp)) by lia.
  unfold build_lx_header, header_bytes, link_objects, object_bytes, encode_object_entry. cbn [map concat].
  rewrite <- !(assoc_L (++)), ?app_nil_r. reflexivity.
Qed.

(** * Parsing it back *)

Context (cs ds pad : Z) (Hcs : u32 cs) (Hds : u32 ds) (Hentry : u32 entry_offset).
Context (Hmods : Forall (λ m, Forall is_char m ∧ len (as_bytes m) < 256) (imported (modules w))).
Let F := link_file h (link_objects cs ds cp dp) tp written_pages (imported (modules w)) pad C D.
Let N := len (imported (modules w)).

Lemma len_mods : N ≤ I.
Proof using. apply len_import_bytes. Qed.
(** A reader at the place of its bytes in the file. *)
Lemma read_at_segment {A} (m : rd A) b a pre post pos :
  F = pre ++ b ++ post → pos = len pre → decodes m b a → m F pos = Ok (a, pos + len b).
Proof using. intros -> -> H. apply H. Qed.

Lemma header_length x : signature x = SIGNATURE → len (header_bytes x) = 172.
Proof using. intros Hx. unfold header_bytes. rewrite Hx. reflexivity. Qed.

Lemma link_header_wf : sizes_ok → header_wf h.
Proof using All.
  unfold sizes_ok. intros Hs. assert (0 ≤ R) by apply len_nonneg. assert (0 ≤ I) by apply len_nonneg.
  pose proof len_mods. assert (0 ≤ N) by apply len_nonneg.
  pose proof (Z.mod_pos_bound (- (64 + (257 + 8 * tp + 4 * (tp + 1) + R + I))) 16 ltac:(lia)).
  unfold header_wf, h, link_header. fold N. rewrite as_u_small by lia.
  cbn -[u8 u16 u32 Z.add Z.mul Z.opp Z.modulo].
  split; [done|]. unfold u8, u16, u32, STACK_SIZE in *. repeat split; lia.
Qed.

(** The segments of the file up to each table. *)
Let P1 := mz_stub ++ header_bytes h.
Let P2 := P1 ++ concat (map object_bytes (link_objects cs ds cp dp)).
Let P3 := P2 ++ pages_bytes (full_pages 0 (Z.to_nat tp)).
Let P4 := P3 ++ resident_name_bytes.
Let P5 := P4 ++ entry_table_bytes.
Let T := concat (map le32 (starts_from 0 written_pages ++ [R])).
Let P6 := P5 ++ T.
Let P7 := P6 ++ all_records written_pages.
Let P8 := P7 ++ import_module_bytes (imported (modules w)).

Lemma length_pages : length written_pages = Z.to_nat tp.
Proof using HC HD Hcp Hdp Hcf Hdf.
  unfold written_pages, tp, len in *. rewrite !length_app, length_replicate. lia.
Qed.
Lemma segment_lengths :
  len P1 = 236 ∧ len P2 = 308 ∧ len P3 = 308 + 8 * tp ∧ len P4 = 319 + 8 * tp ∧
  len P5 = 321 + 8 * tp ∧ len P6 = 321 + 8 * tp + 4 * (tp + 1) ∧
  len P7 = 321 + 8 * tp + 4 * (tp + 1) + R ∧ len P8 = 321 + 8 * tp + 4 * (tp + 1) + R + I.
Proof using HC HD Hcp Hdp Hcf Hdf.
  assert (len P1 = 236) as H1.
  { unfold P1. rewrite len_app, header_length by done. reflexivity. }
  assert (len P2 = 308) as H2.
  { unfold P2. rewrite len_app, H1, (len_concat_const _ 24) by done. reflexivity. }
  assert (len P3 = 308 + 8 * tp) as H3.
  { unfold P3. rewrite len_app, H2, len_pages_bytes. unfold tp. lia. }
  assert (len T = 4 * (tp + 1)) as HT.
  { unfold T. rewrite (len_concat_const _ 4) by (intros; apply len_le_bytes). rewrite len_app.
    unfold len at 1. rewrite length_starts_from, length_pages. change (len [R]) with 1. unfold tp. lia. }
  unfold P8, P7, P6, P5, P4. rewrite !len_app, H3, HT. change (len resident_name_bytes) with 11.
  change (len entry_table_bytes) with 2. fold I R. repeat split; try done; lia.
Qed.

Ltac in_file pre :=
  eapply (read_at_segment _ _ _ pre);
  [ unfold F, link_file, P8, P7, P6, T, P5, P4, P3, P2, P1; rewrite <- ?(assoc_L (++));
    reflexivity | | ].

Lemma read_header_step : sizes_ok → tp ≤ 65536 → read_lx_header F 0 = Ok ((64, h), 236).
Proof using All.
  intros Hs Htp. unfold read_lx_header. unfold mbind at 1, rd_bind.
  assert (read_exact 64 F 0 = Ok (mz_stub, 0 + len mz_stub)) as ->.
  { in_file (@nil Z); [done|by apply decodes_read_exact]. }
  change (negb (bool_decide (slice mz_stub 0 2 = str "MZ"))) with false. cbn iota.
  change (le_val (slice mz_stub 60 4)) with 64. cbv zeta. unfold mbind at 1, rd_bind, read_header.
  unfold mbind at 1, rd_bind, seek.
  assert (read_fields F 64 = Ok (h, 64 + len (header_bytes h))) as ->.
  { in_file mz_stub; [done|]. by apply read_fields_decodes, link_header_wf. }
  rewrite header_length by done. unfold mbind, rd_bind, lift.
  rewrite (proj2 (validate_Ok h)); [done|].
  unfold MAX_OBJECTS, MAX_PAGES, h, link_header. cbn. lia.
Qed.
Lemma read_objects_step pos : sizes_ok →
  read_object_table 64 h F pos = Ok (link_objects cs ds cp dp, 308).
Proof using All.
  intros Hs. unfold sizes_ok in Hs. unfold read_object_table, mbind, rd_bind, seek.
  assert (0 ≤ R) by apply len_nonneg. assert (0 ≤ I) by apply len_nonneg.
  replace 308 with (64 + object_table_offset h + len (concat (map object_bytes (link_objects cs ds cp dp))))
    by (by rewrite (len_concat_const _ 24) by done).
  in_file P1; [by destruct segment_lengths as [-> _]|].
  apply (decodes_read_n read_object object_bytes (link_objects cs ds cp dp)).
  eapply Forall_impl; [apply link_objects_wf; try done; unfold tp in *; lia|].
  exact read_object_decodes.
Qed.
Lemma read_pages_step pos : sizes_ok → tp ≤ 65536 →
  read_page_map 64 h F pos = Ok (full_pages 0 (Z.to_nat tp), 308 + 8 * tp).
Proof using All.
  intros Hs Htp. unfold read_page_map, mbind, rd_bind, seek.
  replace (308 + 8 * tp) with (64 + object_page_map_offset h + len (pages_bytes (full_pages 0 (Z.to_nat tp))))
    by (rewrite len_pages_bytes; unfold tp, h, link_header; cbn -[Z.add Z.mul]; lia).
  in_file P2; [by destruct segment_lengths as (_ & -> & _)|].
  replace (Z.to_nat (module_num_pages h)) with (length (full_pages 0 (Z.to_nat tp)))
    by (unfold full_pages; by rewrite length_map, length_seq).
  apply (decodes_read_n read_page page_bytes (full_pages 0 (Z.to_nat tp))). unfold full_pages. apply Forall_map, Forall_forall.
  intros i Hi%elem_of_seq. apply read_page_decodes. unfold page_wf, u16, u32.
  cbn -[Z.add Z.mul Z.of_nat]. lia.
Qed.
Lemma read_table_step pos : sizes_ok →
  read_fixup_page_table 64 h F pos =
    Ok (starts_from 0 written_pages ++ [R], 321 + 8 * tp + 4 * (tp + 1)).
Proof using All.
  intros Hs. pose proof segment_lengths as (_ & _ & _ & _ & H5 & H6 & _).
  assert (0 ≤ R) by apply len_nonneg. assert (0 ≤ I) by apply len_nonneg. unfold sizes_ok in Hs.
  unfold read_fixup_page_table, mbind, rd_bind, seek, lift.
  change (module_num_pages h) with tp. rewrite uadd_ok by lia.
  replace (321 + 8 * tp + 4 * (tp + 1)) with (64 + fixup_page_table_offset h + len T)
    by (unfold P6 in H6; rewrite len_app in H6; unfold h, link_header; cbn -[Z.add Z.mul]; lia).
  in_file P5; [rewrite H5; unfold h, link_header; cbn -[Z.add Z.mul]; lia|].
  replace (Z.to_nat (tp + 1)) with (length (starts_from 0 written_pages ++ [R])).
  2: { rewrite length_app, length_starts_from, length_pages. cbn [length]. lia. }
  apply (decodes_read_n read_u32 le32 (starts_from 0 written_pages ++ [R])). apply Forall_app. split.
  - eapply Forall_impl; [apply starts_u32; fold R; lia|]. intros x Hx. by apply decodes_u32.
  - constructor; [|done]. apply decodes_u32. unfold u32. lia.
Qed.
Lemma read_records_step pos :
  ∃ p, read_fixup_records 64 h (starts_from 0 written_pages ++ [R]) F pos =
    Ok (map (map record_of) written_pages, p).
Proof using All.
  pose proof segment_lengths as (_ & _ & _ & _ & _ & H6 & _). unfold read_fixup_records.
  replace (64 + fixup_record_table_offset h) with (len P6)
    by (rewrite H6; unfold h, link_header; cbn -[Z.add Z.mul]; lia).
  change (module_num_pages h) with tp. rewrite <- length_pages.
  replace F with (P6 ++ all_records written_pages ++ import_module_bytes (imported (modules w)) ++
    replicate (Z.to_nat pad) 0 ++ C ++ D ++ replicate (Z.to_nat STACK_SIZE) 0).
  - by apply (read_fixup_pages_written written_pages P6 _ Hwf []).
  - unfold F, link_file, P6, T, P5, P4, P3, P2, P1. by rewrite <- ?(assoc_L (++)).
Qed.
Lemma read_modules_step pos : sizes_ok →
  read_imported_modules 64 h F pos =
    Ok (imported (modules w), 321 + 8 * tp + 4 * (tp + 1) + R + I).
Proof using All.
  intros Hs. unfold sizes_ok in Hs. pose proof segment_lengths as (_ & _ & _ & _ & _ & _ & H7 & H8).
  assert (0 ≤ R) by apply len_nonneg. assert (0 ≤ N) by apply len_nonneg. pose proof len_mods.
  unfold read_imported_modules, mbind, rd_bind, seek.
  replace (321 + 8 * tp + 4 * (tp + 1) + R + I) with
    (64 + imported_modules_name_table_offset h + len (import_module_bytes (imported (modules w))))
    by (unfold P8 in H8; rewrite len_app in H8; unfold h, link_header; cbn -[Z.add Z.mul]; lia).
  in_file P7; [rewrite H7; unfold h, link_header; cbn -[Z.add Z.mul]; lia|].
  unfold h, link_header. cbn [imported_modules_count]. fold N. rewrite as_u_small by lia.
  unfold N, len at 1. rewrite Nat2Z.id. unfold import_module_bytes. rewrite flat_map_concat_map.
  apply (decodes_read_n read_pstring (λ m, le_bytes 1 (len (as_bytes m)) ++ as_bytes m)).
  eapply Forall_impl; [exact Hmods|]. intros m [Hc Hl]. unfold read_pstring.
  eapply decodes_bind; [apply decodes_u8; pose proof (len_nonneg (as_bytes m)); unfold u8; lia|].
  pose proof (decodes_bind_ret (read_exact (len (as_bytes m))) from_utf8_lossy _ _
    (decodes_read_exact (len (as_bytes m)) (as_bytes m) eq_refl)) as Hd.
  by rewrite lossy_as_bytes in Hd.
Qed.
Lemma read_tail_step pos : sizes_ok →
  ∃ p, read_import_procedure_names 64 h F pos = Ok ([], p).
Proof using All.
  intros Hs. unfold sizes_ok in Hs. assert (0 ≤ R) by apply len_nonneg. assert (0 ≤ I) by apply len_nonneg.
  unfold read_import_procedure_names, h, link_header.
  cbn -[Z.add Z.mul Z.ltb saturating_sub]. unfold saturating_sub. zbool.
  unfold mbind, rd_bind, seek. zbool. by eexists.
Qed.
Lemma read_exports_step pos : sizes_ok → ∃ p, read_exports 64 h F pos = Ok ([], p).
Proof using All.
  intros Hs. unfold sizes_ok in Hs. pose proof segment_lengths as (_ & _ & _ & H4 & _).
  unfold read_exports, with_fuel. change (entry_table_offset h) with (255 + 8 * tp). zbool.
  unfold mbind at 1, rd_bind, seek. cbn [read_bundles]. unfold mbind at 1, rd_bind, try_read.
  assert (read_exact 1 F (64 + (255 + 8 * tp)) = Ok ([0], 64 + (255 + 8 * tp) + len [0])) as ->.
  { eapply (read_at_segment (read_exact 1) [0] [0] P4 (0 :: drop 2 (entry_table_bytes ++ T ++
      all_records written_pages ++ import_module_bytes (imported (modules w)) ++
      replicate (Z.to_nat pad) 0 ++ C ++ D ++ replicate (Z.to_nat STACK_SIZE) 0)));
      [|rewrite H4; lia|by apply decodes_read_exact].
    unfold F, link_file, T, P4, P3, P2, P1, entry_table_bytes. by rewrite <- ?(assoc_L (++)). }
  change (le_val [0] =? 0) with true. by eexists.
Qed.

(** The file parses to what was written. *)
Lemma parse_link_file : sizes_ok → tp ≤ 65536 →
  parse F = Ok (mk_lx h (link_objects cs ds cp dp) (full_pages 0 (Z.to_nat tp))
    (starts_from 0 written_pages ++ [R]) (map (map record_of) written_pages) []
    (imported (modules w)) [] [] []).
Proof using All.
  intros Hs Htp. unfold parse. assert (∃ p, parse_lx F 0 = Ok (mk_lx h (link_objects cs ds cp dp)
    (full_pages 0 (Z.to_nat tp)) (starts_from 0 written_pages ++ [R]) (map (map record_of) written_pages) []
    (imported (modules w)) [] [] [], p)) as [p ->]; [|done].
  unfold parse_lx. unfold mbind at 1, rd_bind. rewrite read_header_step by done.
  unfold mbind at 1, rd_bind. rewrite read_objects_step by done.
  unfold mbind at 1, rd_bind. rewrite read_pages_step by done.
  unfold mbind at 1, rd_bind, read_resources. change (resource_count h) with 0.
  change (MAX_RESOURCES <? 0) with false. change (0 <? 0) with false. cbn [andb]. cbn iota. unfold mret at 1, rd_ret.
  unfold mbind at 1, rd_bind. rewrite read_table_step by done.
  unfold mbind at 1, rd_bind. destruct (read_records_step (321 + 8 * tp + 4 * (tp + 1))) as [p1 ->].
  unfold mbind at 1, rd_bind. rewrite read_modules_step by done.
  unfold mbind at 1, rd_bind. edestruct read_tail_step as [p2 Hp2]; [done|]. rewrite Hp2.
  unfold mbind at 1, rd_bind. edestruct read_exports_step as [p3 Hp3]; [done|]. rewrite Hp3.
  unfold mbind at 1, rd_bind, read_nonresident_names. change (non_resident_name_table_offset h) with 0.
  change (0 <? 0) with false. cbn [andb]. cbn iota. by eexists.
Qed.
(** The pages lie where the header says. *)
Lemma page_of_link_file i :
  pad = (- (64 + (257 + 8 * tp + 4 * (tp + 1) + R + I))) mod 16 → 0 ≤ i →
  slice F (data_pages_offset h + 4096 * i) 4096 =
  slice (C ++ D ++ replicate (Z.to_nat STACK_SIZE) 0) (4096 * i) 4096.
Proof using HC HD Hcp Hdp Hcf Hdf.
  intros Hpad Hi. pose proof segment_lengths as (_ & _ & _ & _ & _ & _ & _ & H8).
  replace F with ((P8 ++ replicate (Z.to_nat pad) 0) ++ C ++ D ++ replicate (Z.to_nat STACK_SIZE) 0)
    by (unfold F, link_file, P8, P7, P6, T, P5, P4, P3, P2, P1; by rewrite <- ?(assoc_L (++))).
  assert (0 ≤ pad) by (rewrite Hpad; by apply Z.mod_pos_bound).
  replace (data_pages_offset h) with (len (P8 ++ replicate (Z.to_nat pad) 0)).
  - apply slice_app_r. lia.
  - rewrite len_app, H8, len_replicate, Z2Nat.id by done. unfold h, link_header.
    cbn [data_pages_offset]. lia.
Qed.
End assemble.

(** * What the layout and the relocation establish *)

(** The module names of the .def file fit a length byte, the ordinals are u32. *)
Definition def_ok (dm : gmap rstring (rstring * Z)) : Prop :=
  ∀ n m o, dm !! n = Some (m, o) → Forall is_char m ∧ len (as_bytes m) < 256 ∧ u32 o.
(** Relocation offsets are u64 values. *)
Definition objects_ok (objects : list ElfObject) : Prop :=
  Forall (λ o, Forall (λ s, Forall (λ r, 0 ≤ offset r) (relocs s)) (sections o)) objects.

Definition merged_ok (base : Z) (m : MergedSection) : Prop :=
  va m = base ∧ u32 (bss_size m) ∧ Forall (λ e, u32 (merged_offset e)) (input_map m).
Definition state_ok (st : LinkerState) : Prop :=
  merged_ok CODE_OBJECT_BASE (code_section st) ∧ bss_size (code_section st) = 0 ∧
  merged_ok DATA_OBJECT_BASE (data_section st) ∧
  (∀ n v, symbol_table st !! n = Some v → u32 v) ∧ u32 (entry_va st).

Lemma elem_of_enumerate {A} (l : list A) i x : (i, x) ∈ enumerate l → x ∈ l.
Proof. unfold enumerate. intros H%elem_of_zip_r. done. Qed.
Lemma elem_of_sections objects oi si sec :
  (oi, si, sec) ∈ all_sections objects → ∃ o, o ∈ objects ∧ sec ∈ sections o.
Proof.
  unfold all_sections. rewrite list_elem_of_In, in_flat_map. intros ([i o] & Ho & Hs).
  apply list_elem_of_In, elem_of_enumerate in Ho. apply list_elem_of_In, list_elem_of_fmap in Hs as ([j s] & Heq & Hs).
  injection Heq as -> -> ->. exists o. split; [done|]. by eapply elem_of_enumerate.
Qed.

Section invariants.
Context {B : Build}.

Lemma append_section_ok base m oi si sec m' :
  merged_ok base m → append_section m oi si sec = Ok m' →
  merged_ok base m' ∧ bss_size m' = bss_size m.
Proof.
  intros (Hva & Hb & Hi) (al & _ & [= <-])%bind_Ok_inv. split; [|done].
  split_and!; cbn; [done|done|]. apply Forall_app. split; [done|]. constructor; [|done].
  by apply as_u_range.
Qed.
Lemma align_up_nonneg v a x : 0 ≤ v → align_up v a = Ok x → 0 ≤ x.
Proof.
  unfold align_up, align_to. intros Hv. destruct (Z.leb_spec a 1); [by intros [= <-]|].
  intros (s & Hs & (t & Ht & (b & Hb & [= <-])%bind_Ok_inv)%bind_Ok_inv)%bind_Ok_inv.
  apply uadd_range in Hs; [|lia..]. apply usub_range in Ht; [|lia..]. apply Z.land_nonneg. lia.
Qed.
Lemma append_bss_ok base m sec m' :
  merged_ok base m → append_bss m sec = Ok m' → merged_ok base m'.
Proof.
  intros (Hva & Hb & Hi) H. unfold u32 in *. unfold append_bss in H.
  apply bind_Ok_inv in H as (cur & Hc & H). apply bind_Ok_inv in H as (pd & Hp & H).
  apply bind_Ok_inv in H as (gap & Hg & H). apply bind_Ok_inv in H as (gap' & Hg' & H).
  apply bind_Ok_inv in H as (b & Hb' & H). injection H as <-.
  pose proof (as_u_range M32 (len (merged_data m)) ltac:(lia)).
  pose proof (as_u_range M32 (len (LxLink.data sec)) ltac:(lia)).
  apply uadd_range in Hc; [|lia..].
  assert (0 ≤ gap).
  { unfold usub, overflowing in Hg. destruct (Z.leb_spec cur pd); [injection Hg; lia|].
    destruct overflow_checks; [done|]. injection Hg as <-. apply Z.mod_pos_bound. lia. }
  apply uadd_range in Hg'; [|lia..]. apply uadd_range in Hb'; [|lia..]. done.
Qed.
Lemma find_entry_u32 l oi si off :
  Forall (λ e, u32 (merged_offset e)) l → find_entry l oi si = Some off → u32 off.
Proof.
  induction 1 as [|e l He _ IH]; [done|]. cbn [find_entry]. destruct (_ && _); [by intros [= <-]|done].
Qed.
Lemma find_merged_va_u32 base m oi si v :
  merged_ok base m → 0 ≤ base → find_merged_va m oi si = Ok (Some v) → u32 v.
Proof.
  intros (Hva & _ & Hi) Hb. unfold find_merged_va. destruct (find_entry _ _ _) as [off|] eqn:Hf; [|done].
  intros (x & Hx & [= ->])%bind_Ok_inv. apply find_entry_u32 in Hf; [|done]. unfold u32 in *.
  rewrite Hva in Hx. by apply uadd_range in Hx; [|lia..].
Qed.

Lemma build_ok objects st : build objects = Ok st → state_ok st.
Proof.
  intros (c & Hc & (d & Hd & (t & Ht & [= <-])%bind_Ok_inv)%bind_Ok_inv)%bind_Ok_inv.
  assert (merged_ok CODE_OBJECT_BASE c ∧ bss_size c = 0) as [Hcok Hc0].
  { revert Hc. unfold merge_code. apply (for_in_inv (λ c, merged_ok CODE_OBJECT_BASE c ∧ bss_size c = 0)); [done|]. intros [[oi si] sec] m m' _ [Hm H0].
    destruct (sec_kind sec); try (intros [= <-]; done). intros Ha. apply (append_section_ok _ _ _ _ _ _ Hm) in Ha.
    destruct Ha as [? ->]. done. }
  assert (merged_ok DATA_OBJECT_BASE d) as Hdok.
  { revert Hd. unfold merge_data. apply (for_in_inv (merged_ok DATA_OBJECT_BASE)); [done|]. intros [[oi si] sec] m m' _ Hm.
    destruct (sec_kind sec); try (intros [= <-]; done);
      [intros Ha; by apply (append_section_ok _ _ _ _ _ _ Hm) in Ha as [? _]..|].
    by apply append_bss_ok. }
  assert (∀ n v, t !! n = Some v → u32 v) as Htok.
  { revert Ht. unfold merge_symbols. apply (for_in_inv (λ t : gmap rstring Z, ∀ n v, t !! n = Some v → u32 v)); [done|]. intros [oi obj] t1 t2 _ H1.
    apply (for_in_inv (λ t, ∀ n v, t !! n = Some v → u32 v)); [done|]. intros sym t3 t4 _ H3. destruct (section_idx sym) as [si|]; [|by intros [= <-]].
    intros (sec & _ & (b & Hb & H4)%bind_Ok_inv)%bind_Ok_inv. destruct b as [base|]; [|by injection H4 as <-].
    apply bind_Ok_inv in H4 as (v & Hv & H4). injection H4 as <-. intros n x.
    assert (u32 base) as Hbase.
    { case_bool_decide; (eapply find_merged_va_u32; [| |exact Hb]); try done. }
    pose proof (as_u_range M32 (sym_offset sym) ltac:(lia)). unfold u32 in *.
    apply uadd_range in Hv; [|lia..]. destruct (decide (sym_name sym = n)) as [->|].
    - rewrite lookup_insert_eq. intros [= <-]. done.
    - rewrite lookup_insert_ne by done. apply H3. }
  do 4 (split; [done|]). cbn [entry_va]. destruct (t !! str "_start") as [v|] eqn:H1; [by eapply Htok|].
  destruct (t !! str "main") as [v|] eqn:H2; [by eapply Htok|]. done.
Qed.

Context (objects : list ElfObject) (st : LinkerState) (dm : gmap rstring (rstring * Z)).
Context (Hst : state_ok st) (Hdm : def_ok dm) (Hobj : objects_ok objects).

Definition modules_ok (ms : Modules) : Prop :=
  Forall (λ m, Forall is_char m ∧ len (as_bytes m) < 256) (imported ms) ∧
  (∀ n i, module_map ms !! n = Some i → u8 i).
Definition target_ok (t : LxLink.FixupTarget) : Prop :=
  match t with
  | LxLink.Internal n o => u8 n ∧ u32 o
  | LxLink.ExternalOrdinal i o => u8 i ∧ u32 o
  end.
Record work_ok (cp dp : Z) (w : Work) : Prop := {
  wo_modules : modules_ok (modules w);
  wo_code : Forall (Forall lx_fixup_wf) (code_fixups w);
  wo_data : Forall (Forall lx_fixup_wf) (data_fixups w);
  wo_ncode : len (code_fixups w) = cp;
  wo_ndata : len (data_fixups w) = dp;
  wo_patches : Forall (λ p, 0 ≤ p.1) (code_patches w ++ data_patches w ++ code_patches_i32 w);
}.

Lemma va_to_lx_object_ok v n o : u32 v → va_to_lx_object v = Ok (n, o) → u8 n ∧ u32 o.
Proof using.
  unfold va_to_lx_object, u32, u8, DATA_OBJECT_BASE, CODE_OBJECT_BASE. intros Hv.
  destruct (_ <=? _); intros (x & Hx & [= <- <-])%bind_Ok_inv; apply usub_range in Hx; lia.
Qed.
Lemma get_or_insert_ok (n : rstring) ms i ms' :
  Forall is_char n → len (as_bytes n) < 256 → modules_ok ms →
  get_or_insert_module n ms = (i, ms') → u8 i ∧ modules_ok ms'.
Proof using.
  intros Hc Hl [Hi Hm]. unfold get_or_insert_module. destruct (module_map ms !! n) as [j|] eqn:Hj.
  { intros [= <- <-]. split; [by eapply Hm|done]. }
  intros [= <- <-]. pose proof (as_u_range M8 (len (imported ms ++ [n])) ltac:(lia)).
  split; [done|]. split; cbn.
  - apply Forall_app. split; [done|]. by constructor.
  - intros n' i'. destruct (decide (n = n')) as [->|]; [rewrite lookup_insert_eq; by intros [= <-]|].
    rewrite lookup_insert_ne by done. apply Hm.
Qed.
Lemma find_section_va_u32 n v : find_section_va objects st n = Ok (Some v) → u32 v.
Proof using Hst.
  destruct Hst as (Hc & _ & Hd & _). unfold find_section_va.
  destruct (list_find _ _) as [[i [[oi si] sec]]|]; [|done].
  intros (c & Hcv & H)%bind_Ok_inv. destruct c as [x|].
  - injection H as ->. by eapply (find_merged_va_u32 CODE_OBJECT_BASE).
  - by eapply (find_merged_va_u32 DATA_OBJECT_BASE).
Qed.
Lemma resolve_reloc_ok r ms v ft ms' :
  modules_ok ms → resolve_reloc r dm st objects ms = Ok (v, ft, ms') →
  modules_ok ms' ∧ match ft with Some t => target_ok t | None => True end.
Proof using Hst Hdm.
  intros Hms. unfold resolve_reloc. destruct (target r) as [n|n].
  - destruct (symbol_table st !! n) as [x|] eqn:Hx.
    { intros ([k o] & Ho & [= <- <- <-])%bind_Ok_inv. split; [done|]. cbn.
      eapply va_to_lx_object_ok; [|done]. destruct Hst as (_ & _ & _ & Ht & _). by eapply Ht. }
    destruct (dm !! n) as [[m o]|] eqn:Hn; [|by intros [= <- <- <-]].
    intros (x & _ & H)%bind_Ok_inv. destruct (get_or_insert_module m ms) as [i ms1] eqn:Hg.
    injection H as <- <- <-. destruct (Hdm _ _ _ Hn) as (Hc & Hl & Ho).
    apply get_or_insert_ok in Hg as [? ?]; done.
  - intros (x & Hx & H)%bind_Ok_inv. destruct x as [b|]; [|by injection H as <- <- <-].
    apply bind_Ok_inv in H as ([k o] & Ho & H). injection H as <- <- <-. split; [done|].
    eapply va_to_lx_object_ok; [|done]. by eapply find_section_va_u32.
Qed.

Lemma add_fixup_ok i fx l :
  lx_fixup_wf fx → Forall (Forall lx_fixup_wf) l →
  Forall (Forall lx_fixup_wf) (add_fixup i fx l) ∧ len (add_fixup i fx l) = len l.
Proof using.
  intros Hf Hl. unfold add_fixup. destruct (_ <? _); [|done]. unfold len. rewrite length_alter. split; [|done].
  apply Forall_alter; [done|]. intros x _ Hx. apply Forall_app. split; [done|]. by constructor.
Qed.
Lemma push_patch_ok cp dp b p w : 0 ≤ p.1 → work_ok cp dp w → work_ok cp dp (push_patch b p w).
Proof using.
  intros Hp []. destruct b; constructor; cbn; try done; rewrite ?Forall_app in *; naive_solver.
Qed.
Lemma push_patch_rel_ok cp dp b p w : 0 ≤ p.1 → work_ok cp dp w → work_ok cp dp (push_patch_rel b p w).
Proof using.
  intros Hp Hw. destruct b; [|by apply push_patch_ok]. destruct Hw.
  constructor; cbn; try done; rewrite ?Forall_app in *; naive_solver.
Qed.
Lemma push_fixup_ok cp dp b i fx w : lx_fixup_wf fx → work_ok cp dp w → work_ok cp dp (push_fixup b i fx w).
Proof using.
  intros Hf [H1 H2 H3 H4 H5 H6]. destruct (add_fixup_ok i fx _ Hf H2), (add_fixup_ok i fx _ Hf H3).
  destruct b; constructor; cbn; done || congruence.
Qed.

Lemma relocate_one_ok cp dp b base buf r w w' :
  0 ≤ buf → 0 ≤ offset r → work_ok cp dp w →
  relocate_one dm st objects b base buf r w = Ok w' → work_ok cp dp w'.
Proof using Hst Hdm.
  intros Hbuf Hoff Hw H. unfold relocate_one in H. apply bind_Ok_inv in H as (sv & Hsv & H).
  apply bind_Ok_inv in H as (bo & Hbo & H). apply bind_Ok_inv in H as ([[tv ft] ms] & Hr & H).
  apply uadd_range in Hbo; [|lia..]. apply resolve_reloc_ok in Hr as [Hms Hft]; [|apply Hw].
  assert (work_ok cp dp (with_modules w ms)) as Hw1 by (destruct Hw; by constructor).
  destruct (tv =? 0); [by injection H as <-|]. destruct (kind r); [| |by injection H as <-].
  - destruct ft as [ft|]; [|injection H as <-; by apply push_patch_ok; [cbn; lia|]].
    apply bind_Ok_inv in H as (rel & Hrel & H). injection H as <-.
    apply push_fixup_ok; [|by apply push_patch_ok; [cbn; lia|]].
    unfold lx_fixup_wf. cbn. split; [done|]. split; [by apply as_u_range|]. done.
  - apply bind_Ok_inv in H as (d & Hd & H). injection H as <-. by apply push_patch_rel_ok; [cbn; lia|].
Qed.
Lemma relocate_ok cp dp w :
  0 ≤ cp → 0 ≤ dp → relocate objects st dm cp dp = Ok w → work_ok cp dp w.
Proof using Hst Hdm Hobj.
  intros Hcp Hdp. unfold relocate. apply for_in_inv.
  { assert (∀ n, Forall (Forall lx_fixup_wf) (replicate n [])) as Hrep by (intros; apply Forall_replicate; constructor).
    constructor; cbn; try done; try (rewrite len_replicate; lia). }
  intros [[oi si] sec] w1 w2 Hin Hw. destruct (elem_of_sections _ _ _ _ Hin) as (o & Ho & Hs).
  unfold objects_ok in Hobj. rewrite Forall_forall in Hobj. specialize (Hobj o Ho).
  rewrite Forall_forall in Hobj. specialize (Hobj sec Hs). rewrite Forall_forall in Hobj.
  unfold relocate_section. set (b := bool_decide (sec_kind sec = Text)).
  intros (bv & Hbv & H)%bind_Ok_inv. destruct bv as [base|]; [|by injection H as <-].
  apply bind_Ok_inv in H as (buf & Hbuf & H).
  assert (u32 base) as Hbase.
  { destruct Hst as (Hc & _ & Hd & _). destruct b;
      [by eapply (find_merged_va_u32 CODE_OBJECT_BASE)|by eapply (find_merged_va_u32 DATA_OBJECT_BASE)]. }
  unfold u32 in Hbase. apply usub_range in Hbuf; [|lia|lia|by destruct b].
  revert H. apply for_in_inv; [done|]. intros r w3 w4 Hr Hw3. apply relocate_one_ok; [lia|by apply Hobj|done].
Qed.
End invariants.

Section lengths.
Context {B : Build}.

Lemma len_splice buf off b : 0 ≤ off → off + len b ≤ len buf → len (splice buf off b) = len buf.
Proof.
  intros Ho Hl. unfold splice, len in *. rewrite !length_app, length_take, length_drop. lia.
Qed.
Lemma apply_patches_len ps buf buf' :
  Forall (λ p, 0 ≤ p.1) ps → apply_patches buf ps = Ok buf' → len buf' = len buf.
Proof.
  intros Hp. unfold apply_patches. rewrite Forall_forall in Hp.
  apply (for_in_inv (λ b, len b = len buf)); [done|]. intros [off v] b b' Hin Hl.
  intros (e & He & H)%bind_Ok_inv. specialize (Hp _ Hin). cbn in Hp.
  destruct (Z.leb_spec e (len b)); [|by injection H as <-].
  destruct (Z.leb_spec off e); [|done]. injection H as <-.
  unfold uadd, overflowing in He. destruct (Z.ltb_spec (off + 4) M64).
  - injection He as <-. rewrite len_splice; [done|lia|]. unfold len in *; cbn [length]; lia.
  - destruct overflow_checks; [done|]. injection He as <-. exfalso.
    assert (off < M64 ∨ M64 ≤ off) as [Ho|Ho] by lia.
    + assert ((off + 4) mod M64 = off + 4 - M64); [|lia].
      symmetry. apply (Z.mod_unique _ _ 1); lia.
    + pose proof (Z.mod_pos_bound (off + 4) M64 ltac:(lia)). lia.
Qed.
Lemma len_pad d : len (pad_to_page d) = (len d + 4095) / 4096 * 4096.
Proof.
  unfold pad_to_page, PAGE_SIZE. pose proof (len_nonneg d).
  pose proof (Z.div_mod (len d) 4096 ltac:(lia)) as H1. pose proof (Z.mod_pos_bound (len d) 4096 ltac:(lia)).
  destruct (Z.eqb_spec (len d mod 4096) 0) as [Hz|Hz].
  - replace ((len d + 4095) / 4096) with (len d / 4096); [lia|].
    apply (Z.div_unique _ _ _ 4095); lia.
  - replace ((len d + 4095) / 4096) with (len d / 4096 + 1).
    + unfold resize, len in *. rewrite length_app, length_take, length_replicate. lia.
    + apply (Z.div_unique _ _ _ (len d mod 4096 - 1)); lia.
Qed.
Lemma take_pad d : take (length d) (pad_to_page d) = d.
Proof.
  unfold pad_to_page, PAGE_SIZE. destruct (_ =? 0); [by apply take_ge|].
  unfold resize. pose proof (Z.mod_pos_bound (len d) 4096 ltac:(lia)).
  rewrite take_app_le by (rewrite length_take; unfold len in *; lia).
  rewrite take_take, take_ge; [done|]. unfold len in *. lia.
Qed.
End lengths.

(** The file of [write_lx] for the data and work [relocate] arrives at. *)
Record Linked {B : Build} (objects : list ElfObject) (dm : gmap rstring (rstring * Z))
    (st : LinkerState) (w : Work) (cp dp : Z) (C D : bytes) : Prop := {
  lk_pages : page_count (as_u M32 (len (merged_data (code_section st)))) 0 = Ok cp ∧
             page_count (as_u M32 (len (merged_data (data_section st)))) (bss_size (data_section st)) = Ok dp;
  lk_work : relocate objects st dm cp dp = Ok w;
  lk_code : (c ← apply_patches (merged_data (code_section st)) (code_patches w);
             apply_patches c (code_patches_i32 w)) = Ok C;
  lk_data : apply_patches (merged_data (data_section st)) (data_patches w) = Ok D;
}.

Section roundtrip.
Context {B : Build}.

Lemma fixup_section_records pages : (fixup_section pages).2 = all_records pages.
Proof.
  unfold fixup_section.
  enough (∀ t r, (foldl (λ '(table, records) page, (table ++ [as_u M32 (len records)],
      records ++ concat (map encode_fixup page))) (t, r) pages).2 = r ++ all_records pages) as H by apply H.
  induction pages as [|p ps IH]; intros t r; cbn [foldl]; [by rewrite app_nil_r|].
  rewrite IH. unfold all_records. cbn [map concat]. by rewrite <- (assoc_L (++)).
Qed.
(** The file holds at least its data, records and names. *)
Lemma assemble_len e st C D cp dp sp w out :
  assemble e st C D cp dp sp w = Ok out →
  len C + len D + len (all_records (code_fixups w ++ data_fixups w ++ replicate (Z.to_nat sp) [])) +
    len (import_module_bytes (imported (modules w))) + len (replicate (Z.to_nat (sp * PAGE_SIZE)) 0) ≤ len out.
Proof.
  unfold assemble. rewrite <- fixup_section_records. destruct (fixup_section _) as [t recs]. cbn [snd].
  intros H. repeat (apply bind_Ok_inv in H as (? & _ & H); try match goal with x : prod _ _ |- _ => destruct x end).
  apply (f_equal (λ r, match r with Ok x => len x | _ => 0 end)) in H. cbv beta iota in H.
  rewrite <- H, !len_app.
  repeat match goal with |- context [len ?l] => lazymatch goal with
    | _ : 0 ≤ len l |- _ => fail | _ => pose proof (len_nonneg l) end end. lia.
Qed.

Definition no_spill (st : LinkerState) : Prop :=
  bss_size (data_section st) ≤ (- len (merged_data (data_section st))) mod 4096.

Lemma write_lx_inv objects st dm out :
  bss_size (code_section st) = 0 → write_lx objects st dm = Ok out →
  ∃ w cp dp C D e, Linked objects dm st w cp dp C D ∧
    usub (E:=()) M32 (entry_va st) CODE_OBJECT_BASE = Ok e ∧
    assemble e st (pad_to_page C) (pad_to_page D) cp dp 16 w = Ok out.
Proof.
  intros H0 (e & He & H)%bind_Ok_inv. rewrite H0 in H.
  apply bind_Ok_inv in H as (cp & Hcp & H). apply bind_Ok_inv in H as (dp & Hdp & H).
  apply bind_Ok_inv in H as (w & Hw & H). apply bind_Ok_inv in H as (c1 & Hc1 & H).
  apply bind_Ok_inv in H as (D & HD & H). apply bind_Ok_inv in H as (C & HC & H).
  exists w, cp, dp, C, D, e. split; [|done]. constructor; try done. by rewrite Hc1.
Qed.
Lemma page_count_spec l b n :
  0 ≤ l → 0 ≤ b → l + b < M32 → page_count l b = Ok n → n = (l + b + 4095) / 4096.
Proof.
  intros ???. unfold page_count, PAGE_SIZE. rewrite uadd_ok by lia. intros [= <-]. f_equal. lia.
Qed.

(** The pages of a linked file are the pages of its data. *)
Lemma linked_pages objects dm st w cp dp C D :
  state_ok st → def_ok dm → objects_ok objects → no_spill st →
  Linked objects dm st w cp dp C D → len (pad_to_page C) + len (pad_to_page D) < M32 →
  work_ok cp dp w ∧ len (pad_to_page C) = cp * 4096 ∧ len (pad_to_page D) = dp * 4096 ∧
  0 ≤ cp ∧ 0 ≤ dp.
Proof.
  intros Hst Hdm Hobj Hsp [[Hcp Hdp] Hw HC HD] Hb. rewrite !len_pad in *.
  pose proof (len_nonneg (merged_data (code_section st))). pose proof (len_nonneg (merged_data (data_section st))).
  assert (0 ≤ cp ∧ 0 ≤ dp) as [Hcp0 Hdp0].
  { assert (∀ l b n, 0 ≤ l → 0 ≤ b → page_count l b = Ok n → 0 ≤ n) as Hn.
    { intros l b n ?? (s & Hs & [= <-])%bind_Ok_inv. apply uadd_range in Hs; [|lia..].
      unfold PAGE_SIZE. apply Z.div_pos; lia. }
    destruct Hst as (_ & _ & (_ & Hbd & _) & _). unfold u32 in Hbd.
    split; [eapply Hn; [| |exact Hcp]|eapply Hn; [| |exact Hdp]]; try lia; by apply as_u_range. }
  pose proof (relocate_ok objects st dm Hst Hdm Hobj cp dp w Hcp0 Hdp0 Hw) as Hwork.
  destruct Hwork as [Hm Hcf Hdf Hnc Hnd Hps]. rewrite !Forall_app in Hps. destruct Hps as (Hp1 & Hp2 & Hp3).
  apply bind_Ok_inv in HC as (c1 & Hc1 & HC). apply apply_patches_len in Hc1; [|done].
  apply apply_patches_len in HC; [|done]. apply apply_patches_len in HD; [|done].
  rewrite HC, Hc1, HD in *. destruct Hst as (_ & _ & (_ & Hbd & _) & _). unfold u32 in Hbd. unfold no_spill in Hsp.
  set (lc := len (merged_data (code_section st))) in *. set (ld := len (merged_data (data_section st))) in *.
  set (bd := bss_size (data_section st)) in *.
  pose proof (Z.div_mod (lc + 4095) 4096 ltac:(lia)). pose proof (Z.mod_pos_bound (lc + 4095) 4096 ltac:(lia)).
  pose proof (Z.div_mod (ld + 4095) 4096 ltac:(lia)). pose proof (Z.mod_pos_bound (ld + 4095) 4096 ltac:(lia)).
  pose proof (Z.div_mod (- ld) 4096 ltac:(lia)). pose proof (Z.mod_pos_bound (- ld) 4096 ltac:(lia)).
  assert (0 ≤ (lc + 4095) / 4096) by (apply Z.div_pos; lia). assert (0 ≤ (ld + 4095) / 4096) by (apply Z.div_pos; lia).
  rewrite as_u_small in Hcp by lia. rewrite as_u_small in Hdp by lia.
  apply page_count_spec in Hcp; [|lia..]. apply page_count_spec in Hdp; [|lia..].
  split; [by constructor; rewrite ?Forall_app|]. rewrite Z.add_0_r in Hcp.
  assert ((ld + bd + 4095) / 4096 = (ld + 4095) / 4096); [|lia].
  symmetry. apply (Z.div_unique _ _ _ ((ld + bd + 4095) - 4096 * ((ld + 4095) / 4096))); lia.
Qed.
End roundtrip.

(** C15: the linker's file is the parser's module.  Whatever objects it lays out, if the BSS
    stays within the last data page and the file is below 256 MiB, the file [write_lx] makes
    parses: to the entry point and stack of the link, to a code, a data and a stack object of
    the linked sizes and bases, to whole pages that hold the patched code, the patched data
    and a zero stack in this order, to exactly the fixups collected for each page, and to the
    modules imported. *)
Theorem lx_roundtrip {B : Build} objects st dm out :
  build objects = Ok st → no_spill st → def_ok dm → objects_ok objects →
  write_lx objects st dm = Ok out → len out ≤ 2 ^ 28 →
  ∃ w cp dp C D f, Linked objects dm st w cp dp C D ∧ LxFile.parse out = Ok f ∧
    (eip_object (header f) = 1 ∧ eip (header f) = (entry_va st - CODE_OBJECT_BASE) mod M32 ∧
     esp_object (header f) = 3 ∧ esp (header f) = STACK_SIZE) ∧
    object_table f = link_objects (cp * 4096) (dp * 4096 + bss_size (data_section st)) cp dp ∧
    page_map f = full_pages 0 (Z.to_nat (cp + dp + 16)) ∧
    (∀ i, 0 ≤ i → slice out (data_pages_offset (header f) + 4096 * i) 4096 =
       slice (pad_to_page C ++ pad_to_page D ++ replicate (Z.to_nat STACK_SIZE) 0) (4096 * i) 4096) ∧
    fixup_records_by_page f =
      map (map record_of) (code_fixups w ++ data_fixups w ++ replicate 16 []) ∧
    imported_modules f = imported (modules w) ∧ exports f = [].
Proof.
  intros Hb Hsp Hdm Hobj Hw Hlen. apply build_ok in Hb as Hst. pose proof Hst as (_ & Hc0 & (_ & Hbd & _) & _ & He).
  apply write_lx_inv in Hw as (w & cp & dp & C & D & e & Hl & Hentry & Ha); [|done].
  pose proof (assemble_len _ _ _ _ _ _ _ _ _ Ha) as Hal. rewrite len_replicate in Hal.
  pose proof (len_nonneg (pad_to_page C)). pose proof (len_nonneg (pad_to_page D)).
  pose proof (len_nonneg (import_module_bytes (imported (modules w)))).
  change (replicate (Z.to_nat 16) []) with (replicate 16 (@nil LxFixup)) in Hal.
  change (Z.of_nat (Z.to_nat (16 * PAGE_SIZE))) with 65536 in Hal.
  pose proof (len_nonneg (all_records (code_fixups w ++ data_fixups w ++ replicate 16 []))).
  destruct (linked_pages objects dm st w cp dp C D Hst Hdm Hobj Hsp Hl) as (Hwork & HC & HD & Hcp & Hdp); [lia|].
  destruct Hwork as [[Hm _] Hcf Hdf Hnc Hnd _]. unfold u32 in Hbd, He. unfold no_spill in Hsp.
  pose proof (Z.mod_pos_bound (- len (merged_data (data_section st))) 4096 ltac:(lia)).
  assert (Forall (Forall lx_fixup_wf) (written_pages w)) as Hwf.
  { unfold written_pages. rewrite !Forall_app. split_and!; [done|done|]. apply Forall_replicate. constructor. }
  assert (sizes_ok (pad_to_page C) (pad_to_page D) w) as Hs by (unfold sizes_ok, written_pages; lia).
  rewrite (assemble_Ok e st _ _ w cp dp HC HD Hcp Hdp Hnc Hnd Hwf Hs) in Ha by lia.
  injection Ha as <-. exists w, cp, dp, C, D. eexists.
  assert (e = (entry_va st - CODE_OBJECT_BASE) mod M32) as He'.
  { unfold usub, overflowing, CODE_OBJECT_BASE in *. destruct (Z.leb_spec 0x10000 (entry_va st)).
    - injection Hentry as <-. symmetry. apply Z.mod_small. lia.
    - destruct overflow_checks; [done|]. by injection Hentry as <-. }
  split; [done|]. rewrite HC, HD, Hc0, Z.add_0_r.
  split; [apply parse_link_file; try done|].
  - unfold u32. lia.
  - unfold u32. lia.
  - rewrite He'. by apply Z.mod_pos_bound.
  - lia.
  - cbn [header object_table page_map fixup_records_by_page imported_modules exports].
    do 3 (split; [done|]). split; [|done]. intros i Hi. by apply page_of_link_file.
Qed.

(** Two objects: code that calls an import and a function of the other object, data with a
    pointer, and a little BSS. *)
Definition demo_objects : list ElfObject :=
  [mk_object
     [mk_section (str ".text") Text (replicate 9 0x90) 16
        [mk_reloc 1 Absolute 0 (Symbol (str "DosExit")); mk_reloc 5 Relative (-4) (Symbol (str "helper"))];
      mk_section (str ".data") Data [1; 2; 3; 4; 5] 4 [mk_reloc 0 Absolute 2 (Section_ (str ".text"))]]
     [mk_symbol (str "_start") (Some 0) 0];
   mk_object
     [mk_section (str ".text") Text (replicate 3 0xC3) 16 [];
      mk_section (str ".bss") UninitializedData (replicate 100 0) 32 []]
     [mk_symbol (str "helper") (Some 0) 0]].
Definition demo_def : gmap rstring (rstring * Z) :=
  parse_def (λ c, [upper_char c]) (str "# api" ++ [0x0A] ++ str "DosCalls.234  DosExit" ++ [0x0A]).
Definition demo_state : LinkerState :=
  match build (B:=dev_profile) demo_objects with
  | Ok st => st | _ => mk_state (mk_merged [] 0 0 []) (mk_merged [] 0 0 []) ∅ 0 end.
Definition demo_out : bytes :=
  match write_lx (B:=dev_profile) demo_objects demo_state demo_def with Ok o => o | _ => [] end.
Example demo_symbols :
  symbol_table demo_state !! str "helper" = Some 0x10010 ∧ bss_size (data_section demo_state) = 127.
Proof. by vm_compute. Qed.
Lemma demo_def_ok : def_ok demo_def.
Proof.
  assert (demo_def = {[ str "DosExit" := (str "DOSCALLS", 234) ]}) as -> by (by vm_compute).
  intros n m o [<- [= <- <-]]%lookup_singleton_Some.
  split; [|by split]. apply (bool_decide_unpack _). by vm_compute.
Qed.

Lemma demo_written : write_lx (B:=dev_profile) demo_objects demo_state demo_def = Ok demo_out.
Proof.
  assert (match write_lx (B:=dev_profile) demo_objects demo_state demo_def with Ok _ => true | _ => false end = true)
    as H by (vm_compute; reflexivity).
  unfold demo_out. by destruct (write_lx _ _ _).
Qed.
Lemma demo_small : len demo_out ≤ 2 ^ 28.
Proof. apply Z.leb_le. vm_compute. reflexivity. Qed.

Lemma lx_roundtrip_witness :
  ∃ w cp dp C D f, Linked (B:=dev_profile) demo_objects demo_def demo_state w cp dp C D ∧
    LxFile.parse (B:=dev_profile) demo_out = Ok f ∧
    imported_modules f = imported (modules w) ∧ exports f = [].
Proof.
  edestruct (lx_roundtrip (B:=dev_profile) demo_objects demo_state demo_def demo_out)
    as (w & cp & dp & C & D & f & H1 & H2 & _ & _ & _ & _ & _ & H3 & H4).
  - vm_compute. reflexivity.
  - vm_compute. discriminate.
  - apply demo_def_ok.
  - unfold objects_ok. repeat constructor; vm_compute; discriminate.
  - apply demo_written.
  - apply demo_small.
  - exists w, cp, dp, C, D, f. exact (conj H1 (conj H2 (conj H3 H4))).
Defined.
