(* ===== verification/LxLinkLoad.v ===== *)
(** The linker against the loader, and its layout: the loader resolves every fixup of a
    linked file to the address the linker patched in, and every section's bytes lie,
    aligned and apart from the others, at the address the linker gave it. *)
From S2P Require Import Prelude Bytes Text LxHeader LxFile GuestMem Constants Managers ApiRegistry Descriptors LxLoader LxLink LxLinkFile.

(** * Sums modulo 2^32 *)

Section arith.
Context {B : Build} {E : Type}.

Lemma overflowing_mod m (b : bool) x y :
  0 < m → overflowing (E:=E) m b x = Ok y → y mod m = x mod m.
Proof.
  unfold overflowing. intros Hm. destruct b; [by intros [= <-]|]. destruct overflow_checks; [done|].
  intros [= <-]. apply Z.mod_mod. lia.
Qed.
Lemma uadd_mod m a b c : 0 < m → uadd (E:=E) m a b = Ok c → c mod m = (a + b) mod m.
Proof. intros Hm. by apply overflowing_mod. Qed.
Lemma usub_mod m a b c : 0 < m → usub (E:=E) m a b = Ok c → c mod m = (a - b) mod m.
Proof. intros Hm. by apply overflowing_mod. Qed.
Lemma mod_64_32 x y : x mod M64 = y mod M64 → x mod M32 = y mod M32.
Proof.
  intros H. rewrite <- (Z.mod_mod_divide x M64 M32), H by (exists M32; done).
  by rewrite Z.mod_mod_divide by (exists M32; done).
Qed.
End arith.

(** * The layout *)

(** An invariant of a loop that knows what has been done. *)
Lemma for_in_prefix {E A S} (P : list A → S → Prop) l (body : A → S → outcome E S) s s' :
  P [] s →
  (∀ done a rest s s', l = done ++ a :: rest → P done s → body a s = Ok s' → P (done ++ [a]) s') →
  for_in l body s = Ok s' → P l s'.
Proof.
  intros H0 Hb. enough (∀ rest done s, l = done ++ rest → P done s → for_in rest body s = Ok s' → P l s')
    as H by exact (H l [] s eq_refl H0).
  clear H0 s. induction rest as [|a rest IH]; intros done_ s Hl Hs; cbn [for_in].
  { intros [= <-]. by rewrite Hl, app_nil_r. }
  intros (s1 & H1 & H2)%bind_Ok_inv. eapply (IH (done_ ++ [a])); [|by eapply Hb|exact H2].
  by rewrite <- (assoc_L (++)).
Qed.

Section layout.
Context {B : Build}.

(** The alignment is a power of two up to 64 KiB; sections, with their padding, take up less
    than 2 GiB. *)
Definition align_ok (sec : ElfSection) : Prop := ∃ k, 0 ≤ k ≤ 16 ∧ align sec = 2 ^ k.
Definition room (l : list (Z * Z * ElfSection)) : Z :=
  foldr (λ '(_, _, sec) n, len (data sec) + align sec + n) 0 l.
Definition layout_fits (objects : list ElfObject) : Prop :=
  Forall (λ '(_, _, sec), align_ok sec) (all_sections objects) ∧ room (all_sections objects) < 2 ^ 31.

(** The entry [e] of the merged section gives the place of [sec]. *)
Definition placed (m : MergedSection) (s : Z * Z * ElfSection) (e : InputEntry) : Prop :=
  let '(oi, si, sec) := s in
  obj_idx e = oi ∧ sec_idx e = si ∧ 0 ≤ merged_offset e ∧
  merged_offset e mod align sec = 0 ∧ merged_offset e + len (data sec) ≤ len (merged_data m) ∧
  slice (merged_data m) (merged_offset e) (len (data sec)) = data sec.
(** One section ends before the other starts. *)
Definition before (x y : (Z * Z * ElfSection) * InputEntry) : Prop :=
  merged_offset x.2 + len (data x.1.2) ≤ merged_offset y.2.
Record laid_out (done : list (Z * Z * ElfSection)) (m : MergedSection) : Prop := {
  lo_placed : Forall2 (placed m) done (input_map m);
  lo_apart : StronglySorted before (zip done (input_map m));
}.

Lemma align_up_ok v sec : align_ok sec → 0 ≤ v < 2 ^ 31 →
  ∃ x, align_up v (as_u M32 (align sec)) = Ok x ∧ v ≤ x < v + align sec ∧ x mod align sec = 0.
Proof.
  intros (k & Hk & Ha) Hv. rewrite Ha. pose proof (Z.pow_le_mono_r 2 k 16 ltac:(lia) ltac:(lia)) as Hp.
  change (2 ^ 16) with 65536 in Hp. pose proof (Z.pow_pos_nonneg 2 k ltac:(lia) ltac:(lia)) as Hp0.
  rewrite as_u_small by lia. unfold align_up. destruct (Z.leb_spec (2 ^ k) 1).
  - exists v. split; [done|]. replace (2 ^ k) with 1 by lia. split; [lia|apply Z.mod_1_r].
  - rewrite align_to_pow2 by lia. eexists. split; [done|].
    pose proof (Z.mod_pos_bound (- v) (2 ^ k) ltac:(lia)). split; [lia|].
    rewrite Z.add_mod_idemp_r by lia. by rewrite Z.add_opp_diag_r, Z.mod_0_l by lia.
Qed.
Lemma placed_app m s e d bss va l :
  placed m s e → placed (mk_merged (merged_data m ++ d) bss va l) s e.
Proof.
  destruct s as [[oi si] sec]. intros (H1 & H2 & H3 & H4 & H5 & H6). unfold placed. cbn.
  rewrite len_app. pose proof (len_nonneg d). split_and!; try done; try lia.
  rewrite slice_app_l by lia. done.
Qed.
Lemma room_app l1 l2 : room (l1 ++ l2) = room l1 + room l2.
Proof. unfold room. induction l1 as [|[[oi si] sec] l1 IH]; cbn [app foldr]; [lia|]. rewrite IH. lia. Qed.
Lemma room_nonneg l : Forall (λ '(_, _, sec), align_ok sec) l → 0 ≤ room l.
Proof.
  induction 1 as [|[[oi si] sec] l (k & Hk & Ha) _ IH]; [done|].
  change (room ((oi, si, sec) :: l)) with (len (data sec) + align sec + room l). rewrite Ha.
  pose proof (len_nonneg (data sec)). pose proof (Z.pow_pos_nonneg 2 k ltac:(lia) ltac:(lia)). lia.
Qed.

(** One more section. *)
Lemma append_placed done_ m oi si sec m' :
  align_ok sec → len (merged_data m) + len (data sec) + align sec < 2 ^ 31 → laid_out done_ m →
  append_section m oi si sec = Ok m' →
  laid_out (done_ ++ [(oi, si, sec)]) m' ∧ len (merged_data m') ≤ len (merged_data m) + len (data sec) + align sec.
Proof.
  intros Hal Hb [Hpl Hap] H. unfold append_section in H. pose proof (len_nonneg (merged_data m)).
  pose proof (len_nonneg (data sec)).
  assert (0 < align sec) by (destruct Hal as (k & ? & ->); apply Z.pow_pos_nonneg; lia).
  rewrite (as_u_small M32 (len (merged_data m))) in H by lia.
  destruct (align_up_ok (len (merged_data m)) sec Hal ltac:(lia)) as (x & Hx & Hxr & Hxm).
  rewrite Hx in H. cbn [mbind outcome_bind] in H. injection H as <-.
  assert (resize (merged_data m) x = merged_data m ++ replicate (Z.to_nat x - length (merged_data m)) 0) as Hr.
  { unfold resize. rewrite take_ge by (unfold len in *; lia). done. }
  assert (len (resize (merged_data m) x) = x) as Hlr.
  { rewrite Hr, len_app, len_replicate. unfold len in *. lia. }
  rewrite Hlr, (as_u_small M32 x) by lia. split; [|cbn; rewrite len_app, Hlr; lia].
  assert (Forall2 (placed m) done_ (input_map m)) as Hpl0 by done.
  split; cbn.
  - apply Forall2_app; [|constructor; [|constructor]].
    + eapply Forall2_impl; [exact Hpl|]. intros s e Hse. rewrite Hr, <- (assoc_L (++)). by apply placed_app.
    + unfold placed. cbn. rewrite len_app, Hlr. split_and!; try done; try lia.
      pose proof (slice_app_r (resize (merged_data m) x) (data sec) 0 (len (data sec)) ltac:(lia)) as Hs.
      rewrite Z.add_0_r, Hlr in Hs. rewrite Hs. unfold slice. cbn. unfold len. rewrite Nat2Z.id.
      by apply take_ge.
  - apply Forall2_length in Hpl as Hlen. rewrite zip_with_app by done.
    apply StronglySorted_app_2; [|done|repeat constructor].
    intros [[[oi' si'] sec'] e'] y Hin ->%list_elem_of_singleton. unfold before. cbn.
    apply elem_of_lookup_zip_with in Hin as (i & s' & e'' & Hpair & Hs1 & He1).
    injection Hpair as <- <-.
    destruct (Forall2_lookup_lr _ _ _ _ _ _ Hpl0 Hs1 He1) as (_ & _ & _ & _ & Hend & _). lia.
Qed.

Definition is_code (s : Z * Z * ElfSection) : Prop := sec_kind s.2 = Text.
Definition is_data (s : Z * Z * ElfSection) : Prop :=
  sec_kind s.2 = Data ∨ sec_kind s.2 = ReadOnlyData ∨ sec_kind s.2 = ReadOnlyString.
#[export] Instance is_code_dec s : Decision (is_code s).
Proof. unfold is_code. apply _. Defined.
#[export] Instance is_data_dec s : Decision (is_data s).
Proof. unfold is_data. apply _. Defined.

Lemma laid_out_start base : laid_out [] (mk_merged [] 0 base []).
Proof. split; cbn; constructor. Qed.
Lemma append_bss_same m sec m' : append_bss m sec = Ok m' →
  merged_data m' = merged_data m ∧ ∀ done, laid_out done m → laid_out done m'.
Proof.
  intros H. unfold append_bss in H. repeat (apply bind_Ok_inv in H as (? & _ & H)). injection H as <-.
  split; [done|]. intros done_ [H1 H2]. split; [|done].
  eapply Forall2_impl; [exact H1|]. by intros [[oi si] s] e.
Qed.

Lemma merge_laid_out (P : Z * Z * ElfSection → Prop) `{!∀ s, Decision (P s)} objects m0 m
    (body : Z * Z * ElfSection → MergedSection → outcome () MergedSection) :
  layout_fits objects → laid_out [] m0 → merged_data m0 = [] →
  (∀ s m m', P s → body s m = Ok m' → append_section m s.1.1 s.1.2 s.2 = Ok m') →
  (∀ s m m', ¬ P s → body s m = Ok m' →
     merged_data m' = merged_data m ∧ ∀ done, laid_out done m → laid_out done m') →
  for_in (all_sections objects) body m0 = Ok m → laid_out (filter P (all_sections objects)) m.
Proof.
  intros [Hal Hroom] H0 Hd HP HnP Hm.
  enough (len (merged_data m) ≤ room (all_sections objects) ∧
    laid_out (filter P (all_sections objects)) m) by naive_solver.
  revert Hm. apply (for_in_prefix (λ done m, len (merged_data m) ≤ room done ∧ laid_out (filter P done) m)).
  { rewrite Hd. split; [done|]. exact H0. }
  intros done_ [[oi si] sec] rest m1 m2 Hl [Hr Hlo] Hb. rewrite Hl in Hal, Hroom.
  apply Forall_app in Hal as [Hal1 Hal2]. apply Forall_cons in Hal2 as [Hsec Hrest].
  pose proof (room_nonneg _ Hrest). rewrite room_app in Hroom |- *.
  change (room ((oi, si, sec) :: rest)) with (len (data sec) + align sec + room rest) in Hroom.
  change (room [(oi, si, sec)]) with (len (data sec) + align sec + 0). rewrite filter_app.
  destruct (decide (P (oi, si, sec))) as [Hp|Hp].
  - apply (HP _ _ _ Hp) in Hb. cbn in Hb. apply (append_placed (filter P done_)) in Hb as [Hb1 Hb2]; [|done|lia|done].
    rewrite filter_cons_True by done. split; [lia|done].
  - destruct (HnP _ _ _ Hp Hb) as [Heq Hlo']. rewrite filter_cons_False by done. cbn. rewrite app_nil_r.
    rewrite Heq. pose proof (len_nonneg (data sec)).
    assert (0 < align sec) by (destruct Hsec as (k & ? & ->); apply Z.pow_pos_nonneg; lia).
    split; [lia|by apply Hlo'].
Qed.
End layout.

(** Sections are laid out.  The merged code holds every text section of every object, the
    merged data every data section, in order: each at a multiple of its alignment, complete,
    and ending before the next one starts; the entry of the table that the linker looks its
    address up in is where its bytes are.  For sections that take up less than 2 GiB with
    their padding and alignments that are powers of two. *)
Theorem sections_laid_out {B : Build} objects st :
  layout_fits objects → build objects = Ok st →
  laid_out (filter is_code (all_sections objects)) (code_section st) ∧
  laid_out (filter is_data (all_sections objects)) (data_section st).
Proof.
  intros Hf (c & Hc & (d & Hd & (t & _ & [= <-])%bind_Ok_inv)%bind_Ok_inv)%bind_Ok_inv.
  split; cbn [code_section data_section].
  - eapply (merge_laid_out is_code); [done| | | | |exact Hc]; [apply laid_out_start|done|..];
      intros [[oi si] sec] m m'; unfold is_code; cbn [fst snd].
    + by intros ->.
    + destruct (sec_kind sec); try done; by intros _ [= <-].
  - eapply (merge_laid_out is_data); [done| | | | |exact Hd]; [apply laid_out_start|done|..];
      intros [[oi si] sec] m m'; unfold is_data; cbn [fst snd].
    + by intros [-> |[-> | ->]].
    + destruct (sec_kind sec); try (intros H; exfalso; by eauto); try by intros _ [= <-].
      intros _. apply append_bss_same.
Qed.
Lemma sections_laid_out_witness :
  laid_out (filter is_code (all_sections demo_objects)) (code_section demo_state) ∧
  laid_out (filter is_data (all_sections demo_objects)) (data_section demo_state).
Proof.
  apply (sections_laid_out (B:=dev_profile) demo_objects demo_state).
  - split; [|by vm_compute]. cbn.
    repeat (apply Forall_cons; split; [first [by exists 4 | by exists 2 | by exists 5]|]). constructor.
  - vm_compute. reflexivity.
Defined.

(** * What a relocation denotes *)

Lemma elem_of_enumerate_lookup {A} (l : list A) i x :
  (i, x) ∈ enumerate l ↔ 0 ≤ i ∧ l !! Z.to_nat i = Some x.
Proof.
  unfold enumerate. rewrite list_elem_of_lookup. split.
  - intros [j H]. apply lookup_zip_with_Some in H as (k & y & [= -> ->] & Hk & Hy).
    apply lookup_seqZ in Hk as [-> Hk]. split; [lia|]. by replace (Z.to_nat (0 + Z.of_nat j)) with j by lia.
  - intros [Hi Hx]. exists (Z.to_nat i). apply lookup_zip_with_Some. exists i, x. split; [done|]. split; [|done].
    apply lookup_lt_Some in Hx as Hlt. apply lookup_seqZ. unfold len. lia.
Qed.
Lemma elem_of_all_sections objects oi si sec :
  (oi, si, sec) ∈ all_sections objects ↔
  ∃ o, (oi, o) ∈ enumerate objects ∧ (si, sec) ∈ enumerate (sections o).
Proof.
  unfold all_sections. rewrite list_elem_of_In, in_flat_map. split.
  - intros ([i o] & Ho & Hs). apply list_elem_of_In in Ho.
    apply list_elem_of_In, list_elem_of_fmap in Hs as ([j s] & [= -> -> ->] & Hs). by exists o.
  - intros (o & Ho & Hs). exists (oi, o). split; [by apply list_elem_of_In|]. apply list_elem_of_In, list_elem_of_fmap.
    by exists (si, sec).
Qed.
Lemma all_sections_unique objects oi si sec sec' :
  (oi, si, sec) ∈ all_sections objects → (oi, si, sec') ∈ all_sections objects → sec = sec'.
Proof.
  intros (o & Ho & Hs)%elem_of_all_sections (o' & Ho' & Hs')%elem_of_all_sections.
  apply elem_of_enumerate_lookup in Ho as [_ Ho], Ho' as [_ Ho'], Hs as [_ Hs], Hs' as [_ Hs']. congruence.
Qed.

(** The modules both sides know. *)
Definition LINKER_MODULES : list rstring :=
  map str ["DOSCALLS"; "QUECALLS"; "PMWIN"; "PMGPI"; "KBDCALLS"; "VIOCALLS"; "SESMGR"; "NLS";
           "MSG"; "MDM"; "UCONV"].
Definition def_known (dm : gmap rstring (rstring * Z)) : Prop :=
  ∀ n m o, dm !! n = Some (m, o) → m ∈ LINKER_MODULES.

Section denote.
Context {B : Build} (objects : list ElfObject) (st : LinkerState).
Context (dm : gmap rstring (rstring * Z)) (d : DllManager).

Definition section_code (s : Z * Z * ElfSection) : bool := bool_decide (sec_kind s.2 = Text).
Definition merged_of (s : Z * Z * ElfSection) : MergedSection :=
  if section_code s then code_section st else data_section st.
(** The bytes of the section are in the image, at address [v]. *)
Definition section_at (s : Z * Z * ElfSection) (v : Z) : Prop :=
  s ∈ all_sections objects ∧ ∃ e, e ∈ input_map (merged_of s) ∧ placed (merged_of s) s e ∧
    v = (obj_base (section_code s) + merged_offset e) mod M32.
(** The symbol is at [v] in a section that is in the image. *)
Definition defines (o : Z * ElfObject) (sym : ElfSymbol) (v : Z) : Prop :=
  ∃ si sec base, section_idx sym = Some si ∧ section_at (o.1, si, sec) base ∧
    v = (base + sym_offset sym) mod M32.
Definition symbol_at (n : rstring) (v : Z) : Prop :=
  ∃ o sym, o ∈ enumerate objects ∧ sym ∈ symbols o.2 ∧ sym_name sym = n ∧ defines o sym v.
(** What the target of a relocation stands for: the place of a symbol, an API the loader
    provides, or the place of the first section of that name. *)
Definition denotes (t : RelocTarget) (v : Z) : Prop :=
  match t with
  | Symbol n =>
    symbol_at n v ∨
    (∀ v', ¬ symbol_at n v') ∧
    ∃ m o, dm !! n = Some (m, o) ∧ v = as_u M32 (Descriptors.resolve_import d m o)
  | Section_ n =>
    ∃ l1 s l2, all_sections objects = l1 ++ s :: l2 ∧ Forall (λ s', name s'.2 ≠ n) l1 ∧
      name s.2 = n ∧ section_at s v
  end.

Context (Hfit : layout_fits objects) (Hbuild : build objects = Ok st).

Lemma find_entry_Some l oi si off :
  find_entry l oi si = Some off →
  ∃ e, e ∈ l ∧ obj_idx e = oi ∧ sec_idx e = si ∧ merged_offset e = off.
Proof using.
  induction l as [|e l IH]; [done|]. cbn [find_entry].
  destruct (Z.eqb_spec (obj_idx e) oi), (Z.eqb_spec (sec_idx e) si); cbn [andb];
    [intros [= <-]; exists e; split; [by left|done]|..];
    intros (e' & ? & ?)%IH; exists e'; (split; [by right|done]).
Qed.
Lemma find_entry_None l oi si e :
  find_entry l oi si = None → e ∈ l → obj_idx e = oi → sec_idx e = si → False.
Proof using.
  intros Hn Hin H1 H2. induction l as [|e' l IH]; [by apply elem_of_nil in Hin|]. cbn [find_entry] in Hn.
  apply elem_of_cons in Hin as [<-|Hin].
  - rewrite H1, H2, !Z.eqb_refl in Hn. done.
  - destruct (_ && _); [done|]. by apply IH.
Qed.
(** What the table of a merged section answers for a section of the objects. *)
Lemma find_merged_spec (P : Z * Z * ElfSection → Prop) (HP : ∀ s, Decision (P s)) m base s r :
  Forall2 (placed m) (filter P (all_sections objects)) (input_map m) → va m = base →
  s ∈ all_sections objects → find_merged_va m s.1.1 s.1.2 = Ok r →
  match r with
  | Some v => P s ∧ ∃ e, e ∈ input_map m ∧ placed m s e ∧ v mod M32 = (base + merged_offset e) mod M32
  | None => ∀ e, e ∈ input_map m → ¬ placed m s e
  end.
Proof using.
  destruct s as [[oi si] sec]. cbn [fst snd]. intros Hpl Hva Hs Hm. unfold find_merged_va in Hm.
  destruct (find_entry (input_map m) oi si) as [off|] eqn:Hf.
  - apply bind_Ok_inv in Hm as (v & Hv & [= <-]). apply find_entry_Some in Hf as (e & He & H1 & H2 & H3).
    apply list_elem_of_lookup in He as [i Hi]. destruct (Forall2_lookup_r _ _ _ _ _ Hpl Hi) as (s' & Hs' & Hp).
    apply list_elem_of_lookup_2, list_elem_of_filter in Hs' as [HPs Hin]. destruct s' as [[oi' si'] sec'].
    destruct Hp as (H4 & H5 & Hp). assert (oi' = oi) as -> by congruence. assert (si' = si) as -> by congruence.
    rewrite (all_sections_unique objects oi si sec sec') by done. split; [done|].
    exists e. split; [by eapply list_elem_of_lookup_2|]. split; [done|]. rewrite H3, <- Hva. by apply uadd_mod in Hv.
  - injection Hm as <-. intros e He (H1 & H2 & _). by eapply find_entry_None.
Qed.

(** The place the linker finds for a section, with its kind. *)
Lemma found_at s r :
  s ∈ all_sections objects → find_merged_va (merged_of s) s.1.1 s.1.2 = Ok r →
  match r with Some v => u32 v ∧ section_at s v | None => ∀ v, ¬ section_at s v end.
Proof using Hbuild Hfit.
  intros Hs H. destruct (sections_laid_out objects st Hfit Hbuild) as [[Hc _] [Hd _]].
  destruct (build_ok _ _ Hbuild) as (Hcok & _ & Hdok & _).
  assert (∀ v, r = Some v → u32 v) as Hu.
  { intros v ->. unfold merged_of in H. destruct (section_code s);
      [by eapply (find_merged_va_u32 CODE_OBJECT_BASE)|by eapply (find_merged_va_u32 DATA_OBJECT_BASE)]. }
  assert (∃ (P : Z * Z * ElfSection → Prop) (HP : ∀ s, Decision (P s)),
    Forall2 (placed (merged_of s)) (filter P (all_sections objects)) (input_map (merged_of s)) ∧
    va (merged_of s) = obj_base (section_code s)) as (P & HP & Hpl & Hva).
  { unfold merged_of. destruct (section_code s); [exists is_code|exists is_data]; eexists; (split; [done|]);
      [apply Hcok|apply Hdok]. }
  apply (find_merged_spec P HP _ _ s r Hpl Hva Hs) in H. destruct r as [v|].
  - destruct H as (_ & e & He & Hp & Hv). specialize (Hu v eq_refl). split; [done|]. split; [done|].
    exists e. split; [done|]. split; [done|]. rewrite <- Hv. symmetry. by apply Z.mod_small.
  - intros v (_ & e & He & Hp & _). by apply (H e).
Qed.
(** A section found in the code is code, one found in the data is not. *)
Lemma found_kind (in_code : bool) s v :
  s ∈ all_sections objects →
  find_merged_va (if in_code then code_section st else data_section st) s.1.1 s.1.2 = Ok (Some v) →
  section_code s = in_code.
Proof using Hbuild Hfit.
  intros Hs H. destruct (sections_laid_out objects st Hfit Hbuild) as [[Hc _] [Hd _]].
  destruct (build_ok _ _ Hbuild) as ((Hcva & _) & _ & (Hdva & _) & _). destruct in_code.
  - apply (find_merged_spec is_code _ _ _ s _ Hc Hcva Hs) in H as [H _]. by apply bool_decide_eq_true.
  - apply (find_merged_spec is_data _ _ _ s _ Hd Hdva Hs) in H as [H _]. apply bool_decide_eq_false.
    destruct H as [-> | [-> | ->]]; done.
Qed.
(** One turn of the symbol loop. *)
Lemma symbol_step (o : Z * ElfObject) (sym : ElfSymbol) (t t' : gmap rstring Z) :
  o ∈ enumerate objects →
  match section_idx sym with
  | None => Ok t
  | Some si =>
    sec ← unwrap (idx (sections o.2) si);
    base_va ← find_merged_va
      (if bool_decide (sec_kind sec = Text) then code_section st else data_section st) o.1 si;
    match base_va with
    | None => Ok t
    | Some base => v ← uadd M32 base (as_u M32 (sym_offset sym)); Ok (<[sym_name sym := v]> t)
    end
  end = (Ok t' : outcome () (gmap rstring Z)) →
  (t' = t ∧ ∀ v, ¬ defines o sym v) ∨ ∃ v, defines o sym v ∧ t' = <[sym_name sym := v]> t.
Proof using Hbuild Hfit.
  intros Ho. destruct (section_idx sym) as [si|] eqn:Hsi.
  2: { intros [= <-]. left. split; [done|]. intros v (si & sec & base & ? & _). congruence. }
  intros (sec & Hsec & (r & Hr & H)%bind_Ok_inv)%bind_Ok_inv.
  assert ((o.1, si, sec) ∈ all_sections objects) as Hin.
  { apply elem_of_all_sections. exists o.2. split; [by destruct o|]. apply elem_of_enumerate_lookup.
    destruct (idx (sections o.2) si) as [sec'|] eqn:Hi; [|done]. injection Hsec as ->.
    apply idx_Some_range in Hi as Hrg. rewrite idx_lookup in Hi by lia. split; [lia|done]. }
  apply (found_at (o.1, si, sec)) in Hr; [|done]. destruct r as [base|].
  - destruct Hr as [Hu Hat]. apply bind_Ok_inv in H as (v & Hv & [= <-]). right. exists v. split; [|done].
    exists si, sec, base. do 2 (split; [done|]). pose proof (as_u_range M32 (sym_offset sym) ltac:(lia)).
    unfold u32 in Hu. apply uadd_range in Hv as Hvr; [|lia..]. apply uadd_mod in Hv; [|done].
    rewrite <- (Z.mod_small v M32), Hv by lia. unfold as_u. by apply Z.add_mod_idemp_r.
  - injection H as <-. left. split; [done|]. intros v (si' & sec' & base & Hsi' & Hat & _).
    assert (si' = si) as -> by congruence. assert (sec' = sec) as -> by (eapply all_sections_unique; [apply Hat|done]).
    by apply (Hr base).
Qed.
(** The symbol table holds exactly the symbols that are in the image. *)
Lemma symbol_table_spec n :
  match symbol_table st !! n with Some v => symbol_at n v | None => ∀ v, ¬ symbol_at n v end.
Proof using Hbuild Hfit.
  pose proof Hbuild as (c & Hc & (dd & Hd & (t & Ht & Hst)%bind_Ok_inv)%bind_Ok_inv)%bind_Ok_inv.
  injection Hst as Hst.
  assert (Hcode : c = code_section st) by (by rewrite <- Hst). assert (Hdata : dd = data_section st) by (by rewrite <- Hst).
  assert (Htab : t = symbol_table st) by (by rewrite <- Hst). rewrite Hcode, Hdata, Htab in Ht. clear Hc Hd Hst Hcode Hdata Htab.
  set (sound := λ t : gmap rstring Z, ∀ n v, t !! n = Some v → symbol_at n v).
  set (holds := λ (t : gmap rstring Z) (l : list (Z * ElfObject)), ∀ o sym v, o ∈ l → sym ∈ symbols o.2 → defines o sym v → is_Some (t !! sym_name sym)).
  enough (sound (symbol_table st) ∧ holds (symbol_table st) (enumerate objects)) as [H1 H2].
  { destruct (symbol_table st !! n) as [v|] eqn:Hn; [by apply H1|].
    intros v (o & sym & Ho & Hs & <- & Hdef). destruct (H2 o sym v Ho Hs Hdef). congruence. }
  revert Ht. unfold merge_symbols. apply (for_in_prefix (λ l t, sound t ∧ holds t l)).
  { split; [intros m v H; by rewrite lookup_empty in H|]. intros o sym v H. by apply elem_of_nil in H. }
  intros l [oi obj] rest t1 t2 Hl [Hs1 Hh1] Ht.
  assert ((oi, obj) ∈ enumerate objects) as Ho by (rewrite Hl; apply elem_of_app; right; by left).
  enough (sound t2 ∧ (holds t2 l ∧ ∀ sym v, sym ∈ symbols obj → defines (oi, obj) sym v → is_Some (t2 !! sym_name sym)))
    as (H1 & H2 & H3).
  { split; [done|]. intros o sym v [Hin| ->%list_elem_of_singleton]%elem_of_app; [by apply H2|]. by apply H3. }
  revert Ht. apply (for_in_prefix (λ syms t, sound t ∧ holds t l ∧
    ∀ sym v, sym ∈ syms → defines (oi, obj) sym v → is_Some (t !! sym_name sym))).
  { do 2 (split; [done|]). intros sym v H. by apply elem_of_nil in H. }
  intros syms sym rest' t3 t4 Hsyms (Hs3 & Hh3 & Hd3) Ht.
  assert (sym ∈ symbols obj) as Hsym by (rewrite Hsyms; apply elem_of_app; right; by left).
  apply (symbol_step (oi, obj)) in Ht as [[-> Hno]|(v & Hdef & ->)]; [| |done].
  - do 2 (split; [done|]). intros s v [Hin| ->%list_elem_of_singleton]%elem_of_app Hv; [by eapply Hd3|]. by apply Hno in Hv.
  - assert (∀ m, is_Some (t3 !! m) → is_Some (<[sym_name sym := v]> t3 !! m)) as Hmono
      by (intros m ?; apply lookup_insert_is_Some'; by right).
    split; [|split].
    + intros m x. destruct (decide (sym_name sym = m)) as [<-|].
      * rewrite lookup_insert_eq. intros [= <-]. by exists (oi, obj), sym.
      * rewrite lookup_insert_ne by done. apply Hs3.
    + intros o s x Hin Hs Hv. by eapply Hmono, Hh3.
    + intros s x [Hin| ->%list_elem_of_singleton]%elem_of_app Hv; [by eapply Hmono, Hd3|].
      rewrite lookup_insert_eq. by eexists.
Qed.

(** The first section of a name, and its place. *)
Lemma find_section_denotes n r :
  find_section_va objects st n = Ok r →
  match r with Some v => denotes (Section_ n) v | None => ∀ v, ¬ denotes (Section_ n) v end.
Proof using Hbuild Hfit.
  unfold find_section_va. destruct (list_find _ _) as [[i [[oi si] sec]]|] eqn:Hf.
  - apply list_find_Some in Hf as (Hi & Hn & Hbefore). apply list_elem_of_lookup_2 in Hi as Hin.
    assert (Forall (λ s', name s'.2 ≠ n) (take i (all_sections objects))) as Htake.
    { apply Forall_lookup. intros j [[oj sj] s'] Hj. apply lookup_take_Some in Hj as [Hj Hlt].
      by apply (Hbefore j _ Hj). }
    intros (x & Hx & H)%bind_Ok_inv.
    assert (match r with Some v => section_at (oi, si, sec) v | None => ∀ v, ¬ section_at (oi, si, sec) v end) as Hr.
    { assert (Hdata : data_va_for st oi si = Ok r → x = None → section_code (oi, si, sec) = true → r = None).
      { intros Hr _ Hk. destruct r as [v|]; [|done]. apply (found_kind false (oi, si, sec)) in Hr; congruence. }
      destruct (section_code (oi, si, sec)) eqn:Hk.
      - assert (find_merged_va (merged_of (oi, si, sec)) oi si = Ok x) as Hx' by (unfold merged_of; by rewrite Hk).
        apply (found_at (oi, si, sec)) in Hx'; [|done]. destruct x as [v|]; [injection H as <-; apply Hx'|].
        by rewrite (Hdata H eq_refl eq_refl).
      - destruct x as [v|]; [by apply (found_kind true (oi, si, sec)) in Hx; [congruence|]|].
        assert (find_merged_va (merged_of (oi, si, sec)) oi si = Ok r) as Hr by (unfold merged_of; by rewrite Hk).
        apply (found_at (oi, si, sec)) in Hr; [|done]. by destruct r; [apply Hr|]. }
    destruct r as [v|].
    + exists (take i (all_sections objects)), (oi, si, sec), (drop (S i) (all_sections objects)).
      split; [by symmetry; apply take_drop_middle|done].
    + intros v (l1 & s & l2 & Hl & Hall & Hns & Hat). apply (Hr v).
      enough (s = (oi, si, sec)) by congruence.
      assert (list_find (λ '(_, _, sec), name sec = n) (all_sections objects) = Some (length l1, s)) as Hf'.
      { apply list_find_Some. rewrite Hl. split; [by rewrite lookup_app_r, Nat.sub_diag by lia|].
        split; [by destruct s as [[? ?] ?]|]. intros j y Hj Hlt. rewrite lookup_app_l in Hj by done.
        rewrite Forall_lookup in Hall. specialize (Hall j y Hj). by destruct y as [[? ?] ?]. }
      assert (list_find (λ '(_, _, sec), name sec = n) (all_sections objects) = Some (i, (oi, si, sec))) as Hf.
      { apply list_find_Some. split_and!; done. }
      congruence.
  - intros [= <-] v (l1 & s & l2 & Hl & _ & Hn & _). apply list_find_None in Hf. rewrite Hl, Forall_app, Forall_cons in Hf.
    destruct s as [[? ?] ?]. by destruct Hf as (_ & Hf & _).
Qed.
(** The linker's copy of the API bases agrees with the loader's. *)
Lemma resolve_import_agrees m o v :
  m ∈ LINKER_MODULES → LxLink.resolve_import m o = Ok v →
  as_u M32 (Descriptors.resolve_import d m o) = v mod M32.
Proof.
  intros Hm Hv. unfold as_u.
  assert (∃ b, LxLink.resolve_import m o = (x ← uadd M32 LxLink.MAGIC_API_BASE b; uadd M32 x o) ∧
    Descriptors.resolve_import d m o = LxLink.MAGIC_API_BASE + b + o) as (b & H1 & H2).
  { apply list_elem_of_In in Hm. cbn [LINKER_MODULES map In] in Hm.
    repeat (destruct Hm as [<-|Hm]; [eexists; split; [reflexivity|]; cbn -[Z.add]; 
      first [reflexivity | rewrite Z.add_0_r; reflexivity]|]). done. }
  rewrite H1 in Hv. apply bind_Ok_inv in Hv as (x & Hx & Hv).
  apply uadd_mod in Hx; [|done]. apply uadd_mod in Hv; [|done].
  rewrite H2, Hv, <- Z.add_mod_idemp_l, <- Hx, Z.add_mod_idemp_l by done. done.
Qed.

End denote.

(** The linker's addresses of APIs are 32-bit. *)
Lemma linker_import_u32 {B : Build} m o v : u32 o → LxLink.resolve_import m o = Ok v → u32 v.
Proof.
  unfold LxLink.resolve_import, u32. intros Ho. set (base := if bool_decide (m = _) then _ else _). intros Hv.
  assert (∀ b, base = Some b → 0 ≤ b ≤ 12288) as Hb.
  { subst base. intros b. by repeat (case_bool_decide; [intros [= <-]; by vm_compute|]). }
  destruct base as [b|]; [|by injection Hv as <-]. specialize (Hb b eq_refl).
  apply bind_Ok_inv in Hv as (x & Hx & Hv). unfold LxLink.MAGIC_API_BASE in Hx.
  apply uadd_range in Hx; [|lia..]. apply uadd_range in Hv; lia.
Qed.

(** * Fixups *)

Section agree.
Context {B : Build} (d : DllManager).

(** The loader's address of a fixup target, for the linker's object bases. *)
Definition addr_of (mods : list rstring) (t : LxLink.FixupTarget) : Z :=
  match t with
  | LxLink.Internal n o =>
    match idx [CODE_OBJECT_BASE; DATA_OBJECT_BASE; STACK_OBJECT_BASE] (pred_index n) with
    | Some base => base + o
    | None => 0
    end
  | LxLink.ExternalOrdinal i o =>
    Descriptors.resolve_import d (default [] (idx mods (pred_index i))) o
  end.
Lemma addr_of_target f cs ds cp dp fx :
  target_addr f (map base_address (link_objects cs ds cp dp)) d (LxHeader.target (record_of fx)) =
  addr_of (imported_modules f) (fix_target fx).
Proof. by destruct fx as [? ? []]. Qed.

Context (objects : list ElfObject) (st : LinkerState) (dm : gmap rstring (rstring * Z)).
Context (Hfit : layout_fits objects) (Hbuild : build objects = Ok st) (Hst : state_ok st).
Context (Hdm : def_ok dm) (Hkn : def_known dm).
#[local] Abbreviation denotes := (denotes objects st dm d).
#[local] Abbreviation section_at := (section_at objects st).

(** The numbers given to the modules are their places in the list, while a byte holds them. *)
Definition numbered (ms : Modules) : Prop :=
  ∀ n i, module_map ms !! n = Some i → 1 ≤ i ≤ len (imported ms) ∧ idx (imported ms) (i - 1) = Some n.
(** What a fixup refers to, for good: later modules do not change it. *)
Definition refers (mods : list rstring) (t : LxLink.FixupTarget) (v : Z) : Prop :=
  ∀ more, as_u M32 (addr_of (mods ++ more) t) = v.
Lemma refers_app mods l t v : refers mods t v → refers (mods ++ l) t v.
Proof using. intros H more. rewrite <- (assoc_L (++)). apply H. Qed.

Lemma pred_index_pos i : 1 ≤ i < M64 → pred_index i = i - 1.
Proof using. intros. unfold pred_index, wrapping_sub. apply Z.mod_small. lia. Qed.

Lemma internal_refers mods v n o :
  u32 v → va_to_lx_object v = Ok (n, o) → refers mods (LxLink.Internal n o) v.
Proof using.
  unfold u32, va_to_lx_object. intros Hv H more.
  assert (∃ base, idx [CODE_OBJECT_BASE; DATA_OBJECT_BASE; STACK_OBJECT_BASE] (pred_index n) = Some base ∧
    o mod M32 = (v - base) mod M32) as (base & Hi & Ho).
  { destruct (_ <=? _); apply bind_Ok_inv in H as (x & Hx & [= <- <-]);
      (eexists; split; [reflexivity|]; by apply usub_mod in Hx). }
  unfold addr_of. rewrite Hi. unfold as_u. rewrite <- Z.add_mod_idemp_r, Ho, Z.add_mod_idemp_r by done.
  replace (base + (v - base)) with v by lia. by apply Z.mod_small.
Qed.
Lemma get_or_insert_numbered (n : rstring) ms i ms' :
  numbered ms → get_or_insert_module n ms = (i, ms') → len (imported ms') < 256 →
  numbered ms' ∧ (∃ l, imported ms' = imported ms ++ l) ∧
  1 ≤ i ≤ len (imported ms') ∧ idx (imported ms') (i - 1) = Some n.
Proof using.
  intros Hn. unfold get_or_insert_module. destruct (module_map ms !! n) as [j|] eqn:Hj.
  { intros [= <- <-] _. destruct (Hn _ _ Hj). split_and!; try done; try lia. exists []. by rewrite app_nil_r. }
  intros [= <- <-] Hl. cbn [imported module_map] in *. rewrite len_app in *. change (len [n]) with 1 in *.
  pose proof (len_nonneg (imported ms)). rewrite as_u_small by lia.
  assert (idx (imported ms ++ [n]) (len (imported ms) + 1 - 1) = Some n) as Hlast.
  { rewrite idx_lookup by lia. replace (Z.to_nat _) with (length (imported ms)) by (unfold len; lia).
    rewrite lookup_app_r by lia. by rewrite Nat.sub_diag. }
  split; [|split; [by eexists|split; [lia|done]]].
  intros m k. cbn [imported module_map]. destruct (decide (n = m)) as [->|].
  - rewrite lookup_insert_eq. intros [= <-]. rewrite len_app. change (len [m]) with 1. split; [lia|done].
  - rewrite lookup_insert_ne by done. intros [Hk1 Hk2]%Hn. rewrite len_app; change (len [n]) with 1. split; [lia|].
    apply idx_Some_range in Hk2 as Hr. rewrite idx_lookup in * by lia.
    rewrite lookup_app_l; [done|]. unfold len in *. lia.
Qed.
Lemma import_refers mods i m o v :
  1 ≤ i ≤ len mods → len mods < 256 → idx mods (i - 1) = Some m → m ∈ LINKER_MODULES →
  LxLink.resolve_import m o = Ok v → refers mods (LxLink.ExternalOrdinal i o) (v mod M32).
Proof using.
  intros Hi Hl Hm Hk Hv more. unfold addr_of. rewrite pred_index_pos by lia.
  assert (idx (mods ++ more) (i - 1) = Some m) as ->.
  { rewrite idx_lookup in * by lia. rewrite lookup_app_l; [done|]. unfold len in *. lia. }
  by apply resolve_import_agrees.
Qed.

Lemma resolve_reloc_refers r ms v t ms' :
  numbered ms → len (imported ms') < 256 →
  resolve_reloc r dm st objects ms = Ok (v, Some t, ms') →
  numbered ms' ∧ (∃ l, imported ms' = imported ms ++ l) ∧ refers (imported ms') t (v mod M32).
Proof using Hst Hdm Hkn.
  intros Hn Hl. unfold resolve_reloc. destruct (LxLink.target r) as [n|n].
  - destruct (symbol_table st !! n) as [x|] eqn:Hx.
    { intros ([k o] & Ho & [= <- <- <-])%bind_Ok_inv. split; [done|].
      split; [exists []; by rewrite app_nil_r|].
      assert (u32 x) as Hux by (destruct Hst as (_ & _ & _ & Ht & _); by eapply Ht).
      rewrite Z.mod_small by done. by apply internal_refers. }
    destruct (dm !! n) as [[m o]|] eqn:Hd; [|done].
    intros (x & Hx' & H)%bind_Ok_inv. destruct (get_or_insert_module m ms) as [i ms1] eqn:Hg.
    injection H as <- <- <-. apply get_or_insert_numbered in Hg as (? & ? & ? & ?); [|done..].
    split; [done|]. split; [done|]. eapply import_refers; try done. by eapply Hkn.
  - intros (x & Hx & H)%bind_Ok_inv. destruct x as [b|]; [|done].
    apply bind_Ok_inv in H as ([k o] & Ho & H). injection H as <- <- <-. split; [done|].
    split; [exists []; by rewrite app_nil_r|].
    assert (u32 b) as Hb by (by eapply find_section_va_u32).
    rewrite Z.mod_small by done. by apply internal_refers.
Qed.
(** A record by object and offset names the object whose addresses include the target. *)
Definition own_object (t : LxLink.FixupTarget) (v : Z) : Prop :=
  match t with
  | LxLink.Internal k _ => k = if v <? DATA_OBJECT_BASE then 1 else 2
  | LxLink.ExternalOrdinal _ _ => True
  end.
Lemma va_to_own_object v k o : u32 v → va_to_lx_object v = Ok (k, o) → own_object (LxLink.Internal k o) (v mod M32).
Proof using.
  unfold u32, va_to_lx_object. intros Hv H. rewrite Z.mod_small by done. cbn.
  destruct (Z.leb_spec DATA_OBJECT_BASE v); apply bind_Ok_inv in H as (x & _ & [= <- _]);
    [rewrite (proj2 (Z.ltb_ge _ _)) by done|rewrite (proj2 (Z.ltb_lt _ _)) by done]; done.
Qed.
Lemma resolve_reloc_denotes r ms v ft ms' :
  resolve_reloc r dm st objects ms = Ok (v, ft, ms') →
  match ft with
  | Some t => u32 v ∧ denotes (LxLink.target r) v ∧ own_object t v
  | None => ∀ v', ¬ denotes (LxLink.target r) v'
  end.
Proof using Hst Hdm Hkn Hfit Hbuild.
  unfold resolve_reloc. destruct (LxLink.target r) as [n|n].
  - pose proof (symbol_table_spec objects st Hfit Hbuild n) as Hn. destruct (symbol_table st !! n) as [x|] eqn:Hx.
    { intros ([k o] & Ho & [= <- <- <-])%bind_Ok_inv.
      assert (u32 x) as Hux by (destruct Hst as (_ & _ & _ & Ht & _); by eapply Ht).
      apply va_to_own_object in Ho; [|done]. rewrite Z.mod_small in Ho by done. split; [done|]. split; [by left|done]. }
    destruct (dm !! n) as [[m o]|] eqn:Hd.
    + intros (x & Hx' & H)%bind_Ok_inv. destruct (get_or_insert_module m ms) as [i ms1].
      injection H as <- <- <-. assert (u32 x) as Hux.
      { destruct (Hdm _ _ _ Hd) as (_ & _ & Ho). by apply linker_import_u32 in Hx'. }
      apply (resolve_import_agrees d) in Hx'; [|by eapply Hkn]. rewrite Z.mod_small in Hx' by done.
      split; [done|]. split; [|done]. right. split; [done|]. by exists m, o.
    + intros [= _ <- _] v' [Hv'|(_ & m & o & ? & _)]; [by apply (Hn v')|congruence].
  - intros (x & Hx & H)%bind_Ok_inv. apply (find_section_denotes objects st dm d Hfit Hbuild) in Hx as Hden.
    destruct x as [b|]; [|by injection H as _ <- _]. apply find_section_va_u32 in Hx; [|done].
    apply bind_Ok_inv in H as ([k o] & Ho & H). injection H as <- <- <-.
    apply va_to_own_object in Ho; [|done]. rewrite Z.mod_small in Ho by done. done.
Qed.
Lemma resolve_reloc_prefix r ms x ms' :
  resolve_reloc r dm st objects ms = Ok (x, ms') → ∃ l, imported ms' = imported ms ++ l.
Proof using.
  assert (∃ l, imported ms = imported ms ++ l) as Hrefl by (exists []; by rewrite app_nil_r).
  unfold resolve_reloc. destruct (LxLink.target r) as [n|n].
  - destruct (symbol_table st !! n); [by intros ([k o] & _ & [= _ <-])%bind_Ok_inv|].
    destruct (dm !! n) as [[m o]|]; [|by intros [= _ <-]].
    intros (y & _ & H)%bind_Ok_inv. unfold get_or_insert_module in H.
    destruct (module_map ms !! m); injection H as _ <-; [done|by eexists].
  - intros (y & _ & H)%bind_Ok_inv. destruct y; [|by injection H as _ <-].
    by apply bind_Ok_inv in H as ([k o] & _ & [= _ <-]).
Qed.
Lemma resolve_reloc_none r ms v ms' :
  resolve_reloc r dm st objects ms = Ok (v, None, ms') → ms' = ms.
Proof using.
  unfold resolve_reloc. destruct (LxLink.target r) as [n|n].
  - destruct (symbol_table st !! n); [by intros ([k o] & _ & [=])%bind_Ok_inv|].
    destruct (dm !! n) as [[m o]|]; [|by intros [= _ <-]].
    intros (x & _ & H)%bind_Ok_inv. by destruct (get_or_insert_module m ms).
  - intros (x & _ & H)%bind_Ok_inv. destruct x; [|by injection H].
    by apply bind_Ok_inv in H as ([k o] & _ & [=]).
Qed.

Definition fixups_of (b : bool) (w : Work) := if b then code_fixups w else data_fixups w.
Definition patches_of (b : bool) (w : Work) := if b then code_patches w else data_patches w.
(** Where a relocation of a section at [base] is, from the start of its object. *)
Definition source_of (s : Z * Z * ElfSection) (base : Z) (r : Reloc) : Z :=
  (base - obj_base (section_code s) + offset r) mod M32.
(** The image gets the value [v] and the addend at the place of the relocation. *)
Definition patched (w : Work) (s : Z * Z * ElfSection) (base : Z) (r : Reloc) (v : Z) : Prop :=
  ∃ place, (place, wrapping_add M32 v (as_u M32 (addend r))) ∈ patches_of (section_code s) w ∧
    place mod M32 = source_of s base r.
(** The fixup record [fx] of page [p] of code or data is that of an absolute relocation of a
    section, of what its target denotes. *)
Definition explained (w : Work) (b : bool) (p : nat) (fx : LxFixup) : Prop :=
  ∃ s base r v, section_at s base ∧ section_code s = b ∧ r ∈ relocs s.2 ∧ kind r = Absolute ∧
    denotes (LxLink.target r) v ∧ patched w s base r v ∧
    Z.of_nat p * 4096 + source_offset fx = source_of s base r ∧
    refers (imported (modules w)) (fix_target fx) v ∧ own_object (fix_target fx) v.
(** An absolute relocation with a meaning got its patch, and its record if it is in a page. *)
Definition recorded (w : Work) (s : Z * Z * ElfSection) (base : Z) (r : Reloc) (v : Z) : Prop :=
  ∀ page, fixups_of (section_code s) w !! Z.to_nat (source_of s base r / 4096) = Some page →
  ∃ fx, fx ∈ page ∧ source_type fx = 7 ∧ source_offset fx = source_of s base r mod 4096 ∧
    refers (imported (modules w)) (fix_target fx) v.
Definition covered (w : Work) (s : Z * Z * ElfSection) (base : Z) (r : Reloc) : Prop :=
  kind r = Absolute → (∃ v, denotes (LxLink.target r) v) →
  ∃ v, denotes (LxLink.target r) v ∧ (v = 0 ∨ patched w s base r v ∧ recorded w s base r v).

(** What later steps leave: modules, patches and records are added only. *)
Record extends (w w' : Work) : Prop := {
  ext_modules : ∃ l, imported (modules w') = imported (modules w) ++ l;
  ext_patches : ∀ b x, x ∈ patches_of b w → x ∈ patches_of b w';
  ext_fixups : ∀ b p page', fixups_of b w' !! p = Some page' →
    ∃ page, fixups_of b w !! p = Some page ∧ page ⊆ page';
}.
#[export] Instance extends_refl : Reflexive extends.
Proof using. intros w. split; [exists []; by rewrite app_nil_r|done|]. intros b p page Hp. by exists page. Qed.
#[export] Instance extends_trans : Transitive extends.
Proof using.
  intros w1 w2 w3 [[l Hl] Hp Hf] [[l' Hl'] Hp' Hf']. split.
  - exists (l ++ l'). by rewrite Hl', Hl, (assoc_L (++)).
  - intros b x Hx. by apply Hp', Hp.
  - intros b p page3 H3. destruct (Hf' b p page3 H3) as (page2 & H2 & ?).
    destruct (Hf b p page2 H2) as (page1 & H1 & ?). exists page1. split; [done|]. by etrans.
Qed.
Lemma covered_mono w w' s base r : extends w w' → covered w s base r → covered w' s base r.
Proof using.
  intros [[l Hl] Hp Hf] Hc Hk Hd. destruct (Hc Hk Hd) as (v & Hv & [H0|[(place & Hin & Hpl) Hrec]]);
    exists v; (split; [done|]); [by left|right]. split; [exists place; by split; [apply Hp|]|].
  intros page' Hpage'. destruct (Hf _ _ _ Hpage') as (page & Hpage & Hsub).
  destruct (Hrec page Hpage) as (fx & ? & ? & ? & Hr). exists fx. split; [by apply Hsub|].
  do 2 (split; [done|]). rewrite Hl. by apply refers_app.
Qed.
Definition agrees (w : Work) : Prop :=
  len (imported (modules w)) < 256 →
  numbered (modules w) ∧
  ∀ b p page fx, fixups_of b w !! p = Some page → fx ∈ page → explained w b p fx.

Lemma explained_mono w w' b p fx :
  (∃ l, imported (modules w') = imported (modules w) ++ l) →
  (∀ b x, x ∈ patches_of b w → x ∈ patches_of b w') → explained w b p fx → explained w' b p fx.
Proof using.
  intros [l Hl] Hp (s & base & r & v & H1 & H2 & H3 & H4 & H5 & (place & Hin & Hpl) & H6 & H7 & H8).
  exists s, base, r, v. do 5 (split; [done|]). split; [exists place; by split; [apply Hp|]|].
  split; [done|]. split; [|done]. rewrite Hl. by apply refers_app.
Qed.
Lemma agrees_mono w w' :
  (∃ l, imported (modules w') = imported (modules w) ++ l) → numbered (modules w') →
  (∀ b, fixups_of b w' = fixups_of b w) → (∀ b x, x ∈ patches_of b w → x ∈ patches_of b w') →
  (len (imported (modules w')) < 256 → agrees w) → agrees w'.
Proof using.
  intros [l Hl] Hn Hf Hp Ha Hlen. split; [done|]. intros b p page fx Hpage Hfx. rewrite Hf in Hpage.
  destruct (Ha Hlen) as [_ He]; [rewrite Hl, len_app in Hlen; pose proof (len_nonneg l); lia|].
  apply (explained_mono w); [by exists l|done|]. by apply (He b p page fx).
Qed.
Lemma patches_push_patch b b' x y w : x ∈ patches_of b w → x ∈ patches_of b (push_patch b' y w).
Proof using. destruct b, b'; cbn; rewrite ?elem_of_app; auto. Qed.
Lemma patches_push_patch_rel b b' x y w : x ∈ patches_of b w → x ∈ patches_of b (push_patch_rel b' y w).
Proof using. destruct b, b'; cbn; rewrite ?elem_of_app; auto. Qed.
Lemma push_patch_same b x w : x ∈ patches_of b (push_patch b x w).
Proof using. destruct b; cbn; rewrite elem_of_app; right; by left. Qed.
Lemma fixups_push b b' i fx w page p gx :
  0 ≤ i → fixups_of b (push_fixup b' i fx w) !! p = Some page → gx ∈ page →
  (∃ page0, fixups_of b w !! p = Some page0 ∧ gx ∈ page0) ∨ (b = b' ∧ Z.of_nat p = i ∧ gx = fx).
Proof using.
  intros Hi Hp Hg.
  assert (b ≠ b' ∧ fixups_of b (push_fixup b' i fx w) = fixups_of b w ∨
    b = b' ∧ fixups_of b (push_fixup b' i fx w) = add_fixup i fx (fixups_of b w)) as [[_ Heq]|[-> Heq]]
    by (destruct b, b'; auto); rewrite Heq in Hp; [eauto|].
  unfold add_fixup in Hp. destruct (_ <? _); [|eauto].
  rewrite list_lookup_alter in Hp. case_decide; [subst p|eauto].
  apply fmap_Some in Hp as (page0 & Hp & ->). apply elem_of_app in Hg as [Hg|Hg]; [left; by exists page0|].
  apply list_elem_of_singleton in Hg. right. split_and!; [done|lia|done].
Qed.
Lemma agrees_push_fixup b i fx w :
  0 ≤ i → agrees w → (len (imported (modules w)) < 256 → explained w b (Z.to_nat i) fx) →
  agrees (push_fixup b i fx w).
Proof using.
  intros Hi Ha He Hlen. destruct (Ha Hlen) as [Hn Hf]. split; [done|]. intros b' p page gx Hp Hg.
  apply (explained_mono w); [exists []; by rewrite app_nil_r|by destruct b|].
  destruct (fixups_push _ _ _ _ _ _ _ _ Hi Hp Hg) as [(page0 & ? & ?)|(-> & <- & ->)]; [by eapply Hf|].
  rewrite <- (Nat2Z.id p). by apply He.
Qed.
Lemma extends_push_fixup b i fx w : extends w (push_fixup b i fx w).
Proof using.
  split; [exists []; by rewrite app_nil_r|by destruct b|]. intros b' p page' Hp.
  assert (fixups_of b' (push_fixup b i fx w) = fixups_of b' w ∨
    fixups_of b' (push_fixup b i fx w) = add_fixup i fx (fixups_of b' w)) as [Heq|Heq]
    by (destruct b, b'; auto); rewrite Heq in Hp; [by exists page'|].
  unfold add_fixup in Hp. destruct (_ <? _); [|by exists page'].
  rewrite list_lookup_alter in Hp. case_decide; [subst p|by exists page'].
  apply fmap_Some in Hp as (page & Hp & ->). exists page. split; [done|]. intros x Hx. apply elem_of_app. by left.
Qed.
Lemma push_fixup_in b i fx w page :
  0 ≤ i → fixups_of b (push_fixup b i fx w) !! Z.to_nat i = Some page → fx ∈ page.
Proof using.
  intros Hi Hp. assert (fixups_of b (push_fixup b i fx w) = add_fixup i fx (fixups_of b w)) as Heq by (by destruct b).
  rewrite Heq in Hp. unfold add_fixup in Hp. destruct (Z.ltb_spec i (len (fixups_of b w))).
  - rewrite list_lookup_alter in Hp. case_decide; [|done]. apply fmap_Some in Hp as (page0 & _ & ->). apply elem_of_app. right. by left.
  - apply lookup_lt_Some in Hp. unfold len in *. lia.
Qed.

(** The place of the patch and that of the record are the place of the relocation. *)
Lemma source_places s base buf r sv bo :
  usub (E:=()) M32 base (obj_base (section_code s)) = Ok buf → 0 ≤ base →
  uadd (E:=()) M32 base (as_u M32 (offset r)) = Ok sv → uadd (E:=()) M64 buf (offset r) = Ok bo →
  bo mod M32 = source_of s base r ∧ u32 sv ∧
  ∀ rel, usub (E:=()) M32 sv (obj_base (section_code s)) = Ok rel → rel = source_of s base r.
Proof using.
  unfold source_of, u32. intros Hbuf Hbase Hsv Hbo. pose proof (as_u_range M32 (offset r) ltac:(lia)) as Hoff.
  apply uadd_range in Hsv as Hsr; [|lia..]. apply uadd_mod, mod_64_32 in Hbo; [|done]. apply usub_mod in Hbuf; [|done].
  split; [by rewrite Hbo, <- Z.add_mod_idemp_l, Hbuf, Z.add_mod_idemp_l by done|]. split; [done|].
  intros rel Hrel. apply usub_range in Hrel as Hrr; [|lia|lia|by destruct (section_code s)].
  apply usub_mod in Hrel; [|done]. apply uadd_mod in Hsv; [|done].
  rewrite <- Zminus_mod_idemp_l, Hsv, Zminus_mod_idemp_l in Hrel. unfold as_u in Hrel.
  rewrite (Z.mod_small rel) in Hrel by lia. rewrite Hrel.
  rewrite <- (Zminus_mod_idemp_l (base + _)), Z.add_mod_idemp_r, Zminus_mod_idemp_l by done. f_equal. lia.
Qed.

(** One relocation: it adds its own patch and record only. *)
Lemma relocate_one_agrees s base buf r w w' :
  section_at s base → r ∈ relocs s.2 →
  usub (E:=()) M32 base (obj_base (section_code s)) = Ok buf → 0 ≤ base → agrees w →
  relocate_one dm st objects (section_code s) base buf r w = Ok w' →
  agrees w' ∧ extends w w' ∧ (len (imported (modules w')) < 256 → covered w' s base r).
Proof using Hst Hdm Hkn Hfit Hbuild.
  intros Hat Hin Hbuf Hbase Ha H. unfold relocate_one in H. apply bind_Ok_inv in H as (sv & Hsv & H).
  apply bind_Ok_inv in H as (bo & Hbo & H). apply bind_Ok_inv in H as ([[tv ft] ms] & Hr & H).
  destruct (source_places s base buf r sv bo Hbuf Hbase Hsv Hbo) as (Hplace & Hsvr & Hrelp).
  pose proof (resolve_reloc_denotes _ _ _ _ _ Hr) as Hden.
  pose proof (resolve_reloc_prefix _ _ _ _ Hr) as Hpre.
  assert (len (imported ms) < 256 → agrees w ∧ numbered ms ∧
    match ft with Some t => refers (imported ms) t tv | None => True end) as Hms.
  { intros Hl. split; [done|]. destruct ft as [t|].
    - assert (len (imported (modules w)) < 256) as Hl0.
      { destruct Hpre as [l Hl']. rewrite Hl', len_app in Hl. pose proof (len_nonneg l). lia. }
      destruct (Ha Hl0) as [Hn _]. apply (resolve_reloc_refers r (modules w)) in Hr as (? & _ & Hrf); [|done..].
      destruct Hden as [Hu _]. by rewrite Z.mod_small in Hrf by done.
    - apply resolve_reloc_none in Hr as ->. split; [by apply Ha|done]. }
  assert (Hmono : ∀ w2, modules w2 = ms → (∀ b, fixups_of b w2 = fixups_of b w) →
    (∀ b x, x ∈ patches_of b w → x ∈ patches_of b w2) → agrees w2 ∧ extends w w2).
  { intros w2 Hm Hf Hp. split.
    - intros Hl. rewrite Hm in Hl. destruct (Hms Hl) as (_ & Hn & _). apply (agrees_mono w); rewrite ?Hm; done.
    - split; [by rewrite Hm|done|]. intros b p page Hpage. rewrite Hf in Hpage. by exists page. }
  assert (Hskip : ∀ w2, w' = w2 → agrees w2 ∧ extends w w2 → (kind r ≠ Absolute ∨ ft = None ∨ tv = 0) →
    agrees w' ∧ extends w w' ∧ (len (imported (modules w')) < 256 → covered w' s base r)).
  { intros w2 -> [? ?] Hno. split; [done|]. split; [done|]. intros _ Hk [v Hv].
    destruct Hno as [?|[-> | ->]]; [done|by destruct (Hden v)|].
    destruct ft as [t|]; [|by destruct (Hden v)]. exists 0. split; [apply Hden|by left]. }
  destruct (Z.eqb_spec tv 0) as [->|Htv].
  { injection H as <-. apply (Hskip (with_modules w ms)); [done| |by right; right]. apply Hmono; done. }
  destruct (kind r) eqn:Hkind.
  2: { apply bind_Ok_inv in H as (disp & _ & [= <-]). eapply Hskip; [done| |by left].
       apply Hmono; [by destruct (section_code s)|by destruct (section_code s); intros []|].
       intros b' x Hx. by apply patches_push_patch_rel. }
  2: { injection H as <-. apply (Hskip (with_modules w ms)); [done| |by left]. apply Hmono; done. }
  set (w2 := push_patch _ _ _) in H.
  assert (agrees w2 ∧ extends w w2) as [Hw2 Hx2].
  { apply Hmono; [by destruct (section_code s)|by destruct (section_code s); intros []|].
    intros b' x Hx. by apply patches_push_patch. }
  destruct ft as [t|]; [|injection H as <-; apply (Hskip w2); auto].
  destruct Hden as (Hu & Hden & Hown). assert (patched w2 s base r tv) as Hpat.
  { exists bo. split; [apply push_patch_same|done]. }
  apply bind_Ok_inv in H as (rel & Hrel & [= <-]). apply Hrelp in Hrel as ->.
  set (src := source_of s base r) in *. assert (0 ≤ src < M32) as Hsrc by (by apply Z.mod_pos_bound).
  assert (0 ≤ src / 4096) by (apply Z.div_pos; lia). pose proof (Z.mod_pos_bound src 4096 ltac:(lia)).
  pose proof (Z.div_mod src 4096 ltac:(lia)). unfold PAGE_SIZE.
  assert (imported (modules w2) = imported ms) as Him by (by destruct (section_code s)).
  split; [|split].
  - apply agrees_push_fixup; [done|done|]. intros Hl. rewrite Him in Hl.
    exists s, base, r, tv. do 6 (split; [done|]). cbn [source_offset fix_target].
    rewrite Z2Nat.id, as_u_small by lia. split; [fold src; lia|]. split; [|done]. rewrite Him. by apply Hms.
  - etrans; [exact Hx2|apply extends_push_fixup].
  - intros Hl _ _. exists tv. split; [done|]. right.
    split; [by destruct Hpat as (place & ? & ?); exists place; split; [destruct (section_code s)|]|].
    intros page Hpage. apply push_fixup_in in Hpage; [|done]. eexists. split; [exact Hpage|].
    cbn [source_type source_offset fix_target]. split; [done|]. split; [rewrite as_u_small by lia; done|].
    assert (imported (modules (push_fixup (section_code s) (src / 4096)
      (mk_lx_fixup 0x07 (as_u M16 (src mod 4096)) t) w2)) = imported ms) as Him' by done.
    rewrite Him' in *. by apply Hms.
Qed.

(** One section. *)
Lemma relocate_section_agrees s w w' :
  s ∈ all_sections objects → agrees w →
  relocate_section dm st objects s.1.1 s.1.2 s.2 w = Ok w' →
  agrees w' ∧ extends w w' ∧ (len (imported (modules w')) < 256 →
    (∃ b0, section_at s b0) → ∃ base, section_at s base ∧ ∀ r, r ∈ relocs s.2 → covered w' s base r).
Proof using Hst Hdm Hkn Hfit Hbuild.
  intros Hs Ha H. unfold relocate_section in H. apply bind_Ok_inv in H as (bv & Hbv & H).
  assert (find_merged_va (merged_of st s) s.1.1 s.1.2 = Ok bv) as Hat
    by (unfold merged_of, section_code; by destruct (bool_decide (sec_kind s.2 = Text))).
  apply (found_at objects st Hfit Hbuild) in Hat; [|done]. destruct bv as [base|].
  2: { injection H as <-. split; [done|]. split; [done|]. intros _ [b0 Hb0]. by destruct (Hat b0). }
  destruct Hat as [Hu Hat]. apply bind_Ok_inv in H as (buf & Hbuf & H). change (bool_decide _) with (section_code s) in *.
  enough (agrees w' ∧ extends w w' ∧ (len (imported (modules w')) < 256 → ∀ r, r ∈ relocs s.2 → covered w' s base r))
    as (? & ? & Hc) by (split_and!; [done..|]; intros Hl _; exists base; split; [done|]; by apply Hc).
  revert H. apply (for_in_prefix (λ l w1, agrees w1 ∧ extends w w1 ∧
    (len (imported (modules w1)) < 256 → ∀ r, r ∈ l → covered w1 s base r))).
  { split; [done|]. split; [done|]. intros _ r Hr. by apply elem_of_nil in Hr. }
  intros l r rest w1 w2 Hl (Ha1 & Hx1 & Hc1) H1.
  apply relocate_one_agrees in H1 as (Ha2 & Hx2 & Hc2); [|done| |done|by apply Hu|done].
  2: { rewrite Hl. apply elem_of_app. right. by left. }
  split; [done|]. split; [by etrans|]. intros Hlen r' [Hr'| ->%list_elem_of_singleton]%elem_of_app; [|by apply Hc2].
  apply (covered_mono w1); [done|]. apply Hc1; [|done]. destruct Hx2 as [[l' Hl'] _ _]. rewrite Hl', len_app in Hlen.
  pose proof (len_nonneg l'). lia.
Qed.

Lemma relocate_agrees cp dp w :
  relocate objects st dm cp dp = Ok w →
  agrees w ∧ (len (imported (modules w)) < 256 → ∀ s b0, section_at s b0 →
    ∃ base, section_at s base ∧ ∀ r, r ∈ relocs s.2 → covered w s base r).
Proof using Hst Hdm Hkn Hfit Hbuild.
  intros H. enough (agrees w ∧ (len (imported (modules w)) < 256 → ∀ s, s ∈ all_sections objects → (∃ b0, section_at s b0) →
    ∃ base, section_at s base ∧ ∀ r, r ∈ relocs s.2 → covered w s base r)) as [? Hc].
  { split; [done|]. intros Hl s b0 Hb0. apply Hc; [done|apply Hb0|by exists b0]. }
  revert H. apply (for_in_prefix (λ l w1, agrees w1 ∧ (len (imported (modules w1)) < 256 → ∀ s, s ∈ l →
    (∃ b0, section_at s b0) → ∃ base, section_at s base ∧ ∀ r, r ∈ relocs s.2 → covered w1 s base r))).
  { split; [|intros _ s Hs; by apply elem_of_nil in Hs].
    intros _. split; [intros n i Hn; cbn [modules module_map] in Hn; by rewrite lookup_empty in Hn|].
    intros b p page fx Hp Hx. assert (page = []) as ->.
    { destruct b; cbn in Hp; apply lookup_replicate in Hp as [-> _]; done. }
    by apply elem_of_nil in Hx. }
  intros l [[oi si] sec] rest w1 w2 Hl [Ha1 Hc1] H1.
  apply (relocate_section_agrees (oi, si, sec)) in H1 as (Ha2 & Hx2 & Hc2); [| |done].
  2: { rewrite Hl. apply elem_of_app. right. by left. }
  split; [done|]. intros Hlen s [Hs| ->%list_elem_of_singleton]%elem_of_app Hb0; [|by apply Hc2].
  destruct (Hc1 ltac:(destruct Hx2 as [[l' Hl'] _ _]; rewrite Hl', len_app in Hlen; pose proof (len_nonneg l'); lia)
    s Hs Hb0) as (base & ? & Hcov).
  exists base. split; [done|]. intros r Hr. apply (covered_mono w1); [done|]. by apply Hcov.
Qed.
End agree.

(** C16: the linker and the loader give every relocation its meaning.  An absolute relocation
    denotes a 32-bit address: that of a symbol (the place of the section that defines it, where
    its bytes lie in the image, plus its offset there), for a name that no object defines the
    address of the API the .def file gives, by the loader's own table of API bases, or the
    place of the first section of its name.  Each fixup recorded for a page of code or data is
    that of such a relocation at that very place, the address to which the loader resolves the
    record is the one denoted, in the object that holds it, and the image has that address plus
    the addend at the place.  Conversely, every absolute relocation of a section in the image
    that denotes something other than 0 has its patch, and its 32-bit record if its place is in
    a page.  Up to 255 imported modules, all known to both; sections below 2 GiB. *)
Theorem fixups_agree {B : Build} objects st dm cp dp w d f cs ds :
  let loaded fx := as_u M32 (target_addr f (map base_address (link_objects cs ds cp dp)) d
                              (LxHeader.target (record_of fx))) in
  build objects = Ok st → layout_fits objects → def_ok dm → def_known dm →
  relocate objects st dm cp dp = Ok w →
  imported_modules f = imported (modules w) → len (imported_modules f) < 256 →
  (∀ b p page fx, fixups_of b w !! p = Some page → fx ∈ page →
   ∃ s base r, section_at objects st s base ∧ section_code s = b ∧ r ∈ relocs s.2 ∧
     kind r = Absolute ∧ denotes objects st dm d (LxLink.target r) (loaded fx) ∧
     patched w s base r (loaded fx) ∧
     Z.of_nat p * 4096 + source_offset fx = source_of s base r ∧
     own_object (fix_target fx) (loaded fx)) ∧
  (∀ s b0, section_at objects st s b0 → ∃ base, section_at objects st s base ∧
   ∀ r, r ∈ relocs s.2 → kind r = Absolute → (∃ v, denotes objects st dm d (LxLink.target r) v) →
   ∃ v, denotes objects st dm d (LxLink.target r) v ∧
     (v = 0 ∨ patched w s base r v ∧
      ∀ page, fixups_of (section_code s) w !! Z.to_nat (source_of s base r / 4096) = Some page →
      ∃ fx, fx ∈ page ∧ source_type fx = 7 ∧ source_offset fx = source_of s base r mod 4096 ∧
        loaded fx = v)).
Proof.
  intros loaded Hb Hfit Hdm Hkn Hw Hf Hl. rewrite Hf in Hl.
  destruct (relocate_agrees d objects st dm Hfit Hb (build_ok _ _ Hb) Hdm Hkn cp dp w Hw) as [Ha Hc].
  assert (∀ fx v, refers d (imported (modules w)) (fix_target fx) v → loaded fx = v) as Hload.
  { intros fx v Hv. unfold loaded. rewrite addr_of_target, Hf. specialize (Hv []). by rewrite app_nil_r in Hv. }
  split.
  - intros b p page fx Hp Hx. destruct (Ha Hl) as [_ He].
    destruct (He b p page fx Hp Hx) as (s & base & r & v & ? & ? & ? & ? & ? & ? & ? & <-%Hload & ?).
    by exists s, base, r.
  - intros s b0 Hs. destruct (Hc Hl s b0 Hs) as (base & Hbase & Hcov). exists base. split; [done|].
    intros r Hr Hk Hd. destruct (Hcov r Hr Hk Hd) as (v & Hv & [?|[Hpat Hrec]]); exists v; (split; [done|]); [by left|right].
    split; [done|]. intros page Hpage. destruct (Hrec page Hpage) as (fx & ? & ? & ? & ?%Hload). by exists fx.
Qed.

Definition demo_work : Work :=
  match relocate (B:=dev_profile) demo_objects demo_state demo_def 1 1 with
  | Ok w => w | _ => mk_work (mk_modules ∅ []) [] [] [] [] [] end.
Definition demo_lx : LxFile := mk_lx demo_header [] [] [] [] [] [str "DOSCALLS"] [] [] [].
(** The call of DosExit is at offset 1, the pointer of the data at its start. *)
Example demo_link_fixups :
  code_fixups demo_work = [[mk_lx_fixup 7 1 (LxLink.ExternalOrdinal 1 234)]] ∧
  data_fixups demo_work = [[mk_lx_fixup 7 0 (LxLink.Internal 1 0)]] ∧
  data_patches demo_work = [(0, 0x10002)] ∧ code_patches_i32 demo_work = [(5, 3)].
Proof. by vm_compute. Qed.
Lemma demo_fits : layout_fits demo_objects.
Proof.
  split; [|by vm_compute]. cbn.
  repeat (apply Forall_cons; split; [first [by exists 4 | by exists 2 | by exists 5]|]). constructor.
Qed.
Lemma demo_def_known : def_known demo_def.
Proof.
  assert (demo_def = {[ str "DosExit" := (str "DOSCALLS", 234) ]}) as -> by (by vm_compute).
  intros n m o [_ [= <- <-]]%lookup_singleton_Some. by left.
Qed.
(** The pointer in the data is to the first [.text], at 0x10000. *)
Lemma fixups_agree_witness :
  ∃ s base r, section_at demo_objects demo_state s base ∧ section_code s = false ∧ r ∈ relocs s.2 ∧
    patched demo_work s base r 0x10000.
Proof.
  pose proof (fixups_agree (B:=dev_profile) demo_objects demo_state demo_def 1 1 demo_work dll_manager_new
    demo_lx 4096 4223 ltac:(vm_compute; reflexivity) demo_fits demo_def_ok demo_def_known
    ltac:(vm_compute; reflexivity) ltac:(vm_compute; reflexivity) ltac:(vm_compute; reflexivity)) as [H _].
  destruct (H false 0%nat [mk_lx_fixup 7 0 (LxLink.Internal 1 0)] (mk_lx_fixup 7 0 (LxLink.Internal 1 0))
    ltac:(vm_compute; reflexivity) ltac:(by left)) as (s & base & r & H1 & H2 & H3 & _ & _ & H4 & _).
  exists s, base, r. split; [exact H1|]. split; [exact H2|]. split; [exact H3|]. exact H4.
Defined.

(** A module the linker does not know is resolved at link time to ordinal 0 of the API area:
    the loader has a base for the socket modules, the linker has none. *)
Lemma socket_imports_differ d o :
  LxLink.resolve_import (B:=release_profile) (str "SO32DLL") o = Ok LxLink.MAGIC_API_BASE ∧
  Descriptors.resolve_import d (str "SO32DLL") o = LxLink.MAGIC_API_BASE + SO32DLL_BASE + o.
Proof. done. Qed.

(** A symbol of the BSS never reaches the symbol table, and a BSS that goes past the last data
    page makes the checked build panic. *)
Example bss_symbol_lost :
  symbol_table <$> build (B:=dev_profile)
    [mk_object [mk_section (str ".bss") UninitializedData (replicate 8 0) 4 []]
               [mk_symbol (str "counter") (Some 0) 0]] = Ok ∅.
Proof. by vm_compute. Qed.
Example bss_spill_panics :
  (st ← build (B:=dev_profile)
     [mk_object [mk_section (str ".bss") UninitializedData (replicate 5000 0) 4 []] []];
   write_lx (B:=dev_profile) [] st ∅) = Panic.
Proof. by vm_compute. Qed.
(** A relocation against any symbol of a linked section keeps the name of the section only. *)
Lemma section_target_forgets f m secs i sym s j :
  ef_symbol f i = Some sym → ry_section sym = Some s → m !! s = Some j →
  reloc_target f m secs (TargetSymbol i) = (n ← section_name secs j; Ok (Some (Section_ n))).
Proof. intros H1 H2 H3. unfold reloc_target. rewrite H1. cbn. rewrite H2. cbn. by rewrite H3. Qed.
