(* ===== verification/NeFile.v ===== *)
(** The NE module parser (src/src/ne/header.rs, src/src/ne.rs): header, segment table,
    relocations, entry table and name tables of a 16-bit OS/2 program, over the same reader
    monad as the LX parser. *)
From S2P Require Import Prelude Bytes.

(** * The header *)

(** [NeHeader] *)
Record NeHeader := mk_ne_header {
  signature : bytes;
  linker_version : Z;
  linker_revision : Z;
  entry_table_offset : Z;
  entry_table_size : Z;
  checksum : Z;
  module_flags : Z;
  auto_data_segment : Z;
  initial_heap_size : Z;
  initial_stack_size : Z;
  initial_cs_ip : Z;
  initial_ss_sp : Z;
  segment_count : Z;
  module_ref_count : Z;
  non_resident_name_table_size : Z;
  segment_table_offset : Z;
  resource_table_offset : Z;
  resident_name_table_offset : Z;
  module_ref_table_offset : Z;
  imported_names_table_offset : Z;
  non_resident_name_table_file_offset : Z;
  movable_entry_count : Z;
  alignment_shift_count : Z;
  resource_segment_count : Z;
  target_os : Z;
  additional_flags : Z;
  fast_load_offset : Z;
  fast_load_size : Z;
  reserved : Z;
  expected_win_version : Z;
}.

Definition NE_FLAG_PMAPI := 0x0300.
Definition NE_FLAG_LIBRARY := 0x8000.
Definition NE_OS_OS2 := 0x01.

(** [u8], [u16] and [u32] of a buffer at a place *)
Definition at8 (buf : bytes) (i : Z) : Z := le_val (slice buf i 1).
Definition at16 (buf : bytes) (i : Z) : Z := le_val (slice buf i 2).
Definition at32 (buf : bytes) (i : Z) : Z := le_val (slice buf i 4).

(** The fields of the 64 bytes. *)
Definition header_of (buf : bytes) : NeHeader :=
  {| signature := slice buf 0 2;
     linker_version := at8 buf 2; linker_revision := at8 buf 3;
     entry_table_offset := at16 buf 4; entry_table_size := at16 buf 6;
     checksum := at32 buf 8; module_flags := at16 buf 12;
     auto_data_segment := at16 buf 14; initial_heap_size := at16 buf 16;
     initial_stack_size := at16 buf 18; initial_cs_ip := at32 buf 20;
     initial_ss_sp := at32 buf 24; segment_count := at16 buf 28;
     module_ref_count := at16 buf 30; non_resident_name_table_size := at16 buf 32;
     segment_table_offset := at16 buf 34; resource_table_offset := at16 buf 36;
     resident_name_table_offset := at16 buf 38; module_ref_table_offset := at16 buf 40;
     imported_names_table_offset := at16 buf 42;
     non_resident_name_table_file_offset := at32 buf 44;
     movable_entry_count := at16 buf 48; alignment_shift_count := at16 buf 50;
     resource_segment_count := at16 buf 52; target_os := at8 buf 54;
     additional_flags := at8 buf 55; fast_load_offset := at16 buf 56;
     fast_load_size := at16 buf 58; reserved := at16 buf 60;
     expected_win_version := at16 buf 62 |}.
(** [NeHeader::read] *)
Definition read_ne_header (offset : Z) : rd NeHeader :=
  seek offset;;
  buf ← read_exact 64;
  if negb (bool_decide (slice buf 0 2 = str "NE"))
  then fail (InvalidData "Invalid NE signature: {:02X} {:02X}" (slice buf 0 2))
  else mret (header_of buf).

(** [entry_cs], [entry_ip], [stack_ss], [stack_sp], [is_dll], [is_pm_app] *)
Definition entry_cs (h : NeHeader) : Z := as_u M16 (Z.shiftr (initial_cs_ip h) 16).
Definition entry_ip (h : NeHeader) : Z := Z.land (initial_cs_ip h) 0xFFFF.
Definition stack_ss (h : NeHeader) : Z := as_u M16 (Z.shiftr (initial_ss_sp h) 16).
Definition stack_sp (h : NeHeader) : Z := Z.land (initial_ss_sp h) 0xFFFF.
Definition is_dll (h : NeHeader) : bool := negb (Z.land (module_flags h) NE_FLAG_LIBRARY =? 0).
Definition is_pm_app (h : NeHeader) : bool := Z.land (module_flags h) 0x0300 =? NE_FLAG_PMAPI.

(** * Segments *)

(** [NeSegmentEntry] *)
Record NeSegmentEntry := mk_seg {
  data_offset : Z; data_length : Z; flags : Z; min_alloc_size : Z }.
Definition SEG_DATA := 0x0001.
Definition SEG_HAS_RELOCS := 0x0100.
Definition read_segment : rd NeSegmentEntry :=
  buf ← read_exact 8;
  mret (mk_seg (at16 buf 0) (at16 buf 2) (at16 buf 4) (at16 buf 6)).
Definition is_code (s : NeSegmentEntry) : bool := Z.land (flags s) SEG_DATA =? 0.
Definition is_data (s : NeSegmentEntry) : bool := negb (Z.land (flags s) SEG_DATA =? 0).
Definition has_relocations (s : NeSegmentEntry) : bool := negb (Z.land (flags s) SEG_HAS_RELOCS =? 0).
Definition actual_data_length (s : NeSegmentEntry) : Z :=
  if data_length s =? 0 then 0x10000 else data_length s.
Definition actual_min_alloc (s : NeSegmentEntry) : Z :=
  if min_alloc_size s =? 0 then 0x10000 else min_alloc_size s.
Definition file_offset {B : Build} {E} (s : NeSegmentEntry) (alignment_shift : Z) : outcome E Z :=
  ushl 64 (data_offset s) alignment_shift.

(** * Relocations *)

Definition RELOC_LOBYTE := 0.
Definition RELOC_SELECTOR := 2.
Definition RELOC_FAR_POINTER := 3.
Definition RELOC_OFFSET := 5.
Definition RELFLAG_ADDITIVE := 0x04.

(** [NeRelocationTarget], [NeRelocationEntry] *)
Inductive NeRelocationTarget :=
| InternalRef (segment_num offset : Z)
| ImportOrdinal (module_index ordinal : Z)
| ImportName (module_index name_offset : Z)
| OsFixup (fixup_type : Z).
Record NeRelocationEntry := mk_reloc {
  source_type : Z; reloc_flags : Z; source_offset : Z; target : NeRelocationTarget }.
#[export] Instance NeRelocationTarget_eq_dec : EqDecision NeRelocationTarget.
Proof. solve_decision. Defined.
#[export] Instance NeRelocationEntry_eq_dec : EqDecision NeRelocationEntry.
Proof. solve_decision. Defined.

(** [NeRelocationEntry::read]; the fifth arm of its match cannot be taken. *)
Definition target_in (fl : Z) (buf : bytes) : io NeRelocationTarget :=
  match Z.land fl 3 with
  | 0 => Ok (InternalRef (at8 buf 4) (at16 buf 6))
  | 1 => Ok (ImportOrdinal (at16 buf 4) (at16 buf 6))
  | 2 => Ok (ImportName (at16 buf 4) (at16 buf 6))
  | 3 => Ok (OsFixup (at16 buf 4))
  | t => Err (InvalidData "Unknown NE relocation target type: {}" [t])
  end.
Definition read_relocation : rd NeRelocationEntry :=
  buf ← read_exact 8;
  t ← lift (target_in (at8 buf 1) buf);
  mret (mk_reloc (at8 buf 0) (at8 buf 1) (at16 buf 2) t).
Definition is_additive (r : NeRelocationEntry) : bool :=
  negb (Z.land (reloc_flags r) RELFLAG_ADDITIVE =? 0).

(** * The entry table *)

Definition ENTRY_UNUSED := 0x00.
Definition ENTRY_MOVABLE := 0xFF.
(** [NeEntry] *)
Record NeEntry := mk_entry { ordinal : Z; entry_flags : Z; segment_num : Z; entry_offset : Z }.
#[export] Instance NeEntry_eq_dec : EqDecision NeEntry.
Proof. solve_decision. Defined.

Section entry_table.
Context {B : Build} {E : Type} (data : bytes).

(** The [for _ in 0..count] of a bundle: [break] when the bytes run out. *)
Fixpoint bundle_entries (n : nat) (indicator pos ord : Z) (entries : list NeEntry)
    : outcome E (Z * Z * list NeEntry) :=
  match n with
  | O => Ok (pos, ord, entries)
  | S n =>
    if indicator =? ENTRY_MOVABLE then
      if len data <? pos + 6 then Ok (pos, ord, entries) else
      let e := mk_entry ord (at8 data pos) (at8 data (pos + 3)) (at16 data (pos + 4)) in
      ord ← uadd M16 ord 1;
      bundle_entries n indicator (pos + 6) ord (entries ++ [e])
    else
      if len data <? pos + 3 then Ok (pos, ord, entries) else
      let e := mk_entry ord (at8 data pos) indicator (at16 data (pos + 1)) in
      ord ← uadd M16 ord 1;
      bundle_entries n indicator (pos + 3) ord (entries ++ [e])
  end.
(** The [while] of [parse_entry_table]; [data[pos + 1]] may be out of range. *)
Fixpoint bundles (fuel : nat) (pos ord : Z) (entries : list NeEntry) : outcome E (list NeEntry) :=
  match fuel with
  | O => Diverge
  | S fuel =>
    match idx data pos with
    | None => Ok entries
    | Some count =>
      if count =? 0 then Ok entries else
      indicator ← unwrap (idx data (pos + 1));
      if indicator =? ENTRY_UNUSED then
        ord ← uadd M16 ord count;
        bundles fuel (pos + 2) ord entries
      else
        '(pos, ord, entries) ← bundle_entries (Z.to_nat count) indicator (pos + 2) ord entries;
        bundles fuel pos ord entries
    end
  end.
Definition parse_entry_table : outcome E (list NeEntry) :=
  bundles (S (length data)) 0 1 [].
End entry_table.

(** * Name tables *)

(** [parse_name_table] from position [pos]. *)
Fixpoint names_from (fuel : nat) (data : bytes) (pos : Z) : list (rstring * Z) :=
  match fuel with
  | O => []
  | S fuel =>
    match idx data pos with
    | None | Some 0 => []
    | Some n =>
      if len data <? pos + 1 + n + 2 then []
      else (from_utf8_lossy (slice data (pos + 1) n), at16 data (pos + 1 + n)) ::
           names_from fuel data (pos + 1 + n + 2)
    end
  end.
Definition parse_name_table (data : bytes) : list (rstring * Z) := names_from (S (length data)) data 0.

(** * The file *)

(** [NeFile] *)
Record NeFile := mk_ne {
  header : NeHeader;
  segment_table : list NeSegmentEntry;
  relocations_by_segment : list (list NeRelocationEntry);
  imported_modules : list rstring;
  entries : list NeEntry;
  resident_names : list (rstring * Z);
  non_resident_names : list (rstring * Z);
  imported_names_data : bytes;
  ne_offset : Z;
}.

(** The length-prefixed name at a place of the imported names; [None] when it does not fit. *)
Definition name_at (names : bytes) (off : Z) : option rstring :=
  n ← idx names off;
  if len names <? off + 1 + n then None else Some (from_utf8_lossy (slice names (off + 1) n)).

Section parser.
Context {B : Build}.

(** The MZ stub and the header, with the checks. *)
Definition read_mz : rd (Z * NeHeader) :=
  mz_buf ← read_exact 64;
  if negb (bool_decide (slice mz_buf 0 2 = str "MZ"))
  then fail (InvalidData "Not a valid MZ executable" [])
  else
    let ne_offset := at32 mz_buf 60 in
    if ne_offset <? 64 then fail (InvalidData "Invalid e_lfanew: 0x{:X}" [ne_offset]) else
    h ← read_ne_header ne_offset;
    if 255 <? segment_count h
    then fail (InvalidData "Excessive NE segment count: {}" [segment_count h])
    else mret (ne_offset, h).
Definition read_segment_table (ne_offset : Z) (h : NeHeader) : rd (list NeSegmentEntry) :=
  seek (ne_offset + segment_table_offset h);;
  read_n (Z.to_nat (segment_count h)) read_segment.
(** [n] bytes from an absolute place, none when [n] is 0. *)
Definition read_bytes_at (pos n : Z) : rd bytes :=
  if 0 <? n then seek pos;; read_exact n else mret [].
Definition read_imported_names (ne_offset : Z) (h : NeHeader) : rd bytes :=
  read_bytes_at (ne_offset + imported_names_table_offset h)
    (Z.max 0 (entry_table_offset h - imported_names_table_offset h)).
Definition read_module_refs (ne_offset : Z) (h : NeHeader) (names : bytes) : rd (list rstring) :=
  seek (ne_offset + module_ref_table_offset h);;
  read_n (Z.to_nat (module_ref_count h))
    (name_offset ← read_u16; mret (default [] (name_at names name_offset))).
Definition read_entries (ne_offset : Z) (h : NeHeader) : rd (list NeEntry) :=
  seek (ne_offset + entry_table_offset h);;
  entry_data ← read_exact (entry_table_size h);
  lift (parse_entry_table entry_data).
Definition read_resident_names (ne_offset : Z) (h : NeHeader) : rd (list (rstring * Z)) :=
  data ← read_bytes_at (ne_offset + resident_name_table_offset h)
           (Z.max 0 (module_ref_table_offset h - resident_name_table_offset h));
  mret (parse_name_table data).
Definition read_non_resident_names (h : NeHeader) : rd (list (rstring * Z)) :=
  if (0 <? non_resident_name_table_file_offset h) && (0 <? non_resident_name_table_size h) then
    seek (non_resident_name_table_file_offset h);;
    data ← read_exact (non_resident_name_table_size h);
    mret (parse_name_table data)
  else mret [].
(** The relocations of one segment, behind its data. *)
Definition read_segment_relocs (shift : Z) (s : NeSegmentEntry) : rd (list NeRelocationEntry) :=
  if has_relocations s && (0 <? data_offset s) then
    off ← lift (file_offset s shift);
    seg_data_end ← lift (uadd M64 off (actual_data_length s));
    seek seg_data_end;;
    reloc_count ← read_u16;
    read_n (Z.to_nat reloc_count) read_relocation
  else mret [].
Fixpoint read_relocations (shift : Z) (segs : list NeSegmentEntry) : rd (list (list NeRelocationEntry)) :=
  match segs with
  | [] => mret []
  | s :: segs =>
    relocs ← read_segment_relocs shift s;
    rest ← read_relocations shift segs;
    mret (relocs :: rest)
  end.

(** [NeFile::parse] *)
Definition parse_ne_file : rd NeFile :=
  '(ne_offset, h) ← read_mz;
  segment_table ← read_segment_table ne_offset h;
  names ← read_imported_names ne_offset h;
  imported_modules ← read_module_refs ne_offset h names;
  entries ← read_entries ne_offset h;
  resident_names ← read_resident_names ne_offset h;
  non_resident_names ← read_non_resident_names h;
  relocations ← read_relocations (alignment_shift_count h) segment_table;
  mret (mk_ne h segment_table relocations imported_modules entries resident_names
          non_resident_names names ne_offset).
Definition parse_ne (data : bytes) : io NeFile := fst <$> parse_ne_file data 0.
End parser.

(** [get_imported_name], [resolve_entry], [module_name] *)
Definition get_imported_name (f : NeFile) (offset : Z) : option rstring :=
  name_at (imported_names_data f) offset.
Definition resolve_entry (f : NeFile) (ord : Z) : option (Z * Z) :=
  (λ p, (segment_num p.2, entry_offset p.2)) <$> list_find (λ e, ordinal e = ord) (entries f).
Definition module_name (f : NeFile) : option rstring :=
  match resident_names f with (name, ord) :: _ => if ord =? 0 then Some name else None | [] => None end.

(** * Entry tables *)

(** The bundles of the format: skipped ordinals, entries of one fixed segment (flags and
    offset), entries of movable segments (flags, segment and offset). *)
Inductive bundle :=
| Unused (n : Z)
| Fixed (seg : Z) (l : list (Z * Z))
| Movable (l : list (Z * Z * Z)).
Definition bundle_count (b : bundle) : Z :=
  match b with Unused n => n | Fixed _ l => len l | Movable l => len l end.
Definition fixed_bytes (e : Z * Z) : bytes := le_bytes 1 e.1 ++ le16 e.2.
Definition movable_bytes (e : Z * Z * Z) : bytes :=
  le_bytes 1 e.1.1 ++ [0xCD; 0x3F] ++ le_bytes 1 e.1.2 ++ le16 e.2.
Definition bundle_bytes (b : bundle) : bytes :=
  match b with
  | Unused n => [n; ENTRY_UNUSED]
  | Fixed seg l => [len l; seg] ++ concat (map fixed_bytes l)
  | Movable l => [len l; ENTRY_MOVABLE] ++ concat (map movable_bytes l)
  end.
Definition bundle_wf (b : bundle) : Prop :=
  1 ≤ bundle_count b < 256 ∧
  match b with
  | Unused _ => True
  | Fixed seg l => 0 < seg < 255 ∧ Forall (λ e, u8 e.1 ∧ u16 e.2) l
  | Movable l => Forall (λ e, u8 e.1.1 ∧ u8 e.1.2 ∧ u16 e.2) l
  end.
(** The entries of the bundles, numbered from [ord]. *)
Fixpoint number {A} (f : Z → A → NeEntry) (ord : Z) (l : list A) : list NeEntry :=
  match l with [] => [] | e :: l => f ord e :: number f (ord + 1) l end.
Definition fixed_entry (seg ord : Z) (e : Z * Z) : NeEntry := mk_entry ord e.1 seg e.2.
Definition movable_entry (ord : Z) (e : Z * Z * Z) : NeEntry := mk_entry ord e.1.1 e.1.2 e.2.
Definition bundle_list (ord : Z) (b : bundle) : list NeEntry :=
  match b with
  | Unused _ => []
  | Fixed seg l => number (fixed_entry seg) ord l
  | Movable l => number movable_entry ord l
  end.
Fixpoint table_entries (ord : Z) (bs : list bundle) : list NeEntry :=
  match bs with
  | [] => []
  | b :: bs => bundle_list ord b ++ table_entries (ord + bundle_count b) bs
  end.
Definition table_count (bs : list bundle) : Z := foldr (λ b n, bundle_count b + n) 0 bs.

Lemma at_uint n x pre post :
  0 ≤ x < 256 ^ Z.of_nat n → le_val (slice (pre ++ le_bytes n x ++ post) (len pre) (Z.of_nat n)) = x.
Proof.
  intros Hx. rewrite slice_middle by (by rewrite len_le_bytes). by apply le_val_bytes.
Qed.
Lemma at8_middle x pre post : u8 x → at8 (pre ++ le_bytes 1 x ++ post) (len pre) = x.
Proof. intros. by apply (at_uint 1). Qed.
Lemma at16_middle x pre post : u16 x → at16 (pre ++ le16 x ++ post) (len pre) = x.
Proof. intros. by apply (at_uint 2). Qed.

Section exact.
Context {B : Build} {E : Type}.

Lemma fixed_step n seg e pre post ord entries :
  seg ≠ ENTRY_MOVABLE → u8 e.1 → u16 e.2 → ord + 1 < M16 →
  bundle_entries (E:=E) (pre ++ fixed_bytes e ++ post) (S n) seg (len pre) ord entries =
  bundle_entries (pre ++ fixed_bytes e ++ post) n seg (len pre + 3) (ord + 1) (entries ++ [fixed_entry seg ord e]).
Proof.
  intros Hseg Hf Ho Hb. cbn [bundle_entries]. rewrite (proj2 (Z.eqb_neq _ _)) by done.
  pose proof (len_nonneg post).
  assert ((len (pre ++ fixed_bytes e ++ post) <? len pre + 3) = false) as ->.
  { apply Z.ltb_ge. unfold fixed_bytes. rewrite !len_app, !len_le_bytes. lia. }
  rewrite uadd_ok by lia. cbn [mbind outcome_bind]. unfold fixed_entry.
  assert (at8 (pre ++ fixed_bytes e ++ post) (len pre) = e.1) as ->.
  { unfold fixed_bytes. rewrite <- (assoc_L (++)). by apply at8_middle. }
  assert (at16 (pre ++ fixed_bytes e ++ post) (len pre + 1) = e.2) as ->; [|done].
  unfold fixed_bytes. replace (len pre + 1) with (len (pre ++ le_bytes 1 e.1)) by (rewrite len_app, len_le_bytes; lia).
  rewrite <- !(assoc_L (++)). rewrite (assoc_L (++) pre). by apply at16_middle.
Qed.
Lemma movable_step n e pre post ord entries :
  u8 e.1.1 → u8 e.1.2 → u16 e.2 → ord + 1 < M16 →
  bundle_entries (E:=E) (pre ++ movable_bytes e ++ post) (S n) ENTRY_MOVABLE (len pre) ord entries =
  bundle_entries (pre ++ movable_bytes e ++ post) n ENTRY_MOVABLE (len pre + 6) (ord + 1)
    (entries ++ [movable_entry ord e]).
Proof.
  intros Hf Hs Ho Hb. cbn [bundle_entries]. rewrite Z.eqb_refl. pose proof (len_nonneg post).
  assert ((len (pre ++ movable_bytes e ++ post) <? len pre + 6) = false) as ->.
  { apply Z.ltb_ge. unfold movable_bytes. rewrite !len_app, !len_le_bytes. change (len [205; 63]) with 2. lia. }
  rewrite uadd_ok by lia. cbn [mbind outcome_bind]. unfold movable_entry.
  assert (at8 (pre ++ movable_bytes e ++ post) (len pre) = e.1.1) as ->.
  { unfold movable_bytes. rewrite <- (assoc_L (++)). by apply at8_middle. }
  assert (at8 (pre ++ movable_bytes e ++ post) (len pre + 3) = e.1.2) as ->.
  { unfold movable_bytes.
    replace (len pre + 3) with (len (pre ++ le_bytes 1 e.1.1 ++ [205; 63])) by (rewrite !len_app, len_le_bytes; done).
    replace (pre ++ (le_bytes 1 e.1.1 ++ [205; 63] ++ le_bytes 1 e.1.2 ++ le16 e.2) ++ post)
      with ((pre ++ le_bytes 1 e.1.1 ++ [205; 63]) ++ le_bytes 1 e.1.2 ++ le16 e.2 ++ post)
      by (by rewrite <- !(assoc_L (++))).
    by apply at8_middle. }
  assert (at16 (pre ++ movable_bytes e ++ post) (len pre + 4) = e.2) as ->; [|done].
  unfold movable_bytes.
  replace (len pre + 4) with (len (pre ++ le_bytes 1 e.1.1 ++ [205; 63] ++ le_bytes 1 e.1.2))
    by (rewrite !len_app, !len_le_bytes; done).
  replace (pre ++ (le_bytes 1 e.1.1 ++ [205; 63] ++ le_bytes 1 e.1.2 ++ le16 e.2) ++ post)
    with ((pre ++ le_bytes 1 e.1.1 ++ [205; 63] ++ le_bytes 1 e.1.2) ++ le16 e.2 ++ post)
    by (by rewrite <- !(assoc_L (++))).
  by apply at16_middle.
Qed.

(** A bundle of entries of one size, read one after the other. *)
Lemma entries_read {A} (enc : A → bytes) (f : Z → A → NeEntry) (size indicator : Z) (P : A → Prop) l pre post ord entries :
  (∀ a, len (enc a) = size) →
  (∀ n a pre post ord entries, P a → ord + 1 < M16 →
     bundle_entries (E:=E) (pre ++ enc a ++ post) (S n) indicator (len pre) ord entries =
     bundle_entries (pre ++ enc a ++ post) n indicator (len pre + size) (ord + 1) (entries ++ [f ord a])) →
  Forall P l → ord + len l < M16 →
  bundle_entries (E:=E) (pre ++ concat (map enc l) ++ post) (length l) indicator (len pre) ord entries =
  Ok (len pre + len (concat (map enc l)), ord + len l, entries ++ number f ord l).
Proof.
  intros Hsz Hstep Hl. revert pre ord entries. induction Hl as [|a l Ha _ IH]; intros pre ord entries Hb;
    cbn [length map concat number].
  { cbn [bundle_entries]. by rewrite !Z.add_0_r, app_nil_r. }
  rewrite len_cons in *. pose proof (len_nonneg l). rewrite <- (assoc_L (++)), Hstep by (done || lia).
  replace (len pre + size) with (len (pre ++ enc a)) by (rewrite len_app, Hsz; lia).
  rewrite (assoc_L (++) pre), IH by lia. rewrite !len_app, <- (assoc_L (++)). cbn [app].
  replace (len pre + len (enc a) + len (concat (map enc l))) with (len pre + (len (enc a) + len (concat (map enc l)))) by lia.
  by replace (ord + 1 + len l) with (ord + (1 + len l)) by lia.
Qed.

(** One bundle. *)
Lemma bundle_read fuel b pre post ord entries :
  bundle_wf b → ord + bundle_count b < M16 →
  bundles (E:=E) (pre ++ bundle_bytes b ++ post) (S fuel) (len pre) ord entries =
  bundles (pre ++ bundle_bytes b ++ post) fuel (len pre + len (bundle_bytes b)) (ord + bundle_count b)
    (entries ++ bundle_list ord b).
Proof.
  intros [Hc Hb] Ho. cbn [bundles].
  assert (∃ ind tl, bundle_bytes b = [bundle_count b; ind] ++ tl) as (ind & tl & Hbb)
    by (destruct b; do 2 eexists; reflexivity).
  assert (idx (pre ++ bundle_bytes b ++ post) (len pre) = Some (bundle_count b)) as ->.
  { rewrite idx_lookup by apply len_nonneg. unfold len. rewrite Nat2Z.id, lookup_app_r, Nat.sub_diag by lia.
    by rewrite Hbb. }
  assert (idx (pre ++ bundle_bytes b ++ post) (len pre + 1) = Some ind) as ->.
  { pose proof (len_nonneg pre). rewrite idx_lookup by lia.
    replace (Z.to_nat (len pre + 1)) with (length pre + 1)%nat by (unfold len; lia).
    rewrite lookup_app_r by lia. replace (length pre + 1 - length pre)%nat with 1%nat by lia. by rewrite Hbb. }
  rewrite (proj2 (Z.eqb_neq _ 0)) by lia. cbn [unwrap mbind outcome_bind].
  destruct b as [n|seg l|l]; injection Hbb as <- <-; cbn [bundle_count bundle_list bundle_bytes] in *.
  - rewrite Z.eqb_refl, uadd_ok by lia. cbn [mbind outcome_bind]. by rewrite app_nil_r.
  - destruct Hb as [Hseg Hl]. rewrite (proj2 (Z.eqb_neq seg ENTRY_UNUSED)) by (unfold ENTRY_UNUSED; lia).
    replace (Z.to_nat (len l)) with (length l) by (unfold len; lia).
    replace (len pre + 2) with (len (pre ++ [len l; seg])) by (by rewrite len_app).
    rewrite <- (assoc_L (++) [len l; seg]), (assoc_L (++) pre).
    rewrite (entries_read fixed_bytes (fixed_entry seg) 3 seg (λ e, u8 e.1 ∧ u16 e.2)); [|done| |done|lia].
    2: { intros ?????? [? ?] ?. apply fixed_step; [unfold ENTRY_MOVABLE; lia|done..]. }
    cbn [mbind outcome_bind]. rewrite !len_app. by rewrite Z.add_assoc.
  - rewrite (proj2 (Z.eqb_neq ENTRY_MOVABLE ENTRY_UNUSED)) by done.
    replace (Z.to_nat (len l)) with (length l) by (unfold len; lia).
    replace (len pre + 2) with (len (pre ++ [len l; ENTRY_MOVABLE])) by (by rewrite len_app).
    rewrite <- (assoc_L (++) [len l; ENTRY_MOVABLE]), (assoc_L (++) pre).
    rewrite (entries_read movable_bytes movable_entry 6 ENTRY_MOVABLE (λ e, u8 e.1.1 ∧ u8 e.1.2 ∧ u16 e.2));
      [|done| |done|lia].
    2: { intros ?????? (? & ? & ?) ?. by apply movable_step. }
    cbn [mbind outcome_bind]. rewrite !len_app. by rewrite Z.add_assoc.
Qed.
Lemma table_read bs fuel pre post ord entries :
  Forall bundle_wf bs → ord + table_count bs < M16 → (length bs < fuel)%nat →
  bundles (E:=E) (pre ++ concat (map bundle_bytes bs) ++ 0 :: post) fuel (len pre) ord entries =
  Ok (entries ++ table_entries ord bs).
Proof.
  intros Hbs. revert fuel pre ord entries. induction Hbs as [|b bs Hb Hbs IH]; intros fuel pre ord entries Ho Hf;
    (destruct fuel as [|fuel]; [cbn [length] in Hf; lia|]); cbn [map concat table_entries].
  - cbn [bundles]. rewrite app_nil_l, app_nil_r.
    assert (idx (pre ++ 0 :: post) (len pre) = Some 0) as ->; [|done].
    rewrite idx_lookup by apply len_nonneg. unfold len. by rewrite Nat2Z.id, lookup_app_r, Nat.sub_diag by lia.
  - cbn [table_count foldr length] in Ho, Hf. fold (table_count bs) in Ho.
    assert (0 ≤ table_count bs) as Hn.
    { clear -Hbs. induction Hbs as [|b bs [Hc _] _ IH]; cbn [table_count foldr]; [lia|]. fold (table_count bs). lia. }
    rewrite <- (assoc_L (++)), bundle_read by (done || lia).
    replace (len pre + len (bundle_bytes b)) with (len (pre ++ bundle_bytes b)) by (by rewrite len_app).
    rewrite (assoc_L (++) pre), IH by lia. by rewrite <- (assoc_L (++)).
Qed.
End exact.

Lemma number_sorted {A} (f : Z → A → NeEntry) ord l :
  (∀ o a, ordinal (f o a) = o) →
  StronglySorted Z.lt (ordinal <$> number f ord l) ∧
  Forall (λ e, ord ≤ ordinal e < ord + len l) (number f ord l).
Proof.
  intros Hf. revert ord. induction l as [|a l IH]; intros ord; [split; constructor|].
  destruct (IH (ord + 1)) as [Hs Hr]. cbn [number]. rewrite fmap_cons, len_cons, Hf. pose proof (len_nonneg l).
  split; constructor.
  - done.
  - apply Forall_fmap. eapply Forall_impl; [exact Hr|]. intros e. cbn. lia.
  - rewrite Hf. lia.
  - eapply Forall_impl; [exact Hr|]. intros e. cbn. lia.
Qed.
Lemma bundle_list_sorted b ord :
  StronglySorted Z.lt (ordinal <$> bundle_list ord b) ∧
  Forall (λ e, ord ≤ ordinal e < ord + bundle_count b) (bundle_list ord b).
Proof. destruct b; [split; constructor|by apply number_sorted..]. Qed.
Lemma table_entries_sorted ord bs :
  Forall (λ b, 0 ≤ bundle_count b) bs →
  StronglySorted Z.lt (ordinal <$> table_entries ord bs) ∧
  Forall (λ e, ord ≤ ordinal e) (table_entries ord bs).
Proof.
  intros H. revert ord. induction H as [|b bs Hb _ IH]; intros ord; [split; constructor|].
  destruct (IH (ord + bundle_count b)) as [Hs Hr]. destruct (bundle_list_sorted b ord) as [Hs1 Hr1].
  cbn [table_entries]. rewrite fmap_app. rewrite Forall_forall in Hr, Hr1. split.
  - apply StronglySorted_app_2; [|done|done].
    intros x y (e & -> & He)%list_elem_of_fmap (e' & -> & He')%list_elem_of_fmap.
    specialize (Hr1 _ He). specialize (Hr _ He'). lia.
  - apply Forall_forall. intros e [He|He]%elem_of_app; [specialize (Hr1 _ He)|specialize (Hr _ He)]; cbn in *; lia.
Qed.
Lemma sorted_find l e :
  StronglySorted Z.lt (ordinal <$> l) → e ∈ l →
  snd <$> list_find (λ x, ordinal x = ordinal e) l = Some e.
Proof.
  induction l as [|x l IH]; [by intros _ ?%elem_of_nil|]. rewrite fmap_cons. intros [Hs Hx]%StronglySorted_inv He.
  cbn [list_find]. case_decide as Heq.
  - cbn. f_equal. apply elem_of_cons in He as [->|He]; [done|].
    rewrite Forall_forall in Hx. specialize (Hx (ordinal e) ltac:(by apply list_elem_of_fmap_2)). lia.
  - apply elem_of_cons in He as [->|He]; [done|]. specialize (IH Hs He).
    destruct (list_find _ l) as [[i y]|]; [|done]. done.
Qed.

(** The entry table is read back.  Bundles of skipped ordinals, fixed and movable entries,
    in any order, parse to exactly their entries, numbered consecutively from 1 across the
    bundles; what follows the terminator is ignored; and an import by ordinal from the module
    finds the segment and offset of that entry. *)
Theorem entry_table_exact {B : Build} (bs : list bundle) (junk : bytes) :
  Forall bundle_wf bs → table_count bs < 65535 →
  parse_entry_table (E:=io_error) (concat (map bundle_bytes bs) ++ 0 :: junk) = Ok (table_entries 1 bs) ∧
  StronglySorted Z.lt (ordinal <$> table_entries 1 bs) ∧
  ∀ f e, entries f = table_entries 1 bs → e ∈ entries f →
    resolve_entry f (ordinal e) = Some (segment_num e, entry_offset e).
Proof.
  intros Hbs Hc.
  destruct (table_entries_sorted 1 bs) as [Hs _].
  { eapply Forall_impl; [exact Hbs|]. intros b [? _]. lia. }
  split; [|split; [done|]].
  - unfold parse_entry_table. apply (table_read bs _ [] junk 1 []); [done|lia|].
    rewrite length_app. assert (length bs ≤ length (concat (map bundle_bytes bs)))%nat; [|cbn [length]; lia].
    clear. induction bs as [|b bs IH]; cbn [map concat length]; [lia|].
    rewrite length_app. destruct b; cbn [bundle_bytes app length]; lia.
  - intros f e Hf He. unfold resolve_entry. rewrite Hf in *. pose proof (sorted_find _ _ Hs He) as H.
    destruct (list_find _ _) as [[i y]|]; [|done]. by injection H as ->.
Qed.
Definition demo_bundles : list bundle :=
  [Fixed 1 [(1, 0x100); (3, 0x200)]; Unused 3; Movable [(1, 2, 0x40)]].
Example demo_entry_table :
  parse_entry_table (B:=dev_profile) (E:=io_error)
    ([2; 1; 1; 0; 1; 3; 0; 2; 3; 0; 1; 0xFF; 1; 0xCD; 0x3F; 2; 0x40; 0; 0; 99]) =
  Ok [mk_entry 1 1 1 0x100; mk_entry 2 3 1 0x200; mk_entry 6 1 2 0x40].
Proof. by vm_compute. Qed.
Lemma entry_table_exact_witness :
  parse_entry_table (B:=dev_profile) (E:=io_error) (concat (map bundle_bytes demo_bundles) ++ [0]) =
    Ok (table_entries 1 demo_bundles).
Proof.
  apply (entry_table_exact (B:=dev_profile) demo_bundles []); [|done].
  unfold demo_bundles. rewrite !Forall_cons.
  assert (Hu : ∀ l, forallb (λ e, (0 <=? e.1) && (e.1 <? 256) && (0 <=? e.2) && (e.2 <? 65536)) l = true →
    Forall (λ e : Z * Z, u8 e.1 ∧ u16 e.2) l).
  { induction l as [|e l IH]; cbn [forallb]; [constructor|]. rewrite !andb_true_iff, !Z.leb_le, !Z.ltb_lt.
    intros [? ?%IH]. constructor; [unfold u8, u16; lia|done]. }
  split; [|split; [|split; [|by constructor]]].
  - split; [by vm_compute|]. split; [done|]. by apply Hu.
  - by split.
  - split; [by vm_compute|]. constructor; [|by constructor]. repeat split; by vm_compute.
Defined.

(** A table that ends after the count of a bundle makes the parser panic. *)
Example cut_bundle_panics {B : Build} : parse_entry_table (E:=io_error) [1] = Panic.
Proof. done. Qed.

(** * The parser ends *)

(** The reader does not run out of fuel. *)
Definition ends {A} (m : rd A) : Prop := ∀ data pos, m data pos ≠ Diverge.
Lemma ends_total {A} (m : rd A) : total m → ends m.
Proof. intros H data pos Hd. specialize (H data pos). by rewrite Hd in H. Qed.
Lemma reader_ends_bind {A C} (m : rd A) (f : A → rd C) : ends m → (∀ a, ends (f a)) → ends (m ≫= f).
Proof.
  intros Hm Hf data pos. unfold mbind, rd_bind. specialize (Hm data pos).
  destruct (m data pos) as [[a p]| | |]; [apply Hf|done..].
Qed.
Lemma ends_if {A} (b : bool) (m1 m2 : rd A) : ends m1 → ends m2 → ends (if b then m1 else m2).
Proof. by destruct b. Qed.
Lemma ends_lift {A} (m : io A) : m ≠ Diverge → ends (lift m).
Proof. intros Hm data pos. unfold lift. by destruct m. Qed.
#[local] Hint Resolve reader_ends_bind ends_if : stream.
#[local] Hint Extern 2 (ends _) => apply ends_total; auto with stream; fail : stream.

Section ends.
Context {B : Build}.

Lemma bundle_entries_ends {E} data n ind pos ord l :
  match bundle_entries (E:=E) data n ind pos ord l with
  | Ok (p, _, _) => pos ≤ p
  | Diverge => False
  | _ => True
  end.
Proof.
  revert pos ord l. induction n as [|n IH]; intros pos ord l; cbn [bundle_entries]; [lia|].
  destruct (_ =? _); (destruct (_ <? _); [lia|]);
    (pose proof (uadd_ends (E:=E) M16 ord 1); destruct (uadd M16 ord 1) as [o| | |]; try done; cbn [mbind outcome_bind]).
  - specialize (IH (pos + 6) o (l ++ [mk_entry ord (at8 data pos) (at8 data (pos + 3)) (at16 data (pos + 4))])).
    destruct (bundle_entries _ _ _ _ _ _) as [[[p ?] ?]| | |]; try done. lia.
  - specialize (IH (pos + 3) o (l ++ [mk_entry ord (at8 data pos) ind (at16 data (pos + 1))])).
    destruct (bundle_entries _ _ _ _ _ _) as [[[p ?] ?]| | |]; try done. lia.
Qed.
Lemma bundles_ends {E} data fuel pos ord l :
  (left data pos < fuel)%nat → bundles (E:=E) data fuel pos ord l ≠ Diverge.
Proof.
  revert pos ord l. induction fuel as [|fuel IH]; intros pos ord l Hf; [lia|]. cbn [bundles].
  destruct (idx data pos) as [c|] eqn:Hc; [|done]. apply idx_Some_range in Hc.
  destruct (c =? 0); [done|]. destruct (idx data (pos + 1)) as [ind|]; [|done]. cbn [unwrap mbind outcome_bind].
  destruct (_ =? _).
  - pose proof (uadd_ends (E:=E) M16 ord c). destruct (uadd M16 ord c); try done. cbn [mbind outcome_bind].
    apply IH. unfold left in *. lia.
  - pose proof (bundle_entries_ends (E:=E) data (Z.to_nat c) ind (pos + 2) ord l) as H.
    destruct (bundle_entries _ _ _ _ _ _) as [[[p o] l']| | |]; try done. cbn [mbind outcome_bind].
    apply IH. unfold left in *. lia.
Qed.
Lemma parse_entry_table_ends {E} data : parse_entry_table (E:=E) data ≠ Diverge.
Proof. apply bundles_ends. pose proof (left_le data 0 ltac:(lia)). lia. Qed.

Lemma total_read_bytes_at pos n : total (read_bytes_at pos n).
Proof. unfold read_bytes_at. auto with stream. Qed.
Lemma total_read_ne_header off : total (read_ne_header off).
Proof. unfold read_ne_header. auto with stream. Qed.
Lemma target_in_returns fl buf : returns (target_in fl buf).
Proof. unfold target_in. destruct (Z.land fl 3) as [|[[]|[]|]|]; done. Qed.
Lemma total_read_relocation : total read_relocation.
Proof.
  unfold read_relocation. apply total_bind; [auto with stream|]. intros buf.
  apply total_bind; [|auto with stream]. intros d p. unfold lift.
  pose proof (target_in_returns (at8 buf 1) buf). by destruct (target_in _ _).
Qed.
#[local] Hint Resolve total_read_bytes_at total_read_ne_header total_read_relocation : stream.

(** Every file parses to a module or an error, or panics; the parser never loops. *)
Theorem parse_ne_ends data : parse_ne data ≠ Diverge.
Proof.
  unfold parse_ne. assert (ends parse_ne_file) as H; [|specialize (H data 0); by destruct (parse_ne_file data 0) as [[]| | |]].
  unfold parse_ne_file. apply reader_ends_bind.
  { unfold read_mz. auto 10 with stream. }
  intros [off h]. apply reader_ends_bind.
  { apply ends_total. unfold read_segment_table, read_segment. auto 10 with stream. }
  intros segs. apply reader_ends_bind; [unfold read_imported_names; auto with stream|]. intros names.
  apply reader_ends_bind; [unfold read_module_refs; auto 10 with stream|]. intros mods. apply reader_ends_bind.
  { unfold read_entries. apply reader_ends_bind; [auto with stream|]. intros ?. apply reader_ends_bind; [auto with stream|].
    intros d. apply ends_lift, parse_entry_table_ends. }
  intros ents. apply reader_ends_bind; [unfold read_resident_names; auto with stream|]. intros rn.
  apply reader_ends_bind; [unfold read_non_resident_names; auto 10 with stream|]. intros nrn.
  apply reader_ends_bind; [|intros; auto with stream]. clear. generalize (alignment_shift_count h). intros sh.
  induction segs as [|s segs IH]; cbn [read_relocations]; [auto with stream|].
  apply reader_ends_bind; [|intros r; apply reader_ends_bind; [done|auto with stream]].
  unfold read_segment_relocs. apply ends_if; [|auto with stream]. apply reader_ends_bind.
  { apply ends_lift. unfold file_offset, ushl. destruct (_ <? _); [done|]. by destruct overflow_checks. }
  intros o. apply reader_ends_bind; [apply ends_lift, uadd_ends|]. intros e. auto 10 with stream.
Qed.
End ends.
