(* ===== verification/HostFs.v ===== *)
(** The host file system as [std::fs] and [std::path] show it to the drive backend of
    src/src/loader/vfs_hostdir.rs: a tree of directories, files and symbolic links, the path
    walk of the kernel with its bound on links, and the calls the backend makes.

    A host that grants every permission and never runs out of room: the errors are those of the
    names alone.  Names are Unicode ([to_string_lossy] is the identity on them). *)
From S2P Require Import Prelude Bytes.

(** * Paths

    A [Path] is the list of its pieces between slashes, from the root of the host: a piece may
    be empty or a dot, which the kernel takes as "stay" and [Path::components] drops. *)
Abbreviation path := (list rstring) (only parsing).

Definition SLASH : Z := 0x2F.
(** [s.split('/')] *)
Fixpoint split_on (c : Z) (s : rstring) : list rstring :=
  match s with
  | [] => [[]]
  | x :: s =>
    if x =? c then [] :: split_on c s
    else match split_on c s with p :: ps => (x :: p) :: ps | [] => [[x]] end
  end.
Definition pieces (s : rstring) : path := split_on SLASH s.

Definition CUR : rstring := str ".".
Definition PARENT : rstring := str "..".
Definition stays (c : rstring) : bool := bool_decide (c = [] ∨ c = CUR).
Definition is_parent (c : rstring) : bool := bool_decide (c = PARENT).

(** [Path::components], [join], [parent], [file_name], [starts_with]. *)
Definition components (p : path) : path := filter (λ c, stays c = false) p.
Definition join (p : path) (s : rstring) : path :=
  match s with
  | c :: _ => if c =? SLASH then pieces s else p ++ pieces s
  | [] => p ++ pieces s
  end.
Definition path_parent (p : path) : option path :=
  match components p with [] => None | c => Some (removelast c) end.
Definition file_name (p : path) : option rstring :=
  match last (components p) with
  | Some c => if is_parent c then None else Some c
  | None => None
  end.
Definition starts_with (p root : path) : bool :=
  bool_decide (components root `prefix_of` components p).
Definition path_eq (p q : path) : bool := bool_decide (components p = components q).

(** * The tree *)

(** The nodes by canonical path (no empty, dot or link piece); [NFile] and [NDir] refer to an
    inode. *)
Inductive node := NDir (ino : Z) | NFile (ino : Z) | NLink (target : rstring).
#[export] Instance node_eq_dec : EqDecision node.
Proof. solve_decision. Defined.

(** What [fs::Metadata] reports of an inode: times in seconds since the epoch, where the host
    has them. *)
Record Inode := mk_inode {
  contents : bytes;
  created : option Z;
  accessed : option Z;
  modified : option Z;
  readonly : bool;
}.
Record HostFs := mk_fs {
  tree : gmap path node;
  inodes : gmap Z Inode;
  next_ino : Z;
  clock : Z;           (* seconds since the epoch *)
  dir_len : Z;         (* the length the host reports for a directory *)
  casefold : bool;     (* the kernel ignores case in lookups *)
}.
Definition with_tree (fs : HostFs) (t : gmap path node) : HostFs :=
  mk_fs t (inodes fs) (next_ino fs) (clock fs) (dir_len fs) (casefold fs).
Definition with_inodes (fs : HostFs) (i : gmap Z Inode) : HostFs :=
  mk_fs (tree fs) i (next_ino fs) (clock fs) (dir_len fs) (casefold fs).

Definition is_dir_node (n : option node) : bool :=
  match n with Some (NDir _) => true | _ => false end.
Definition is_file (n : node) : bool := match n with NFile _ => true | _ => false end.
Definition dir_at (fs : HostFs) (p : path) : bool := is_dir_node (tree fs !! p).

Definition lower (c : Z) : Z := if in_range 0x41 0x5A c then c + 0x20 else c.
(** [s.to_ascii_lowercase()] *)
Definition to_lower (s : rstring) : rstring := map lower s.

(** [read_dir]: the names in a directory, in the order of [order]. *)
Definition child_name (dir q : path) : option rstring :=
  match q with
  | [] => None
  | _ => if bool_decide (removelast q = dir) then last q else None
  end.
Definition names_in (fs : HostFs) (dir : path) : list rstring :=
  omap (child_name dir) (map_to_list (tree fs)).*1.

(** One lookup of the kernel. *)
Definition child (fs : HostFs) (dir : path) (c : rstring) : option rstring :=
  if bool_decide (is_Some (tree fs !! (dir ++ [c]))) then Some c
  else if casefold fs then
    snd <$> list_find (λ n, to_lower n = to_lower c) (names_in fs dir)
  else None.

(** [io::ErrorKind], as far as the backend tells the kinds apart. *)
Inductive io_kind :=
  NotFound | PermissionDenied | AlreadyExists | NotEmpty | StorageFull | NameTooLong | OtherKind.
#[export] Instance io_kind_eq_dec : EqDecision io_kind.
Proof. solve_decision. Defined.

(** The kernel's walk: it follows links, at most [links] of them, and ends at a node, at the
    one missing name of an existing directory, or fails. *)
Inductive walked :=
| Found (links : nat) (q : path)
| Missing (dir : path) (name : rstring)
| Fails (k : io_kind).

Definition absolute (s : rstring) : bool := match s with c :: _ => c =? SLASH | [] => false end.
Definition link_base (cur : path) (target : rstring) : path :=
  if absolute target then [] else cur.

Fixpoint walk (fs : HostFs) (links : nat) : path → path → walked :=
  fix go (cur rest : path) {struct rest} : walked :=
    match rest with
    | [] => Found links cur
    | c :: rest =>
      if negb (dir_at fs cur) then Fails OtherKind
      else if stays c then go cur rest
      else if is_parent c then go (removelast cur) rest
      else match child fs cur c with
           | None => match rest with [] => Missing cur c | _ => Fails NotFound end
           | Some n =>
             match tree fs !! (cur ++ [n]) with
             | Some (NLink target) =>
               match links with
               | O => Fails OtherKind
               | S links => walk fs links (link_base cur target) (pieces target ++ rest)
               end
             | Some _ => go (cur ++ [n]) rest
             | None => Fails NotFound
             end
           end
    end.
(** The kernel's limit on the links of one walk. *)
Definition MAXSYMLINKS : nat := 40.
Definition lookup_path (fs : HostFs) (p : path) : walked := walk fs MAXSYMLINKS [] p.

(** [path.canonicalize()], [exists()], [is_dir()], [symlink_metadata] aside. *)
Definition canonicalize (fs : HostFs) (p : path) : option path :=
  match lookup_path fs p with Found _ q => Some q | _ => None end.
Definition exists_ (fs : HostFs) (p : path) : bool := bool_decide (is_Some (canonicalize fs p)).
Definition is_dir (fs : HostFs) (p : path) : bool :=
  match canonicalize fs p with Some q => dir_at fs q | None => false end.

(** The entry a call that does not follow the last link works on: directory and name.  A slash
    at the end asks for a directory. *)
Fixpoint strip_slashes (rev_p : path) : path :=
  match rev_p with [] :: p => strip_slashes p | _ => rev (rev_p) end.
Definition entry_of (fs : HostFs) (p : path) : outcome io_kind (path * rstring) :=
  let q := strip_slashes (rev p) in
  if bool_decide (q ≠ p) && negb (is_dir fs p) then Err OtherKind
  else match last q with
  | Some c =>
    if stays c || is_parent c then Err OtherKind
    else match lookup_path fs (removelast q) with
         | Found _ d => if dir_at fs d then Ok (d, default c (child fs d c)) else Err OtherKind
         | Missing _ _ => Err NotFound
         | Fails k => Err k
         end
  | None => Err OtherKind
  end.

(** * The calls *)

(** An open [File]: its inode and position; directories can be opened for reading. *)
Record File := mk_file { ino : Z; pos : Z; can_read : bool; can_write : bool; on_dir : bool }.
Definition with_pos (f : File) (p : Z) : File :=
  mk_file (ino f) p (can_read f) (can_write f) (on_dir f).

Definition get_inode (fs : HostFs) (i : Z) : Inode :=
  default (mk_inode [] None None None false) (inodes fs !! i).
Definition set_contents (fs : HostFs) (i : Z) (data : bytes) : HostFs :=
  let n := get_inode fs i in
  with_inodes fs (<[i := mk_inode data (created n) (accessed n) (Some (clock fs)) (readonly n)]>
                    (inodes fs)).
Definition fresh_inode (fs : HostFs) : Inode :=
  mk_inode [] (Some (clock fs)) (Some (clock fs)) (Some (clock fs)) false.
(** A new node at [q], with a fresh inode. *)
Definition add_node (fs : HostFs) (q : path) (mk : Z → node) : HostFs :=
  mk_fs (<[q := mk (next_ino fs)]> (tree fs)) (<[next_ino fs := fresh_inode fs]> (inodes fs))
        (next_ino fs + 1) (clock fs) (dir_len fs) (casefold fs).

Definition call (A : Type) : Type := HostFs → outcome io_kind A * HostFs.

(** [OpenOptions::open] *)
Definition open_options (rd wr create truncate : bool) (p : path) : call File := λ fs,
  match lookup_path fs p with
  | Found _ q =>
    match tree fs !! q with
    | Some (NDir i) =>
      if wr || create then (Err OtherKind, fs) else (Ok (mk_file i 0 rd wr true), fs)
    | Some (NFile i) =>
      (Ok (mk_file i 0 rd wr false), if truncate then set_contents fs i [] else fs)
    | _ => (Err NotFound, fs)
    end
  | Missing dir name =>
    if create then
      (Ok (mk_file (next_ino fs) 0 rd wr false), add_node fs (dir ++ [name]) NFile)
    else (Err NotFound, fs)
  | Fails k => (Err k, fs)
  end.

(** [read], [write], [seek], [set_len], [flush] of a file. *)
Definition file_read (f : File) (n : Z) (fs : HostFs) : outcome io_kind (bytes * File) :=
  if negb (can_read f) || on_dir f then Err OtherKind
  else let data := slice (contents (get_inode fs (ino f))) (pos f) n in
       Ok (data, with_pos f (pos f + len data)).
Definition resized (data : bytes) (n : Z) : bytes :=
  take (Z.to_nat n) data ++ replicate (Z.to_nat (n - len data)) 0.
Definition file_write (f : File) (data : bytes) : call (Z * File) := λ fs,
  if negb (can_write f) || on_dir f then (Err OtherKind, fs)
  else match data with
  | [] => (Ok (0, f), fs)
  | _ =>
    let old := contents (get_inode fs (ino f)) in
    let e := pos f + len data in
    (Ok (len data, with_pos f e),
     set_contents fs (ino f) (resized old (pos f) ++ data ++ drop (Z.to_nat e) old))
  end.
Inductive SeekFrom := SeekStart (n : Z) | SeekEnd (n : Z) | SeekCurrent (n : Z).
Abbreviation I64_MAX := 9223372036854775807 (only parsing).
Definition as_i64 (x : Z) : Z := (x + 2 ^ 63) mod 2 ^ 64 - 2 ^ 63.
Definition file_seek (f : File) (s : SeekFrom) (fs : HostFs) : outcome io_kind (Z * File) :=
  let target := match s with
                | SeekStart n => as_i64 n
                | SeekEnd n => len (contents (get_inode fs (ino f))) + n
                | SeekCurrent n => pos f + n
                end in
  if (target <? 0) || (I64_MAX <? target) then Err OtherKind
  else Ok (target, with_pos f target).
Definition file_set_len (f : File) (n : Z) : call unit := λ fs,
  if (I64_MAX <? n) || negb (can_write f) || on_dir f then (Err OtherKind, fs)
  else (Ok tt, set_contents fs (ino f) (resized (contents (get_inode fs (ino f))) n)).

(** [fs::create_dir], [remove_dir], [remove_file] *)
Definition create_dir (p : path) : call unit := λ fs,
  match entry_of fs p with
  | Ok (d, n) =>
    if bool_decide (is_Some (tree fs !! (d ++ [n]))) then (Err AlreadyExists, fs)
    else (Ok tt, add_node fs (d ++ [n]) NDir)
  | Err k => (Err (if exists_ fs p then AlreadyExists else k), fs)
  | _ => (Err OtherKind, fs)
  end.
Definition remove_dir (p : path) : call unit := λ fs,
  match entry_of fs p with
  | Ok (d, n) =>
    match tree fs !! (d ++ [n]) with
    | Some (NDir _) =>
      if bool_decide (names_in fs (d ++ [n]) = [])
      then (Ok tt, with_tree fs (delete (d ++ [n]) (tree fs)))
      else (Err NotEmpty, fs)
    | Some _ => (Err OtherKind, fs)
    | None => (Err NotFound, fs)
    end
  | Err k => (Err k, fs)
  | _ => (Err OtherKind, fs)
  end.
Definition remove_file (p : path) : call unit := λ fs,
  match entry_of fs p with
  | Ok (d, n) =>
    match tree fs !! (d ++ [n]) with
    | Some (NDir _) => (Err OtherKind, fs)
    | Some _ => (Ok tt, with_tree fs (delete (d ++ [n]) (tree fs)))
    | None => (Err NotFound, fs)
    end
  | Err k => (Err k, fs)
  | _ => (Err OtherKind, fs)
  end.

(** The tree with the part below [old] moved to [new]. *)
Definition moved_node (old new : path) (x : path * node) : option (path * node) :=
  if bool_decide (old `prefix_of` x.1) then Some (new ++ drop (length old) x.1, x.2) else None.
Definition move_tree (old new : path) (t : gmap path node) : gmap path node :=
  list_to_map (omap (moved_node old new) (map_to_list t)) ∪
  filter (λ x, ¬ (old `prefix_of` x.1) ∧ x.1 ≠ new) t.
Definition rename (src dst : path) : call unit := λ fs,
  match entry_of fs src, entry_of fs dst with
  | Ok (d1, n1), Ok (d2, n2) =>
    let old := d1 ++ [n1] in
    let new := d2 ++ [n2] in
    match tree fs !! old, tree fs !! new with
    | None, _ => (Err NotFound, fs)
    | Some (NDir _), Some (NDir _) =>
      if bool_decide (old = new) then (Ok tt, fs)
      else if bool_decide (old `prefix_of` new) then (Err OtherKind, fs)
      else if bool_decide (names_in fs new = []) then (Ok tt, with_tree fs (move_tree old new (tree fs)))
      else (Err NotEmpty, fs)
    | Some (NDir _), Some _ => (Err OtherKind, fs)
    | Some (NDir _), None =>
      if bool_decide (old `prefix_of` new) then (Err OtherKind, fs)
      else (Ok tt, with_tree fs (move_tree old new (tree fs)))
    | Some _, Some (NDir _) => (Err OtherKind, fs)
    | Some n, dst =>
      if bool_decide (old = new) || (is_file n && bool_decide (dst = Some n)) then (Ok tt, fs)
      else (Ok tt, with_tree fs (<[new := n]> (delete old (tree fs))))
    end
  | Err k, _ => (Err k, fs)
  | _, Err k => (Err k, fs)
  | _, _ => (Err OtherKind, fs)
  end.

(** [fs::copy]: the destination is truncated before the source is read. *)
Definition copy (src dst : path) : call unit := λ fs,
  match open_options true false false false src fs with
  | (Ok f, _) =>
    if on_dir f then (Err OtherKind, fs)
    else match open_options false true true true dst fs with
         | (Ok g, fs) =>
           (Ok tt, set_contents fs (ino g) (contents (get_inode fs (ino f))))
         | (Err k, fs) => (Err k, fs)
         | (_, fs) => (Err OtherKind, fs)
         end
  | (Err k, _) => (Err k, fs)
  | _ => (Err OtherKind, fs)
  end.

(** [fs::metadata] and [File::metadata]. *)
Record Metadata := mk_meta {
  m_len : Z; m_is_dir : bool; m_is_file : bool; m_readonly : bool;
  m_created : option Z; m_accessed : option Z; m_modified : option Z;
}.
Definition meta_of (fs : HostFs) (isdir : bool) (i : Z) : Metadata :=
  let n := get_inode fs i in
  mk_meta (if isdir then dir_len fs else len (contents n)) isdir (negb isdir) (readonly n)
          (created n) (accessed n) (modified n).
Definition file_metadata (f : File) (fs : HostFs) : Metadata := meta_of fs (on_dir f) (ino f).
Definition metadata (p : path) (fs : HostFs) : outcome io_kind Metadata :=
  match lookup_path fs p with
  | Found _ q =>
    match tree fs !! q with
    | Some (NDir i) => Ok (meta_of fs true i)
    | Some (NFile i) => Ok (meta_of fs false i)
    | _ => Err NotFound
    end
  | Missing _ _ => Err NotFound
  | Fails k => Err k
  end.
(** [DirEntry::metadata]: of the entry itself, a link included. *)
Definition entry_metadata (q : path) (fs : HostFs) : option Metadata :=
  match tree fs !! q with
  | Some (NDir i) => Some (meta_of fs true i)
  | Some (NFile i) => Some (meta_of fs false i)
  | Some (NLink t) => Some (mk_meta (len (as_bytes t)) false false false None None None)
  | None => None
  end.
Definition read_dir (p : path) (fs : HostFs) : outcome io_kind (list (rstring * Metadata)) :=
  match lookup_path fs p with
  | Found _ q =>
    if dir_at fs q
    then Ok (omap (λ n, (λ m, (n, m)) <$> entry_metadata (q ++ [n]) fs) (names_in fs q))
    else Err OtherKind
  | Missing _ _ => Err NotFound
  | Fails k => Err k
  end.

(** * Lemmas on the walk *)

Lemma walk_nil fs l cur : walk fs l cur [] = Found l cur.
Proof. by destruct l. Qed.
(** One step of the walk. *)
Definition step_to (fs : HostFs) (l : nat) (cur : path) (c : rstring) (rest : path) : walked :=
  if negb (dir_at fs cur) then Fails OtherKind
  else if stays c then walk fs l cur rest
  else if is_parent c then walk fs l (removelast cur) rest
  else match child fs cur c with
       | None => match rest with [] => Missing cur c | _ => Fails NotFound end
       | Some n =>
         match tree fs !! (cur ++ [n]) with
         | Some (NLink target) =>
           match l with
           | O => Fails OtherKind
           | S l => walk fs l (link_base cur target) (pieces target ++ rest)
           end
         | Some _ => walk fs l (cur ++ [n]) rest
         | None => Fails NotFound
         end
       end.
Lemma walk_cons fs l cur c rest : walk fs l cur (c :: rest) = step_to fs l cur c rest.
Proof. by destruct l. Qed.

(** A walk of two parts. *)
Definition then_walk (fs : HostFs) (r : walked) (rest : path) : walked :=
  match rest, r with
  | [], _ => r
  | _, Found l q => walk fs l q rest
  | _, Missing _ _ => Fails NotFound
  | _, Fails k => Fails k
  end.
Lemma then_walk_Found fs l q rest : then_walk fs (Found l q) rest = walk fs l q rest.
Proof. destruct rest; [by rewrite walk_nil|done]. Qed.
Lemma then_walk_Fails fs k rest : then_walk fs (Fails k) rest = Fails k.
Proof. by destruct rest. Qed.

Lemma walk_app fs l cur p rest : walk fs l cur (p ++ rest) = then_walk fs (walk fs l cur p) rest.
Proof.
  revert cur p. induction l as [l IHl] using lt_wf_ind. intros cur p. revert cur.
  induction p as [|c p IH]; intros cur; [by rewrite walk_nil, then_walk_Found|].
  cbn [app]. rewrite !walk_cons. unfold step_to.
  destruct (negb _); [by rewrite then_walk_Fails|].
  destruct (stays c); [apply IH|]. destruct (is_parent c); [apply IH|].
  destruct (child fs cur c) as [n|].
  - destruct (tree fs !! (cur ++ [n])) as [[]|]; [apply IH..| |by rewrite then_walk_Fails].
    destruct l as [|l]; [by rewrite then_walk_Fails|].
    rewrite app_assoc. apply IHl. lia.
  - destruct p; cbn [app]; [by destruct rest|by rewrite then_walk_Fails].
Qed.

(** Pieces that stay make no difference to a walk that arrives. *)
Definition arrives (r : walked) : Prop := match r with Fails _ => False | _ => True end.
Lemma walk_single fs l cur c rest :
  walk fs l cur (c :: rest) = then_walk fs (walk fs l cur [c]) rest.
Proof. exact (walk_app fs l cur [c] rest). Qed.
Lemma components_cons c p :
  components (c :: p) = if stays c then components p else c :: components p.
Proof. unfold components. rewrite filter_cons. destruct (stays c); by case_decide. Qed.
Lemma components_app p q : components (p ++ q) = components p ++ components q.
Proof. apply filter_app. Qed.
Lemma walk_components fs l cur p :
  arrives (walk fs l cur p) → walk fs l cur (components p) = walk fs l cur p.
Proof.
  revert l cur. induction p as [|c p IH]; intros l cur; [done|].
  rewrite components_cons, (walk_single fs l cur c p). destruct (stays c) eqn:Hc.
  - rewrite walk_cons. unfold step_to. rewrite Hc.
    destruct (negb _); [by rewrite then_walk_Fails|]. rewrite walk_nil, then_walk_Found. apply IH.
  - rewrite (walk_single fs l cur c (components p)).
    destruct (walk fs l cur [c]) as [l' q|d n|k].
    + rewrite !then_walk_Found. apply IH.
    + by destruct p.
    + by rewrite then_walk_Fails.
Qed.

Lemma walk_last fs l cur p c r :
  walk fs l cur (p ++ [c]) = r → arrives r →
  ∃ l' d, walk fs l cur p = Found l' d ∧ walk fs l' d [c] = r.
Proof.
  rewrite walk_app. destruct (walk fs l cur p) as [l' d|d n|k]; cbn; [|by intros <-..].
  intros <- _. by exists l', d.
Qed.

(** A name that does not stay: the walk is at an entry of the directory, or misses it. *)
Lemma walk_name fs l d c r :
  walk fs l d [c] = r → stays c = false → is_parent c = false → arrives r →
  dir_at fs d = true ∧
  match child fs d c with
  | None => r = Missing d c
  | Some n =>
    match tree fs !! (d ++ [n]) with
    | Some (NLink t) => ∃ l', l = S l' ∧ walk fs l' (link_base d t) (pieces t) = r
    | Some _ => r = Found l (d ++ [n])
    | None => False
    end
  end.
Proof.
  intros Hw Hs Hp. rewrite walk_cons in Hw. unfold step_to in Hw. rewrite Hs, Hp in Hw. revert Hw.
  destruct (dir_at fs d); cbn [negb]; [|by intros <-]. intros Hw Har. split; [done|].
  destruct (child fs d c) as [n|]; [|done].
  destruct (tree fs !! (d ++ [n])) as [[]|]; [by rewrite walk_nil in Hw..| |by subst r].
  destruct l as [|l]; [by subst r|]. rewrite app_nil_r in Hw. by eexists.
Qed.

(** ** Paths *)

Lemma starts_with_spec p rt : starts_with p rt = true ↔ components rt `prefix_of` components p.
Proof. unfold starts_with. apply bool_decide_eq_true. Qed.

Lemma strip_slashes_components p : components (strip_slashes (rev p)) = components p.
Proof.
  rewrite <- (rev_involutive p) at 2. generalize (rev p). clear p. intros l.
  induction l as [|[|x c] l IH]; [done| |done]. cbn [strip_slashes rev].
  rewrite IH, components_app. cbn. by rewrite app_nil_r.
Qed.
