(* ===== verification/Vfs.v ===== *)
(** The drive manager of src/src/loader/vfs.rs: the OS/2 open modes and errors, the interface of
    a drive backend ([VfsBackend], here a type class), and [DriveManager], which resolves OS/2
    paths to a drive and a path in its volume and owns the file and search handles.

    A backend keeps its state behind locks; an operation is a function on that state, and the
    manager threads the states of the mounted backends. *)
From S2P Require Import Prelude Bytes Codepage HandleTable HostFs.

(** * Errors and modes *)

(** [Os2Error]: the code. *)
Definition E_INVALID_FUNCTION : Z := 1.
Definition E_FILE_NOT_FOUND : Z := 2.
Definition E_PATH_NOT_FOUND : Z := 3.
Definition E_ACCESS_DENIED : Z := 5.
Definition E_INVALID_HANDLE : Z := 6.
Definition E_INVALID_DRIVE : Z := 15.
Definition E_NOT_SAME_DEVICE : Z := 17.
Definition E_NO_MORE_FILES : Z := 18.
Definition E_SHARING_VIOLATION : Z := 32.
Definition E_LOCK_VIOLATION : Z := 33.
Definition E_FILE_EXISTS : Z := 80.
Definition E_INVALID_PARAMETER : Z := 87.
Definition E_DISK_FULL : Z := 112.
Definition E_DIRECTORY_NOT_EMPTY : Z := 145.
Definition E_FILENAME_EXCED_RANGE : Z := 206.
Definition E_EA_NOT_FOUND : Z := 254.

Inductive OpenMode := ReadOnly | WriteOnly | ReadWrite.
Inductive SharingMode := DenyReadWrite | DenyWrite | DenyRead | DenyNone.
Inductive ExistAction := ExistFail | ExistOpen | ExistReplace.
Inductive NewAction := NewFail | NewCreate.
Record OpenFlags := mk_flags { exist_action : ExistAction; new_action : NewAction }.
Inductive OpenAction := Existed | Created | Replaced.
Inductive SeekMode := SeekBegin | SeekCur | SeekFromEnd.
#[export] Instance OpenMode_eq_dec : EqDecision OpenMode.
Proof. solve_decision. Defined.
#[export] Instance SharingMode_eq_dec : EqDecision SharingMode.
Proof. solve_decision. Defined.
#[export] Instance OpenAction_eq_dec : EqDecision OpenAction.
Proof. solve_decision. Defined.

(** [OpenMode::from_raw], [SharingMode::from_raw], [OpenFlags::from_raw], [SeekMode::from_raw] *)
Definition open_mode_from_raw (fs_open_mode : Z) : outcome Z OpenMode :=
  match Z.land fs_open_mode 0x07 with
  | 0 => Ok ReadOnly | 1 => Ok WriteOnly | 2 => Ok ReadWrite
  | _ => Err E_INVALID_PARAMETER
  end.
Definition sharing_mode_from_raw (fs_open_mode : Z) : SharingMode :=
  match Z.land fs_open_mode 0x70 with
  | 0x10 => DenyReadWrite | 0x20 => DenyWrite | 0x30 => DenyRead | 0x40 => DenyNone
  | _ => DenyNone
  end.
Definition open_flags_from_raw (fs_open_flags : Z) : OpenFlags :=
  mk_flags
    (match Z.land fs_open_flags 0x0F with
     | 0 => ExistFail | 1 => ExistOpen | 2 => ExistReplace | _ => ExistFail end)
    (match Z.land (Z.shiftr fs_open_flags 4) 0x0F with
     | 0 => NewFail | 1 => NewCreate | _ => NewFail end).
Definition seek_mode_from_raw (mode : Z) : outcome Z SeekMode :=
  match mode with
  | 0 => Ok SeekBegin | 1 => Ok SeekCur | 2 => Ok SeekFromEnd
  | _ => Err E_INVALID_PARAMETER
  end.

(** [FileAttribute] *)
Definition ATTR_NORMAL : Z := 0x00.
Definition ATTR_READONLY : Z := 0x01.
Definition ATTR_HIDDEN : Z := 0x02.
Definition ATTR_SYSTEM : Z := 0x04.
Definition ATTR_DIRECTORY : Z := 0x10.
Definition ATTR_ARCHIVE : Z := 0x20.
Definition attr_contains (a other : Z) : bool := Z.land a other =? other.

Record FileStatus := mk_status {
  creation_date : Z; creation_time : Z;
  last_access_date : Z; last_access_time : Z;
  last_write_date : Z; last_write_time : Z;
  file_size : Z; file_alloc : Z; attributes : Z;
}.
Record DirEntry := mk_entry { name : rstring; status : FileStatus }.
Record FileLockRange := mk_range { lock_offset : Z; lock_length : Z }.

(** * The backend interface *)

(** An operation: it may fail with an OS/2 error and keeps what it did. *)
Definition vfs (S A : Type) : Type := S → outcome Z A * S.
#[export] Instance vfs_ret S : MRet (vfs S) := λ A a s, (Ok a, s).
#[export] Instance vfs_bind S : MBind (vfs S) := λ A B f m s,
  let '(r, s) := m s in
  match r with
  | Ok a => f a s
  | Err e => (Err e, s)
  | Panic => (Panic, s)
  | Diverge => (Diverge, s)
  end.
Definition vfs_err {S A} (e : Z) : vfs S A := λ s, (Err e, s).
Definition vfs_get {S} : vfs S S := λ s, (Ok s, s).
Definition vfs_set {S} (s : S) : vfs S unit := λ _, (Ok tt, s).
Definition vfs_lift {S A} (m : outcome Z A) : vfs S A := λ s, (m, s).

(** Sequencing: what [P] says of the state after [m], and after the rest from there. *)
Lemma bind_state {S A C} (P : S → Prop) (m : vfs S A) (f : A → vfs S C) s :
  P (m s).2 → (∀ a s', m s = (Ok a, s') → P (f a s').2) → P ((m ≫= f) s).2.
Proof. unfold mbind, vfs_bind. destruct (m s) as [[a| | |] s']; eauto. Qed.
Lemma bind_Ok {S A C} (m : vfs S A) (f : A → vfs S C) s c s' :
  (m ≫= f) s = (Ok c, s') → ∃ a s1, m s = (Ok a, s1) ∧ f a s1 = (Ok c, s').
Proof. unfold mbind, vfs_bind. destruct (m s) as [[a| | |] s1]; naive_solver. Qed.

(** [trait VfsBackend] *)
Class VfsBackend (S : Type) := {
  be_open : rstring → OpenMode → SharingMode → OpenFlags → Z → vfs S (Z * OpenAction);
  be_close : Z → vfs S unit;
  be_read : Z → Z → vfs S bytes;
  be_write : Z → bytes → vfs S Z;
  be_seek : Z → Z → SeekMode → vfs S Z;
  be_set_file_size : Z → Z → vfs S unit;
  be_flush : Z → vfs S unit;
  be_find_first : rstring → Z → vfs S (Z * DirEntry);
  be_find_next : Z → vfs S DirEntry;
  be_find_close : Z → vfs S unit;
  be_create_dir : rstring → vfs S unit;
  be_delete_dir : rstring → vfs S unit;
  be_delete : rstring → vfs S unit;
  be_rename : rstring → rstring → vfs S unit;
  be_copy : rstring → rstring → vfs S unit;
  be_query_path_info : rstring → Z → vfs S FileStatus;
  be_query_file_info : Z → Z → vfs S FileStatus;
  be_set_file_locks : Z → list FileLockRange → list FileLockRange → Z → vfs S unit;
  be_to_host_path : rstring → vfs S (option path);
}.

(** * The drive manager *)

Record FileEntry := mk_fentry { fe_drive : Z; fe_handle : Z }.
Record FindEntry := mk_find { fi_drive : Z; fi_handle : Z; fi_level : Z; fi_pattern : rstring }.
Record DriveConfig := mk_config { host_path : path; label : rstring; read_only : bool }.

(** [DriveManager], over the type of its backends. *)
Record DriveManager (S : Type) := mk_dm {
  drives : list (option S);
  drive_configs : list (option DriveConfig);
  file_handles : gmap Z FileEntry;
  find_handles : gmap Z FindEntry;
  next_file_handle : Z;
  next_find_handle : Z;
  current_disk : Z;
  current_dirs : list rstring;
}.
Arguments mk_dm {S}.
Arguments drives {S}.
Arguments drive_configs {S}.
Arguments file_handles {S}.
Arguments find_handles {S}.
Arguments next_file_handle {S}.
Arguments next_find_handle {S}.
Arguments current_disk {S}.
Arguments current_dirs {S}.

(** ** Strings *)

Definition BACKSLASH : Z := 0x5C.
Definition COLON : Z := 0x3A.
(** [s.replace('\\', "/")], [s.contains(c)], [s.starts_with(p)], [s.trim_start_matches('/')] *)
Definition to_slashes (s : rstring) : rstring :=
  map (λ c, if c =? BACKSLASH then SLASH else c) s.
Definition contains (s : rstring) (c : Z) : bool := existsb (Z.eqb c) s.
Definition str_starts (p s : rstring) : bool := bool_decide (p `prefix_of` s).
Fixpoint trim_slashes (s : rstring) : rstring :=
  match s with c :: s' => if c =? SLASH then trim_slashes s' else s | [] => [] end.
(** [&s[n..]]: a panic unless [n] is the offset of a character. *)
Fixpoint str_from (n : Z) (s : rstring) : outcome Z rstring :=
  if n =? 0 then Ok s
  else match s with
  | c :: s => if n <? len (utf8_char c) then Panic else str_from (n - len (utf8_char c)) s
  | [] => Panic
  end.
(** [s.as_bytes()[i]], for the tests that check the length before. *)
Definition byte_at (s : rstring) (i : Z) : option Z := idx (as_bytes s) i.
Definition has_drive (s : rstring) : bool := bool_decide (byte_at s 1 = Some COLON).
Definition str_upper (s : rstring) : rstring := map to_ascii_uppercase s.

(** [DriveManager::check_device_name] *)
Definition check_device_name (p : rstring) : option rstring :=
  let filename := default p (last (pieces (to_slashes p))) in
  let base := default filename (head (split_on 0x2E filename)) in
  snd <$> list_find (λ d, d = str_upper base)
    (map str ["NUL"; "CON"; "CLOCK$"; "KBD$"; "SCREEN$"]).

Section manager.
Context {B : Build} {S : Type} {BE : VfsBackend S}.
Implicit Types dm : DriveManager S.

(** [DriveManager::new] *)
Definition dm_new : DriveManager S :=
  mk_dm (replicate 26 None) (replicate 26 None) ∅ ∅ 3 10 2 (replicate 26 []).

Definition with_drives dm (l : list (option S)) : DriveManager S :=
  mk_dm l (drive_configs dm) (file_handles dm) (find_handles dm) (next_file_handle dm)
        (next_find_handle dm) (current_disk dm) (current_dirs dm).
Definition with_files dm (m : gmap Z FileEntry) (n : Z) : DriveManager S :=
  mk_dm (drives dm) (drive_configs dm) m (find_handles dm) n
        (next_find_handle dm) (current_disk dm) (current_dirs dm).
Definition with_finds dm (m : gmap Z FindEntry) (n : Z) : DriveManager S :=
  mk_dm (drives dm) (drive_configs dm) (file_handles dm) m (next_file_handle dm)
        n (current_disk dm) (current_dirs dm).
Definition with_current dm (d : Z) (dirs : list rstring) : DriveManager S :=
  mk_dm (drives dm) (drive_configs dm) (file_handles dm) (find_handles dm) (next_file_handle dm)
        (next_find_handle dm) d dirs.

(** [mount], [unmount], [set_drive_config]: an assertion on the index. *)
Definition mount dm (drive : Z) (b : S) : outcome Z (DriveManager S) :=
  if drive <? 26 then Ok (with_drives dm (<[Z.to_nat drive := Some b]> (drives dm))) else Panic.
Definition unmount dm (drive : Z) : outcome Z (DriveManager S) :=
  if drive <? 26 then Ok (with_drives dm (<[Z.to_nat drive := None]> (drives dm))) else Panic.
Definition set_drive_config dm (drive : Z) (c : DriveConfig) : outcome Z (DriveManager S) :=
  if drive <? 26 then
    Ok (mk_dm (drives dm) (<[Z.to_nat drive := Some c]> (drive_configs dm)) (file_handles dm)
              (find_handles dm) (next_file_handle dm) (next_find_handle dm) (current_disk dm)
              (current_dirs dm))
  else Panic.
Definition drive_config dm (drive : Z) : option DriveConfig :=
  if 26 <=? drive then None else default None (idx (drive_configs dm) drive).

(** [DriveManager::resolve_path] *)
Definition join_current dm (drive : Z) (rest : rstring) : outcome Z rstring :=
  cur ← unwrap (idx (current_dirs dm) drive);
  Ok (if bool_decide (cur = []) then rest else cur ++ [SLASH] ++ rest).
Definition resolve_path dm (os2_path : rstring) : outcome Z (Z * rstring) :=
  if str_starts [BACKSLASH; BACKSLASH] os2_path || str_starts [SLASH; SLASH] os2_path
  then Err E_PATH_NOT_FOUND
  else
    let p := to_slashes os2_path in
    '(drive, rest) ←
      (if has_drive p then
         let letter := to_ascii_uppercase (default 0 (byte_at p 0)) in
         if in_range 0x41 0x5A letter then rest ← str_from 2 p; Ok (letter - 0x41, rest)
         else Err E_INVALID_DRIVE
       else Ok (current_disk dm, p));
    d ← unwrap (idx (drives dm) drive);
    match d with
    | None => Err E_INVALID_DRIVE
    | Some _ =>
      let rest := trim_slashes rest in
      resolved ←
        (if bool_decide (rest = []) then unwrap (idx (current_dirs dm) drive)
         else if contains os2_path BACKSLASH || contains os2_path SLASH then
           let was_absolute :=
             if has_drive p then bool_decide (byte_at p 2 = Some SLASH)
             else str_starts [BACKSLASH] os2_path || str_starts [SLASH] os2_path in
           if was_absolute then Ok rest else join_current dm drive rest
         else join_current dm drive rest);
      Ok (drive, resolved)
    end.

(** An operation of the backend of [drive]; an index out of range panics, an unmounted drive
    is the error [e]. *)
Definition on_drive {A} (e drive : Z) (op : vfs S A) : vfs (DriveManager S) A := λ dm,
  match idx (drives dm) drive with
  | None => (Panic, dm)
  | Some None => (Err e, dm)
  | Some (Some b) =>
    let '(r, b) := op b in (r, with_drives dm (<[Z.to_nat drive := Some b]> (drives dm)))
  end.
(** [self.backend(drive)?] tests the range first. *)
Definition on_backend {A} (drive : Z) (op : vfs S A) : vfs (DriveManager S) A :=
  if 26 <=? drive then vfs_err E_INVALID_DRIVE else on_drive E_INVALID_DRIVE drive op.

Definition resolve (os2_path : rstring) : vfs (DriveManager S) (Z * rstring) := λ dm,
  (resolve_path dm os2_path, dm).

(** [open_file], [close_file] *)
Definition open_file (os2_path : rstring) (mode : OpenMode) (sharing : SharingMode)
    (flags : OpenFlags) (attrs : Z) : vfs (DriveManager S) (Z * OpenAction) :=
  match check_device_name os2_path with
  | Some _ => vfs_err E_INVALID_PARAMETER
  | None =>
    '(drive, rel_path) ← resolve os2_path;
    '(vfs_handle, action) ← on_drive E_INVALID_DRIVE drive (be_open rel_path mode sharing flags attrs);
    dm ← vfs_get;
    let os2_handle := next_file_handle dm in
    next ← vfs_lift (uadd M32 (next_file_handle dm) 1);
    vfs_set (with_files dm (<[os2_handle := mk_fentry drive vfs_handle]> (file_handles dm)) next);;
    mret (os2_handle, action)
  end.
Definition close_file (handle : Z) : vfs (DriveManager S) unit :=
  dm ← vfs_get;
  match file_handles dm !! handle with
  | None => vfs_err E_INVALID_HANDLE
  | Some e =>
    vfs_set (with_files dm (delete handle (file_handles dm)) (next_file_handle dm));;
    on_drive E_INVALID_HANDLE (fe_drive e) (be_close (fe_handle e))
  end.

(** The operations on an open file. *)
Definition on_file {A} (handle : Z) (op : Z → vfs S A) : vfs (DriveManager S) A :=
  dm ← vfs_get;
  match file_handles dm !! handle with
  | None => vfs_err E_INVALID_HANDLE
  | Some e => on_drive E_INVALID_HANDLE (fe_drive e) (op (fe_handle e))
  end.
Definition read_file (handle n : Z) := on_file handle (λ h, be_read h n).
Definition write_file (handle : Z) (data : bytes) := on_file handle (λ h, be_write h data).
Definition seek_file (handle offset : Z) (mode : SeekMode) :=
  on_file handle (λ h, be_seek h offset mode).
Definition flush_file (handle : Z) := on_file handle be_flush.
Definition set_file_size (handle size : Z) := on_file handle (λ h, be_set_file_size h size).
Definition set_file_locks (handle : Z) (unlock lock : list FileLockRange) (timeout_ms : Z) :=
  on_file handle (λ h, be_set_file_locks h unlock lock timeout_ms).

(** [flush_all]: errors are dropped; the order of the handles is that of the map. *)
Definition flush_all dm : DriveManager S :=
  foldl (λ dm e, snd (on_drive E_INVALID_HANDLE (fe_drive e) (be_flush (fe_handle e)) dm)) dm
    (snd <$> map_to_list (file_handles dm)).

(** The searches. *)
Definition find_first (os2_path : rstring) (attrs level : Z)
    : vfs (DriveManager S) (Z * DirEntry) :=
  '(drive, rel_path) ← resolve os2_path;
  '(vfs_handle, entry) ← on_drive E_INVALID_DRIVE drive (be_find_first rel_path attrs);
  dm ← vfs_get;
  let os2_handle := next_find_handle dm in
  next ← vfs_lift (uadd M32 (next_find_handle dm) 1);
  vfs_set (with_finds dm (<[os2_handle := mk_find drive vfs_handle level os2_path]>
                            (find_handles dm)) next);;
  mret (os2_handle, entry).
Definition find_level dm (handle : Z) : Z :=
  match find_handles dm !! handle with Some e => fi_level e | None => 1 end.
Definition find_next (handle : Z) : vfs (DriveManager S) DirEntry :=
  dm ← vfs_get;
  match find_handles dm !! handle with
  | None => vfs_err E_INVALID_HANDLE
  | Some e => on_drive E_INVALID_HANDLE (fi_drive e) (be_find_next (fi_handle e))
  end.
Definition find_close (handle : Z) : vfs (DriveManager S) unit :=
  dm ← vfs_get;
  match find_handles dm !! handle with
  | None => vfs_err E_INVALID_HANDLE
  | Some e =>
    vfs_set (with_finds dm (delete handle (find_handles dm)) (next_find_handle dm));;
    on_drive E_INVALID_HANDLE (fi_drive e) (be_find_close (fi_handle e))
  end.

(** The operations on a path. *)
Definition on_path {A} (os2_path : rstring) (op : rstring → vfs S A) : vfs (DriveManager S) A :=
  '(drive, rel_path) ← resolve os2_path;
  on_backend drive (op rel_path).
Definition create_dir (os2_path : rstring) := on_path os2_path be_create_dir.
Definition delete_dir (os2_path : rstring) := on_path os2_path be_delete_dir.
Definition delete_file (os2_path : rstring) := on_path os2_path be_delete.
Definition query_path_info (os2_path : rstring) (level : Z) :=
  on_path os2_path (λ r, be_query_path_info r level).
Definition on_two_paths {A} (old new : rstring) (op : rstring → rstring → vfs S A)
    : vfs (DriveManager S) A :=
  '(drive_old, rel_old) ← resolve old;
  '(drive_new, rel_new) ← resolve new;
  if drive_old =? drive_new then on_backend drive_old (op rel_old rel_new)
  else vfs_err E_NOT_SAME_DEVICE.
Definition rename_file (old new : rstring) := on_two_paths old new be_rename.
Definition copy_file (src dst : rstring) := on_two_paths src dst be_copy.
Definition query_file_info (handle level : Z) : vfs (DriveManager S) FileStatus :=
  dm ← vfs_get;
  match file_handles dm !! handle with
  | None => vfs_err E_INVALID_HANDLE
  | Some e => on_backend (fe_drive e) (be_query_file_info (fe_handle e) level)
  end.
(** [resolve_to_host_path]: an error is [None]. *)
Definition resolve_to_host_path (os2_path : rstring) : vfs (DriveManager S) (option path) := λ dm,
  match (on_path os2_path be_to_host_path dm) with
  | (Err _, dm) => (Ok None, dm)
  | r => r
  end.

(** ** Drives and directories *)

Definition current_disk_os2 dm : outcome Z Z := uadd M8 (current_disk dm) 1.
Definition set_current_disk (disk_os2 : Z) : vfs (DriveManager S) unit := λ dm,
  if (disk_os2 =? 0) || (26 <? disk_os2) then (Err E_INVALID_DRIVE, dm)
  else match idx (drives dm) (disk_os2 - 1) with
       | None => (Panic, dm)
       | Some None => (Err E_INVALID_DRIVE, dm)
       | Some (Some _) => (Ok tt, with_current dm (disk_os2 - 1) (current_dirs dm))
       end.
Definition current_dir dm (drive : Z) : outcome Z rstring :=
  if 26 <=? drive then Ok [] else unwrap (idx (current_dirs dm) drive).
Definition set_current_dir (os2_path : rstring) : vfs (DriveManager S) unit :=
  '(drive, rel_path) ← resolve os2_path;
  dm ← vfs_get;
  vfs_set (with_current dm (current_disk dm) (<[Z.to_nat drive := rel_path]> (current_dirs dm))).
Definition logical_drive_map dm : Z :=
  foldl (λ m '(i, d), match d with Some _ => Z.lor m (Z.shiftl 1 i) | None => m end) 0
    (zip (seqZ 0 (len (drives dm))) (drives dm)).
End manager.

(** * Lemmas *)

(** The path part of the backend contract: no backslash, no slash at the start. *)
Definition rel_ok (r : rstring) : Prop := (BACKSLASH ∉ r) ∧ head r ≠ Some SLASH.

Lemma rel_ok_nil : rel_ok [].
Proof. split; [apply not_elem_of_nil|done]. Qed.
Lemma to_slashes_none s : BACKSLASH ∉ to_slashes s.
Proof.
  unfold to_slashes. intros (c & Hc & _)%list_elem_of_In%in_map_iff.
  destruct (Z.eqb_spec c BACKSLASH); unfold BACKSLASH, SLASH in *; lia.
Qed.
Lemma trim_slashes_suffix s : ∃ t, s = t ++ trim_slashes s.
Proof.
  induction s as [|c s [t Ht]]; [by exists []|]. cbn [trim_slashes].
  destruct (c =? SLASH); [exists (c :: t); simpl; by f_equal|by exists []].
Qed.
Lemma trim_slashes_head s : head (trim_slashes s) ≠ Some SLASH.
Proof.
  induction s as [|c s IH]; [done|]. cbn [trim_slashes].
  destruct (Z.eqb_spec c SLASH); [done|]. simpl. congruence.
Qed.
Lemma trim_slashes_ok s : BACKSLASH ∉ s → rel_ok (trim_slashes s).
Proof.
  intros Hs. split; [|apply trim_slashes_head]. destruct (trim_slashes_suffix s) as [t Ht].
  rewrite Ht in Hs. set_solver.
Qed.
Lemma join_ok cur rest : cur ≠ [] → rel_ok cur → rel_ok rest → rel_ok (cur ++ [SLASH] ++ rest).
Proof.
  intros Hne [Hc1 Hc2] [Hr _]. split; [|by destruct cur].
  rewrite !elem_of_app. intros [?|[?%list_elem_of_singleton|?]]; done.
Qed.

(** A colon at byte 1 is the second character, after one of one byte. *)
Lemma has_drive_chars s : has_drive s = true → ∃ c s', s = c :: COLON :: s' ∧ len (utf8_char c) = 1.
Proof.
  unfold has_drive, byte_at. rewrite bool_decide_eq_true. destruct s as [|c s]; [done|].
  unfold as_bytes. cbn [map concat]. unfold utf8_char at 1.
  pose proof (Z.mod_pos_bound c 64). pose proof (Z.mod_pos_bound (c / 64) 64).
  pose proof (Z.mod_pos_bound (c / 4096) 64).
  unfold idx, COLON. case_match; [|done].
  destruct (Z.ltb_spec c 0x80); cycle 1.
  { repeat case_match; cbn; intros [= ?]; lia. }
  destruct s as [|d s]; [done|]. cbn [map concat app]. intros Hd. exists c, s.
  assert (len (utf8_char c) = 1) as ->.
  { unfold utf8_char. by rewrite (proj2 (Z.ltb_lt c 0x80)). }
  split; [|done]. do 2 f_equal. revert Hd. unfold utf8_char.
  pose proof (Z.mod_pos_bound d 64). pose proof (Z.div_pos d 64). pose proof (Z.div_pos d 4096).
  pose proof (Z.div_pos d 262144).
  destruct (Z.ltb_spec d 0x80); [cbn; by intros [= ->]|].
  repeat case_match; cbn; intros [= ?]; lia.
Qed.
Lemma byte_at_0 c s : len (utf8_char c) = 1 → byte_at (c :: s) 0 = Some c.
Proof.
  unfold byte_at, as_bytes. cbn [map concat]. unfold utf8_char at 1 2. intros Hl.
  destruct (c <? 0x80); [|by repeat case_match].
  cbn [app]. unfold idx. rewrite len_cons.
  pose proof (len_nonneg (concat (map utf8_char s))). by zbool.
Qed.
Lemma str_from_2 c d s : len (utf8_char c) = 1 → d = COLON →
  str_from 2 (c :: d :: s) = Ok s.
Proof.
  intros Hl ->. cbn [str_from]. rewrite Hl. change (len (utf8_char COLON)) with 1. by destruct s.
Qed.

Section facts.
Context {B : Build} {S : Type} {BE : VfsBackend S}.
Implicit Types dm : DriveManager S.

(** What every operation keeps: 26 drives and directories in the form of the contract, handles
    below their counters, on drives that exist. *)
Record dm_ok dm : Prop := {
  ok_drives : length (drives dm) = 26%nat;
  ok_dirs_len : length (current_dirs dm) = 26%nat;
  ok_disk : 0 ≤ current_disk dm < 26;
  ok_dirs : Forall rel_ok (current_dirs dm);
  ok_std : 3 ≤ next_file_handle dm;
  ok_files : ∀ h e, file_handles dm !! h = Some e →
    3 ≤ h < next_file_handle dm ∧ 0 ≤ fe_drive e < 26;
  ok_finds : ∀ h e, find_handles dm !! h = Some e →
    h < next_find_handle dm ∧ 0 ≤ fi_drive e < 26;
}.

Lemma dm_new_ok : dm_ok (dm_new (S := S)).
Proof.
  split; try done; try (cbn; lia).
  by repeat constructor; try apply not_elem_of_nil.
Qed.

Lemma idx_26 {A} (l : list A) d : length l = 26%nat → 0 ≤ d < 26 → ∃ a, idx l d = Some a.
Proof.
  intros Hl Hd. unfold idx, len. rewrite Hl. zbool. apply lookup_lt_is_Some_2. lia.
Qed.
Lemma idx_Forall {A} (P : A → Prop) l i a : Forall P l → idx l i = Some a → P a.
Proof. intros HP. unfold idx. case_match; [|done]. apply Forall_lookup_1, HP. Qed.

Lemma join_current_ok dm d rest : dm_ok dm → 0 ≤ d < 26 → rel_ok rest →
  ∃ r, join_current dm d rest = Ok r ∧ rel_ok r.
Proof.
  intros Hok Hd Hr. destruct (idx_26 (current_dirs dm) d (ok_dirs_len _ Hok) Hd) as [cur Hc].
  unfold join_current. rewrite Hc. out_simpl. eexists. split; [done|].
  case_bool_decide; [done|]. apply join_ok; [done| |done].
  eapply idx_Forall; [apply (ok_dirs _ Hok)|done].
Qed.

(** Path resolution returns, with a mounted drive and a path in the form of the contract. *)
Lemma resolve_path_ok dm p : dm_ok dm →
  match resolve_path dm p with
  | Ok (d, rel) => 0 ≤ d < 26 ∧ (∃ b, idx (drives dm) d = Some (Some b)) ∧ rel_ok rel
  | Err e => e = E_PATH_NOT_FOUND ∨ e = E_INVALID_DRIVE
  | _ => False
  end.
Proof.
  intros Hok. unfold resolve_path. destruct (_ || _); [by left|].
  assert (∃ m, (if has_drive (to_slashes p) then _ else _) = m ∧
    match m with
    | Ok (d, rest) => 0 ≤ d < 26 ∧ (BACKSLASH ∉ (rest : list Z))
    | Err e => e = E_INVALID_DRIVE
    | _ => False
    end) as (m & -> & Hm).
  { eexists. split; [reflexivity|]. pose proof (to_slashes_none p) as Hns.
    destruct (has_drive (to_slashes p)) eqn:Hd; [|split; [apply Hok|done]].
    apply has_drive_chars in Hd as (c & s & Hp & Hl). rewrite Hp, byte_at_0 by done.
    cbn [default]. destruct (in_range _ _ _) eqn:Hr; [|done].
    rewrite str_from_2 by done. out_simpl. unfold in_range in Hr. split; [lia|].
    rewrite Hp in Hns. set_solver. }
  destruct m as [[d rest]|e| |]; [|by right|done..]. destruct Hm as [Hd Hns]. out_simpl.
  destruct (idx_26 (drives dm) d (ok_drives _ Hok) Hd) as [[b|] Hb]; rewrite Hb; out_simpl;
    [|by right].
  pose proof (trim_slashes_ok rest Hns) as Hrel.
  assert (∃ r, (if bool_decide (trim_slashes rest = []) then _ else _) = Ok r ∧ rel_ok r)
    as (r & -> & Hr); [|by out_simpl; split_and!; [lia..|exists b|]].
  case_bool_decide.
  - destruct (idx_26 (current_dirs dm) d (ok_dirs_len _ Hok) Hd) as [cur Hc]. rewrite Hc.
    eexists. split; [done|]. eapply idx_Forall; [apply (ok_dirs _ Hok)|done].
  - repeat case_match; eauto; by apply join_current_ok.
Qed.

(** ** What an operation changes *)

(** Any operation of a client, with the handle it gives out. *)
Inductive dm_op :=
| OpOpen (p : rstring) (mode : OpenMode) (sharing : SharingMode) (flags : OpenFlags) (attrs : Z)
| OpClose (h : Z) | OpRead (h n : Z) | OpWrite (h : Z) (data : bytes)
| OpSeek (h offset : Z) (mode : SeekMode) | OpFlush (h : Z) | OpSetSize (h n : Z)
| OpLocks (h : Z) (unlock lock : list FileLockRange) (timeout_ms : Z)
| OpQueryFile (h level : Z)
| OpFindFirst (p : rstring) (attrs level : Z) | OpFindNext (h : Z) | OpFindClose (h : Z)
| OpCreateDir (p : rstring) | OpDeleteDir (p : rstring) | OpDelete (p : rstring)
| OpQueryPath (p : rstring) (level : Z)
| OpRename (old new : rstring) | OpCopy (src dst : rstring)
| OpSetDisk (d : Z) | OpSetDir (p : rstring).

Definition silent {A} (m : vfs (DriveManager S) A) : vfs (DriveManager S) (option Z) :=
  m;; mret None.
Definition dm_step (op : dm_op) : vfs (DriveManager S) (option Z) :=
  match op with
  | OpOpen p m s f a => '(h, _) ← open_file p m s f a; mret (Some h)
  | OpClose h => silent (close_file h)
  | OpRead h n => silent (read_file h n)
  | OpWrite h data => silent (write_file h data)
  | OpSeek h o m => silent (seek_file h o m)
  | OpFlush h => silent (flush_file h)
  | OpSetSize h n => silent (set_file_size h n)
  | OpLocks h u l t => silent (set_file_locks h u l t)
  | OpQueryFile h l => silent (query_file_info h l)
  | OpFindFirst p a l => '(h, _) ← find_first p a l; mret (Some h)
  | OpFindNext h => silent (find_next h)
  | OpFindClose h => silent (find_close h)
  | OpCreateDir p => silent (create_dir p)
  | OpDeleteDir p => silent (delete_dir p)
  | OpDelete p => silent (delete_file p)
  | OpQueryPath p l => silent (query_path_info p l)
  | OpRename p q => silent (rename_file p q)
  | OpCopy p q => silent (copy_file p q)
  | OpSetDisk d => silent (set_current_disk d)
  | OpSetDir p => silent (set_current_dir p)
  end.

(** The drive whose backend an operation may use. *)
Definition path_drive dm (p : rstring) : option Z :=
  match resolve_path dm p with Ok (d, _) => Some d | _ => None end.
Definition addressed dm (op : dm_op) : option Z :=
  match op with
  | OpOpen p _ _ _ _ | OpFindFirst p _ _ | OpCreateDir p | OpDeleteDir p | OpDelete p
  | OpQueryPath p _ | OpRename p _ | OpCopy p _ => path_drive dm p
  | OpClose h | OpRead h _ | OpWrite h _ | OpSeek h _ _ | OpFlush h | OpSetSize h _
  | OpLocks h _ _ _ | OpQueryFile h _ => fe_drive <$> file_handles dm !! h
  | OpFindNext h | OpFindClose h => fi_drive <$> find_handles dm !! h
  | OpSetDisk _ | OpSetDir _ => None
  end.
Definition mounted dm (d : Z) : Prop := ∃ b, idx (drives dm) d = Some (Some b).

(** Everything is as before, except the state of the backend of [d]. *)
Definition same_but_drive (d : option Z) dm dm' : Prop :=
  ∃ l, dm' = with_drives dm l ∧ length l = 26%nat ∧
    (∀ d', d ≠ Some d' → idx l d' = idx (drives dm) d') ∧
    ∀ d', mounted (with_drives dm l) d' ↔ mounted dm d'.

Lemma same_refl d dm : dm_ok dm → same_but_drive d dm dm.
Proof. intros Hok. exists (drives dm). split_and!; try done; [by destruct dm|apply Hok]. Qed.
Lemma idx_insert_ne {A} (l : list A) d d' a : 0 ≤ d → d ≠ d' → idx (<[Z.to_nat d := a]> l) d' = idx l d'.
Proof.
  intros Hd Hne. unfold idx, len. rewrite length_insert. destruct ((0 <=? d') && _) eqn:H; [|done].
  apply list_lookup_insert_ne. lia.
Qed.
Lemma on_drive_same {A} e d (op : vfs S A) dm : dm_ok dm → 0 ≤ d < 26 →
  same_but_drive (Some d) dm (on_drive e d op dm).2.
Proof.
  intros Hok Hd. unfold on_drive. destruct (idx_26 (drives dm) d (ok_drives _ Hok) Hd) as [[b|] Hb];
    rewrite Hb; [|by apply same_refl]. destruct (op b) as [r b'].
  eexists. split; [done|]. rewrite length_insert. split; [apply Hok|].
  split; [intros d' Hne; apply idx_insert_ne; [lia|congruence]|].
  intros d'. unfold mounted. cbn [drives with_drives].
  destruct (decide (d = d')) as [<-|Hne]; [|by rewrite idx_insert_ne by (lia || done)].
  split; intros _; [by exists b|]. exists b'. unfold idx in *. unfold len in *. rewrite length_insert.
  destruct ((0 <=? d) && _); [|done]. apply list_lookup_insert_eq.
  by eapply lookup_lt_Some.
Qed.
Lemma on_backend_same {A} d (op : vfs S A) dm : dm_ok dm → 0 ≤ d < 26 →
  same_but_drive (Some d) dm (on_backend d op dm).2.
Proof. intros. unfold on_backend. rewrite (proj2 (Z.leb_gt 26 d)) by lia. by apply on_drive_same. Qed.
Lemma silent_snd {A} (m : vfs (DriveManager S) A) dm : (silent m dm).2 = (m dm).2.
Proof. unfold silent, mbind, vfs_bind. by destruct (m dm) as [[]]. Qed.
Lemma on_file_same {A} h (op : Z → vfs S A) dm : dm_ok dm →
  same_but_drive (fe_drive <$> file_handles dm !! h) dm (on_file h op dm).2.
Proof.
  intros Hok. unfold on_file, mbind, vfs_bind, vfs_get.
  destruct (file_handles dm !! h) as [e|] eqn:He; [|by apply same_refl].
  apply on_drive_same; [done|]. apply (ok_files _ Hok _ _ He).
Qed.
Lemma on_path_same {A} p (op : rstring → vfs S A) dm : dm_ok dm →
  same_but_drive (path_drive dm p) dm (on_path p op dm).2.
Proof.
  intros Hok. unfold on_path, path_drive, mbind, vfs_bind, resolve.
  pose proof (resolve_path_ok dm p Hok) as Hr.
  destruct (resolve_path dm p) as [[d rel]| | |]; try by apply same_refl.
  apply on_backend_same; [done|lia].
Qed.
Lemma on_two_paths_same {A} p q (op : rstring → rstring → vfs S A) dm : dm_ok dm →
  same_but_drive (path_drive dm p) dm (on_two_paths p q op dm).2.
Proof.
  intros Hok. unfold on_two_paths, path_drive, mbind, vfs_bind, resolve.
  pose proof (resolve_path_ok dm p Hok) as Hr.
  destruct (resolve_path dm p) as [[d rel]| | |]; try by apply same_refl.
  destruct (resolve_path dm q) as [[d' rel']| | |]; try by apply same_refl.
  destruct (d =? d'); [|by apply same_refl]. apply on_backend_same; [done|lia].
Qed.
Lemma same_ok d dm dm' : dm_ok dm → same_but_drive d dm dm' → dm_ok dm'.
Proof. intros [] (l & -> & Hl & _). by split. Qed.

(** What a step promises.  [iso_open]: a new handle is not one of the standard handles nor one in
    use, and names what the backend opened on the drive of the path. *)
Record isolated dm (op : dm_op) (r : outcome Z (option Z)) dm' : Prop := {
  iso_ok : dm_ok dm';
  iso_mounted : ∀ d, mounted dm' d ↔ mounted dm d;
  iso_drives : ∀ d, addressed dm op ≠ Some d → idx (drives dm') d = idx (drives dm) d;
  iso_files : ∀ h e, op ≠ OpClose h → file_handles dm !! h = Some e → file_handles dm' !! h = Some e;
  iso_finds : ∀ h e, op ≠ OpFindClose h → find_handles dm !! h = Some e → find_handles dm' !! h = Some e;
  iso_closed : ∀ h, op = OpClose h → file_handles dm' !! h = None;
  iso_find_closed : ∀ h, op = OpFindClose h → find_handles dm' !! h = None;
  iso_open : ∀ p m s f a h, op = OpOpen p m s f a → r = Ok (Some h) →
    3 ≤ h ∧ file_handles dm !! h = None ∧ check_device_name p = None ∧
    ∃ d rel vh, resolve_path dm p = Ok (d, rel) ∧ rel_ok rel ∧
      file_handles dm' !! h = Some (mk_fentry d vh);
  iso_find_first : ∀ p a l h, op = OpFindFirst p a l → r = Ok (Some h) →
    find_handles dm !! h = None ∧ find_level dm' h = l ∧
    ∃ d rel vh, resolve_path dm p = Ok (d, rel) ∧ rel_ok rel ∧
      find_handles dm' !! h = Some (mk_find d vh l p);
}.

Definition gives_handle (op : dm_op) : bool :=
  match op with OpOpen _ _ _ _ _ | OpFindFirst _ _ _ => true | _ => false end.
Definition closes (op : dm_op) : bool :=
  match op with OpClose _ | OpFindClose _ => true | _ => false end.

Lemma same_isolated dm op r dm' : dm_ok dm →
  gives_handle op = false ∨ (∀ h, r ≠ Ok (Some h)) → closes op = false →
  same_but_drive (addressed dm op) dm dm' → isolated dm op r dm'.
Proof.
  intros Hok Hg Hc Hs. pose proof (same_ok _ _ _ Hok Hs) as Hok'.
  destruct Hs as (l & -> & Hl & Hd & Hm).
  split; try done; try (intros; by subst op);
    intros * -> ->; destruct Hg as [Hg|Hg]; try done; by destruct (Hg h).
Qed.

Lemma files_fresh dm : dm_ok dm → file_handles dm !! next_file_handle dm = None.
Proof.
  intros Hok. destruct (file_handles dm !! _) as [e|] eqn:He; [|done].
  apply (ok_files _ Hok) in He. lia.
Qed.
Lemma finds_fresh dm : dm_ok dm → find_handles dm !! next_find_handle dm = None.
Proof.
  intros Hok. destruct (find_handles dm !! _) as [e|] eqn:He; [|done].
  apply (ok_finds _ Hok) in He. lia.
Qed.

(** An operation that gave no handle. *)
Lemma no_handle_isolated dm op r dm' : dm_ok dm → (∀ h, r ≠ Ok (Some h)) → closes op = false →
  same_but_drive (addressed dm op) dm dm' → isolated dm op r dm'.
Proof. intros. apply same_isolated; auto. Qed.

Lemma open_isolated dm p m s f a : dm_ok dm → next_file_handle dm + 1 < M32 →
  let '(r, dm') := dm_step (OpOpen p m s f a) dm in isolated dm (OpOpen p m s f a) r dm'.
Proof.
  intros Hok Hn. cbn [dm_step]. unfold open_file, resolve, mbind, vfs_bind, vfs_get, vfs_set,
    vfs_lift, vfs_err, mret, vfs_ret.
  destruct (check_device_name p) eqn:Hdev; [by apply no_handle_isolated; [..|apply same_refl]|].
  pose proof (resolve_path_ok dm p Hok) as Hr.
  destruct (resolve_path dm p) as [[d rel]| | |] eqn:Hp;
    [|by apply no_handle_isolated; [..|apply same_refl]|done..].
  pose proof (on_drive_same E_INVALID_DRIVE d (be_open rel m s f a) dm Hok ltac:(lia)) as Hs.
  destruct (on_drive _ _ _ dm) as [[[vh act]| | |] dm1]; simpl in Hs;
    [|apply no_handle_isolated; try done; cbn; unfold path_drive; by rewrite Hp..].
  pose proof (same_ok _ _ _ Hok Hs) as Hok1. destruct Hs as (l & -> & Hl & Hd & Hm).
  cbn [next_file_handle file_handles with_drives]. rewrite uadd_ok by lia.
  destruct Hr as (Hd26 & _ & Hrel).
  pose proof (files_fresh _ Hok) as Hfresh. pose proof (ok_std _ Hok).
  split; try done; cbn [drives with_drives with_files file_handles addressed next_file_handle].
  - destruct Hok1. split; try done;
      cbn [with_drives with_files file_handles next_file_handle drives]; [lia|].
    intros h e [[<- <-]|[_ He]]%lookup_insert_Some; cbn [fe_drive]; [lia|].
    apply (ok_files _ Hok h e) in He. lia.
  - intros d'. unfold path_drive. rewrite Hp. apply Hd.
  - intros h e _ He. rewrite lookup_insert_ne; [done|]. intros <-. congruence.
  - intros ?????? [= <- <- <- <- <-] [= <-]. split_and!; try done.
    exists d, rel, vh. by rewrite lookup_insert_eq.
Qed.
Lemma find_first_isolated dm p a v : dm_ok dm → next_find_handle dm + 1 < M32 →
  let '(r, dm') := dm_step (OpFindFirst p a v) dm in isolated dm (OpFindFirst p a v) r dm'.
Proof.
  intros Hok Hn. cbn [dm_step]. unfold find_first, resolve, mbind, vfs_bind, vfs_get, vfs_set,
    vfs_lift, vfs_err, mret, vfs_ret.
  pose proof (resolve_path_ok dm p Hok) as Hr.
  destruct (resolve_path dm p) as [[d rel]| | |] eqn:Hp;
    [|by apply no_handle_isolated; [..|apply same_refl]|done..].
  pose proof (on_drive_same E_INVALID_DRIVE d (be_find_first rel a) dm Hok ltac:(lia)) as Hs.
  destruct (on_drive _ _ _ dm) as [[[vh ent]| | |] dm1]; simpl in Hs;
    [|apply no_handle_isolated; try done; cbn; unfold path_drive; by rewrite Hp..].
  pose proof (same_ok _ _ _ Hok Hs) as Hok1. destruct Hs as (l & -> & Hl & Hd & Hm).
  cbn [next_find_handle find_handles with_drives]. rewrite uadd_ok by lia.
  destruct Hr as (Hd26 & _ & Hrel). pose proof (finds_fresh _ Hok) as Hfresh.
  split; try done; cbn [drives with_drives with_finds find_handles addressed next_find_handle].
  - destruct Hok1. split; try done;
      cbn [with_drives with_finds find_handles next_find_handle drives].
    intros h e [[<- <-]|[_ He]]%lookup_insert_Some; cbn [fi_drive]; [lia|].
    apply (ok_finds _ Hok h e) in He. lia.
  - intros d'. unfold path_drive. rewrite Hp. apply Hd.
  - intros h e _ He. rewrite lookup_insert_ne; [done|]. intros <-. congruence.
  - intros ???? [= <- <- <-] [= <-]. unfold find_level.
    cbn [find_handles with_finds]. rewrite !lookup_insert_eq. split_and!; try done.
    by exists d, rel, vh.
Qed.
Lemma close_isolated dm h : dm_ok dm →
  let '(r, dm') := dm_step (OpClose h) dm in isolated dm (OpClose h) r dm'.
Proof.
  intros Hok. cbn [dm_step]. destruct (silent (close_file h) dm) as [r dm'] eqn:Hst.
  assert (dm' = (close_file h dm).2) as -> by (by rewrite <- silent_snd, Hst). clear Hst.
  unfold close_file, mbind, vfs_bind, vfs_get, vfs_set, vfs_err.
  destruct (file_handles dm !! h) as [e|] eqn:He; cycle 1.
  { split; try done; by intros ? [= ->]. }
  pose proof (ok_files _ Hok h e He) as He'.
  set (dm1 := with_files dm (delete h (file_handles dm)) (next_file_handle dm)).
  assert (dm_ok dm1) as Hok1.
  { destruct Hok. split; try done. cbn. intros k e' [_ Hk]%lookup_delete_Some.
    by apply (ok_files0 k e'). }
  pose proof (on_drive_same E_INVALID_HANDLE (fe_drive e) (be_close (fe_handle e)) dm1 Hok1
    ltac:(lia)) as Hs.
  pose proof (same_ok _ _ _ Hok1 Hs) as Hok2. destruct Hs as (l & Heq & Hl & Hd & Hm).
  cbn. rewrite Heq in *. cbn in Hd, Hm. split; try done; cbn.
  - intros d'. rewrite He. apply Hd.
  - intros k e' Hne Hk. rewrite lookup_delete_ne by congruence. done.
  - intros k [= ->]. apply lookup_delete_eq.
Qed.
Lemma find_close_isolated dm h : dm_ok dm →
  let '(r, dm') := dm_step (OpFindClose h) dm in isolated dm (OpFindClose h) r dm'.
Proof.
  intros Hok. cbn [dm_step]. destruct (silent (find_close h) dm) as [r dm'] eqn:Hst.
  assert (dm' = (find_close h dm).2) as -> by (by rewrite <- silent_snd, Hst). clear Hst.
  unfold find_close, mbind, vfs_bind, vfs_get, vfs_set, vfs_err.
  destruct (find_handles dm !! h) as [e|] eqn:He; cycle 1.
  { split; try done; by intros ? [= ->]. }
  pose proof (ok_finds _ Hok h e He) as He'.
  set (dm1 := with_finds dm (delete h (find_handles dm)) (next_find_handle dm)).
  assert (dm_ok dm1) as Hok1.
  { destruct Hok. split; try done. cbn. intros k e' [_ Hk]%lookup_delete_Some.
    by apply (ok_finds0 k e'). }
  pose proof (on_drive_same E_INVALID_HANDLE (fi_drive e) (be_find_close (fi_handle e)) dm1 Hok1
    ltac:(lia)) as Hs.
  pose proof (same_ok _ _ _ Hok1 Hs) as Hok2. destruct Hs as (l & Heq & Hl & Hd & Hm).
  cbn. rewrite Heq in *. cbn in Hd, Hm. split; try done; cbn.
  - intros d'. rewrite He. apply Hd.
  - intros k e' Hne Hk. rewrite lookup_delete_ne by congruence. done.
  - intros k [= ->]. apply lookup_delete_eq.
Qed.

Lemma set_disk_isolated dm d : dm_ok dm →
  let '(r, dm') := dm_step (OpSetDisk d) dm in isolated dm (OpSetDisk d) r dm'.
Proof.
  intros Hok. cbn [dm_step]. unfold silent, set_current_disk, mbind, vfs_bind, mret, vfs_ret.
  assert (isolated dm (OpSetDisk d) (Err E_INVALID_DRIVE) dm) as Herr
    by (apply no_handle_isolated; try done; by apply same_refl).
  destruct (_ || _); [done|]. destruct (idx (drives dm) (d - 1)) as [[b|]|] eqn:Hi; [|done|].
  - apply idx_Some_range in Hi. unfold len in Hi. split; try done. destruct Hok.
    split; try done. cbn. lia.
  - apply no_handle_isolated; try done. by apply same_refl.
Qed.
Lemma set_dir_isolated dm p : dm_ok dm →
  let '(r, dm') := dm_step (OpSetDir p) dm in isolated dm (OpSetDir p) r dm'.
Proof.
  intros Hok. cbn [dm_step].
  unfold silent, set_current_dir, resolve, mbind, vfs_bind, vfs_get, vfs_set, mret, vfs_ret.
  pose proof (resolve_path_ok dm p Hok) as Hr.
  destruct (resolve_path dm p) as [[d rel]| | |];
    [|by apply no_handle_isolated; [..|apply same_refl]|done..].
  split; try done. destruct Hok. split; try done; cbn; [by rewrite length_insert|].
  apply Forall_insert; [done|apply Hr].
Qed.
End facts.

(** The drives are isolated.  On a manager whose counters have room, every operation keeps
    the manager well formed and the drives mounted, changes the state of no backend but that of
    the drive its path or handle refers to, and loses no handle but the one it closes; a handle
    it gives out is new, is not a standard handle, and names an object on the drive of its path,
    opened with a path in the form the backends rely on. *)
Theorem drives_isolated {B : Build} {S : Type} {BE : VfsBackend S} (dm : DriveManager S)
    (op : dm_op) :
  dm_ok dm → next_file_handle dm + 1 < M32 → next_find_handle dm + 1 < M32 →
  let '(r, dm') := dm_step op dm in isolated dm op r dm'.
Proof.
  intros Hok Hf Hd.
  destruct op; try (by apply open_isolated); try (by apply find_first_isolated);
    try (by apply close_isolated); try (by apply find_close_isolated);
    try (by apply set_disk_isolated); try (by apply set_dir_isolated);
    match goal with |- let '(r, dm') := ?m dm in _ => destruct (m dm) as [r dm'] eqn:Hst end;
    cbn [dm_step] in Hst;
    (apply same_isolated; [done|by left|done|]);
    apply (f_equal snd) in Hst; rewrite silent_snd in Hst; cbn in Hst; subst dm';
    try (by apply on_file_same); try (by apply on_path_same); try (by apply on_two_paths_same).
  - unfold query_file_info, mbind, vfs_bind, vfs_get, vfs_err. cbn [addressed].
    destruct (file_handles dm !! h) as [e|] eqn:He; [|by apply same_refl].
    apply on_backend_same; [done|]. apply (ok_files _ Hok _ _ He).
  - unfold find_next, mbind, vfs_bind, vfs_get, vfs_err. cbn [addressed].
    destruct (find_handles dm !! h) as [e|] eqn:He; [|by apply same_refl].
    apply on_drive_same; [done|]. apply (ok_finds _ Hok _ _ He).
Qed.

(** A backend whose state counts the objects it opened. *)
Definition demo_backend : VfsBackend Z := {|
  be_open _ _ _ _ _ n := (Ok (n, Existed), n + 1);
  be_close _ := mret tt;
  be_read _ _ := mret [];
  be_write _ data := mret (len data);
  be_seek _ _ _ := mret 0;
  be_set_file_size _ _ := mret tt;
  be_flush _ := mret tt;
  be_find_first _ _ := vfs_err E_NO_MORE_FILES;
  be_find_next _ := vfs_err E_NO_MORE_FILES;
  be_find_close _ := mret tt;
  be_create_dir _ := mret tt;
  be_delete_dir _ := mret tt;
  be_delete _ := mret tt;
  be_rename _ _ := mret tt;
  be_copy _ _ := mret tt;
  be_query_path_info _ _ := vfs_err E_FILE_NOT_FOUND;
  be_query_file_info _ _ := vfs_err E_FILE_NOT_FOUND;
  be_set_file_locks _ _ _ _ := mret tt;
  be_to_host_path _ := mret None;
|}.
Definition demo_dm : DriveManager Z :=
  with_drives dm_new (<[2%nat := Some 100]> (<[3%nat := Some 200]> (replicate 26 None))).

Lemma demo_dm_ok : dm_ok demo_dm.
Proof. destruct (dm_new_ok (S := Z)). by split. Qed.

(** Opening D:\sub\x.txt gives handle 3 on the second drive; C: is as before. *)
Lemma drives_isolated_witness :
  let op := OpOpen (str "D:\sub\x.txt") ReadOnly DenyNone (mk_flags ExistOpen NewFail) 0 in
  let '(r, dm') := dm_step (B := dev_profile) (BE := demo_backend) op demo_dm in
  r = Ok (Some 3) ∧ isolated demo_dm op r dm' ∧
  idx (drives dm') 2 = Some (Some 100) ∧ idx (drives dm') 3 = Some (Some 201) ∧
  file_handles dm' !! 3 = Some (mk_fentry 3 200).
Proof.
  intros op.
  pose proof (drives_isolated (B := dev_profile) (BE := demo_backend) demo_dm op demo_dm_ok
    ltac:(by vm_compute) ltac:(by vm_compute)) as H.
  change (let '(r, dm') := dm_step (B := dev_profile) (BE := demo_backend) op demo_dm in
          isolated demo_dm op r dm') in H.
  destruct (dm_step op demo_dm) as [r dm'] eqn:E. vm_compute in E. injection E as <- <-.
  split_and!; try done.
Defined.

(** The root of a drive asked for by name is its current directory. *)
Lemma root_is_current_dir {S} (dm : DriveManager S) b cur :
  idx (drives dm) 2 = Some (Some b) → idx (current_dirs dm) 2 = Some cur →
  resolve_path dm (str "C:\") = Ok (2, cur).
Proof.
  intros Hd Hc. unfold resolve_path.
  change (str_starts _ _ || _) with false. change (has_drive _) with true. cbv iota.
  change (in_range _ _ _) with true. cbv iota. change (str_from _ _) with (Ok [SLASH] : outcome Z rstring).
  out_simpl. change (_ - 0x41) with 2. rewrite Hd. out_simpl. by rewrite Hc.
Qed.
