(* ===== verification/HostDir.v ===== *)
(** The host-directory drive backend of src/src/loader/vfs_hostdir.rs: case-insensitive path
    resolution with its directory cache, the sandbox, sharing modes, wildcards, DOS dates, and
    the [VfsBackend] operations over the host file system of [HostFs].

    Files and searches are kept by number; a lock is held for one operation.  Whether the root
    ignores case in the kernel and takes extended attributes are flags of the state, found out
    once by [HostDirBackend::new]; the attributes and the volume label are left out. *)
From S2P Require Import Prelude Bytes HostFs Vfs.

(** * DOS dates *)

Definition as_i32 (x : Z) : Z := (x + 2 ^ 31) mod 2 ^ 32 - 2 ^ 31.
Section dates.
Context {B : Build}.

(** An i32 addition. *)
Definition iadd (a b : Z) : outcome Z Z :=
  let s := a + b in
  if (- 2 ^ 31 <=? s) && (s <? 2 ^ 31) then Ok s
  else if overflow_checks then Panic else Ok (as_i32 s).

(** [days_to_ymd]; [/] truncates toward zero, and [doe] to [m] fit their u32. *)
Definition days_to_ymd (days_since_epoch : Z) : outcome Z (Z * Z * Z) :=
  let z := days_since_epoch + 719468 in
  let era := Z.quot (if 0 <=? z then z else z - 146096) 146097 in
  let doe := z - era * 146097 in
  let yoe := (doe - doe / 1460 + doe / 36524 - doe / 146096) / 365 in
  y ← iadd yoe (as_i32 (era * 400));
  let doy := doe - (365 * yoe + yoe / 4 - yoe / 100) in
  let mp := (5 * doy + 2) / 153 in
  let d := doy - (153 * mp + 2) / 5 + 1 in
  let m := if mp <? 10 then mp + 3 else mp - 9 in
  y ← (if m <=? 2 then iadd y 1 else Ok y);
  Ok (y, m, d).

(** [systemtime_to_dos], of the seconds since the epoch; a time before it counts as 0. *)
Definition systemtime_to_dos (st : Z) : outcome Z (Z * Z) :=
  let secs := Z.max 0 st in
  let days := secs / 86400 in
  let time_of_day := secs mod 86400 in
  let hours := time_of_day / 3600 in
  let minutes := time_of_day mod 3600 / 60 in
  let seconds := time_of_day mod 60 in
  '(year, month, day) ← days_to_ymd days;
  y ← iadd year (-1980);
  let dos_year := as_u M16 (Z.max 0 y) in
  let dos_date := Z.lor (Z.lor (as_u M16 (Z.shiftl dos_year 9)) (Z.shiftl month 5)) day in
  let dos_time := Z.lor (Z.lor (Z.shiftl hours 11) (Z.shiftl minutes 5)) (seconds / 2) in
  Ok (dos_date, dos_time).

(** [metadata_to_file_status] *)
Definition dos_time_of (t : option Z) : outcome Z (Z * Z) :=
  match t with Some st => systemtime_to_dos st | None => Ok (0, 0) end.
Definition metadata_to_file_status (meta : Metadata) : outcome Z FileStatus :=
  '(cdate, ctime) ← dos_time_of (m_created meta);
  '(adate, atime) ← dos_time_of (m_accessed meta);
  '(wdate, wtime) ← dos_time_of (m_modified meta);
  let size := as_u M32 (m_len meta) in
  let attrs := if m_is_dir meta then ATTR_DIRECTORY else 0 in
  let attrs := if m_readonly meta then Z.lor attrs ATTR_READONLY else attrs in
  let attrs := if m_is_file meta then Z.lor attrs ATTR_ARCHIVE else attrs in
  s ← uadd M32 size 511;
  Ok (mk_status cdate ctime adate atime wdate wtime size
                (Z.land s (Z.lnot 511)) attrs).
End dates.

(** * Wildcards *)

Definition STAR : Z := 0x2A.
Definition QUESTION : Z := 0x3F.

(** [wildcard_match_recursive] *)
Fixpoint wildcard_match_recursive (pattern : rstring) : rstring → bool :=
  match pattern with
  | [] => λ name, match name with [] => true | _ => false end
  | c :: pattern' =>
    fix go (name : rstring) : bool :=
      if c =? STAR then
        wildcard_match_recursive pattern' name ||
        match name with [] => false | _ :: name' => go name' end
      else match name with
           | [] => false
           | x :: name' =>
             if (c =? QUESTION) || (c =? x) then wildcard_match_recursive pattern' name' else false
           end
  end.
(** [wildcard_match] *)
Definition wildcard_match (pattern name : rstring) : bool :=
  let p := to_lower pattern in
  let n := to_lower name in
  if bool_decide (p = str "*.*") then true else wildcard_match_recursive p n.

(** [attributes_match] *)
Definition attributes_match (entry_attrs filter : Z) : bool :=
  let gated := Z.lor (Z.lor ATTR_HIDDEN ATTR_SYSTEM) ATTR_DIRECTORY in
  let entry_gated := Z.land entry_attrs gated in
  negb (negb (entry_gated =? 0) && negb (Z.land entry_gated filter =? entry_gated)).

(** * Sharing *)

(** [is_sharing_compatible] *)
Definition allows (sharing : SharingMode) (mode : OpenMode) : bool :=
  match sharing with
  | DenyReadWrite => false
  | DenyWrite => bool_decide (mode = ReadOnly)
  | DenyRead => bool_decide (mode = WriteOnly)
  | DenyNone => true
  end.
Definition is_sharing_compatible (existing_mode : OpenMode) (existing_sharing : SharingMode)
    (new_mode : OpenMode) (new_sharing : SharingMode) : bool :=
  let existing_allows_new := allows existing_sharing new_mode in
  let new_allows_existing := allows new_sharing existing_mode in
  existing_allows_new && new_allows_existing.

(** [SharingTable]: the keys are paths, compared by components. *)
Definition opened : Type := Z * OpenMode * SharingMode.
Abbreviation SharingTable := (gmap path (list opened)) (only parsing).
Definition compatible_with (mode : OpenMode) (sharing : SharingMode) (o : opened) : bool :=
  let '(_, existing_mode, existing_sharing) := o in
  is_sharing_compatible existing_mode existing_sharing mode sharing.
Definition check_and_add (t : SharingTable) (p : path) (handle_id : Z) (mode : OpenMode)
    (sharing : SharingMode) : outcome Z unit * SharingTable :=
  let key := components p in
  let existing := default [] (t !! key) in
  if forallb (compatible_with mode sharing) existing
  then (Ok tt, <[key := existing ++ [(handle_id, mode, sharing)]]> t)
  else (Err E_SHARING_VIOLATION, <[key := existing]> t).
Definition sharing_remove (t : SharingTable) (p : path) (handle_id : Z) : SharingTable :=
  let key := components p in
  match t !! key with
  | None => t
  | Some entries =>
    let entries := filter (λ o : opened, o.1.1 ≠ handle_id) entries in
    if bool_decide (entries = []) then delete key t else <[key := entries]> t
  end.

(** * The backend *)

(** [DirCacheEntry]: lowercased name to name; the time is that of [Instant], in milliseconds. *)
Record DirCacheEntry := mk_cache { names : gmap rstring rstring; cached_at : Z }.
Record FindState := mk_fstate { fs_entries : list DirEntry; position : Z }.
Record OpenFileState := mk_open { file : File; of_path : path }.
Definition DIR_CACHE_TTL_MS : Z := 2000.

(** [HostDirBackend], with the host it runs on and the present time. *)
Record HostDirBackend := mk_be {
  root : path;
  files : gmap Z OpenFileState;
  finds : gmap Z FindState;
  sharing : SharingTable;
  dir_cache : gmap path DirCacheEntry;
  kernel_casefold : bool;
  xattr_supported : bool;
  next_id : Z;
  host : HostFs;
  now : Z;
}.
Definition with_files s f := mk_be (root s) f (finds s) (sharing s) (dir_cache s)
  (kernel_casefold s) (xattr_supported s) (next_id s) (host s) (now s).
Definition with_finds s f := mk_be (root s) (files s) f (sharing s) (dir_cache s)
  (kernel_casefold s) (xattr_supported s) (next_id s) (host s) (now s).
Definition with_sharing s t := mk_be (root s) (files s) (finds s) t (dir_cache s)
  (kernel_casefold s) (xattr_supported s) (next_id s) (host s) (now s).
Definition with_cache s c := mk_be (root s) (files s) (finds s) (sharing s) c
  (kernel_casefold s) (xattr_supported s) (next_id s) (host s) (now s).
Definition with_next_id s n := mk_be (root s) (files s) (finds s) (sharing s) (dir_cache s)
  (kernel_casefold s) (xattr_supported s) n (host s) (now s).
Definition with_host s h := mk_be (root s) (files s) (finds s) (sharing s) (dir_cache s)
  (kernel_casefold s) (xattr_supported s) (next_id s) h (now s).

Definition be (A : Type) : Type := vfs HostDirBackend A.

(** [HostDirBackend::map_io_error] *)
Definition map_io_error (k : io_kind) : Z :=
  match k with
  | NotFound => E_FILE_NOT_FOUND
  | PermissionDenied => E_ACCESS_DENIED
  | AlreadyExists => E_FILE_EXISTS
  | NotEmpty => E_DIRECTORY_NOT_EMPTY
  | StorageFull => E_DISK_FULL
  | NameTooLong => E_FILENAME_EXCED_RANGE
  | OtherKind => E_ACCESS_DENIED
  end.
Definition mapped {A} (m : outcome io_kind A) : outcome Z A :=
  match m with
  | Ok a => Ok a
  | Err k => Err (map_io_error k)
  | Panic => Panic
  | Diverge => Diverge
  end.
(** A host call, its error mapped. *)
Definition host_call {A} (c : call A) : be A := λ s,
  let '(r, h) := c (host s) in (mapped r, with_host s h).
(** [.ok_or(e)?] on an optional step, and [?] on a check. *)
Definition need {A} (e : Z) (o : option A) : be A :=
  match o with Some a => mret a | None => vfs_err e end.

(** [HostDirBackend::new]: the two flags are what the host detection found. *)
Definition backend_new (p : path) (has_casefold has_xattr : bool) (h : HostFs) (t : Z)
    : outcome Z HostDirBackend :=
  match canonicalize h p with
  | None => Err E_PATH_NOT_FOUND
  | Some root =>
    if is_dir h root then Ok (mk_be root ∅ ∅ ∅ ∅ has_casefold has_xattr 1 h t)
    else Err E_PATH_NOT_FOUND
  end.

(** [alloc_id]: a u64 counter that wraps. *)
Definition alloc_id : be Z := λ s,
  (Ok (next_id s), with_next_id s (wrapping_add M64 (next_id s) 1)).

(** [DirCache::lookup], [DirCache::invalidate] *)
Definition listing (l : list (rstring * Metadata)) : gmap rstring rstring :=
  foldl (λ m '(name, _), <[to_lower name := name]> m) ∅ l.
Definition cache_lookup (dir : path) (component_lower : rstring) : be (option rstring) := λ s,
  let key := components dir in
  let fresh :=
    match read_dir dir (host s) with
    | Ok l =>
      let m := listing l in
      (Ok (m !! component_lower), with_cache s (<[key := mk_cache m (now s)]> (dir_cache s)))
    | _ => (Ok None, s)
    end in
  match dir_cache s !! key with
  | Some e =>
    if now s - cached_at e <? DIR_CACHE_TTL_MS then (Ok (names e !! component_lower), s) else fresh
  | None => fresh
  end.
Definition invalidate (p : option path) : be unit := λ s,
  (Ok tt, match p with
          | Some dir => with_cache s (delete (components dir) (dir_cache s))
          | None => s
          end).

(** [resolve_component_case_insensitive], [resolve_path_case_insensitive_cached] *)
Definition resolve_component (dir : path) (component : rstring) : be (option rstring) :=
  s ← vfs_get;
  if exists_ (host s) (join dir component) then mret (Some component)
  else cache_lookup dir (to_lower component).
Fixpoint resolve_components (rt current : path) (l : list rstring) : be (option path) :=
  match l with
  | [] => mret (Some current)
  | component :: l =>
    if stays component then resolve_components rt current l
    else if is_parent component then
      if negb (path_eq current rt) then
        match path_parent current with
        | Some p => resolve_components rt p l
        | None => mret None
        end
      else resolve_components rt current l
    else
      r ← resolve_component current component;
      match r with
      | Some resolved => resolve_components rt (join current resolved) l
      | None => mret None
      end
  end.
(** [resolve_ci]; [str::split] of the empty path gives one empty piece. *)
Definition resolve_ci (rel_path : rstring) : be (option path) :=
  s ← vfs_get;
  if kernel_casefold s then
    let candidate := join (root s) rel_path in
    mret (if exists_ (host s) candidate then Some candidate else None)
  else if bool_decide (rel_path = []) then mret (Some (root s))
  else resolve_components (root s) (root s) (pieces rel_path).

(** [enforce_sandbox] *)
Definition enforce_sandbox (p : path) : be unit := λ s,
  let h := host s in
  if exists_ h p then
    match canonicalize h p with
    | None => (Err E_PATH_NOT_FOUND, s)
    | Some check_path =>
      if starts_with check_path (root s) then (Ok tt, s) else (Err E_ACCESS_DENIED, s)
    end
  else
    match path_parent p with
    | None => (Err E_PATH_NOT_FOUND, s)
    | Some parent =>
      match canonicalize h parent with
      | None => (Err E_PATH_NOT_FOUND, s)
      | Some canon_parent =>
        if negb (starts_with canon_parent (root s)) then (Err E_ACCESS_DENIED, s)
        else match file_name p with
        | None => (Err E_PATH_NOT_FOUND, s)
        | Some filename =>
          if starts_with (join canon_parent filename) (root s) then (Ok tt, s)
          else (Err E_ACCESS_DENIED, s)
        end
      end
    end.

(** [resolve_existing], [resolve_for_create] *)
Definition resolve_existing (rel_path : rstring) : be path :=
  r ← resolve_ci rel_path;
  resolved ← need E_FILE_NOT_FOUND r;
  enforce_sandbox resolved;;
  mret resolved.
(** [s.rfind('/')]: the parts before and after the last slash. *)
Fixpoint split_last_slash (s : rstring) : option (rstring * rstring) :=
  match s with
  | [] => None
  | c :: s =>
    match split_last_slash s with
    | Some (a, b) => Some (c :: a, b)
    | None => if c =? SLASH then Some ([], s) else None
    end
  end.
Definition resolve_for_create (rel_path : rstring) : be path :=
  if bool_decide (rel_path = []) then vfs_err E_PATH_NOT_FOUND
  else
    let '(parent_rel, filename) := default ([], rel_path) (split_last_slash rel_path) in
    if 254 <? len (as_bytes filename) then vfs_err E_FILENAME_EXCED_RANGE
    else
      parent ←
        (s ← vfs_get;
         if bool_decide (parent_rel = []) then mret (root s)
         else r ← resolve_ci parent_rel; need E_PATH_NOT_FOUND r);
      s ← vfs_get;
      if negb (is_dir (host s) parent) then vfs_err E_PATH_NOT_FOUND
      else
        let full := join parent filename in
        enforce_sandbox full;;
        mret full.

(** ** The operations *)

Definition on_table (f : SharingTable → outcome Z unit * SharingTable) : be unit := λ s,
  let '(r, t) := f (sharing s) in (r, with_sharing s t).

(** [open], in three parts: the path and what is done with it, by whether the file exists; *)
Definition open_path (p : rstring) (flags : OpenFlags) (existing : option path)
    : be (path * OpenAction) :=
  match existing, exist_action flags, new_action flags with
  | Some p, ExistOpen, _ => enforce_sandbox p;; mret (p, Existed)
  | Some p, ExistReplace, _ => enforce_sandbox p;; mret (p, Replaced)
  | Some _, ExistFail, _ => vfs_err E_FILE_EXISTS
  | None, _, NewCreate => q ← resolve_for_create p; mret (q, Created)
  | None, _, NewFail => vfs_err E_FILE_NOT_FOUND
  end.
(** the [OpenOptions] call and the table of open files; *)
Definition open_at (host_path : path) (mode : OpenMode) (action : OpenAction) (handle_id : Z)
    : be (Z * OpenAction) :=
  let creating := bool_decide (action = Created) || bool_decide (action = Replaced) in
  let rd := bool_decide (mode ≠ WriteOnly) in
  let wr := bool_decide (mode ≠ ReadOnly) || creating in
  s ← vfs_get;
  match open_options rd wr creating (bool_decide (action = Replaced)) host_path (host s) with
  | (Ok f, h) =>
    vfs_set (with_host s h);;
    (if creating then invalidate (path_parent host_path) else mret tt);;
    s ← vfs_get;
    vfs_set (with_files s (<[handle_id := mk_open f host_path]> (files s)));;
    mret (handle_id, action)
  | (Err k, h) =>
    vfs_set (with_sharing (with_host s h) (sharing_remove (sharing s) host_path handle_id));;
    vfs_err (map_io_error k)
  | (Panic, _) => vfs_lift Panic
  | (Diverge, _) => vfs_lift Diverge
  end.
(** and the whole, with the sharing check between. *)
Definition open (p : rstring) (mode : OpenMode) (sharing_mode : SharingMode) (flags : OpenFlags)
    (attrs : Z) : be (Z * OpenAction) :=
  existing ← resolve_ci p;
  '(host_path, action) ← open_path p flags existing;
  handle_id ← alloc_id;
  on_table (λ t, check_and_add t host_path handle_id mode sharing_mode);;
  open_at host_path mode action handle_id.

Definition close (handle : Z) : be unit :=
  s ← vfs_get;
  entry ← need E_INVALID_HANDLE (files s !! handle);
  vfs_set (with_sharing (with_files s (delete handle (files s)))
                        (sharing_remove (sharing s) (of_path entry) handle)).

(** An operation on an open file, which may move its position. *)
Definition on_open_file {A} (handle : Z) (op : File → call (A * File)) : be A :=
  s ← vfs_get;
  entry ← need E_INVALID_HANDLE (files s !! handle);
  '(a, f) ← host_call (op (file entry));
  s ← vfs_get;
  vfs_set (with_files s (<[handle := mk_open f (of_path entry)]> (files s)));;
  mret a.
Definition read (handle n : Z) : be bytes :=
  on_open_file handle (λ f h, (file_read f n h, h)).
Definition write (handle : Z) (data : bytes) : be Z :=
  on_open_file handle (λ f, file_write f data).
Definition seek (handle offset : Z) (mode : SeekMode) : be Z :=
  on_open_file handle (λ f h,
    (file_seek f match mode with
                 | SeekBegin => SeekStart (as_u M64 offset)
                 | SeekCur => SeekCurrent offset
                 | SeekFromEnd => SeekEnd offset
                 end h, h)).
Definition set_file_size (handle size : Z) : be unit :=
  on_open_file handle (λ f h, let '(r, h) := file_set_len f size h in ((λ a, (a, f)) <$> r, h)).
Definition flush (handle : Z) : be unit :=
  on_open_file handle (λ f h, (Ok (tt, f), h)).

Section operations.
Context {B : Build}.
(** The lock call of the host: the file, lock or unlock, offset and length give 0 or the errno. *)
Context (setlk : File → bool → Z → Z → Z).

(** [find_first], the loop over the directory *)
Fixpoint matching_entries (pattern : rstring) (filter : Z) (l : list (rstring * Metadata))
    : outcome Z (list DirEntry) :=
  match l with
  | [] => Ok []
  | (name, meta) :: l =>
    if wildcard_match pattern name then
      status ← metadata_to_file_status meta;
      rest ← matching_entries pattern filter l;
      Ok (if attributes_match (attributes status) filter then mk_entry name status :: rest else rest)
    else matching_entries pattern filter l
  end.
(** An entry for "." or ".." if the metadata can be read. *)
Definition dot_entry (name : rstring) (meta : outcome io_kind Metadata) : outcome Z (option DirEntry) :=
  match meta with
  | Ok m => status ← metadata_to_file_status m; Ok (Some (mk_entry name status))
  | _ => Ok None
  end.
Definition insert_find (handle_id : Z) (st : FindState) : be unit := λ s,
  (Ok tt, with_finds s (<[handle_id := st]> (finds s))).
Definition find_first (pattern : rstring) (attr_filter : Z) : be (Z * DirEntry) :=
  let '(dir_part, file_pattern) := default ([], pattern) (split_last_slash pattern) in
  dir_path ←
    (s ← vfs_get;
     if bool_decide (dir_part = []) then mret (root s)
     else r ← resolve_ci dir_part; need E_PATH_NOT_FOUND r);
  enforce_sandbox dir_path;;
  s ← vfs_get;
  let h := host s in
  if negb (is_dir h dir_path) then vfs_err E_PATH_NOT_FOUND
  else
    l ← vfs_lift (mapped (read_dir dir_path h));
    entries ← vfs_lift (matching_entries file_pattern attr_filter l);
    let dirs := attr_contains attr_filter ATTR_DIRECTORY in
    dot ← vfs_lift (if wildcard_match file_pattern CUR && dirs
                    then dot_entry CUR (metadata dir_path h) else Ok None);
    dotdot ← vfs_lift (if wildcard_match file_pattern PARENT && dirs
                       then dot_entry PARENT (metadata (default dir_path (path_parent dir_path)) h)
                       else Ok None);
    let entries := match dot with Some e => e :: entries | None => entries end in
    let entries :=
      match dotdot with
      | None => entries
      | Some e =>
        match entries with
        | f :: rest => if bool_decide (name f = CUR) then f :: e :: rest else e :: f :: rest
        | [] => [e]
        end
      end in
    match entries with
    | [] => vfs_err E_NO_MORE_FILES
    | first :: _ =>
      handle_id ← alloc_id;
      insert_find handle_id (mk_fstate entries 1);;
      mret (handle_id, first)
    end.
Definition find_next (handle : Z) : be DirEntry :=
  s ← vfs_get;
  st ← need E_INVALID_HANDLE (finds s !! handle);
  match idx (fs_entries st) (position st) with
  | None => vfs_err E_NO_MORE_FILES
  | Some entry =>
    vfs_set (with_finds s (<[handle := mk_fstate (fs_entries st) (position st + 1)]> (finds s)));;
    mret entry
  end.
Definition find_close (handle : Z) : be unit :=
  s ← vfs_get;
  _ ← need E_INVALID_HANDLE (finds s !! handle);
  vfs_set (with_finds s (delete handle (finds s))).

(** A call on one path whose success changes the parent directory. *)
Definition changing (host_path : path) (c : call unit) : be unit :=
  host_call c;;
  invalidate (path_parent host_path).
Definition create_dir (p : rstring) : be unit :=
  host_path ← resolve_for_create p;
  changing host_path (HostFs.create_dir host_path).
Definition delete_dir (p : rstring) : be unit :=
  host_path ← resolve_existing p;
  changing host_path (remove_dir host_path).
Definition delete (p : rstring) : be unit :=
  host_path ← resolve_existing p;
  changing host_path (remove_file host_path).
Definition rename (old_path new_path : rstring) : be unit :=
  old_host ← resolve_existing old_path;
  new_host ← resolve_for_create new_path;
  host_call (HostFs.rename old_host new_host);;
  invalidate (path_parent old_host);;
  invalidate (path_parent new_host).
Definition copy (src_path dst_path : rstring) : be unit :=
  src_host ← resolve_existing src_path;
  dst_host ← resolve_for_create dst_path;
  changing dst_host (HostFs.copy src_host dst_host).
Definition query_path_info (p : rstring) (level : Z) : be FileStatus :=
  host_path ← resolve_existing p;
  s ← vfs_get;
  meta ← vfs_lift (mapped (metadata host_path (host s)));
  vfs_lift (metadata_to_file_status meta).
Definition query_file_info (handle level : Z) : be FileStatus :=
  s ← vfs_get;
  entry ← need E_INVALID_HANDLE (files s !! handle);
  vfs_lift (metadata_to_file_status (file_metadata (file entry) (host s))).

(** [set_file_locks]: the unlocks, then the locks, up to the first that fails. *)
Definition EACCES : Z := 13.
Definition EAGAIN : Z := 11.
Definition set_file_locks (handle : Z) (unlock lock : list FileLockRange) (timeout_ms : Z)
    : be unit :=
  s ← vfs_get;
  entry ← need E_INVALID_HANDLE (files s !! handle);
  vfs_lift (for_in unlock (λ r _,
    if setlk (file entry) false (lock_offset r) (lock_length r) =? 0 then Ok tt
    else Err E_LOCK_VIOLATION) tt);;
  vfs_lift (for_in lock (λ r _,
    let errno := setlk (file entry) true (lock_offset r) (lock_length r) in
    if errno =? 0 then Ok tt
    else if (errno =? EACCES) || (errno =? EAGAIN) then Err E_LOCK_VIOLATION
    else Err E_ACCESS_DENIED) tt).

(** [impl VfsBackend for HostDirBackend] *)
#[export] Instance hostdir_backend : VfsBackend HostDirBackend := {|
  be_open := open;
  be_close := close;
  be_read := read;
  be_write := write;
  be_seek := seek;
  be_set_file_size := set_file_size;
  be_flush := flush;
  be_find_first := find_first;
  be_find_next := find_next;
  be_find_close := find_close;
  be_create_dir := create_dir;
  be_delete_dir := delete_dir;
  be_delete := delete;
  be_rename := rename;
  be_copy := copy;
  be_query_path_info := query_path_info;
  be_query_file_info := query_file_info;
  be_set_file_locks := set_file_locks;
  be_to_host_path := resolve_ci;
|}.
End operations.

(** * Computations that change only the directory cache *)

Definition caching {A} (m : be A) : Prop := ∀ s, ∃ c, (m s).2 = with_cache s c.

Lemma with_cache_self s : s = with_cache s (dir_cache s).
Proof. by destruct s. Qed.
Lemma caching_state {A} (m : be A) : (∀ s, (m s).2 = s) → caching m.
Proof. intros Hm s. exists (dir_cache s). rewrite Hm. apply with_cache_self. Qed.
Lemma caching_ret {A} (a : A) : caching (mret a).
Proof. by apply caching_state. Qed.
Lemma caching_err {A} e : caching (vfs_err (A := A) e).
Proof. by apply caching_state. Qed.
Lemma caching_get : caching vfs_get.
Proof. by apply caching_state. Qed.
Lemma caching_lift {A} (m : outcome Z A) : caching (vfs_lift m).
Proof. by apply caching_state. Qed.
Lemma caching_need {A} e (o : option A) : caching (need e o).
Proof. by destruct o; apply caching_state. Qed.
Lemma caching_invalidate p : caching (invalidate p).
Proof. destruct p; [|by apply caching_state]. intros s. by eexists. Qed.
Lemma caching_enforce p : caching (enforce_sandbox p).
Proof. apply caching_state. intros s. unfold enforce_sandbox. by repeat case_match. Qed.
Lemma caching_cache_lookup dir c : caching (cache_lookup dir c).
Proof.
  intros s. unfold cache_lookup.
  assert (∃ c, s = with_cache s c) by (eexists; apply with_cache_self).
  repeat case_match; cbn [snd]; eauto.
Qed.
Lemma caching_bind {A C} (m : be A) (f : A → be C) :
  caching m → (∀ a, caching (f a)) → caching (m ≫= f).
Proof.
  intros Hm Hf s. apply (bind_state (λ s', ∃ c, s' = with_cache s c)); [apply Hm|].
  intros a s' Hs. destruct (Hm s) as [c Hc]. rewrite Hs in Hc. cbn [snd] in Hc. subst s'.
  destruct (Hf a (with_cache s c)) as [c' Hc']. exists c'. by rewrite Hc'.
Qed.

Create HintDb caching.
#[export] Hint Resolve caching_ret caching_err caching_get caching_lift caching_need
  caching_invalidate caching_enforce caching_cache_lookup : caching.
Ltac caching_tac :=
  repeat first
    [ progress eauto with caching
    | apply caching_bind; [|intros]
    | case_match ].

Lemma caching_resolve_components rt cur l : caching (resolve_components rt cur l).
Proof.
  revert cur. induction l as [|c l IH]; intros cur; cbn [resolve_components]; [eauto with caching|].
  unfold resolve_component. caching_tac.
Qed.
#[export] Hint Resolve caching_resolve_components : caching.
Lemma caching_resolve_ci p : caching (resolve_ci p).
Proof. unfold resolve_ci. caching_tac. Qed.
#[export] Hint Resolve caching_resolve_ci : caching.
Lemma caching_resolve_existing p : caching (resolve_existing p).
Proof. unfold resolve_existing. caching_tac. Qed.
Lemma caching_resolve_for_create p : caching (resolve_for_create p).
Proof. unfold resolve_for_create. caching_tac. Qed.
#[export] Hint Resolve caching_resolve_existing caching_resolve_for_create : caching.
Lemma caching_open_path p flags e : caching (open_path p flags e).
Proof. unfold open_path. caching_tac. Qed.
#[export] Hint Resolve caching_open_path : caching.

(** * Wildcards: the language of a pattern *)

Inductive wild : rstring → rstring → Prop :=
| wild_nil : wild [] []
| wild_star p n1 n2 : wild p n2 → wild (STAR :: p) (n1 ++ n2)
| wild_any p x n : wild p n → wild (QUESTION :: p) (x :: n)
| wild_char p c x n : c ≠ STAR → lower c = lower x → wild p n → wild (c :: p) (x :: n).

Lemma lower_star c : lower c = STAR ↔ c = STAR.
Proof. unfold lower, STAR, in_range. destruct (_ && _) eqn:H; [|done]. split; lia. Qed.
Lemma lower_question c : lower c = QUESTION ↔ c = QUESTION.
Proof. unfold lower, QUESTION, in_range. destruct (_ && _) eqn:H; [|done]. split; lia. Qed.

(** The inner loop of a star: some suffix of the name matches the rest of the pattern. *)
Lemma match_star p n :
  wildcard_match_recursive (STAR :: p) n = true ↔
  ∃ n1 n2, n = n1 ++ n2 ∧ wildcard_match_recursive p n2 = true.
Proof.
  induction n as [|x n IH].
  - cbn. rewrite orb_false_r. split; [by exists [], []|]. by intros ([] & [] & [=] & H).
  - change (wildcard_match_recursive (STAR :: p) (x :: n)) with
      (wildcard_match_recursive p (x :: n) || wildcard_match_recursive (STAR :: p) n).
    rewrite orb_true_iff, IH. split.
    + intros [H|(n1 & n2 & -> & H)]; [by exists [], (x :: n)|by exists (x :: n1), n2].
    + intros (n1 & n2 & Heq & H). destruct n1 as [|y n1]; simplify_eq/=; [by left|].
      right. by exists n1, n2.
Qed.
Lemma match_one p c n : c ≠ STAR →
  wildcard_match_recursive (c :: p) n =
  match n with
  | [] => false
  | x :: n => if (c =? QUESTION) || (c =? x) then wildcard_match_recursive p n else false
  end.
Proof. intros Hc. destruct n; cbn; by rewrite (proj2 (Z.eqb_neq _ _)) by done. Qed.

Lemma wildcard_recursive_exact p n :
  wildcard_match_recursive (to_lower p) (to_lower n) = true ↔ wild p n.
Proof.
  revert n. induction p as [|c p IH]; intros n.
  { destruct n; cbn; split; try done; [intros; constructor|by inversion 1]. }
  cbn [to_lower map]. change (map lower p) with (to_lower p).
  destruct (Z.eq_dec c STAR) as [->|Hc].
  - change (lower STAR) with STAR. rewrite match_star. split.
    + intros (n1 & n2 & (m1 & m2 & -> & <- & <-)%map_eq_app & Hm). by apply wild_star, IH.
    + inversion 1 as [|q n1 n2 Hw| |]; subst; [|done].
      exists (to_lower n1), (to_lower n2). unfold to_lower at 1. rewrite map_app. by rewrite IH.
  - rewrite match_one by (by rewrite lower_star). destruct n as [|x n]; cbn [to_lower map].
    { split; [done|]. inversion 1; subst. done. }
    destruct ((lower c =? QUESTION) || (lower c =? lower x)) eqn:Hm.
    + rewrite orb_true_iff, !Z.eqb_eq, lower_question in Hm.
      change (map lower n) with (to_lower n). rewrite IH. split.
      * intros Hw. destruct Hm as [->|Hm]; [by apply wild_any|by apply wild_char].
      * inversion 1; by subst.
    + rewrite orb_false_iff, !Z.eqb_neq, lower_question in Hm. destruct Hm as [Hq Hx].
      split; [done|]. inversion 1; by subst.
Qed.

(** C38: a wildcard search is exact: [wildcard_match] accepts a name exactly when the pattern is
    star-dot-star, or the pattern generates the name with a star for any string, a question mark
    for any one character, and every other character for itself in either case. *)
Theorem wildcard_exact (p n : rstring) :
  wildcard_match p n = true ↔ p = str "*.*" ∨ wild p n.
Proof.
  unfold wildcard_match. rewrite <- wildcard_recursive_exact.
  assert (to_lower p = str "*.*" ↔ p = str "*.*") as Hp.
  { split; [|by intros ->]. change (str "*.*") with [STAR; 0x2E; STAR].
    destruct p as [|a [|b [|c [|]]]]; try done. cbn. intros [= H1 H2 H3].
    rewrite lower_star in H1, H3. rewrite H1, H3. do 2 f_equal.
    revert H2. unfold lower, in_range. destruct (_ && _) eqn:E; lia. }
  case_bool_decide as Hd; rewrite Hp in Hd; naive_solver.
Qed.

(** * Dates: the calendar *)

Definition leap (y : Z) : bool := (y mod 4 =? 0) && (negb (y mod 100 =? 0) || (y mod 400 =? 0)).
Definition month_length (y m : Z) : Z :=
  if m =? 2 then (if leap y then 29 else 28)
  else if (m =? 4) || (m =? 6) || (m =? 9) || (m =? 11) then 30 else 31.
Definition next_day (x : Z * Z * Z) : Z * Z * Z :=
  let '(y, m, d) := x in
  if d <? month_length y m then (y, m, d + 1)
  else if m <? 12 then (y, m + 1, 1) else (y + 1, 1, 1).

Lemma Ok_inj {E A} (a b : A) : (Ok a : outcome E A) = Ok b → a = b.
Proof. by injection 1. Qed.

(** The date of a day of an era of 400 years, from 1 March of its first year: the year [y] of
    the era, and month and day by the day of the year. *)
Definition f_year (doe : Z) : Z := doe - doe / 1460 + doe / 36524 - doe / 146096.
Definition month_day (doy : Z) : Z * Z :=
  let mp := (5 * doy + 2) / 153 in
  let d := doy - (153 * mp + 2) / 5 + 1 in
  (if mp <? 10 then mp + 3 else mp - 9, d).
Definition start (y : Z) : Z := 365 * y + y / 4 - y / 100.
Definition year_date (y doy : Z) : Z * Z * Z :=
  let '(m, d) := month_day doy in (if m <=? 2 then y + 1 else y, m, d).
Definition era_date (doe : Z) : Z * Z * Z :=
  let yoe := f_year doe / 365 in year_date yoe (doe - start yoe).
Definition add_years (k : Z) (x : Z * Z * Z) : Z * Z * Z :=
  let '(y, m, d) := x in (y + k, m, d).

(** A year from March has the length of the leap rule of its February. *)
Definition year_length (y : Z) : Z := if leap (y + 1) then 366 else 365.
Definition year_ok (y : Z) : bool :=
  (f_year (start y) / 365 =? y) && (f_year (start y + year_length y - 1) / 365 =? y) &&
  (if y =? 399 then start y + year_length y =? 146097 else start (y + 1) =? start y + year_length y).
Lemma years_ok y : 0 ≤ y < 400 → year_ok y = true.
Proof.
  assert (all_from 400 0 year_ok = true) as H by (vm_compute; reflexivity).
  intros. by apply (all_from_spec _ _ _ y H).
Qed.

Lemma div_succ x k : 0 < k → 0 ≤ x → (x + 1) / k = x / k ∨ (x + 1) / k = x / k + 1 ∧ (x + 1) mod k = 0.
Proof.
  intros Hk Hx. pose proof (Z.div_mod x k ltac:(lia)). pose proof (Z.mod_pos_bound x k Hk).
  destruct (Z.eq_dec (x mod k) (k - 1)).
  - right. rewrite <- (Z.div_unique (x + 1) k (x / k + 1) 0) by lia.
    by rewrite <- (Z.mod_unique (x + 1) k (x / k + 1) 0) by lia.
  - left. by rewrite <- (Z.div_unique (x + 1) k (x / k) (x mod k + 1)) by lia.
Qed.
Lemma f_year_mono a b : 0 ≤ a ≤ b → b < 146097 → f_year a ≤ f_year b.
Proof.
  intros Ha. replace b with (a + Z.of_nat (Z.to_nat (b - a))) by lia. generalize (Z.to_nat (b - a)).
  intros n. induction n as [|n IH]; intros Hb; [by rewrite Z.add_0_r|].
  etrans; [apply IH; lia|]. set (x := a + Z.of_nat n). replace (a + Z.of_nat (S n)) with (x + 1) by lia.
  unfold f_year. assert (x / 36524 ≤ (x + 1) / 36524) by (apply Z.div_le_mono; lia).
  pose proof (div_succ x 1460 ltac:(lia) ltac:(lia)) as D1.
  pose proof (div_succ x 146096 ltac:(lia) ltac:(lia)) as D2.
  destruct D1 as [->|[-> H1]], D2 as [->|[-> H2]]; try lia.
  apply Z.mod_divide in H2 as [k Hk]; [|lia]. assert (x = 146095) as Hx by lia. rewrite Hx in H1. by vm_compute in H1.
Qed.
Lemma year_end y : 0 ≤ y < 400 →
  start y + year_length y ≤ 146097 ∧ (y = 399 → start y + year_length y = 146097) ∧
  (y < 399 → start y + year_length y = start (y + 1) ∧ start (y + 1) < 146097).
Proof.
  intros Hy. pose proof (years_ok y Hy) as Hok. unfold year_ok in Hok. rewrite !andb_true_iff in Hok.
  destruct Hok as [_ H3]. destruct (Z.eqb_spec y 399); apply Z.eqb_eq in H3; [lia|].
  assert (start (y + 1) < 146097); [|lia].
  unfold start. Z.to_euclidean_division_equations. lia.
Qed.
(** The year of a day. *)
Lemma year_of_day y doy : 0 ≤ y < 400 → 0 ≤ doy < year_length y →
  era_date (start y + doy) = year_date y doy ∧ f_year (start y + doy) / 365 = y.
Proof.
  intros Hy Hd. pose proof (years_ok y Hy) as Hok. unfold year_ok in Hok.
  rewrite !andb_true_iff, !Z.eqb_eq in Hok. destruct Hok as [[H1 H2] H3].
  pose proof (year_end y Hy) as (Hend & _ & _).
  assert (0 ≤ start y) by (unfold start; Z.to_euclidean_division_equations; lia).
  pose proof (f_year_mono (start y) (start y + doy)) as M1.
  pose proof (f_year_mono (start y + doy) (start y + year_length y - 1)) as M2.
  unfold era_date. assert (f_year (start y + doy) / 365 = y) as Hfy; [|rewrite Hfy; split; [f_equal; lia|done]].
  pose proof (Z.div_le_mono _ _ 365 ltac:(lia) (M1 ltac:(lia) ltac:(lia))).
  pose proof (Z.div_le_mono _ _ 365 ltac:(lia) (M2 ltac:(lia) ltac:(lia))). lia.
Qed.
Lemma day_of_year n : (n ≤ 400)%nat → ∀ doe, 0 ≤ doe < start (Z.of_nat n) ∨ n = 400%nat ∧ 0 ≤ doe < 146097 →
  ∃ y doy, 0 ≤ y < Z.of_nat n ∧ 0 ≤ doy < year_length y ∧ doe = start y + doy.
Proof.
  induction n as [|n IH]; intros Hn doe Hdoe; [change (start (Z.of_nat 0)) with 0 in Hdoe; lia|].
  destruct (Z.lt_ge_cases doe (start (Z.of_nat n))).
  { destruct (IH ltac:(lia) doe) as (y & doy & ? & ? & ?); [left; lia|]. exists y, doy. lia. }
  exists (Z.of_nat n), (doe - start (Z.of_nat n)).
  pose proof (year_end (Z.of_nat n) ltac:(lia)) as (_ & H399 & Hnext).
  replace (Z.of_nat (S n)) with (Z.of_nat n + 1) in * by lia.
  destruct (Z.eq_dec (Z.of_nat n) 399) as [E|E]; [|lia].
  destruct Hdoe as [Hdoe|Hdoe]; [|lia]. rewrite E in Hdoe.
  change (start (399 + 1)) with 146096 in Hdoe. lia.
Qed.

(** The steps within a year, for both lengths of February, and at its end. *)
Definition next_month_day (is_leap : bool) (x : Z * Z) : Z * Z :=
  let '(m, d) := x in
  let l := if m =? 2 then (if is_leap then 29 else 28)
           else if (m =? 4) || (m =? 6) || (m =? 9) || (m =? 11) then 30 else 31 in
  if d <? l then (m, d + 1) else (if m <? 12 then m + 1 else 1, 1).
Definition day_ok (doy : Z) : bool :=
  let '(m, d) := month_day doy in
  let ok b :=
    let '(m', d') := month_day (if doy + 1 <? (if b : bool then 366 else 365) then doy + 1 else 0) in
    let '(m2, d2) := next_month_day b (m, d) in (m' =? m2) && (d' =? d2) in
  ok true && ((365 <=? doy) || ok false) &&
  Bool.eqb (m <=? 2) (306 <=? doy) && Bool.eqb (m =? 12) ((275 <=? doy) && (doy <? 306)).
Lemma days_ok doy : 0 ≤ doy < 366 → day_ok doy = true.
Proof.
  assert (all_from 366 0 day_ok = true) as H by (vm_compute; reflexivity).
  intros. by apply (all_from_spec _ _ _ doy H).
Qed.
(** A step within a year, and at its end. *)
Lemma year_step y doy : 0 ≤ y < 400 → 0 ≤ doy < year_length y →
  next_day (year_date y doy) =
  if doy + 1 <? year_length y then year_date y (doy + 1) else year_date (y + 1) 0.
Proof.
  intros Hy Hd. assert (0 ≤ doy < 366) as Hd' by (unfold year_length in Hd; destruct (leap _); lia).
  pose proof (days_ok doy Hd') as Hok. unfold day_ok in Hok. unfold year_date at 1.
  destruct (month_day doy) as [m d] eqn:Hmd. rewrite !andb_true_iff in Hok.
  destruct Hok as [[[Ht Hf] Hm2] Hm12]. apply Bool.eqb_prop in Hm2, Hm12.
  assert (Hnext : next_month_day (leap (y + 1)) (m, d) =
                  month_day (if doy + 1 <? year_length y then doy + 1 else 0)).
  { unfold year_length in *. destruct (leap (y + 1)).
    - destruct (month_day (if doy + 1 <? 366 then _ else _)) as [m' d'].
      destruct (next_month_day true (m, d)). lia || (apply andb_true_iff in Ht; f_equal; lia).
    - apply orb_true_iff in Hf as [Hf|Hf]; [lia|].
      destruct (month_day (if doy + 1 <? 365 then _ else _)) as [m' d'].
      destruct (next_month_day false (m, d)). apply andb_true_iff in Hf. f_equal; lia. }
  assert (Hyear : month_length (if m <=? 2 then y + 1 else y) m =
    (if m =? 2 then (if leap (y + 1) then 29 else 28)
     else if (m =? 4) || (m =? 6) || (m =? 9) || (m =? 11) then 30 else 31)).
  { unfold month_length. destruct (Z.eqb_spec m 2) as [->|]; [done|]. done. }
  unfold next_day. rewrite Hyear. unfold next_month_day in Hnext.
  set (l := if m =? 2 then _ else _) in *. clearbody l. clear Hyear.
  destruct (doy + 1 <? year_length y) eqn:Hlt.
  - assert (0 ≤ doy + 1 < 366) as Hd2 by lia || (unfold year_length in Hlt; destruct (leap _); lia).
    pose proof (days_ok (doy + 1) Hd2) as Hok2. unfold day_ok in Hok2. unfold year_date.
    destruct (month_day (doy + 1)) as [m' d']. rewrite !andb_true_iff in Hok2.
    destruct Hok2 as [[_ Hm2'] _]. apply Bool.eqb_prop in Hm2'. rewrite Hm2, Hm2' in *.
    destruct (d <? l), (m <? 12) eqn:H12; injection Hnext as <- <-;
      destruct (306 <=? doy) eqn:A, (306 <=? doy + 1) eqn:A'; (f_equal; f_equal; lia) || lia.
  - unfold year_date. change (month_day 0) with (3, 1) in Hnext |- *.
    assert (364 ≤ doy) by (unfold year_length in Hlt; destruct (leap _); lia).
    destruct (m <=? 2) eqn:A; [|lia].
    destruct (d <? l), (m <? 12) eqn:H12; injection Hnext; intros; try lia.
    assert (m = 2) as -> by lia. done.
Qed.
Lemma era_next doe : 0 ≤ doe < 146097 →
  next_day (era_date doe) =
    (if doe =? 146096 then add_years 400 (era_date 0) else era_date (doe + 1)) ∧
  0 ≤ f_year doe / 365 ≤ 399.
Proof.
  intros Hdoe. destruct (day_of_year 400 ltac:(lia) doe) as (y & doy & Hy & Hd & ->); [by right|].
  pose proof (year_of_day y doy Hy Hd) as [Hera Hf]. pose proof (year_end y Hy) as (Hend & H399 & Hnext).
  split; [|lia]. rewrite Hera, year_step by done.
  destruct (Z.ltb_spec (doy + 1) (year_length y)).
  - destruct (Z.eqb_spec (start y + doy) 146096); [lia|].
    rewrite <- Z.add_assoc. symmetry. apply (year_of_day y (doy + 1)); lia.
  - destruct (Z.eqb_spec (start y + doy) 146096) as [E|E].
    + destruct (Z.eq_dec y 399) as [->|]; [done|]. lia.
    + assert (y ≠ 399) by lia. destruct (Hnext ltac:(lia)) as [Hs ?].
      replace (start y + doy + 1) with (start (y + 1) + 0) by lia. symmetry.
      apply (year_of_day (y + 1) 0); [lia|]. unfold year_length. destruct (leap _); lia.
Qed.
Lemma next_day_years k x : next_day (add_years (400 * k) x) = add_years (400 * k) (next_day x).
Proof.
  destruct x as [[y m] d]. cbn. replace (month_length (y + 400 * k) m) with (month_length y m).
  { destruct (d <? _); [done|]. destruct (m <? 12); [done|]. cbn. do 2 f_equal. lia. }
  unfold month_length, leap. replace (400 * k) with (100 * k * 4) by lia.
  rewrite Z.mod_add by lia. replace (100 * k * 4) with (4 * k * 100) by lia.
  rewrite Z.mod_add by lia. replace (4 * k * 100) with (k * 400) by lia. by rewrite Z.mod_add by lia.
Qed.
Lemma days_to_ymd_era {B : Build} n : 0 ≤ n < 2 ^ 39 →
  days_to_ymd n = Ok (add_years (400 * ((n + 719468) / 146097)) (era_date ((n + 719468) mod 146097))).
Proof.
  intros Hn. unfold days_to_ymd. zbool. set (z := n + 719468).
  rewrite Z.quot_div_nonneg by lia. pose proof (Z.div_mod z 146097 ltac:(lia)) as Hz.
  pose proof (Z.mod_pos_bound z 146097 ltac:(lia)) as Hdoe.
  replace (z - z / 146097 * 146097) with (z mod 146097) by lia.
  destruct (era_next _ Hdoe) as [_ Hy].
  unfold era_date, year_date, month_day. fold (f_year (z mod 146097)).
  set (doe := z mod 146097) in *. set (yoe := f_year doe / 365) in *.
  fold (start yoe).
  assert (0 ≤ z / 146097 < 4000000) as Hera.
  { split; [apply Z.div_pos; lia|]. apply Z.div_lt_upper_bound; lia. }
  assert (as_i32 (z / 146097 * 400) = z / 146097 * 400) as ->.
  { unfold as_i32. rewrite Z.mod_small; lia. }
  unfold iadd. zbool. out_simpl.
  destruct (_ <=? 2); out_simpl; zbool; cbn; do 3 f_equal; lia.
Qed.

(** The DOS date of a day is right: [days_to_ymd n] is the date reached from 1 January 1970
    by [n] steps of the Gregorian calendar, for the next five hundred thousand million days. *)
Theorem days_to_ymd_calendar {B : Build} (n : nat) :
  Z.of_nat n < 2 ^ 39 → days_to_ymd (Z.of_nat n) = Ok (Nat.iter n next_day (1970, 1, 1)).
Proof.
  induction n as [|n IH]; intros Hn; [by rewrite days_to_ymd_era|].
  rewrite days_to_ymd_era in IH |- * by lia. rewrite Nat.iter_succ.
  specialize (IH ltac:(lia)). apply Ok_inj in IH. rewrite <- IH, next_day_years. f_equal.
  set (z := Z.of_nat n + 719468). replace (Z.of_nat (S n) + 719468) with (z + 1) by lia.
  pose proof (Z.div_mod z 146097 ltac:(lia)) as Hz.
  pose proof (Z.mod_pos_bound z 146097 ltac:(lia)) as Hdoe.
  destruct (era_next _ Hdoe) as [Hok _]. rewrite Hok.
  destruct (Z.eqb_spec (z mod 146097) 146096) as [He|He].
  - rewrite <- (Z.div_unique (z + 1) 146097 (z / 146097 + 1) 0) by lia.
    rewrite <- (Z.mod_unique (z + 1) 146097 (z / 146097 + 1) 0) by lia.
    destruct (era_date 0) as [[y m] d]. cbn. do 2 f_equal. lia.
  - rewrite <- (Z.div_unique (z + 1) 146097 (z / 146097) (z mod 146097 + 1)) by lia.
    by rewrite <- (Z.mod_unique (z + 1) 146097 (z / 146097) (z mod 146097 + 1)) by lia.
Qed.

(** Day 789 is 29 February 1972. *)
Lemma days_to_ymd_calendar_witness :
  Z.of_nat 789 < 2 ^ 39 ∧ days_to_ymd (B := dev_profile) (Z.of_nat 789) = Ok (1972, 2, 29).
Proof.
  split; [by vm_compute|]. rewrite (days_to_ymd_calendar (B := dev_profile) 789); by vm_compute.
Defined.
