(* ===== verification/Sandbox.v ===== *)
(** The sandbox of the host-directory backend (src/src/loader/vfs_hostdir.rs): no operation of
    the backend changes a host file or directory outside the root of its volume.

    [enforce_sandbox] compares canonical paths with the root.  Two kinds of links defeat it, and
    are the hypotheses of the theorem: a dangling link inside the volume (opening it for
    creation makes its target, [dangling_link_escapes]) and a link outside that leads back in. *)
From S2P Require Import Prelude Bytes HostFs Vfs HostDir.

(** * Inside and outside *)

Definition inside (rt q : path) : Prop := rt `prefix_of` q.
#[export] Instance inside_dec rt q : Decision (inside rt q).
Proof. unfold inside. apply _. Defined.

(** Nothing outside [rt] differs: neither the tree nor the contents of its files. *)
Record outside_same (rt : path) (h h' : HostFs) : Prop := {
  out_tree : ∀ q, ¬ inside rt q → tree h' !! q = tree h !! q;
  out_data : ∀ q i, ¬ inside rt q → tree h !! q = Some (NFile i) → inodes h' !! i = inodes h !! i;
}.

Definition names_ok (q : path) : Prop := Forall (λ c, stays c = false) q.

(** The host tree: proper names, inodes below the counter, and no file with a name inside and
    another one outside (a hard link across the boundary). *)
Record host_sound (rt : path) (h : HostFs) : Prop := {
  sound_root : names_ok rt;
  sound_names : ∀ q, is_Some (tree h !! q) → names_ok q;
  sound_fresh : ∀ q i, tree h !! q = Some (NFile i) → i < next_ino h;
  sound_apart : ∀ p q i, inside rt p → ¬ inside rt q →
    tree h !! p = Some (NFile i) → tree h !! q = Some (NFile i) → False;
}.

(** An open file (not a directory) that is not one outside. *)
Definition file_inside (rt : path) (h : HostFs) (f : File) : Prop :=
  on_dir f = false →
  ino f < next_ino h ∧ ∀ q i, ¬ inside rt q → tree h !! q = Some (NFile i) → i ≠ ino f.

(** The links of the host: none in the volume dangles, none outside leads in. *)
Definition no_dangling (rt : path) (h : HostFs) : Prop := ∀ d n t l d' n',
  inside rt d → tree h !! (d ++ [n]) = Some (NLink t) →
  walk h l (link_base d t) (pieces t) ≠ Missing d' n'.
Definition no_way_in (rt : path) (h : HostFs) : Prop := ∀ d n t l l' q,
  ¬ inside rt (d ++ [n]) → tree h !! (d ++ [n]) = Some (NLink t) →
  walk h l (link_base d t) (pieces t) = Found l' q → ¬ inside rt q.

(** ** Paths *)

Lemma names_snoc p c : names_ok (p ++ [c]) ↔ names_ok p ∧ stays c = false.
Proof. unfold names_ok. by rewrite Forall_app, Forall_singleton. Qed.
Lemma names_nil : names_ok [].
Proof. constructor. Qed.
Lemma names_components q : names_ok q → components q = q.
Proof.
  induction 1 as [|c q Hc _ IH]; [done|]. rewrite components_cons, Hc. by rewrite IH.
Qed.
Lemma components_names q : names_ok (components q).
Proof. unfold names_ok, components. apply Forall_forall. intros c. rewrite list_elem_of_filter. by intros []. Qed.
Lemma names_removelast q : names_ok q → names_ok (removelast q).
Proof.
  intros Hq. destruct q as [|c q] using rev_ind; [done|]. rewrite removelast_last.
  by apply names_snoc in Hq as [? _].
Qed.
Lemma inside_app rt d n : inside rt d → inside rt (d ++ [n]).
Proof. apply prefix_app_r. Qed.
Lemma inside_trans rt p q : inside rt p → p `prefix_of` q → inside rt q.
Proof. unfold inside. intros. by etrans. Qed.
Lemma starts_inside rt q : names_ok rt → names_ok q → starts_with q rt = true ↔ inside rt q.
Proof. intros Hr Hq. rewrite starts_with_spec, !names_components by done. done. Qed.
Lemma last_removelast {A} (l : list A) x : last l = Some x → l = removelast l ++ [x].
Proof. intros (l' & ->)%last_Some. by rewrite removelast_last. Qed.

(** Canonical paths have proper names. *)
Lemma walk_names h l cur p :
  (∀ q, is_Some (tree h !! q) → names_ok q) → names_ok cur →
  match walk h l cur p with
  | Found _ q => names_ok q
  | Missing d n => names_ok d ∧ stays n = false
  | Fails _ => True
  end.
Proof.
  intros Hn. revert cur p. induction l as [l IHl] using lt_wf_ind. intros cur p. revert cur.
  induction p as [|c p IH]; intros cur Hc; [by rewrite walk_nil|].
  rewrite walk_cons. unfold step_to. destruct (negb _); [done|].
  destruct (stays c) eqn:Hs; [by apply IH|].
  destruct (is_parent c); [by apply IH, names_removelast|].
  destruct (child h cur c) as [n|]; [|by destruct p].
  destruct (tree h !! (cur ++ [n])) as [[]|] eqn:Ht; [apply IH, Hn; rewrite Ht; by apply (mk_is_Some _ _ eq_refl)..| |done].
  destruct l as [|l]; [done|]. apply IHl; [lia|]. unfold link_base. destruct (absolute _); [constructor|done].
Qed.

(** * What the sandbox check gives *)

(** The check of [enforce_sandbox], on the host. *)
Definition allowed (rt : path) (h : HostFs) (p : path) : Prop :=
  (∃ q, canonicalize h p = Some q ∧ inside rt q) ∨
  (canonicalize h p = None ∧
   ∃ par d c, path_parent p = Some par ∧ canonicalize h par = Some d ∧ inside rt d ∧
     file_name p = Some c).

Lemma canonicalize_Some h p q : canonicalize h p = Some q ↔ ∃ l, lookup_path h p = Found l q.
Proof. unfold canonicalize. destruct (lookup_path h p); naive_solver. Qed.
Lemma canonical_names rt h p q : host_sound rt h → canonicalize h p = Some q → names_ok q.
Proof.
  intros Hs [l Hr]%canonicalize_Some. pose proof (walk_names h MAXSYMLINKS [] p (sound_names _ _ Hs)) as H.
  unfold lookup_path in Hr. rewrite Hr in H. apply H, names_nil.
Qed.

Lemma enforce_allowed s p r s' : host_sound (root s) (host s) →
  enforce_sandbox p s = (r, s') → s' = s ∧ (r = Ok tt → allowed (root s) (host s) p).
Proof.
  intros Hs. pose proof (sound_root _ _ Hs) as Hr. unfold enforce_sandbox, exists_.
  destruct (canonicalize (host s) p) as [q|] eqn:Hc.
  - rewrite bool_decide_true by by eexists. pose proof (canonical_names _ _ _ _ Hs Hc) as Hq.
    pose proof (starts_inside (root s) q Hr Hq) as Hin.
    destruct (starts_with q (root s)); intros [= <- <-]; (split; [done|]); [|done].
    intros _. left. exists q. split; [done|]. by apply Hin.
  - rewrite bool_decide_false by (by intros [? [=]]).
    destruct (path_parent p) as [par|] eqn:Hp; [|by intros [= <- <-]].
    destruct (canonicalize (host s) par) as [d|] eqn:Hd; [|by intros [= <- <-]].
    pose proof (starts_inside (root s) d Hr (canonical_names _ _ _ _ Hs Hd)) as Hin.
    destruct (starts_with d (root s)); cbn [negb]; [|by intros [= <- <-]].
    destruct (file_name p) as [c|] eqn:Hf; [|by intros [= <- <-]].
    destruct (starts_with _ _); intros [= <- <-]; (split; [done|]); [|done].
    intros _. right. split; [done|]. exists par, d, c. split_and!; try done. by apply Hin.
Qed.

Lemma resolve_arrives h p : arrives (lookup_path h p) → lookup_path h (components p) = lookup_path h p.
Proof. apply walk_components. Qed.

(** Opening an allowed path reaches a node inside, or makes one inside. *)
Lemma allowed_open rt h p : host_sound rt h → no_dangling rt h → allowed rt h p →
  match lookup_path h p with
  | Found _ q => inside rt q
  | Missing d n => inside rt d ∧ names_ok (d ++ [n])
  | Fails _ => True
  end.
Proof.
  intros Hs Hnd [(q & [l Hr]%canonicalize_Some & Hin)|(Hnone & par & d & c & Hp & Hd & Hin & Hf)].
  { by rewrite Hr. }
  destruct (lookup_path h p) as [l q|d' n|k] eqn:Hr; [|split|done].
  - unfold canonicalize in Hnone. by rewrite Hr in Hnone.
  - pose proof (resolve_arrives h p) as Hw. rewrite Hr in Hw. specialize (Hw I).
    unfold path_parent, file_name in Hp, Hf.
    destruct (last (components p)) as [c'|] eqn:Hl; [|done].
    assert (removelast (components p) = par) as Hpar by (destruct (components p); naive_solver).
    destruct (is_parent c') eqn:Hpc; [done|]. injection Hf as ->.
    pose proof (last_removelast _ _ Hl) as Hcomp. rewrite Hpar in Hcomp.
    assert (stays c = false) as Hst.
    { pose proof (components_names p) as Hn. rewrite Hcomp in Hn. by apply names_snoc in Hn as [_ ?]. }
    unfold lookup_path in Hw. rewrite Hcomp in Hw.
    apply walk_last in Hw as (l' & d0 & Hd0 & Hlast); [|done].
    apply canonicalize_Some in Hd as [l0 Hd]. unfold lookup_path in Hd. rewrite Hd0 in Hd.
    injection Hd as -> ->. apply walk_name in Hlast as [_ Hlast]; try done.
    destruct (child h d c) as [n0|]; [|by injection Hlast as -> ->].
    destruct (tree h !! (d ++ [n0])) as [[]|] eqn:Ht; try done.
    destruct Hlast as (l1 & _ & Hlast). by destruct (Hnd d n0 target l1 d' n).
  - pose proof (walk_names h MAXSYMLINKS [] p (sound_names _ _ Hs)) as Hn.
    unfold lookup_path in Hr. rewrite Hr in Hn. destruct (Hn names_nil) as [? ?].
    by apply names_snoc.
Qed.

(** The entry of an allowed path is inside. *)
Lemma allowed_entry rt h p d n : host_sound rt h → no_way_in rt h → allowed rt h p →
  entry_of h p = Ok (d, n) → inside rt (d ++ [n]) ∧ names_ok (d ++ [n]).
Proof.
  intros Hs Hnw Hal. unfold entry_of. set (q := strip_slashes (rev p)).
  destruct (bool_decide _ && _); [done|].
  destruct (last q) as [c|] eqn:Hl; [|done]. apply last_removelast in Hl.
  destruct (stays c) eqn:Hst; [done|]. destruct (is_parent c) eqn:Hpc; [done|]. cbn [orb].
  destruct (lookup_path h (removelast q)) as [l d0|d0 n0|k] eqn:Hr; [|done..].
  destruct (dir_at h d0) eqn:Hdir; [|done]. intros [= -> <-].
  assert (components p = components (removelast q) ++ [c]) as Hcomp.
  { unfold q in *. rewrite <- strip_slashes_components. rewrite Hl at 1.
    rewrite components_app, components_cons, Hst. done. }
  assert (Hpar : lookup_path h (components (removelast q)) = Found l d).
  { rewrite resolve_arrives by (by rewrite Hr). done. }
  pose proof (walk_names h MAXSYMLINKS [] (removelast q) (sound_names _ _ Hs)) as Hdn.
  unfold lookup_path in Hr. rewrite Hr in Hdn. specialize (Hdn names_nil).
  assert (names_ok (d ++ [default c (child h d c)])) as Hnames.
  { destruct (child h d c) as [n|] eqn:Hch; cbn [default]; [|by apply names_snoc].
    unfold child in Hch. case_bool_decide; [injection Hch as <-; by apply names_snoc|].
    destruct (casefold h); [|done]. apply fmap_Some in Hch as ([i n'] & Hf & ->).
    apply list_find_Some in Hf as (Hin%list_elem_of_lookup_2 & _ & _). apply (sound_names _ _ Hs).
    unfold names_in in Hin. apply list_elem_of_omap in Hin as (k & Hk & Hc).
    apply list_elem_of_fmap in Hk as ((k' & v) & -> & Hk%elem_of_map_to_list). cbn [fst] in Hc.
    unfold child_name in Hc. destruct k' as [|x k''] eqn:E; [done|]. rewrite <- E in *.
    case_bool_decide as Hrl; [|done]. apply last_removelast in Hc. rewrite Hrl in Hc.
    change (is_Some (tree h !! (d ++ [n']))). rewrite <- Hc. by eexists. }
  split; [|done].
  destruct (decide (inside rt (d ++ [default c (child h d c)]))) as [|Hout]; [done|]. exfalso.
  destruct Hal as [(q1 & [l1 Hq1]%canonicalize_Some & Hin)|(_ & par & d1 & c1 & Hp & Hd & Hin & Hf)].
  - pose proof (resolve_arrives h p) as Hw. rewrite Hq1 in Hw. specialize (Hw I).
    unfold lookup_path in *. rewrite Hcomp in Hw. apply walk_last in Hw as (l' & d' & Hd' & Hlast); [|done].
    rewrite Hpar in Hd'. injection Hd' as <- <-. apply walk_name in Hlast as [_ Hlast]; try done.
    destruct (child h d c) as [n|]; [|done]. cbn [default] in Hout.
    destruct (tree h !! (d ++ [n])) as [[]|] eqn:Ht; try done; try (injection Hlast as -> ->; done).
    destruct Hlast as (l2 & _ & Hlast). by destruct (Hnw d n target l2 l1 q1 Hout Ht Hlast).
  - unfold path_parent in Hp. rewrite Hcomp in Hp.
    destruct (components (removelast q) ++ [c]) eqn:E; [by destruct (components (removelast q))|].
    rewrite <- E, removelast_last in Hp. injection Hp as <-.
    apply canonicalize_Some in Hd as [l1 Hd]. rewrite Hpar in Hd. injection Hd as <- <-.
    apply Hout, inside_app, Hin.
Qed.

(** * What the host calls change *)

Section effects.
Context (rt : path).

(** A change that stays inside. *)
Record jailed (h h' : HostFs) : Prop := {
  jailed_sound : host_sound rt h';
  jailed_out : outside_same rt h h';
  jailed_next : next_ino h ≤ next_ino h';
}.

Lemma jailed_refl h : host_sound rt h → jailed h h.
Proof. by split. Qed.
Lemma jailed_trans h1 h2 h3 : jailed h1 h2 → jailed h2 h3 → jailed h1 h3.
Proof.
  intros [? [Ht1 Hd1] ?] [? [Ht2 Hd2] ?]. split; [done| |lia]. split.
  - intros q Hq. by rewrite Ht2, Ht1.
  - intros q i Hq Hi. rewrite (Hd2 q i Hq), (Hd1 q i Hq); try done. by rewrite Ht1.
Qed.
Lemma file_inside_jailed h h' f : jailed h h' → file_inside rt h f → file_inside rt h' f.
Proof.
  intros [_ [Ht _] Hn] Hf Hdir. destruct (Hf Hdir) as [? Ho]. split; [lia|]. intros q i Hq Hi. rewrite Ht in Hi by done.
  by apply (Ho q).
Qed.

Lemma set_contents_jailed h f data : host_sound rt h → file_inside rt h f →
  on_dir f = false → jailed h (set_contents h (ino f) data).
Proof.
  intros Hs Hin Hdir. destruct (Hin Hdir) as [_ Hf]. split; [|split|cbn; lia].
  - destruct Hs. by split.
  - done.
  - intros q i Hq Hi. cbn. rewrite lookup_insert_ne; [done|]. intros Heq. by destruct (Hf q i Hq Hi).
Qed.
Lemma add_node_jailed h q mk : host_sound rt h → inside rt q → names_ok q →
  (mk = NFile ∨ mk = NDir) → jailed h (add_node h q mk).
Proof.
  intros Hs Hq Hn Hmk. split; [split|split|cbn; lia]; cbn.
  - apply Hs.
  - intros q' [<-|[_ ?]]%lookup_insert_is_Some; [done|]. by apply (sound_names _ _ Hs).
  - intros q' i [[_ Hi]|[_ Hi]]%lookup_insert_Some.
    + destruct Hmk as [-> | ->]; [injection Hi as <-|done]. lia.
    + apply (sound_fresh _ _ Hs) in Hi. lia.
  - intros p' q' i Hp' Hq' Hpi [[<- _]|[_ Hqi]]%lookup_insert_Some; [done|].
    apply lookup_insert_Some in Hpi as [[_ Hi]|[_ Hpi]]; [|by eapply (sound_apart _ _ Hs)].
    destruct Hmk as [-> | ->]; [injection Hi as <-|done].
    apply (sound_fresh _ _ Hs) in Hqi. lia.
  - intros q' Hq'. apply lookup_insert_ne. naive_solver.
  - intros q' i Hq' Hi. apply lookup_insert_ne. apply (sound_fresh _ _ Hs) in Hi. lia.
Qed.
(** A tree that loses or moves nodes inside: every node of the new one was there, with its
    place on the same side. *)
Lemma with_tree_jailed h t : host_sound rt h →
  (∀ q, ¬ inside rt q → t !! q = tree h !! q) →
  (∀ q n, inside rt q → t !! q = Some n → names_ok q ∧ ∃ p, inside rt p ∧ tree h !! p = Some n) →
  jailed h (with_tree h t).
Proof.
  intros Hs Ho Hi. split; [split|split|cbn; lia]; cbn; try done.
  - apply Hs.
  - intros q [n Hq]. destruct (decide (inside rt q)) as [Hin|Hout].
    + by apply (Hi q n).
    + apply (sound_names _ _ Hs). rewrite <- Ho by done. by eexists.
  - intros q i Hq. destruct (decide (inside rt q)) as [Hin|Hout].
    + apply (Hi q) in Hq as (_ & p & _ & Hp); [|done]. by apply (sound_fresh _ _ Hs) in Hp.
    + rewrite Ho in Hq by done. by apply (sound_fresh _ _ Hs) in Hq.
  - intros p q i Hp Hq Hpi Hqi. apply (Hi p) in Hpi as (_ & p' & Hp' & Hpi); [|done].
    rewrite Ho in Hqi by done. by apply (sound_apart _ _ Hs p' q i).
Qed.
Lemma delete_jailed h q : host_sound rt h → inside rt q → jailed h (with_tree h (base.delete q (tree h))).
Proof.
  intros Hs Hq. apply with_tree_jailed; [done|..].
  - intros q' Hq'. apply lookup_delete_ne. naive_solver.
  - intros q' n Hin [_ Hn]%lookup_delete_Some. split; [|by exists q'].
    apply (sound_names _ _ Hs). by eexists.
Qed.

Lemma names_drop k q : names_ok q → names_ok (drop k q).
Proof. apply Forall_drop. Qed.
Lemma move_jailed h old new : host_sound rt h → inside rt old → inside rt new → names_ok new →
  jailed h (with_tree h (move_tree old new (tree h))).
Proof.
  intros Hs Hold Hnew Hnn. unfold move_tree.
  set (moved := omap (moved_node old new) (map_to_list (tree h))).
  assert (Hmoved : ∀ q n, (q, n) ∈ moved → inside rt q ∧ names_ok q ∧
      ∃ p, inside rt p ∧ tree h !! p = Some n).
  { intros q n ((p & m) & Hp & Hm)%list_elem_of_omap. apply elem_of_map_to_list in Hp.
    unfold moved_node in Hm. cbn [fst snd] in Hm. case_bool_decide as Hpre; [|done].
    injection Hm as <- <-. split_and!.
    - apply (inside_trans rt new); [done|]. by exists (drop (length old) p).
    - apply Forall_app. split; [done|]. apply names_drop, (sound_names _ _ Hs). by eexists.
    - exists p. split; [|done]. by apply (inside_trans rt old). }
  apply with_tree_jailed; [done|..].
  - intros q Hq. rewrite lookup_union_r.
    + apply option_eq. intros n. rewrite map_lookup_filter_Some. split; [by intros []|].
      intros Hn. split; [done|]. cbn. split; [|by intros ->].
      intros Hpre. apply Hq. by apply (inside_trans rt old).
    + apply not_elem_of_list_to_map. intros ((q' & n) & -> & Hin)%list_elem_of_fmap.
      by apply Hmoved in Hin as (? & _).
  - intros q n Hq [Hl|[_ Hr]]%lookup_union_Some_raw.
    + apply elem_of_list_to_map_2 in Hl. by apply Hmoved in Hl as (_ & ? & ?).
    + apply map_lookup_filter_Some in Hr as [Hn _]. split; [|by exists q].
      apply (sound_names _ _ Hs). by eexists.
Qed.
Lemma replace_jailed h old new n : host_sound rt h → inside rt old → inside rt new →
  names_ok new → tree h !! old = Some n →
  jailed h (with_tree h (<[new := n]> (base.delete old (tree h)))).
Proof.
  intros Hs Hold Hnew Hnn Hn. apply with_tree_jailed; [done|..].
  - intros q Hq. rewrite lookup_insert_ne, lookup_delete_ne; naive_solver.
  - intros q m Hq [[<- <-]|[_ [_ Hm]%lookup_delete_Some]]%lookup_insert_Some.
    + split; [done|]. by exists old.
    + split; [|by exists q]. apply (sound_names _ _ Hs). by eexists.
Qed.

(** The calls on allowed paths. *)
Lemma found_file_inside h q i rd wr : host_sound rt h → inside rt q →
  tree h !! q = Some (NFile i) → file_inside rt h (mk_file i 0 rd wr false).
Proof.
  intros Hs Hq Hi _. cbn. split; [by apply (sound_fresh _ _ Hs q)|].
  intros q' i' Hq' Hi' ->. by apply (sound_apart _ _ Hs q q' i).
Qed.
Lemma open_jailed h p rd wr create truncate r h' :
  host_sound rt h → no_dangling rt h → allowed rt h p →
  open_options rd wr create truncate p h = (r, h') →
  jailed h h' ∧ ∀ f, r = Ok f → file_inside rt h' f ∧ (wr = true → on_dir f = false).
Proof.
  intros Hs Hnd Hal. pose proof (allowed_open rt h p Hs Hnd Hal) as Ho. unfold open_options.
  pose proof (jailed_refl h Hs) as Hrefl.
  destruct (lookup_path h p) as [l q|d n|k]; [|destruct create|by intros [= <- <-]].
  - destruct (tree h !! q) as [[i|i|t]|] eqn:Hq; [| |by intros [= <- <-]..].
    + destruct wr; [by intros [= <- <-]|]. destruct create; intros [= <- <-]; [done|].
      split; [done|]. by intros f [= <-].
    + pose proof (found_file_inside h q i rd wr Hs Ho Hq) as Hf.
      assert (jailed h (if truncate then set_contents h i [] else h)) as Hj.
      { destruct truncate; [|done]. by apply (set_contents_jailed h (mk_file i 0 rd wr false)). }
      intros [= <- <-]. split; [done|]. intros f [= <-]. split; [|done].
      by eapply file_inside_jailed.
  - destruct Ho as [Hd Hn]. intros [= <- <-].
    assert (jailed h (add_node h (d ++ [n]) NFile)) as Hj.
    { apply add_node_jailed; [done|by apply inside_app|done|by left]. }
    split; [done|]. intros f [= <-]. split; [|done].
    eapply (found_file_inside _ (d ++ [n])); [apply Hj|by apply inside_app|].
    cbn. apply lookup_insert_eq.
  - by intros [= <- <-].
Qed.

Section entries.
Context (h : HostFs) (Hs : host_sound rt h) (Hnw : no_way_in rt h).

Lemma create_dir_jailed p : allowed rt h p → jailed h (HostFs.create_dir p h).2.
Proof.
  intros Hal. unfold HostFs.create_dir.
  destruct (entry_of h p) as [[d n]| | |] eqn:He; try by apply jailed_refl.
  apply allowed_entry with (rt := rt) in He as [Hin Hn]; [|done..].
  case_bool_decide; [by apply jailed_refl|]. by apply add_node_jailed; [..|right].
Qed.
Lemma remove_dir_jailed p : allowed rt h p → jailed h (remove_dir p h).2.
Proof.
  intros Hal. unfold remove_dir.
  destruct (entry_of h p) as [[d n]| | |] eqn:He; try by apply jailed_refl.
  apply allowed_entry with (rt := rt) in He as [Hin Hn]; [|done..].
  destruct (tree h !! (d ++ [n])) as [[]|]; try by apply jailed_refl.
  case_bool_decide; [by apply delete_jailed|by apply jailed_refl].
Qed.
Lemma remove_file_jailed p : allowed rt h p → jailed h (remove_file p h).2.
Proof.
  intros Hal. unfold remove_file.
  destruct (entry_of h p) as [[d n]| | |] eqn:He; try by apply jailed_refl.
  apply allowed_entry with (rt := rt) in He as [Hin Hn]; [|done..].
  destruct (tree h !! (d ++ [n])) as [[]|];
    (by apply jailed_refl) || (by apply delete_jailed).
Qed.
Lemma rename_jailed p q : allowed rt h p → allowed rt h q → jailed h (HostFs.rename p q h).2.
Proof.
  intros Hp Hq. pose proof (jailed_refl h Hs). unfold HostFs.rename.
  destruct (entry_of h p) as [[d n]| | |] eqn:He1; [|done|by destruct (entry_of h q)..].
  destruct (entry_of h q) as [[d' n']| | |] eqn:He2; try done.
  apply allowed_entry with (rt := rt) in He1 as [Hin Hn]; [|done..].
  apply allowed_entry with (rt := rt) in He2 as [Hin' Hn']; [|done..].
  destruct (tree h !! (d ++ [n])) as [x|] eqn:Ht; [|done].
  destruct x, (tree h !! (d' ++ [n'])) as [[]|];
    repeat case_match; try done; cbn; by (apply move_jailed || eapply replace_jailed).
Qed.
Lemma copy_jailed p q : no_dangling rt h → allowed rt h p → allowed rt h q →
  jailed h (HostFs.copy p q h).2.
Proof.
  intros Hnd Hp Hq. pose proof (jailed_refl h Hs). unfold HostFs.copy.
  destruct (open_options true false false false p h) as [[f| | |] h0]; try done.
  destruct (on_dir f); [done|].
  destruct (open_options false true true true q h) as [r h1] eqn:Ho.
  apply open_jailed in Ho as [Hj Hf]; [|done..].
  destruct r as [g| | |]; try done. destruct (Hf g eq_refl) as [Hg Hdir].
  cbn. eapply jailed_trans; [done|]. apply set_contents_jailed; [apply Hj|done|by apply Hdir].
Qed.
End entries.

Lemma file_write_jailed h f data : host_sound rt h → file_inside rt h f →
  jailed h (file_write f data h).2.
Proof.
  intros Hs Hf. unfold file_write. destruct (negb _ || on_dir f) eqn:Hd; [by apply jailed_refl|].
  apply orb_false_iff in Hd as [_ Hd].
  destruct data; [by apply jailed_refl|]. by apply set_contents_jailed.
Qed.
Lemma file_set_len_jailed h f n : host_sound rt h → file_inside rt h f →
  jailed h (file_set_len f n h).2.
Proof.
  intros Hs Hf. unfold file_set_len. destruct (_ || on_dir f) eqn:Hd; [by apply jailed_refl|].
  apply orb_false_iff in Hd as [_ Hd]. by apply set_contents_jailed.
Qed.
End effects.

(** * The backend *)

(** A well-formed backend: the host is sound and no open file is one outside. *)
Record backend_ok (s : HostDirBackend) : Prop := {
  be_sound : host_sound (root s) (host s);
  be_files : ∀ k o, files s !! k = Some o → file_inside (root s) (host s) (file o);
}.
Record links_ok (s : HostDirBackend) : Prop := {
  links_dangling : no_dangling (root s) (host s);
  links_in : no_way_in (root s) (host s);
}.

(** What an operation keeps; a quiet step changes neither host nor files. *)
Record keeps (s s' : HostDirBackend) : Prop := {
  keeps_root : root s' = root s;
  keeps_jailed : jailed (root s) (host s) (host s');
  keeps_ok : backend_ok s';
}.
Record quiet (s s' : HostDirBackend) : Prop := {
  quiet_root : root s' = root s;
  quiet_host : host s' = host s;
  quiet_files : files s' = files s;
}.

Create HintDb sandbox.
Lemma quiet_refl s : quiet s s.
Proof. done. Qed.
Lemma quiet_trans s1 s2 s3 : quiet s1 s2 → quiet s2 s3 → quiet s1 s3.
Proof. intros [] []. split; congruence. Qed.
Lemma quiet_ok s s' : quiet s s' → backend_ok s → backend_ok s'.
Proof. intros [Hr Hh Hf] [? ?]. split; rewrite ?Hr, ?Hh, ?Hf; done. Qed.
Lemma quiet_links s s' : quiet s s' → links_ok s → links_ok s'.
Proof. intros [Hr Hh _] [? ?]. split; by rewrite Hr, Hh. Qed.
Lemma be_keeps_refl s : backend_ok s → keeps s s.
Proof. intros Hs. split; [done| |done]. apply jailed_refl, Hs. Qed.
Lemma keeps_trans s1 s2 s3 : keeps s1 s2 → keeps s2 s3 → keeps s1 s3.
Proof.
  intros [Hr1 Hj1 _] [Hr2 Hj2 Hok]. split; [congruence| |done].
  rewrite Hr1 in Hj2. by eapply jailed_trans.
Qed.
Lemma quiet_keeps s s' : backend_ok s → quiet s s' → keeps s s'.
Proof.
  intros Hok Hq. pose proof (quiet_ok _ _ Hq Hok). destruct Hq as [Hr Hh _].
  split; [done| |done]. rewrite Hh. apply jailed_refl, Hok.
Qed.

(** A quiet computation. *)
Definition quiets {A} (m : be A) : Prop := ∀ s, quiet s (m s).2.
Lemma quiets_caching {A} (m : be A) : caching m → quiets m.
Proof. intros Hm s. by destruct (Hm s) as [c ->]. Qed.
Lemma quiets_alloc_id : quiets alloc_id.
Proof. done. Qed.
Lemma quiets_on_table f : quiets (on_table f).
Proof. intros s. unfold on_table. by destruct (f (sharing s)). Qed.
Lemma quiets_bind {A C} (m : be A) (f : A → be C) :
  quiets m → (∀ a, quiets (f a)) → quiets (m ≫= f).
Proof.
  intros Hm Hf s. apply (bind_state (quiet s)); [apply Hm|]. intros a s' Hs.
  eapply quiet_trans; [|apply Hf]. pose proof (Hm s) as H. by rewrite Hs in H.
Qed.
#[export] Hint Resolve quiets_alloc_id quiets_on_table : sandbox.

Ltac quiet_tac :=
  repeat first
    [ progress eauto with sandbox
    | solve [apply quiets_caching; caching_tac]
    | apply quiets_bind; [|intros]
    | case_match ].

(** A computation whose value is an allowed path. *)
Definition yields_allowed (m : be path) : Prop := ∀ s p s',
  backend_ok s → m s = (Ok p, s') → allowed (root s') (host s') p.
Lemma quiets_run {A} (m : be A) s r s' : quiets m → m s = (r, s') → quiet s s'.
Proof. intros Hm Hs. pose proof (Hm s) as H. by rewrite Hs in H. Qed.

Lemma enforced {A} p (k : be A) s a s' : backend_ok s →
  (enforce_sandbox p;; k) s = (Ok a, s') → k s = (Ok a, s') ∧ allowed (root s) (host s) p.
Proof.
  intros Hok (u & s1 & Hp & Hk)%bind_Ok. destruct u.
  apply enforce_allowed in Hp as [-> Hal]; [|apply Hok]. split; [done|]. by apply Hal.
Qed.
Lemma resolve_existing_allowed p : yields_allowed (resolve_existing p).
Proof.
  intros s q s' Hok. unfold resolve_existing.
  intros (r & s1 & H1 & H)%bind_Ok. apply bind_Ok in H as (q' & s2 & H2 & H).
  apply quiets_run in H1; [|quiet_tac]. apply quiets_run in H2; [|quiet_tac].
  apply enforced in H as [H Hal]; [|by eauto using quiet_ok].
  by injection H as -> ->.
Qed.
Lemma resolve_for_create_allowed p : yields_allowed (resolve_for_create p).
Proof.
  intros s q s' Hok. unfold resolve_for_create. case_bool_decide as Hnil; [done|].
  destruct (default _ _) as [parent_rel filename]. destruct (254 <? _); [done|].
  intros (parent & s1 & H1 & H)%bind_Ok. apply bind_Ok in H as (s2 & s3 & H2 & H).
  injection H2 as <- <-. destruct (negb _); [done|].
  apply quiets_run in H1; [|quiet_tac].
  apply enforced in H as [H Hal]; [|by eauto using quiet_ok]. by injection H as <- <-.
Qed.

(** ** Sequencing of what is kept *)

Definition keeps_all {A} (m : be A) : Prop := ∀ s, backend_ok s → links_ok s → keeps s (m s).2.

Lemma quiets_keeps_all {A} (m : be A) : quiets m → keeps_all m.
Proof. intros Hm s Hok _. by apply quiet_keeps. Qed.
Lemma keeps_quiet s s1 s2 : keeps s s1 → quiet s1 s2 → keeps s s2.
Proof. intros Hk Hq. eapply keeps_trans; [done|]. apply quiet_keeps; [apply Hk|done]. Qed.
(** A quiet step, then one that keeps. *)
Lemma quiet_then {A C} (m : be A) (f : A → be C) :
  quiets m → (∀ a s s', backend_ok s → links_ok s → m s = (Ok a, s') → keeps s' (f a s').2) →
  keeps_all (m ≫= f).
Proof.
  intros Hm Hf s Hok Hl. apply (bind_state (keeps s)); [by apply quiet_keeps|].
  intros a s' Hs. pose proof (quiets_run _ _ _ _ Hm Hs) as Hq.
  eapply keeps_trans; [by apply quiet_keeps|]. by eapply Hf.
Qed.
(** A step that keeps, then a quiet one. *)
Lemma then_quiet {A C} (m : be A) (f : A → be C) s0 s :
  keeps s0 (m s).2 → (∀ a, quiets (f a)) → keeps s0 ((m ≫= f) s).2.
Proof.
  intros Hm Hf. apply (bind_state (keeps s0)); [done|]. intros a s' Hs. rewrite Hs in Hm.
  eapply keeps_quiet; [done|]. apply Hf.
Qed.

Lemma host_call_keeps {A} (c : call A) s : backend_ok s →
  jailed (root s) (host s) (c (host s)).2 → keeps s (host_call c s).2.
Proof.
  intros Hok Hj. unfold host_call. destruct (c (host s)) as [r h]. simpl in Hj |- *.
  split; [done|done|]. split; [apply Hj|]. intros k o Ho. eapply file_inside_jailed; [done|].
  by apply (be_files _ Hok k).
Qed.
Lemma changing_keeps p c s : backend_ok s → jailed (root s) (host s) (c (host s)).2 →
  keeps s (changing p c s).2.
Proof. intros. apply then_quiet; [by apply host_call_keeps|]. intros. quiet_tac. Qed.

(** A new open file. *)
Lemma with_files_keeps s k o : backend_ok s → file_inside (root s) (host s) (file o) →
  keeps s (with_files s (<[k := o]> (files s))).
Proof.
  intros Hok Hf. split; [done|apply jailed_refl, Hok|]. split; [apply Hok|].
  cbn. intros k' o' [[_ <-]|[_ Ho]]%lookup_insert_Some; [done|]. by apply (be_files _ Hok k').
Qed.

(** ** The operations keep *)

(** A resolved path is allowed in the state it is used in. *)
Lemma allowed_then {C} (m : be path) (f : path → be C) :
  quiets m → yields_allowed m →
  (∀ q s, backend_ok s → links_ok s → allowed (root s) (host s) q → keeps s (f q s).2) →
  keeps_all (m ≫= f).
Proof.
  intros Hm Hal Hf. apply quiet_then; [done|]. intros q s s' Hok Hl Hs.
  pose proof (quiets_run _ _ _ _ Hm Hs) as Hq.
  apply Hf; eauto using quiet_ok, quiet_links.
Qed.
#[export] Hint Resolve resolve_existing_allowed resolve_for_create_allowed : sandbox.

Lemma create_dir_keeps p : keeps_all (create_dir p).
Proof.
  apply allowed_then; [quiet_tac..|]. intros q s Hok [] Hal.
  apply changing_keeps; [done|]. apply create_dir_jailed; [apply Hok|done..].
Qed.
Lemma delete_dir_keeps p : keeps_all (delete_dir p).
Proof.
  apply allowed_then; [quiet_tac..|]. intros q s Hok [] Hal.
  apply changing_keeps; [done|]. apply remove_dir_jailed; [apply Hok|done..].
Qed.
Lemma delete_keeps p : keeps_all (delete p).
Proof.
  apply allowed_then; [quiet_tac..|]. intros q s Hok [] Hal.
  apply changing_keeps; [done|]. apply remove_file_jailed; [apply Hok|done..].
Qed.
(** Two resolved paths. *)
Lemma allowed_two {C} (m1 m2 : be path) (f : path → path → be C) :
  quiets m1 → yields_allowed m1 → quiets m2 → yields_allowed m2 →
  (∀ q1 q2 s, backend_ok s → links_ok s → allowed (root s) (host s) q1 →
     allowed (root s) (host s) q2 → keeps s (f q1 q2 s).2) →
  keeps_all (q1 ← m1; q2 ← m2; f q1 q2).
Proof.
  intros Hm1 Ha1 Hm2 Ha2 Hf. apply allowed_then; [done..|]. intros q1 s Hok Hl Hal1.
  apply (bind_state (keeps s)); [by apply quiet_keeps|]. intros q2 s' Hs.
  pose proof (quiets_run _ _ _ _ Hm2 Hs) as Hq.
  eapply keeps_trans; [by apply quiet_keeps|].
  apply Hf; eauto using quiet_ok, quiet_links. destruct Hq as [Hr Hh _]. by rewrite Hr, Hh.
Qed.
Lemma rename_keeps p q : keeps_all (rename p q).
Proof.
  apply allowed_two; [quiet_tac..|]. intros q1 q2 s Hok [] Hal1 Hal2.
  apply then_quiet; [|intros; quiet_tac]. apply host_call_keeps; [done|].
  apply rename_jailed; [apply Hok|done..].
Qed.
Lemma copy_keeps p q : keeps_all (copy p q).
Proof.
  apply allowed_two; [quiet_tac..|]. intros q1 q2 s Hok [] Hal1 Hal2.
  apply changing_keeps; [done|]. apply copy_jailed; [apply Hok|done..].
Qed.

(** The handle operations. *)
Lemma on_open_file_keeps {A} k (op : File → call (A * File)) :
  (∀ s f, backend_ok s → file_inside (root s) (host s) f →
     let '(r, h) := op f (host s) in
     jailed (root s) (host s) h ∧ ∀ a f', r = Ok (a, f') → ino f' = ino f ∧ on_dir f' = on_dir f) →
  keeps_all (on_open_file k op).
Proof.
  intros Hop s Hok _. unfold on_open_file. apply (bind_state (keeps s)); [by apply be_keeps_refl|].
  intros s1 s2 [= <- <-]. destruct (files s !! k) as [o|] eqn:Hk; cbn [need]; [|by apply be_keeps_refl].
  apply (bind_state (keeps s)); [by apply be_keeps_refl|]. intros o' s2 [= <- <-].
  pose proof (be_files _ Hok _ _ Hk) as Hf. pose proof (Hop s (file o) Hok Hf) as Hj.
  assert (Hk1 : keeps s (host_call (op (file o)) s).2).
  { apply host_call_keeps; [done|]. destruct (op (file o) (host s)). apply Hj. }
  apply (bind_state (keeps s)); [done|]. intros [a f'] s1 Hs. rewrite Hs in Hk1. cbn [snd] in Hk1.
  eapply keeps_trans; [done|]. apply with_files_keeps; [apply Hk1|]. cbn [file].
  unfold host_call in Hs. destruct (op (file o) (host s)) as [[[a0 f0]| | |] h];
    cbn [mapped] in Hs; try done. injection Hs as <- <- <-. destruct Hj as [Hj Hino].
  destruct (Hino _ _ eq_refl) as [Hi Hd].
  cbn. intros Hdir. rewrite Hi. rewrite Hd in Hdir. by apply (file_inside_jailed _ _ _ _ Hj Hf).
Qed.
Lemma read_keeps k n : keeps_all (read k n).
Proof.
  apply on_open_file_keeps. intros s f Hok Hf. split; [apply jailed_refl, Hok|].
  unfold file_read. intros a f'. case_match; [done|]. by intros [= <- <-].
Qed.
Lemma write_keeps k data : keeps_all (write k data).
Proof.
  apply on_open_file_keeps. intros s f Hok Hf.
  pose proof (file_write_jailed _ _ f data (be_sound _ Hok) Hf) as Hj. revert Hj.
  unfold file_write. case_match; [by split|]. destruct data; intros Hj; (split; [done|]);
    by intros ?? [= <- <-].
Qed.
Lemma seek_keeps k o m : keeps_all (seek k o m).
Proof.
  apply on_open_file_keeps. intros s f Hok Hf. split; [apply jailed_refl, Hok|].
  unfold file_seek. intros a f'. case_match; [done|]. by intros [= <- <-].
Qed.
Lemma set_file_size_keeps k n : keeps_all (set_file_size k n).
Proof.
  apply on_open_file_keeps. intros s f Hok Hf.
  pose proof (file_set_len_jailed _ _ f n (be_sound _ Hok) Hf) as Hj.
  destruct (file_set_len f n (host s)) as [[[]| | |] h]; (split; [done|]); try done.
  by intros ?? [= <- <-].
Qed.
Lemma flush_keeps k : keeps_all (flush k).
Proof.
  apply on_open_file_keeps. intros s f Hok Hf. split; [apply jailed_refl, Hok|]. by intros ?? [= <- <-].
Qed.
Lemma close_keeps k : keeps_all (close k).
Proof.
  intros s Hok _. unfold close. apply (bind_state (keeps s)); [by apply be_keeps_refl|].
  intros s1 s2 [= <- <-]. destruct (files s !! k) as [o|]; cbn [need]; [|by apply be_keeps_refl].
  apply (bind_state (keeps s)); [by apply be_keeps_refl|]. intros o' s2 [= <- <-].
  split; [done|apply jailed_refl, Hok|]. split; [apply Hok|].
  cbn. intros k' o'' [_ Ho]%lookup_delete_Some. by apply (be_files _ Hok k').
Qed.

(** [open]: the path is allowed, whichever way it was found. *)
Lemma open_path_allowed p flags e s q a s' : backend_ok s →
  open_path p flags e s = (Ok (q, a), s') → allowed (root s') (host s') q.
Proof.
  intros Hok. unfold open_path.
  destruct e as [p'|], (exist_action flags), (new_action flags); try done;
    try (intros [H Hal]%enforced; [by injection H as <- <- <-|done]);
    intros (q' & s1 & H1 & H2)%bind_Ok; injection H2 as <- <- <-;
    by apply resolve_for_create_allowed in H1.
Qed.
Lemma open_at_keeps q mode a k s : backend_ok s → links_ok s → allowed (root s) (host s) q →
  keeps s (open_at q mode a k s).2.
Proof.
  intros Hok [Hd _] Hal. unfold open_at.
  set (creating := bool_decide (a = Created) || bool_decide (a = Replaced)).
  apply (bind_state (keeps s)); [by apply be_keeps_refl|]. intros s4 s4' [= <- <-].
  match goal with |- context [open_options ?a ?b ?c ?d q (host s)] =>
    destruct (open_options a b c d q (host s)) as [r h] eqn:Ho end.
  apply open_jailed with (rt := root s) in Ho as [Hj Hf]; [|apply Hok|done..].
  assert (keeps s (with_host s h)) as Hk.
  { split; [done|done|]. split; [apply Hj|]. intros k' o Hk'. eapply file_inside_jailed; [done|].
    by apply (be_files _ Hok k'). }
  destruct r as [f|e'| |]; [|by eapply keeps_quiet|by apply be_keeps_refl..].
  destruct (Hf f eq_refl) as [Hfi _].
  apply (bind_state (keeps s)); [done|]. intros [] s5 [= <-].
  assert (quiets (if creating then invalidate (path_parent q) else mret tt)) as Hqu by quiet_tac.
  apply (bind_state (keeps s)); [eapply keeps_quiet; [done|apply Hqu]|].
  intros [] s6 Hs6. apply quiets_run in Hs6; [|done].
  eapply keeps_trans; [by eapply keeps_quiet|].
  pose proof (quiet_ok _ _ Hs6 (keeps_ok _ _ Hk)) as Hok6.
  apply (with_files_keeps s6 k (mk_open f q) Hok6). destruct Hs6 as [-> -> _]. exact Hfi.
Qed.
(** After a quiet step. *)
Lemma after_quiet {A C} (m : be A) (f : A → be C) s : backend_ok s → quiets m →
  (∀ a s', m s = (Ok a, s') → keeps s' (f a s').2) → keeps s ((m ≫= f) s).2.
Proof.
  intros Hok Hm Hf. apply (bind_state (keeps s)); [by apply quiet_keeps|]. intros a s' Hs.
  eapply keeps_trans; [|by apply Hf]. apply quiet_keeps; [done|]. by eapply quiets_run.
Qed.
Lemma open_keeps p mode sh flags attrs : keeps_all (open p mode sh flags attrs).
Proof.
  apply quiet_then; [quiet_tac|]. intros e s0 s Hok0 Hl0 Hq0%quiets_run; [|quiet_tac].
  pose proof (quiet_ok _ _ Hq0 Hok0) as Hok. pose proof (quiet_links _ _ Hq0 Hl0) as Hl.
  apply after_quiet; [done|quiet_tac|]. intros [q a] s1 Hs1.
  pose proof (open_path_allowed _ _ _ _ _ _ _ Hok Hs1) as Hal.
  apply quiets_run in Hs1 as Hq1; [|quiet_tac].
  pose proof (quiet_ok _ _ Hq1 Hok) as Hok1. pose proof (quiet_links _ _ Hq1 Hl) as Hl1.
  apply after_quiet; [done|quiet_tac|]. intros k s2 Hq2%quiets_run; [|quiet_tac].
  apply after_quiet; [by eapply quiet_ok|quiet_tac|]. intros [] s3 Hq3%quiets_run; [|quiet_tac].
  pose proof (quiet_trans _ _ _ Hq2 Hq3) as Hq.
  apply open_at_keeps; [by eapply quiet_ok|by eapply quiet_links|].
  destruct Hq as [Hr Hh _]. by rewrite Hr, Hh.
Qed.

Section steps.
Context {B : Build} (setlk : File → bool → Z → Z → Z).

Lemma quiets_insert_find k st : quiets (insert_find k st).
Proof. done. Qed.
#[local] Hint Resolve quiets_insert_find : sandbox.
Lemma quiets_find_first p a : quiets (find_first p a).
Proof. unfold find_first. destruct (default _ _) as [d f]. quiet_tac. Qed.
Lemma quiets_find_next k : quiets (find_next k).
Proof.
  intros s. unfold find_next, mbind, vfs_bind, vfs_get, need.
  destruct (finds s !! k) as [st|]; [|done]. cbn. by destruct (idx _ _).
Qed.
Lemma quiets_find_close k : quiets (find_close k).
Proof.
  intros s. unfold find_close, mbind, vfs_bind, vfs_get, need. by destruct (finds s !! k).
Qed.
Lemma quiets_query_path_info p l : quiets (query_path_info p l).
Proof. unfold query_path_info. quiet_tac. Qed.
Lemma quiets_query_file_info k l : quiets (query_file_info k l).
Proof. unfold query_file_info. quiet_tac. Qed.
Lemma quiets_set_file_locks k u l t : quiets (set_file_locks setlk k u l t).
Proof. unfold set_file_locks. quiet_tac. Qed.

(** The operations of the backend. *)
Inductive hd_op :=
| HOpen (p : rstring) (mode : OpenMode) (sh : SharingMode) (flags : OpenFlags) (attrs : Z)
| HClose (k : Z) | HRead (k n : Z) | HWrite (k : Z) (data : bytes)
| HSeek (k offset : Z) (mode : SeekMode) | HSetSize (k n : Z) | HFlush (k : Z)
| HLocks (k : Z) (unlock lock : list FileLockRange) (timeout_ms : Z)
| HFindFirst (p : rstring) (attrs : Z) | HFindNext (k : Z) | HFindClose (k : Z)
| HCreateDir (p : rstring) | HDeleteDir (p : rstring) | HDelete (p : rstring)
| HRename (p q : rstring) | HCopy (p q : rstring)
| HQueryPath (p : rstring) (level : Z) | HQueryFile (k level : Z).

Definition hd_step (op : hd_op) (s : HostDirBackend) : HostDirBackend :=
  match op with
  | HOpen p m sh f a => (be_open (VfsBackend := hostdir_backend setlk) p m sh f a s).2
  | HClose k => (close k s).2
  | HRead k n => (read k n s).2
  | HWrite k d => (write k d s).2
  | HSeek k o m => (seek k o m s).2
  | HSetSize k n => (set_file_size k n s).2
  | HFlush k => (flush k s).2
  | HLocks k u l t => (set_file_locks setlk k u l t s).2
  | HFindFirst p a => (find_first p a s).2
  | HFindNext k => (find_next k s).2
  | HFindClose k => (find_close k s).2
  | HCreateDir p => (create_dir p s).2
  | HDeleteDir p => (delete_dir p s).2
  | HDelete p => (delete p s).2
  | HRename p q => (rename p q s).2
  | HCopy p q => (copy p q s).2
  | HQueryPath p l => (query_path_info p l s).2
  | HQueryFile k l => (query_file_info k l s).2
  end.

Lemma hd_step_keeps op s : backend_ok s → links_ok s → keeps s (hd_step op s).
Proof.
  destruct op; cbn [hd_step];
    [apply open_keeps|apply close_keeps|apply read_keeps|apply write_keeps|apply seek_keeps
    |apply set_file_size_keeps|apply flush_keeps|apply quiets_keeps_all, quiets_set_file_locks
    |apply quiets_keeps_all, quiets_find_first|apply quiets_keeps_all, quiets_find_next
    |apply quiets_keeps_all, quiets_find_close|apply create_dir_keeps|apply delete_dir_keeps
    |apply delete_keeps|apply rename_keeps|apply copy_keeps
    |apply quiets_keeps_all, quiets_query_path_info|apply quiets_keeps_all, quiets_query_file_info].
Qed.

(** Runs of a backend, from states whose links are in order. *)
Inductive hd_run : HostDirBackend → HostDirBackend → Prop :=
| run_done s : hd_run s s
| run_step op s s' : links_ok s → hd_run (hd_step op s) s' → hd_run s s'.
End steps.

(** C7: the sandbox holds.  On a host without a hard link across the root, and as long as no
    link in the volume dangles and no link outside leads into it, no sequence of backend
    operations, whatever paths and handles they are given, changes, creates, moves or removes
    anything outside the root of the volume, nor the contents of a file there. *)
Theorem sandbox_contains {B : Build} (setlk : File → bool → Z → Z → Z) (s s' : HostDirBackend) :
  backend_ok s → hd_run setlk s s' →
  root s' = root s ∧ backend_ok s' ∧ outside_same (root s) (host s) (host s').
Proof.
  intros Hok Hrun. assert (keeps s s') as [Hr Hj Hok']; [|by split_and!; [..|apply Hj]].
  induction Hrun as [s|op s s' Hl Hrun IH]; [by apply be_keeps_refl|].
  pose proof (hd_step_keeps setlk op s Hok Hl) as Hk.
  eapply keeps_trans; [done|]. apply IH, Hk.
Qed.

(** * Examples *)

(** Checkers for concrete hosts. *)
Definition nodes (h : HostFs) : list (path * node) := map_to_list (tree h).
Definition no_links (h : HostFs) : bool :=
  forallb (λ x, match x.2 with NLink _ => false | _ => true end) (nodes h).
Definition soundb (rt : path) (h : HostFs) : bool :=
  forallb (λ c, negb (stays c)) rt &&
  forallb (λ x, forallb (λ c, negb (stays c)) x.1) (nodes h) &&
  forallb (λ x, match x.2 with NFile i => i <? next_ino h | _ => true end) (nodes h) &&
  forallb (λ x, forallb (λ y, match x.2, y.2 with
    | NFile i, NFile j => negb (i =? j) || bool_decide (inside rt x.1 ↔ inside rt y.1)
    | _, _ => true end) (nodes h)) (nodes h).

Lemma forallb_nodes P h q n : forallb P (nodes h) = true → tree h !! q = Some n → P (q, n) = true.
Proof.
  rewrite forallb_forall. intros H Hq. apply H, list_elem_of_In. by apply elem_of_map_to_list.
Qed.
Lemma forallb_names q : forallb (λ c, negb (stays c)) q = true → names_ok q.
Proof.
  rewrite forallb_forall. intros H. apply Forall_forall. intros c Hc.
  apply list_elem_of_In, H in Hc. by destruct (stays c).
Qed.
Lemma no_links_ok s : no_links (host s) = true → links_ok s.
Proof.
  intros H. split; intros ? **; pose proof (forallb_nodes _ _ _ _ H ltac:(eassumption)); done.
Qed.
Lemma soundb_ok rt h : soundb rt h = true → host_sound rt h.
Proof.
  unfold soundb. rewrite !andb_true_iff. intros [[[H1 H2] H3] H4]. split.
  - by apply forallb_names.
  - intros q [n Hq]. apply forallb_names. apply (forallb_nodes _ _ _ _ H2 Hq).
  - intros q i Hq. apply Z.ltb_lt. apply (forallb_nodes _ _ _ _ H3 Hq).
  - intros p q i Hp Hq Hpi Hqi. pose proof (forallb_nodes _ _ _ _ H4 Hpi) as H5. cbn [fst snd] in H5.
    pose proof (forallb_nodes _ _ _ _ H5 Hqi) as H6. cbn [fst snd] in H6.
    rewrite Z.eqb_refl in H6. apply bool_decide_eq_true in H6. by apply Hq, H6.
Qed.

(** A host with a volume at /vol, in a given tree. *)
Definition demo_path (s : string) : path := tail (pieces (str s)).
Definition demo_host (l : list (string * node)) : HostFs :=
  mk_fs (list_to_map (([], NDir 0) :: map (λ '(p, n), (demo_path p, n)) l)) ∅ 100 0 4096 false.
Definition demo_volume (casefold : bool) (l : list (string * node)) : HostDirBackend :=
  mk_be (demo_path "/vol") ∅ ∅ ∅ ∅ casefold true 1 (demo_host l) 0.
Definition plain_volume : HostDirBackend :=
  demo_volume true [("/vol", NDir 1); ("/vol/docs", NDir 2); ("/vol/docs/a.txt", NFile 3);
                    ("/etc", NDir 4); ("/etc/passwd", NFile 5)].

Definition no_lock : File → bool → Z → Z → Z := λ _ _ _ _, 0.
Definition create_new : OpenFlags := mk_flags ExistReplace NewCreate.
Definition demo_ops : list hd_op :=
  [HOpen (str "docs/new.txt") ReadWrite DenyNone create_new 0;
   HWrite 1 (str "text"); HClose 1; HDelete (str "docs/a.txt");
   HDelete (str "../etc/passwd"); HOpen (str "../etc/shadow") WriteOnly DenyNone create_new 0].
Fixpoint states (ops : list hd_op) (s : HostDirBackend) : list HostDirBackend :=
  match ops with
  | [] => []
  | op :: ops => s :: states ops (hd_step (B := dev_profile) no_lock op s)
  end.
Definition after (ops : list hd_op) (s : HostDirBackend) : HostDirBackend :=
  foldl (λ s op, hd_step (B := dev_profile) no_lock op s) s ops.
Lemma run_of ops s : forallb (λ s, no_links (host s)) (states ops s) = true →
  hd_run (B := dev_profile) no_lock s (after ops s).
Proof.
  revert s. induction ops as [|op ops IH]; intros s; cbn [states forallb]; [constructor|].
  rewrite andb_true_iff. intros [H1 H2]. apply (run_step _ op); [by apply no_links_ok|].
  by apply IH.
Qed.

(** The client makes docs/new.txt and deletes docs/a.txt; its attempts on /etc fail. *)
Lemma sandbox_contains_witness :
  let s := plain_volume in
  let s' := after demo_ops s in
  outside_same (root s) (host s) (host s') ∧
  tree (host s') !! demo_path "/etc/passwd" = Some (NFile 5) ∧
  tree (host s') !! demo_path "/vol/docs/a.txt" = None ∧
  tree (host s') !! demo_path "/vol/docs/new.txt" = Some (NFile 100).
Proof.
  intros s s'.
  pose proof (sandbox_contains (B := dev_profile) no_lock s s') as H.
  destruct H as (_ & _ & H).
  - split; [apply soundb_ok; by vm_compute|]. intros k o Hk.
    change ((∅ : gmap Z OpenFileState) !! k = Some o) in Hk. by rewrite lookup_empty in Hk.
  - apply run_of. by vm_compute.
  - split; [exact H|]. by vm_compute.
Defined.

(** A dangling link in the volume: opening it for creation makes its target outside. *)
Definition dangling_volume : HostDirBackend :=
  demo_volume false [("/vol", NDir 1); ("/vol/L", NLink (str "/etc/new")); ("/etc", NDir 4)].
Lemma dangling_link_escapes :
  let '(r, s') := open (str "l") ReadWrite DenyNone create_new 0 dangling_volume in
  r = Ok (1, Replaced) ∧ tree (host dangling_volume) !! demo_path "/etc/new" = None ∧
  tree (host s') !! demo_path "/etc/new" = Some (NFile 100).
Proof. by vm_compute. Qed.

(** A link outside that leads in, reached over a link out: its entry is removed. *)
Definition way_in_volume : HostDirBackend :=
  demo_volume false [("/vol", NDir 1); ("/vol/f", NFile 2); ("/vol/out", NLink (str "/home"));
                     ("/home", NDir 3); ("/home/back", NLink (str "/vol/f"))].
Lemma way_in_escapes :
  let '(r, s') := delete (str "out/back") way_in_volume in
  r = Ok tt ∧ tree (host s') !! demo_path "/home/back" = None.
Proof. by vm_compute. Qed.

(** The empty path is the root of the volume: an empty volume can be removed by its guest. *)
Lemma volume_root_removed :
  let s := demo_volume false [("/vol", NDir 1)] in
  let '(r, s') := delete_dir [] s in
  r = Ok tt ∧ tree (host s') !! demo_path "/vol" = None.
Proof. by vm_compute. Qed.
