(* ===== verification/Sharing.v ===== *)
(** Sharing modes of the host-directory backend (src/src/loader/vfs_hostdir.rs): whatever files
    are open on one path, their access and sharing modes agree, and the sharing table holds
    exactly the open files. *)
From S2P Require Import Prelude Bytes HostFs Vfs HostDir Sandbox.

(** Two opens that both may stand. *)
Definition agree (a b : opened) : Prop :=
  let '(_, m1, s1) := a in let '(_, m2, s2) := b in is_sharing_compatible m1 s1 m2 s2 = true.
#[export] Instance agree_sym : Symmetric agree.
Proof. intros [[? m1] s1] [[? m2] s2]. cbn. unfold is_sharing_compatible. by rewrite andb_comm. Qed.

(** The open files as a map from handle to path, and the table: the opens of a path agree two by
    two, every open file is in the table once, and nothing else is. *)
Record table_ok (fp : gmap Z path) (t : SharingTable) (n : Z) : Prop := {
  table_agree : ∀ key l, t !! key = Some l → ForallOrdPairs agree l;
  table_unique : ∀ key l, t !! key = Some l → NoDup (map (λ o : opened, o.1.1) l);
  table_files : ∀ k key, fp !! k = Some key ↔ ∃ l m sh, t !! key = Some l ∧ (k, m, sh) ∈ l;
  table_fresh : ∀ k key, fp !! k = Some key → k < n;
}.

Lemma table_mono fp t n n' : table_ok fp t n → n ≤ n' → table_ok fp t n'.
Proof. intros [] ?. split; eauto. intros k key Hk. apply (table_fresh0 k key) in Hk. lia. Qed.

Lemma pairs_snoc l o : ForallOrdPairs agree (l ++ [o]) ↔ ForallOrdPairs agree l ∧ Forall (λ x, agree x o) l.
Proof.
  induction l as [|x l IH]; cbn; [split; [intros; split; constructor|repeat constructor]|]. split.
  - inversion 1 as [|? ? Hx Hl]; subst. apply Forall_app in Hx as [Hx Ho]. rewrite Forall_singleton in Ho.
    apply IH in Hl as [Hl Hlo]. split; by constructor.
  - intros [Hp Ho]. inversion Hp; subst. inversion Ho; subst.
    constructor; [|by apply IH]. apply Forall_app. by rewrite Forall_singleton.
Qed.
Lemma pairs_filter (P : opened → Prop) `{!∀ x, Decision (P x)} l :
  ForallOrdPairs agree l → ForallOrdPairs agree (filter P l).
Proof.
  induction 1 as [|x l Hx Hl IH]; [constructor|]. rewrite filter_cons. case_decide; [|done].
  constructor; [|done]. apply Forall_forall. intros y [_ Hy]%list_elem_of_filter.
  rewrite Forall_forall in Hx. auto.
Qed.
Lemma ids_filter (P : opened → Prop) `{!∀ x, Decision (P x)} l :
  NoDup (map (λ o : opened, o.1.1) l) → NoDup (map (λ o : opened, o.1.1) (filter P l)).
Proof.
  induction l as [|x l IH]; [done|]. cbn [map]. rewrite NoDup_cons, filter_cons. intros [Hx Hl].
  case_decide; [|auto]. cbn [map]. rewrite NoDup_cons. split; [|auto].
  intros (y & Hxy & Hy)%list_elem_of_In%in_map_iff. apply Hx. rewrite <- Hxy.
  apply list_elem_of_In, in_map_iff. exists y. split; [done|].
  apply list_elem_of_In, list_elem_of_filter in Hy as [_ Hy]. by apply list_elem_of_In.
Qed.
Lemma elem_of_ids k (l : list opened) :
  k ∈ map (λ o : opened, o.1.1) l ↔ ∃ m sh, (k, m, sh) ∈ l.
Proof.
  rewrite list_elem_of_In, in_map_iff. setoid_rewrite <- list_elem_of_In. split.
  - intros ([[k' m] sh] & <- & Hin). by exists m, sh.
  - intros (m & sh & Hin). by exists (k, m, sh).
Qed.

(** Granting an open: it agrees with those of its path. *)
Lemma table_add fp t n key m sh :
  table_ok fp t n → forallb (compatible_with m sh) (default [] (t !! key)) = true →
  table_ok (<[n := key]> fp) (<[key := default [] (t !! key) ++ [(n, m, sh)]]> t) (n + 1).
Proof.
  intros Hok Hall. set (l := default [] (t !! key)) in *.
  assert (Hfn : fp !! n = None).
  { destruct (fp !! n) eqn:E; [|done]. apply (table_fresh _ _ _ Hok) in E. lia. }
  assert (Hin : ∀ k m' sh', (k, m', sh') ∈ l → fp !! k = Some key).
  { intros k m' sh' Hk. apply (table_files _ _ _ Hok). subst l. destruct (t !! key) as [l|]; [|set_solver].
    by exists l, m', sh'. }
  split.
  - intros key' l' [[<- <-]|[_ Hl]]%lookup_insert_Some; [|by eapply (table_agree _ _ _ Hok)].
    apply pairs_snoc. split.
    + subst l. destruct (t !! key) eqn:E; [by apply (table_agree _ _ _ Hok key)|constructor].
    + rewrite forallb_forall in Hall. apply Forall_forall. intros [[k m'] sh'] Hk.
      by apply (Hall (k, m', sh')), list_elem_of_In.
  - intros key' l' [[<- <-]|[_ Hl]]%lookup_insert_Some; [|by eapply (table_unique _ _ _ Hok)].
    rewrite map_app. apply NoDup_app. split_and!.
    + subst l. destruct (t !! key) eqn:E; [by apply (table_unique _ _ _ Hok key)|constructor].
    + intros k (m' & sh' & Hk%Hin)%elem_of_ids ->%list_elem_of_singleton. cbn in Hk. congruence.
    + apply NoDup_singleton.
  - intros k key'. split.
    + intros [[<- <-]|[Hne Hk]]%lookup_insert_Some.
      { exists (l ++ [(n, m, sh)]), m, sh. rewrite lookup_insert_eq. split; [done|].
        apply elem_of_app. right. by apply list_elem_of_singleton. }
      apply (table_files _ _ _ Hok) in Hk as (l' & m' & sh' & Hl & Hk).
      destruct (decide (key = key')) as [<-|].
      * exists (l ++ [(n, m, sh)]), m', sh'. rewrite lookup_insert_eq. split; [done|].
        apply elem_of_app. left. subst l. by rewrite Hl.
      * exists l', m', sh'. by rewrite lookup_insert_ne.
    + intros (l' & m' & sh' & [[<- <-]|[_ Hl]]%lookup_insert_Some & Hk).
      * apply elem_of_app in Hk as [Hk|[= -> -> ->]%list_elem_of_singleton]; [|by rewrite lookup_insert_eq].
        apply Hin in Hk. rewrite lookup_insert_ne; [done|congruence].
      * assert (fp !! k = Some key') as Hk' by (apply (table_files _ _ _ Hok); by exists l', m', sh').
        rewrite lookup_insert_ne; [done|congruence].
  - intros k key' [[<- _]|[_ Hk]]%lookup_insert_Some; [lia|]. apply (table_fresh _ _ _ Hok) in Hk. lia.
Qed.

(** Closing a file takes its entry out. *)
Lemma table_remove fp t n k p : table_ok fp t n → fp !! k = Some (components p) →
  table_ok (base.delete k fp) (sharing_remove t p k) n.
Proof.
  intros Hok Hk. set (key := components p) in *.
  pose proof (proj1 (table_files _ _ _ Hok k key) Hk) as (l & m & sh & Hl & _).
  set (l' := filter (λ o : opened, o.1.1 ≠ k) l).
  assert (Hrem : ∀ key' x, sharing_remove t p k !! key' = Some x →
    key' = key ∧ x = l' ∨ key' ≠ key ∧ t !! key' = Some x).
  { intros key' x. unfold sharing_remove. fold key. rewrite Hl. fold l'. case_bool_decide.
    - rewrite lookup_delete_Some. naive_solver.
    - rewrite lookup_insert_Some. naive_solver. }
  assert (Hmem : ∀ k' key' m' sh', (∃ x, sharing_remove t p k !! key' = Some x ∧ (k', m', sh') ∈ x) ↔
    k' ≠ k ∧ (∃ x, t !! key' = Some x ∧ (k', m', sh') ∈ x)).
  { intros k' key' m' sh'. split.
    - intros (x & [[-> ->]|[Hne Hx]]%Hrem & Hin).
      + apply list_elem_of_filter in Hin as [? Hin]. split; [done|]. by exists l.
      + split; [|by exists x]. intros ->. apply Hne.
        assert (fp !! k = Some key') as Hk' by (apply (table_files _ _ _ Hok); by exists x, m', sh').
        congruence.
    - intros (Hne & x & Hx & Hin). destruct (decide (key' = key)) as [->|Hkey].
      + rewrite Hl in Hx. injection Hx as <-.
        assert ((k', m', sh') ∈ l') as Hin' by (by apply list_elem_of_filter).
        exists l'. split; [|done]. unfold sharing_remove. fold key. rewrite Hl. fold l'.
        rewrite bool_decide_false by (intros E; rewrite E in Hin'; set_solver).
        by rewrite lookup_insert_eq.
      + exists x. split; [|done]. unfold sharing_remove. fold key. rewrite Hl. fold l'.
        case_bool_decide; [by rewrite lookup_delete_ne|by rewrite lookup_insert_ne]. }
  split.
  - intros key' x [[-> ->]|[_ Hx]]%Hrem; [|by eapply (table_agree _ _ _ Hok)].
    apply pairs_filter. by eapply (table_agree _ _ _ Hok).
  - intros key' x [[-> ->]|[_ Hx]]%Hrem; [|by eapply (table_unique _ _ _ Hok)].
    apply ids_filter. by eapply (table_unique _ _ _ Hok).
  - intros k' key'. rewrite lookup_delete_Some, (table_files _ _ _ Hok). split.
    + intros (Hne & x & m' & sh' & Hx & Hin).
      destruct (proj2 (Hmem k' key' m' sh')) as (y & ? & ?); [split; [done|by exists x]|].
      by exists y, m', sh'.
    + intros (x & m' & sh' & Hx & Hin).
      destruct (proj1 (Hmem k' key' m' sh')) as (? & y & ? & ?); [by exists x|].
      split; [done|]. by exists y, m', sh'.
  - intros k' key' [_ Hk']%lookup_delete_Some. by eapply (table_fresh _ _ _ Hok).
Qed.

(** Taking back an open that was granted. *)
Lemma sharing_remove_add fp t n p m sh :
  table_ok fp t n → forallb (compatible_with m sh) (default [] (t !! components p)) = true →
  table_ok fp (sharing_remove (check_and_add t p n m sh).2 p n) (n + 1).
Proof.
  intros Hok Hall. unfold check_and_add. rewrite Hall. cbn [snd].
  pose proof (table_add _ _ _ _ _ _ Hok Hall) as Hadd.
  apply table_remove with (k := n) (p := p) in Hadd; [|by rewrite lookup_insert_eq].
  rewrite delete_insert_eq, delete_id in Hadd; [done|].
  destruct (fp !! n) eqn:E; [|done]. apply (table_fresh _ _ _ Hok) in E. lia.
Qed.
(** A refused open leaves the table alone. *)
Lemma refused_same t p n m sh : (check_and_add t p n m sh).1 ≠ Ok tt → (check_and_add t p n m sh).2 = t.
Proof.
  unfold check_and_add. destruct (forallb _ _) eqn:H; [done|]. intros _. cbn [snd].
  destruct (t !! components p) as [l|] eqn:Hl; [|done]. by apply insert_id.
Qed.

(** * The backend *)

(** The paths of the open files. *)
Definition paths (s : HostDirBackend) : gmap Z path := (λ o, components (of_path o)) <$> files s.
Definition sharing_ok (s : HostDirBackend) : Prop := table_ok (paths s) (sharing s) (next_id s).

(** A step that opens and closes nothing, and allocates at most one number. *)
Record near (s s' : HostDirBackend) : Prop := {
  near_paths : paths s' = paths s;
  near_sharing : sharing s' = sharing s;
  near_next : next_id s ≤ next_id s' ≤ next_id s + 1;
}.
(** One that allocates none. *)
Definition same (s s' : HostDirBackend) : Prop := near s s' ∧ next_id s' = next_id s.
Definition steady {A} (m : be A) : Prop := ∀ s, same s (m s).2.
Definition bumps {A} (m : be A) : Prop := ∀ s, 0 ≤ next_id s < M64 - 1 → near s (m s).2.

Lemma table_same_refl s : same s s.
Proof. split; [split|]; done || lia. Qed.
#[export] Hint Resolve table_same_refl : core.
Lemma same_fields s s' : files s' = files s → sharing s' = sharing s → next_id s' = next_id s → same s s'.
Proof. intros Hf ? Hn. split; [split; unfold paths; rewrite ?Hf, ?Hn; done || lia|done]. Qed.
Lemma same_trans s1 s2 s3 : same s1 s2 → same s2 s3 → same s1 s3.
Proof. intros [[? ? ?] ?] [[? ? ?] ?]. split; [split|]; congruence || lia. Qed.
Lemma same_near s1 s2 s3 : same s1 s2 → near s2 s3 → near s1 s3.
Proof. intros [[? ? ?] Hn] [? ? ?]. split; congruence || lia. Qed.

Lemma steady_run {A} (m : be A) s r s' : steady m → m s = (r, s') → same s s'.
Proof. intros Hm Hs. pose proof (Hm s) as H. by rewrite Hs in H. Qed.
Lemma steady_caching {A} (m : be A) : caching m → steady m.
Proof. intros Hm s. destruct (Hm s) as [c ->]. by apply same_fields. Qed.
Lemma steady_bind {A C} (m : be A) (f : A → be C) : steady m → (∀ a, steady (f a)) → steady (m ≫= f).
Proof.
  intros Hm Hf s. apply (bind_state (same s)); [apply Hm|]. intros a s' Hs.
  eapply same_trans; [by eapply steady_run|apply Hf].
Qed.
Lemma steady_host_call {A} (c : call A) : steady (host_call c).
Proof. intros s. unfold host_call. destruct (c (host s)). by apply same_fields. Qed.
Lemma steady_bumps {A} (m : be A) : steady m → bumps m.
Proof. intros Hm s _. apply Hm. Qed.
Lemma bumps_bind {A C} (m : be A) (f : A → be C) : steady m → (∀ a, bumps (f a)) → bumps (m ≫= f).
Proof.
  intros Hm Hf s Hn. apply (bind_state (near s)); [apply Hm|]. intros a s' Hs%steady_run; [|done].
  eapply same_near; [done|]. apply Hf. destruct Hs as [_ ->]. lia.
Qed.

Create HintDb sharing.
#[export] Hint Resolve steady_host_call : sharing.
Ltac steady_tac :=
  repeat first
    [ progress eauto with sharing
    | solve [apply steady_caching; caching_tac]
    | apply steady_bind; [|intros]
    | case_match ].

Lemma alloc_near s k s' : 0 ≤ next_id s < M64 - 1 → alloc_id s = (Ok k, s') →
  k = next_id s ∧ s' = with_next_id s (next_id s + 1).
Proof.
  intros Hn. unfold alloc_id, wrapping_add. rewrite Z.mod_small by lia. by intros [= <- <-].
Qed.
Lemma steady_finds s (f : gmap Z FindState) : same s (with_finds s f).
Proof. by apply same_fields. Qed.
Lemma steady_open_file {A} k (op : File → call (A * File)) : steady (on_open_file k op).
Proof.
  intros s. unfold on_open_file. apply (bind_state (same s)); [done|]. intros s1 s2 [= <- <-].
  destruct (files s !! k) as [o|] eqn:Hk; cbn [need]; [|done].
  apply (bind_state (same s)); [done|]. intros o' s1 [= <- <-].
  apply (bind_state (same s)); [apply steady_host_call|]. intros [a f] s1 Hs.
  assert (files s1 = files s) as Hfiles.
  { unfold host_call in Hs. destruct (op (file o) (host s)). by injection Hs as _ <-. }
  apply (steady_run _ _ _ _ (steady_host_call _)) in Hs. eapply same_trans; [done|].
  change (same s1 (with_files s1 (<[k := mk_open f (of_path o)]> (files s1)))).
  split; [split|]; [|done|cbn; lia|done].
  unfold paths. cbn. rewrite fmap_insert. cbn. apply insert_id. by rewrite lookup_fmap, Hfiles, Hk.
Qed.
#[export] Hint Resolve steady_open_file : sharing.

Section steps.
Context {B : Build} (setlk : File → bool → Z → Z → Z).

Lemma bumps_alloc {A} (f : Z → be A) : (∀ k, steady (f k)) → bumps (alloc_id ≫= f).
Proof.
  intros Hf s Hn. assert (near s (alloc_id s).2) as Ha.
  { destruct (alloc_id s) as [r s'] eqn:Hs. unfold alloc_id in Hs. injection Hs as <- <-.
    unfold wrapping_add. rewrite Z.mod_small by lia. split; try done. cbn. lia. }
  apply (bind_state (near s)); [done|]. intros k s' Hs. rewrite Hs in Ha. cbn [snd] in Ha.
  destruct (Hf k s') as [[? ? _] ?]. destruct Ha. split; congruence || lia.
Qed.
Lemma steady_insert_find k st : steady (insert_find k st).
Proof. intros s. by apply same_fields. Qed.
#[local] Hint Resolve steady_insert_find : sharing.
Lemma find_first_bumps p a : bumps (find_first p a).
Proof.
  unfold find_first. destruct (default _ _) as [d f].
  repeat first [apply bumps_alloc; intros; steady_tac; fail
               |apply bumps_bind; [steady_tac; fail|intros]
               |apply steady_bumps; steady_tac; fail|case_match].
Qed.
Lemma steady_find_next k : steady (find_next k).
Proof.
  intros s. unfold find_next, mbind, vfs_bind, vfs_get, need.
  destruct (finds s !! k) as [st|]; [|done]. cbn. destruct (idx _ _); [|done]. by apply same_fields.
Qed.
Lemma steady_find_close k : steady (find_close k).
Proof.
  intros s. unfold find_close, mbind, vfs_bind, vfs_get, need.
  destruct (finds s !! k); [|done]. by apply same_fields.
Qed.

(** Closing and opening. *)
Lemma near_ok s s' : sharing_ok s → near s s' → sharing_ok s'.
Proof. intros Hok [Hp Hsh ?]. unfold sharing_ok. rewrite Hp, Hsh. eapply table_mono; [done|lia]. Qed.
Definition step_ok (s s' : HostDirBackend) : Prop :=
  sharing_ok s' ∧ next_id s ≤ next_id s' ≤ next_id s + 1.

Lemma near_step s s' : sharing_ok s → near s s' → step_ok s s'.
Proof. intros Hok Hn. split; [by eapply near_ok|apply Hn]. Qed.
Lemma close_step k s : sharing_ok s → step_ok s (close k s).2.
Proof.
  intros Hok. unfold close. apply (bind_state (step_ok s)); [by apply near_step, table_same_refl|].
  intros s1 s2 [= <- <-]. destruct (files s !! k) as [o|] eqn:Hk; cbn [need];
    [|by apply near_step, table_same_refl].
  apply (bind_state (step_ok s)); [by apply near_step, table_same_refl|]. intros o' s2 [= <- <-].
  split; [|cbn; lia]. unfold sharing_ok, paths. cbn. rewrite fmap_delete.
  apply table_remove; [done|]. unfold paths. by rewrite lookup_fmap, Hk.
Qed.

(** The file an open reached is entered under its granted path, or the entry is taken back. *)
Lemma open_options_returns rd wr c tr p h : returns (open_options rd wr c tr p h).1.
Proof. unfold open_options. by repeat case_match. Qed.
Lemma open_at_cases q mode a k s :
  (∃ f, same (with_files s (<[k := mk_open f q]> (files s))) (open_at q mode a k s).2) ∨
  same (with_sharing s (sharing_remove (sharing s) q k)) (open_at q mode a k s).2.
Proof.
  unfold open_at. set (creating := bool_decide (a = Created) || bool_decide (a = Replaced)).
  change (vfs_get ≫= ?f) with (λ s, f s s). cbv beta.
  match goal with |- context [open_options ?a ?b ?c ?d q (host s)] =>
    pose proof (open_options_returns a b c d q (host s)) as Hr;
    destruct (open_options a b c d q (host s)) as [r h] end.
  destruct r as [f|e| |]; [left|right|done..]; [|by apply same_fields].
  exists f. destruct creating; [unfold invalidate; destruct (path_parent q)|]; by apply same_fields.
Qed.
Lemma open_granted q mode a m sh s0 s :
  sharing_ok s0 → near s0 s → next_id s = next_id s0 + 1 →
  forallb (compatible_with m sh) (default [] (sharing s !! components q)) = true →
  step_ok s0 (open_at q mode a (next_id s0)
    (with_sharing s (check_and_add (sharing s) q (next_id s0) m sh).2)).2.
Proof.
  intros Hok [Hp Hsh _] Hid Hall. unfold sharing_ok in Hok. rewrite <- Hp, <- Hsh in Hok.
  set (s' := with_sharing s _).
  destruct (open_at_cases q mode a (next_id s0) s') as [[f [[Hp' Hs' _] Hn']]|[[Hp' Hs' _] Hn']];
    cbn in Hn'; (split; [|lia]); unfold sharing_ok; rewrite Hp', Hs', Hn', Hid; cbn.
  - unfold paths. cbn. rewrite fmap_insert. cbn. unfold check_and_add. rewrite Hall.
    by apply table_add.
  - by apply sharing_remove_add.
Qed.
Lemma open_step p m sh flags a s : sharing_ok s → 0 ≤ next_id s < M64 - 1 →
  step_ok s (open p m sh flags a s).2.
Proof.
  intros Hok Hn. assert (Hst : ∀ s', near s s' → step_ok s s') by (intros; by apply near_step).
  unfold open. apply (bind_state (step_ok s)); [apply Hst, steady_caching; caching_tac|].
  intros e s1 Hs1%steady_run; [|steady_tac].
  apply (bind_state (step_ok s)).
  { apply Hst. eapply same_near; [done|]. apply steady_caching. caching_tac. }
  intros [q act] s2 Hs2%steady_run; [|steady_tac]. pose proof (same_trans _ _ _ Hs1 Hs2) as [Hnear Hid].
  set (s3 := with_next_id s2 (next_id s + 1)).
  assert (alloc_id s2 = (Ok (next_id s), s3)) as Ha.
  { unfold alloc_id, wrapping_add, s3. rewrite Hid, Z.mod_small by lia. done. }
  assert (near s s3) as Hn3 by (destruct Hnear; split; [done..|cbn; lia]).
  apply (bind_state (step_ok s)); rewrite Ha; [by apply Hst|]. intros k s4 [= <- <-].
  pose proof (refused_same (sharing s3) q (next_id s) m sh) as Href.
  assert (on_table (λ t, check_and_add t q (next_id s) m sh) s3 =
    ((check_and_add (sharing s3) q (next_id s) m sh).1,
     with_sharing s3 (check_and_add (sharing s3) q (next_id s) m sh).2)) as Ht.
  { unfold on_table. by destruct (check_and_add _ _ _ _ _). }
  destruct (forallb (compatible_with m sh) (default [] (sharing s3 !! components q))) eqn:Hall.
  - assert ((check_and_add (sharing s3) q (next_id s) m sh).1 = Ok tt) as Hg
      by (unfold check_and_add; by rewrite Hall).
    rewrite Hg in Ht. clear Href. unfold mbind at 1, vfs_bind at 1. rewrite Ht. by apply open_granted.
  - assert ((check_and_add (sharing s3) q (next_id s) m sh).1 = Err E_SHARING_VIOLATION) as Hg
      by (unfold check_and_add; by rewrite Hall).
    rewrite Href, Hg in Ht by (by rewrite Hg). unfold mbind at 1, vfs_bind at 1. rewrite Ht.
    apply Hst. destruct Hn3. by split.
Qed.

(** Every operation but the opens and closes. *)
Lemma other_steady op :
  match op with
  | HOpen _ _ _ _ _ | HClose _ | HFindFirst _ _ => True
  | _ => ∀ s, same s (hd_step setlk op s)
  end.
Proof.
  destruct op; try done; cbn [hd_step]; intros s.
  all: match goal with |- same ?s (?m ?s).2 => enough (steady m) as H by apply H end.
  all: unfold read, write, seek, set_file_size, flush, set_file_locks, create_dir, delete_dir, delete,
    rename, copy, query_path_info, query_file_info, changing;
    first [apply steady_find_next | apply steady_find_close | steady_tac].
Qed.
Lemma hd_step_sharing op s : sharing_ok s → 0 ≤ next_id s < M64 - 1 → step_ok s (hd_step setlk op s).
Proof.
  intros Hok Hn. pose proof (other_steady op) as Hop.
  destruct op; try (by apply near_step, Hop);
    [by apply open_step|by apply close_step|by apply near_step, find_first_bumps].
Qed.
Lemma hd_steps_sharing ops s : sharing_ok s → 0 ≤ next_id s → next_id s + len ops < M64 →
  sharing_ok (foldl (λ s op, hd_step setlk op s) s ops).
Proof.
  revert s. induction ops as [|op ops IH]; intros s Hok Hn Hlen; [done|].
  rewrite len_cons in Hlen. pose proof (len_nonneg ops).
  destruct (hd_step_sharing op s Hok ltac:(lia)) as [Hok' Hn']. cbn [foldl]. apply IH; [done|lia..].
Qed.
End steps.

(** In a good table two open files on one path agree. *)
Lemma pairs_agree l (x y : opened) : ForallOrdPairs agree l → x ∈ l → y ∈ l → x ≠ y → agree x y.
Proof.
  induction 1 as [|z l Hz Hl IH]; [set_solver|]. rewrite Forall_forall in Hz.
  intros [->|Hx]%elem_of_cons [->|Hy]%elem_of_cons Hne; auto; [done|]. symmetry. auto.
Qed.

(** What a sharing mode forbids others to do; nothing here is taken from the check of the code. *)
Definition reads (m : OpenMode) : Prop := m ≠ WriteOnly.
Definition writes (m : OpenMode) : Prop := m ≠ ReadOnly.
Definition tolerates (sh : SharingMode) (m : OpenMode) : Prop :=
  (sh = DenyRead ∨ sh = DenyReadWrite → ¬ reads m) ∧ (sh = DenyWrite ∨ sh = DenyReadWrite → ¬ writes m).
Definition coexist (a b : OpenMode * SharingMode) : Prop := tolerates a.2 b.1 ∧ tolerates b.2 a.1.

Lemma allows_tolerates sh m : allows sh m = true ↔ tolerates sh m.
Proof. unfold tolerates, reads, writes. destruct sh, m; cbn; naive_solver. Qed.
Lemma compatible_coexist m sh m' sh' :
  is_sharing_compatible m sh m' sh' = true ↔ coexist (m, sh) (m', sh').
Proof. unfold is_sharing_compatible. by rewrite andb_true_iff, !allows_tolerates. Qed.

(** * What was asked for

    [opened_with ops s log]: the modes in the arguments of the open that returned a handle, for
    every open of the run. *)
Definition note_open {B : Build} (op : hd_op) (s : HostDirBackend)
    (log : gmap Z (OpenMode * SharingMode)) : gmap Z (OpenMode * SharingMode) :=
  match op with
  | HOpen p m sh flags a => match (open p m sh flags a s).1 with Ok (k, _) => <[k := (m, sh)]> log | _ => log end
  | _ => log
  end.
Fixpoint opened_with {B : Build} (setlk : File → bool → Z → Z → Z) (ops : list hd_op)
    (s : HostDirBackend) (log : gmap Z (OpenMode * SharingMode)) : gmap Z (OpenMode * SharingMode) :=
  match ops with
  | [] => log
  | op :: ops => opened_with setlk ops (hd_step setlk op s) (note_open op s log)
  end.

Definition entry_in (t : SharingTable) (k : Z) (m : OpenMode) (sh : SharingMode) : Prop :=
  ∃ key l, t !! key = Some l ∧ (k, m, sh) ∈ l.
Definition logged (t : SharingTable) (log : gmap Z (OpenMode * SharingMode)) : Prop :=
  ∀ k m sh, entry_in t k m sh → log !! k = Some (m, sh).

Lemma remove_entries t p k k' m sh :
  entry_in (sharing_remove t p k) k' m sh →
  ∃ key l, t !! key = Some l ∧ (k', m, sh) ∈ l ∧ (key = components p → k' ≠ k).
Proof.
  intros (key & l & Hl & Hin). revert Hl. unfold sharing_remove.
  destruct (t !! components p) as [l0|] eqn:H0.
  - case_bool_decide; [intros [? Hl]%lookup_delete_Some; exists key, l; naive_solver|].
    intros [[<- <-]|[? Hl]]%lookup_insert_Some; [|exists key, l; naive_solver].
    apply list_elem_of_filter in Hin as [Hne Hin]. exists (components p), l0. split_and!; [done..|].
    intros _. exact Hne.
  - intros Hl. exists key, l. split_and!; [done..|]. intros ->. congruence.
Qed.
Lemma add_entries t p k0 m0 sh0 k m sh :
  entry_in (check_and_add t p k0 m0 sh0).2 k m sh →
  entry_in t k m sh ∨ (k, m, sh) = (k0, m0, sh0).
Proof.
  unfold check_and_add. set (key := components p).
  assert (Hold : (k, m, sh) ∈ default [] (t !! key) → entry_in t k m sh).
  { destruct (t !! key) as [l|] eqn:Hl; cbn; [|set_solver]. by exists key, l. }
  case_match; cbn [snd]; intros (key' & l & [[<- <-]|[? Hl]]%lookup_insert_Some & Hin);
    try (left; by exists key', l); [|by left; apply Hold].
  apply elem_of_app in Hin as [Hin|Hin%list_elem_of_singleton]; [left; by apply Hold|by right].
Qed.

Section granted.
Context {B : Build} (setlk : File → bool → Z → Z → Z).

(** The last part of an open answers the handle and keeps the entry, or takes the entry back;
    its errors are those of the host. *)
Lemma open_at_result q mode a k s :
  ((open_at q mode a k s).1 = Ok (k, a) ∧ sharing (open_at q mode a k s).2 = sharing s) ∨
  (∃ io, (open_at q mode a k s).1 = Err (map_io_error io)) ∧
  sharing (open_at q mode a k s).2 = sharing_remove (sharing s) q k.
Proof.
  unfold open_at. set (creating := bool_decide (a = Created) || bool_decide (a = Replaced)).
  change (vfs_get ≫= ?f) with (λ s, f s s). cbv beta.
  match goal with |- context [open_options ?a ?b ?c ?d q (host s)] =>
    pose proof (open_options_returns a b c d q (host s)) as Hr;
    destruct (open_options a b c d q (host s)) as [r h] end.
  destruct r as [f|e| |]; try done; [left|right; split; [by exists e|done]].
  destruct creating; [unfold invalidate; destruct (path_parent q)|]; done.
Qed.
Lemma not_sharing io : map_io_error io ≠ E_SHARING_VIOLATION.
Proof. by destruct io. Qed.

Lemma be_run {A C} (m : be A) (f : A → be C) s r s' : m s = (r, s') →
  (m ≫= f) s = match r with
               | Ok x => f x s' | Err e => (Err e, s') | Panic => (Panic, s') | Diverge => (Diverge, s')
               end.
Proof. unfold mbind, vfs_bind. by intros ->. Qed.
(** An open that found its path is the check of the table, then the last part. *)
Definition resolves (p : rstring) (flags : OpenFlags) (s : HostDirBackend) (q : path) : Prop :=
  ∃ e act s1 s2, resolve_ci p s = (Ok e, s1) ∧ open_path p flags e s1 = (Ok (q, act), s2).
Lemma resolved_open p m sh flags a s :
  (∃ q act s3, resolves p flags s q ∧ sharing s3 = sharing s ∧
     open p m sh flags a s =
       (let '(r, t) := check_and_add (sharing s) q (next_id s) m sh in
        match r with
        | Ok _ => open_at q m act (next_id s) (with_sharing s3 t)
        | Err e => (Err e, with_sharing s3 t)
        | Panic => (Panic, with_sharing s3 t)
        | Diverge => (Diverge, with_sharing s3 t)
        end)) ∨
  (¬ ∃ q, resolves p flags s q) ∧ sharing (open p m sh flags a s).2 = sharing s ∧
    ¬ ∃ x, (open p m sh flags a s).1 = Ok x.
Proof.
  assert (steady (resolve_ci p)) as H1 by (apply steady_caching; caching_tac).
  assert (∀ e, steady (open_path p flags e)) as H2 by (intros e; apply steady_caching; caching_tac).
  destruct (resolve_ci p s) as [r1 s1] eqn:E1.
  pose proof (steady_run _ _ _ _ H1 E1) as [[_ Hs1 _] Hn1].
  assert (Hnone : (∀ e, r1 ≠ Ok e) → ¬ ∃ q, resolves p flags s q)
    by (intros Hr (q & e & act & s1' & s2' & Hq & _); rewrite E1 in Hq; injection Hq as -> _; by apply (Hr e)).
  unfold open. rewrite (be_run _ _ _ _ _ E1).
  destruct r1 as [e|e| |];
    [|right; (split_and!; [by apply Hnone|exact Hs1|by intros [? [=]]])..].
  clear Hnone. destruct (open_path p flags e s1) as [r2 s2] eqn:E2.
  pose proof (steady_run _ _ _ _ (H2 e) E2) as [[_ Hs2 _] Hn2].
  assert (Hnone : (∀ x, r2 ≠ Ok x) → ¬ ∃ q, resolves p flags s q).
  { intros Hr (q & e' & act & s1' & s2' & Hq & Hp). rewrite E1 in Hq. injection Hq as <- <-.
    rewrite E2 in Hp. injection Hp as -> _. by apply (Hr (q, act)). }
  rewrite (be_run _ _ _ _ _ E2).
  destruct r2 as [[q act]|e2| |];
    [|right; (split_and!; [by apply Hnone|cbn; congruence|by intros [? [=]]])..].
  left. exists q, act, (with_next_id s2 (wrapping_add M64 (next_id s2) 1)).
  split; [by exists e, act, s1, s2|]. split; [cbn; congruence|].
  replace (next_id s) with (next_id s2) by congruence. replace (sharing s) with (sharing s2) by congruence.
  unfold mbind, vfs_bind, alloc_id, on_table. cbn.
  by destruct (check_and_add _ _ _ _ _) as [[]].
Qed.

(** The entries of the table are those of the log. *)
Lemma open_logged p m sh flags a s log : sharing_ok s → logged (sharing s) log →
  logged (sharing (open p m sh flags a s).2) (note_open (HOpen p m sh flags a) s log).
Proof.
  intros Hok Hlog. cbn [note_open].
  assert (Hfresh : ∀ k m' sh', entry_in (sharing s) k m' sh' → k < next_id s).
  { intros k m' sh' (key & l & Hl & Hk). apply (table_fresh _ _ _ Hok k key), (table_files _ _ _ Hok).
    by exists l, m', sh'. }
  destruct (resolved_open p m sh flags a s) as [(q & act & s3 & _ & Hs3 & ->)|(_ & Hs & Hno)];
    [|destruct (open _ _ _ _ _ s) as [[x| | |] s']; [destruct Hno; by exists x|cbn in *; by rewrite Hs..]].
  pose proof (add_entries (sharing s) q (next_id s) m sh) as Hadd.
  pose proof (refused_same (sharing s) q (next_id s) m sh) as Href.
  destruct (check_and_add (sharing s) q (next_id s) m sh) as [[[]|e| |] t] eqn:Ht; cbn in *;
    try by rewrite Href. clear Href.
  destruct (open_at_result q m act (next_id s) (with_sharing s3 t)) as [[Hr Hst]|[[io Hr] Hst]];
    destruct (open_at q m act (next_id s) (with_sharing s3 t)) as [r s']; cbn in *; subst r; rewrite Hst.
  - intros k m' sh' [Hin|[= -> -> ->]]%Hadd; [|by rewrite lookup_insert_eq].
    rewrite lookup_insert_ne; [by apply Hlog|]. apply Hfresh in Hin. lia.
  - intros k m' sh' (key & l & Hl & Hin & Hne)%remove_entries.
    destruct (Hadd k m' sh') as [Hin'|[= -> -> ->]]; [by exists key, l|by apply Hlog|].
    exfalso. unfold check_and_add in Ht. case_match; simplify_eq.
    apply lookup_insert_Some in Hl as [[<- _]|[_ Hl]]; [by apply Hne|].
    assert (entry_in (sharing s) (next_id s) m sh) as Hx by (by exists key, l). apply Hfresh in Hx. lia.
Qed.
Lemma step_logged op s log : sharing_ok s → 0 ≤ next_id s < M64 - 1 → logged (sharing s) log →
  logged (sharing (hd_step setlk op s)) (note_open op s log).
Proof.
  intros Hok Hn Hlog. pose proof (other_steady setlk op) as Hop.
  destruct op; try (specialize (Hop s); destruct Hop as [[_ Hs _] _]; cbn [note_open]; by rewrite Hs);
    [by apply open_logged| |].
  - cbn [hd_step note_open]. unfold close, mbind, vfs_bind, vfs_get, need.
    destruct (files s !! _); [|exact Hlog]. cbn. intros k' m sh (key & l & Hl & Hin & _)%remove_entries.
    apply Hlog. by exists key, l.
  - cbn [hd_step note_open]. 
    match goal with |- context [find_first ?p ?a s] => destruct (find_first_bumps p a s Hn) as [_ Hs _] end.
    by rewrite Hs.
Qed.
Lemma run_logged ops s log : sharing_ok s → 0 ≤ next_id s → next_id s + len ops < M64 →
  logged (sharing s) log →
  logged (sharing (foldl (λ s op, hd_step setlk op s) s ops)) (opened_with setlk ops s log).
Proof.
  revert s log. induction ops as [|op ops IH]; intros s log Hok Hn Hlen Hlog; [done|].
  rewrite len_cons in Hlen. pose proof (len_nonneg ops).
  destruct (hd_step_sharing setlk op s Hok ltac:(lia)) as [Hok' Hn']. cbn [foldl opened_with].
  apply IH; [done|lia..|]. by apply step_logged; [|lia|].
Qed.

(** The files open on a path, with what was asked for. *)
Lemma open_entry s log k key : sharing_ok s → logged (sharing s) log → paths s !! k = Some key →
  ∃ l m sh, sharing s !! key = Some l ∧ (k, m, sh) ∈ l ∧ log !! k = Some (m, sh).
Proof.
  intros Hok Hlog (l & m & sh & Hl & Hin)%(table_files _ _ _ Hok). exists l, m, sh. split_and!; [done..|].
  apply Hlog. by exists key, l.
Qed.
Lemma refused_iff s log p m sh flags a q : sharing_ok s → logged (sharing s) log →
  resolves p flags s q →
  (open p m sh flags a s).1 = Err E_SHARING_VIOLATION ↔
    ∃ k o, paths s !! k = Some (components q) ∧ log !! k = Some o ∧ ¬ coexist o (m, sh).
Proof.
  intros Hok Hlog Hq.
  destruct (resolved_open p m sh flags a s) as [(q' & act & s3 & Hq' & Hs3 & ->)|(Hno & _)];
    [|by destruct Hno; exists q].
  assert (q' = q) as ->.
  { destruct Hq as (? & ? & ? & ? & H1 & H2), Hq' as (? & ? & ? & ? & H3 & H4). congruence. }
  unfold check_and_add. set (l := default [] (sharing s !! components q)).
  assert (Hl : ∀ k m' sh', (k, m', sh') ∈ l ↔ paths s !! k = Some (components q) ∧ log !! k = Some (m', sh')).
  { intros k m' sh'. split.
    - intros Hin. subst l. destruct (sharing s !! components q) as [l|] eqn:Hl; cbn in Hin; [|set_solver].
      split; [apply (table_files _ _ _ Hok); by exists l, m', sh'|]. apply Hlog. by exists (components q), l.
    - intros [Hk Hlk]. destruct (open_entry s log k _ Hok Hlog Hk) as (l' & m1 & sh1 & Hl & Hin & Hlk').
      subst l. rewrite Hl. cbn. congruence. }
  destruct (forallb (compatible_with m sh) l) eqn:Hall.
  - split.
    + intros H. exfalso. revert H.
      destruct (open_at_result q m act (next_id s)
        (with_sharing s3 (<[components q := l ++ [(next_id s, m, sh)]]> (sharing s)))) as [[-> _]|[[io ->] _]];
        [done|]. intros [= H]. by apply (not_sharing io).
    + intros (k & [m' sh'] & Hk & Hlk & Hc). destruct Hc. apply compatible_coexist.
      rewrite forallb_forall in Hall. apply (Hall (k, m', sh')), list_elem_of_In, Hl. done.
  - split; [intros _|done]. apply not_true_iff_false in Hall. rewrite forallb_forall in Hall.
    destruct (decide (Exists (λ o, compatible_with m sh o = false) l)) as [He|He].
    + apply Exists_exists in He as ([[k m'] sh'] & Hin & Hc). apply Hl in Hin as [Hk Hlk].
      exists k, (m', sh'). split_and!; [done..|]. rewrite <- compatible_coexist. cbn in Hc. congruence.
    + destruct Hall. intros o Ho%list_elem_of_In. destruct (compatible_with m sh o) eqn:Hc; [done|].
      destruct He. apply Exists_exists. eauto.
Qed.
End granted.

(** C8: sharing modes are enforced, as they were asked for.  From a backend with nothing open, after
    any operations (fewer than the handle numbers last): every open file has the access and sharing
    modes that were the arguments of its open; of two files open on one path neither's sharing mode
    forbids the reading or writing the other was opened for; an open that finds its path is refused
    with a sharing violation when, and only when, a file open on that path forbids it or is
    forbidden by it; and the table holds an entry for each open file, with these modes, and
    nothing else. *)
Theorem sharing_enforced {B : Build} (setlk : File → bool → Z → Z → Z) (s : HostDirBackend)
    (ops : list hd_op) :
  files s = ∅ → sharing s = ∅ → 0 ≤ next_id s → next_id s + len ops < M64 →
  let s' := foldl (λ s op, hd_step setlk op s) s ops in
  let asked := opened_with setlk ops s ∅ in
  (∀ k key, paths s' !! k = Some key → is_Some (asked !! k)) ∧
  (∀ k k' key o o', k ≠ k' → paths s' !! k = Some key → paths s' !! k' = Some key →
     asked !! k = Some o → asked !! k' = Some o' → coexist o o') ∧
  (∀ p m sh flags a q, resolves p flags s' q →
     (open p m sh flags a s').1 = Err E_SHARING_VIOLATION ↔
     ∃ k o, paths s' !! k = Some (components q) ∧ asked !! k = Some o ∧ ¬ coexist o (m, sh)) ∧
  (∀ key k m sh, (∃ l, sharing s' !! key = Some l ∧ (k, m, sh) ∈ l) ↔
     paths s' !! k = Some key ∧ asked !! k = Some (m, sh)).
Proof.
  intros Hf Hsh Hn Hlen s' asked.
  assert (sharing_ok s) as Hok0.
  { unfold sharing_ok, paths. rewrite Hf, Hsh, fmap_empty.
    split; try by intros ?? [=]. intros k key. rewrite lookup_empty. naive_solver. }
  assert (sharing_ok s') as Hok by (by apply hd_steps_sharing).
  assert (logged (sharing s') asked) as Hlog.
  { apply run_logged; try done. intros k m sh (key & l & Hl & _). by rewrite Hsh in Hl. }
  assert (Hent : ∀ k key, paths s' !! k = Some key → ∃ l m sh, sharing s' !! key = Some l ∧
    (k, m, sh) ∈ l ∧ asked !! k = Some (m, sh)) by (intros; by apply open_entry).
  split_and!.
  - intros k key (_ & m & sh & _ & _ & ->)%Hent. by eexists.
  - intros k k' key [m sh] [m' sh'] Hne (l & m1 & sh1 & Hl & Hk & ->)%Hent
      (l' & m2 & sh2 & Hl' & Hk' & ->)%Hent [= -> ->] [= -> ->]. simplify_eq.
    apply compatible_coexist. apply (pairs_agree l (k, m, sh) (k', m', sh'));
      [by apply (table_agree _ _ _ Hok key)|done..|congruence].
  - intros p m sh flags a q Hq. by apply refused_iff.
  - intros key k m sh. split.
    + intros (l & Hl & Hk). split; [apply (table_files _ _ _ Hok); by exists l, m, sh|].
      apply Hlog. by exists key, l.
    + intros [(l & m' & sh' & Hl & Hk & Ha)%Hent Ha']. exists l. split; [done|]. congruence.
Qed.

(** Two readers of a.txt that deny writing stand; a writer is refused; after both have closed the
    table is empty. *)
Definition share_ops : list hd_op :=
  [HOpen (str "docs/a.txt") ReadOnly DenyWrite (mk_flags ExistOpen NewFail) 0;
   HOpen (str "docs/a.txt") ReadOnly DenyWrite (mk_flags ExistOpen NewFail) 0].
Lemma sharing_enforced_witness :
  let s := after share_ops plain_volume in
  paths s !! 1 = Some (demo_path "/vol/docs/a.txt") ∧ paths s !! 2 = paths s !! 1 ∧
  coexist (ReadOnly, DenyWrite) (ReadOnly, DenyWrite) ∧
  (open (str "docs/a.txt") WriteOnly DenyNone (mk_flags ExistOpen NewFail) 0 s).1 = Err E_SHARING_VIOLATION ∧
  sharing (after [HClose 1; HClose 2] s) = ∅.
Proof.
  intros s.
  destruct (sharing_enforced (B := dev_profile) no_lock plain_volume share_ops) as (_ & H1 & H2 & _);
    [done..|by vm_compute|].
  split; [by vm_compute|]. split; [by vm_compute|]. split; [|split; [|by vm_compute]].
  - apply (H1 1 2 (demo_path "/vol/docs/a.txt")); by vm_compute.
  - apply (H2 (str "docs/a.txt") WriteOnly DenyNone (mk_flags ExistOpen NewFail) 0 (demo_path "/vol/docs/a.txt")).
    + set (q := demo_path "/vol/docs/a.txt"). set (s1 := (resolve_ci (str "docs/a.txt") s).2).
      exists (Some q), Existed, s1, (open_path (str "docs/a.txt") (mk_flags ExistOpen NewFail) (Some q) s1).2.
      split; by vm_compute.
    + exists 1, (ReadOnly, DenyWrite). split; [by vm_compute|]. split; [by vm_compute|].
      intros [[_ H] _]. apply (H (or_introl eq_refl)). done.
Defined.
