(* ===== verification/Seh.v ===== *)
(** Structured exception handling: src/src/loader/seh.rs, the two handler-chain calls of
    src/src/loader/stubs.rs, and the parts of src/src/loader/vcpu.rs that call a handler and
    act on its answer.

    The state is that of one virtual CPU stopped at a breakpoint: guest memory, the guest heap,
    the registers, and the stack of exception-handler frames (the top first). *)
From S2P Require Import Prelude Bytes GuestMem Constants.
From S2P Require MemMgr.

(** * Constants and data *)

Definition TIB_EXCHAIN_OFFSET := 0x00.
Definition XCPT_CHAIN_END := 0xFFFFFFFF.
Definition XCPT_CONTINUE_EXECUTION := 0xFFFFFFFF.
Definition EH_NONCONTINUABLE := 1.
Definition CONTEXT_FULL := 7.

Definition CTX_FLAGS := 0x00.
Definition CTX_GS := 0x8C.
Definition CTX_FS := 0x90.
Definition CTX_ES := 0x94.
Definition CTX_DS := 0x98.
Definition CTX_EDI := 0x9C.
Definition CTX_ESI := 0xA0.
Definition CTX_EAX := 0xA4.
Definition CTX_EBX := 0xA8.
Definition CTX_ECX := 0xAC.
Definition CTX_EDX := 0xB0.
Definition CTX_EBP := 0xB4.
Definition CTX_EIP := 0xB8.
Definition CTX_CS := 0xBC.
Definition CTX_EFLAGS := 0xC0.
Definition CTX_ESP := 0xC4.
Definition CTX_SS := 0xC8.
Definition CONTEXT_RECORD_SIZE := 0xCC.

Definition ERR_NUM := 0x00.
Definition ERR_FLAGS := 0x04.
Definition ERR_NESTED := 0x08.
Definition ERR_ADDR := 0x0C.
Definition ERR_CPARMS := 0x10.
Definition ERR_PARAMS := 0x14.
Definition EXCEPTION_REPORT_SIZE := 0x38.
Definition XERREC_PREV := 0x00.
Definition XERREC_HANDLER := 0x04.

Definition XCPT_ACCESS_VIOLATION := 0xC0000005.
Definition XCPT_FATAL_EXCEPTION := 0xC000FFFF.

Definition ERROR_INVALID_PARAMETER := 87.
Definition ERROR_NESTING_NOT_ALLOWED := 215.

(** [FaultContext], [GuestRegs], [GuestSegment], [GuestSregs] *)
Record FaultContext := mk_ctx {
  eax : Z; ebx : Z; ecx : Z; edx : Z; esi : Z; edi : Z; ebp : Z;
  esp : Z; eip : Z; eflags : Z;
  cs : Z; ds : Z; es : Z; fs : Z; gs : Z; ss : Z;
}.
Record GuestRegs := mk_regs {
  rip : Z; rsp : Z; rax : Z; rbx : Z; rcx : Z; rdx : Z; rsi : Z; rdi : Z; rbp : Z; rflags : Z;
}.

Record GuestSegment := mk_seg {
  base : Z; limit : Z; selector : Z; type_ : Z; present : Z; dpl : Z; db : Z;
  seg_s : Z; seg_l : Z; seg_g : Z; avl : Z; unusable : Z;
}.
(** The segment registers of [GuestSregs]; the other fields do not change here. *)
Record GuestSregs := mk_sregs {
  sr_cs : GuestSegment; sr_ds : GuestSegment; sr_es : GuestSegment;
  sr_fs : GuestSegment; sr_gs : GuestSegment; sr_ss : GuestSegment;
}.

(** [ApiResult::ExceptionDispatch]: the handler to call and what goes with it. *)
Record dispatch := mk_dispatch {
  handler_addr : Z; exc_report : Z; reg_rec : Z; ctx_record : Z;
  saved : FaultContext; next_handler : Z; guest_allocs : list Z;
}.
Inductive ApiResult := Normal (code : Z) | ExceptionDispatch (d : dispatch).

(** [CallbackFrame] with [FrameKind::ExceptionHandler] *)
Record frame := mk_frame {
  saved_rip : Z; saved_rsp : Z;
  fr_saved : FaultContext; fr_next_handler : Z; fr_exc_report : Z; fr_ctx_record : Z;
  fr_allocs : list Z;
}.

(** [xcpt_code_for_vector] *)
Definition xcpt_code_for_vector (vector : Z) : Z :=
  match vector with
  | 0 => 0xC000009B
  | 1 => 0xC000000A
  | 3 => 0xC0000009
  | 4 => 0xC0000097
  | 5 => XCPT_ACCESS_VIOLATION
  | 6 | 7 => 0xC000001C
  | 10 | 11 => XCPT_ACCESS_VIOLATION
  | 12 => 0xC0000003
  | 13 | 14 => XCPT_ACCESS_VIOLATION
  | 16 => 0xC000004B
  | 17 => 0xC000009E
  | 19 => 0xC000004B
  | _ => XCPT_FATAL_EXCEPTION
  end.

Section seh.
Context {B : Build} {E : Type}.

(** [guest_write::<u32>(a + off, v).unwrap()] and [guest_read::<u32>(a + off).unwrap_or(d)] *)
Definition put32_at (m : GuestMemory) (a off v : Z) : outcome E GuestMemory :=
  p ← uadd M32 a off; unwrap (write32 m p v).
Definition get32_at (m : GuestMemory) (a off d : Z) : outcome E Z :=
  p ← uadd M32 a off; Ok (default d (read32 m p)).

(** * Records in guest memory *)

(** [write_exception_report] *)
Definition put_param (addr : Z) (m : GuestMemory) (i v : Z) : outcome E GuestMemory :=
  p ← uadd M32 addr ERR_PARAMS; put32_at m p (i * 4) v.
Definition write_exception_report (m : GuestMemory) (addr xcpt_code flags exc_addr : Z)
    (params : list Z) : outcome E GuestMemory :=
  let n := Z.min (len params) 9 in
  m ← put32_at m addr ERR_NUM xcpt_code;
  m ← put32_at m addr ERR_FLAGS flags;
  m ← put32_at m addr ERR_NESTED 0;
  m ← put32_at m addr ERR_ADDR exc_addr;
  m ← put32_at m addr ERR_CPARMS n;
  m ← for_in (zip (range 0 n) params) (λ '(i, p) m, put_param addr m i p) m;
  for_in (range (len params) 9) (λ i m, put_param addr m i 0) m.

(** [write_context_record]: the FPU area is cleared, then the fields are written in this order. *)
Definition context_fields (ctx : FaultContext) : list (Z * Z) :=
  [(CTX_FLAGS, CONTEXT_FULL);
   (CTX_GS, gs ctx); (CTX_FS, fs ctx); (CTX_ES, es ctx); (CTX_DS, ds ctx);
   (CTX_EDI, edi ctx); (CTX_ESI, esi ctx);
   (CTX_EAX, eax ctx); (CTX_EBX, ebx ctx); (CTX_ECX, ecx ctx); (CTX_EDX, edx ctx);
   (CTX_EBP, ebp ctx); (CTX_EIP, eip ctx); (CTX_CS, cs ctx); (CTX_EFLAGS, eflags ctx);
   (CTX_ESP, esp ctx); (CTX_SS, ss ctx)].
Definition fpu_area : list Z := map (λ i, 4 * i + 4) (range 0 34).
Definition write_context_record (m : GuestMemory) (addr : Z) (ctx : FaultContext)
    : outcome E GuestMemory :=
  m ← for_in fpu_area (λ off m, put32_at m addr off 0) m;
  for_in (context_fields ctx) (λ '(off, v) m, put32_at m addr off v) m.

(** [read_context_record] *)
Definition read_context_record (m : GuestMemory) (addr : Z) : outcome E FaultContext :=
  eax ← get32_at m addr CTX_EAX 0;
  ebx ← get32_at m addr CTX_EBX 0;
  ecx ← get32_at m addr CTX_ECX 0;
  edx ← get32_at m addr CTX_EDX 0;
  esi ← get32_at m addr CTX_ESI 0;
  edi ← get32_at m addr CTX_EDI 0;
  ebp ← get32_at m addr CTX_EBP 0;
  esp ← get32_at m addr CTX_ESP 0;
  eip ← get32_at m addr CTX_EIP 0;
  eflags ← get32_at m addr CTX_EFLAGS 2;
  cs ← get32_at m addr CTX_CS 0x08;
  ds ← get32_at m addr CTX_DS 0x10;
  es ← get32_at m addr CTX_ES 0x10;
  fs ← get32_at m addr CTX_FS 0x18;
  gs ← get32_at m addr CTX_GS 0x10;
  ss ← get32_at m addr CTX_SS 0x10;
  Ok (mk_ctx eax ebx ecx edx esi edi ebp esp eip eflags (as_u M16 cs) (as_u M16 ds)
             (as_u M16 es) (as_u M16 fs) (as_u M16 gs) (as_u M16 ss)).

(** [alloc_exception_records], [free_exception_records] *)
Definition expect_alloc (h : MemMgr.MemoryManager) (n : Z)
    : outcome E (Z * MemMgr.MemoryManager) :=
  '(r, h) ← MemMgr.alloc h n;
  a ← unwrap r;
  Ok (a, h).
Definition alloc_exception_records (m : GuestMemory) (h : MemMgr.MemoryManager)
    (fault : FaultContext) (xcpt_code flags exc_addr : Z) (params : list Z)
    : outcome E (Z * Z * list Z * GuestMemory * MemMgr.MemoryManager) :=
  '(exc_report, h) ← expect_alloc h EXCEPTION_REPORT_SIZE;
  '(ctx_record, h) ← expect_alloc h CONTEXT_RECORD_SIZE;
  m ← write_exception_report m exc_report xcpt_code flags exc_addr params;
  m ← write_context_record m ctx_record fault;
  Ok (exc_report, ctx_record, [exc_report; ctx_record], m, h).
Definition free_exception_records (h : MemMgr.MemoryManager) (allocs : list Z)
    : outcome E MemMgr.MemoryManager :=
  for_in allocs (λ a h, snd <$> MemMgr.free h a) h.

(** * Finding the first handler *)

Definition chain_head (m : GuestMemory) : Z :=
  default XCPT_CHAIN_END (read32 m (TIB_BASE + TIB_EXCHAIN_OFFSET)).
Definition in_window (head : Z) : bool := negb ((head =? 0) || (0x08000000 <=? head)).

(** [try_hw_exception_dispatch]: [None] when there is no usable handler. *)
Definition try_hw_exception_dispatch (m : GuestMemory) (h : MemMgr.MemoryManager)
    (fault : FaultContext) (vector error_code : Z)
    : outcome E (option dispatch * GuestMemory * MemMgr.MemoryManager) :=
  let xcpt_code := xcpt_code_for_vector vector in
  let flags := if (xcpt_code =? XCPT_ACCESS_VIOLATION) || (xcpt_code =? XCPT_FATAL_EXCEPTION)
               then EH_NONCONTINUABLE else 0 in
  let params := if vector =? 14 then [0; eip fault] else [] in
  let head := chain_head m in
  if head =? XCPT_CHAIN_END then Ok (None, m, h)
  else if negb (in_window head) then Ok (None, m, h)
  else
    handler_fn ← get32_at m head XERREC_HANDLER 0;
    if handler_fn =? 0 then Ok (None, m, h)
    else
      next ← get32_at m head XERREC_PREV XCPT_CHAIN_END;
      '(exc_report, ctx_record, allocs, m, h) ←
        alloc_exception_records m h fault xcpt_code flags (eip fault) params;
      Ok (Some (mk_dispatch handler_fn exc_report head ctx_record fault next allocs), m, h).

(** [dos_raise_exception]; the three fields of the record are read, of which the code and the
    flags are only logged. *)
Definition raised_fault (exc_addr : Z) : FaultContext :=
  mk_ctx 0 0 0 0 0 0 0 0 exc_addr 2 0x08 0x10 0x10 0x18 0x10 0x10.
Definition dos_raise_exception (m : GuestMemory) (h : MemMgr.MemoryManager) (p_exc_rec : Z)
    : outcome E (ApiResult * GuestMemory * MemMgr.MemoryManager) :=
  if p_exc_rec =? 0 then Ok (Normal ERROR_INVALID_PARAMETER, m, h)
  else
    _ ← get32_at m p_exc_rec ERR_NUM XCPT_FATAL_EXCEPTION;
    _ ← get32_at m p_exc_rec ERR_FLAGS 0;
    exc_addr ← get32_at m p_exc_rec ERR_ADDR 0;
    let head := chain_head m in
    if head =? XCPT_CHAIN_END then Ok (Normal ERROR_NESTING_NOT_ALLOWED, m, h)
    else if negb (in_window head) then Ok (Normal ERROR_NESTING_NOT_ALLOWED, m, h)
    else
      handler_fn ← get32_at m head XERREC_HANDLER 0;
      if handler_fn =? 0 then Ok (Normal ERROR_INVALID_PARAMETER, m, h)
      else
        next ← get32_at m head XERREC_PREV XCPT_CHAIN_END;
        let fault := raised_fault exc_addr in
        '(ctx_record, h) ← expect_alloc h CONTEXT_RECORD_SIZE;
        m ← write_context_record m ctx_record fault;
        Ok (ExceptionDispatch
              (mk_dispatch handler_fn p_exc_rec head ctx_record fault next [ctx_record]), m, h).

(** [dos_set_exception_handler], [dos_unset_exception_handler] (stubs.rs) *)
Definition set_chain_head (m : GuestMemory) (v : Z) : outcome E GuestMemory :=
  unwrap (write32 m (TIB_BASE + TIB_EXCHAIN_OFFSET) v).
Definition dos_set_exception_handler (m : GuestMemory) (preg_rec : Z)
    : outcome E (Z * GuestMemory) :=
  if preg_rec =? 0 then Ok (ERROR_INVALID_PARAMETER, m)
  else
    m ← put32_at m preg_rec XERREC_PREV (chain_head m);
    m ← set_chain_head m preg_rec;
    Ok (0, m).
Definition dos_unset_exception_handler (m : GuestMemory) (preg_rec : Z)
    : outcome E (Z * GuestMemory) :=
  if preg_rec =? 0 then Ok (ERROR_INVALID_PARAMETER, m)
  else
    prev ← get32_at m preg_rec XERREC_PREV XCPT_CHAIN_END;
    m ← set_chain_head m prev;
    Ok (0, m).

(** [dos_unwind_exception]: the walk gives up after 256 records, [steps] of which are done; one
    turn more sees that, so 257 turns of fuel suffice. *)
Fixpoint unwind_loop (fuel : nat) (m : GuestMemory) (p_reg_rec cur steps : Z) : outcome E Z :=
  match fuel with
  | O => Diverge
  | S fuel =>
    if negb (cur =? XCPT_CHAIN_END) && negb (cur =? p_reg_rec) then
      let steps := steps + 1 in
      if 256 <? steps then Ok cur
      else
        cur ← get32_at m cur XERREC_PREV XCPT_CHAIN_END;
        unwind_loop fuel m p_reg_rec cur steps
    else Ok cur
  end.
Definition dos_unwind_exception (m : GuestMemory) (p_reg_rec reserved p_exc_rec data : Z)
    : outcome E (Z * GuestMemory) :=
  _ ← unwind_loop 257 m p_reg_rec (chain_head m) 0;
  m ← set_chain_head m p_reg_rec;
  Ok (0, m).
End seh.

(** * The virtual CPU (vcpu.rs) *)

Record cpu := mk_cpu {
  mem : GuestMemory;
  heap : MemMgr.MemoryManager;
  regs : GuestRegs;
  frames : list frame;
  exit_code : Z;
  exit_requested : bool;
}.
Definition with_regs s r := mk_cpu (mem s) (heap s) r (frames s) (exit_code s) (exit_requested s).
Definition with_mem s m := mk_cpu m (heap s) (regs s) (frames s) (exit_code s) (exit_requested s).
Definition with_heap s h := mk_cpu (mem s) h (regs s) (frames s) (exit_code s) (exit_requested s).
Definition with_frames s f := mk_cpu (mem s) (heap s) (regs s) f (exit_code s) (exit_requested s).
(** [exit_code.store(1)], [exit_requested.store(true)] *)
Definition with_exit s := mk_cpu (mem s) (heap s) (regs s) (frames s) 1 true.
Definition set_rip r v :=
  mk_regs v (rsp r) (rax r) (rbx r) (rcx r) (rdx r) (rsi r) (rdi r) (rbp r) (rflags r).
Definition set_rsp r v :=
  mk_regs (rip r) v (rax r) (rbx r) (rcx r) (rdx r) (rsi r) (rdi r) (rbp r) (rflags r).

(** The loop goes on, or the thread of the CPU returns. *)
Inductive status := Running | Returned.

Section vcpu.
Context {B : Build} {E : Type}.

(** [setup_exception_dispatch]: the frame, then the call on the guest stack. *)
Definition setup_exception_dispatch (s : cpu) (d : dispatch) : outcome E cpu :=
  let f := mk_frame (eip (saved d)) (esp (saved d)) (saved d) (next_handler d) (exc_report d)
                    (ctx_record d) (guest_allocs d) in
  rsp ← usub M64 (rsp (regs s)) 20;
  let sp := as_u M32 rsp in
  m ← unwrap (write32 (mem s) sp CALLBACK_RET_TRAP);
  m ← put32_at m sp 4 (exc_report d);
  m ← put32_at m sp 8 (reg_rec d);
  m ← put32_at m sp 12 (ctx_record d);
  m ← put32_at m sp 16 0;
  Ok (mk_cpu m (heap s) (set_rip (set_rsp (regs s) rsp) (handler_addr d)) (f :: frames s)
             (exit_code s) (exit_requested s)).

(** The stop at [CALLBACK_RET_TRAP], for a frame of an exception handler. *)
Definition regs_of (c : FaultContext) : GuestRegs :=
  mk_regs (eip c) (esp c) (eax c) (ebx c) (ecx c) (edx c) (esi c) (edi c) (ebp c) (eflags c).
Definition callback_returned (s : cpu) : outcome E (status * cpu) :=
  match frames s with
  | [] => Ok (Returned, s)
  | f :: fs =>
    let s := with_frames s fs in
    let result := as_u M32 (rax (regs s)) in
    if result =? XCPT_CONTINUE_EXECUTION then
      ctx ← read_context_record (mem s) (fr_ctx_record f);
      h ← free_exception_records (heap s) (fr_allocs f);
      Ok (Running, with_regs (with_heap s h) (regs_of ctx))
    else if fr_next_handler f =? XCPT_CHAIN_END then
      h ← free_exception_records (heap s) (fr_allocs f);
      Ok (Returned, with_exit (with_heap s h))
    else
      handler_fn ← get32_at (mem s) (fr_next_handler f) XERREC_HANDLER 0;
      next_next ← get32_at (mem s) (fr_next_handler f) XERREC_PREV XCPT_CHAIN_END;
      if handler_fn =? 0 then
        h ← free_exception_records (heap s) (fr_allocs f);
        Ok (Returned, with_exit (with_heap s h))
      else
        s ← setup_exception_dispatch s
              (mk_dispatch handler_fn (fr_exc_report f) (fr_next_handler f) (fr_ctx_record f)
                           (fr_saved f) next_next (fr_allocs f));
        Ok (Running, s)
  end.

(** The result [ApiResult::ExceptionDispatch] of an API call. *)
Definition with_return (c : FaultContext) (ret sp : Z) : FaultContext :=
  mk_ctx (eax c) (ebx c) (ecx c) (edx c) (esi c) (edi c) (ebp c) sp ret (eflags c)
         (cs c) (ds c) (es c) (fs c) (gs c) (ss c).
Definition api_exception_dispatch (s : cpu) (d : dispatch) : outcome E cpu :=
  return_addr ← unwrap (read32 (mem s) (as_u M32 (rsp (regs s))));
  rsp ← uadd M64 (rsp (regs s)) 4;
  let sp := as_u M32 rsp in
  m ← put32_at (mem s) (ctx_record d) CTX_EIP return_addr;
  m ← put32_at m (ctx_record d) CTX_ESP sp;
  setup_exception_dispatch (with_mem s m)
    (mk_dispatch (handler_addr d) (exc_report d) (reg_rec d) (ctx_record d)
                 (with_return (saved d) return_addr sp) (next_handler d) (guest_allocs d)).

(** ** A fault: the stop at a stub of the IDT *)

(** The descriptor that makes a segment 32-bit and flat. *)
Definition flat (g : GuestSegment) (sel type : Z) : GuestSegment :=
  mk_seg 0 0xFFFFFFFF sel type (present g) (dpl g) 1 (seg_s g) (seg_l g) (seg_g g) (avl g)
         (unusable g).
Definition set_flat (r : GuestSregs) (data_sel : Z) : GuestSregs :=
  mk_sregs (flat (sr_cs r) 0x08 0x0B) (flat (sr_ds r) data_sel 0x03) (flat (sr_es r) data_sel 0x03)
           (sr_fs r) (sr_gs r) (flat (sr_ss r) data_sel 0x03).

(** The scan for the frame of a Far16 thunk: the saved stack pointer that points at itself. *)
Fixpoint far16_scan (fuel : nat) (m : GuestMemory) (addr scan_end : Z) : outcome E (option Z) :=
  match fuel with
  | O => Diverge
  | S fuel =>
    if scan_end + 8 <=? addr then
      let val := default 0 (read32 m addr) in
      if (val =? addr + 8) && (default 0 (read16 m (addr + 4)) =? 0x10) then Ok (Some val)
      else far16_scan fuel m (wrapping_sub M32 addr 4) scan_end
    else Ok None
  end.
Definition is_tiled (error_code : Z) : bool :=
  let i := error_code / 8 in
  (TILED_SEL_START_INDEX <=? i) && (i <? TILED_SEL_START_INDEX + NUM_TILES) ||
  (TILED_CODE_START_INDEX <=? i) && (i <? TILED_CODE_START_INDEX + NUM_CODE_TILES).

(** The bypass: the registers with which the thunk returns 0 to its caller, when the fault is
    the far jump (or the stack switch before it) of a thunk. *)
Definition far16_return (s : cpu) (r : GuestSregs) (ebp fault_eflags : Z)
    : outcome E (cpu * GuestSregs) :=
  let g off d := get32_at (mem s) ebp off d in
  s_ds ← g 0 0x10;
  _ ← g 4 0x10;
  s_edx ← g 8 0;
  s_ebx ← g 12 0;
  s_edi ← g 16 0;
  s_ebp ← g 20 0;
  ret_addr ← g 24 0;
  sp ← uadd M32 ebp 28;
  let o := regs s in
  Ok (with_regs s (mk_regs ret_addr sp 0 s_ebx (rcx o) s_edx (rsi o) s_edi s_ebp fault_eflags),
      set_flat r (as_u M16 s_ds)).
Definition far16_bypass (s : cpu) (r : GuestSregs) (error_code fault_eip fault_eflags : Z)
    : outcome E (option (cpu * GuestSregs)) :=
  if is_tiled error_code then
    let byte off := p ← uadd M32 fault_eip off; Ok (default 0 (read8 (mem s) p)) in
    b0 ← byte 0; b1 ← byte 1; b2 ← byte 2;
    let is_jmp_far := (b0 =? 0x66) && (b1 =? 0xEA) in
    let is_lss_sp_esp := (b0 =? 0x66) && (b1 =? 0x0F) && (b2 =? 0xB2) in
    if is_jmp_far || is_lss_sp_esp then
      jmp_base ← uadd M32 fault_eip (if is_jmp_far then 2 else 7);
      _ ← uadd M32 jmp_base 2;
      let stack_upper := Z.land (as_u M32 (rsp (regs s))) 0xFFFF0000 in
      saved_ebp ← far16_scan (Z.to_nat 16384) (mem s) (Z.lor stack_upper 0xFF00) stack_upper;
      match saved_ebp with
      | Some ebp => Some <$> far16_return s r ebp fault_eflags
      | None => Ok None
      end
    else Ok None
  else Ok None.

(** The whole stop: the frame of the stub, the bypass, and the dispatch or the crash. *)
Definition frame_base_of (s : cpu) (r : GuestSregs) : outcome E Z :=
  if db (sr_ss r) =? 0 then uadd M32 (as_u M32 (base (sr_ss r))) (as_u M16 (rsp (regs s)))
  else Ok (as_u M32 (rsp (regs s))).
Definition fault_context (s : cpu) (r : GuestSregs) (sp eip eflags fault_cs : Z) : FaultContext :=
  let o := regs s in
  mk_ctx (as_u M32 (rax o)) (as_u M32 (rbx o)) (as_u M32 (rcx o)) (as_u M32 (rdx o))
         (as_u M32 (rsi o)) (as_u M32 (rdi o)) (as_u M32 (rbp o)) sp eip eflags
         (as_u M16 fault_cs) (selector (sr_ds r)) (selector (sr_es r)) (selector (sr_fs r))
         (selector (sr_gs r)) (selector (sr_ss r)).
Definition hw_exception (s : cpu) (fault : FaultContext) (vector error_code : Z)
    : outcome E (status * cpu) :=
  '(r, m, h) ← try_hw_exception_dispatch (mem s) (heap s) fault vector error_code;
  let s := with_heap (with_mem s m) h in
  match r with
  | Some d => s ← setup_exception_dispatch s d; Ok (Running, s)
  | None => Ok (Returned, with_exit s)
  end.
Definition idt_stop (s : cpu) (r : GuestSregs) : outcome E (status * cpu * GuestSregs) :=
  fb ← frame_base_of s r;
  vector ← get32_at (mem s) fb 0 0xFF;
  error_code ← get32_at (mem s) fb 4 0;
  fault_eip ← get32_at (mem s) fb 8 0;
  fault_cs ← get32_at (mem s) fb 12 0;
  fault_eflags ← get32_at (mem s) fb 16 0;
  bypass ← (if (vector =? 13) && (fault_cs =? 0x08)
            then far16_bypass s r error_code fault_eip fault_eflags else Ok None);
  match bypass with
  | Some (s, r) => Ok (Running, s, r)
  | None =>
    sp ← uadd M32 fb 20;
    '(st, s) ← hw_exception s (fault_context s r sp fault_eip fault_eflags fault_cs)
                 vector error_code;
    Ok (st, s, r)
  end.
End vcpu.

(** * Writing fields *)

(** [q, q + n) and [p, p + k) do not meet. *)
Definition apart (q n p k : Z) : Prop := q + n ≤ p ∨ p + k ≤ q.

(** A memory after some writes: the same but at the places given. *)
Record wrote (l : list Z) (m m' : GuestMemory) : Prop := {
  wrote_wf : mem_wf m → mem_wf m';
  wrote_size : size m' = size m;
  wrote_other : mem_wf m → ∀ q k, Forall (λ p, apart q (Z.of_nat k) p 4) l → read k m' q = read k m q;
}.
Lemma wrote_nil m : wrote [] m m.
Proof. by split. Qed.
Lemma wrote_trans l1 l2 m1 m2 m3 : wrote l1 m1 m2 → wrote l2 m2 m3 → wrote (l1 ++ l2) m1 m3.
Proof.
  intros [Hw1 Hs1 Ho1] [Hw2 Hs2 Ho2]. split; [auto|congruence|].
  intros Hm q k [Hl1 Hl2]%Forall_app. rewrite Ho2, Ho1; auto.
Qed.

Section fields.
Context {B : Build} {E : Type}.

Lemma put32_at_ok m a off v : mem_wf m → size m ≤ M32 → a + off + 4 ≤ size m →
  ∃ m', put32_at (E:=E) m a off v = Ok m' ∧ wrote [a + off] m m' ∧
    read32 m' (a + off) = Some (v mod M32).
Proof.
  intros Hm Hs Ho. unfold put32_at. arith_ok.
  pose proof (write_ok 4 m (a + off) v) as Hw. rewrite Hw by (apply Hm || lia).
  specialize (Hw ltac:(apply Hm) ltac:(lia)). eexists. split; [done|]. split.
  - split; [intros _; exact (write_wf _ _ _ _ _ Hm Hw)|exact (write_size _ _ _ _ _ Hw)|].
    intros _ q k Hq. rewrite Forall_singleton in Hq. exact (read_write_other _ _ _ _ _ _ _ Hm Hw Hq).
  - by rewrite (read_write_same _ _ _ _ _ Hm Hw).
Qed.
Lemma get32_at_ok m a off d v : a + off < M32 → read32 m (a + off) = Some v →
  get32_at (E:=E) m a off d = Ok v.
Proof. intros ? Hr. unfold get32_at. arith_ok. by rewrite Hr. Qed.

(** Fields at disjoint offsets of a record hold what was written. *)
Definition separate (l : list (Z * Z)) : Prop :=
  ForallOrdPairs (λ x y : Z * Z, apart x.1 4 y.1 4) l.
Lemma put_fields_ok l m a n : mem_wf m → size m ≤ M32 → a + n ≤ size m →
  Forall (λ x : Z * Z, x.1 + 4 ≤ n) l →
  ∃ m', for_in l (λ '(off, v) m, put32_at (E:=E) m a off v) m = Ok m' ∧
    wrote (map (λ x : Z * Z, a + x.1) l) m m' ∧
    (separate l → ∀ off v, (off, v) ∈ l → read32 m' (a + off) = Some (v mod M32)).
Proof.
  intros Hm Hs Hn Hl. revert m Hm Hs Hn. induction Hl as [|[off v] l Ho Hl IH]; intros m Hm Hs Hn.
  { exists m. split; [done|]. split; [apply wrote_nil|set_solver]. }
  cbn [fst] in Ho. cbn [for_in map fst].
  destruct (put32_at_ok m a off v Hm Hs ltac:(lia)) as (m1 & -> & Hw1 & Hr1). out_simpl.
  pose proof (wrote_wf _ _ _ Hw1 Hm) as Hm1. pose proof (wrote_size _ _ _ Hw1) as Hs1.
  destruct (IH m1) as (m2 & -> & Hw2 & Hr2); [done|lia..|].
  exists m2. split; [done|]. split; [by apply (wrote_trans [a + off] _ m m1)|].
  intros Hsep off' v'. inversion Hsep as [|? ? Hx Hsep']; subst.
  intros [[= -> ->]|Hin]%elem_of_cons; [|by apply Hr2].
  rewrite (wrote_other _ _ _ Hw2 Hm1); [done|]. apply Forall_map.
  eapply Forall_impl; [exact Hx|]. intros y. unfold apart. cbn. lia.
Qed.
End fields.

(** * The context record *)

(** A context of 32-bit registers and 16-bit selectors. *)
Definition ctx_ok (c : FaultContext) : Prop :=
  Forall u32 [eax c; ebx c; ecx c; edx c; esi c; edi c; ebp c; esp c; eip c; eflags c] ∧
  Forall u16 [cs c; ds c; es c; fs c; gs c; ss c].

Lemma context_fields_ok c : Forall (λ x : Z * Z, 0 ≤ x.1 ∧ x.1 + 4 ≤ CONTEXT_RECORD_SIZE) (context_fields c) ∧
  separate (context_fields c).
Proof.
  split; [repeat constructor; done|].
  unfold separate, context_fields.
  repeat first [apply FOP_nil | apply FOP_cons | apply Forall_nil_2 | apply Forall_cons_2];
    first [by left|by right].
Qed.
Lemma fpu_area_ok : Forall (λ off, 4 ≤ off ∧ off + 4 ≤ CTX_GS) fpu_area.
Proof.
  unfold fpu_area. apply Forall_map, Forall_forall. intros i Hi%elem_of_range. unfold CTX_GS. lia.
Qed.

Section context.
Context {B : Build} {E : Type}.

Lemma write_context_ok m a c : mem_wf m → size m ≤ M32 → a + CONTEXT_RECORD_SIZE ≤ size m →
  ∃ m', write_context_record (E:=E) m a c = Ok m' ∧ mem_wf m' ∧ size m' = size m ∧
    (∀ q k, apart q (Z.of_nat k) a CONTEXT_RECORD_SIZE → read k m' q = read k m q) ∧
    ∀ off v, (off, v) ∈ context_fields c → read32 m' (a + off) = Some (v mod M32).
Proof.
  intros Hm Hs Ha. unfold write_context_record.
  destruct (put_fields_ok (E:=E) (map (λ off, (off, 0)) fpu_area) m a CONTEXT_RECORD_SIZE Hm Hs Ha)
    as (m1 & H1 & Hw1 & _).
  { apply Forall_map. eapply Forall_impl; [apply fpu_area_ok|]. unfold CTX_GS, CONTEXT_RECORD_SIZE. cbn. lia. }
  rewrite for_in_map in H1. rewrite H1. out_simpl.
  pose proof (wrote_wf _ _ _ Hw1 Hm) as Hm1. pose proof (wrote_size _ _ _ Hw1) as Hs1.
  destruct (context_fields_ok c) as [Hin Hsep].
  destruct (put_fields_ok (E:=E) (context_fields c) m1 a CONTEXT_RECORD_SIZE Hm1 ltac:(lia) ltac:(lia))
    as (m2 & -> & Hw2 & Hr); [eapply Forall_impl; [exact Hin|]; cbn; lia|].
  exists m2. split; [done|]. split; [by apply (wrote_wf _ _ _ Hw2)|].
  split; [rewrite (wrote_size _ _ _ Hw2); lia|]. split; [|by apply Hr].
  intros q k Hq. unfold apart, CONTEXT_RECORD_SIZE in Hq. rewrite (wrote_other _ _ _ Hw2 Hm1), (wrote_other _ _ _ Hw1 Hm); [done|..].
  - rewrite map_map. apply Forall_map. eapply Forall_impl; [apply fpu_area_ok|].
    unfold CTX_GS, apart. cbn. lia.
  - apply Forall_map. eapply Forall_impl; [exact Hin|]. unfold apart, CONTEXT_RECORD_SIZE. cbn. lia.
Qed.

(** Reading a record that holds a context. *)
Lemma read_context_ok m a c : a + CONTEXT_RECORD_SIZE ≤ M32 → ctx_ok c →
  (∀ off v, (off, v) ∈ context_fields c → read32 m (a + off) = Some (v mod M32)) →
  read_context_record (E:=E) m a = Ok c.
Proof.
  intros Ha [Hr Hsel] Hf. unfold CONTEXT_RECORD_SIZE in Ha.
  assert (Hget : ∀ off v d, (off, v) ∈ context_fields c → u32 v → off + 4 ≤ 0xCC →
    get32_at (E:=E) m a off d = Ok v).
  { intros off v d Hin Hv Ho. apply get32_at_ok; [lia|]. rewrite (Hf off v Hin).
    f_equal. by apply Z.mod_small. }
  rewrite !Forall_cons in Hr. rewrite !Forall_cons in Hsel. unfold u16 in Hsel.
  destruct Hr as (?&?&?&?&?&?&?&?&?&?&_), Hsel as (?&?&?&?&?&?&_).
  assert (Hin : ∀ x, In x (context_fields c) → x ∈ context_fields c) by (intros; by apply list_elem_of_In).
  unfold read_context_record.
  do 16 (erewrite Hget; [|apply Hin; cbn; tauto|unfold u32; lia || done|done]; out_simpl).
  rewrite !as_u_small by done. by destruct c.
Qed.
End context.

(** A context record holds the context: after [write_context_record] at an address with room
    for the record, [read_context_record] gives back exactly the registers and selectors written,
    and no byte outside the record has changed. *)
Theorem context_roundtrip {B : Build} {E} (m : GuestMemory) (a : Z) (c : FaultContext) :
  mem_wf m → size m ≤ M32 → a + CONTEXT_RECORD_SIZE ≤ size m → ctx_ok c →
  ∃ m', write_context_record (E:=E) m a c = Ok m' ∧ read_context_record (E:=E) m' a = Ok c ∧
    mem_wf m' ∧ size m' = size m ∧
    ∀ q k, apart q (Z.of_nat k) a CONTEXT_RECORD_SIZE → read k m' q = read k m q.
Proof.
  intros Hm Hs Ha Hc. destruct (write_context_ok (E:=E) m a c Hm Hs Ha) as (m' & Hw & Hm' & Hs' & Ho & Hf).
  exists m'. split_and!; try done. apply read_context_ok; [lia|done..].
Qed.
Definition demo_ctx : FaultContext :=
  mk_ctx 1 2 3 4 5 6 7 0x8FFF0 0x10010 0x202 0x08 0x10 0x10 0x18 0x10 0x10.
Lemma context_roundtrip_witness :
  ∃ m', write_context_record (B:=dev_profile) (E:=unit) (alloc 0x1000) 0x100 demo_ctx = Ok m' ∧
    read_context_record (B:=dev_profile) (E:=unit) m' 0x100 = Ok demo_ctx ∧
    read32 m' 0xFC = Some 0.
Proof.
  destruct (context_roundtrip (B:=dev_profile) (E:=unit) (alloc 0x1000) 0x100 demo_ctx)
    as (m' & Hw & Hr & _ & _ & Ho); [by apply alloc_wf|done..|split; repeat constructor; done|].
  exists m'. split_and!; [done..|]. by rewrite Ho by by left.
Defined.

(** * Offering an exception to the handlers *)

(** The registration records from [r] on, with their handlers, innermost first. *)
Inductive chain (m : GuestMemory) : Z → list (Z * Z) → Prop :=
| chain_end : chain m XCPT_CHAIN_END []
| chain_record r next h l :
    read32 m (r + XERREC_HANDLER) = Some h → h ≠ 0 → read32 m (r + XERREC_PREV) = Some next →
    chain m next l → chain m r ((r, h) :: l).

(** What the guest does between the call of a handler and its return: it keeps the host's state,
    the memory's size and the chain's records, returns with its stack below [lo], and accepts the
    exception or not. *)
Record handler_run (recs : list Z) (lo : Z) (accept : bool) (s s1 : cpu) : Prop := {
  run_frames : frames s1 = frames s;
  run_heap : heap s1 = heap s;
  run_exit : exit_code s1 = exit_code s ∧ exit_requested s1 = exit_requested s;
  run_wf : mem_wf (mem s) → mem_wf (mem s1);
  run_size : size (mem s1) = size (mem s);
  run_recs : ∀ r off, r ∈ recs → off = XERREC_PREV ∨ off = XERREC_HANDLER →
    read32 (mem s1) (r + off) = read32 (mem s) (r + off);
  run_stack : 20 ≤ rsp (regs s1) ≤ lo;
  run_answer : (as_u M32 (rax (regs s1)) =? XCPT_CONTINUE_EXECUTION) = accept;
}.

(** A call as its handler sees it: the address and the words on the stack. *)
Definition call_of (s : cpu) : Z * list (option Z) :=
  (rip (regs s), map (λ k, read32 (mem s) (as_u M32 (rsp (regs s)) + 4 * k)) [0; 1; 2; 3; 4]).
Definition call_to (exc_report ctx_record : Z) (x : Z * Z) : Z * list (option Z) :=
  (x.2, map Some [CALLBACK_RET_TRAP; exc_report; x.1; ctx_record; 0]).

(** Handlers are called until a frame is gone: one has accepted, or none is left. *)
Fixpoint offer {B : Build} {E} (fuel : nat) (guest : nat → cpu → cpu) (i : nat) (s : cpu)
    : outcome E (list (Z * list (option Z)) * cpu) :=
  match fuel with
  | O => Diverge
  | S fuel =>
    let s1 := guest i s in
    '(_, s2) ← callback_returned s1;
    if (length (frames s2) <? length (frames s1))%nat then Ok ([call_of s], s2)
    else '(l, s') ← offer fuel guest (S i) s2; Ok (call_of s :: l, s')
  end.

(** The specification: the calls made, and whether the exception was accepted. *)
Fixpoint called {A} (accept : nat → bool) (i : nat) (l : list A) : list A * bool :=
  match l with
  | [] => ([], false)
  | x :: l => if accept i then ([x], true) else let '(l, b) := called accept (S i) l in (x :: l, b)
  end.

Lemma read_in_range n m a v : mem_wf m → read n m a = Some v → a + Z.of_nat n ≤ size m.
Proof.
  intros Hm. unfold read. destruct (ptr_at m a (Z.of_nat n)) as [p|] eqn:Hp; [|done]. intros _.
  apply ptr_at_Some in Hp as [_ ?]; [done|apply Hm].
Qed.
Lemma read32_u32 m a v : mem_wf m → read32 m a = Some v → u32 v.
Proof. intros Hm Hr. by apply (read_range 4 m a). Qed.
Lemma chain_ext m m' r l : chain m r l →
  (∀ x off, x ∈ map fst l → off = XERREC_PREV ∨ off = XERREC_HANDLER →
     read32 m' (x + off) = read32 m (x + off)) → chain m' r l.
Proof.
  induction 1 as [|r next h l Hh Hne Hn Hl IH]; intros Hsame; [constructor|].
  assert (r ∈ map fst ((r, h) :: l)) as Hr by by left.
  apply chain_record with next; [rewrite Hsame; auto|done|rewrite Hsame; auto|].
  apply IH. intros x off Hx. apply Hsame. by right.
Qed.

Section offer.
Context {B : Build} {E : Type}.

Lemma setup_ok s d : mem_wf (mem s) → size (mem s) ≤ M32 → 20 ≤ rsp (regs s) ≤ size (mem s) →
  u32 (exc_report d) → u32 (reg_rec d) → u32 (ctx_record d) →
  ∃ m, setup_exception_dispatch (E:=E) s d =
      Ok (mk_cpu m (heap s) (set_rip (set_rsp (regs s) (rsp (regs s) - 20)) (handler_addr d))
            (mk_frame (eip (saved d)) (esp (saved d)) (saved d) (next_handler d) (exc_report d)
               (ctx_record d) (guest_allocs d) :: frames s) (exit_code s) (exit_requested s)) ∧
    mem_wf m ∧ size m = size (mem s) ∧
    (∀ q k, apart q (Z.of_nat k) (rsp (regs s) - 20) 20 → read k m q = read k (mem s) q) ∧
    map (λ k, read32 m (rsp (regs s) - 20 + 4 * k)) [0; 1; 2; 3; 4] =
      map Some [CALLBACK_RET_TRAP; exc_report d; reg_rec d; ctx_record d; 0].
Proof.
  intros Hm Hs Hsp He Hr Hc. unfold setup_exception_dispatch. arith_ok.
  rewrite as_u_small by lia. set (sp := rsp (regs s) - 20) in *.
  set (args := [(0, CALLBACK_RET_TRAP); (4, exc_report d); (8, reg_rec d); (12, ctx_record d); (16, 0)]).
  destruct (put_fields_ok (E:=E) args (mem s) sp 20 Hm Hs ltac:(lia)) as (m & Hput & Hw & Hf);
    [repeat constructor; done|].
  assert (put32_at (E:=E) (mem s) sp 0 CALLBACK_RET_TRAP = unwrap (write32 (mem s) sp CALLBACK_RET_TRAP))
    as Hfirst by (unfold put32_at; arith_ok; by rewrite Z.add_0_r).
  cbn [for_in args] in Hput. rewrite Hfirst in Hput.
  exists m. split; [|split; [by apply (wrote_wf _ _ _ Hw)|]].
  - out_simpl. destruct (unwrap _) as [m1| | |]; out_simpl; try done.
    destruct (put32_at m1 sp 4 _) as [m2| | |]; out_simpl; try done.
    destruct (put32_at m2 sp 8 _) as [m3| | |]; out_simpl; try done.
    destruct (put32_at m3 sp 12 _) as [m4| | |]; out_simpl; try done.
    destruct (put32_at m4 sp 16 _) as [m5| | |]; out_simpl; try done. by injection Hput as ->.
  - split; [apply (wrote_size _ _ _ Hw)|]. split.
    + intros q k Hq. apply (wrote_other _ _ _ Hw Hm). unfold apart in Hq.
      repeat (apply Forall_cons_2; [unfold apart; cbn [fst]; lia|]). apply Forall_nil_2.
    + assert (separate args) as Hsep.
      { unfold separate, args.
        repeat first [apply FOP_nil | apply FOP_cons | apply Forall_nil_2 | apply Forall_cons_2];
          first [by left|by right]. }
      assert (Hin : ∀ x, In x args → x ∈ args) by (intros; by apply list_elem_of_In).
      unfold u32 in *.
      change (map _ [0; 1; 2; 3; 4]) with
        (map (λ off, read32 m (sp + off)) [0; 4; 8; 12; 16]). cbn [map].
      rewrite (Hf Hsep 0 CALLBACK_RET_TRAP), (Hf Hsep 4 (exc_report d)), (Hf Hsep 8 (reg_rec d)),
        (Hf Hsep 12 (ctx_record d)), (Hf Hsep 16 0) by (apply Hin; cbn; tauto).
      rewrite !Z.mod_small by (done || lia). done.
Qed.

(** How a search ends: resumed from the context record, or the program ends with code 1. *)
Definition ended (accepted : bool) (ctx_record : Z) (s s' : cpu) : Prop :=
  if accepted then
    exit_code s' = exit_code s ∧ exit_requested s' = exit_requested s ∧
    ∃ c, read_context_record (E:=E) (mem s') ctx_record = Ok c ∧ regs s' = regs_of c
  else exit_code s' = 1 ∧ exit_requested s' = true.

Lemma read_context_total m a : a + CONTEXT_RECORD_SIZE ≤ M32 →
  ∃ c, read_context_record (E:=E) m a = Ok c.
Proof.
  intros Ha. unfold CONTEXT_RECORD_SIZE in Ha. unfold read_context_record, get32_at.
  do 16 (rewrite uadd_ok by (unfold CTX_EAX, CTX_EBX, CTX_ECX, CTX_EDX, CTX_ESI, CTX_EDI, CTX_EBP,
    CTX_ESP, CTX_EIP, CTX_EFLAGS, CTX_CS, CTX_DS, CTX_ES, CTX_FS, CTX_GS, CTX_SS; lia); out_simpl).
  by eexists.
Qed.

Context (guest : nat → cpu → cpu) (accept : nat → bool) (recs : list Z) (lo : Z).
Context (Hguest : ∀ i s, handler_run recs lo (accept i) s (guest i s)).

(** One answer. *)
Lemma answered i s f fs h' :
  frames s = f :: fs → mem_wf (mem s) → fr_ctx_record f + CONTEXT_RECORD_SIZE ≤ M32 →
  free_exception_records (E:=E) (heap s) (fr_allocs f) = Ok h' →
  accept i = true ∨ fr_next_handler f = XCPT_CHAIN_END →
  ∃ st s', callback_returned (E:=E) (guest i s) = Ok (st, s') ∧ frames s' = fs ∧ heap s' = h' ∧
    ended (accept i) (fr_ctx_record f) s s'.
Proof.
  intros Hf Hm Hc Hfree Hor. destruct (Hguest i s) as [Hfr Hh [He1 He2] _ _ _ _ Hans].
  unfold callback_returned. rewrite Hfr, Hf. cbn [regs with_frames]. rewrite Hans.
  cbn [heap mem with_frames]. rewrite Hh. destruct (accept i).
  - destruct (read_context_total (mem (guest i s)) (fr_ctx_record f) Hc) as [c Hc']. rewrite Hc'.
    out_simpl. rewrite Hfree. out_simpl. eexists _, _. split; [done|]. cbn. split_and!; try done.
    by exists c.
  - destruct Hor as [|Hend]; [done|]. rewrite Hend, Z.eqb_refl, Hfree. out_simpl.
    by eexists _, _.
Qed.
(** One refusal with a handler left: it is called. *)
Lemma passed_on i s f fs r h l :
  frames s = f :: fs → mem_wf (mem s) → lo ≤ size (mem s) ≤ M32 →
  accept i = false → fr_next_handler f = r → chain (mem s) r ((r, h) :: l) →
  (∀ x, x ∈ map fst ((r, h) :: l) → x ∈ recs ∧ lo ≤ x) →
  u32 (fr_exc_report f) → u32 (fr_ctx_record f) →
  ∃ s' f', callback_returned (E:=E) (guest i s) = Ok (Running, s') ∧ frames s' = f' :: fs ∧
    fr_exc_report f' = fr_exc_report f ∧ fr_ctx_record f' = fr_ctx_record f ∧
    fr_allocs f' = fr_allocs f ∧ mem_wf (mem s') ∧ size (mem s') = size (mem s) ∧
    chain (mem s') (fr_next_handler f') l ∧ heap s' = heap s ∧
    exit_code s' = exit_code s ∧ exit_requested s' = exit_requested s ∧
    call_of s' = call_to (fr_exc_report f) (fr_ctx_record f) (r, h).
Proof.
  intros Hf Hm Hs Hacc Hr Hch Hrecs Her Hcr.
  destruct (Hguest i s) as [Hfr Hh [He1 He2] Hwf Hsz Hkeep Hst Hans]. specialize (Hwf Hm).
  assert (Hch1 : chain (mem (guest i s)) r ((r, h) :: l)).
  { eapply chain_ext; [done|]. intros x off Hx Hoff. apply Hkeep; [by apply Hrecs|done]. }
  inversion Hch1 as [|? next ? ? Hh1 Hne Hn1 Hl1]; subst.
  pose proof (read_in_range _ _ _ _ Hwf Hh1) as Hrng. rewrite Hsz in Hrng. unfold XERREC_HANDLER in Hrng.
  destruct (Hrecs (fr_next_handler f) ltac:(by left)) as [_ Hlo].
  set (r := fr_next_handler f) in *.
  assert (Hget : ∀ off d v, off ≤ 4 → read32 (mem (guest i s)) (r + off) = Some v →
    get32_at (E:=E) (mem (guest i s)) r off d = Ok v) by (intros; apply get32_at_ok; [lia|done]).
  unfold callback_returned. rewrite Hfr, Hf. cbn [regs mem with_frames]. rewrite Hans, Hacc. fold r.
  rewrite (proj2 (Z.eqb_neq r XCPT_CHAIN_END)) by (unfold XCPT_CHAIN_END; lia).
  rewrite (Hget XERREC_HANDLER _ h), (Hget XERREC_PREV _ next) by done. out_simpl.
  rewrite (proj2 (Z.eqb_neq h 0)) by done.
  edestruct (setup_ok (with_frames (guest i s) fs)) as (m & Hset & Hm' & Hs' & Ho & Hargs);
    [| | | | | |rewrite Hset]; try (done || (cbn; lia)); [cbn; unfold u32; lia|].
  out_simpl. cbn in Hs', Ho, Hargs. eexists _, _. split; [done|]. split; [done|]. cbn.
  split_and!; try done; try congruence.
  - eapply chain_ext; [done|]. intros x off Hx Hoff. apply Ho. unfold apart.
    assert (lo ≤ x) by (apply Hrecs; by right). unfold XERREC_PREV, XERREC_HANDLER in Hoff. lia.
  - unfold call_of, call_to. cbn [rip regs rsp set_rip set_rsp mem snd fst]. f_equal.
    rewrite as_u_small by lia. exact Hargs.
Qed.

Lemma offer_turn n i s : offer (E:=E) (S n) guest i s =
  ('(_, s2) ← callback_returned (guest i s);
   if (length (frames s2) <? length (frames (guest i s)))%nat then Ok ([call_of s], s2)
   else '(l, s') ← offer n guest (S i) s2; Ok (call_of s :: l, s')).
Proof. done. Qed.
Lemma called_refused {A} i (x : A) l : accept i = false →
  called accept i (x :: l) = (x :: (called accept (S i) l).1, (called accept (S i) l).2).
Proof. intros Hi. cbn. rewrite Hi. by destruct (called accept (S i) l). Qed.
(** The calls follow the chain until a handler accepts. *)
Lemma offer_spec l i s f fs h' :
  frames s = f :: fs → mem_wf (mem s) → lo ≤ size (mem s) ≤ M32 →
  chain (mem s) (fr_next_handler f) l → (∀ x, x ∈ map fst l → x ∈ recs ∧ lo ≤ x) →
  u32 (fr_exc_report f) → u32 (fr_ctx_record f) →
  fr_ctx_record f + CONTEXT_RECORD_SIZE ≤ M32 →
  free_exception_records (E:=E) (heap s) (fr_allocs f) = Ok h' →
  let r := called accept i (call_of s :: map (call_to (fr_exc_report f) (fr_ctx_record f)) l) in
  ∃ s', offer (E:=E) (S (length l)) guest i s = Ok (r.1, s') ∧ frames s' = fs ∧ heap s' = h' ∧
    ended r.2 (fr_ctx_record f) s s'.
Proof.
  revert i s f. induction l as [|[r h] l IH]; intros i s f Hf Hm Hs Hch Hrecs Her Hcr Hc Hfree.
  all: assert (Hlen : length (frames (guest i s)) = S (length fs))
    by (by rewrite (run_frames _ _ _ _ _ (Hguest i s)), Hf).
  - destruct (answered i s f fs h' Hf Hm Hc Hfree) as (st & s' & Heq & Hfs & Hh & Hend).
    { right. by inversion Hch. }
    exists s'. rewrite offer_turn, Heq. cbn [map called]. out_simpl. rewrite Hlen, Hfs, (proj2 (Nat.ltb_lt _ _)) by lia.
    by destruct (accept i).
  - destruct (accept i) eqn:Hacc.
    + destruct (answered i s f fs h' Hf Hm Hc Hfree) as (st & s' & Heq & Hfs & Hh & Hend); [by left|].
      exists s'. rewrite offer_turn, Heq. cbn [map called]. out_simpl. rewrite Hlen, Hfs, (proj2 (Nat.ltb_lt _ _)) by lia.
      by rewrite Hacc in *.
    + assert (fr_next_handler f = r) as Hr by (by inversion Hch). rewrite Hr in Hch.
      destruct (passed_on i s f fs r h l Hf Hm Hs Hacc Hr Hch Hrecs Her Hcr)
        as (s1 & f1 & Heq & Hfs & Hf1 & Hf2 & Hf3 & Hm1 & Hs1 & Hch1 & Hh1 & He1 & He2 & Hcall).
      destruct (IH (S i) s1 f1 Hfs) as (s' & Heq' & Hfs' & Hh' & Hend);
        rewrite ?Hf1, ?Hf2, ?Hf3, ?Hh1 in *; try done; [lia| |].
      { intros x Hx. apply Hrecs. by right. }
      exists s'. rewrite offer_turn, Heq, called_refused by done. cbn [map]. out_simpl.
      rewrite Hlen, Hfs, (proj2 (Nat.ltb_ge _ _)) by (cbn [length]; lia).
      change (length ((r, h) :: l)) with (S (length l)). rewrite Heq'. out_simpl. rewrite <- Hcall.
      cbn [fst snd]. split_and!; try done. unfold ended in *.
      destruct (called accept (S i) _).2; [|done]. by rewrite <- He1, <- He2.
Qed.
End offer.

(** * The report record *)

Definition report_fields (code flags exc_addr : Z) (params : list Z) : list (Z * Z) :=
  [(ERR_NUM, code); (ERR_FLAGS, flags); (ERR_NESTED, 0); (ERR_ADDR, exc_addr);
   (ERR_CPARMS, len params)] ++
  map (λ i, (ERR_PARAMS + i * 4, nth (Z.to_nat i) params 0)) [0; 1; 2; 3; 4; 5; 6; 7; 8].

Section report.
Context {B : Build} {E : Type}.

Lemma for_in_ext {A S} (l : list A) (f g : A → S → outcome E S) s :
  (∀ a s, a ∈ l → f a s = g a s) → for_in l f s = for_in l g s.
Proof.
  revert s. induction l as [|a l IH]; intros s Hfg; cbn [for_in]; [done|].
  rewrite Hfg by by left. destruct (g a s); out_simpl; try done. apply IH. intros. apply Hfg. by right.
Qed.
Lemma report_as_fields m a code flags exc_addr params :
  a + EXCEPTION_REPORT_SIZE ≤ M32 → len params ≤ 9 →
  write_exception_report (E:=E) m a code flags exc_addr params =
  for_in (report_fields code flags exc_addr params) (λ '(off, v) m, put32_at m a off v) m.
Proof.
  intros Ha Hlen. unfold write_exception_report. rewrite Z.min_l by done.
  assert (Hp : ∀ m i v, 0 ≤ i < 9 → put_param (E:=E) a m i v = put32_at m a (ERR_PARAMS + i * 4) v).
  { intros m' i v Hi. unfold put_param, put32_at, ERR_PARAMS, EXCEPTION_REPORT_SIZE in *. arith_ok.
    by rewrite Z.add_assoc. }
  set (put := λ '(off, v) m, put32_at (E:=E) m a off v).
  assert (H1 : ∀ m, for_in (zip (range 0 (len params)) params) (λ '(i, p) m, put_param (E:=E) a m i p) m =
    for_in (map (λ '(i, p), (ERR_PARAMS + i * 4, p)) (zip (range 0 (len params)) params)) put m).
  { intros m'. rewrite for_in_map. apply for_in_ext. intros [i p] m1 Hi%elem_of_zip_l%elem_of_range.
    apply Hp. lia. }
  assert (H2 : ∀ m, for_in (range (len params) 9) (λ i m, put_param (E:=E) a m i 0) m =
    for_in (map (λ i, (ERR_PARAMS + i * 4, 0)) (range (len params) 9)) put m).
  { intros m'. rewrite for_in_map. apply for_in_ext. intros i m1 Hi%elem_of_range.
    apply Hp. pose proof (len_nonneg params). lia. }
  assert (Hl : report_fields code flags exc_addr params =
    [(ERR_NUM, code); (ERR_FLAGS, flags); (ERR_NESTED, 0); (ERR_ADDR, exc_addr); (ERR_CPARMS, len params)]
    ++ map (λ '(i, p), (ERR_PARAMS + i * 4, p)) (zip (range 0 (len params)) params)
    ++ map (λ i, (ERR_PARAMS + i * 4, 0)) (range (len params) 9)).
  { unfold report_fields. f_equal. clear -Hlen.
    do 10 (destruct params as [|? params]; [reflexivity|]). unfold len in Hlen. simpl in Hlen. lia. }
  rewrite Hl, for_in_app. subst put. cbn [for_in].
  repeat (match goal with |- put32_at ?m ?a ?o ?v ≫= _ = _ =>
            destruct (put32_at (E:=E) m a o v); out_simpl; [|done..] end).
  rewrite H1, for_in_app. destruct (for_in _ _ _); out_simpl; [|done..]. apply H2.
Qed.
Lemma write_report_ok m a code flags exc_addr params :
  mem_wf m → size m ≤ M32 → a + EXCEPTION_REPORT_SIZE ≤ size m → len params ≤ 9 →
  ∃ m', write_exception_report (E:=E) m a code flags exc_addr params = Ok m' ∧ mem_wf m' ∧
    size m' = size m ∧
    (∀ q k, apart q (Z.of_nat k) a EXCEPTION_REPORT_SIZE → read k m' q = read k m q) ∧
    ∀ off v, (off, v) ∈ report_fields code flags exc_addr params →
      read32 m' (a + off) = Some (v mod M32).
Proof.
  intros Hm Hs Ha Hlen. rewrite report_as_fields by lia.
  assert (Hin : Forall (λ x : Z * Z, 0 ≤ x.1 ∧ x.1 + 4 ≤ EXCEPTION_REPORT_SIZE)
                  (report_fields code flags exc_addr params)) by (repeat constructor; done).
  assert (Hsep : separate (report_fields code flags exc_addr params)).
  { unfold separate, report_fields. cbn [app map].
    repeat first [apply FOP_nil | apply FOP_cons | apply Forall_nil_2 | apply Forall_cons_2];
      first [by left|by right]. }
  destruct (put_fields_ok (E:=E) (report_fields code flags exc_addr params) m a EXCEPTION_REPORT_SIZE)
    as (m' & -> & Hw & Hf); try done; [eapply Forall_impl; [exact Hin|]; cbn; lia|].
  exists m'. split_and!; [done|by apply (wrote_wf _ _ _ Hw)|apply (wrote_size _ _ _ Hw)| |by apply Hf].
  intros q k Hq. apply (wrote_other _ _ _ Hw Hm), Forall_map.
  eapply Forall_impl; [exact Hin|]. unfold apart in *. cbn. lia.
Qed.
End report.

(** * An exception from the fault to its end *)

Section dispatched.
Context {B : Build} {E : Type}.

(** A CPU stopped at a fault: its usable chain, and where the heap puts the two records, away from
    the chain and from the stack below the chain. *)
Record fault_ready (s : cpu) (lo : Z) (l : list (Z * Z)) (er cr : Z)
    (h2 h3 : MemMgr.MemoryManager) : Prop := {
  rd_wf : mem_wf (mem s);
  rd_size : lo ≤ size (mem s) ≤ M32;
  rd_chain : chain (mem s) (chain_head (mem s)) l;
  rd_window : in_window (chain_head (mem s)) = true;
  rd_recs : ∀ x, x ∈ map fst l →
    lo ≤ x ∧ apart x 8 er EXCEPTION_REPORT_SIZE ∧ apart x 8 cr CONTEXT_RECORD_SIZE;
  rd_report : ∃ h1, MemMgr.alloc (E:=E) (heap s) EXCEPTION_REPORT_SIZE = Ok (Some er, h1) ∧
    MemMgr.alloc (E:=E) h1 CONTEXT_RECORD_SIZE = Ok (Some cr, h2);
  rd_free : free_exception_records (E:=E) h2 [er; cr] = Ok h3;
  rd_addrs : 0 ≤ er ∧ 0 ≤ cr ∧ er + EXCEPTION_REPORT_SIZE ≤ size (mem s) ∧
    cr + CONTEXT_RECORD_SIZE ≤ size (mem s) ∧ apart er EXCEPTION_REPORT_SIZE cr CONTEXT_RECORD_SIZE;
  rd_stack : 20 ≤ rsp (regs s) ≤ lo ∧
    apart (rsp (regs s) - 20) 20 er EXCEPTION_REPORT_SIZE ∧
    apart (rsp (regs s) - 20) 20 cr CONTEXT_RECORD_SIZE;
}.

(** The first call: the records are filled in and the innermost handler gets them. *)
Lemma dispatch_ok s fault vector ec lo l er cr h2 h3 :
  fault_ready s lo l er cr h2 h3 →
  ∃ x l' next s0 f, l = x :: l' ∧ hw_exception (E:=E) s fault vector ec = Ok (Running, s0) ∧
    frames s0 = f :: frames s ∧ fr_next_handler f = next ∧ fr_exc_report f = er ∧
    fr_ctx_record f = cr ∧ fr_allocs f = [er; cr] ∧ heap s0 = h2 ∧
    exit_code s0 = exit_code s ∧ exit_requested s0 = exit_requested s ∧
    mem_wf (mem s0) ∧ size (mem s0) = size (mem s) ∧ chain (mem s0) next l' ∧
    call_of s0 = call_to er cr x ∧
    read32 (mem s0) (er + ERR_NUM) = Some (xcpt_code_for_vector vector mod M32) ∧
    read32 (mem s0) (er + ERR_ADDR) = Some (eip fault mod M32) ∧
    (ctx_ok fault → read_context_record (E:=E) (mem s0) cr = Ok fault).
Proof.
  intros [Hm Hs Hch Hwin Hrecs (h1 & Ha1 & Ha2) Hfree (Her0 & Hcr0 & Her & Hcr & Hap) (Hsp & Hse & Hsc)].
  unfold hw_exception, try_hw_exception_dispatch. set (head := chain_head (mem s)) in *.
  unfold in_window in Hwin. unfold EXCEPTION_REPORT_SIZE, CONTEXT_RECORD_SIZE in Her, Hcr, Hap, Hse, Hsc, Hrecs.
  assert (head ≠ XCPT_CHAIN_END) as Hend by (unfold XCPT_CHAIN_END; lia).
  inversion Hch as [|r next h l' Hh Hne Hn Hl]; subst; [congruence|].
  pose proof (read_in_range _ _ _ _ Hm Hh) as Hrng. unfold XERREC_HANDLER in Hrng.
  assert (Hget : ∀ off d v, off ≤ 4 → read32 (mem s) (head + off) = Some v →
    get32_at (E:=E) (mem s) head off d = Ok v) by (intros; apply get32_at_ok; [lia|done]).
  rewrite (proj2 (Z.eqb_neq _ _) Hend). unfold in_window. rewrite Hwin. cbn [negb].
  rewrite (Hget XERREC_HANDLER _ h), (Hget XERREC_PREV _ next) by done. out_simpl.
  rewrite (proj2 (Z.eqb_neq h 0)) by done.
  unfold alloc_exception_records, expect_alloc. rewrite Ha1. out_simpl. cbn [unwrap]. out_simpl.
  rewrite Ha2. out_simpl. cbn [unwrap]. out_simpl.
  set (params := if vector =? 14 then _ else _).
  assert (len params ≤ 9) as Hlen by (unfold params; destruct (vector =? 14); done).
  set (flags := if _ || _ then EH_NONCONTINUABLE else 0).
  destruct (write_report_ok (E:=E) (mem s) er (xcpt_code_for_vector vector) flags (eip fault) params)
    as (m1 & -> & Hm1 & Hs1 & Ho1 & Hr1); [done|lia|unfold EXCEPTION_REPORT_SIZE; lia|done|]. out_simpl.
  destruct (write_context_ok (E:=E) m1 cr fault) as (m2 & -> & Hm2 & Hs2 & Ho2 & Hr2);
    [done|lia|unfold CONTEXT_RECORD_SIZE; lia|]. out_simpl.
  unfold EXCEPTION_REPORT_SIZE, CONTEXT_RECORD_SIZE in Ho1, Ho2.
  destruct (Hrecs head ltac:(by left)) as (Hlo & Hx1 & Hx2).
  edestruct (setup_ok (E:=E) (with_heap (with_mem s m2) h2)) as (m & Hset & Hm3 & Hs3 & Ho3 & Hargs);
    [| | | | | |rewrite Hset]; try (done || (cbn; unfold u32; lia)). out_simpl.
  cbn in Hs3, Ho3, Hargs.
  eexists (head, h), l', next, _, _. split; [done|]. split; [done|]. cbn. split_and!; try done; try lia.
  - eapply chain_ext; [done|]. intros x off Hx Hoff. destruct (Hrecs x ltac:(by right)) as (Hxlo & Hxe & Hxc).
    unfold apart, XERREC_PREV, XERREC_HANDLER in *. rewrite Ho3, Ho2, Ho1 by lia. done.
  - unfold call_of, call_to. cbn [rip regs rsp set_rip set_rsp mem snd fst]. f_equal.
    rewrite as_u_small by lia. exact Hargs.
  - unfold apart, ERR_NUM in *. rewrite Ho3, Ho2 by lia. apply (Hr1 ERR_NUM). by left.
  - unfold apart, ERR_ADDR in *. rewrite Ho3, Ho2 by lia. apply (Hr1 ERR_ADDR). apply list_elem_of_In. cbn. tauto.
  - intros Hok. apply read_context_ok; [unfold CONTEXT_RECORD_SIZE; lia|done|]. intros off v Hin.
    rewrite <- (Hr2 off v Hin). destruct (context_fields_ok fault) as [Hfin _].
    rewrite Forall_forall in Hfin. specialize (Hfin _ Hin). cbn in Hfin. unfold CONTEXT_RECORD_SIZE in Hfin.
    apply Ho3. unfold apart in *. lia.
Qed.
End dispatched.

(** C3: an exception is offered to its handlers.  After a fault with a usable chain the innermost
    handler is called with the exception report, its registration record and the context record
    on its stack, which hold the code of the vector, the faulting address and the registers of
    the fault; while handlers refuse, the next one of the chain is called, each with its own
    record; the first to accept resumes the CPU with the registers of the context record, and
    when all have refused the program ends with code 1.  Either way the stack of frames is that
    of before and both records have been freed. *)
Theorem exception_offered {B : Build} {E} (s : cpu) (fault : FaultContext) (vector ec lo : Z)
    (l : list (Z * Z)) (er cr : Z) (h2 h3 : MemMgr.MemoryManager)
    (guest : nat → cpu → cpu) (accept : nat → bool) :
  fault_ready (E:=E) s lo l er cr h2 h3 →
  (∀ i s, handler_run (map fst l) lo (accept i) s (guest i s)) →
  ∃ s0 s', hw_exception (E:=E) s fault vector ec = Ok (Running, s0) ∧
    read32 (mem s0) (er + ERR_NUM) = Some (xcpt_code_for_vector vector mod M32) ∧
    read32 (mem s0) (er + ERR_ADDR) = Some (eip fault mod M32) ∧
    (ctx_ok fault → read_context_record (E:=E) (mem s0) cr = Ok fault) ∧
    let '(calls, accepted) := called accept 0 (map (call_to er cr) l) in
    offer (E:=E) (length l) guest 0 s0 = Ok (calls, s') ∧
    frames s' = frames s ∧ heap s' = h3 ∧ ended (E:=E) accepted cr s s'.
Proof.
  intros Hrd Hguest. pose proof Hrd as [_ Hs _ _ Hrecs _ Hfree (Her0 & Hcr0 & Her & Hcr & _) _].
  destruct (dispatch_ok s fault vector ec lo l er cr h2 h3 Hrd) as
    (x & l' & next & s0 & f & -> & Hhw & Hfr & Hf1 & Hf2 & Hf3 & Hf4 & Hh & He1 & He2 & Hm & Hsz & Hch
     & Hcall & Hnum & Haddr & Hctx).
  unfold EXCEPTION_REPORT_SIZE, CONTEXT_RECORD_SIZE in Her, Hcr.
  destruct (offer_spec (E:=E) guest accept (map fst (x :: l')) lo Hguest l' 0 s0 f (frames s) h3)
    as (s' & Hoff & Hfs & Hh' & Hend); rewrite ?Hf1, ?Hf2, ?Hf3, ?Hf4, ?Hh; try done;
    try (unfold u32, CONTEXT_RECORD_SIZE; lia).
  { intros y Hy. split; [by right|]. apply Hrecs. by right. }
  rewrite Hf2, Hf3, Hcall in *. exists s0, s'. split_and!; try done.
  destruct (called accept 0 (map (call_to er cr) (x :: l'))) as [calls b] eqn:Hc.
  cbn [map] in Hc. rewrite Hc in *. cbn [fst snd] in *. split_and!; try done.
  unfold ended in *. destruct b; [|done]. by rewrite <- He1, <- He2.
Qed.

(** Two handlers; the inner one refuses, the outer one accepts. *)
Definition demo_words : list (Z * Z) :=
  [(TIB_BASE, 0x8F000); (0x8F000, 0x8F100); (0x8F004, 0x10100);
   (0x8F100, XCPT_CHAIN_END); (0x8F104, 0x10200)].
Definition demo_mem : GuestMemory :=
  foldl (λ m '(a, v), store_bytes m a (le_bytes 4 v)) (alloc 0x3000000) demo_words.
Definition demo_heap : MemMgr.MemoryManager := MemMgr.new 0x2000000 0x2800000.
Definition demo_cpu : cpu :=
  mk_cpu demo_mem demo_heap (mk_regs 0x10010 0x8EF00 1 2 3 4 5 6 7 0x202) [] 0 false.
Definition demo_accept (i : nat) : bool := Nat.eqb i 1.
Definition demo_guest (i : nat) (s : cpu) : cpu :=
  with_regs s (mk_regs CALLBACK_RET_TRAP 0x8EE00
                 (if demo_accept i then XCPT_CONTINUE_EXECUTION else 1) 0 0 0 0 0 0 0).
Definition demo_chain : list (Z * Z) := [(0x8F000, 0x10100); (0x8F100, 0x10200)].

Lemma demo_mem_wf : mem_wf demo_mem.
Proof.
  unfold demo_mem. generalize (alloc_wf 0x3000000 ltac:(lia)). generalize (alloc 0x3000000).
  induction demo_words as [|[a v] l IH]; intros m Hm; [done|]. cbn [foldl]. apply IH.
  apply store_bytes_wf; [done|apply le_bytes_bytes].
Qed.
Lemma demo_run lo i s : 0x8EE00 ≤ lo → handler_run (map fst demo_chain) lo (demo_accept i) s (demo_guest i s).
Proof. intros. split; try done. cbn. by destruct (demo_accept i). Qed.
Lemma exception_offered_witness :
  ∃ s0 s', hw_exception (B:=dev_profile) (E:=unit) demo_cpu demo_ctx 13 0 = Ok (Running, s0) ∧
    offer (B:=dev_profile) (E:=unit) 2 demo_guest 0 s0 =
      Ok (map (call_to 0x2000000 0x2001000) demo_chain, s') ∧ heap s' = demo_heap.
Proof.
  destruct (exception_offered (B:=dev_profile) (E:=unit) demo_cpu demo_ctx 13 0 0x8F000 demo_chain
    0x2000000 0x2001000
    (MemMgr.mk_mm [MemMgr.mk_block 0x2000000 0x1000; MemMgr.mk_block 0x2001000 0x1000] [] 0x2002000 0x2800000)
    demo_heap demo_guest demo_accept) as (s0 & s' & Hhw & _ & _ & _ & Hoff & _ & Hh & _).
  - split.
    + apply demo_mem_wf.
    + by vm_compute.
    + assert (chain_head (mem demo_cpu) = 0x8F000) as -> by by vm_compute.
      apply (chain_record _ 0x8F000 0x8F100 0x10100); [by vm_compute..|].
      apply (chain_record _ 0x8F100 XCPT_CHAIN_END 0x10200); [by vm_compute..|constructor].
    + by vm_compute.
    + intros x [->|[->|[]%elem_of_nil]%elem_of_cons]%elem_of_cons; unfold apart; cbn; lia.
    + exists (MemMgr.mk_mm [MemMgr.mk_block 0x2000000 0x1000] [] 0x2001000 0x2800000).
      split; by vm_compute.
    + by vm_compute.
    + change (size (mem demo_cpu)) with 0x3000000.
      unfold apart, EXCEPTION_REPORT_SIZE, CONTEXT_RECORD_SIZE. lia.
    + unfold apart, EXCEPTION_REPORT_SIZE, CONTEXT_RECORD_SIZE. cbn. lia.
  - intros i s. by apply demo_run.
  - by exists s0, s'.
Defined.

(** * The API calls *)

Section calls.
Context {B : Build} {E : Type}.

Definition tib_slot : Z := TIB_BASE + TIB_EXCHAIN_OFFSET.
Lemma set_chain_head_ok m v : mem_wf m → tib_slot + 4 ≤ size m → u32 v →
  ∃ m', set_chain_head (E:=E) m v = Ok m' ∧ mem_wf m' ∧ size m' = size m ∧ chain_head m' = v ∧
    ∀ q k, apart q (Z.of_nat k) tib_slot 4 → read k m' q = read k m q.
Proof.
  intros Hm Hs Hv. unfold set_chain_head. fold tib_slot.
  pose proof (write_ok 4 m tib_slot v) as Hw. rewrite Hw by (apply Hm || lia).
  specialize (Hw ltac:(apply Hm) ltac:(lia)). eexists. split; [done|].
  split; [exact (write_wf _ _ _ _ _ Hm Hw)|]. split; [exact (write_size _ _ _ _ _ Hw)|]. split.
  - unfold chain_head. fold tib_slot. rewrite (read_write_same _ _ _ _ _ Hm Hw). by apply Z.mod_small.
  - intros q k Hq. exact (read_write_other _ _ _ _ _ _ _ Hm Hw Hq).
Qed.
Lemma chain_head_u32 m : mem_wf m → u32 (chain_head m).
Proof.
  intros Hm. unfold chain_head. destruct (read32 m _) eqn:Hr; [|done]. by eapply read32_u32.
Qed.
Lemma get32_default m a off d : mem_wf m → a + off < M32 → u32 d →
  ∃ v, get32_at (E:=E) m a off d = Ok v ∧ u32 v.
Proof.
  intros Hm Ha Hd. unfold get32_at. arith_ok. eexists. split; [done|].
  destruct (read32 m _) eqn:Hr; [|done]. by eapply read32_u32.
Qed.
Lemma unwind_loop_ok fuel m p cur steps : mem_wf m → u32 cur → 0 ≤ steps → 257 ≤ steps + Z.of_nat fuel →
  (0 < fuel)%nat → ∃ c, unwind_loop (E:=E) fuel m p cur steps = Ok c.
Proof.
  intros Hm. revert cur steps. induction fuel as [|fuel IH]; intros cur steps Hc Hs0 Hs Hf; [lia|].
  cbn [unwind_loop]. destruct (_ && _); [|by eexists].
  destruct (Z.ltb_spec 256 (steps + 1)); [by eexists|].
  destruct (get32_default m cur XERREC_PREV XCPT_CHAIN_END) as (v & -> & Hv); [done| |done|].
  { unfold u32, XERREC_PREV in *. lia. }
  out_simpl. apply IH; [done|lia..].
Qed.
End calls.

(** Unwinding ends.  Whatever the chain, cyclic ones included, DosUnwindException returns 0
    (no panic, at most 257 turns of its loop) and makes its record the head of the chain; it
    changes nothing else. *)
Theorem unwind_ends {B : Build} {E} (m : GuestMemory) (p reserved p_exc_rec data : Z) :
  mem_wf m → tib_slot + 4 ≤ size m → u32 p →
  ∃ m', dos_unwind_exception (E:=E) m p reserved p_exc_rec data = Ok (0, m') ∧
    chain_head m' = p ∧ mem_wf m' ∧ size m' = size m ∧
    ∀ q k, apart q (Z.of_nat k) tib_slot 4 → read k m' q = read k m q.
Proof.
  intros Hm Hs Hp. unfold dos_unwind_exception.
  destruct (unwind_loop_ok (E:=E) 257 m p (chain_head m) 0 Hm) as [c ->];
    [by apply chain_head_u32|lia..|]. out_simpl.
  destruct (set_chain_head_ok (E:=E) m p Hm Hs Hp) as (m' & -> & ? & ? & ? & ?). out_simpl.
  exists m'. by split_and!.
Qed.
(** A record linked to itself. *)
Definition cyclic_mem : GuestMemory :=
  foldl (λ m '(a, v), store_bytes m a (le_bytes 4 v)) (alloc 0x100000)
    [(TIB_BASE, 0x8F000); (0x8F000, 0x8F000); (0x8F004, 0x10100)].
Lemma unwind_ends_witness :
  ∃ m', dos_unwind_exception (B:=dev_profile) (E:=unit) cyclic_mem 0x8F100 0 0 0 = Ok (0, m') ∧
    chain_head m' = 0x8F100.
Proof.
  destruct (unwind_ends (B:=dev_profile) (E:=unit) cyclic_mem 0x8F100 0 0 0) as (m' & H1 & H2 & _).
  - unfold cyclic_mem. cbn [foldl]. repeat (apply store_bytes_wf; [|apply le_bytes_bytes]).
    by apply alloc_wf.
  - by vm_compute.
  - done.
  - exists m'. split; [exact H1|exact H2].
Defined.

(** Registering is a push and deregistering a pop.  DosSetExceptionHandler on a record that
    lies in memory apart from the chain puts its handler in front of the handlers there were, and
    DosUnsetExceptionHandler of that record brings the chain back; the null record is refused
    with 87 and nothing changes. *)
Theorem handlers_stack {B : Build} {E} (m : GuestMemory) (r h : Z) (l : list (Z * Z)) :
  mem_wf m → tib_slot + 4 ≤ size m ≤ M32 → 0 < r → apart r 8 tib_slot 4 →
  chain m (chain_head m) l → (∀ x, x ∈ map fst l → apart x 8 r 8 ∧ apart x 8 tib_slot 4) →
  read32 m (r + XERREC_HANDLER) = Some h → h ≠ 0 →
  ∃ m1 m2, dos_set_exception_handler (E:=E) m r = Ok (0, m1) ∧
    chain_head m1 = r ∧ chain m1 r ((r, h) :: l) ∧
    dos_unset_exception_handler (E:=E) m1 r = Ok (0, m2) ∧
    chain_head m2 = chain_head m ∧ chain m2 (chain_head m) l ∧
    dos_set_exception_handler (E:=E) m 0 = Ok (ERROR_INVALID_PARAMETER, m) ∧
    dos_unset_exception_handler (E:=E) m 0 = Ok (ERROR_INVALID_PARAMETER, m).
Proof.
  intros Hm Hs Hr0 Hrt Hch Hrecs Hh Hne.
  pose proof (read_in_range _ _ _ _ Hm Hh) as Hrng. unfold XERREC_HANDLER in Hrng.
  assert (u32 r) as Hru by (unfold u32; lia). pose proof (chain_head_u32 m Hm) as Hcu.
  unfold dos_set_exception_handler. rewrite (proj2 (Z.eqb_neq r 0)) by lia.
  destruct (put32_at_ok (E:=E) m r XERREC_PREV (chain_head m) Hm) as (m0 & -> & Hw & Hr);
    [lia|unfold XERREC_PREV; lia|]. out_simpl.
  pose proof (wrote_wf _ _ _ Hw Hm) as Hm0. pose proof (wrote_size _ _ _ Hw) as Hs0.
  destruct (set_chain_head_ok (E:=E) m0 r Hm0) as (m1 & -> & Hm1 & Hs1 & Hc1 & Ho1); [lia|done|]. out_simpl.
  assert (Hsame : ∀ q k, apart q (Z.of_nat k) r 4 → apart q (Z.of_nat k) tib_slot 4 →
    read k m1 q = read k m q).
  { intros q k Hq Hqt. rewrite Ho1 by done. apply (wrote_other _ _ _ Hw Hm), Forall_singleton.
    unfold XERREC_PREV, apart in *. lia. }
  assert (Hprev : read32 m1 (r + XERREC_PREV) = Some (chain_head m)).
  { rewrite Ho1, Hr by (unfold apart, XERREC_PREV in *; lia). f_equal. by apply Z.mod_small. }
  assert (Hchain : ∀ m', (∀ q k, apart q (Z.of_nat k) r 8 → apart q (Z.of_nat k) tib_slot 4 →
    read k m' q = read k m q) → chain m' (chain_head m) l).
  { intros m' Heq. eapply chain_ext; [done|]. intros x off Hx Hoff. destruct (Hrecs x Hx).
    apply Heq; unfold apart, XERREC_PREV, XERREC_HANDLER in *; lia. }
  destruct (set_chain_head_ok (E:=E) m1 (chain_head m) Hm1) as (m2 & Hset & Hm2 & Hs2 & Hc2 & Ho2);
    [lia|done|].
  assert (dos_unset_exception_handler (E:=E) m1 r = Ok (0, m2)) as Hun.
  { unfold dos_unset_exception_handler. rewrite (proj2 (Z.eqb_neq r 0)) by lia.
    rewrite (get32_at_ok m1 r XERREC_PREV _ _ ltac:(unfold XERREC_PREV; lia) Hprev). out_simpl.
    by rewrite Hset. }
  exists m1, m2. split_and!; try done.
  - apply chain_record with (chain_head m); try done.
    + rewrite Hsame; [done|unfold apart, XERREC_HANDLER in *; lia..].
    + apply Hchain. intros. apply Hsame; unfold apart in *; lia.
  - apply Hchain. intros q k Hq Hqt. rewrite Ho2 by done. apply Hsame; unfold apart in *; lia.
Qed.

(** The demo chain, and a third record pushed and popped. *)
Definition demo_mem3 : GuestMemory := store_bytes demo_mem 0x8E004 (le_bytes 4 0x10300).
Lemma handlers_stack_witness :
  ∃ m1 m2, dos_set_exception_handler (B:=dev_profile) (E:=unit) demo_mem3 0x8E000 = Ok (0, m1) ∧
    chain m1 0x8E000 ((0x8E000, 0x10300) :: demo_chain) ∧
    dos_unset_exception_handler (B:=dev_profile) (E:=unit) m1 0x8E000 = Ok (0, m2) ∧
    chain_head m2 = 0x8F000.
Proof.
  assert (chain_head demo_mem3 = 0x8F000) as Hc by by vm_compute.
  destruct (handlers_stack (B:=dev_profile) (E:=unit) demo_mem3 0x8E000 0x10300 demo_chain)
    as (m1 & m2 & H1 & _ & H2 & H3 & H4 & _); rewrite ?Hc in *.
  - apply store_bytes_wf; [apply demo_mem_wf|apply le_bytes_bytes].
  - by vm_compute.
  - done.
  - unfold apart. vm_compute. by left.
  - apply (chain_record _ 0x8F000 0x8F100 0x10100); [by vm_compute..|].
    apply (chain_record _ 0x8F100 XCPT_CHAIN_END 0x10200); [by vm_compute..|constructor].
  - intros x [->|[->|[]%elem_of_nil]%elem_of_cons]%elem_of_cons; unfold apart, tib_slot, TIB_BASE, TIB_EXCHAIN_OFFSET; cbn; lia.
  - by vm_compute.
  - done.
  - exists m1, m2. split; [exact H1|]. split; [exact H2|]. split; [exact H3|exact H4].
Defined.

(** The outcomes of DosRaiseException.  The null report is refused with 87, a chain that is
    empty or starts outside the guest's window with 215, a chain whose first record has no handler
    with 87; none of these changes memory or heap.  Otherwise the result is the call of the first
    handler, with the caller's report, the head of the chain, and a context record from the heap
    that holds the address in the report and no registers. *)
Theorem raise_outcomes {B : Build} {E} (m : GuestMemory) (h : MemMgr.MemoryManager) (p : Z) :
  mem_wf m → size m ≤ M32 → p + ERR_ADDR < M32 →
  let head := chain_head m in
  let usable := negb (head =? XCPT_CHAIN_END) && in_window head in
  let handler := default 0 (read32 m (head + XERREC_HANDLER)) in
  let result := dos_raise_exception (E:=E) m h p in
  (p = 0 → result = Ok (Normal ERROR_INVALID_PARAMETER, m, h)) ∧
  (p ≠ 0 → usable = false → result = Ok (Normal ERROR_NESTING_NOT_ALLOWED, m, h)) ∧
  (p ≠ 0 → usable = true → handler = 0 → result = Ok (Normal ERROR_INVALID_PARAMETER, m, h)) ∧
  (p ≠ 0 → usable = true → handler ≠ 0 → ∀ cr h2,
     MemMgr.alloc (E:=E) h CONTEXT_RECORD_SIZE = Ok (Some cr, h2) →
     cr + CONTEXT_RECORD_SIZE ≤ size m →
     ∃ m' c next, result =
       Ok (ExceptionDispatch (mk_dispatch handler p head cr c next [cr]), m', h2) ∧
       c = raised_fault (default 0 (read32 m (p + ERR_ADDR))) ∧
       read_context_record (E:=E) m' cr = Ok c ∧
       ∀ q k, apart q (Z.of_nat k) cr CONTEXT_RECORD_SIZE → read k m' q = read k m q).
Proof.
  intros Hm Hs Hp head usable handler result. unfold ERR_ADDR in Hp.
  assert (Hget : ∀ a off d, a + off < M32 →
    get32_at (E:=E) m a off d = Ok (default d (read32 m (a + off)))).
  { intros a off d Ho. unfold get32_at. by arith_ok. }
  unfold result, dos_raise_exception. fold head.
  destruct (Z.eqb_spec p 0) as [->|Hp0]; [by split_and!|].
  rewrite !(Hget p) by (unfold ERR_NUM, ERR_FLAGS, ERR_ADDR; lia). out_simpl.
  unfold usable, in_window. fold (in_window head).
  destruct (Z.eqb_spec head XCPT_CHAIN_END); cbn [negb andb]; [by split_and!|].
  destruct (in_window head) eqn:Hwin; cbn [negb andb]; [|by split_and!].
  unfold in_window in Hwin.
  rewrite !Hget by (unfold XERREC_HANDLER, XERREC_PREV; lia). out_simpl. fold handler.
  destruct (Z.eqb_spec handler 0); [by split_and!|]. split_and!; try done.
  intros _ _ _ cr h2 Ha Hcr. unfold expect_alloc. rewrite Ha. out_simpl. cbn [unwrap]. out_simpl.
  set (c := raised_fault _).
  destruct (write_context_ok (E:=E) m cr c Hm Hs Hcr) as (m' & -> & Hm' & Hs' & Ho & Hf). out_simpl.
  eexists m', c, _. split; [done|]. split; [done|]. split; [|done].
  apply read_context_ok; [lia| |done].
  assert (u32 (default 0 (read32 m (p + ERR_ADDR)))).
  { destruct (read32 m (p + ERR_ADDR)) eqn:Hr; [exact (read32_u32 _ _ _ Hm Hr)|done]. }
  subst c. split; cbn; repeat (apply Forall_cons_2; [assumption || by unfold u32|]); apply Forall_nil_2.
Qed.
Lemma raise_outcomes_witness :
  dos_raise_exception (B:=dev_profile) (E:=unit) demo_mem demo_heap 0 =
    Ok (Normal ERROR_INVALID_PARAMETER, demo_mem, demo_heap) ∧
  dos_raise_exception (B:=dev_profile) (E:=unit) (alloc 0x100000) demo_heap 0x8D000 =
    Ok (Normal ERROR_NESTING_NOT_ALLOWED, alloc 0x100000, demo_heap) ∧
  ∃ m' c next, dos_raise_exception (B:=dev_profile) (E:=unit) demo_mem demo_heap 0x8D000 =
    Ok (ExceptionDispatch (mk_dispatch 0x10100 0x8D000 0x8F000 0x2000000 c next [0x2000000]), m',
        MemMgr.mk_mm [MemMgr.mk_block 0x2000000 0x1000] [] 0x2001000 0x2800000).
Proof.
  split; [|split].
  - destruct (raise_outcomes (B:=dev_profile) (E:=unit) demo_mem demo_heap 0)
      as (H & _); [apply demo_mem_wf|by vm_compute..|]. by apply H.
  - destruct (raise_outcomes (B:=dev_profile) (E:=unit) (alloc 0x100000) demo_heap 0x8D000)
      as (_ & H & _); [by apply alloc_wf|by vm_compute..|]. apply H; [done|by vm_compute].
  - destruct (raise_outcomes (B:=dev_profile) (E:=unit) demo_mem demo_heap 0x8D000)
      as (_ & _ & _ & H); [apply demo_mem_wf|by vm_compute..|].
    destruct (H ltac:(done) ltac:(by vm_compute) ltac:(by vm_compute) 0x2000000
      (MemMgr.mk_mm [MemMgr.mk_block 0x2000000 0x1000] [] 0x2001000 0x2800000)
      ltac:(by vm_compute) ltac:(by vm_compute)) as (m' & c & next & Hr & _).
    assert (chain_head demo_mem = 0x8F000) as Hc by by vm_compute. rewrite Hc in Hr.
    exists m', c, next. exact Hr.
Defined.

(** A handler that accepts a raised exception resumes after the call with EAX 0, the code for
    success, but the registers a callee must preserve are 0 as well. *)
Definition raise_and_accept (s : cpu) (p : Z) : outcome unit (status * cpu) :=
  '(r, m, h) ← dos_raise_exception (B:=dev_profile) (mem s) (heap s) p;
  match r with
  | Normal _ => Panic
  | ExceptionDispatch d =>
    s ← api_exception_dispatch (B:=dev_profile) (with_heap (with_mem s m) h) d;
    callback_returned (B:=dev_profile) (demo_guest 1 s)
  end.
Lemma raise_loses_registers :
  let s := with_mem demo_cpu (store_bytes demo_mem 0x8EF00 (le_bytes 4 0x10020)) in
  (fst ∘ fst) <$> (raise_and_accept s 0x8D000 ≫= λ '(st, s'), Ok (regs s', st, tt)) =
  Ok (mk_regs 0x10020 0x8EF04 0 0 0 0 0 0 0 2) ∧
  (rbx (regs s), rsi (regs s), rdi (regs s), rbp (regs s)) = (2, 5, 6, 7).
Proof. by vm_compute. Qed.
(** DosUnwindException of the null record, "the chain end if 0", leaves a null head, not the end
    mark. *)
Lemma unwind_null_head :
  chain_head <$> (snd <$> dos_unwind_exception (B:=dev_profile) (E:=unit) demo_mem 0 0 0 0) = Ok 0.
Proof. by vm_compute. Qed.
