(* ===== verification/Startup.v ===== *)
(** How a program is started: [setup_guest], [create_initial_vcpu] and the segment registers of
    src/src/loader/vcpu.rs for a 32-bit program, with the parts that the 16-bit loader
    (src/src/loader/ne_exec.rs) repeats: the environment block, the thread and process
    information blocks, and the BIOS data area.

    The registers and segment registers are those of [Seh]; the table registers and the control
    registers are a record of their own. *)
From S2P Require Import Prelude Bytes Constants GuestMem HostFs Seh Descriptors.
From S2P Require LxFile LxHeader MemMgr.

(** * Writing many cells *)

(** [guest_write::<uN>(a, v).unwrap()] for each [(n, a, v)]. *)
Definition write_all (l : list (nat * Z * Z)) (m : GuestMemory) : mem GuestMemory :=
  for_in l (λ '(n, a, v) m, unwrap (write n m a v)) m.
(** [0..n] filled with a byte, from [a]. *)
Definition fill (n a v : Z) (m : GuestMemory) : mem GuestMemory :=
  for_range (Z.to_nat n) 0 (λ i m, unwrap (write8 m (a + i) v)) m.

Section startup.
Context {B : Build}.
(** [char::to_uppercase] *)
Context (to_uppercase : Z → rstring).

(** The name of the program as the guest sees it; [exe_name] is the host path. *)
Definition os2_exe (exe_name : rstring) : rstring :=
  if bool_decide (exe_name = []) then str "C:\APP.EXE"
  else
    let basename := match file_name (pieces exe_name) with
                    | Some f => flat_map to_uppercase f
                    | None => str "APP.EXE"
                    end in
    str "C:\" ++ basename.

(** The environment block: the variables, an empty string, the program name. *)
Definition env_vars (vars : list string) : bytes :=
  flat_map (λ v, str v ++ [0]) vars ++ [0].
Definition env_block (vars : list string) (exe : rstring) : bytes :=
  env_vars vars ++ as_bytes exe ++ [0].
Definition LX_ENV : list string := ["PATH=C:\"; "COMSPEC=C:\4OS2.EXE"; "OS=OS2"; "TMP=C:\TMP"]%string.
Definition NE_ENV : list string := ["PATH=C:\"; "COMSPEC=C:\CMD.EXE"; "OS=OS2"]%string.

(** It goes to the heap; the result also has its address and that of the program name. *)
Definition place_env (vars : list string) (exe_name : rstring) (h : MemMgr.MemoryManager)
    (m : GuestMemory) : mem (Z * Z * MemMgr.MemoryManager * GuestMemory) :=
  let block := env_block vars (os2_exe exe_name) in
  '(r, h) ← MemMgr.alloc h (as_u M32 (len block));
  env_addr ← unwrap r;
  cmdline_addr ← uadd M32 env_addr (as_u M32 (len (env_vars vars)));
  m ← unwrap (write_bytes m env_addr block);
  Ok (env_addr, cmdline_addr, h, m).

(** The thread and process information blocks. *)
Definition TIB2 := TIB_BASE + 0x40.
Definition info_cells (env_addr cmdline_addr : Z) : list (nat * Z * Z) := [
  (4%nat, TIB_BASE + 0x0C, TIB2); (4%nat, TIB_BASE + 0x18, TIB_BASE);
  (4%nat, TIB_BASE + 0x30, PIB_BASE); (4%nat, TIB2, 1); (4%nat, TIB2 + 0x04, 0);
  (4%nat, PIB_BASE, 42); (4%nat, PIB_BASE + 0x0C, cmdline_addr); (4%nat, PIB_BASE + 0x10, env_addr)].

(** The BIOS data area, from the size of the console. *)
Definition bda_cells (cols page last_row : Z) : list (nat * Z * Z) := [
  (1%nat, 0x449, 0x03); (2%nat, 0x44A, cols); (2%nat, 0x44C, page); (2%nat, 0x44E, 0);
  (2%nat, 0x450, 0); (1%nat, 0x462, 0); (2%nat, 0x463, 0x3D4); (1%nat, 0x484, as_u M8 last_row);
  (2%nat, 0x485, 16)].
Definition setup_bda (rows cols : Z) (m : GuestMemory) : mem GuestMemory :=
  cells ← umul M16 cols rows;
  page ← umul M16 cells 2;
  last_row ← usub M16 rows 1;
  write_all (bda_cells cols page last_row) m.

(** The low memory: the blocks above, after the empty exception chain of a 32-bit program; the
    BIOS area; the stubs; the descriptor tables. *)
Definition chain_end : list (nat * Z * Z) := [(4%nat, TIB_BASE + TIB_EXCHAIN_OFFSET, XCPT_CHAIN_END)].
Definition setup_low (l : list (nat * Z * Z)) (rows cols : Z) (m : GuestMemory) : mem GuestMemory :=
  m ← write_all l m;
  m ← setup_bda rows cols m;
  m ← setup_stubs m;
  setup_idt m.

(** [base_address + offset] of an object of the table, numbered from 1, as a u64. *)
Definition in_object (f : LxFile.LxFile) (object offset : Z) : mem Z :=
  i ← usub M64 object 1;
  obj ← unwrap (idx (LxFile.object_table f) i);
  Ok (LxHeader.base_address obj + offset).

(** [setup_guest]: the entry, the stack, the TIB, and what it changed. *)
Definition setup_guest (f : LxFile.LxFile) (exe_name : rstring) (rows cols : Z)
    (h : MemMgr.MemoryManager) (m : GuestMemory)
    : mem (Z * Z * Z * MemMgr.MemoryManager * GuestMemory) :=
  entry_eip ← in_object f (LxHeader.eip_object (LxFile.header f)) (LxHeader.eip (LxFile.header f));
  entry_esp ← in_object f (LxHeader.esp_object (LxFile.header f)) (LxHeader.esp (LxFile.header f));
  '(env_addr, cmdline_addr, h, m) ← place_env LX_ENV exe_name h m;
  m ← setup_low (chain_end ++ info_cells env_addr cmdline_addr) rows cols m;
  Ok (entry_eip, entry_esp, TIB_BASE, h, m).

(** ** The first virtual CPU *)

(** The fields of [GuestSregs] other than the segments. *)
Record table_regs := mk_tables {
  gdt_base : Z; gdt_limit : Z; idt_base : Z; idt_limit : Z; cr0 : Z; cr4 : Z }.
Definition GDT_ENTRY_COUNT := 6 + NUM_TILES + NUM_CODE_TILES.
Definition GDT_SIZE := GDT_ENTRY_COUNT * 8.

(** [setup_vcpu_segments_32bit]: from the flat code segment, whose other fields stay, come the
    data segments, and from these FS. *)
Definition flat_code (s : GuestSegment) : GuestSegment :=
  mk_seg 0 0xFFFFFFFF 0x08 11 1 (dpl s) 1 1 (seg_l s) 1 (avl s) (unusable s).
Definition with_type_sel (s : GuestSegment) (ty sel : Z) : GuestSegment :=
  mk_seg (base s) (limit s) sel ty (present s) (dpl s) (db s) (seg_s s) (seg_l s) (seg_g s)
         (avl s) (unusable s).
Definition with_window (s : GuestSegment) (b l sel : Z) : GuestSegment :=
  mk_seg b l sel (type_ s) (present s) (dpl s) (db s) (seg_s s) (seg_l s) (seg_g s) (avl s)
         (unusable s).
Definition setup_vcpu_segments_32bit (tib_base : Z) (s : GuestSregs) (t : table_regs)
    : GuestSregs * table_regs :=
  let cs := flat_code (sr_cs s) in
  let ds := with_type_sel cs 3 0x10 in
  let fs := with_window ds tib_base 0xFFF 0x18 in
  (mk_sregs cs ds ds fs ds ds,
   mk_tables GDT_BASE (GDT_SIZE - 1) IDT_BASE (32 * 8 - 1)
     (Z.land (Z.land (Z.lor (Z.lor (cr0 t) 1) (Z.shiftl 1 5)) (Z.lnot (Z.shiftl 1 2)))
             (Z.lnot (Z.shiftl 1 3)))
     (Z.lor (cr4 t) (Z.shiftl 1 9))).

(** [create_initial_vcpu], from the registers of the new CPU: a stack of the return address,
    the module handle, a reserved word, the environment and the command line. *)
Definition start_regs (r : GuestRegs) (ip sp : Z) : GuestRegs :=
  mk_regs ip sp (rax r) (rbx r) (rcx r) (rdx r) (rsi r) (rdi r) (rbp r) 2.
Definition push_args (m : GuestMemory) (sp : Z) : mem GuestMemory :=
  let cmdline_addr := default ENV_ADDR (read32 m (PIB_BASE + 0x0C)) in
  let env_addr := default ENV_ADDR (read32 m (PIB_BASE + 0x10)) in
  m ← unwrap (write32 m sp EXIT_TRAP_ADDR);
  m ← put32_at m sp 4 0;
  m ← put32_at m sp 8 0;
  m ← put32_at m sp 12 env_addr;
  put32_at m sp 16 cmdline_addr.
Definition create_initial_vcpu (entry_eip entry_esp : Z) (r : GuestRegs) (s : GuestSregs)
    (t : table_regs) (m : GuestMemory) : mem (GuestRegs * GuestSregs * table_regs * GuestMemory) :=
  let '(s, t) := setup_vcpu_segments_32bit TIB_BASE s t in
  rsp ← usub M64 entry_esp 20;
  m ← push_args m (as_u M32 rsp);
  Ok (start_regs r entry_eip rsp, s, t, m).
End startup.

(** * Lemmas *)

Definition apart (c d : nat * Z * Z) : Prop :=
  c.1.2 + Z.of_nat c.1.1 ≤ d.1.2 ∨ d.1.2 + Z.of_nat d.1.1 ≤ c.1.2.
Definition inside (lo hi : Z) (c : nat * Z * Z) : Prop :=
  lo ≤ c.1.2 ∧ c.1.2 + Z.of_nat c.1.1 ≤ hi.
Definition holds (m : GuestMemory) (c : nat * Z * Z) : Prop :=
  read c.1.1 m c.1.2 = Some (c.2 mod 256 ^ Z.of_nat c.1.1).
#[export] Instance apart_dec c d : Decision (apart c d).
Proof. unfold apart. apply _. Defined.
#[export] Instance inside_dec lo hi c : Decision (inside lo hi c).
Proof. unfold inside. apply _. Defined.

(** The cells do not overlap (a decidable form, for concrete lists). *)
Fixpoint all_apart (l : list (nat * Z * Z)) : Prop :=
  match l with [] => True | c :: l => Forall (apart c) l ∧ all_apart l end.
#[export] Instance all_apart_dec l : Decision (all_apart l).
Proof. induction l; simpl; apply _. Defined.

Lemma changed_keeps lo hi m m' c :
  changed_in lo hi m m' → holds m c → c.1.2 + Z.of_nat c.1.1 ≤ lo ∨ hi ≤ c.1.2 → holds m' c.
Proof. intros Hc Hh Ho. unfold holds. by rewrite (ch_read _ _ _ _ Hc). Qed.
(** A write changes its cell only. *)
Lemma write_cell lo hi m c :
  mem_wf m → hi ≤ GuestMem.size m → inside lo hi c →
  ∃ m', unwrap (E:=()) (write c.1.1 m c.1.2 c.2) = Ok m' ∧ changed_in lo hi m m' ∧ holds m' c ∧
    ∀ d, apart c d → holds m d → holds m' d.
Proof.
  destruct c as [[n a] v]. cbn [fst snd inside]. intros Hm Hs [Hlo Hhi].
  cbn [fst snd] in *. destruct (write_step a (a + Z.of_nat n) n m a v Hm) as (m' & Hw & Hc & Hr); [lia..|].
  exists m'. split; [done|]. split; [eapply changed_mono; [..|exact Hc]; lia|]. split; [done|].
  intros [[k b] w] Hd Hh. eapply changed_keeps; [exact Hc|done|]. unfold apart in Hd. simpl in *. lia.
Qed.
Lemma write_all_cons n a v l m :
  write_all ((n, a, v) :: l) m = (m ← unwrap (write n m a v); write_all l m).
Proof. done. Qed.
(** Cells apart from each other hold what was written to them. *)
Lemma write_all_ok lo hi l m :
  mem_wf m → hi ≤ GuestMem.size m → Forall (inside lo hi) l → all_apart l →
  ∃ m', write_all l m = Ok m' ∧ changed_in lo hi m m' ∧ Forall (holds m') l ∧
    ∀ d, Forall (λ c, apart c d) l → holds m d → holds m' d.
Proof.
  intros Hm Hs Hi Ha. revert m Hm Hs. induction Hi as [|c l Hc Hi IH]; intros m Hm Hs.
  { exists m. split; [done|]. split; [by apply changed_refl|]. by split. }
  destruct Ha as [Hcl Ha]. destruct (write_cell lo hi m c) as (m1 & Hw & H1 & Hh & Hk); [done..|].
  destruct c as [[n a] v]. cbn [fst snd] in Hw. rewrite write_all_cons, Hw. out_simpl.
  destruct (IH Ha m1) as (m' & -> & H2 & Hl & Hk2); [apply H1|by rewrite (ch_size _ _ _ _ H1)|].
  exists m'. split; [done|]. split; [by eapply changed_trans|]. split.
  - constructor; [|done]. apply Hk2; [|done]. eapply Forall_impl; [exact Hcl|].
    intros d [?|?]; [by right|by left].
  - intros d [Hd Hds]%Forall_cons Hm0. apply Hk2; [done|]. by apply Hk.
Qed.

(** A filled range. *)
Lemma for_range_fill n i a v m :
  mem_wf m → a + i + Z.of_nat n ≤ GuestMem.size m → is_byte v →
  ∃ m', for_range n i (λ i m, unwrap (write8 m (a + i) v)) m = Ok m' ∧
    changed_in (a + i) (a + i + Z.of_nat n) m m' ∧
    ∀ j, i ≤ j < i + Z.of_nat n → read8 m' (a + j) = Some v.
Proof.
  intros Hm Hsz Hv. revert i m Hm Hsz. induction n as [|n IH]; intros i m Hm Hsz; cbn [for_range].
  { exists m. split; [done|]. split; [by apply changed_refl|lia]. }
  destruct (write_step (a + i) (a + i + Z.of_nat (S n)) 1 m (a + i) v Hm) as (m1 & -> & Hc & Hr); [lia..|].
  out_simpl. destruct (IH (i + 1) m1) as (m' & -> & Hc' & Hall);
    [apply Hc|rewrite (ch_size _ _ _ _ Hc); lia|].
  exists m'. split; [done|]. split.
  - eapply changed_trans; [exact Hc|]. eapply changed_mono; [..|exact Hc']; lia.
  - intros j Hj. destruct (decide (j = i)) as [->|]; [|apply Hall; lia].
    rewrite (ch_read _ _ _ _ Hc') by lia. rewrite Hr. by rewrite Z.mod_small.
Qed.
Lemma setup_stubs_ok m :
  mem_wf m → MAGIC_API_BASE + STUB_AREA_SIZE ≤ GuestMem.size m →
  ∃ m', setup_stubs m = Ok m' ∧
    changed_in MAGIC_API_BASE (MAGIC_API_BASE + STUB_AREA_SIZE) m m' ∧
    ∀ j, 0 ≤ j < STUB_AREA_SIZE → read8 m' (MAGIC_API_BASE + j) = Some 0xCC.
Proof.
  unfold setup_stubs, STUB_AREA_SIZE. intros Hm Hs.
  destruct (for_range_fill (Z.to_nat 16384) 0 MAGIC_API_BASE 0xCC m) as (m' & -> & Hc & Hr);
    [done|lia|done|].
  exists m'. split; [done|]. split; [|intros; apply Hr; lia]. eapply changed_mono; [..|exact Hc]; lia.
Qed.

(** Memory read as bytes does not see a change elsewhere. *)
Lemma changed_slice lo hi m m' a n :
  mem_wf m → changed_in lo hi m m' → a + n ≤ lo ∨ hi ≤ a → 0 ≤ n →
  slice_mut m' a n = slice_mut m a n.
Proof.
  intros Hm Hc Ho Hn. unfold slice_mut.
  assert (ptr_at m' a n = ptr_at m a n) as -> by (unfold ptr_at; by rewrite (ch_size _ _ _ _ Hc)).
  destruct (ptr_at m a n) as [p|] eqn:Hp; simpl; [|done].
  apply ptr_at_Some in Hp as [-> Hin]; [|apply Hm]. f_equal.
  pose proof (ch_read _ _ _ _ Hc a (Z.to_nat n) ltac:(lia)) as Hr.
  pose proof (ch_size _ _ _ _ Hc) as Hsz. pose proof (mem_size m Hm).
  rewrite !read_ok in Hr by lia. injection Hr as Hr.
  rewrite <- (le_bytes_val (load_bytes m' a (Z.to_nat n))) by (apply load_bytes_bytes, Hc).
  rewrite <- (le_bytes_val (load_bytes m a (Z.to_nat n))) by (by apply load_bytes_bytes).
  by rewrite !length_load_bytes, Hr.
Qed.
Lemma write_slice_ok m a l :
  mem_wf m → a + len l ≤ GuestMem.size m → Forall is_byte l →
  ∃ m', unwrap (E:=()) (write_bytes m a l) = Ok m' ∧ changed_in a (a + len l) m m' ∧
        slice_mut m' a (len l) = Some l.
Proof.
  intros Hm Hs Hl. unfold write_bytes, slice_mut. pose proof (mem_size m Hm).
  rewrite (proj2 (ptr_at_Some m a (len l) a ltac:(lia))) by done. simpl.
  exists (store_bytes m a l). split; [done|]. split.
  - split; [by apply store_bytes_wf|apply store_bytes_size|]. intros o k Ho.
    unfold read, ptr_at. rewrite store_bytes_size. destruct (checked_add _ _ _); simpl; [|done].
    destruct (_ <? _); simpl; [done|]. rewrite load_store_other; [done|]. lia.
  - assert (ptr_at (store_bytes m a l) a (len l) = Some a) as ->.
    { apply ptr_at_Some; rewrite store_bytes_size; [lia|done]. }
    simpl. unfold len at 1. by rewrite Nat2Z.id, load_store_bytes.
Qed.
Lemma str_bytes s : Forall is_byte (str s).
Proof.
  unfold str. apply Forall_map, Forall_true. intros a. simpl. unfold is_byte.
  pose proof (Ascii.N_ascii_bounded a). lia.
Qed.
Lemma env_vars_bytes vars : Forall is_byte (env_vars vars).
Proof.
  unfold env_vars. apply Forall_app. split; [|by repeat constructor].
  induction vars as [|v vars IH]; cbn [flat_map]; [constructor|].
  rewrite !Forall_app. split; [|exact IH]. split; [apply str_bytes|by repeat constructor].
Qed.

Section place.
Context {B : Build} (to_uppercase : Z → rstring).
Lemma env_block_len vars exe :
  len (env_block vars exe) = len (env_vars vars) + len (as_bytes exe) + 1.
Proof. unfold env_block, len. rewrite !length_app. simpl. lia. Qed.

(** The environment block goes to fresh heap memory. *)
Lemma place_env_ok vars exe_name base h m :
  let exe := os2_exe to_uppercase exe_name in
  mem_wf m → MemMgr.inv base h → MemMgr.limit h ≤ GuestMem.size m → Forall is_char exe →
  len (env_block vars exe) ≤ 4096 → MemMgr.next_free h + 4096 ≤ MemMgr.limit h →
  ∃ env h' m', place_env to_uppercase vars exe_name h m = Ok (env, env + len (env_vars vars), h', m') ∧
    base ≤ env ∧ env + 4096 ≤ MemMgr.limit h ∧ changed_in env (env + len (env_block vars exe)) m m' ∧
    MemMgr.inv base h' ∧
    slice_mut m' env (len (env_block vars exe)) = Some (env_block vars exe).
Proof.
  intros exe Hm Hh Hlim Hc Hlen Hroom. unfold place_env. fold exe.
  pose proof (env_block_len vars exe) as Hb. pose proof (len_nonneg (as_bytes exe)).
  pose proof (len_nonneg (env_vars vars)). set (n := len (env_block vars exe)) in *.
  rewrite (as_u_small M32 n), (as_u_small M32 (len (env_vars vars))) by lia.
  destruct (MemMgr.alloc_spec (E:=()) base h n Hh ltac:(unfold u32; lia)) as (r & h' & -> & Hh' & Hl & Hr).
  out_simpl. pose proof (MemMgr.page_round n ltac:(lia)) as [Hsz Hmod].
  set (sz := Z.land (n + 4095) (Z.lnot 4095)) in *.
  assert (sz = 4096) by (pose proof (Z.div_mod sz 4096); nia).
  destruct r as [a|].
  2: { exfalso. pose proof (MemMgr.inv_range _ _ Hh). unfold MemMgr.heap_top in *.
       destruct Hr as [_ [?|[_ ?]]]; lia. }
  pose proof (MemMgr.inv_blocks _ _ Hh') as Hok. rewrite Hr, <- (assoc_L (++)) in Hok.
  apply Forall_app in Hok as [_ [Hok _]%Forall_cons]. unfold MemMgr.block_ok, MemMgr.heap_top in Hok.
  cbn [MemMgr.addr MemMgr._size] in Hok. rewrite Hl in Hok.
  pose proof (MemMgr.inv_range _ _ Hh). unfold MemMgr.heap_top in *.
  pose proof (MemMgr.inv_top _ _ Hh). unfold MemMgr.heap_top in *.
  cbn [unwrap]. out_simpl. rewrite uadd_ok by lia. out_simpl.
  destruct (write_slice_ok m a (env_block vars exe) Hm) as (m' & -> & Hch & Hs).
  { fold n. lia. }
  { unfold env_block. rewrite !Forall_app. split; [apply env_vars_bytes|].
    split; [by apply as_bytes_bytes|by repeat constructor]. }
  out_simpl. exists a, h', m'. fold n in Hch, Hs. split; [done|]. split; [lia|].
  split; [lia|]. done.
Qed.
End place.

(** A slice in two parts. *)
Lemma slice_mut_ok m p n :
  GuestMem.size m < M64 → p + n ≤ GuestMem.size m → slice_mut m p n = Some (load_bytes m p (Z.to_nat n)).
Proof.
  intros Hs Hn. unfold slice_mut. by rewrite (proj2 (ptr_at_Some m p n p Hs)).
Qed.
Lemma slice_mut_app m p (a b : bytes) :
  mem_wf m → slice_mut m p (len (a ++ b)) = Some (a ++ b) →
  slice_mut m p (len a) = Some a ∧ slice_mut m (p + len a) (len b) = Some b.
Proof.
  intros Hm. pose proof (mem_size m Hm). rewrite len_app. unfold slice_mut at 1.
  destruct (ptr_at m p _) as [q|] eqn:Hp; simpl; [|done].
  apply ptr_at_Some in Hp as [-> Hin]; [|lia]. intros [= Hl].
  pose proof (len_nonneg a). pose proof (len_nonneg b).
  rewrite Z2Nat.inj_add, load_bytes_app, Z2Nat.id in Hl by lia.
  apply app_inj_1 in Hl as [Ha Hb]; [|rewrite length_load_bytes; unfold len; lia].
  rewrite !slice_mut_ok by lia. by rewrite Ha, Hb.
Qed.

Ltac cells :=
  unfold info_cells, bda_cells; cbn [all_apart];
  repeat lazymatch goal with
         | |- Forall _ [] => apply List.Forall_nil
         | |- Forall _ (_ :: _) => apply List.Forall_cons
         | |- True => exact I
         | |- _ ∧ _ => split
         end;
  unfold apart, inside; cbn [fst snd]; unfold TIB2, TIB_BASE, PIB_BASE, TIB_EXCHAIN_OFFSET; lia.

Lemma setup_bda_ok {B : Build} rows cols m :
  mem_wf m → 0x487 ≤ GuestMem.size m → 1 ≤ rows → 0 ≤ cols → cols * rows * 2 < M16 →
  ∃ m', setup_bda rows cols m = Ok m' ∧ changed_in 0x449 0x487 m m' ∧
        Forall (holds m') (bda_cells cols (cols * rows * 2) (rows - 1)).
Proof.
  intros Hm Hs Hr Hc Hp. unfold setup_bda. rewrite umul_ok by nia. out_simpl.
  rewrite umul_ok by lia. out_simpl. rewrite usub_ok by lia. out_simpl.
  destruct (write_all_ok 0x449 0x487 (bda_cells cols (cols * rows * 2) (rows - 1)) m)
    as (m' & -> & Hch & Hh & _); [done|done|cells|cells|]. eauto.
Qed.
Lemma info_cells_ok c env cmd m :
  c = chain_end ∨ c = [] → mem_wf m → PIB_BASE + 0x14 ≤ GuestMem.size m →
  ∃ m', write_all (c ++ info_cells env cmd) m = Ok m' ∧
    changed_in TIB_BASE (PIB_BASE + 0x14) m m' ∧ Forall (holds m') (c ++ info_cells env cmd).
Proof.
  intros Hc Hm Hs. destruct (write_all_ok TIB_BASE (PIB_BASE + 0x14) (c ++ info_cells env cmd) m)
    as (m' & -> & Hch & Hh & _); [done|done| | |eauto]; destruct Hc as [-> | ->]; unfold chain_end; cbn [app]; cells.
Qed.
(** The five words of the first stack. *)
Lemma push_args_ok {B : Build} m sp env cmd :
  mem_wf m → sp + 20 ≤ GuestMem.size m → sp + 20 < M32 →
  read32 m (PIB_BASE + 0x0C) = Some cmd → read32 m (PIB_BASE + 0x10) = Some env →
  ∃ m', push_args m sp = Ok m' ∧ changed_in sp (sp + 20) m m' ∧
    Forall (holds m') [(4%nat, sp, EXIT_TRAP_ADDR); (4%nat, sp + 4, 0); (4%nat, sp + 8, 0);
                       (4%nat, sp + 12, env); (4%nat, sp + 16, cmd)].
Proof.
  intros Hm Hs Hsp Hc He. unfold push_args. rewrite Hc, He. cbn [default].
  destruct (write_all_ok sp (sp + 20)
    [(4%nat, sp, EXIT_TRAP_ADDR); (4%nat, sp + 4, 0); (4%nat, sp + 8, 0);
     (4%nat, sp + 12, env); (4%nat, sp + 16, cmd)] m) as (m' & Hw & Hch & Hh & _);
    [done|done|cells|cells|].
  exists m'. split; [|done]. rewrite <- Hw. unfold put32_at. rewrite !uadd_ok by lia. out_simpl.
  rewrite !write_all_cons. unfold write_all. cbn [for_in].
  destruct (unwrap _); out_simpl; [|done..]. destruct (unwrap _); out_simpl; [|done..].
  destruct (unwrap _); out_simpl; [|done..]. destruct (unwrap _); out_simpl; [|done..].
  by destruct (unwrap _).
Qed.

(** The low memory of a started program. *)
Definition LOW_TOP := MAGIC_API_BASE + STUB_AREA_SIZE.
Record started (c : list (nat * Z * Z)) (env cmd cols : Z) (m : GuestMemory) : Prop := {
  st_wf : mem_wf m;
  st_info : Forall (holds m) (c ++ info_cells env cmd);
  st_cols : read16 m 0x44A = Some cols;
  st_stub : ∀ j, 0 ≤ j < STUB_AREA_SIZE → read8 m (MAGIC_API_BASE + j) = Some 0xCC;
  st_tiles : ∀ i, 0 ≤ i < NUM_TILES → read64 m (GDT_BASE + (TILED_SEL_START_INDEX + i) * 8) =
    Some (make_gdt_entry (i * TILE_SIZE) 0xFFFF 0xD3 0);
  st_code_tiles : ∀ i, 0 ≤ i < NUM_CODE_TILES → read64 m (GDT_BASE + (TILED_CODE_START_INDEX + i) * 8) =
    Some (make_gdt_entry (i * TILE_SIZE) 0xFFFF 0x9B 0);
}.
Lemma info_inside c env cmd d :
  c = chain_end ∨ c = [] → d ∈ c ++ info_cells env cmd → inside TIB_BASE (PIB_BASE + 0x14) d.
Proof.
  intros Hc Hd. assert (Forall (inside TIB_BASE (PIB_BASE + 0x14)) (c ++ info_cells env cmd)) as H.
  { destruct Hc as [-> | ->]; unfold chain_end; cbn [app]; cells. }
  rewrite Forall_forall in H. by apply H.
Qed.

(** Other changes keep it: below the tables, or between the process block and the stubs, or
    above. *)
Lemma started_keeps c env cmd cols lo hi m m' :
  changed_in lo hi m m' → started c env cmd cols m → c = chain_end ∨ c = [] →
  (0x487 ≤ lo ∧ hi ≤ GDT_BASE) ∨ (PIB_BASE + 0x14 ≤ lo ∧ hi ≤ MAGIC_API_BASE) ∨ LOW_TOP ≤ lo →
  started c env cmd cols m'.
Proof.
  intros Hch [Hw Hi Hcols Hs Ht Hct] Hc Ho.
  unfold GDT_BASE, MAGIC_API_BASE, LOW_TOP, STUB_AREA_SIZE, PIB_BASE, NUM_TILES, NUM_CODE_TILES,
    TILED_CODE_START_INDEX, TILED_SEL_START_INDEX in *.
  split; unfold GDT_BASE, MAGIC_API_BASE, STUB_AREA_SIZE, NUM_TILES, NUM_CODE_TILES,
    TILED_CODE_START_INDEX, TILED_SEL_START_INDEX in *.
  - apply Hch.
  - apply Forall_forall. intros d Hin. destruct (info_inside _ _ _ _ Hc Hin) as [Hlo Hhi].
    unfold TIB_BASE, PIB_BASE in *. rewrite Forall_forall in Hi.
    eapply changed_keeps; [exact Hch|by apply Hi|lia].
  - rewrite (ch_read _ _ _ _ Hch); [done|lia].
  - intros j Hj. rewrite (ch_read _ _ _ _ Hch); [by apply Hs|lia].
  - intros i Hi'. rewrite (ch_read _ _ _ _ Hch); [by apply Ht|lia].
  - intros i Hi'. rewrite (ch_read _ _ _ _ Hch); [by apply Hct|unfold NUM_TILES in *; lia].
Qed.

(** A step that succeeds, in a statement on the result. *)

Section setup.
Context {B : Build} (to_uppercase : Z → rstring).

Lemma setup_low_ok c env cmd rows cols m :
  c = chain_end ∨ c = [] → mem_wf m → LOW_TOP ≤ GuestMem.size m → u32 env → u32 cmd →
  1 ≤ rows → 0 ≤ cols < M16 → cols * rows * 2 < M16 →
  ∃ m', setup_low (c ++ info_cells env cmd) rows cols m = Ok m' ∧
    changed_in 0x449 LOW_TOP m m' ∧ started c env cmd cols m' ∧
    ∀ o k, PIB_BASE + 0x14 ≤ o → o + Z.of_nat k ≤ MAGIC_API_BASE → read k m' o = read k m o.
Proof.
  unfold LOW_TOP, MAGIC_API_BASE, STUB_AREA_SIZE. intros Hc Hm Hs He Hcm Hr Hcols Hp.
  destruct (info_cells_ok c env cmd m Hc Hm) as (m1 & Hw1 & Hc1 & Hi); [unfold PIB_BASE; lia|].
  unfold setup_low. eapply bind_ex; [exact Hw1|]. cbv beta.
  destruct (setup_bda_ok rows cols m1) as (m2 & Hw2 & Hc2 & Hb);
    [apply Hc1|rewrite (ch_size _ _ _ _ Hc1); lia|lia..|].
  eapply bind_ex; [exact Hw2|]. cbv beta.
  pose proof (ch_size _ _ _ _ Hc1) as Hz1. pose proof (ch_size _ _ _ _ Hc2) as Hz2.
  destruct (setup_stubs_ok m2) as (m3 & Hw3 & Hc3 & Hst);
    [apply Hc2|unfold MAGIC_API_BASE, STUB_AREA_SIZE; lia|].
  eapply bind_ex; [exact Hw3|]. cbv beta. pose proof (ch_size _ _ _ _ Hc3) as Hz3.
  destruct (setup_idt_ok m3) as (m4 & Hw4 & Hc4 & Hd & Hcd);
    [apply Hc3|unfold IDT_END, IDT_HANDLER_BASE, NUM_VECTORS; lia|].
  exists m4. split; [exact Hw4|]. clear Hw1 Hw2 Hw3 Hw4.
  unfold IDT_END, IDT_HANDLER_BASE, NUM_VECTORS, MAGIC_API_BASE, STUB_AREA_SIZE, GDT_BASE in *.
  split.
  { eapply changed_trans; [eapply changed_mono; [..|exact Hc1]; unfold TIB_BASE, PIB_BASE; lia|].
    eapply changed_trans; [eapply changed_mono; [..|exact Hc2]; lia|].
    eapply changed_trans; [eapply changed_mono; [..|exact Hc3]; lia|].
    eapply changed_mono; [..|exact Hc4]; lia. }
  split.
  2: { unfold PIB_BASE, TIB_BASE, MAGIC_API_BASE in *. intros o k Ho Hk.
       rewrite (ch_read _ _ _ _ Hc4), (ch_read _ _ _ _ Hc3), (ch_read _ _ _ _ Hc2), (ch_read _ _ _ _ Hc1) by lia.
       done. }
  split.
  - apply Hc4.
  - apply Forall_forall. intros d Hin. destruct (info_inside _ _ _ _ Hc Hin) as [Hlo Hhi].
    unfold TIB_BASE, PIB_BASE in *. rewrite Forall_forall in Hi.
    eapply changed_keeps; [exact Hc4| |lia]. eapply changed_keeps; [exact Hc3| |lia].
    eapply changed_keeps; [exact Hc2| |lia]. by apply Hi.
  - rewrite (ch_read _ _ _ _ Hc4), (ch_read _ _ _ _ Hc3) by lia.
    unfold bda_cells in Hb. apply Forall_cons in Hb as [_ [Hb _]%Forall_cons]. unfold holds in Hb.
    cbn [fst snd] in Hb. rewrite Hb. f_equal. by apply Z.mod_small.
  - unfold MAGIC_API_BASE, STUB_AREA_SIZE in *.
    intros j Hj. rewrite (ch_read _ _ _ _ Hc4) by lia. by apply Hst.
  - exact Hd.
  - exact Hcd.
Qed.
End setup.

(** * Properties *)

(** C17: a 32-bit program starts with the stack its C runtime expects: at the entry point, the
    return address is the exit trap (a breakpoint in the stub area), the fourth word points to
    the environment strings and the fifth to the program name, both in fresh heap memory; FS
    selects the thread block, whose exception chain is empty and which refers to itself and to
    the process block; the descriptors tile the address space; the BIOS area has the width of
    the console. *)
Theorem program_started {B : Build} (to_uppercase : Z → rstring) (f : LxFile.LxFile)
    (exe_name : rstring) (rows cols : Z) (h : MemMgr.MemoryManager) (m : GuestMemory)
    (r : GuestRegs) (s : GuestSregs) (t : table_regs) (eip esp : Z) :
  let exe := os2_exe to_uppercase exe_name in
  mem_wf m → MemMgr.inv DYNAMIC_ALLOC_BASE h → MemMgr.limit h ≤ GuestMem.size m →
  MemMgr.next_free h + 4096 ≤ MemMgr.limit h →
  Forall is_char exe → len (env_block LX_ENV exe) ≤ 4096 →
  1 ≤ rows → 0 ≤ cols < M16 → cols * rows * 2 < M16 →
  in_object f (LxHeader.eip_object (LxFile.header f)) (LxHeader.eip (LxFile.header f)) = Ok eip →
  in_object f (LxHeader.esp_object (LxFile.header f)) (LxHeader.esp (LxFile.header f)) = Ok esp →
  0x49C ≤ esp ≤ GDT_BASE →
  ∃ h1 m1 r' s' t' m2 env,
    setup_guest to_uppercase f exe_name rows cols h m = Ok (eip, esp, TIB_BASE, h1, m1) ∧
    create_initial_vcpu eip esp r s t m1 = Ok (r', s', t', m2) ∧
    DYNAMIC_ALLOC_BASE ≤ env ∧ MemMgr.inv DYNAMIC_ALLOC_BASE h1 ∧
    rip r' = eip ∧ rsp r' = esp - 20 ∧ base (sr_fs s') = TIB_BASE ∧
    let cmd := env + len (env_vars LX_ENV) in
    started chain_end env cmd cols m2 ∧
    Forall (holds m2) [(4%nat, esp - 20, EXIT_TRAP_ADDR); (4%nat, esp - 16, 0); (4%nat, esp - 12, 0);
                       (4%nat, esp - 8, env); (4%nat, esp - 4, cmd)] ∧
    slice_mut m2 env (len (env_vars LX_ENV)) = Some (env_vars LX_ENV) ∧
    slice_mut m2 cmd (len (as_bytes exe ++ [0])) = Some (as_bytes exe ++ [0]).
Proof.
  intros exe Hm Hh Hlim Hroom Hch Hlen Hr Hc Hp He Hs Hesp.
  destruct (place_env_ok to_uppercase LX_ENV exe_name DYNAMIC_ALLOC_BASE h m) as
    (env & h1 & m1 & Henv & Hlo & Hhi & Hc1 & Hinv & Hsl); [done..|]. fold exe in Henv, Hc1, Hsl.
  remember (env + len (env_vars LX_ENV)) as cmd eqn:Hcmd.
  pose proof (MemMgr.inv_range _ _ Hh) as Hrange. unfold MemMgr.heap_top in Hrange.
  pose proof (env_block_len LX_ENV exe) as Hbl. pose proof (len_nonneg (as_bytes exe)).
  pose proof (len_nonneg (env_vars LX_ENV)).
  pose proof (ch_size _ _ _ _ Hc1) as Hz1. unfold DYNAMIC_ALLOC_BASE in *.
  destruct (setup_low_ok chain_end env cmd rows cols m1) as (m2 & Hlow & Hc2 & Hst & _);
    [by left|apply Hc1|unfold LOW_TOP, MAGIC_API_BASE, STUB_AREA_SIZE; lia
    |unfold u32; lia|unfold u32; lia|done..|].
  pose proof (ch_size _ _ _ _ Hc2) as Hz2. unfold LOW_TOP, MAGIC_API_BASE, STUB_AREA_SIZE, GDT_BASE in *.
  pose proof (st_info _ _ _ _ _ Hst) as Hinfo. unfold chain_end, info_cells in Hinfo. cbn [app] in Hinfo.
  assert (read32 m2 (PIB_BASE + 0x0C) = Some cmd ∧ read32 m2 (PIB_BASE + 0x10) = Some env) as [Hpc Hpe].
  { rewrite !Forall_cons in Hinfo. unfold holds in Hinfo. cbn [fst snd] in Hinfo.
    change (256 ^ Z.of_nat 4) with M32 in Hinfo. rewrite (Z.mod_small env), (Z.mod_small cmd) in Hinfo by lia.
    split; apply Hinfo. }
  destruct (push_args_ok m2 (esp - 20) env cmd) as (m3 & Hpush & Hc3 & Hargs); [apply Hc2|lia..|done|done|].
  replace (esp - 20 + 20) with esp in Hc3 by lia. replace (esp - 20 + 4) with (esp - 16) in Hargs by lia.
  replace (esp - 20 + 8) with (esp - 12) in Hargs by lia. replace (esp - 20 + 12) with (esp - 8) in Hargs by lia.
  replace (esp - 20 + 16) with (esp - 4) in Hargs by lia.
  exists h1, m2, (start_regs r eip (esp - 20)), (setup_vcpu_segments_32bit TIB_BASE s t).1,
    (setup_vcpu_segments_32bit TIB_BASE s t).2, m3, env.
  split.
  { unfold setup_guest. rewrite He, Hs. out_simpl. rewrite Henv. out_simpl.
    by rewrite Hlow. }
  split.
  { unfold create_initial_vcpu. rewrite usub_ok by lia. out_simpl. rewrite as_u_small by lia.
    rewrite Hpush. by destruct (setup_vcpu_segments_32bit _ _ _). }
  split; [done|]. split; [done|]. split; [done|]. split; [done|]. split; [done|]. rewrite <- Hcmd. cbv zeta.
  split; [eapply started_keeps; [exact Hc3|done|by left|left; unfold GDT_BASE; lia]|]. split; [done|].
  rewrite Hcmd. apply slice_mut_app; [apply Hc3|]. change (env_vars LX_ENV ++ as_bytes exe ++ [0]) with (env_block LX_ENV exe).
  rewrite (changed_slice _ _ _ _ _ _ ltac:(apply Hc2) Hc3) by lia.
  rewrite (changed_slice _ _ _ _ _ _ ltac:(apply Hc1) Hc2) by lia. done.
Qed.

(** An object at 64 KiB with the entry and the stack. *)
Definition demo_module : LxFile.LxFile :=
  LxFile.mk_lx (LxHeader.mk_header (str "LX") 0 0 0 2 1 0 0 1 1 16 1 4096 4096 0 0 0 290 0 172 1 196
                  0 0 0 0 204 0 0 222 230 239 1 248 0 312 0 0 0 0 0 0 0 0 0 0)
    [LxHeader.mk_object 8192 65536 8197 1 1 0] [] [] [] [] [] [] [] [].
Definition no_seg : GuestSegment := mk_seg 0 0 0 0 0 0 0 0 0 0 0 0.
Definition demo_heap : MemMgr.MemoryManager := MemMgr.new DYNAMIC_ALLOC_BASE 0x4000000.
Lemma program_started_witness :
  let no_regs := mk_regs 0 0 0 0 0 0 0 0 0 0 in
  let no_sregs := mk_sregs no_seg no_seg no_seg no_seg no_seg no_seg in
  os2_exe (λ c, [c]) (str "/home/me/hello") = str "C:\hello" ∧
  ∃ h1 m1 r s t m2,
    setup_guest (B:=dev_profile) (λ c, [c]) demo_module (str "/home/me/hello") 25 80 demo_heap
      (alloc 0x4000000) = Ok (65552, 69632, TIB_BASE, h1, m1) ∧
    create_initial_vcpu (B:=dev_profile) 65552 69632 no_regs no_sregs (mk_tables 0 0 0 0 0 0) m1
      = Ok (r, s, t, m2) ∧
    rip r = 65552 ∧ read32 m2 (rsp r) = Some EXIT_TRAP_ADDR.
Proof.
  cbv zeta. split; [by vm_compute|].
  destruct (program_started (B:=dev_profile) (λ c, [c]) demo_module (str "/home/me/hello") 25 80
    demo_heap (alloc 0x4000000) (mk_regs 0 0 0 0 0 0 0 0 0 0)
    (mk_sregs no_seg no_seg no_seg no_seg no_seg no_seg) (mk_tables 0 0 0 0 0 0) 65552 69632)
    as (h1 & m1 & r & s & t & m2 & env & H1 & H2 & _ & _ & H3 & H4 & _ & _ & H5 & _).
  - by apply alloc_wf.
  - by apply MemMgr.new_inv.
  - done.
  - done.
  - apply List.Forall_forall. intros c Hc. vm_compute in Hc. left.
    repeat (destruct Hc as [<-|Hc]; [split; [discriminate|reflexivity]|]). done.
  - vm_compute. discriminate.
  - done.
  - done.
  - done.
  - by vm_compute.
  - by vm_compute.
  - done.
  - exists h1, m1, r, s, t, m2. split; [exact H1|]. split; [exact H2|]. split; [exact H3|].
    rewrite H4. apply Forall_cons in H5 as [H5 _]. exact H5.
Defined.
