(* ===== verification/SysCalls.v ===== *)
(** The calls of src/src/loader/stubs.rs that belong to no other component: shared memory,
    codepages and country information, upper case, modules, messages, system values, the clock,
    the environment and the library paths.

    The host's clock and locale are arguments; what the calls share is [Sys].  The loading of a
    DLL is [LxLoader.load_dll] with its fuel. *)
From S2P Require Import Prelude Bytes Text Codepage GuestMem Managers Constants Descriptors LxLoader.
From S2P Require MemMgr Dbcs ApiRegistry Startup.

Abbreviation ApiResult := ApiRegistry.ApiResult.
Abbreviation Normal := ApiRegistry.RNormal.
Definition ERROR_FILE_NOT_FOUND := 2.
Definition ERROR_INVALID_HANDLE := 6.
Definition ERROR_NOT_ENOUGH_MEMORY := 8.
Definition ERROR_INVALID_FUNCTION := 87.
Definition ERROR_BUFFER_OVERFLOW := 111.
Definition ERROR_INVALID_LEVEL := 124.
Definition ERROR_MOD_NOT_FOUND := 126.
Definition ERROR_PROC_NOT_FOUND := 127.
Definition ERROR_ENVVAR_NOT_FOUND := 204.
Definition ERROR_INVALID_CODE_PAGE := 470.
Definition BEGIN_LIBPATH := 1.
Definition END_LIBPATH := 2.

(** What the calls share: the loader's world (guest memory, heap, DLLs), named shared memory, the
    active codepage, the two library paths and the threads. *)
Record Sys := mk_sys {
  ld_world : World;
  shmem : SharedMemManager;
  active_cp : Z;
  begin_libpath : rstring;
  end_libpath : rstring;
  threads : gset Z;
}.
Definition with_world (s : Sys) (w : World) : Sys :=
  mk_sys w (shmem s) (active_cp s) (begin_libpath s) (end_libpath s) (threads s).
Definition with_shmem (s : Sys) (h : SharedMemManager) : Sys :=
  mk_sys (ld_world s) h (active_cp s) (begin_libpath s) (end_libpath s) (threads s).
Definition with_cp (s : Sys) (cp : Z) : Sys :=
  mk_sys (ld_world s) (shmem s) cp (begin_libpath s) (end_libpath s) (threads s).
Definition with_libpaths (s : Sys) (b e : rstring) : Sys :=
  mk_sys (ld_world s) (shmem s) (active_cp s) b e (threads s).
Definition with_threads (s : Sys) (t : gset Z) : Sys :=
  mk_sys (ld_world s) (shmem s) (active_cp s) (begin_libpath s) (end_libpath s) t.
Definition mem (s : Sys) : GuestMemory := guest (ld_world s).

Definition sys (A : Type) : Type := Sys → outcome () (A * Sys).
#[export] Instance sys_ret : MRet sys := λ A a s, Ok (a, s).
#[export] Instance sys_bind : MBind sys := λ A C f m s, '(a, s) ← m s; f a s.
Definition ask {A} (f : Sys → A) : sys A := λ s, Ok (f s, s).
Definition lift {A} (o : outcome () A) : sys A := λ s, a ← o; Ok (a, s).
Definition modify (f : Sys → Sys) : sys () := λ s, Ok (tt, f s).
Definition in_mem (f : GuestMemory → GuestMemory) : sys () :=
  modify (λ s, with_world s (with_guest (ld_world s) (f (mem s)))).
Definition on_dlls {A} (f : DllManager → outcome () (A * DllManager)) : sys A := λ s,
  '(a, d) ← f (dll_mgr (ld_world s)); Ok (a, with_world s (with_dlls (ld_world s) d)).
Definition on_heap {A} (f : MemMgr.MemoryManager → outcome () (A * MemMgr.MemoryManager)) : sys A := λ s,
  '(a, h) ← f (mem_mgr (ld_world s)); Ok (a, with_world s (with_mem (ld_world s) h)).

(** The fields of [COUNTRYINFO] that the host's locale gives: [Os2Locale]. *)
Record Os2Locale := mk_locale {
  country : Z; codepage : Z; date_fmt : Z; currency : bytes; thousands_sep : Z; decimal_sep : Z;
  date_sep : Z; time_sep : Z; currency_fmt : Z; decimal_places : Z; time_fmt : Z; data_sep : Z;
}.
(** The local time of the host: [libc::tm] and the microseconds. *)
Record tm := mk_tm {
  tm_hour : Z; tm_min : Z; tm_sec : Z; tm_mday : Z; tm_mon : Z; tm_year : Z; tm_wday : Z;
  tm_gmtoff : Z; tv_usec : Z;
}.

Section calls.
Context {B : Build}.
(** encoding_rs and [char::to_uppercase] *)
Context (enc_decode enc_decode_raw : Encoding → bytes → rstring) (enc_encode : Encoding → rstring → bytes).
Context (to_uppercase : Z → rstring).

Definition read_str (p : Z) : sys rstring :=
  ask (λ s, read_guest_string enc_decode (active_cp s) (mem s) p).
(** [guest_write(p + off, v)] with its result dropped; the same unless [p] is null. *)
Definition put (n : nat) (p off v : Z) : sys () := a ← lift (uadd M32 p off); in_mem (λ m, poke n m a v).
Definition put_opt (n : nat) (p v : Z) : sys () := if p =? 0 then mret tt else put n p 0 v.
Definition put_bytes (p off : Z) (l : bytes) : sys () :=
  a ← lift (uadd M32 p off); in_mem (λ m, default m (write_bytes m a l)).

(** * Calls that do nothing, or one store *)

(** The sound of [dos_beep] is the host's. *)
Definition dos_error (flag : Z) : sys Z := mret 0.
Definition dos_set_max_fh (count : Z) : sys Z := mret 0.
Definition dos_beep (freq dur : Z) : sys Z := mret 0.
Definition dos_set_signal_exception_focus (flag : Z) : sys Z := mret 0.
Definition dos_acknowledge_signal_exception (signal : Z) : sys Z := mret 0.
Definition dos_query_sys_state (func arg1 pid p_buf cb_buf : Z) : sys Z := mret ERROR_INVALID_FUNCTION.
Definition dos_get_shared_mem (pb flag : Z) : sys Z := mret 0.
Definition dos_set_mem (pb cb flag : Z) : sys Z := mret 0.
Definition dos_connect_npipe (h : Z) : sys Z := mret ERROR_INVALID_FUNCTION.
Definition dos_set_nph_state (h state : Z) : sys Z := mret ERROR_INVALID_FUNCTION.
Definition dos_start_session (data id pid : Z) : sys Z := mret ERROR_INVALID_FUNCTION.
Definition dos_set_session (id status : Z) : sys Z := mret ERROR_INVALID_FUNCTION.
Definition dos_stop_session (scope id : Z) : sys Z := mret ERROR_INVALID_FUNCTION.
Definition dos_set_date_time (p_dt : Z) : sys Z := mret 0.
Definition dos_set_priority (scope prty_class delta target : Z) : sys Z := mret 0.
Definition dos_create_npipe (psz_name : Z) : sys Z := _ ← read_str psz_name; mret ERROR_INVALID_FUNCTION.
Definition dos_enter_must_complete (p_nesting : Z) : sys Z := put_opt 4 p_nesting 1;; mret 0.
Definition dos_exit_must_complete (p_nesting : Z) : sys Z := put_opt 4 p_nesting 0;; mret 0.

(** * Shared memory *)

Definition dos_alloc_shared_mem (ppb psz_name cb : Z) : sys Z :=
  n ← (if psz_name =? 0 then mret [] else read_str psz_name);
  addr ← on_heap (λ h, MemMgr.alloc h cb);
  match addr with
  | Some a =>
    put 4 ppb 0 a;;
    (if bool_decide (n = []) then mret tt else modify (λ s, with_shmem s (shared_register (shmem s) n a)));;
    mret 0
  | None => mret ERROR_NOT_ENOUGH_MEMORY
  end.
Definition dos_get_named_shared_mem (ppb psz_name : Z) : sys Z :=
  n ← read_str psz_name;
  h ← ask shmem;
  match shared_find h n with
  | Some a => put 4 ppb 0 a;; mret 0
  | None => mret ERROR_FILE_NOT_FOUND
  end.
Definition dos_query_mem (pcb p_flag : Z) : sys Z := put_opt 4 pcb 4096;; put_opt 4 p_flag 0x13;; mret 0.

(** * Codepages and country information *)

Definition SUPPORTED_CP : list Z :=
  [437; 850; 852; 932; 949; 950; 1250; 1251; 1252; 1253; 1254; 1255; 1256; 1257; 1258].
Definition dos_query_cp (cb p_cp_list pcb : Z) : sys Z :=
  cp ← ask active_cp;
  (if negb (p_cp_list =? 0) && (4 <=? cb) then put 4 p_cp_list 0 cp else mret tt);;
  put_opt 4 pcb 4;; mret 0.
Definition dos_set_process_cp (cp : Z) : sys Z :=
  if bool_decide (cp ∈ SUPPORTED_CP) then modify (λ s, with_cp s cp);; mret 0
  else mret ERROR_INVALID_CODE_PAGE.

(** The record, as writes at offsets: an entry is done when the bytes up to its end are wanted. *)
Definition country_fields (l : Os2Locale) : list (Z * Z * bytes) :=
  [(4, 0, le_bytes 4 (country l)); (8, 4, le_bytes 4 (codepage l)); (12, 8, le_bytes 4 (date_fmt l));
   (17, 12, currency l); (19, 17, [thousands_sep l; 0]); (21, 19, [decimal_sep l; 0]);
   (23, 21, [date_sep l; 0]); (25, 23, [time_sep l; 0]); (26, 25, [currency_fmt l]);
   (27, 26, [decimal_places l]); (28, 27, [time_fmt l]); (34, 32, [data_sep l; 0])].
Definition INFO_SIZE := 44.
Fixpoint zero_fill (n : nat) (p i : Z) : sys () :=
  match n with O => mret tt | S n => put 1 p i 0;; zero_fill n p (i + 1) end.
Fixpoint put_fields (write_size p : Z) (l : list (Z * Z * bytes)) : sys () :=
  match l with
  | [] => mret tt
  | (need, off, data) :: l =>
    (if need <=? write_size then put_bytes p off data else mret tt);; put_fields write_size p l
  end.
Definition dos_query_ctry_info (locale : Os2Locale) (cb p_ctry_info pcb_actual : Z) : sys Z :=
  let write_size := Z.min cb INFO_SIZE in
  (if negb (p_ctry_info =? 0) && (0 <? write_size) then
     zero_fill (Z.to_nat write_size) p_ctry_info 0;; put_fields write_size p_ctry_info (country_fields locale)
   else mret tt);;
  put_opt 4 pcb_actual INFO_SIZE;; mret 0.

(** [map_case_guest_buf]: [n] bytes are left at [p + i]. *)
Definition upper_pair (m : GuestMemory) (a b trail cp : Z) : outcome () GuestMemory :=
  let ch := decode_dbcs enc_decode b trail cp in
  if ch =? 0xFFFD then Ok m
  else
    match to_uppercase ch, cp_to_encoding cp with
    | [up], Some enc =>
      if up =? ch then Ok m
      else
        match enc_encode enc [up] with
        | [x; y] => a1 ← uadd M32 a 1; Ok (poke 1 (poke 1 m a x) a1 y)
        | _ => Ok m
        end
    | _, _ => Ok m
    end.
Definition upper_byte (m : GuestMemory) (a b cp : Z) : GuestMemory :=
  let up := cp_map_case_upper enc_encode enc_decode_raw to_uppercase b cp in
  if up =? b then m else poke 1 m a up.
Fixpoint map_case_loop (n : nat) (p i cp : Z) (m : GuestMemory) : outcome () GuestMemory :=
  match n with
  | O => Ok m
  | S n1 =>
    a ← uadd M32 p i;
    match read8 m a with
    | None => Ok m
    | Some b =>
      match n1 with
      | S n2 =>
        if Dbcs.is_dbcs_lead_byte b cp then
          a1 ← uadd M32 a 1;
          match read8 m a1 with
          | Some trail => m ← upper_pair m a b trail cp; map_case_loop n2 p (i + 2) cp m
          | None => map_case_loop n1 p (i + 1) cp (upper_byte m a b cp)
          end
        else map_case_loop n1 p (i + 1) cp (upper_byte m a b cp)
      | O => Ok (upper_byte m a b cp)
      end
    end
  end.
Definition map_case_guest_buf (p_str cb cp : Z) : sys () := λ s,
  m ← map_case_loop (Z.to_nat cb) p_str 0 cp (mem s);
  Ok (tt, with_world s (with_guest (ld_world s) m)).
Definition dos_map_case (cb p_str : Z) : sys Z :=
  (if p_str =? 0 then mret tt else cp ← ask active_cp; map_case_guest_buf p_str cb cp);; mret 0.

(** * Modules *)

Definition BUILTINS : list rstring :=
  map str ["DOSCALLS"; "QUECALLS"; "PMWIN"; "PMGPI"; "KBDCALLS"; "VIOCALLS"; "SESMGR"; "NLS"; "MSG"; "MDM"; "UCONV";
           "SO32DLL"; "TCP32DLL"].
Section modules.
(** The host files, the directory of the executable, the root of drive C:, and the fuel of
    [load_dll]. *)
Context (host_file : rstring → option bytes) (exe_dir : rstring) (c_root : option rstring) (fuel : nat).

Definition load_file (n path : rstring) : sys (option Z) := λ s,
  match load_dll host_file exe_dir c_root fuel n path (ld_world s) with
  | (Ok (Ok h), w) => Ok (Some h, with_world s w)
  | (Ok (Err _), w) | (Err _, w) => Ok (None, with_world s w)
  | (Diverge, _) | (Ok Diverge, _) => Diverge
  | (Panic, _) | (Ok Panic, _) => Panic
  end.
Definition builtin_module (stem : rstring) (h : Z) : LoadedDll := mk_dll stem h [] ∅ ∅ 1 None true.
Definition dos_load_module (psz_fail_name cb_fail_name psz_mod_name phmod : Z) : sys ApiResult :=
  n ← read_str psz_mod_name;
  let upper := Managers.to_ascii_uppercase n in
  let stem := default upper (strip_suffix (str ".DLL") upper) in
  if bool_decide (stem ∈ BUILTINS) then
    d ← ask (λ s, dll_mgr (ld_world s));
    h ← match dll_find_by_name d stem with
        | Some existing => mret (handle existing)
        | None =>
          h ← on_dlls dll_alloc_handle;
          on_dlls (λ d, Ok (dll_register d (builtin_module stem h)));;
          mret h
        end;
    put_opt 4 phmod h;; mret (Normal 0)
  else
    r ← (match find_dll_path host_file exe_dir c_root n with
         | Some path => load_file n path
         | None => mret None
         end);
    match r with
    | Some h =>
      d ← ask (λ s, dll_mgr (ld_world s));
      match (dll ← dll_find_by_handle d h; initterm_addr dll) with
      | Some addr => mret (ApiRegistry.CallGuest addr h phmod [])
      | None => put_opt 4 phmod h;; mret (Normal 0)
      end
    | None =>
      (if negb (psz_fail_name =? 0) && (0 <? cb_fail_name) then
         let data := as_bytes n in
         let copy_len := Z.min (len data) (cb_fail_name - 1) in
         put_bytes psz_fail_name 0 (take (Z.to_nat copy_len) data);;
         put 1 psz_fail_name copy_len 0
       else mret tt);;
      put_opt 4 phmod 0;; mret (Normal ERROR_MOD_NOT_FOUND)
    end.
End modules.

Fixpoint free_all (bases : list Z) : sys () :=
  match bases with [] => mret tt | b :: bases => on_heap (λ h, MemMgr.free h b);; free_all bases end.
Definition dos_free_module (hmod : Z) : sys ApiResult :=
  freed ← on_dlls (λ d, Ok (decrement_refcount d hmod));
  match freed with
  | Some (bases, Some addr) => mret (ApiRegistry.CallGuest addr hmod 0 bases)
  | Some (bases, None) => free_all bases;; mret (Normal 0)
  | None => mret (Normal 0)
  end.
Definition dos_query_module_handle (psz_mod_name phmod : Z) : sys Z :=
  n ← read_str psz_mod_name;
  d ← ask (λ s, dll_mgr (ld_world s));
  match dll_find_by_name d n with
  | Some dll => put_opt 4 phmod (handle dll);; mret 0
  | None => put_opt 4 phmod 0;; mret ERROR_MOD_NOT_FOUND
  end.
Definition proc_addr (d : DllManager) (hmod ordinal : Z) (n : rstring) : option Z :=
  dll ← dll_find_by_handle d hmod;
  if is_builtin dll then
    if ordinal =? 0 then None else Some (as_u M32 (resolve_import d (name dll) ordinal))
  else if negb (bool_decide (n = [])) then exports_by_name dll !! Managers.to_ascii_uppercase n
  else if ordinal =? 0 then None
  else exports_by_ordinal dll !! ordinal.
Definition dos_query_proc_addr (hmod ordinal psz_name p_pfn : Z) : sys Z :=
  n ← (if psz_name =? 0 then mret [] else read_str psz_name);
  d ← ask (λ s, dll_mgr (ld_world s));
  match proc_addr d hmod ordinal n with
  | Some a => put_opt 4 p_pfn a;; mret 0
  | None => put_opt 4 p_pfn 0;; mret ERROR_PROC_NOT_FOUND
  end.

(** * Messages *)

(** [{:04}] *)
Definition dec_str4 (n : Z) : rstring := let d := dec_str n in replicate (4 - length d) 0x30 ++ d.
Definition dos_get_message (p_buf cb_buf msg_num psz_file pcb_msg : Z) : sys Z :=
  _ ← read_str psz_file;
  let data := str "SYS" ++ dec_str4 msg_num ++ str ": Message not available" in
  let copy_len := Z.min (len data) cb_buf in
  (if negb (p_buf =? 0) && (0 <? copy_len) then put_bytes p_buf 0 (take (Z.to_nat copy_len) data) else mret tt);;
  put_opt 4 pcb_msg copy_len;; mret 0.

(** * System values and the clock *)

Definition system_value (idx : Z) : Z :=
  match idx with
  | 1 => 260 | 2 => 16 | 3 => 16 | 4 => 0 | 5 => 3 | 6 => 1 | 7 => 5 | 8 => 32 | 9 => 248 | 10 => 4096
  | 11 => 20 | 12 => 45 | 13 => 0
  | 17 => 128 * 1024 * 1024 | 18 => 16 * 1024 * 1024 | 19 => 96 * 1024 * 1024 | 20 => 512 * 1024 * 1024
  | 21 => 256 * 1024 * 1024 | 22 => 32 | 23 => 255
  | _ => 0
  end.
Fixpoint put_values (n : nat) (p i_start idx : Z) : sys () :=
  match n with
  | O => mret tt
  | S n =>
    d ← lift (usub M32 idx i_start);
    offset ← lift (umul M32 d 4);
    put 4 p offset (system_value idx);; put_values n p i_start (idx + 1)
  end.
Definition dos_query_sys_info (i_start i_last p_buf cb_buf : Z) : sys Z :=
  if (i_start =? 0) || (i_last <? i_start) then mret ERROR_INVALID_LEVEL
  else
    d ← lift (usub M32 i_last i_start);
    count ← lift (uadd M32 d 1);
    if cb_buf <? as_u M32 (count * 4) then mret ERROR_BUFFER_OVERFLOW
    else put_values (Z.to_nat count) p_buf i_start i_start;; mret 0.
Definition dos_get_date_time (t : tm) (p_dt : Z) : sys Z :=
  if p_dt =? 0 then mret ERROR_INVALID_FUNCTION
  else
    put 1 p_dt 0 (as_u M8 (tm_hour t));;
    put 1 p_dt 1 (as_u M8 (tm_min t));;
    put 1 p_dt 2 (as_u M8 (tm_sec t));;
    put 1 p_dt 3 (as_u M8 (Z.quot (tv_usec t) 10000));;
    put 1 p_dt 4 (as_u M8 (tm_mday t));;
    put 1 p_dt 5 (as_u M8 (tm_mon t + 1));;
    put 2 p_dt 6 (as_u M16 (tm_year t + 1900));;
    put 2 p_dt 8 (as_u M16 (Z.quot (tm_gmtoff t) 60));;
    put 1 p_dt 10 (as_u M8 (tm_wday t));;
    mret 0.

(** * Threads, environment and library paths *)

Definition dos_kill_thread (tid : Z) : sys Z :=
  t ← ask threads;
  modify (λ s, with_threads s (threads s ∖ {[tid]}));;
  mret (if bool_decide (tid ∈ t) then 0 else ERROR_INVALID_HANDLE).

(** The loop of [dos_scan_env]. *)
Fixpoint scan_env (fuel : nat) (s : Sys) (n : rstring) (cursor : Z) : outcome () (option Z) :=
  match fuel with
  | O => Diverge
  | S fuel =>
    let entry := read_guest_string enc_decode (active_cp s) (mem s) cursor in
    if bool_decide (entry = []) then Ok None
    else
      let prefix := n ++ str "=" in
      if starts_with (Text.to_ascii_uppercase prefix) (Text.to_ascii_uppercase entry) then
        Some <$> uadd M32 cursor (as_u M32 (len (as_bytes prefix)))
      else
        d ← uadd M32 (as_u M32 (len (as_bytes entry))) 1;
        cursor ← uadd M32 cursor d;
        scan_env fuel s n cursor
  end.
Definition dos_scan_env (fuel : nat) (psz_name pp_value : Z) : sys Z :=
  n ← read_str psz_name;
  if bool_decide (n = []) then mret ERROR_ENVVAR_NOT_FOUND
  else
    m ← ask mem;
    match read32 m (PIB_BASE + 0x10) with
    | None => mret ERROR_ENVVAR_NOT_FOUND
    | Some env_addr =>
      s ← ask id;
      r ← lift (scan_env fuel s n env_addr);
      match r with
      | Some value => put 4 pp_value 0 value;; mret 0
      | None => mret ERROR_ENVVAR_NOT_FOUND
      end
    end.

Definition dos_set_ext_libpath (psz_path flags : Z) : sys Z :=
  path ← (if psz_path =? 0 then mret [] else read_str psz_path);
  if flags =? BEGIN_LIBPATH then modify (λ s, with_libpaths s path (end_libpath s));; mret 0
  else if flags =? END_LIBPATH then modify (λ s, with_libpaths s (begin_libpath s) path);; mret 0
  else mret ERROR_INVALID_FUNCTION.
Definition dos_query_ext_libpath (psz_path flags : Z) : sys Z :=
  if psz_path =? 0 then mret ERROR_INVALID_FUNCTION
  else if negb ((flags =? BEGIN_LIBPATH) || (flags =? END_LIBPATH)) then mret ERROR_INVALID_FUNCTION
  else
    stored ← ask (if flags =? BEGIN_LIBPATH then begin_libpath else end_libpath);
    put_bytes psz_path 0 (as_bytes stored);;
    put 1 psz_path (as_u M32 (len (as_bytes stored))) 0;; mret 0.
End calls.

(** * The environment *)

Definition ascii (l : list Z) : Prop := Forall (λ b, 0 ≤ b < 128) l.
(** The codepage has ASCII in its lower half, as all of encoding_rs and of [Codepage] do. *)
Definition ascii_cp (dec : Encoding → bytes → rstring) (cp : Z) : Prop := ∀ l, ascii l → cp_decode dec l cp = l.
Lemma ascii_dos dec cp : cp = 437 ∨ cp = 850 ∨ cp = 852 → ascii_cp dec cp.
Proof.
  intros Hcp l Hl. assert (∀ upper, decode_single_byte l upper = l) as H.
  { intros upper. unfold decode_single_byte. induction Hl as [|b l Hb _ IH]; [done|]. cbn [map]. rewrite IH.
    by replace (b <? 0x80) with true by lia. }
  destruct Hcp as [->|[->| ->]]; apply H.
Qed.
(** The variable [v], written NAME=VALUE, has the name [n]; its value. *)
Definition names (n : rstring) (v : string) : Prop :=
  starts_with (Text.to_ascii_uppercase (n ++ str "=")) (Text.to_ascii_uppercase (str v)) = true.
#[export] Instance names_dec n v : Decision (names n v).
Proof. unfold names. apply _. Defined.
Definition value_of (n : rstring) (v : string) : rstring := drop (length n + 1) (str v).
Definition variable (v : string) : Prop := str v ≠ [] ∧ Forall (λ b, 0 < b < 128) (str v) ∧ len (str v) < 4096.

Section env.
Context {B : Build} (dec : Encoding → bytes → rstring).

Lemma as_bytes_ascii l : ascii l → as_bytes l = l.
Proof.
  unfold as_bytes. induction 1 as [|b l Hb _ IH]; cbn; [done|]. rewrite IH. unfold utf8_char.
  by replace (b <? 128) with true by lia.
Qed.
Lemma string_at s ptr (l : bytes) :
  mem_wf (mem s) → size (mem s) ≤ M32 → ascii_cp dec (active_cp s) → 0 ≤ ptr → ptr + len l < size (mem s) →
  Forall (λ b, 0 < b < 128) l → len l < 4096 → load_bytes (mem s) ptr (length l + 1) = l ++ [0] →
  read_guest_string dec (active_cp s) (mem s) ptr = l.
Proof.
  intros Hm Hs Hcp Hp He Hl Hmax Hload. rewrite load_bytes_app in Hload.
  apply app_inj_1 in Hload as [H1 H2]; [|by rewrite length_load_bytes]. injection H2 as H2.
  destruct (read_guest_string_spec dec (active_cp s) (mem s) ptr Hm Hs Hp) as [_ H]. rewrite (H l); try done.
  - apply Hcp. eapply Forall_impl; [exact Hl|]. intros b Hb. cbn in Hb. lia.
  - eapply Forall_impl; [exact Hl|]. intros b Hb. cbn in Hb. lia.
Qed.

(** The block of the variables from [cursor], with the empty string that ends it. *)
Lemma env_cons v vars : Startup.env_vars (v :: vars) = (str v ++ [0]) ++ Startup.env_vars vars.
Proof. unfold Startup.env_vars. cbn [flat_map]. by rewrite <- !app_assoc. Qed.
Lemma names_value m cursor n v :
  names n v → load_bytes m cursor (length (str v) + 1) = str v ++ [0] →
  load_bytes m (cursor + (len n + 1)) (length (value_of n v) + 1) = value_of n v ++ [0] ∧
  (length n + 1 + length (value_of n v) = length (str v))%nat.
Proof.
  unfold names, value_of. intros Hn Hl. apply starts_with_app in Hn as [r Hr].
  assert (length n + 1 ≤ length (str v))%nat as Hle.
  { apply (f_equal length) in Hr. unfold Text.to_ascii_uppercase in Hr. rewrite length_app, !length_map, length_app in Hr.
    simpl in Hr. lia. }
  rewrite length_drop. split; [|lia]. apply (f_equal (drop (length n + 1)%nat)) in Hl.
  replace (length (str v) + 1)%nat with ((length n + 1) + (length (str v) - (length n + 1) + 1))%nat in Hl by lia.
  rewrite load_bytes_app, drop_app_length', drop_app_le in Hl by (rewrite ?length_load_bytes; lia).
  rewrite <- Hl. f_equal. unfold len. lia.
Qed.
Lemma scan_env_ok s n vars : ∀ fuel cursor,
  mem_wf (mem s) → size (mem s) ≤ M32 → ascii_cp dec (active_cp s) → ascii n → 0 ≤ cursor →
  Forall variable vars → (length vars < fuel)%nat →
  cursor + len (Startup.env_vars vars) ≤ size (mem s) →
  load_bytes (mem s) cursor (length (Startup.env_vars vars)) = Startup.env_vars vars →
  match list_find (names n) vars with
  | Some (_, v) => ∃ a, scan_env dec fuel s n cursor = Ok (Some a) ∧
                     read_guest_string dec (active_cp s) (mem s) a = value_of n v
  | None => scan_env dec fuel s n cursor = Ok None
  end.
Proof.
  induction vars as [|v vars IH]; intros [|fuel] cursor Hm Hs Hcp Hn Hc Hv Hf He Hl; simpl in Hf; try lia;
    cbn [scan_env list_find].
  { assert (read_guest_string dec (active_cp s) (mem s) cursor = []) as ->; [|done].
    apply (string_at s cursor []); try done. unfold len in *. simpl in *. lia. }
  apply Forall_cons in Hv as [(Hv1 & Hv2 & Hv3) Hvs].
  rewrite env_cons in He, Hl. rewrite len_app, len_app in He. rewrite !length_app, load_bytes_app in Hl.
  assert (1 ≤ len (Startup.env_vars vars)) by (unfold Startup.env_vars; rewrite len_app; pose proof (len_nonneg (flat_map (λ v, str v ++ [0]) vars)); change (len [0]) with 1; lia).
  pose proof (len_nonneg (str v)).
  apply app_inj_1 in Hl as [H1 H2]; [|by rewrite length_load_bytes, length_app].
  change (len [0]) with 1 in He. change (length [0]) with 1%nat in H1, H2.
  rewrite Nat2Z.inj_add in H2. change (Z.of_nat (length (str v)) + Z.of_nat 1) with (len (str v) + 1) in H2.
  rewrite (string_at s cursor (str v)) by (done || lia). rewrite bool_decide_false by done.
  assert (ascii (str v)) as Hav by (eapply Forall_impl; [exact Hv2|]; cbn; intros; lia).
  assert (ascii (n ++ str "=")) as Hap by (apply Forall_app; split; [done|by repeat constructor]).
  rewrite (as_bytes_ascii (n ++ str "=")), (as_bytes_ascii (str v)) by done. rewrite len_app. change (len (str "=")) with 1.
  destruct (decide (names n v)) as [Hnm|Hnm]; unfold names in Hnm.
  - rewrite Hnm. destruct (names_value _ _ n v Hnm H1) as [Hval Hlen].
    assert (len n + 1 + len (value_of n v) = len (str v)) as Hlen' by (unfold len; lia).
    pose proof (len_nonneg (value_of n v)). pose proof (len_nonneg n).
    rewrite as_u_small, uadd_ok by lia. eexists. split; [reflexivity|].
    apply (string_at s _ (value_of n v)); try done; try lia. unfold value_of. by apply Forall_drop.
  - rewrite (not_true_is_false _ Hnm). rewrite as_u_small, uadd_ok by lia. out_simpl. rewrite uadd_ok by lia. out_simpl.
    specialize (IH fuel (cursor + (len (str v) + 1))).
    destruct (list_find (names n) vars) as [[i w]|] eqn:Hfind; cbn; apply IH; try done; try lia.
Qed.
Lemma ask_run {A C} (f : Sys → A) (g : A → sys C) s : (ask f ≫= g) s = g (f s) s.
Proof. done. Qed.
End env.

(** C40: DosScanEnv finds the variables of the program's environment.  For a name in any case it
    answers with the place, inside the environment block that the start of the program wrote, of
    the value of the first variable of that name, where the value is read back as a string; for a
    name of no variable it answers ERROR_ENVVAR_NOT_FOUND and writes nothing; and the search ends. *)
Theorem env_value_found {B : Build} dec (s : Sys) (psz_name pp_value env : Z) (n : rstring) (vars : list string) (fuel : nat) :
  mem_wf (mem s) → size (mem s) ≤ M32 → ascii_cp dec (active_cp s) →
  read_guest_string dec (active_cp s) (mem s) psz_name = n → n ≠ [] → ascii n →
  read32 (mem s) (PIB_BASE + 0x10) = Some env →
  slice_mut (mem s) env (len (Startup.env_vars vars)) = Some (Startup.env_vars vars) →
  Forall variable vars → (length vars < fuel)%nat → pp_value < M32 →
  match list_find (names n) vars with
  | Some (_, v) => ∃ a s', dos_scan_env dec fuel psz_name pp_value s = Ok (0, s') ∧
                     mem s' = poke 4 (mem s) pp_value a ∧ read_guest_string dec (active_cp s) (mem s) a = value_of n v
  | None => dos_scan_env dec fuel psz_name pp_value s = Ok (ERROR_ENVVAR_NOT_FOUND, s)
  end.
Proof.
  intros Hm Hs Hcp Hname Hne Hn Hpib Hblock Hv Hf Hpp.
  unfold slice_mut in Hblock. destruct (ptr_at _ _ _) as [q|] eqn:Hp; [|done]. apply ptr_at_Some in Hp as [-> Hin]; [|apply Hm].
  injection Hblock as Hblock. unfold len in Hblock at 1. rewrite Nat2Z.id in Hblock.
  apply (read_range 4) in Hpib as Henv; [|done].
  pose proof (scan_env_ok dec s n vars fuel env Hm Hs Hcp Hn (proj1 Henv) Hv Hf Hin Hblock) as Hscan.
  unfold dos_scan_env, read_str. rewrite ask_run, Hname, bool_decide_false by done. rewrite !ask_run, Hpib, ask_run.
  destruct (list_find (names n) vars) as [[i v]|].
  - destruct Hscan as (a & Hscan & Hval). exists a. unfold id, lift, mbind, sys_bind. rewrite Hscan. out_simpl.
    unfold put, lift, mbind, sys_bind. rewrite uadd_ok by lia. out_simpl. eexists. split; [reflexivity|].
    by rewrite Z.add_0_r.
  - unfold id, lift, mbind, sys_bind. rewrite Hscan. reflexivity.
Qed.
Definition demo_env : list string := ["PATH=C:\"; "OS=OS2"]%string.
Definition demo_sys : Sys :=
  let m := store_bytes (store_bytes (store_bytes (alloc 0x100000) (PIB_BASE + 0x10) (le_bytes 4 0x94000))
             0x94000 (Startup.env_vars demo_env)) 0x95000 (str "os") in
  mk_sys (mk_world m (MemMgr.new 0x100000 0x200000) dll_manager_new resource_manager_new) shared_mem_new 437 [] [] ∅.
Lemma env_value_found_witness :
  ∃ a s', dos_scan_env (B:=dev_profile) (λ _ b, b) 3 0x95000 0x96000 demo_sys = Ok (0, s') ∧
    mem s' = poke 4 (mem demo_sys) 0x96000 a ∧ read_guest_string (λ _ b, b) 437 (mem demo_sys) a = str "OS2".
Proof.
  apply (@env_value_found dev_profile (λ _ b, b) demo_sys 0x95000 0x96000 0x94000 (str "os") demo_env 3).
  - repeat apply store_bytes_wf; try (apply alloc_wf; lia); try apply le_bytes_bytes; repeat constructor; unfold is_byte; lia.
  - vm_compute. discriminate.
  - apply ascii_dos. by left.
  - vm_compute. reflexivity.
  - discriminate.
  - repeat constructor; lia.
  - vm_compute. reflexivity.
  - vm_compute. reflexivity.
  - repeat constructor; vm_compute; discriminate || reflexivity.
  - cbn. lia.
  - lia.
Defined.

(** A character outside ASCII is longer as a Rust string than in the guest's codepage, so that the
    search steps over the end of its variable: behind NAME=caf\x82 the variable X is not found. *)
Definition accent_block : bytes := str "NAME=caf" ++ [0x82; 0] ++ str "X=1" ++ [0; 0].
Definition accent_sys : Sys :=
  let m := store_bytes (store_bytes (store_bytes (alloc 0x100000) (PIB_BASE + 0x10) (le_bytes 4 0x94000))
             0x94000 accent_block) 0x95000 (str "X") in
  mk_sys (mk_world m (MemMgr.new 0x100000 0x200000) dll_manager_new resource_manager_new) shared_mem_new 437 [] [] ∅.
Lemma accent_hides_next :
  dos_scan_env (B:=dev_profile) (λ _ b, b) 9 0x95000 0x96000 accent_sys = Ok (ERROR_ENVVAR_NOT_FOUND, accent_sys).
Proof. vm_compute. reflexivity. Qed.

(** * Records written to the program's buffers *)

Section buffers.
Context {B : Build}.

(** [only lo hi m m']: nothing outside of [lo .. hi) was written. *)
Record only (lo hi : Z) (m m' : GuestMemory) : Prop := {
  only_size : size m' = size m;
  only_load : ∀ a, a < lo ∨ hi ≤ a → GuestMem.load m' a = GuestMem.load m a;
}.
Lemma only_refl lo hi m : only lo hi m m.
Proof. by split. Qed.
Lemma only_trans lo hi m1 m2 m3 : only lo hi m1 m2 → only lo hi m2 m3 → only lo hi m1 m3.
Proof. intros [S1 L1] [S2 L2]. split; [congruence|]. intros a Ha. rewrite L2, L1 by done. done. Qed.
Lemma only_store lo hi m a data : lo ≤ a → a + len data ≤ hi → only lo hi m (store_bytes m a data).
Proof.
  intros H1 H2. split; [apply store_bytes_size|]. intros x Hx. rewrite load_store, bool_decide_false by lia. done.
Qed.
Lemma only_poke lo hi n m a v : lo ≤ a → a + Z.of_nat n ≤ hi → only lo hi m (poke n m a v).
Proof.
  intros H1 H2. unfold poke, write. destruct (ptr_at m a _) as [x|] eqn:Hp; cbn; [|apply only_refl].
  assert (x = a) as ->.
  { unfold ptr_at in Hp. destruct (checked_add _ _ _); [|done]. by destruct (_ <? _); simplify_eq. }
  apply only_store; [done|]. unfold len. by rewrite length_le_bytes.
Qed.
Lemma only_bytes lo hi m a data : lo ≤ a → a + len data ≤ hi → only lo hi m (default m (write_bytes m a data)).
Proof.
  intros H1 H2. unfold write_bytes. destruct (ptr_at m a _) as [x|] eqn:Hp; cbn; [|apply only_refl].
  assert (x = a) as ->.
  { unfold ptr_at in Hp. destruct (checked_add _ _ _); [|done]. by destruct (_ <? _); simplify_eq. }
  by apply only_store.
Qed.
(** A computation that goes on with its world but for memory between [lo] and [hi]. *)
Definition fills {A} (lo hi : Z) (g : sys A) : Prop := ∀ s, ∃ a m, g s = Ok (a, with_world s (with_guest (ld_world s) m)) ∧
  only lo hi (mem s) m.
Lemma same_guest s : with_world s (with_guest (ld_world s) (mem s)) = s.
Proof. by destruct s as [[] ? ? ? ? ?]. Qed.
Lemma run_step {A C} (g : sys A) (f : A → sys C) s a s' : g s = Ok (a, s') → (g ≫= f) s = f a s'.
Proof. intros H. unfold mbind, sys_bind. by rewrite H. Qed.
Lemma fills_ret {A} lo hi (a : A) : fills lo hi (mret a).
Proof. intros s. exists a, (mem s). rewrite same_guest. split; [done|apply only_refl]. Qed.
Lemma fills_bind {A C} lo hi (g : sys A) (f : A → sys C) : fills lo hi g → (∀ a, fills lo hi (f a)) → fills lo hi (g ≫= f).
Proof.
  intros Hg Hf s. destruct (Hg s) as (a & m & H1 & O1). destruct (Hf a (with_world s (with_guest (ld_world s) m))) as (c & m2 & H2 & O2).
  exists c, m2. split; [|by eapply only_trans]. unfold mbind, sys_bind. rewrite H1. out_simpl. by rewrite H2.
Qed.
Lemma fills_put lo hi n p off v : p + off < M32 → lo ≤ p + off → p + off + Z.of_nat n ≤ hi → fills lo hi (put n p off v).
Proof.
  intros H32 H1 H2 s. unfold put, lift, mbind, sys_bind. rewrite uadd_ok by done. out_simpl. eexists _, _.
  split; [reflexivity|]. by apply only_poke.
Qed.
Lemma fills_bytes lo hi p off l : p + off < M32 → lo ≤ p + off → p + off + len l ≤ hi → fills lo hi (put_bytes p off l).
Proof.
  intros H32 H1 H2 s. unfold put_bytes, lift, mbind, sys_bind. rewrite uadd_ok by done. out_simpl. eexists _, _.
  split; [reflexivity|]. by apply only_bytes.
Qed.
Lemma fills_zero lo hi n p i : lo ≤ p + i → p + i + Z.of_nat n ≤ hi → p + i + Z.of_nat n ≤ M32 → fills lo hi (zero_fill n p i).
Proof.
  revert i. induction n as [|n IH]; intros i H1 H2 H3; cbn [zero_fill]; [apply fills_ret|].
  apply fills_bind; [apply fills_put; lia|]. intros _. apply IH; lia.
Qed.
Definition field_fits (f : Z * Z * bytes) : Prop := 0 ≤ f.1.2 ∧ f.1.2 + len f.2 ≤ f.1.1.
Lemma fills_fields w p l : Forall field_fits l → 0 ≤ p → p + w ≤ M32 → 0 ≤ w → Forall (λ f, 0 < len f.2) l →
  fills p (p + w) (put_fields w p l).
Proof.
  intros Hl Hp Hw Hw0 Hpos. induction Hl as [|[[need off] data] l [H1 H2] Hl IH]; cbn [put_fields]; [apply fills_ret|].
  apply Forall_cons in Hpos as [Hd Hpos]. cbn [fst snd] in *. apply fills_bind; [|intros _; by apply IH].
  destruct (Z.leb_spec need w); [|apply fills_ret]. apply fills_bytes; lia.
Qed.
Lemma country_fit l : len (currency l) = 5 → Forall field_fits (country_fields l) ∧ Forall (λ f, 0 < len f.2) (country_fields l).
Proof.
  intros Hc. unfold country_fields. split; repeat constructor; unfold field_fits; cbn [fst snd]; rewrite ?Hc; done || lia.
Qed.
End buffers.

(** DosQueryCtryInfo never writes past the room the program gives.  Whatever length it names,
    the call succeeds and changes only the first 44 bytes of its buffer that lie within this length
    and the cell for the full length, which then holds 44. *)
Theorem country_in_bounds {B : Build} (l : Os2Locale) (s : Sys) (cb p pcb : Z) :
  len (currency l) = 5 → mem_wf (mem s) → 0 ≤ cb → 0 < p → p + Z.min cb 44 ≤ M32 →
  0 < pcb → pcb < M32 → pcb + 4 ≤ size (mem s) → (pcb + 4 ≤ p ∨ p + Z.min cb 44 ≤ pcb) →
  ∃ m, dos_query_ctry_info l cb p pcb s = Ok (0, with_world s (with_guest (ld_world s) m)) ∧
    read32 m pcb = Some 44 ∧
    ∀ a, (a < p ∨ p + Z.min cb 44 ≤ a) → (a < pcb ∨ pcb + 4 ≤ a) → GuestMem.load m a = GuestMem.load (mem s) a.
Proof.
  intros Hc Hm Hcb Hp Hp32 Hpcb Hpcb32 Hin Hap. unfold dos_query_ctry_info, INFO_SIZE.
  assert (fills p (p + Z.min cb 44)
    (if negb (p =? 0) && (0 <? Z.min cb 44) then
       zero_fill (Z.to_nat (Z.min cb 44)) p 0;; put_fields (Z.min cb 44) p (country_fields l)
     else mret tt)) as Hfill.
  { destruct (_ && _); [|apply fills_ret]. apply fills_bind; [apply fills_zero; lia|]. intros _.
    destruct (country_fit l Hc). apply fills_fields; done || lia. }
  destruct (Hfill s) as ([] & m & Hrun & Hsize & Hload). rewrite (run_step _ _ _ _ _ Hrun).
  unfold put_opt. replace (pcb =? 0) with false by lia. unfold put, lift, mbind, sys_bind. rewrite uadd_ok by lia.
  out_simpl. eexists. split; [reflexivity|]. rewrite Z.add_0_r. cbn [guest with_guest].
  pose proof (mem_size _ Hm) as Hsz. change (mem (with_world s (with_guest (ld_world s) m))) with m.
  unfold poke. rewrite write_ok by lia. cbn -[store_bytes le_bytes read32]. split.
  - rewrite read_ok; rewrite ?store_bytes_size; [|lia..].
    pose proof (load_store_bytes m pcb (le_bytes 4 44)) as E. change (length (le_bytes 4 44)) with 4%nat in E. by rewrite E.
  - intros a Ha1 Ha2. rewrite load_store, bool_decide_false; [by apply Hload|]. change (len (le_bytes 4 44)) with 4. lia.
Qed.
Definition demo_locale : Os2Locale := mk_locale 1 437 0 (str "$" ++ [0; 0; 0; 0]) 44 46 45 58 0 2 0 44.
Lemma country_in_bounds_witness :
  ∃ m, dos_query_ctry_info (B:=dev_profile) demo_locale 20 0x400 0x500 demo_sys =
         Ok (0, with_world demo_sys (with_guest (ld_world demo_sys) m)) ∧ read32 m 0x500 = Some 44 ∧
    GuestMem.load m 0x414 = 0.
Proof.
  destruct (@country_in_bounds dev_profile demo_locale demo_sys 20 0x400 0x500) as (m & H1 & H2 & H3).
  - reflexivity.
  - repeat apply store_bytes_wf; try (apply alloc_wf; lia); try apply le_bytes_bytes; repeat constructor; unfold is_byte; lia.
  - lia.
  - lia.
  - lia.
  - lia.
  - lia.
  - vm_compute. discriminate.
  - lia.
  - exists m. split; [exact H1|]. split; [exact H2|]. rewrite H3; [vm_compute; reflexivity|right; vm_compute; discriminate|left; lia].
Defined.

(** The size of the buffer of DosQuerySysInfo is computed modulo 2^32: a program that asks for 2^30
    values needs no buffer, and the emulator runs over the end of the address space. *)
Lemma put_values_panic n p i idx s :
  i ≤ idx → 4 * (idx - i + Z.of_nat n - 1) < M32 → M32 ≤ p + 4 * (idx - i + Z.of_nat n - 1) → (0 < n)%nat →
  put_values (B:=dev_profile) n p i idx s = Panic.
Proof.
  revert idx s. induction n as [|n IH]; intros idx s Hi H1 H2 Hn; [lia|]. cbn [put_values].
  unfold lift, mbind, sys_bind. rewrite usub_ok by lia. out_simpl. rewrite umul_ok by lia. out_simpl.
  unfold put, lift, mbind, sys_bind. destruct (Z.ltb_spec (p + (idx - i) * 4) M32) as [Hlt|Hge].
  - rewrite uadd_ok by lia. out_simpl. apply IH; lia.
  - unfold uadd. replace (p + (idx - i) * 4 <? M32) with false by lia. reflexivity.
Qed.
Lemma sys_info_unchecked p s : 4 ≤ p < M32 →
  dos_query_sys_info (B:=dev_profile) 1 0x40000000 p 0 s = Panic.
Proof.
  intros Hp. unfold dos_query_sys_info. cbn [Z.eqb orb Z.ltb Z.compare Pos.compare Pos.compare_cont].
  unfold lift, mbind, sys_bind. rewrite usub_ok by lia. out_simpl. rewrite uadd_ok by lia. out_simpl.
  replace (0 <? as_u M32 _) with false by (vm_compute; reflexivity). rewrite put_values_panic; [done|lia..].
Qed.
