(* ===== verification/NeExec.v ===== *)
(** The 16-bit loader (src/src/loader/ne_exec.rs): segments and relocations of an NE module into
    guest memory, its descriptors and first registers, and the calls a 16-bit program makes
    through the thunk tile, with the stop of src/src/loader/vcpu.rs that serves them.

    The place where a relocation chain stands is a u16; a chain can be endless, so the walk takes
    fuel.  What an error of [load_ne] leaves in memory is dropped: the caller ends the program. *)
From S2P Require Import Prelude Bytes Constants Codepage GuestMem Seh Descriptors Console Startup.
From S2P Require Import NeFile.
From S2P Require MemMgr Managers.

Definition NE_SEGMENT_BASE := 0x00100000.
Definition NE_THUNK_BASE := 0x00F00000.
Definition NE_THUNK_TILE_INDEX := NE_THUNK_BASE / TILE_SIZE.
Definition NE_THUNK_GDT_INDEX := TILED_SEL_START_INDEX + NE_THUNK_TILE_INDEX.
Definition NE_THUNK_SELECTOR := as_u M16 NE_THUNK_GDT_INDEX * 8.
Definition NE_THUNK_CODE_GDT_INDEX := TILED_CODE_START_INDEX + NE_THUNK_TILE_INDEX.
Definition NE_THUNK_CODE_SELECTOR := as_u M16 NE_THUNK_CODE_GDT_INDEX * 8.

Section ne.
Context {B : Build}.

(** * Loading *)

(** The loop of [load_ne] over one segment, numbered from 0. *)
Definition segment_addr {E} (i : Z) : outcome E Z :=
  t ← umul M32 (as_u M32 i) TILE_SIZE; uadd M32 NE_SEGMENT_BASE t.
Definition load_segment (file : bytes) (shift i : Z) (s : NeSegmentEntry) (m : GuestMemory)
    : io GuestMemory :=
  guest_addr ← segment_addr i;
  let data_len := actual_data_length s in
  file_off ← file_offset s shift;
  if (0 <? data_len) && negb (data_offset s =? 0) then
    p ← unwrap (ptr_at m guest_addr data_len);
    '(data, _) ← read_exact data_len file file_off;
    Ok (store_bytes m p data)
  else Ok m.

(** [seg_base] and [seg_selector] of a segment number (u8), counted from 1. *)
Definition seg_base (seg_num : Z) : io Z :=
  t ← umul M32 (wrapping_sub M32 seg_num 1) TILE_SIZE; uadd M32 NE_SEGMENT_BASE t.
Definition seg_selector (seg_num : Z) : io Z :=
  tile_idx ← uadd M32 (NE_SEGMENT_BASE / TILE_SIZE) (wrapping_sub M32 seg_num 1);
  i ← uadd M32 TILED_SEL_START_INDEX tile_idx;
  s ← umul M32 i 8;
  Ok (as_u M16 s).

(** [resolve_import_16] *)
Definition module_base (module : rstring) : Z :=
  if bool_decide (module = str "DOSCALLS") then 0
  else if bool_decide (module = str "VIOCALLS") then as_u M16 VIOCALLS_BASE
  else if bool_decide (module = str "KBDCALLS") then as_u M16 KBDCALLS_BASE
  else if bool_decide (module = str "SESMGR") then as_u M16 SESMGR_BASE
  else if bool_decide (module = str "NLS") then as_u M16 NLS_BASE
  else if bool_decide (module = str "MSG") then as_u M16 MSG_BASE
  else as_u M16 STUB_AREA_SIZE - 1.
Definition resolve_import_16 (module : rstring) (ordinal : Z) : io Z :=
  uadd M16 (module_base module) ordinal.

(** [ne_file.imported_modules.get(module_index - 1)], or a question mark. *)
Definition module_of (f : NeFile) (module_index : Z) : rstring :=
  default (str "?") (idx (imported_modules f) (wrapping_sub M64 module_index 1)).

(** The offset and the selector of a target; nothing for an OS fixup. *)
Definition resolve_target (f : NeFile) (t : NeRelocationTarget) : io (option (Z * Z)) :=
  match t with
  | InternalRef segment_num offset =>
    sel ← seg_selector segment_num; Ok (Some (offset, sel))
  | ImportOrdinal module_index ordinal =>
    thunk_offset ← resolve_import_16 (module_of f module_index) ordinal;
    Ok (Some (thunk_offset, NE_THUNK_CODE_SELECTOR))
  | ImportName _ _ => Ok (Some (0, NE_THUNK_SELECTOR))
  | OsFixup _ => Ok None
  end.

(** The write at one place; its result is dropped. *)
Definition patch (source_type patch_addr target_offset target_selector : Z) (m : GuestMemory)
    : io GuestMemory :=
  match source_type with
  | 3 =>
    let m := poke 2 m patch_addr target_offset in
    a ← uadd M32 patch_addr 2;
    Ok (poke 2 m a target_selector)
  | 2 => Ok (poke 2 m patch_addr target_selector)
  | 5 => Ok (poke 2 m patch_addr target_offset)
  | 0 => Ok (poke 1 m patch_addr (as_u M8 target_offset))
  | _ => Ok m
  end.
(** The [loop] of one relocation: the link is read before the place is written. *)
Fixpoint walk_chain (fuel : nat) (source_type : Z) (additive : bool) (base toff tsel offset : Z)
    (m : GuestMemory) : io GuestMemory :=
  match fuel with
  | O => Diverge
  | S fuel =>
    patch_addr ← uadd M32 base offset;
    let next_offset := if additive then 0xFFFF else default 0xFFFF (read16 m patch_addr) in
    m ← patch source_type patch_addr toff tsel m;
    if additive || (next_offset =? 0xFFFF) then Ok m
    else walk_chain fuel source_type additive base toff tsel next_offset m
  end.
Definition apply_reloc (fuel : nat) (f : NeFile) (base : Z) (r : NeRelocationEntry)
    (m : GuestMemory) : io GuestMemory :=
  t ← resolve_target f (target r);
  match t with
  | Some (toff, tsel) =>
    walk_chain fuel (source_type r) (is_additive r) base toff tsel (source_offset r) m
  | None => Ok m
  end.

(** [apply_ne_fixups] and [load_ne]; [zip] numbers the segments. *)
Definition apply_ne_fixups (fuel : nat) (f : NeFile) (m : GuestMemory) : io GuestMemory :=
  let by_seg := relocations_by_segment f in
  for_in (zip (seqZ 0 (len by_seg)) by_seg) (λ '(seg_idx, relocs) m,
    seg_guest_base ← seg_base (as_u M8 (seg_idx + 1));
    for_in relocs (apply_reloc fuel f seg_guest_base) m) m.
Definition load_ne (fuel : nat) (f : NeFile) (file : bytes) (m : GuestMemory) : io GuestMemory :=
  let segs := segment_table f in
  m ← for_in (zip (seqZ 0 (len segs)) segs) (λ '(i, s) m,
        load_segment file (alignment_shift_count (header f)) i s m) m;
  apply_ne_fixups fuel f m.

(** * The machine *)

(** The descriptor of one segment, numbered from 0. *)
Definition segment_descriptor (i : Z) (s : NeSegmentEntry) (m : GuestMemory) : mem GuestMemory :=
  guest_base ← segment_addr i;
  let tile_idx := guest_base / TILE_SIZE in
  gdt_idx ← uadd M32 TILED_SEL_START_INDEX tile_idx;
  _ ← umul M32 gdt_idx 8;
  let limit := Z.min (saturating_sub (actual_min_alloc s) 1) 0xFFFF in
  let access := if is_code s then 0x9B else 0xD3 in
  off ← umul M32 gdt_idx 8;
  gdt_offset ← uadd M32 GDT_BASE off;
  unwrap (write64 m gdt_offset (make_gdt_entry guest_base limit access 0x00)).

(** The data selector of a segment number above 0 (u16). *)
Definition segment_selector (seg_num : Z) : mem Z :=
  tile_idx ← uadd M32 (NE_SEGMENT_BASE / TILE_SIZE) (seg_num - 1);
  i ← uadd M32 TILED_SEL_START_INDEX tile_idx;
  s ← umul M32 i 8;
  Ok (as_u M16 s).

Section setup.
Context (to_uppercase : Z → rstring).

(** The entry and the stack of [setup_guest_ne]: code, instruction, stack selectors, and the
    stack pointer, where 0 is the end of the stack segment. *)
Definition entry_point (f : NeFile) : mem (Z * Z * Z * Z) :=
  let h := header f in
  cs_sel ← (if 0 <? entry_cs h then segment_selector (entry_cs h) else Ok 0x08);
  ss_sel ← (if 0 <? stack_ss h then segment_selector (stack_ss h) else Ok 0x10);
  sp ← (if stack_sp h =? 0 then
          s ← unwrap (idx (segment_table f) (wrapping_sub M64 (stack_ss h) 1));
          Ok (as_u M16 (actual_min_alloc s))
        else Ok (stack_sp h));
  Ok (cs_sel, entry_ip h, ss_sel, sp).

(** [setup_guest_ne] *)
Definition setup_guest_ne (f : NeFile) (exe_name : rstring) (rows cols : Z)
    (h : MemMgr.MemoryManager) (m : GuestMemory)
    : mem (Z * Z * Z * Z * MemMgr.MemoryManager * GuestMemory) :=
  '(env_addr, cmdline_addr, h, m) ← place_env to_uppercase NE_ENV exe_name h m;
  m ← setup_low (info_cells env_addr cmdline_addr) rows cols m;
  m ← fill TILE_SIZE NE_THUNK_BASE 0xCC m;
  m ← for_in (zip (seqZ 0 (len (segment_table f))) (segment_table f))
        (λ '(i, s) m, segment_descriptor i s m) m;
  '(cs_sel, ip, ss_sel, sp) ← entry_point f;
  Ok (cs_sel, ip, ss_sel, sp, h, m).

(** The registers with which [setup_and_run_ne_cli] starts the CPU. *)
Definition segment16 (m : GuestMemory) (sel type_ : Z) : GuestSegment :=
  Seh.mk_seg (gdt_entry_base m sel) (gdt_entry_limit m sel) sel type_ 1 0 0 1 0 0 0 0.
Definition flat_seg : GuestSegment := Seh.mk_seg 0 0xFFFFFFFF 0x10 3 1 0 1 1 0 1 0 0.
Definition data_selector (f : NeFile) (ss_sel : Z) : mem Z :=
  let auto_ds := auto_data_segment (header f) in
  if (0 <? auto_ds) && (auto_ds <=? len (segment_table f)) then segment_selector auto_ds
  else Ok ss_sel.
Definition ne_vcpu (f : NeFile) (cs_sel ip ss_sel sp : Z) (r : GuestRegs) (t : table_regs)
    (m : GuestMemory) : mem (GuestRegs * GuestSregs * table_regs) :=
  ds_sel ← data_selector f ss_sel;
  let ds := segment16 m ds_sel 3 in
  Ok (start_regs r ip sp,
      mk_sregs (segment16 m cs_sel 11) ds ds flat_seg flat_seg (segment16 m ss_sel 3),
      mk_tables GDT_BASE (GDT_SIZE - 1) IDT_BASE (32 * 8 - 1) 0x11 (cr4 t)).
Definition setup_and_run_ne_cli (f : NeFile) (exe_name : rstring) (rows cols : Z)
    (h : MemMgr.MemoryManager) (m : GuestMemory) (r : GuestRegs) (t : table_regs)
    : mem (GuestRegs * GuestSregs * table_regs * MemMgr.MemoryManager * GuestMemory) :=
  '(cs_sel, ip, ss_sel, sp, h, m) ← setup_guest_ne f exe_name rows cols h m;
  '(r, s, t) ← ne_vcpu f cs_sel ip ss_sel sp r t m;
  Ok (r, s, t, h, m).
End setup.
End ne.

(** * The calls *)

(** What the calls share: memory, the screen, the terminal (a file descriptor with bytes), and
    the end of the program. *)
Record world := mk_world {
  guest : GuestMemory;
  console : VioManager;
  active_codepage : Z;
  term : list (Z * bytes);
  exit_code : Z;
  exit_requested : bool;
}.
Definition with_guest (w : world) (m : GuestMemory) : world :=
  mk_world m (console w) (active_codepage w) (term w) (exit_code w) (exit_requested w).
Definition with_console (w : world) (v : VioManager) (out : bytes) : world :=
  mk_world (guest w) v (active_codepage w) (term w ++ [(1, out)]) (exit_code w) (exit_requested w).
Definition with_term (w : world) (fd : Z) (out : bytes) : world :=
  mk_world (guest w) (console w) (active_codepage w) (term w ++ [(fd, out)]) (exit_code w)
           (exit_requested w).
Definition with_exit (w : world) (code : Z) : world :=
  mk_world (guest w) (console w) (active_codepage w) (term w) code true.

Section calls.
Context {B : Build} (enc_decode : Encoding → bytes → rstring).
Abbreviation out := (outcome ()) (only parsing).

(** [read_arg16] and [read_far_ptr]. *)
Definition read_arg16 (m : GuestMemory) (arg_base off : Z) : out Z :=
  a ← uadd M32 arg_base off; Ok (default 0 (read16 m a)).
Definition read_far_ptr (m : GuestMemory) (arg_base off : Z) : out Z :=
  ptr_off ← read_arg16 m arg_base off;
  ptr_seg ← read_arg16 m arg_base (off + 2);
  uadd M32 (gdt_entry_base m ptr_seg) ptr_off.

Definition poke_opt (m : GuestMemory) (p v : Z) : GuestMemory :=
  if p =? 0 then m else poke 2 m p v.

(** The calls with a body: DosExit, DosWrite, DosGetEnv, VioWrtTTY. *)
Definition ne_exit (w : world) (arg_base : Z) : out (Z * world) :=
  code ← read_arg16 (guest w) arg_base 0;
  _ ← read_arg16 (guest w) arg_base 2;
  Ok (0, with_exit w code).
Definition ne_write (w : world) (arg_base : Z) : out (Z * world) :=
  let m := guest w in
  pcb_written ← read_far_ptr m arg_base 0;
  cb_buf ← read_arg16 m arg_base 4;
  p_buf ← read_far_ptr m arg_base 6;
  hf ← read_arg16 m arg_base 10;
  match slice_mut m p_buf cb_buf with
  | Some data =>
    if (hf =? 1) || (hf =? 2) then
      let w := with_term w hf (as_bytes (decode_single_byte data CP437_UPPER)) in
      let actual := as_u M32 (len data) in
      Ok (0, with_guest w (poke_opt m pcb_written (as_u M16 actual)))
    else Ok (1, w)
  | None => Ok (1, w)
  end.
Definition ne_get_env (w : world) (arg_base : Z) : out (Z * world) :=
  let m := guest w in
  p_cmd_offset ← read_far_ptr m arg_base 0;
  p_env_sel ← read_far_ptr m arg_base 4;
  Ok (0, with_guest w (poke_opt (poke_opt m p_env_sel 0) p_cmd_offset 0)).
Definition ne_wrt_tty (w : world) (arg_base : Z) : out (Z * world) :=
  let m := guest w in
  _ ← read_arg16 m arg_base 0;
  cb_str ← read_arg16 m arg_base 2;
  p_str ← read_far_ptr m arg_base 4;
  match slice_mut m p_str cb_str with
  | Some data =>
    '(v, o) ← write_tty enc_decode (console w) data 0x07 (active_codepage w);
    Ok (0, with_console w v o)
  | None => Ok (0, w)
  end.

(** [handle_ne_api_call]; 8, 41, 49 and 92 are stubs, others are not implemented. *)
Definition handle_ne_api_call (r : GuestRegs) (s : GuestSregs) (w : world) (ordinal : Z)
    : out (Z * world) :=
  let ss_base := as_u M32 (base (sr_ss s)) in
  let sp := as_u M16 (rsp r) in
  a ← uadd M32 ss_base sp;
  arg_base ← uadd M32 a 4;
  if ordinal <? KBDCALLS_BASE then
    match ordinal with
    | 5 => ne_exit w arg_base
    | 138 => ne_write w arg_base
    | 8 | 41 | 49 | 92 => Ok (0, w)
    | 94 => ne_get_env w arg_base
    | _ => Ok (0, w)
    end
  else if (VIOCALLS_BASE <=? ordinal) && (ordinal <? VIOCALLS_BASE + 1024) then
    match ordinal - VIOCALLS_BASE with
    | 19 => ne_wrt_tty w arg_base
    | _ => Ok (0, w)
    end
  else Ok (0, w).

(** [ne_api_arg_bytes] *)
Definition ne_api_arg_bytes (ordinal : Z) : out Z :=
  if ordinal <? KBDCALLS_BASE then
    Ok (match ordinal with
        | 5 => 4 | 8 => 8 | 41 => 10 | 49 => 8 | 92 => 4 | 94 => 8 | 138 => 12 | _ => 0
        end)
  else if ordinal <? VIOCALLS_BASE + 1024 then
    vio_ord ← usub M32 ordinal VIOCALLS_BASE;
    Ok (if vio_ord =? 19 then 8 else 0)
  else Ok 0.

(** The stop of the CPU in the thunk tile: the call, then the far return that also drops the
    arguments. *)
Definition set_cs (s : GuestSregs) (m : GuestMemory) (sel : Z) : GuestSregs :=
  let c := sr_cs s in
  mk_sregs (Seh.mk_seg (gdt_entry_base m sel) (gdt_entry_limit m sel) sel 11 1 (dpl c) 0 1 (seg_l c)
                   (seg_g c) (avl c) (unusable c))
           (sr_ds s) (sr_es s) (sr_fs s) (sr_gs s) (sr_ss s).
Definition far_return (r : GuestRegs) (s : GuestSregs) (m : GuestMemory) (result ordinal : Z)
    : out (GuestRegs * GuestSregs) :=
  let ss_base := as_u M32 (base (sr_ss s)) in
  let sp := as_u M16 (rsp r) in
  a ← uadd M32 ss_base sp;
  let ret_ip := default 0 (read16 m a) in
  a2 ← uadd M32 a 2;
  let ret_cs_sel := default 0 (read16 m a2) in
  arg_bytes ← ne_api_arg_bytes ordinal;
  let rsp := wrapping_add M16 (wrapping_add M16 sp 4) arg_bytes in
  Ok (mk_regs ret_ip rsp result (rbx r) (rcx r) (rdx r) (rsi r) (rdi r) (rbp r) (rflags r),
      set_cs s m ret_cs_sel).
Definition in_thunk_tile (flat_rip : Z) : bool :=
  (NE_THUNK_BASE <=? flat_rip) && (flat_rip <? NE_THUNK_BASE + TILE_SIZE).
Definition thunk_stop (r : GuestRegs) (s : GuestSregs) (w : world)
    : out (option (GuestRegs * GuestSregs * world)) :=
  flat_rip ← uadd M64 (base (sr_cs s)) (rip r);
  if in_thunk_tile flat_rip then
    let ordinal := as_u M16 (flat_rip - NE_THUNK_BASE) in
    a ← uadd M32 (as_u M32 (base (sr_ss s))) (as_u M16 (rsp r));
    _ ← uadd M32 a 2;
    '(result, w) ← handle_ne_api_call r s w ordinal;
    '(r, s) ← far_return r s (guest w) result ordinal;
    Ok (Some (r, s, w))
  else Ok None.
End calls.

(** * Relocation chains *)

(** The bytes a source type writes and their value. *)
Definition field_width (source_type : Z) : nat :=
  match source_type with 3 => 4%nat | 2 | 5 => 2%nat | 0 => 1%nat | _ => 0%nat end.
Definition field_value (source_type toff tsel : Z) : Z :=
  match source_type with 3 => toff + tsel * 65536 | 2 => tsel | 0 => as_u M8 toff | _ => toff end.
Definition field (source_type toff tsel a : Z) : nat * Z * Z :=
  (field_width source_type, a, field_value source_type toff tsel).
(** The bytes a place of a chain takes: a link has two. *)
Definition place (source_type : Z) (additive : bool) (a : Z) : nat * Z * Z :=
  (if additive then field_width source_type else (2 `max` field_width source_type)%nat, a, 0).

(** The places of a chain are linked in memory, the last one by 0xFFFF. *)
Fixpoint linked (m : GuestMemory) (base : Z) (offs : list Z) : Prop :=
  match offs with
  | [] => False
  | [o] => read16 m (base + o) = Some 0xFFFF
  | o :: (o' :: _) as rest => read16 m (base + o) = Some o' ∧ o' ≠ 0xFFFF ∧ linked m base rest
  end.
Definition chain (m : GuestMemory) (base : Z) (additive : bool) (o : Z) (offs : list Z) : Prop :=
  head offs = Some o ∧ if additive then offs = [o] else linked m base offs.

(** Memory changed in the cells of [l] only. *)
Record touched (l : list (nat * Z * Z)) (m m' : GuestMemory) : Prop := {
  to_wf : mem_wf m';
  to_size : GuestMem.size m' = GuestMem.size m;
  to_read : ∀ k o, Forall (λ c, apart c (k, o, 0)) l → read k m' o = read k m o;
}.
Lemma touched_nil m : mem_wf m → touched [] m m.
Proof. by split. Qed.
Lemma touched_app l1 l2 m1 m2 m3 : touched l1 m1 m2 → touched l2 m2 m3 → touched (l1 ++ l2) m1 m3.
Proof.
  intros [_ Hs1 Hr1] [Hw Hs2 Hr2]. split; [done|congruence|].
  intros k o [Ha Hb]%Forall_app. by rewrite Hr2, Hr1.
Qed.
Lemma changed_touched c m m' :
  changed_in c.1.2 (c.1.2 + Z.of_nat c.1.1) m m' → touched [c] m m'.
Proof.
  intros [Hw Hs Hr]. split; [done..|]. intros k o [Ha _]%Forall_cons. apply Hr.
  unfold apart in Ha. cbn [fst snd] in Ha. lia.
Qed.
Lemma touched_wider (c d : nat * Z * Z) m m' :
  touched [c] m m' → c.1.2 = d.1.2 → (c.1.1 ≤ d.1.1)%nat → touched [d] m m'.
Proof.
  intros [Hw Hs Hr] Ha Hn. split; [done..|]. intros k o [Hd _]%Forall_cons. apply Hr.
  constructor; [|constructor]. unfold apart in *. cbn [fst snd] in *. lia.
Qed.
Lemma touched_holds l m m' c :
  touched l m m' → Forall (λ d, apart d c) l → holds m c → holds m' c.
Proof.
  intros Ht Hl Hh. unfold holds. rewrite (to_read _ _ _ Ht); [done|].
  eapply Forall_impl; [exact Hl|]. by destruct c as [[n a] v].
Qed.

Lemma poke_ok n m a v :
  mem_wf m → a + Z.of_nat n ≤ GuestMem.size m →
  changed_in a (a + Z.of_nat n) m (poke n m a v) ∧ read n (poke n m a v) a = Some (v mod 256 ^ Z.of_nat n).
Proof.
  intros Hm Ha. split; [|by apply read_poke_same].
  split; [by apply poke_wf|apply poke_size|]. intros o k Ho. by apply read_poke_other.
Qed.
Lemma le_val_app2 (a b : bytes) : le_val (a ++ b) = le_val a + 256 ^ len a * le_val b.
Proof.
  induction a as [|x a IH]; [by rewrite Z.mul_1_l|]. rewrite len_cons. pose proof (len_nonneg a).
  rewrite Z.pow_add_r by lia. cbn [le_val app]. rewrite IH. lia.
Qed.
Lemma read_halves m a x y :
  mem_wf m → a + 4 ≤ GuestMem.size m → read16 m a = Some x → read16 m (a + 2) = Some y →
  read32 m a = Some (x + y * 65536).
Proof.
  intros Hm Ha. pose proof (mem_size m Hm). rewrite !read_ok by lia. intros [= <-] [= <-].
  change (load_bytes m a 4) with (load_bytes m a (2 + 2)). rewrite load_bytes_app, le_val_app2. f_equal.
  change (256 ^ len (load_bytes m a 2)) with 65536. change (Z.of_nat 2) with 2. rewrite Z.mul_comm. reflexivity.
Qed.

Section chains.
Context {B : Build}.

Lemma patch_ok ty a toff tsel m :
  mem_wf m → u16 toff → u16 tsel → a + 4 ≤ GuestMem.size m → a + 4 < M32 →
  ∃ m', patch ty a toff tsel m = Ok m' ∧ touched [field ty toff tsel a] m m' ∧
        holds m' (field ty toff tsel a).
Proof.
  unfold u16. intros Hm Ho Hs Ha H32. unfold patch.
  assert (H1 : ∀ n v, (n ≤ 4)%nat → touched [(n, a, v)] m (poke n m a v) ∧ holds (poke n m a v) (n, a, v)).
  { intros n v Hn. destruct (poke_ok n m a v Hm) as [Hc Hr]; [lia|]. split; [by apply changed_touched|done]. }
  assert (H0 : field ty toff tsel a = (0%nat, a, toff) →
    touched [field ty toff tsel a] m m ∧ holds m (field ty toff tsel a)).
  { intros ->. split; [by split|]. unfold holds, read. cbn [fst snd].
    rewrite (proj2 (ptr_at_Some m a _ a (proj2 (mem_size m Hm)))) by (split; [done|lia]). simpl.
    by rewrite Z.mod_1_r. }
  destruct (Z.eq_dec ty 3) as [-> |Hty].
  - rewrite uadd_ok by lia. out_simpl. eexists. split; [done|].
    destruct (poke_ok 2 m a toff Hm) as [Hc1 Hr1]; [lia|].
    destruct (poke_ok 2 (poke 2 m a toff) (a + 2) tsel) as [Hc2 Hr2];
      [apply Hc1|rewrite (ch_size _ _ _ _ Hc1); lia|].
    split.
    + apply changed_touched. cbn [field fst snd field_width]. eapply changed_trans.
      * eapply changed_mono; [..|exact Hc1]; lia.
      * eapply changed_mono; [..|exact Hc2]; lia.
    + unfold holds. cbn [field fst snd field_width]. rewrite Z.mod_small.
      2: { cbn [field_value]. change (256 ^ Z.of_nat 4) with M32. lia. }
      apply read_halves; [apply Hc2| |rewrite (ch_read _ _ _ _ Hc2) by lia|].
      * rewrite (ch_size _ _ _ _ Hc2), (ch_size _ _ _ _ Hc1). lia.
      * rewrite Hr1. f_equal. by apply Z.mod_small.
      * rewrite Hr2. f_equal. by apply Z.mod_small.
  - repeat (case_match; try done); eexists; (split; [done|]); first [by apply H0 | apply H1; lia].
Qed.

(** A chain survives a change elsewhere. *)
Lemma linked_keeps m m' base offs l :
  touched l m m' → Forall (λ o, Forall (λ c, apart c (2%nat, base + o, 0)) l) offs →
  linked m base offs → linked m' base offs.
Proof.
  intros Ht. induction offs as [|o [|o' offs] IH]; [done| |].
  - intros [Ho _]%Forall_cons. cbn [linked]. by rewrite (to_read _ _ _ Ht).
  - intros [Ho Hos]%Forall_cons (H1 & H2 & H3). split; [by rewrite (to_read _ _ _ Ht)|]. split; [done|].
    by apply IH.
Qed.

Lemma apart_smaller (c d c' d' : nat * Z * Z) :
  apart c d → c'.1.2 = c.1.2 → d'.1.2 = d.1.2 → (c'.1.1 ≤ c.1.1)%nat → (d'.1.1 ≤ d.1.1)%nat → apart c' d'.
Proof. unfold apart. lia. Qed.
Lemma place_width ty add a : (field_width ty ≤ (place ty add a).1.1)%nat.
Proof. unfold place. cbn [fst]. destruct add; lia. Qed.

Lemma walk_chain_ok ty (add : bool) base toff tsel offs m o fuel :
  mem_wf m → u16 toff → u16 tsel → chain m base add o offs → (length offs ≤ fuel)%nat →
  Forall (λ o, base + o + 4 ≤ GuestMem.size m ∧ base + o + 4 < M32) offs →
  all_apart (map (λ o, place ty add (base + o)) offs) →
  ∃ m', walk_chain fuel ty add base toff tsel o m = Ok m' ∧
    touched (map (λ o, place ty add (base + o)) offs) m m' ∧
    Forall (λ o, holds m' (field ty toff tsel (base + o))) offs.
Proof.
  intros Hm Ho Hs. revert m o fuel Hm. induction offs as [|o1 offs IH]; intros m o fuel Hm [Hhd Hch] Hf Hr Ha; [done|].
  injection Hhd as ->. destruct fuel as [|fuel]; [simpl in Hf; lia|].
  apply Forall_cons in Hr as [[Hr1 Hr2] Hr]. destruct Ha as [Ha1 Ha]. fold (map (λ o, place ty add (base + o))) in *.
  cbn [walk_chain]. rewrite uadd_ok by lia. out_simpl.
  destruct (patch_ok ty (base + o) toff tsel m Hm Ho Hs) as (m1 & -> & Ht1 & Hh1); [done..|]. out_simpl.
  assert (Ht : touched [place ty add (base + o)] m m1).
  { eapply touched_wider; [exact Ht1|done|]. apply place_width. }
  destruct add.
  { injection Hch as ->. exists m1. split; [done|]. split; [done|]. by repeat constructor. }
  destruct offs as [|o' offs].
  { cbn [linked] in Hch. rewrite Hch. exists m1. split; [done|]. split; [done|]. by repeat constructor. }
  destruct Hch as (Hl & Hne & Hch). rewrite Hl. cbn [default orb id].
  rewrite (proj2 (Z.eqb_neq o' 0xFFFF)) by done.
  destruct (IH m1 o' fuel) as (m' & -> & Ht2 & Hh2); [apply Ht| |simpl in *; lia| |done|].
  - split; [done|]. eapply linked_keeps; [exact Ht| |exact Hch].
    pose proof (proj1 (Forall_map _ _ _) Ha1) as Ha1'. eapply Forall_impl; [exact Ha1'|]. intros x Hx. constructor; [|constructor].
    eapply apart_smaller; [exact Hx|done|done|done|]. unfold place. cbn [fst]. lia.
  - rewrite (to_size _ _ _ Ht). done.
  - exists m'. split; [done|]. split; [eapply (touched_app [_]); [exact Ht|exact Ht2]|].
    constructor; [|done]. eapply touched_holds; [exact Ht2| |exact Hh1].
    eapply Forall_impl; [exact Ha1|]. intros d Hd. unfold apart in *.
    pose proof (place_width ty false (base + o)). cbn [field fst snd] in *. unfold place in *. cbn [fst snd] in *. lia.
Qed.

(** ** All relocations of a module *)

(** The relocations with the base of their segment, in order. *)
Definition jobs (f : NeFile) : list (Z * NeRelocationEntry) :=
  concat (zip_with (λ i relocs, map (pair (NE_SEGMENT_BASE + i * TILE_SIZE)) relocs)
            (seqZ 0 (len (relocations_by_segment f))) (relocations_by_segment f)).
(** The descriptor index of the first segment. *)
Definition SEG_GDT := TILED_SEL_START_INDEX + NE_SEGMENT_BASE / TILE_SIZE.
(** The descriptor that [setup_idt] puts behind a selector starts at [addr], and is one for code
    or not. *)
Definition tile_selector (sel addr : Z) (exec : bool) : Prop :=
  u16 sel ∧ sel mod 8 = 0 ∧
  ∀ m m', mem_wf m → IDT_END ≤ GuestMem.size m → setup_idt m = Ok m' →
    gdt_entry_base m' sel = addr ∧ Z.testbit (gdt_entry m' sel) 43 = exec.
(** The modules with an API area, and the number of a function among all stubs: where the
    32-bit loader finds it.  Functions of other modules lie from the last stub on. *)
Definition NE_MODULES : list rstring :=
  map str ["DOSCALLS"; "VIOCALLS"; "KBDCALLS"; "SESMGR"; "NLS"; "MSG"].
Definition api_number (module : rstring) (ordinal : Z) : Z :=
  if bool_decide (module ∈ NE_MODULES)
  then Descriptors.resolve_import Managers.dll_manager_new module ordinal - MAGIC_API_BASE
  else 16383 + ordinal.
(** The module of a number, from 1. *)
Definition imported_module (f : NeFile) (i : Z) : rstring :=
  default (str "?") (imported_modules f !! Z.to_nat (i - 1)).

(** The far pointer a target asks for: an offset in a segment of the module, the breakpoint of
    a function behind the code selector of the thunk tile, or the start of the tile for a
    function by name, which is not supported. *)
Definition far_target (f : NeFile) (t : NeRelocationTarget) (toff tsel : Z) : Prop :=
  match t with
  | InternalRef n off =>
    toff = off ∧ tsel = (SEG_GDT + (n - 1)) * 8 ∧
    tile_selector tsel (NE_SEGMENT_BASE + (n - 1) * TILE_SIZE) false
  | ImportOrdinal i o =>
    toff = api_number (imported_module f i) o ∧ tile_selector tsel NE_THUNK_BASE true
  | ImportName _ _ => toff = 0 ∧ tile_selector tsel NE_THUNK_BASE false
  | OsFixup _ => False
  end.
(** Segment number 255 stands for an entry point of the module in the format. *)
Definition target_wf (f : NeFile) (t : NeRelocationTarget) : Prop :=
  match t with
  | InternalRef n off => 1 ≤ n < 255 ∧ u16 off
  | ImportOrdinal i o => 1 ≤ i < M16 ∧ 0 ≤ o ∧ api_number (imported_module f i) o < M16
  | ImportName _ _ | OsFixup _ => True
  end.
Definition is_os_fixup (t : NeRelocationTarget) : bool :=
  match t with OsFixup _ => true | _ => false end.
(** [offs] are the places of a relocation in memory; an OS fixup has none. *)
Definition job_ok (f : NeFile) (m : GuestMemory) (j : Z * NeRelocationEntry) (offs : list Z) : Prop :=
  target_wf f (target j.2) ∧
  if is_os_fixup (target j.2) then offs = []
  else chain m j.1 (is_additive j.2) (source_offset j.2) offs ∧
    Forall (λ o, j.1 + o + 4 ≤ GuestMem.size m ∧ j.1 + o + 4 < M32) offs.
Definition job_places (j : Z * NeRelocationEntry) (offs : list Z) : list (nat * Z * Z) :=
  map (λ o, place (source_type j.2) (is_additive j.2) (j.1 + o)) offs.
(** Each place holds the target. *)
Definition job_done (f : NeFile) (m : GuestMemory) (j : Z * NeRelocationEntry) (offs : list Z) : Prop :=
  is_os_fixup (target j.2) = false →
  ∃ toff tsel, far_target f (target j.2) toff tsel ∧
    Forall (λ o, holds m (field (source_type j.2) toff tsel (j.1 + o))) offs.

Lemma make_gdt_entry_code base limit access flags :
  Z.testbit (make_gdt_entry base limit access flags) 43 = Z.testbit access 3.
Proof.
  unfold make_gdt_entry. rewrite !Z.lor_spec, !Z.shiftl_spec, !Z.land_spec by lia.
  change (43 - 40) with 3. destruct (Z.testbit access 3); rewrite ?orb_true_r; [done|].
  repeat match goal with
  | |- context [Z.testbit ?x (43 - ?k)] => rewrite (Z.testbit_neg_r x (43 - k)) by lia
  end.
  by rewrite !andb_false_r.
Qed.
Lemma tile_selector_data i :
  0 ≤ i < NUM_TILES → tile_selector ((TILED_SEL_START_INDEX + i) * 8) (i * TILE_SIZE) false.
Proof.
  unfold tile_selector, u16, TILED_SEL_START_INDEX, NUM_TILES, TILE_SIZE. intros Hi.
  split; [lia|]. split; [by apply Z.mod_mul|]. intros m m' Hm Hs Heq.
  destruct (setup_idt_ok m Hm Hs) as (m1 & Heq1 & _ & Hd & _). rewrite Heq in Heq1. injection Heq1 as <-.
  unfold gdt_entry_base, gdt_entry. rewrite Z.div_mul by done.
  specialize (Hd i Hi). unfold TILED_SEL_START_INDEX, TILE_SIZE in Hd. rewrite Hd. cbn [default id].
  split; [by apply make_gdt_entry_decode; lia|]. by apply make_gdt_entry_code.
Qed.
Lemma tile_selector_code i :
  0 ≤ i < NUM_CODE_TILES → tile_selector ((TILED_CODE_START_INDEX + i) * 8) (i * TILE_SIZE) true.
Proof.
  unfold tile_selector, u16, TILED_CODE_START_INDEX, TILED_SEL_START_INDEX, NUM_TILES, NUM_CODE_TILES, TILE_SIZE.
  intros Hi. split; [lia|]. split; [by apply Z.mod_mul|]. intros m m' Hm Hs Heq.
  destruct (setup_idt_ok m Hm Hs) as (m1 & Heq1 & _ & _ & Hd). rewrite Heq in Heq1. injection Heq1 as <-.
  unfold gdt_entry_base, gdt_entry. rewrite Z.div_mul by done.
  specialize (Hd i Hi). unfold TILED_CODE_START_INDEX, TILED_SEL_START_INDEX, NUM_TILES, TILE_SIZE in Hd.
  rewrite Hd. cbn [default id].
  split; [by apply make_gdt_entry_decode; lia|]. by apply make_gdt_entry_code.
Qed.
Lemma seg_selector_ok n : 1 ≤ n ≤ 255 → seg_selector n = Ok ((SEG_GDT - 1 + n) * 8).
Proof.
  intros Hn. unfold seg_selector. change (NE_SEGMENT_BASE / TILE_SIZE) with 16.
  change TILED_SEL_START_INDEX with 6. change SEG_GDT with 22. unfold wrapping_sub. rewrite Z.mod_small by lia.
  rewrite uadd_ok by lia. out_simpl. rewrite uadd_ok by lia. out_simpl. rewrite umul_ok by lia. out_simpl.
  rewrite as_u_small by lia. f_equal. lia.
Qed.
Lemma resolve_import_16_ok n o :
  0 ≤ o → api_number n o < M16 → resolve_import_16 n o = Ok (api_number n o) ∧ 0 ≤ api_number n o.
Proof.
  intros Ho Hn. assert (module_base n + o = api_number n o ∧ 0 ≤ module_base n) as [Heq Hb].
  { unfold api_number in *. case_bool_decide as Hin.
    - apply list_elem_of_In in Hin. cbn [NE_MODULES map In] in Hin.
      repeat (destruct Hin as [<-|Hin]; [unfold module_base, Descriptors.resolve_import;
        repeat (first [rewrite bool_decide_eq_true_2 by done|rewrite bool_decide_eq_false_2 by (intros Hx; vm_compute in Hx; discriminate)]);
        unfold MAGIC_API_BASE; (split; [|by vm_compute]); rewrite ?as_u_small by done; lia|]). done.
    - assert (Hne : ∀ x, x ∈ NE_MODULES → n ≠ x) by (intros x Hx Heq; subst x; by apply Hin). unfold module_base.
      rewrite !bool_decide_eq_false_2 by (apply Hne, list_elem_of_In; cbn [NE_MODULES map In]; tauto).
      change (as_u M16 STUB_AREA_SIZE - 1) with 16383. done. }
  unfold resolve_import_16. rewrite uadd_ok by lia. split; [by rewrite Heq|lia].
Qed.
Lemma resolve_target_ok f t :
  target_wf f t →
  if is_os_fixup t then resolve_target f t = Ok None
  else ∃ toff tsel, resolve_target f t = Ok (Some (toff, tsel)) ∧ u16 toff ∧ u16 tsel ∧ far_target f t toff tsel.
Proof.
  destruct t as [n off|i o|i o|x]; cbn [is_os_fixup target_wf resolve_target far_target].
  - intros [Hn Hoff]. rewrite seg_selector_ok by lia. out_simpl.
    pose proof (tile_selector_data (16 + (n - 1)) ltac:(unfold NUM_TILES; lia)) as Ht.
    assert ((TILED_SEL_START_INDEX + (16 + (n - 1))) * 8 = (SEG_GDT - 1 + n) * 8) as Hs
      by (change SEG_GDT with 22; unfold TILED_SEL_START_INDEX; lia). rewrite Hs in Ht.
    eexists _, _. split; [done|]. split; [done|]. split; [apply Ht|]. split; [done|]. split; [lia|].
    replace (NE_SEGMENT_BASE + (n - 1) * TILE_SIZE) with ((16 + (n - 1)) * TILE_SIZE)
      by (unfold NE_SEGMENT_BASE, TILE_SIZE; lia). done.
  - intros (Hi & Ho & Hn). assert (module_of f i = imported_module f i) as ->.
    { unfold module_of, imported_module, wrapping_sub. rewrite Z.mod_small by lia. by rewrite idx_lookup by lia. }
    destruct (resolve_import_16_ok _ o Ho Hn) as [-> Hr]. out_simpl. eexists _, _. split; [done|].
    split; [done|]. split; [done|]. split; [done|].
    apply (tile_selector_code NE_THUNK_TILE_INDEX). done.
  - intros _. eexists _, _. split; [done|]. split; [done|]. split; [done|]. split; [done|].
    apply (tile_selector_data NE_THUNK_TILE_INDEX). done.
  - done.
Qed.

Lemma seg_base_ok i : 0 ≤ i < 255 → seg_base (as_u M8 (i + 1)) = Ok (NE_SEGMENT_BASE + i * TILE_SIZE).
Proof.
  intros Hi. unfold seg_base. rewrite as_u_small by lia. unfold wrapping_sub, NE_SEGMENT_BASE, TILE_SIZE.
  rewrite Z.mod_small by lia. rewrite umul_ok by lia. out_simpl. rewrite uadd_ok by lia. f_equal. lia.
Qed.
Lemma numbered_jobs fuel f l i m :
  0 ≤ i → i + len l ≤ 255 →
  for_in (zip (seqZ i (len l)) l) (λ '(seg_idx, relocs) m,
    seg_guest_base ← seg_base (as_u M8 (seg_idx + 1));
    for_in relocs (apply_reloc fuel f seg_guest_base) m) m =
  for_in (concat (zip_with (λ i relocs, map (pair (NE_SEGMENT_BASE + i * TILE_SIZE)) relocs)
                    (seqZ i (len l)) l)) (λ j, apply_reloc fuel f j.1 j.2) m.
Proof.
  revert i m. induction l as [|rs l IH]; intros i m Hi Hlen; [done|].
  rewrite len_cons in *. pose proof (len_nonneg l). rewrite seqZ_cons by lia.
  replace (Z.pred (1 + len l)) with (len l) by lia.
  cbn [zip zip_with for_in concat]. rewrite for_in_app, seg_base_ok by lia. out_simpl.
  rewrite for_in_map. cbn [fst snd]. destruct (for_in rs _ m); out_simpl; [|done..]. apply IH; lia.
Qed.
Lemma apply_ne_fixups_jobs fuel f m :
  len (relocations_by_segment f) ≤ 255 →
  apply_ne_fixups fuel f m = for_in (jobs f) (λ j, apply_reloc fuel f j.1 j.2) m.
Proof. intros H. apply numbered_jobs; lia. Qed.

Lemma all_apart_app l1 l2 :
  all_apart (l1 ++ l2) ↔ all_apart l1 ∧ all_apart l2 ∧ Forall (λ c, Forall (apart c) l2) l1.
Proof.
  induction l1 as [|c l1 IH]; cbn [all_apart app]; [by rewrite Forall_nil; naive_solver|].
  rewrite IH, Forall_app, Forall_cons. naive_solver.
Qed.
Lemma apart_sym c d : apart c d → apart d c.
Proof. unfold apart. lia. Qed.

(** One relocation, and what it leaves to the others. *)
Lemma apply_reloc_ok fuel f m j offs :
  mem_wf m → job_ok f m j offs → (length offs ≤ fuel)%nat → all_apart (job_places j offs) →
  ∃ m', apply_reloc fuel f j.1 j.2 m = Ok m' ∧ touched (job_places j offs) m m' ∧ job_done f m' j offs.
Proof.
  intros Hm [Hwf Hj] Hf Ha. unfold apply_reloc, job_done. apply resolve_target_ok in Hwf.
  destruct (is_os_fixup (target j.2)).
  - rewrite Hwf. out_simpl. subst offs. exists m. split; [done|]. split; [by apply touched_nil|done].
  - destruct Hwf as (toff & tsel & -> & Ho & Hs & Ht). out_simpl. destruct Hj as [H3 H4].
    destruct (walk_chain_ok (source_type j.2) (is_additive j.2) j.1 toff tsel offs m (source_offset j.2) fuel)
      as (m' & Hw & Htm & Hd); [done..|]. exists m'. split; [done|]. split; [done|]. intros _. by exists toff, tsel.
Qed.
Lemma job_ok_keeps f m m' l j offs :
  touched l m m' → Forall (λ c, Forall (apart c) (job_places j offs)) l → job_ok f m j offs → job_ok f m' j offs.
Proof.
  intros Ht Hl [Hwf Hj]. split; [done|]. destruct (is_os_fixup (target j.2)); [done|].
  destruct Hj as ([H3 H4] & H5). split.
  - split; [done|]. destruct (is_additive j.2) eqn:Hadd; [done|]. eapply linked_keeps; [exact Ht| |exact H4].
    apply Forall_forall. intros o Ho. eapply Forall_impl; [exact Hl|]. intros c Hc.
    unfold job_places in Hc. rewrite Forall_forall in Hc.
    eapply apart_smaller; [apply Hc, list_elem_of_fmap; by eexists|done|done|done|].
    unfold place. rewrite Hadd. cbn [fst]. lia.
  - by rewrite (to_size _ _ _ Ht).
Qed.
Lemma job_done_keeps f m m' l j offs :
  touched l m m' → Forall (λ c, Forall (λ d, apart d c) l) (job_places j offs) → job_done f m j offs →
  job_done f m' j offs.
Proof.
  intros Ht Hl Hd Hos. destruct (Hd Hos) as (toff & tsel & Hfar & H). exists toff, tsel. split; [done|].
  apply Forall_forall. intros o Ho. rewrite Forall_forall in H.
  eapply touched_holds; [exact Ht| |by apply H].
  unfold job_places in Hl. rewrite Forall_forall in Hl.
  eapply Forall_impl; [apply Hl, list_elem_of_fmap; by eexists|]. intros d Hd'.
  eapply apart_smaller; [exact Hd'|done|done|done|]. apply place_width.
Qed.

End chains.

(** * The start of a 16-bit program *)

(** What the descriptor of segment [i], from 0, holds. *)
Definition segment_entry (i : Z) (s : NeSegmentEntry) : Z :=
  make_gdt_entry (NE_SEGMENT_BASE + i * TILE_SIZE) (Z.min (saturating_sub (actual_min_alloc s) 1) 0xFFFF)
    (if is_code s then 0x9B else 0xD3) 0x00.
Definition seg_ok (s : NeSegmentEntry) : Prop := u16 (min_alloc_size s).


Section start.
Context {B : Build} (to_uppercase : Z → rstring).

Lemma segment_addr_ok {E} i : 0 ≤ i < 255 → segment_addr (E:=E) i = Ok (NE_SEGMENT_BASE + i * TILE_SIZE).
Proof.
  intros Hi. unfold segment_addr, NE_SEGMENT_BASE, TILE_SIZE. rewrite as_u_small by lia.
  rewrite umul_ok by lia. out_simpl. by rewrite uadd_ok by lia.
Qed.
Lemma segment_selector_ok n : 1 ≤ n ≤ 255 → segment_selector n = Ok ((SEG_GDT - 1 + n) * 8).
Proof.
  intros Hn. unfold segment_selector. change (NE_SEGMENT_BASE / TILE_SIZE) with 16.
  change TILED_SEL_START_INDEX with 6. change SEG_GDT with 22.
  rewrite uadd_ok by lia. out_simpl. rewrite uadd_ok by lia. out_simpl. rewrite umul_ok by lia. out_simpl.
  rewrite as_u_small by lia. f_equal. lia.
Qed.
Lemma segment_entry_decode i s :
  0 ≤ i < 255 → seg_ok s →
  entry_base (segment_entry i s) = NE_SEGMENT_BASE + i * TILE_SIZE ∧
  entry_limit (segment_entry i s) = actual_min_alloc s - 1 ∧ 0 ≤ segment_entry i s < M64.
Proof.
  unfold seg_ok, u16, NE_SEGMENT_BASE, TILE_SIZE. intros Hi Hs. unfold segment_entry.
  assert (Z.min (saturating_sub (actual_min_alloc s) 1) 0xFFFF = actual_min_alloc s - 1 ∧
          0 ≤ actual_min_alloc s - 1 < 0x10000) as [-> Hl].
  { unfold actual_min_alloc, saturating_sub. destruct (Z.eqb_spec (min_alloc_size s) 0); lia. }
  unfold NE_SEGMENT_BASE, TILE_SIZE.
  apply make_gdt_entry_decode; [lia|lia|by destruct (is_code s)|done].
Qed.
Lemma segment_descriptor_ok i s m :
  0 ≤ i < 255 → seg_ok s → mem_wf m → IDT_BASE ≤ GuestMem.size m →
  let a := GDT_BASE + (SEG_GDT + i) * 8 in
  ∃ m', segment_descriptor i s m = Ok m' ∧ changed_in a (a + 8) m m' ∧ read64 m' a = Some (segment_entry i s).
Proof.
  intros Hi Hs Hm Hsz a. unfold segment_descriptor. rewrite segment_addr_ok by done. out_simpl.
  change TILED_SEL_START_INDEX with 6.
  assert ((NE_SEGMENT_BASE + i * TILE_SIZE) / TILE_SIZE = 16 + i) as ->.
  { unfold NE_SEGMENT_BASE, TILE_SIZE. rewrite Z.div_add by done. done. }
  rewrite uadd_ok by lia. out_simpl. rewrite umul_ok by lia. out_simpl. unfold GDT_BASE, IDT_BASE in *.
  change SEG_GDT with 22 in a. rewrite uadd_ok by lia. out_simpl.
  replace (0x80000 + (6 + (16 + i)) * 8) with a by (unfold a; lia).
  destruct (write_step a (a + 8) 8 m a (segment_entry i s) Hm) as (m' & Hw & Hc & Hr); [unfold a; lia..|].
  exists m'. split; [exact Hw|]. split; [done|]. rewrite Hr. f_equal. apply Z.mod_small.
  by destruct (segment_entry_decode i s Hi Hs) as (_ & _ & ?).
Qed.
Lemma segment_descriptors_ok l i m :
  0 ≤ i → i + len l ≤ 255 → Forall seg_ok l → mem_wf m → IDT_BASE ≤ GuestMem.size m →
  let a j := GDT_BASE + (SEG_GDT + j) * 8 in
  ∃ m', for_in (zip (seqZ i (len l)) l) (λ '(i, s) m, segment_descriptor i s m) m = Ok m' ∧
    changed_in (a i) (a (i + len l)) m m' ∧
    ∀ j s, l !! j = Some s → read64 m' (a (i + Z.of_nat j)) = Some (segment_entry (i + Z.of_nat j) s).
Proof.
  cbv zeta. intros Hi Hlen Hl. revert i m Hi Hlen. induction Hl as [|s l Hs Hl IH]; intros i m Hi Hlen Hm Hsz.
  { exists m. split; [done|]. split; [by apply changed_refl|done]. }
  rewrite len_cons in *. pose proof (len_nonneg l). rewrite seqZ_cons by lia.
  replace (Z.pred (1 + len l)) with (len l) by lia. cbn [zip zip_with for_in].
  destruct (segment_descriptor_ok i s m) as (m1 & Hw1 & Hc1 & Hr1); [lia|done..|].
  eapply bind_ex; [exact Hw1|]. cbv beta.
  destruct (IH (Z.succ i) m1) as (m' & Hw & Hc & Hr); [lia|lia|apply Hc1|by rewrite (ch_size _ _ _ _ Hc1)|].
  exists m'. split; [exact Hw|]. split.
  - eapply changed_trans; [eapply changed_mono; [..|exact Hc1]; lia|]. eapply changed_mono; [..|exact Hc]; lia.
  - intros [|j] s'; cbn [lookup list_lookup].
    + intros [= <-]. rewrite Z.add_0_r. rewrite (ch_read _ _ _ _ Hc) by lia. done.
    + intros Hj. replace (i + Z.of_nat (S j)) with (Z.succ i + Z.of_nat j) by lia. by apply Hr.
Qed.

Lemma fill_ok n a v m :
  mem_wf m → 0 ≤ n → a + n ≤ GuestMem.size m → is_byte v →
  ∃ m', fill n a v m = Ok m' ∧ changed_in a (a + n) m m' ∧ ∀ j, 0 ≤ j < n → read8 m' (a + j) = Some v.
Proof.
  intros Hm Hn Hs Hv. destruct (for_range_fill (Z.to_nat n) 0 a v m) as (m' & Hw & Hc & Hr); [done|lia|done|].
  exists m'. split; [exact Hw|]. split; [eapply changed_mono; [..|exact Hc]; lia|]. intros. apply Hr. lia.
Qed.
Lemma gdt_entry_at m i e : read64 m (GDT_BASE + i * 8) = Some e → 0 ≤ i → gdt_entry m (i * 8) = e.
Proof. intros Hr Hi. unfold gdt_entry. by rewrite Z.div_mul, Hr by done. Qed.

(** The entry and stack of a module whose entry segment and stack segment exist. *)
Definition start_sp (f : NeFile) (ss : NeSegmentEntry) : Z :=
  if stack_sp (header f) =? 0 then as_u M16 (actual_min_alloc ss) else stack_sp (header f).
Lemma entry_point_ok f ss :
  1 ≤ entry_cs (header f) ≤ len (segment_table f) → 1 ≤ stack_ss (header f) →
  idx (segment_table f) (stack_ss (header f) - 1) = Some ss → len (segment_table f) ≤ 255 →
  entry_point f = Ok ((SEG_GDT - 1 + entry_cs (header f)) * 8, entry_ip (header f),
                      (SEG_GDT - 1 + stack_ss (header f)) * 8, start_sp f ss).
Proof.
  intros Hcs Hss Hi Hlen. unfold entry_point, start_sp.
  assert (stack_ss (header f) ≤ len (segment_table f)) as Hle.
  { apply idx_Some_range in Hi. lia. }
  rewrite !(proj2 (Z.ltb_lt 0 _)) by lia. rewrite !segment_selector_ok by lia. out_simpl.
  unfold wrapping_sub. rewrite Z.mod_small, Hi by lia. by destruct (_ =? 0).
Qed.

Lemma data_selector_ok f ss_sel :
  len (segment_table f) ≤ 255 → ∃ ds, data_selector f ss_sel = Ok ds.
Proof.
  intros Hn. unfold data_selector. destruct (Z.ltb_spec 0 (auto_data_segment (header f))); simpl; [|by eexists].
  destruct (Z.leb_spec (auto_data_segment (header f)) (len (segment_table f))); [|by eexists].
  rewrite segment_selector_ok by lia. by eexists.
Qed.

Lemma ne_vcpu_ok f cs_sel ip ss_sel sp r t m ds_sel :
  data_selector f ss_sel = Ok ds_sel →
  ne_vcpu f cs_sel ip ss_sel sp r t m =
  Ok (start_regs r ip sp,
      mk_sregs (segment16 m cs_sel 11) (segment16 m ds_sel 3) (segment16 m ds_sel 3) flat_seg flat_seg
               (segment16 m ss_sel 3),
      mk_tables GDT_BASE (GDT_SIZE - 1) IDT_BASE (32 * 8 - 1) 0x11 (cr4 t)).
Proof. intros H. unfold ne_vcpu. by rewrite H. Qed.

(** The memory a 16-bit program starts with, from the memory [m] it was loaded into. *)
Record ne_ready (f : NeFile) (m m' : GuestMemory) : Prop := {
  nr_wf : mem_wf m';
  nr_image : ∀ o k, NE_SEGMENT_BASE ≤ o → o + Z.of_nat k ≤ NE_THUNK_BASE → read k m' o = read k m o;
  nr_segment : ∀ i s, segment_table f !! i = Some s →
    seg_selector (Z.of_nat i + 1) = Ok ((SEG_GDT + Z.of_nat i) * 8) ∧
    gdt_entry_base m' ((SEG_GDT + Z.of_nat i) * 8) = NE_SEGMENT_BASE + Z.of_nat i * TILE_SIZE ∧
    gdt_entry_limit m' ((SEG_GDT + Z.of_nat i) * 8) = actual_min_alloc s - 1;
  nr_thunk_base : gdt_entry_base m' NE_THUNK_CODE_SELECTOR = NE_THUNK_BASE;
  nr_thunk : ∀ j, 0 ≤ j < TILE_SIZE → read8 m' (NE_THUNK_BASE + j) = Some 0xCC;
}.

(** C19: a 16-bit program of at most 224 segments starts in the machine its code expects: the
    image loaded into the segments is intact, each segment's selector (the one the relocations
    store) decodes to where the segment was loaded with its size as the limit, CS:IP and SS:SP
    are those of the header through these selectors, and a far call through the thunk selector
    with any offset meets a breakpoint in the thunk tile. *)
Theorem ne_program_started (f : NeFile) (exe_name : rstring) (rows cols : Z)
    (h : MemMgr.MemoryManager) (m : GuestMemory) (r : GuestRegs) (t : table_regs)
    (ss : NeSegmentEntry) :
  let exe := os2_exe to_uppercase exe_name in
  mem_wf m → MemMgr.inv DYNAMIC_ALLOC_BASE h → MemMgr.limit h ≤ GuestMem.size m →
  MemMgr.next_free h + 4096 ≤ MemMgr.limit h →
  Forall is_char exe → len (env_block NE_ENV exe) ≤ 4096 →
  1 ≤ rows → 0 ≤ cols < M16 → cols * rows * 2 < M16 →
  len (segment_table f) ≤ 224 → Forall seg_ok (segment_table f) →
  1 ≤ entry_cs (header f) ≤ len (segment_table f) → 1 ≤ stack_ss (header f) →
  idx (segment_table f) (stack_ss (header f) - 1) = Some ss →
  ∃ r' s' t' h' m',
    setup_and_run_ne_cli to_uppercase f exe_name rows cols h m r t = Ok (r', s', t', h', m') ∧
    ne_ready f m m' ∧
    rip r' = entry_ip (header f) ∧
    base (sr_cs s') = NE_SEGMENT_BASE + (entry_cs (header f) - 1) * TILE_SIZE ∧
    rsp r' = start_sp f ss ∧
    base (sr_ss s') = NE_SEGMENT_BASE + (stack_ss (header f) - 1) * TILE_SIZE.
Proof.
  intros exe Hm Hh Hlim Hroom Hch Hlen Hr Hc Hp Hn Hseg Hcs Hss Hi.
  destruct (place_env_ok to_uppercase NE_ENV exe_name DYNAMIC_ALLOC_BASE h m) as
    (env & h1 & m1 & Henv & Hlo & Hhi & Hc1 & Hinv & _); [done..|]. fold exe in Hc1, Henv.
  pose proof (MemMgr.inv_range _ _ Hh) as Hrange. unfold MemMgr.heap_top in Hrange.
  pose proof (env_block_len NE_ENV exe) as Hbl. pose proof (len_nonneg (as_bytes exe)).
  pose proof (len_nonneg (env_vars NE_ENV)).
  pose proof (ch_size _ _ _ _ Hc1) as Hz1. unfold DYNAMIC_ALLOC_BASE in *.
  destruct (setup_low_ok [] env (env + len (env_vars NE_ENV)) rows cols m1) as (m2 & Hw2 & Hc2 & Hst & Himg);
    [by right|apply Hc1|unfold LOW_TOP, MAGIC_API_BASE, STUB_AREA_SIZE; lia
    |unfold u32; lia|unfold u32; lia|done..|].
  pose proof (ch_size _ _ _ _ Hc2) as Hz2.
  destruct (fill_ok TILE_SIZE NE_THUNK_BASE 0xCC m2) as (m3 & Hw3 & Hc3 & Hcc);
    [apply Hc2|done|unfold NE_THUNK_BASE, TILE_SIZE; lia|done|].
  pose proof (ch_size _ _ _ _ Hc3) as Hz3.
  destruct (segment_descriptors_ok (segment_table f) 0 m3) as (m4 & Hw4 & Hc4 & Hd);
    [done|lia|done|apply Hc3|unfold IDT_BASE; lia|].
  assert (Hready : ne_ready f m m4).
  { pose proof (st_code_tiles _ _ _ _ _ Hst NE_THUNK_TILE_INDEX) as Hct.
    change NE_THUNK_TILE_INDEX with 240 in Hct. unfold NUM_CODE_TILES, TILED_CODE_START_INDEX, NUM_TILES in Hct.
    change TILED_SEL_START_INDEX with 6 in Hct. change SEG_GDT with 22 in *.
    split; unfold LOW_TOP, MAGIC_API_BASE, STUB_AREA_SIZE, GDT_BASE, TILE_SIZE, NE_THUNK_BASE, NE_SEGMENT_BASE, PIB_BASE in *.
    - apply Hc4.
    - intros o k Ho Hk. rewrite (ch_read _ _ _ _ Hc4), (ch_read _ _ _ _ Hc3), Himg, (ch_read _ _ _ _ Hc1) by lia.
      done.
    - intros i s Hs. pose proof (lookup_lt_Some _ _ _ Hs) as Hlt. unfold len in Hn.
      split; [rewrite seg_selector_ok by lia; f_equal; change SEG_GDT with 22; lia|].
      pose proof (Hd i s Hs) as He. rewrite Z.add_0_l in He.
      rewrite Forall_lookup in Hseg. destruct (segment_entry_decode (Z.of_nat i) s) as (Hb & Hl & _); [lia|by eapply Hseg|].
      unfold gdt_entry_base, gdt_entry_limit. change SEG_GDT with 22.
      rewrite (gdt_entry_at m4 (22 + Z.of_nat i) _ He) by lia. by rewrite Hb, Hl.
    - change NE_THUNK_CODE_SELECTOR with (4342 * 8). unfold gdt_entry_base.
      rewrite (gdt_entry_at m4 4342 (make_gdt_entry (240 * 0x10000) 0xFFFF 0x9B 0)); [|unfold GDT_BASE|done].
      + by apply make_gdt_entry_decode.
      + rewrite (ch_read _ _ _ _ Hc4), (ch_read _ _ _ _ Hc3) by lia. by apply Hct.
    - intros j Hj. rewrite (ch_read _ _ _ _ Hc4) by lia. by apply Hcc. }
  pose proof (entry_point_ok f ss Hcs Hss Hi ltac:(lia)) as Hep.
  assert (Hbase : ∀ n, 1 ≤ n ≤ len (segment_table f) →
    gdt_entry_base m4 ((SEG_GDT - 1 + n) * 8) = NE_SEGMENT_BASE + (n - 1) * TILE_SIZE).
  { intros n Hn'. destruct (lookup_lt_is_Some_2 (segment_table f) (Z.to_nat (n - 1))) as [s Hs]; [unfold len in *; lia|].
    destruct (nr_segment _ _ _ Hready _ _ Hs) as (_ & Hb & _). rewrite Z2Nat.id in Hb by lia.
    replace (SEG_GDT - 1 + n) with (SEG_GDT + (n - 1)) by lia. done. }
  destruct (data_selector_ok f ((SEG_GDT - 1 + stack_ss (header f)) * 8) ltac:(lia)) as [ds Hds].
  assert (stack_ss (header f) ≤ len (segment_table f)) as Hle.
  { apply idx_Some_range in Hi. lia. }
  eexists _, _, _, _, m4. split; [|split; [exact Hready|]].
  - unfold setup_and_run_ne_cli, setup_guest_ne.
    eapply bind_eq.
    { eapply bind_eq; [exact Henv|]. cbv beta iota. eapply bind_eq; [exact Hw2|].
      eapply bind_eq; [exact Hw3|]. eapply bind_eq; [exact Hw4|]. eapply bind_eq; [exact Hep|]. reflexivity. }
    cbv beta iota. eapply bind_eq; [exact (ne_vcpu_ok _ _ _ _ _ r t _ _ Hds)|]. reflexivity.
  - cbn [rip start_regs rsp base sr_cs sr_ss segment16]. rewrite !Hbase by lia. done.
Qed.
End start.

(** * A call from 16-bit code *)

Section call.
Context {B : Build} (enc_decode : Encoding → bytes → rstring).

(** The words of the stack at [a]. *)
Fixpoint words_at (m : GuestMemory) (a : Z) (l : list Z) : Prop :=
  match l with [] => True | x :: l => read16 m a = Some x ∧ words_at m (a + 2) l end.

Lemma read_arg16_ok m a off x : a + off < M32 → read16 m (a + off) = Some x → read_arg16 m a off = Ok x.
Proof. intros Ha Hr. unfold read_arg16. rewrite uadd_ok by done. out_simpl. by rewrite Hr. Qed.
Lemma read_far_ptr_ok m a off o sel :
  a + off + 2 < M32 → read16 m (a + off) = Some o → read16 m (a + (off + 2)) = Some sel →
  gdt_entry_base m sel + o < M32 → read_far_ptr m a off = Ok (gdt_entry_base m sel + o).
Proof.
  intros Ha Hr1 Hr2 Hb. unfold read_far_ptr. rewrite (read_arg16_ok m a off o). 2: lia. 2: done. out_simpl.
  rewrite (read_arg16_ok m a (off + 2) sel). 2: lia. 2: done. out_simpl. by apply uadd_ok.
Qed.
Lemma poke_opt_ok m p v :
  mem_wf m → p ≠ 0 → p + 2 ≤ GuestMem.size m → u16 v →
  changed_in p (p + 2) m (poke_opt m p v) ∧ read16 (poke_opt m p v) p = Some v.
Proof.
  intros Hm Hp Hs Hv. unfold poke_opt. rewrite (proj2 (Z.eqb_neq p 0)) by done.
  destruct (poke_ok 2 m p v Hm) as [Hc Hr]; [lia|]. split; [done|]. rewrite Hr. f_equal. by apply Z.mod_small.
Qed.

(** A far call to DosWrite by a 16-bit program does what the call promises: reached through
    the thunk selector and the offset that the loader stored for the import, with the Pascal
    frame of a handle, a buffer, a length and a counter on the stack, it prints exactly the
    bytes of the buffer (as code page 437) to standard output or standard error, stores their
    number in the counter and nothing else in memory, and goes back to the caller with the
    result 0 and its arguments popped. *)
Theorem ne_write_call (r : GuestRegs) (s : GuestSregs) (w : world)
    (off ss_base sp ret_ip ret_cs pcb_off pcb_sel cb buf_off buf_sel hf : Z) (data : bytes) :
  let m := guest w in
  let a := ss_base + sp in
  let pcb := gdt_entry_base m pcb_sel + pcb_off in
  let buf := gdt_entry_base m buf_sel + buf_off in
  mem_wf m → resolve_import_16 (str "DOSCALLS") 138 = Ok off →
  base (sr_cs s) = NE_THUNK_BASE → rip r = off →
  base (sr_ss s) = ss_base → rsp r = sp → 0 ≤ ss_base → u16 sp → a + 16 < M32 →
  words_at m a [ret_ip; ret_cs; pcb_off; pcb_sel; cb; buf_off; buf_sel; hf] →
  u16 cb → pcb < M32 → buf < M32 → hf = 1 ∨ hf = 2 →
  slice_mut m buf cb = Some data →
  pcb ≠ 0 → pcb + 2 ≤ GuestMem.size m → pcb + 2 ≤ a ∨ a + 4 ≤ pcb →
  ∃ r' s' w', thunk_stop enc_decode r s w = Ok (Some (r', s', w')) ∧
    term w' = term w ++ [(hf, as_bytes (decode_single_byte data CP437_UPPER))] ∧
    read16 (guest w') pcb = Some cb ∧ changed_in pcb (pcb + 2) m (guest w') ∧
    console w' = console w ∧ exit_requested w' = exit_requested w ∧
    rip r' = ret_ip ∧ rsp r' = (sp + 16) mod M16 ∧ rax r' = 0 ∧ selector (sr_cs s') = ret_cs.
Proof.
  cbv zeta. unfold u16. intros Hm Hoff Hcs Hrip Hss Hrsp Hss0 Hsp Ha
    (Hw0 & Hw1 & Hw2 & Hw3 & Hw4 & Hw5 & Hw6 & Hw7 & _) Hcb Hp Hb Hhf Hs Hp0 Hps Hpa.
  set (m := guest w) in *. set (a := ss_base + sp) in *.
  set (pcb := gdt_entry_base m pcb_sel + pcb_off) in *. set (buf := gdt_entry_base m buf_sel + buf_off) in *.
  assert (Ha' : ss_base + sp + 16 < M32) by exact Ha.
  assert (off = 138) as ->.
  { revert Hoff. unfold resolve_import_16, module_base. rewrite bool_decide_true by done.
    rewrite uadd_ok by lia. by intros [= <-]. }
  assert (len data = cb) as Hlen.
  { revert Hs. unfold slice_mut. destruct (ptr_at _ _ _); simpl; [|done]. intros [= <-].
    unfold len. rewrite length_load_bytes. lia. }
  assert (ne_write w (a + 4) = Ok (0, with_guest (with_term w hf (as_bytes (decode_single_byte data CP437_UPPER)))
    (poke_opt m pcb cb))) as Hcall.
  { unfold ne_write. fold m.
    rewrite (read_far_ptr_ok m (a + 4) 0 pcb_off pcb_sel); [|lia|rewrite <- Hw2; f_equal; lia
      |rewrite <- Hw3; f_equal; lia|done]. out_simpl.
    rewrite (read_arg16_ok m (a + 4) 4 cb); [|lia|rewrite <- Hw4; f_equal; lia]. out_simpl.
    rewrite (read_far_ptr_ok m (a + 4) 6 buf_off buf_sel); [|lia|rewrite <- Hw5; f_equal; lia
      |rewrite <- Hw6; f_equal; lia|done]. out_simpl.
    rewrite (read_arg16_ok m (a + 4) 10 hf); [|lia|rewrite <- Hw7; f_equal; lia]. out_simpl.
    fold buf pcb. rewrite Hs. rewrite Hlen, (as_u_small M32 cb), (as_u_small M16 cb) by lia.
    replace ((hf =? 1) || (hf =? 2)) with true by (by destruct Hhf as [-> | ->]). done. }
  destruct (poke_opt_ok m pcb cb) as [Hch Hrd]; [done..|].
  eexists _, _, _. split.
  - unfold thunk_stop. rewrite Hcs, Hrip, Hss, Hrsp. unfold NE_THUNK_BASE. rewrite (uadd_ok M64 0xF00000 138) by lia. out_simpl.
    change (in_thunk_tile (0xF00000 + 138)) with true. cbv iota. rewrite !as_u_small by lia.
    rewrite uadd_ok by lia. out_simpl. rewrite uadd_ok by lia. out_simpl.
    change (0xF00000 + 138 - 0xF00000) with 138. unfold handle_ne_api_call.
    rewrite Hss, Hrsp. change (138 <? KBDCALLS_BASE) with true. cbv iota. rewrite !as_u_small by lia.
    rewrite uadd_ok by lia. out_simpl. rewrite uadd_ok by lia. out_simpl. change (ss_base + sp) with a. rewrite Hcall. out_simpl.
    unfold far_return. cbn [guest with_guest]. rewrite Hss, Hrsp, !as_u_small by lia.
    rewrite uadd_ok by lia. out_simpl. rewrite uadd_ok by lia. out_simpl.
    change (ss_base + sp) with a. rewrite !(ch_read _ _ _ _ Hch) by lia. rewrite Hw0, Hw1. cbn [default id].
    change (ne_api_arg_bytes 138) with (Ok (E:=()) 12). out_simpl. reflexivity.
  - split; [done|]. split; [exact Hrd|]. split; [exact Hch|].
    cbn [console with_guest with_term exit_requested rip rsp rax set_cs sr_cs selector].
    repeat (split; [done|]). split; [|by split]. unfold wrapping_add. rewrite Zplus_mod_idemp_l. f_equal. lia.
Qed.
End call.

(** * Concrete runs *)

(** A module of a code and a data segment: a chain of two far pointers to DOSCALLS.138, and an
    offset and a selector of the data segment. *)
Definition demo_header : NeHeader :=
  header_of (str "NE" ++ replicate 12 0 ++ le16 2 ++ replicate 4 0 ++ le32 0x00010004 ++
             le32 0x00020000 ++ replicate 36 0).
Definition demo_ne : NeFile :=
  mk_ne demo_header [mk_seg 1 0x40 0x0100 0x40; mk_seg 2 0x10 0x0001 0x200]
    [[mk_reloc 3 1 0x10 (ImportOrdinal 1 138); mk_reloc 5 4 0x30 (InternalRef 2 8);
      mk_reloc 2 4 0x32 (InternalRef 2 8)]; []]
    [str "DOSCALLS"] [] [] [] [] 64.
Definition demo_memory : GuestMemory :=
  let m := alloc 0x4000000 in
  let m := store_bytes m 0x100010 [0x20; 0; 0; 0] in
  store_bytes m 0x100020 [0xFF; 0xFF; 0; 0].
Definition demo_chains : list (list Z) := [[0x10; 0x20]; [0x30]; [0x32]].
Lemma demo_memory_wf : mem_wf demo_memory.
Proof.
  unfold demo_memory. apply store_bytes_wf; [apply store_bytes_wf; [by apply alloc_wf|]|];
    by repeat constructor.
Qed.

Example demo_chains_patched :
  (λ m, (read32 m 0x100010, read32 m 0x100020, read16 m 0x100030, read16 m 0x100032)) <$>
    apply_ne_fixups (B:=dev_profile) 2 demo_ne demo_memory =
  Ok (Some (138 + NE_THUNK_CODE_SELECTOR * 65536), Some (138 + NE_THUNK_CODE_SELECTOR * 65536),
      Some 8, Some ((SEG_GDT + 1) * 8)).
Proof. vm_compute. reflexivity. Qed.

#[export] Instance linked_dec m base offs : Decision (linked m base offs).
Proof. induction offs as [|o [|o' offs] IH]; simpl in *; apply _. Defined.
#[export] Instance chain_dec m base add o offs : Decision (chain m base add o offs).
Proof. unfold chain. destruct add; apply _. Defined.
#[export] Instance job_ok_dec f m j offs : Decision (job_ok f m j offs).
Proof.
  unfold job_ok, target_wf, u16. destruct (target j.2); cbn [is_os_fixup]; apply _.
Defined.

Lemma ne_program_started_witness :
  let no_regs := mk_regs 0 0 0 0 0 0 0 0 0 0 in
  ∃ r s t h m',
    setup_and_run_ne_cli (B:=dev_profile) (λ c, [c]) demo_ne (str "hello.exe") 25 80 demo_heap
      demo_memory no_regs (mk_tables 0 0 0 0 0 0) = Ok (r, s, t, h, m') ∧
    rip r = 4 ∧ base (sr_cs s) = 0x100000 ∧ rsp r = 0x200 ∧ base (sr_ss s) = 0x110000 ∧
    gdt_entry_base m' NE_THUNK_CODE_SELECTOR = NE_THUNK_BASE.
Proof.
  cbv zeta.
  destruct (ne_program_started (B:=dev_profile) (λ c, [c]) demo_ne (str "hello.exe") 25 80 demo_heap
    demo_memory (mk_regs 0 0 0 0 0 0 0 0 0 0) (mk_tables 0 0 0 0 0 0) (mk_seg 2 0x10 0x0001 0x200))
    as (r & s & t & h & m' & H1 & H2 & H3 & H4 & H5 & H6).
  - apply demo_memory_wf.
  - by apply MemMgr.new_inv.
  - done.
  - done.
  - apply List.Forall_forall. intros c Hc. vm_compute in Hc. left.
    repeat (destruct Hc as [<-|Hc]; [split; [discriminate|reflexivity]|]). done.
  - vm_compute. discriminate.
  - done.
  - done.
  - done.
  - vm_compute. discriminate.
  - apply List.Forall_cons; [|apply List.Forall_cons; [|apply List.Forall_nil]];
      (split; [discriminate|reflexivity]).
  - vm_compute. split; discriminate.
  - vm_compute. discriminate.
  - vm_compute. reflexivity.
  - exists r, s, t, h, m'. split; [exact H1|]. split; [exact H3|]. split; [exact H4|]. split; [exact H5|].
    split; [exact H6|]. exact (nr_thunk_base _ _ _ H2).
Defined.

(** A frame of DosWrite(1, seg2:0x40, 2, seg2:0x80) on the stack of the data segment. *)
Definition call_memory : GuestMemory :=
  let m := alloc 0x4000000 in
  let m := store_bytes m (GDT_BASE + 23 * 8) (le_bytes 8 (make_gdt_entry 0x110000 0x1FF 0xD3 0)) in
  let m := store_bytes m 0x110040 (str "Hi") in
  store_bytes m 0x110100 (concat (map le16 [0x50; 0xB0; 0x80; 184; 2; 0x40; 184; 1])).
Lemma ne_write_call_witness :
  let s := mk_sregs (Seh.mk_seg NE_THUNK_BASE 0 0 0 0 0 0 0 0 0 0 0) no_seg no_seg no_seg no_seg
             (Seh.mk_seg 0x110000 0 0 0 0 0 0 0 0 0 0 0) in
  let w := mk_world call_memory (new None) 437 [] 0 false in
  ∃ r' s' w', thunk_stop (B:=dev_profile) (λ _ b, b) (mk_regs 138 0x100 0 0 0 0 0 0 0 0) s w =
      Ok (Some (r', s', w')) ∧
    term w' = [(1, str "Hi")] ∧ read16 (guest w') 0x110080 = Some 2 ∧ rip r' = 0x50 ∧ rsp r' = 0x110.
Proof.
  cbv zeta.
  destruct (ne_write_call (B:=dev_profile) (λ _ b, b) (mk_regs 138 0x100 0 0 0 0 0 0 0 0)
    (mk_sregs (Seh.mk_seg NE_THUNK_BASE 0 0 0 0 0 0 0 0 0 0 0) no_seg no_seg no_seg no_seg
              (Seh.mk_seg 0x110000 0 0 0 0 0 0 0 0 0 0 0))
    (mk_world call_memory (new None) 437 [] 0 false) 138 0x110000 0x100 0x50 0xB0 0x80 184 2 0x40 184 1
    (str "Hi")) as (r' & s' & w' & H1 & H2 & H3 & _ & _ & _ & H4 & H5 & _).
  - unfold call_memory. cbn [guest].
    repeat (apply store_bytes_wf; [|apply (bool_decide_unpack _); by vm_compute]). by apply alloc_wf.
  - reflexivity.
  - reflexivity.
  - reflexivity.
  - reflexivity.
  - reflexivity.
  - discriminate.
  - split; [discriminate|reflexivity].
  - reflexivity.
  - vm_compute. repeat split; reflexivity.
  - split; [discriminate|reflexivity].
  - vm_compute. reflexivity.
  - vm_compute. reflexivity.
  - by left.
  - vm_compute. reflexivity.
  - vm_compute. discriminate.
  - vm_compute. discriminate.
  - left. vm_compute. discriminate.
  - exists r', s', w'. split; [exact H1|]. split; [exact H2|].
    split; [|split; [exact H4|exact H5]].
    match type of H3 with read16 _ ?p = _ => replace p with 0x110080 in H3 by (vm_compute; reflexivity) end.
    exact H3.
Defined.

(** A chain that leads back to a place that is not written (an unknown source type here) never
    ends, whatever the fuel: the source loops. *)
Lemma chain_can_loop {B : Build} (m : GuestMemory) (base off fuel : Z) :
  0 ≤ base + off < M32 → off ≠ 0xFFFF → read16 m (base + off) = Some off →
  walk_chain (Z.to_nat fuel) 1 false base 0 0 off m = Diverge.
Proof.
  intros Hr Hne Hl. induction (Z.to_nat fuel) as [|n IH]; [done|]. cbn [walk_chain].
  rewrite uadd_ok by lia. out_simpl. rewrite Hl. cbn [patch default id orb]. out_simpl.
  by rewrite (proj2 (Z.eqb_neq off 0xFFFF)) by done.
Qed.
(** The 225th segment is the thunk tile, which [setup_guest_ne] fills with breakpoints; the
    parser accepts 255 segments. *)
Example segment_225_is_thunk_tile : segment_addr (B:=dev_profile) (E:=unit) 224 = Ok NE_THUNK_BASE.
Proof. reflexivity. Qed.
