(* ===== verification/Sockets.v ===== *)
(** TCP/IP sockets (src/src/loader/tcpip.rs): the table of socket handles, the error codes, and
    the calls of SO32DLL and TCP32DLL, which go to the sockets of the host.

    The host's sockets, its resolver and its services database are a class of operations
    [SocketHost]: a system call yields an errno or its result.  A length that the host is given for
    a buffer that holds fewer bytes is the outcome [Err Overread].  A descriptor set of the host is
    a [gset]. *)
From S2P Require Import Prelude Bytes Text Codepage GuestMem HandleTable Constants.
From S2P Require MemMgr ApiRegistry.

(** * Error codes *)

Definition SOCE_INTR := 4.
Definition SOCE_BADF := 9.
Definition SOCE_ACCES := 13.
Definition SOCE_FAULT := 14.
Definition SOCE_INVAL := 22.
Definition SOCE_MFILE := 24.
Definition SOCE_WOULDBLOCK := 35.
Definition SOCE_INPROGRESS := 36.
Definition SOCE_ALREADY := 37.
Definition SOCE_NOTSOCK := 38.
Definition SOCE_DESTADDRREQ := 39.
Definition SOCE_MSGSIZE := 40.
Definition SOCE_PROTOTYPE := 41.
Definition SOCE_NOPROTOOPT := 42.
Definition SOCE_PROTONOSUPPORT := 43.
Definition SOCE_SOCKTNOSUPPORT := 44.
Definition SOCE_OPNOTSUPP := 45.
Definition SOCE_AFNOSUPPORT := 47.
Definition SOCE_ADDRINUSE := 48.
Definition SOCE_ADDRNOTAVAIL := 49.
Definition SOCE_NETDOWN := 50.
Definition SOCE_NETUNREACH := 51.
Definition SOCE_CONNABORTED := 53.
Definition SOCE_CONNRESET := 54.
Definition SOCE_NOBUFS := 55.
Definition SOCE_ISCONN := 56.
Definition SOCE_NOTCONN := 57.
Definition SOCE_TIMEDOUT := 60.
Definition SOCE_CONNREFUSED := 61.
Definition SOCE_HOSTDOWN := 64.
Definition SOCE_HOSTUNREACH := 65.
Definition MAX_SOCKET_BUF := 64 * 1024.
Definition SOCK_SUCCESS := 0.
Definition SOCK_ERROR := 0xFFFFFFFF.
Definition AF_INET := 2.

(** The errno values of Linux, where the source names them by their [libc] constants. *)
Definition errno_to_soce (errno : Z) : Z :=
  match errno with
  | 4 => SOCE_INTR
  | 9 => SOCE_BADF
  | 13 => SOCE_ACCES
  | 14 => SOCE_FAULT
  | 22 => SOCE_INVAL
  | 24 => SOCE_MFILE
  | 11 => SOCE_WOULDBLOCK
  | 115 => SOCE_INPROGRESS
  | 114 => SOCE_ALREADY
  | 88 => SOCE_NOTSOCK
  | 89 => SOCE_DESTADDRREQ
  | 90 => SOCE_MSGSIZE
  | 91 => SOCE_PROTOTYPE
  | 92 => SOCE_NOPROTOOPT
  | 93 => SOCE_PROTONOSUPPORT
  | 94 => SOCE_SOCKTNOSUPPORT
  | 95 => SOCE_OPNOTSUPP
  | 97 => SOCE_AFNOSUPPORT
  | 98 => SOCE_ADDRINUSE
  | 99 => SOCE_ADDRNOTAVAIL
  | 100 => SOCE_NETDOWN
  | 101 => SOCE_NETUNREACH
  | 103 => SOCE_CONNABORTED
  | 104 => SOCE_CONNRESET
  | 105 => SOCE_NOBUFS
  | 106 => SOCE_ISCONN
  | 107 => SOCE_NOTCONN
  | 110 => SOCE_TIMEDOUT
  | 111 => SOCE_CONNREFUSED
  | 112 => SOCE_HOSTDOWN
  | 113 => SOCE_HOSTUNREACH
  | n => if (0 <? n) && (n <? 35) then n else SOCE_INVAL
  end.

(** * The table of handles *)

Record SocketManager := mk_sm {
  sockets : gmap Z Z;
  next_handle : Z;
  last_sock_errno : Z;
  scratch_addr : option Z;
}.
Definition sm_new : SocketManager := mk_sm ∅ 0xA000 0 None.
Definition sm_alloc {B : Build} {E} (m : SocketManager) (fd : Z) : outcome E (Z * SocketManager) :=
  let h := next_handle m in
  n ← uadd M32 (next_handle m) 1;
  Ok (h, mk_sm (<[h := fd]> (sockets m)) n (last_sock_errno m) (scratch_addr m)).
Definition sm_lookup (m : SocketManager) (h : Z) : option Z := sockets m !! h.
Definition sm_remove (m : SocketManager) (h : Z) : option Z * SocketManager :=
  (sockets m !! h, mk_sm (delete h (sockets m)) (next_handle m) (last_sock_errno m) (scratch_addr m)).
Definition sm_set_errno (code : Z) (m : SocketManager) : SocketManager :=
  mk_sm (sockets m) (next_handle m) code (scratch_addr m).
Definition sm_clear_errno (m : SocketManager) : SocketManager := sm_set_errno 0 m.
Definition with_scratch (a : Z) (m : SocketManager) : SocketManager :=
  mk_sm (sockets m) (next_handle m) (last_sock_errno m) (Some a).

(** * The host *)

Inductive stop := Overread.
Inductive SocketAddr := V4 (octets : list Z) | V6.
(** [libc::servent], its strings read back; the port is in network byte order. *)
Record servent := mk_servent { s_name : rstring; s_port : Z; s_proto : rstring }.

(** The system calls of [libc] on descriptors: [inl errno] or the result.  [accept], [recvfrom]
    and the name calls give the address as its bytes; [recv] the bytes it stores and the count it
    returns; [gethostname] the bytes it stores, errno or not. *)
Class SocketHost (H : Type) := {
  sys_socket : Z → Z → Z → H → (Z + Z) * H;
  sys_close : Z → H → option Z * H;
  sys_bind : Z → bytes → H → option Z * H;
  sys_connect : Z → bytes → H → option Z * H;
  sys_listen : Z → Z → H → option Z * H;
  sys_accept : Z → H → (Z + Z * bytes) * H;
  sys_send : Z → bytes → Z → H → (Z + Z) * H;
  sys_sendto : Z → bytes → Z → bytes → H → (Z + Z) * H;
  sys_recv : Z → Z → Z → H → (Z + bytes * Z) * H;
  sys_recvfrom : Z → Z → Z → H → (Z + bytes * Z * bytes) * H;
  sys_shutdown : Z → Z → H → option Z * H;
  sys_getsockname : Z → H → (Z + bytes) * H;
  sys_getpeername : Z → H → (Z + bytes) * H;
  sys_setsockopt : Z → Z → Z → bytes → H → option Z * H;
  sys_getsockopt : Z → Z → Z → Z → H → (Z + bytes) * H;
  sys_select : Z → option (gset Z) → option (gset Z) → option (gset Z) → option (Z * Z) → H →
    (Z + Z * gset Z * gset Z * gset Z) * H;
  sys_gethostid : H → Z;
  sys_gethostname : Z → H → option Z * bytes;
  to_socket_addrs : rstring → H → option (list SocketAddr);
  sys_getservbyname : rstring → option rstring → H → option servent;
  sys_getservbyport : Z → option rstring → H → option servent;
}.

Record Net (H : Type) := mk_net {
  host : H; mem : GuestMemory; heap : MemMgr.MemoryManager; mgr : SocketManager;
}.
Arguments mk_net {H} host mem heap mgr.
Arguments host {H} n.
Arguments mem {H} n.
Arguments heap {H} n.
Arguments mgr {H} n.

Definition net (H A : Type) : Type := Net H → outcome stop (A * Net H).
#[export] Instance net_ret {H} : MRet (net H) := λ A a s, Ok (a, s).
#[export] Instance net_bind {H} : MBind (net H) := λ A C f m s, '(a, s) ← m s; f a s.

Section calls.
Context {B : Build} {H : Type} {SH : SocketHost H}.
(** encoding_rs, and the active codepage *)
Context (enc_decode : Encoding → bytes → rstring) (active_cp : Z).
Abbreviation net := (net H).

Definition ask {A} (f : Net H → A) : net A := λ s, Ok (f s, s).
Definition lift {A} (o : outcome stop A) : net A := λ s, a ← o; Ok (a, s).
Definition on_mgr (f : SocketManager → SocketManager) : net () := λ s,
  Ok (tt, mk_net (host s) (mem s) (heap s) (f (mgr s))).
Definition in_mem (f : GuestMemory → GuestMemory) : net () := λ s,
  Ok (tt, mk_net (host s) (f (mem s)) (heap s) (mgr s)).
Definition sys {A} (c : H → A * H) : net A := λ s,
  let '(a, h) := c (host s) in Ok (a, mk_net h (mem s) (heap s) (mgr s)).
Definition set_errno (code : Z) : net () := on_mgr (sm_set_errno code).
Definition clear_errno : net () := on_mgr sm_clear_errno.
Definition alloc (fd : Z) : net Z := λ s,
  '(h, m) ← sm_alloc (mgr s) fd; Ok (h, mk_net (host s) (mem s) (heap s) m).

(** [guest_write(p + off, v)], its result dropped, and [guest_write_bytes]. *)
Definition put (p off v : Z) : net () := a ← lift (uadd M32 p off); in_mem (λ m, poke 4 m a v).
Definition put_bytes (p : Z) (l : bytes) : net () := in_mem (λ m, default m (write_bytes m p l)).
Definition get32 (p : Z) : net Z := ask (λ s, default 0 (read32 (mem s) p)).
Definition read_str (p : Z) : net rstring := ask (λ s, read_guest_string enc_decode active_cp (mem s) p).
Definition as_i32 (x : Z) : Z := ApiRegistry.as_i32 x.

(** * Helpers *)

Definition fails (errno : Z) : net Z := set_errno (errno_to_soce errno);; mret SOCK_ERROR.
Definition refuses (code r : Z) : net Z := set_errno code;; mret r.
Definition succeeds (r : Z) : net Z := clear_errno;; mret r.
Definition so_fd (s : Z) : net (option Z) :=
  fd_opt ← ask (λ w, sm_lookup (mgr w) s);
  match fd_opt with
  | None => set_errno SOCE_BADF;; mret None
  | Some fd => mret (Some fd)
  end.
(** [let Some(fd) = self.so_fd(s) else { return SOCK_ERROR; };] *)
Definition on_fd (s : Z) (f : Z → net Z) : net Z :=
  fd ← so_fd s; match fd with Some fd => f fd | None => mret SOCK_ERROR end.

Fixpoint guest_bytes (n : nat) (m : GuestMemory) (addr i : Z) : outcome stop bytes :=
  match n with
  | O => Ok []
  | S n =>
    a ← uadd M32 addr i;
    l ← guest_bytes n m addr (i + 1);
    Ok (match read8 m a with Some b => b :: l | None => l end)
  end.
Definition read_guest_bytes (addr n : Z) : net bytes := λ s,
  let capped := Z.min n MAX_SOCKET_BUF in
  match slice_mut (mem s) addr capped with
  | Some l => Ok (l, s)
  | None => l ← guest_bytes (Z.to_nat capped) (mem s) addr 0; Ok (l, s)
  end.
(** A buffer handed to the host with a length. *)
Definition handed (data : bytes) (n : Z) : net bytes :=
  lift (if n <=? len data then Ok (take (Z.to_nat n) data) else Err Overread).
Definition translate_rc (rc : option Z) (ok_val : Z) : net Z :=
  match rc with Some e => fails e | None => succeeds ok_val end.
(** [from_raw_parts] over the bytes of an address, and the length, stored for the caller. *)
Definition give_address (addr : bytes) (addr_ptr len_ptr : Z) : net () :=
  guest_len ← get32 len_ptr;
  put_bytes addr_ptr (take (Z.to_nat (Z.min (len addr) guest_len)) addr);;
  put len_ptr 0 (len addr).
(** [let Some(buf) = self.guest_slice_mut(p, n) else { .. }] *)
Definition with_slice (p n : Z) (f : net Z) : net Z :=
  b ← ask (λ w, slice_mut (mem w) p n);
  match b with Some _ => f | None => refuses SOCE_FAULT SOCK_ERROR end.

(** * Calls *)

Definition so_sock_init : net Z := succeeds SOCK_SUCCESS.
Definition so_sock_errno : net Z := c ← ask (λ w, last_sock_errno (mgr w)); mret (as_u M32 c).
Definition so_psock_errno (msg_ptr : Z) : net Z := _ ← read_str msg_ptr; mret SOCK_SUCCESS.
Definition so_socket (domain sock_type protocol : Z) : net Z :=
  r ← sys (sys_socket (as_i32 domain) (as_i32 sock_type) (as_i32 protocol));
  match r with inl e => fails e | inr fd => clear_errno;; alloc fd end.
Definition so_close (s : Z) : net Z :=
  fd_opt ← ask (λ w, sm_lookup (mgr w) s);
  on_mgr (λ m, (sm_remove m s).2);;
  match fd_opt with
  | None => refuses SOCE_BADF SOCK_ERROR
  | Some fd =>
    rc ← sys (sys_close fd);
    match rc with Some e => fails e | None => succeeds SOCK_SUCCESS end
  end.
Definition so_bind (s name_ptr namelen : Z) : net Z := on_fd s (λ fd,
  addr_bytes ← read_guest_bytes name_ptr namelen;
  if len addr_bytes <? namelen then refuses SOCE_FAULT SOCK_ERROR
  else
    a ← handed addr_bytes namelen;
    rc ← sys (sys_bind fd a);
    translate_rc rc SOCK_SUCCESS).
Definition so_connect (s name_ptr namelen : Z) : net Z := on_fd s (λ fd,
  addr_bytes ← read_guest_bytes name_ptr namelen;
  if len addr_bytes <? namelen then refuses SOCE_FAULT SOCK_ERROR
  else
    a ← handed addr_bytes namelen;
    rc ← sys (sys_connect fd a);
    translate_rc rc SOCK_SUCCESS).
Definition so_listen (s backlog : Z) : net Z := on_fd s (λ fd,
  rc ← sys (sys_listen fd (as_i32 backlog)); translate_rc rc SOCK_SUCCESS).
Definition so_accept (s addr_ptr addrlen_ptr : Z) : net Z := on_fd s (λ fd,
  r ← sys (sys_accept fd);
  match r with
  | inl e => fails e
  | inr (new_fd, addr) =>
    (if negb (addr_ptr =? 0) && negb (addrlen_ptr =? 0) then give_address addr addr_ptr addrlen_ptr
     else mret tt);;
    clear_errno;; alloc new_fd
  end).
(** [sent as u32] *)
Definition sent (r : Z + Z) : net Z :=
  match r with inl e => fails e | inr n => succeeds (as_u M32 n) end.
Definition so_send (s buf_ptr n flags : Z) : net Z := on_fd s (λ fd,
  data ← read_guest_bytes buf_ptr n;
  r ← sys (sys_send fd data (as_i32 flags));
  sent r).
Definition so_sendto (s buf_ptr n flags to_ptr tolen : Z) : net Z := on_fd s (λ fd,
  data ← read_guest_bytes buf_ptr n;
  if negb (to_ptr =? 0) && (0 <? tolen) then
    addr ← read_guest_bytes to_ptr tolen;
    a ← handed addr tolen;
    r ← sys (sys_sendto fd data (as_i32 flags) a);
    sent r
  else
    r ← sys (sys_send fd data (as_i32 flags));
    sent r).
Definition so_recv (s buf_ptr n flags : Z) : net Z := on_fd s (λ fd, with_slice buf_ptr n (
  r ← sys (sys_recv fd n (as_i32 flags));
  match r with
  | inl e => fails e
  | inr (data, received) => put_bytes buf_ptr data;; succeeds (as_u M32 received)
  end)).
Definition so_recvfrom (s buf_ptr n flags from_ptr fromlen_ptr : Z) : net Z :=
  on_fd s (λ fd, with_slice buf_ptr n (
  r ← sys (sys_recvfrom fd n (as_i32 flags));
  match r with
  | inl e => fails e
  | inr (data, received, from) =>
    put_bytes buf_ptr data;;
    (if negb (from_ptr =? 0) && negb (fromlen_ptr =? 0) then give_address from from_ptr fromlen_ptr
     else mret tt);;
    succeeds (as_u M32 received)
  end)).
Definition so_shutdown (s how : Z) : net Z := on_fd s (λ fd,
  rc ← sys (sys_shutdown fd (as_i32 how)); translate_rc rc SOCK_SUCCESS).
Definition so_getsockname (s name_ptr namelen_ptr : Z) : net Z := on_fd s (λ fd,
  r ← sys (sys_getsockname fd);
  match r with
  | inl e => fails e
  | inr addr => give_address addr name_ptr namelen_ptr;; succeeds SOCK_SUCCESS
  end).
Definition so_getpeername (s name_ptr namelen_ptr : Z) : net Z := on_fd s (λ fd,
  r ← sys (sys_getpeername fd);
  match r with
  | inl e => fails e
  | inr addr => give_address addr name_ptr namelen_ptr;; succeeds SOCK_SUCCESS
  end).
Definition so_setsockopt (s level optname optval_ptr optlen : Z) : net Z := on_fd s (λ fd,
  optval ← read_guest_bytes optval_ptr optlen;
  v ← handed optval optlen;
  rc ← sys (sys_setsockopt fd (as_i32 level) (as_i32 optname) v);
  translate_rc rc SOCK_SUCCESS).
Definition so_getsockopt (s level optname optval_ptr optlen_ptr : Z) : net Z := on_fd s (λ fd,
  buf_len ← get32 optlen_ptr;
  with_slice optval_ptr buf_len (
    r ← sys (sys_getsockopt fd (as_i32 level) (as_i32 optname) buf_len);
    match r with
    | inl e => fails e
    | inr v => put_bytes optval_ptr v;; put optlen_ptr 0 (len v);; succeeds SOCK_SUCCESS
    end)).

(** * select *)

(** [libc::FD_SET] and [libc::FD_ISSET] index an array of 1024 bits. *)
Definition FD_SET (fd : Z) (s : gset Z) : outcome stop (gset Z) :=
  if in_range 0 1023 fd then Ok ({[fd]} ∪ s) else Panic.
Definition FD_ISSET (fd : Z) (s : gset Z) : outcome stop bool :=
  if in_range 0 1023 fd then Ok (bool_decide (fd ∈ s)) else Panic.
Definition fd_bit (h : Z) : Z := Z.shiftl 1 (h mod 32).
Definition read_os2_fdset (ptr : Z) : net (Z * Z) :=
  if ptr =? 0 then mret (0, 0)
  else
    w0 ← get32 ptr;
    a ← lift (uadd M32 ptr 4);
    w1 ← get32 a;
    mret (w0, w1).
Fixpoint translate (os2_fds : Z * Z) (map : list (Z * Z)) (linux_fds : gset Z) (max : Z) :
    outcome stop (gset Z * Z) :=
  match map with
  | [] => Ok (linux_fds, max)
  | (h, fd) :: map =>
    let word := if h <? 32 then os2_fds.1 else os2_fds.2 in
    if (h <? 64) && negb (Z.land word (fd_bit h) =? 0) then
      linux_fds ← FD_SET fd linux_fds;
      translate os2_fds map linux_fds (Z.max max fd)
    else translate os2_fds map linux_fds max
  end.
Definition translate_set (ptr : Z) (os2_fds : Z * Z) (map : list (Z * Z)) (max : Z) :
    outcome stop (option (gset Z) * Z) :=
  if ptr =? 0 then Ok (None, max)
  else '(l, max) ← translate os2_fds map ∅ max; Ok (Some l, max).
Fixpoint set_bits (linux_fds : gset Z) (map : list (Z * Z)) (bits : Z * Z) : outcome stop (Z * Z) :=
  match map with
  | [] => Ok bits
  | (h, fd) :: map =>
    is_set ← (if h <? 64 then FD_ISSET fd linux_fds else Ok false : outcome stop bool);
    let bits :=
      if is_set : bool then
        (if h <? 32 then (Z.lor bits.1 (fd_bit h), bits.2) else (bits.1, Z.lor bits.2 (fd_bit h)))
      else bits in
    set_bits linux_fds map bits
  end.
Definition translate_back (linux_fds : gset Z) (ptr : Z) (map : list (Z * Z)) : net () :=
  if ptr =? 0 then mret tt
  else
    bits ← lift (set_bits linux_fds map (0, 0));
    put ptr 0 bits.1;; put ptr 4 bits.2.
Definition read_timeval (timeout_ptr : Z) : net (option (Z * Z)) :=
  if timeout_ptr =? 0 then mret None
  else
    sec ← get32 timeout_ptr;
    a ← lift (uadd M32 timeout_ptr 4);
    usec ← get32 a;
    mret (Some (sec, usec)).
Definition so_select (nfds rfds_ptr wfds_ptr efds_ptr timeout_ptr : Z) : net Z :=
  handle_map ← ask (λ w, map_to_list (sockets (mgr w)));
  os2_rfds ← read_os2_fdset rfds_ptr;
  os2_wfds ← read_os2_fdset wfds_ptr;
  os2_efds ← read_os2_fdset efds_ptr;
  '(linux_rfds, max_fd) ← lift (translate_set rfds_ptr os2_rfds handle_map (-1));
  '(linux_wfds, max_fd) ← lift (translate_set wfds_ptr os2_wfds handle_map max_fd);
  '(linux_efds, max_fd) ← lift (translate_set efds_ptr os2_efds handle_map max_fd);
  tv ← read_timeval timeout_ptr;
  r ← sys (sys_select (max_fd + 1) linux_rfds linux_wfds linux_efds tv);
  match r with
  | inl e => fails e
  | inr (rc, rs, ws, es) =>
    translate_back rs rfds_ptr handle_map;;
    translate_back ws wfds_ptr handle_map;;
    translate_back es efds_ptr handle_map;;
    succeeds (as_u M32 rc)
  end.

(** * Hosts and services *)

Definition so_gethostid : net Z := i ← ask (λ w, sys_gethostid (host w)); succeeds (as_u M32 i).
Definition so_gethostname (name_ptr namelen : Z) : net Z := with_slice name_ptr namelen (
  '(rc, name) ← ask (λ w, sys_gethostname namelen (host w));
  put_bytes name_ptr name;;
  translate_rc rc SOCK_SUCCESS).
Definition ensure_hostent_scratch : net Z := λ s,
  match scratch_addr (mgr s) with
  | Some addr => Ok (addr, s)
  | None =>
    '(a, h) ← MemMgr.alloc (heap s) 256;
    match a with
    | Some addr => Ok (addr, mk_net (host s) (mem s) h (with_scratch addr (mgr s)))
    | None => Ok (0, mk_net (host s) (mem s) h (mgr s))
    end
  end.
Definition write_hostent_to_scratch (hostname : rstring) (ip : list Z) : net Z :=
  scratch ← ensure_hostent_scratch;
  if scratch =? 0 then refuses SOCE_NOBUFS 0
  else
    alias_base ← lift (uadd M32 scratch 0x18);
    addrlist_base ← lift (uadd M32 scratch 0x1C);
    ip_base ← lift (uadd M32 scratch 0x24);
    name_base ← lift (uadd M32 scratch 0x28);
    put_bytes name_base (as_bytes hostname ++ [0]);;
    put_bytes ip_base ip;;
    put alias_base 0 0;;
    put addrlist_base 0 ip_base;;
    put addrlist_base 4 0;;
    put scratch 0 name_base;;
    put scratch 0x04 alias_base;;
    put scratch 0x08 AF_INET;;
    put scratch 0x0C 4;;
    put scratch 0x10 addrlist_base;;
    succeeds scratch.
(** [&s[..n]]: [n] is a char boundary or the slice panics. *)
Fixpoint str_upto (n : Z) (s : rstring) : outcome stop rstring :=
  if n =? 0 then Ok []
  else
    match s with
    | [] => Panic
    | c :: s =>
      let w := len (utf8_char c) in
      if n <? w then Panic else r ← str_upto (n - w) s; Ok (c :: r)
    end.
Definition str_capped (n : Z) (s : rstring) : outcome stop rstring :=
  if n <? len (as_bytes s) then str_upto n s else Ok s.
Definition write_servent_to_scratch (svc_name : rstring) (port : Z) (proto_name : rstring) : net Z :=
  scratch ← ensure_hostent_scratch;
  if scratch =? 0 then refuses SOCE_NOBUFS 0
  else
    host_name ← lift (str_capped (256 - (0x58 + 2)) svc_name);
    servent_base ← lift (uadd M32 scratch 0x40);
    alias_base ← lift (uadd M32 scratch 0x54);
    sname_base ← lift (uadd M32 scratch 0x58);
    sproto_base ← lift (uadd M32 sname_base (len (as_bytes host_name)));
    sproto_base ← lift (uadd M32 sproto_base 1);
    scratch_end ← lift (uadd M32 scratch 256);
    after ← lift (uadd M32 sproto_base 1);
    host_proto ← lift (str_capped (Z.max 0 (scratch_end - after)) proto_name);
    put_bytes sname_base (as_bytes host_name ++ [0]);;
    put_bytes sproto_base (as_bytes host_proto ++ [0]);;
    put alias_base 0 0;;
    put servent_base 0 sname_base;;
    put servent_base 0x04 alias_base;;
    put servent_base 0x08 port;;
    put servent_base 0x0C sproto_base;;
    succeeds servent_base.
Definition first_v4 (l : list SocketAddr) : option (list Z) :=
  head (omap (λ a, match a with V4 ip => Some ip | V6 => None end) l).
Definition so_gethostbyname (name_ptr : Z) : net Z :=
  hostname ← read_str name_ptr;
  addrs ← ask (λ w, to_socket_addrs (hostname ++ str ":0") (host w));
  match addrs ≫= first_v4 with
  | Some ip => write_hostent_to_scratch hostname ip
  | None => refuses SOCE_HOSTUNREACH 0
  end.
Definition so_gethostbyaddr (addr_ptr n addr_type : Z) : net Z :=
  if negb (addr_type =? AF_INET) || (n <? 4) then refuses SOCE_AFNOSUPPORT 0
  else
    ip ← read_guest_bytes addr_ptr 4;
    match ip with
    | a :: b :: c :: d :: _ =>
      write_hostent_to_scratch
        (dec_str a ++ str "." ++ dec_str b ++ str "." ++ dec_str c ++ str "." ++ dec_str d) [a; b; c; d]
    | _ => refuses SOCE_FAULT 0
    end.
(** [CString::new(s).unwrap_or_default()]: a string with a NUL in it becomes the empty one. *)
Definition c_string (s : rstring) : rstring := if bool_decide (0 ∈ s) then [] else s.
Definition read_proto (proto_ptr : Z) : net (option rstring) :=
  proto_str ← (if proto_ptr =? 0 then mret [] else read_str proto_ptr);
  mret (if bool_decide (proto_str = []) then None else Some (c_string proto_str)).
Definition so_getservbyname (name_ptr proto_ptr : Z) : net Z :=
  svc_name ← read_str name_ptr;
  c_proto ← read_proto proto_ptr;
  se ← ask (λ w, sys_getservbyname (c_string svc_name) c_proto (host w));
  match se with
  | None => refuses SOCE_INVAL 0
  | Some e => write_servent_to_scratch (s_name e) (s_port e) (s_proto e)
  end.
Definition so_getservbyport (port proto_ptr : Z) : net Z :=
  c_proto ← read_proto proto_ptr;
  se ← ask (λ w, sys_getservbyport (as_i32 port) c_proto (host w));
  match se with
  | None => refuses SOCE_INVAL 0
  | Some e => write_servent_to_scratch (s_name e) (s_port e) (s_proto e)
  end.
Definition so_getprotobyname (name_ptr : Z) : net Z := mret 0.
Definition so_getprotobynumber (proto : Z) : net Z := mret 0.
End calls.

#[export] Instance socket_table B : HandleTable B SocketManager Z := {
  entries := sockets; counter := next_handle; add := sm_alloc; remove m h := (sm_remove m h).2;
}.
#[export] Instance socket_table_laws B : HandleTableLaws B SocketManager Z.
Proof.
  split; cbn; try done. intros t v Ht. unfold sm_alloc. rewrite uadd_ok by done. by eexists.
Qed.

(** * The calls by the names the registry has for them *)

Section runs.
Context {B : Build} {H : Type} {SH : SocketHost H}.
Context (enc_decode : Encoding → bytes → rstring) (active_cp : Z).
Abbreviation net := (net H).

Definition so_calls : list (string * (list Z → option (net Z))) := [
  ("so_sock_init"%string, λ l, match l with [] => Some so_sock_init | _ => None end);
  ("so_sock_errno"%string, λ l, match l with [] => Some so_sock_errno | _ => None end);
  ("so_psock_errno"%string, λ l, match l with [a] => Some (so_psock_errno enc_decode active_cp a) | _ => None end);
  ("so_socket"%string, λ l, match l with [a; b; c] => Some (so_socket a b c) | _ => None end);
  ("so_close"%string, λ l, match l with [a] => Some (so_close a) | _ => None end);
  ("so_bind"%string, λ l, match l with [a; b; c] => Some (so_bind a b c) | _ => None end);
  ("so_connect"%string, λ l, match l with [a; b; c] => Some (so_connect a b c) | _ => None end);
  ("so_listen"%string, λ l, match l with [a; b] => Some (so_listen a b) | _ => None end);
  ("so_accept"%string, λ l, match l with [a; b; c] => Some (so_accept a b c) | _ => None end);
  ("so_send"%string, λ l, match l with [a; b; c; d] => Some (so_send a b c d) | _ => None end);
  ("so_sendto"%string, λ l, match l with [a; b; c; d; e; f] => Some (so_sendto a b c d e f) | _ => None end);
  ("so_recv"%string, λ l, match l with [a; b; c; d] => Some (so_recv a b c d) | _ => None end);
  ("so_recvfrom"%string, λ l, match l with [a; b; c; d; e; f] => Some (so_recvfrom a b c d e f) | _ => None end);
  ("so_shutdown"%string, λ l, match l with [a; b] => Some (so_shutdown a b) | _ => None end);
  ("so_getsockname"%string, λ l, match l with [a; b; c] => Some (so_getsockname a b c) | _ => None end);
  ("so_getpeername"%string, λ l, match l with [a; b; c] => Some (so_getpeername a b c) | _ => None end);
  ("so_setsockopt"%string, λ l, match l with [a; b; c; d; e] => Some (so_setsockopt a b c d e) | _ => None end);
  ("so_getsockopt"%string, λ l, match l with [a; b; c; d; e] => Some (so_getsockopt a b c d e) | _ => None end);
  ("so_select"%string, λ l, match l with [a; b; c; d; e] => Some (so_select a b c d e) | _ => None end);
  ("so_gethostid"%string, λ l, match l with [] => Some so_gethostid | _ => None end);
  ("so_gethostname"%string, λ l, match l with [a; b] => Some (so_gethostname a b) | _ => None end);
  ("so_gethostbyname"%string, λ l, match l with [a] => Some (so_gethostbyname enc_decode active_cp a) | _ => None end);
  ("so_gethostbyaddr"%string, λ l, match l with [a; b; c] => Some (so_gethostbyaddr a b c) | _ => None end);
  ("so_getservbyname"%string, λ l, match l with [a; b] => Some (so_getservbyname enc_decode active_cp a b) | _ => None end);
  ("so_getservbyport"%string, λ l, match l with [a; b] => Some (so_getservbyport enc_decode active_cp a b) | _ => None end);
  ("so_getprotobyname"%string, λ l, match l with [a] => Some (so_getprotobyname a) | _ => None end);
  ("so_getprotobynumber"%string, λ l, match l with [a] => Some (so_getprotobynumber a) | _ => None end)].
Definition so_call (method : string) (args : list Z) : option (net Z) :=
  '(_, (_, f)) ← list_find (λ x, x.1 = method) so_calls; f args.

(** A program's socket calls, with their answers; other methods are not calls of this component. *)
Fixpoint run (l : list (string * list Z)) : net (list Z) :=
  match l with
  | [] => mret []
  | (method, args) :: l =>
    match so_call method args with
    | Some m => r ← m; rs ← run l; mret (r :: rs)
    | None => run l
    end
  end.

Lemma so_call_inv method args m : so_call method args = Some m →
  ∃ f, (method, f) ∈ so_calls ∧ f args = Some m.
Proof.
  unfold so_call. destruct (list_find _ so_calls) as [[i [n f]]|] eqn:Hf; [|done]. cbn.
  apply list_find_Some in Hf as (Hi & Hn & _). cbn in Hn. subst n. intros Hc. exists f.
  split; [by eapply list_elem_of_lookup_2|done].
Qed.
Lemma net_bind_inv {A C} (m : net A) (f : A → net C) s c s' : (m ≫= f) s = Ok (c, s') →
  ∃ a s1, m s = Ok (a, s1) ∧ f a s1 = Ok (c, s').
Proof. intros ([a s1] & ? & ?)%bind_Ok_inv. by exists a, s1. Qed.
End runs.

(** * Descriptors *)

(** What the host promises: which descriptors the process has open.  A new one was not open
    before, a closed one is gone whatever [close] returns, and nothing else opens or closes. *)
Class SocketHostLaws (H : Type) {SH : SocketHost H} := {
  descriptors : H → gset Z;
  socket_law d t p h : descriptors (sys_socket d t p h).2 =
    match (sys_socket d t p h).1 with inr fd => {[fd]} | inl _ => ∅ end ∪ descriptors h;
  socket_fresh d t p h fd : (sys_socket d t p h).1 = inr fd → fd ∉ descriptors h;
  accept_law fd h : descriptors (sys_accept fd h).2 =
    match (sys_accept fd h).1 with inr (new, _) => {[new]} | inl _ => ∅ end ∪ descriptors h;
  accept_fresh fd h new a : (sys_accept fd h).1 = inr (new, a) → new ∉ descriptors h;
  close_law fd h : descriptors (sys_close fd h).2 = descriptors h ∖ {[fd]};
  bind_law fd a h : descriptors (sys_bind fd a h).2 = descriptors h;
  connect_law fd a h : descriptors (sys_connect fd a h).2 = descriptors h;
  listen_law fd n h : descriptors (sys_listen fd n h).2 = descriptors h;
  send_law fd d n h : descriptors (sys_send fd d n h).2 = descriptors h;
  sendto_law fd d n a h : descriptors (sys_sendto fd d n a h).2 = descriptors h;
  recv_law fd n f h : descriptors (sys_recv fd n f h).2 = descriptors h;
  recvfrom_law fd n f h : descriptors (sys_recvfrom fd n f h).2 = descriptors h;
  shutdown_law fd n h : descriptors (sys_shutdown fd n h).2 = descriptors h;
  getsockname_law fd h : descriptors (sys_getsockname fd h).2 = descriptors h;
  getpeername_law fd h : descriptors (sys_getpeername fd h).2 = descriptors h;
  setsockopt_law fd l o v h : descriptors (sys_setsockopt fd l o v h).2 = descriptors h;
  getsockopt_law fd l o n h : descriptors (sys_getsockopt fd l o n h).2 = descriptors h;
  select_law n r w e t h : descriptors (sys_select n r w e t h).2 = descriptors h;
}.

Section descriptors.
Context {B : Build} {H : Type} {SH : SocketHost H} {HL : SocketHostLaws H}.
Context (enc_decode : Encoding → bytes → rstring) (active_cp : Z).
Abbreviation net := (net H).

(** A step that opens and closes nothing. *)
Definition quiet {A} (m : net A) : Prop := ∀ s a s', m s = Ok (a, s') →
  sockets (mgr s') = sockets (mgr s) ∧ next_handle (mgr s') = next_handle (mgr s) ∧
  descriptors (host s') = descriptors (host s).

Lemma net_quiet_ret {A} (a : A) : quiet (mret a).
Proof. by intros s x s' [= <- <-]. Qed.
Lemma net_quiet_bind {A C} (m : net A) (f : A → net C) : quiet m → (∀ a, quiet (f a)) → quiet (m ≫= f).
Proof.
  intros Hm Hf s c s' (a & s1 & H1 & H2)%net_bind_inv.
  destruct (Hm _ _ _ H1) as (E1 & E2 & E3). destruct (Hf _ _ _ _ H2) as (F1 & F2 & F3). by rewrite F1, F2, F3.
Qed.
Lemma quiet_ask {A} (f : Net H → A) : quiet (ask f).
Proof. by intros s x s' [= <- <-]. Qed.
Lemma net_quiet_lift {A} (o : outcome stop A) : quiet (lift o).
Proof. by intros s x s' (? & _ & [= <- <-])%bind_Ok_inv. Qed.
Lemma quiet_in_mem f : quiet (in_mem f).
Proof. by intros s x s' [= <- <-]. Qed.
Lemma quiet_set_errno c : quiet (set_errno c).
Proof. by intros s x s' [= <- <-]. Qed.
Lemma quiet_sys {A} (c : H → A * H) : (∀ h, descriptors (c h).2 = descriptors h) → quiet (sys c).
Proof. intros Hc s a s'. unfold sys. specialize (Hc (host s)). destruct (c (host s)). by intros [= <- <-]. Qed.
Lemma quiet_guest_bytes a n : quiet (read_guest_bytes a n).
Proof.
  intros s x s'. unfold read_guest_bytes. destruct (slice_mut _ _ _); [by intros [= <- <-]|].
  by intros (? & _ & [= <- <-])%bind_Ok_inv.
Qed.
Lemma quiet_scratch : quiet ensure_hostent_scratch.
Proof.
  intros s x s'. unfold ensure_hostent_scratch. destruct (scratch_addr (mgr s)); [by intros [= <- <-]|].
  intros ([[a|] h] & _ & [= <- <-])%bind_Ok_inv; done.
Qed.
Create HintDb quiet.
#[local] Hint Resolve net_quiet_ret quiet_ask net_quiet_lift quiet_in_mem quiet_set_errno quiet_guest_bytes quiet_scratch : quiet.
#[local] Hint Extern 2 (quiet (sys _)) => apply quiet_sys; intros; first
  [apply bind_law|apply connect_law|apply listen_law|apply send_law|apply sendto_law|apply recv_law
  |apply recvfrom_law|apply shutdown_law|apply getsockname_law|apply getpeername_law
  |apply setsockopt_law|apply getsockopt_law|apply select_law] : quiet.
Ltac quiet := cbv zeta; intros; repeat first
  [ assumption | solve [auto with quiet nocore]
  | apply net_quiet_bind; [|intros ?]
  | match goal with |- quiet (match ?x with _ => _ end) => destruct x end ].
Ltac quiet_call := intros; match goal with |- quiet ?m => let f := head_symbol m in unfold f end; quiet.

Lemma quiet_put p off v : quiet (put p off v).
Proof. quiet_call. Qed.
Lemma quiet_put_bytes p l : quiet (put_bytes p l).
Proof. quiet_call. Qed.
Lemma quiet_get32 p : quiet (get32 p).
Proof. quiet_call. Qed.
Lemma quiet_read_str p : quiet (read_str enc_decode active_cp p).
Proof. quiet_call. Qed.
Lemma quiet_clear_errno : quiet clear_errno.
Proof. exact (quiet_set_errno 0). Qed.
#[local] Hint Resolve quiet_put quiet_put_bytes quiet_get32 quiet_read_str quiet_clear_errno : quiet.
Lemma quiet_fails e : quiet (fails e).
Proof. quiet_call. Qed.
Lemma quiet_refuses c r : quiet (refuses c r).
Proof. quiet_call. Qed.
Lemma quiet_succeeds r : quiet (succeeds r).
Proof. quiet_call. Qed.
Lemma quiet_handed d n : quiet (handed d n).
Proof. quiet_call. Qed.
Lemma quiet_fd s : quiet (so_fd s).
Proof. quiet_call. Qed.
#[local] Hint Resolve quiet_fails quiet_refuses quiet_succeeds quiet_handed quiet_fd : quiet.
Lemma quiet_on_fd s f : (∀ fd, quiet (f fd)) → quiet (on_fd s f).
Proof. quiet_call. Qed.
Lemma quiet_rc rc v : quiet (translate_rc rc v).
Proof. quiet_call. Qed.
Lemma quiet_address a p l : quiet (give_address a p l).
Proof. quiet_call. Qed.
Lemma quiet_slice p n f : quiet f → quiet (with_slice p n f).
Proof. quiet_call. Qed.
Lemma quiet_sent r : quiet (sent r).
Proof. quiet_call. Qed.
Lemma quiet_fdset p : quiet (read_os2_fdset p).
Proof. quiet_call. Qed.
Lemma quiet_back l p m : quiet (translate_back l p m).
Proof. quiet_call. Qed.
Lemma quiet_timeval p : quiet (read_timeval p).
Proof. quiet_call. Qed.
Lemma quiet_hostent n ip : quiet (write_hostent_to_scratch n ip).
Proof. quiet_call. Qed.
Lemma quiet_servent n port p : quiet (write_servent_to_scratch n port p).
Proof. quiet_call. Qed.
Lemma quiet_proto p : quiet (read_proto enc_decode active_cp p).
Proof. quiet_call. Qed.
#[local] Hint Resolve quiet_rc quiet_address quiet_sent quiet_fdset quiet_back quiet_timeval quiet_hostent
  quiet_servent quiet_proto : quiet.
#[local] Hint Extern 2 (quiet (on_fd _ _)) => apply quiet_on_fd; quiet : quiet.
#[local] Hint Extern 2 (quiet (with_slice _ _ _)) => apply quiet_slice; quiet : quiet.

(** The calls that open and close nothing are all but three. *)
Lemma calls_quiet : Forall (λ x, x.1 ∉ ["so_socket"; "so_accept"; "so_close"]%string →
  ∀ l m, x.2 l = Some m → quiet m) (so_calls (H:=H) enc_decode active_cp).
Proof.
  unfold so_calls. repeat first [apply Forall_nil_2 | apply Forall_cons_2]; cbn [fst snd]; intros Hx l m Hm;
    first [exfalso; apply Hx, (bool_decide_unpack _); reflexivity | clear Hx];
    repeat (destruct l as [|? l]; try discriminate Hm); injection Hm as <-; quiet_call.
Qed.

(** The table against the host: [h0] are the emulator's own descriptors, [p] those on their way
    between the host and the table. *)
Record sockets_ok (h0 p : gset Z) (s : Net H) : Prop := {
  ok_owns : owns h0 p (descriptors (host s)) (sockets (mgr s));
  ok_handles : ∀ h fd, sockets (mgr s) !! h = Some fd → 0xA000 ≤ h < next_handle (mgr s);
  ok_next : 0xA000 ≤ next_handle (mgr s);
}.

Lemma net_ok_new s : mgr s = sm_new → sockets_ok (descriptors (host s)) ∅ s.
Proof. intros Hnew. split; rewrite ?Hnew; cbn; [apply owns_new|done..]. Qed.
Lemma ok_quiet {A} h0 p (m : net A) s a s' : quiet m → sockets_ok h0 p s → m s = Ok (a, s') →
  sockets_ok h0 p s' ∧ next_handle (mgr s') = next_handle (mgr s).
Proof.
  intros Hq Hs Hm. destruct (Hq _ _ _ Hm) as (E1 & E2 & E3). split; [|done].
  destruct Hs. split; rewrite ?E1, ?E2, ?E3; done.
Qed.
Lemma ok_alloc h0 fd s r s' : sockets_ok h0 ({[fd]} ∪ ∅) s → next_handle (mgr s) + 1 < M32 →
  alloc fd s = Ok (r, s') → sockets_ok h0 ∅ s' ∧ next_handle (mgr s') = next_handle (mgr s) + 1.
Proof.
  intros [Ho Hh Hx] Hn. unfold alloc, sm_alloc. rewrite uadd_ok by done. intros [= _ <-].
  split; [split|done]; cbn -[lookup]; [|intros h k|lia].
  - apply owns_stored; [done|set_solver|]. destruct (sockets (mgr s) !! next_handle (mgr s)) as [k|] eqn:E; [|done].
    apply Hh in E. lia.
  - intros [[<- _]|[_ Hl]]%lookup_insert_Some; [lia|]. apply Hh in Hl. lia.
Qed.
(** Descriptors that the host has just opened, and those of a handle that goes out of the table. *)
Lemma ok_opened h0 s fd h' : sockets_ok h0 ∅ s → fd ∉ descriptors (host s) →
  descriptors h' = {[fd]} ∪ descriptors (host s) → sockets_ok h0 ({[fd]} ∪ ∅) (mk_net h' (mem s) (heap s) (mgr s)).
Proof. intros [Ho Hh Hx] Hf Hd. split; cbn -[lookup]; [rewrite Hd; by apply owns_opened|done..]. Qed.
Lemma ok_same_host h0 s h' : sockets_ok h0 ∅ s → descriptors h' = descriptors (host s) →
  sockets_ok h0 ∅ (mk_net h' (mem s) (heap s) (mgr s)).
Proof. intros [] Hd. split; cbn; rewrite ?Hd; done. Qed.
Lemma ok_closed h0 s h fd h' : sockets_ok h0 ∅ s → sockets (mgr s) !! h = Some fd →
  descriptors h' = descriptors (host s) ∖ {[fd]} →
  sockets_ok h0 ∅ (mk_net h' (mem s) (heap s) (sm_remove (mgr s) h).2).
Proof.
  intros [Ho Hh Hx] Hl Hd. split; cbn -[lookup]; [rewrite Hd; by apply owns_dropped| |done].
  intros k f [_ Hk]%lookup_delete_Some. by eapply Hh.
Qed.

(** A call keeps the table, and gives out one handle at most. *)
Definition keeps_table (m : net Z) : Prop := ∀ h0 s r s', sockets_ok h0 ∅ s → next_handle (mgr s) + 1 < M32 →
  m s = Ok (r, s') → sockets_ok h0 ∅ s' ∧ next_handle (mgr s) ≤ next_handle (mgr s') ≤ next_handle (mgr s) + 1.
Lemma net_keeps_quiet m : quiet m → keeps_table m.
Proof.
  intros Hq h0 s r s' Hs Hn Hm. destruct (ok_quiet _ _ _ _ _ _ Hq Hs Hm) as [? ->]. split; [done|lia].
Qed.
#[local] Hint Resolve quiet_fails quiet_refuses quiet_succeeds quiet_clear_errno quiet_address : quiet.
Lemma keeps_alloc h0 fd (m : net ()) s r s' : quiet m → sockets_ok h0 ({[fd]} ∪ ∅) s → next_handle (mgr s) + 1 < M32 →
  (m ≫= λ _, alloc fd) s = Ok (r, s') →
  sockets_ok h0 ∅ s' ∧ next_handle (mgr s) ≤ next_handle (mgr s') ≤ next_handle (mgr s) + 1.
Proof.
  intros Hq Hs Hn (u & s1 & H1 & H2)%net_bind_inv. destruct (ok_quiet _ _ _ _ _ _ Hq Hs H1) as [Hs1 E].
  rewrite <- E in Hn |- *. destruct (ok_alloc _ _ _ _ _ Hs1 Hn H2) as [? ->]. split; [done|lia].
Qed.
Lemma keeps_socket d t p : keeps_table (so_socket d t p).
Proof.
  intros h0 s r s' Hs Hn (x & s1 & H1 & H2)%net_bind_inv. unfold sys in H1.
  pose proof (socket_law (as_i32 d) (as_i32 t) (as_i32 p) (host s)) as Hl.
  pose proof (socket_fresh (as_i32 d) (as_i32 t) (as_i32 p) (host s)) as Hf.
  destruct (sys_socket _ _ _ (host s)) as [y h']. cbn [fst snd] in *. injection H1 as -> <-.
  destruct x as [e|fd].
  - rewrite (left_id_L ∅ _) in Hl. refine (net_keeps_quiet _ (quiet_fails e) h0 _ r s' _ _ H2); [by apply ok_same_host|done].
  - refine (keeps_alloc h0 fd _ _ r s' quiet_clear_errno _ _ H2); [apply ok_opened; auto|done].
Qed.
Lemma keeps_accept s0 a l : keeps_table (so_accept s0 a l).
Proof.
  intros h0 s r s' Hs Hn (x & s1 & H1 & H2)%net_bind_inv.
  destruct (ok_quiet _ _ _ _ _ _ (quiet_fd s0) Hs H1) as [Hs1 E]. rewrite <- E in Hn |- *. clear H1 E Hs.
  destruct x as [fd|]; [|by refine (net_keeps_quiet _ (net_quiet_ret SOCK_ERROR) h0 _ r s' _ _ H2)].
  apply net_bind_inv in H2 as (x & s2 & H1 & H2). unfold sys in H1.
  pose proof (accept_law fd (host s1)) as Hl. pose proof (accept_fresh fd (host s1)) as Hf.
  destruct (sys_accept fd (host s1)) as [y h']. cbn [fst snd] in *. injection H1 as -> <-.
  destruct x as [e|[new addr]].
  - rewrite (left_id_L ∅ _) in Hl. refine (net_keeps_quiet _ (quiet_fails e) h0 _ r s' _ _ H2); [by apply ok_same_host|done].
  - apply net_bind_inv in H2 as (u & s3 & H1 & H2).
    assert (sockets_ok h0 ({[new]} ∪ ∅) (mk_net h' (mem s1) (heap s1) (mgr s1))) as Hs2 by (apply ok_opened; eauto).
    apply (ok_quiet h0 ({[new]} ∪ ∅)) in H1 as [Hs3 E]; [|quiet|done]. cbn in E. rewrite <- E in Hn |- *.
    by refine (keeps_alloc h0 new _ _ r s' quiet_clear_errno _ _ H2).
Qed.
Lemma net_keeps_close s0 : keeps_table (so_close s0).
Proof.
  intros h0 s r s' Hs Hn (x & s1 & [= <- <-] & (u & s2 & [= <- <-] & H2)%net_bind_inv)%net_bind_inv.
  unfold sm_lookup in H2. destruct (sockets (mgr s) !! s0) as [fd|] eqn:Hl.
  - apply net_bind_inv in H2 as (x & s3 & H1 & H2). unfold sys in H1. cbn in H1.
    pose proof (close_law fd (host s)) as Hc. destruct (sys_close fd (host s)) as [y h']. cbn in Hc.
    injection H1 as -> <-. pose proof (ok_closed _ _ _ _ h' Hs Hl Hc) as Hs3.
    assert (quiet (match x with Some e => fails e | None => succeeds SOCK_SUCCESS end)) as Hq by quiet.
    by refine (net_keeps_quiet _ Hq h0 _ r s' _ _ H2).
  - rewrite delete_id in H2 by done. destruct s as [? ? ? []]. by refine (net_keeps_quiet _ (quiet_refuses _ _) h0 _ r s' _ _ H2).
Qed.

Lemma net_call_keeps method args m : so_call enc_decode active_cp method args = Some m → keeps_table m.
Proof.
  intros (f & Hin & Hf)%so_call_inv. pose proof calls_quiet as Hq. rewrite Forall_forall in Hq. specialize (Hq _ Hin).
  cbn in Hq. destruct (decide (method ∈ ["so_socket"; "so_accept"; "so_close"]%string)) as [Hm|Hm].
  - clear Hq. unfold so_calls in Hin. repeat (apply elem_of_cons in Hin as [Hin|Hin]; [injection Hin as -> ->|]);
      try (exfalso; apply (bool_decide_pack _) in Hm; exact Hm); try (by apply elem_of_nil in Hin);
      repeat (destruct args as [|? args]; try discriminate Hf); injection Hf as <-;
      first [apply keeps_socket|apply keeps_accept|apply net_keeps_close].
  - by eapply net_keeps_quiet, Hq.
Qed.

(** C12: Whatever socket calls a program makes, its handles stand one to one for the descriptors that
    the host has open for it: none is leaked, none is closed behind a handle's back, and the
    emulator's own descriptors are never among them. *)
Theorem sockets_match l s rs s' : mgr s = sm_new → 0xA000 + len l < M32 →
  run enc_decode active_cp l s = Ok (rs, s') → sockets_ok (descriptors (host s)) ∅ s'.
Proof.
  intros Hnew Hlen. pose proof (net_ok_new s Hnew) as Hok. revert Hok.
  assert (next_handle (mgr s) + len l < M32) as Hn by (by rewrite Hnew). clear Hnew Hlen.
  generalize (descriptors (host s)). intros h0. revert s rs Hn. induction l as [|[method args] l IH]; intros s rs Hn Hs.
  { by intros [= <- <-]. }
  cbn [run]. rewrite len_cons in Hn. destruct (so_call _ _ method args) as [m|] eqn:Hm.
  - intros (r & s1 & H1 & (rs1 & s2 & H2 & [= _ <-])%net_bind_inv)%net_bind_inv.
    pose proof (len_nonneg l). destruct (net_call_keeps _ _ _ Hm _ _ _ _ Hs ltac:(lia) H1) as [Hs1 ?].
    eapply IH; [|done..]. lia.
  - apply IH; [lia|done].
Qed.
End descriptors.

(** * select *)

Section select.
Context {B : Build} {H : Type} {SH : SocketHost H} {HL : SocketHostLaws H}.

(** Sets without a bit, given for the pointers that are not null, and stored through them. *)
Definition watching (ptr : Z) : option (gset Z) := if ptr =? 0 then None else Some ∅.
Definition cleared (m : GuestMemory) (ptr : Z) : GuestMemory :=
  if ptr =? 0 then m else poke 4 (poke 4 m ptr 0) (ptr + 4) 0.
Definition timeval_at (m : GuestMemory) (ptr : Z) : option (Z * Z) :=
  if ptr =? 0 then None else Some (default 0 (read32 m ptr), default 0 (read32 m (ptr + 4))).

Definition high (l : list (Z * Z)) : Prop := Forall (λ x, 64 ≤ x.1) l.
Lemma translate_high fds l set max : high l → translate fds l set max = Ok (set, max).
Proof.
  induction 1 as [|[h fd] l Hh _ IH]; [done|]. cbn [fst] in Hh. cbn [translate].
  by rewrite (proj2 (Z.ltb_ge h 64)) by lia.
Qed.
Lemma set_bits_high set l bits : high l → set_bits set l bits = Ok bits.
Proof.
  induction 1 as [|[h fd] l Hh _ IH]; [done|]. cbn [fst] in Hh. cbn [set_bits].
  by rewrite (proj2 (Z.ltb_ge h 64)) by lia.
Qed.
Lemma translate_set_high ptr fds l max : high l → translate_set ptr fds l max = Ok (watching ptr, max).
Proof.
  intros Hl. unfold translate_set, watching. destruct (ptr =? 0); [done|]. by rewrite translate_high.
Qed.
Lemma net_ok {A C} (m : net H A) (f : A → net H C) s a s1 : m s = Ok (a, s1) → (m ≫= f) s = f a s1.
Proof. intros Hm. unfold mbind, net_bind. by rewrite Hm. Qed.
Lemma translate_back_high set ptr l (s : Net H) : high l → ptr + 4 < M32 →
  translate_back set ptr l s = Ok (tt, mk_net (host s) (cleared (mem s) ptr) (heap s) (mgr s)).
Proof.
  intros Hl Hp. unfold translate_back, cleared. destruct (ptr =? 0); [by destruct s|].
  erewrite net_ok by (unfold lift; by rewrite set_bits_high). unfold put. rewrite !uadd_ok by lia.
  rewrite Z.add_0_r. by cbn.
Qed.
Lemma read_fdset_ok ptr (s : Net H) : ptr + 4 < M32 → ∃ v, read_os2_fdset ptr s = Ok (v, s).
Proof.
  intros Hp. unfold read_os2_fdset. destruct (ptr =? 0); [by eexists|]. rewrite uadd_ok by done. by eexists.
Qed.
Lemma read_timeval_ok ptr (s : Net H) : ptr + 4 < M32 → read_timeval ptr s = Ok (timeval_at (mem s) ptr, s).
Proof.
  intros Hp. unfold read_timeval, timeval_at. destruct (ptr =? 0); [done|]. by rewrite uadd_ok.
Qed.

(** Whatever sets a program gives to [select], the host is asked to watch no descriptor: the
    sets have room for the handles below 64, and every handle is at least 0xA000.  The call is a
    sleep for the timeout, after which all sets are empty. *)
Theorem select_blind h0 (s : Net H) nfds r w e t :
  sockets_ok h0 ∅ s → r + 4 < M32 → w + 4 < M32 → e + 4 < M32 → t + 4 < M32 →
  so_select nfds r w e t s =
    let '(x, h') := sys_select 0 (watching r) (watching w) (watching e) (timeval_at (mem s) t) (host s) in
    Ok (match x with
        | inl err => (SOCK_ERROR, mk_net h' (mem s) (heap s) (sm_set_errno (errno_to_soce err) (mgr s)))
        | inr (rc, _, _, _) =>
          (as_u M32 rc, mk_net h' (cleared (cleared (cleared (mem s) r) w) e) (heap s) (sm_clear_errno (mgr s)))
        end).
Proof.
  intros Hok Hr Hw He Ht. set (l := map_to_list (sockets (mgr s))).
  assert (Hl : high l).
  { apply Forall_forall. intros [h fd] Hin%elem_of_map_to_list. apply (ok_handles _ _ _ Hok) in Hin. cbn. lia. }
  destruct (read_fdset_ok r s Hr) as [vr Er], (read_fdset_ok w s Hw) as [vw Ew], (read_fdset_ok e s He) as [ve Ee].
  unfold so_select. erewrite net_ok by done. fold l. rewrite (net_ok _ _ _ _ _ Er), (net_ok _ _ _ _ _ Ew), (net_ok _ _ _ _ _ Ee).
  do 3 (erewrite net_ok by (unfold lift; by rewrite translate_set_high); cbv beta iota). rewrite (net_ok _ _ _ _ _ (read_timeval_ok t s Ht)).
  unfold mbind at 1, net_bind at 1, sys. destruct (sys_select _ _ _ _ _ _) as [[err|[[[rc rs] ws] es]] h']; cbn [mbind outcome_bind]; [done|].
  do 3 (erewrite net_ok by (by apply translate_back_high)). done.
Qed.
End select.

(** * The lengths given to the host *)

Section buffers.
Context {B : Build} {H : Type} {SH : SocketHost H}.
Context (enc_decode : Encoding → bytes → rstring) (active_cp : Z).
Abbreviation net := (net H).

(** The host reads no further than the buffers it is handed. *)
Definition within {A} (m : net A) : Prop := ∀ s, m s ≠ Err Overread.

Lemma within_bind {A C} (m : net A) (f : A → net C) : within m → (∀ a, within (f a)) → within (m ≫= f).
Proof.
  intros Hm Hf s. unfold mbind, net_bind. specialize (Hm s). destruct (m s) as [[a s1]|[]| |] eqn:E; try done. apply Hf.
Qed.
Lemma within_ret {A} (a : A) : within (mret a).
Proof. done. Qed.
Lemma within_ask {A} (f : Net H → A) : within (ask f).
Proof. done. Qed.
Lemma within_in_mem f : within (in_mem f).
Proof. done. Qed.
Lemma within_on_mgr f : within (on_mgr f).
Proof. done. Qed.
Lemma within_set_errno c : within (set_errno c).
Proof. done. Qed.
Lemma within_clear_errno : within clear_errno.
Proof. done. Qed.
Lemma within_sys {A} (c : H → A * H) : within (sys c).
Proof. intros s. unfold sys. by destruct (c (host s)). Qed.
Lemma own_bytes n m a i : errless (guest_bytes n m a i).
Proof.
  revert i. induction n as [|n IH]; intros i; cbn [guest_bytes]; [done|].
  apply errless_bind; [auto with errless|intros x]. by apply errless_bind; [apply IH|].
Qed.
Lemma own_translate fds l set max : errless (translate fds l set max).
Proof.
  revert set max. induction l as [|[h fd] l IH]; intros set max; cbn [translate]; [done|].
  destruct (_ && _); [|apply IH]. apply errless_bind; [|intros; apply IH]. unfold FD_SET. errless.
Qed.
Lemma own_translate_set p fds l max : errless (translate_set p fds l max).
Proof. unfold translate_set. destruct (_ =? _); [done|]. apply errless_bind; [apply own_translate|by intros []]. Qed.
Lemma own_set_bits set l bits : errless (set_bits set l bits).
Proof.
  revert bits. induction l as [|[h fd] l IH]; intros bits; cbn [set_bits]; [done|].
  apply errless_bind; [|intros; apply IH]. unfold FD_ISSET. errless.
Qed.
Lemma own_upto n t : errless (str_upto n t).
Proof.
  revert n. induction t as [|c t IH]; intros n; cbn [str_upto]; destruct (n =? 0); try done.
  destruct (_ <? _); [done|]. by apply errless_bind; [apply IH|].
Qed.
Lemma own_capped n t : errless (str_capped n t).
Proof. unfold str_capped. destruct (_ <? _); [apply own_upto|done]. Qed.
Lemma own_heap h n : errless (MemMgr.alloc (E:=stop) h n).
Proof. unfold MemMgr.alloc. errless. apply errless_bind; [errless; apply errless_bind; errless|done]. Qed.
#[local] Hint Resolve own_translate_set own_set_bits own_capped : errless.

Lemma within_lift {A} (o : outcome stop A) : errless o → within (lift o).
Proof. intros Ho s. unfold lift. specialize (Ho Overread). destruct o as [|[]| |]; done. Qed.
Lemma within_guest_bytes a n : within (read_guest_bytes a n).
Proof.
  intros s. unfold read_guest_bytes. destruct (slice_mut _ _ _); [done|].
  by apply (errless_bind (guest_bytes _ _ _ _)); [apply own_bytes|].
Qed.
Lemma within_alloc fd : within (alloc fd).
Proof.
  intros s. unfold alloc, sm_alloc. apply errless_bind; [|by intros []]. apply errless_bind; [auto with errless|done].
Qed.
Lemma within_scratch : within ensure_hostent_scratch.
Proof.
  intros s. unfold ensure_hostent_scratch. destruct (scratch_addr (mgr s)); [done|].
  by apply errless_bind; [apply own_heap|intros [[a|] h]].
Qed.
Create HintDb within.
#[local] Hint Resolve within_ret within_ask within_in_mem within_on_mgr within_set_errno within_clear_errno
  within_sys within_alloc within_guest_bytes within_scratch : within.
#[local] Hint Extern 2 (within (lift _)) => apply within_lift; auto with errless : within.
Ltac within := cbv zeta; intros; repeat first
  [ assumption | solve [auto with within nocore]
  | apply within_bind; [|intros ?]
  | match goal with |- within (match ?x with _ => _ end) => destruct x end ].
Ltac within_call := intros; match goal with |- within ?m => let f := head_symbol m in unfold f end; within.
Lemma within_put p off v : within (put p off v).
Proof. within_call. Qed.
Lemma within_put_bytes p l : within (put_bytes p l).
Proof. within_call. Qed.
Lemma within_get32 p : within (get32 p).
Proof. within_call. Qed.
Lemma within_read_str p : within (read_str enc_decode active_cp p).
Proof. within_call. Qed.
#[local] Hint Resolve within_put within_put_bytes within_get32 within_read_str : within.
Lemma within_fails e : within (fails e).
Proof. within_call. Qed.
Lemma within_refuses c r : within (refuses c r).
Proof. within_call. Qed.
Lemma within_succeeds r : within (succeeds r).
Proof. within_call. Qed.
Lemma within_fd s : within (so_fd s).
Proof. within_call. Qed.
#[local] Hint Resolve within_fails within_refuses within_succeeds within_fd : within.
Lemma within_on_fd s f : (∀ fd, within (f fd)) → within (on_fd s f).
Proof. within_call. Qed.
Lemma within_rc rc v : within (translate_rc rc v).
Proof. within_call. Qed.
Lemma within_address a p l : within (give_address a p l).
Proof. within_call. Qed.
Lemma within_slice p n f : within f → within (with_slice p n f).
Proof. within_call. Qed.
Lemma within_sent r : within (sent r).
Proof. within_call. Qed.
Lemma within_fdset p : within (read_os2_fdset p).
Proof. within_call. Qed.
Lemma within_back l p m : within (translate_back l p m).
Proof. within_call. Qed.
Lemma within_timeval p : within (read_timeval p).
Proof. within_call. Qed.
Lemma within_hostent n ip : within (write_hostent_to_scratch n ip).
Proof. within_call. Qed.
Lemma within_servent n port p : within (write_servent_to_scratch n port p).
Proof. within_call. Qed.
Lemma within_proto p : within (read_proto enc_decode active_cp p).
Proof. within_call. Qed.
#[local] Hint Resolve within_rc within_address within_sent within_fdset within_back within_timeval within_hostent
  within_servent within_proto : within.
#[local] Hint Extern 2 (within (on_fd _ _)) => apply within_on_fd; within : within.
#[local] Hint Extern 2 (within (with_slice _ _ _)) => apply within_slice; within : within.

(** A buffer whose length was compared with the bytes read. *)
Lemma within_checked data n (f : bytes → net Z) : (∀ a, within (f a)) →
  within (if len data <? n then refuses SOCE_FAULT SOCK_ERROR else handed data n ≫= f).
Proof.
  intros Hf. destruct (Z.ltb_spec (len data) n); [within|]. apply within_bind; [|done].
  unfold handed. rewrite (proj2 (Z.leb_le _ _)) by done. within.
Qed.
#[local] Hint Extern 2 (within (if len _ <? _ then _ else _)) => apply within_checked; within : within.
(** A buffer in guest memory that is not longer than what a call reads at most. *)
Definition readable (m : GuestMemory) (p n : Z) : Prop := n ≤ MAX_SOCKET_BUF ∧ p + n ≤ size m.
Lemma handed_readable p n (f : bytes → net Z) (s : Net H) : size (mem s) < M64 → readable (mem s) p n → 0 ≤ n →
  (∀ a, within (f a)) → (read_guest_bytes p n ≫= λ l, handed l n ≫= f) s ≠ Err Overread.
Proof.
  intros Hs [Hn Hp] H0 Hf. unfold read_guest_bytes. unfold mbind at 1, net_bind at 1. rewrite Z.min_l by done.
  unfold slice_mut. rewrite (proj2 (ptr_at_Some (mem s) p n p Hs)) by done. cbn [mbind outcome_bind option_bind].
  assert (len (load_bytes (mem s) p (Z.to_nat n)) = n) as Hl by (unfold len; rewrite length_load_bytes; lia).
  unfold handed, lift. rewrite Hl, (proj2 (Z.leb_le _ _)) by lia. apply Hf.
Qed.
(** A handle that is not in the table is refused and nothing else happens. *)
Lemma on_fd_eq h (f : Z → net Z) s : on_fd h f s =
  match sockets (mgr s) !! h with
  | Some fd => f fd s
  | None => Ok (SOCK_ERROR, mk_net (host s) (mem s) (heap s) (sm_set_errno SOCE_BADF (mgr s)))
  end.
Proof. unfold on_fd, so_fd, mbind, net_bind, ask, sm_lookup. cbn. by destruct (sockets (mgr s) !! h). Qed.

Lemma calls_within : Forall (λ x, ∀ l m s, x.2 l = Some m → size (mem s) < M64 → Forall u32 l →
  (x.1 = "so_setsockopt"%string → readable (mem s) (nth 3 l 0) (nth 4 l 0)) →
  (x.1 = "so_sendto"%string → nth 4 l 0 ≠ 0 → readable (mem s) (nth 4 l 0) (nth 5 l 0)) →
  m s ≠ Err Overread) (so_calls (H:=H) enc_decode active_cp).
Proof.
  unfold so_calls. repeat first [apply Forall_nil_2 | apply Forall_cons_2]; cbn [fst snd]; intros l m s Hm Hs Hu Ho Ht;
    repeat (destruct l as [|? l]; try discriminate Hm); injection Hm as <-;
    try (match goal with |- ?m s ≠ _ => enough (within m) as Hw by apply Hw end; within_call; fail).
  all: repeat (apply Forall_cons in Hu as [? Hu]); unfold u32 in *; cbn [nth] in *.
  - unfold so_sendto. rewrite on_fd_eq. destruct (_ !! _) as [fd|]; [|done].
    unfold mbind at 1, net_bind at 1. destruct (read_guest_bytes _ _ s) as [[data s1]|[]| |] eqn:Hr; cbn [mbind outcome_bind]; try done.
    2: { by apply within_guest_bytes in Hr. }
    assert (mem s1 = mem s) as Em.
    { unfold read_guest_bytes in Hr. destruct (slice_mut _ _ _); [by injection Hr as _ <-|].
      by apply bind_Ok_inv in Hr as (? & _ & [= _ <-]). }
    destruct (Z.eqb_spec z3 0) as [|Hz]; cbn [negb andb]; [apply within_bind; within|].
    destruct (0 <? z4); [|apply within_bind; within].
    apply handed_readable; rewrite ?Em; [done|by apply Ht|lia|within].
  - unfold so_setsockopt. rewrite on_fd_eq. destruct (_ !! _) as [fd|]; [|done].
    apply handed_readable; [done|by apply Ho|lia|within].
Qed.

(** C13: A socket call never gives the host a length beyond the bytes it read from the guest, provided
    that the option of [setsockopt] and the address of [sendto], which are not compared with it,
    lie in guest memory and have at most 64 KiB. *)
Theorem host_reads_within method args m s :
  so_call enc_decode active_cp method args = Some m → size (mem s) < M64 → Forall u32 args →
  (method = "so_setsockopt"%string → readable (mem s) (nth 3 args 0) (nth 4 args 0)) →
  (method = "so_sendto"%string → nth 4 args 0 ≠ 0 → readable (mem s) (nth 4 args 0) (nth 5 args 0)) →
  m s ≠ Err Overread.
Proof.
  intros (f & Hin & Hf)%so_call_inv. pose proof calls_within as Hw. rewrite Forall_forall in Hw.
  specialize (Hw _ Hin). cbn in Hw. by eapply Hw.
Qed.

(** * The registry *)

(** Every entry of the two modules is one of these calls, with the arguments it takes. *)
Definition is_socket_entry (id : Z) (args : list Z) (e : ApiRegistry.ApiEntry) : bool :=
  if existsb (String.eqb (ApiRegistry.module e)) ["SO32DLL"; "TCP32DLL"]%string then
    match ApiRegistry.handler e with
    | ApiRegistry.Normal m l =>
      match so_call (SH := SH) enc_decode active_cp m (map (ApiRegistry.arg_value id args) l) with Some _ => true | None => false end
    | _ => false
    end
  else true.
Lemma registry_sockets id args : forallb (is_socket_entry id args) ApiRegistry.REGISTRY = true.
Proof. vm_compute. reflexivity. Qed.
End buffers.

(** * A host for the examples

    Its state is the list of open descriptors; a socket gets the next number, [recv] finds two
    bytes, and every service is http. *)
Definition FakeHost : Type := list Z.
Definition next_fd (h : FakeHost) : Z := foldr Z.max 2 h + 1.
#[export] Instance fake_host : SocketHost FakeHost := {
  sys_socket _ _ _ h := (inr (next_fd h), next_fd h :: h);
  sys_close fd h := (if bool_decide (fd ∈ h) then None else Some 9, filter (λ x, x ≠ fd) h);
  sys_bind _ _ h := (None, h);
  sys_connect _ _ h := (Some 111, h);
  sys_listen _ _ h := (None, h);
  sys_accept _ h := (inr (next_fd h, [2; 0; 0; 80; 127; 0; 0; 1]), next_fd h :: h);
  sys_send _ d _ h := (inr (len d), h);
  sys_sendto _ d _ _ h := (inr (len d), h);
  sys_recv _ n _ h := (inr (take (Z.to_nat n) [104; 105], Z.min n 2), h);
  sys_recvfrom _ n _ h := (inr (take (Z.to_nat n) [104; 105], Z.min n 2, [2; 0]), h);
  sys_shutdown _ _ h := (None, h);
  sys_getsockname _ h := (inr [2; 0], h);
  sys_getpeername _ h := (inl 107, h);
  sys_setsockopt _ _ _ _ h := (None, h);
  sys_getsockopt _ _ _ _ h := (inr [1; 0; 0; 0], h);
  sys_select _ _ _ _ _ h := (inr (0, ∅, ∅, ∅), h);
  sys_gethostid _ := 0x0100007F;
  sys_gethostname _ _ := (None, [104; 0]);
  to_socket_addrs _ _ := Some [V6; V4 [127; 0; 0; 1]];
  sys_getservbyname _ _ _ := Some (mk_servent (str "http") 0x5000 (str "tcp"));
  sys_getservbyport _ _ _ := Some (mk_servent (str "http") 0x5000 (str "tcp"));
}.
Lemma next_fd_fresh h : next_fd h ∉ (list_to_set h : gset Z).
Proof.
  rewrite elem_of_list_to_set. unfold next_fd. cut (∀ x, x ∈ h → x ≤ foldr Z.max 2 h); [intros Hx Hi%Hx; lia|].
  induction h as [|y h IH]; intros x Hx; [set_solver|]. apply elem_of_cons in Hx as [->|Hx]; cbn; [lia|].
  specialize (IH x Hx). lia.
Qed.
#[export] Instance fake_laws : SocketHostLaws FakeHost.
Proof.
  apply (Build_SocketHostLaws FakeHost _ list_to_set); try done.
  - intros d t p h fd [= <-]. apply next_fd_fresh.
  - intros fd h new a [= <- _]. apply next_fd_fresh.
  - intros fd h. apply set_eq. intros x. change (sys_close fd h).2 with (filter (λ x, x ≠ fd) h).
    rewrite elem_of_list_to_set, list_elem_of_filter, elem_of_difference, elem_of_list_to_set, elem_of_singleton. tauto.
Defined.

Definition fake_decode (e : Encoding) (b : bytes) : rstring := b.
Definition demo_net : Net FakeHost := mk_net [0; 1; 2] (GuestMem.alloc 0x10000) (MemMgr.new 0x2000 0x9000) sm_new.
Definition demo_calls : list (string * list Z) := [
  ("so_socket"%string, [2; 1; 0]); ("so_bind"%string, [0xA000; 0x100; 16]); ("so_listen"%string, [0xA000; 5]);
  ("so_accept"%string, [0xA000; 0; 0]); ("so_close"%string, [0xA000]); ("so_recv"%string, [0xA000; 0x200; 4; 0])].
Lemma sockets_match_witness : ∃ rs s',
  run (B:=release_profile) fake_decode 437 demo_calls demo_net = Ok (rs, s') ∧
  rs = [0xA000; 0; 0; 0xA001; 0; SOCK_ERROR] ∧ host s' = [4; 0; 1; 2] ∧
  sockets_ok (descriptors (host demo_net)) ∅ s'.
Proof.
  eexists _, _. split; [vm_compute; reflexivity|]. split; [reflexivity|]. split; [reflexivity|].
  apply (sockets_match (B:=release_profile) fake_decode 437 demo_calls demo_net [0xA000; 0; 0; 0xA001; 0; SOCK_ERROR]);
    [reflexivity|reflexivity|vm_compute; reflexivity].
Defined.

(** One socket, of handle 0xA000, and a set with every bit. *)
Definition watched_net : Net FakeHost :=
  mk_net [3; 0; 1; 2] (poke 4 (poke 4 (GuestMem.alloc 0x1000) 0x100 0xFFFFFFFF) 0x104 0xFFFFFFFF)
    (MemMgr.new 0x2000 0x9000) (mk_sm {[0xA000 := 3]} 0xA001 0 None).
Lemma watched_ok : sockets_ok (list_to_set [0; 1; 2]) ∅ watched_net.
Proof.
  split; cbn -[lookup list_to_set singletonM].
  - replace (list_to_set [3; 0; 1; 2] : gset Z) with ({[3]} ∪ list_to_set [0; 1; 2] : gset Z) by set_solver.
    apply owns_stored; [|set_solver|done]. apply owns_opened; [apply owns_new|]. apply (bool_decide_unpack _). by vm_compute.
  - intros h fd [<- _]%lookup_singleton_Some. lia.
  - lia.
Qed.
Lemma select_blind_witness :
  so_select (B:=release_profile) 0x10000 0x100 0 0 0 watched_net =
  Ok (0, mk_net [3; 0; 1; 2] (cleared (mem watched_net) 0x100) (heap watched_net) (mgr watched_net)).
Proof.
  refine (select_blind (B:=release_profile) _ watched_net 0x10000 0x100 0 0 0 watched_ok _ _ _ _); reflexivity.
Defined.

Lemma host_reads_within_witness :
  so_setsockopt (B:=release_profile) 0xA000 1 4 0x100 4 watched_net ≠ Err Overread ∧
  so_setsockopt (B:=release_profile) 0xA000 1 4 0x100 70000 watched_net = Err Overread.
Proof.
  split.
  - apply (host_reads_within (B:=release_profile) fake_decode 437 "so_setsockopt"%string [0xA000; 1; 4; 0x100; 4]).
    + reflexivity.
    + reflexivity.
    + repeat constructor; discriminate.
    + intros _. split; discriminate.
    + discriminate.
  - vm_compute. reflexivity.
Defined.
