(* ===== verification/FileFormat.v ===== *)
(** The records that the file calls of src/src/loader/doscalls.rs exchange with the guest:
    FILESTATUS3, the packed FILEFINDBUF3 lists of DosFindFirst and DosFindNext, and the
    extended-attribute lists (GEA2LIST in, FEA2LIST and DENA1 out).

    A writer is a function on guest memory.  [guest_write] outside of it does nothing; the
    address arithmetic is that of u32. *)
From S2P Require Import Prelude Bytes Codepage GuestMem Vfs.

(** [vfs.rs]: [EaEntry] *)
Record EaEntry := mk_ea { ea_name : rstring; ea_value : bytes; ea_flags : Z }.

(** [(n + 3) & !3] *)
Definition align4 {B : Build} {E} (n : Z) : outcome E Z :=
  a ← uadd M32 n 3; Ok (Z.land a (Z.lnot (Z.ones 2))).

Section formats.
Context {B : Build} {E : Type}.

(** [guest_write::<T>(a + off, v)] for a type of [n] bytes, and [guest_write_bytes(a + off, l)]. *)
Definition put (n : nat) (m : GuestMemory) (a off v : Z) : outcome E GuestMemory :=
  p ← uadd M32 a off; Ok (poke n m p v).
Definition put_bytes (m : GuestMemory) (a off : Z) (l : bytes) : outcome E GuestMemory :=
  p ← uadd M32 a off; Ok (default m (write_bytes m p l)).

(** * FILESTATUS3 *)

(** [write_filestatus3_from_vfs] *)
Definition write_filestatus3_from_vfs (m : GuestMemory) (st : FileStatus) (offset : Z)
    : outcome E GuestMemory :=
  m ← put 2 m offset 0 (creation_date st);
  m ← put 2 m offset 2 (creation_time st);
  m ← put 2 m offset 4 (last_access_date st);
  m ← put 2 m offset 6 (last_access_time st);
  m ← put 2 m offset 8 (last_write_date st);
  m ← put 2 m offset 10 (last_write_time st);
  m ← put 4 m offset 12 (file_size st);
  m ← put 4 m offset 16 (file_alloc st);
  put 4 m offset 20 (attributes st).

(** [write_filestatus3_internal], from the length and kind of a host file. *)
Definition write_filestatus3_internal (m : GuestMemory) (length : Z) (is_dir : bool) (offset : Z)
    : outcome E GuestMemory :=
  let dos_date := 0x21 in
  let dos_time := 0 in
  m ← put 2 m offset 0 dos_date;
  m ← put 2 m offset 2 dos_time;
  m ← put 2 m offset 4 dos_date;
  m ← put 2 m offset 6 dos_time;
  m ← put 2 m offset 8 dos_date;
  m ← put 2 m offset 10 dos_time;
  m ← put 4 m offset 12 (as_u M32 length);
  m ← put 4 m offset 16 (as_u M32 length);
  put 4 m offset 20 (if is_dir then 0x10 else 0x00).

(** * FILEFINDBUF3 *)

Context (enc_encode : Encoding → rstring → bytes).

(** The body of the loop of [write_filefindbuf3_multi]: the entry at [entry_ptr]. *)
Definition write_findbuf_entry (cp : Z) (m : GuestMemory) (e : DirEntry) (entry_ptr : Z)
    (include_ea_size : bool) : outcome E GuestMemory :=
  let name_bytes := cp_encode enc_encode (name e) cp in
  let name_len := Z.min (len name_bytes) 255 in
  let name_offset := 28 + if include_ea_size then 4 else 0 in
  m ← put 4 m entry_ptr 0 0;
  p ← uadd M32 entry_ptr 4;
  m ← write_filestatus3_from_vfs m (status e) p;
  m ← (if include_ea_size then put 4 m entry_ptr 28 4 else Ok m);
  m ← put 1 m entry_ptr name_offset name_len;
  m ← put_bytes m entry_ptr (name_offset + 1) (take (Z.to_nat name_len) name_bytes);
  put 1 m entry_ptr (name_offset + 1 + name_len) 0.

(** The previous record of a list is made to point to the one at [p]. *)
Definition link (m : GuestMemory) (prev : option Z) (p : Z) : outcome E GuestMemory :=
  match prev with
  | Some prev => d ← usub M32 p prev; put 4 m prev 0 d
  | None => Ok m
  end.

Fixpoint findbuf_loop (cp : Z) (m : GuestMemory) (entries : list DirEntry)
    (buf_ptr buf_len : Z) (include_ea_size : bool) (offset count : Z) (prev : option Z)
    : outcome E (Z * GuestMemory) :=
  match entries with
  | [] => Ok (count, m)
  | e :: entries =>
    let name_len := Z.min (len (cp_encode enc_encode (name e) cp)) 255 in
    let entry_size := 4 + 24 + (if include_ea_size then 4 else 0) + 1 + name_len + 1 in
    aligned_size ← align4 entry_size;
    end_ ← uadd M32 offset entry_size;
    if buf_len <? end_ then Ok (count, m)
    else
      entry_ptr ← uadd M32 buf_ptr offset;
      m ← write_findbuf_entry cp m e entry_ptr include_ea_size;
      m ← link m prev entry_ptr;
      offset ← uadd M32 offset aligned_size;
      count ← uadd M32 count 1;
      findbuf_loop cp m entries buf_ptr buf_len include_ea_size offset count (Some entry_ptr)
  end.

(** [write_filefindbuf3_multi] *)
Definition write_filefindbuf3_multi (cp : Z) (m : GuestMemory) (entries : list DirEntry)
    (buf_ptr buf_len pc_found_ptr : Z) (include_ea_size : bool) : outcome E (Z * GuestMemory) :=
  '(count, m) ← findbuf_loop cp m entries buf_ptr buf_len include_ea_size 0 0 None;
  m ← (if pc_found_ptr =? 0 then Ok m else put 4 m pc_found_ptr 0 count);
  Ok (if count =? 0 then 111 else 0, m).

(** * Extended attributes *)

(** The bytes of a name, one guest read each. *)
Definition gea_name (m : GuestMemory) (a n : Z) : outcome E bytes :=
  mapM (λ i, p ← uadd M32 a i; Ok (default 0 (read8 m p))) (range 0 n).

(** The GEA2LIST loop of [dos_query_eas_from_list], with fuel. *)
Fixpoint gea_names (fuel : nat) (m : GuestMemory) (p_gea2list gea_cb_list pos : Z)
    : outcome E (list rstring) :=
  match fuel with
  | O => Diverge
  | S fuel =>
    if pos <? gea_cb_list then
      at_ ← uadd M32 p_gea2list pos;
      let o_next := default 0 (read32 m at_) in
      p ← uadd M32 at_ 4;
      let cb_name := default 0 (read8 m p) in
      if cb_name =? 0 then Ok []
      else
        p ← uadd M32 at_ 5;
        name ← gea_name m p (Z.min cb_name 260);
        if o_next =? 0 then Ok [from_utf8_lossy name]
        else
          pos ← uadd M32 pos o_next;
          names ← gea_names fuel m p_gea2list gea_cb_list pos;
          Ok (from_utf8_lossy name :: names)
    else Ok []
  end.

(** One FEA2 of the output loop. *)
Definition fea2_size (name_bytes : bytes) (ea : EaEntry) : Z :=
  4 + 1 + 1 + 2 + len name_bytes + 1 + len (ea_value ea).
Definition write_fea2 (cp : Z) (m : GuestMemory) (ea : EaEntry) (p : Z) : outcome E GuestMemory :=
  let name_bytes := cp_encode enc_encode (ea_name ea) cp in
  m ← put 4 m p 0 0;
  m ← put 1 m p 4 (ea_flags ea);
  m ← put 1 m p 5 (len name_bytes);
  m ← put 2 m p 6 (len (ea_value ea));
  m ← put_bytes m p 8 name_bytes;
  m ← put 1 m p (8 + len name_bytes) 0;
  if bool_decide (ea_value ea = []) then Ok m
  else put_bytes m p (9 + len name_bytes) (ea_value ea).

Fixpoint fea_loop (cp : Z) (m : GuestMemory) (eas : list EaEntry) (p_fea2list out_pos : Z)
    (prev : option Z) : outcome E (Z * GuestMemory) :=
  match eas with
  | [] => Ok (out_pos, m)
  | ea :: eas =>
    aligned_size ← align4 (fea2_size (cp_encode enc_encode (ea_name ea) cp) ea);
    fea2_ptr ← uadd M32 p_fea2list out_pos;
    m ← write_fea2 cp m ea fea2_ptr;
    m ← link m prev fea2_ptr;
    out_pos ← uadd M32 out_pos aligned_size;
    fea_loop cp m eas p_fea2list out_pos (Some fea2_ptr)
  end.

(** The list, then its length. *)
Definition write_fea2list (cp : Z) (m : GuestMemory) (eas : list EaEntry) (p_fea2list : Z)
    : outcome E GuestMemory :=
  '(out_pos, m) ← fea_loop cp m eas p_fea2list 4 None;
  put 4 m p_fea2list 0 out_pos.

(** The DENA1 loop of [dos_enum_attribute]: [cbName] and [cbValue] are truncated to their
    widths. *)
Fixpoint dena_loop (cp : Z) (m : GuestMemory) (eas : list EaEntry) (pv_buf cb_buf offset count : Z)
    : outcome E (Z * GuestMemory) :=
  match eas with
  | [] => Ok (count, m)
  | ea :: eas =>
    let name_bytes := cp_encode enc_encode (ea_name ea) cp in
    aligned_size ← align4 (4 + 1 + 2 + len name_bytes + 1);
    end_ ← uadd M32 offset aligned_size;
    if cb_buf <? end_ then Ok (count, m)
    else
      p ← uadd M32 pv_buf offset;
      m ← put 4 m p 0 0;
      m ← put 1 m p 4 (len name_bytes);
      m ← put 2 m p 5 (len (ea_value ea));
      m ← put_bytes m p 7 name_bytes;
      m ← put 1 m p (7 + len name_bytes) 0;
      count ← uadd M32 count 1;
      dena_loop cp m eas pv_buf cb_buf end_ count
  end.

(** The total of [compute_ea_size]. *)
Definition ea_list_size (eas : list EaEntry) : outcome E Z :=
  if bool_decide (eas = []) then Ok 4
  else
    n ← for_in eas (λ ea n,
          a ← uadd M32 9 (as_u M32 (len (as_bytes (ea_name ea))));
          a ← uadd M32 a (as_u M32 (len (ea_value ea)));
          uadd M32 n a) 0;
    uadd M32 n 4.
End formats.

(** * Stored and held bytes *)

(** [l] lies at [p]. *)
Definition holds (m : GuestMemory) (p : Z) (l : bytes) : Prop := load_bytes m p (length l) = l.

Lemma store_bytes_app m p a b :
  store_bytes m p (a ++ b) = store_bytes (store_bytes m p a) (p + len a) b.
Proof.
  revert m p. induction a as [|x a IH]; intros m p; cbn [app store_bytes].
  { unfold len. simpl. by rewrite Z.add_0_r. }
  rewrite IH, len_cons. f_equal. lia.
Qed.
Lemma holds_app m p a b : holds m p (a ++ b) ↔ holds m p a ∧ holds m (p + len a) b.
Proof.
  unfold holds, len. rewrite length_app, load_bytes_app. split; [|by intros [-> ->]].
  intros H. apply app_inj_1 in H; [done|]. apply length_load_bytes.
Qed.
Lemma holds_store m p l : holds (store_bytes m p l) p l.
Proof. apply load_store_bytes. Qed.
Lemma holds_ext m m' p l :
  (∀ q, p ≤ q < p + len l → load m' q = load m q) → holds m p l → holds m' p l.
Proof.
  unfold holds. intros Hq <-. rewrite length_load_bytes. unfold len in Hq. revert p Hq.
  induction (length l) as [|n IH]; intros p Hq; cbn [load_bytes]; [done|].
  rewrite Hq by lia. f_equal. apply IH. intros q Hr. apply Hq. lia.
Qed.
Lemma holds_read m p n v :
  GuestMem.size m < M64 → p + Z.of_nat n ≤ GuestMem.size m → holds m p (le_bytes n v) →
  read n m p = Some (v mod 256 ^ Z.of_nat n).
Proof.
  intros Hs Hp Hh. rewrite read_ok by done. unfold holds in Hh. rewrite length_le_bytes in Hh.
  by rewrite Hh, le_val_bytes_mod.
Qed.

Section stores.
Context {B : Build} {E : Type}.

(** Writes one after the other add up to one store. *)
Lemma put_app n m p l off v :
  GuestMem.size m < M64 → off = len l → p + off < M32 → p + off + Z.of_nat n ≤ GuestMem.size m →
  put (E:=E) n (store_bytes m p l) p off v = Ok (store_bytes m p (l ++ le_bytes n v)).
Proof.
  intros Hs -> Hp Hn. unfold put. rewrite uadd_ok by done. out_simpl. unfold poke.
  rewrite write_ok by (rewrite store_bytes_size; done). simpl. by rewrite store_bytes_app.
Qed.
Lemma put_bytes_app m p l off d :
  GuestMem.size m < M64 → off = len l → p + off < M32 → p + off + len d ≤ GuestMem.size m →
  put_bytes (E:=E) (store_bytes m p l) p off d = Ok (store_bytes m p (l ++ d)).
Proof.
  intros Hs -> Hp Hn. unfold put_bytes. rewrite uadd_ok by done. out_simpl. unfold write_bytes.
  rewrite (proj2 (ptr_at_Some (store_bytes m p l) (p + len l) (len d) (p + len l)
                    ltac:(by rewrite store_bytes_size))) by (by rewrite store_bytes_size).
  simpl. by rewrite store_bytes_app.
Qed.
Lemma put_0 n m p v :
  GuestMem.size m < M64 → p < M32 → p + Z.of_nat n ≤ GuestMem.size m →
  put (E:=E) n m p 0 v = Ok (store_bytes m p (le_bytes n v)).
Proof. intros. change m with (store_bytes m p []) at 1. rewrite put_app by (done || lia). done. Qed.

Lemma align4_ok n : 0 ≤ n → n + 3 < M32 →
  align4 (E:=E) n = Ok ((n + 3) / 4 * 4).
Proof.
  intros H0 Hn. unfold align4. rewrite uadd_ok by done. out_simpl.
  rewrite land_lnot_ones by lia. f_equal. change (2 ^ 2) with 4. pose proof (Z.div_mod (n + 3) 4). lia.
Qed.
End stores.

(** * Linked lists of records

    A record starts with the distance to the next one (0 in the last) and starts at a multiple
    of four from the first. *)

Definition up4 (n : Z) : Z := (n + 3) / 4 * 4.
(** The records whose bodies (what follows the link) are [bodies], from [p] on. *)
Fixpoint chain (m : GuestMemory) (p : Z) (bodies : list bytes) : Prop :=
  match bodies with
  | [] => True
  | b :: rest =>
    holds m p (le32 (match rest with [] => 0 | _ => up4 (4 + len b) end) ++ b) ∧
    chain m (p + up4 (4 + len b)) rest
  end.
(** The room they take, the last one without its padding. *)
Fixpoint chain_size (bodies : list bytes) : Z :=
  match bodies with
  | [] => 0
  | [b] => 4 + len b
  | b :: rest => up4 (4 + len b) + chain_size rest
  end.

Lemma up4_bounds n : n ≤ up4 n ≤ n + 3.
Proof. unfold up4. pose proof (Z.div_mod (n + 3) 4). pose proof (Z.mod_pos_bound (n + 3) 4). lia. Qed.
Lemma chain_size_cons b rest :
  chain_size (b :: rest) = match rest with [] => 4 + len b | _ => up4 (4 + len b) + chain_size rest end.
Proof. by destruct rest. Qed.
Lemma chain_size_nonneg bs : 0 ≤ chain_size bs.
Proof.
  induction bs as [|b bs IH]; [done|]. rewrite chain_size_cons.
  pose proof (len_nonneg b). pose proof (up4_bounds (4 + len b)). destruct bs; lia.
Qed.
Lemma records_ext m m' p bs :
  (∀ q, p ≤ q < p + chain_size bs → load m' q = load m q) → chain m p bs → chain m' p bs.
Proof.
  revert p. induction bs as [|b bs IH]; intros p Hq; cbn [chain]; [done|].
  rewrite chain_size_cons in Hq. pose proof (up4_bounds (4 + len b)). pose proof (len_nonneg b).
  pose proof (chain_size_nonneg bs). intros [Hh Hc]. split.
  - eapply holds_ext; [|exact Hh]. intros q Hr. apply Hq.
    rewrite len_app in Hr. change (len (le32 _)) with 4 in Hr. destruct bs; lia.
  - apply IH; [|done]. intros q Hr. apply Hq. destruct bs; [cbn [chain_size] in Hr|]; lia.
Qed.

Section chains.
Context {B : Build} {E : Type}.

(** What a loop that writes a chain does from a point on, [prev] being the record before. *)
Record written (m : GuestMemory) (p : Z) (prev : option Z) (bodies : list bytes)
    (m' : GuestMemory) : Prop := {
  wr_size : GuestMem.size m' = GuestMem.size m;
  wr_chain : chain m' p bodies;
  wr_prev : ∀ pp, prev = Some pp → bodies ≠ [] → holds m' pp (le32 (p - pp));
  wr_rest : ∀ q, ¬ (p ≤ q < p + chain_size bodies) →
    (∀ pp, prev = Some pp → bodies ≠ [] → ¬ (pp ≤ q < pp + 4)) → load m' q = load m q;
}.

Lemma written_nil m p prev : written m p prev [] m.
Proof. by split. Qed.

(** The link is set after the record is written. *)
Lemma link_ok m p prev :
  GuestMem.size m < M64 → (∀ pp, prev = Some pp → pp ≤ p ∧ 0 ≤ pp < M32 ∧ pp + 4 ≤ GuestMem.size m) →
  ∃ m', link (E:=E) m prev p = Ok m' ∧ GuestMem.size m' = GuestMem.size m ∧
    (∀ pp, prev = Some pp → holds m' pp (le32 (p - pp))) ∧
    (∀ q, (∀ pp, prev = Some pp → ¬ (pp ≤ q < pp + 4)) → load m' q = load m q).
Proof.
  intros Hs Hp. destruct prev as [pp|]; cbn [link]; [|by exists m].
  destruct (Hp pp eq_refl) as (? & ? & ?). rewrite usub_ok by lia. out_simpl.
  rewrite put_0 by (done || lia). eexists. split; [done|]. rewrite store_bytes_size.
  split_and!; [done| |].
  - intros ? [= <-]. apply holds_store.
  - intros q Hq. rewrite load_store, bool_decide_false; [done|].
    specialize (Hq pp eq_refl). change (len (le32 _)) with 4. lia.
Qed.

(** One more record in front: it is stored at [p] with a zero link, the one before is linked to
    it, and the rest is written behind it. *)
Lemma written_cons m p prev b bodies m1 m2 :
  (∀ pp, prev = Some pp → pp + 4 ≤ p) →
  GuestMem.size m1 = GuestMem.size m →
  (∀ pp, prev = Some pp → holds m1 pp (le32 (p - pp))) →
  (∀ q, (∀ pp, prev = Some pp → ¬ (pp ≤ q < pp + 4)) →
     load m1 q = load (store_bytes m p (le32 0 ++ b)) q) →
  written m1 (p + up4 (4 + len b)) (Some p) bodies m2 →
  written m p prev (b :: bodies) m2.
Proof.
  intros Hpp Hs1 Hl1 Hr1 [Hs2 Hc2 Hp2 Hr2].
  pose proof (up4_bounds (4 + len b)). pose proof (chain_size_nonneg bodies).
  pose proof (len_nonneg b).
  assert (Hbody : holds m1 p (le32 0 ++ b)).
  { eapply holds_ext; [|apply holds_store]. intros q Hq. apply Hr1. intros pp Hpp'.
    apply Hpp in Hpp'. lia. }
  split.
  - congruence.
  - cbn [chain]. split; [|done]. apply holds_app in Hbody as [Hz Hb].
    change (len (le32 _)) with 4 in Hb. apply holds_app. change (len (le32 _)) with 4. split.
    + destruct bodies as [|b' bodies].
      * eapply holds_ext; [|exact Hz]. change (len (le32 0)) with 4. intros q Hq. apply Hr2; [cbn [chain_size]; lia|].
        done.
      * replace (up4 (4 + len b)) with (p + up4 (4 + len b) - p) by lia. by apply Hp2.
    + eapply holds_ext; [|exact Hb]. intros q Hq. apply Hr2; [lia|]. intros ? [= <-] _. lia.
  - intros pp Hprev _. eapply holds_ext; [|by apply Hl1]. change (len (le32 _)) with 4.
    pose proof (Hpp pp Hprev). intros q Hq. apply Hr2; [lia|]. intros ? [= <-] _. lia.
  - intros q Hq Hq'. rewrite chain_size_cons in Hq.
    rewrite Hr2, Hr1, load_store, bool_decide_false; [done| | | |].
    + rewrite len_app. change (len (le32 _)) with 4. destruct bodies; lia.
    + intros pp Hprev. by apply Hq'.
    + destruct bodies; [cbn [chain_size]|]; lia.
    + intros ? [= <-] ?. destruct bodies; [done|]. lia.
Qed.
End chains.

(** * The records as bytes *)

Definition status_bytes (st : FileStatus) : bytes :=
  le16 (creation_date st) ++ le16 (creation_time st) ++ le16 (last_access_date st) ++
  le16 (last_access_time st) ++ le16 (last_write_date st) ++ le16 (last_write_time st) ++
  le32 (file_size st) ++ le32 (file_alloc st) ++ le32 (attributes st).
(** FILEFINDBUF3 after its link. *)
Definition findbuf_body (inc : bool) (st : FileStatus) (name : bytes) : bytes :=
  status_bytes st ++ (if inc then le32 4 else []) ++ le_bytes 1 (len name) ++ name ++ [0].
(** FEA2 after its link. *)
Definition fea2_body (flags : Z) (name value : bytes) : bytes :=
  le_bytes 1 flags ++ le_bytes 1 (len name) ++ le16 (len value) ++ name ++ [0] ++ value.

Lemma len_nil {A} : len (@nil A) = 0.
Proof. done. Qed.
Create Rewrite HintDb len.
#[export] Hint Rewrite @len_app @len_cons @len_nil len_le_bytes : len.
Ltac len_simpl := autorewrite with len; cbn [Z.of_nat Pos.of_succ_nat Pos.succ].

Lemma len_status st : len (status_bytes st) = 24.
Proof. done. Qed.
Lemma len_findbuf_body inc st name :
  len (findbuf_body inc st name) = 24 + (if inc then 4 else 0) + 1 + len name + 1.
Proof. unfold findbuf_body. rewrite len_app, len_status. destruct inc; len_simpl; lia. Qed.
Lemma len_fea2_body flags name value :
  len (fea2_body flags name value) = 4 + len name + 1 + len value.
Proof. unfold fea2_body. len_simpl. lia. Qed.
#[export] Hint Rewrite len_status len_findbuf_body len_fea2_body : len.

Section writers.
Context {B : Build} {E : Type} (enc_encode : Encoding → rstring → bytes).

(** One step of a chain of writes. *)
Ltac put_step :=
  first [rewrite put_app by (done || len_simpl; lia) | rewrite put_bytes_app by (done || len_simpl; lia)];
  out_simpl.

Lemma write_status_ok m st p :
  GuestMem.size m < M64 → p + 24 ≤ GuestMem.size m → p + 24 ≤ M32 →
  write_filestatus3_from_vfs (E:=E) m st p = Ok (store_bytes m p (status_bytes st)).
Proof.
  intros Hs Hp H32. unfold write_filestatus3_from_vfs. rewrite put_0 by (done || lia). out_simpl.
  repeat put_step. unfold status_bytes. by rewrite <- !(assoc_L (++)).
Qed.
Lemma write_status_app m st p l q :
  q = p + len l → GuestMem.size m < M64 → q + 24 ≤ GuestMem.size m → q + 24 ≤ M32 →
  write_filestatus3_from_vfs (E:=E) (store_bytes m p l) st q =
  Ok (store_bytes m p (l ++ status_bytes st)).
Proof.
  intros -> Hs Hp H32. rewrite write_status_ok by (by rewrite ?store_bytes_size).
  by rewrite store_bytes_app.
Qed.

(** The name an entry is written with: 255 bytes at most. *)
Definition written_name (cp : Z) (e : DirEntry) : bytes :=
  take (Z.to_nat (Z.min (len (cp_encode enc_encode (name e) cp)) 255)) (cp_encode enc_encode (name e) cp).
Lemma len_written_name cp e :
  len (written_name cp e) = Z.min (len (cp_encode enc_encode (name e) cp)) 255.
Proof. unfold written_name, len. rewrite length_take. lia. Qed.
Definition entry_body (cp : Z) (inc : bool) (e : DirEntry) : bytes :=
  findbuf_body inc (status e) (written_name cp e).

Lemma write_findbuf_entry_ok cp m e p inc :
  GuestMem.size m < M64 → p + 4 + len (entry_body cp inc e) ≤ GuestMem.size m →
  p + 4 + len (entry_body cp inc e) ≤ M32 →
  write_findbuf_entry (E:=E) enc_encode cp m e p inc =
  Ok (store_bytes m p (le32 0 ++ entry_body cp inc e)).
Proof.
  intros Hs. unfold write_findbuf_entry, entry_body. rewrite len_findbuf_body, <- len_written_name.
  fold (written_name cp e).
  intros Hp H32. pose proof (len_nonneg (written_name cp e)).
  assert (take (Z.to_nat (len (written_name cp e))) (cp_encode enc_encode (name e) cp) =
          written_name cp e) as -> by (by rewrite len_written_name).
  rewrite put_0 by (done || destruct inc; lia). out_simpl.
  rewrite uadd_ok by (destruct inc; lia). out_simpl.
  rewrite write_status_app by (done || destruct inc; lia). out_simpl.
  unfold findbuf_body. destruct inc; out_simpl; repeat put_step; by rewrite <- ?(assoc_L (++)).
Qed.
End writers.

(** * The search buffer *)

Section findbuf.
Context {B : Build} {E : Type} (enc_encode : Encoding → rstring → bytes).
Context (cp : Z) (inc : bool).
Abbreviation body := (entry_body enc_encode cp inc) (only parsing).

(** The entries that fit into a buffer of [buf_len] bytes from [off] on. *)
Fixpoint fitting (buf_len off : Z) (entries : list DirEntry) : list DirEntry :=
  match entries with
  | [] => []
  | e :: rest =>
    if off + (4 + len (body e)) <=? buf_len
    then e :: fitting buf_len (off + up4 (4 + len (body e))) rest
    else []
  end.

Lemma entry_size e :
  4 + 24 + (if inc then 4 else 0) + 1 + Z.min (len (cp_encode enc_encode (name e) cp)) 255 + 1 =
  4 + len (body e).
Proof. unfold entry_body. rewrite len_findbuf_body, len_written_name. lia. Qed.
Lemma body_bounds e : 25 < len (body e) ≤ 285.
Proof.
  unfold entry_body. rewrite len_findbuf_body. pose proof (len_nonneg (written_name enc_encode cp e)).
  rewrite len_written_name in *. destruct inc; lia.
Qed.
Lemma fitting_room buf_len off entries : 0 ≤ buf_len →
  off + chain_size (map body (fitting buf_len off entries)) ≤ Z.max off buf_len.
Proof.
  intros Hb. revert off. induction entries as [|e rest IH]; intros off; cbn [fitting map].
  { cbn [chain_size]. lia. }
  destruct (Z.leb_spec (off + (4 + len (body e))) buf_len); cbn [map]; [|cbn [chain_size]; lia].
  rewrite chain_size_cons. specialize (IH (off + up4 (4 + len (body e)))).
  destruct rest as [|e2 rest]; cbn [fitting map] in *; [lia|].
  destruct (_ <=? buf_len) eqn:He2; cbn [map] in *; [|lia].
  pose proof (body_bounds e2). lia.
Qed.

Lemma findbuf_loop_ok entries m buf_ptr buf_len off count prev :
  GuestMem.size m + 512 ≤ M32 → 0 ≤ buf_ptr → buf_ptr + buf_len ≤ GuestMem.size m →
  0 ≤ off ≤ buf_len + 3 → 0 ≤ count → count + len entries < M32 →
  (∀ pp, prev = Some pp → 0 ≤ pp ∧ pp + 4 ≤ buf_ptr + off) →
  ∃ m', findbuf_loop (E:=E) enc_encode cp m entries buf_ptr buf_len inc off count prev =
        Ok (count + len (fitting buf_len off entries), m') ∧
    written m (buf_ptr + off) prev (map body (fitting buf_len off entries)) m'.
Proof.
  revert m off count prev. induction entries as [|e rest IH];
    intros m off count prev Hs Hp Hb Ho Hc Hn Hprev; cbn [findbuf_loop fitting].
  { exists m. rewrite len_nil, Z.add_0_r. split; [done|apply written_nil]. }
  pose proof (body_bounds e) as Hbb. rewrite entry_size. rewrite len_cons in Hn.
  pose proof (up4_bounds (4 + len (body e))). pose proof (len_nonneg rest).
  rewrite align4_ok by lia. fold (up4 (4 + len (body e))). arith_ok.
  destruct (Z.ltb_spec buf_len (off + (4 + len (body e)))); zbool.
  { exists m. rewrite len_nil, Z.add_0_r. split; [done|apply written_nil]. }
  rewrite write_findbuf_entry_ok by lia. out_simpl.
  set (m1 := store_bytes _ _ _).
  destruct (link_ok (E:=E) m1 (buf_ptr + off) prev) as (m2 & -> & Hs2 & Hl2 & Hr2).
  { subst m1. rewrite store_bytes_size. lia. }
  { subst m1. rewrite store_bytes_size. intros pp Hpp. apply Hprev in Hpp. lia. }
  out_simpl. subst m1. rewrite store_bytes_size in Hs2.
  destruct (IH m2 (off + up4 (4 + len (body e))) (count + 1) (Some (buf_ptr + off)))
    as (m' & -> & Hw); try lia.
  { intros ? [= <-]. lia. }
  exists m'. rewrite len_cons. split; [do 2 f_equal; lia|]. cbn [map].
  eapply written_cons; try done.
  - intros pp Hpp. apply Hprev in Hpp. lia.
  - by rewrite Z.add_assoc in Hw.
Qed.

(** ** The guest's view *)

Definition status_at (m : GuestMemory) (p : Z) : FileStatus :=
  let g n o := default 0 (read n m (p + o)) in
  mk_status (g 2%nat 0) (g 2%nat 2) (g 2%nat 4) (g 2%nat 6) (g 2%nat 8) (g 2%nat 10)
            (g 4%nat 12) (g 4%nat 16) (g 4%nat 20).
(** A client follows the links until one is 0. *)
Fixpoint walk (n : nat) (m : GuestMemory) (p : Z) : list (FileStatus * bytes) :=
  match n with
  | O => []
  | S n =>
    let next := default 0 (read32 m p) in
    let name_at := 28 + if inc then 4 else 0 in
    let name_len := default 0 (read8 m (p + name_at)) in
    (status_at m (p + 4), load_bytes m (p + name_at + 1) (Z.to_nat name_len)) ::
    if next =? 0 then [] else walk n m (p + next)
  end.

Record status_wf (st : FileStatus) : Prop := {
  swf_cd : u16 (creation_date st); swf_ct : u16 (creation_time st);
  swf_ad : u16 (last_access_date st); swf_at : u16 (last_access_time st);
  swf_wd : u16 (last_write_date st); swf_wt : u16 (last_write_time st);
  swf_size : u32 (file_size st); swf_alloc : u32 (file_alloc st); swf_attr : u32 (attributes st);
}.

Lemma status_at_ok m p st :
  status_wf st → GuestMem.size m < M64 → p + 24 ≤ GuestMem.size m →
  holds m p (status_bytes st) → status_at m p = st.
Proof.
  intros [] Hs Hp. unfold status_bytes. rewrite !holds_app. rewrite !len_le_bytes, <- !Z.add_assoc.
  intros (H0 & H2 & H4 & H6 & H8 & H10 & H12 & H16 & H20). unfold status_at. rewrite Z.add_0_r.
  unfold u16, u32 in *.
  repeat match goal with
  | H : holds m _ (le_bytes ?n ?v) |- context [read ?n m ?q] =>
    rewrite (holds_read m q n v) by first [exact H | done | lia]; clear H
  end.
  cbn [default]. change (256 ^ Z.of_nat 2) with M16. change (256 ^ Z.of_nat 4) with M32.
  rewrite !Z.mod_small by done. by destruct st.
Qed.
End findbuf.

Definition found_body (inc : bool) (x : FileStatus * bytes) : bytes := findbuf_body inc x.1 x.2.
Lemma walk_chain inc m l p :
  GuestMem.size m < M64 → l ≠ [] → Forall (λ x, status_wf x.1 ∧ len x.2 ≤ 255) l →
  chain m p (map (found_body inc) l) →
  p + chain_size (map (found_body inc) l) ≤ GuestMem.size m →
  ∀ n, (length l ≤ n)%nat → walk inc n m p = l.
Proof.
  intros Hs. revert p. induction l as [|[st nm] l IH]; intros p Hne Hwf; [done|]. clear Hne.
  apply Forall_cons in Hwf as [[Hst Hnm] Hwf]. intros Hchain Hroom [|n] Hn; [cbn in Hn; lia|].
  apply le_S_n in Hn. revert Hchain Hroom. cbn [map length walk].
  rewrite chain_size_cons. cbn [chain fst snd] in *.
  set (rest := map (found_body inc) l) in *. set (b := found_body inc (st, nm)).
  pose proof (up4_bounds (4 + len b)). pose proof (chain_size_nonneg rest).
  assert (len b = 24 + (if inc then 4 else 0) + 1 + len nm + 1) as Hb by apply len_findbuf_body.
  pose proof (len_nonneg nm). intros [Hh Hc] Hroom.
  apply holds_app in Hh as [Hnext Hbody]. rewrite len_le_bytes in Hbody.
  assert (Hfit : p + (4 + len b) ≤ GuestMem.size m) by (destruct rest; lia).
  unfold b, found_body, findbuf_body in Hbody. cbn [fst snd] in Hbody. rewrite !holds_app, len_status in Hbody.
  destruct Hbody as (Hstat & _ & Hlen & Hname & _).
  rewrite (holds_read m p 4 _) by first [exact Hnext | done | destruct inc; lia]. cbn [default id].
  rewrite status_at_ok with (st := st) by first [exact Hstat | done | destruct inc; lia].
  set (at_ := 28 + (if inc then 4 else 0)).
  rewrite (holds_read m (p + at_) 1 (len nm)); [|done|subst at_; destruct inc; lia|]; cycle 1.
  { replace (p + at_) with (p + Z.of_nat 4 + 24 + len (if inc then le32 4 else [])); [done|].
    subst at_. destruct inc; len_simpl; lia. }
  cbn [default id]. change (256 ^ Z.of_nat 1) with 256. rewrite (Z.mod_small (len nm)) by lia.
  assert (load_bytes m (p + at_ + 1) (Z.to_nat (len nm)) = nm) as ->.
  { unfold holds in Hname. rewrite <- Hname at 2. unfold len at 1. rewrite Nat2Z.id. f_equal.
    rewrite len_le_bytes. subst at_. destruct inc; len_simpl; lia. }
  f_equal. destruct l as [|x l].
  - subst rest. cbn [map]. by rewrite Z.mod_0_l by done.
  - subst rest. cbn [map]. rewrite (Z.mod_small (up4 _)) by (destruct inc; lia).
    destruct (Z.eqb_spec (up4 (4 + len b)) 0); [destruct inc; lia|].
    apply IH; try done; cbn [map] in *; lia.
Qed.

(** C11: a search buffer says what was found.  When the buffer lies in guest memory, the entries
    written are the longest prefix that fits; a guest that follows the links from the start of
    the buffer until one is 0, however far it is ready to go, reads exactly these entries, each
    with its status and its name (255 bytes of it at most), and no other: the link of the last
    one, and of no other, is 0; the count at [pc_found_ptr] is theirs; the result is 0, or 111
    when not even the first entry fits; and no byte outside the buffer and the count changes.
    [inc] selects the level-2 layout. *)
Theorem filefindbuf_roundtrip {B : Build} {E} (enc_encode : Encoding → rstring → bytes) cp inc
    (m : GuestMemory) entries buf_ptr buf_len pc :
  GuestMem.size m + 512 ≤ M32 → 0 ≤ buf_ptr → 0 ≤ buf_len → buf_ptr + buf_len ≤ GuestMem.size m →
  0 ≤ pc → pc + 4 ≤ GuestMem.size m → pc = 0 ∨ pc + 4 ≤ buf_ptr ∨ buf_ptr + buf_len ≤ pc →
  len entries < M32 → Forall (λ e, status_wf (status e)) entries →
  let found := fitting enc_encode cp inc buf_len 0 entries in
  ∃ m', write_filefindbuf3_multi (E:=E) enc_encode cp m entries buf_ptr buf_len pc inc =
        Ok (if bool_decide (found = []) then 111 else 0, m') ∧
    found `prefix_of` entries ∧
    (found ≠ [] → ∀ n, (length found ≤ n)%nat → walk inc n m' buf_ptr =
                  map (λ e, (status e, written_name enc_encode cp e)) found) ∧
    (pc ≠ 0 → read32 m' pc = Some (len found)) ∧
    ∀ q, ¬ (buf_ptr ≤ q < buf_ptr + buf_len) → ¬ (pc ≠ 0 ∧ pc ≤ q < pc + 4) → load m' q = load m q.
Proof.
  intros Hs Hp Hl Hb Hpc0 Hpc Hdis Hn Hwf found. unfold write_filefindbuf3_multi.
  destruct (findbuf_loop_ok (E:=E) enc_encode cp inc entries m buf_ptr buf_len 0 0 None)
    as (m1 & -> & [Hs1 Hc1 _ Hr1]); try lia; [done|].
  rewrite !Z.add_0_l, Z.add_0_r in *. out_simpl. fold found in Hc1, Hr1 |- *.
  pose proof (fitting_room enc_encode cp inc buf_len 0 entries Hl) as Hroom. fold found in Hroom.
  assert (Hpre : found `prefix_of` entries).
  { subst found. generalize 0 as o. clear. induction entries as [|e es IH]; intros o; [done|].
    cbn [fitting]. case_match; [|apply prefix_nil]. apply prefix_cons, IH. }
  pose proof (len_nonneg found) as Hf0.
  assert (Hfn : len found < M32).
  { apply prefix_length in Hpre. unfold len in *. lia. }
  assert (Hfwf : Forall (λ e, status_wf (status e)) found).
  { destruct Hpre as [k Hk]. rewrite Hk in Hwf. by apply Forall_app in Hwf as []. }
  clearbody found.
  assert (∃ m', (if pc =? 0 then Ok m1 else put (E:=E) 4 m1 pc 0 (len found)) = Ok m' ∧
     GuestMem.size m' = GuestMem.size m ∧
     (pc ≠ 0 → read32 m' pc = Some (len found)) ∧
     ∀ q, ¬ (pc ≠ 0 ∧ pc ≤ q < pc + 4) → load m' q = load m1 q) as (m' & -> & Hs' & Hcount & Hrest).
  { destruct (Z.eqb_spec pc 0); [by exists m1; split_and!|]. rewrite put_0 by lia. eexists.
    split; [done|]. rewrite store_bytes_size. split; [done|]. split.
    - intros _. rewrite (holds_read _ pc 4 (len found)); [|by rewrite store_bytes_size; lia
        |rewrite store_bytes_size; lia|apply holds_store]. by rewrite Z.mod_small.
    - intros q Hq. rewrite load_store, bool_decide_false; [done|]. rewrite len_le_bytes. lia. }
  out_simpl. exists m'. split_and!; [|done| |done|].
  - do 2 f_equal. destruct found; [done|]. rewrite len_cons. pose proof (len_nonneg found). zbool.
    by rewrite bool_decide_false.
  - intros Hne n. rewrite <- (length_map (λ e, (status e, written_name enc_encode cp e)) found).
    assert (Hmap : map (found_body inc)
              (map (λ e, (status e, written_name enc_encode cp e)) found) =
            map (entry_body enc_encode cp inc) found) by (rewrite map_map; by apply map_ext).
    apply walk_chain.
    + lia.
    + by destruct found.
    + apply Forall_map. eapply Forall_impl; [exact Hfwf|]. cbn.
      intros e He. split; [done|]. rewrite len_written_name. lia.
    + rewrite Hmap. eapply records_ext; [|exact Hc1]. intros q Hq. apply Hrest. lia.
    + rewrite Hmap, Hs'. lia.
  - intros q Hq Hqc. rewrite Hrest by done. apply Hr1; [lia|done].
Qed.

Definition demo_entries : list DirEntry :=
  [mk_entry (str "A.TXT") (mk_status 0x21 0 0x21 0 0x21 0 5 512 0x20);
   mk_entry (str "LONGER.NAME") (mk_status 0x5A21 1 2 3 4 5 6 7 0x10);
   mk_entry (str "LAST") (mk_status 0x21 0 0x21 0 0x21 0 5 512 0x20)].
(** Two of three entries fit into 80 bytes. *)
Lemma filefindbuf_roundtrip_witness :
  ∃ m', write_filefindbuf3_multi (B := dev_profile) (E := ()) (λ _ s, s) 437 (alloc 0x1000) demo_entries
          0x100 80 0x200 false = Ok (0, m') ∧
    walk false 100 m' 0x100 = [(mk_status 0x21 0 0x21 0 0x21 0 5 512 0x20, str "A.TXT");
                             (mk_status 0x5A21 1 2 3 4 5 6 7 0x10, str "LONGER.NAME")] ∧
    read32 m' 0x200 = Some 2.
Proof.
  pose proof (filefindbuf_roundtrip (B := dev_profile) (E := ()) (λ _ s, s) 437 false (alloc 0x1000)
                demo_entries 0x100 80 0x200) as H.
  destruct H as (m' & Hw & _ & Hwalk & Hcount & _); try (cbn [GuestMem.size alloc]; lia); [done| |].
  { repeat (apply List.Forall_cons; [by split; vm_compute|]). apply List.Forall_nil. }
  exists m'. split; [exact Hw|]. split; [apply (Hwalk ltac:(done) 100%nat); vm_compute; lia|by apply Hcount].
Defined.

(** * The extended-attribute list *)

Section fea.
Context {B : Build} {E : Type} (enc_encode : Encoding → rstring → bytes) (cp : Z).

Definition encoded_name (ea : EaEntry) : bytes := cp_encode enc_encode (ea_name ea) cp.
Definition ea_body (ea : EaEntry) : bytes := fea2_body (ea_flags ea) (encoded_name ea) (ea_value ea).
(** The lengths that fit their fields, and a flags byte. *)
Record ea_fits (ea : EaEntry) : Prop := {
  fit_name : len (encoded_name ea) < 256;
  fit_value : len (ea_value ea) < M16;
  fit_flags : u8 (ea_flags ea);
}.

Lemma len_ea_body ea : 4 + len (ea_body ea) = fea2_size (encoded_name ea) ea.
Proof. unfold ea_body, fea2_size. rewrite len_fea2_body. lia. Qed.

Lemma write_fea2_ok m ea p :
  GuestMem.size m < M64 → p + 4 + len (ea_body ea) ≤ GuestMem.size m →
  p + 4 + len (ea_body ea) < M32 →
  write_fea2 (E:=E) enc_encode cp m ea p = Ok (store_bytes m p (le32 0 ++ ea_body ea)).
Proof.
  intros Hs. unfold write_fea2. fold (encoded_name ea). unfold ea_body. rewrite len_fea2_body.
  set (n := encoded_name ea). intros Hp H32.
  pose proof (len_nonneg n). pose proof (len_nonneg (ea_value ea)).
  rewrite put_0 by (done || lia). out_simpl.
  do 5 (first [rewrite put_app by (done || len_simpl; lia)
              |rewrite put_bytes_app by (done || len_simpl; lia)]; out_simpl).
  unfold fea2_body. case_bool_decide as Hv.
  - rewrite Hv, app_nil_r. by rewrite <- !(assoc_L (++)).
  - rewrite put_bytes_app by (done || len_simpl; lia). by rewrite <- !(assoc_L (++)).
Qed.

(** The room the loop needs, with the padding of the last record. *)
Fixpoint fea_room (eas : list EaEntry) : Z :=
  match eas with [] => 0 | ea :: eas => up4 (4 + len (ea_body ea)) + fea_room eas end.
Lemma fea_room_chain eas : chain_size (map ea_body eas) ≤ fea_room eas.
Proof.
  induction eas as [|ea eas IH]; [done|]. cbn [map fea_room]. rewrite chain_size_cons.
  pose proof (up4_bounds (4 + len (ea_body ea))). destruct eas; cbn [map fea_room] in *; lia.
Qed.
Lemma fea_room_nonneg eas : 0 ≤ fea_room eas.
Proof. pose proof (fea_room_chain eas). pose proof (chain_size_nonneg (map ea_body eas)). lia. Qed.

Lemma fea_loop_ok eas m p pos prev :
  GuestMem.size m + 512 ≤ M32 → 0 ≤ p → 0 ≤ pos → p + pos + fea_room eas ≤ GuestMem.size m →
  (∀ pp, prev = Some pp → 0 ≤ pp ∧ pp + 4 ≤ p + pos) →
  ∃ m', fea_loop (E:=E) enc_encode cp m eas p pos prev = Ok (pos + fea_room eas, m') ∧
    written m (p + pos) prev (map ea_body eas) m'.
Proof.
  revert m pos prev. induction eas as [|ea eas IH]; intros m pos prev Hs Hp Hpos Hroom Hprev;
    cbn [fea_loop fea_room map] in *.
  { exists m. rewrite Z.add_0_r. split; [done|apply written_nil]. }
  fold (encoded_name ea). rewrite <- len_ea_body. set (b := ea_body ea) in *.
  pose proof (up4_bounds (4 + len b)). pose proof (fea_room_nonneg eas). pose proof (len_nonneg b).
  rewrite align4_ok by lia. fold (up4 (4 + len b)). arith_ok.
  rewrite write_fea2_ok by (subst b; lia). out_simpl. fold b.
  destruct (link_ok (E:=E) (store_bytes m (p + pos) (le32 0 ++ b)) (p + pos) prev)
    as (m2 & -> & Hs2 & Hl2 & Hr2).
  { rewrite store_bytes_size. lia. }
  { rewrite store_bytes_size. intros pp Hpp. apply Hprev in Hpp. lia. }
  out_simpl. rewrite store_bytes_size in Hs2.
  destruct (IH m2 (pos + up4 (4 + len b)) (Some (p + pos))) as (m' & -> & Hw); try lia.
  { intros ? [= <-]. lia. }
  exists m'. split; [do 2 f_equal; lia|]. eapply written_cons; try done.
  - intros pp Hpp. apply Hprev in Hpp. lia.
  - by rewrite Z.add_assoc in Hw.
Qed.

(** ** The guest's view *)

Fixpoint walk_fea (n : nat) (m : GuestMemory) (p : Z) : list (Z * bytes * bytes) :=
  match n with
  | O => []
  | S n =>
    let next := default 0 (read32 m p) in
    let flags := default 0 (read8 m (p + 4)) in
    let name_len := default 0 (read8 m (p + 5)) in
    let value_len := default 0 (read16 m (p + 6)) in
    (flags, load_bytes m (p + 8) (Z.to_nat name_len),
     load_bytes m (p + 8 + name_len + 1) (Z.to_nat value_len)) ::
    if next =? 0 then [] else walk_fea n m (p + next)
  end.

Lemma holds_load m p l : holds m p l → load_bytes m p (Z.to_nat (len l)) = l.
Proof. intros H. unfold len. by rewrite Nat2Z.id. Qed.

Lemma walk_fea_chain m eas p :
  GuestMem.size m < M32 → 0 ≤ p → eas ≠ [] → Forall ea_fits eas → chain m p (map ea_body eas) →
  p + chain_size (map ea_body eas) ≤ GuestMem.size m →
  ∀ n, (length eas ≤ n)%nat →
  walk_fea n m p = map (λ ea, (ea_flags ea, encoded_name ea, ea_value ea)) eas.
Proof.
  intros Hs. revert p. induction eas as [|ea eas IH]; intros p Hp0 Hne Hfit; [done|]. clear Hne.
  apply Forall_cons in Hfit as [[Hn Hv Hf] Hfit]. intros Hchain Hroom [|n] Hlen; [cbn in Hlen; lia|].
  apply le_S_n in Hlen. revert Hchain Hroom. cbn [map length walk_fea].
  rewrite chain_size_cons. cbn [chain].
  set (rest := map ea_body eas) in *. set (b := ea_body ea).
  pose proof (up4_bounds (4 + len b)). pose proof (chain_size_nonneg rest).
  pose proof (len_nonneg (encoded_name ea)). pose proof (len_nonneg (ea_value ea)).
  assert (len b = 4 + len (encoded_name ea) + 1 + len (ea_value ea)) as Hb by apply len_fea2_body.
  intros [Hh Hc] Hroom. apply holds_app in Hh as [Hnext Hbody]. rewrite len_le_bytes in Hbody.
  assert (Hend : p + (4 + len b) ≤ GuestMem.size m) by (destruct rest; lia).
  unfold b, ea_body, fea2_body in Hbody. rewrite !holds_app in Hbody.
  destruct Hbody as (Hflags & Hnlen & Hvlen & Hname & _ & Hvalue).
  rewrite !len_le_bytes in *. unfold u8 in Hf.
  rewrite (holds_read m p 4 _) by first [exact Hnext | lia].
  rewrite (holds_read m (p + 4) 1 (ea_flags ea)) by first [exact Hflags | lia].
  rewrite (holds_read m (p + 5) 1 (len (encoded_name ea))); [|lia..|]; cycle 1.
  { replace (p + 5) with (p + Z.of_nat 4 + Z.of_nat 1) by lia. exact Hnlen. }
  rewrite (holds_read m (p + 6) 2 (len (ea_value ea))); [|lia..|]; cycle 1.
  { replace (p + 6) with (p + Z.of_nat 4 + Z.of_nat 1 + Z.of_nat 1) by lia. exact Hvlen. }
  cbn [default id]. change (256 ^ Z.of_nat 1) with 256. change (256 ^ Z.of_nat 2) with M16.
  rewrite (Z.mod_small (ea_flags ea)), (Z.mod_small (len (encoded_name ea))),
    (Z.mod_small (len (ea_value ea))) by lia.
  replace (p + Z.of_nat 4 + Z.of_nat 1 + Z.of_nat 1 + Z.of_nat 2) with (p + 8) in * by lia.
  rewrite (holds_load _ _ _ Hname), (holds_load _ (p + 8 + len (encoded_name ea) + 1)) by exact Hvalue.
  f_equal. destruct eas as [|x l].
  - subst rest. cbn [map]. by rewrite Z.mod_0_l by done.
  - subst rest. cbn [map] in *. change (256 ^ Z.of_nat 4) with M32.
    rewrite (Z.mod_small (up4 _)) by lia.
    destruct (Z.eqb_spec (up4 (4 + len b)) 0); [lia|].
    apply IH; try done; lia.
Qed.
End fea.

(** An attribute list reads back as the attributes it was made from: when it fits into guest
    memory, the guest that follows the links from its first record finds every attribute with
    its flags, its name in the active codepage and its value, and the length at the start is
    that of the list.  (The room the guest has provided is not known to the writer.) *)
Lemma fea_list_roundtrip {B : Build} {E} (enc_encode : Encoding → rstring → bytes) cp
    (m : GuestMemory) eas p :
  GuestMem.size m + 512 ≤ M32 → 0 ≤ p → p + 4 + fea_room enc_encode cp eas ≤ GuestMem.size m →
  eas ≠ [] → Forall (ea_fits enc_encode cp) eas →
  ∃ m', write_fea2list (E:=E) enc_encode cp m eas p = Ok m' ∧
    read32 m' p = Some (4 + fea_room enc_encode cp eas) ∧
    (∀ n, (length eas ≤ n)%nat → walk_fea n m' (p + 4) =
      map (λ ea, (ea_flags ea, encoded_name enc_encode cp ea, ea_value ea)) eas) ∧
    ∀ q, ¬ (p ≤ q < p + 4 + fea_room enc_encode cp eas) → load m' q = load m q.
Proof.
  intros Hs Hp Hroom Hne Hfit. unfold write_fea2list.
  pose proof (fea_room_chain enc_encode cp eas) as Hcs. pose proof (fea_room_nonneg enc_encode cp eas).
  pose proof (chain_size_nonneg (map (ea_body enc_encode cp) eas)).
  destruct (fea_loop_ok (E:=E) enc_encode cp eas m p 4 None) as (m1 & -> & [Hs1 Hc1 _ Hr1]); try lia;
    [done|].
  out_simpl. rewrite put_0 by lia. eexists. split; [done|]. split_and!.
  - rewrite (holds_read _ p 4 (4 + fea_room enc_encode cp eas)); [|rewrite store_bytes_size; lia..
      |apply holds_store]. f_equal. apply Z.mod_small. change (256 ^ Z.of_nat 4) with M32. lia.
  - intros n. apply walk_fea_chain; try done; rewrite ?store_bytes_size; try lia.
    eapply records_ext; [|exact Hc1]. intros q Hq. rewrite load_store, bool_decide_false; [done|].
    rewrite len_le_bytes. lia.
  - intros q Hq. rewrite load_store, bool_decide_false by (rewrite len_le_bytes; lia).
    apply Hr1; [lia|done].
Qed.

(** * Reading the list of names *)

Lemma uadd_dev E m a b c : uadd (B := dev_profile) (E:=E) m a b = c →
  match c with Ok x => x = a + b | Panic => True | _ => False end.
Proof. intros <-. unfold uadd, overflowing. by destruct (_ <? _). Qed.
Lemma gea_name_ends m a n : gea_name (B := dev_profile) (E := ()) m a n ≠ Diverge.
Proof.
  unfold gea_name. generalize (range 0 n). intros l. induction l as [|i l IH]; [done|].
  cbn [mapM]. destruct (uadd M32 a i) as [p| | |] eqn:Hu; apply uadd_dev in Hu; try done; out_simpl.
  by destruct (mapM _ l).
Qed.

(** With overflow checks the walk over a GEA2LIST ends: each link moves forward. *)
Lemma gea_names_ends m p cb pos fuel :
  mem_wf m → Z.max 0 (cb - pos) < Z.of_nat fuel →
  gea_names (B := dev_profile) (E := ()) fuel m p cb pos ≠ Diverge.
Proof.
  intros Hm. revert pos. induction fuel as [|fuel IH]; intros pos Hf; [lia|].
  cbn [gea_names]. destruct (Z.ltb_spec pos cb); [|done].
  destruct (uadd M32 p pos) as [q| | |] eqn:Hu; apply uadd_dev in Hu; try done; out_simpl.
  destruct (uadd M32 q 4) as [q4| | |] eqn:Hu4; apply uadd_dev in Hu4; try done; out_simpl.
  destruct (_ =? _); [done|].
  destruct (uadd M32 q 5) as [q5| | |] eqn:Hu5; apply uadd_dev in Hu5; try done; out_simpl.
  pose proof (gea_name_ends m q5 (Z.min (default 0 (read8 m q4)) 260)) as Hg.
  destruct (gea_name _ _ _) as [nm| | |]; try done. out_simpl.
  destruct (Z.eqb_spec (default 0 (read32 m q)) 0) as [|Hnz]; [done|].
  destruct (uadd M32 pos _) as [pos'| | |] eqn:Hu'; apply uadd_dev in Hu'; try done; out_simpl.
  assert (0 ≤ default 0 (read32 m q)).
  { destruct (read32 m q) as [v|] eqn:Hr; cbn; [|lia]. apply read_range in Hr; [lia|done]. }
  specialize (IH pos' ltac:(lia)). by destruct (gea_names _ _ _ _ _).
Qed.

(** Without them it need not: two entries that point at each other keep DosQueryPathInfo busy for
    ever, and its list of names growing. *)
Definition cyclic_list : GuestMemory :=
  store_bytes (alloc 0x1000) 0x100
    (le32 100 ++ le32 8 ++ [1; 65; 0; 0] ++ le32 (M32 - 8) ++ [1; 66; 0; 0]).
Lemma gea_cycle fuel :
  gea_names (B := release_profile) (E := ()) fuel cyclic_list 0x100 100 4 = Diverge ∧
  gea_names (B := release_profile) (E := ()) fuel cyclic_list 0x100 100 12 = Diverge.
Proof.
  induction fuel as [|fuel [IH4 IH12]]; [done|].
  split; cbn [gea_names]; zbool; rewrite (uadd_ok M32 256) by lia; out_simpl.
  - rewrite (uadd_ok M32 (256 + 4) 4) by lia. out_simpl.
    replace (read8 cyclic_list (256 + 4 + 4)) with (Some 1) by (by vm_compute).
    replace (read32 cyclic_list (256 + 4)) with (Some 8) by (by vm_compute).
    cbn [default id Z.eqb]. rewrite (uadd_ok M32 (256 + 4) 5) by lia. out_simpl.
    replace (gea_name (B := release_profile) cyclic_list (256 + 4 + 5) (Z.min 1 260))
      with (Ok (E := ()) [65]) by (by vm_compute).
    out_simpl. rewrite uadd_ok by lia. out_simpl. change (4 + 8) with 12. by rewrite IH12.
  - rewrite (uadd_ok M32 (256 + 12) 4) by lia. out_simpl.
    replace (read8 cyclic_list (256 + 12 + 4)) with (Some 1) by (by vm_compute).
    replace (read32 cyclic_list (256 + 12)) with (Some (M32 - 8)) by (by vm_compute).
    cbn [default id Z.eqb]. rewrite (uadd_ok M32 (256 + 12) 5) by lia. out_simpl.
    replace (gea_name (B := release_profile) cyclic_list (256 + 12 + 5) (Z.min 1 260))
      with (Ok (E := ()) [66]) by (by vm_compute).
    out_simpl. change (M32 - 8 =? 0) with false. cbn match.
    replace (uadd (B := release_profile) M32 12 (M32 - 8)) with (Ok (E := ()) 4) by done.
    out_simpl. by rewrite IH4.
Qed.

(** * The writers have no errors *)

Section errless_puts.
Context {B : Build} {E : Type}.

Lemma errless_put n m a off v : errless (put (E:=E) n m a off v).
Proof. apply errless_bind; [apply errless_uadd|done]. Qed.
Lemma errless_put_bytes m a off l : errless (put_bytes (E:=E) m a off l).
Proof. apply errless_bind; [apply errless_uadd|done]. Qed.
Lemma errless_align n : errless (align4 (E:=E) n).
Proof. apply errless_bind; [apply errless_uadd|done]. Qed.
End errless_puts.
#[export] Hint Resolve errless_put errless_put_bytes errless_align : errless.

Section errless_writers.
Context {B : Build} {E : Type} (enc_encode : Encoding → rstring → bytes).

Lemma errless_status m st p : errless (E:=E) (write_filestatus3_from_vfs m st p).
Proof. unfold write_filestatus3_from_vfs. errless. Qed.
Lemma errless_internal m n d p : errless (E:=E) (write_filestatus3_internal m n d p).
Proof. unfold write_filestatus3_internal. errless. Qed.
Lemma errless_link m prev p : errless (E:=E) (link m prev p).
Proof. unfold link. errless. Qed.
Lemma errless_fea2 cp m ea p : errless (E:=E) (write_fea2 enc_encode cp m ea p).
Proof. unfold write_fea2. errless. Qed.
Hint Resolve errless_link errless_fea2 : errless.
Lemma errless_fea_loop cp m eas p pos prev : errless (E:=E) (fea_loop enc_encode cp m eas p pos prev).
Proof. revert m pos prev. induction eas; intros; cbn [fea_loop]; errless. Qed.
Hint Resolve errless_fea_loop : errless.
Lemma errless_fea2list cp m eas p : errless (E:=E) (write_fea2list enc_encode cp m eas p).
Proof. unfold write_fea2list. errless. Qed.
Lemma errless_dena cp m eas p n off c : errless (E:=E) (dena_loop enc_encode cp m eas p n off c).
Proof. revert m off c. induction eas; intros; cbn [dena_loop]; errless. Qed.
Lemma errless_ea_size eas : errless (E:=E) (ea_list_size eas).
Proof.
  unfold ea_list_size. case_bool_decide; [done|]. apply errless_bind; [|auto with errless].
  generalize 0. induction eas as [|ea l IH]; intros n; cbn [for_in]; [done|].
  apply errless_bind; [errless|]. intros. destruct l; [done|by apply IH].
Qed.
End errless_writers.
#[export] Hint Resolve errless_status errless_internal errless_link errless_fea2 errless_fea_loop
  errless_fea2list errless_dena errless_ea_size : errless.
