(* ===== verification/FileApi.v ===== *)
(** The file and path calls of src/src/loader/doscalls.rs, with those of src/src/loader/stubs.rs
    that go to the drives, and the terminal output of src/src/api.rs.

    The state is what these handlers share: guest memory, the drive manager, the table of pipe
    handles, the heap, the resources, the process state, and the console with its input.  A call
    ends with [Ok] (the return code 0) or with [Err] and an OS/2 error code; what it did before an
    error stays done.  The host's pipe files, and the members of the backend trait that only the
    calls here use, are classes. *)
From S2P Require Import Prelude Bytes Codepage GuestMem HandleTable Managers Constants HostFs Vfs FileFormat.
From S2P Require MemMgr Console Dbcs.

(** * Parameters *)

(** [FsAllocate], [FsVolumeInfo] *)
Record FsAllocate := mk_fsalloc {
  id_filesystem : Z; sectors_per_unit : Z; total_units : Z; available_units : Z;
  bytes_per_sector : Z;
}.
Record FsVolumeInfo := mk_fsvol { serial_number : Z; vol_label : rstring }.

(** The members of [trait VfsBackend] for attributes and volumes. *)
Class VolumeBackend (S : Type) := {
  be_get_ea : rstring → rstring → vfs S EaEntry;
  be_enum_ea : rstring → vfs S (list EaEntry);
  be_query_fs_info_alloc : vfs S FsAllocate;
  be_query_fs_info_volume : vfs S FsVolumeInfo;
  be_fs_name : S → rstring;
}.

(** A host file behind a pipe handle: [None] is an error of the operation. *)
Class HostFile (F : Type) := {
  hf_read : Z → F → option bytes * F;
  hf_write : bytes → F → option Z * F;
  hf_seek : SeekFrom → F → option Z * F;
  hf_set_len : Z → F → option unit * F;
  hf_flush : F → F;
  hf_metadata : F → option (Z * bool);
  hf_try_clone : F → option F;
}.

(** What [libc::read] of one byte from the terminal gives. *)
Inductive tty_read := TtyByte (b : Z) | TtyAgain | TtyError.

Section calls.
Context {B : Build} {S F C J : Type} {BE : VfsBackend S} {VB : VolumeBackend S} {HF : HostFile F}.
(** encoding_rs *)
Context (enc_decode : Encoding → bytes → rstring) (enc_encode : Encoding → rstring → bytes).

(** * State *)

(** The console, with what the user has typed and not yet been read: keys in SDL2 mode
    ([kbd_queue]), bytes in terminal mode; [term] is what was printed, with its file. *)
Record StdIo := mk_io {
  vio : Console.VioManager;
  stdin_pending_lf : bool;
  stdin_cooked_chars : Z;
  kbd_queue : list Z;
  tty : list tty_read;
  use_sdl2_text : bool;
  term : list (Z * bytes);
}.
Record world := mk_world {
  mem : GuestMemory;
  dm : DriveManager S;
  pipes : HandleManager F;
  heap : MemMgr.MemoryManager;
  res : ResourceManager;
  proc : ProcessManager C J;
  io : StdIo;
  active_codepage : Z;
  exit_requested : bool;
}.
Definition with_mem w m :=
  mk_world m (dm w) (pipes w) (heap w) (res w) (proc w) (io w) (active_codepage w) (exit_requested w).
Definition with_dm w d :=
  mk_world (mem w) d (pipes w) (heap w) (res w) (proc w) (io w) (active_codepage w) (exit_requested w).
Definition with_pipes w p :=
  mk_world (mem w) (dm w) p (heap w) (res w) (proc w) (io w) (active_codepage w) (exit_requested w).
Definition with_heap w h :=
  mk_world (mem w) (dm w) (pipes w) h (res w) (proc w) (io w) (active_codepage w) (exit_requested w).
Definition with_proc w p :=
  mk_world (mem w) (dm w) (pipes w) (heap w) (res w) p (io w) (active_codepage w) (exit_requested w).
Definition with_io w i :=
  mk_world (mem w) (dm w) (pipes w) (heap w) (res w) (proc w) i (active_codepage w) (exit_requested w).

Definition with_vio i v (out : bytes) :=
  mk_io v (stdin_pending_lf i) (stdin_cooked_chars i) (kbd_queue i) (tty i) (use_sdl2_text i)
        (term i ++ [(1, out)]).
Definition with_pending i b :=
  mk_io (vio i) b (stdin_cooked_chars i) (kbd_queue i) (tty i) (use_sdl2_text i) (term i).
Definition with_cooked i n :=
  mk_io (vio i) (stdin_pending_lf i) n (kbd_queue i) (tty i) (use_sdl2_text i) (term i).
Definition with_keys i q :=
  mk_io (vio i) (stdin_pending_lf i) (stdin_cooked_chars i) q (tty i) (use_sdl2_text i) (term i).
Definition with_tty i q :=
  mk_io (vio i) (stdin_pending_lf i) (stdin_cooked_chars i) (kbd_queue i) q (use_sdl2_text i) (term i).
Definition with_term i fd (out : bytes) :=
  mk_io (vio i) (stdin_pending_lf i) (stdin_cooked_chars i) (kbd_queue i) (tty i) (use_sdl2_text i)
        (term i ++ [(fd, out)]).

(** * Calls *)

Abbreviation call := (vfs world) (only parsing).

Definition check (b : bool) (e : Z) : call unit := if b then vfs_err e else mret tt.
Definition from_world {A} (f : world → outcome Z A) : call A := λ w, (f w, w).
Definition modify (f : world → world) : call unit := λ w, (Ok tt, f w).
(** A computation on one part of the state. *)
Definition on_dm {A} (op : vfs (DriveManager S) A) : call A := λ w,
  let '(r, d) := op (dm w) in (r, with_dm w d).
Definition on_mem (f : GuestMemory → outcome Z GuestMemory) : call unit := λ w,
  match f (mem w) with
  | Ok m => (Ok tt, with_mem w m)
  | Err e => (Err e, w)
  | Panic => (Panic, w)
  | Diverge => (Diverge, w)
  end.
(** A result whose error is handled by the caller. *)
Definition attempt {A} (m : call A) : call (option A) := λ w,
  match m w with
  | (Ok a, w) => (Ok (Some a), w)
  | (Err _, w) => (Ok None, w)
  | (Panic, w) => (Panic, w)
  | (Diverge, w) => (Diverge, w)
  end.

(** [guest_write(p, v)]; [if p != 0 { guest_write(p, v) }] *)
Definition write_at (n : nat) (p v : Z) : call unit := on_mem (λ m, Ok (poke n m p v)).
Definition write_opt (n : nat) (p v : Z) : call unit := if p =? 0 then mret tt else write_at n p v.
Definition write_buf (p : Z) (l : bytes) : call unit :=
  on_mem (λ m, Ok (default m (write_bytes m p l))).
(** [guest_read(p).unwrap_or(d)] *)
Definition read_at (n : nat) (p d : Z) : call Z := from_world (λ w, Ok (default d (read n (mem w) p))).
Definition guest_string (p : Z) : call rstring :=
  from_world (λ w, Ok (read_guest_string enc_decode (active_codepage w) (mem w) p)).
Definition encode (s : rstring) : call bytes :=
  from_world (λ w, Ok (cp_encode enc_encode s (active_codepage w))).
Definition add32 (a b : Z) : call Z := vfs_lift (uadd M32 a b).

(** An operation on the host file of a pipe handle: 6 without one, [e] when it fails. *)
Definition on_pipe {A} (e hf : Z) (op : F → option A * F) : call A := λ w,
  match handle_get (pipes w) hf with
  | None => (Err E_INVALID_HANDLE, w)
  | Some file =>
    let '(r, file) := op file in
    (match r with Some a => Ok a | None => Err e end,
     with_pipes w (handle_replace (pipes w) hf file))
  end.

(** * Files *)

Definition action_code (a : OpenAction) : Z :=
  match a with Existed => 1 | Created => 2 | Replaced => 3 end.

(** [dos_open] *)
Definition dos_open (psz_name_ptr phf_ptr pul_action_ptr fs_open_flags fs_open_mode : Z) : call unit :=
  name ← guest_string psz_name_ptr;
  mode ← vfs_lift (open_mode_from_raw fs_open_mode);
  let sharing := sharing_mode_from_raw fs_open_mode in
  let flags := open_flags_from_raw fs_open_flags in
  '(handle, action) ← on_dm (open_file name mode sharing flags ATTR_NORMAL);
  write_at 4 phf_ptr handle;;
  write_opt 4 pul_action_ptr (action_code action).

(** [dos_close] *)
Definition dos_close (hf : Z) : call unit :=
  if PIPE_HANDLE_BASE <=? hf then
    modify (λ w, with_pipes w (handle_close (pipes w) hf).2)
  else on_dm (close_file hf).

(** A read or write reports its length. *)
Definition give_data (buf_ptr actual_ptr : Z) (data : bytes) : call unit :=
  write_buf buf_ptr data;; write_opt 4 actual_ptr (len data).

(** A blocking call has returned, or waits for input. *)
Inductive turn := Returned | Waiting.

Definition print_tty (text : bytes) (cp : Z) : call unit := λ w,
  match Console.write_tty enc_decode (vio (io w)) text 0x07 cp with
  | Ok (v, out) => (Ok tt, with_io w (with_vio (io w) v out))
  | Diverge => (Diverge, w)
  | _ => (Panic, w)
  end.
Definition set_io (f : StdIo → StdIo) : call unit := modify (λ w, with_io w (f (io w))).
Definition give_char (buf_ptr actual_ptr ch : Z) : call turn :=
  write_at 1 buf_ptr ch;; write_opt 4 actual_ptr 1;; mret Returned.

(** [i32] plus one *)
Definition i32_succ (n : Z) : outcome Z Z :=
  if n + 1 <? 2 ^ 31 then Ok (n + 1) else if overflow_checks then Panic else Ok (- 2 ^ 31).
(** [dos_read_stdin]: the loop over the keys that have been typed, up to the wait for more. *)
Fixpoint read_keys (keys : list Z) (buf_ptr actual_ptr : Z) : call turn :=
  down ← from_world (λ w, Ok (exit_requested w));
  check down 87;;
  match keys with
  | [] => mret Waiting
  | ch :: keys =>
    set_io (λ i, with_keys i keys);;
    if ch =? 0x0D then
      set_io (λ i, with_cooked (with_pending i true) 0);;
      print_tty [0x0D; 0x0A] 437;;
      give_char buf_ptr actual_ptr 0x0D
    else if ch =? 0x08 then
      cooked ← from_world (λ w, Ok (stdin_cooked_chars (io w)));
      if 0 <? cooked then
        set_io (λ i, with_cooked i (cooked - 1));;
        print_tty [0x08; 0x20; 0x08] 437;;
        give_char buf_ptr actual_ptr ch
      else read_keys keys buf_ptr actual_ptr
    else
      cp ← from_world (λ w, Ok (active_codepage w));
      (if 0x20 <=? ch then
         n ← from_world (λ w, i32_succ (stdin_cooked_chars (io w)));
         set_io (λ i, with_cooked i n);;
         print_tty [ch] cp
       else mret tt);;
      give_char buf_ptr actual_ptr ch
  end.
(** The same over the bytes of the terminal. *)
Fixpoint read_tty (input : list tty_read) (buf_ptr actual_ptr : Z) : call turn :=
  down ← from_world (λ w, Ok (exit_requested w));
  check down 87;;
  match input with
  | [] => mret Waiting
  | x :: input =>
    set_io (λ i, with_tty i input);;
    match x with
    | TtyAgain => read_tty input buf_ptr actual_ptr
    | TtyError => write_opt 4 actual_ptr 0;; vfs_err E_ACCESS_DENIED
    | TtyByte byte =>
      (if byte =? 0x0D then
         set_io (λ i, with_pending i true);; set_io (λ i, with_term i 1 [0x0D; 0x0A])
       else if (byte =? 0x08) || (byte =? 0x7F) then
         set_io (λ i, with_term i 1 [0x08; 0x20; 0x08])
       else if 0x20 <=? byte then set_io (λ i, with_term i 1 [byte])
       else mret tt);;
      give_char buf_ptr actual_ptr byte
    end
  end.
Definition dos_read_stdin (buf_ptr len actual_ptr : Z) : call turn :=
  if len =? 0 then write_opt 4 actual_ptr 0;; mret Returned
  else
    i ← from_world (λ w, Ok (io w));
    if stdin_pending_lf i then
      set_io (λ i, with_pending i false);;
      give_char buf_ptr actual_ptr 0x0A
    else if use_sdl2_text i then read_keys (kbd_queue i) buf_ptr actual_ptr
    else read_tty (tty i) buf_ptr actual_ptr.

(** [dos_read] *)
Definition dos_read (hf buf_ptr len actual_ptr : Z) : call turn :=
  if hf =? 0 then dos_read_stdin buf_ptr len actual_ptr
  else
    let len := Z.min len (64 * 1024 * 1024) in
    data ← (if PIPE_HANDLE_BASE <=? hf then on_pipe 5 hf (hf_read len)
            else on_dm (read_file hf len));
    give_data buf_ptr actual_ptr data;;
    mret Returned.

(** [api::doscalls::dos_write]: code page 437 to the terminal. *)
Definition api_dos_write (fd : Z) (buf : bytes) : call Z :=
  set_io (λ i, with_term i fd (as_bytes (decode_single_byte buf CP437_UPPER)));;
  mret (as_u M32 (len buf)).

(** [dos_write] *)
Definition dos_write (fd buf_ptr n actual_ptr : Z) : call unit :=
  w ← vfs_get;
  match slice_mut (mem w) buf_ptr n with
  | None => vfs_err 87
  | Some data =>
    written ←
      (if (fd =? 1) || (fd =? 2) then
         if use_sdl2_text (io w) then
           print_tty data (active_codepage w);; mret (as_u M32 (len data))
         else api_dos_write fd data
       else if PIPE_HANDLE_BASE <=? fd then on_pipe 5 fd (hf_write data)
       else on_dm (write_file fd data));
    write_opt 4 actual_ptr written
  end.

(** [dos_set_file_ptr]; [offset] is an i32. *)
Definition seek_from (offset method : Z) : option SeekFrom :=
  match method with
  | 0 => Some (SeekStart (as_u M64 offset))
  | 1 => Some (SeekCurrent offset)
  | 2 => Some (SeekEnd offset)
  | _ => None
  end.
Definition dos_set_file_ptr (hf offset method actual_ptr : Z) : call unit :=
  new_pos ←
    (if PIPE_HANDLE_BASE <=? hf then
       w ← vfs_get;
       match handle_get (pipes w) hf, seek_from offset method with
       | None, _ => vfs_err 6
       | _, None => vfs_err 1
       | _, Some pos => on_pipe 1 hf (hf_seek pos)
       end
     else
       mode ← vfs_lift (seek_mode_from_raw method);
       on_dm (seek_file hf offset mode));
  write_opt 4 actual_ptr new_pos.

(** [dos_set_file_size] *)
Definition dos_set_file_size (hf new_size : Z) : call unit :=
  if PIPE_HANDLE_BASE <=? hf then on_pipe E_ACCESS_DENIED hf (hf_set_len new_size)
  else on_dm (set_file_size hf new_size).

(** [dos_set_file_locks], [dos_protect_set_file_locks] *)
Definition lock_range_at (p : Z) : call (list FileLockRange) :=
  if p =? 0 then mret []
  else
    offset ← read_at 4 p 0;
    q ← add32 p 4;
    length ← read_at 4 q 0;
    mret (if 0 <? length then [mk_range offset length] else []).
Definition dos_set_file_locks (hf p_unlock p_lock timeout flags : Z) : call unit :=
  unlock_ranges ← lock_range_at p_unlock;
  lock_ranges ← lock_range_at p_lock;
  if bool_decide (unlock_ranges = []) && bool_decide (lock_ranges = []) then mret tt
  else on_dm (set_file_locks hf unlock_ranges lock_ranges timeout).
Definition dos_protect_set_file_locks (hf p_unlock p_lock timeout flags lock_id : Z) : call unit :=
  dos_set_file_locks hf p_unlock p_lock timeout flags.

(** * Paths *)

(** [dos_delete], [dos_force_delete], [dos_move], [dos_copy], [dos_create_dir], [dos_delete_dir] *)
Definition dos_delete (psz_name_ptr : Z) : call unit :=
  name ← guest_string psz_name_ptr; on_dm (delete_file name).
Definition dos_force_delete (psz_name : Z) : call unit := dos_delete psz_name.
Definition dos_move (psz_old_ptr psz_new_ptr : Z) : call unit :=
  old_name ← guest_string psz_old_ptr;
  new_name ← guest_string psz_new_ptr;
  on_dm (rename_file old_name new_name).
Definition dos_copy (psz_src psz_dst option : Z) : call unit :=
  src ← guest_string psz_src;
  dst ← guest_string psz_dst;
  on_dm (copy_file src dst).
Definition dos_create_dir (psz_name_ptr : Z) : call unit :=
  name ← guest_string psz_name_ptr; on_dm (create_dir name).
Definition dos_delete_dir (psz_name_ptr : Z) : call unit :=
  name ← guest_string psz_name_ptr; on_dm (delete_dir name).

(** [compute_ea_size]: 4 when anything fails. *)
Definition compute_ea_size (os2_path : rstring) : call Z :=
  eas ← attempt (on_dm (on_path os2_path be_enum_ea));
  vfs_lift (match eas with Some eas => ea_list_size eas | None => Ok 4 end).

(** [dos_query_eas_from_list]; one turn of the loop over the names reads at a position below
    [gea_cb_list], and memory does not change meanwhile, so one more turn than positions decides
    whether it ends. *)
Fixpoint get_eas (drive : Z) (rel_path : rstring) (names : list rstring) : call (list EaEntry) :=
  match names with
  | [] => mret []
  | n :: names =>
    ea ← attempt (on_dm (on_backend drive (be_get_ea rel_path n)));
    rest ← get_eas drive rel_path names;
    mret (default (mk_ea n [] 0) ea :: rest)
  end.
Definition dos_query_eas_from_list (os2_path : rstring) (buf_ptr buf_len : Z) : call unit :=
  check (buf_len <? 12) 111;;
  p_gea2list ← read_at 4 buf_ptr 0;
  p ← add32 buf_ptr 4;
  p_fea2list ← read_at 4 p 0;
  check ((p_gea2list =? 0) || (p_fea2list =? 0)) 87;;
  gea_cb_list ← read_at 4 p_gea2list 0;
  check (gea_cb_list <? 4) 87;;
  names ← from_world (λ w, gea_names (Datatypes.S (Z.to_nat gea_cb_list)) (mem w) p_gea2list gea_cb_list 4);
  '(drive, rel_path) ← on_dm (resolve os2_path);
  on_dm (on_backend drive (mret tt));;
  eas ← get_eas drive rel_path names;
  cp ← from_world (λ w, Ok (active_codepage w));
  on_mem (λ m, write_fea2list enc_encode cp m eas p_fea2list);;
  p ← add32 buf_ptr 8;
  write_at 4 p 0.

(** [dos_query_path_info] *)
Definition dos_query_path_info (psz_path_ptr level buf_ptr buf_len : Z) : call unit :=
  name ← guest_string psz_path_ptr;
  match level with
  | 1 =>
    check (buf_len <? 24) 111;;
    status ← on_dm (query_path_info name level);
    on_mem (λ m, write_filestatus3_from_vfs m status buf_ptr)
  | 2 =>
    check (buf_len <? 28) 111;;
    status ← on_dm (query_path_info name 1);
    on_mem (λ m, write_filestatus3_from_vfs m status buf_ptr);;
    ea_size ← compute_ea_size name;
    p ← add32 buf_ptr 24;
    write_at 4 p ea_size
  | 3 => dos_query_eas_from_list name buf_ptr buf_len
  | _ => vfs_err 124
  end.

(** [dos_query_file_info] *)
Definition info_size (level : Z) : option Z :=
  match level with 1 => Some 24 | 2 => Some 28 | 3 => Some 12 | _ => None end.
Definition dos_query_file_info (hf level buf_ptr buf_len : Z) : call unit :=
  match info_size level with
  | None => vfs_err 124
  | Some n =>
    check (buf_len <? n) 111;;
    if level =? 3 then mret tt
    else
      (if PIPE_HANDLE_BASE <=? hf then
         w ← vfs_get;
         match handle_get (pipes w) hf ≫= hf_metadata with
         | Some (length, is_dir) => on_mem (λ m, write_filestatus3_internal m length is_dir buf_ptr)
         | None => vfs_err 6
         end
       else
         status ← on_dm (query_file_info hf 1);
         on_mem (λ m, write_filestatus3_from_vfs m status buf_ptr));;
      if level =? 2 then p ← add32 buf_ptr 24; write_at 4 p 4 else mret tt
  end.

(** [dos_reset_buffer] *)
Definition dos_reset_buffer (hf : Z) : call unit :=
  if hf =? 0xFFFFFFFF then
    modify (λ w, with_dm w (flush_all (dm w)));;
    modify (λ w, with_pipes w (mk_hm (hf_flush <$> handles (pipes w)) (hm_next_handle (pipes w))))
  else if PIPE_HANDLE_BASE <=? hf then on_pipe 6 hf (λ f, (Some tt, hf_flush f))
  else on_dm (flush_file hf).

(** [dos_enum_attribute] *)
Definition dos_enum_attribute (ref_type pv_file ul_entry pv_buf cb_buf pul_count info_level : Z)
    : call unit :=
  check (negb (info_level =? 1)) 124;;
  if negb (ref_type =? 0) then write_opt 4 pul_count 0
  else
    path_str ← guest_string pv_file;
    '(drive, rel_path) ← on_dm (resolve path_str);
    on_dm (on_backend drive (mret tt));;
    eas ← attempt (on_dm (on_backend drive (be_enum_ea rel_path)));
    max_count ← (if pul_count =? 0 then mret 1 else read_at 4 pul_count 1);
    let start := if 0 <? ul_entry then ul_entry - 1 else 0 in
    let shown := take (Z.to_nat max_count) (drop (Z.to_nat start) (default [] eas)) in
    w ← vfs_get;
    '(count, m) ← vfs_lift (dena_loop enc_encode (active_codepage w) (mem w) shown pv_buf cb_buf 0 0);
    modify (λ w, with_mem w m);;
    write_opt 4 pul_count count.

(** * Searches *)

(** [while s.ends_with(f) { s.pop() }], which is also [trim_end_matches(f)] *)
Fixpoint trim_start (f : Z → bool) (s : rstring) : rstring :=
  match s with c :: s' => if f c then trim_start f s' else s | [] => [] end.
Definition trim_end (f : Z → bool) (s : rstring) : rstring := rev (trim_start f (rev s)).
Definition is_slash (c : Z) : bool := (c =? BACKSLASH) || (c =? SLASH).
Definition ends_with_slash (s : rstring) : bool := existsb is_slash (option_list (last s)).
(** The search pattern: a bare directory stands for all its entries. *)
Definition find_spec (spec : rstring) : rstring :=
  let spec := trim_end (λ c, c <? 0x20) spec in
  let spec_trimmed := trim_end is_slash spec in
  let is_bare_dir := ends_with_slash spec || (len (as_bytes spec_trimmed) =? 2) && has_drive spec_trimmed in
  if is_bare_dir then
    (if ends_with_slash spec then spec else spec ++ [BACKSLASH]) ++ str "*.*"
  else spec.

(** The further entries of a search, up to [n]. *)
Fixpoint find_more (n : nat) (hdir : Z) : call (list DirEntry) :=
  match n with
  | O => mret []
  | Datatypes.S n =>
    e ← attempt (on_dm (find_next hdir));
    match e with
    | Some e => rest ← find_more n hdir; mret (e :: rest)
    | None => mret []
    end
  end.
Definition requested_at (pc_found_ptr : Z) : call Z :=
  if pc_found_ptr =? 0 then mret 1 else n ← read_at 4 pc_found_ptr 1; mret (Z.max n 1).
Definition give_entries (entries : list DirEntry) (buf_ptr buf_len pc_found_ptr : Z) (inc : bool)
    : call unit :=
  w ← vfs_get;
  '(code, m) ← vfs_lift (write_filefindbuf3_multi enc_encode (active_codepage w) (mem w) entries
                           buf_ptr buf_len pc_found_ptr inc);
  modify (λ w, with_mem w m);;
  check (negb (code =? 0)) code.

(** [dos_find_first], [dos_find_next], [dos_find_close] *)
Definition dos_find_first (psz_spec_ptr phdir_ptr attr buf_ptr buf_len pc_found_ptr level : Z)
    : call unit :=
  check (negb (level =? 1) && negb (level =? 2)) 124;;
  spec ← guest_string psz_spec_ptr;
  requested ← requested_at pc_found_ptr;
  '(hdir, first_entry) ← on_dm (find_first (find_spec spec) attr level);
  write_at 4 phdir_ptr hdir;;
  rest ← find_more (Z.to_nat (requested - 1)) hdir;
  give_entries (first_entry :: rest) buf_ptr buf_len pc_found_ptr (level =? 2).
Definition dos_find_next (hdir buf_ptr buf_len pc_found_ptr : Z) : call unit :=
  requested ← requested_at pc_found_ptr;
  entries ← find_more (Z.to_nat requested) hdir;
  if bool_decide (entries = []) then vfs_err 18
  else
    w ← vfs_get;
    give_entries entries buf_ptr buf_len pc_found_ptr (find_level (dm w) hdir =? 2).
Definition dos_find_close (hdir : Z) : call unit := on_dm (find_close hdir).

(** * Current directory and disk *)

(** [s.replace('/', "\\")] *)
Definition to_backslashes (s : rstring) : rstring :=
  map (λ c, if c =? SLASH then BACKSLASH else c) s.
Definition ends_with (c : Z) (s : rstring) : bool := bool_decide (last s = Some c).
(** The directory that the process manager keeps for child processes. *)
Definition process_dir (cur os2_path : rstring) : outcome Z rstring :=
  dir ← (if has_drive os2_path then str_from 2 os2_path
         else if str_starts [BACKSLASH] os2_path then Ok os2_path
         else Ok ((if ends_with BACKSLASH cur then cur else cur ++ [BACKSLASH]) ++ os2_path));
  let dir := if str_starts [BACKSLASH] dir then dir else BACKSLASH :: dir in
  Ok (if (1 <? len (as_bytes dir)) && ends_with BACKSLASH dir then removelast dir else dir).
Definition with_process_dir (p : ProcessManager C J) (dir : rstring) : ProcessManager C J :=
  mk_pm (Managers.current_disk p) dir (children p) (relay_threads p) (next_pid p).
Definition with_process_disk (p : ProcessManager C J) (d : Z) : ProcessManager C J :=
  mk_pm d (Managers.current_dir p) (children p) (relay_threads p) (next_pid p).

(** [dos_set_current_dir] *)
Definition dos_set_current_dir (psz_dir_name : Z) : call unit :=
  name ← guest_string psz_dir_name;
  on_dm (set_current_dir name);;
  w ← vfs_get;
  dir ← vfs_lift (process_dir (Managers.current_dir (proc w)) (to_backslashes name));
  modify (λ w, with_proc w (with_process_dir (proc w) dir)).

(** [dos_query_current_dir] *)
Definition dos_query_current_dir (disk_num p_buf pcb_buf : Z) : call unit :=
  w ← vfs_get;
  drive ← vfs_lift (if disk_num =? 0 then Ok (Vfs.current_disk (dm w))
                    else usub M8 (as_u M8 disk_num) 1);
  dir ← vfs_lift (Vfs.current_dir (dm w) drive);
  dir_bytes ← encode dir;
  (if pcb_buf =? 0 then mret tt
   else
     buf_len ← read_at 4 pcb_buf 0;
     write_at 4 pcb_buf (len dir_bytes + 1);;
     check (buf_len <? len dir_bytes + 1) 111);;
  if p_buf =? 0 then mret tt
  else
    write_buf p_buf dir_bytes;;
    p ← add32 p_buf (len dir_bytes);
    write_at 1 p 0.

(** [dos_query_current_disk], [dos_set_default_disk] *)
Definition dos_query_current_disk (p_disk_num p_logical : Z) : call unit :=
  (if p_disk_num =? 0 then mret tt
   else d ← from_world (λ w, current_disk_os2 (dm w)); write_at 4 p_disk_num d);;
  w ← vfs_get;
  write_opt 4 p_logical (logical_drive_map (dm w)).
Definition dos_set_default_disk (disk_num : Z) : call unit :=
  on_dm (set_current_disk (as_u M8 disk_num));;
  modify (λ w, with_proc w (with_process_disk (proc w) (as_u M8 disk_num))).

(** [dos_query_file_mode_16]: any error is "file not found". *)
Definition dos_query_file_mode_16 (p_filename p_attr : Z) : call unit :=
  filename ← guest_string p_filename;
  status ← attempt (on_dm (query_path_info filename 1));
  match status with
  | None => vfs_err 2
  | Some st =>
    let attr := if attr_contains (attributes st) ATTR_DIRECTORY then 0x10 else 0 in
    let attr := if attr_contains (attributes st) ATTR_READONLY then Z.lor attr 0x01 else attr in
    write_opt 2 p_attr attr
  end.

(** * Volumes (stubs.rs) *)

(** [self.backend(drive)?.fs_name()] *)
Definition fs_name_of (drive : Z) : vfs (DriveManager S) rstring :=
  on_backend drive (b ← vfs_get; mret (be_fs_name b)).

(** [dos_query_fs_info] *)
Definition dos_query_fs_info (drive level p_buf cb_buf : Z) : call unit :=
  check (p_buf =? 0) 87;;
  w ← vfs_get;
  let drive_idx := if drive =? 0 then Vfs.current_disk (dm w) else as_u M8 (drive - 1) in
  match level with
  | 1 =>
    check (cb_buf <? 18) 111;;
    info ← on_dm (on_backend drive_idx be_query_fs_info_alloc);
    on_mem (λ m,
      m ← put 4 m p_buf 0 (id_filesystem info);
      m ← put 4 m p_buf 4 (sectors_per_unit info);
      m ← put 4 m p_buf 8 (total_units info);
      m ← put 4 m p_buf 12 (available_units info);
      put 2 m p_buf 16 (bytes_per_sector info))
  | 2 =>
    check (cb_buf <? 17) 111;;
    info ← on_dm (on_backend drive_idx be_query_fs_info_volume);
    let label := as_bytes (vol_label info) in
    let label_len := Z.min (len label) 11 in
    on_mem (λ m,
      m ← put 4 m p_buf 0 (serial_number info);
      m ← put 1 m p_buf 4 label_len;
      m ← put_bytes m p_buf 5 (take (Z.to_nat label_len) label);
      put 1 m p_buf (5 + label_len) 0)
  | _ => vfs_err 87
  end.

(** [dos_query_fs_attach] *)
Definition dos_query_fs_attach (psz_dev ordinal level p_buf pcb_buf : Z) : call unit :=
  dev ← (if psz_dev =? 0 then mret [] else guest_string psz_dev);
  w ← vfs_get;
  drive_letter ← vfs_lift
    (if has_drive dev then Ok (Codepage.to_ascii_uppercase (default 0 (byte_at dev 0)))
     else uadd M8 0x41 (Vfs.current_disk (dm w)));
  drive_idx ← vfs_lift (usub M8 drive_letter 0x41);
  fsd_name ← attempt (on_dm (fs_name_of drive_idx));
  match fsd_name with
  | None => vfs_err E_INVALID_DRIVE
  | Some fsd_name =>
    let dev_name_bytes := as_bytes [drive_letter; COLON] in
    let fsd_name_bytes := as_bytes fsd_name in
    let total_size := 8 + len dev_name_bytes + 1 + len fsd_name_bytes + 1 in
    (if pcb_buf =? 0 then mret tt
     else
       buf_avail ← read_at 4 pcb_buf 0;
       write_at 4 pcb_buf total_size;;
       check (buf_avail <? total_size) 111);;
    if p_buf =? 0 then mret tt
    else on_mem (λ m,
      m ← put 2 m p_buf 0 3;
      m ← put 2 m p_buf 2 (len dev_name_bytes);
      m ← put 2 m p_buf 4 (len fsd_name_bytes);
      m ← put 2 m p_buf 6 0;
      m ← put_bytes m p_buf 8 dev_name_bytes;
      m ← put 1 m p_buf (8 + len dev_name_bytes) 0;
      fsd_off ← uadd M32 p_buf (8 + len dev_name_bytes + 1);
      m ← put_bytes m fsd_off 0 fsd_name_bytes;
      put 1 m fsd_off (len fsd_name_bytes) 0)
  end.

(** * Names and messages (stubs.rs) *)

(** [apply_edit_name]: [src] is what is left of the source. *)
Fixpoint skip_to_dot (src : bytes) : bytes :=
  match src with c :: s => if c =? 0x2E then src else skip_to_dot s | [] => [] end.
Fixpoint upto_dot (src : bytes) : bytes :=
  match src with c :: s => if c =? 0x2E then [] else c :: upto_dot s | [] => [] end.
Fixpoint edit_bytes (src edit : bytes) : rstring :=
  match edit with
  | [] => []
  | eb :: edit =>
    if eb =? 0x2A then upto_dot src ++ edit_bytes (skip_to_dot src) edit
    else if eb =? 0x3F then
      match src with
      | c :: src' => if c =? 0x2E then edit_bytes src edit else c :: edit_bytes src' edit
      | [] => edit_bytes [] edit
      end
    else if eb =? 0x2E then 0x2E :: edit_bytes (tail (skip_to_dot src)) edit
    else eb :: edit_bytes (match src with c :: src' => if c =? 0x2E then src else src' | [] => [] end) edit
  end.
Definition apply_edit_name (source edit : rstring) : rstring :=
  edit_bytes (as_bytes source) (as_bytes edit).

(** [dos_edit_name]; the length is a usize. *)
Definition dos_edit_name (meta_level psz_source psz_edit psz_target cb_target : Z) : call unit :=
  source ← guest_string psz_source;
  edit ← guest_string psz_edit;
  let bs := as_bytes (apply_edit_name source edit) in
  room ← vfs_lift (usub M64 cb_target 1);
  let copy_len := Z.min (len bs) room in
  if negb (psz_target =? 0) && (0 <? copy_len) then
    write_buf psz_target (take (Z.to_nat copy_len) bs);;
    p ← add32 psz_target copy_len;
    write_at 1 p 0
  else mret tt.

(** [dos_put_message] *)
Definition dos_put_message (hf cb_msg p_msg : Z) : call unit :=
  if (p_msg =? 0) || (cb_msg =? 0) then mret tt else dos_write hf p_msg cb_msg 0.

(** The calls that only report success: [dos_set_file_info], [dos_set_file_mode],
    [dos_set_path_info], [dos_set_fh_state], [dos_set_verify]; [dos_query_fh_state],
    [dos_query_verify], [dos_dev_ioctl], [dos_dev_config]. *)
Definition dos_set_file_info (hf level p_info cb_info : Z) : call unit := mret tt.
Definition dos_set_file_mode (psz_name attr : Z) : call unit := mret tt.
Definition dos_set_path_info (psz_name level p_info cb_info flag : Z) : call unit := mret tt.
Definition dos_set_fh_state (hf mode : Z) : call unit := mret tt.
Definition dos_set_verify (flag : Z) : call unit := mret tt.
Definition dos_query_fh_state (hf p_mode : Z) : call unit := write_opt 4 p_mode 0.
Definition dos_query_verify (p_flag : Z) : call unit := write_opt 4 p_flag 0.
Definition dos_dev_ioctl (hdev category function : Z) : call unit := vfs_err 87.
Definition dos_dev_config (p_info item : Z) : call unit :=
  write_opt 1 p_info (if (item =? 3) || (item =? 6) then 1 else 0).

(** * Handles, memory, resources *)

(** [dos_query_h_type], [dos_set_rel_max_fh], [dos_get_info_seg] *)
Definition dos_query_h_type (hfile ptype pattr : Z) : call unit :=
  write_opt 4 ptype (if hfile <? 3 then 1 else 0);;
  write_opt 4 pattr (if hfile <? 3 then 0x0003 else 0).
Definition dos_set_rel_max_fh (p_req_count p_cur_max_fh : Z) : call unit :=
  write_opt 4 p_cur_max_fh 256.
Definition dos_get_info_seg (p_global_sel p_local_sel : Z) : call unit :=
  write_opt 2 p_global_sel (Z.shiftr PIB_BASE 4);;
  write_opt 2 p_local_sel (Z.shiftr TIB_BASE 4).

(** [dos_create_pipe], with the two ends the host gives. *)
Definition pipe_add (f : F) : call Z := λ w,
  match handle_add (pipes w) f with
  | Ok (h, p) => (Ok h, with_pipes w p)
  | Diverge => (Diverge, w)
  | _ => (Panic, w)
  end.
Definition dos_create_pipe (ends : option (F * F)) (phf_read_ptr phf_write_ptr : Z) : call unit :=
  match ends with
  | None => vfs_err 8
  | Some (f_read, f_write) =>
    h_read ← pipe_add f_read;
    h_write ← pipe_add f_write;
    write_at 4 phf_read_ptr h_read;;
    write_at 4 phf_write_ptr h_write
  end.

(** [dos_dup_handle] *)
Definition dos_dup_handle (old_hf p_new_hf : Z) : call unit :=
  new_hf_val ← read_at 4 p_new_hf 0xFFFFFFFF;
  w ← vfs_get;
  match handle_get (pipes w) old_hf ≫= hf_try_clone with
  | None => vfs_err E_INVALID_HANDLE
  | Some dup =>
    if new_hf_val =? 0xFFFFFFFF then
      new_h ← pipe_add dup;
      write_at 4 p_new_hf new_h
    else modify (λ w, with_pipes w (handle_replace (pipes w) new_hf_val dup))
  end.

(** [dos_alloc_mem], [dos_free_mem] *)
Definition dos_alloc_mem (ppb cb : Z) : call unit :=
  w ← vfs_get;
  '(addr, h) ← vfs_lift (MemMgr.alloc (heap w) cb);
  modify (λ w, with_heap w h);;
  match addr with Some addr => write_at 4 ppb addr | None => vfs_err 8 end.
Definition dos_free_mem (pb : Z) : call unit :=
  w ← vfs_get;
  '(found, h) ← vfs_lift (MemMgr.free (heap w) pb);
  modify (λ w, with_heap w h);;
  check (negb found) 487.

(** [dos_get_resource], [dos_query_resource_size], [dos_free_resource] *)
Definition find_res (id_type id_name : Z) : call (Z * Z) :=
  from_world (λ w, ok_or 6 (resource_find (res w) (as_u M16 id_type) (as_u M16 id_name))).
Definition dos_get_resource (hmod id_type id_name ppb : Z) : call unit :=
  '(guest_addr, _) ← find_res id_type id_name; write_at 4 ppb guest_addr.
Definition dos_query_resource_size (hmod id_type id_name p_size : Z) : call unit :=
  '(_, size) ← find_res id_type id_name; write_at 4 p_size size.
Definition dos_free_resource (pb : Z) : call unit := mret tt.

(** [dos_query_dbcs_env] *)
Definition dos_query_dbcs_env (cb pcc pbuf : Z) : call unit :=
  if pbuf =? 0 then mret tt
  else
    w ← vfs_get;
    let ranges := Dbcs.dbcs_lead_ranges (active_codepage w) in
    check (cb <? (len ranges + 1) * 2) 113;;
    write_buf pbuf (concat (map (λ '(first, last), [first; last]) ranges) ++ [0; 0]).
End calls.
