(* ===== verification/FileSeq.v ===== *)
(** A file handle is a sequence of bytes with a place in it: the calls of [FileApi] on a file of a
    host-directory drive, through the drive manager ([Vfs]), the backend ([HostDir]) and the host
    file system ([HostFs]), refine the obvious operations on such a sequence. *)
From S2P Require Import Prelude Bytes Codepage GuestMem HandleTable Managers Constants HostFs Vfs FileFormat FileApi.
From S2P Require HostDir.

(** * The specification *)

Record afile := mk_afile { content : bytes; place : Z }.

(** The calls, with their guest addresses. *)
Inductive file_op :=
| FSeek (offset actual : Z)
| FWrite (buf n actual : Z)
| FRead (buf n actual : Z)
| FResize (n : Z).

Definition a_write (data : bytes) (f : afile) : afile :=
  match data with
  | [] => f
  | _ => let e := place f + len data in
         mk_afile (resized (content f) (place f) ++ data ++ drop (Z.to_nat e) (content f)) e
  end.
Definition a_read (n : Z) (f : afile) : bytes := slice (content f) (place f) n.
Definition report (m : GuestMemory) (p v : Z) : GuestMemory := if p =? 0 then m else poke 4 m p v.

Definition a_step (op : file_op) (x : afile * GuestMemory) : afile * GuestMemory :=
  let '(f, m) := x in
  match op with
  | FSeek offset actual => (mk_afile (content f) offset, report m actual offset)
  | FWrite buf n actual =>
    (a_write (load_bytes m buf (Z.to_nat n)) f, report m actual n)
  | FRead buf n actual =>
    let data := a_read (Z.min n (64 * 1024 * 1024)) f in
    (mk_afile (content f) (place f + len data),
     report (default m (write_bytes m buf data)) actual (len data))
  | FResize n => (mk_afile (resized (content f) n) (place f), m)
  end.

(** What the caller provides: offsets and lengths of their types, data inside guest memory. *)
Definition op_ok (size : Z) (op : file_op) : Prop :=
  match op with
  | FSeek offset _ => 0 ≤ offset < 2 ^ 31
  | FWrite buf n _ => 0 ≤ n < M32 ∧ buf + n ≤ size
  | FRead _ n _ => 0 ≤ n
  | FResize n => 0 ≤ n < M32
  end.

(** * The refinement *)

Section refine.
Context {B : Build} {F C J : Type} {HF : HostFile F} {VB : VolumeBackend HostDir.HostDirBackend}.
Context (setlk : File → bool → Z → Z → Z).
Context (enc_decode : Encoding → bytes → rstring).
#[local] Existing Instance HostDir.hostdir_backend.
Abbreviation world := (world (S:=HostDir.HostDirBackend) (F:=F) (C:=C) (J:=J)) (only parsing).
Implicit Types w : world.
#[local] Instance backend : VfsBackend HostDir.HostDirBackend := HostDir.hostdir_backend setlk.

(** The handle [hf] is a file of drive [d], open for reading and writing, whose bytes and place are
    those of [f]. *)
Definition stands_for (s : HostDir.HostDirBackend) (vh : Z) (f : afile) : Prop :=
  ∃ o p, HostDir.files s !! vh = Some (HostDir.mk_open o p) ∧
    can_read o = true ∧ can_write o = true ∧ on_dir o = false ∧
    pos o = place f ∧ contents (get_inode (HostDir.host s) (ino o)) = content f.
Definition file_at w (hf : Z) (f : afile) : Prop :=
  3 ≤ hf < PIPE_HANDLE_BASE ∧ ∃ d vh s,
    file_handles (dm w) !! hf = Some (mk_fentry d vh) ∧
    idx (drives (dm w)) d = Some (Some s) ∧ stands_for s vh f.

(** An operation of the backend that keeps to the specification does so through the manager. *)
Lemma on_file_at {A} w hf f (op : Z → vfs HostDir.HostDirBackend A) a f' :
  file_at w hf f →
  (∀ s vh, stands_for s vh f → ∃ s', op vh s = (Ok a, s') ∧ stands_for s' vh f') →
  ∃ w', on_dm (on_file hf op) w = (Ok a, w') ∧ file_at w' hf f' ∧ mem w' = mem w.
Proof.
  intros (Hr & d & vh & s & Hh & Hd & Hs) Hop. destruct (Hop s vh Hs) as (s' & Ho & Hs').
  unfold on_dm, on_file, mbind, vfs_bind, vfs_get. rewrite Hh. unfold on_drive. cbn [fe_drive fe_handle].
  rewrite Hd, Ho. eexists. split; [done|]. split; [|done]. split; [done|].
  exists d, vh, s'. split; [done|]. split; [|done]. cbn. revert Hd. unfold idx, len.
  rewrite length_insert. destruct (_ && _); [|done]. intros Hl%lookup_lt_Some.
  by apply list_lookup_insert_eq.
Qed.

(** An operation on the open file. *)
Lemma on_open_at {A} s vh f (op : File → call (A * File)) a f' :
  stands_for s vh f →
  (∀ o h, pos o = place f → contents (get_inode h (ino o)) = content f →
     can_read o = true → can_write o = true → on_dir o = false →
     ∃ o' h', op o h = (Ok (a, o'), h') ∧ ino o' = ino o ∧ can_read o' = true ∧
       can_write o' = true ∧ on_dir o' = false ∧ pos o' = place f' ∧
       contents (get_inode h' (ino o)) = content f') →
  ∃ s', HostDir.on_open_file vh op s = (Ok a, s') ∧ stands_for s' vh f'.
Proof.
  intros (o & p & Hf & Hr & Hw & Hd & Hp & Hc) Hop.
  destruct (Hop o (HostDir.host s) Hp Hc Hr Hw Hd) as (o' & h' & Ho & Hi & Hr' & Hw' & Hd' & Hp' & Hc').
  unfold HostDir.on_open_file, mbind, vfs_bind, vfs_get. rewrite Hf. cbn.
  unfold HostDir.host_call. cbn [HostDir.file]. rewrite Ho. cbn. eexists. split; [done|].
  exists o', p. cbn. rewrite lookup_insert_eq, Hi. done.
Qed.

Lemma set_contents_get fs i data : contents (get_inode (set_contents fs i data) i) = data.
Proof. unfold get_inode, set_contents. cbn. by rewrite lookup_insert_eq. Qed.

Lemma seek_at s vh f off : stands_for s vh f → 0 ≤ off < 2 ^ 31 →
  ∃ s', HostDir.seek vh off SeekBegin s = (Ok off, s') ∧ stands_for s' vh (mk_afile (content f) off).
Proof.
  intros Hs Hoff. eapply on_open_at; [done|]. intros o h Hp Hc Hr Hw Hd.
  unfold file_seek, as_i64, as_u. rewrite (Z.mod_small off) by lia.
  rewrite (Z.mod_small (off + 2 ^ 63)) by lia.
  replace (off + 2 ^ 63 - 2 ^ 63) with off by lia. zbool. eexists _, _. by split_and!.
Qed.
Lemma write_at_place s vh f data : stands_for s vh f →
  ∃ s', HostDir.write vh data s = (Ok (len data), s') ∧ stands_for s' vh (a_write data f).
Proof.
  intros Hs. eapply on_open_at; [done|]. intros o h Hp Hc Hr Hw Hd.
  unfold file_write. rewrite Hw, Hd. cbn [negb orb]. destruct data as [|b data].
  - eexists _, _. by split_and!.
  - rewrite Hc, Hp. eexists _, _. split_and!; try done. by rewrite set_contents_get.
Qed.
Lemma read_at_place s vh f n : stands_for s vh f →
  ∃ s', HostDir.read vh n s = (Ok (a_read n f), s') ∧
    stands_for s' vh (mk_afile (content f) (place f + len (a_read n f))).
Proof.
  intros Hs. eapply on_open_at; [done|]. intros o h Hp Hc Hr Hw Hd.
  unfold file_read, a_read. rewrite Hr, Hd, Hp, Hc. cbn [negb orb]. eexists _, _. by split_and!.
Qed.
Lemma resize_at s vh f n : stands_for s vh f → 0 ≤ n < M32 →
  ∃ s', HostDir.set_file_size vh n s = (Ok tt, s') ∧
    stands_for s' vh (mk_afile (resized (content f) n) (place f)).
Proof.
  intros Hs Hn. eapply on_open_at; [done|]. intros o h Hp Hc Hr Hw Hd.
  unfold file_set_len. rewrite (proj2 (Z.ltb_ge _ _)) by lia. rewrite Hw, Hd, Hc. cbn.
  eexists _, _. split_and!; try done. by rewrite set_contents_get.
Qed.

(** ** The calls *)

Definition file_op_call (hf : Z) (op : file_op) : vfs world unit :=
  match op with
  | FSeek offset actual => dos_set_file_ptr hf offset 0 actual
  | FWrite buf n actual => dos_write enc_decode hf buf n actual
  | FRead buf n actual => dos_read enc_decode hf buf n actual;; mret tt
  | FResize n => dos_set_file_size hf n
  end.
Fixpoint file_run (hf : Z) (ops : list file_op) : vfs world unit :=
  match ops with
  | [] => mret tt
  | op :: ops => file_op_call hf op;; file_run hf ops
  end.

Lemma file_at_mem w hf f m : file_at (with_mem w m) hf f ↔ file_at w hf f.
Proof. done. Qed.
Lemma write_opt_eq w p v :
  write_opt 4 p v w = (Ok tt, with_mem w (report (mem w) p v)).
Proof. unfold write_opt, report. destruct (p =? 0); [by destruct w|done]. Qed.
Lemma report_size m p v : GuestMem.size (report m p v) = GuestMem.size m.
Proof. unfold report. case_match; [done|apply poke_size]. Qed.

Lemma step_refines w hf f op f' m' :
  file_at w hf f → GuestMem.size (mem w) < M64 → op_ok (GuestMem.size (mem w)) op →
  a_step op (f, mem w) = (f', m') →
  ∃ w', file_op_call hf op w = (Ok tt, w') ∧ file_at w' hf f' ∧ mem w' = m' ∧
    GuestMem.size m' = GuestMem.size (mem w).
Proof.
  intros Hf Hsz Hop Hstep. pose proof Hf as [Hhf _]. unfold PIPE_HANDLE_BASE in Hhf.
  destruct op as [off act|buf n act|buf n act|n]; cbn [op_ok a_step file_op_call] in *;
    injection Hstep as <- <-.
  - destruct (on_file_at w hf f (λ h, be_seek h off SeekBegin) off (mk_afile (content f) off) Hf)
      as (w1 & H1 & Hf1 & Hm1); [intros; by apply seek_at|].
    unfold dos_set_file_ptr, PIPE_HANDLE_BASE. zbool. unfold seek_file.
    unfold mbind, vfs_bind, vfs_lift. cbn [seek_mode_from_raw]. rewrite H1, write_opt_eq.
    eexists. split; [done|]. split; [done|]. cbn. rewrite Hm1. split; [done|apply report_size].
  - set (data := load_bytes (mem w) buf (Z.to_nat n)).
    assert (Hlen : len data = n) by (unfold data, len; rewrite length_load_bytes; lia).
    destruct (on_file_at w hf f (λ h, be_write h data) (len data) (a_write data f) Hf)
      as (w1 & H1 & Hf1 & Hm1); [intros; by apply write_at_place|].
    unfold dos_write, PIPE_HANDLE_BASE. zbool. unfold mbind, vfs_bind, vfs_get, slice_mut.
    rewrite (proj2 (ptr_at_Some _ _ _ buf Hsz)) by (split; [done|apply Hop]). cbn. fold data. unfold write_file.
    rewrite H1, write_opt_eq, Hlen. eexists. split; [done|]. split; [done|]. cbn. rewrite Hm1.
    split; [done|apply report_size].
  - set (k := Z.min n (64 * 1024 * 1024)).
    destruct (on_file_at w hf f (λ h, be_read h k) (a_read k f)
                (mk_afile (content f) (place f + len (a_read k f))) Hf)
      as (w1 & H1 & Hf1 & Hm1); [intros; by apply read_at_place|].
    unfold dos_read, PIPE_HANDLE_BASE. zbool. fold k. unfold read_file, give_data, write_buf, on_mem.
    unfold mbind, vfs_bind, mret, vfs_ret. rewrite H1, write_opt_eq.
    eexists. split; [done|]. split; [done|]. cbn. rewrite Hm1. split; [done|].
    rewrite report_size. unfold write_bytes. destruct (ptr_at _ _ _); [|done]. cbn.
    apply store_bytes_size.
  - destruct (on_file_at w hf f (λ h, be_set_file_size h n) tt
                (mk_afile (resized (content f) n) (place f)) Hf)
      as (w1 & H1 & Hf1 & Hm1); [intros; by apply resize_at|].
    unfold dos_set_file_size, PIPE_HANDLE_BASE. zbool. unfold set_file_size. rewrite H1.
    by eexists.
Qed.

Lemma len_resized c n : 0 ≤ n → len (resized c n) = n.
Proof.
  intros Hn. unfold resized, len. rewrite length_app, length_take, length_replicate. lia.
Qed.
Lemma read_back_data data f : 0 ≤ place f →
  a_read (len data) (mk_afile (content (a_write data f)) (place f)) = data.
Proof.
  intros Hp. unfold a_read, a_write. cbn [content place]. destruct data as [|b data]; [done|].
  cbn [content]. rewrite <- (len_resized (content f) (place f) Hp) at 3. by apply slice_middle.
Qed.

(** What is written at an offset is read back from it, wherever the two buffers are. *)
Lemma write_read_back w hf f off buf n buf2 :
  file_at w hf f → GuestMem.size (mem w) < M64 → 0 ≤ off < 2 ^ 31 → 0 ≤ n ≤ 64 * 1024 * 1024 →
  0 ≤ buf2 → buf + n ≤ GuestMem.size (mem w) → buf2 + n ≤ GuestMem.size (mem w) →
  ∃ w', file_run hf [FSeek off 0; FWrite buf n 0; FSeek off 0; FRead buf2 n 0] w = (Ok tt, w') ∧
    load_bytes (mem w') buf2 (Z.to_nat n) = load_bytes (mem w) buf (Z.to_nat n).
Proof.
  intros Hf Hsz Hoff Hn Hb2 Hr1 Hr2. set (m := mem w) in *.
  set (data := load_bytes m buf (Z.to_nat n)).
  assert (Hl : len data = n) by (unfold data, len; rewrite length_load_bytes; lia).
  destruct (step_refines w hf f (FSeek off 0) (mk_afile (content f) off) m)
    as (w1 & H1 & Hf1 & Hm1 & _); try done.
  destruct (step_refines w1 hf _ (FWrite buf n 0) (a_write data (mk_afile (content f) off)) m Hf1)
    as (w2 & H2 & Hf2 & Hm2 & _); try (by rewrite Hm1).
  { rewrite Hm1. cbn. lia. }
  destruct (step_refines w2 hf _ (FSeek off 0)
              (mk_afile (content (a_write data (mk_afile (content f) off))) off) m Hf2)
    as (w3 & H3 & Hf3 & Hm3 & _); try (by rewrite Hm2).
  destruct (step_refines w3 hf _ (FRead buf2 n 0) (mk_afile (content (a_write data (mk_afile (content f) off))) (off + n))
              (store_bytes m buf2 data) Hf3) as (w4 & H4 & Hf4 & Hm4 & _); try (by rewrite Hm3).
  { rewrite Hm3. cbn. lia. }
  { rewrite Hm3. cbn [a_step]. rewrite Z.min_l by lia. rewrite <- Hl.
    pose proof (read_back_data data (mk_afile (content f) off) ltac:(cbn; lia)) as Hrb.
    cbn [place] in Hrb. rewrite Hrb. cbn. f_equal.
    unfold write_bytes. by rewrite (proj2 (ptr_at_Some m buf2 (len data) buf2 Hsz)) by lia. }
  exists w4. split.
  - unfold file_run, mbind, vfs_bind. by rewrite H1, H2, H3, H4.
  - rewrite Hm4. rewrite <- Hl. unfold len. rewrite Nat2Z.id. apply load_store_bytes.
Qed.

(** C9: a handle open for reading and writing is a sequence of bytes with a place.  Any sequence of
    DosSetFilePtr (from the start), DosWrite, DosRead and DosSetFileSize on it, with data inside
    guest memory, succeeds through the drive manager, the backend and the host file system, and
    leaves in guest memory and in the file exactly what the same operations on a list of bytes
    leave: writes overwrite at the place and extend the file, zeros filling a gap; reads deliver
    what is there, in at most 64 MiB; the reported lengths and places are theirs. *)
Theorem file_refines w hf f ops :
  file_at w hf f → GuestMem.size (mem w) < M64 → Forall (op_ok (GuestMem.size (mem w))) ops →
  ∃ w', file_run hf ops w = (Ok tt, w') ∧
    let '(f', m') := foldl (λ x op, a_step op x) (f, mem w) ops in
    file_at w' hf f' ∧ mem w' = m'.
Proof.
  intros Hf Hsz Hops. revert w f Hf Hsz Hops. induction ops as [|op ops IH]; intros w f Hf Hsz Hops.
  { by exists w. }
  apply Forall_cons in Hops as [Hop Hops]. cbn [foldl file_run].
  destruct (a_step op (f, mem w)) as [f1 m1] eqn:Hst.
  destruct (step_refines w hf f op f1 m1) as (w1 & H1 & Hf1 & Hm1 & Hs1); try done. subst m1.
  destruct (IH w1 f1) as (w' & H' & Hr); [done|lia|by rewrite Hs1|].
  exists w'. split; [|done]. unfold mbind, vfs_bind. by rewrite H1.
Qed.
End refine.

(** * A small system *)

(** A pipe as a queue of bytes, and a volume without attributes. *)
#[export] Instance byte_pipe : HostFile bytes := {|
  hf_read n f := (Some (take (Z.to_nat n) f), drop (Z.to_nat n) f);
  hf_write data f := (Some (len data), f ++ data);
  hf_seek _ f := (None, f);
  hf_set_len _ f := (None, f);
  hf_flush f := f;
  hf_metadata f := Some (0, false);
  hf_try_clone f := Some f;
|}.
#[export] Instance plain_volume : VolumeBackend HostDir.HostDirBackend := {|
  be_get_ea _ _ := vfs_err E_EA_NOT_FOUND;
  be_enum_ea _ := mret [];
  be_query_fs_info_alloc := mret (mk_fsalloc 0 1 1000 500 512);
  be_query_fs_info_volume := mret (mk_fsvol 0x12345678 (str "WARPINE"));
  be_fs_name _ := str "HPFS";
|}.
Definition no_lock : File → bool → Z → Z → Z := λ _ _ _ _, 0.
(** Drive C: with one file open on handle 3, and one pipe. *)
Definition demo_fs : HostFs :=
  mk_fs (list_to_map [([], NDir 0); ([str "vol"], NDir 1); ([str "vol"; str "a.txt"], NFile 2)])
        {[2 := mk_inode (str "hello world") None None None false]} 100 0 4096 true.
Definition demo_drive : HostDir.HostDirBackend :=
  HostDir.mk_be [str "vol"] {[1 := HostDir.mk_open (mk_file 2 0 true true false) [str "vol"; str "a.txt"]]}
    ∅ ∅ ∅ true true 2 demo_fs 0.
Definition demo_dm : DriveManager HostDir.HostDirBackend :=
  mk_dm (<[2%nat := Some demo_drive]> (replicate 26 None)) (replicate 26 None)
        {[3 := mk_fentry 2 1]} ∅ 4 10 2 (replicate 26 []).
Definition demo_mem : GuestMemory :=
  store_bytes (store_bytes (GuestMem.alloc 0x2000) 0x1000 (str "C:\a.txt")) 0x1100 (str "OS/2").
Definition demo_world : world (S:=HostDir.HostDirBackend) (F:=bytes) (C:=unit) (J:=unit) :=
  mk_world demo_mem demo_dm (mk_hm {[PIPE_HANDLE_BASE := str "pipe"]} (PIPE_HANDLE_BASE + 1))
    (MemMgr.new 0x100000 0x200000) resource_manager_new process_manager_new
    (mk_io (Console.new (Some (4, 10))) false 0 [] [] true []) 437 false.

Lemma demo_file_at : file_at demo_world 3 (mk_afile (str "hello world") 0).
Proof.
  split; [by vm_compute|]. exists 2, 1, demo_drive. split_and!; [done..|].
  by eexists _, _.
Qed.
Lemma demo_size : GuestMem.size (mem demo_world) = 0x2000.
Proof. by vm_compute. Qed.

(** Overwrite "world", grow the file, and read it all back. *)
Definition demo_file_ops : list file_op :=
  [FSeek 6 0; FWrite 0x1100 4 0; FResize 12; FSeek 0 0; FRead 0x1200 100 0x1300].
Lemma file_refines_witness :
  ∃ w', file_run (B := dev_profile) no_lock (λ _ b, b) 3 demo_file_ops demo_world = (Ok tt, w') ∧
    load_bytes (mem w') 0x1200 12 = str "hello OS/2d" ++ [0] ∧ read32 (mem w') 0x1300 = Some 12.
Proof.
  destruct (file_refines (B := dev_profile) no_lock (λ _ b, b) demo_world 3
              (mk_afile (str "hello world") 0) demo_file_ops) as (w' & Hr & Hf).
  - apply demo_file_at.
  - rewrite demo_size. lia.
  - rewrite demo_size. repeat (apply List.Forall_cons; [cbn; lia|]). apply List.Forall_nil.
  - exists w'. split; [exact Hr|].
    destruct (foldl _ _ _) as [f' m'] eqn:He in Hf. destruct Hf as [_ Hm]. rewrite Hm.
    apply (f_equal snd) in He. cbn [snd] in He. rewrite <- He. by vm_compute.
Defined.
