(* ===== verification/FileCalls.v ===== *)
(** Theorems on the file calls of [FileApi]: their place in the API registry, what an error
    leaves of guest memory, which table a handle belongs to, and what is read back after a
    write. *)
From S2P Require Import Prelude Bytes Codepage GuestMem HandleTable Managers Constants HostFs Vfs FileFormat FileApi FileSeq.
From S2P Require MemMgr Console ApiRegistry HostDir.

Section dispatch.
Context {B : Build} {S F C J : Type} {BE : VfsBackend S} {VB : VolumeBackend S} {HF : HostFile F}.
Context (enc_decode : Encoding → bytes → rstring) (enc_encode : Encoding → rstring → bytes).
Abbreviation world := (world (S:=S) (F:=F) (C:=C) (J:=J)) (only parsing).

(** * The calls by the names of their methods *)

Definition at_once (m : vfs world unit) : vfs world turn := m;; mret Returned.

(** The calls of [FileApi] by the method name that the registry has for them. *)
Definition file_calls : list (string * (list Z → option (vfs world turn))) := [
  ("dos_open"%string, λ l, match l with [a; b; c; d; e] =>
     Some (at_once (dos_open enc_decode a b c d e)) | _ => None end);
  ("dos_close"%string, λ l, match l with [a] => Some (at_once (dos_close a)) | _ => None end);
  ("dos_read"%string, λ l, match l with [a; b; c; d] =>
     Some (dos_read enc_decode a b c d) | _ => None end);
  ("dos_write"%string, λ l, match l with [a; b; c; d] =>
     Some (at_once (dos_write enc_decode a b c d)) | _ => None end);
  ("dos_set_file_ptr"%string, λ l, match l with [a; b; c; d] =>
     Some (at_once (dos_set_file_ptr a b c d)) | _ => None end);
  ("dos_set_file_size"%string, λ l, match l with [a; b] =>
     Some (at_once (dos_set_file_size a b)) | _ => None end);
  ("dos_set_file_locks"%string, λ l, match l with [a; b; c; d; e] =>
     Some (at_once (dos_set_file_locks a b c d e)) | _ => None end);
  ("dos_protect_set_file_locks"%string, λ l, match l with [a; b; c; d; e; f] =>
     Some (at_once (dos_protect_set_file_locks a b c d e f)) | _ => None end);
  ("dos_delete"%string, λ l, match l with [a] =>
     Some (at_once (dos_delete enc_decode a)) | _ => None end);
  ("dos_force_delete"%string, λ l, match l with [a] =>
     Some (at_once (dos_force_delete enc_decode a)) | _ => None end);
  ("dos_move"%string, λ l, match l with [a; b] =>
     Some (at_once (dos_move enc_decode a b)) | _ => None end);
  ("dos_copy"%string, λ l, match l with [a; b; c] =>
     Some (at_once (dos_copy enc_decode a b c)) | _ => None end);
  ("dos_create_dir"%string, λ l, match l with [a] =>
     Some (at_once (dos_create_dir enc_decode a)) | _ => None end);
  ("dos_delete_dir"%string, λ l, match l with [a] =>
     Some (at_once (dos_delete_dir enc_decode a)) | _ => None end);
  ("dos_query_path_info"%string, λ l, match l with [a; b; c; d] =>
     Some (at_once (dos_query_path_info enc_decode enc_encode a b c d)) | _ => None end);
  ("dos_query_file_info"%string, λ l, match l with [a; b; c; d] =>
     Some (at_once (dos_query_file_info a b c d)) | _ => None end);
  ("dos_reset_buffer"%string, λ l, match l with [a] =>
     Some (at_once (dos_reset_buffer a)) | _ => None end);
  ("dos_enum_attribute"%string, λ l, match l with [a; b; c; d; e; f; g] =>
     Some (at_once (dos_enum_attribute enc_decode enc_encode a b c d e f g)) | _ => None end);
  ("dos_find_first"%string, λ l, match l with [a; b; c; d; e; f; g] =>
     Some (at_once (dos_find_first enc_decode enc_encode a b c d e f g)) | _ => None end);
  ("dos_find_next"%string, λ l, match l with [a; b; c; d] =>
     Some (at_once (dos_find_next enc_encode a b c d)) | _ => None end);
  ("dos_find_close"%string, λ l, match l with [a] =>
     Some (at_once (dos_find_close a)) | _ => None end);
  ("dos_set_current_dir"%string, λ l, match l with [a] =>
     Some (at_once (dos_set_current_dir enc_decode a)) | _ => None end);
  ("dos_query_current_dir"%string, λ l, match l with [a; b; c] =>
     Some (at_once (dos_query_current_dir enc_encode a b c)) | _ => None end);
  ("dos_query_current_disk"%string, λ l, match l with [a; b] =>
     Some (at_once (dos_query_current_disk a b)) | _ => None end);
  ("dos_set_default_disk"%string, λ l, match l with [a] =>
     Some (at_once (dos_set_default_disk a)) | _ => None end);
  ("dos_query_file_mode_16"%string, λ l, match l with [a; b] =>
     Some (at_once (dos_query_file_mode_16 enc_decode a b)) | _ => None end);
  ("dos_query_fs_info"%string, λ l, match l with [a; b; c; d] =>
     Some (at_once (dos_query_fs_info a b c d)) | _ => None end);
  ("dos_query_fs_attach"%string, λ l, match l with [a; b; c; d; e] =>
     Some (at_once (dos_query_fs_attach enc_decode a b c d e)) | _ => None end);
  ("dos_edit_name"%string, λ l, match l with [a; b; c; d; e] =>
     Some (at_once (dos_edit_name enc_decode a b c d e)) | _ => None end);
  ("dos_put_message"%string, λ l, match l with [a; b; c] =>
     Some (at_once (dos_put_message enc_decode a b c)) | _ => None end);
  ("dos_set_file_info"%string, λ l, match l with [a; b; c; d] =>
     Some (at_once (dos_set_file_info a b c d)) | _ => None end);
  ("dos_set_file_mode"%string, λ l, match l with [a; b] =>
     Some (at_once (dos_set_file_mode a b)) | _ => None end);
  ("dos_set_path_info"%string, λ l, match l with [a; b; c; d; e] =>
     Some (at_once (dos_set_path_info a b c d e)) | _ => None end);
  ("dos_set_fh_state"%string, λ l, match l with [a; b] =>
     Some (at_once (dos_set_fh_state a b)) | _ => None end);
  ("dos_query_fh_state"%string, λ l, match l with [a; b] =>
     Some (at_once (dos_query_fh_state a b)) | _ => None end);
  ("dos_set_verify"%string, λ l, match l with [a] =>
     Some (at_once (dos_set_verify a)) | _ => None end);
  ("dos_query_verify"%string, λ l, match l with [a] =>
     Some (at_once (dos_query_verify a)) | _ => None end);
  ("dos_dev_ioctl"%string, λ l, match l with [a; b; c; _; _; _; _; _; _] =>
     Some (at_once (dos_dev_ioctl a b c)) | _ => None end);
  ("dos_dev_config"%string, λ l, match l with [a; b] =>
     Some (at_once (dos_dev_config a b)) | _ => None end);
  ("dos_query_h_type"%string, λ l, match l with [a; b; c] =>
     Some (at_once (dos_query_h_type a b c)) | _ => None end);
  ("dos_set_rel_max_fh"%string, λ l, match l with [a; b] =>
     Some (at_once (dos_set_rel_max_fh a b)) | _ => None end);
  ("dos_get_info_seg"%string, λ l, match l with [a; b] =>
     Some (at_once (dos_get_info_seg a b)) | _ => None end);
  ("dos_dup_handle"%string, λ l, match l with [a; b] =>
     Some (at_once (dos_dup_handle a b)) | _ => None end);
  ("dos_alloc_mem"%string, λ l, match l with [a; b] =>
     Some (at_once (dos_alloc_mem a b)) | _ => None end);
  ("dos_free_mem"%string, λ l, match l with [a] => Some (at_once (dos_free_mem a)) | _ => None end);
  ("dos_get_resource"%string, λ l, match l with [a; b; c; d] =>
     Some (at_once (dos_get_resource a b c d)) | _ => None end);
  ("dos_query_resource_size"%string, λ l, match l with [a; b; c; d] =>
     Some (at_once (dos_query_resource_size a b c d)) | _ => None end);
  ("dos_free_resource"%string, λ l, match l with [a] =>
     Some (at_once (dos_free_resource a)) | _ => None end);
  ("dos_query_dbcs_env"%string, λ l, match l with [a; b; c] =>
     Some (at_once (dos_query_dbcs_env a b c)) | _ => None end)].
Definition find_call (table : list (string * (list Z → option (vfs world turn)))) (method : string)
    (args : list Z) : option (vfs world turn) :=
  '(_, (_, f)) ← list_find (λ x, x.1 = method) table; f args.
Definition file_call : string → list Z → option (vfs world turn) := find_call file_calls.

Lemma find_call_inv table method args c : find_call table method args = Some c →
  ∃ f, (method, f) ∈ table ∧ f args = Some c.
Proof.
  unfold find_call. destruct (list_find _ table) as [[i [n f]]|] eqn:Hf; [|done]. cbn.
  apply list_find_Some in Hf as (Hi & Hn & _). cbn in Hn. subst n. intros Hc. exists f.
  split; [by eapply list_elem_of_lookup_2|done].
Qed.
End dispatch.

(** * The registry *)

Definition file_methods : list string := [
  "dos_open"; "dos_close"; "dos_read"; "dos_write"; "dos_set_file_ptr"; "dos_set_file_size";
  "dos_set_file_locks"; "dos_protect_set_file_locks"; "dos_delete"; "dos_move"; "dos_copy";
  "dos_create_dir"; "dos_delete_dir"; "dos_query_path_info"; "dos_query_file_info";
  "dos_reset_buffer"; "dos_enum_attribute"; "dos_find_first"; "dos_find_next"; "dos_find_close";
  "dos_set_current_dir"; "dos_query_current_dir"; "dos_query_current_disk";
  "dos_set_default_disk"; "dos_query_file_mode_16"; "dos_query_fs_info"; "dos_query_fs_attach";
  "dos_edit_name"; "dos_put_message"; "dos_set_file_info"; "dos_set_file_mode";
  "dos_set_path_info"; "dos_set_fh_state"; "dos_query_fh_state"; "dos_set_verify";
  "dos_query_verify"; "dos_dev_ioctl"; "dos_dev_config"; "dos_query_h_type";
  "dos_set_rel_max_fh"; "dos_get_info_seg"; "dos_dup_handle"; "dos_alloc_mem"; "dos_free_mem";
  "dos_get_resource"; "dos_query_resource_size"; "dos_free_resource"; "dos_query_dbcs_env"]%string.

Create HintDb clean.

Section calls.
Context {B : Build} {S F C J : Type} {BE : VfsBackend S} {VB : VolumeBackend S} {HF : HostFile F}.
Context (enc_decode : Encoding → bytes → rstring) (enc_encode : Encoding → rstring → bytes).
Abbreviation world := (world (S:=S) (F:=F) (C:=C) (J:=J)) (only parsing).
Abbreviation file_call := (file_call (S:=S) (F:=F) (C:=C) (J:=J) enc_decode enc_encode).

(** Every registry entry for one of these methods passes it the arguments it has. *)
Definition well_called (id : Z) (args : list Z) (e : ApiRegistry.ApiEntry) : bool :=
  match ApiRegistry.handler e with
  | ApiRegistry.Normal m l =>
    if existsb (String.eqb m) file_methods then
      match file_call m (map (ApiRegistry.arg_value id args) l) with Some _ => true | None => false end
    else true
  | _ => true
  end.
Lemma registry_calls id args : forallb (well_called id args) ApiRegistry.REGISTRY = true.
Proof. vm_compute. reflexivity. Qed.
(** And every one of them is in the registry. *)
Lemma all_called :
  forallb (λ m, existsb (λ e, match ApiRegistry.handler e with
                              | ApiRegistry.Normal m' _ => String.eqb m m' | _ => false end)
                        ApiRegistry.REGISTRY) file_methods = true.
Proof. vm_compute. reflexivity. Qed.

(** * What an error leaves of guest memory *)

Implicit Types w : world.
(** Memory is as before; memory is as before an error; there is no error. *)
Definition quiet {A} (m : vfs world A) : Prop := ∀ w, mem (m w).2 = mem w.
Definition clean {A} (m : vfs world A) : Prop := ∀ w e, (m w).1 = Err e → mem (m w).2 = mem w.
Definition no_error {A} (m : vfs world A) : Prop := ∀ w e, (m w).1 ≠ Err e.

Lemma quiet_clean {A} (m : vfs world A) : quiet m → clean m.
Proof. intros H w e _. apply H. Qed.
Lemma no_error_clean {A} (m : vfs world A) : no_error m → clean m.
Proof. intros H w e He. by destruct (H w e). Qed.

Lemma bind_state_eq {A D} (m : vfs world A) (f : A → vfs world D) w :
  (m ≫= f) w = match (m w).1 with
               | Ok a => f a (m w).2
               | Err e => (Err e, (m w).2)
               | Panic => (Panic, (m w).2)
               | Diverge => (Diverge, (m w).2)
               end.
Proof. unfold mbind, vfs_bind. by destruct (m w) as [[] ?]. Qed.

Lemma quiet_bind {A D} (m : vfs world A) (f : A → vfs world D) :
  quiet m → (∀ a, quiet (f a)) → quiet (m ≫= f).
Proof. intros Hm Hf w. rewrite bind_state_eq. destruct (m w).1; [rewrite Hf|..]; apply Hm. Qed.
Lemma clean_bind {A D} (m : vfs world A) (f : A → vfs world D) :
  quiet m → (∀ a, clean (f a)) → clean (m ≫= f).
Proof.
  intros Hm Hf w e. rewrite bind_state_eq. destruct (m w).1 as [a|e'| |] eqn:H; try done.
  - intros He. etrans; [by eapply Hf|apply Hm].
  - intros _. apply Hm.
Qed.
(** After the last possible error anything may be written. *)
Lemma clean_then {A D} (m : vfs world A) (f : A → vfs world D) :
  clean m → (∀ a, no_error (f a)) → clean (m ≫= f).
Proof.
  intros Hm Hf w e. rewrite bind_state_eq. destruct (m w).1 as [a|e'| |] eqn:H; try done.
  - intros He. by destruct (Hf a (m w).2 e).
  - intros [= <-]. by apply (Hm w e').
Qed.
Lemma no_error_bind {A D} (m : vfs world A) (f : A → vfs world D) :
  no_error m → (∀ a, no_error (f a)) → no_error (m ≫= f).
Proof.
  intros Hm Hf w e. rewrite bind_state_eq. destruct (m w).1 as [a|e'| |] eqn:H; try done.
  - apply Hf.
  - intros [= ->]. by destruct (Hm w e).
Qed.

Lemma quiet_ret {A} (a : A) : quiet (mret a).
Proof. done. Qed.
Lemma quiet_err {A} e : quiet (vfs_err (A:=A) e).
Proof. done. Qed.
Lemma quiet_check b e : quiet (check b e).
Proof. by destruct b. Qed.
Lemma quiet_get : quiet vfs_get.
Proof. done. Qed.
Lemma quiet_lift {A} (o : outcome Z A) : quiet (vfs_lift o).
Proof. done. Qed.
Lemma quiet_world {A} (f : world → outcome Z A) : quiet (from_world f).
Proof. done. Qed.
Lemma quiet_dm {A} (op : vfs (DriveManager S) A) : quiet (on_dm op).
Proof. intros w. unfold on_dm. by destruct (op _). Qed.
Lemma quiet_pipe {A} e hf (op : F → option A * F) : quiet (on_pipe e hf op).
Proof. intros w. unfold on_pipe. destruct (handle_get _ _) as [f|]; [|done]. by destruct (op f). Qed.
Lemma quiet_attempt {A} (m : vfs world A) : quiet m → quiet (attempt m).
Proof. intros H w. unfold attempt. specialize (H w). by destruct (m w) as [[] ?]. Qed.
Lemma quiet_modify f : (∀ w, mem (f w) = mem w) → quiet (modify f).
Proof. intros H w. apply H. Qed.
Lemma quiet_get_eas d r names : quiet (get_eas d r names).
Proof.
  induction names as [|n names IH]; [done|]. apply quiet_bind; [apply quiet_attempt, quiet_dm|].
  intros ea. by apply quiet_bind; [|done].
Qed.
Lemma no_error_modify f : no_error (modify f).
Proof. done. Qed.
Lemma no_error_attempt {A} (m : vfs world A) : no_error (attempt m).
Proof. intros w e. unfold attempt. by destruct (m w) as [[] ?]. Qed.
Lemma no_error_get : no_error vfs_get.
Proof. done. Qed.
Lemma quiet_io f : quiet (set_io f).
Proof. done. Qed.
Lemma quiet_print text cp : quiet (print_tty enc_decode text cp).
Proof. intros w. unfold print_tty. by destruct (Console.write_tty _ _ _ _ _) as [[]| | |]. Qed.
Lemma quiet_pipe_add f : quiet (pipe_add f).
Proof. intros w. unfold pipe_add. by destruct (handle_add _ _) as [[]| | |]. Qed.
Lemma no_error_ret {A} (a : A) : no_error (mret a).
Proof. done. Qed.
Lemma no_error_mem f : (∀ m, errless (f m)) → no_error (on_mem f).
Proof. intros H w e. unfold on_mem. specialize (H (mem w)). destruct (f (mem w)) as [|e'| |]; try done. cbn. intros [= ->]. by apply (H e). Qed.
Lemma no_error_lift {A} (o : outcome Z A) : errless o → no_error (vfs_lift o).
Proof. intros H w e. apply H. Qed.
Lemma no_error_write n p v : no_error (write_at n p v).
Proof. apply no_error_mem. intros ?. apply errless_ok. Qed.
Lemma no_error_write_opt n p v : no_error (write_opt n p v).
Proof. unfold write_opt. case_match; [done|]. apply no_error_write. Qed.
Lemma no_error_buf p l : no_error (write_buf p l).
Proof. apply no_error_mem. intros ?. apply errless_ok. Qed.
End calls.

#[export] Hint Resolve quiet_ret quiet_err quiet_check quiet_get quiet_lift quiet_world quiet_dm
  quiet_pipe quiet_io quiet_print quiet_pipe_add quiet_get_eas no_error_modify no_error_attempt
  no_error_get : clean.
#[export] Hint Resolve no_error_ret no_error_write no_error_write_opt no_error_buf : clean.

(** Split a call into its steps: quiet steps first, then the ones that cannot fail. *)
Ltac clean_split :=
  repeat match goal with
  | |- clean (match ?x with _ => _ end) => destruct x
  | |- clean (let _ := _ in _) => cbv zeta
  | |- quiet (match ?x with _ => _ end) => destruct x
  | |- no_error (match ?x with _ => _ end) => destruct x
  | |- quiet (_ ≫= _) => apply quiet_bind; [|intros ?]
  | |- no_error (_ ≫= _) => apply no_error_bind; [|intros ?]
  | |- clean (_ ≫= _) => first
      [ apply clean_bind; [solve [clean_split]|intros ?]
      | apply clean_then; [|intros ?; solve [clean_split]] ]
  | |- quiet (attempt _) => apply quiet_attempt
  | |- quiet (modify _) => apply quiet_modify; solve [intros ?; reflexivity]
  | |- no_error (on_mem _) => apply no_error_mem; intros ?; solve [errless]
  | |- no_error (vfs_lift _) => apply no_error_lift; solve [errless]
  | |- no_error (add32 _ _) => apply no_error_lift; solve [errless]
  | |- _ => progress auto with clean
  | |- clean _ => first [apply quiet_clean; solve [clean_split]|apply no_error_clean; solve [clean_split]]
  end.

(** The definition of the call in the goal. *)
Ltac unfold_call :=
  unfold dos_put_message, dos_open, dos_close, dos_read, dos_write, dos_set_file_ptr, dos_set_file_size,
    dos_protect_set_file_locks, dos_set_file_locks, lock_range_at, dos_force_delete, dos_delete,
    dos_move, dos_copy, dos_create_dir, dos_delete_dir, dos_query_path_info, compute_ea_size,
    dos_query_eas_from_list, dos_query_file_info, dos_reset_buffer, dos_enum_attribute,
    dos_find_close, dos_set_current_dir, dos_query_current_disk, dos_set_default_disk,
    dos_query_file_mode_16, dos_query_fs_info, dos_edit_name,
    dos_set_file_info, dos_set_file_mode, dos_set_path_info, dos_set_fh_state, dos_set_verify,
    dos_query_fh_state, dos_query_verify, dos_dev_ioctl, dos_dev_config, dos_query_h_type,
    dos_set_rel_max_fh, dos_get_info_seg, dos_dup_handle, dos_alloc_mem, dos_free_mem,
    dos_get_resource, dos_query_resource_size, find_res, dos_free_resource, dos_query_dbcs_env,
    guest_string, give_data, api_dos_write, read_at, add32, encode.
Ltac each_entry :=
  lazymatch goal with
  | |- List.Forall _ (_ :: _) => apply List.Forall_cons; [|each_entry]
  | |- List.Forall _ [] => apply List.Forall_nil
  end.

Section errors.
Context {B : Build} {S F C J : Type} {BE : VfsBackend S} {VB : VolumeBackend S} {HF : HostFile F}.
Context (enc_decode : Encoding → bytes → rstring) (enc_encode : Encoding → rstring → bytes).
Abbreviation world := (world (S:=S) (F:=F) (C:=C) (J:=J)) (only parsing).
Abbreviation file_calls := (file_calls (S:=S) (F:=F) (C:=C) (J:=J) enc_decode enc_encode).

(** Everything but the calls that report a needed size, or a count, along with an error. *)
Definition reporting : list string :=
  ["dos_query_current_dir"; "dos_query_fs_attach"; "dos_find_first"; "dos_find_next"]%string.

Lemma calls_clean :
  List.Forall (λ x, existsb (String.eqb x.1) reporting = false → ∀ l c, x.2 l = Some c →
            (x.1 = "dos_read"%string → head l ≠ Some 0) → clean c) file_calls.
Proof.
  unfold file_calls. each_entry.
  all: cbn [fst snd]; intros Hm l c Hc Hr; try discriminate Hm.
  all: repeat (destruct l as [|? l]; try discriminate Hc).
  all: apply (inj Some) in Hc; subst c; clear Hm.
  all: try (unfold at_once; apply clean_then; [|intros ?; apply no_error_ret]).
  all: try solve [unfold_call; clean_split].
  unfold dos_read. rewrite (proj2 (Z.eqb_neq z 0)); [unfold_call; clean_split|].
  intros ->. by apply Hr.
Qed.

(** C10: a call that fails leaves guest memory as it was.  Of all file calls, by their names in the
    registry and with any arguments, only the four that hand out a needed length or a count with
    their error ([reporting]), and a read from the terminal, may have written to the guest when
    they return an error code: the others first do everything that can fail, on whatever drives
    and host files, and write then. *)
Theorem error_keeps_memory method args c (w : world) e w' :
  find_call file_calls method args = Some c → method ∉ reporting →
  (method = "dos_read"%string → head args ≠ Some 0) →
  c w = (Err e, w') → mem w' = mem w.
Proof.
  intros (f & Hin & Hf)%find_call_inv Hm Hr Hc.
  pose proof (proj1 (List.Forall_forall _ _) calls_clean) as Hall.
  assert (existsb (String.eqb method) reporting = false) as Hm'.
  { apply not_true_iff_false. rewrite existsb_exists. intros (x & Hx & ->%String.eqb_eq).
    by apply Hm, list_elem_of_In. }
  specialize (Hall (method, f) ltac:(by apply list_elem_of_In) Hm' args c Hf Hr w e).
  rewrite Hc in Hall. by apply Hall.
Qed.
End errors.

(** * Which table a handle belongs to *)

(** A part of the state that a call does not touch. *)
Definition keeps {W X A} (part : W → X) (m : vfs W A) : Prop := ∀ w, part (m w).2 = part w.

Section keeps.
Context {W X : Type} (part : W → X).
Lemma keeps_bind {A D} (m : vfs W A) (f : A → vfs W D) :
  keeps part m → (∀ a, keeps part (f a)) → keeps part (m ≫= f).
Proof.
  intros Hm Hf w. unfold mbind, vfs_bind. specialize (Hm w).
  destruct (m w) as [[a|e| |] w1]; cbn in *; try done. by rewrite Hf.
Qed.
Lemma keeps_same {A} (m : vfs W A) : (∀ w, (m w).2 = w) → keeps part m.
Proof. intros H w. by rewrite H. Qed.
End keeps.

Create HintDb routing.

Section routing.
Context {B : Build} {S F C J : Type} {BE : VfsBackend S} {VB : VolumeBackend S} {HF : HostFile F}.
Context (enc_decode : Encoding → bytes → rstring) (enc_encode : Encoding → rstring → bytes).
Abbreviation world := (world (S:=S) (F:=F) (C:=C) (J:=J)) (only parsing).
Abbreviation file_calls := (file_calls (S:=S) (F:=F) (C:=C) (J:=J) enc_decode enc_encode).
Implicit Types w : world.

(** The parts that are neither memory nor the console. *)
Definition handle_part {X} (part : world → X) : Prop :=
  (∀ w m, part (with_mem w m) = part w) ∧ (∀ w i, part (with_io w i) = part w).
Lemma dm_part : handle_part dm.
Proof. done. Qed.
Lemma pipes_part : handle_part pipes.
Proof. done. Qed.

Section part.
Context {X : Type} (part : world → X) (Hpart : handle_part part).
Lemma keeps_mem f : keeps part (on_mem f).
Proof. intros w. unfold on_mem. destruct (f (mem w)); try done. apply Hpart. Qed.
Lemma keeps_io f : keeps part (set_io f).
Proof. intros w. apply Hpart. Qed.
Lemma keeps_print text cp : keeps part (print_tty enc_decode text cp).
Proof.
  intros w. unfold print_tty. destruct (Console.write_tty _ _ _ _ _) as [[]| | |]; try done. apply Hpart.
Qed.
Lemma keeps_write_opt n p v : keeps part (write_opt n p v).
Proof. unfold write_opt. case_match; [done|apply keeps_mem]. Qed.
Lemma keeps_give_char p q ch : keeps part (give_char p q ch).
Proof.
  apply keeps_bind; [apply keeps_mem|intros []]. apply keeps_bind; [apply keeps_write_opt|done].
Qed.
Lemma keeps_give_data p q data : keeps part (give_data p q data).
Proof. apply keeps_bind; [apply keeps_mem|intros []]. apply keeps_write_opt. Qed.
Lemma keeps_check b e : keeps part (check b e).
Proof. by destruct b. Qed.
Hint Resolve keeps_mem keeps_io keeps_print keeps_write_opt keeps_give_char keeps_give_data keeps_check : core.
Ltac keep :=
  repeat match goal with
  | |- keeps _ (_ ≫= _) => apply keeps_bind; [try done|intros ?]
  | |- keeps _ (match ?x with _ => _ end) => destruct x
  | |- _ => solve [auto | intros ?; reflexivity]
  end.
Lemma keeps_read_keys keys p q : keeps part (read_keys enc_decode keys p q).
Proof. induction keys; cbn [read_keys]; keep. Qed.
Lemma keeps_read_tty input p q : keeps part (read_tty input p q).
Proof. induction input as [|[]]; cbn [read_tty]; keep. Qed.
Lemma keeps_stdin p n q : keeps part (dos_read_stdin enc_decode p n q).
Proof.
  unfold dos_read_stdin. destruct (n =? 0); [keep|]. apply keeps_bind; [done|intros i].
  destruct (stdin_pending_lf i); [keep|]. destruct (use_sdl2_text i);
    [apply keeps_read_keys|apply keeps_read_tty].
Qed.
End part.
Hint Resolve keeps_mem keeps_io keeps_print keeps_write_opt keeps_give_char keeps_give_data
  keeps_check keeps_stdin dm_part pipes_part : routing.

Lemma dm_keeps_pipes {A} (op : vfs (DriveManager S) A) : keeps (W:=world) pipes (on_dm op).
Proof. intros w. unfold on_dm. by destruct (op _). Qed.
Lemma pipe_keeps_dm {A} e hf (op : F → option A * F) : keeps (W:=world) dm (on_pipe e hf op).
Proof. intros w. unfold on_pipe. destruct (handle_get _ _) as [f|]; [|done]. by destruct (op f). Qed.
Hint Resolve dm_keeps_pipes pipe_keeps_dm : routing.

(** An operation on a handle that the drive manager does not have. *)
Lemma no_file {A} h (op : Z → vfs S A) w :
  file_handles (dm w) !! h = None → on_dm (on_file h op) w = (Err E_INVALID_HANDLE, w).
Proof.
  intros Hh. unfold on_dm, on_file, mbind, vfs_bind, vfs_get. rewrite Hh. by destruct w.
Qed.

(** The calls on one handle. *)
Definition handle_methods : list string :=
  ["dos_close"; "dos_read"; "dos_write"; "dos_set_file_ptr"; "dos_set_file_size";
   "dos_query_file_info"; "dos_reset_buffer"]%string.
Definition routed (hf : Z) (c : vfs world turn) : Prop :=
  (PIPE_HANDLE_BASE ≤ hf → hf ≠ 0xFFFFFFFF → keeps dm c) ∧
  (hf < PIPE_HANDLE_BASE → keeps pipes c).

Ltac keep :=
  repeat match goal with
  | |- keeps _ (at_once _) => unfold at_once
  | |- keeps _ (_ ≫= _) => apply keeps_bind; [|intros ?]
  | |- keeps _ (match ?x with _ => _ end) => destruct x
  | |- _ => solve [auto with routing | intros ?; reflexivity]
  end.
Lemma calls_routed :
  List.Forall (λ x, existsb (String.eqb x.1) handle_methods = true → ∀ hf l c,
    x.2 (hf :: l) = Some c → routed hf c) file_calls.
Proof.
  unfold file_calls. each_entry. all: cbn [fst snd]; intros Hm hf l c Hc; try discriminate Hm.
  all: repeat (destruct l as [|? l]; try discriminate Hc).
  all: apply (inj Some) in Hc; subst c; clear Hm.
  all: split; intros Hb; [intros Hne|].
  all: unfold dos_close, dos_read, dos_write, dos_set_file_ptr, dos_set_file_size,
    dos_query_file_info, dos_reset_buffer, api_dos_write.
  all: first [rewrite (proj2 (Z.leb_le _ _) Hb)|rewrite (proj2 (Z.leb_gt _ _) Hb)].
  all: rewrite ?(proj2 (Z.eqb_neq hf 0xFFFFFFFF)) by (unfold PIPE_HANDLE_BASE in *; lia).
  all: keep.
Qed.

(** On a handle that is not open, nothing happens to the drives. *)
Definition inert {A} (hf : Z) (m : vfs world A) : Prop :=
  ∀ w, file_handles (dm w) !! hf = None → dm (m w).2 = dm w.
Lemma inert_bind {A D} hf (m : vfs world A) (f : A → vfs world D) :
  inert hf m → (∀ a, inert hf (f a)) → inert hf (m ≫= f).
Proof.
  intros Hm Hf w Hw. rewrite bind_state_eq. specialize (Hm w Hw).
  destruct (m w).1; try done. rewrite <- Hm. apply Hf. by rewrite Hm.
Qed.
Lemma inert_keeps {A} hf (m : vfs world A) : keeps dm m → inert hf m.
Proof. intros H w _. apply H. Qed.
Lemma inert_on_file {A} hf (op : Z → vfs S A) : inert hf (on_dm (on_file hf op)).
Proof. intros w Hw. by rewrite no_file. Qed.
Lemma inert_close hf : inert hf (on_dm (close_file hf)).
Proof.
  intros w Hw. unfold on_dm, close_file, mbind, vfs_bind, vfs_get. by rewrite Hw.
Qed.
Lemma inert_query hf level : inert hf (on_dm (query_file_info hf level)).
Proof.
  intros w Hw. unfold on_dm, query_file_info, mbind, vfs_bind, vfs_get. by rewrite Hw.
Qed.
Hint Resolve inert_on_file inert_close inert_query : routing.
Ltac inertness :=
  repeat match goal with
  | |- inert _ (at_once _) => unfold at_once
  | |- inert _ (_ ≫= _) => apply inert_bind; [|intros ?]
  | |- inert _ (match ?x with _ => _ end) => destruct x
  | |- _ => solve [auto with routing | apply inert_keeps; keep]
  end.
Lemma calls_inert :
  List.Forall (λ x, existsb (String.eqb x.1) handle_methods = true → ∀ hf l c,
    x.2 (hf :: l) = Some c → hf < PIPE_HANDLE_BASE → inert hf c) file_calls.
Proof.
  unfold file_calls. each_entry. all: cbn [fst snd]; intros Hm hf l c Hc; try discriminate Hm.
  all: repeat (destruct l as [|? l]; try discriminate Hc).
  all: apply (inj Some) in Hc; subst c; clear Hm; intros Hb.
  all: unfold dos_close, dos_read, dos_write, dos_set_file_ptr, dos_set_file_size,
    dos_query_file_info, dos_reset_buffer, api_dos_write, read_file, write_file, seek_file,
    set_file_size, flush_file.
  all: rewrite (proj2 (Z.leb_gt _ _) Hb).
  all: rewrite ?(proj2 (Z.eqb_neq hf 0xFFFFFFFF)) by (unfold PIPE_HANDLE_BASE in *; lia).
  all: inertness.
Qed.

(** A handle reaches the table it belongs to and no other.  A call on a handle of at least
    [PIPE_HANDLE_BASE] leaves the drives as they are, whatever it does to the pipe; one on a
    smaller handle leaves the pipe table as it is; and a handle the drive manager has not given
    out (the standard handles 0, 1 and 2 are never given out) changes no drive at all.
    (0xFFFFFFFF, all handles for DosResetBuffer, is not a handle.) *)
Theorem handles_routed method hf args c (w : world) :
  find_call file_calls method (hf :: args) = Some c → method ∈ handle_methods →
  (PIPE_HANDLE_BASE ≤ hf → hf ≠ 0xFFFFFFFF → dm (c w).2 = dm w) ∧
  (hf < PIPE_HANDLE_BASE → pipes (c w).2 = pipes w) ∧
  (hf < PIPE_HANDLE_BASE → file_handles (dm w) !! hf = None → dm (c w).2 = dm w) ∧
  (hf < 3 → dm_ok (dm w) → dm (c w).2 = dm w).
Proof.
  intros (f & Hin%list_elem_of_In & Hf)%find_call_inv Hm.
  assert (existsb (String.eqb method) handle_methods = true) as Hm'.
  { apply existsb_exists. exists method. split; [by apply list_elem_of_In|apply String.eqb_refl]. }
  pose proof (proj1 (List.Forall_forall _ _) calls_routed _ Hin Hm' hf args c Hf) as [Hp Hd].
  pose proof (proj1 (List.Forall_forall _ _) calls_inert _ Hin Hm' hf args c Hf) as Hi.
  split_and!; [by intros; apply Hp|by intros; apply Hd|by intros; apply Hi|].
  intros Hh Hok. apply Hi; [unfold PIPE_HANDLE_BASE; lia|].
  destruct (file_handles (dm w) !! hf) as [e|] eqn:He; [|done].
  apply (ok_files _ Hok) in He. lia.
Qed.

(** The handles of files are numbered without regard to [PIPE_HANDLE_BASE]: after 4093 opens
    DosOpen gives out 0x1000, and DosClose of that handle closes a pipe, if anything. *)
Lemma open_file_handle p m s f a (d d' : DriveManager S) h act :
  open_file p m s f a d = (Ok (h, act), d') →
  h = next_file_handle d ∧ is_Some (file_handles d' !! h).
Proof.
  unfold open_file. destruct (check_device_name p); [done|].
  intros ([dr rel] & d1 & H1 & H2)%bind_Ok. unfold resolve in H1. injection H1 as _ <-.
  apply bind_Ok in H2 as ([vh act'] & d2 & H2 & H3).
  assert (next_file_handle d2 = next_file_handle d) as Hn.
  { unfold on_drive in H2. destruct (idx _ _) as [[b|]|]; try done.
    destruct (be_open _ _ _ _ _ b) as [r b']. by injection H2 as _ <-. }
  apply bind_Ok in H3 as (d3 & d4 & [= <- <-] & H4).
  apply bind_Ok in H4 as (n & d5 & H4 & H5). unfold vfs_lift in H4. injection H4 as _ <-.
  apply bind_Ok in H5 as (u & d6 & [= <- <-] & [= <- <- <-]). split; [done|].
  cbn. rewrite lookup_insert_eq. by eexists.
Qed.
Lemma open_misrouted w a b c d e w' :
  next_file_handle (dm w) = PIPE_HANDLE_BASE →
  dos_open enc_decode a b c d e w = (Ok tt, w') →
  is_Some (file_handles (dm w') !! PIPE_HANDLE_BASE) ∧
  dm (dos_close PIPE_HANDLE_BASE w').2 = dm w'.
Proof.
  intros Hn Ho. split; [|done]. unfold dos_open in Ho.
  apply bind_Ok in Ho as (nm & w1 & H1 & Ho). unfold guest_string, from_world in H1.
  injection H1 as _ <-. apply bind_Ok in Ho as (mode & w2 & H2 & Ho).
  unfold vfs_lift in H2. injection H2 as _ <-. apply bind_Ok in Ho as ([h act] & w3 & H3 & Ho).
  assert (h = PIPE_HANDLE_BASE ∧ is_Some (file_handles (dm w3) !! h)) as [-> Hs].
  { unfold on_dm in H3. destruct (open_file _ _ _ _ _ (dm w)) as [r d'] eqn:Hop.
    injection H3 as -> <-. apply open_file_handle in Hop as [-> Hs]. by rewrite Hn in Hs |- *. }
  assert (dm w' = dm w3) as ->; [|done].
  assert (keeps dm (write_at 4 b PIPE_HANDLE_BASE;;
                    write_opt (S:=S) (F:=F) (C:=C) (J:=J) 4 c (action_code act))) as Hk by keep.
  specialize (Hk w3). by rewrite Ho in Hk.
Qed.
End routing.

(** * Witnesses *)

(** Deleting a file on a drive that is not there: error 15, and memory as before. *)
#[local] Instance demo_backend : VfsBackend HostDir.HostDirBackend :=
  HostDir.hostdir_backend (B := dev_profile) no_lock.
Definition demo_calls := file_calls (B := dev_profile) (S:=HostDir.HostDirBackend) (F:=bytes)
  (C:=unit) (J:=unit) (λ _ b, b) (λ _ s, s).
Definition delete_on_d : GuestMemory := store_bytes demo_mem 0x1000 (str "D:").
Lemma error_keeps_memory_witness :
  ∃ c w', find_call demo_calls "dos_delete" [0x1000] = Some c ∧
    c (with_mem demo_world delete_on_d) = (Err 15, w') ∧ mem w' = delete_on_d.
Proof.
  eexists. exists (snd (at_once (dos_delete (λ _ b, b) 0x1000)
                          (with_mem demo_world delete_on_d))).
  split; [reflexivity|]. split; [by vm_compute|].
  eapply (error_keeps_memory (B := dev_profile) (λ _ b, b) (λ _ s, s) "dos_delete" [0x1000] _
            (with_mem demo_world delete_on_d) 15); [reflexivity| |done|by vm_compute].
  apply (bool_decide_eq_false_1 _). by vm_compute.
Defined.

(** A read from the pipe leaves the drives alone, one from the file the pipes. *)
Lemma handles_routed_witness :
  ∃ c c', find_call demo_calls "dos_read" [PIPE_HANDLE_BASE; 0x1200; 4; 0] = Some c ∧
    find_call demo_calls "dos_read" [3; 0x1200; 5; 0] = Some c' ∧
    dm (c demo_world).2 = demo_dm ∧ pipes (c demo_world).2 ≠ pipes demo_world ∧
    pipes (c' demo_world).2 = pipes demo_world.
Proof.
  eexists _, _. split; [reflexivity|]. split; [reflexivity|]. split_and!.
  - eapply (proj1 (handles_routed (B := dev_profile) (λ _ b, b) (λ _ s, s) "dos_read" PIPE_HANDLE_BASE
              [0x1200; 4; 0] _ demo_world eq_refl _)); done.
  - intros H. apply (f_equal (λ p, handles p !! PIPE_HANDLE_BASE)) in H. by vm_compute in H.
  - eapply (proj1 (proj2 (handles_routed (B := dev_profile) (λ _ b, b) (λ _ s, s) "dos_read" 3
              [0x1200; 5; 0] _ demo_world eq_refl _))); done.
Unshelve.
  all: apply (bool_decide_eq_true_1 _); by vm_compute.
Defined.
