(* ===== verification/CmdParse.v ===== *)
(** The text part of the command shell (src/src/loader/cmd.rs): the flags of its command line,
    the tokens of a command, pipelines and redirections, and the date and time columns of DIR.

    [tokenize] runs over bytes in the source; the two bytes it looks for are characters of
    their own in UTF-8, so its cuts are between characters, as here. *)
From S2P Require Import Prelude Bytes Text Vfs.

Definition QUOTE := 0x22.
Definition BLANK := 0x20.
Definition LT := 0x3C.
Definition GT := 0x3E.
Definition BAR := 0x7C.

(** [tokenize], with the token begun so far ([start]). *)
Fixpoint tokenize_from (start : option rstring) (in_quote : bool) (s : rstring) : list rstring :=
  match s with
  | [] => match start with Some t => [t] | None => [] end
  | b :: s =>
    if b =? QUOTE then tokenize_from (Some (default [] start ++ [b])) (negb in_quote) s
    else if (b =? BLANK) && negb in_quote then
      match start with
      | Some t => t :: tokenize_from None in_quote s
      | None => tokenize_from None in_quote s
      end
    else tokenize_from (Some (default [] start ++ [b])) in_quote s
  end.
Definition tokenize (line : rstring) : list rstring := tokenize_from None false line.

(** [ParsedCommand] *)
Record ParsedCommand := mk_command {
  segments : list rstring;
  stdin_file : option rstring;
  stdout_redir : option (rstring * bool);
}.

(** A file name behind blanks: its characters and the rest. *)
Fixpoint skip_blanks (s : rstring) : rstring :=
  match s with c :: s' => if c =? BLANK then skip_blanks s' else s | [] => [] end.
Definition ends_name (c : Z) : bool := (c =? BLANK) || (c =? LT) || (c =? GT) || (c =? BAR).
Fixpoint take_name (s : rstring) : rstring * rstring :=
  match s with
  | c :: s' => if ends_name c then ([], s)
               else let '(n, r) := take_name s' in (c :: n, r)
  | [] => ([], [])
  end.
Definition redir_name (s : rstring) : rstring * rstring := take_name (skip_blanks s).

(** The [while] of [parse_command] and what follows it. *)
Fixpoint parse_loop (fuel : nat) (s : rstring) (segs : list rstring) (sin : option rstring)
    (sout : option (rstring * bool)) (current : rstring) (in_quote : bool)
    : outcome () ParsedCommand :=
  match fuel with
  | O => Diverge
  | S fuel =>
    match s with
    | [] =>
      let last := trim current in
      Ok (mk_command (if bool_decide (last ≠ []) || bool_decide (segs = []) then segs ++ [last]
                      else segs) sin sout)
    | ch :: s =>
      if ch =? QUOTE then parse_loop fuel s segs sin sout (current ++ [ch]) (negb in_quote)
      else if in_quote then parse_loop fuel s segs sin sout (current ++ [ch]) in_quote
      else if ch =? BAR then parse_loop fuel s (segs ++ [trim current]) sin sout [] in_quote
      else if ch =? GT then
        let append := bool_decide (head s = Some GT) in
        let '(fname, s) := redir_name (if append then tail s else s) in
        parse_loop fuel s segs sin (if bool_decide (fname = []) then sout else Some (fname, append))
          current in_quote
      else if ch =? LT then
        let '(fname, s) := redir_name s in
        parse_loop fuel s segs (if bool_decide (fname = []) then sin else Some fname) sout
          current in_quote
      else parse_loop fuel s segs sin sout (current ++ [ch]) in_quote
    end
  end.
Definition parse_command (line : rstring) : outcome () ParsedCommand :=
  parse_loop (S (length line)) line [] None None [] false.

(** [parse_shell_flags] *)
Section flags.
Context (to_uppercase : Z → rstring).
Definition upper (s : rstring) : rstring := flat_map to_uppercase s.
Definition flag_rest (arg_str : rstring) : outcome Z (option rstring) :=
  r ← str_from 2 arg_str;
  let cmd := trim r in
  Ok (if bool_decide (cmd = []) then None else Some cmd).
Definition parse_shell_flags (args : list rstring) : outcome Z (bool * option rstring) :=
  match args with
  | _ :: (_ :: _ as s) :: _ =>
    let arg_str := trim s in
    let u := upper arg_str in
    if starts_with (str "/C ") u || bool_decide (u = str "/C") then
      cmd ← flag_rest arg_str; Ok (true, cmd)
    else if starts_with (str "/K ") u || bool_decide (u = str "/K") then
      cmd ← flag_rest arg_str; Ok (false, cmd)
    else Ok (false, Some arg_str)
  | _ => Ok (false, None)
  end.
End flags.

(** [format_dos_date] and [format_dos_time]; [{:02}], [{:2}] and the like of an integer. *)
Definition pad_left (c : Z) (w : nat) (s : rstring) : rstring := replicate (w - length s) c ++ s.
Definition num (c : Z) (w : nat) (n : Z) : rstring := pad_left c w (dec_str n).
Definition format_dos_date (date : Z) : rstring :=
  let day := Z.land date 0x1F in
  let month := Z.land (Z.shiftr date 5) 0x0F in
  let year := Z.land (Z.shiftr date 9) 0x7F + 1980 in
  num 0x30 2 month ++ str "-" ++ num 0x30 2 day ++ str "-" ++ num 0x30 2 (year mod 100).
Definition format_dos_time (time : Z) : rstring :=
  let hour := Z.land (Z.shiftr time 11) 0x1F in
  let minute := Z.land (Z.shiftr time 5) 0x3F in
  let '(h12, ampm) := if hour =? 0 then (12, str "a")
                      else if hour <? 12 then (hour, str "a")
                      else if hour =? 12 then (12, str "p")
                      else (hour - 12, str "p") in
  num BLANK 2 h12 ++ str ":" ++ num 0x30 2 minute ++ ampm.

(** The cases of the source's unit tests. *)
Example tokenize_quoted :
  tokenize (str "TYPE " ++ [QUOTE] ++ str "my file.txt" ++ [QUOTE] ++ str "  x") =
  [str "TYPE"; [QUOTE] ++ str "my file.txt" ++ [QUOTE]; str "x"].
Proof. reflexivity. Qed.
Example parse_redirections :
  parse_command (str "SORT <in.txt >> out.txt | MORE") =
  Ok (mk_command [str "SORT"; str "MORE"] (Some (str "in.txt")) (Some (str "out.txt", true))).
Proof. vm_compute. reflexivity. Qed.
Example date_2024 : format_dos_date (Z.lor (Z.shiftl 44 9) (Z.lor (Z.shiftl 3 5) 15)) = str "03-15-24".
Proof. vm_compute. reflexivity. Qed.
Example time_afternoon : format_dos_time (Z.lor (Z.shiftl 15 11) (Z.shiftl 45 5)) = str " 3:45p".
Proof. vm_compute. reflexivity. Qed.

(** * Lemmas *)

(** Text without white space at its ends. *)
Definition solid (s : rstring) : Prop :=
  ∃ c d, head s = Some c ∧ last s = Some d ∧ is_whitespace c = false ∧ is_whitespace d = false.
Lemma trim_start_blanks a s : Forall (λ c, is_whitespace c = true) a → trim_start (a ++ s) = trim_start s.
Proof. induction 1 as [|c a Hc _ IH]; [done|]. unfold trim_start in *. cbn [trim_start_by app]. by rewrite Hc. Qed.
Lemma trim_start_solid c s : is_whitespace c = false → trim_start (c :: s) = c :: s.
Proof. intros Hc. unfold trim_start. cbn [trim_start_by]. by rewrite Hc. Qed.
Lemma trim_edges a s b :
  Forall (λ c, is_whitespace c = true) a → Forall (λ c, is_whitespace c = true) b → solid s →
  trim (a ++ s ++ b) = s.
Proof.
  intros Ha Hb (c & d & Hc & Hd & Hwc & Hwd). unfold trim. rewrite trim_start_blanks by done.
  destruct s as [|c' s]; [done|]. injection Hc as ->. cbn [app]. rewrite trim_start_solid by done.
  rewrite app_comm_cons. unfold trim_end, trim_end_by. change (trim_start_by is_whitespace) with trim_start.
  rewrite rev_app_distr, trim_start_blanks.
  - destruct (exists_last (l:=c :: s)) as (l & x & Heq); [done|]. rewrite Heq in *.
    rewrite rev_app_distr. cbn [rev app]. rewrite last_snoc in Hd. injection Hd as ->.
    rewrite trim_start_solid by done. cbn [rev]. by rewrite rev_involutive.
  - by apply List.Forall_rev.
Qed.

(** ** Tokens *)

(** Quotes are closed and no blank is outside of them; [q]: inside a quote. *)
Fixpoint closed (q : bool) (w : rstring) : bool :=
  match w with
  | [] => negb q
  | c :: w => if c =? QUOTE then closed (negb q) w else (q || negb (c =? BLANK)) && closed q w
  end.
Definition word (w : rstring) : Prop := w ≠ [] ∧ closed false w = true.
Lemma tokenize_word st q w rest :
  closed q w = true →
  tokenize_from st q (w ++ rest) = tokenize_from (if bool_decide (w = []) then st else Some (default [] st ++ w)) false rest.
Proof.
  revert st q. induction w as [|c w IH]; intros st q; cbn [closed app tokenize_from].
  { by destruct q. }
  rewrite (bool_decide_false (c :: w = [])) by done.
  assert (∀ q', closed q' w = true →
    tokenize_from (Some (default [] st ++ [c])) q' (w ++ rest) = tokenize_from (Some (default [] st ++ c :: w)) false rest) as H.
  { intros q' Hq. rewrite (IH _ _ Hq). case_bool_decide as Hw; [by subst w|]. cbn [default id].
    by rewrite <- (assoc_L (++)). }
  destruct (c =? QUOTE); [by apply H|]. rewrite andb_true_iff. intros [Hc Hcl].
  destruct (c =? BLANK); [|by apply H]. destruct q; [by apply H|done].
Qed.
Lemma tokenize_blanks n rest : tokenize_from None false (replicate n BLANK ++ rest) = tokenize_from None false rest.
Proof. by induction n. Qed.
(** A line of words with blanks before each and at the end. *)
Definition spaced (ws : list (nat * rstring)) (k : nat) : rstring :=
  concat (map (λ p, replicate p.1 BLANK ++ p.2) ws) ++ replicate k BLANK.
Lemma tokenize_spaced ws k :
  Forall (λ p, word p.2) ws → Forall (λ p, (0 < p.1)%nat) (tail ws) → tokenize (spaced ws k) = map snd ws.
Proof.
  unfold tokenize, spaced. destruct ws as [|[n w] ws]; intros Hw Hn.
  { cbn [map concat app]. rewrite <- (app_nil_r (replicate k BLANK)). by rewrite tokenize_blanks. }
  apply Forall_cons in Hw as [[Hne Hcl] Hw]. cbn [map concat fst snd tail] in *. rewrite <- !(assoc_L (++)), tokenize_blanks.
  rewrite tokenize_word, bool_decide_false by done. cbn [default id app]. clear Hcl n Hne.
  revert w. induction Hn as [|[m v] ws Hm Hn IH] in Hw |- *; intros w; cbn [map concat app].
  { destruct k as [|k]; [done|]. cbn [replicate tokenize_from]. f_equal.
    rewrite <- (app_nil_r (replicate k BLANK)). by rewrite tokenize_blanks. }
  apply Forall_cons in Hw as [[Hne Hcl] Hw]. cbn [fst snd] in *.
  destruct m as [|m]; [lia|]. rewrite <- !(assoc_L (++)). cbn [replicate app tokenize_from].
  f_equal. rewrite tokenize_blanks, tokenize_word, bool_decide_false by done. by apply IH.
Qed.

(** ** Pipelines and redirections *)

Definition special (c : Z) : bool := (c =? BAR) || (c =? GT) || (c =? LT).
(** Quotes are closed and no special character is outside of them. *)
Fixpoint plain (q : bool) (s : rstring) : bool :=
  match s with
  | [] => negb q
  | c :: s => if c =? QUOTE then plain (negb q) s else (q || negb (special c)) && plain q s
  end.
Definition name_ok (n : rstring) : Prop := n ≠ [] ∧ Forall (λ c, ends_name c = false) n.

Lemma parse_plain fuel p rest segs sin sout cur q :
  plain q p = true → (length (p ++ rest) < fuel)%nat →
  ∃ fuel', (length rest < fuel')%nat ∧
    parse_loop fuel (p ++ rest) segs sin sout cur q = parse_loop fuel' rest segs sin sout (cur ++ p) false.
Proof.
  revert fuel cur q. induction p as [|c p IH]; intros fuel cur q; cbn [plain app length].
  { rewrite app_nil_r. destruct q; [done|]. by exists fuel. }
  intros Hp Hf. destruct fuel as [|fuel]; [lia|]. cbn [parse_loop].
  assert (∀ q', plain q' p = true → ∃ fuel', (length rest < fuel')%nat ∧
    parse_loop fuel (p ++ rest) segs sin sout (cur ++ [c]) q' = parse_loop fuel' rest segs sin sout (cur ++ c :: p) false) as H.
  { intros q' Hq. destruct (IH fuel (cur ++ [c]) q' Hq) as (f' & Hf' & ->); [lia|]. exists f'. split; [done|].
    by rewrite <- (assoc_L (++)). }
  destruct (c =? QUOTE); [by apply H|]. apply andb_true_iff in Hp as [Hc Hp]. destruct q; [by apply H|].
  unfold special in Hc. cbn [orb] in Hc. apply negb_true_iff in Hc. rewrite !orb_false_iff in Hc. destruct Hc as [[-> ->] ->].
  by apply H.
Qed.
Lemma skip_blanks_app n s : skip_blanks (replicate n BLANK ++ s) = skip_blanks s.
Proof. by induction n. Qed.
Lemma take_name_app n rest :
  Forall (λ c, ends_name c = false) n → (∀ c, head rest = Some c → ends_name c = true) →
  take_name (n ++ rest) = (n, rest).
Proof.
  intros Hn Hr. induction Hn as [|c n Hc Hn IH]; cbn [app take_name].
  - destruct rest as [|c rest]; [done|]. cbn [take_name]. by rewrite Hr.
  - by rewrite Hc, IH.
Qed.
Lemma redir_name_app k n rest :
  name_ok n → (∀ c, head rest = Some c → ends_name c = true) →
  redir_name (replicate k BLANK ++ n ++ rest) = (n, rest).
Proof.
  intros [Hne Hn] Hr. unfold redir_name. rewrite skip_blanks_app.
  replace (skip_blanks (n ++ rest)) with (n ++ rest); [by apply take_name_app|].
  destruct n as [|c n]; [done|]. apply Forall_cons in Hn as [Hc _]. cbn [app skip_blanks].
  unfold ends_name in Hc. rewrite !orb_false_iff in Hc. by destruct Hc as [[[-> _] _] _].
Qed.

(** A command line: segments between bars, then the redirections. *)
Definition sin_text (sin : option rstring) : rstring :=
  match sin with Some n => LT :: BLANK :: n ++ [BLANK] | None => [] end.
Definition sout_text (sout : option (rstring * bool)) : rstring :=
  match sout with
  | Some (n, append) => (if append then [GT; GT] else [GT]) ++ BLANK :: n
  | None => []
  end.
Fixpoint bars (segs : list rstring) : rstring :=
  match segs with
  | [] => []
  | [s] => s ++ [BLANK]
  | s :: segs => s ++ BLANK :: BAR :: BLANK :: bars segs
  end.
Definition command_text (c : ParsedCommand) : rstring :=
  bars (segments c) ++ sin_text (stdin_file c) ++ sout_text (stdout_redir c).
Definition segment_ok (s : rstring) : Prop := solid s ∧ plain false s = true.
Definition command_ok (c : ParsedCommand) : Prop :=
  segments c ≠ [] ∧ Forall segment_ok (segments c) ∧ from_option name_ok True (stdin_file c) ∧
  from_option (λ p, name_ok p.1) True (stdout_redir c).

Lemma is_whitespace_blank : is_whitespace BLANK = true.
Proof. done. Qed.
Lemma parse_redirs fuel segs cur c :
  (length (sin_text (stdin_file c) ++ sout_text (stdout_redir c)) < fuel)%nat →
  from_option name_ok True (stdin_file c) → from_option (λ p, name_ok p.1) True (stdout_redir c) →
  trim cur ≠ [] → (∀ l, trim (cur ++ replicate l BLANK) = trim cur) →
  parse_loop fuel (sin_text (stdin_file c) ++ sout_text (stdout_redir c)) segs None None cur false =
  Ok (mk_command (segs ++ [trim cur]) (stdin_file c) (stdout_redir c)).
Proof.
  intros Hf Hsin Hsout Hne Ht.
  assert (Hend : ∀ fuel sin sout l, (0 < fuel)%nat → parse_loop fuel [] segs sin sout (cur ++ replicate l BLANK) false =
    Ok (mk_command (segs ++ [trim cur]) sin sout)).
  { intros [|f] sin sout l H0; [lia|]. cbn [parse_loop]. rewrite Ht. by rewrite (bool_decide_true _ Hne). }
  assert (Hout : ∀ fuel sin l, (length (sout_text (stdout_redir c)) < fuel)%nat →
    parse_loop fuel (sout_text (stdout_redir c)) segs sin None (cur ++ replicate l BLANK) false =
    Ok (mk_command (segs ++ [trim cur]) sin (stdout_redir c))).
  { intros f sin l Hlen. destruct (stdout_redir c) as [[n a]|]; cbn [sout_text] in *; [|apply Hend; simpl in Hlen; lia].
    destruct f as [|f]; [lia|]. rewrite length_app in Hlen.
    assert (parse_loop (S f) ((if a then [GT; GT] else [GT]) ++ BLANK :: n) segs sin None (cur ++ replicate l BLANK) false =
      parse_loop f [] segs sin (Some (n, a)) (cur ++ replicate l BLANK) false) as ->.
    { pose proof Hsout as [Hn0 _]. cbn [fst] in Hn0. pose proof (redir_name_app 1 n [] Hsout ltac:(done)) as Hr. rewrite app_nil_r in Hr. cbn [replicate app] in Hr.
      destruct a; cbn [app parse_loop];
        change (GT =? QUOTE) with false; change (GT =? BAR) with false; change (GT =? GT) with true; cbv iota.
      - change (bool_decide (head (GT :: BLANK :: n) = Some GT)) with true. cbv iota zeta. cbn [tail].
        by rewrite Hr, bool_decide_false by exact Hn0.
      - change (bool_decide (head (BLANK :: n) = Some GT)) with false. cbv iota zeta.
        by rewrite Hr, bool_decide_false by exact Hn0. }
    apply Hend. destruct a; simpl in Hlen; lia. }
  destruct (stdin_file c) as [n|]; cbn [sin_text] in *.
  2: { specialize (Hout fuel None O). cbn [replicate] in Hout. rewrite app_nil_r in Hout. by apply Hout. }
  destruct fuel as [|fuel]; [lia|]. cbn [app parse_loop] in *. change (LT =? QUOTE) with false.
  change (LT =? BAR) with false. change (LT =? GT) with false. change (LT =? LT) with true. cbv iota.
  pose proof (redir_name_app 1 n ([BLANK] ++ sout_text (stdout_redir c)) Hsin) as Hr.
  cbn [replicate app] in Hr. rewrite <- (assoc_L (++)). cbn [app]. rewrite Hr by (by intros ? [= <-]).
  rewrite (bool_decide_false (n = [])) by exact (proj1 Hsin). destruct fuel as [|fuel]; [simpl in Hf; lia|].
  cbn [parse_loop]. change (BLANK =? QUOTE) with false. change (BLANK =? BAR) with false.
  change (BLANK =? GT) with false. change (BLANK =? LT) with false. cbv iota.
  apply (Hout fuel (Some n) 1%nat). simpl in Hf. rewrite length_app in Hf. simpl in Hf. rewrite length_app in Hf. simpl in Hf. lia.
Qed.

Lemma plain_app q a b : plain q a = true → plain false b = true → plain q (a ++ b) = true.
Proof.
  revert q. induction a as [|c a IH]; intros q; cbn [plain app]; [by destruct q|].
  destruct (c =? QUOTE); [apply IH|]. rewrite !andb_true_iff. naive_solver.
Qed.
Lemma trim_segment k s l : solid s → trim ((replicate k BLANK ++ s ++ [BLANK]) ++ replicate l BLANK) = s.
Proof.
  intros Hs. rewrite <- !(assoc_L (++)). apply trim_edges; [..|done].
  - by apply Forall_replicate.
  - constructor; [done|]. by apply Forall_replicate.
Qed.
Lemma solid_ne s : solid s → s ≠ [].
Proof. by intros (? & ? & ? & _) ->. Qed.

Lemma parse_segments c segs fuel acc k :
  segs ≠ [] → Forall segment_ok segs →
  (length (bars segs ++ sin_text (stdin_file c) ++ sout_text (stdout_redir c)) < fuel)%nat →
  from_option name_ok True (stdin_file c) → from_option (λ p, name_ok p.1) True (stdout_redir c) →
  parse_loop fuel (bars segs ++ sin_text (stdin_file c) ++ sout_text (stdout_redir c)) acc None None
    (replicate k BLANK) false =
  Ok (mk_command (acc ++ segs) (stdin_file c) (stdout_redir c)).
Proof.
  intros Hne Hs. revert fuel acc k Hne. induction Hs as [|s segs [Hsol Hpl] Hs IH]; intros fuel acc k Hne Hf Hsin Hsout; [done|].
  assert (plain false (s ++ [BLANK]) = true) as Hp by by apply plain_app.
  pose proof (trim_segment k s) as Ht.
  destruct segs as [|s2 segs].
  - cbn [bars] in *. destruct (parse_plain fuel (s ++ [BLANK]) _ acc None None (replicate k BLANK) false Hp Hf)
      as (f' & Hf' & ->).
    pose proof (Ht 0%nat Hsol) as Ht0. cbn [replicate] in Ht0. rewrite app_nil_r in Ht0.
    rewrite parse_redirs; [by rewrite Ht0|done..| |].
    + rewrite Ht0. by apply solid_ne.
    + intros l. by rewrite Ht, Ht0.
  - change (bars (s :: s2 :: segs)) with (s ++ BLANK :: BAR :: BLANK :: bars (s2 :: segs)) in *.
    replace ((s ++ BLANK :: BAR :: BLANK :: bars (s2 :: segs)) ++ sin_text (stdin_file c) ++ sout_text (stdout_redir c))
      with ((s ++ [BLANK]) ++ BAR :: BLANK :: bars (s2 :: segs) ++ sin_text (stdin_file c) ++ sout_text (stdout_redir c)) in *
      by (rewrite <- !(assoc_L (++)); done).
    destruct (parse_plain fuel (s ++ [BLANK]) _ acc None None (replicate k BLANK) false Hp Hf) as (f' & Hf' & ->).
    pose proof (Ht 0%nat Hsol) as Ht0. cbn [replicate] in Ht0. rewrite app_nil_r in Ht0.
    destruct f' as [|[|f']]; [simpl in Hf'; lia|simpl in Hf'; lia|]. cbn [length] in Hf'.
    replace (acc ++ s :: s2 :: segs) with ((acc ++ [s]) ++ s2 :: segs) by (by rewrite <- (assoc_L (++))).
    rewrite <- (IH f' (acc ++ [s]) 1%nat) by (done || lia).
    cbn [parse_loop]. change (BAR =? QUOTE) with false. change (BAR =? BAR) with true. cbv iota.
    rewrite Ht0. change (BLANK =? QUOTE) with false. change (BLANK =? BAR) with false.
    change (BLANK =? GT) with false. change (BLANK =? LT) with false. done.
Qed.

(** Words separated by single blanks. *)
Definition unwords (ws : list rstring) : rstring :=
  match ws with [] => [] | w :: ws => w ++ concat (map (cons BLANK) ws) end.
Definition arg_ok (w : rstring) : Prop := closed false w = true ∧ plain false w = true ∧ solid w.
Lemma tokenize_unwords ws : ws ≠ [] → Forall arg_ok ws → tokenize (unwords ws) = ws.
Proof.
  destruct ws as [|w ws]; [done|]. intros _ [(Hc & _ & Hs) Hws]%Forall_cons.
  replace (unwords (w :: ws)) with (spaced ((0%nat, w) :: map (pair 1%nat) ws) 0).
  - rewrite tokenize_spaced; cbn [map snd tail].
    + f_equal. rewrite map_map. apply map_id.
    + constructor; [split; [by apply solid_ne|done]|]. apply Forall_map.
      eapply Forall_impl; [exact Hws|]. intros v (Hv & _ & Hvs). split; [by apply solid_ne|done].
    + apply Forall_map, Forall_true. cbn. lia.
  - unfold spaced, unwords. cbn [map concat fst snd replicate app]. by rewrite app_nil_r, map_map.
Qed.
Lemma unwords_ok ws : ws ≠ [] → Forall arg_ok ws → segment_ok (unwords ws).
Proof.
  destruct ws as [|w ws]; [done|]. intros _ [(Hc & Hp & Hs) Hws]%Forall_cons. split.
  - destruct Hs as (c & d & Hhd & Hl & Hwc & Hwd). cbn [unwords].
    destruct ws as [|v ws'] using rev_ind; [cbn; rewrite app_nil_r; by exists c, d|]. clear IHws'.
    apply Forall_app in Hws as [_ [(_ & _ & (c' & d' & _ & Hl' & _ & Hwd')) _]%Forall_cons].
    exists c, d'. rewrite map_app, concat_app. cbn [map concat]. rewrite app_nil_r. split_and!; [|..|done|done].
    + destruct w; [done|]. done.
    + rewrite (assoc_L (++)). change (BLANK :: v) with ([BLANK] ++ v). rewrite (assoc_L (++)), last_app, Hl'. done.
  - cbn [unwords]. clear Hc Hs. apply plain_app; [done|]. induction Hws as [|v ws (_ & Hv & _) _ IH]; [done|].
    cbn [map concat]. apply (plain_app false (BLANK :: v)); [|done]. done.
Qed.

(** C21: the shell understands the command lines it is given.  A line written from programs with
    their arguments (words, where a blank or a special character stands inside quotes), joined
    by bars, with at most one input and one output redirection at its end, is split into exactly
    these commands and redirections, and each command into exactly its words. *)
Theorem command_understood (cmds : list (list rstring)) (sin : option rstring)
    (sout : option (rstring * bool)) :
  let c := mk_command (map unwords cmds) sin sout in
  cmds ≠ [] → Forall (λ ws, ws ≠ [] ∧ Forall arg_ok ws) cmds →
  from_option name_ok True sin → from_option (λ p, name_ok p.1) True sout →
  parse_command (command_text c) = Ok c ∧ map tokenize (segments c) = cmds.
Proof.
  intros c Hne Hc Hsin Hsout. subst c. cbn [segments]. split.
  - unfold parse_command, command_text. cbn [segments stdin_file stdout_redir].
    apply (parse_segments (mk_command (map unwords cmds) sin sout) (map unwords cmds) _ [] 0%nat); cbn [stdin_file stdout_redir].
    + by destruct cmds.
    + apply Forall_map. eapply Forall_impl; [exact Hc|]. intros ws [Hw Ha]. by apply unwords_ok.
    + lia.
    + done.
    + done.
  - rewrite map_map. clear Hne. induction Hc as [|ws cmds [Hw Ha] _ IH]; cbn [map]; [done|].
    by rewrite tokenize_unwords, IH.
Qed.
Lemma command_understood_witness :
  let q := [QUOTE] ++ str "a | b" ++ [QUOTE] in
  parse_command (str "FIND " ++ q ++ str " | SORT < in > out") =
    Ok (mk_command [str "FIND " ++ q; str "SORT"] (Some (str "in")) (Some (str "out", false))) ∧
  map tokenize [str "FIND " ++ q; str "SORT"] = [[str "FIND"; q]; [str "SORT"]].
Proof.
  cbv zeta. apply (command_understood [[str "FIND"; [QUOTE] ++ str "a | b" ++ [QUOTE]]; [str "SORT"]]
    (Some (str "in")) (Some (str "out", false))).
  - done.
  - repeat constructor; try done; eexists _, _; split_and!; reflexivity.
  - split; [done|]. by repeat constructor.
  - split; [done|]. by repeat constructor.
Defined.
