(* ===== verification/CmdLine.v ===== *)
(** The terminal side of the command shell (src/src/loader/cmd.rs): its state, where its output
    goes and its input comes from, the keys, the line editor, the history and the prompt.

    What other threads do to the shell while it waits is the list [events], in the order the
    shell sees them: a key in the queue of the window, a byte of the terminal, a read that
    timed out, the request to exit.  [WaitsForKey]: the shell waits and nothing else comes.
    The switch of the terminal to raw mode has no effect on the state here. *)
From S2P Require Import Prelude Bytes Codepage Console Text CmdParse.
From S2P Require Vfs Managers.

Definition HISTORY_SIZE := 20.
Definition ATTR_NORMAL := 0x07.
Definition ATTR_HEADER := 0x0B.
Definition ATTR_ERROR := 0x0C.
Definition SCAN_BACKSPACE := 0x0E.
Definition SCAN_ENTER := 0x1C.
Definition SCAN_ESCAPE := 0x01.
Definition SCAN_UP := 0x48.
Definition SCAN_DOWN := 0x50.

(** [KbdKeyInfo] *)
Record KbdKeyInfo := mk_key { ch : Z; scan : Z; kstate : Z }.
Inductive event := Pressed (ki : KbdKeyInfo) | Byte (b : Z) | Timeout | Quit.
Inductive blocked := WaitsForKey.

Inductive ReadResult := Line (line : rstring) | Eof.
(** [OutputSink], with the host's number for a file; [InputSource] *)
Inductive OutputSink := Vio | File (fd : Z) | Buffer (v : bytes).
Inductive InputSource := Kbd | Lines (lines : list rstring).

(** The host as the shell uses it: files to redirect to and read from, and programs. The texts
    are those of the host's errors. A file is named by a path or by the text of a relative one;
    [host_spawn] gives the pieces in which the output of the program arrives. *)
Class ShellHost (H : Type) := {
  host_open : HostFs.path + rstring → bool → H → (Z + rstring) * H;
  host_write_all : Z → bytes → H → H;
  host_read_to_string : HostFs.path → H → rstring + rstring;
  host_read : HostFs.path → H → bytes + rstring;
  host_exe : H → HostFs.path + rstring;
  host_cwd : H → option HostFs.path;
  host_is_dir : HostFs.path → H → bool;
  host_spawn : HostFs.path → HostFs.path → list rstring → option HostFs.path → H → (list bytes + rstring) * H;
}.

(** The part of [SharedState] the shell works on, and [CmdShell]. *)
Record Shared (S H : Type) := mk_shared {
  drive_mgr : Vfs.DriveManager S;
  console_mgr : VioManager;
  printed : bytes;
  active_codepage : Z;
  use_sdl2_text : bool;
  events : list event;
  exit_requested : bool;
  pm_current_dir : rstring;
  env : gmap rstring rstring;
  host : H;
}.
Arguments mk_shared {S H}.
Arguments drive_mgr {S H}.
Arguments console_mgr {S H}.
Arguments printed {S H}.
Arguments active_codepage {S H}.
Arguments use_sdl2_text {S H}.
Arguments events {S H}.
Arguments exit_requested {S H}.
Arguments pm_current_dir {S H}.
Arguments env {S H}.
Arguments host {S H}.
Record CmdShell (S H : Type) := mk_shell {
  shared : Shared S H;
  history : list rstring;
  output_sink : OutputSink;
  input_source : InputSource;
}.
Arguments mk_shell {S H}.
Arguments shared {S H}.
Arguments history {S H}.
Arguments output_sink {S H}.
Arguments input_source {S H}.

Section state.
Context {S H : Type}.
Implicit Types (g : Shared S H) (s : CmdShell S H).
Definition new_shell g : CmdShell S H := mk_shell g [] Vio Kbd.
Definition with_drive_mgr d g : Shared S H :=
  mk_shared d (console_mgr g) (printed g) (active_codepage g) (use_sdl2_text g) (events g)
    (exit_requested g) (pm_current_dir g) (env g) (host g).
Definition with_screen v o g : Shared S H :=
  mk_shared (drive_mgr g) v (printed g ++ o) (active_codepage g) (use_sdl2_text g) (events g)
    (exit_requested g) (pm_current_dir g) (env g) (host g).
Definition with_events l q g : Shared S H :=
  mk_shared (drive_mgr g) (console_mgr g) (printed g) (active_codepage g) (use_sdl2_text g) l
    q (pm_current_dir g) (env g) (host g).
Definition with_dir d g : Shared S H :=
  mk_shared (drive_mgr g) (console_mgr g) (printed g) (active_codepage g) (use_sdl2_text g)
    (events g) (exit_requested g) d (env g) (host g).
Definition with_env e g : Shared S H :=
  mk_shared (drive_mgr g) (console_mgr g) (printed g) (active_codepage g) (use_sdl2_text g)
    (events g) (exit_requested g) (pm_current_dir g) e (host g).
Definition with_host h g : Shared S H :=
  mk_shared (drive_mgr g) (console_mgr g) (printed g) (active_codepage g) (use_sdl2_text g)
    (events g) (exit_requested g) (pm_current_dir g) (env g) h.
Definition with_shared g s : CmdShell S H := mk_shell g (history s) (output_sink s) (input_source s).
Definition with_history h s : CmdShell S H := mk_shell (shared s) h (output_sink s) (input_source s).
Definition with_sink k s : CmdShell S H := mk_shell (shared s) (history s) k (input_source s).
Definition with_source i s : CmdShell S H := mk_shell (shared s) (history s) (output_sink s) i.
End state.

(** * The monad of the shell *)

Definition cmd (S H A : Type) : Type := CmdShell S H → outcome blocked A * CmdShell S H.
#[export] Instance cmd_ret S H : MRet (cmd S H) := λ A a s, (Ok a, s).
#[export] Instance cmd_bind S H : MBind (cmd S H) := λ A B f m s,
  let '(r, s) := m s in
  match r with
  | Ok a => f a s
  | Err e => (Err e, s)
  | Panic => (Panic, s)
  | Diverge => (Diverge, s)
  end.

Section shell.
Context {B : Build} {S H : Type} {BE : Vfs.VfsBackend S} {HO : ShellHost H}.
Context (enc_decode : Encoding → bytes → rstring).

Abbreviation sh := (cmd S H) (only parsing).

Definition get : sh (CmdShell S H) := λ s, (Ok s, s).
Definition modify (f : CmdShell S H → CmdShell S H) : sh () := λ s, (Ok tt, f s).
Definition modify_shared (f : Shared S H → Shared S H) : sh () :=
  modify (λ s, with_shared (f (shared s)) s).
Definition lift_out {A} (m : outcome blocked A) : sh A := λ s, (m, s).
Definition repeat_sh (n : nat) (m : sh ()) : sh () := Nat.iter n (λ k, m;; k) (mret tt).
Fixpoint each {A} (l : list A) (f : A → sh ()) : sh () :=
  match l with [] => mret tt | a :: l => f a;; each l f end.
(** A call of the drive manager: its value or its error. *)
Definition drive_call {A} (m : Vfs.vfs (Vfs.DriveManager S) A) : sh (A + Z) := λ s,
  let '(r, d) := m (drive_mgr (shared s)) in
  (match r with Ok a => Ok (inl a) | Err e => Ok (inr e) | Panic => Panic | Diverge => Diverge end,
   with_shared (with_drive_mgr d (shared s)) s).
(** A call of the screen, which has no errors of its own. *)
Definition screen_call (f : VioManager → Z → outcome () (VioManager * bytes)) : sh () := λ s,
  match f (console_mgr (shared s)) (active_codepage (shared s)) with
  | Ok (v, o) => (Ok tt, with_shared (with_screen v o (shared s)) s)
  | Err _ | Panic => (Panic, s)
  | Diverge => (Diverge, s)
  end.

(** * Output *)

Definition write_sink (data : bytes) (attr : Z) : sh () :=
  s ← get;
  match output_sink s with
  | Vio => screen_call (λ v cp, write_tty enc_decode v data attr cp)
  | File fd => modify_shared (λ g, with_host (host_write_all fd data (host g)) g)
  | Buffer v => modify (with_sink (Buffer (v ++ data)))
  end.
Definition write_out (data : bytes) : sh () := write_sink data ATTR_NORMAL.
Definition write_attr (data : bytes) (attr : Z) : sh () := write_sink data attr.
Definition CRLF : bytes := [0x0D; 0x0A].
Definition writeln (t : rstring) : sh () := write_out (as_bytes t);; write_out CRLF.
Definition writeln_attr (t : rstring) (attr : Z) : sh () :=
  write_attr (as_bytes t) attr;; write_attr CRLF attr.

(** * Keys *)

(** [exit_requested.load()]: the request is seen once it has come. *)
Definition exiting : sh bool :=
  s ← get;
  let g := shared s in
  if exit_requested g then mret true
  else match events g with
       | Quit :: l => modify_shared (with_events l true);; mret true
       | _ => mret false
       end.

(** The loop of the window path of [read_key]. *)
Fixpoint next_key (l : list event) : option (option KbdKeyInfo * list event) :=
  match l with
  | [] => None
  | Quit :: l => Some (None, l)
  | Pressed ki :: l => Some (Some ki, l)
  | _ :: l => next_key l
  end.

(** [VioManager::read_byte], a read of the terminal with its time limit; whether a request to
    exit came meanwhile. *)
Fixpoint read_byte (q : bool) (l : list event) : option Z * bool * list event :=
  match l with
  | [] => (None, q, [])
  | Byte b :: l => (Some b, q, l)
  | Timeout :: l => (None, q, l)
  | Quit :: l => read_byte true l
  | Pressed _ :: l => read_byte q l
  end.
(** A byte of the terminal as a key. *)
Definition terminal_key (b : Z) (l : list event) : KbdKeyInfo * bool * list event :=
  if b =? 0x0D then (mk_key 0x0D SCAN_ENTER 0, false, l)
  else if (b =? 0x08) || (b =? 127) then (mk_key 0x08 SCAN_BACKSPACE 0, false, l)
  else if b =? 0x1B then
    let '(b2, q, l) := read_byte false l in
    if bool_decide (b2 = Some 0x5B) then
      let '(b3, q, l) := read_byte q l in
      (if bool_decide (b3 = Some 0x41) then mk_key 0 SCAN_UP 0
       else if bool_decide (b3 = Some 0x42) then mk_key 0 SCAN_DOWN 0
       else mk_key 0x1B SCAN_ESCAPE 0, q, l)
    else (mk_key 0x1B SCAN_ESCAPE 0, q, l)
  else (mk_key b 0 0, false, l).
(** The loop of the terminal path. *)
Fixpoint next_byte (l : list event) : option (option (Z * list event) * list event) :=
  match l with
  | [] => None
  | Quit :: l => Some (None, l)
  | Byte b :: l => Some (Some (b, l), l)
  | _ :: l => next_byte l
  end.

Definition read_key : sh (option KbdKeyInfo) :=
  s ← get;
  let g := shared s in
  if exit_requested g then mret None
  else if use_sdl2_text g then
    match next_key (events g) with
    | None => lift_out (Err WaitsForKey)
    | Some (ki, l) =>
      modify_shared (with_events l (bool_decide (ki = None)));; mret ki
    end
  else
    match next_byte (events g) with
    | None => lift_out (Err WaitsForKey)
    | Some (None, l) => modify_shared (with_events l true);; mret None
    | Some (Some (b, l), _) =>
      let '(ki, q, l) := terminal_key b l in
      modify_shared (with_events l q);; mret (Some ki)
    end.

(** * The line editor *)

Definition ERASE : bytes := [0x08; 0x20; 0x08].
Definition erase_all (line : rstring) : sh () :=
  repeat_sh (Z.to_nat (len (as_bytes line))) (write_out ERASE).
(** [replace_input]: the new text of the line. *)
Definition replace_input (current new_text : rstring) : sh rstring :=
  erase_all current;;
  write_out (as_bytes new_text);;
  mret new_text.

(** What a key does to the line and the place in the history; [None] submits the line. *)
Definition edit_key (ki : KbdKeyInfo) (line : rstring) (hist_idx : Z) : sh (option (rstring * Z)) :=
  s ← get;
  let h := history s in
  if (ch ki =? 0x0D) || (scan ki =? SCAN_ENTER) then
    write_out CRLF;; mret None
  else if (ch ki =? 0x08) || (scan ki =? SCAN_BACKSPACE) then
    if bool_decide (line = []) then mret (Some (line, hist_idx))
    else write_out ERASE;; mret (Some (removelast line, hist_idx))
  else if (ch ki =? 0x1B) || (scan ki =? SCAN_ESCAPE) then
    erase_all line;; mret (Some ([], len h))
  else if scan ki =? SCAN_UP then
    if 0 <? hist_idx then
      let hist_idx := hist_idx - 1 in
      t ← lift_out (unwrap (idx h hist_idx));
      line ← replace_input line t;
      mret (Some (line, hist_idx))
    else mret (Some (line, hist_idx))
  else if scan ki =? SCAN_DOWN then
    if hist_idx <? len h then
      let hist_idx := hist_idx + 1 in
      t ← (if hist_idx <? len h then lift_out (unwrap (idx h hist_idx)) else mret []);
      line ← replace_input line t;
      mret (Some (line, hist_idx))
    else mret (Some (line, hist_idx))
  else if 0x20 <=? ch ki then
    write_out [ch ki];; mret (Some (line ++ [ch ki], hist_idx))
  else mret (Some (line, hist_idx)).

(** The loop of [read_line]; every turn takes an event. *)
Fixpoint edit_loop (fuel : nat) (line : rstring) (hist_idx : Z) : sh ReadResult :=
  match fuel with
  | O => lift_out Diverge
  | Datatypes.S fuel =>
    ki ← read_key;
    match ki with
    | None => mret Eof
    | Some ki =>
      r ← edit_key ki line hist_idx;
      match r with
      | None => mret (Line line)
      | Some (line, hist_idx) => edit_loop fuel line hist_idx
      end
    end
  end.
Definition read_line : sh ReadResult :=
  s ← get;
  match input_source s with
  | Lines (line :: rest) => modify (with_source (Lines rest));; mret (Line line)
  | Lines [] => mret Eof
  | Kbd => edit_loop (Datatypes.S (length (events (shared s)))) [] (len (history s))
  end.

(** * History and prompt *)

Definition push (line : rstring) (h : list rstring) : list rstring :=
  if bool_decide (last h = Some line) then h
  else (if HISTORY_SIZE <=? len h then tail h else h) ++ [line].
Definition history_push (line : rstring) : sh () :=
  modify (λ s, with_history (push line (history s)) s).

(** The directory of the current drive, and with it the letter of the drive. *)
Definition drive_directory : sh rstring :=
  s ← get;
  let dm := drive_mgr (shared s) in
  match Vfs.current_dir dm (Vfs.current_disk dm) with
  | Ok dir => mret dir
  | _ => lift_out Panic
  end.
Definition drive_dir : sh (Z * rstring) :=
  s ← get;
  drive_letter ← lift_out (uadd M8 0x41 (Vfs.current_disk (drive_mgr (shared s))));
  dir ← drive_directory;
  mret (drive_letter, dir).
Definition drive_text (drive_letter : Z) (dir : rstring) : rstring :=
  drive_letter :: str ":\" ++ dir.
Definition build_prompt : sh rstring :=
  '(drive_letter, dir) ← drive_dir;
  mret (str "[" ++ drive_text drive_letter dir ++ str "] ").
End shell.
