(* ===== verification/CmdShell.v ===== *)
(** The command shell (src/src/loader/cmd.rs): command lines with pipelines and redirections, the
    built-in commands, external programs and scripts, and the ways into the shell.

    A script runs commands of which each can run a script, without a bound: the nesting takes
    fuel, and so does a listing, whose backend decides when it ends. *)
From S2P Require Import Prelude Bytes Codepage Console Text CmdParse CmdLine.
From S2P Require Vfs Managers GuestMem HostDir.

(** [Os2Error]'s [Debug] *)
Definition os2_error_name (e : Z) : option string :=
  match e with
  | 0 => Some "NO_ERROR" | 1 => Some "INVALID_FUNCTION" | 2 => Some "FILE_NOT_FOUND"
  | 3 => Some "PATH_NOT_FOUND" | 4 => Some "TOO_MANY_OPEN_FILES" | 5 => Some "ACCESS_DENIED"
  | 6 => Some "INVALID_HANDLE" | 8 => Some "NOT_ENOUGH_MEMORY" | 15 => Some "INVALID_DRIVE"
  | 16 => Some "CURRENT_DIRECTORY" | 17 => Some "NOT_SAME_DEVICE" | 18 => Some "NO_MORE_FILES"
  | 19 => Some "WRITE_PROTECT" | 32 => Some "SHARING_VIOLATION" | 33 => Some "LOCK_VIOLATION"
  | 80 => Some "FILE_EXISTS" | 82 => Some "CANNOT_MAKE" | 87 => Some "INVALID_PARAMETER"
  | 110 => Some "OPEN_FAILED" | 111 => Some "BUFFER_OVERFLOW" | 112 => Some "DISK_FULL"
  | 113 => Some "NO_MORE_SEARCH_HANDLES" | 124 => Some "INVALID_LEVEL"
  | 145 => Some "DIRECTORY_NOT_EMPTY" | 206 => Some "FILENAME_EXCED_RANGE"
  | 254 => Some "EA_NOT_FOUND" | _ => None
  end%string.
Definition os2_error_debug (e : Z) : rstring :=
  str "Os2Error(" ++ dec_str e ++
  match os2_error_name e with Some n => str "=" ++ str n | None => [] end ++ str ")".

(** The order of strings, and [sort_by], which is stable. *)
Fixpoint str_leb (a b : rstring) : bool :=
  match a, b with
  | [], _ => true
  | _, [] => false
  | x :: a, y :: b => (x <? y) || ((x =? y) && str_leb a b)
  end.
Section sorting.
Context {A : Type} (leb : A → A → bool).
Fixpoint insert_by (x : A) (l : list A) : list A :=
  match l with [] => [x] | y :: l' => if leb x y then x :: l else y :: insert_by x l' end.
Definition sort_by (l : list A) : list A := foldr insert_by [] l.
End sorting.

(** [line.find("::")] with the text before it. *)
Fixpoint before_colons (t : rstring) : option rstring :=
  if starts_with (str "::") t then Some []
  else match t with [] => None | c :: t => cons c <$> before_colons t end.
(** [args.join(" ")] *)
Definition join_blank (l : list rstring) : rstring := unwords l.
Definition is_ascii_alphabetic (c : Z) : bool := in_range 0x41 0x5A c || in_range 0x61 0x7A c.

Section shell.
Context {B : Build} {S H : Type} {BE : Vfs.VfsBackend S} {HO : ShellHost H}.
Context (enc_decode : Encoding → bytes → rstring).
Context (to_uppercase : Z → rstring).

Abbreviation sh := (cmd S H) (only parsing).
Abbreviation writeln := (writeln enc_decode).
Abbreviation writeln_attr := (writeln_attr enc_decode).
Abbreviation write_out := (write_out enc_decode).
Abbreviation upper := (upper to_uppercase).

(** * Built-in commands *)

Definition cmd_echo (args : list rstring) : sh () :=
  if bool_decide (args = []) then writeln (str "ECHO is on.") else writeln (join_blank args).

Definition cls_rows (v : VioManager) (cp : Z) : outcome () (VioManager * bytes) :=
  '(v, o) ← for_in (range 0 (rows v)) (λ r '(v, o),
      '(v, o') ← write_char_str_att enc_decode v r 0 (replicate (Z.to_nat (cols v)) 0x20) ATTR_NORMAL cp;
      Ok (v, o ++ o')) (v, []);
  Ok (with_cursor v 0 0, o).
Definition cmd_cls : sh () := screen_call cls_rows.

Definition cmd_ver : sh () := writeln (str "Warpine OS/2 Compatibility Layer [Builtin CMD.EXE]").
Definition HELP : list string :=
  ["Available commands:";
   "  DIR [path]         List directory";
   "  CD [path]          Change directory";
   "  <X>:               Change drive";
   "  SET [var[=value]]  Show/set environment variable";
   "  ECHO [text]        Display text";
   "  TYPE file          Display file contents";
   "  MD / MKDIR dir     Create directory";
   "  RD / RMDIR dir     Remove directory";
   "  DEL / ERASE file   Delete file";
   "  CLS                Clear screen";
   "  VER                Show version";
   "  REM / ::           Comment";
   "  EXIT [code]        Exit shell";
   "  <program>          Run OS/2 executable"]%string.
Definition cmd_help : sh () := each HELP (λ l, writeln (str l)).

(** The variables in the order of their names. *)
Definition sorted_vars (e : gmap rstring rstring) : list (rstring * rstring) :=
  sort_by (λ a b, str_leb a.1 b.1) (map_to_list e).
Definition show_var (v : rstring * rstring) : sh () := writeln (v.1 ++ str "=" ++ v.2).
(** [std::env::set_var] and [remove_var] panic on a name or a value the host refuses. *)
Definition EQUALS := 0x3D.
Definition name_refused (n : rstring) : bool :=
  bool_decide (n = []) || Vfs.contains n EQUALS || Vfs.contains n 0.
Definition remove_var (name : rstring) : sh () :=
  if name_refused name then lift_out Panic
  else modify_shared (λ g, with_env (delete name (env g)) g).
Definition set_var (name value : rstring) : sh () :=
  if name_refused name || Vfs.contains value 0 then lift_out Panic
  else modify_shared (λ g, with_env (<[name := value]> (env g)) g).
Definition cmd_set (args : list rstring) : sh () :=
  s ← get;
  let vars := sorted_vars (env (shared s)) in
  if bool_decide (args = []) then each vars show_var
  else
    let joined := join_blank args in
    match split_once EQUALS joined with
    | Some (name, value) =>
      let name := trim name in
      if bool_decide (value = []) then remove_var name else set_var name value
    | None =>
      let prefix := upper joined in
      let shown := filter (λ v : rstring * rstring, starts_with prefix (upper v.1) = true) vars in
      each shown show_var;;
      if bool_decide (shown = []) then writeln_attr (str "Environment variable not found.") ATTR_ERROR
      else mret tt
    end.

Definition pm_dir_of (new_dir : rstring) : rstring :=
  if bool_decide (new_dir = []) then str "\"
  else if starts_with (str "\") new_dir then new_dir
  else str "\" ++ new_dir.
Definition cmd_cd (args : list rstring) : sh () :=
  match args with
  | [] =>
    '(drive_letter, dir) ← drive_dir;
    writeln (drive_text drive_letter dir)
  | path :: _ =>
    r ← drive_call (Vfs.set_current_dir path);
    match r with
    | inl _ =>
      new_dir ← drive_directory;
      modify_shared (with_dir (pm_dir_of new_dir))
    | inr e =>
      writeln_attr (str "The system cannot find the path specified. (" ++ os2_error_debug e ++ str ")")
        ATTR_ERROR
    end
  end.

Definition cmd_change_drive (disk_os2 : Z) : sh () :=
  r ← drive_call (Vfs.set_current_disk disk_os2);
  match r with
  | inl _ => mret tt
  | inr _ =>
    t ← lift_out (uadd M8 0x41 disk_os2);
    letter ← lift_out (usub M8 t 1);
    writeln_attr (str "Drive " ++ [letter] ++ str ": is not available.") ATTR_ERROR
  end.

(** *** DIR *)

Definition STAR := 0x2A.
Definition QUESTION := 0x3F.
Definition is_slash (c : Z) : bool := (c =? Vfs.BACKSLASH) || (c =? HostFs.SLASH).
Definition dir_pattern (base : rstring) (args : list rstring) : rstring :=
  match args with
  | path_arg :: _ =>
    let p := trim_end_by is_slash path_arg in
    if ends_with (str "\") path_arg || ends_with (str "/") path_arg then p ++ str "\*"
    else if Vfs.contains path_arg STAR || Vfs.contains path_arg QUESTION then path_arg
    else p ++ str "\*"
  | [] => base ++ [STAR]
  end.
Fixpoint find_rest (fuel : nat) (handle : Z) : sh (list Vfs.DirEntry) :=
  match fuel with
  | O => lift_out Diverge
  | Datatypes.S fuel =>
    r ← drive_call (Vfs.find_next handle);
    match r with
    | inl e => es ← find_rest fuel handle; mret (e :: es)
    | inr _ => mret []
    end
  end.
Definition is_directory (e : Vfs.DirEntry) : bool :=
  Vfs.attr_contains (Vfs.attributes (Vfs.status e)) Vfs.ATTR_DIRECTORY.
Definition entry_leb (a b : Vfs.DirEntry) : bool :=
  match is_directory a, is_directory b with
  | true, false => true
  | false, true => false
  | _, _ => str_leb (upper (Vfs.name a)) (upper (Vfs.name b))
  end.
Definition entry_text (e : Vfs.DirEntry) : rstring :=
  let st := Vfs.status e in
  format_dos_date (Vfs.last_write_date st) ++ str "  " ++ format_dos_time (Vfs.last_write_time st) ++
  (if is_directory e then str "    <DIR>          "
   else str "   " ++ num BLANK 12 (Vfs.file_size st) ++ str "  ") ++ Vfs.name e.
(** The counters: files, directories, bytes. *)
Fixpoint list_entries (es : list Vfs.DirEntry) (files dirs total : Z) : sh (Z * Z * Z) :=
  match es with
  | [] => mret (files, dirs, total)
  | e :: es =>
    if is_directory e then
      dirs ← lift_out (uadd M32 dirs 1);
      writeln (entry_text e);;
      list_entries es files dirs total
    else
      files ← lift_out (uadd M32 files 1);
      total ← lift_out (uadd M64 total (Vfs.file_size (Vfs.status e)));
      writeln (entry_text e);;
      list_entries es files dirs total
  end.
Definition cmd_dir (fuel : nat) (args : list rstring) : sh () :=
  '(drive_letter, cur) ← drive_dir;
  let pattern := dir_pattern (drive_text drive_letter cur) args in
  let header_path := trim_end_by (Z.eqb Vfs.BACKSLASH) (trim_end_by (Z.eqb STAR) pattern) in
  writeln_attr (str " Directory of " ++ header_path) ATTR_HEADER;;
  writeln [];;
  r ← drive_call (Vfs.find_first pattern 0x37 1);
  match r with
  | inr _ => writeln_attr (str "File not found.") ATTR_ERROR
  | inl (handle, first_entry) =>
    rest ← find_rest fuel handle;
    _ ← drive_call (Vfs.find_close handle);
    '(files, dirs, total) ← list_entries (sort_by entry_leb (first_entry :: rest)) 0 0 0;
    writeln [];;
    writeln (str "       " ++ num BLANK 3 files ++ str " file(s)  " ++ num BLANK 12 total ++ str " bytes");;
    writeln (str "       " ++ num BLANK 3 dirs ++ str " dir(s)")
  end.

Definition MISSING : rstring := str "Required parameter missing.".
Definition cmd_type (args : list rstring) : sh () :=
  match args with
  | [] => writeln_attr MISSING ATTR_ERROR
  | path_arg :: _ =>
    r ← drive_call (Vfs.resolve_to_host_path path_arg);
    match r with
    | inl (Some p) =>
      s ← get;
      match host_read p (host (shared s)) with
      | inr e => writeln_attr (str "Error reading file: " ++ e) ATTR_ERROR
      | inl data => write_out data;; write_out CRLF
      end
    | _ => writeln_attr (str "The system cannot find the file specified.") ATTR_ERROR
    end
  end.

(** MD, RD and DEL: a call on the path, and the message of its error. *)
Definition on_arg (call : rstring → Vfs.vfs (Vfs.DriveManager S) ()) (message : string)
    (args : list rstring) : sh () :=
  match args with
  | [] => writeln_attr MISSING ATTR_ERROR
  | path_arg :: _ =>
    r ← drive_call (call path_arg);
    match r with
    | inl _ => mret tt
    | inr e => writeln_attr (str message ++ os2_error_debug e) ATTR_ERROR
    end
  end.
Definition cmd_md := on_arg Vfs.create_dir "Cannot create directory: ".
Definition cmd_rd := on_arg Vfs.delete_dir "Cannot remove directory: ".
Definition cmd_del := on_arg Vfs.delete_file "Could not delete file: ".

(** * External programs *)

(** [dm.resolve_to_host_path] in the shell, which has no errors. *)
Definition to_host_path (p : rstring) : sh (option HostFs.path) :=
  r ← drive_call (Vfs.resolve_to_host_path p);
  mret (match r with inl o => o | inr _ => None end).
(** The program or script a command names, and whether it is a script. *)
Definition find_program (c : rstring) : sh (option HostFs.path * bool) :=
  let u := upper c in
  if ends_with (str ".CMD") u then p ← to_host_path c; mret (p, true)
  else if ends_with (str ".EXE") u then p ← to_host_path c; mret (p, false)
  else
    p ← to_host_path (c ++ str ".EXE");
    match p with
    | Some _ => mret (p, false)
    | None => p ← to_host_path (c ++ str ".CMD"); mret (p, true)
    end.

(** The directory of the child: that of the process manager below the host's. *)
Definition child_dir (g : Shared S H) : option HostFs.path :=
  let dir := Vfs.trim_slashes (Vfs.to_slashes (pm_current_dir g)) in
  match host_cwd (host g) with
  | None => None
  | Some base =>
    let cwd := if bool_decide (dir = []) then base else HostFs.join base dir in
    if host_is_dir cwd (host g) then Some cwd else None
  end.
Definition spawn_external (prog_path : HostFs.path) (args : list rstring) : sh () :=
  s ← get;
  let g := shared s in
  match host_exe (host g) with
  | inr e => writeln_attr (str "Cannot locate warpine executable: " ++ e) ATTR_ERROR
  | inl warpine_exe =>
    let to_vio := match output_sink s with Vio => true | _ => false end in
    let '(r, h) := host_spawn warpine_exe prog_path args (child_dir g) (host g) in
    modify_shared (with_host h);;
    match r with
    | inr e => writeln_attr (str "Failed to spawn program: " ++ e) ATTR_ERROR
    | inl chunks =>
      if to_vio then
        each chunks (λ data, screen_call (λ v cp, write_tty enc_decode v data ATTR_NORMAL cp))
      else
        let output := concat chunks in
        if bool_decide (output = []) then mret tt else write_out output
    end
  end.

(** * Command lines *)

Definition open_sink (redir : option (rstring * bool)) : sh (option OutputSink * bool) :=
  match redir with
  | None => mret (None, true)
  | Some (path, append) =>
    p ← to_host_path path;
    s ← get;
    let '(r, h) := host_open (match p with Some p => inl p | None => inr path end) append
                     (host (shared s)) in
    modify_shared (with_host h);;
    match r with
    | inl fd => mret (Some (File fd), true)
    | inr e =>
      writeln_attr (str "Cannot open '" ++ path ++ str "': " ++ e) ATTR_ERROR;;
      mret (None, false)
    end
  end.
Definition open_source (stdin : option rstring) : sh (option InputSource * bool) :=
  match stdin with
  | None => mret (None, true)
  | Some path =>
    p ← to_host_path path;
    match p with
    | Some p =>
      s ← get;
      match host_read_to_string p (host (shared s)) with
      | inl content => mret (Some (Lines (lines content)), true)
      | inr e =>
        writeln_attr (str "Cannot read '" ++ path ++ str "': " ++ e) ATTR_ERROR;;
        mret (None, false)
      end
    | None => writeln_attr (str "File not found: " ++ path) ATTR_ERROR;; mret (None, false)
    end
  end.
(** [if let Some(x) = o] and the change of the state by [x]. *)
Definition if_some {A} (f : A → CmdShell S H → CmdShell S H) (o : option A) : sh () :=
  match o with Some x => modify (f x) | None => mret tt end.
(** The lines of a captured output. *)
Definition captured_lines (captured : bytes) : list rstring :=
  map (λ l, trim_end_by (Z.eqb 0x0D) (from_utf8_lossy l)) (split_by (Z.eqb 0x0A) captured).

(** What a command gives: [Some] code ends the shell. *)
Definition exit_of (args : list rstring) : option Z :=
  Some (default 0 (a ← head args; parse_uint M32 a)).
Definition is_cmd (c : rstring) (names : list string) : bool := bool_decide (c ∈ map str names).

Section script.
(** [shell.execute_line] of the shell a script runs in. *)
Context (execute : rstring → sh (option Z)).

(** The loop of [run_script] over the lines. *)
Fixpoint run_lines (l : list rstring) : sh Z :=
  match l with
  | [] => mret 0
  | line :: l =>
    q ← exiting;
    if (q : bool) then mret 0
    else
      let trimmed := trim line in
      if bool_decide (trimmed = []) then run_lines l
      else
        r ← execute trimmed;
        match r with Some code => mret code | None => run_lines l end
  end.
Definition run_script (path : HostFs.path) : sh Z :=
  s ← get;
  match host_read_to_string path (host (shared s)) with
  | inl content => run_lines (lines content)
  | inr e => writeln_attr (str "Cannot open script: " ++ e) ATTR_ERROR;; mret 1
  end.

(** A shell of its own over the same shared state. *)
Definition in_new_shell (m : sh Z) : sh Z := λ s,
  let '(r, s') := m (new_shell (shared s)) in (r, with_shared (shared s') s).
Definition exec_external (c : rstring) (args : list rstring) : sh () :=
  '(host_path, is_script) ← find_program c;
  match host_path with
  | None =>
    writeln_attr (str "'" ++ c ++ str "' is not recognized as an internal or external command.")
      ATTR_ERROR
  | Some p => if (is_script : bool) then _ ← in_new_shell (run_script p); mret tt else spawn_external p args
  end.

Definition change_drive (c : rstring) : sh () :=
  match c with
  | [] => lift_out Panic
  | l :: _ =>
    if is_ascii_alphabetic l then
      t ← lift_out (usub M8 l 0x41);
      disk_os2 ← lift_out (uadd M8 t 1);
      cmd_change_drive disk_os2
    else writeln_attr (str "Invalid drive.") ATTR_ERROR
  end.
(** [execute_segment]: the command and its arguments. *)
Definition execute_tokens (fuel : nat) (cmd : rstring) (args : list rstring) : sh (option Z) :=
  let run (m : sh ()) : sh (option Z) := m;; mret None in
  if is_cmd cmd ["REM"; "::"]%string then mret None
  else if is_cmd cmd ["ECHO"]%string then run (cmd_echo args)
  else if is_cmd cmd ["CLS"]%string then run cmd_cls
  else if is_cmd cmd ["VER"]%string then run cmd_ver
  else if is_cmd cmd ["HELP"]%string then run cmd_help
  else if is_cmd cmd ["SET"]%string then run (cmd_set args)
  else if is_cmd cmd ["CD"; "CHDIR"]%string then run (cmd_cd args)
  else if is_cmd cmd ["DIR"]%string then run (cmd_dir fuel args)
  else if is_cmd cmd ["TYPE"]%string then run (cmd_type args)
  else if is_cmd cmd ["MD"; "MKDIR"]%string then run (cmd_md args)
  else if is_cmd cmd ["RD"; "RMDIR"]%string then run (cmd_rd args)
  else if is_cmd cmd ["DEL"; "ERASE"]%string then run (cmd_del args)
  else if is_cmd cmd ["EXIT"]%string then mret (exit_of args)
  else if (len (as_bytes cmd) =? 2) && ends_with (str ":") cmd then run (change_drive cmd)
  else run (exec_external cmd args).
Definition execute_segment (fuel : nat) (line : rstring) : sh (option Z) :=
  match tokenize line with
  | [] => mret None
  | c :: args => execute_tokens fuel (upper c) args
  end.

(** A segment before the last one: its output becomes the input of the next. *)
Definition capture {A} (m : sh A) : sh A :=
  s ← get;
  let prev_sink := output_sink s in
  modify (with_sink (Buffer []));;
  a ← m;
  s ← get;
  let captured := match output_sink s with Buffer v => v | _ => [] end in
  modify (with_sink prev_sink);;
  modify (with_source (Lines (captured_lines captured)));;
  mret a.
Fixpoint run_segments (fuel : nat) (segs : list rstring) (result : option Z) : sh (option Z) :=
  match segs with
  | [] => mret result
  | segment :: segs =>
    let segment := trim segment in
    if bool_decide (segment = []) then run_segments fuel segs result
    else
      let m := execute_segment fuel segment in
      result ← (if bool_decide (segs = []) then m else capture m);
      match result with
      | Some _ => mret result
      | None => run_segments fuel segs result
      end
  end.
Definition execute_pipeline (fuel : nat) (parsed : ParsedCommand) : sh (option Z) :=
  let segs := segments parsed in
  if forallb (λ s, bool_decide (s = [])) segs then mret None
  else
    '(final_sink, ok) ← open_sink (stdout_redir parsed);
    if negb ok then mret None
    else
      '(initial_stdin, ok) ← open_source (stdin_file parsed);
      if negb ok then mret None
      else
        if_some with_source initial_stdin;;
        if_some with_sink final_sink;;
        result ← run_segments fuel segs None;
        modify (with_sink Vio);;
        modify (with_source Kbd);;
        mret result.
End script.

(** [execute_line], where scripts nest [fuel] deep. *)
Fixpoint execute_line (fuel : nat) (line : rstring) : sh (option Z) :=
  match fuel with
  | O => lift_out Diverge
  | Datatypes.S fuel =>
    let line := trim (default line (before_colons line)) in
    if bool_decide (line = []) then mret None
    else
      match parse_command line with
      | Ok parsed => execute_pipeline (execute_line fuel) fuel parsed
      | _ => lift_out Diverge
      end
  end.

(** * The shell *)

(** The loop of [interactive_loop]; every turn takes an event or a line. *)
Fixpoint interactive_loop (turns fuel : nat) : sh Z :=
  match turns with
  | O => lift_out Diverge
  | Datatypes.S turns =>
    q ← exiting;
    if (q : bool) then mret 0
    else
      prompt ← build_prompt;
      write_attr enc_decode (as_bytes prompt) ATTR_HEADER;;
      l ← read_line enc_decode;
      match l with
      | Eof => mret 0
      | Line line =>
        let trimmed := trim line in
        if bool_decide (trimmed = []) then interactive_loop turns fuel
        else
          history_push trimmed;;
          r ← execute_line fuel trimmed;
          match r with
          | Some exit_code => mret exit_code
          | None => interactive_loop turns fuel
          end
      end
  end.
Definition interactive (fuel : nat) : sh Z :=
  s ← get; interactive_loop (Datatypes.S (length (events (shared s)))) fuel.

Definition run (fuel : nat) (raw_args : list rstring) : sh Z :=
  match parse_shell_flags to_uppercase raw_args with
  | Ok (run_once, initial_cmd) =>
    match initial_cmd with
    | Some c =>
      result ← execute_line fuel (trim c);
      if (run_once : bool) then mret (default 0 result)
      else match result with
           | Some code => mret code
           | None => interactive fuel
           end
    | None => interactive fuel
    end
  | _ => lift_out Panic
  end.

(** [run_builtin_cmd_main_inner] *)
Definition run_builtin_cmd_main_inner (fuel : nat) (host_args : list rstring) : sh Z :=
  run fuel (str "CMD.EXE" :: host_args).

(** [run_builtin_cmd_main], whose result ends the process; [run_builtin_cmd_sdl2], whose result
    is the exit code it stores before it asks the window to close. *)
Definition run_builtin_cmd_main (fuel : nat) (host_args : list rstring) (g : Shared S H)
    : outcome blocked Z * Shared S H :=
  let '(r, s) := run_builtin_cmd_main_inner fuel host_args (new_shell g) in
  (HostDir.as_i32 <$> r, shared s).
Definition run_builtin_cmd_sdl2 (fuel : nat) (host_args : list rstring) (g : Shared S H)
    : outcome blocked Z * Shared S H :=
  let '(r, s) := run_builtin_cmd_main_inner fuel host_args (new_shell g) in
  (HostDir.as_i32 <$> r,
   match r with Ok _ => with_events (events (shared s)) true (shared s) | _ => shared s end).

(** [parse_double_null_string], [n] bytes left. *)
Fixpoint double_null (m : GuestMem.GuestMemory) (ptr offset : Z) (n : nat) (current : rstring)
    : outcome blocked (list rstring) :=
  match n with
  | O => Ok []
  | Datatypes.S n =>
    a ← uadd M32 ptr offset;
    let byte := default 0 (GuestMem.read8 m a) in
    if byte =? 0 then
      if bool_decide (current = []) then Ok []
      else cons current <$> double_null m ptr (offset + 1) n []
    else double_null m ptr (offset + 1) n (current ++ [byte])
  end.
Definition parse_double_null_string (m : GuestMem.GuestMemory) (ptr : Z)
    : outcome blocked (list rstring) := double_null m ptr 0 4096 [].
(** [run_builtin_cmd]: the exit code goes to the result codes of the caller; the memory may
    have changed in other hands while the shell ran. *)
Definition run_builtin_cmd (fuel : nat) (p_arg p_res : Z) (m : GuestMem.GuestMemory)
    (meanwhile : GuestMem.GuestMemory → GuestMem.GuestMemory) (g : Shared S H)
    : outcome blocked (Z * GuestMem.GuestMemory) * Shared S H :=
  match (if p_arg =? 0 then Ok [] else parse_double_null_string m p_arg) with
  | Ok args =>
    let '(r, s) := run fuel args (new_shell g) in
    let m := meanwhile m in
    (exit_code ← r;
     if p_res =? 0 then Ok (0, m)
     else
       let m := GuestMem.poke 4 m p_res 0 in
       a ← uadd M32 p_res 4;
       Ok (0, GuestMem.poke 4 m a exit_code), shared s)
  | Err e => (Err e, g)
  | Panic => (Panic, g)
  | Diverge => (Diverge, g)
  end.
End shell.
