(* ===== verification/CmdIo.v ===== *)
(** Input and output of the command shell (src/src/loader/cmd.rs): a command line leaves the
    output on the screen and the input at the keyboard, redirected output stays off the screen,
    and no command reads the input of a pipeline. *)
From S2P Require Import Prelude Bytes Codepage Console Text CmdParse CmdLine CmdShell.
From S2P Require Vfs GuestMem.

(** * Two ways to follow a computation *)

Section logic.
Context {S H : Type}.
Implicit Types s : CmdShell S H.

(** What holds between the states before and after. *)
Definition always {A} (R : CmdShell S H → CmdShell S H → Prop) (m : cmd S H A) : Prop :=
  ∀ s, R s (m s).2.
(** The computation does the same for every input source and leaves the source alone. *)
Definition blind {A} (m : cmd S H A) : Prop := ∀ s i,
  m (with_source i s) = ((m s).1, with_source i (m s).2).

Section always.
Context (R : CmdShell S H → CmdShell S H → Prop) `{!PreOrder R}.
Lemma always_ret {A} (a : A) : always R (mret a).
Proof. by intros s. Qed.
Lemma always_lift {A} (o : outcome blocked A) : always R (lift_out o).
Proof. by intros s. Qed.
Lemma always_bind {A C} (m : cmd S H A) (f : A → cmd S H C) :
  always R m → (∀ a, always R (f a)) → always R (m ≫= f).
Proof.
  intros Hm Hf s. specialize (Hm s). unfold mbind, cmd_bind. destruct (m s) as [[a| | |] s1]; try done.
  etrans; [done|]. apply Hf.
Qed.
Lemma always_get {A} (f : CmdShell S H → cmd S H A) : (∀ s, R s (f s s).2) → always R (get ≫= f).
Proof. intros Hf s. exact (Hf s). Qed.
Lemma always_read {A} (f : CmdShell S H → cmd S H A) : (∀ s, always R (f s)) → always R (get ≫= f).
Proof. intros Hf s. exact (Hf s s). Qed.
Lemma always_each {A} (l : list A) (f : A → cmd S H ()) : (∀ a, always R (f a)) → always R (each l f).
Proof. intros Hf. induction l; [by intros s|]. by apply always_bind. Qed.
End always.

Lemma blind_ret {A} (a : A) : blind (mret a).
Proof. by intros s i. Qed.
Lemma blind_lift {A} (o : outcome blocked A) : blind (lift_out o).
Proof. by intros s i. Qed.
Lemma blind_bind {A C} (m : cmd S H A) (f : A → cmd S H C) :
  blind m → (∀ a, blind (f a)) → blind (m ≫= f).
Proof.
  intros Hm Hf s i. specialize (Hm s i). unfold mbind, cmd_bind. rewrite Hm.
  destruct (m s) as [[a| | |] s1]; try done. apply Hf.
Qed.
Lemma blind_get {A} (f : CmdShell S H → cmd S H A) :
  (∀ s i, f (with_source i s) = f s) → (∀ s, blind (f s)) → blind (get ≫= f).
Proof. intros He Hf s i. change ((get ≫= f) ?x) with (f x x). by rewrite He, Hf. Qed.
Lemma blind_each {A} (l : list A) (f : A → cmd S H ()) : (∀ a, blind (f a)) → blind (each l f).
Proof. intros Hf. induction l; [by intros s i|]. by apply blind_bind. Qed.
End logic.

Create HintDb shell.
#[export] Hint Resolve always_ret always_lift always_each blind_ret blind_lift blind_each : shell.
#[export] Hint Extern 0 (PreOrder _) => apply _ : shell.

(** Follow the steps of a computation. *)
Ltac shell_step :=
  match goal with
  | |- always _ (mbind _ get) => apply always_read; intros ?
  | |- always _ (mbind _ _) => apply always_bind; [apply _| |intros ?]
  | |- blind (mbind _ get) => apply blind_get; [done|intros ?]
  | |- blind (mbind _ _) => apply blind_bind; [|intros ?]
  | |- always _ (match ?x with _ => _ end) => destruct x
  | |- blind (match ?x with _ => _ end) => destruct x
  | |- always _ (let '(_, _) := ?x in _) => destruct x
  | |- blind (let '(_, _) := ?x in _) => destruct x
  | |- _ => progress eauto with shell
  end.
Ltac shell := repeat shell_step.

(** Evaluate the tests on a known command. *)
Ltac eval_cmd :=
  repeat match goal with
  | |- context [is_cmd ?c ?l] => let v := eval vm_compute in (is_cmd c l) in change (is_cmd c l) with v
  end; cbv beta zeta iota.

Section io.
Context {B : Build} {S H : Type} {BE : Vfs.VfsBackend S} {HO : ShellHost H}.
Context (enc_decode : Encoding → bytes → rstring).
Context (to_uppercase : Z → rstring).
Implicit Types s : CmdShell S H.

(** * Commands keep where the output goes *)

(** The same history and source, and the same sink, to which a buffer may have added. *)
Definition same_sink (k k' : OutputSink) : Prop :=
  match k with Buffer v => ∃ w, k' = Buffer (v ++ w) | _ => k' = k end.
Record io_kept s s' : Prop := {
  kept_history : history s' = history s;
  kept_source : input_source s' = input_source s;
  kept_sink : same_sink (output_sink s) (output_sink s');
}.
(** Moreover the screen changes only where it is the sink. *)
Record quiet s s' : Prop := {
  quiet_kept : io_kept s s';
  quiet_screen : output_sink s ≠ Vio →
    console_mgr (shared s') = console_mgr (shared s) ∧ printed (shared s') = printed (shared s);
}.

Lemma same_sink_refl k : same_sink k k.
Proof. destruct k; try done. exists []. by rewrite app_nil_r. Qed.
Lemma same_sink_trans k1 k2 k3 : same_sink k1 k2 → same_sink k2 k3 → same_sink k1 k3.
Proof.
  destruct k1; [intros ->; done|intros ->; done|]. intros [w ->] [w' ->]. exists (w ++ w').
  by rewrite (assoc_L (++)).
Qed.
#[local] Instance io_kept_preorder : PreOrder io_kept.
Proof.
  split; [intros s; split; done || apply same_sink_refl|].
  intros s1 s2 s3 [? ? ?] [? ? ?]. split; try congruence. by eapply same_sink_trans.
Qed.
#[local] Instance quiet_preorder : PreOrder quiet.
Proof.
  split; [intros s; by split|]. intros s1 s2 s3 [H1 Q1] [H2 Q2]. split; [by etrans|]. intros Hv.
  assert (output_sink s2 ≠ Vio) as Hv2.
  { destruct H1 as [_ _ Hk]. destruct (output_sink s1); [done|by rewrite Hk|by destruct Hk as [? ->]]. }
  destruct (Q1 Hv), (Q2 Hv2). split; congruence.
Qed.
Lemma quiet_is_kept {A} (m : cmd S H A) : always quiet m → always io_kept m.
Proof. intros Hm s. by destruct (Hm s). Qed.
Lemma quiet_shared f s :
  console_mgr (f (shared s)) = console_mgr (shared s) → printed (f (shared s)) = printed (shared s) →
  quiet s (with_shared (f (shared s)) s).
Proof. intros. split; [split; done || apply same_sink_refl|done]. Qed.

Lemma quiet_update f :
  (∀ g : Shared S H, console_mgr (f g) = console_mgr g ∧ printed (f g) = printed g) →
  always quiet (modify_shared f).
Proof. intros Hf s. apply quiet_shared; apply Hf. Qed.
Lemma quiet_drive {A} (m : Vfs.vfs (Vfs.DriveManager S) A) : always quiet (drive_call m).
Proof.
  intros s. unfold drive_call. destruct (m (drive_mgr (shared s))) as [r d].
  by apply (quiet_shared (with_drive_mgr d)).
Qed.
Lemma kept_screen f : always io_kept (@screen_call S H f).
Proof.
  intros s. unfold screen_call. destruct (f _ _) as [[v o]| | |]; cbn; try done.
  split; [done..|]. apply same_sink_refl.
Qed.
Lemma quiet_write data attr : always quiet (write_sink enc_decode data attr).
Proof.
  apply always_get. intros s. destruct (output_sink s) as [|fd|v] eqn:E.
  - split; [|by rewrite E]. apply kept_screen.
  - by apply (quiet_shared (λ g, with_host (host_write_all fd data (host g)) g)).
  - split; [|done]. split; [done..|]. cbn. rewrite E. by eexists.
Qed.
#[local] Hint Resolve quiet_write quiet_drive kept_screen quiet_is_kept : shell.
#[local] Hint Extern 1 (always quiet (modify_shared _)) => apply quiet_update; intros; split; reflexivity : shell.
Lemma quiet_writeln t : always quiet (writeln enc_decode t).
Proof. unfold writeln, write_out. shell. Qed.
Lemma quiet_writeln_attr t attr : always quiet (writeln_attr enc_decode t attr).
Proof. unfold writeln_attr, write_attr. shell. Qed.
#[local] Hint Resolve quiet_writeln quiet_writeln_attr : shell.
Lemma quiet_directory : always quiet (drive_directory (S := S) (H := H)).
Proof. unfold drive_directory. shell. Qed.
#[local] Hint Resolve quiet_directory : shell.
Lemma quiet_drive_dir : always quiet (drive_dir (S := S) (H := H)).
Proof. unfold drive_dir. shell. Qed.
#[local] Hint Resolve quiet_drive_dir : shell.

Lemma quiet_echo args : always quiet (cmd_echo enc_decode args).
Proof. unfold cmd_echo. shell. Qed.
Lemma quiet_ver : always quiet (cmd_ver enc_decode).
Proof. unfold cmd_ver. shell. Qed.
Lemma quiet_help : always quiet (cmd_help enc_decode).
Proof. unfold cmd_help. shell. Qed.
Lemma quiet_set args : always quiet (cmd_set enc_decode to_uppercase args).
Proof. unfold cmd_set, remove_var, set_var, show_var. shell. Qed.
Lemma quiet_cd args : always quiet (cmd_cd enc_decode args).
Proof. unfold cmd_cd. shell. Qed.
Lemma quiet_find_rest fuel h : always quiet (find_rest fuel h).
Proof. induction fuel; cbn [find_rest]; shell. Qed.
Lemma quiet_list es f d n : always quiet (list_entries enc_decode es f d n).
Proof. revert f d n. induction es; intros; cbn [list_entries]; shell. Qed.
#[local] Hint Resolve quiet_find_rest quiet_list : shell.
Lemma quiet_dir fuel args : always quiet (cmd_dir enc_decode to_uppercase fuel args).
Proof. unfold cmd_dir. shell. Qed.
Lemma quiet_type args : always quiet (cmd_type enc_decode args).
Proof. unfold cmd_type, write_out. shell. Qed.
Lemma quiet_on_arg call msg args : always quiet (on_arg enc_decode call msg args).
Proof. unfold on_arg. shell. Qed.
#[local] Hint Resolve quiet_echo quiet_ver quiet_help quiet_set quiet_cd quiet_dir quiet_type : shell.
#[local] Hint Extern 1 (always quiet (cmd_md _ _)) => apply quiet_on_arg : shell.
#[local] Hint Extern 1 (always quiet (cmd_rd _ _)) => apply quiet_on_arg : shell.
#[local] Hint Extern 1 (always quiet (cmd_del _ _)) => apply quiet_on_arg : shell.
Lemma quiet_change_drive c : always quiet (change_drive enc_decode c).
Proof. unfold change_drive, cmd_change_drive. shell. Qed.
Lemma quiet_spawn p args : always quiet (spawn_external enc_decode p args).
Proof.
  apply always_get. intros s. unfold spawn_external. destruct (host_exe _) as [e|m]; [|by apply quiet_writeln_attr].
  destruct (host_spawn _ _ _ _ _) as [r h]. destruct (output_sink s) as [|fd|v] eqn:E.
  { split; [|by rewrite E].
    match goal with |- io_kept _ (?m _).2 => assert (always io_kept m) as Hm; [shell|apply Hm] end. }
  all: match goal with |- quiet _ (?m _).2 => assert (always quiet m) as Hm; [unfold write_out; shell|apply Hm] end.
Qed.
#[local] Hint Resolve quiet_change_drive quiet_spawn : shell.
Lemma quiet_find_program c : always quiet (find_program to_uppercase c).
Proof. unfold find_program, to_host_path. shell. Qed.
#[local] Hint Resolve quiet_find_program : shell.

(** The commands that do not write the screen themselves: all built-in ones but CLS. *)
Definition SPARING : list string :=
  ["REM"; "::"; "ECHO"; "VER"; "HELP"; "SET"; "CD"; "CHDIR"; "DIR"; "TYPE"; "MD"; "MKDIR"; "RD";
   "RMDIR"; "DEL"; "ERASE"; "EXIT"]%string.
Definition sparing (line : rstring) : Prop :=
  ∃ c args, tokenize line = c :: args ∧ is_cmd (upper to_uppercase c) SPARING = true.

Section script.
Context (execute : rstring → cmd S H (option Z)).
Lemma kept_new_shell m : always io_kept (in_new_shell (S := S) (H := H) m).
Proof.
  intros s. unfold in_new_shell. destruct (m _) as [r s']. cbn. split; [done..|]. apply same_sink_refl.
Qed.
#[local] Hint Resolve kept_new_shell : shell.
Lemma kept_external c args : always io_kept (exec_external enc_decode to_uppercase execute c args).
Proof. unfold exec_external. shell. Qed.
#[local] Hint Resolve kept_external : shell.
Lemma kept_segment fuel line :
  always io_kept (execute_segment enc_decode to_uppercase execute fuel line).
Proof. unfold execute_segment, execute_tokens, cmd_cls. shell. Qed.
Lemma quiet_segment fuel line : sparing line →
  always quiet (execute_segment enc_decode to_uppercase execute fuel line).
Proof.
  intros (c & args & E & Hc). unfold execute_segment. rewrite E. unfold is_cmd in Hc.
  apply bool_decide_eq_true in Hc. remember (upper to_uppercase c) as C. clear HeqC. unfold execute_tokens.
  repeat (apply elem_of_cons in Hc as [->|Hc]; [eval_cmd; shell|]). by apply elem_of_nil in Hc.
Qed.

(** * Pipelines *)

Definition same_history s s' : Prop := history s' = history s.
#[local] Instance same_history_preorder : PreOrder same_history.
Proof. split; [done|]. unfold same_history. congruence. Qed.
(** No change on the screen, a sink other than the screen stays one. *)
Record screen_spared s s' : Prop := {
  spared_screen : console_mgr (shared s') = console_mgr (shared s) ∧
                  printed (shared s') = printed (shared s);
  spared_sink : output_sink s' ≠ Vio;
}.
Lemma keeps_history {A} (m : cmd S H A) : always io_kept m → always same_history m.
Proof. intros Hm s. by destruct (Hm s). Qed.
#[local] Hint Resolve keeps_history kept_segment : shell.
#[local] Hint Extern 1 (always same_history (modify _)) => by intros ? : shell.
Lemma history_capture {A} (m : cmd S H A) : always same_history m → always same_history (capture m).
Proof. intros Hm. unfold capture. shell. Qed.
#[local] Hint Resolve history_capture : shell.
Lemma history_segments fuel segs r :
  always same_history (run_segments enc_decode to_uppercase execute fuel segs r).
Proof. revert r. induction segs; intros r; cbn [run_segments]; shell. Qed.

Lemma quiet_spares {A} (m : cmd S H A) s :
  always quiet m → output_sink s ≠ Vio → screen_spared s (m s).2.
Proof.
  intros Hm Hv. destruct (Hm s) as [[_ _ Hk] Hq]. split; [by apply Hq|].
  destruct (output_sink s); [done|by rewrite Hk|by destruct Hk as [? ->]].
Qed.
Lemma capture_spares {A} (m : cmd S H A) s :
  always quiet m → output_sink s ≠ Vio → screen_spared s (capture m s).2.
Proof.
  intros Hm Hv. unfold capture. change ((get ≫= ?f) s) with (f s s). cbv beta zeta.
  destruct (quiet_spares m (with_sink (Buffer []) s) Hm) as [[H1 H2] H3]; [done|].
  unfold mbind, cmd_bind, modify, get. cbn in H1, H2. destruct (m _) as [[a| | |] s1]; cbn in *; by split.
Qed.
Lemma segments_spare fuel segs r s :
  Forall (λ l, trim l = [] ∨ sparing (trim l)) segs → output_sink s ≠ Vio →
  screen_spared s (run_segments enc_decode to_uppercase execute fuel segs r s).2.
Proof.
  intros Hs. revert r s. induction Hs as [|seg segs Hl Hs IH]; intros r s Hv; cbn [run_segments]; [by split|].
  case_bool_decide as He; [by apply IH|]. destruct Hl as [Hl|Hl]; [done|].
  pose proof (quiet_segment fuel _ Hl) as Hq. unfold mbind, cmd_bind.
  match goal with |- context [(if ?b then ?x else ?y) s] => assert (screen_spared s ((if b then x else y) s).2) as Hm;
    [destruct b; [by apply quiet_spares|by apply capture_spares]|destruct ((if b then x else y) s) as [[[c|]| | |] s1]] end;
    cbn in *; try done.
  destruct Hm as [[H1 H2] H3]. destruct (IH None s1 H3) as [[H4 H5] H6]. split; [|done]. split; congruence.
Qed.

Lemma quiet_open_sink redir : always quiet (open_sink enc_decode redir).
Proof. unfold open_sink, to_host_path. shell. Qed.
Lemma quiet_open_source stdin : always quiet (open_source enc_decode stdin).
Proof. unfold open_source, to_host_path. shell. Qed.

Lemma pipeline_restores fuel parsed s r s' :
  output_sink s = Vio → input_source s = Kbd →
  execute_pipeline enc_decode to_uppercase execute fuel parsed s = (Ok r, s') →
  output_sink s' = Vio ∧ input_source s' = Kbd ∧ history s' = history s.
Proof.
  intros Hv Hk. unfold execute_pipeline. destruct (forallb _ _); [by intros [= <- <-]|].
  pose proof (quiet_open_sink (stdout_redir parsed) s) as [[Hh1 Hi1 Hs1] _]. unfold mbind, cmd_bind.
  destruct (open_sink _ _ s) as [[[k ok]| | |] s1]; try done. cbn in Hh1, Hi1, Hs1. rewrite Hv in Hs1. cbn in Hs1.
  destruct ok; [|intros [= <- <-]; split_and!; congruence]. cbn [negb].
  pose proof (quiet_open_source (stdin_file parsed) s1) as [[Hh2 Hi2 Hs2] _].
  destruct (open_source _ _ s1) as [[[i ok]| | |] s2]; try done. cbn in Hh2, Hi2, Hs2. rewrite Hs1 in Hs2. cbn in Hs2.
  destruct ok; [|intros [= <- <-]; split_and!; congruence]. cbn [negb].
  assert (always same_history (if_some with_source i)) as Ha by (unfold if_some; shell).
  assert (always same_history (if_some with_sink k)) as Hb by (unfold if_some; shell).
  specialize (Ha s2). destruct (if_some with_source i s2) as [[[]| | |] s3]; try done.
  specialize (Hb s3). destruct (if_some with_sink k s3) as [[[]| | |] s4]; try done.
  pose proof (history_segments fuel (segments parsed) None s4) as Hc.
  destruct (run_segments _ _ _ _ _ _ s4) as [[x| | |] s5]; try done. intros [= <- <-]. cbn in *.
  unfold same_history in *. cbn in *. split_and!; congruence.
Qed.
End script.

(** * Commands do not read *)

Lemma blind_modify_shared f : blind (modify_shared (S := S) (H := H) f).
Proof. by intros s i. Qed.
Lemma blind_sink k : blind (modify (S := S) (H := H) (with_sink k)).
Proof. by intros s i. Qed.
Lemma blind_drive {A} (m : Vfs.vfs (Vfs.DriveManager S) A) : blind (H := H) (drive_call m).
Proof. intros s i. unfold drive_call. cbn. by destruct (m _). Qed.
Lemma blind_screen f : blind (S := S) (H := H) (screen_call f).
Proof. intros s i. unfold screen_call. cbn. by destruct (f _ _) as [[v o]| | |]. Qed.
#[local] Hint Resolve blind_modify_shared blind_sink blind_drive blind_screen : shell.
Lemma blind_write data attr : blind (S := S) (write_sink enc_decode data attr).
Proof. unfold write_sink. shell. Qed.
#[local] Hint Resolve blind_write : shell.
Lemma blind_writeln t : blind (S := S) (writeln enc_decode t).
Proof. unfold writeln, write_out. shell. Qed.
Lemma blind_writeln_attr t attr : blind (S := S) (writeln_attr enc_decode t attr).
Proof. unfold writeln_attr, write_attr. shell. Qed.
#[local] Hint Resolve blind_writeln blind_writeln_attr : shell.
Lemma blind_directory : blind (drive_directory (S := S) (H := H)).
Proof. unfold drive_directory. shell. Qed.
#[local] Hint Resolve blind_directory : shell.
Lemma blind_drive_dir : blind (drive_dir (S := S) (H := H)).
Proof. unfold drive_dir. shell. Qed.
Lemma blind_find_rest fuel h : blind (S := S) (H := H) (find_rest fuel h).
Proof. induction fuel; cbn [find_rest]; shell. Qed.
Lemma blind_list es f d n : blind (S := S) (list_entries enc_decode es f d n).
Proof. revert f d n. induction es; intros; cbn [list_entries]; shell. Qed.
Lemma blind_on_arg call msg args : blind (S := S) (on_arg enc_decode call msg args).
Proof. unfold on_arg. shell. Qed.
#[local] Hint Resolve blind_drive_dir blind_find_rest blind_list blind_on_arg : shell.
Lemma blind_new_shell m : blind (in_new_shell (S := S) (H := H) m).
Proof. intros s i. unfold in_new_shell. cbn. by destruct (m _). Qed.
#[local] Hint Resolve blind_new_shell : shell.
Lemma blind_external execute c args :
  blind (S := S) (exec_external enc_decode to_uppercase execute c args).
Proof. unfold exec_external, find_program, to_host_path, spawn_external, write_out. shell. Qed.
Lemma blind_change_drive c : blind (S := S) (change_drive enc_decode c).
Proof. unfold change_drive, cmd_change_drive. shell. Qed.
#[local] Hint Resolve blind_external blind_change_drive : shell.

(** No command reads the input a pipeline or a redirection prepares for it: the command does
    the same, with the same output, for every input source, and leaves the source unread. *)
Theorem piped_input_unread execute fuel line :
  blind (execute_segment enc_decode to_uppercase execute fuel line).
Proof.
  unfold execute_segment, execute_tokens, cmd_echo, cmd_cls, cmd_ver, cmd_help, cmd_set, cmd_cd, cmd_dir,
    cmd_type, cmd_md, cmd_rd, cmd_del, remove_var, set_var, show_var, write_out. shell.
Qed.

(** The output goes to the screen and the input comes from the keyboard. *)
Definition at_rest s : Prop := output_sink s = Vio ∧ input_source s = Kbd.
(** C22: a command line leaves the shell as it found it: with the screen as its output, the
    keyboard as its input and the same history, also when a file of a redirection cannot be
    opened or a command of a pipeline ends the shell, and whatever scripts it ran. *)
Theorem io_restored fuel line s r s' :
  at_rest s → execute_line enc_decode to_uppercase fuel line s = (Ok r, s') →
  at_rest s' ∧ history s' = history s.
Proof.
  destruct fuel as [|fuel]; [done|]. cbn [execute_line]. intros [Hv Hk].
  case_bool_decide; [by intros [= <- <-]|]. destruct (parse_command _); try done.
  intros E. apply pipeline_restores in E as (? & ? & ?); done.
Qed.

(** Redirected output stays off the screen.  In a pipeline of built-in commands other than
    CLS whose output goes to a file that opens, no command changes the screen or prints
    anything, not even the message of an error. *)
Theorem redirected_off_screen execute fuel parsed path append s :
  stdout_redir parsed = Some (path, append) → stdin_file parsed = None →
  Forall (λ l, trim l = [] ∨ sparing (trim l)) (segments parsed) →
  (∀ p a h, ∃ fd h', host_open (H := H) p a h = (inl fd, h')) →
  let s' := (execute_pipeline enc_decode to_uppercase execute fuel parsed s).2 in
  console_mgr (shared s') = console_mgr (shared s) ∧ printed (shared s') = printed (shared s).
Proof.
  intros Ho Hi Hs Hopen. unfold execute_pipeline. destruct (forallb _ _); [done|]. rewrite Ho, Hi.
  cbn [open_sink open_source]. unfold mbind, cmd_bind, mret, cmd_ret.
  pose proof (quiet_drive (Vfs.resolve_to_host_path path) s) as [_ Hq].
  assert (∀ s1, console_mgr (shared (drive_call (Vfs.resolve_to_host_path path) s1).2) = console_mgr (shared s1) ∧
    printed (shared (drive_call (Vfs.resolve_to_host_path path) s1).2) = printed (shared s1)) as Hd.
  { intros s1. unfold drive_call. by destruct (Vfs.resolve_to_host_path _ _). }
  specialize (Hd s). unfold to_host_path, mbind, cmd_bind, mret, cmd_ret.
  destruct (drive_call _ s) as [[p| | |] s1]; try done. cbn in Hd. unfold get.
  match goal with |- context [host_open ?a ?b ?c] => destruct (Hopen a b c) as (fd & h' & ->) end. cbn.
  match goal with |- context [run_segments _ _ _ _ _ _ ?s2] =>
    destruct (segments_spare execute fuel (segments parsed) None s2 Hs) as [[H1 H2] _]; [done|];
    destruct (run_segments _ _ _ _ _ _ s2) as [[x| | |] s3] end; cbn in *; destruct Hd; split; congruence.
Qed.
End io.

(** A host with numbered files and nothing else, and a shell on a window of 25 rows. *)
Definition demo_host : ShellHost (gmap Z bytes) := {|
  host_open p append h := (inl (Z.of_nat (size h)), <[Z.of_nat (size h) := []]> h);
  host_write_all fd data h := <[fd := default [] (h !! fd) ++ data]> h;
  host_read_to_string p h := inr (str "no such file");
  host_read p h := inr (str "no such file");
  host_exe h := inr (str "no such file");
  host_cwd h := None;
  host_is_dir p h := false;
  host_spawn _ _ _ _ h := (inr (str "no such file"), h);
|}.
Definition ascii_upper (c : Z) : rstring := [upper_char c].
Definition same_bytes (e : Encoding) (b : bytes) : rstring := b.
Definition typed_keys (t : rstring) : list event := map (λ c, Pressed (mk_key c 0 0)) t.
Definition demo_shell (t : rstring) : CmdShell Z (gmap Z bytes) :=
  new_shell (mk_shared Vfs.demo_dm (with_sdl2 (new (Some (25, 80)))) [] 437 true (typed_keys t) false
    (str "\") ∅ ∅).
Definition demo_execute (line : rstring) : cmd Z (gmap Z bytes) (option Z) :=
  execute_line (B := dev_profile) (BE := Vfs.demo_backend) (HO := demo_host) same_bytes ascii_upper 3 line.

(** A typed line runs, and EXIT ends the shell with its code. *)
Example typed_commands :
  let '(r, s) := interactive (B := dev_profile) (BE := Vfs.demo_backend) (HO := demo_host) same_bytes
    ascii_upper 3 (demo_shell (str "echo hi>x" ++ [0x0D] ++ str "exit 3" ++ [0x0D])) in
  r = Ok 3 ∧ history s = [str "echo hi>x"; str "exit 3"] ∧ host (shared s) !! 0 = Some (str "hi" ++ CRLF).
Proof. vm_compute. done. Qed.
(** The line is cut at two colons inside quotes as well. *)
Example colons_in_quotes :
  let q := [QUOTE] ++ str "a::b" ++ [QUOTE] in
  (demo_execute (str "echo " ++ q ++ str " > x") (demo_shell [])).2.(shared).(host) = ∅.
Proof. vm_compute. done. Qed.

Lemma io_restored_witness :
  let '(r, s) := demo_execute (str "ver | exit 4 > x") (demo_shell []) in
  r = Ok (Some 4) ∧ at_rest s ∧ history s = [].
Proof.
  destruct (demo_execute (str "ver | exit 4 > x") (demo_shell [])) as [r s] eqn:E.
  assert (r = Ok (Some 4)) as -> by (apply (f_equal fst) in E; vm_compute in E; done).
  split; [done|]. unfold demo_execute in E.
  exact (io_restored (B := dev_profile) (BE := Vfs.demo_backend) (HO := demo_host) same_bytes ascii_upper 3
    _ (demo_shell []) _ s (conj eq_refl eq_refl) E).
Defined.
Lemma redirected_off_screen_witness :
  let parsed := mk_command [str "ver"; str "rd nowhere"; str "echo hi  there"] None (Some (str "x", false)) in
  let s' := (execute_pipeline (B := dev_profile) (BE := Vfs.demo_backend) (HO := demo_host) same_bytes
    ascii_upper demo_execute 3 parsed (demo_shell [])).2 in
  console_mgr (shared s') = console_mgr (shared (demo_shell [])) ∧ printed (shared s') = [] ∧
  host (shared s') !! 0 = Some (str "hi there" ++ CRLF).
Proof.
  intros parsed s'.
  destruct (redirected_off_screen (B := dev_profile) (BE := Vfs.demo_backend) (HO := demo_host) same_bytes
    ascii_upper demo_execute 3 parsed (str "x") false (demo_shell [])) as [H1 H2].
  - done.
  - done.
  - repeat apply Forall_cons_2; [..|by apply Forall_nil_2]; right;
      (eexists _, _; split; [vm_compute; reflexivity|vm_compute; reflexivity]).
  - intros p a h. by eexists _, _.
  - split; [exact H1|]. split; [exact H2|]. vm_compute. done.
Defined.
