(* ===== verification/CmdEdit.v ===== *)
(** The line editor of the command shell (src/src/loader/cmd.rs): the line it returns is the one
    the keys spell, and the one on the screen. *)
From S2P Require Import Prelude Bytes Codepage Console Text CmdParse CmdLine CmdShell CmdIo.
From S2P Require Vfs.

(** * What the writes of the editor do to the screen *)

Section screen.
Context {B : Build} (enc_decode : Encoding → bytes → rstring).
Abbreviation tty_loop := (tty_loop enc_decode).
Abbreviation write_tty := (write_tty enc_decode).

Lemma tty_loop_app attr cp t1 t2 v a :
  tty_loop attr cp (t1 ++ t2) v a =
  '(v, a, o1) ← tty_loop attr cp t1 v a; '(v, a, o2) ← tty_loop attr cp t2 v a; Ok (v, a, o1 ++ o2).
Proof.
  revert v a. induction t1 as [|ch t1 IH]; intros v a; cbn [app Console.tty_loop].
  { out_simpl. by destruct (tty_loop attr cp t2 v a) as [[[? ?] ?]| | |]. }
  destruct (tty_byte _ _ _ _ _ _) as [[[v1 a1] o1]| | |]; try done. out_simpl. rewrite IH.
  destruct (tty_loop attr cp t1 v1 a1) as [[[v2 a2] o2]| | |]; try done. out_simpl.
  destruct (tty_loop attr cp t2 v2 a2) as [[[v3 a3] o3]| | |]; try done. out_simpl. by rewrite (assoc_L (++)).
Qed.

(** A screen on which [text] was written over [v] from its cursor. *)
Record shows (attr cp : Z) (text : bytes) (v v' : VioManager) : Prop := {
  sh_ok : tty_ok v';
  sh_mode : same_mode v v';
  sh_row : cursor_row v' = cursor_row v;
  sh_cells : ∀ i j, 0 ≤ i < rows v → 0 ≤ j < cols v →
    at_ v' i j = texted enc_decode attr cp (cursor_row v) (cursor_col v) text i j (at_ v i j);
}.
Lemma tty_text attr cp text v a : tty_ok v → forallb Console.plain text = true → cursor_col v + len text < cols v →
  ∃ v' a' o, tty_loop attr cp text v a = Ok (v', a', o) ∧ shows attr cp text v v' ∧
    cursor_col v' = cursor_col v + len text.
Proof.
  intros Hv Hp Hfit. destruct (tty_loop_ok enc_decode attr cp text v a Hv) as (v' & a' & o & Hl & Hv' & Hm & _).
  destruct (tty_loop_plain enc_decode attr cp text v a Hv Hp Hfit) as (v2 & a2 & o2 & Hl2 & Hr & Hc & Hat).
  rewrite Hl in Hl2. injection Hl2 as -> -> ->. by exists v2, a2, o2.
Qed.
Lemma write_of_loop attr cp text v v' a' o :
  tty_loop attr cp text v false = Ok (v', a', o) → ∃ o', write_tty v text attr cp = Ok (v', o').
Proof. intros E. unfold Console.write_tty. rewrite E. by eexists. Qed.

Lemma tty_back attr cp v a : tty_ok v → 0 < cursor_col v →
  ∃ o, tty_loop attr cp [0x08] v a = Ok (with_cursor v (cursor_row v) (cursor_col v - 1), a, o) ∧
    tty_ok (with_cursor v (cursor_row v) (cursor_col v - 1)).
Proof.
  intros Hv Hc. pose proof Hv as ([Hg Hrow Hcol] & Hr & Hno). cbn [Console.tty_loop]. unfold tty_byte.
  change (0x08 =? 0x0A) with false. change (0x08 =? 0x0D) with false. change (0x08 =? 0x08) with true. cbv iota.
  rewrite (proj2 (Z.ltb_lt 0 (cursor_col v))) by done. out_simpl. eexists. split; [done|].
  apply (tty_ok_of v); [done|done|by split; destruct Hg|done|]. cbn. lia.
Qed.
Lemma write_erase attr cp v : tty_ok v → 0 < cursor_col v →
  ∃ v' o, write_tty v ERASE attr cp = Ok (v', o) ∧ cursor_col v' = cursor_col v - 1 ∧
    tty_ok v' ∧ same_mode v v' ∧ cursor_row v' = cursor_row v ∧
    ∀ i j, 0 ≤ i < rows v → 0 ≤ j < cols v →
      at_ v' i j = texted enc_decode attr cp (cursor_row v) (cursor_col v - 1) [0x20] i j (at_ v i j).
Proof.
  intros Hv Hc. pose proof Hv as ([Hg Hrow Hcol] & Hr & Hno).
  destruct (tty_back attr cp v false Hv Hc) as (o1 & E1 & Hv1).
  destruct (tty_text attr cp [0x20] (with_cursor v (cursor_row v) (cursor_col v - 1)) false Hv1)
    as (v2 & a2 & o2 & E2 & [Hv2 Hm2 Hr2 Hat2] & Hc2); [done|change (len [0x20]) with 1; cbn [cols cursor_col with_cursor]; lia|].
  change (len [0x20]) with 1 in Hc2. cbn [cols rows cursor_row cursor_col with_cursor] in *. destruct Hm2 as (M1 & M2 & M3 & M4). cbn [cols rows codepage sdl2_mode with_cursor] in M1, M2, M3, M4.
  destruct (tty_back attr cp v2 a2 Hv2) as (o3 & E3 & Hv3); [lia|].
  assert (∃ o, tty_loop attr cp ERASE v false = Ok (with_cursor v2 (cursor_row v2) (cursor_col v2 - 1), a2, o)) as [o E].
  { change ERASE with ([0x08] ++ [0x20] ++ [0x08]). rewrite tty_loop_app, E1. out_simpl.
    rewrite tty_loop_app, E2. out_simpl. rewrite E3. out_simpl. by eexists. }
  apply write_of_loop in E as [o' ->]. eexists _, o'. split; [done|]. cbn. split_and!; try done; lia.
Qed.
(** The end of the line, not on the last row. *)
Lemma write_crlf attr cp v : tty_ok v → cursor_row v + 1 < rows v →
  ∃ v' o, write_tty v CRLF attr cp = Ok (v', o) ∧ tty_ok v' ∧ same_mode v v' ∧
    cursor_row v' = cursor_row v + 1 ∧ cursor_col v' = 0 ∧ ∀ i j, at_ v' i j = at_ v i j.
Proof.
  intros Hv Hrow1. pose proof Hv as ([Hg Hrow Hcol] & Hr & Hno).
  destruct (tty_loop_ok enc_decode attr cp CRLF v false Hv) as (v' & a & o & E & Hv' & Hm & _).
  unfold Console.write_tty. rewrite E. out_simpl. eexists _, _. split; [done|]. split; [done|]. split; [done|].
  revert E. unfold CRLF. cbn [Console.tty_loop]. unfold tty_byte. cbn [Z.eqb Pos.eqb]. out_simpl.
  unfold next_line. cbn [cursor_row with_cursor]. rewrite uadd_ok by lia. out_simpl.
  unfold scroll_at_end. cbn [cursor_row rows with_cursor].
  rewrite (proj2 (Z.leb_gt (rows v) (cursor_row v + 1))) by lia. cbn [sdl2_mode with_cursor].
  destruct (sdl2_mode v); out_simpl; intros [= <- <- <-]; done.
Qed.
End screen.

(** * The keys of a line *)

(** What a key that does not end the line does to the line and the place in the history. *)
Definition type_key (h : list rstring) (p : rstring * Z) (ki : KbdKeyInfo) : rstring * Z :=
  let '(line, i) := p in
  if (ch ki =? 0x08) || (scan ki =? SCAN_BACKSPACE) then (removelast line, i)
  else if (ch ki =? 0x1B) || (scan ki =? SCAN_ESCAPE) then ([], len h)
  else if scan ki =? SCAN_UP then
    if 0 <? i then (default [] (idx h (i - 1)), i - 1) else (line, i)
  else if scan ki =? SCAN_DOWN then
    if i <? len h then (default [] (idx h (i + 1)), i + 1) else (line, i)
  else if 0x20 <=? ch ki then (line ++ [ch ki], i)
  else (line, i).
Definition typed_line (h : list rstring) (ks : list KbdKeyInfo) : rstring :=
  (foldl (type_key h) ([], len h) ks).1.
Definition submits (ki : KbdKeyInfo) : bool := (ch ki =? 0x0D) || (scan ki =? SCAN_ENTER).
Definition ascii (c : Z) : Prop := 0x20 ≤ c < 0x80.

Lemma ascii_bytes l : Forall ascii l → as_bytes l = l.
Proof.
  unfold as_bytes. induction 1 as [|c l Hc _ IH]; [done|]. cbn [map concat]. rewrite IH.
  unfold ascii in Hc. unfold utf8_char. by rewrite (proj2 (Z.ltb_lt c 0x80)) by lia.
Qed.
Lemma ascii_plain l : Forall ascii l → forallb Console.plain l = true.
Proof.
  intros Hl. apply forallb_forall. intros c Hc. rewrite Forall_forall in Hl.
  specialize (Hl c ltac:(by apply list_elem_of_In)). unfold ascii in Hl. unfold Console.plain.
  apply bool_decide_eq_true. intros He. set_unfold in He. lia.
Qed.
Lemma idx_app_split {A} (a b : list A) i : 0 ≤ i →
  idx (a ++ b) i = if i <? len a then idx a i else idx b (i - len a).
Proof.
  intros Hi. destruct (Z.ltb_spec i (len a)) as [H|H].
  - rewrite !idx_lookup by lia. apply lookup_app_l. unfold len in H. lia.
  - rewrite !idx_lookup by lia. rewrite lookup_app_r by (unfold len in H; lia). f_equal. unfold len. lia.
Qed.
Lemma idx_outside {A} (l : list A) i : len l ≤ i → idx l i = None.
Proof.
  intros Hi. pose proof (len_nonneg l). rewrite idx_lookup by lia. apply lookup_ge_None_2.
  unfold len in Hi. lia.
Qed.

Section editor.
Context {B : Build} {S H : Type} {BE : Vfs.VfsBackend S} {HO : ShellHost H}.
Context (enc_decode : Encoding → bytes → rstring).
Implicit Types s : CmdShell S H.

(** Only the screen differs. *)
Definition drawn s s' : Prop := ∃ v o, s' = with_shared (with_screen v o (shared s)) s.
Lemma drawn_trans s1 s2 s3 : drawn s1 s2 → drawn s2 s3 → drawn s1 s3.
Proof.
  intros (v1 & o1 & ->) (v2 & o2 & ->). exists v2, (o1 ++ o2).
  unfold with_shared, with_screen. cbn. by rewrite (assoc_L (++)).
Qed.
Lemma drawn_refl s : drawn s s.
Proof. exists (console_mgr (shared s)), []. destruct s as [[]]. unfold with_shared, with_screen. cbn. by rewrite app_nil_r. Qed.

(** The shell edits [line], which began where the cursor of the screen [v0] stood and had
    blanks before it: the line is on the screen, blanks follow, the rest is as before. *)
Record editing (v0 : VioManager) (cp : Z) (line : rstring) s : Prop := {
  ed_sink : output_sink s = Vio;
  ed_cp : active_codepage (shared s) = cp;
  ed_tty : tty_ok (console_mgr (shared s));
  ed_mode : same_mode v0 (console_mgr (shared s));
  ed_row : cursor_row (console_mgr (shared s)) = cursor_row v0;
  ed_col : cursor_col (console_mgr (shared s)) = cursor_col v0 + len line;
  ed_cells : ∀ i j, 0 ≤ i < rows v0 → 0 ≤ j < cols v0 →
    at_ (console_mgr (shared s)) i j =
    if (i =? cursor_row v0) && (cursor_col v0 <=? j)
    then Some (cell_of enc_decode ATTR_NORMAL cp (default 0x20 (idx line (j - cursor_col v0))))
    else at_ v0 i j;
}.

Lemma write_out_screen data s v' o :
  output_sink s = Vio →
  write_tty enc_decode (console_mgr (shared s)) data ATTR_NORMAL (active_codepage (shared s)) = Ok (v', o) →
  write_out enc_decode data s = (Ok tt, with_shared (with_screen v' o (shared s)) s).
Proof.
  intros Hv E. unfold write_out, write_sink. change ((get ≫= ?f) s) with (f s s). cbv beta. rewrite Hv.
  unfold screen_call. by rewrite E.
Qed.

Lemma editing_write v0 cp line t s :
  editing v0 cp line s → Forall ascii t → 0 ≤ cursor_col v0 → cursor_col v0 + len line + len t < cols v0 →
  ∃ s', write_out enc_decode t s = (Ok tt, s') ∧ editing v0 cp (line ++ t) s' ∧ drawn s s'.
Proof.
  intros [Hk Hcp Ht Hm Hr Hc Hat] Hascii Hc0 Hfit. pose proof (len_nonneg line). pose proof (len_nonneg t).
  pose proof Hm as (M1 & M2 & M3 & M4).
  destruct (tty_text enc_decode ATTR_NORMAL cp t (console_mgr (shared s)) false Ht (ascii_plain t Hascii))
    as (v' & a & o & E & [Hv' Hm' Hr' Hat'] & Hc'); [rewrite M2, Hc; lia|].
  apply write_of_loop in E as [o' E]. rewrite <- Hcp in E.
  eexists. split; [by apply (write_out_screen _ _ _ _ Hk E)|]. split; [|by eexists _, _].
  split; cbn; try done.
  - by eapply same_mode_trans.
  - congruence.
  - rewrite Hc', Hc, len_app. lia.
  - intros i j Hi Hj. rewrite Hat', Hat by congruence. rewrite Hr, Hc. unfold texted.
    destruct (Z.eqb_spec i (cursor_row v0)) as [->|]; cbn [andb]; [|done].
    destruct (Z.leb_spec (cursor_col v0) j), (Z.leb_spec (cursor_col v0 + len line) j); try lia; cbn [andb]; [|..|done].
    + rewrite idx_app_split by lia. rewrite (proj2 (Z.ltb_ge (j - cursor_col v0) (len line))) by lia.
      replace (j - (cursor_col v0 + len line)) with (j - cursor_col v0 - len line) by lia.
      destruct (Z.ltb_spec j (cursor_col v0 + len line + len t)).
      * destruct (idx_is_Some t (j - cursor_col v0 - len line)) as (x & -> & _); [lia|done].
      * by rewrite !idx_outside by lia.
    + rewrite idx_app_split by lia. by rewrite (proj2 (Z.ltb_lt (j - cursor_col v0) (len line))) by lia.
Qed.

Lemma editing_erase v0 cp line c s :
  editing v0 cp (line ++ [c]) s → 0 ≤ cursor_col v0 → cursor_col v0 + len line < cols v0 →
  ∃ s', write_out enc_decode ERASE s = (Ok tt, s') ∧ editing v0 cp line s' ∧ drawn s s'.
Proof.
  intros [Hk Hcp Ht Hm Hr Hc Hat] Hc0 Hfit. pose proof (len_nonneg line).
  pose proof Hm as (M1 & M2 & M3 & M4). rewrite len_app in Hc. change (len [c]) with 1 in Hc.
  destruct (write_erase enc_decode ATTR_NORMAL cp (console_mgr (shared s)) Ht)
    as (v' & o & E & Hc' & Hv' & Hm' & Hr' & Hat'); [lia|]. rewrite <- Hcp in E.
  eexists. split; [by apply (write_out_screen _ _ _ _ Hk E)|]. split; [|by eexists _, _].
  split; cbn; try done.
  - by eapply same_mode_trans.
  - congruence.
  - lia.
  - intros i j Hi Hj. rewrite Hat', Hat by congruence. rewrite Hr, Hc. unfold texted. change (len [0x20]) with 1.
    destruct (Z.eqb_spec i (cursor_row v0)) as [->|]; cbn [andb]; [|done].
    destruct (Z.leb_spec (cursor_col v0) j), (Z.leb_spec (cursor_col v0 + (len line + 1) - 1) j); try lia; cbn [andb]; [|..|done].
    + destruct (Z.ltb_spec j (cursor_col v0 + (len line + 1) - 1 + 1)).
      * replace (j - (cursor_col v0 + (len line + 1) - 1)) with 0 by lia. cbn [idx].
        rewrite (idx_outside line) by lia. done.
      * rewrite !idx_outside by (rewrite ?len_app; change (len [c]) with 1; lia). done.
    + rewrite idx_app_split by lia. by rewrite (proj2 (Z.ltb_lt (j - cursor_col v0) (len line))) by lia.
Qed.

Lemma bind_run {A C} (m : cmd S H A) (f : A → cmd S H C) s a s' : m s = (Ok a, s') → (m ≫= f) s = f a s'.
Proof. intros E. unfold mbind, cmd_bind. by rewrite E. Qed.

Lemma editing_erase_all v0 cp line s :
  editing v0 cp line s → Forall ascii line → 0 ≤ cursor_col v0 → cursor_col v0 + len line < cols v0 →
  ∃ s', erase_all enc_decode line s = (Ok tt, s') ∧ editing v0 cp [] s' ∧ drawn s s'.
Proof.
  unfold erase_all, repeat_sh. intros Hed Hascii Hc0 Hfit. rewrite ascii_bytes by done.
  unfold len at 1. rewrite Nat2Z.id. clear Hascii. revert s Hed Hfit.
  induction line as [|c line IH] using rev_ind; intros s Hed Hfit.
  { exists s. cbn [length Nat.iter nat_rect]. split; [done|]. split; [done|]. apply drawn_refl. }
  rewrite len_app in Hfit. change (len [c]) with 1 in Hfit.
  destruct (editing_erase v0 cp line c s Hed Hc0) as (s1 & E1 & Hed1 & Hd1); [lia|].
  destruct (IH s1 Hed1) as (s2 & E2 & Hed2 & Hd2); [lia|].
  exists s2. rewrite length_app, Nat.add_comm. split; [|split; [done|by eapply drawn_trans]].
  cbn [length Nat.add Nat.iter nat_rect]. rewrite (bind_run _ _ _ _ _ E1). exact E2.
Qed.
Lemma editing_replace v0 cp line t s :
  editing v0 cp line s → Forall ascii line → Forall ascii t → 0 ≤ cursor_col v0 →
  cursor_col v0 + len line < cols v0 → cursor_col v0 + len t < cols v0 →
  ∃ s', replace_input enc_decode line t s = (Ok t, s') ∧ editing v0 cp t s' ∧ drawn s s'.
Proof.
  intros Hed Hl Ht Hc0 Hfit Hfit2. unfold replace_input.
  destruct (editing_erase_all v0 cp line s) as (s1 & E1 & Hed1 & Hd1); [done..|].
  destruct (editing_write v0 cp [] t s1) as (s2 & E2 & Hed2 & Hd2); [done..|change (len (@nil Z)) with 0; lia|].
  exists s2. split; [|split; [done|by eapply drawn_trans]].
  rewrite (bind_run _ _ _ _ _ E1), ascii_bytes by done. by rewrite (bind_run _ _ _ _ _ E2).
Qed.

(** The line, its place in the history and the room left for [n] more keys. *)
Record fits (v0 : VioManager) (h : list rstring) (n : nat) (line : rstring) (i : Z) : Prop := {
  fit_col : 0 ≤ cursor_col v0;
  fit_line : cursor_col v0 + len line + Z.of_nat n < cols v0;
  fit_empty : cursor_col v0 + Z.of_nat n < cols v0;
  fit_hist : Forall (λ t, Forall ascii t ∧ cursor_col v0 + len t + Z.of_nat n < cols v0) h;
  fit_ascii : Forall ascii line;
  fit_idx : 0 ≤ i ≤ len h;
}.
Lemma fits_less v0 h n line i line' i' :
  fits v0 h (Datatypes.S n) line i → Forall ascii line' → 0 ≤ i' ≤ len h →
  cursor_col v0 + len line' + Z.of_nat n < cols v0 → fits v0 h n line' i'.
Proof.
  intros [? ? ? Hh ? ?] ? ? ?. split; try done; [lia|]. eapply Forall_impl; [exact Hh|].
  intros t [? ?]. split; [done|lia].
Qed.
Lemma fits_history v0 h n line i j t : fits v0 h n line i → idx h j = Some t →
  Forall ascii t ∧ cursor_col v0 + len t + Z.of_nat n < cols v0.
Proof. intros [? ? ? Hh ? ?] Hj. by eapply Vfs.idx_Forall in Hh. Qed.

(** One key of the line. *)
Lemma edit_key_types v0 cp n line i ki s :
  editing v0 cp line s → fits v0 (history s) (Datatypes.S n) line i →
  submits ki = false → ch ki < 0x80 →
  ∃ s', edit_key enc_decode ki line i s = (Ok (Some (type_key (history s) (line, i) ki)), s') ∧
    editing v0 cp (type_key (history s) (line, i) ki).1 s' ∧ drawn s s' ∧
    fits v0 (history s) n (type_key (history s) (line, i) ki).1 (type_key (history s) (line, i) ki).2.
Proof.
  intros Hed Hf Hsub Hch. pose proof Hf as [Hc0 Hl He Hh Ha Hi]. unfold submits in Hsub.
  pose proof (len_nonneg line). pose proof (len_nonneg (history s)).
  unfold edit_key. change ((get ≫= ?f) s) with (f s s). cbv beta zeta. rewrite Hsub. unfold type_key.
  assert (Hsame : fits v0 (history s) n line i) by (apply (fits_less v0 (history s) n line i); done || lia).
  destruct ((ch ki =? 8) || _).
  { destruct line as [|c line _] using rev_ind; [rewrite bool_decide_true by done; exists s; split_and!; try done; apply drawn_refl|].
    rewrite bool_decide_false by (by destruct line). rewrite removelast_last.
    rewrite len_app in *. change (len [c]) with 1 in *. apply Forall_app in Ha as [Ha _].
    destruct (editing_erase v0 cp line c s Hed Hc0) as (s1 & E1 & Hed1 & Hd1); [lia|].
    exists s1. split; [by rewrite (bind_run _ _ _ _ _ E1)|]. split; [done|]. split; [done|].
    cbn [fst snd]. apply (fits_less v0 (history s) n (line ++ [c]) i); done || lia. }
  destruct ((ch ki =? 27) || _).
  { destruct (editing_erase_all v0 cp line s) as (s1 & E1 & Hed1 & Hd1); [done..|lia|].
    exists s1. split; [by rewrite (bind_run _ _ _ _ _ E1)|]. split; [done|]. split; [done|].
    cbn [fst snd]. apply (fits_less v0 (history s) n line i); [done|done|lia|change (len (@nil Z)) with 0; lia]. }
  assert (Hrep : ∀ t j, Forall ascii t → cursor_col v0 + len t + Z.of_nat (Datatypes.S n) < cols v0 → 0 ≤ j ≤ len (history s) →
    ∃ s', (l ← replace_input enc_decode line t; mret (Some (l, j))) s = (Ok (Some (t, j)), s') ∧
      editing v0 cp t s' ∧ drawn s s' ∧ fits v0 (history s) n t j).
  { intros t j Hta Htl Hj. destruct (editing_replace v0 cp line t s) as (s1 & E1 & Hed1 & Hd1); [done..|lia|lia|].
    exists s1. split; [by rewrite (bind_run _ _ _ _ _ E1)|]. split; [done|]. split; [done|].
    apply (fits_less v0 (history s) n line i); done || lia. }
  destruct (scan ki =? SCAN_UP).
  { destruct (Z.ltb_spec 0 i); [|exists s; split_and!; try done; apply drawn_refl].
    destruct (idx_is_Some (history s) (i - 1)) as (t & Et & _); [lia|]. rewrite Et.
    destruct (fits_history _ _ _ _ _ _ _ Hf Et) as [Hta Htl]. apply (Hrep t (i - 1)); done || lia. }
  destruct (scan ki =? SCAN_DOWN).
  { destruct (Z.ltb_spec i (len (history s))); [|exists s; split_and!; try done; apply drawn_refl].
    destruct (Z.ltb_spec (i + 1) (len (history s))).
    - destruct (idx_is_Some (history s) (i + 1)) as (t & Et & _); [lia|]. rewrite Et.
      destruct (fits_history _ _ _ _ _ _ _ Hf Et) as [Hta Htl]. apply (Hrep t (i + 1)); done || lia.
    - rewrite idx_outside by lia. apply (Hrep [] (i + 1)); [done|change (len (@nil Z)) with 0; lia|lia]. }
  destruct (Z.leb_spec 0x20 (ch ki)); [|exists s; split_and!; try done; apply drawn_refl].
  destruct (editing_write v0 cp line [ch ki] s) as (s1 & E1 & Hed1 & Hd1); [done| |done|change (len [ch ki]) with 1; lia|].
  { apply Forall_singleton. unfold ascii. lia. }
  exists s1. split; [by rewrite (bind_run _ _ _ _ _ E1)|]. split; [done|]. split; [done|].
  cbn [fst snd]. apply (fits_less v0 (history s) n line i); try done; [|rewrite len_app; change (len [ch ki]) with 1; lia].
  apply Forall_app. split; [done|]. apply Forall_singleton. unfold ascii. lia.
Qed.

Lemma read_key_pressed s ki l :
  exit_requested (shared s) = false → use_sdl2_text (shared s) = true → events (shared s) = Pressed ki :: l →
  read_key s = (Ok (Some ki), with_shared (with_events l false (shared s)) s).
Proof.
  intros Hq Hu He. unfold read_key. change ((get ≫= ?f) s) with (f s s). cbv beta zeta. by rewrite Hq, Hu, He.
Qed.
Lemma editing_events v0 cp line l s :
  editing v0 cp line s → editing v0 cp line (with_shared (with_events l false (shared s)) s).
Proof. by intros []. Qed.
Lemma drawn_same s s' : drawn s s' →
  events (shared s') = events (shared s) ∧ exit_requested (shared s') = exit_requested (shared s) ∧
  use_sdl2_text (shared s') = use_sdl2_text (shared s) ∧ history s' = history s.
Proof. by intros (v & o & ->). Qed.

Lemma edit_loop_types v0 cp enter rest ks : ∀ fuel line i s,
  editing v0 cp line s → fits v0 (history s) (length ks) line i → cursor_row v0 + 1 < rows v0 →
  exit_requested (shared s) = false → use_sdl2_text (shared s) = true →
  events (shared s) = map Pressed ks ++ Pressed enter :: rest →
  Forall (λ ki, submits ki = false ∧ ch ki < 0x80) ks → submits enter = true → (length ks < fuel)%nat →
  let line' := (foldl (type_key (history s)) (line, i) ks).1 in
  ∃ s', edit_loop enc_decode fuel line i s = (Ok (Line line'), s') ∧
    events (shared s') = rest ∧ history s' = history s ∧
    ∀ i j, 0 ≤ i < rows v0 → 0 ≤ j < cols v0 →
      at_ (console_mgr (shared s')) i j =
      if (i =? cursor_row v0) && (cursor_col v0 <=? j)
      then Some (cell_of enc_decode ATTR_NORMAL cp (default 0x20 (idx line' (j - cursor_col v0))))
      else at_ v0 i j.
Proof.
  induction ks as [|ki ks IH]; intros fuel line i s Hed Hf Hrow Hq Hu He Hks Hen Hfuel;
    (destruct fuel as [|fuel]; [cbn in Hfuel; lia|]); cbn [edit_loop foldl map app] in *.
  - rewrite (bind_run _ _ _ _ _ (read_key_pressed _ _ _ Hq Hu He)). cbv beta iota.
    apply (editing_events v0 cp line rest) in Hed. set (s1 := with_shared _ s) in *.
    pose proof Hed as [Hk Hcp Ht (M1 & M2 & _) Hr Hc Hat].
    destruct (write_crlf enc_decode ATTR_NORMAL cp (console_mgr (shared s1)) Ht) as (v' & o & E & _ & _ & _ & _ & Hsame);
      [lia|]. rewrite <- Hcp in E. apply (write_out_screen _ _ _ _ Hk) in E.
    exists (with_shared (with_screen v' o (shared s1)) s1). split; [|split; [done|split; [done|]]].
    + unfold submits in Hen. unfold edit_key.
      assert (E2 : (write_out enc_decode CRLF;; mret (M:=cmd S H) (@None (rstring * Z))) s1 =
        (Ok None, with_shared (with_screen v' o (shared s1)) s1)) by by rewrite (bind_run _ _ _ _ _ E).
      rewrite (bind_run _ _ s1 None (with_shared (with_screen v' o (shared s1)) s1)); [done|].
      change ((get ≫= ?f) s1) with (f s1 s1). cbv beta zeta. by rewrite Hen.
    + intros i' j Hi Hj. cbn [console_mgr shared with_shared with_screen]. by rewrite Hsame, Hat.
  - apply Forall_cons in Hks as [[Hsub Hch] Hks].
    rewrite (bind_run _ _ _ _ _ (read_key_pressed _ _ _ Hq Hu He)). cbv beta iota.
    apply (editing_events v0 cp line (map Pressed ks ++ Pressed enter :: rest)) in Hed. set (s1 := with_shared _ s) in *.
    destruct (edit_key_types v0 cp (length ks) line i ki s1 Hed Hf Hsub Hch) as (s2 & E & Hed2 & Hd & Hf2).
    rewrite (bind_run _ _ _ _ _ E). cbv beta iota.
    destruct (drawn_same _ _ Hd) as (D1 & D2 & D3 & D4). change (history s1) with (history s) in *.
    destruct (type_key (history s) (line, i) ki) as [line2 i2] eqn:Etk. cbn [fst snd] in *.
    rewrite <- D4 in Hf2 |- *. apply (IH fuel line2 i2 s2); [done|done|done|by rewrite D2|by rewrite D3|by rewrite D1|done|done|cbn [length] in Hfuel; lia].
Qed.
End editor.

(** C20: what the user sees is what the shell gets.  On a window whose prompt leaves room, typing
    keys (letters, Backspace, Escape, the arrows through the history) and then Enter returns the
    line the keys spell, takes these keys and no more, and leaves the cells from the prompt on
    showing exactly this line, with blanks after it and every other cell as it was. *)
Theorem line_shown `{B : Build} {S H} `{HO : ShellHost H} enc_decode (s : CmdShell S H) ks enter rest :
  let v0 := console_mgr (shared s) in
  let cell c := Some (cell_of enc_decode ATTR_NORMAL (active_codepage (shared s)) c) in
  output_sink s = Vio → input_source s = Kbd →
  use_sdl2_text (shared s) = true → exit_requested (shared s) = false →
  tty_ok v0 → cursor_row v0 + 1 < rows v0 →
  (∀ j, cursor_col v0 ≤ j < cols v0 → at_ v0 (cursor_row v0) j = cell 0x20) →
  events (shared s) = map Pressed ks ++ Pressed enter :: rest →
  Forall (λ ki, submits ki = false ∧ ch ki < 0x80) ks → submits enter = true →
  cursor_col v0 + len ks < cols v0 →
  Forall (λ t, Forall ascii t ∧ cursor_col v0 + len t + len ks < cols v0) (history s) →
  let line := typed_line (history s) ks in
  ∃ s', read_line enc_decode s = (Ok (Line line), s') ∧ events (shared s') = rest ∧ history s' = history s ∧
    ∀ i j, 0 ≤ i < rows v0 → 0 ≤ j < cols v0 →
      at_ (console_mgr (shared s')) i j =
      if (i =? cursor_row v0) && (cursor_col v0 <=? j)
      then cell (default 0x20 (idx line (j - cursor_col v0)))
      else at_ v0 i j.
Proof.
  intros v0 cell Hk Hi Hu Hq Ht Hrow Hbl He Hks Hen Hroom Hh line.
  pose proof Ht as ([Hg Hcr Hcc] & _). pose proof (len_nonneg (history s)).
  unfold read_line. change ((get ≫= ?f) s) with (f s s). cbv beta. rewrite Hi.
  apply (edit_loop_types enc_decode v0 (active_codepage (shared s)) enter rest ks); try done.
  - split; try done; [by rewrite Z.add_0_r|]. intros i j Hi' Hj.
    destruct (Z.eqb_spec i (cursor_row v0)) as [->|]; cbn [andb]; [|done].
    destruct (Z.leb_spec (cursor_col v0) j); [|done].
    pose proof (len_nonneg (@nil Z)). rewrite idx_outside by (change (len (@nil Z)) with 0; lia). apply (Hbl j). lia.
  - split; try done; unfold len in *; cbn [length]; lia.
  - rewrite He, length_app, length_map. cbn [length]. lia.
Qed.

(** Typing, a correction and a line from the history. *)
Lemma line_shown_witness :
  let h := [str "dir"] in
  let key c := mk_key c 0 0 in
  let ks := [key 0x76; key 0x78; key 0x08; key 0x65; mk_key 0 SCAN_UP 0; mk_key 0 SCAN_DOWN 0; key 0x76; key 0x65; key 0x72] in
  let s := with_history h (with_shared (with_events (map Pressed ks ++ [Pressed (key 0x0D)]) false
    (shared (demo_shell []))) (demo_shell [])) in
  ∃ s', read_line (B := dev_profile) (HO := demo_host) same_bytes s = (Ok (Line (str "ver")), s') ∧
    at_ (console_mgr (shared s')) 0 2 = Some (0x72, 0x07, 0x72) ∧ at_ (console_mgr (shared s')) 0 3 = Some (0x20, 0x07, 0x20).
Proof.
  intros h key ks s.
  destruct (line_shown (B := dev_profile) (HO := demo_host) same_bytes s ks (key 0x0D) []) as (s' & E & _ & _ & Hat).
  - done.
  - done.
  - done.
  - done.
  - split; [|split; [done|right; by vm_compute]].
    split; [split; by vm_compute|split; by vm_compute|split; by vm_compute].
  - by vm_compute.
  - intros j Hj. assert (0 ≤ j < 80) as Hj' by exact Hj. clear Hj. unfold at_, cell_at. cbn [shared].
    assert (∀ k, (k < 80)%nat → at_ (console_mgr (shared s)) 0 (Z.of_nat k) =
      Some (cell_of same_bytes ATTR_NORMAL 437 0x20)) as Hall.
    { intros k Hk. do 80 (destruct k as [|k]; [vm_compute; reflexivity|]). lia. }
    specialize (Hall (Z.to_nat j)). rewrite Z2Nat.id in Hall by lia. apply Hall. lia.
  - done.
  - repeat apply Forall_cons_2; [split; [reflexivity|vm_compute; reflexivity]..|by apply Forall_nil_2].
  - done.
  - by vm_compute.
  - apply Forall_singleton. split; [|by vm_compute].
    repeat apply Forall_cons_2; [split; vm_compute; (reflexivity || discriminate)..|by apply Forall_nil_2].
  - exists s'. split; [exact E|]. split; (rewrite Hat by (vm_compute; split; done); vm_compute; reflexivity).
Defined.
