(* ===== verification/PmTypes.v ===== *)
(** The window manager (src/src/loader/pm_types.rs): windows, message queues, accelerator tables,
    the z-order and the focus.

    A message queue is its list of messages; the condition variable that wakes its reader has
    no state of its own.  A timer of the map is one whose thread runs.  What was sent to the GUI
    thread is a list, and [None] stands for a program without one.  The order in which a HashMap
    yields its entries is the function [order].  A search up the parents takes fuel: guest
    programs choose the parent of a window. *)
From S2P Require Import Prelude Bytes.
From S2P Require HostDir.

(** [OS2Message], [WindowClass], [MenuItem], [AccelEntry], [PresentationSpace] *)
Record OS2Message := mk_msg { m_hwnd : Z; m_msg : Z; m_mp1 : Z; m_mp2 : Z; m_time : Z; m_x : Z; m_y : Z }.
Record WindowClass := mk_class { c_name : rstring; c_pfn_wp : Z; c_style : Z }.
Inductive MenuItem := mk_item (i_id i_style i_attr : Z) (i_text : rstring) (i_children : list MenuItem).
Definition item_id (i : MenuItem) : Z := let '(mk_item d _ _ _ _) := i in d.
Definition item_style (i : MenuItem) : Z := let '(mk_item _ s _ _ _) := i in s.
Definition item_text (i : MenuItem) : rstring := let '(mk_item _ _ _ t _) := i in t.
Definition item_children (i : MenuItem) : list MenuItem := let '(mk_item _ _ _ _ l) := i in l.
Record AccelEntry := mk_accel { a_flags : Z; a_key : Z; a_cmd : Z }.
Record PresentationSpace := mk_ps {
  ps_hps : Z; ps_hwnd : Z; ps_color : Z; ps_back_color : Z; ps_mix_mode : Z; ps_back_mix : Z;
  ps_char_set : Z; ps_char_box : Z * Z; ps_current_pos : Z * Z;
}.

(** [GUIMessage]; the reply of a message box comes back through [ShowMessageBox]'s caller. *)
Inductive GUIMessage :=
| GCreateWindow (class title : rstring) (handle : Z)
| GResizeWindow (handle width height : Z)
| GMoveWindow (handle x y : Z)
| GShowWindow (handle : Z) (show : bool)
| GDrawBox (handle x1 y1 x2 y2 color : Z) (fill : bool)
| GDrawLine (handle x1 y1 x2 y2 color : Z)
| GDrawText (handle x y : Z) (text : rstring) (color : Z)
| GClearBuffer (handle : Z)
| GPresentBuffer (handle : Z)
| GSetClipboardText (text : rstring)
| GSetMouseCapture (hwnd : Z)
| GShowMessageBox (caption text : rstring) (style : Z).

(** [OS2Window], [WindowManager] *)
Record OS2Window := mk_window {
  w_handle : Z;
  class_name : rstring;
  pfn_wp : Z;
  parent : Z;
  w_hmq : Z;
  text : rstring;
  window_ulong : gmap Z Z;
  window_ushort : gmap Z Z;
  w_id : Z;
  children : list Z;
  w_x : Z;
  w_y : Z;
  w_cx : Z;
  w_cy : Z;
  visible : bool;
  w_style : Z;
  listbox_items : list rstring;
  menu_items : list MenuItem;
  menu_hwnd : Z;
  dialog_dismissed : bool;
  dialog_result : Z;
  frame_flags : Z;
}.
Definition set_pfn_wp (v0 : Z) (w : OS2Window) : OS2Window :=
  mk_window
    (w_handle w) (class_name w) v0 (parent w) (w_hmq w) (text w) (window_ulong w)
    (window_ushort w) (w_id w) (children w) (w_x w) (w_y w) (w_cx w) (w_cy w) (visible w)
    (w_style w) (listbox_items w) (menu_items w) (menu_hwnd w) (dialog_dismissed w)
    (dialog_result w) (frame_flags w).
Definition set_text (v0 : rstring) (w : OS2Window) : OS2Window :=
  mk_window
    (w_handle w) (class_name w) (pfn_wp w) (parent w) (w_hmq w) v0 (window_ulong w)
    (window_ushort w) (w_id w) (children w) (w_x w) (w_y w) (w_cx w) (w_cy w) (visible w)
    (w_style w) (listbox_items w) (menu_items w) (menu_hwnd w) (dialog_dismissed w)
    (dialog_result w) (frame_flags w).
Definition set_ulong (v0 : gmap Z Z) (w : OS2Window) : OS2Window :=
  mk_window
    (w_handle w) (class_name w) (pfn_wp w) (parent w) (w_hmq w) (text w) v0 (window_ushort
    w) (w_id w) (children w) (w_x w) (w_y w) (w_cx w) (w_cy w) (visible w) (w_style w)
    (listbox_items w) (menu_items w) (menu_hwnd w) (dialog_dismissed w) (dialog_result w)
    (frame_flags w).
Definition set_ushort (v0 : gmap Z Z) (w : OS2Window) : OS2Window :=
  mk_window
    (w_handle w) (class_name w) (pfn_wp w) (parent w) (w_hmq w) (text w) (window_ulong w) v0
    (w_id w) (children w) (w_x w) (w_y w) (w_cx w) (w_cy w) (visible w) (w_style w)
    (listbox_items w) (menu_items w) (menu_hwnd w) (dialog_dismissed w) (dialog_result w)
    (frame_flags w).
Definition set_id (v0 : Z) (w : OS2Window) : OS2Window :=
  mk_window
    (w_handle w) (class_name w) (pfn_wp w) (parent w) (w_hmq w) (text w) (window_ulong w)
    (window_ushort w) v0 (children w) (w_x w) (w_y w) (w_cx w) (w_cy w) (visible w) (w_style
    w) (listbox_items w) (menu_items w) (menu_hwnd w) (dialog_dismissed w) (dialog_result w)
    (frame_flags w).
Definition set_children (v0 : list Z) (w : OS2Window) : OS2Window :=
  mk_window
    (w_handle w) (class_name w) (pfn_wp w) (parent w) (w_hmq w) (text w) (window_ulong w)
    (window_ushort w) (w_id w) v0 (w_x w) (w_y w) (w_cx w) (w_cy w) (visible w) (w_style w)
    (listbox_items w) (menu_items w) (menu_hwnd w) (dialog_dismissed w) (dialog_result w)
    (frame_flags w).
Definition set_pos (v0 : Z) (v1 : Z) (w : OS2Window) : OS2Window :=
  mk_window
    (w_handle w) (class_name w) (pfn_wp w) (parent w) (w_hmq w) (text w) (window_ulong w)
    (window_ushort w) (w_id w) (children w) v0 v1 (w_cx w) (w_cy w) (visible w) (w_style w)
    (listbox_items w) (menu_items w) (menu_hwnd w) (dialog_dismissed w) (dialog_result w)
    (frame_flags w).
Definition set_size (v0 : Z) (v1 : Z) (w : OS2Window) : OS2Window :=
  mk_window
    (w_handle w) (class_name w) (pfn_wp w) (parent w) (w_hmq w) (text w) (window_ulong w)
    (window_ushort w) (w_id w) (children w) (w_x w) (w_y w) v0 v1 (visible w) (w_style w)
    (listbox_items w) (menu_items w) (menu_hwnd w) (dialog_dismissed w) (dialog_result w)
    (frame_flags w).
Definition set_visible (v0 : bool) (w : OS2Window) : OS2Window :=
  mk_window
    (w_handle w) (class_name w) (pfn_wp w) (parent w) (w_hmq w) (text w) (window_ulong w)
    (window_ushort w) (w_id w) (children w) (w_x w) (w_y w) (w_cx w) (w_cy w) v0 (w_style w)
    (listbox_items w) (menu_items w) (menu_hwnd w) (dialog_dismissed w) (dialog_result w)
    (frame_flags w).
Definition set_style (v0 : Z) (w : OS2Window) : OS2Window :=
  mk_window
    (w_handle w) (class_name w) (pfn_wp w) (parent w) (w_hmq w) (text w) (window_ulong w)
    (window_ushort w) (w_id w) (children w) (w_x w) (w_y w) (w_cx w) (w_cy w) (visible w) v0
    (listbox_items w) (menu_items w) (menu_hwnd w) (dialog_dismissed w) (dialog_result w)
    (frame_flags w).
Definition set_listbox (v0 : list rstring) (w : OS2Window) : OS2Window :=
  mk_window
    (w_handle w) (class_name w) (pfn_wp w) (parent w) (w_hmq w) (text w) (window_ulong w)
    (window_ushort w) (w_id w) (children w) (w_x w) (w_y w) (w_cx w) (w_cy w) (visible w)
    (w_style w) v0 (menu_items w) (menu_hwnd w) (dialog_dismissed w) (dialog_result w)
    (frame_flags w).
Definition set_menu_items (v0 : list MenuItem) (w : OS2Window) : OS2Window :=
  mk_window
    (w_handle w) (class_name w) (pfn_wp w) (parent w) (w_hmq w) (text w) (window_ulong w)
    (window_ushort w) (w_id w) (children w) (w_x w) (w_y w) (w_cx w) (w_cy w) (visible w)
    (w_style w) (listbox_items w) v0 (menu_hwnd w) (dialog_dismissed w) (dialog_result w)
    (frame_flags w).
Definition set_menu_hwnd (v0 : Z) (w : OS2Window) : OS2Window :=
  mk_window
    (w_handle w) (class_name w) (pfn_wp w) (parent w) (w_hmq w) (text w) (window_ulong w)
    (window_ushort w) (w_id w) (children w) (w_x w) (w_y w) (w_cx w) (w_cy w) (visible w)
    (w_style w) (listbox_items w) (menu_items w) v0 (dialog_dismissed w) (dialog_result w)
    (frame_flags w).
Definition set_dismissed (v0 : bool) (v1 : Z) (w : OS2Window) : OS2Window :=
  mk_window
    (w_handle w) (class_name w) (pfn_wp w) (parent w) (w_hmq w) (text w) (window_ulong w)
    (window_ushort w) (w_id w) (children w) (w_x w) (w_y w) (w_cx w) (w_cy w) (visible w)
    (w_style w) (listbox_items w) (menu_items w) (menu_hwnd w) v0 v1 (frame_flags w).
Definition set_frame_flags (v0 : Z) (w : OS2Window) : OS2Window :=
  mk_window
    (w_handle w) (class_name w) (pfn_wp w) (parent w) (w_hmq w) (text w) (window_ulong w)
    (window_ushort w) (w_id w) (children w) (w_x w) (w_y w) (w_cx w) (w_cy w) (visible w)
    (w_style w) (listbox_items w) (menu_items w) (menu_hwnd w) (dialog_dismissed w)
    (dialog_result w) v0.
Record WindowManager := mk_wm {
  classes : gmap rstring WindowClass;
  windows : gmap Z OS2Window;
  ps_map : gmap Z PresentationSpace;
  msg_queues : gmap Z (list OS2Message);
  frame_to_client : gmap Z Z;
  tid_to_hmq : gmap Z Z;
  gui_tx : option (list GUIMessage);
  timers : gset (Z * Z);
  clipboard : gmap Z Z;
  clipboard_open : bool;
  capture_hwnd : Z;
  clipboard_text : rstring;
  accel_tables : gmap Z (list AccelEntry);
  window_accel : gmap Z Z;
  next_hwnd : Z;
  next_hps : Z;
  next_hmq : Z;
  next_haccel : Z;
  z_order : list Z;
  focused_hwnd : Z;
  dirty : gset Z;
}.
Definition with_classes (v0 : gmap rstring WindowClass) (m : WindowManager) : WindowManager :=
  mk_wm
    v0 (windows m) (ps_map m) (msg_queues m) (frame_to_client m) (tid_to_hmq m) (gui_tx m)
    (timers m) (clipboard m) (clipboard_open m) (capture_hwnd m) (clipboard_text m)
    (accel_tables m) (window_accel m) (next_hwnd m) (next_hps m) (next_hmq m) (next_haccel
    m) (z_order m) (focused_hwnd m) (dirty m).
Definition with_windows (v0 : gmap Z OS2Window) (v1 : Z) (m : WindowManager) : WindowManager :=
  mk_wm
    (classes m) v0 (ps_map m) (msg_queues m) (frame_to_client m) (tid_to_hmq m) (gui_tx m)
    (timers m) (clipboard m) (clipboard_open m) (capture_hwnd m) (clipboard_text m)
    (accel_tables m) (window_accel m) v1 (next_hps m) (next_hmq m) (next_haccel m) (z_order
    m) (focused_hwnd m) (dirty m).
Definition with_ps (v0 : gmap Z PresentationSpace) (v1 : Z) (m : WindowManager) : WindowManager :=
  mk_wm
    (classes m) (windows m) v0 (msg_queues m) (frame_to_client m) (tid_to_hmq m) (gui_tx m)
    (timers m) (clipboard m) (clipboard_open m) (capture_hwnd m) (clipboard_text m)
    (accel_tables m) (window_accel m) (next_hwnd m) v1 (next_hmq m) (next_haccel m) (z_order
    m) (focused_hwnd m) (dirty m).
Definition with_queues (v0 : gmap Z (list OS2Message)) (v1 : Z) (m : WindowManager) : WindowManager :=
  mk_wm
    (classes m) (windows m) (ps_map m) v0 (frame_to_client m) (tid_to_hmq m) (gui_tx m)
    (timers m) (clipboard m) (clipboard_open m) (capture_hwnd m) (clipboard_text m)
    (accel_tables m) (window_accel m) (next_hwnd m) (next_hps m) v1 (next_haccel m) (z_order
    m) (focused_hwnd m) (dirty m).
Definition with_frames (v0 : gmap Z Z) (m : WindowManager) : WindowManager :=
  mk_wm
    (classes m) (windows m) (ps_map m) (msg_queues m) v0 (tid_to_hmq m) (gui_tx m) (timers
    m) (clipboard m) (clipboard_open m) (capture_hwnd m) (clipboard_text m) (accel_tables m)
    (window_accel m) (next_hwnd m) (next_hps m) (next_hmq m) (next_haccel m) (z_order m)
    (focused_hwnd m) (dirty m).
Definition with_tids (v0 : gmap Z Z) (m : WindowManager) : WindowManager :=
  mk_wm
    (classes m) (windows m) (ps_map m) (msg_queues m) (frame_to_client m) v0 (gui_tx m)
    (timers m) (clipboard m) (clipboard_open m) (capture_hwnd m) (clipboard_text m)
    (accel_tables m) (window_accel m) (next_hwnd m) (next_hps m) (next_hmq m) (next_haccel
    m) (z_order m) (focused_hwnd m) (dirty m).
Definition with_gui (v0 : option (list GUIMessage)) (m : WindowManager) : WindowManager :=
  mk_wm
    (classes m) (windows m) (ps_map m) (msg_queues m) (frame_to_client m) (tid_to_hmq m) v0
    (timers m) (clipboard m) (clipboard_open m) (capture_hwnd m) (clipboard_text m)
    (accel_tables m) (window_accel m) (next_hwnd m) (next_hps m) (next_hmq m) (next_haccel
    m) (z_order m) (focused_hwnd m) (dirty m).
Definition with_timers (v0 : gset (Z * Z)) (m : WindowManager) : WindowManager :=
  mk_wm
    (classes m) (windows m) (ps_map m) (msg_queues m) (frame_to_client m) (tid_to_hmq m)
    (gui_tx m) v0 (clipboard m) (clipboard_open m) (capture_hwnd m) (clipboard_text m)
    (accel_tables m) (window_accel m) (next_hwnd m) (next_hps m) (next_hmq m) (next_haccel
    m) (z_order m) (focused_hwnd m) (dirty m).
Definition with_clipboard (v0 : gmap Z Z) (v1 : bool) (v2 : rstring) (m : WindowManager) : WindowManager :=
  mk_wm
    (classes m) (windows m) (ps_map m) (msg_queues m) (frame_to_client m) (tid_to_hmq m)
    (gui_tx m) (timers m) v0 v1 (capture_hwnd m) v2 (accel_tables m) (window_accel m)
    (next_hwnd m) (next_hps m) (next_hmq m) (next_haccel m) (z_order m) (focused_hwnd m)
    (dirty m).
Definition with_capture (v0 : Z) (m : WindowManager) : WindowManager :=
  mk_wm
    (classes m) (windows m) (ps_map m) (msg_queues m) (frame_to_client m) (tid_to_hmq m)
    (gui_tx m) (timers m) (clipboard m) (clipboard_open m) v0 (clipboard_text m)
    (accel_tables m) (window_accel m) (next_hwnd m) (next_hps m) (next_hmq m) (next_haccel
    m) (z_order m) (focused_hwnd m) (dirty m).
Definition with_accel (v0 : gmap Z (list AccelEntry)) (v1 : gmap Z Z) (v2 : Z) (m : WindowManager) : WindowManager :=
  mk_wm
    (classes m) (windows m) (ps_map m) (msg_queues m) (frame_to_client m) (tid_to_hmq m)
    (gui_tx m) (timers m) (clipboard m) (clipboard_open m) (capture_hwnd m) (clipboard_text
    m) v0 v1 (next_hwnd m) (next_hps m) (next_hmq m) v2 (z_order m) (focused_hwnd m) (dirty
    m).
Definition with_z (v0 : list Z) (v1 : Z) (v2 : gset Z) (m : WindowManager) : WindowManager :=
  mk_wm
    (classes m) (windows m) (ps_map m) (msg_queues m) (frame_to_client m) (tid_to_hmq m)
    (gui_tx m) (timers m) (clipboard m) (clipboard_open m) (capture_hwnd m) (clipboard_text
    m) (accel_tables m) (window_accel m) (next_hwnd m) (next_hps m) (next_hmq m)
    (next_haccel m) v0 v1 v2.

Definition wm_new : WindowManager :=
  mk_wm ∅ ∅ ∅ ∅ ∅ ∅ None ∅ ∅ false 0 [] ∅ ∅ 0x1000 0x2000 0x3000 0x4000 [] 0 ∅.

Section manager.
Context {B : Build}.
Context (order : gmap Z Z → list (Z * Z)).
Implicit Types m : WindowManager.

(** * Windows *)

Definition register_class (name : rstring) (pfn style : Z) m : WindowManager :=
  with_classes (<[name := mk_class name pfn style]> (classes m)) m.
Definition get_class m (name : rstring) : option WindowClass := classes m !! name.
Definition new_window (h : Z) (class : rstring) (pfn par hmq : Z) : OS2Window :=
  mk_window h class pfn par hmq [] ∅ ∅ 0 [] 0 0 0 0 false 0 [] [] 0 false 0 0.
(** [if let Some(win) = wm.get_window_mut(h) { .. }] *)
Definition update_window (h : Z) (f : OS2Window → OS2Window) m : WindowManager :=
  with_windows (alter f h (windows m)) (next_hwnd m) m.
Definition create_window (class : rstring) (par hmq : Z) m : outcome () (Z * WindowManager) :=
  let h := next_hwnd m in
  let pfn := from_option c_pfn_wp 0 (classes m !! class) in
  let m := with_windows (<[h := new_window h class pfn par hmq]> (windows m)) (next_hwnd m) m in
  let m := if par =? 0 then m else update_window par (λ w, set_children (children w ++ [h]) w) m in
  next ← uadd M32 (next_hwnd m) 1;
  Ok (h, with_windows (windows m) next m).
Definition get_window m (h : Z) : option OS2Window := windows m !! h.
Definition get_ps_hwnd m (hps : Z) : Z := from_option ps_hwnd 0 (ps_map m !! hps).
Definition create_ps (hwnd : Z) m : outcome () (Z * WindowManager) :=
  let h := next_hps m in
  let ps := mk_ps h hwnd 0 0x00FFFFFF 6 6 0 (0, 0) (0, 0) in
  next ← uadd M32 (next_hps m) 1;
  Ok (h, with_ps (<[h := ps]> (ps_map m)) next m).
Definition create_mq m : outcome () (Z * WindowManager) :=
  let h := next_hmq m in
  next ← uadd M32 (next_hmq m) 1;
  Ok (h, with_queues (<[h := []]> (msg_queues m)) next m).
Definition get_mq m (h : Z) : option (list OS2Message) := msg_queues m !! h.
(** [mq.messages.push_back(msg)] *)
Definition push_back (hmq : Z) (msg : OS2Message) m : WindowManager :=
  with_queues (alter (λ q, q ++ [msg]) hmq (msg_queues m)) (next_hmq m) m.
Definition find_hmq_for_hwnd m (hwnd : Z) : option Z :=
  let own := w ← windows m !! hwnd; if w_hmq w =? 0 then None else Some (w_hmq w) in
  match own with
  | Some q => Some q
  | None => snd ∘ snd <$> list_find (λ p, is_Some (msg_queues m !! p.2)) (order (tid_to_hmq m))
  end.
Definition client_to_frame m (client_hwnd : Z) : Z :=
  from_option (fst ∘ snd) client_hwnd (list_find (λ p, p.2 = client_hwnd) (order (frame_to_client m))).
(** The timers stop; their threads, which wait for the window manager to post a message, are
    joined. *)
Definition stop_all_timers m : WindowManager := with_timers ∅ m.

(** * Accelerators *)

Definition add_accel_table (entries : list AccelEntry) m : outcome () (Z * WindowManager) :=
  let h := next_haccel m in
  next ← uadd M32 (next_haccel m) 1;
  Ok (h, with_accel (<[h := entries]> (accel_tables m)) (window_accel m) next m).
Definition set_window_accel (hwnd haccel : Z) m : WindowManager :=
  let t : gmap Z Z := window_accel m in
  with_accel (accel_tables m) (if haccel =? 0 then delete hwnd t else <[hwnd := haccel]> t)
    (next_haccel m) m.
Definition translate_accel m (hwnd key flags : Z) : option Z :=
  haccel ← window_accel m !! hwnd;
  entries ← accel_tables m !! haccel;
  a_cmd ∘ snd <$> list_find (λ e, a_key e = key ∧ Z.land (a_flags e) flags = a_flags e) entries.

(** * The tree of windows *)

Fixpoint find_frame_for_hwnd (fuel : nat) m (h : Z) : outcome () Z :=
  match fuel with
  | O => Diverge
  | S fuel =>
    match windows m !! h with
    | None => Ok h
    | Some w =>
      if parent w =? 0 then Ok h
      else if bool_decide (is_Some (frame_to_client m !! parent w)) then Ok (parent w)
      else find_frame_for_hwnd fuel m (parent w)
    end
  end.
(** The loop of [get_abs_rect_in_frame]. *)
Fixpoint abs_origin (fuel : nat) m (h ax ay : Z) : outcome () (Z * Z) :=
  match fuel with
  | O => Diverge
  | S fuel =>
    match windows m !! h with
    | None => Ok (ax, ay)
    | Some w =>
      ax ← (match HostDir.iadd ax (w_x w) with Ok x => Ok x | _ => Panic end);
      ay ← (match HostDir.iadd ay (w_y w) with Ok y => Ok y | _ => Panic end);
      if parent w =? 0 then Ok (ax, ay)
      else if bool_decide (is_Some (frame_to_client m !! parent w)) then Ok (ax, ay)
      else abs_origin fuel m (parent w) ax ay
    end
  end.
Definition get_abs_rect_in_frame (fuel : nat) m (hwnd : Z) : outcome () (Z * Z * Z * Z) :=
  let '(cx, cy) := from_option (λ w, (w_cx w, w_cy w)) (0, 0) (windows m !! hwnd) in
  '(ax, ay) ← abs_origin fuel m hwnd 0 0;
  Ok (ax, ay, cx, cy).
Definition find_child_by_id m (par id : Z) : option Z :=
  w ← windows m !! par;
  snd <$> list_find (λ c, w_id <$> windows m !! c = Some id) (children w).

(** * Z-order *)

Definition mark_dirty (hwnd : Z) m : WindowManager :=
  with_z (z_order m) (focused_hwnd m) (({[hwnd]} : gset Z) ∪ dirty m) m.
Definition mark_all_dirty m : WindowManager :=
  with_z (z_order m) (focused_hwnd m) (list_to_set (z_order m) ∪ dirty m) m.
Definition with_order (l : list Z) m : WindowManager := with_z l (focused_hwnd m) (dirty m) m.
Definition with_focus (h : Z) m : WindowManager := with_z (z_order m) h (dirty m) m.
(** [self.z_order.retain(|&h| h != frame_hwnd)] *)
Definition without (h : Z) (l : list Z) : list Z := filter (λ x, x ≠ h) l.
Definition z_push_top (h : Z) m : WindowManager :=
  mark_all_dirty (with_order
    (if bool_decide (h ∈ z_order m) then without h (z_order m) ++ [h] else z_order m ++ [h]) m).
Definition z_remove (h : Z) m : WindowManager :=
  let m := with_order (without h (z_order m)) m in
  mark_all_dirty (if focused_hwnd m =? h then with_focus (default 0 (last (z_order m))) m else m).
Definition z_push_bottom (h : Z) m : WindowManager :=
  mark_all_dirty (with_order (h :: without h (z_order m)) m).
Definition z_insert_behind (h behind : Z) m : WindowManager :=
  let l := without h (z_order m) in
  mark_all_dirty (with_order
    (match list_find (λ x, x = behind) l with
     | Some (pos, _) => take pos l ++ h :: drop pos l
     | None => l ++ [h]
     end) m).
(** A point inside the rectangle of a window; an i32 sum. *)
Definition in_window (w : OS2Window) (px py : Z) : outcome () bool :=
  let add a b := match HostDir.iadd a b with Ok x => Ok x | _ => Panic end in
  if negb (w_x w <=? px) then Ok false
  else
    right ← add (w_x w) (w_cx w);
    if negb (px <? right) then Ok false
    else if negb (w_y w <=? py) then Ok false
    else top ← add (w_y w) (w_cy w); Ok (py <? top).
Fixpoint hit_test m (l : list Z) (px py : Z) : outcome () (option Z) :=
  match l with
  | [] => Ok None
  | h :: l =>
    match windows m !! h with
    | Some w =>
      if negb (visible w) then hit_test m l px py
      else b ← in_window w px py; if (b : bool) then Ok (Some h) else hit_test m l px py
    | None => hit_test m l px py
    end
  end.
Definition z_hit_test m (px py : Z) : outcome () (option Z) := hit_test m (rev (z_order m)) px py.
End manager.

(** * Hit tests

    [shows m px py h]: the window of handle [h] is visible and the point lies in its rectangle. *)
Definition covers (w : OS2Window) (px py : Z) : Prop :=
  w_x w ≤ px < w_x w + w_cx w ∧ w_y w ≤ py < w_y w + w_cy w.
Definition shows (m : WindowManager) (px py h : Z) : Prop :=
  ∃ w, windows m !! h = Some w ∧ visible w = true ∧ covers w px py.
(** The far edges of the rectangle are i32 numbers. *)
Definition rect_fits (w : OS2Window) : Prop :=
  - 2 ^ 31 ≤ w_x w + w_cx w < 2 ^ 31 ∧ - 2 ^ 31 ≤ w_y w + w_cy w < 2 ^ 31.

Section hits.
Context {B : Build}.
Implicit Types m : WindowManager.

Lemma rev_reverse (l : list Z) : rev l = reverse l.
Proof. apply List.rev_alt. Qed.
Lemma iadd_ok a b : - 2 ^ 31 ≤ a + b < 2 ^ 31 → HostDir.iadd a b = Ok (a + b).
Proof. intros. unfold HostDir.iadd. by zbool. Qed.
Lemma in_window_spec w px py :
  rect_fits w → ∃ b : bool, in_window w px py = Ok b ∧ (b = true ↔ covers w px py).
Proof.
  intros [Hx Hy]. unfold in_window, covers. rewrite !iadd_ok by lia. out_simpl.
  repeat case_match; bool_split; eexists; (split; [done|]); try rewrite Z.ltb_lt; split; lia || done.
Qed.
Lemma hit_test_spec m px py l :
  (∀ h w, h ∈ l → windows m !! h = Some w → rect_fits w) →
  ∃ r, hit_test m l px py = Ok r ∧
    match r with
    | Some h => ∃ above below, l = above ++ h :: below ∧ shows m px py h ∧
                  ∀ x, x ∈ above → ¬ shows m px py x
    | None => ∀ x, x ∈ l → ¬ shows m px py x
    end.
Proof.
  induction l as [|h l IH]; intros Hfit; cbn [hit_test].
  { exists None. split; [done|]. set_solver. }
  assert (Hskip : ¬ shows m px py h → ∃ r, hit_test m l px py = Ok r ∧
    match r with
    | Some h' => ∃ above below, h :: l = above ++ h' :: below ∧ shows m px py h' ∧
                  ∀ x, x ∈ above → ¬ shows m px py x
    | None => ∀ x, x ∈ h :: l → ¬ shows m px py x
    end).
  { intros Hn. destruct IH as (r & -> & Hr); [set_solver|]. exists r. split; [done|].
    destruct r as [h'|]; [|set_solver].
    destruct Hr as (above & below & -> & ? & ?). exists (h :: above), below. set_solver. }
  destruct (windows m !! h) as [w|] eqn:Hw;
    [|apply Hskip; intros (w & Hw' & _); congruence].
  destruct (visible w) eqn:Hv; cbn [negb];
    [|apply Hskip; intros (w' & Hw' & ? & _); congruence].
  destruct (in_window_spec w px py) as ([] & -> & Hb); [by eapply Hfit; [left|]| |]; out_simpl.
  - exists (Some h). split; [done|]. exists [], l. split_and!; [done| |set_solver].
    exists w. naive_solver.
  - apply Hskip. intros (w' & Hw' & _ & Hc). simplify_eq. naive_solver.
Qed.
End hits.

(** A point belongs to the top-most visible window whose rectangle contains it: the hit test
    answers the last such window of the z-order, and none when there is none; a visible window
    brought to the top is the one found at each of its points. *)
Theorem hit_is_topmost {B : Build} (m : WindowManager) (px py : Z) :
  (∀ h w, h ∈ z_order m → windows m !! h = Some w → rect_fits w) →
  (∃ r, z_hit_test m px py = Ok r ∧
    match r with
    | Some h => ∃ below above, z_order m = below ++ h :: above ∧ shows m px py h ∧
                  ∀ x, x ∈ above → ¬ shows m px py x
    | None => ∀ x, x ∈ z_order m → ¬ shows m px py x
    end) ∧
  (∀ h w, windows m !! h = Some w → visible w = true → rect_fits w → covers w px py →
    z_hit_test (z_push_top h m) px py = Ok (Some h)).
Proof.
  intros Hfit. split.
  - destruct (hit_test_spec m px py (rev (z_order m))) as (r & Hr & Hspec).
    { intros h w Hh. apply Hfit. by rewrite rev_reverse, elem_of_reverse in Hh. }
    exists r. split; [exact Hr|]. rewrite rev_reverse in Hspec. destruct r as [h|].
    + destruct Hspec as (above & below & Hz & Hs & Hn). exists (reverse below), (reverse above).
      split_and!; [|done|intros x Hx; apply Hn; by rewrite elem_of_reverse in Hx].
      apply (f_equal reverse) in Hz. rewrite reverse_involutive, reverse_app, reverse_cons in Hz.
      by rewrite Hz, <- (assoc_L (++)).
    + intros x Hx. apply Hspec. by apply elem_of_reverse.
  - intros h w Hw Hv Hr Hc. unfold z_hit_test.
    assert (∃ l, z_order (z_push_top h m) = l ++ [h]) as [l ->]
      by (cbn; case_bool_decide; eauto).
    rewrite rev_reverse, reverse_snoc. cbn [hit_test].
    change (windows (z_push_top h m)) with (windows m). cbn. rewrite Hw, Hv. cbn [negb].
    destruct (in_window_spec w px py Hr) as ([] & -> & Hb); out_simpl; [done|naive_solver].
Qed.

Lemma hit_is_topmost_witness :
  let back := set_visible true (set_size 100 100 (set_pos 0 0 (new_window 0x1000 [] 0 0 0))) in
  let front := set_visible true (set_size 50 50 (set_pos 25 25 (new_window 0x1001 [] 0 0 0))) in
  let m := with_order [0x1000; 0x1001] (with_windows {[0x1000 := back; 0x1001 := front]} 0x1002 wm_new) in
  @z_hit_test dev_profile m 30 30 = Ok (Some 0x1001) ∧
  @z_hit_test dev_profile (z_push_top 0x1000 m) 30 30 = Ok (Some 0x1000).
Proof.
  intros back front m.
  assert (∀ h w, h ∈ z_order m → windows m !! h = Some w → rect_fits w) as Hfit.
  { intros h w Hh Hw. apply list_elem_of_In in Hh as [<-|[<-|[]]]; vm_compute in Hw;
      injection Hw as <-; repeat split; vm_compute; done. }
  split; [reflexivity|].
  refine (proj2 (@hit_is_topmost dev_profile m 30 30 Hfit) 0x1000 back eq_refl eq_refl _ _);
    repeat split; vm_compute; done.
Defined.
