(* ===== verification/PmRes.v ===== *)
(** The resource templates of the Presentation Manager (src/src/loader/pm_win.rs): menus and dialog
    boxes read from guest memory, and the windows made of a dialog template.

    An item of a menu takes six bytes at least and so does a nested menu, so the size of the
    template bounds the recursion. *)
From S2P Require Import Prelude Bytes Codepage GuestMem PmTypes.
From S2P Require FileFormat.

Definition MIS_SEPARATOR := 0x0004.
Definition MIS_SUBMENU := 0x0010.
Definition MIS_END := 0x8000.
Definition WS_VISIBLE := 0x80000000.
(** A u16 read as i16. *)
Definition as_i16 (x : Z) : Z := (x + 0x8000) mod M16 - 0x8000.
(** A bit of [flags] that [mask] names. *)
Definition has (flags mask : Z) : bool := negb (Z.land flags mask =? 0).

Section templates.
Context {B : Build}.
Implicit Types m : GuestMemory.

(** [base + a + b ..] in u32. *)
Fixpoint addr (base : Z) (l : list Z) : outcome () Z :=
  match l with [] => Ok base | a :: l => b ← uadd M32 base a; addr b l end.
Definition rd16 m (base : Z) (l : list Z) : outcome () Z :=
  a ← addr base l; Ok (default 0 (read16 m a)).

(** [read_nul_str_at]: the text and the new offset; [n] bytes are left. *)
Fixpoint nul_str m (base : Z) (n : nat) (offset : Z) : outcome () (rstring * Z) :=
  match n with
  | O => Ok ([], offset)
  | S n =>
    a ← uadd M32 base offset;
    let b := default 0 (read8 m a) in
    offset ← uadd M32 offset 1;
    if b =? 0 then Ok ([], offset)
    else '(s, offset) ← nul_str m base n offset; Ok (b :: s, offset)
  end.
Definition read_nul_str_at m (base offset max_size : Z) : outcome () (rstring * Z) :=
  nul_str m base (Z.to_nat (max_size - offset)) offset.

(** [parse_menu_items]: the items and the new offset. *)
Fixpoint parse_menu_items (fuel : nat) m (base size offset : Z) (use_count : bool) (remaining : Z)
    : outcome () (list MenuItem * Z) :=
  match fuel with
  | O => Diverge
  | S fuel =>
    if use_count && (remaining =? 0) then Ok ([], offset)
    else
      e ← uadd M32 offset 6;
      if size <? e then Ok ([], offset)
      else
        raw_style ← rd16 m base [offset];
        attr ← rd16 m base [offset; 2];
        id ← rd16 m base [offset; 4];
        offset ← uadd M32 offset 6;
        let is_last := negb use_count && has raw_style MIS_END in
        let style := Z.land raw_style (M16 - 1 - MIS_END) in
        '(text, offset) ← (if has style MIS_SEPARATOR then Ok ([], offset)
                           else read_nul_str_at m base offset size);
        '(children, offset) ←
          (if has style MIS_SUBMENU then
             e ← uadd M32 offset 10;
             if e <=? size then
               child_count ← rd16 m base [offset; 8];
               offset ← uadd M32 offset 10;
               parse_menu_items fuel m base size offset (0 <? child_count) child_count
             else Ok ([], offset)
           else Ok ([], offset));
        let item := mk_item id style attr text children in
        if is_last then Ok ([item], offset)
        else
          '(items, offset) ← parse_menu_items fuel m base size offset use_count
                               (if use_count then remaining - 1 else remaining);
          Ok (item :: items, offset)
  end.
Definition menu_fuel (size : Z) : nat := S (Z.to_nat size).
Definition parse_menu_template m (guest_addr size : Z) : outcome () (list MenuItem) :=
  if size <? 10 then Ok []
  else
    item_count ← rd16 m guest_addr [8];
    fst <$> parse_menu_items (menu_fuel size) m guest_addr size 10 (0 <? item_count) item_count.

(** [DlgItemInfo] *)
Record DlgItemInfo := mk_dlg_item {
  d_x : Z; d_y : Z; d_cx : Z; d_cy : Z; d_id : Z; d_style : Z; d_class : rstring; d_text : rstring;
}.
Record DlgTemplate := mk_dlg { t_x : Z; t_y : Z; t_cx : Z; t_cy : Z; t_title : rstring; t_items : list DlgItemInfo }.

Definition rd_i16 m (base : Z) (l : list Z) : outcome () Z := as_i16 <$> rd16 m base l.
(** Text of the pool at [off], when it lies inside. *)
Definition pool_text m (guest_addr off size : Z) : outcome () rstring :=
  if (0 <? off) && (off <? size) then fst <$> read_nul_str_at m guest_addr off size else Ok [].
(** The scan for the next item: a class ordinal from 1 to 10. *)
Fixpoint skip_data (fuel : nat) m (guest_addr items_end off : Z) : outcome () Z :=
  match fuel with
  | O => Diverge
  | S fuel =>
    e ← uadd M32 off 2;
    if e <=? items_end then
      maybe_class ← rd16 m guest_addr [off];
      if in_range 1 10 maybe_class then Ok off
      else off ← uadd M32 off 2; skip_data fuel m guest_addr items_end off
    else Ok off
  end.
Definition dlg_class (class_ord : Z) : rstring :=
  match class_ord with
  | 3 => str "WC_BUTTON" | 5 => str "WC_STATIC" | 6 => str "WC_ENTRYFIELD"
  | 7 => str "WC_LISTBOX" | _ => str "WC_STATIC"
  end.
(** The loop over the items, [left] of them. *)
Fixpoint dlg_items (left : nat) m (guest_addr size items_end off : Z) : outcome () (list DlgItemInfo) :=
  match left with
  | O => Ok []
  | S left =>
    e ← uadd M32 off 20;
    if items_end <? e then Ok []
    else
      class_ord ← rd16 m guest_addr [off];
      text_off ← rd16 m guest_addr [off; 4];
      off ← uadd M32 off 10;
      ix ← rd_i16 m guest_addr [off];
      iy ← rd_i16 m guest_addr [off; 2];
      icx ← rd_i16 m guest_addr [off; 4];
      icy ← rd_i16 m guest_addr [off; 6];
      id ← rd16 m guest_addr [off; 8];
      off ← uadd M32 off 10;
      off ← (if bool_decide (left = 0%nat) then Ok items_end
             else skip_data (menu_fuel size) m guest_addr items_end off);
      text ← pool_text m guest_addr text_off size;
      items ← dlg_items left m guest_addr size items_end off;
      Ok (mk_dlg_item ix iy icx icy id WS_VISIBLE (dlg_class class_ord) text :: items)
  end.
Definition parse_dlg_template m (guest_addr size : Z) : outcome () (option DlgTemplate) :=
  if size <? 40 then Ok None
  else
    c_items ← rd16 m guest_addr [16];
    title_off ← rd16 m guest_addr [24];
    x ← rd_i16 m guest_addr [30];
    y ← rd_i16 m guest_addr [32];
    cx ← rd_i16 m guest_addr [34];
    cy ← rd_i16 m guest_addr [36];
    title ← pool_text m guest_addr title_off size;
    let items_end := if (0 <? title_off) && (title_off <? size) then title_off else size in
    items ← dlg_items (Z.to_nat c_items) m guest_addr size items_end 50;
    Ok (Some (mk_dlg x y cx cy title items)).

(** [create_dialog_from_template]: the dialog and the message queue of its thread. *)
Fixpoint create_items (dlg hmq : Z) (items : list DlgItemInfo) (w : WindowManager) : outcome () WindowManager :=
  match items with
  | [] => Ok w
  | i :: items =>
    let class := if bool_decide (d_class i = []) then str "WC_STATIC" else d_class i in
    '(ch, w) ← create_window class dlg hmq w;
    create_items dlg hmq items
      (update_window ch (λ c, set_visible (has (d_style i) WS_VISIBLE) (set_style (d_style i)
         (set_id (d_id i) (set_size (d_cx i) (d_cy i) (set_pos (d_x i) (d_y i) (set_text (d_text i) c)))))) w)
  end.
Definition create_dialog_from_template (hwnd_parent pfn_dlg_proc vcpu_id : Z) (t : DlgTemplate)
    (w : WindowManager) : outcome () (Z * Z * WindowManager) :=
  let hmq := default 0 (tid_to_hmq w !! vcpu_id) in
  '(h, w) ← create_window (str "#Dialog") hwnd_parent hmq w;
  let w := update_window h (λ d, set_visible true (set_size (t_cx t) (t_cy t) (set_pos (t_x t) (t_y t)
             (set_pfn_wp pfn_dlg_proc (set_text (t_title t) d))))) w in
  w ← create_items h hmq (t_items t) (z_push_top h w);
  Ok (h, hmq, w).
End templates.

(** * The format of a menu

    A menu is a block: ten bytes, the number of items last, and the items.  An item is its style,
    its attribute and its id, the text unless it is a separator, and the block of its submenu. *)
Definition enc_block (n : Z) (body : bytes) : bytes :=
  le32 (10 + len body) ++ le16 850 ++ le16 0 ++ le16 n ++ body.
Fixpoint enc_item (i : MenuItem) : bytes :=
  let '(mk_item id style attr text children) := i in
  le16 style ++ le16 attr ++ le16 id ++
  (if has style MIS_SEPARATOR then [] else text ++ [0]) ++
  (if has style MIS_SUBMENU then enc_block (len children) (flat_map enc_item children) else []).
Definition enc_menu (items : list MenuItem) : bytes := enc_block (len items) (flat_map enc_item items).
Fixpoint item_count (i : MenuItem) : nat :=
  let '(mk_item _ _ _ _ children) := i in S (sum_list_with item_count children).

(** An item that a template can hold: a submenu has entries, and what is no submenu has none. *)
Definition item_text_ok (style : Z) (text : rstring) : Prop :=
  if has style MIS_SEPARATOR then text = [] else Forall (λ b, 1 ≤ b < 256) text.
Definition item_children_ok (style : Z) (children : list MenuItem) : Prop :=
  if has style MIS_SUBMENU then 0 < len children < M16 else children = [].
Inductive item_wf : MenuItem → Prop :=
| item_wf_intro id style attr text children :
    u16 id → u16 attr → 0 ≤ style < 0x8000 → item_text_ok style text → item_children_ok style children →
    Forall item_wf children → item_wf (mk_item id style attr text children).

Section template_lemmas.
Context {B : Build}.
Implicit Types m : GuestMemory.

Lemma rd16_at m base a :
  base + a < M32 → rd16 m base [a] = Ok (default 0 (read16 m (base + a))).
Proof. intros. unfold rd16, addr. arith_ok. done. Qed.
Lemma rd16_at2 m base a b :
  0 ≤ b → base + a + b < M32 → rd16 m base [a; b] = Ok (default 0 (read16 m (base + a + b))).
Proof. intros. unfold rd16, addr. arith_ok. done. Qed.

Lemma nul_str_ends m base n offset :
  0 ≤ base → 0 ≤ offset → base + offset + Z.of_nat n ≤ M32 → offset + Z.of_nat n < M32 →
  ∃ r, nul_str m base n offset = Ok r ∧ offset ≤ r.2 ≤ offset + Z.of_nat n.
Proof.
  intros Hb. revert offset. induction n as [|n IH]; intros offset Ho H1 H2; cbn [nul_str].
  { exists ([], offset). split; [done|simpl; lia]. }
  arith_ok. destruct (_ =? 0); [exists ([], offset + 1); split; [done|simpl; lia]|].
  eapply bind_yields; [apply IH; lia|]. intros [s o] Hr. eexists. split; [done|]. simpl in *. lia.
Qed.
Lemma read_nul_str_ends m base size offset :
  0 ≤ base → 0 ≤ offset ≤ size → base + size ≤ M32 → size < M32 →
  ∃ r, read_nul_str_at m base offset size = Ok r ∧ offset ≤ r.2 ≤ size.
Proof.
  intros. destruct (nul_str_ends m base (Z.to_nat (size - offset)) offset) as (r & H' & ?); [lia..|].
  exists r. split; [exact H'|lia].
Qed.

(** The parser ends inside the template; every item, nested ones too, took six bytes of it. *)
Definition consumed (size from : Z) (r : list MenuItem * Z) : Prop :=
  from ≤ r.2 ≤ size ∧ 6 * Z.of_nat (sum_list_with item_count r.1) ≤ r.2 - from.
Lemma parse_menu_items_ends fuel m base size offset use_count remaining :
  0 ≤ base → base + size ≤ M32 → size + 10 < M32 → 0 ≤ offset ≤ size →
  (Z.to_nat (size - offset) < fuel)%nat →
  ∃ r, parse_menu_items fuel m base size offset use_count remaining = Ok r ∧ consumed size offset r.
Proof.
  intros Hb Hs Hs'. unfold consumed. revert offset use_count remaining.
  induction fuel as [|fuel IH]; intros offset uc rem Ho Hf; [lia|]. cbn [parse_menu_items].
  destruct (uc && _); [exists ([], offset); split; [done|simpl; lia]|]. arith_ok.
  destruct (Z.ltb_spec size (offset + 6)); [exists ([], offset); split; [done|simpl; lia]|].
  rewrite rd16_at, !rd16_at2 by lia. arith_ok.
  set (style := Z.land _ _).
  eapply (bind_yields _ _ (λ r, offset + 6 ≤ r.2 ≤ size)).
  { destruct (has style MIS_SEPARATOR); [|apply read_nul_str_ends; lia].
    eexists; split; [done|simpl; lia]. }
  intros [s o1] Ho1; cbn [snd] in Ho1.
  eapply (bind_yields _ _ (λ r, o1 ≤ r.2 ≤ size ∧ 6 * Z.of_nat (sum_list_with item_count r.1) ≤ r.2 - o1)).
  { destruct (has style MIS_SUBMENU); [|exists ([], o1); split; [done|simpl; lia]]. arith_ok.
    destruct (Z.leb_spec (o1 + 10) size); [|exists ([], o1); split; [done|simpl; lia]].
    rewrite rd16_at2 by lia. arith_ok. edestruct IH as (r & -> & Hr); [| |exists r; split; [done|]]; lia. }
  intros [l1 o2] [Ho2 Hl1]; cbn [fst snd] in Ho2, Hl1. destruct (negb uc && _).
  { eexists; split; [done|]. cbn. lia. }
  eapply bind_yields; [apply IH; lia|]. intros [l o] [Hl Ho']; cbn [fst snd] in Hl, Ho'.
  eexists; split; [done|]. cbn. lia.
Qed.

(** * Reading a menu back *)

Lemma nul_str_text m base n offset s :
  GuestMem.size m < M64 → 0 ≤ base → 0 ≤ offset → base + offset + len s + 1 ≤ GuestMem.size m →
  base + offset + len s < M32 → offset + len s + 1 < M32 →
  (length s < n)%nat → Forall (λ b, 1 ≤ b < 256) s → FileFormat.holds m (base + offset) (s ++ [0]) →
  nul_str m base n offset = Ok (s, offset + len s + 1).
Proof.
  intros Hm Hb. revert offset n.
  induction s as [|c s IH]; intros offset [|n] Ho Hsz H1 H2 Hn Hs Hh; try (simpl in Hn; lia);
    cbn [nul_str]; rewrite ?len_cons in *; [|pose proof (len_nonneg s)].
  - unfold FileFormat.holds in Hh. cbn in Hh. unfold len in *. cbn in *. arith_ok.
    rewrite read_ok by (try done; cbn; lia). cbn. injection Hh as ->. cbn. do 2 f_equal. lia.
  - arith_ok. apply Forall_cons in Hs as [Hc Hs]. change (c :: s) with ([c] ++ s) in Hh.
    rewrite <- (assoc_L (++)) in Hh. apply FileFormat.holds_app in Hh as [H0 Hh].
    unfold FileFormat.holds in H0. cbn in H0. rewrite read_ok by (try done; cbn; lia). cbn. injection H0 as ->.
    rewrite Z.add_0_r. zbool. change (len [c]) with 1 in Hh. rewrite <- (Z.add_assoc base) in Hh.
    rewrite (IH (offset + 1) n) by (try done; simpl in Hn; lia). out_simpl. do 2 f_equal. lia.
Qed.
Lemma holds_at m p q l : FileFormat.holds m p l → p = q → FileFormat.holds m q l.
Proof. by intros ? ->. Qed.
Lemma has_low style k : 0 ≤ style < 0x8000 → has (Z.land style (M16 - 1 - MIS_END)) k = has style k.
Proof.
  intros. change (M16 - 1 - MIS_END) with (Z.ones 15). by rewrite land_ones_mod, Z.mod_small by lia.
Qed.
Lemma rd16_holds m base l a v :
  GuestMem.size m < M64 → addr base l = Ok a → a + 2 ≤ GuestMem.size m → FileFormat.holds m a (le16 v) →
  u16 v → rd16 m base l = Ok v.
Proof.
  intros Hm Ha Hsz Hh Hv. unfold rd16. rewrite Ha. out_simpl.
  erewrite FileFormat.holds_read by done. cbn. by rewrite Z.mod_small.
Qed.

Lemma text_read m base size o style text :
  let T := if has style MIS_SEPARATOR then [] else text ++ [0] in
  GuestMem.size m < M64 → base + size ≤ GuestMem.size m → base + size ≤ M32 → size + 10 < M32 →
  0 ≤ base → 0 ≤ o → o + len T ≤ size → item_text_ok style text → FileFormat.holds m (base + o) T →
  (if has style MIS_SEPARATOR then Ok ([], o) else read_nul_str_at m base o size) = Ok (text, o + len T).
Proof.
  unfold item_text_ok. destruct (has style MIS_SEPARATOR); cbv zeta; intros Hm Hms H1 H2 Hb Ho Hsz Ht Hh.
  { subst text. do 2 f_equal. unfold len. simpl. lia. }
  rewrite len_app in *. change (len [0]) with 1 in *. pose proof (len_nonneg text).
  unfold read_nul_str_at. erewrite nul_str_text; [do 2 f_equal; lia|lia..| |done|done].
  unfold len in *. lia.
Qed.
Lemma len_enc_block n body : len (enc_block n body) = 10 + len body.
Proof. unfold enc_block. rewrite !len_app, !len_le_bytes. lia. Qed.
Lemma parse_menu_items_enc fuel m base size items offset :
  GuestMem.size m < M64 → base + size ≤ GuestMem.size m → base + size ≤ M32 → size + 10 < M32 →
  0 ≤ base → 0 ≤ offset → Forall item_wf items →
  offset + len (flat_map enc_item items) ≤ size → len (flat_map enc_item items) < Z.of_nat fuel →
  FileFormat.holds m (base + offset) (flat_map enc_item items) →
  parse_menu_items fuel m base size offset true (len items) = Ok (items, offset + len (flat_map enc_item items)).
Proof.
  intros Hm Hms Hs Hs' Hb. revert items offset.
  induction fuel as [|fuel IH]; intros items offset Ho Hwf Hsz Hf Hh;
    [pose proof (len_nonneg (flat_map enc_item items)); lia|].
  destruct items as [|i items]; [cbn; do 2 f_equal; unfold len; simpl; lia|].
  cbn [parse_menu_items andb negb]. cbn [flat_map] in *. rewrite len_app in *.
  apply Forall_cons in Hwf as [Hi Hwf].
  destruct Hi as [id style attr text children Hid Hattr Hst Htext Hch Hwf'].
  rewrite len_cons. pose proof (len_nonneg items). pose proof (len_nonneg (flat_map enc_item items)).
  cbn [enc_item] in *. rewrite !len_app, !len_le_bytes in *.
  repeat rewrite <- (assoc_L (++)) in Hh.
  repeat rewrite FileFormat.holds_app, ?len_le_bytes in Hh. destruct Hh as (H1 & H2 & H3 & H4 & H5 & H6).
  set (T := if has style MIS_SEPARATOR then [] else text ++ [0]) in *.
  set (C := if has style MIS_SUBMENU then _ else _) in *.
  pose proof (len_nonneg T). pose proof (len_nonneg C).
  replace (base + offset + Z.of_nat 2 + Z.of_nat 2) with (base + offset + 4) in H3, H4, H5, H6 by lia.
  replace (base + offset + 4 + Z.of_nat 2) with (base + (offset + 6)) in H4, H5, H6 by lia.
  replace (base + offset + Z.of_nat 2) with (base + offset + 2) in H2 by lia.
  replace (base + (offset + 6) + len T) with (base + (offset + 6 + len T)) in H5, H6 by lia.
  replace (1 + len items =? 0) with false by (symmetry; apply Z.eqb_neq; lia). arith_ok.
  rewrite (proj2 (Z.ltb_ge size (offset + 6))) by lia.
  rewrite (rd16_holds m base [offset] (base + offset) style)
    by (done || (unfold addr; arith_ok; done) || lia || (unfold u16; lia)). out_simpl.
  rewrite (rd16_holds m base [offset; 2] (base + offset + 2) attr)
    by (done || (unfold addr; arith_ok; done) || lia). out_simpl.
  rewrite (rd16_holds m base [offset; 4] (base + offset + 4) id)
    by (done || (unfold addr; arith_ok; done) || lia). arith_ok.
  rewrite !has_low by done.
  replace (Z.land style _) with style by
    (change (M16 - 1 - MIS_END) with (Z.ones 15); rewrite land_ones_mod, Z.mod_small; lia).
  eapply bind_eq; [apply (text_read m base size (offset + 6)); try done; fold T; lia|]. fold T.
  eapply (bind_eq _ _ (children, offset + 6 + len T + len C)).
  { unfold item_children_ok in Hch. subst C. destruct (has style MIS_SUBMENU).
    2: { subst children. do 2 f_equal. unfold len at 3. simpl. lia. }
    rewrite len_enc_block in *. pose proof (len_nonneg (flat_map enc_item children)). arith_ok. zbool.
    unfold enc_block in H5. repeat rewrite FileFormat.holds_app, ?len_le_bytes in H5.
    destruct H5 as (_ & _ & _ & Hn & Hbody).
    rewrite (rd16_holds m base [offset + 6 + len T; 8] (base + (offset + 6 + len T) + 8) (len children)).
    2: done. 2: { unfold addr. arith_ok. done. } 2: lia.
    2: { eapply holds_at; [exact Hn|lia]. } 2: { unfold u16; lia. } arith_ok. zbool.
    rewrite IH; try done; try lia; [do 2 f_equal; lia|].
    eapply holds_at; [exact Hbody|lia]. }
  cbn [andb negb]. replace (1 + len items - 1) with (len items) by lia.
  eapply bind_eq; [apply (IH items (offset + 6 + len T + len C)); try done; try lia|do 2 f_equal; lia].
  eapply holds_at; [exact H6|lia].
Qed.

(** * Dialog templates *)

Lemma rd16_yields m base a b : base + a < M32 → 0 ≤ b → base + a + b < M32 →
  (∃ x, rd16 m base [a] = Ok x ∧ True) ∧ (∃ x, rd16 m base [a; b] = Ok x ∧ True) ∧
  (∃ x, rd_i16 m base [a] = Ok x ∧ True) ∧ (∃ x, rd_i16 m base [a; b] = Ok x ∧ True).
Proof. intros. unfold rd_i16. rewrite rd16_at, rd16_at2 by done. split_and!; by eexists. Qed.
Lemma pool_text_ends m base off size :
  0 ≤ base → base + size ≤ M32 → size < M32 → ∃ s, pool_text m base off size = Ok s ∧ True.
Proof.
  intros. unfold pool_text. destruct (Z.ltb_spec 0 off); [|by eexists]. destruct (Z.ltb_spec off size); [|by eexists].
  destruct (read_nul_str_ends m base size off) as (r & -> & _); [lia..|]. by eexists.
Qed.
Lemma skip_data_ends fuel m base items_end off :
  0 ≤ base → base + items_end ≤ M32 → items_end + 2 < M32 → 0 ≤ off ≤ items_end →
  (Z.to_nat (items_end - off) < fuel)%nat →
  ∃ o, skip_data fuel m base items_end off = Ok o ∧ off ≤ o ≤ items_end.
Proof.
  intros Hb H1 H2. revert off. induction fuel as [|fuel IH]; intros off Ho Hf; [lia|]. cbn [skip_data].
  arith_ok. destruct (Z.leb_spec (off + 2) items_end); [|eexists; split; [done|lia]].
  rewrite rd16_at by lia. out_simpl. destruct (in_range _ _ _); [eexists; split; [done|lia]|].
  arith_ok. destruct (IH (off + 2)) as (o & -> & ?); [lia..|]. eexists; split; [done|lia].
Qed.
(** Every item took twenty bytes. *)
Lemma dlg_items_ends left m base size items_end off :
  0 ≤ base → base + size ≤ M32 → size + 20 < M32 → items_end ≤ size → 0 ≤ off ≤ size + 50 → size + 70 < M32 →
  ∃ l, dlg_items left m base size items_end off = Ok l ∧ off + 20 * len l ≤ Z.max items_end off.
Proof.
  intros Hb H1 H2 H3 Ho H4. revert off Ho.
  induction left as [|left IH]; intros off Ho; cbn [dlg_items]; [by exists []; split; [|simpl; unfold len; simpl; lia]|].
  arith_ok. destruct (Z.ltb_spec items_end (off + 20)); [by exists []; split; [|unfold len; simpl; lia]|].
  do 2 (eapply bind_yields; [apply (rd16_yields m base off 4); lia|intros ? _]). arith_ok.
  eapply bind_yields; [apply (rd16_yields m base (off + 10) 0); lia|intros ? _].
  eapply bind_yields; [apply (rd16_yields m base (off + 10) 2); lia|intros ? _].
  eapply bind_yields; [apply (rd16_yields m base (off + 10) 4); lia|intros ? _].
  eapply bind_yields; [apply (rd16_yields m base (off + 10) 6); lia|intros ? _].
  eapply bind_yields; [apply (rd16_yields m base (off + 10) 8); lia|intros ? _]. arith_ok.
  eapply (bind_yields _ _ (λ o, off + 20 ≤ o ≤ items_end)).
  { case_bool_decide; [eexists; split; [done|lia]|].
    replace (off + 10 + 10) with (off + 20) by lia. apply skip_data_ends; unfold menu_fuel; lia. }
  intros o Ho'. eapply bind_yields; [apply pool_text_ends; lia|intros txt _].
  eapply bind_yields; [apply IH; lia|]. intros l Hl. simpl in Hl.
  eexists. split; [done|]. rewrite len_cons. lia.
Qed.
End template_lemmas.

(** * Properties *)

(** C27: the parsers of the resource templates end, whatever the bytes of the resource say: a menu
    template yields no more items than fit its size at six bytes each, however they are nested,
    and a dialog template no more controls than fit at twenty bytes each. *)
Theorem templates_end {B : Build} (m : GuestMemory) (base size : Z) :
  0 ≤ base → 0 ≤ size → base + size ≤ M32 → size + 70 < M32 →
  (∃ items, parse_menu_template m base size = Ok items ∧
     6 * Z.of_nat (sum_list_with item_count items) ≤ Z.max 0 (size - 10)) ∧
  (∃ t, parse_dlg_template m base size = Ok t ∧
     (is_Some t ↔ 40 ≤ size) ∧ ∀ d, t = Some d → 20 * len (t_items d) ≤ Z.max 0 (size - 50)).
Proof.
  intros Hb Hs H1 H2. split.
  - unfold parse_menu_template. destruct (Z.ltb_spec size 10); [exists []; cbn; split; [done|lia]|].
    rewrite rd16_at by lia. out_simpl.
    edestruct parse_menu_items_ends as ([l o] & Hp & Hr); [..|erewrite Hp]; unfold menu_fuel; try lia.
    exists l. split; [done|]. destruct Hr; simpl in *. lia.
  - unfold parse_dlg_template. destruct (Z.ltb_spec size 40).
    { exists None. split_and!; [done| |done]. split; [by intros []|lia]. }
    rewrite !rd16_at by lia. out_simpl.
    eapply bind_yields; [apply (rd16_yields m base 30 0); lia|intros ? _].
    eapply bind_yields; [apply (rd16_yields m base 32 0); lia|intros ? _].
    eapply bind_yields; [apply (rd16_yields m base 34 0); lia|intros ? _].
    eapply bind_yields; [apply (rd16_yields m base 36 0); lia|intros ? _].
    eapply bind_yields; [apply pool_text_ends; lia|intros ? _].
    eapply bind_yields; [apply (dlg_items_ends (Z.to_nat (default 0 (read16 m (base + 16)))) m base size); try lia|].
    { destruct (_ && _) eqn:Hc; [|lia]. apply andb_true_iff in Hc as [_ Hc%Z.ltb_lt]. lia. }
    intros l Hl. simpl in Hl. eexists. split_and!; [done|split; [lia|by eexists]|]. intros d [= <-]. cbn.
    destruct (_ && _) eqn:Hc; [|lia]. apply andb_true_iff in Hc as [_ Hc%Z.ltb_lt]. lia.
Qed.

(** C26: a menu written in the format of the resource compiler is read back as it was: styles,
    attributes, ids, texts and submenus of any depth, in order. *)
Theorem menu_read_back {B : Build} (m : GuestMemory) (base size : Z) (items : list MenuItem) :
  GuestMem.size m < M64 → base + size ≤ GuestMem.size m → base + size ≤ M32 → size + 10 < M32 → 0 ≤ base →
  Forall item_wf items → 0 < len items < M16 → len (enc_menu items) ≤ size →
  FileFormat.holds m base (enc_menu items) →
  parse_menu_template m base size = Ok items.
Proof.
  intros Hm Hms H1 H2 Hb Hwf Hn Hsz Hh. unfold enc_menu in *. rewrite len_enc_block in Hsz.
  pose proof (len_nonneg (flat_map enc_item items)).
  unfold parse_menu_template. zbool. unfold enc_block in Hh.
  repeat rewrite FileFormat.holds_app, ?len_le_bytes in Hh. destruct Hh as (_ & _ & _ & Hcount & Hbody).
  rewrite (rd16_holds m base [8] (base + 8) (len items)).
  2: done. 2: { unfold addr. by arith_ok. } 2: lia.
  2: { eapply holds_at; [exact Hcount|lia]. } 2: { unfold u16. lia. }
  out_simpl. zbool. rewrite parse_menu_items_enc; [done|done|try lia..]; try done.
  - unfold menu_fuel. lia.
  - eapply holds_at; [exact Hbody|lia].
Qed.

Lemma menu_read_back_witness :
  let menu := [mk_item 1 0x11 0 (str "~File") [mk_item 10 0x1 0 (str "~Open") []; mk_item 0 0x4 0 [] [];
                 mk_item 11 0x11 2 (str "Recent") [mk_item 12 0x1 0 (str "a.txt") []]];
               mk_item 2 0x1 0 (str "~Help") []] in
  @parse_menu_template dev_profile (store_bytes (alloc 4096) 256 (enc_menu menu)) 256 200 = Ok menu.
Proof.
  intros menu. apply menu_read_back; try (vm_compute; congruence).
  all: repeat constructor; try (vm_compute; congruence).
Defined.
Lemma templates_end_witness :
  ∃ items, @parse_menu_template dev_profile (store_bytes (alloc 4096) 256 (replicate 64 0xFF)) 256 64 = Ok items ∧
    6 * Z.of_nat (sum_list_with item_count items) ≤ 54.
Proof. apply (@templates_end dev_profile _ 256 64); lia. Defined.
