(* ===== verification/PmControls.v ===== *)
(** The built-in window classes of the Presentation Manager (src/src/loader/mod.rs,
    [dispatch_builtin_control]): painting, the menu bar with its dropdowns, the buttons of a
    dialog and list boxes; with the state the calls of the Presentation Manager work on. *)
From S2P Require Import Prelude Bytes Codepage GuestMem PmTypes PmRes.
From S2P Require Managers ApiRegistry.
From S2P Require HostDir.

Abbreviation ApiResult := ApiRegistry.ApiResult.
Abbreviation Normal := ApiRegistry.RNormal.

Definition WM_PAINT := 0x0023.
Definition WM_COMMAND := 0x0020.
Definition WM_CONTROL := 0x0030.
Definition WM_BUTTON1DOWN := 0x0071.
Definition WM_BUTTON1UP := 0x0072.
Definition WM_MENUEND := 0x0079.
Definition LM_INSERTITEM := 0x0161.
Definition LM_QUERYITEMCOUNT := 0x0160.
Definition BN_CLICKED := 0.
Definition DROP_W := 120.
Definition ITEM_H := 16.
Definition DLG_TITLE_H := 16.
Definition TILDE := 0x7E.

(** What the calls work on: the window manager, guest memory, the resources of the program,
    the active codepage and whether the program is to end. *)
Record Pm := mk_pm {
  wm : WindowManager; mem : GuestMemory; resources : Managers.ResourceManager;
  active_cp : Z; shutting_down : bool;
}.
Definition gui (A : Type) : Type := Pm → outcome () (A * Pm).
#[export] Instance gui_ret : MRet gui := λ A a s, Ok (a, s).
#[export] Instance gui_bind : MBind gui := λ A B f m s, '(a, s) ← m s; f a s.
Definition ask {A} (f : Pm → A) : gui A := λ s, Ok (f s, s).
Definition pure {A} (o : outcome () A) : gui A := λ s, a ← o; Ok (a, s).
Definition in_wm (f : WindowManager → WindowManager) : gui () := λ s,
  Ok (tt, mk_pm (f (wm s)) (mem s) (resources s) (active_cp s) (shutting_down s)).
Definition on_wm {A} (f : WindowManager → outcome () (A * WindowManager)) : gui A := λ s,
  '(a, w) ← f (wm s); Ok (a, mk_pm w (mem s) (resources s) (active_cp s) (shutting_down s)).
Definition in_mem (f : GuestMemory → GuestMemory) : gui () := λ s,
  Ok (tt, mk_pm (wm s) (f (mem s)) (resources s) (active_cp s) (shutting_down s)).
(** [if let Some(ref sender) = wm.gui_tx { sender.send(msg) }] *)
Definition send (l : list GUIMessage) : gui () :=
  in_wm (λ m, with_gui ((λ q, q ++ l) <$> gui_tx m) m).

Section controls.
Context {B : Build}.
Context (order : gmap Z Z → list (Z * Z)).
Context (enc_decode : Encoding → bytes → rstring).

(** An i32 with the exact value [x]. *)
Definition i32 (x : Z) : outcome () Z :=
  if (- 2 ^ 31 <=? x) && (x <? 2 ^ 31) then Ok x
  else if overflow_checks then Panic else Ok (HostDir.as_i32 x).
Definition get_str (ptr : Z) : gui rstring :=
  ask (λ s, read_guest_string enc_decode (active_cp s) (mem s) ptr).
(** A message to the queue of a window, if it is found. *)
Definition post (target : Z) (msg : OS2Message) : gui () :=
  in_wm (λ m, match find_hmq_for_hwnd order m target with Some q => push_back q msg m | None => m end).
Definition message (hwnd msg mp1 mp2 : Z) : OS2Message := mk_msg hwnd msg mp1 mp2 0 0 0.

(** * Painting *)

Record ControlInfo := mk_info {
  k_class : rstring; k_x : Z; k_y : Z; k_cx : Z; k_cy : Z; k_text : rstring; k_id : Z; k_parent : Z;
}.
(** Going up the parents visits no window twice, unless the parents form a circle. *)
Definition tree_fuel (m : WindowManager) : nat := S (base.size (windows m)).
Definition control_info (hwnd : Z) : gui (option ControlInfo) :=
  m ← ask wm;
  '(ax, ay, acx, acy) ← pure (get_abs_rect_in_frame (tree_fuel m) m hwnd);
  mret ((λ w, mk_info (class_name w) ax ay acx acy (text w) (w_id w) (parent w)) <$> get_window m hwnd).

(** A filled or framed box from its corner and size; a text, when there is one. *)
Definition draw_box (h x y cx cy color : Z) (fill : bool) : outcome () (list GUIMessage) :=
  x2 ← i32 (x + cx); y2 ← i32 (y + cy); Ok [GDrawBox h x y x2 y2 color fill].
Definition draw_label (h x dx y cy : Z) (t : rstring) : outcome () (list GUIMessage) :=
  if bool_decide (t = []) then Ok []
  else tx ← i32 (x + dx); ty ← i32 (y + Z.quot cy 4); Ok [GDrawText h tx ty t 0x00000000].
Definition framed (h x y cx cy back : Z) : outcome () (list GUIMessage) :=
  a ← draw_box h x y cx cy back true; b ← draw_box h x y cx cy 0x00808080 false; Ok (a ++ b).

(** The label of an item: its text without the marker of the accelerator.  The painting takes
    the length of its UTF-8, the tests for a click the number of its characters. *)
Definition label_of (i : MenuItem) : rstring := filter (λ c, c ≠ TILDE) (item_text i).
Definition label_width (n : Z) : outcome () Z := a ← i32 (HostDir.as_i32 n * 8); i32 (a + 8).
Definition painted_width (i : MenuItem) : outcome () Z := label_width (len (as_bytes (label_of i))).
Definition tested_width (i : MenuItem) : outcome () Z := label_width (len (label_of i)).
Definition separates (i : MenuItem) : bool := has (item_style i) MIS_SEPARATOR.
(** The names of the bar; [n] is the index of the first. *)
Fixpoint bar_labels (h y cy open_item n item_x : Z) (items : list MenuItem) : outcome () (list GUIMessage) :=
  match items with
  | [] => Ok []
  | i :: items =>
    if separates i then bar_labels h y cy open_item (n + 1) item_x items
    else
      label_w ← painted_width i;
      a ← (if (0 <? open_item) && (n =? open_item - 1) then
             b ← draw_box h item_x y label_w cy 0x00000080 true;
             tx ← i32 (item_x + 2); ty ← i32 (y + 2);
             Ok (b ++ [GDrawText h tx ty (label_of i) 0x00FFFFFF])
           else tx ← i32 (item_x + 2); ty ← i32 (y + 2); Ok [GDrawText h tx ty (label_of i) 0x00000000]);
      item_x ← i32 (item_x + label_w);
      b ← bar_labels h y cy open_item (n + 1) item_x items;
      Ok (a ++ b)
  end.
(** The left edge of the dropdown of item [idx]. *)
Fixpoint drop_left (idx : nat) (drop_x : Z) (items : list MenuItem) : outcome () Z :=
  match idx, items with
  | S idx, i :: items =>
    if separates i then drop_left idx drop_x items
    else lw ← tested_width i; x ← i32 (drop_x + lw); drop_left idx x items
  | _, _ => Ok drop_x
  end.
(** The rows of a dropdown from the top; [n] is the number of the first. *)
Fixpoint drop_rows (h drop_x drop_y2 n : Z) (items : list MenuItem) : outcome () (list GUIMessage) :=
  match items with
  | [] => Ok []
  | c :: items =>
    off ← i32 (HostDir.as_i32 n * ITEM_H);
    item_y2 ← i32 (drop_y2 - off);
    item_y1 ← i32 (item_y2 - ITEM_H);
    a ← (if separates c then
           s ← i32 (item_y1 + item_y2);
           let sep_y := Z.quot s 2 in
           x1 ← i32 (drop_x + 2); x2 ← i32 (drop_x + DROP_W); x2 ← i32 (x2 - 2); y2 ← i32 (sep_y + 1);
           Ok [GDrawBox h x1 sep_y x2 y2 0x00808080 true]
         else x1 ← i32 (drop_x + 4); y1 ← i32 (item_y1 + 2); Ok [GDrawText h x1 y1 (label_of c) 0x00000000]);
    b ← drop_rows h drop_x drop_y2 (n + 1) items;
    Ok (a ++ b)
  end.
(** The rectangle of the dropdown of item [idx]: left, bottom, top. *)
Definition drop_rect (k : ControlInfo) (items : list MenuItem) (idx : Z) (p : MenuItem)
    : outcome () (Z * Z * Z) :=
  left ← i32 (k_x k + 4);
  drop_x ← drop_left (Z.to_nat idx) left items;
  drop_h ← i32 (HostDir.as_i32 (len (item_children p)) * ITEM_H);
  drop_y1 ← i32 (k_y k - drop_h);
  Ok (drop_x, drop_y1, k_y k).
Definition paint_menu (h open_item : Z) (k : ControlInfo) (items : list MenuItem)
    : outcome () (list GUIMessage) :=
  bar ← draw_box h (k_x k) (k_y k) (k_cx k) (k_cy k) 0x00D4D0C8 true;
  border ← draw_box h (k_x k) (k_y k) (k_cx k) 1 0x00808080 true;
  left ← i32 (k_x k + 4);
  labels ← bar_labels h (k_y k) (k_cy k) open_item 0 left items;
  drop ← (if 0 <? open_item then
            match idx items (open_item - 1) with
            | None => Ok []
            | Some p =>
              '(drop_x, drop_y1, drop_y2) ← drop_rect k items (open_item - 1) p;
              x2 ← i32 (drop_x + DROP_W);
              rows ← drop_rows h drop_x drop_y2 0 (item_children p);
              Ok (GDrawBox h drop_x drop_y1 x2 drop_y2 0x00D4D0C8 true ::
                  GDrawBox h drop_x drop_y1 x2 drop_y2 0x00808080 false :: rows)
            end
          else Ok []);
  Ok (bar ++ border ++ labels ++ drop ++ [GPresentBuffer h]).

(** The children of a dialog that exist. *)
Definition child_windows (m : WindowManager) (hwnd : Z) : list OS2Window :=
  omap (get_window m) (from_option children [] (get_window m hwnd)).
Definition paint_child (h : Z) (c : OS2Window) : outcome () (list GUIMessage) :=
  if bool_decide (class_name c = str "WC_BUTTON") then
    a ← framed h (w_x c) (w_y c) (w_cx c) (w_cy c) 0x00D4D0C8;
    b ← draw_label h (w_x c) 2 (w_y c) (w_cy c) (text c);
    Ok (a ++ b)
  else if bool_decide (class_name c = str "WC_STATIC") then
    draw_label h (w_x c) 0 (w_y c) (w_cy c) (text c)
  else Ok [].
Fixpoint paint_children (h : Z) (l : list OS2Window) : outcome () (list GUIMessage) :=
  match l with
  | [] => Ok []
  | c :: l => a ← paint_child h c; b ← paint_children h l; Ok (a ++ b)
  end.
Definition paint_dialog (h : Z) (k : ControlInfo) (l : list OS2Window) : outcome () (list GUIMessage) :=
  title_y ← i32 (k_cy k - DLG_TITLE_H);
  title ← (if bool_decide (k_text k = []) then Ok []
           else ty ← i32 (title_y + 2); Ok [GDrawText h 4 ty (k_text k) 0x00FFFFFF]);
  items ← paint_children h l;
  Ok ([GDrawBox h 0 0 (k_cx k) (k_cy k) 0x00D4D0C8 true; GDrawBox h 0 title_y (k_cx k) (k_cy k) 0x00000080 true] ++
      title ++ [GDrawBox h 0 0 (k_cx k) (k_cy k) 0x00808080 false] ++ items ++ [GPresentBuffer h]).

Definition is_class (k : ControlInfo) (c : string) : bool := bool_decide (k_class k = str c).
(** The WM_PAINT branch. *)
Definition paint_messages (m : WindowManager) (hwnd frame_hwnd : Z) (k : ControlInfo)
    : outcome () (list GUIMessage) :=
  let h := frame_hwnd in
  let '(x, y, cx, cy) := (k_x k, k_y k, k_cx k, k_cy k) in
  if is_class k "WC_BUTTON" then
    a ← framed h x y cx cy 0x00D4D0C8; b ← draw_label h x 4 y cy (k_text k); Ok (a ++ b)
  else if is_class k "WC_STATIC" then draw_label h x 0 y cy (k_text k)
  else if is_class k "WC_SCROLLBAR" then draw_box h x y cx cy 0x00A0A0A0 true
  else if is_class k "WC_ENTRYFIELD" || is_class k "WC_MLE" then
    a ← framed h x y cx cy 0x00FFFFFF; b ← draw_label h x 2 y cy (k_text k); Ok (a ++ b)
  else if is_class k "WC_LISTBOX" then framed h x y cx cy 0x00FFFFFF
  else if is_class k "#Menu" then
    paint_menu h (default 0 (w ← get_window m hwnd; window_ulong w !! (-1))) k
      (from_option menu_items [] (get_window m hwnd))
  else if is_class k "#Dialog" then paint_dialog hwnd k (child_windows m hwnd)
  else Ok [].
Definition paint (hwnd : Z) (k : ControlInfo) : gui ApiResult :=
  m ← ask wm;
  frame_hwnd ← pure (find_frame_for_hwnd (tree_fuel m) m hwnd);
  match gui_tx m with
  | None => mret (Normal 0)
  | Some _ => l ← pure (paint_messages m hwnd frame_hwnd k); send l;; mret (Normal 0)
  end.
(** [dispatch_builtin_control(hwnd, WM_PAINT, 0, 0)] *)
Definition repaint (hwnd : Z) : gui ApiResult :=
  k ← control_info hwnd;
  match k with None => mret (Normal 0) | Some k => paint hwnd k end.

(** * Clicks *)

(** The open item of a menu is kept in the window's word -1, counted from 1. *)
Definition close_menu (hwnd : Z) : gui () :=
  in_wm (update_window hwnd (λ w, set_ulong (delete (-1) (window_ulong w)) w)).
Definition open_menu (hwnd n : Z) : gui () :=
  in_wm (update_window hwnd (λ w, set_ulong (<[-1 := n]> (window_ulong w)) w)).
(** The item of the bar below the click; [n] is the index of the first. *)
Fixpoint bar_hit (click_x n item_x : Z) (items : list MenuItem) : outcome () (option Z) :=
  match items with
  | [] => Ok None
  | i :: items =>
    if separates i then bar_hit click_x (n + 1) item_x items
    else
      label_w ← tested_width i;
      hit ← (if item_x <=? click_x then r ← i32 (item_x + label_w); Ok (click_x <? r) else Ok false);
      if (hit : bool) then Ok (Some n)
      else item_x ← i32 (item_x + label_w); bar_hit click_x (n + 1) item_x items
  end.
(** A chosen command goes to the client window. *)
Definition menu_command (par cmd_id : Z) : gui () :=
  m ← ask wm;
  let client := default par (frame_to_client m !! par) in
  post client (message client WM_COMMAND (Z.lor cmd_id (Z.shiftl 2 16)) 0).
Definition click_menu (hwnd : Z) (k : ControlInfo) (mp1 : Z) : gui ApiResult :=
  let click_x := Z.land mp1 0xFFFF in
  let click_y := Z.land (Z.shiftr mp1 16) 0xFFFF in
  m ← ask wm;
  let items := from_option menu_items [] (get_window m hwnd) in
  let open_item := default 0 (w ← get_window m hwnd; window_ulong w !! (-1)) in
  in_bar ← pure (if k_y k <=? click_y then t ← i32 (k_y k + k_cy k); Ok (click_y <? t) else Ok false);
  if (in_bar : bool) then
    hit ← pure (left ← i32 (k_x k + 4); bar_hit click_x 0 left items);
    match hit with
    | Some n =>
      (if open_item =? n + 1 then close_menu hwnd else open_menu hwnd (n + 1));;
      repaint hwnd
    | None => if 0 <? open_item then close_menu hwnd;; repaint hwnd else mret (Normal 0)
    end
  else if 0 <? open_item then
    match idx items (open_item - 1) with
    | None => mret (Normal 0)
    | Some p =>
      '(drop_x, drop_y1, drop_y2) ← pure (drop_rect k items (open_item - 1) p);
      inside ← pure (if drop_x <=? click_x then
                       r ← i32 (drop_x + DROP_W);
                       Ok ((click_x <? r) && (drop_y1 <=? click_y) && (click_y <? drop_y2))
                     else Ok false);
      if (inside : bool) then
        off ← pure (a ← i32 (drop_y2 - 1); i32 (a - click_y));
        match idx (item_children p) (Z.quot off ITEM_H) with
        | Some child =>
          if separates child then mret (Normal 0)
          else
            close_menu hwnd;;
            _ ← repaint hwnd;
            menu_command (k_parent k) (item_id child);;
            mret (Normal 0)
        | None => mret (Normal 0)
        end
      else close_menu hwnd;; repaint hwnd
    end
  else mret (Normal 0).

(** The first button of a dialog below the click. *)
Fixpoint button_hit (click_x click_y : Z) (l : list OS2Window) : outcome () (option Z) :=
  match l with
  | [] => Ok None
  | c :: l =>
    hit ← (if bool_decide (class_name c = str "WC_BUTTON") && (w_x c <=? click_x) then
             r ← i32 (w_x c + w_cx c);
             if (click_x <? r) && (w_y c <=? click_y) then t ← i32 (w_y c + w_cy c); Ok (click_y <? t)
             else Ok false
           else Ok false);
    if (hit : bool) then Ok (Some (w_id c)) else button_hit click_x click_y l
  end.
Definition click_dialog (hwnd mp1 : Z) : gui ApiResult :=
  m ← ask wm;
  hit ← pure (button_hit (Z.land mp1 0xFFFF) (Z.land (Z.shiftr mp1 16) 0xFFFF) (child_windows m hwnd));
  match hit with
  | Some id => post hwnd (message hwnd WM_COMMAND id 0);; mret (Normal 0)
  | None => mret (Normal 0)
  end.

(** LM_INSERTITEM *)
Definition insert_item (hwnd mp1 mp2 : Z) : gui ApiResult :=
  item_text ← (if mp2 =? 0 then mret [] else get_str mp2);
  m ← ask wm;
  match get_window m hwnd with
  | None => mret (Normal (M32 - 1))
  | Some w =>
    let items := listbox_items w in
    let i := HostDir.as_i32 mp1 in
    if (i <? 0) || (len items <=? i) then
      in_wm (update_window hwnd (set_listbox (items ++ [item_text])));;
      mret (Normal (as_u M32 (len items + 1) - 1))
    else
      in_wm (update_window hwnd (set_listbox (take (Z.to_nat i) items ++ item_text :: drop (Z.to_nat i) items)));;
      mret (Normal (as_u M32 i))
  end.

(** [dispatch_builtin_control] *)
Definition dispatch_builtin_control (hwnd msg mp1 mp2 : Z) : gui ApiResult :=
  k ← control_info hwnd;
  match k with
  | None => mret (Normal 0)
  | Some k =>
    if msg =? WM_PAINT then paint hwnd k
    else if (msg =? WM_BUTTON1UP) && is_class k "WC_BUTTON" then
      post (k_parent k)
        (message (k_parent k) WM_CONTROL (Z.lor (Z.shiftl BN_CLICKED 16) (Z.land (k_id k) 0xFFFF)) 0);;
      mret (Normal 0)
    else if (msg =? WM_BUTTON1DOWN) && is_class k "#Menu" then click_menu hwnd k mp1
    else if (msg =? WM_MENUEND) && is_class k "#Menu" then close_menu hwnd;; repaint hwnd
    else if (msg =? WM_BUTTON1DOWN) && is_class k "#Dialog" then click_dialog hwnd mp1
    else if msg =? LM_INSERTITEM then insert_item hwnd mp1 mp2
    else if msg =? LM_QUERYITEMCOUNT then
      m ← ask wm;
      mret (Normal (as_u M32 (from_option (len ∘ listbox_items) 0 (get_window m hwnd))))
    else mret (Normal 0)
  end.

(** [map_color] *)
Definition map_color (clr : Z) : Z :=
  match HostDir.as_i32 clr with
  | -5 | -4 | -3 => 0x00000000
  | -2 => 0x00FFFFFF
  | -1 => 0x00000000
  | 0 => 0x00FFFFFF
  | 1 => 0x000000FF
  | 2 => 0x00FF0000
  | 3 => 0x00FF00FF
  | 4 => 0x0000FF00
  | 5 => 0x0000FFFF
  | 6 => 0x00FFFF00
  | 7 => 0x00808080
  | 8 => 0x00404040
  | 9 => 0x00000080
  | 10 => 0x00800000
  | 11 => 0x00800080
  | 12 => 0x00008000
  | 13 => 0x00008080
  | 14 => 0x00804000
  | 15 => 0x00C0C0C0
  | n => if 16 <=? n then Z.land clr 0x00FFFFFF else 0x00808080
  end.
End controls.

(** * Where a menu is drawn and where it is clicked *)

(** The width of a label and the left edge of the item [n] of a bar that starts at [x]. *)
Definition width_of (i : MenuItem) : Z := 8 * len (label_of i) + 8.
Fixpoint left_of (n : nat) (x : Z) (items : list MenuItem) : Z :=
  match n, items with
  | S n, i :: items => left_of n (if separates i then x else x + width_of i) items
  | _, _ => x
  end.
Fixpoint bar_width (items : list MenuItem) : Z :=
  match items with [] => 0 | i :: items => width_of i + bar_width items end.
(** The labels are ASCII: a character is a byte. *)
Definition ascii_label (i : MenuItem) : Prop := Forall (λ c, 0 ≤ c < 128) (label_of i).

Section menus.
Context {B : Build}.
Context (order : gmap Z Z → list (Z * Z)).
Context (enc_decode : Encoding → bytes → rstring).

Lemma i32_ok x : - 2 ^ 31 ≤ x < 2 ^ 31 → i32 x = Ok x.
Proof. intros. unfold i32. by zbool. Qed.
Lemma as_i32_ok x : - 2 ^ 31 ≤ x < 2 ^ 31 → HostDir.as_i32 x = x.
Proof. intros. unfold HostDir.as_i32. rewrite Z.mod_small; lia. Qed.
Lemma width_nonneg i : 0 ≤ width_of i.
Proof. unfold width_of. pose proof (len_nonneg (label_of i)). lia. Qed.
Lemma bar_width_nonneg items : 0 ≤ bar_width items.
Proof. induction items as [|i items IH]; cbn [bar_width]; [lia|]. pose proof (width_nonneg i). lia. Qed.
Lemma tested_ok i : width_of i < 2 ^ 31 → tested_width i = Ok (width_of i).
Proof.
  unfold tested_width, label_width, width_of. pose proof (len_nonneg (label_of i)). intros.
  rewrite as_i32_ok by lia. rewrite i32_ok by lia. out_simpl. rewrite i32_ok by lia. f_equal. lia.
Qed.
Lemma ascii_as_bytes s : Forall (λ c, 0 ≤ c < 128) s → as_bytes s = s.
Proof.
  induction 1 as [|c s Hc _ IH]; [done|]. unfold as_bytes in *. cbn [map concat]. rewrite IH.
  unfold utf8_char. by zbool.
Qed.
Lemma painted_ok i : ascii_label i → width_of i < 2 ^ 31 → painted_width i = Ok (width_of i).
Proof. intros Ha. unfold painted_width. rewrite ascii_as_bytes by done. apply tested_ok. Qed.

Lemma drop_left_ok n x items :
  - 2 ^ 30 ≤ x → x + bar_width items < 2 ^ 30 → drop_left n x items = Ok (left_of n x items).
Proof.
  revert n x. induction items as [|i items IH]; intros [|n] x Hx Hw; try done. cbn [drop_left left_of bar_width] in *.
  pose proof (width_nonneg i). pose proof (bar_width_nonneg items).
  destruct (separates i); [apply IH; lia|]. rewrite tested_ok by lia. out_simpl. rewrite i32_ok by lia. out_simpl.
  apply IH; lia.
Qed.
Lemma bar_hit_ok cx n0 x items n i :
  - 2 ^ 30 ≤ x → x + bar_width items < 2 ^ 30 → items !! n = Some i → separates i = false →
  left_of n x items ≤ cx < left_of n x items + width_of i →
  bar_hit cx n0 x items = Ok (Some (n0 + Z.of_nat n)).
Proof.
  revert n0 x n. induction items as [|j items IH]; intros n0 x n Hx Hw Hi Hsep Hcx; [done|].
  cbn [bar_hit bar_width] in *. pose proof (width_nonneg j). pose proof (bar_width_nonneg items).
  destruct n as [|n]; cbn [left_of lookup list_lookup] in *.
  { injection Hi as ->. rewrite Hsep, tested_ok by lia. out_simpl. zbool. rewrite i32_ok by lia. out_simpl.
    zbool. do 2 f_equal. lia. }
  assert (Hle : ∀ k y, y ≤ left_of k y items).
  { clear. intros k. revert items. induction k as [|k IHk]; intros [|a l] y; cbn [left_of]; try lia.
    pose proof (width_nonneg a). destruct (separates a); [apply IHk|]. specialize (IHk l (y + width_of a)). lia. }
  replace (n0 + Z.of_nat (S n)) with (n0 + 1 + Z.of_nat n) by lia.
  destruct (separates j); [apply IH; done || lia|]. rewrite tested_ok by lia. out_simpl.
  specialize (Hle n (x + width_of j)).
  zbool. rewrite i32_ok by lia. out_simpl. zbool. out_simpl. apply IH; done || lia.
Qed.

(** The labels of a bar: one for every item but separators, at its left edge. *)
Lemma bar_labels_ok h y cy open n0 x items :
  - 2 ^ 30 ≤ x → x + bar_width items < 2 ^ 30 → - 2 ^ 30 ≤ y < 2 ^ 30 → 0 ≤ cy < 2 ^ 30 →
  Forall ascii_label items →
  ∃ l, bar_labels h y cy open n0 x items = Ok l ∧
    ∀ n i, items !! n = Some i → separates i = false →
      ∃ color, GDrawText h (left_of n x items + 2) (y + 2) (label_of i) color ∈ l.
Proof.
  intros Hx Hw Hy Hcy Ha. revert n0 x Hx Hw.
  induction Ha as [|j items Hj Ha IH]; intros n0 x Hx Hw; [exists []; by split|].
  cbn [bar_labels bar_width] in *. pose proof (width_nonneg j). pose proof (bar_width_nonneg items).
  destruct (separates j) eqn:Hs.
  { destruct (IH (n0 + 1) x) as (l & Hl & Hin); [lia..|]. exists l. split; [done|].
    intros [|n] i Hi Hsep; cbn [left_of lookup list_lookup] in *; [congruence|]. rewrite Hs. by apply Hin. }
  rewrite painted_ok by (done || lia). out_simpl. unfold draw_box. rewrite !i32_ok by lia. out_simpl.
  destruct (IH (n0 + 1) (x + width_of j)) as (l & Hl & Hin); [lia..|].
  eapply (bind_yields _ _ (λ a, ∃ color, GDrawText h (x + 2) (y + 2) (label_of j) color ∈ a)).
  { destruct (_ && _); eexists; (split; [done|]); eexists; [right|]; left. }
  intros a [color Hc]. rewrite Hl. out_simpl. eexists. split; [done|].
  intros [|n] i Hi Hsep; cbn [left_of lookup list_lookup] in *.
  - injection Hi as ->. exists color. apply elem_of_app. by left.
  - rewrite Hs. destruct (Hin n i Hi Hsep) as [color' Hc']. exists color'. apply elem_of_app. by right.
Qed.

(** The rows of a dropdown: one for every entry, sixteen high, from the top down. *)
Lemma drop_rows_ok h x y n0 items :
  0 ≤ n0 → n0 + len items ≤ 2 ^ 24 → - 2 ^ 30 ≤ x < 2 ^ 30 → - 2 ^ 29 ≤ y < 2 ^ 30 →
  ∃ l, drop_rows h x y n0 items = Ok l ∧
    ∀ n c, items !! n = Some c → separates c = false →
      GDrawText h (x + 4) (y - 16 * (n0 + Z.of_nat n) - 16 + 2) (label_of c) 0 ∈ l.
Proof.
  intros Hn Hlen Hx Hy. revert n0 Hn Hlen.
  induction items as [|j items IH]; intros n0 Hn Hlen; [exists []; by split|].
  cbn [drop_rows]. rewrite len_cons in Hlen. pose proof (len_nonneg items). unfold ITEM_H, DROP_W.
  rewrite as_i32_ok by lia.
  rewrite (i32_ok (n0 * 16)) by lia. out_simpl. rewrite (i32_ok (y - n0 * 16)) by lia. out_simpl.
  rewrite (i32_ok (y - n0 * 16 - 16)) by lia. out_simpl.
  destruct (IH (n0 + 1)) as (l & Hl & Hin); [lia..|].
  eapply (bind_yields _ _ (λ a, separates j = false →
    GDrawText h (x + 4) (y - 16 * n0 - 16 + 2) (label_of j) 0 ∈ a)).
  { destruct (separates j).
    - assert (- 2 ^ 31 ≤ Z.quot (y - n0 * 16 - 16 + (y - n0 * 16)) 2 < 2 ^ 30) by (Z.to_euclidean_division_equations; lia).
      repeat (rewrite i32_ok by lia; out_simpl). eexists. by split.
    - repeat (rewrite i32_ok by lia; out_simpl). eexists. split; [done|]. intros _.
      replace (y - 16 * n0 - 16) with (y - n0 * 16 - 16) by lia. set_solver. }
  intros a Ha. rewrite Hl. out_simpl. eexists. split; [done|]. intros [|n] c Hc Hsep; apply elem_of_app.
  - left. injection Hc as ->. rewrite Z.add_0_r. by apply Ha.
  - right. replace (n0 + Z.of_nat (S n)) with (n0 + 1 + Z.of_nat n) by lia. by apply Hin.
Qed.

(** Menus of a moderate size whose labels are ASCII. *)
Record menu_fits (k : ControlInfo) (items : list MenuItem) : Prop := {
  fits_x : - 2 ^ 20 ≤ k_x k ∧ k_x k + 4 + bar_width items < 2 ^ 28;
  fits_y : - 2 ^ 20 ≤ k_y k ≤ 2 ^ 20;
  fits_size : 0 ≤ k_cx k ≤ 2 ^ 20 ∧ 0 ≤ k_cy k ≤ 2 ^ 20;
  fits_labels : Forall ascii_label items;
  fits_drops : Forall (λ i, len (item_children i) ≤ 2 ^ 20) items;
}.
Lemma left_of_range n x items : x ≤ left_of n x items ≤ x + bar_width items.
Proof.
  revert n x. induction items as [|i items IH]; intros [|n] x; cbn [left_of bar_width]; try lia.
  - pose proof (width_nonneg i). pose proof (bar_width_nonneg items). lia.
  - pose proof (width_nonneg i). destruct (separates i).
    + specialize (IH n x). lia.
    + specialize (IH n (x + width_of i)). lia.
Qed.
Lemma fits_drop k items n p : menu_fits k items → idx items n = Some p → len (item_children p) ≤ 2 ^ 20.
Proof.
  intros Hk Hp. pose proof (idx_Some_range _ _ _ Hp). rewrite idx_lookup in Hp by lia.
  by eapply Forall_lookup_1 in Hp; [|apply (fits_drops k items Hk)].
Qed.
Lemma drop_rect_ok k items n p :
  menu_fits k items → idx items n = Some p →
  drop_rect k items n p =
  Ok (left_of (Z.to_nat n) (k_x k + 4) items, k_y k - 16 * len (item_children p), k_y k).
Proof.
  intros Hk Hp. pose proof (fits_drop _ _ _ _ Hk Hp). destruct Hk as [[? ?] ? [? ?] _ _].
  pose proof (bar_width_nonneg items). pose proof (len_nonneg (item_children p)).
  unfold drop_rect, ITEM_H. rewrite (i32_ok (k_x k + 4)) by lia. out_simpl.
  rewrite drop_left_ok by lia. out_simpl. rewrite as_i32_ok by lia.
  rewrite (i32_ok (len (item_children p) * 16)) by lia. out_simpl. rewrite i32_ok by lia. out_simpl.
  by rewrite (Z.mul_comm 16).
Qed.

(** Running a computation step by step. *)
Lemma run_ask {A C} (f : Pm → A) (g : A → gui C) s : (ask f ≫= g) s = g (f s) s.
Proof. done. Qed.
Lemma run_pure {A C} (o : outcome () A) (a : A) (g : A → gui C) s : o = Ok a → (pure o ≫= g) s = g a s.
Proof. by intros ->. Qed.

(** The picture of a menu shows the names of the bar and, below, the entries of the open item. *)
Lemma paint_menu_ok h open k items :
  menu_fits k items →
  ∃ l, paint_menu h open k items = Ok l ∧
    (∀ n i, items !! n = Some i → separates i = false →
       ∃ color, GDrawText h (left_of n (k_x k + 4) items + 2) (k_y k + 2) (label_of i) color ∈ l) ∧
    (∀ p n c, 0 < open → idx items (open - 1) = Some p → item_children p !! n = Some c → separates c = false →
       GDrawText h (left_of (Z.to_nat (open - 1)) (k_x k + 4) items + 4)
         (k_y k - 16 * Z.of_nat n - 16 + 2) (label_of c) 0 ∈ l).
Proof.
  intros Hk. pose proof Hk as [[? ?] ? [? ?] Ha _]. pose proof (bar_width_nonneg items).
  unfold paint_menu, draw_box. rewrite (i32_ok (k_x k + k_cx k)), (i32_ok (k_y k + k_cy k)) by lia. out_simpl.
  rewrite (i32_ok (k_y k + 1)), (i32_ok (k_x k + 4)) by lia. out_simpl.
  destruct (bar_labels_ok h (k_y k) (k_cy k) open 0 (k_x k + 4) items) as (labels & Hl & Hbar); [lia..|done|].
  rewrite Hl. out_simpl.
  eapply (bind_yields _ _ (λ drop, ∀ p n c, 0 < open → idx items (open - 1) = Some p →
    item_children p !! n = Some c → separates c = false →
    GDrawText h (left_of (Z.to_nat (open - 1)) (k_x k + 4) items + 4)
      (k_y k - 16 * Z.of_nat n - 16 + 2) (label_of c) 0 ∈ drop)).
  - destruct (Z.ltb_spec 0 open); [|exists []; split; [done|lia]].
    destruct (idx items (open - 1)) as [p|] eqn:Hp; [|exists []; by split].
    rewrite (drop_rect_ok _ _ _ _ Hk Hp). out_simpl. pose proof (fits_drop _ _ _ _ Hk Hp).
    pose proof (left_of_range (Z.to_nat (open - 1)) (k_x k + 4) items). unfold DROP_W.
    rewrite i32_ok by lia. out_simpl.
    destruct (drop_rows_ok h (left_of (Z.to_nat (open - 1)) (k_x k + 4) items) (k_y k) 0 (item_children p))
      as (rows & -> & Hrows); [lia..|]. out_simpl. eexists. split; [done|].
    intros p' n c _ [= <-] Hc Hs. specialize (Hrows n c Hc Hs). rewrite Z.add_0_l in Hrows. set_solver.
  - intros drop Hdrop. eexists. split; [done|]. split.
    + intros n i Hi Hs. destruct (Hbar n i Hi Hs) as [color Hc]. exists color. set_solver.
    + intros p n c Ho Hp Hc Hs. specialize (Hdrop p n c Ho Hp Hc Hs). set_solver.
Qed.
End menus.

(** ** What a click does to the state *)

(** What the walks up the tree read of a window. *)
Definition shape (w : OS2Window) : Z * Z * Z * Z * Z * rstring * rstring * Z * Z :=
  (parent w, w_x w, w_y w, w_cx w, w_cy w, class_name w, text w, w_id w, w_hmq w).
Record same_tree (m m' : WindowManager) : Prop := {
  st_frames : frame_to_client m' = frame_to_client m;
  st_size : base.size (windows m') = base.size (windows m);
  st_shape : ∀ h, shape <$> windows m' !! h = shape <$> windows m !! h;
}.
(** The state [s] with other words in the window [w] of handle [hwnd], after drawing. *)
Definition menu_state (s : Pm) (hwnd : Z) (w : OS2Window) (words : gmap Z Z) (drawn : list GUIMessage) : Pm :=
  mk_pm (with_gui ((λ q, q ++ drawn) <$> gui_tx (wm s))
           (with_windows (<[hwnd := set_ulong words w]> (windows (wm s))) (next_hwnd (wm s)) (wm s)))
    (mem s) (resources s) (active_cp s) (shutting_down s).
(** The state with one more message at the end of a queue. *)
Definition with_message (q : option Z) (msg : OS2Message) (s : Pm) : Pm :=
  match q with
  | Some q => mk_pm (with_queues (alter (λ l, l ++ [msg]) q (msg_queues (wm s))) (next_hmq (wm s)) (wm s))
                (mem s) (resources s) (active_cp s) (shutting_down s)
  | None => s
  end.

Section effects.
Context {B : Build}.
Context (order : gmap Z Z → list (Z * Z)).
Context (enc_decode : Encoding → bytes → rstring).

Lemma shape_lookup m m' h : same_tree m m' →
  match windows m !! h, windows m' !! h with
  | Some w, Some w' => shape w = shape w'
  | None, None => True
  | _, _ => False
  end.
Proof.
  intros [_ _ H]. specialize (H h).
  destruct (windows m !! h), (windows m' !! h); try done. by apply (inj Some) in H.
Qed.
Lemma find_frame_same m m' fuel h :
  same_tree m m' → find_frame_for_hwnd fuel m' h = find_frame_for_hwnd fuel m h.
Proof.
  intros Hs. revert h. induction fuel as [|fuel IH]; intros h; cbn [find_frame_for_hwnd]; [done|].
  pose proof (shape_lookup m m' h Hs) as Hl. rewrite (st_frames _ _ Hs).
  destruct (windows m !! h) as [w|], (windows m' !! h) as [w'|]; try done.
  injection Hl as Hp _ _ _ _ _ _ _. by rewrite Hp, IH.
Qed.
Lemma abs_origin_same m m' fuel h ax ay :
  same_tree m m' → abs_origin fuel m' h ax ay = abs_origin fuel m h ax ay.
Proof.
  intros Hs. revert h ax ay. induction fuel as [|fuel IH]; intros h ax ay; cbn [abs_origin]; [done|].
  pose proof (shape_lookup m m' h Hs) as Hl. rewrite (st_frames _ _ Hs).
  destruct (windows m !! h) as [w|], (windows m' !! h) as [w'|]; try done.
  injection Hl as Hp Hx Hy _ _ _ _ _. rewrite Hp, Hx, Hy.
  destruct (HostDir.iadd ax (w_x w')); out_simpl; try done. destruct (HostDir.iadd ay (w_y w')); out_simpl; try done.
  by rewrite IH.
Qed.
Lemma control_info_same s s' hwnd k :
  same_tree (wm s) (wm s') → control_info hwnd s = Ok (k, s) → control_info hwnd s' = Ok (k, s').
Proof.
  intros Hs. unfold control_info. rewrite !run_ask. unfold tree_fuel. rewrite (st_size _ _ Hs).
  unfold get_abs_rect_in_frame. pose proof (shape_lookup _ _ hwnd Hs) as Hl. unfold get_window.
  destruct (windows (wm s) !! hwnd) as [w|], (windows (wm s') !! hwnd) as [w'|]; try done.
  - injection Hl as Hp _ _ Hcx Hcy Hc Ht Hi _. cbn [from_option]. rewrite (abs_origin_same (wm s) (wm s')) by done. rewrite Hcx, Hcy.
    unfold pure, mbind, gui_bind. destruct (abs_origin _ (wm s) hwnd 0 0) as [[ax ay]| | |]; out_simpl; try done.
    unfold mret, gui_ret. cbn [fmap option_fmap option_map]. intros [= <-]. by rewrite Hp, Hc, Ht, Hi.
  - cbn [from_option]. rewrite (abs_origin_same (wm s) (wm s')) by done. unfold pure, mbind, gui_bind.
    destruct (abs_origin _ (wm s) hwnd 0 0) as [[ax ay]| | |]; out_simpl; try done.
    unfold mret, gui_ret. cbn [fmap option_fmap option_map]. by intros [= <-].
Qed.
Lemma control_info_parent s hwnd w k :
  get_window (wm s) hwnd = Some w → control_info hwnd s = Ok (Some k, s) → k_parent k = parent w.
Proof.
  intros Hw. unfold control_info. rewrite run_ask. unfold pure, mbind, gui_bind.
  destruct (get_abs_rect_in_frame _ (wm s) hwnd) as [[[[ax ay] acx] acy]| | |]; out_simpl; try done.
  unfold mret, gui_ret. rewrite Hw. cbn [fmap option_fmap option_map]. by intros [= <-].
Qed.
Lemma find_hmq_same m m' h :
  same_tree m m' → msg_queues m' = msg_queues m → tid_to_hmq m' = tid_to_hmq m →
  find_hmq_for_hwnd order m' h = find_hmq_for_hwnd order m h.
Proof.
  intros Hs Hq Ht. unfold find_hmq_for_hwnd. rewrite Hq, Ht. pose proof (shape_lookup m m' h Hs) as Hl.
  destruct (windows m !! h) as [w|], (windows m' !! h) as [w'|]; try done. injection Hl as _ _ _ _ _ _ _ _ Hh.
  cbn [mbind option_bind]. by rewrite Hh.
Qed.

Lemma menu_state_tree s hwnd w words drawn :
  get_window (wm s) hwnd = Some w → same_tree (wm s) (wm (menu_state s hwnd w words drawn)).
Proof.
  intros Hw. split; cbn; [done|by apply map_size_insert_Some|]. intros h.
  destruct (decide (h = hwnd)) as [->|]; [|by rewrite lookup_insert_ne].
  rewrite lookup_insert_eq. unfold get_window in Hw. by rewrite Hw.
Qed.
Lemma alter_lookup_Some (f : OS2Window → OS2Window) (t : gmap Z OS2Window) h w :
  t !! h = Some w → alter f h t = <[h := f w]> t.
Proof.
  intros Hw. apply map_eq. intros i. destruct (decide (i = h)) as [->|].
  - by rewrite lookup_alter_eq, lookup_insert_eq, Hw.
  - by rewrite lookup_alter_ne, lookup_insert_ne.
Qed.
(** Setting the words without drawing. *)
Lemma set_words s hwnd w words :
  get_window (wm s) hwnd = Some w →
  mk_pm (update_window hwnd (set_ulong words) (wm s)) (mem s) (resources s) (active_cp s) (shutting_down s) =
  menu_state s hwnd w words [].
Proof.
  intros Hw. unfold menu_state, update_window. unfold get_window in Hw. rewrite (alter_lookup_Some _ _ _ _ Hw).
  destruct s as [[] ? ? ? ?]; cbn. repeat f_equal. destruct gui_tx; cbn; [by rewrite app_nil_r|done].
Qed.
Lemma run_set_words (f : OS2Window → gmap Z Z) s hwnd w :
  get_window (wm s) hwnd = Some w →
  in_wm (update_window hwnd (λ w, set_ulong (f w) w)) s = Ok (tt, menu_state s hwnd w (f w) []).
Proof.
  intros Hw. rewrite <- (set_words s hwnd w (f w) Hw). unfold in_wm, update_window. unfold get_window in Hw.
  by rewrite !(alter_lookup_Some _ _ _ _ Hw).
Qed.
Lemma run_bind {A C} (c : gui A) (g : A → gui C) s s' a : c s = Ok (a, s') → (c ≫= g) s = g a s'.
Proof. unfold mbind at 1, gui_bind. by intros ->. Qed.
(** The menu is drawn again in the state its words describe. *)
Lemma repaint_menu s hwnd w words k h l :
  get_window (wm s) hwnd = Some w → control_info hwnd s = Ok (Some k, s) → k_class k = str "#Menu" →
  find_frame_for_hwnd (tree_fuel (wm s)) (wm s) hwnd = Ok h →
  paint_menu h (default 0 (words !! (-1))) k (menu_items w) = Ok l →
  repaint hwnd (menu_state s hwnd w words []) = Ok (Normal 0, menu_state s hwnd w words l).
Proof.
  intros Hw Hk Hc Hf Hl. pose proof (menu_state_tree s hwnd w words [] Hw) as Hs.
  unfold repaint. rewrite (run_bind _ _ _ _ _ (control_info_same _ _ _ _ Hs Hk)). unfold paint. rewrite run_ask.
  rewrite (run_pure _ h) by (unfold tree_fuel; by rewrite (st_size _ _ Hs), (find_frame_same _ _ _ _ Hs)).
  cbn [wm menu_state]. destruct (gui_tx (wm s)) as [sent|] eqn:Hg; cbn [fmap option_fmap option_map gui_tx with_gui].
  2: { unfold menu_state. by rewrite Hg. }
  unfold is_class, paint_messages, is_class. rewrite Hc.
  assert (Hpm : ∀ m, get_window m hwnd = Some (set_ulong words w) →
    paint_messages m hwnd h k = Ok l).
  { intros m Hm. unfold paint_messages, is_class. rewrite Hc, Hm.
    rewrite !bool_decide_eq_false_2 by (intros Hx; vm_compute in Hx; discriminate).
    rewrite bool_decide_eq_true_2 by done. exact Hl. }
  rewrite (run_pure _ l).
  2: { specialize (Hpm (wm (menu_state s hwnd w words []))). unfold paint_messages, is_class in Hpm. rewrite Hc in Hpm.
       apply Hpm. unfold get_window, menu_state. cbn. by rewrite lookup_insert_eq. }
  unfold send, in_wm, menu_state. unfold mbind, gui_bind, mret, gui_ret. out_simpl. rewrite Hg. cbn.
  by rewrite app_nil_r.
Qed.
Lemma post_message_ok s hwnd w words l par c_id :
  get_window (wm s) hwnd = Some w → 0 ≤ c_id < M16 →
  let client := default par (frame_to_client (wm s) !! par) in
  menu_command order par c_id (menu_state s hwnd w words l) =
  Ok (tt, with_message (find_hmq_for_hwnd order (wm s) client) (mk_msg client 0x20 (c_id + 2 * 65536) 0 0 0 0)
            (menu_state s hwnd w words l)).
Proof.
  intros Hw Hid client. unfold menu_command. rewrite run_ask. unfold post, in_wm.
  pose proof (menu_state_tree s hwnd w words l Hw) as Hs. cbn [wm menu_state frame_to_client with_gui with_windows].
  fold client. rewrite (find_hmq_same (wm s)) by done.
  assert (Z.lor c_id (Z.shiftl 2 16) = c_id + 2 * 65536) as Hlor.
  { by rewrite lor_shiftl_add by lia. }
  unfold message. rewrite Hlor. by destruct (find_hmq_for_hwnd order (wm s) client).
Qed.
End effects.

(** The run of a click on a menu. *)
Lemma click_menu_runs {B : Build} order enc_decode s hwnd mp1 mp2 k :
  control_info hwnd s = Ok (Some k, s) → k_class k = str "#Menu" →
  dispatch_builtin_control order enc_decode hwnd WM_BUTTON1DOWN mp1 mp2 s = click_menu order hwnd k mp1 s.
Proof.
  intros Hk Hc. unfold dispatch_builtin_control. rewrite (run_bind _ _ _ _ _ Hk). unfold is_class. by rewrite Hc.
Qed.

(** C25: a menu does what it shows.  The window of a menu draws the names of its bar and, below
    it, the entries of the open item, which it keeps in its word -1, counted from 1.  A press
    of the button on a name of the bar opens that item (the word is its number, and the menu
    that is drawn again shows all its entries), or closes it when it is open (the word is gone,
    and the bar is drawn alone).  A press on the row of an entry of the open dropdown closes the
    menu, draws it so, and puts WM_COMMAND at the end of the queue of the client window of the
    frame (or of the owner itself), with the identifier of that entry in the low word of its
    first parameter and 2, for a menu, in the high word.  Nothing else of the state changes. *)
Theorem menu_click_hits {B : Build} order enc_decode (s : Pm) (h hwnd mp1 mp2 : Z) (k : ControlInfo) (w : OS2Window) :
  let items := menu_items w in
  let open := default 0 (window_ulong w !! (-1)) in
  let click_x := Z.land mp1 0xFFFF in
  let click_y := Z.land (Z.shiftr mp1 16) 0xFFFF in
  let pressed := dispatch_builtin_control order enc_decode hwnd WM_BUTTON1DOWN mp1 mp2 s in
  get_window (wm s) hwnd = Some w → control_info hwnd s = Ok (Some k, s) → k_class k = str "#Menu" →
  find_frame_for_hwnd (tree_fuel (wm s)) (wm s) hwnd = Ok h → menu_fits k items →
  ∃ picture closed, paint_menu h open k items = Ok picture ∧ paint_menu h 0 k items = Ok closed ∧
    (∀ n i, idx items n = Some i → separates i = false →
       let x := left_of (Z.to_nat n) (k_x k + 4) items in
       (∃ color, GDrawText h (x + 2) (k_y k + 2) (label_of i) color ∈ picture) ∧
       (x ≤ click_x < x + width_of i → k_y k ≤ click_y < k_y k + k_cy k →
        (open = n + 1 → pressed = Ok (Normal 0, menu_state s hwnd w (delete (-1) (window_ulong w)) closed)) ∧
        (open ≠ n + 1 → ∃ opened,
           pressed = Ok (Normal 0, menu_state s hwnd w (<[-1 := n + 1]> (window_ulong w)) opened) ∧
           ∀ r c, idx (item_children i) r = Some c → separates c = false →
             GDrawText h (x + 4) (k_y k - 16 * r - 16 + 2) (label_of c) 0 ∈ opened))) ∧
    (∀ p r c, 0 < open → idx items (open - 1) = Some p → idx (item_children p) r = Some c →
       separates c = false → u16 (item_id c) →
       let x := left_of (Z.to_nat (open - 1)) (k_x k + 4) items in
       let y := k_y k - 16 * r - 16 in
       let client := default (parent w) (frame_to_client (wm s) !! parent w) in
       GDrawText h (x + 4) (y + 2) (label_of c) 0 ∈ picture ∧
       (x ≤ click_x < x + DROP_W → y ≤ click_y < y + ITEM_H →
        pressed = Ok (Normal 0,
          with_message (find_hmq_for_hwnd order (wm s) client)
            (mk_msg client 0x20 (item_id c + 2 * 65536) 0 0 0 0)
            (menu_state s hwnd w (delete (-1) (window_ulong w)) closed)))).
Proof.
  intros items open cx cy pressed Hw Hci Hcl Hf Hk. unfold pressed. rewrite (click_menu_runs _ _ _ _ _ _ _ Hci Hcl).
  destruct (paint_menu_ok h open k items Hk) as (l & Hl & Hbar & Hdrop).
  destruct (paint_menu_ok h 0 k items Hk) as (lc & Hlc & _).
  exists l, lc. split; [exact Hl|]. split; [exact Hlc|].
  pose proof Hk as [[? ?] ? [? ?] _ _]. pose proof (bar_width_nonneg items).
  assert (Hclose : repaint hwnd (menu_state s hwnd w (delete (-1) (window_ulong w)) []) =
    Ok (Normal 0, menu_state s hwnd w (delete (-1) (window_ulong w)) lc)).
  { apply (repaint_menu s hwnd w _ k h); try done. by rewrite lookup_delete_eq. }
  split.
  - intros n i Hi Hs. pose proof (idx_Some_range _ _ _ Hi). pose proof Hi as Hi'. rewrite idx_lookup in Hi' by lia.
    split; [exact (Hbar _ _ Hi' Hs)|]. intros Hx Hy.
    assert (click_menu order hwnd k mp1 s =
      ((if open =? n + 1 then close_menu hwnd else open_menu hwnd (n + 1));; repaint hwnd) s) as ->.
    { unfold click_menu. rewrite run_ask, Hw. cbv zeta. fold cx cy. cbn [from_option mbind option_bind]. fold open.
      rewrite (run_pure _ true) by (zbool; rewrite i32_ok by lia; out_simpl; by zbool).
      rewrite (run_pure _ (Some n)); [done|].
      fold items. rewrite i32_ok by lia. out_simpl. rewrite (bar_hit_ok _ _ _ _ (Z.to_nat n) i) by (done || lia).
      do 2 f_equal. lia. }
    split; intros Ho.
    + rewrite Ho, Z.eqb_refl. unfold close_menu. by rewrite (run_bind _ _ _ _ _ (run_set_words _ s hwnd w Hw)).
    + rewrite (proj2 (Z.eqb_neq _ _) Ho). unfold open_menu.
      rewrite (run_bind _ _ _ _ _ (run_set_words _ s hwnd w Hw)).
      destruct (paint_menu_ok h (n + 1) k items Hk) as (lo & Hlo & _ & Hrows). exists lo. split.
      * apply (repaint_menu s hwnd w _ k h); try done. by rewrite lookup_insert_eq.
      * intros r c Hr Hsep. pose proof (idx_Some_range _ _ _ Hr). rewrite idx_lookup in Hr by lia.
        replace (n + 1 - 1) with n in Hrows by lia. specialize (Hrows i _ c ltac:(lia) Hi Hr Hsep).
        by rewrite Z2Nat.id in Hrows by lia.
  - intros p r c Ho Hp Hr Hs Hid. pose proof (idx_Some_range _ _ _ Hr). pose proof Hr as Hr'.
    rewrite idx_lookup in Hr' by lia. pose proof (Hdrop p _ c Ho Hp Hr' Hs) as Hc.
    pose proof (fits_drop _ _ _ _ Hk Hp). pose proof (left_of_range (Z.to_nat (open - 1)) (k_x k + 4) items).
    rewrite Z2Nat.id in Hc by lia. split; [exact Hc|]. unfold DROP_W, ITEM_H. intros Hx Hy.
    assert (click_menu order hwnd k mp1 s = (close_menu hwnd;; _ ← repaint hwnd;
      menu_command order (k_parent k) (item_id c);; mret (Normal 0)) s) as ->.
    { unfold click_menu. rewrite run_ask, Hw. cbv zeta. fold cx cy. cbn [from_option mbind option_bind]. fold open.
      rewrite (run_pure _ false) by (by zbool). zbool. fold items. rewrite Hp.
      rewrite (run_pure _ _ _ _ (drop_rect_ok _ _ _ _ Hk Hp)).
      rewrite (run_pure _ true) by (unfold DROP_W; zbool; rewrite i32_ok by lia; out_simpl; by zbool).
      rewrite (run_pure _ (k_y k - 1 - cy)) by (rewrite i32_ok by lia; out_simpl; by rewrite i32_ok by lia).
      replace (Z.quot (k_y k - 1 - cy) ITEM_H) with r by (unfold ITEM_H; Z.to_euclidean_division_equations; lia).
      by rewrite Hr, Hs. }
    unfold close_menu. rewrite (run_bind _ _ _ _ _ (run_set_words _ s hwnd w Hw)).
    rewrite (run_bind _ _ _ _ _ Hclose). rewrite (control_info_parent _ _ _ _ Hw Hci).
    by rewrite (run_bind _ _ _ _ _ (post_message_ok order s hwnd w _ lc (parent w) (item_id c) Hw Hid)).
Qed.

Definition demo_menu_items : list MenuItem :=
  [mk_item 1 0x11 0 (str "~File") [mk_item 10 0x1 0 (str "~Open") []; mk_item 11 0x1 0 (str "E~xit") []];
   mk_item 2 0x11 0 (str "~Help") []].
Definition demo_menu : OS2Window :=
  set_ulong {[-1 := 1]} (set_size 640 20 (set_pos 0 440 (set_menu_items demo_menu_items
    (new_window 0x1002 (str "#Menu") 0 0x1000 0)))).
(** The menu of the frame 0x1000, whose client 0x1001 has a queue. *)
Definition demo_pm : Pm :=
  mk_pm (with_gui (Some []) (with_queues {[0x3000 := []]} 0x3001 (with_frames {[0x1000 := 0x1001]}
    (with_windows {[0x1002 := demo_menu; 0x1001 := new_window 0x1001 (str "Client") 0 0x1000 0x3000]} 0x1003 wm_new))))
    (alloc 0) Managers.resource_manager_new 437 false.
(** A press on the row of Exit in the open File menu. *)
Lemma menu_click_hits_witness :
  ∃ closed, @dispatch_builtin_control dev_profile map_to_list (λ _ b, b) 0x1002 WM_BUTTON1DOWN (10 + 410 * 65536) 0 demo_pm =
    Ok (Normal 0, with_message (Some 0x3000) (mk_msg 0x1001 0x20 (11 + 2 * 65536) 0 0 0 0)
          (menu_state demo_pm 0x1002 demo_menu ∅ closed)).
Proof.
  set (k := mk_info (str "#Menu") 0 440 640 20 [] 0 0x1000).
  assert (menu_fits k demo_menu_items) as Hk.
  { split; try (vm_compute; intuition congruence); repeat constructor; vm_compute; congruence. }
  destruct (@menu_click_hits dev_profile map_to_list (λ _ b, b) demo_pm 0x1000 0x1002 (10 + 410 * 65536) 0 k demo_menu
    ltac:(vm_compute; reflexivity) ltac:(vm_compute; reflexivity) ltac:(vm_compute; reflexivity)
    ltac:(vm_compute; reflexivity) Hk)
    as (picture & closed & _ & _ & _ & Hdrop).
  exists closed.
  refine (proj2 (Hdrop (mk_item 1 0x11 0 (str "~File") [mk_item 10 0x1 0 (str "~Open") []; mk_item 11 0x1 0 (str "E~xit") []])
    1 (mk_item 11 0x1 0 (str "E~xit") []) _ _ _ _ _) _ _); try reflexivity; vm_compute; intuition congruence.
Defined.
