(* ===== verification/PmWin.v ===== *)
(** The PMWIN calls (src/src/loader/pm_win.rs, [handle_pmwin_call]): one definition per ordinal,
    from the arguments on the guest's stack to the result and the new state.

    [WinGetMsg] waits for a message: [turns] is what the other threads do to the state between
    one look at the queue and the next.  [answer] is what the user answers to a message box.  The
    thread of a timer is [timer_fires], a step of its own. *)
From S2P Require Import Prelude Bytes Codepage GuestMem PmTypes PmRes PmControls.
From S2P Require Managers ApiRegistry HostDir.

Abbreviation as_i32 := HostDir.as_i32.
Definition WM_TIMER := 0x0024.
Definition WM_CLOSE := 0x0029.
Definition WM_QUIT := 0x002A.
Definition WM_CHAR := 0x007A.
Definition WM_ENABLE := 0x0002.
Definition WM_INITDLG := 0x0021.
Definition WM_ACTIVATE := 0x0042.
Definition SWP_SIZE := 0x0001.
Definition SWP_MOVE := 0x0002.
Definition SWP_ZORDER := 0x0004.
Definition SWP_SHOW := 0x0008.
Definition SWP_HIDE := 0x0010.
Definition SWP_ACTIVATE := 0x0020.
Definition HWND_TOP := 1.
Definition HWND_BOTTOM := 2.
Definition HWND_FLOAT := 3.
Definition FCF_TITLEBAR := 0x00000001.
Definition MOCK_HAB := 0x1234.
Definition MOCK_HPOINTER := 0x5000.
Definition MENU_BAR_HEIGHT := 20.
Definition CHROME_TITLE_H := 20.
Definition DID_OK := 1.
Definition DID_CANCEL := 2.
Definition DID_ERROR := 0xFFFF.
Definition MBID_OK := 1.
Definition CF_TEXT := 1.
Definition WS_DISABLED := 0x40000000.
Definition RT_MENU := 3.
Definition RT_DIALOG := 4.
Definition RT_STRING := 5.
Definition RT_ACCELTABLE := 8.

(** [resolve_class_atom] *)
Definition WC_ATOMS : list (Z * string) :=
  [(0xFFFF0001, "WC_FRAME"); (0xFFFF0002, "WC_COMBOBOX"); (0xFFFF0003, "WC_BUTTON");
   (0xFFFF0004, "WC_MENU"); (0xFFFF0005, "WC_STATIC"); (0xFFFF0006, "WC_ENTRYFIELD");
   (0xFFFF0007, "WC_LISTBOX"); (0xFFFF0008, "WC_SCROLLBAR"); (0xFFFF0009, "WC_TITLEBAR");
   (0xFFFF000A, "WC_MLE"); (0xFFFF000F, "WC_SPINBUTTON"); (0xFFFF0025, "WC_CONTAINER");
   (0xFFFF0028, "WC_NOTEBOOK")]%string.
Definition is_atom (ptr : Z) : bool := Z.land ptr 0xFFFF0000 =? 0xFFFF0000.
Definition resolve_class_atom (ptr : Z) (s : rstring) : rstring :=
  match list_find (λ p, p.1 = ptr) WC_ATOMS with
  | Some (_, (_, n)) => str n
  | None =>
    if is_atom ptr then str "WC_ATOM_0x" ++ hex_str_w 4 (Z.land ptr 0xFFFF)
    else if ptr <? 0x10000 then str "WC_ATOM_" ++ dec_str ptr
    else s
  end.

Section calls.
Context {B : Build}.
Context (order : gmap Z Z → list (Z * Z)).
Context (enc_decode : Encoding → bytes → rstring) (enc_encode : Encoding → rstring → bytes).

Abbreviation post := (post order).
Abbreviation get_str := (get_str enc_decode).
Abbreviation dispatch_builtin_control := (dispatch_builtin_control order enc_decode).

(** * Guest memory *)

(** [self.guest_read(p + off).unwrap_or(0)] and [self.guest_write(p + off, v)], in u32. *)
Definition peek (n : nat) (p off : Z) : gui Z :=
  a ← pure (uadd M32 p off); ask (λ s, default 0 (read n (mem s) a)).
Definition put (n : nat) (p off v : Z) : gui () :=
  a ← pure (uadd M32 p off); in_mem (λ m, poke n m a v).
Definition put_i32 (p off v : Z) : gui () := put 4 p off (as_u M32 v).
(** [self.guest_write_bytes(p, data)] with its result dropped. *)
Definition put_bytes (p : Z) (data : bytes) : gui () :=
  in_mem (λ m, default m (write_bytes m p data)).
Definition optional_str (ptr : Z) (d : rstring) : gui rstring :=
  if ptr =? 0 then mret d else get_str ptr.
(** The end of the calls that copy a text out. *)
Definition text_out (t : rstring) (cch_max buffer_ptr : Z) : gui ApiResult :=
  cp ← ask active_cp;
  let data := cp_encode enc_encode t cp in
  let copy_len := Z.min (len data) (saturating_sub cch_max 1) in
  put_bytes buffer_ptr (take (Z.to_nat copy_len) data);;
  put 1 buffer_ptr copy_len 0;;
  mret (Normal copy_len).

(** * Queues *)

Definition own_queue (vcpu_id : Z) : gui Z := ask (λ s, default 0 (tid_to_hmq (wm s) !! vcpu_id)).
Definition post_to (hmq : Z) (msg : OS2Message) : gui () := in_wm (push_back hmq msg).
Definition post_wm_quit (hwnd : Z) : gui () := post hwnd (message hwnd WM_QUIT 0 0).
Definition window_proc (hwnd : Z) : gui Z := ask (λ s, from_option pfn_wp 0 (get_window (wm s) hwnd)).

Section call.
(** [read_stack] at the stack pointer of the caller, and the number of its vcpu. *)
Context (esp vcpu_id : Z).
Definition arg (off : Z) : gui Z :=
  m ← ask mem; pure (unwrap (read32 m (as_u M32 (esp + off)))).
Definition arg_i32 (off : Z) : gui Z := a ← arg off; mret (as_i32 a).

(** 716, 926 *)
Definition WinCreateMsgQueue : gui ApiResult :=
  hmq ← on_wm create_mq;
  in_wm (λ m, with_tids (<[vcpu_id := hmq]> (tid_to_hmq m)) m);;
  mret (Normal hmq).
Definition WinRegisterClass : gui ApiResult :=
  _ ← arg 4; psz_class_name ← arg 8; pfn ← arg 12; style ← arg 16; _ ← arg 20;
  name ← get_str psz_class_name;
  in_wm (register_class name pfn style);;
  mret (Normal 1).

(** 908 *)
Definition WinCreateStdWindow : gui ApiResult :=
  par ← arg 4; style ← arg 8; pfc_flags ← arg 12; psz_class ← arg 16; psz_title ← arg 20;
  _ ← arg 24; _ ← arg 28; _ ← arg 32; phwnd_client ← arg 36;
  class ← get_str psz_class;
  title ← optional_str psz_title (str "Warpine Window");
  fcf ← (if pfc_flags =? 0 then mret 0 else peek 4 pfc_flags 0);
  hmq ← own_queue vcpu_id;
  h_frame ← on_wm (create_window class par hmq);
  h_client ← on_wm (create_window class h_frame hmq);
  in_wm (λ m, with_frames (<[h_frame := h_client]> (frame_to_client m)) m);;
  in_wm (update_window h_frame (λ w, set_text title (set_visible (has style WS_VISIBLE)
           (set_frame_flags fcf (set_size 640 480 w)))));;
  let client_cy := if has fcf FCF_TITLEBAR then 480 - CHROME_TITLE_H else 480 in
  in_wm (update_window h_client (set_size 640 client_cy));;
  in_wm (z_push_top h_frame);;
  in_wm (with_focus h_frame);;
  send [GCreateWindow class title h_frame];;
  post_to hmq (message h_client WM_PAINT 0 0);;
  pfn_client ← window_proc h_client;
  (if phwnd_client =? 0 then mret tt else put 4 phwnd_client 0 h_client);;
  mret (if pfn_client =? 0 then Normal h_frame
        else ApiRegistry.WmCreateCallback pfn_client h_client h_frame).

(** 915 *)
Definition write_msg (p : Z) (msg : OS2Message) : gui () :=
  put 4 p 0 (m_hwnd msg);; put 4 p 4 (m_msg msg);; put 4 p 8 (m_mp1 msg);; put 4 p 12 (m_mp2 msg);;
  put 4 p 16 (m_time msg);; put 2 p 20 (as_u M16 (m_x msg));; put 2 p 22 (as_u M16 (m_y msg)).
Fixpoint get_msg_loop (hmq pqmsg : Z) (turns : list (Pm → Pm)) : gui ApiResult :=
  quit ← ask shutting_down;
  if (quit : bool) then mret (Normal 0)
  else
    m ← ask wm;
    match get_mq m hmq with
    | Some (msg :: rest) =>
      in_wm (λ m, with_queues (<[hmq := rest]> (msg_queues m)) (next_hmq m) m);;
      (if pqmsg =? 0 then mret tt else write_msg pqmsg msg);;
      mret (Normal (if m_msg msg =? WM_QUIT then 0 else 1))
    | _ =>
      match turns with
      | [] => pure Diverge
      | t :: turns => λ s, get_msg_loop hmq pqmsg turns (t s)
      end
    end.
Definition WinGetMsg (turns : list (Pm → Pm)) : gui ApiResult :=
  _ ← arg 4; pqmsg ← arg 8; _ ← arg 12; _ ← arg 16; _ ← arg 20;
  hmq ← own_queue vcpu_id;
  m ← ask wm;
  match get_mq m hmq with
  | Some _ => get_msg_loop hmq pqmsg turns
  | None => mret (Normal 0)
  end.

(** A message to the procedure of a window or to its built-in class. *)
Definition deliver (hwnd msg mp1 mp2 : Z) : gui ApiResult :=
  pfn ← window_proc hwnd;
  if pfn =? 0 then dispatch_builtin_control hwnd msg mp1 mp2
  else mret (ApiRegistry.Callback pfn hwnd msg mp1 mp2).
(** 912, 919, 920 *)
Definition WinDispatchMsg : gui ApiResult :=
  _ ← arg 4; pqmsg ← arg 8;
  if pqmsg =? 0 then mret (Normal 0)
  else
    hwnd ← peek 4 pqmsg 0; msg ← peek 4 pqmsg 4; mp1 ← peek 4 pqmsg 8; mp2 ← peek 4 pqmsg 12;
    deliver hwnd msg mp1 mp2.
Definition WinPostMsg : gui ApiResult :=
  hwnd ← arg 4; msg ← arg 8; mp1 ← arg 12; mp2 ← arg 16;
  post hwnd (message hwnd msg mp1 mp2);;
  mret (Normal 1).
Definition WinSendMsg : gui ApiResult :=
  hwnd ← arg 4; msg ← arg 8; mp1 ← arg 12; mp2 ← arg 16;
  deliver hwnd msg mp1 mp2.

(** 911 *)
(** The menu of a window or of its frame, and the height of the window it was found for. *)
Definition menu_of (m : WindowManager) (hwnd : Z) : Z * Z :=
  let menu h := from_option menu_hwnd 0 (get_window m h) in
  let frame_h := if menu hwnd =? 0 then client_to_frame order m hwnd else hwnd in
  let mh := if (menu hwnd =? 0) && negb (frame_h =? hwnd) then menu frame_h else menu hwnd in
  (mh, from_option w_cy 0 (get_window m frame_h)).
Definition default_click (hwnd msg mp1 : Z) : gui ApiResult :=
  m ← ask wm;
  let '(menu, frame_cy) := menu_of m hwnd in
  if negb (menu =? 0) && (msg =? WM_BUTTON1DOWN) then
    let click_y := Z.land (Z.shiftr mp1 16) 0xFFFF in
    a ← pure (i32 (frame_cy - CHROME_TITLE_H));
    menu_y1 ← pure (i32 (a - MENU_BAR_HEIGHT));
    let open_item := default 0 (w ← get_window m menu; window_ulong w !! (-1)) in
    if (menu_y1 <=? click_y) || (0 <? open_item) then
      dispatch_builtin_control menu WM_BUTTON1DOWN mp1 0
    else mret (Normal 0)
  else mret (Normal 0).
Definition WinDefWindowProc : gui ApiResult :=
  hwnd ← arg 4; msg ← arg 8; mp1 ← arg 12; _ ← arg 16;
  if msg =? WM_CLOSE then post_wm_quit hwnd;; mret (Normal 0)
  else if (msg =? WM_BUTTON1DOWN) || (msg =? WM_BUTTON1UP) then default_click hwnd msg mp1
  else mret (Normal 0).

(** 703, 738 *)
Definition WinBeginPaint : gui ApiResult :=
  hwnd ← arg 4; _ ← arg 8; _ ← arg 12;
  hps ← on_wm (create_ps hwnd);
  mret (Normal hps).
Definition WinEndPaint : gui ApiResult :=
  hps ← arg 4;
  m ← ask wm;
  send [GPresentBuffer (client_to_frame order m (get_ps_hwnd m hps))];;
  mret (Normal 1).

(** 789; the answer is [None] when the GUI thread is gone. *)
Definition WinMessageBox (answer : rstring → rstring → Z → option Z) : gui ApiResult :=
  _ ← arg 4; _ ← arg 8; psz_text ← arg 12; psz_caption ← arg 16; _ ← arg 20; style ← arg 24;
  t ← get_str psz_text;
  caption ← get_str psz_caption;
  m ← ask wm;
  send [GShowMessageBox caption t style];;
  mret (Normal (match gui_tx m with Some _ => default MBID_OK (answer caption t style) | None => MBID_OK end)).

(** 883, 840, 728 *)
Definition WinShowWindow : gui ApiResult :=
  hwnd ← arg 4; f ← arg 8;
  let show := negb (f =? 0) in
  in_wm (update_window hwnd (set_visible show));;
  in_wm (mark_dirty hwnd);;
  send [GShowWindow hwnd show];;
  mret (Normal 1).
Definition WinQueryWindowRect : gui ApiResult :=
  hwnd ← arg 4; prcl ← arg 8;
  m ← ask wm;
  (if prcl =? 0 then mret tt
   else
     let '(cx, cy) := from_option (λ w, (w_cx w, w_cy w)) (640, 480) (get_window m hwnd) in
     put_i32 prcl 0 0;; put_i32 prcl 4 0;; put_i32 prcl 8 cx;; put_i32 prcl 12 cy);;
  mret (Normal 1).
Definition is_frame (m : WindowManager) (hwnd : Z) : bool := bool_decide (is_Some (frame_to_client m !! hwnd)).
Definition WinDestroyWindow : gui ApiResult :=
  hwnd ← arg 4;
  m ← ask wm;
  (if is_frame m hwnd then
     in_wm (z_remove hwnd);;
     in_wm (λ m, with_frames (delete hwnd (frame_to_client m)) m);;
     send [GShowWindow hwnd false]
   else mret tt);;
  mret (Normal 1).

(** 884, 885: the thread of a timer that is replaced or stopped is joined. *)
Definition WinStartTimer : gui ApiResult :=
  _ ← arg 4; hwnd ← arg 8; id_timer ← arg 12; _ ← arg 16;
  in_wm (λ m, with_timers (timers m ∖ {[(hwnd, id_timer)]}) m);;
  in_wm (λ m, with_timers ({[(hwnd, id_timer)]} ∪ timers m) m);;
  mret (Normal id_timer).
Definition WinStopTimer : gui ApiResult :=
  _ ← arg 4; hwnd ← arg 8; id_timer ← arg 12;
  in_wm (λ m, with_timers (timers m ∖ {[(hwnd, id_timer)]}) m);;
  mret (Normal 1).
(** A turn of the loop of the thread. *)
Definition timer_fires (hwnd id_timer : Z) : gui () :=
  m ← ask wm;
  if bool_decide ((hwnd, id_timer) ∈ timers m) then post hwnd (message hwnd WM_TIMER id_timer 0)
  else mret tt.

(** 707, 733, 793, 806, 854: the clipboard *)
Definition set_clipboard_open (b : bool) : gui ApiResult :=
  in_wm (λ m, with_clipboard (clipboard m) b (clipboard_text m) m);; mret (Normal 1).
Definition WinEmptyClipbrd : gui ApiResult :=
  in_wm (λ m, with_clipboard ∅ (clipboard_open m) (clipboard_text m) m);; mret (Normal 1).
Definition WinQueryClipbrdData : gui ApiResult :=
  _ ← arg 4; fmt ← arg 8;
  m ← ask wm; mret (Normal (default 0 (clipboard m !! fmt))).
Definition WinSetClipbrdData : gui ApiResult :=
  _ ← arg 4; data ← arg 8; fmt ← arg 12; _ ← arg 16;
  (if (fmt =? CF_TEXT) && negb (data =? 0) then
     t ← get_str data;
     in_wm (λ m, with_clipboard (clipboard m) (clipboard_open m) t m);;
     send [GSetClipboardText t]
   else mret tt);;
  in_wm (λ m, with_clipboard (<[fmt := data]> (clipboard m)) (clipboard_open m) (clipboard_text m) m);;
  mret (Normal 1).

(** 857, 907, 778: menus *)
Definition WinSetMenu : gui ApiResult :=
  hwnd_frame ← arg 4; hwnd_menu ← arg 8;
  m ← ask wm;
  in_wm (update_window hwnd_frame (set_menu_hwnd hwnd_menu));;
  mret (Normal (from_option menu_hwnd 0 (get_window m hwnd_frame))).
Definition menu_template (guest_addr size : Z) : gui (list MenuItem) :=
  m ← ask mem; pure (parse_menu_template m guest_addr size).
Definition WinCreateMenu : gui ApiResult :=
  hwnd_parent ← arg 4; pvmt ← arg 8;
  items ← (if pvmt =? 0 then mret [] else menu_template pvmt 4096);
  h ← on_wm (create_window (str "#Menu") hwnd_parent 0);
  in_wm (update_window h (set_menu_items items));;
  mret (Normal h).
(** A resource of the program; the number is cut to a u16. *)
Definition find_resource (type_id name_id : Z) : gui (option (Z * Z)) :=
  ask (λ s, Managers.resource_find (resources s) type_id (as_u M16 name_id)).
Definition WinLoadMenu : gui ApiResult :=
  hwnd_frame ← arg 4; _ ← arg 8; id_menu ← arg 12;
  res ← find_resource RT_MENU id_menu;
  items ← match res with Some (a, n) => menu_template a n | None => mret [] end;
  m ← ask wm;
  let '(frame_cx, frame_cy) := from_option (λ w, (w_cx w, w_cy w)) (640, 480) (get_window m hwnd_frame) in
  h ← on_wm (create_window (str "#Menu") hwnd_frame 0);
  a ← pure (i32 (frame_cy - CHROME_TITLE_H));
  y ← pure (i32 (a - MENU_BAR_HEIGHT));
  in_wm (update_window h (λ w, set_size frame_cx MENU_BAR_HEIGHT (set_pos 0 y (set_menu_items items w))));;
  in_wm (update_window hwnd_frame (set_menu_hwnd h));;
  post hwnd_frame (message h WM_PAINT 0 0);;
  mret (Normal h).

(** 910, 729, 796: dialogs; waking the loop of a dialog has no state. *)
Definition dismiss (hwnd result : Z) : gui () := in_wm (update_window hwnd (set_dismissed true result)).
Definition WinDefDlgProc : gui ApiResult :=
  hwnd ← arg 4; msg ← arg 8; mp1 ← arg 12; mp2 ← arg 16;
  if msg =? WM_INITDLG then mret (Normal 0)
  else if msg =? WM_BUTTON1DOWN then dispatch_builtin_control hwnd WM_BUTTON1DOWN mp1 mp2
  else if msg =? WM_COMMAND then
    let id := Z.land mp1 0xFFFF in
    (if (id =? DID_OK) || (id =? DID_CANCEL) then dismiss hwnd id else mret tt);;
    mret (Normal 0)
  else if msg =? WM_CLOSE then dismiss hwnd DID_CANCEL;; mret (Normal 0)
  else mret (Normal 0).
Definition WinDismissDlg : gui ApiResult :=
  hwnd ← arg 4; result ← arg 8; dismiss hwnd result;; mret (Normal 1).
Definition WinProcessDlg : gui ApiResult :=
  hwnd_dlg ← arg 4;
  m ← ask wm;
  pfn ← window_proc hwnd_dlg;
  let hmq := default 0 (find_hmq_for_hwnd order m hwnd_dlg) in
  if (pfn =? 0) || (hmq =? 0) then mret (Normal DID_CANCEL)
  else mret (ApiRegistry.DlgRunLoop pfn hwnd_dlg hmq).
(** The common part of WinDlgBox and WinLoadDlg: the dialog and its queue, with its first two
    messages posted. *)
Definition bare_dialog (hwnd_parent pfn : Z) : gui (Z * Z) :=
  hmq ← own_queue vcpu_id;
  h ← on_wm (create_window (str "#Dialog") hwnd_parent hmq);
  in_wm (update_window h (set_pfn_wp pfn));;
  mret (h, hmq).
Definition load_dialog (hwnd_parent pfn id_dlg p_create_params : Z) : gui (Z * Z) :=
  res ← find_resource RT_DIALOG id_dlg;
  '(hwnd_dlg, hmq) ←
    match res with
    | None => bare_dialog hwnd_parent pfn
    | Some (guest_addr, size) =>
      m ← ask mem;
      t ← pure (parse_dlg_template m guest_addr size);
      match t with
      | None => bare_dialog hwnd_parent pfn
      | Some t => on_wm (create_dialog_from_template hwnd_parent pfn vcpu_id t)
      end
    end;
  m ← ask wm;
  let first_child := default 0 (w ← get_window m hwnd_dlg; head (children w)) in
  (if hmq =? 0 then mret tt
   else post_to hmq (message hwnd_dlg WM_INITDLG first_child p_create_params);;
        post_to hmq (message hwnd_dlg WM_PAINT 0 0));;
  mret (hwnd_dlg, hmq).
(** 923, 924 *)
Definition WinDlgBox : gui ApiResult :=
  hwnd_parent ← arg 4; _ ← arg 8; pfn ← arg 12; _ ← arg 16; id_dlg ← arg 20; params ← arg 24;
  if pfn =? 0 then mret (Normal DID_ERROR)
  else
    '(hwnd_dlg, hmq) ← load_dialog hwnd_parent pfn id_dlg params;
    mret (ApiRegistry.DlgRunLoop pfn hwnd_dlg hmq).
Definition WinLoadDlg : gui ApiResult :=
  hwnd_parent ← arg 4; _ ← arg 8; pfn ← arg 12; _ ← arg 16; id_dlg ← arg 20; params ← arg 24;
  '(hwnd_dlg, _) ← load_dialog hwnd_parent pfn id_dlg params;
  mret (Normal hwnd_dlg).

(** 743, 765, 892: drawing *)
Definition WinFillRect : gui ApiResult :=
  hps ← arg 4; prcl ← arg 8; color_idx ← arg 12;
  x1 ← peek 4 prcl 0; y1 ← peek 4 prcl 4; x2 ← peek 4 prcl 8; y2 ← peek 4 prcl 12;
  m ← ask wm;
  send [GDrawBox (client_to_frame order m (get_ps_hwnd m hps)) (as_i32 x1) (as_i32 y1) (as_i32 x2) (as_i32 y2)
          (map_color color_idx) true];;
  mret (Normal 1).
Definition WinInvalidateRect : gui ApiResult :=
  hwnd ← arg 4;
  in_wm (mark_dirty hwnd);;
  m ← ask wm;
  let target := default hwnd (frame_to_client m !! hwnd) in
  post target (message target WM_PAINT 0 0);;
  mret (Normal 1).
Definition WinUpdateWindow : gui ApiResult :=
  hwnd ← arg 4;
  m ← ask wm;
  send [GPresentBuffer (client_to_frame order m hwnd)];;
  mret (Normal 1).

(** 776, 850, 904: accelerators *)
Fixpoint accel_entries (n : nat) (guest_addr size i : Z) : gui (list AccelEntry) :=
  match n with
  | O => mret []
  | S n =>
    t ← pure (umul M32 i 6);
    a ← pure (uadd M32 guest_addr 4);
    entry_off ← pure (uadd M32 a t);
    e ← pure (uadd M32 entry_off 6);
    limit ← pure (uadd M32 guest_addr size);
    if limit <? e then mret []
    else
      flags ← peek 2 entry_off 0; key ← peek 2 entry_off 2; cmd ← peek 2 entry_off 4;
      l ← accel_entries n guest_addr size (i + 1);
      mret (mk_accel flags key cmd :: l)
  end.
Definition WinLoadAccelTable : gui ApiResult :=
  _ ← arg 4; _ ← arg 8; id ← arg 12;
  res ← find_resource RT_ACCELTABLE id;
  match res with
  | None => mret (Normal 0)
  | Some (guest_addr, size) =>
    if size <? 4 then mret (Normal 0)
    else
      count ← peek 2 guest_addr 2;
      entries ← accel_entries (Z.to_nat count) guest_addr size 0;
      haccel ← on_wm (add_accel_table entries);
      mret (Normal haccel)
  end.
Definition WinSetAccelTable : gui ApiResult :=
  _ ← arg 4; haccel ← arg 8; hwnd ← arg 12;
  in_wm (set_window_accel hwnd haccel);;
  mret (Normal 1).
Definition WinTranslateAccel : gui ApiResult :=
  _ ← arg 4; hwnd ← arg 8; _ ← arg 12; pqmsg ← arg 16;
  if pqmsg =? 0 then mret (Normal 0)
  else
    msg ← peek 4 pqmsg 4;
    if msg =? WM_CHAR then
      mp1 ← peek 4 pqmsg 8; mp2 ← peek 4 pqmsg 12;
      m ← ask wm;
      match translate_accel m hwnd (Z.land mp2 0xFFFF) (Z.land mp1 0xFFFF) with
      | Some c => put 4 pqmsg 4 WM_COMMAND;; put 4 pqmsg 8 c;; put 4 pqmsg 12 0;; mret (Normal 1)
      | None => mret (Normal 0)
      end
    else mret (Normal 0).

(** 781: the strings of a bundle, each with its length before it. *)
Fixpoint copy_bytes (n : nat) (src dst i : Z) : gui () :=
  match n with
  | O => mret tt
  | S n =>
    b ← peek 1 src i; put 1 dst i b;; copy_bytes n src dst (i + 1)
  end.
(** A null byte at the buffer, if there is one. *)
Definition clear_buffer (psz_buffer : Z) : gui () :=
  if psz_buffer =? 0 then mret tt else put 1 psz_buffer 0 0.
Fixpoint find_string (n : nat) (guest_addr size index cch_max psz_buffer offset : Z) : gui ApiResult :=
  match n with
  | O => clear_buffer psz_buffer;; mret (Normal 0)
  | S n =>
    if size <=? offset then clear_buffer psz_buffer;; mret (Normal 0)
    else
      l ← peek 1 guest_addr offset;
      offset ← pure (uadd M32 offset 1);
      if index =? 0 then
        let copy_len := Z.min l (saturating_sub (Z.max cch_max 0) 1) in
        (if negb (psz_buffer =? 0) && (0 <? copy_len) then
           src ← pure (uadd M32 guest_addr offset);
           copy_bytes (Z.to_nat copy_len) src psz_buffer 0;;
           put 1 psz_buffer copy_len 0
         else clear_buffer psz_buffer);;
        mret (Normal copy_len)
      else
        offset ← pure (uadd M32 offset l);
        find_string n guest_addr size (index - 1) cch_max psz_buffer offset
  end.
Definition WinLoadString : gui ApiResult :=
  _ ← arg 4; _ ← arg 8; id ← arg 12; cch_max ← arg_i32 16; psz_buffer ← arg 20;
  bundle_id ← pure (uadd M32 (id / 16) 1);
  res ← find_resource RT_STRING bundle_id;
  match res with
  | Some (guest_addr, size) => find_string 16 guest_addr size (id mod 16) cch_max psz_buffer 0
  | None => clear_buffer psz_buffer;; mret (Normal 0)
  end.

(** 795, 797, 804, 852: activation and capture *)
Definition WinSetActiveWindow : gui ApiResult :=
  _ ← arg 4; hwnd ← arg 8;
  m ← ask wm;
  let candidate := client_to_frame order m hwnd in
  let frame := if is_frame m candidate then candidate else hwnd in
  if is_frame m frame then
    let prev := focused_hwnd m in
    in_wm (with_focus frame);;
    in_wm (z_push_top frame);;
    (if negb (frame =? 0) && negb (prev =? frame) then
       (if prev =? 0 then mret tt else post prev (message prev WM_ACTIVATE 0 frame));;
       post frame (message frame WM_ACTIVATE 1 prev)
     else mret tt);;
    mret (Normal (if frame =? 0 then 0 else 1))
  else mret (Normal 0).
Definition WinQueryActiveWindow : gui ApiResult :=
  _ ← arg 4; m ← ask wm; mret (Normal (focused_hwnd m)).
Definition WinQueryCapture : gui ApiResult :=
  _ ← arg 4; m ← ask wm; mret (Normal (capture_hwnd m)).
Definition WinSetCapture : gui ApiResult :=
  _ ← arg 4; hwnd ← arg 8;
  in_wm (with_capture hwnd);; send [GSetMouseCapture hwnd];; mret (Normal 1).

(** 815, 841, 859, 877: the texts of windows *)
Definition WinQueryDlgItemText : gui ApiResult :=
  hwnd_dlg ← arg 4; id_item ← arg 8; cch_max ← arg 12; buffer_ptr ← arg 16;
  m ← ask wm;
  text_out (from_option text [] (h ← find_child_by_id m hwnd_dlg id_item; get_window m h)) cch_max buffer_ptr.
Definition WinQueryWindowText : gui ApiResult :=
  hwnd ← arg 4; cch_max ← arg 8; buffer_ptr ← arg 12;
  m ← ask wm;
  text_out (from_option text [] (get_window m hwnd)) cch_max buffer_ptr.
Definition WinSetDlgItemText : gui ApiResult :=
  hwnd_dlg ← arg 4; id_item ← arg 8; psz_text ← arg 12;
  t ← get_str psz_text;
  m ← ask wm;
  match find_child_by_id m hwnd_dlg id_item with
  | Some h => in_wm (update_window h (set_text t))
  | None => mret tt
  end;;
  mret (Normal 1).
Definition WinSetWindowText : gui ApiResult :=
  hwnd ← arg 4; psz_text ← arg 8;
  t ← get_str psz_text;
  in_wm (update_window hwnd (set_text t));;
  in_wm (mark_dirty hwnd);;
  mret (Normal 1).

(** 829, 834, 843, 844, 878, 879, 899 *)
Definition sys_value (v : Z) : Z :=
  match v with
  | 20 => 640 | 21 => 480 | 22 => 640 | 23 => 460 | 24 => 20 | 27 => 1 | 28 => 1 | _ => 0
  end.
Definition WinQuerySysValue : gui ApiResult :=
  _ ← arg 4; v ← arg_i32 8; mret (Normal (sys_value v)).
Definition WinQueryWindow : gui ApiResult :=
  hwnd ← arg 4; code ← arg_i32 8;
  m ← ask wm;
  mret (Normal (if (code =? 5) || (code =? 6) then from_option parent 0 (get_window m hwnd) else 0)).
Definition WinQueryWindowULong : gui ApiResult :=
  hwnd ← arg 4; index ← arg_i32 8;
  m ← ask wm; mret (Normal (default 0 (w ← get_window m hwnd; window_ulong w !! index))).
Definition WinQueryWindowUShort : gui ApiResult :=
  hwnd ← arg 4; index ← arg_i32 8;
  m ← ask wm; mret (Normal (default 0 (w ← get_window m hwnd; window_ushort w !! index))).
Definition WinSetWindowULong : gui ApiResult :=
  hwnd ← arg 4; index ← arg_i32 8; value ← arg 12;
  in_wm (update_window hwnd (λ w, set_ulong (<[index := value]> (window_ulong w)) w));;
  mret (Normal 1).
Definition WinSetWindowUShort : gui ApiResult :=
  hwnd ← arg 4; index ← arg_i32 8; value ← arg 12;
  in_wm (update_window hwnd (λ w, set_ushort (<[index := as_u M16 value]> (window_ushort w)) w));;
  mret (Normal 1).
Definition WinWindowFromID : gui ApiResult :=
  hwnd_parent ← arg 4; id ← arg 8;
  m ← ask wm; mret (Normal (default 0 (find_child_by_id m hwnd_parent id))).

(** 903 *)
Definition WinSendDlgItemMsg : gui ApiResult :=
  hwnd_dlg ← arg 4; id_item ← arg 8; msg ← arg 12; mp1 ← arg 16; mp2 ← arg 20;
  m ← ask wm;
  match find_child_by_id m hwnd_dlg id_item with
  | Some child_hwnd => if child_hwnd =? 0 then mret (Normal 0) else deliver child_hwnd msg mp1 mp2
  | None => mret (Normal 0)
  end.

(** 875 *)
Definition place (x y cx cy fl : Z) (w : OS2Window) : OS2Window :=
  let w := if has fl SWP_MOVE then set_pos x y w else w in
  let w := if has fl SWP_SIZE then set_size cx cy w else w in
  let w := if has fl SWP_SHOW then set_visible true w else w in
  if has fl SWP_HIDE then set_visible false w else w.
Definition restack (hwnd behind : Z) (m : WindowManager) : WindowManager :=
  if (behind =? HWND_TOP) || (behind =? HWND_FLOAT) then z_push_top hwnd m
  else if behind =? HWND_BOTTOM then z_push_bottom hwnd m
  else if behind =? 0 then m
  else z_insert_behind hwnd behind m.
Definition WinSetWindowPos : gui ApiResult :=
  hwnd ← arg 4; behind ← arg 8; x ← arg_i32 12; y ← arg_i32 16; cx ← arg_i32 20; cy ← arg_i32 24; fl ← arg 28;
  in_wm (update_window hwnd (place x y cx cy fl));;
  in_wm (λ m, if has fl SWP_ZORDER && is_frame m hwnd then restack hwnd behind m else m);;
  in_wm (λ m, if has fl SWP_ACTIVATE && is_frame m hwnd then z_push_top hwnd (with_focus hwnd m) else m);;
  in_wm (λ m, if has fl (SWP_MOVE + SWP_SIZE + SWP_SHOW + SWP_HIDE + SWP_ACTIVATE) then mark_dirty hwnd m else m);;
  send ((if has fl SWP_SIZE then [GResizeWindow hwnd (as_u M32 cx) (as_u M32 cy)] else []) ++
        (if has fl SWP_MOVE then [GMoveWindow hwnd x y] else []) ++
        (if has fl SWP_SHOW then [GShowWindow hwnd true] else []) ++
        (if has fl SWP_HIDE then [GShowWindow hwnd false] else []));;
  mret (Normal 1).

(** 909, 895 *)
Definition WinCreateWindow : gui ApiResult :=
  hwnd_parent ← arg 4; psz_class ← arg 8; psz_name ← arg 12; fl_style ← arg 16;
  x ← arg_i32 20; y ← arg_i32 24; cx ← arg_i32 28; cy ← arg_i32 32; id ← arg 44;
  class ← (if is_atom psz_class || (psz_class <? 0x10000) then mret (resolve_class_atom psz_class [])
           else t ← get_str psz_class; mret (resolve_class_atom psz_class t));
  name ← optional_str psz_name [];
  hmq ← own_queue vcpu_id;
  hwnd ← on_wm (create_window class hwnd_parent hmq);
  in_wm (update_window hwnd (λ w, set_visible (has fl_style WS_VISIBLE) (set_style fl_style (set_id id
           (set_size cx cy (set_pos x y (set_text name w)))))));;
  (if has fl_style WS_VISIBLE then post_to hmq (message hwnd WM_PAINT 0 0) else mret tt);;
  mret (Normal hwnd).
Definition WinSubclassWindow : gui ApiResult :=
  hwnd ← arg 4; pfn ← arg 8;
  old ← window_proc hwnd;
  in_wm (update_window hwnd (set_pfn_wp pfn));;
  mret (Normal old).

(** 735, 773, 837 *)
Definition WinEnableWindow : gui ApiResult :=
  hwnd ← arg 4; f ← arg 8;
  let enable := negb (f =? 0) in
  m ← ask wm;
  let was_enabled := from_option (λ w, negb (has (w_style w) WS_DISABLED)) true (get_window m hwnd) in
  in_wm (update_window hwnd (λ w, set_style
    (if enable then Z.land (w_style w) (M32 - 1 - WS_DISABLED) else Z.lor (w_style w) WS_DISABLED) w));;
  post hwnd (message hwnd WM_ENABLE (if enable then 1 else 0) 0);;
  mret (Normal (if was_enabled then 1 else 0)).
Definition WinIsWindowEnabled : gui ApiResult :=
  hwnd ← arg 4;
  m ← ask wm;
  mret (Normal (from_option (λ w, if has (w_style w) WS_DISABLED then 0 else 1) 0 (get_window m hwnd))).
Definition WinQueryWindowPos : gui ApiResult :=
  hwnd ← arg 4; pswp ← arg 8;
  if pswp =? 0 then mret (Normal 0)
  else
    m ← ask wm;
    let '(x, y, cx, cy) := from_option (λ w, (w_x w, w_y w, w_cx w, w_cy w)) (0, 0, 0, 0) (get_window m hwnd) in
    put 4 pswp 0 (SWP_MOVE + SWP_SIZE);; put_i32 pswp 4 cy;; put_i32 pswp 8 cx;; put_i32 pswp 12 y;;
    put_i32 pswp 16 x;; put 4 pswp 20 0;; put 4 pswp 24 hwnd;;
    mret (Normal 1).

(** [handle_pmwin_call] *)
Definition handle_pmwin_call (turns : list (Pm → Pm)) (answer : rstring → rstring → Z → option Z)
    (ordinal : Z) : gui ApiResult :=
  match ordinal with
  | 763 => mret (Normal MOCK_HAB)
  | 888 => mret (Normal 1)
  | 716 => WinCreateMsgQueue
  | 726 => mret (Normal 1)
  | 926 => WinRegisterClass
  | 908 => WinCreateStdWindow
  | 915 => WinGetMsg turns
  | 912 => WinDispatchMsg
  | 919 => WinPostMsg
  | 920 => WinSendMsg
  | 911 => WinDefWindowProc
  | 703 => WinBeginPaint
  | 738 => WinEndPaint
  | 753 => mret (Normal 0)
  | 789 => WinMessageBox answer
  | 883 => WinShowWindow
  | 840 => WinQueryWindowRect
  | 728 => WinDestroyWindow
  | 884 => WinStartTimer
  | 885 => WinStopTimer
  | 701 => mret (Normal 1)
  | 707 => set_clipboard_open false
  | 857 => WinSetMenu
  | 907 => WinCreateMenu
  | 910 => WinDefDlgProc
  | 729 => WinDismissDlg
  | 923 => WinDlgBox
  | 733 => WinEmptyClipbrd
  | 743 => WinFillRect
  | 765 => WinInvalidateRect
  | 776 => WinLoadAccelTable
  | 924 => WinLoadDlg
  | 778 => WinLoadMenu
  | 781 => WinLoadString
  | 793 => set_clipboard_open true
  | 795 => WinSetActiveWindow
  | 797 => WinQueryActiveWindow
  | 937 => mret (Normal 1)
  | 796 => WinProcessDlg
  | 804 => WinQueryCapture
  | 806 => WinQueryClipbrdData
  | 815 => WinQueryDlgItemText
  | 828 => mret (Normal MOCK_HPOINTER)
  | 829 => WinQuerySysValue
  | 841 => WinQueryWindowText
  | 834 => WinQueryWindow
  | 843 => WinQueryWindowULong
  | 844 => WinQueryWindowUShort
  | 903 => WinSendDlgItemMsg
  | 850 => WinSetAccelTable
  | 852 => WinSetCapture
  | 854 => WinSetClipbrdData
  | 859 => WinSetDlgItemText
  | 866 => mret (Normal 1)
  | 875 => WinSetWindowPos
  | 877 => WinSetWindowText
  | 878 => WinSetWindowULong
  | 879 => WinSetWindowUShort
  | 904 => WinTranslateAccel
  | 892 => WinUpdateWindow
  | 899 => WinWindowFromID
  | 909 => WinCreateWindow
  | 895 => WinSubclassWindow
  | 735 => WinEnableWindow
  | 736 => mret (Normal 1)
  | 773 => WinIsWindowEnabled
  | 837 => WinQueryWindowPos
  | _ => mret (Normal 0)
  end.
End call.
End calls.

(** * Messages in transit

    [stacked m esp l]: the arguments [l] of a call lie above [esp].  [received]: the message a
    guest finds at [p] after WinGetMsg, and the answer of the call. *)
Definition stacked (m : GuestMemory) (esp : Z) (l : list Z) : Prop :=
  ∀ i v, l !! i = Some v → read32 m (as_u M32 (esp + 4 + 4 * Z.of_nat i)) = Some v.
Definition received (m : GuestMemory) (p : Z) : OS2Message :=
  let rd n off := default 0 (read n m (p + off)) in
  mk_msg (rd 4%nat 0) (rd 4%nat 4) (rd 4%nat 8) (rd 4%nat 12) (rd 4%nat 16) (rd 2%nat 20) (rd 2%nat 22).
Definition answer_to (msg : OS2Message) : ApiResult := Normal (if m_msg msg =? WM_QUIT then 0 else 1).
Definition msg_ok (msg : OS2Message) : Prop :=
  u32 (m_hwnd msg) ∧ u32 (m_msg msg) ∧ u32 (m_mp1 msg) ∧ u32 (m_mp2 msg) ∧ u32 (m_time msg) ∧
  u16 (m_x msg) ∧ u16 (m_y msg).
Section transit.
Context {B : Build}.
Context (order : gmap Z Z → list (Z * Z)).
(** Calls of WinPostMsg one after the other, then [n] calls of WinGetMsg. *)
Fixpoint post_all (calls : list Z) : gui () :=
  match calls with [] => mret tt | esp :: calls => _ ← WinPostMsg order esp; post_all calls end.
Fixpoint drain (n : nat) (esp vcpu p : Z) : gui (list (OS2Message * ApiResult)) :=
  match n with
  | O => mret []
  | S n =>
    r ← WinGetMsg esp vcpu []; msg ← ask (λ s, received (mem s) p);
    l ← drain n esp vcpu p; mret ((msg, r) :: l)
  end.

Lemma run_arg esp off s v {C} (g : Z → gui C) :
  read32 (mem s) (as_u M32 (esp + off)) = Some v → (arg esp off ≫= g) s = g v s.
Proof. intros H. unfold arg, ask, pure, mbind, gui_bind. out_simpl. by rewrite H. Qed.
Lemma stacked_arg m esp l i v : stacked m esp l → l !! i = Some v →
  read32 m (as_u M32 (esp + (4 + 4 * Z.of_nat i))) = Some v.
Proof. intros H Hi. rewrite Z.add_assoc. by apply H. Qed.

(** The state after a message is posted to queue [q]. *)
Definition with_wm (w : WindowManager) (s : Pm) : Pm := mk_pm w (mem s) (resources s) (active_cp s) (shutting_down s).
Definition queue (s : Pm) (q : Z) : option (list OS2Message) := msg_queues (wm s) !! q.
Definition routes (s : Pm) (hwnd q : Z) : Prop := find_hmq_for_hwnd order (wm s) hwnd = Some q.
Lemma post_msg esp s hwnd msg mp1 mp2 q :
  stacked (mem s) esp [hwnd; msg; mp1; mp2] → routes s hwnd q →
  WinPostMsg order esp s = Ok (Normal 1, with_wm (push_back q (message hwnd msg mp1 mp2) (wm s)) s).
Proof.
  intros Ha Hr. unfold WinPostMsg.
  rewrite (run_arg _ 4 _ hwnd) by (by apply (stacked_arg _ _ _ 0 _ Ha)).
  rewrite (run_arg _ 8 _ msg) by (by apply (stacked_arg _ _ _ 1 _ Ha)).
  rewrite (run_arg _ 12 _ mp1) by (by apply (stacked_arg _ _ _ 2 _ Ha)).
  rewrite (run_arg _ 16 _ mp2) by (by apply (stacked_arg _ _ _ 3 _ Ha)).
  unfold post, in_wm, mbind, gui_bind. out_simpl. by rewrite Hr.
Qed.
Lemma push_back_routes q msg m hwnd : find_hmq_for_hwnd order (push_back q msg m) hwnd = find_hmq_for_hwnd order m hwnd.
Proof.
  unfold find_hmq_for_hwnd, push_back. cbn. destruct (w ← windows m !! hwnd; _); [done|]. f_equal.
  apply list_find_ext. intros [a b]. cbn. by rewrite lookup_alter_is_Some.
Qed.

Definition push_all (q : Z) (msgs : list OS2Message) (w : WindowManager) : WindowManager :=
  foldl (λ w msg, push_back q msg w) w msgs.
Definition posted (s : Pm) (q e : Z) (msg : OS2Message) : Prop :=
  stacked (mem s) e [m_hwnd msg; m_msg msg; m_mp1 msg; m_mp2 msg] ∧ routes s (m_hwnd msg) q ∧
  msg = message (m_hwnd msg) (m_msg msg) (m_mp1 msg) (m_mp2 msg).
Lemma post_all_run calls msgs q s :
  Forall2 (posted s q) calls msgs → post_all calls s = Ok (tt, with_wm (push_all q msgs (wm s)) s).
Proof.
  intros H. revert msgs s H.
  induction calls as [|e calls IH]; intros msgs s H; inversion H as [|? msg ? msgs' Hp Hrest]; subst.
  { by destruct s. }
  destruct Hp as (Ha & Hr & Hm). cbn [post_all]. unfold mbind, gui_bind. rewrite (post_msg _ _ _ _ _ _ _ Ha Hr).
  rewrite <- Hm. out_simpl. rewrite (IH msgs'); [done|]. eapply Forall2_impl; [exact Hrest|].
  intros e' msg' (? & Hr' & ?). split_and!; [done| |done]. unfold routes. cbn. by rewrite push_back_routes.
Qed.
Lemma push_all_queue q msgs w :
  msg_queues (push_all q msgs w) !! q = (λ l, l ++ msgs) <$> msg_queues w !! q.
Proof.
  revert w. induction msgs as [|msg msgs IH]; intros w; cbn [push_all foldl].
  { destruct (msg_queues w !! q); cbn; [by rewrite app_nil_r|done]. }
  unfold push_all in IH. rewrite IH. cbn. rewrite lookup_alter_eq.
  destruct (msg_queues w !! q); cbn; [by rewrite <- app_assoc|done].
Qed.
Lemma push_all_rest q msgs w :
  tid_to_hmq (push_all q msgs w) = tid_to_hmq w ∧ windows (push_all q msgs w) = windows w.
Proof. revert w. induction msgs as [|msg msgs IH]; intros w; [done|]. apply (IH (push_back q msg w)). Qed.

Definition written (m : GuestMemory) (p : Z) (msg : OS2Message) : GuestMemory :=
  poke 2 (poke 2 (poke 4 (poke 4 (poke 4 (poke 4 (poke 4 m
    (p + 0) (m_hwnd msg)) (p + 4) (m_msg msg)) (p + 8) (m_mp1 msg)) (p + 12) (m_mp2 msg))
    (p + 16) (m_time msg)) (p + 20) (as_u M16 (m_x msg))) (p + 22) (as_u M16 (m_y msg)).
Lemma write_msg_run p msg s :
  p + 24 ≤ M32 → write_msg p msg s = Ok (tt, mk_pm (wm s) (written (mem s) p msg) (resources s) (active_cp s) (shutting_down s)).
Proof.
  intros Hp. unfold write_msg, put, pure, in_mem, mbind, gui_bind. by rewrite !uadd_ok by lia.
Qed.
Ltac pokes_wf := repeat apply poke_wf; assumption.
Lemma written_other m p msg n a :
  mem_wf m → a + Z.of_nat n ≤ p ∨ p + 24 ≤ a → read n (written m p msg) a = read n m a.
Proof. intros Hm Ha. unfold written. rewrite !read_poke_other; done || (pokes_wf || lia). Qed.
Lemma written_wf m p msg : mem_wf m → mem_wf (written m p msg).
Proof. intros. unfold written. pokes_wf. Qed.
Lemma written_size m p msg : GuestMem.size (written m p msg) = GuestMem.size m.
Proof. unfold written. by rewrite !poke_size. Qed.
Lemma received_written m p msg :
  mem_wf m → p + 24 ≤ GuestMem.size m → msg_ok msg → received (written m p msg) p = msg.
Proof.
  intros Hm Hp (H1 & H2 & H3 & H4 & H5 & H6 & H7). unfold received, written.
  unfold as_u. rewrite (Z.mod_small (m_x msg)), (Z.mod_small (m_y msg)) by done.
  destruct msg as [a b c d e x y]. cbn [m_hwnd m_msg m_mp1 m_mp2 m_time m_x m_y] in *.
  f_equal; repeat first
    [ rewrite read_poke_same by (pokes_wf || (rewrite ?poke_size; lia))
    | rewrite read_poke_other by (pokes_wf || lia) ]; cbn; apply Z.mod_small; done.
Qed.

(** WinGetMsg takes the first message of the queue of its thread and writes it out. *)
Definition taken (q : Z) (rest : list OS2Message) (m : GuestMemory) (s : Pm) : Pm :=
  mk_pm (with_queues (<[q := rest]> (msg_queues (wm s))) (next_hmq (wm s)) (wm s)) m
    (resources s) (active_cp s) (shutting_down s).
Lemma get_msg_run esp vcpu p q msg rest a1 a2 a3 a4 s :
  stacked (mem s) esp [a1; p; a2; a3; a4] → tid_to_hmq (wm s) !! vcpu = Some q → queue s q = Some (msg :: rest) →
  shutting_down s = false → 0 < p → p + 24 ≤ M32 →
  WinGetMsg esp vcpu [] s = Ok (answer_to msg, taken q rest (written (mem s) p msg) s).
Proof.
  intros Ha Ht Hq Hd Hp Hp'. unfold WinGetMsg.
  rewrite (run_arg _ 4 _ a1) by (by apply (stacked_arg _ _ _ 0 _ Ha)).
  rewrite (run_arg _ 8 _ p) by (by apply (stacked_arg _ _ _ 1 _ Ha)).
  rewrite (run_arg _ 12 _ a2) by (by apply (stacked_arg _ _ _ 2 _ Ha)).
  rewrite (run_arg _ 16 _ a3) by (by apply (stacked_arg _ _ _ 3 _ Ha)).
  rewrite (run_arg _ 20 _ a4) by (by apply (stacked_arg _ _ _ 4 _ Ha)).
  unfold queue in Hq. unfold own_queue. rewrite !run_ask, Ht. cbn [default from_option id]. unfold get_mq. rewrite Hq.
  cbn [get_msg_loop]. rewrite run_ask, Hd, run_ask. unfold get_mq. rewrite Hq.
  replace (p =? 0) with false by (symmetry; apply Z.eqb_neq; lia).
  unfold mbind, gui_bind, in_wm. out_simpl. by rewrite write_msg_run.
Qed.

(** [n] calls of WinGetMsg take the [n] messages of the queue. *)
Definition args_apart (esp p : Z) : Prop :=
  ∀ i, (i < 5)%nat → let a := as_u M32 (esp + 4 + 4 * Z.of_nat i) in a + 4 ≤ p ∨ p + 24 ≤ a.
Lemma drain_run esp vcpu p q msgs a1 a2 a3 a4 s :
  stacked (mem s) esp [a1; p; a2; a3; a4] → args_apart esp p → mem_wf (mem s) →
  tid_to_hmq (wm s) !! vcpu = Some q → queue s q = Some msgs → shutting_down s = false →
  0 < p → p + 24 ≤ M32 → p + 24 ≤ GuestMem.size (mem s) → Forall msg_ok msgs →
  ∃ s', drain (length msgs) esp vcpu p s = Ok (map (λ msg, (msg, answer_to msg)) msgs, s') ∧ queue s' q = Some [].
Proof.
  intros Ha Hap Hm Ht Hq Hd Hp H1 H2 Hok. revert s Ha Hm Ht Hq Hd H2.
  induction Hok as [|msg msgs Hmsg Hok IH]; intros s Ha Hm Ht Hq Hd H2; [by exists s|].
  cbn [length drain map]. unfold mbind at 1, gui_bind at 1.
  rewrite (get_msg_run _ _ _ _ _ _ _ _ _ _ _ Ha Ht Hq Hd Hp H1). out_simpl. rewrite run_ask. cbn [mem taken].
  rewrite received_written by done.
  destruct (IH (taken q msgs (written (mem s) p msg) s)) as (s' & Hs' & Hq'); cbn.
  - intros i v Hi. rewrite written_other; [by apply Ha|done|]. apply Hap. apply lookup_lt_Some in Hi. simpl in Hi. lia.
  - by apply written_wf.
  - done.
  - unfold queue. cbn. by rewrite lookup_insert_eq.
  - done.
  - by rewrite written_size.
  - exists s'. split; [|done]. unfold mbind, gui_bind. out_simpl. by rewrite Hs'.
Qed.
End transit.

(** C24: the messages that programs post to the windows of a thread reach it exactly once, in the
    order they were posted and with what was posted: after any number of WinPostMsg calls, as many
    WinGetMsg calls of the thread that owns the queue write these messages out one by one, answer
    0 for WM_QUIT and 1 for the rest, and leave the queue empty. *)
Theorem messages_arrive {B : Build} order (s : Pm) (calls : list Z) (msgs : list OS2Message)
    (esp vcpu p q hab hwnd first last : Z) :
  Forall2 (posted order s q) calls msgs →
  tid_to_hmq (wm s) !! vcpu = Some q → queue s q = Some [] → shutting_down s = false →
  stacked (mem s) esp [hab; p; hwnd; first; last] → args_apart esp p →
  mem_wf (mem s) → 0 < p → p + 24 ≤ M32 → p + 24 ≤ GuestMem.size (mem s) →
  ∃ s', (_ ← post_all order calls; drain (length msgs) esp vcpu p) s =
          Ok (map (λ msg, (msg, answer_to msg)) msgs, s') ∧
    queue s' q = Some [].
Proof.
  intros Hps Ht Hq Hd Ha Hap Hm Hp H1 H2.
  assert (Forall msg_ok msgs) as Hok.
  { clear -Hps Hm. induction Hps as [|e msg calls msgs (Hst & _ & Hmsg) _ IH]; constructor; [|done].
    assert (∀ i v, [m_hwnd msg; m_msg msg; m_mp1 msg; m_mp2 msg] !! i = Some v → u32 v) as Hv.
    { intros i v Hi. apply Hst in Hi. by apply (read_range 4 _ _ _ Hm) in Hi. }
    rewrite Hmsg. split_and!; cbn; [apply (Hv 0%nat)|apply (Hv 1%nat)|apply (Hv 2%nat)|apply (Hv 3%nat)|..]; done. }
  unfold mbind, gui_bind. rewrite (post_all_run _ _ _ _ _ Hps). out_simpl.
  destruct (push_all_rest q msgs (wm s)) as [Htid _].
  eapply drain_run; cbn; try done; [by rewrite Htid|]. unfold queue in *. cbn. by rewrite push_all_queue, Hq.
Qed.

Definition demo_words (p : Z) (l : list Z) (m : GuestMemory) : GuestMemory := store_bytes m p (concat (map le32 l)).
Definition demo_pm : Pm :=
  let win := new_window 0x1000 [] 0 0 0x3000 in
  let w := with_tids {[7 := 0x3000]} (with_queues {[0x3000 := []]} 0x3001
             (with_windows {[0x1000 := win]} 0x1001 wm_new)) in
  let m := demo_words 0x104 [0x1000; WM_TIMER; 5; 0] (demo_words 0x204 [0x1000; WM_QUIT; 0; 0]
             (demo_words 0x304 [1; 0x400; 0; 0; 0] (alloc 0x1000))) in
  mk_pm w m Managers.resource_manager_new 437 false.
Lemma messages_arrive_witness :
  ∃ s', (_ ← post_all map_to_list [0x100; 0x200]; @drain dev_profile 2 0x300 7 0x400) demo_pm =
          Ok ([(message 0x1000 WM_TIMER 5 0, Normal 1); (message 0x1000 WM_QUIT 0 0, Normal 0)], s') ∧
    queue s' 0x3000 = Some [].
Proof.
  apply (@messages_arrive dev_profile map_to_list demo_pm [0x100; 0x200]
    [message 0x1000 WM_TIMER 5 0; message 0x1000 WM_QUIT 0 0] 0x300 7 0x400 0x3000 1 0 0 0); try reflexivity.
  - repeat constructor; try reflexivity; intros [|[|[|[|i]]]] v Hv; try discriminate Hv; injection Hv as <-;
      vm_compute; reflexivity.
  - intros [|[|[|[|[|i]]]]] v Hv; try discriminate Hv; injection Hv as <-; vm_compute; reflexivity.
  - intros [|[|[|[|[|i]]]]] Hi; try lia; vm_compute; left; discriminate.
  - repeat apply store_bytes_wf; try (apply alloc_wf; lia); repeat (apply Forall_app; split); try apply le_bytes_bytes;
      by constructor.
  - vm_compute; discriminate.
  - vm_compute; discriminate.
Defined.
