(* ===== verification/PmCall.v ===== *)
(** Calls of window procedures and the loop of modal dialogs (src/src/loader/vcpu.rs): how the result
    of a PMWIN call enters guest code, how the guest comes back through the callback trap, and
    [setup_dlg_dispatch], which feeds a dialog procedure until the dialog is dismissed.

    The guest runs between an entry and the return of its callback; it is a parameter of the
    statements.  A wait for a message is a list of turns, as in [WinGetMsg]. *)
From S2P Require Import Prelude Bytes Codepage Constants GuestMem PmTypes PmRes PmControls PmWin.
From S2P Require Seh Managers ApiRegistry HostDir.

Abbreviation GuestRegs := Seh.GuestRegs.
Abbreviation rip := Seh.rip.
Abbreviation rsp := Seh.rsp.
Abbreviation rax := Seh.rax.
Abbreviation set_rip := Seh.set_rip.
Abbreviation set_rsp := Seh.set_rsp.
Definition WM_CREATE := 0x0001.
Definition set_rax (r : GuestRegs) (v : Z) : GuestRegs :=
  Seh.mk_regs (Seh.rip r) (Seh.rsp r) v (Seh.rbx r) (Seh.rcx r) (Seh.rdx r) (Seh.rsi r) (Seh.rdi r)
    (Seh.rbp r) (Seh.rflags r).

(** [CallbackFrame] with the kinds of frames of the Presentation Manager. *)
Inductive FrameKind :=
| PmCallback
| WmCreate (h_frame : Z)
| DlgLoop (dlg_proc hwnd_dlg hmq : Z).
Record CallbackFrame := mk_frame { saved_rip : Z; saved_rsp : Z; kind : FrameKind }.
(** A vCPU at work for the window manager. *)
Record Vp := mk_vp { pm : Pm; regs : GuestRegs; frames : list CallbackFrame }.

Section calls.
Context {B : Build}.
Context (order : gmap Z Z → list (Z * Z)).
Context (enc_decode : Encoding → bytes → rstring).

(** What the loop of a dialog does next. *)
Inductive DlgStep := DlgReturn (result : Z) | DlgCall (msg : OS2Message).
Fixpoint dlg_loop (fuel : nat) (turns : list (Pm → Pm)) (hwnd_dlg hmq : Z) : gui DlgStep :=
  match fuel with
  | O => pure Diverge
  | S fuel =>
    m ← ask wm;
    match get_window m hwnd_dlg with
    | None => mret (DlgReturn DID_CANCEL)
    | Some w =>
      if dialog_dismissed w then mret (DlgReturn (dialog_result w))
      else
        quit ← ask shutting_down;
        if (quit : bool) then mret (DlgReturn DID_CANCEL)
        else
          match get_mq m hmq with
          | Some (msg :: rest) =>
            in_wm (λ m, with_queues (<[hmq := rest]> (msg_queues m)) (next_hmq m) m);;
            if m_msg msg =? WM_QUIT then mret (DlgReturn DID_CANCEL)
            else if m_msg msg =? WM_PAINT then
              _ ← dispatch_builtin_control order enc_decode (m_hwnd msg) WM_PAINT 0 0;
              dlg_loop fuel turns hwnd_dlg hmq
            else mret (DlgCall msg)
          | _ =>
            match turns with
            | [] => pure Diverge
            | t :: turns => λ s, dlg_loop fuel turns hwnd_dlg hmq (t s)
            end
          end
    end
  end.
Definition dlg_next (fuel : nat) (turns : list (Pm → Pm)) (hwnd_dlg hmq : Z) : gui DlgStep :=
  m ← ask wm;
  match get_mq m hmq with
  | None => mret (DlgReturn DID_CANCEL)
  | Some _ => dlg_loop fuel turns hwnd_dlg hmq
  end.

Definition with_pm (s : Pm) (v : Vp) : Vp := mk_vp s (regs v) (frames v).
Definition with_regs (r : GuestRegs) (v : Vp) : Vp := mk_vp (pm v) r (frames v).
Definition with_mem (m : GuestMemory) (s : Pm) : Pm := mk_pm (wm s) m (resources s) (active_cp s) (shutting_down s).
Definition put32 (m : GuestMemory) (sp off v : Z) : outcome () GuestMemory :=
  a ← uadd M32 sp off; unwrap (write32 m a v).
(** The guest enters [proc] with a return to the callback trap and four arguments on its stack. *)
Definition enter_proc (f : CallbackFrame) (proc hwnd msg mp1 mp2 : Z) (v : Vp) : outcome () Vp :=
  rsp' ← usub M64 (rsp (regs v)) 20;
  let sp := as_u M32 rsp' in
  m ← put32 (mem (pm v)) sp 0 CALLBACK_RET_TRAP;
  m ← put32 m sp 4 hwnd;
  m ← put32 m sp 8 msg;
  m ← put32 m sp 12 mp1;
  m ← put32 m sp 16 mp2;
  Ok (mk_vp (with_mem m (pm v)) (set_rip (set_rsp (regs v) rsp') proc) (f :: frames v)).
(** [setup_dlg_dispatch] *)
Definition setup_dlg_dispatch (fuel : nat) (turns : list (Pm → Pm)) (dlg_proc hwnd_dlg hmq s_rip s_rsp : Z)
    (v : Vp) : outcome () Vp :=
  '(step, s) ← dlg_next fuel turns hwnd_dlg hmq (pm v);
  let v := with_pm s v in
  match step with
  | DlgReturn result => Ok (with_regs (set_rax (set_rsp (set_rip (regs v) s_rip) s_rsp) result) v)
  | DlgCall msg =>
    enter_proc (mk_frame s_rip s_rsp (DlgLoop dlg_proc hwnd_dlg hmq)) dlg_proc
      (m_hwnd msg) (m_msg msg) (m_mp1 msg) (m_mp2 msg) v
  end.

(** What [run_vcpu] makes of the result of a PMWIN call. *)
Definition api_result (fuel : nat) (turns : list (Pm → Pm)) (r : ApiResult) (v : Vp) : outcome () Vp :=
  return_addr ← unwrap (read32 (mem (pm v)) (as_u M32 (rsp (regs v))));
  s_rsp ← uadd M64 (rsp (regs v)) 4;
  match r with
  | ApiRegistry.RNormal res => Ok (with_regs (set_rsp (set_rip (set_rax (regs v) res) return_addr) s_rsp) v)
  | ApiRegistry.Callback proc hwnd msg mp1 mp2 =>
    enter_proc (mk_frame return_addr s_rsp PmCallback) proc hwnd msg mp1 mp2 v
  | ApiRegistry.WmCreateCallback proc hwnd h_frame =>
    enter_proc (mk_frame return_addr s_rsp (WmCreate h_frame)) proc hwnd WM_CREATE 0 0 v
  | ApiRegistry.DlgRunLoop proc hwnd_dlg hmq =>
    setup_dlg_dispatch fuel turns proc hwnd_dlg hmq return_addr s_rsp v
  | _ => Panic
  end.
(** The guest returned to the callback trap. *)
Definition procedure_returned (fuel : nat) (turns : list (Pm → Pm)) (v : Vp) : outcome () (option Vp) :=
  match frames v with
  | [] => Ok None
  | f :: rest =>
    let result := as_u M32 (rax (regs v)) in
    let back := set_rsp (set_rip (regs v) (saved_rip f)) (saved_rsp f) in
    let v := mk_vp (pm v) (regs v) rest in
    match kind f with
    | PmCallback => Ok (Some (with_regs (set_rax back result) v))
    | WmCreate h_frame => Ok (Some (with_regs (set_rax back h_frame) v))
    | DlgLoop dlg_proc hwnd_dlg hmq =>
      match get_window (wm (pm v)) hwnd_dlg with
      | Some w =>
        if dialog_dismissed w then
          '(_, s) ← (in_wm (z_remove hwnd_dlg);; send [GPresentBuffer hwnd_dlg]) (pm v);
          Ok (Some (mk_vp s (set_rax back (dialog_result w)) rest))
        else Some <$> setup_dlg_dispatch fuel turns dlg_proc hwnd_dlg hmq (saved_rip f) (saved_rsp f) v
      | None => Some <$> setup_dlg_dispatch fuel turns dlg_proc hwnd_dlg hmq (saved_rip f) (saved_rsp f) v
      end
    end
  end.
End calls.

(** * Entering and leaving guest code *)

Section entering.
Context {B : Build}.
Context (order : gmap Z Z → list (Z * Z)).
Context (enc_decode : Encoding → bytes → rstring).

(** The words [l] lie on the stack of the guest. *)
Definition on_stack (v : Vp) (l : list Z) : Prop := ∀ i x, l !! i = Some x →
  read32 (mem (pm v)) (as_u M32 (rsp (regs v)) + 4 * Z.of_nat i) = Some (x mod M32).
(** [v'] is back at the caller of the API call that [v] makes, with [result] in EAX. *)
Definition back_at_caller (v v' : Vp) (result : Z) : Prop :=
  Some (rip (regs v')) = read32 (mem (pm v)) (as_u M32 (rsp (regs v))) ∧
  rsp (regs v') = rsp (regs v) + 4 ∧ rax (regs v') = result ∧ frames v' = frames v.

Lemma put32_inv m sp off x m' : sp + off < M32 → put32 m sp off x = Ok m' → write32 m (sp + off) x = Some m'.
Proof.
  intros Ho. unfold put32. rewrite uadd_ok by done. out_simpl. destruct (write32 m (sp + off) x); [|done]. by intros [= ->].
Qed.
Lemma enter_proc_result f proc hwnd msg mp1 mp2 v v' :
  enter_proc f proc hwnd msg mp1 mp2 v = Ok v' →
  frames v' = f :: frames v ∧ wm (pm v') = wm (pm v) ∧ rip (regs v') = proc ∧
  (20 ≤ rsp (regs v) → rsp (regs v') = rsp (regs v) - 20) ∧
  (mem_wf (mem (pm v)) → 0 ≤ rsp (regs v) - 20 → as_u M32 (rsp (regs v) - 20) + 20 ≤ M32 →
    on_stack v' [CALLBACK_RET_TRAP; hwnd; msg; mp1; mp2]).
Proof.
  unfold enter_proc. intros (sp' & Hsp & H)%bind_Ok_inv.
  apply bind_Ok_inv in H as (m1 & H1 & H). apply bind_Ok_inv in H as (m2 & H2 & H).
  apply bind_Ok_inv in H as (m3 & H3 & H). apply bind_Ok_inv in H as (m4 & H4 & H).
  apply bind_Ok_inv in H as (m5 & H5 & H). injection H as <-. cbn [frames pm wm with_mem regs].
  split_and!; try done.
  - intros Hge. rewrite usub_ok in Hsp by lia. by injection Hsp as <-.
  - intros Hm Hge Hfit. rewrite usub_ok in Hsp by lia. injection Hsp as <-.
    set (sp := as_u M32 _) in *. unfold on_stack. cbn [mem pm with_mem regs]. change (Seh.rsp _) with (rsp (regs v) - 20). fold sp.
    apply put32_inv in H1, H2, H3, H4, H5; try lia.
    pose proof (write_wf _ _ _ _ _ Hm H1) as W1. pose proof (write_wf _ _ _ _ _ W1 H2) as W2.
    pose proof (write_wf _ _ _ _ _ W2 H3) as W3. pose proof (write_wf _ _ _ _ _ W3 H4) as W4.
    intros [|[|[|[|[|i]]]]] x [= <-];
      match goal with |- context [4 * Z.of_nat ?n] =>
        let e := eval vm_compute in (4 * Z.of_nat n) in change (4 * Z.of_nat n) with e end;
      let step W H := first [ by rewrite (read_write_same _ _ _ _ _ W H) | rewrite (read_write_other 4 4 _ _ _ _ _ W H) by lia ] in
      step W4 H5; step W3 H4; step W2 H3; step W1 H2; step Hm H1.
Qed.
End entering.

(** * The messages of a modal dialog *)

(** The state after a message was taken from a queue, and after a drawing. *)
Definition taken (hmq : Z) (rest : list OS2Message) (s : Pm) : Pm :=
  mk_pm (with_queues (<[hmq := rest]> (msg_queues (wm s))) (next_hmq (wm s)) (wm s)) (mem s)
    (resources s) (active_cp s) (shutting_down s).
Definition drawn (l : list GUIMessage) (s : Pm) : Pm :=
  mk_pm (with_gui ((λ q, q ++ l) <$> gui_tx (wm s)) (wm s)) (mem s) (resources s) (active_cp s) (shutting_down s).
(** The dialog goes on. *)
Definition alive (hwnd : Z) (s : Pm) : Prop :=
  shutting_down s = false ∧ ∃ w, get_window (wm s) hwnd = Some w ∧ dialog_dismissed w = false.
(** From [s] to [s'] a dialog waited: other threads took their turns while its queue was empty, and
    requests to paint were answered by drawing. *)
Inductive waits (hwnd hmq : Z) : list (Pm → Pm) → Pm → Pm → Prop :=
| waits_here turns s : waits hwnd hmq turns s s
| waits_turn t turns s s' :
    alive hwnd s → (∀ msg rest, get_mq (wm s) hmq ≠ Some (msg :: rest)) →
    waits hwnd hmq turns (t s) s' → waits hwnd hmq (t :: turns) s s'
| waits_paint turns msg rest l s s' :
    alive hwnd s → get_mq (wm s) hmq = Some (msg :: rest) → m_msg msg = WM_PAINT →
    waits hwnd hmq turns (drawn l (taken hmq rest s)) s' → waits hwnd hmq turns s s'.
(** The loop ends in [s] with [res]: the dialog is gone or dismissed, the program ends, the queue does
    not exist, or the next message is WM_QUIT. *)
Definition gives_up (hwnd hmq : Z) (s : Pm) (res : Z) (s' : Pm) : Prop :=
  (s' = s ∧ res = DID_CANCEL ∧
     (get_window (wm s) hwnd = None ∨ shutting_down s = true ∨ get_mq (wm s) hmq = None)) ∨
  (s' = s ∧ ∃ w, get_window (wm s) hwnd = Some w ∧ dialog_dismissed w = true ∧ res = dialog_result w) ∨
  (∃ msg rest, get_mq (wm s) hmq = Some (msg :: rest) ∧ m_msg msg = WM_QUIT ∧ res = DID_CANCEL ∧
     s' = taken hmq rest s).
(** [v'] enters the procedure of a dialog with the next message of its queue, from the state [s] and the
    registers [r]. *)
Definition dialog_called (hwnd hmq proc : Z) (turns : list (Pm → Pm)) (s : Pm) (r : GuestRegs) (v' : Vp) : Prop :=
  ∃ s0 msg rest, waits hwnd hmq turns s s0 ∧ alive hwnd s0 ∧ get_mq (wm s0) hmq = Some (msg :: rest) ∧
    m_msg msg ≠ WM_QUIT ∧ m_msg msg ≠ WM_PAINT ∧ wm (pm v') = wm (taken hmq rest s0) ∧
    rip (regs v') = proc ∧
    (20 ≤ rsp r → rsp (regs v') = rsp r - 20 ∧
      (mem_wf (mem s0) → as_u M32 (rsp r - 20) + 20 ≤ M32 →
       on_stack v' [CALLBACK_RET_TRAP; m_hwnd msg; m_msg msg; m_mp1 msg; m_mp2 msg])).

Section dialogs.
Context {B : Build}.
Context (order : gmap Z Z → list (Z * Z)).
Context (enc_decode : Encoding → bytes → rstring).

Lemma drawn_nil s : drawn [] s = s.
Proof. destruct s as [[] ? ? ? ?]. unfold drawn, with_gui. cbn. do 2 f_equal. destruct gui_tx; cbn; [by rewrite app_nil_r|done]. Qed.
Lemma gui_run_inv {A C} (c : gui A) (g : A → gui C) s x :
  (c ≫= g) s = Ok x → ∃ a s1, c s = Ok (a, s1) ∧ g a s1 = Ok x.
Proof. unfold mbind at 1, gui_bind. intros ([a s1] & H1 & H2)%bind_Ok_inv. by exists a, s1. Qed.
Lemma pure_inv {A} (o : outcome () A) s a s1 : pure o s = Ok (a, s1) → o = Ok a ∧ s1 = s.
Proof. unfold pure. destruct o; simpl; [|done..]. by intros [= -> ->]. Qed.
(** A request to paint draws, and does nothing else. *)
Lemma paint_draws hwnd s r s' :
  dispatch_builtin_control order enc_decode hwnd WM_PAINT 0 0 s = Ok (r, s') → ∃ l, s' = drawn l s.
Proof.
  unfold dispatch_builtin_control. intros (k & s1 & Hk & H)%gui_run_inv.
  assert (s1 = s) as ->.
  { unfold control_info in Hk. rewrite run_ask in Hk. apply gui_run_inv in Hk as ([[[ax ay] acx] acy] & s2 & Hp & Hk).
    apply pure_inv in Hp as [_ ->]. by injection Hk. }
  destruct k as [k|]; [|injection H as _ <-; exists []; by rewrite drawn_nil].
  rewrite Z.eqb_refl in H. unfold paint in H. rewrite run_ask in H.
  apply gui_run_inv in H as (fr & s2 & Hp & H). apply pure_inv in Hp as [_ ->].
  destruct (gui_tx (wm s)) as [sent|] eqn:Hg; [|injection H as _ <-; exists []; by rewrite drawn_nil].
  apply gui_run_inv in H as (l & s2 & Hp & H). apply pure_inv in Hp as [_ ->].
  apply gui_run_inv in H as ([] & s2 & Hs & H). injection H as _ <-. injection Hs as <-. by exists l.
Qed.

Lemma dlg_loop_spec fuel turns hwnd hmq s step s' :
  dlg_loop order enc_decode fuel turns hwnd hmq s = Ok (step, s') →
  ∃ s0, waits hwnd hmq turns s s0 ∧
    match step with
    | DlgReturn res => gives_up hwnd hmq s0 res s'
    | DlgCall msg => alive hwnd s0 ∧ ∃ rest, get_mq (wm s0) hmq = Some (msg :: rest) ∧
        m_msg msg ≠ WM_QUIT ∧ m_msg msg ≠ WM_PAINT ∧ s' = taken hmq rest s0
    end.
Proof.
  revert turns s. induction fuel as [|fuel IH]; intros turns s H; [done|]. cbn [dlg_loop] in H. rewrite run_ask in H.
  destruct (get_window (wm s) hwnd) as [w|] eqn:Hw.
  2: { injection H as <- <-. exists s. split; [constructor|]. left. auto. }
  destruct (dialog_dismissed w) eqn:Hd.
  { injection H as <- <-. exists s. split; [constructor|]. right. left. split; [done|]. by exists w. }
  rewrite run_ask in H. destruct (shutting_down s) eqn:Hq.
  { injection H as <- <-. exists s. split; [constructor|]. left. auto. }
  assert (alive hwnd s) as Hal by (split; [done|by exists w]).
  assert (Hturn : match turns with [] => pure Diverge | t :: turns => λ s, dlg_loop order enc_decode fuel turns hwnd hmq (t s) end s =
    Ok (step, s') → (∀ msg rest, get_mq (wm s) hmq ≠ Some (msg :: rest)) → ∃ s0, waits hwnd hmq turns s s0 ∧
    match step with
    | DlgReturn res => gives_up hwnd hmq s0 res s'
    | DlgCall msg => alive hwnd s0 ∧ ∃ rest, get_mq (wm s0) hmq = Some (msg :: rest) ∧
        m_msg msg ≠ WM_QUIT ∧ m_msg msg ≠ WM_PAINT ∧ s' = taken hmq rest s0
    end).
  { destruct turns as [|t turns]; [done|]. intros Ht Hno. apply IH in Ht as (s0 & Hs0 & Hst). exists s0.
    split; [by apply waits_turn|done]. }
  destruct (get_mq (wm s) hmq) as [[|msg rest]|] eqn:Hm; [by apply Hturn| |by apply Hturn].
  rewrite (run_bind _ _ _ (taken hmq rest s) tt) in H by done.
  destruct (Z.eqb_spec (m_msg msg) WM_QUIT) as [Heq|Hnq].
  { injection H as <- <-. exists s. split; [constructor|]. right. right. by exists msg, rest. }
  destruct (Z.eqb_spec (m_msg msg) WM_PAINT) as [Heq|Hnp].
  - apply gui_run_inv in H as (r & s1 & Hp & H). apply paint_draws in Hp as [l ->]. apply IH in H as (s0 & Hs0 & Hst). exists s0.
    split; [by apply (waits_paint _ _ _ msg rest l)|done].
  - injection H as <- <-. exists s. split; [constructor|]. split; [done|]. by exists rest.
Qed.

(** One round of a modal dialog. *)
Lemma setup_dlg_dispatch_spec fuel turns proc hwnd hmq ip sp v v' :
  setup_dlg_dispatch order enc_decode fuel turns proc hwnd hmq ip sp v = Ok v' →
  (frames v' = frames v ∧ rip (regs v') = ip ∧ rsp (regs v') = sp ∧
     ∃ s0, waits hwnd hmq turns (pm v) s0 ∧ gives_up hwnd hmq s0 (rax (regs v')) (pm v')) ∨
  (frames v' = mk_frame ip sp (DlgLoop proc hwnd hmq) :: frames v ∧
     dialog_called hwnd hmq proc turns (pm v) (regs v) v').
Proof.
  unfold setup_dlg_dispatch, dlg_next. intros ([step s] & Hn & H)%bind_Ok_inv. rewrite run_ask in Hn.
  assert (∃ s0, waits hwnd hmq turns (pm v) s0 ∧ match step with
    | DlgReturn res => gives_up hwnd hmq s0 res s
    | DlgCall msg => alive hwnd s0 ∧ ∃ rest, get_mq (wm s0) hmq = Some (msg :: rest) ∧
        m_msg msg ≠ WM_QUIT ∧ m_msg msg ≠ WM_PAINT ∧ s = taken hmq rest s0
    end) as (s0 & Hs0 & Hst).
  { destruct (get_mq (wm (pm v)) hmq) as [q|] eqn:Hq; [by apply dlg_loop_spec in Hn|].
    injection Hn as <- <-. exists (pm v). split; [constructor|]. left. auto. }
  destruct step as [res|msg].
  - injection H as <-. left. split_and!; [done..|]. by exists s0.
  - right. destruct Hst as (Hal & rest & Hm & Hq & Hp & ->).
    apply enter_proc_result in H as (Hfr & Hwm & Hip & Hrsp & Hstk). split; [done|].
    exists s0, msg, rest. split_and!; try done. cbn [regs with_pm pm taken mem] in *. intros Hr. split; [by apply Hrsp|].
    intros Hmem Hfit. apply Hstk; [done|lia|done].
Qed.
End dialogs.

(** C28: a procedure that a PMWIN call enters finds the callback trap and its message on its stack, and
    when it returns, whatever it and the calls it makes did, the program goes on behind that PMWIN
    call with the stack as before it.  A window procedure gets the message of the call, and its
    result is that of the call (WinCreateStdWindow: the handle of the frame).  A dialog procedure
    gets the next message of the dialog's queue that is neither a request to paint, which is
    answered by drawing, nor WM_QUIT; other threads may act while the queue is empty.  When it
    returns and the dialog is dismissed, the call returns the dialog's result, and the dialog
    leaves the z-order; when it is not, the procedure is called again with the message that is then
    next, or the call returns: with DID_CANCEL for WM_QUIT, for a dialog that is gone and at the
    end of the program, with its result for one that was dismissed meanwhile. *)
Theorem procedures_return {B : Build} order dec fuel fuel' turns turns' (r : ApiResult) (v v1 v2 : Vp) (f : CallbackFrame) :
  api_result order dec fuel turns r v = Ok v1 → frames v1 = f :: frames v → frames v2 = frames v1 →
  24 ≤ rsp (regs v) → rsp (regs v) + 4 < M64 →
  match r with
  | ApiRegistry.Callback proc hwnd msg mp1 mp2 =>
    rip (regs v1) = proc ∧ rsp (regs v1) = rsp (regs v) - 20 ∧
    (mem_wf (mem (pm v)) → as_u M32 (rsp (regs v) - 20) + 20 ≤ M32 →
     on_stack v1 [CALLBACK_RET_TRAP; hwnd; msg; mp1; mp2]) ∧
    ∃ v3, procedure_returned order dec fuel' turns' v2 = Ok (Some v3) ∧ pm v3 = pm v2 ∧
      back_at_caller v v3 (as_u M32 (rax (regs v2)))
  | ApiRegistry.WmCreateCallback proc hwnd h_frame =>
    rip (regs v1) = proc ∧ rsp (regs v1) = rsp (regs v) - 20 ∧
    (mem_wf (mem (pm v)) → as_u M32 (rsp (regs v) - 20) + 20 ≤ M32 →
     on_stack v1 [CALLBACK_RET_TRAP; hwnd; WM_CREATE; 0; 0]) ∧
    ∃ v3, procedure_returned order dec fuel' turns' v2 = Ok (Some v3) ∧ pm v3 = pm v2 ∧ back_at_caller v v3 h_frame
  | ApiRegistry.DlgRunLoop proc hwnd hmq =>
    dialog_called hwnd hmq proc turns (pm v) (regs v) v1 ∧
    (∀ w, get_window (wm (pm v2)) hwnd = Some w → dialog_dismissed w = true →
     ∃ v3, procedure_returned order dec fuel' turns' v2 = Ok (Some v3) ∧ back_at_caller v v3 (dialog_result w) ∧
       hwnd ∉ z_order (wm (pm v3))) ∧
    ((∀ w, get_window (wm (pm v2)) hwnd = Some w → dialog_dismissed w = false) →
     ∀ v3, procedure_returned order dec fuel' turns' v2 = Ok (Some v3) →
     (frames v3 = frames v1 ∧ dialog_called hwnd hmq proc turns' (pm v2) (regs v2) v3) ∨
     (back_at_caller v v3 (rax (regs v3)) ∧
      ∃ s0, waits hwnd hmq turns' (pm v2) s0 ∧ gives_up hwnd hmq s0 (rax (regs v3)) (pm v3)))
  | _ => True
  end.
Proof.
  intros Ha Hf Hf2 Hsp Hsp'. unfold api_result in Ha. apply bind_Ok_inv in Ha as (addr & Haddr & Ha).
  rewrite uadd_ok in Ha by lia. out_simpl. rewrite Hf in Hf2.
  assert (Some addr = read32 (mem (pm v)) (as_u M32 (rsp (regs v)))) as Hret
    by (destruct (read32 _ _); [by injection Haddr as <-|done]).
  destruct r as [|proc hwnd msg mp1 mp2|proc hwnd h_frame| |proc hwnd hmq|]; try done.
  - apply enter_proc_result in Ha as (Hfr & _ & Hip & Hr & Hst). rewrite Hf in Hfr. injection Hfr as ->.
    split_and!; [done|apply Hr; lia|intros; apply Hst; done || lia|]. unfold procedure_returned. rewrite Hf2. by eexists.
  - apply enter_proc_result in Ha as (Hfr & _ & Hip & Hr & Hst). rewrite Hf in Hfr. injection Hfr as ->.
    split_and!; [done|apply Hr; lia|intros; apply Hst; done || lia|]. unfold procedure_returned. rewrite Hf2. by eexists.
  - apply setup_dlg_dispatch_spec in Ha as [(Hfr & _)|[Hfr Hcall]].
    { exfalso. rewrite Hf in Hfr. apply (f_equal length) in Hfr. simpl in Hfr. lia. }
    rewrite Hf in Hfr. injection Hfr as ->. split; [done|]. unfold procedure_returned. rewrite Hf2. cbn [kind pm wm]. split.
    + intros w Hw Hd. rewrite Hw, Hd. eexists. split; [reflexivity|].
      split; [done|]. cbn. case_match; cbn; unfold without; rewrite list_elem_of_filter; naive_solver.
    + intros Hnd v3 H. assert (setup_dlg_dispatch order dec fuel' turns' proc hwnd hmq addr (rsp (regs v) + 4)
        (mk_vp (pm v2) (regs v2) (frames v)) = Ok v3) as Hs.
      { cbn [saved_rip saved_rsp] in H. destruct (get_window (wm (pm v2)) hwnd) as [w|] eqn:Hw.
        - rewrite (Hnd w eq_refl) in H. by destruct (setup_dlg_dispatch _ _ _ _ _ _ _ _ _ _); simplify_eq/=.
        - by destruct (setup_dlg_dispatch _ _ _ _ _ _ _ _ _ _); simplify_eq/=. }
      apply setup_dlg_dispatch_spec in Hs as [(Hfr & Hip & Hr & Hs)|[Hfr Hs]]; [right|left].
      * split; [|done]. split; [by rewrite Hip|done].
      * split; [by rewrite Hfr, Hf|done].
Qed.

Definition demo_vp : Vp :=
  mk_vp (mk_pm wm_new (store_bytes (alloc 0x1000) 0x800 (le32 0x20000)) Managers.resource_manager_new 437 false)
    (Seh.mk_regs 0x01000400 0x800 0 1 2 3 4 5 6 0x202) [].
(** A dialog whose queue holds a command. *)
Definition demo_dlg : Vp :=
  mk_vp (mk_pm (with_queues {[0x3000 := [mk_msg 0x1001 WM_COMMAND 7 0 0 0 0]]} 0x3001
           (with_windows {[0x1001 := new_window 0x1001 (str "#Dialog") 0x30000 0 0x3000]} 0x1002 wm_new))
           (store_bytes (alloc 0x1000) 0x800 (le32 0x20000)) Managers.resource_manager_new 437 false)
    (Seh.mk_regs 0x01000400 0x800 0 1 2 3 4 5 6 0x202) [].
Lemma procedures_return_witness :
  (∃ v1 v3, @api_result dev_profile map_to_list (λ _ b, b) 0 [] (ApiRegistry.Callback 0x30000 0x1001 WM_TIMER 5 0) demo_vp = Ok v1 ∧
    rip (regs v1) = 0x30000 ∧ on_stack v1 [CALLBACK_RET_TRAP; 0x1001; WM_TIMER; 5; 0] ∧
    @procedure_returned dev_profile map_to_list (λ _ b, b) 0 [] (with_regs (set_rax (set_rsp (regs v1) 0x7F0) 77) v1) = Ok (Some v3) ∧
    rip (regs v3) = 0x20000 ∧ rsp (regs v3) = 0x804 ∧ rax (regs v3) = 77) ∧
  ∃ v1, @api_result dev_profile map_to_list (λ _ b, b) 1 [] (ApiRegistry.DlgRunLoop 0x30000 0x1001 0x3000) demo_dlg = Ok v1 ∧
    dialog_called 0x1001 0x3000 0x30000 [] (pm demo_dlg) (regs demo_dlg) v1.
Proof.
  split.
  - destruct (@api_result dev_profile map_to_list (λ _ b, b) 0 [] (ApiRegistry.Callback 0x30000 0x1001 WM_TIMER 5 0) demo_vp)
      as [v1| | |] eqn:H; try discriminate H.
    set (v2 := with_regs (set_rax (set_rsp (regs v1) 0x7F0) 77) v1).
    assert (frames v1 = mk_frame 0x20000 0x804 PmCallback :: frames demo_vp) as Hf by (vm_compute in H; injection H as <-; reflexivity).
    destruct (@procedures_return dev_profile _ _ 0 0 [] [] _ demo_vp v1 v2 _ H Hf eq_refl) as (Hip & _ & Hst & v3 & Hr & _ & Hb);
      [vm_compute; discriminate|reflexivity|].
    destruct Hb as (Hrip & Hrsp & Hrax & _). exists v1, v3. split_and!; try assumption; try reflexivity.
    + apply Hst; [|vm_compute; discriminate]. apply store_bytes_wf; [apply alloc_wf; lia|apply le_bytes_bytes].
    + assert (read32 (mem (pm demo_vp)) (as_u M32 (rsp (regs demo_vp))) = Some 0x20000) as E by (vm_compute; reflexivity).
      rewrite E in Hrip. congruence.
  - destruct (@api_result dev_profile map_to_list (λ _ b, b) 1 [] (ApiRegistry.DlgRunLoop 0x30000 0x1001 0x3000) demo_dlg)
      as [v1| | |] eqn:H; try discriminate H.
    assert (frames v1 = mk_frame 0x20000 0x804 (DlgLoop 0x30000 0x1001 0x3000) :: frames demo_dlg) as Hf
      by (vm_compute in H; injection H as <-; reflexivity).
    destruct (@procedures_return dev_profile _ _ 1 1 [] [] _ demo_dlg v1 v1 _ H Hf eq_refl) as [Hc _];
      [vm_compute; discriminate|reflexivity|].
    exists v1. split; [reflexivity|exact Hc].
Defined.

(** The loop of a modal dialog calls the procedure twenty bytes below the stack that the last call left,
    sixteen below the one it was made with: every message costs the guest stack sixteen bytes. *)
Lemma dialog_uses_stack {B : Build} order dec fuel turns proc hwnd hmq ip sp v v' f :
  setup_dlg_dispatch order dec fuel turns proc hwnd hmq ip sp v = Ok v' → frames v' = f :: frames v →
  20 ≤ rsp (regs v) → rsp (regs v') = rsp (regs v) - 20.
Proof.
  unfold setup_dlg_dispatch. intros ([step s] & _ & H)%bind_Ok_inv Hf Hsp. destruct step as [result|msg].
  { injection H as <-. cbn in Hf. apply (f_equal length) in Hf. simpl in Hf. lia. }
  apply enter_proc_result in H as (_ & _ & _ & Hr & _). by apply Hr.
Qed.
