(* ===== verification/PmGpi.v ===== *)
(** The PMGPI calls (src/src/loader/pm_gpi.rs): presentation spaces, their colours and positions,
    the drawing calls that send shapes to the GUI thread, and the metrics of the one font. *)
From S2P Require Import Prelude Bytes Codepage GuestMem PmTypes PmRes PmControls PmWin.
From S2P Require ApiRegistry HostDir.

Definition FONT_DEFAULT := 1.
Definition MOCK_CHAR_W := 8.
Definition MOCK_CHAR_H := 16.
Definition MOCK_ASCENDER := 12.
Definition MOCK_DESCENDER := 4.
Definition MOCK_DEVICE_RES := 96.
Definition FM_OFF_FAMILYNAME := 0.
Definition FM_OFF_FACENAME := 32.
Definition FM_SIZE := 208.
(** The numbers of the FONTMETRICS record: offset, size and value. *)
Definition FONT_FIELDS : list (Z * nat * Z) :=
  [(68, 4%nat, MOCK_ASCENDER); (72, 4%nat, Z.quot (MOCK_ASCENDER * 3) 4);
   (76, 4%nat, MOCK_ASCENDER); (80, 4%nat, MOCK_DESCENDER);
   (84, 4%nat, MOCK_ASCENDER); (88, 4%nat, MOCK_DESCENDER);
   (100, 4%nat, MOCK_CHAR_W); (104, 4%nat, MOCK_CHAR_W); (108, 4%nat, MOCK_CHAR_W);
   (112, 4%nat, MOCK_CHAR_H);
   (126, 2%nat, MOCK_DEVICE_RES); (128, 2%nat, MOCK_DEVICE_RES);
   (130, 2%nat, 32); (132, 2%nat, 255); (134, 2%nat, 63); (136, 2%nat, 32); (138, 2%nat, 100)].

(** The fields of a presentation space a call sets. *)
Definition set_ps_color (v : Z) (p : PresentationSpace) : PresentationSpace :=
  mk_ps (ps_hps p) (ps_hwnd p) v (ps_back_color p) (ps_mix_mode p) (ps_back_mix p) (ps_char_set p)
    (ps_char_box p) (ps_current_pos p).
Definition set_ps_back_color (v : Z) (p : PresentationSpace) : PresentationSpace :=
  mk_ps (ps_hps p) (ps_hwnd p) (ps_color p) v (ps_mix_mode p) (ps_back_mix p) (ps_char_set p)
    (ps_char_box p) (ps_current_pos p).
Definition set_ps_mix (v : Z) (p : PresentationSpace) : PresentationSpace :=
  mk_ps (ps_hps p) (ps_hwnd p) (ps_color p) (ps_back_color p) v (ps_back_mix p) (ps_char_set p)
    (ps_char_box p) (ps_current_pos p).
Definition set_ps_back_mix (v : Z) (p : PresentationSpace) : PresentationSpace :=
  mk_ps (ps_hps p) (ps_hwnd p) (ps_color p) (ps_back_color p) (ps_mix_mode p) v (ps_char_set p)
    (ps_char_box p) (ps_current_pos p).
Definition set_ps_char_set (v : Z) (p : PresentationSpace) : PresentationSpace :=
  mk_ps (ps_hps p) (ps_hwnd p) (ps_color p) (ps_back_color p) (ps_mix_mode p) (ps_back_mix p) v
    (ps_char_box p) (ps_current_pos p).
Definition set_ps_char_box (v : Z * Z) (p : PresentationSpace) : PresentationSpace :=
  mk_ps (ps_hps p) (ps_hwnd p) (ps_color p) (ps_back_color p) (ps_mix_mode p) (ps_back_mix p)
    (ps_char_set p) v (ps_current_pos p).
Definition set_ps_pos (v : Z * Z) (p : PresentationSpace) : PresentationSpace :=
  mk_ps (ps_hps p) (ps_hwnd p) (ps_color p) (ps_back_color p) (ps_mix_mode p) (ps_back_mix p)
    (ps_char_set p) (ps_char_box p) v.

Section gpi.
Context {B : Build}.
Context (order : gmap Z Z → list (Z * Z)).
Context (enc_decode : Encoding → bytes → rstring).

(** [wm.ps_map.get(&hps)], [if let Some(ps) = wm.ps_map.get_mut(&hps) { .. }] *)
Definition get_ps (hps : Z) : gui (option PresentationSpace) := ask (λ s, ps_map (wm s) !! hps).
Definition update_ps (hps : Z) (f : PresentationSpace → PresentationSpace) : gui () :=
  in_wm (λ m, with_ps (alter f hps (ps_map m)) (next_hps m) m).
(** The frame in which a window is drawn. *)
Definition frame_of (hwnd : Z) : gui Z := ask (λ s, client_to_frame order (wm s) hwnd).
(** A POINTL of guest memory; a point that cannot be read is 0. *)
Definition point (pptl : Z) : gui (Z * Z) :=
  x ← peek 4 pptl 0; y ← peek 4 pptl 4; mret (as_i32 x, as_i32 y).
Definition put_point (p off : Z) (pt : Z * Z) : gui () :=
  put_i32 p off pt.1;; a ← pure (uadd M32 p off); put_i32 a 4 pt.2.
Fixpoint chars (n : nat) (pch i : Z) : gui bytes :=
  match n with
  | O => mret []
  | S n => b ← peek 1 pch i; l ← chars n pch (i + 1); mret (b :: l)
  end.
Definition decoded (count pch : Z) : gui rstring :=
  l ← chars (Z.to_nat count) pch 0; cp ← ask active_cp; mret (cp_decode enc_decode l cp).
(** The x behind a text of [count] characters. *)
Definition text_end (x count : Z) : outcome () Z := w ← i32 (as_i32 count * MOCK_CHAR_W); i32 (x + w).
(** Filled, framed, or both: [DRO_FILL], [DRO_OUTLINE], [DRO_OUTLINEFILL] *)
Definition shapes (control h x1 y1 x2 y2 color : Z) : list GUIMessage :=
  (if (control =? 1) || (control =? 3) then [GDrawBox h x1 y1 x2 y2 color true] else []) ++
  (if (control =? 2) || (control =? 3) then [GDrawBox h x1 y1 x2 y2 color false] else []).

(** * Font metrics *)

(** [write_i32] and [write_i16] of [write_font_metrics]; [write_str], which exposes the whole field
    and writes the characters of the name. *)
Definition write_num (addr cb : Z) (f : Z * nat * Z) : gui () :=
  let '(off, n, v) := f in
  if off + Z.of_nat n <=? cb then put n addr off v else mret tt.
Definition write_str (addr cb off : Z) (s : bytes) (max : Z) : gui () :=
  if off <? cb then
    let end_ := Z.min (off + max) cb in
    let n := Z.min (len s) (end_ - off) in
    a ← pure (uadd M32 addr off);
    in_mem (λ m, match slice_mut m a (Z.min max (cb - off)) with
                 | Some _ => store_bytes m a (take (Z.to_nat n) s)
                 | None => m
                 end)
  else mret tt.
Fixpoint write_nums (addr cb : Z) (l : list (Z * nat * Z)) : gui () :=
  match l with [] => mret tt | f :: l => write_num addr cb f;; write_nums addr cb l end.
Definition write_font_metrics (addr cb : Z) : gui () :=
  in_mem (λ m, default m (write_bytes m addr (replicate (Z.to_nat (Z.min cb FM_SIZE)) 0)));;
  write_str addr cb FM_OFF_FAMILYNAME (str "System") 32;;
  write_str addr cb FM_OFF_FACENAME (str "System") 32;;
  write_nums addr cb FONT_FIELDS.

Section call.
Context (esp : Z).
Abbreviation arg := (arg esp).

(** 369, 379 *)
Definition GpiCreatePS : gui ApiResult :=
  _ ← arg 4; _ ← arg 8; _ ← arg 12; _ ← arg 16;
  hps ← on_wm (create_ps 0); mret (Normal hps).
Definition GpiDestroyPS : gui ApiResult :=
  hps ← arg 4; in_wm (λ m, with_ps (delete hps (ps_map m)) (next_hps m) m);; mret (Normal 1).

(** 517, 518, 509, 503, 481: a field is set. *)
Definition set_field (f : Z → PresentationSpace → PresentationSpace) : gui ApiResult :=
  hps ← arg 4; v ← arg 8; update_ps hps (f v);; mret (Normal 1).
Definition GpiSetColor : gui ApiResult := set_field (λ v, set_ps_color (map_color v)).
Definition GpiSetBackColor : gui ApiResult := set_field (λ v, set_ps_back_color (map_color v)).
Definition GpiSetMix : gui ApiResult := set_field set_ps_mix.
Definition GpiSetBackMix : gui ApiResult := set_field set_ps_back_mix.
Definition GpiSetCharSet : gui ApiResult := set_field set_ps_char_set.
(** 520, 521 *)
Definition GpiQueryColor : gui ApiResult :=
  hps ← arg 4; p ← get_ps hps; mret (Normal (from_option ps_color 0 p)).
Definition GpiQueryBackColor : gui ApiResult :=
  hps ← arg 4; p ← get_ps hps; mret (Normal (from_option ps_back_color 0x00FFFFFF p)).
(** 482: 16.16 fixed point to whole units *)
Definition GpiSetCharBox : gui ApiResult :=
  hps ← arg 4; psizf ← arg 8;
  (if psizf =? 0 then mret tt
   else '(cx, cy) ← point psizf; update_ps hps (set_ps_char_box (Z.shiftr cx 16, Z.shiftr cy 16)));;
  mret (Normal 1).

(** 404, 416 *)
Definition GpiMove : gui ApiResult :=
  hps ← arg 4; pptl ← arg 8; p ← point pptl; update_ps hps (set_ps_pos p);; mret (Normal 1).
Definition GpiQueryCurrentPosition : gui ApiResult :=
  hps ← arg 4; pptl ← arg 8; p ← get_ps hps;
  (if pptl =? 0 then mret tt else put_point pptl 0 (from_option ps_current_pos (0, 0) p));;
  mret (Normal 1).

(** 356, 398, 392 *)
Definition GpiBox : gui ApiResult :=
  hps ← arg 4; control ← arg 8; pptl ← arg 12; _ ← arg 16; _ ← arg 20;
  '(x2, y2) ← point pptl; p ← get_ps hps;
  (match p with
   | Some p =>
     let '(x1, y1) := ps_current_pos p in
     f ← frame_of (ps_hwnd p); send (shapes control f x1 y1 x2 y2 (ps_color p))
   | None => mret tt
   end);;
  mret (Normal 1).
Definition GpiLine : gui ApiResult :=
  hps ← arg 4; pptl ← arg 8; '(x2, y2) ← point pptl; p ← get_ps hps;
  (match p with
   | Some p =>
     let '(x1, y1) := ps_current_pos p in
     f ← frame_of (ps_hwnd p); send [GDrawLine f x1 y1 x2 y2 (ps_color p)]
   | None => mret tt
   end);;
  update_ps hps (set_ps_pos (x2, y2));;
  mret (Normal 1).
Definition ARC_RADIUS := 10.
Definition GpiFullArc : gui ApiResult :=
  hps ← arg 4; control ← arg 8; p ← get_ps hps;
  (match p with
   | Some p =>
     let '(cx, cy) := ps_current_pos p in
     f ← frame_of (ps_hwnd p);
     g ← ask (λ s, gui_tx (wm s));
     if negb (bool_decide (is_Some g)) || negb (in_range 1 3 control) then mret tt
     else
       x1 ← pure (i32 (cx - ARC_RADIUS)); y1 ← pure (i32 (cy - ARC_RADIUS));
       x2 ← pure (i32 (cx + ARC_RADIUS)); y2 ← pure (i32 (cy + ARC_RADIUS));
       send (shapes control f x1 y1 x2 y2 (ps_color p))
   | None => mret tt
   end);;
  mret (Normal 1).

(** 359, 358: the text, and the position behind it. *)
Definition draw_text (hps count : Z) (t : rstring) (at_ : option (Z * Z)) : gui ApiResult :=
  p ← get_ps hps;
  let '(x, y) := default (from_option ps_current_pos (0, 0) p) at_ in
  f ← frame_of (from_option ps_hwnd 0 p);
  send [GDrawText f x y t (from_option ps_color 0 p)];;
  (match p with
   | Some _ => x' ← pure (text_end x count); update_ps hps (set_ps_pos (x', y))
   | None => mret tt
   end);;
  mret (Normal 1).
Definition GpiCharStringAt : gui ApiResult :=
  hps ← arg 4; pptl ← arg 8; count ← arg 12; pch ← arg 16;
  p ← point pptl; t ← decoded count pch; draw_text hps count t (Some p).
Definition GpiCharString : gui ApiResult :=
  hps ← arg 4; count ← arg 8; pch ← arg 12;
  t ← decoded count pch; draw_text hps count t None.

(** 389 *)
Definition GpiErase : gui ApiResult :=
  hps ← arg 4; p ← get_ps hps; f ← frame_of (from_option ps_hwnd 0 p);
  send [GClearBuffer f];; mret (Normal 1).

(** 464, 459, 476, 381 *)
Definition GpiQueryFontMetrics : gui ApiResult :=
  _ ← arg 4; cb ← arg 8; pfm ← arg 12;
  (if pfm =? 0 then mret tt else write_font_metrics pfm cb);; mret (Normal 1).
Definition GpiQueryFonts : gui ApiResult :=
  _ ← arg 4; _ ← arg 8; _ ← arg 12; pl_req ← arg 16; cb ← arg 20; afm ← arg 24;
  (if pl_req =? 0 then mret tt else put_i32 pl_req 0 0);;
  (if (afm =? 0) || (cb =? 0) then mret tt else write_font_metrics afm cb);;
  mret (Normal 1).
Fixpoint put_points (aptl i : Z) (l : list (Z * Z)) : gui () :=
  match l with [] => mret tt | pt :: l => put_point aptl (i * 8) pt;; put_points aptl (i + 1) l end.
Definition GpiQueryTextBox : gui ApiResult :=
  _ ← arg 4; count ← arg_i32 esp 8; _ ← arg 12; npoints ← arg 16; aptl ← arg 20;
  w ← pure (i32 (count * MOCK_CHAR_W));
  let pts := [(0, MOCK_ASCENDER); (0, - MOCK_DESCENDER); (w, - MOCK_DESCENDER); (w, MOCK_ASCENDER); (w, 0)] in
  (if aptl =? 0 then mret tt else put_points aptl 0 (take (Z.to_nat (Z.min npoints 5)) pts));;
  mret (Normal 1).
Definition GpiCreateLogFont : gui ApiResult := _ ← arg 4; _ ← arg 12; mret (Normal FONT_DEFAULT).

(** [handle_pmgpi_call] *)
Definition handle_pmgpi_call (ordinal : Z) : gui ApiResult :=
  match ordinal with
  | 369 => GpiCreatePS
  | 379 => GpiDestroyPS
  | 517 => GpiSetColor
  | 404 => GpiMove
  | 356 => GpiBox
  | 398 => GpiLine
  | 359 => GpiCharStringAt
  | 389 => GpiErase
  | 358 => GpiCharString
  | 518 => GpiSetBackColor
  | 520 => GpiQueryColor
  | 521 => GpiQueryBackColor
  | 509 => GpiSetMix
  | 503 => GpiSetBackMix
  | 416 => GpiQueryCurrentPosition
  | 481 => GpiSetCharSet
  | 482 => GpiSetCharBox
  | 381 => GpiCreateLogFont
  | 385 | 527 | 529 | 530 | 399 | 400 | 401 => mret (Normal 1)
  | 464 => GpiQueryFontMetrics
  | 459 => GpiQueryFonts
  | 476 => GpiQueryTextBox
  | 392 => GpiFullArc
  | 353 => mret (Normal 1)
  | _ => mret (Normal 0)
  end.
End call.
End gpi.

(** * Pens

    What a presentation space means to a program: a pen of some colour at some point, whose strokes
    appear in the frame of its window.  [draws] is what an operation does to the pen and what it
    shows; the calls are to agree with it. *)
Record pen := mk_pen { at_ : Z * Z; ink : Z }.
Inductive pen_op :=
| Ink (clr : Z)
| MoveTo (x y : Z)
| LineTo (x y : Z)
| BoxTo (control x y : Z)
| Arc (control : Z)
| Text (count : Z) (t : rstring)
| TextAt (x y count : Z) (t : rstring)
| Erase.
Definition draws (f : Z) (op : pen_op) (d : pen) : pen * list GUIMessage :=
  let '(mk_pen (x0, y0) c) := d in
  match op with
  | Ink clr => (mk_pen (x0, y0) (map_color clr), [])
  | MoveTo x y => (mk_pen (x, y) c, [])
  | LineTo x y => (mk_pen (x, y) c, [GDrawLine f x0 y0 x y c])
  | BoxTo control x y => (d, shapes control f x0 y0 x y c)
  | Arc control => (d, shapes control f (x0 - 10) (y0 - 10) (x0 + 10) (y0 + 10) c)
  | Text n t => (mk_pen (x0 + 8 * n, y0) c, [GDrawText f x0 y0 t c])
  | TextAt x y n t => (mk_pen (x + 8 * n, y) c, [GDrawText f x y t c])
  | Erase => (d, [GClearBuffer f])
  end.
Fixpoint drawing (f : Z) (ops : list pen_op) (d : pen) : pen * list GUIMessage :=
  match ops with
  | [] => (d, [])
  | op :: ops => let '(d1, l1) := draws f op d in let '(d2, l2) := drawing f ops d1 in (d2, l1 ++ l2)
  end.
(** The coordinates that the operation computes are i32 numbers. *)
Definition is_i32 (x : Z) : Prop := - 2 ^ 31 ≤ x < 2 ^ 31.
Definition op_fits (op : pen_op) (d : pen) : Prop :=
  match op with
  | Arc _ => is_i32 ((at_ d).1 - 10) ∧ is_i32 ((at_ d).1 + 10) ∧ is_i32 ((at_ d).2 - 10) ∧ is_i32 ((at_ d).2 + 10)
  | Text n _ => is_i32 (8 * n) ∧ is_i32 ((at_ d).1 + 8 * n)
  | TextAt x _ n _ => is_i32 (8 * n) ∧ is_i32 (x + 8 * n)
  | _ => True
  end.
Fixpoint ops_fit (f : Z) (ops : list pen_op) (d : pen) : Prop :=
  match ops with [] => True | op :: ops => op_fits op d ∧ ops_fit f ops (draws f op d).1 end.

Section pens.
Context {B : Build}.
Context (order : gmap Z Z → list (Z * Z)).
Context (enc_decode : Encoding → bytes → rstring).
Implicit Types s : Pm.

(** The arguments of a call: the operation it asks for, on the presentation space [hps]. *)
Definition point_at (m : GuestMemory) (p x y : Z) : Prop :=
  p + 4 < M32 ∧ as_i32 (default 0 (read32 m p)) = x ∧ as_i32 (default 0 (read32 m (p + 4))) = y.
Definition text_at (s : Pm) (p n : Z) (t : rstring) : Prop :=
  0 ≤ n < 2 ^ 31 ∧ p + n ≤ M32 ∧ 0 ≤ p ∧ p + n ≤ size (mem s) < M64 ∧
  t = cp_decode enc_decode (load_bytes (mem s) p (Z.to_nat n)) (active_cp s).
Definition pen_call (s : Pm) (hps : Z) (call : Z * Z) (op : pen_op) : Prop :=
  let '(esp, ordinal) := call in let has := stacked (mem s) esp in
  match op with
  | Ink clr => ordinal = 517 ∧ has [hps; clr]
  | MoveTo x y => ordinal = 404 ∧ ∃ p, has [hps; p] ∧ point_at (mem s) p x y
  | LineTo x y => ordinal = 398 ∧ ∃ p, has [hps; p] ∧ point_at (mem s) p x y
  | BoxTo c x y => ordinal = 356 ∧ ∃ p h v, has [hps; c; p; h; v] ∧ point_at (mem s) p x y
  | Arc c => ordinal = 392 ∧ has [hps; c]
  | Text n t => ordinal = 358 ∧ ∃ p, has [hps; n; p] ∧ text_at s p n t
  | TextAt x y n t => ordinal = 359 ∧ ∃ p pch, has [hps; p; n; pch] ∧ point_at (mem s) p x y ∧ text_at s pch n t
  | Erase => ordinal = 389 ∧ has [hps]
  end.
Fixpoint gpi_all (calls : list (Z * Z)) : gui (list ApiResult) :=
  match calls with
  | [] => mret []
  | (esp, ordinal) :: calls =>
    r ← handle_pmgpi_call order enc_decode esp ordinal; l ← gpi_all calls; mret (r :: l)
  end.
(** The state with the pen [d] for presentation space [hps] and with more to show. *)
Definition pen_of (p : PresentationSpace) : pen := mk_pen (ps_current_pos p) (ps_color p).
Definition wield (d : pen) (p : PresentationSpace) : PresentationSpace := set_ps_pos (at_ d) (set_ps_color (ink d) p).
Definition drawn (hps : Z) (d : pen) (q l : list GUIMessage) (s s' : Pm) : Prop :=
  s' = with_wm (with_ps (alter (wield d) hps (ps_map (wm s))) (next_hps (wm s))
                  (with_gui (Some (q ++ l)) (wm s))) s.

Lemma run_point s p x y {C} (g : Z * Z → gui C) : point_at (mem s) p x y → (point p ≫= g) s = g (x, y) s.
Proof.
  intros (Hp & <- & <-). unfold point, peek, ask, pure, mbind, gui_bind. rewrite !uadd_ok by lia. out_simpl.
  by rewrite Z.add_0_r.
Qed.
Lemma chars_run s p n i : 0 ≤ p → 0 ≤ i → p + i + Z.of_nat n ≤ M32 → p + i + Z.of_nat n ≤ size (mem s) < M64 →
  chars n p i s = Ok (load_bytes (mem s) (p + i) n, s).
Proof.
  revert i. induction n as [|n IH]; intros i Hp Hi Hn Hs; [done|]. cbn [chars load_bytes].
  unfold peek at 1, ask, pure, mbind, gui_bind. rewrite uadd_ok by lia. out_simpl.
  rewrite read_ok by lia. rewrite (IH (i + 1)) by lia. out_simpl.
  replace (p + i + 1) with (p + (i + 1)) by lia. cbn. by rewrite Z.add_0_r.
Qed.
Lemma run_decoded s p n t {C} (g : rstring → gui C) : text_at s p n t → (decoded enc_decode n p ≫= g) s = g t s.
Proof.
  intros (Hn & Hp & Hp0 & Hs & ->). unfold decoded, mbind, gui_bind. rewrite chars_run by lia.
  unfold ask. out_simpl. by rewrite Z.add_0_r.
Qed.

(** The ways a call ends: shapes are sent, the presentation space is changed, or both. *)
Definition sent (q l : list GUIMessage) (s : Pm) : Pm := with_wm (with_gui (Some (q ++ l)) (wm s)) s.
Definition updated (hps : Z) (f : PresentationSpace → PresentationSpace) (s : Pm) : Pm :=
  with_wm (with_ps (alter f hps (ps_map (wm s))) (next_hps (wm s)) (wm s)) s.
Lemma drawn_moved hps f d p q l s :
  ps_map (wm s) !! hps = Some p → f p = wield d p → drawn hps d q l s (updated hps f (sent q l s)).
Proof.
  intros Hp Hf. unfold drawn, updated, sent, with_wm. cbn. f_equal. unfold with_ps, with_gui. cbn. f_equal.
  apply alter_ext. intros p' Hp'. congruence.
Qed.
Lemma drawn_kept hps p q l s : ps_map (wm s) !! hps = Some p → drawn hps (pen_of p) q l s (sent q l s).
Proof.
  intros Hp. unfold drawn. rewrite alter_id; [by destruct s as [[] ? ? ? ?]|]. intros p' Hp'.
  rewrite Hp in Hp'. injection Hp' as <-. by destruct p.
Qed.
Lemma sent_nothing q s : gui_tx (wm s) = Some q → sent q [] s = s.
Proof. intros H. unfold sent. rewrite app_nil_r, <- H. by destruct s as [[] ? ? ? ?]. Qed.
Lemma run_send s l q {C} (g : () → gui C) : gui_tx (wm s) = Some q → (send l ≫= g) s = g tt (sent q l s).
Proof. intros H. unfold send, in_wm, mbind, gui_bind. out_simpl. by rewrite H. Qed.
Lemma run_update hps f s {C} (g : () → gui C) : (update_ps hps f ≫= g) s = g tt (updated hps f s).
Proof. done. Qed.
Lemma drawn_silent hps f d p q s :
  ps_map (wm s) !! hps = Some p → gui_tx (wm s) = Some q → f p = wield d p →
  drawn hps d q [] s (updated hps f s).
Proof. intros Hp Hq Hf. rewrite <- (sent_nothing q s Hq) at 2. by apply drawn_moved with p. Qed.
Lemma run_i32 x s {C} (g : Z → gui C) : is_i32 x → (pure (i32 x) ≫= g) s = g x s.
Proof. intros H. apply run_pure. by apply i32_ok. Qed.
Lemma drawn_none hps p q s :
  ps_map (wm s) !! hps = Some p → gui_tx (wm s) = Some q → drawn hps (pen_of p) q [] s s.
Proof. intros Hp Hq. pose proof (drawn_kept hps p q [] s Hp) as H. by rewrite (sent_nothing q s Hq) in H. Qed.
Lemma shapes_none c f x1 y1 x2 y2 color : in_range 1 3 c = false → shapes c f x1 y1 x2 y2 color = [].
Proof.
  unfold in_range, shapes. intros H. replace (c =? 1) with false by lia. replace (c =? 2) with false by lia.
  by replace (c =? 3) with false by lia.
Qed.
Lemma wield_pos x y p : set_ps_pos (x, y) p = wield (mk_pen (x, y) (ps_color p)) p.
Proof. by destruct p. Qed.

Lemma gui_assoc {A C D} (g : gui A) (f : A → gui C) (h : C → gui D) s : ((g ≫= f) ≫= h) s = (g ≫= λ a, f a ≫= h) s.
Proof. unfold mbind, gui_bind. by destruct (g s) as [[]| | |]. Qed.
Lemma text_run hps n t o s p q x y :
  ps_map (wm s) !! hps = Some p → gui_tx (wm s) = Some q → default (ps_current_pos p) o = (x, y) →
  0 ≤ n < 2 ^ 31 → is_i32 (8 * n) → is_i32 (x + 8 * n) →
  draw_text order hps n t o s = Ok (Normal 1, updated hps (set_ps_pos (x + 8 * n, y))
    (sent q [GDrawText (client_to_frame order (wm s) (ps_hwnd p)) x y t (ps_color p)] s)).
Proof.
  intros Hp Hq Ho Hn H1 H2. unfold draw_text, get_ps, frame_of. rewrite run_ask, Hp. cbn -[is_i32].
  rewrite Ho, run_ask, (run_send _ _ _ _ Hq). rewrite gui_assoc. erewrite run_pure; [by rewrite run_update|].
  unfold text_end, MOCK_CHAR_W. rewrite as_i32_ok by lia. rewrite i32_ok by (unfold is_i32 in *; lia). cbn.
  rewrite i32_ok; [|unfold is_i32 in *; lia]. f_equal. lia.
Qed.
Ltac args H :=
  rewrite ?(run_arg _ 4 _ _ _ (stacked_arg _ _ _ 0 _ H eq_refl)), ?(run_arg _ 8 _ _ _ (stacked_arg _ _ _ 1 _ H eq_refl)),
    ?(run_arg _ 12 _ _ _ (stacked_arg _ _ _ 2 _ H eq_refl)), ?(run_arg _ 16 _ _ _ (stacked_arg _ _ _ 3 _ H eq_refl)),
    ?(run_arg _ 20 _ _ _ (stacked_arg _ _ _ 4 _ H eq_refl)).
Lemma op_drawn s hps esp ordinal op p q :
  pen_call s hps (esp, ordinal) op → ps_map (wm s) !! hps = Some p → gui_tx (wm s) = Some q → op_fits op (pen_of p) →
  let '(d, l) := draws (client_to_frame order (wm s) (ps_hwnd p)) op (pen_of p) in
  ∃ s', handle_pmgpi_call order enc_decode esp ordinal s = Ok (Normal 1, s') ∧ drawn hps d q l s s'.
Proof.
  intros Hc Hp Hq Hfit. assert (ps_map (wm s) !! hps = Some p) as Hget by done.
  destruct op; cbn [pen_call draws pen_of handle_pmgpi_call op_fits at_] in *;
    destruct (ps_current_pos p) as [x0 y0] eqn:Hpos; destruct Hc as [-> Hc]; cbn [handle_pmgpi_call].
  - eexists. unfold GpiSetColor, set_field. args Hc. rewrite run_update. split; [reflexivity|].
    apply drawn_silent with p; [done..|]. by destruct p; cbn in *; subst.
  - destruct Hc as (pp & Hc & Hpt). eexists. unfold GpiMove. args Hc. rewrite (run_point _ _ _ _ _ Hpt), run_update.
    split; [reflexivity|]. by apply drawn_silent with p; [..|apply wield_pos].
  - destruct Hc as (pp & Hc & Hpt). eexists. unfold GpiLine, get_ps, frame_of. args Hc.
    rewrite (run_point _ _ _ _ _ Hpt), run_ask, Hp, Hpos, gui_assoc, run_ask, (run_send _ _ _ _ Hq), run_update.
    split; [reflexivity|]. by apply drawn_moved with p; [|apply wield_pos].
  - destruct Hc as (pp & h & v & Hc & Hpt). eexists. unfold GpiBox, get_ps, frame_of. args Hc.
    rewrite (run_point _ _ _ _ _ Hpt), run_ask, Hp, Hpos, gui_assoc, run_ask, (run_send _ _ _ _ Hq).
    split; [reflexivity|]. by apply drawn_kept.
  - unfold GpiFullArc, get_ps, frame_of. args Hc.
    rewrite run_ask, Hp, Hpos, gui_assoc, run_ask, gui_assoc, run_ask, Hq. cbn [at_ fst snd] in Hfit.
    rewrite bool_decide_true by done. cbn [negb orb]. destruct Hfit as (? & ? & ? & ?).
    destruct (in_range 1 3 control) eqn:Hctl; cbn [negb].
    + unfold ARC_RADIUS. do 4 (rewrite gui_assoc, run_i32 by done). rewrite (run_send _ _ _ _ Hq).
      eexists. split; [reflexivity|]. by apply drawn_kept.
    + eexists. split; [reflexivity|]. rewrite shapes_none by done. by apply drawn_none.
  - destruct Hc as (pch & Hc & Ht). eexists. unfold GpiCharString. args Hc. rewrite (run_decoded _ _ _ _ _ Ht).
    destruct Hfit. rewrite (text_run hps count t None s p q x0 y0) by (done || apply Ht).
    split; [reflexivity|]. by apply drawn_moved with p; [|apply wield_pos].
  - destruct Hc as (pp & pch & Hc & Hpt & Ht). eexists. unfold GpiCharStringAt. args Hc.
    rewrite (run_point _ _ _ _ _ Hpt), (run_decoded _ _ _ _ _ Ht).
    destruct Hfit. rewrite (text_run hps count t (Some (x, y)) s p q x y) by (done || apply Ht).
    split; [reflexivity|]. by apply drawn_moved with p; [|apply wield_pos].
  - eexists. unfold GpiErase, get_ps, frame_of. args Hc. rewrite run_ask, Hp, run_ask, (run_send _ _ _ _ Hq).
    split; [reflexivity|]. by apply drawn_kept.
Qed.
Lemma ops_drawn s hps calls ops p q :
  Forall2 (pen_call s hps) calls ops → ps_map (wm s) !! hps = Some p → gui_tx (wm s) = Some q →
  let f := client_to_frame order (wm s) (ps_hwnd p) in
  ops_fit f ops (pen_of p) →
  ∃ s', gpi_all calls s = Ok (map (λ _, Normal 1) ops, s') ∧
    drawn hps (drawing f ops (pen_of p)).1 q (drawing f ops (pen_of p)).2 s s'.
Proof.
  intros Hc Hp Hq f Hfit. subst f. revert calls s p q Hc Hp Hq Hfit.
  induction ops as [|op ops IH]; intros calls s p q Hc Hp Hq Hfit; inversion Hc as [|[esp ordinal] ? calls' ? Hop Hrest]; subst.
  { exists s. split; [done|]. by apply drawn_none. }
  destruct Hfit as [Hf Hfit]. pose proof (op_drawn s hps esp ordinal op p q Hop Hp Hq Hf) as H. cbn [drawing map gpi_all].
  destruct (draws _ op (pen_of p)) as [d l]. cbn [fst] in Hfit. destruct H as (s1 & H1 & ->).
  set (s1 := with_wm _ s) in H1. assert (ps_map (wm s1) !! hps = Some (wield d p)) as Hp1.
  { unfold s1. cbn. by rewrite lookup_alter_eq, Hp. }
  assert (pen_of (wield d p) = d) as Hd by (by destruct d).
  destruct (IH calls' s1 (wield d p) (q ++ l)) as (s2 & H2 & H3); [done..|by rewrite Hd|]. rewrite Hd in H3.
  change (client_to_frame order (wm s1) (ps_hwnd (wield d p)))
    with (client_to_frame order (wm s) (ps_hwnd p)) in H3.
  destruct (drawing _ ops d) as [d2 l2]. cbn [fst snd] in *. exists s2. split.
  { unfold mbind, gui_bind. rewrite H1. out_simpl. by rewrite H2. }
  rewrite H3. unfold drawn, s1, with_wm. cbn. f_equal. unfold with_ps, with_gui. cbn. rewrite <- app_assoc. f_equal.
  rewrite alter_alter_eq. by apply alter_ext.
Qed.
End pens.

(** C29: a presentation space is a pen.  Whatever drawing calls a program makes on it, each shows in
    the frame of its window the line, box, circle or text from where the pen stands, in its colour,
    in the order of the calls; the calls succeed, move the pen as drawing on paper would, and change
    nothing else: no other presentation space, no window and no memory. *)
Theorem calls_draw {B : Build} order dec (s : Pm) (hps : Z) (calls : list (Z * Z)) (ops : list pen_op)
    (p : PresentationSpace) (q : list GUIMessage) :
  Forall2 (pen_call dec s hps) calls ops → ps_map (wm s) !! hps = Some p → gui_tx (wm s) = Some q →
  let f := client_to_frame order (wm s) (ps_hwnd p) in
  ops_fit f ops (pen_of p) →
  ∃ s', gpi_all order dec calls s = Ok (map (λ _, Normal 1) ops, s') ∧
    drawn hps (drawing f ops (pen_of p)).1 q (drawing f ops (pen_of p)).2 s s'.
Proof. apply ops_drawn. Qed.
Definition demo_gpi : Pm :=
  let w := with_gui (Some []) (with_frames {[0x1000 := 0x1001]} (with_ps {[0x2000 := mk_ps 0x2000 0x1001 0 0 6 6 0 (0, 0) (0, 0)]} 0x2001 wm_new)) in
  let m := demo_words 0x104 [0x2000; 0x400] (demo_words 0x204 [0x2000; 0x408] (demo_words 0x304 [0x2000; 2; 0x410]
             (demo_words 0x400 [3; 4; 5; 4; 0x6948] (alloc 0x1000)))) in
  mk_pm w m Managers.resource_manager_new 437 false.
Lemma calls_draw_witness :
  ∃ s', @gpi_all dev_profile map_to_list (λ _ b, b) [(0x100, 404); (0x200, 398); (0x300, 358)] demo_gpi =
          Ok ([Normal 1; Normal 1; Normal 1], s') ∧
    drawn 0x2000 (mk_pen (21, 4) 0) [] [GDrawLine 0x1000 3 4 5 4 0; GDrawText 0x1000 5 4 (str "Hi") 0] demo_gpi s'.
Proof.
  destruct (@calls_draw dev_profile map_to_list (λ _ b, b) demo_gpi 0x2000 [(0x100, 404); (0x200, 398); (0x300, 358)]
    [MoveTo 3 4; LineTo 5 4; Text 2 (str "Hi")] (mk_ps 0x2000 0x1001 0 0 6 6 0 (0, 0) (0, 0)) []) as (s' & Hr & Hd); try reflexivity.
  - repeat constructor; eexists; (split; [intros [|[|[|i]]] v Hv; try discriminate Hv; injection Hv as <-; vm_compute; reflexivity|]).
    + by vm_compute.
    + by vm_compute.
    + repeat split; vm_compute; done.
  - vm_compute. repeat split; discriminate.
  - exists s'. split; [exact Hr|]. set (r := drawing _ _ _) in Hd.
    assert (r = (mk_pen (21, 4) 0, [GDrawLine 0x1000 3 4 5 4 0; GDrawText 0x1000 5 4 (str "Hi") 0])) as Hx
      by (vm_compute; reflexivity).
    rewrite Hx in Hd. exact Hd.
Defined.
