(* ===== verification/PmInv.v ===== *)
(** The state of the window manager over whole runs: every PMWIN call of every thread keeps the
    windows, their tree, the frames, the z-order, the focus and the queues consistent.

    A judgement [spends q k g] carries the proofs: [g] keeps the invariant, uses at most [k] handles
    and forgets neither windows nor queues; [q] is a queue that its caller found. *)
From S2P Require Import Prelude Bytes Codepage GuestMem PmTypes PmRes PmControls PmWin PmCall PmGpi.
From S2P Require Managers ApiRegistry HostDir.

(** The modal loop of this window ended, which took it out of the z-order. *)
Definition dismissed (m : WindowManager) (f : Z) : Prop :=
  ∃ w, windows m !! f = Some w ∧ dialog_dismissed w = true.
(** The state is consistent; the frames of [X] may be missing in the z-order. *)
Record wm_ok (X : list Z) (m : WindowManager) : Prop := {
  ok_next : 0x1000 ≤ next_hwnd m < M32;
  ok_next_mq : 0x3000 ≤ next_hmq m < M32;
  ok_handle : ∀ h w, windows m !! h = Some w → 0x1000 ≤ h < next_hwnd m ∧ w_handle w = h;
  ok_queue : ∀ q, is_Some (msg_queues m !! q) → 0x3000 ≤ q < next_hmq m;
  ok_tid : ∀ t q, tid_to_hmq m !! t = Some q → is_Some (msg_queues m !! q);
  ok_window_queue : ∀ h w, windows m !! h = Some w → w_hmq w = 0 ∨ is_Some (msg_queues m !! w_hmq w);
  ok_child : ∀ h w c, windows m !! h = Some w → c ∈ children w → ∃ v, windows m !! c = Some v ∧ parent v = h;
  ok_children : ∀ h w, windows m !! h = Some w → NoDup (children w);
  ok_frame : ∀ f c, frame_to_client m !! f = Some c → ∃ v, windows m !! c = Some v ∧ parent v = f;
  ok_shown : ∀ f, is_Some (frame_to_client m !! f) → f ∈ z_order m ∨ f ∈ X ∨ dismissed m f;
  ok_z : NoDup (z_order m);
  ok_z_window : ∀ h, h ∈ z_order m → is_Some (windows m !! h);
  ok_focus : focused_hwnd m = 0 ∨ focused_hwnd m ∈ z_order m;
}.

(** A handle that stands for no queue, or an existing queue. *)
Definition is_queue (q : Z) (m : WindowManager) : Prop := q = 0 ∨ is_Some (msg_queues m !! q).
(** Windows and queues are never forgotten. *)
Definition grows (m m' : WindowManager) : Prop :=
  (∀ h, is_Some (windows m !! h) → is_Some (windows m' !! h)) ∧
  (∀ q, is_Some (msg_queues m !! q) → is_Some (msg_queues m' !! q)).

Section invariant.
Context {B : Build}.
Context (order : gmap Z Z → list (Z * Z)).
Context (enc_decode : Encoding → bytes → rstring) (enc_encode : Encoding → rstring → bytes).
Implicit Types m : WindowManager.

(** Handles do not run out: arithmetic is checked, or there are [n] left of each kind. *)
Definition room (n : Z) m : Prop :=
  overflow_checks = true ∨ next_hwnd m + n < M32 ∧ next_hmq m + n < M32.

Lemma grows_refl m : grows m m.
Proof. by split. Qed.
Lemma grows_trans m1 m2 m3 : grows m1 m2 → grows m2 m3 → grows m1 m3.
Proof. intros [? ?] [? ?]. split; eauto. Qed.
Lemma is_queue_grows q m m' : is_queue q m → grows m m' → is_queue q m'.
Proof. intros [->|Hq] [_ H]; [by left|right; auto]. Qed.

(** * Updates that use up no handle *)

(** What the invariant sees of a window. *)
Definition core (w : OS2Window) : Z * Z * Z * list Z := (w_handle w, parent w, w_hmq w, children w).
Definition neutral (X : list Z) (f : WindowManager → WindowManager) : Prop :=
  ∀ m, wm_ok X m → wm_ok X (f m) ∧ grows m (f m) ∧ next_hwnd (f m) = next_hwnd m ∧ next_hmq (f m) = next_hmq m.

Lemma neutral_compose X f g : neutral X f → neutral X g → neutral X (λ m, f (g m)).
Proof.
  intros Hf Hg m Hm. destruct (Hg m Hm) as (? & ? & ? & ?). destruct (Hf (g m)) as (? & ? & ? & ?); [done|].
  split_and!; [done|by eapply grows_trans|congruence|congruence].
Qed.
Lemma neutral_if X (b : WindowManager → bool) f : neutral X f → neutral X (λ m, if b m then f m else m).
Proof. intros Hf m Hm. destruct (b m); [by apply Hf|]. split_and!; done. Qed.

Definition keeps_core (f : OS2Window → OS2Window) : Prop :=
  ∀ w, core (f w) = core w ∧ (dialog_dismissed w = true → dialog_dismissed (f w) = true).
Lemma neutral_update X h f : keeps_core f → neutral X (update_window h f).
Proof.
  intros Hf m Hm. unfold update_window.
  assert (Hl : ∀ i w', alter f h (windows m) !! i = Some w' → ∃ w, windows m !! i = Some w ∧ core w' = core w).
  { intros i w' H. apply lookup_alter_Some in H as [(-> & w & Hw & ->)|[_ Hw]]; [|eauto]. exists w.
    split; [done|apply Hf]. }
  assert (Hr : ∀ i w, windows m !! i = Some w → ∃ w', alter f h (windows m) !! i = Some w' ∧ core w' = core w ∧
    (dialog_dismissed w = true → dialog_dismissed w' = true)).
  { intros i w Hw. destruct (decide (h = i)) as [->|Hne]; [|exists w; by rewrite lookup_alter_ne].
    rewrite lookup_alter_eq, Hw. eexists. split; [done|apply Hf]. }
  split_and!; [|split; [|done]|done|done].
  2: { intros i [w Hw]. cbn. destruct (Hr i w Hw) as (w' & -> & _). by eexists. }
  destruct Hm. split; cbn; try done.
  - intros i w' H. destruct (Hl _ _ H) as (w & Hw & [= -> _ _ _]). by apply ok_handle0.
  - intros i w' H. destruct (Hl _ _ H) as (w & Hw & [= _ _ -> _]). by eapply ok_window_queue0.
  - intros i w' c H Hc. destruct (Hl _ _ H) as (w & Hw & [= _ _ _ Hch]). rewrite Hch in Hc.
    destruct (ok_child0 _ _ _ Hw Hc) as (v & Hv & <-). destruct (Hr _ _ Hv) as (v' & ? & [= _ ? _ _] & _). eauto.
  - intros i w' H. destruct (Hl _ _ H) as (w & Hw & [= _ _ _ ->]). by eapply ok_children0.
  - intros g c Hc. destruct (ok_frame0 _ _ Hc) as (v & Hv & <-). destruct (Hr _ _ Hv) as (v' & ? & [= _ ? _ _] & _). eauto.
  - intros g Hg. destruct (ok_shown0 g Hg) as [|[|(w & Hw & Hd)]]; [by left|by right; left|].
    destruct (Hr _ _ Hw) as (w' & Hw' & _ & Hd'). right. right. exists w'. auto.
  - intros i Hi. destruct (ok_z_window0 i Hi) as [w Hw]. destruct (Hr i w Hw) as (w' & -> & _). by eexists.
Qed.

(** The parts that the invariant does not see. *)
Definition same_parts m m' : Prop :=
  windows m' = windows m ∧ next_hwnd m' = next_hwnd m ∧ msg_queues m' = msg_queues m ∧
  next_hmq m' = next_hmq m ∧ tid_to_hmq m' = tid_to_hmq m ∧ frame_to_client m' = frame_to_client m ∧
  z_order m' = z_order m ∧ focused_hwnd m' = focused_hwnd m.
Lemma same_parts_ok X m m' : same_parts m m' → wm_ok X m →
  wm_ok X m' ∧ grows m m' ∧ next_hwnd m' = next_hwnd m ∧ next_hmq m' = next_hmq m.
Proof.
  intros (E1 & E2 & E3 & E4 & E5 & E6 & E7 & E8) [].
  split_and!; [|split; by rewrite ?E1, ?E3|done|done].
  split; unfold dismissed in *; by rewrite ?E1, ?E2, ?E3, ?E4, ?E5, ?E6, ?E7, ?E8.
Qed.
Lemma neutral_same X f : (∀ m, same_parts m (f m)) → neutral X f.
Proof. intros Hf m Hm. by apply same_parts_ok. Qed.

(** A queue of the same handles with other messages. *)
Lemma queues_ok X m (Q : gmap Z (list OS2Message)) :
  (∀ q, is_Some (Q !! q) ↔ is_Some (msg_queues m !! q)) → wm_ok X m →
  wm_ok X (with_queues Q (next_hmq m) m) ∧ grows m (with_queues Q (next_hmq m) m).
Proof.
  intros Hf Hm. split; [|split; [done|intros q; apply Hf]]. destruct Hm. split; cbn; try done.
  - intros q Hq. by apply ok_queue0, Hf.
  - intros t q Ht. apply Hf. by eapply ok_tid0.
  - intros h w Hw. destruct (ok_window_queue0 h w Hw); [by left|right; by apply Hf].
Qed.
Lemma neutral_push X q msg : neutral X (push_back q msg).
Proof.
  intros m Hm. destruct (queues_ok X m (alter (λ l, l ++ [msg]) q (msg_queues m))) as [? ?]; [|done|done].
  intros q'. by rewrite lookup_alter_is_Some.
Qed.

(** * The z-order *)

Lemma elem_without h l x : x ∈ without h l ↔ x ∈ l ∧ x ≠ h.
Proof. unfold without. rewrite list_elem_of_filter. tauto. Qed.
Lemma NoDup_without h l : NoDup l → NoDup (without h l).
Proof. apply NoDup_filter. Qed.

(** Putting a window anywhere into the rest of the order. *)
Lemma restacked (h : Z) (l l1 l2 : list Z) :
  NoDup l → without h l = l1 ++ l2 →
  NoDup (l1 ++ h :: l2) ∧ (∀ x, x ∈ l1 ++ h :: l2 ↔ x = h ∨ x ∈ l).
Proof.
  intros Hnd Hw. pose proof (NoDup_without h l Hnd) as H. rewrite Hw in H.
  assert (Hin : ∀ x, x ∈ l1 ++ l2 ↔ x ∈ l ∧ x ≠ h) by (intros; by rewrite <- Hw, elem_without). split.
  - rewrite <- Permutation_middle. constructor; [|done]. rewrite Hin. naive_solver.
  - intros x. rewrite <- Permutation_middle, elem_of_cons, Hin. destruct (decide (x = h)); naive_solver.
Qed.
Lemma without_fresh h l : h ∉ l → without h l = l.
Proof.
  unfold without. induction l as [|x l IH]; intros Hl; [done|]. apply not_elem_of_cons in Hl as [? ?].
  rewrite filter_cons_True by done. f_equal. by apply IH.
Qed.
(** [z_push_top], [z_push_bottom] and [z_insert_behind] put the window somewhere. *)
Definition puts (h : Z) (g : WindowManager → WindowManager) : Prop := ∀ m, ∃ l1 l2,
  without h (z_order m) = l1 ++ l2 ∧
  g m = with_z (l1 ++ h :: l2) (focused_hwnd m) (list_to_set (l1 ++ h :: l2) ∪ dirty m) m.
Lemma push_top_puts h : puts h (z_push_top h).
Proof.
  intros m. exists (without h (z_order m)), []. split; [by rewrite app_nil_r|]. unfold z_push_top.
  case_bool_decide as Hin; [done|]. by rewrite without_fresh.
Qed.
Lemma push_bottom_puts h : puts h (z_push_bottom h).
Proof. intros m. by exists [], (without h (z_order m)). Qed.
Lemma insert_behind_puts h behind : puts h (z_insert_behind h behind).
Proof.
  intros m. unfold z_insert_behind. destruct (list_find _ _) as [[pos x]|].
  - exists (take pos (without h (z_order m))), (drop pos (without h (z_order m))). by rewrite take_drop.
  - exists (without h (z_order m)), []. by rewrite app_nil_r.
Qed.
Lemma puts_ok X (g : WindowManager → WindowManager) (h : Z) m :
  puts h g → wm_ok X m → is_Some (windows m !! h) →
  wm_ok X (g m) ∧ grows m (g m) ∧ next_hwnd (g m) = next_hwnd m ∧ next_hmq (g m) = next_hmq m.
Proof.
  intros Hg Hm Hh. destruct (Hg m) as (l1 & l2 & Hw & ->).
  destruct (restacked h (z_order m) l1 l2) as [Hnd Hin]; [apply Hm|done|].
  split_and!; try done. destruct Hm. split; cbn; try done.
  - intros f Hf. destruct (ok_shown0 f Hf); [left; apply Hin; by right|by right].
  - intros x [->|Hx]%Hin; [done|auto].
  - destruct ok_focus0; [by left|right; apply Hin; by right].
Qed.
(** What a call puts on top is a frame. *)
Lemma frame_window m h : wm_ok [] m → is_frame m h = true → is_Some (windows m !! h).
Proof.
  intros Hm Hf. apply bool_decide_eq_true in Hf. destruct (ok_shown _ _ Hm h Hf) as [Hz|[Hn|(w & Hw & _)]].
  - by apply (ok_z_window _ _ Hm).
  - by apply elem_of_nil in Hn.
  - by exists w.
Qed.
Lemma neutral_restack h behind : neutral [] (λ m, if is_frame m h then restack h behind m else m).
Proof.
  intros m Hm. destruct (is_frame m h) eqn:Hf; [|by split_and!].
  pose proof (frame_window _ _ Hm Hf) as Hw. unfold restack.
  repeat case_match; try (by split_and!);
    (eapply puts_ok; [first [apply push_top_puts|apply push_bottom_puts|apply insert_behind_puts]|done|done]).
Qed.
Lemma focus_ok X h m : wm_ok X m → h ∈ z_order m → wm_ok X (with_focus h m).
Proof. intros Hm Hh. destruct Hm. split; cbn; try done. by right. Qed.
(** A window that is brought to the top with the focus. *)
Lemma activate_ok X h m :
  wm_ok X m → is_Some (windows m !! h) → let m' := z_push_top h (with_focus h m) in
  wm_ok X m' ∧ grows m m' ∧ next_hwnd m' = next_hwnd m ∧ next_hmq m' = next_hmq m ∧ h ∈ z_order m'.
Proof.
  intros Hm Hw. cbv zeta. assert (z_push_top h (with_focus h m) = with_focus h (z_push_top h m)) as -> by
    (unfold z_push_top; cbn; by case_bool_decide).
  destruct (puts_ok X (z_push_top h) h m (push_top_puts h) Hm Hw) as (Hm' & Hg & E1 & E2).
  assert (h ∈ z_order (z_push_top h m)) as Hin by (cbn; case_bool_decide; set_solver).
  split_and!; [by apply focus_ok|exact Hg|exact E1|exact E2|exact Hin].
Qed.
Lemma neutral_activate h : neutral [] (λ m, if is_frame m h then z_push_top h (with_focus h m) else m).
Proof.
  intros m Hm. destruct (is_frame m h) eqn:Hf; [|by split_and!].
  destruct (activate_ok [] h m Hm (frame_window _ _ Hm Hf)) as (? & ? & ? & ? & _). by split_and!.
Qed.
(** A window that leaves the z-order: the modal loop of a dialog ends, or a frame is destroyed. *)
Lemma removed_ok X h m : wm_ok X m → wm_ok (h :: X) (z_remove h m) ∧ grows m (z_remove h m).
Proof.
  intros Hm. unfold z_remove. set (m1 := with_order _ m).
  assert (∃ foc d, mark_all_dirty (if focused_hwnd m1 =? h then with_focus (default 0 (last (z_order m1))) m1 else m1) =
    with_z (without h (z_order m)) foc d m ∧ (foc = 0 ∨ foc ∈ without h (z_order m))) as (foc & d & -> & Hfoc).
  { subst m1. cbn [focused_hwnd with_order with_z z_order].
    destruct (Z.eqb_spec (focused_hwnd m) h) as [Hh|Hh]; eexists _, _; (split; [reflexivity|]).
    - destruct (last (without h (z_order m))) as [x|] eqn:Hl; [|by left]. right. by apply last_Some_elem_of.
    - destruct (ok_focus _ _ Hm); [by left|right]. by apply elem_without. }
  split; [|done]. destruct Hm. split; cbn; try done.
  - intros f Hf. destruct (decide (f = h)) as [->|Hne]; [right; left; set_solver|].
    destruct (ok_shown0 f Hf) as [|[|]]; [left; by apply elem_without|right; left; set_solver|by right; right].
  - by apply NoDup_without.
  - intros x [Hx _]%elem_without. auto.
Qed.
Lemma destroyed_ok h m : wm_ok [h] m → wm_ok [] (with_frames (delete h (frame_to_client m)) m).
Proof.
  intros Hm. destruct Hm. split; cbn; try done.
  - intros f c Hc. apply lookup_delete_Some in Hc as [_ Hc]. by apply ok_frame0.
  - intros f Hf. rewrite lookup_delete_is_Some in Hf. destruct Hf as [Hne Hf].
    destruct (ok_shown0 f Hf) as [|[Hin|]]; [by left|set_solver|by right; right].
Qed.
Lemma ended_ok h m : wm_ok [h] m → dismissed m h → wm_ok [] m.
Proof.
  intros Hm Hd. destruct Hm. split; try done. intros f Hf.
  destruct (ok_shown0 f Hf) as [|[->%list_elem_of_singleton|]]; auto.
Qed.

(** * New windows *)

Definition next_window (class : rstring) (par q : Z) m : OS2Window :=
  new_window (next_hwnd m) class (from_option c_pfn_wp 0 (classes m !! class)) par q.
Definition adopt (par h : Z) (i : Z) (w : OS2Window) : OS2Window :=
  if decide (i = par ∧ par ≠ 0) then set_children (children w ++ [h]) w else w.
Lemma create_window_result class par q m h m' n :
  room (n + 1) m → 0 ≤ n → create_window class par q m = Ok (h, m') →
  h = next_hwnd m ∧ next_hwnd m' = h + 1 ∧ h + 1 < M32 ∧ room n m' ∧
  m' = with_windows (windows m') (next_hwnd m') m ∧
  ∀ i, windows m' !! i = adopt par h i <$> <[h := next_window class par q m]> (windows m) !! i.
Proof.
  intros Hroom Hn. unfold create_window. cbv zeta.
  replace (next_hwnd (if par =? 0 then _ else _)) with (next_hwnd m) by (by destruct (par =? 0)).
  destruct (uadd _ _ _) as [next| | |] eqn:Hu; try done.
  assert (next = next_hwnd m + 1 ∧ next_hwnd m + 1 < M32 ∧ (overflow_checks = true ∨ next_hmq m + n < M32 ∧ next + n < M32))
    as (-> & Hlt & Hr).
  { unfold uadd, overflowing in Hu. destruct (Z.ltb_spec (next_hwnd m + 1) M32).
    - injection Hu as <-. split_and!; [done..|]. destruct Hroom as [|[? ?]]; [by left|right; lia].
    - destruct Hroom as [Hc|[? ?]]; [by rewrite Hc in Hu|lia]. }
  out_simpl. intros [= <- <-]. split_and!; try done.
  - unfold room. cbn. destruct (par =? 0); cbn; destruct Hr as [|[? ?]]; [by left|right; lia|by left|right; lia].
  - cbn. by destruct (par =? 0).
  - intros i. unfold adopt. destruct (decide (i = par ∧ par ≠ 0)) as [[-> Hp]|Hne].
    + rewrite (proj2 (Z.eqb_neq par 0)) by done. cbn [windows with_windows update_window]. by rewrite lookup_alter_eq.
    + transitivity (<[next_hwnd m := next_window class par q m]> (windows m) !! i);
        [|by destruct (<[_:=_]> (windows m) !! i)].
      destruct (Z.eqb_spec par 0); [done|]. cbn [windows with_windows update_window].
      rewrite lookup_alter_ne; [done|naive_solver].
Qed.
Lemma create_ok X class par q m h m' n :
  wm_ok X m → room (n + 1) m → 0 ≤ n → is_queue q m → create_window class par q m = Ok (h, m') →
  wm_ok X m' ∧ room n m' ∧ grows m m' ∧ (∃ v, windows m' !! h = Some v ∧ parent v = par).
Proof.
  intros Hm Hroom Hn Hq Hc. apply (create_window_result _ _ _ _ _ _ n) in Hc as (-> & Hnext & Hlt & Hr & Hm' & Hw); [|done..].
  set (h := next_hwnd m) in *. set (v := next_window class par q m) in *.
  assert (Hfresh : ∀ i w, windows m !! i = Some w → i < h) by (intros i w Hi; apply (ok_handle _ _ Hm) in Hi; lia).
  assert (Hfst : ∀ i w, w_handle (adopt par h i w) = w_handle w ∧ parent (adopt par h i w) = parent w ∧
    w_hmq (adopt par h i w) = w_hmq w) by (intros i w; unfold adopt; by case_decide).
  assert (Hold : ∀ i w, windows m !! i = Some w → windows m' !! i = Some (adopt par h i w)).
  { intros i w Hi. rewrite Hw, lookup_insert_ne, Hi; [done|]. apply Hfresh in Hi. lia. }
  assert (Hnew : windows m' !! h = Some (adopt par h h v)) by (by rewrite Hw, lookup_insert_eq).
  assert (Hinv : ∀ i w', windows m' !! i = Some w' → ∃ w, w' = adopt par h i w ∧ (i = h ∧ w = v ∨ windows m !! i = Some w)).
  { intros i w' Hi. rewrite Hw in Hi. apply fmap_Some in Hi as (w & Hi & ->). exists w. split; [done|].
    apply lookup_insert_Some in Hi as [[-> <-]|[_ Hi]]; auto. }
  split_and!; [|done| |].
  2: { split; [intros i [w Hi]; eexists; by apply Hold|]. rewrite Hm'. done. }
  2: { eexists. split; [exact Hnew|]. by rewrite (proj1 (proj2 (Hfst h v))). }
  assert (Hpar : ∀ c u, windows m !! c = Some u → ∃ u', windows m' !! c = Some u' ∧ parent u' = parent u).
  { intros c u Hu. exists (adopt par h c u). split; [by apply Hold|apply Hfst]. }
  rewrite Hm'. destruct Hm. split; cbn; rewrite ?Hnext; try done; try lia.
  - intros i w' Hi. destruct (Hinv _ _ Hi) as (w & -> & [[-> ->]|Hi']); rewrite (proj1 (Hfst _ _)); [split; [lia|done]|].
    destruct (ok_handle0 _ _ Hi'). split; [lia|done].
  - intros i w' Hi. destruct (Hinv _ _ Hi) as (w & -> & [[-> ->]|Hi']); rewrite (proj2 (proj2 (Hfst _ _))); [done|].
    by eapply ok_window_queue0.
  - intros i w' c Hi Hc. destruct (Hinv _ _ Hi) as (w & -> & Hcase).
    assert (c ∈ children w ∨ c = h ∧ i = par) as [Hc'|[-> ->]].
    { unfold adopt in Hc. case_decide; [|by left]. cbn in Hc. apply elem_of_app in Hc as [?|Hc]; [by left|right].
      apply list_elem_of_singleton in Hc. naive_solver. }
    + destruct Hcase as [[-> ->]|Hi']; [by apply elem_of_nil in Hc'|].
      destruct (ok_child0 _ _ _ Hi' Hc') as (u & Hu & <-). by apply Hpar.
    + eexists. split; [exact Hnew|]. by rewrite (proj1 (proj2 (Hfst h v))).
  - intros i w' Hi. destruct (Hinv _ _ Hi) as (w & -> & Hcase).
    assert (NoDup (children w) ∧ h ∉ children w) as [Hnd Hni].
    { destruct Hcase as [[-> ->]|Hi']; [split; [constructor|apply not_elem_of_nil]|]. split; [by eapply ok_children0|].
      intros Hc. destruct (ok_child0 _ _ _ Hi' Hc) as (u & Hu & _). apply Hfresh in Hu. lia. }
    unfold adopt. case_decide; [|done]. cbn. apply NoDup_app. split_and!; [done| |apply NoDup_singleton].
    intros x Hx Hx'. apply list_elem_of_singleton in Hx' as ->. done.
  - intros f c Hc. destruct (ok_frame0 _ _ Hc) as (u & Hu & <-). by apply Hpar.
  - intros f Hf. destruct (ok_shown0 f Hf) as [|[|(w & Hw' & Hd)]]; [by left|by right; left|right; right].
    exists (adopt par h f w). split; [by apply Hold|]. unfold adopt. by case_decide.
  - intros i Hi. destruct (ok_z_window0 i Hi) as [w Hw']. eexists. by apply Hold.
Qed.

(** * The judgement *)

Definition spends (q k : Z) {A} (g : gui A) : Prop := ∀ n s a s',
  wm_ok [] (wm s) → room (n + k) (wm s) → 0 ≤ n → is_queue q (wm s) → g s = Ok (a, s') →
  wm_ok [] (wm s') ∧ room n (wm s') ∧ grows (wm s) (wm s').

Lemma room_le n n' m : n' ≤ n → room n m → room n' m.
Proof. intros Hn [?|[? ?]]; [by left|right; lia]. Qed.
Lemma spends_le q k k' {A} (g : gui A) : k ≤ k' → spends q k g → spends q k' g.
Proof. intros Hk Hg n s a s' Hs Hr Hn Hq. apply Hg; try done. eapply room_le, Hr. lia. Qed.
Lemma spends_same q {A} (g : gui A) : (∀ s a s', g s = Ok (a, s') → wm s' = wm s) → spends q 0 g.
Proof. intros Hg n s a s' Hs Hr Hn Hq Hrun. rewrite (Hg _ _ _ Hrun). rewrite Z.add_0_r in Hr. by split_and!. Qed.
Lemma spends_ret q {A} (a : A) : spends q 0 (mret a).
Proof. apply spends_same. by intros s ? ? [= <- <-]. Qed.
Lemma spends_ask q {A} (f : Pm → A) : spends q 0 (ask f).
Proof. apply spends_same. by intros s ? ? [= <- <-]. Qed.
Lemma spends_pure q {A} (o : outcome () A) : spends q 0 (pure o).
Proof. apply spends_same. unfold pure. intros s a s'. destruct o; try done. by intros [= <- <-]. Qed.
Lemma spends_mem q f : spends q 0 (in_mem f).
Proof. apply spends_same. by intros s ? ? [= <- <-]. Qed.
Lemma gui_bind_inv {A C} (g : gui A) (f : A → gui C) s c s'' :
  (g ≫= f) s = Ok (c, s'') → ∃ a s', g s = Ok (a, s') ∧ f a s' = Ok (c, s'').
Proof. unfold mbind, gui_bind. destruct (g s) as [[a s']| | |]; try done. eauto. Qed.
Lemma spends_bind_k q k1 k2 {A C} (g : gui A) (f : A → gui C) :
  0 ≤ k2 → spends q k1 g → (∀ a, spends q k2 (f a)) → spends q (k1 + k2) (g ≫= f).
Proof.
  intros Hk Hg Hf n s c s'' Hs Hr Hn Hq (a & s' & H1 & H2)%gui_bind_inv.
  destruct (Hg (n + k2) s a s') as (Hs' & Hr' & Hgr); try done; [eapply room_le, Hr; lia|lia|].
  destruct (Hf a n s' c s'') as (? & ? & ?); try done; [by eapply is_queue_grows|].
  split_and!; [done..|by eapply grows_trans].
Qed.
Lemma spends_from q k {A} (g : gui A) n w s1 a s' :
  spends q k g → g s1 = Ok (a, s') → wm_ok [] (wm s1) → room (n + k) (wm s1) → 0 ≤ n → is_queue q w →
  grows w (wm s1) → wm_ok [] (wm s') ∧ room n (wm s') ∧ grows w (wm s').
Proof.
  intros Hg H Hs Hr Hn Hq Hgr. destruct (Hg n s1 a s') as (? & ? & ?); try done; [by eapply is_queue_grows|].
  split_and!; [done..|by eapply grows_trans].
Qed.
(** The steps before and after the one that uses the handles. *)
Lemma spends_then q k {A C} (g : gui A) (f : A → gui C) :
  0 ≤ k → spends q 0 g → (∀ a, spends q k (f a)) → spends q k (g ≫= f).
Proof. apply (spends_bind_k q 0 k). Qed.
Lemma spends_first q k {A C} (g : gui A) (f : A → gui C) :
  spends q k g → (∀ a, spends q 0 (f a)) → spends q k (g ≫= f).
Proof. intros. rewrite <- (Z.add_0_r k). by apply spends_bind_k. Qed.
Lemma spends_wm q f : neutral [] f → spends q 0 (in_wm f).
Proof.
  intros Hf n s [] s' Hs Hr Hn Hq [= <-]. destruct (Hf _ Hs) as (? & ? & E1 & E2). cbn. split_and!; [done| |done].
  unfold room. rewrite E1, E2. by rewrite Z.add_0_r in Hr.
Qed.
(** The queue of the thread, once asked for, is a queue. *)
Lemma spends_own q k v {A} (f : Z → gui A) : (∀ q', spends q' k (f q')) → spends q k (own_queue v ≫= f).
Proof.
  intros Hf n s c s'' Hs Hr Hn Hq. unfold own_queue. rewrite run_ask. apply Hf; try done.
  unfold is_queue. destruct (tid_to_hmq (wm s) !! v) as [q'|] eqn:Hv; [right|by left]. by eapply (ok_tid _ _ Hs).
Qed.
Lemma spends_create q class par : spends q 1 (on_wm (create_window class par q)).
Proof.
  intros n s h s' Hs Hr Hn Hq. unfold on_wm. intros H. apply bind_Ok_inv in H as ([h' w] & Hc & [= <- <-]). cbn.
  destruct (create_ok [] class par q (wm s) h' w n) as (? & ? & ? & _); done.
Qed.
Lemma spends_create0 q class par : spends q 1 (on_wm (create_window class par 0)).
Proof.
  intros n s h s' Hs Hr Hn Hq. unfold on_wm. intros H. apply bind_Ok_inv in H as ([h' w] & Hc & [= <- <-]). cbn.
  destruct (create_ok [] class par 0 (wm s) h' w n) as (? & ? & ? & _); try done. by left.
Qed.
(** Handles of presentation spaces and accelerator tables are not seen by the invariant. *)
Lemma spends_on q {A} (f : WindowManager → outcome () (A * WindowManager)) :
  (∀ m a m', f m = Ok (a, m') → same_parts m m') → spends q 0 (on_wm f).
Proof.
  intros Hf n s a s' Hs Hr Hn Hq. unfold on_wm. intros H. apply bind_Ok_inv in H as ([a' w] & Hc & [= <- <-]). cbn.
  destruct (same_parts_ok [] (wm s) w) as (? & ? & E1 & E2); [by eapply Hf|done|].
  split_and!; [done| |done]. unfold room. rewrite E1, E2. by rewrite Z.add_0_r in Hr.
Qed.
End invariant.

(** * Proofs of judgements *)

Create HintDb spends.
#[export] Hint Resolve spends_ret spends_ask spends_pure spends_mem spends_create spends_create0 : spends.
Ltac neutral :=
  first
    [ solve [apply neutral_push]
    | solve [apply neutral_update; intros w; unfold place; repeat case_match; (split; [reflexivity|done])]
    | solve [apply neutral_same; intros m; unfold same_parts; repeat case_match; split_and!; reflexivity]
    | solve [eauto with spends] ].
Ltac spend_step :=
  match goal with
  | |- spends _ _ (own_queue _ ≫= _) => apply spends_own; intros
  | |- spends _ 0 (_ ≫= _) => apply spends_then; [lia| |intros]
  | |- spends _ _ _ => solve [auto with spends]
  | |- spends _ _ (in_wm _) => apply spends_wm; neutral
  | |- spends _ _ (if ?b then _ else _) => destruct b
  | |- spends _ _ (match ?x with _ => _ end) => destruct x
  end.
(** A call of which every step uses up no handle. *)
Ltac spend := cbv zeta; repeat (spend_step; cbv zeta).
Ltac spend_call := match goal with |- spends _ _ ?g => let h := head_symbol g in unfold h end; spend.

Section calls.
Context {B : Build}.
Context (order : gmap Z Z → list (Z * Z)).
Context (enc_decode : Encoding → bytes → rstring) (enc_encode : Encoding → rstring → bytes).

Lemma spends_send q l : spends q 0 (send l).
Proof. spend_call. Qed.
Lemma spends_post q target msg : spends q 0 (post order target msg).
Proof.
  unfold post. apply spends_wm. intros m Hm. destruct (find_hmq_for_hwnd order m target); [by apply neutral_push|].
  by apply (same_parts_ok [] m m).
Qed.
Lemma spends_get_str q ptr : spends q 0 (get_str enc_decode ptr).
Proof. spend_call. Qed.
#[local] Hint Resolve spends_send spends_post spends_get_str : spends.

(** Guest memory *)
Lemma spends_arg q esp off : spends q 0 (arg esp off).
Proof. spend_call. Qed.
#[local] Hint Resolve spends_arg : spends.
Lemma spends_arg_i32 q esp off : spends q 0 (arg_i32 esp off).
Proof. spend_call. Qed.
Lemma spends_peek q n p off : spends q 0 (peek n p off).
Proof. spend_call. Qed.
Lemma spends_put q n p off v : spends q 0 (put n p off v).
Proof. spend_call. Qed.
#[local] Hint Resolve spends_arg_i32 spends_peek spends_put : spends.
Lemma spends_put_i32 q p off v : spends q 0 (put_i32 p off v).
Proof. spend_call. Qed.
Lemma spends_put_bytes q p data : spends q 0 (put_bytes p data).
Proof. spend_call. Qed.
Lemma spends_optional q ptr d : spends q 0 (optional_str enc_decode ptr d).
Proof. spend_call. Qed.
#[local] Hint Resolve spends_put_i32 spends_put_bytes spends_optional : spends.
Lemma spends_text_out q t cch buf : spends q 0 (text_out enc_encode t cch buf).
Proof. spend_call. Qed.
Lemma spends_window_proc q hwnd : spends q 0 (window_proc hwnd).
Proof. spend_call. Qed.
Lemma spends_post_to q hmq msg : spends q 0 (post_to hmq msg).
Proof. spend_call. Qed.
Lemma spends_write_msg q p msg : spends q 0 (write_msg p msg).
Proof. spend_call. Qed.
#[local] Hint Resolve spends_text_out spends_window_proc spends_post_to spends_write_msg : spends.

(** The built-in controls *)
Lemma spends_info q hwnd : spends q 0 (control_info hwnd).
Proof. spend_call. Qed.
Lemma spends_paint q hwnd k : spends q 0 (paint hwnd k).
Proof. spend_call. Qed.
#[local] Hint Resolve spends_info spends_paint : spends.
Lemma spends_repaint q hwnd : spends q 0 (repaint hwnd).
Proof. spend_call. Qed.
Lemma spends_open_menu q hwnd n : spends q 0 (open_menu hwnd n).
Proof. spend_call. Qed.
Lemma spends_close_menu q hwnd : spends q 0 (close_menu hwnd).
Proof. spend_call. Qed.
Lemma spends_menu_command q par c : spends q 0 (menu_command order par c).
Proof. spend_call. Qed.
#[local] Hint Resolve spends_repaint spends_open_menu spends_close_menu spends_menu_command : spends.
Lemma spends_click_menu q hwnd k mp1 : spends q 0 (click_menu order hwnd k mp1).
Proof. spend_call. Qed.
Lemma spends_click_dialog q hwnd mp1 : spends q 0 (click_dialog order hwnd mp1).
Proof. spend_call. Qed.
Lemma spends_insert_item q hwnd mp1 mp2 : spends q 0 (insert_item enc_decode hwnd mp1 mp2).
Proof. spend_call. Qed.
#[local] Hint Resolve spends_click_menu spends_click_dialog spends_insert_item : spends.
Lemma spends_builtin q hwnd msg mp1 mp2 : spends q 0 (dispatch_builtin_control order enc_decode hwnd msg mp1 mp2).
Proof. spend_call. Qed.
#[local] Hint Resolve spends_builtin : spends.
Lemma spends_deliver q hwnd msg mp1 mp2 : spends q 0 (deliver order enc_decode hwnd msg mp1 mp2).
Proof. spend_call. Qed.
#[local] Hint Resolve spends_deliver : spends.

(** * Calls that change the windows or the queues *)

Lemma spends_ps q hwnd : spends q 0 (on_wm (create_ps hwnd)).
Proof.
  apply spends_on. intros m a m' H. unfold create_ps in H. apply bind_Ok_inv in H as (? & _ & [= <- <-]). by split_and!.
Qed.
Lemma spends_accel q entries : spends q 0 (on_wm (add_accel_table entries)).
Proof.
  apply spends_on. intros m a m' H. unfold add_accel_table in H. apply bind_Ok_inv in H as (? & _ & [= <- <-]).
  by split_and!.
Qed.
Lemma spends_accel_entries q n a size i : spends q 0 (accel_entries n a size i).
Proof. revert i. induction n as [|n IH]; intros i; cbn [accel_entries]; spend; apply IH. Qed.
Lemma spends_copy q n src dst i : spends q 0 (copy_bytes n src dst i).
Proof. revert i. induction n as [|n IH]; intros i; cbn [copy_bytes]; spend; apply IH. Qed.
Lemma spends_clear q p : spends q 0 (clear_buffer p).
Proof. spend_call. Qed.
#[local] Hint Resolve spends_ps spends_accel spends_accel_entries spends_copy spends_clear : spends.
Lemma spends_find_string q n a size i cch buf off : spends q 0 (find_string n a size i cch buf off).
Proof.
  revert i off. induction n as [|n IH]; intros i off; cbn [find_string]; spend; apply IH.
Qed.
#[local] Hint Resolve spends_find_string : spends.

(** A new queue for the thread. *)
Lemma spends_create_queue q v : spends q 1 (WinCreateMsgQueue v).
Proof.
  intros n s r s' Hs Hr Hn Hq H. unfold WinCreateMsgQueue in H.
  apply gui_bind_inv in H as (hmq0 & s1 & H & (? & s2 & [= <- <-] & [= <- <-])%gui_bind_inv).
  unfold on_wm in H. apply bind_Ok_inv in H as ([h w] & Hc & H). injection H as -> <-. cbn.
  unfold create_mq in Hc. apply bind_Ok_inv in Hc as (next & Hu & Hc). injection Hc as <- <-.
  assert (next = next_hmq (wm s) + 1 ∧ next < M32 ∧ (overflow_checks = true ∨ next_hwnd (wm s) + n < M32 ∧ next + n < M32))
    as (-> & Hlt & Hroom).
  { unfold uadd, overflowing in Hu. destruct (Z.ltb_spec (next_hmq (wm s) + 1) M32).
    - injection Hu as <-. split_and!; [done..|]. destruct Hr as [|[? ?]]; [by left|right; lia].
    - destruct Hr as [Hc|[? ?]]; [by rewrite Hc in Hu|lia]. }
  set (hmq := next_hmq (wm s)) in *.
  assert (Hq' : ∀ q', is_Some ((<[hmq := []]> (msg_queues (wm s)) : gmap Z (list OS2Message)) !! q') ↔
    q' = hmq ∨ is_Some (msg_queues (wm s) !! q')) by (intros; rewrite lookup_insert_is_Some'; naive_solver).
  split_and!; [|done|split; [done|intros q' ?; cbn; apply Hq'; by right]].
  destruct Hs. split; cbn; try done; try lia.
  - intros q' [->|Hin]%Hq'; [lia|]. specialize (ok_queue0 _ Hin). lia.
  - intros t q' Ht. apply Hq'. apply lookup_insert_Some in Ht as [[_ <-]|[_ Ht]]; [by left|right]. by eapply ok_tid0.
  - intros h w Hw. destruct (ok_window_queue0 _ _ Hw); [by left|right; apply Hq'; by right].
Qed.
(** A message is taken from a queue. *)
Lemma take_message q hmq msg rest {A} (g : gui A) n s a s' :
  spends q 0 g → wm_ok [] (wm s) → room (n + 0) (wm s) → 0 ≤ n → is_queue q (wm s) →
  get_mq (wm s) hmq = Some (msg :: rest) →
  (in_wm (λ m, with_queues (<[hmq := rest]> (msg_queues m)) (next_hmq m) m) ≫= λ _, g) s = Ok (a, s') →
  wm_ok [] (wm s') ∧ room n (wm s') ∧ grows (wm s) (wm s').
Proof.
  unfold get_mq. intros Hg Hs Hr Hn Hq Hmq ([] & s1 & [= <-] & H)%gui_bind_inv.
  destruct (queues_ok [] (wm s) (<[hmq := rest]> (msg_queues (wm s)))) as [Hs1 Hgr]; [|done|].
  { intros q'. rewrite lookup_insert_is_Some'. split; [|auto]. intros [->|?]; [by rewrite Hmq|done]. }
  eapply (spends_from q 0); [exact Hg|exact H|done..].
Qed.
Lemma spends_get_msg q esp v : spends q 0 (WinGetMsg esp v []).
Proof.
  unfold WinGetMsg. do 5 (apply spends_then; [lia|auto with spends|intros]). apply spends_own. intros hmq.
  apply spends_then; [lia|auto with spends|intros m0]. destruct (get_mq m0 hmq); [|auto with spends].
  cbn [get_msg_loop]. apply spends_then; [lia|auto with spends|intros quit]. destruct quit; [auto with spends|].
  intros n s r s' Hs Hr Hn Hq. rewrite run_ask.
  destruct (get_mq (wm s) hmq) as [[|msg rest]|] eqn:Hmq; try done.
  eapply (take_message hmq); try done. spend.
Qed.
(** The loop of a modal dialog. *)
Lemma spends_dlg_loop q fuel hwnd hmq : spends q 0 (dlg_loop order enc_decode fuel [] hwnd hmq).
Proof.
  induction fuel as [|fuel IH]; cbn [dlg_loop]; [auto with spends|].
  intros n s r s' Hs Hr Hn Hq. rewrite run_ask. destruct (get_window (wm s) hwnd) as [w|]; [|by eapply (spends_ret q)].
  destruct (dialog_dismissed w); [by eapply (spends_ret q)|]. rewrite run_ask.
  destruct (shutting_down s); [by eapply (spends_ret q)|].
  destruct (get_mq (wm s) hmq) as [[|msg rest]|] eqn:Hmq; try done.
  eapply (take_message q); try done. spend.
Qed.
Lemma spends_dlg_next q fuel hwnd hmq : spends q 0 (dlg_next order enc_decode fuel [] hwnd hmq).
Proof.
  unfold dlg_next. apply spends_then; [lia|auto with spends|intros m]. destruct (get_mq m hmq); [|auto with spends].
  apply spends_dlg_loop.
Qed.
Lemma spends_destroy q esp : spends q 0 (WinDestroyWindow esp).
Proof.
  unfold WinDestroyWindow. apply spends_then; [lia|auto with spends|intros hwnd].
  apply spends_then; [lia|auto with spends|intros m0]. apply spends_then; [lia| |intros; auto with spends].
  destruct (is_frame m0 hwnd); [|auto with spends]. intros n s r s' Hs Hr Hn Hq H.
  apply gui_bind_inv in H as ([] & s1 & [= <-] & H). apply gui_bind_inv in H as ([] & s2 & [= <-] & H).
  destruct (removed_ok [] hwnd (wm s) Hs) as [Hs1 Hg1].
  eapply (spends_from q 0); [apply spends_send|exact H|exact (destroyed_ok hwnd (z_remove hwnd (wm s)) Hs1)| |done..|exact Hg1].
  unfold room, z_remove. cbn. by case_match.
Qed.
Lemma spends_set_active q esp : spends q 0 (WinSetActiveWindow order esp).
Proof.
  unfold WinSetActiveWindow. do 2 (apply spends_then; [lia|auto with spends|intros ?]).
  intros n s r s' Hs Hr Hn Hq. rewrite run_ask. cbv zeta. set (frame := if is_frame _ (client_to_frame _ _ _) then _ else _).
  destruct (is_frame (wm s) frame) eqn:Hf; [|intros H; by eapply (spends_ret q)].
  intros H. apply gui_bind_inv in H as ([] & s1 & [= <-] & H). apply gui_bind_inv in H as ([] & s2 & [= <-] & H).
  destruct (activate_ok [] frame (wm s) Hs (frame_window _ _ Hs Hf)) as (Hs2 & Hgr & E1 & E2 & _).
  eapply (spends_from q 0); [|exact H|done| |done..|done]; [spend|].
  unfold room in *. cbn [wm]. rewrite E1, E2. exact Hr.
Qed.

(** A standard window: the frame and its client are made, tied and put on top. *)
Lemma framed_ok m f c v :
  wm_ok [] m → windows m !! c = Some v → parent v = f → wm_ok [f] (with_frames (<[f := c]> (frame_to_client m)) m).
Proof.
  intros Hm Hv Hp. destruct Hm. split; cbn; try done.
  - intros g d Hd. apply lookup_insert_Some in Hd as [[<- <-]|[_ Hd]]; [by exists v|by apply ok_frame0].
  - intros g Hg. rewrite lookup_insert_is_Some' in Hg. destruct Hg as [<-|Hg]; [right; left; set_solver|].
    destruct (ok_shown0 g Hg) as [|[Hin%elem_of_nil|]]; [by left|done|by right; right].
Qed.
Lemma shown_ok f m : wm_ok [f] m → f ∈ z_order m → wm_ok [] m.
Proof.
  intros Hm Hf. destruct Hm. split; try done. intros g Hg.
  destruct (ok_shown0 g Hg) as [|[->%list_elem_of_singleton|]]; auto.
Qed.
Lemma std_frame_ok n m class par q h w c w2 f1 f2 :
  wm_ok [] m → room (n + 2) m → 0 ≤ n → is_queue q m →
  create_window class par q m = Ok (h, w) → create_window class h q w = Ok (c, w2) →
  keeps_core f1 → keeps_core f2 →
  let m' := with_focus h (z_push_top h (update_window c f2 (update_window h f1
              (with_frames (<[h := c]> (frame_to_client w2)) w2)))) in
  wm_ok [] m' ∧ room n m' ∧ grows m m'.
Proof.
  intros Hm Hr Hn Hq H1 H2 Hf1 Hf2. cbv zeta.
  destruct (create_ok [] class par q m h w (n + 1)) as (Hw & Hr1 & Hg1 & u & Hu & _); try done;
    [by replace (n + 1 + 1) with (n + 2) by lia|lia|].
  destruct (create_ok [] class h q w c w2 n) as (Hw2 & Hr2 & Hg2 & v & Hv & Hpar); try done; [by eapply is_queue_grows|].
  pose proof (framed_ok w2 h c v Hw2 Hv Hpar) as H3. set (w3 := with_frames _ w2) in *.
  destruct (neutral_update [h] h f1 Hf1 w3 H3) as (H4 & Hg4 & E1 & E2). set (w4 := update_window h f1 w3) in *.
  destruct (neutral_update [h] c f2 Hf2 w4 H4) as (H5 & Hg5 & E3 & E4). set (w5 := update_window c f2 w4) in *.
  assert (is_Some (windows w5 !! h)) as Hh.
  { apply (proj1 Hg5), (proj1 Hg4). apply (proj1 Hg2). by eexists. }
  destruct (puts_ok [h] (z_push_top h) h w5 (push_top_puts h) H5 Hh) as (H6 & Hg6 & E5 & E6).
  assert (h ∈ z_order (z_push_top h w5)) as Hin by (cbn; case_bool_decide; set_solver).
  split_and!.
  - apply focus_ok; [by apply (shown_ok h)|done].
  - unfold room in *. cbn -[z_push_top]. rewrite E5, E6, E3, E4, E1, E2. exact Hr2.
  - apply (grows_trans _ w _ Hg1), (grows_trans _ w2 _ Hg2), (grows_trans _ w4 _ Hg4), (grows_trans _ w5 _ Hg5), Hg6.
Qed.
Lemma spends_std q esp v : spends q 2 (WinCreateStdWindow enc_decode esp v).
Proof.
  unfold WinCreateStdWindow. do 9 (apply spends_then; [lia|auto with spends|intros ?]).
  do 3 (apply spends_then; [lia|spend|intros ?]). apply spends_own. intros hmq n s r s' Hs Hr Hn Hq H.
  apply gui_bind_inv in H as (h & s1 & H1 & H). apply bind_Ok_inv in H1 as ([h' w] & Hc1 & H1). injection H1 as -> <-.
  apply gui_bind_inv in H as (c & s2 & H2 & H). apply bind_Ok_inv in H2 as ([c' w2] & Hc2 & H2). injection H2 as -> <-.
  do 3 apply gui_bind_inv in H as ([] & ? & [= <-] & H). cbv zeta in H.
  do 2 apply gui_bind_inv in H as ([] & ? & [= <-] & H). cbn [wm] in H.
  match type of H with context [with_focus _ (z_push_top _ (update_window _ ?g2 (update_window _ ?g1 _)))] =>
    destruct (std_frame_ok n (wm s) _ _ _ h w c w2 g1 g2 Hs Hr Hn Hq Hc1 Hc2) as (? & ? & ?); [done..|] end.
  eapply (spends_from hmq 0); [|exact H|done| |done..]; [spend|by rewrite Z.add_0_r].
Qed.

(** Calls that make one window. *)
Lemma spends_menu_template q a size : spends q 0 (menu_template a size).
Proof. spend_call. Qed.
Lemma spends_find_resource q t i : spends q 0 (find_resource t i).
Proof. spend_call. Qed.
Lemma spends_dismiss q hwnd r : spends q 0 (dismiss hwnd r).
Proof. spend_call. Qed.
#[local] Hint Resolve spends_menu_template spends_find_resource spends_dismiss : spends.
Lemma spends_create_menu q esp : spends q 1 (WinCreateMenu esp).
Proof.
  unfold WinCreateMenu. do 2 (apply spends_then; [lia|auto with spends|intros ?]).
  apply spends_then; [lia|spend|intros ?]. apply spends_first; [auto with spends|intros ?]. spend.
Qed.
Lemma spends_load_menu q esp : spends q 1 (WinLoadMenu order esp).
Proof.
  unfold WinLoadMenu. do 4 (apply spends_then; [lia|auto with spends|intros ?]).
  apply spends_then; [lia|spend|intros ?]. apply spends_then; [lia|auto with spends|intros ?].
  destruct (from_option _ _ _). apply spends_first; [auto with spends|intros ?]. spend.
Qed.
Lemma spends_create_window_call q esp v : spends q 1 (WinCreateWindow enc_decode esp v).
Proof.
  unfold WinCreateWindow. do 9 (apply spends_then; [lia|auto with spends|intros ?]).
  do 2 (apply spends_then; [lia|spend|intros ?]). apply spends_own. intros hmq.
  apply spends_first; [auto with spends|intros ?]. spend.
Qed.

(** * Dialogs *)

Lemma dlg_items_length left m base size items_end off l :
  dlg_items left m base size items_end off = Ok l → (length l ≤ left)%nat.
Proof.
  revert off l. induction left as [|left IH]; intros off l; cbn [dlg_items]; [by intros [= <-]|].
  intros (? & _ & H)%bind_Ok_inv. destruct (_ <? _); [injection H as <-; simpl; lia|].
  do 11 (apply bind_Ok_inv in H as (? & _ & H)). apply bind_Ok_inv in H as (items & Hi & [= <-]).
  apply IH in Hi. simpl. lia.
Qed.
Lemma template_items m base size t :
  mem_wf m → parse_dlg_template m base size = Ok (Some t) → len (t_items t) < M16.
Proof.
  intros Hm. unfold parse_dlg_template. destruct (_ <? _); [done|]. intros (c & Hc & H)%bind_Ok_inv.
  do 6 (apply bind_Ok_inv in H as (? & _ & H)). apply bind_Ok_inv in H as (items & Hi & [= <-]). cbn.
  apply dlg_items_length in Hi. unfold rd16 in Hc. apply bind_Ok_inv in Hc as (a & _ & [= <-]).
  unfold len. destruct (read16 m a) as [num|] eqn:Hx; cbn in Hi; [|lia].
  apply (read_range 2 _ _ _ Hm) in Hx. change (256 ^ Z.of_nat 2) with M16 in Hx. lia.
Qed.
Lemma create_items_ok dlg q items n w w' :
  wm_ok [] w → room (n + len items) w → 0 ≤ n → is_queue q w → create_items dlg q items w = Ok w' →
  wm_ok [] w' ∧ room n w' ∧ grows w w'.
Proof.
  revert w. induction items as [|i items IH]; intros w Hw Hr Hn Hq; cbn [create_items].
  { intros [= <-]. split_and!; [done| |done]. eapply room_le, Hr. unfold len. simpl. lia. }
  rewrite len_cons in Hr. pose proof (len_nonneg items) as Hlen. cbv zeta. intros ([ch w1] & Hc & H)%bind_Ok_inv.
  destruct (create_ok [] _ _ _ _ _ _ (n + len items) Hw ltac:(by replace (n + len items + 1) with (n + (1 + len items)) by lia)
    ltac:(lia) Hq Hc) as (Hw1 & Hr1 & Hg1 & _).
  match type of H with create_items _ _ _ (update_window _ ?f _) = _ =>
    destruct (neutral_update [] ch f (λ _, conj eq_refl (λ d, d)) w1 Hw1) as (Hw2 & Hg2 & E1 & E2) end.
  apply IH in H as (? & ? & Hg3); [|done|unfold room in *; by rewrite E1, E2|done|].
  - split_and!; [done..|]. eapply grows_trans; [exact Hg1|]. by eapply grows_trans.
  - eapply is_queue_grows; [|exact Hg2]. by eapply is_queue_grows.
Qed.
Lemma create_dialog_ok par pfn v t n m h q m' :
  wm_ok [] m → room (n + (len (t_items t) + 1)) m → 0 ≤ n →
  create_dialog_from_template par pfn v t m = Ok (h, q, m') → wm_ok [] m' ∧ room n m' ∧ grows m m'.
Proof.
  intros Hm Hr Hn. unfold create_dialog_from_template. set (hmq := default 0 (tid_to_hmq m !! v)).
  assert (is_queue hmq m) as Hq.
  { subst hmq. destruct (tid_to_hmq m !! v) as [x|] eqn:Hx; [right|by left]. by eapply (ok_tid _ _ Hm). }
  pose proof (len_nonneg (t_items t)) as Hlen. intros ([h' w] & Hc & H)%bind_Ok_inv.
  apply bind_Ok_inv in H as (w' & Hi & [= <- <- <-]).
  destruct (create_ok [] _ _ _ _ _ _ (n + len (t_items t)) Hm ltac:(by rewrite <- Z.add_assoc) ltac:(lia) Hq Hc)
    as (Hw1 & Hr1 & Hg1 & u & Hu & _).
  match type of Hi with create_items _ _ _ (z_push_top _ (update_window _ ?f _)) = _ =>
    destruct (neutral_update [] h' f (λ _, conj eq_refl (λ d, d)) w Hw1) as (Hw2 & Hg2 & E1 & E2); set (w2 := update_window h' f w) in * end.
  destruct (puts_ok [] (z_push_top h') h' w2 (push_top_puts h') Hw2) as (Hw3 & Hg3 & E3 & E4).
  { apply (proj1 Hg2). by eexists. }
  assert (grows m (z_push_top h' w2)) as Hg by (eapply grows_trans; [exact Hg1|]; by eapply grows_trans).
  apply (create_items_ok _ _ _ n) in Hi as (? & ? & Hg4); [|done| |done|by eapply is_queue_grows].
  - split_and!; [done..|by eapply grows_trans].
  - unfold room in *. by rewrite E3, E4, E1, E2.
Qed.
Lemma spends_bare q par pfn v : spends q 1 (bare_dialog v par pfn).
Proof. unfold bare_dialog. apply spends_own. intros hmq. apply spends_first; [auto with spends|intros ?]. spend. Qed.
(** A dialog box has fewer than 65536 controls. *)
Lemma load_dialog_ok q par pfn id params v n s r s' :
  mem_wf (mem s) → wm_ok [] (wm s) → room (n + M16) (wm s) → 0 ≤ n → is_queue q (wm s) →
  load_dialog v par pfn id params s = Ok (r, s') → wm_ok [] (wm s') ∧ room n (wm s') ∧ grows (wm s) (wm s').
Proof.
  intros Hmem Hs Hr Hn Hq H. unfold load_dialog in H. unfold find_resource in H. rewrite run_ask in H.
  apply gui_bind_inv in H as ([h hmq] & s1 & H1 & H).
  assert (wm_ok [] (wm s1) ∧ room n (wm s1) ∧ grows (wm s) (wm s1)) as (Hs1 & Hr1 & Hg1).
  { assert (room (n + 1) (wm s)) by (eapply room_le, Hr; lia).
    destruct (Managers.resource_find _ _ _) as [[a size]|]; [|by eapply (spends_bare q) in H1].
    rewrite run_ask in H1. apply gui_bind_inv in H1 as (t & s2 & Ht & H1).
    unfold pure in Ht. apply bind_Ok_inv in Ht as (t' & Ht & [= <- <-]).
    destruct t' as [t'|]; [|by eapply (spends_bare q) in H1].
    apply bind_Ok_inv in H1 as ([[h1 q1] w] & Hd & [= <- <- <-]). cbn.
    apply template_items in Ht; [|done]. eapply create_dialog_ok; [exact Hs| |done|exact Hd]. eapply room_le, Hr. lia. }
  eapply (spends_from q 0); [|exact H|done|by rewrite Z.add_0_r|done..]. spend.
Qed.
Lemma arg_inv esp off s v s' : arg esp off s = Ok (v, s') → s' = s.
Proof.
  unfold arg. rewrite run_ask. unfold pure. intros (? & _ & [= _ <-])%bind_Ok_inv. done.
Qed.
Lemma dialog_call_ok v esp n s r s' (box : bool) :
  mem_wf (mem s) → wm_ok [] (wm s) → room (n + M16) (wm s) → 0 ≤ n →
  (if box then WinDlgBox esp v else WinLoadDlg esp v) s = Ok (r, s') →
  wm_ok [] (wm s') ∧ room n (wm s') ∧ grows (wm s) (wm s').
Proof.
  intros Hmem Hs Hr Hn H. assert (is_queue 0 (wm s)) as Hq by (by left).
  assert (wm_ok [] (wm s) ∧ room n (wm s) ∧ grows (wm s) (wm s)) as Hid.
  { split_and!; [done| |done]. eapply room_le, Hr. lia. }
  destruct box; [unfold WinDlgBox in H|unfold WinLoadDlg in H];
    do 6 (apply gui_bind_inv in H as (? & ? & ->%arg_inv & H)).
  - destruct (_ =? 0); [injection H as _ <-; exact Hid|]. apply gui_bind_inv in H as ([h q] & s1 & H & [= _ <-]).
    by eapply load_dialog_ok.
  - apply gui_bind_inv in H as ([h q] & s1 & H & [= _ <-]). by eapply load_dialog_ok.
Qed.

(** * Every call *)

Lemma spends_post_quit q hwnd : spends q 0 (post_wm_quit order hwnd).
Proof. spend_call. Qed.
Lemma spends_default_click q hwnd msg mp1 : spends q 0 (default_click order enc_decode hwnd msg mp1).
Proof. spend_call. Qed.
Lemma spends_restack q (b : bool) h behind : spends q 0 (in_wm (λ m, if b && is_frame m h then restack h behind m else m)).
Proof. apply spends_wm. destruct b; [apply neutral_restack|]. by apply neutral_same. Qed.
Lemma spends_activate q (b : bool) h :
  spends q 0 (in_wm (λ m, if b && is_frame m h then z_push_top h (with_focus h m) else m)).
Proof. apply spends_wm. destruct b; [apply neutral_activate|]. by apply neutral_same. Qed.
#[local] Hint Resolve spends_post_quit spends_default_click spends_restack spends_activate : spends.

Lemma call_ok (answer : rstring → rstring → Z → option Z) esp v ordinal n s r s' :
  mem_wf (mem s) → wm_ok [] (wm s) → room (n + M16) (wm s) → 0 ≤ n →
  handle_pmwin_call order enc_decode enc_encode esp v [] answer ordinal s = Ok (r, s') →
  wm_ok [] (wm s') ∧ room n (wm s') ∧ grows (wm s) (wm s').
Proof.
  intros Hmem Hs Hr Hn H. assert (is_queue 0 (wm s)) as Hq by (by left).
  assert (Hgo : ∀ k (g : gui ApiResult), k ≤ M16 → spends 0 k g → g s = Ok (r, s') →
    wm_ok [] (wm s') ∧ room n (wm s') ∧ grows (wm s) (wm s')).
  { intros k g Hk Hg Hrun. eapply Hg; try done. eapply room_le, Hr. lia. }
  pose proof (λ b, dialog_call_ok v esp n s r s' b Hmem Hs Hr Hn) as Hdlg.
  clear Hmem Hs Hr Hn Hq. unfold handle_pmwin_call in H.
  repeat match type of H with context [match ?p with _ => _ end] => destruct p end;
    lazymatch type of H with
    | mret _ _ = _ => exact (Hgo 0 _ ltac:(lia) (spends_ret 0 _) H)
    | WinDlgBox _ _ _ = _ => exact (Hdlg true H)
    | WinLoadDlg _ _ _ = _ => exact (Hdlg false H)
    | WinCreateStdWindow _ _ _ _ = _ => exact (Hgo 2 _ ltac:(lia) (spends_std 0 _ _) H)
    | WinCreateMsgQueue _ _ = _ => exact (Hgo 1 _ ltac:(lia) (spends_create_queue 0 _) H)
    | WinCreateMenu _ _ = _ => exact (Hgo 1 _ ltac:(lia) (spends_create_menu 0 _) H)
    | WinLoadMenu _ _ _ = _ => exact (Hgo 1 _ ltac:(lia) (spends_load_menu 0 _) H)
    | WinCreateWindow _ _ _ _ = _ => exact (Hgo 1 _ ltac:(lia) (spends_create_window_call 0 _ _) H)
    | WinGetMsg _ _ _ _ = _ => exact (Hgo 0 _ ltac:(lia) (spends_get_msg 0 _ _) H)
    | WinDestroyWindow _ _ = _ => exact (Hgo 0 _ ltac:(lia) (spends_destroy 0 _) H)
    | WinSetActiveWindow _ _ _ = _ => exact (Hgo 0 _ ltac:(lia) (spends_set_active 0 _) H)
    | ?g _ = _ => refine (Hgo 0 g ltac:(lia) _ H); clear; spend_call
    end.
Qed.
(** The drawing calls *)
Lemma spends_chars q n pch i : spends q 0 (chars n pch i).
Proof. revert i. induction n; intros i; cbn [chars]; spend. Qed.
#[local] Hint Resolve spends_chars : spends.
Lemma spends_decoded q count pch : spends q 0 (decoded enc_decode count pch).
Proof. spend_call. Qed.
Lemma spends_point q p : spends q 0 (point p).
Proof. spend_call. Qed.
Lemma spends_put_point q p off pt : spends q 0 (put_point p off pt).
Proof. spend_call. Qed.
Lemma spends_update_ps q hps f : spends q 0 (update_ps hps f).
Proof. spend_call. Qed.
Lemma spends_get_ps q hps : spends q 0 (get_ps hps).
Proof. spend_call. Qed.
Lemma spends_frame_of q hwnd : spends q 0 (frame_of order hwnd).
Proof. spend_call. Qed.
#[local] Hint Resolve spends_ps spends_decoded spends_point spends_put_point spends_update_ps spends_get_ps spends_frame_of : spends.
Lemma spends_put_points q aptl i l : spends q 0 (put_points aptl i l).
Proof. revert i. induction l; intros i; cbn [put_points]; spend. Qed.
Lemma spends_write_num q addr cb f : spends q 0 (write_num addr cb f).
Proof. spend_call. Qed.
Lemma spends_write_str q addr cb off t max : spends q 0 (PmGpi.write_str addr cb off t max).
Proof. spend_call. Qed.
#[local] Hint Resolve spends_put_points spends_write_num spends_write_str : spends.
Lemma spends_write_nums q addr cb l : spends q 0 (write_nums addr cb l).
Proof. induction l; cbn [write_nums]; spend. Qed.
#[local] Hint Resolve spends_write_nums : spends.
Lemma spends_metrics q addr cb : spends q 0 (write_font_metrics addr cb).
Proof. spend_call. Qed.
Lemma spends_set_field q esp f : spends q 0 (set_field esp f).
Proof. spend_call. Qed.
Lemma spends_draw_text q hps count t o : spends q 0 (draw_text order hps count t o).
Proof. spend_call. Qed.
#[local] Hint Resolve spends_metrics spends_set_field spends_draw_text : spends.
Lemma spends_gpi q esp ordinal : spends q 0 (handle_pmgpi_call order enc_decode esp ordinal).
Proof.
  unfold handle_pmgpi_call.
  repeat match goal with |- context [match ?p with _ => _ end] => destruct p end; spend_call.
Qed.
End calls.

(** * Runs

    A step is a window or drawing call of any thread, the way of its result into guest code, the return of a window or
    dialog procedure, the turn of a timer thread, or anything that happens outside of the window
    manager: guest code runs, resources are loaded, the codepage changes, the program is told to end.
    A wait for a message is a step when it finds one or the program ends.  Calls are made while 65536
    handles of windows and queues are left, or in a build that checks arithmetic. *)
Section runs.
Context {B : Build}.
Context (order : gmap Z Z → list (Z * Z)).
Context (enc_decode : Encoding → bytes → rstring) (enc_encode : Encoding → rstring → bytes).

Inductive pm_step : Pm → Pm → Prop :=
| step_call answer esp vcpu ordinal s r s' :
    mem_wf (mem s) → room M16 (wm s) →
    handle_pmwin_call order enc_decode enc_encode esp vcpu [] answer ordinal s = Ok (r, s') → pm_step s s'
| step_draw esp ordinal s r s' : handle_pmgpi_call order enc_decode esp ordinal s = Ok (r, s') → pm_step s s'
| step_result fuel r v v' : api_result order enc_decode fuel [] r v = Ok v' → pm_step (pm v) (pm v')
| step_return fuel v v' : procedure_returned order enc_decode fuel [] v = Ok (Some v') → pm_step (pm v) (pm v')
| step_timer hwnd id s s' : timer_fires order hwnd id s = Ok (tt, s') → pm_step s s'
| step_outside s m res cp ending : pm_step s (mk_pm (wm s) m res cp ending).
(** The window manager of a program that starts, with the channel to its GUI thread. *)
Definition starts (s : Pm) : Prop := ∃ gui, wm s = with_gui gui wm_new.

Lemma start_ok s : starts s → wm_ok [] (wm s).
Proof.
  intros [gui ->]. split; cbn; try done; try (by intros ? ? ?%lookup_empty_Some); try (by intros ? [? ?%lookup_empty_Some]).
  - constructor.
  - by intros h Hh%elem_of_nil.
  - by left.
Qed.
(** Entering and leaving guest code. *)
Lemma keeps_ok {A} (g : gui A) s a s' :
  (∀ q, spends q 0 g) → wm_ok [] (wm s) → g s = Ok (a, s') → wm_ok [] (wm s') ∧ grows (wm s) (wm s').
Proof.
  intros Hg Hs H. destruct (Hg 0 0 s a s') as (? & _ & ?); try done.
  - right. pose proof (ok_next _ _ Hs). pose proof (ok_next_mq _ _ Hs). lia.
  - by left.
Qed.
Lemma enter_proc_wm f proc hwnd msg mp1 mp2 v v' : enter_proc f proc hwnd msg mp1 mp2 v = Ok v' → wm (pm v') = wm (pm v).
Proof.
  unfold enter_proc. intros H. do 6 (apply bind_Ok_inv in H as (? & _ & H)). by injection H as <-.
Qed.
Lemma dlg_dispatch_ok fuel proc hwnd hmq ip sp v v' :
  setup_dlg_dispatch order enc_decode fuel [] proc hwnd hmq ip sp v = Ok v' → wm_ok [] (wm (pm v)) →
  wm_ok [] (wm (pm v')) ∧ grows (wm (pm v)) (wm (pm v')).
Proof.
  unfold setup_dlg_dispatch. intros ([step s] & Hn & H)%bind_Ok_inv Hs.
  apply keeps_ok in Hn as [? ?]; [|intros q; apply spends_dlg_next|done].
  destruct step as [result|msg]; [by injection H as <-|]. apply enter_proc_wm in H. by rewrite H.
Qed.
Lemma result_ok fuel r v v' : api_result order enc_decode fuel [] r v = Ok v' → wm_ok [] (wm (pm v)) →
  wm_ok [] (wm (pm v')) ∧ grows (wm (pm v)) (wm (pm v')).
Proof.
  unfold api_result. intros (addr & _ & (sp & _ & H)%bind_Ok_inv)%bind_Ok_inv Hs.
  destruct r; try done; [by injection H as <-|apply enter_proc_wm in H; by rewrite H..|by eapply dlg_dispatch_ok].
Qed.
Lemma return_ok fuel v v' : procedure_returned order enc_decode fuel [] v = Ok (Some v') → wm_ok [] (wm (pm v)) →
  wm_ok [] (wm (pm v')) ∧ grows (wm (pm v)) (wm (pm v')).
Proof.
  unfold procedure_returned. destruct (frames v) as [|f rest]; [done|]. intros H Hs. cbv zeta in H.
  destruct (kind f) as [|h|proc hwnd hmq]; [by injection H as <-..|].
  assert (∀ x : outcome () Vp, Some <$> x = Ok (Some v') → x = Ok v') as Hf by (intros [a| | |]; cbn; congruence).
  destruct (get_window _ hwnd) as [w|] eqn:Hw; [|by apply Hf, dlg_dispatch_ok in H].
  destruct (dialog_dismissed w) eqn:Hd; [|by apply Hf, dlg_dispatch_ok in H].
  apply bind_Ok_inv in H as ([[] s] & H & [= <-]). apply gui_bind_inv in H as ([] & s1 & [= <-] & H).
  destruct (removed_ok [] hwnd (wm (pm v)) Hs) as [Hok Hg].
  apply keeps_ok in H as [? ?]; [|intros q; apply spends_send|].
  - split; [done|]. by eapply grows_trans.
  - apply (ended_ok hwnd); [done|]. exists w. split; [|done]. cbn. case_match; exact Hw.
Qed.
Lemma step_ok s s' : pm_step s s' → wm_ok [] (wm s) → wm_ok [] (wm s') ∧ grows (wm s) (wm s').
Proof.
  intros [answer esp vcpu ordinal s1 r s2 Hm Hr H|esp ordinal s1 r s2 H|fuel r v v' H|fuel v v' H|hwnd id s1 s2 H|s1 m res cp ending] Hs.
  - destruct (call_ok order enc_decode enc_encode answer esp vcpu ordinal 0 s1 r s2) as (? & _ & ?); done.
  - apply keeps_ok in H; [done| |done]. intros q. apply spends_gpi.
  - by eapply result_ok.
  - by eapply return_ok.
  - apply keeps_ok in H; [done| |done]. intros q. unfold timer_fires. apply spends_then; [lia|auto with spends|].
    intros m. case_bool_decide; [apply spends_post|auto with spends].
  - done.
Qed.
Lemma run_ok s s' : rtc pm_step s s' → wm_ok [] (wm s) → wm_ok [] (wm s') ∧ grows (wm s) (wm s').
Proof.
  induction 1 as [|s1 s2 s3 H12 _ IH]; intros Hs; [done|]. destruct (step_ok _ _ H12 Hs) as [Hs2 Hg].
  destruct (IH Hs2) as [? ?]. split; [done|by eapply grows_trans].
Qed.
End runs.

(** C23: whatever window and drawing calls the threads of a program make, in any order and with any arguments, the
    window manager stays consistent: handles are fresh, every window and queue keeps its handle for
    ever, the children of a window are different windows that name it as their parent, every frame
    has its client and, unless it was dismissed as a dialog, its place in the z-order, which holds
    existing windows once each, the focus is on one of them or nowhere, and the queues that threads
    and windows refer to exist. *)
Theorem windows_consistent {B : Build} order dec enc (s s' : Pm) :
  starts s → rtc (pm_step order dec enc) s s' →
  wm_ok [] (wm s') ∧ ∀ s'', rtc (pm_step order dec enc) s' s'' → grows (wm s') (wm s'').
Proof.
  intros Hs Hr. destruct (run_ok order dec enc s s' Hr (start_ok s Hs)) as [Hok _].
  split; [done|]. intros s'' Hr'. by apply (run_ok order dec enc s' s'').
Qed.

(** The frame of a client window is found whatever the order in which the hash map is searched,
    so that a program's painting is presented in its own frame; a window that is no client stands
    for itself. *)
Theorem client_has_one_frame {B : Build} order dec enc (s s' : Pm) (c : Z) :
  (∀ l, order l ≡ₚ map_to_list l) → starts s → rtc (pm_step order dec enc) s s' →
  (∀ f, frame_to_client (wm s') !! f = Some c → client_to_frame order (wm s') c = f) ∧
  ((∀ f, frame_to_client (wm s') !! f ≠ Some c) → client_to_frame order (wm s') c = c).
Proof.
  intros Hord Hs Hr. destruct (run_ok order dec enc s s' Hr (start_ok s Hs)) as [Hok _].
  assert (Hin : ∀ p, p ∈ order (frame_to_client (wm s')) ↔ frame_to_client (wm s') !! p.1 = Some p.2).
  { intros [f d]. by rewrite Hord, elem_of_map_to_list. }
  unfold client_to_frame. destruct (list_find _ _) as [[i [f d]]|] eqn:Hf.
  - apply list_find_Some in Hf as (Hi & Hd & _). cbn in Hd. subst d. apply list_elem_of_lookup_2, Hin in Hi. cbn in *.
    split; [|intros Hno; by destruct (Hno f)]. intros g Hg.
    destruct (ok_frame _ _ Hok _ _ Hi) as (v & Hv & <-), (ok_frame _ _ Hok _ _ Hg) as (v' & Hv' & <-). congruence.
  - split; [|done]. intros f Hfc. exfalso. apply list_find_None in Hf. rewrite Forall_forall in Hf.
    by apply (Hf (f, c)); [apply Hin|].
Qed.

(** * A run *)

(** Guest memory with the arguments of WinCreateStdWindow above 0x100 and the class name at 0x200. *)
Definition demo_start : Pm :=
  mk_pm wm_new (demo_words 0x104 [0; WS_VISIBLE; 0; 0x200; 0; 0; 0; 0; 0x300]
    (store_bytes (alloc 0x1000) 0x200 (str "Demo"))) Managers.resource_manager_new 437 false.
Definition demo_create (n : Z) (s : Pm) : Pm :=
  match @handle_pmwin_call dev_profile map_to_list (λ _ b, b) (λ _ t, t) 0x100 7 [] (λ _ _ _, None) n s with
  | Ok (_, s') => s' | _ => s
  end.
Lemma pm_demo_mem_wf : mem_wf (mem demo_start).
Proof.
  repeat apply store_bytes_wf; try (apply alloc_wf; lia); vm_compute; repeat constructor; vm_compute; done.
Qed.
Definition demo_step : Pm → Pm → Prop := @pm_step dev_profile map_to_list (λ _ b, b) (λ _ t, t).
Lemma demo_call n s : mem_wf (mem s) → demo_step s (demo_create n s).
Proof.
  intros Hm. unfold demo_create. destruct (handle_pmwin_call _ _ _ _ _ _ _ _ s) as [[r s']| | |] eqn:H;
    try (destruct s; apply step_outside).
  eapply (@step_call dev_profile); [exact Hm|by left|exact H].
Qed.
Lemma pm_demo_run : rtc demo_step demo_start (demo_create 908 (demo_create 716 demo_start)).
Proof.
  eapply rtc_l; [apply demo_call, pm_demo_mem_wf|]. apply rtc_once, demo_call.
  assert (mem (demo_create 716 demo_start) = mem demo_start) as -> by (vm_compute; reflexivity). exact pm_demo_mem_wf.
Qed.
Lemma windows_consistent_witness :
  let s := demo_create 908 (demo_create 716 demo_start) in
  z_order (wm s) = [0x1000] ∧ wm_ok [] (wm s).
Proof.
  split; [vm_compute; reflexivity|].
  refine (proj1 (@windows_consistent dev_profile _ _ _ demo_start _ _ pm_demo_run)). exists None. reflexivity.
Defined.
Lemma client_has_one_frame_witness :
  let s := demo_create 908 (demo_create 716 demo_start) in
  client_to_frame map_to_list (wm s) 0x1001 = 0x1000.
Proof.
  assert (∀ l : gmap Z Z, map_to_list l ≡ₚ map_to_list l) as Hord by done.
  assert (starts demo_start) as Hs by (exists None; reflexivity).
  refine (proj1 (@client_has_one_frame dev_profile map_to_list _ _ _ _ 0x1001 Hord Hs pm_demo_run) 0x1000 _).
  vm_compute. reflexivity.
Defined.

(** A window whose parent is itself, which a program makes by naming the handle that comes next,
    has no frame that a search would reach. *)
Lemma own_parent_loops {B : Build} m h w fuel :
  windows m !! h = Some w → parent w = h → h ≠ 0 → frame_to_client m !! h = None → find_frame_for_hwnd fuel m h = Diverge.
Proof.
  intros Hw Hp Hh Hf. induction fuel as [|fuel IH]; [done|]. cbn [find_frame_for_hwnd]. rewrite Hw, Hp.
  rewrite (proj2 (Z.eqb_neq h 0) Hh), Hf. rewrite bool_decide_false by (by intros [? ?]). exact IH.
Qed.
