(* ===== verification/Mci.v ===== *)
(** Multimedia (src/src/loader/mmpm.rs): the MCI devices, the commands and command strings on
    them, and the threads that watch a sound to its end.

    SDL's audio is a class of operations [AudioHost].  A call is a [prog]: the steps it takes one
    after the other, each of them what it does under one lock, one access to guest memory or one
    call of SDL; between two steps other threads go on.  Loading a file, which
    locks the drives for each of its accesses and no device, is one step.  An [AtomicBool] shared with a watcher is a
    cell of [flags]; a watcher thread is a state of its own, which [watcher_step] moves on by what
    it does under one lock.  The tone of DosBeep is floating-point arithmetic and left out. *)
From S2P Require Import Prelude Bytes Vfs Text Codepage GuestMem HandleTable PmTypes.
From S2P Require ApiRegistry.

Definition MCI_OPEN := 0x0001.
Definition MCI_CLOSE := 0x0002.
Definition MCI_PLAY := 0x0006.
Definition MCI_STOP := 0x0008.
Definition MCI_SEEK := 0x0009.
Definition MCI_RECORD := 0x000B.
Definition MCI_SET := 0x000D.
Definition MCI_STATUS := 0x001E.
Definition MCI_NOTIFY := 0x0001.
Definition MCI_WAIT := 0x0002.
Definition MCI_FROM := 0x0040.
Definition MCI_OPEN_TYPE := 0x2000.
Definition MCI_OPEN_ELEMENT := 0x8000.
Definition MCI_SET_AUDIO := 0x0800.
Definition MCI_SET_VOLUME := 0x0400.
Definition MCI_STATUS_POSITION := 0x0001.
Definition MCI_STATUS_LENGTH := 0x0002.
Definition MCI_STATUS_MODE := 0x0004.
Definition MCI_MODE_NOT_READY := 0x0524.
Definition MCI_MODE_STOP := 0x0529.
Definition MCI_MODE_PLAY := 0x0526.
Definition MM_MCINOTIFY := 0x0502.
Definition MCI_NOTIFY_SUCCESSFUL := 0x0001.
Definition MCI_NOTIFY_SUPERSEDED := 0x0002.
Definition MCIERR_SUCCESS := 0.
Definition MCIERR_INVALID_DEVICE_ID := 263.
Definition MCIERR_CANNOT_LOAD_DRIVER := 262.
Definition MCIERR_UNSUPPORTED_FUNCTION := 269.
Definition MCIERR_INVALID_DEVICE_NAME := 256.
Definition AUDIO_S16LSB := 0x8010.
Definition SDL_AUDIO_MASK_BITSIZE := 0xFF.

(** * Devices *)

Inductive MciMode := NotReady | Stopped | Playing.
(** The samples that [wav_buf] points to, if it does; [notify_cancel] is the name of a flag. *)
Record MciDevice := mk_dev {
  device_type : rstring; element_name : rstring; mode : MciMode; audio_dev : Z;
  wav_buf : option bytes; wav_len : Z; wav_freq : Z; wav_format : Z; wav_channels : Z;
  current_position : Z; volume : Z; notify_hwnd : Z; notify_cancel : option Z;
}.
Definition with_position (v : Z) d : MciDevice :=
  mk_dev (device_type d) (element_name d) (mode d) (audio_dev d) (wav_buf d) (wav_len d) (wav_freq d)
    (wav_format d) (wav_channels d) v (volume d) (notify_hwnd d) (notify_cancel d).
Definition with_volume (v : Z) d : MciDevice :=
  mk_dev (device_type d) (element_name d) (mode d) (audio_dev d) (wav_buf d) (wav_len d) (wav_freq d)
    (wav_format d) (wav_channels d) (current_position d) v (notify_hwnd d) (notify_cancel d).
Definition with_cancel (v : option Z) d : MciDevice :=
  mk_dev (device_type d) (element_name d) (mode d) (audio_dev d) (wav_buf d) (wav_len d) (wav_freq d)
    (wav_format d) (wav_channels d) (current_position d) (volume d) (notify_hwnd d) v.
Definition sounding (m : MciMode) (a hwnd : Z) d : MciDevice :=
  mk_dev (device_type d) (element_name d) m a (wav_buf d) (wav_len d) (wav_freq d)
    (wav_format d) (wav_channels d) (current_position d) (volume d) hwnd (notify_cancel d).

(** * SDL *)

(** The fields of [SDL_AudioSpec] that are looked at, and what [SDL_LoadWAV_RW] makes of a file. *)
Record AudioSpec := mk_spec { sp_freq : Z; sp_format : Z; sp_channels : Z }.
Record Wav := mk_wav { w_data : bytes; w_spec : AudioSpec }.
(** [mix] mixes into silence; [convert] is [SDL_BuildAudioCVT] and [SDL_ConvertAudio]; [drain] is
    the time that passes until a device has played its queue, or some milliseconds are over. *)
Class AudioHost (A : Type) := {
  load_wav : bytes → option Wav;
  mix : bytes → Z → Z → bytes;
  convert : bytes → AudioSpec → AudioSpec → option bytes;
  audio_init : A → bool * A;
  open_audio : AudioSpec → A → option (Z * AudioSpec) * A;
  queue_audio : Z → bytes → A → A;
  unpause : Z → A → A;
  close_audio : Z → A → A;
  queued_size : Z → A → Z;
  drain : Z → Z → A → A;
}.

(** * The state *)

(** Where a watcher thread stands: in its loop, behind it, about to clean up, about to post. *)
Inductive phase := Polling | Broke | Cleaning | Posting.
Record Watcher := mk_watcher { w_audio : Z; w_hwnd : Z; w_device : Z; w_phase : phase }.

(** [MmpmManager] with what the calls share; a watcher goes by the name of its flag.  [lost] is
    history, not data: the audio devices that a call started for an MCI device that was gone when
    they were to be attached to it, with its number. *)
Record Mmpm (A S : Type) := mk_mm {
  devices : gmap Z MciDevice; next_device_id : Z; last_error : Z;
  flags : gmap Z bool; next_flag : Z; watchers : gmap Z Watcher; lost : list (Z * Z);
  audio : A; drives : Vfs.DriveManager S; wm : WindowManager; mem : GuestMemory;
}.
Arguments mk_mm {A S}.
Arguments devices {A S}.
Arguments next_device_id {A S}.
Arguments last_error {A S}.
Arguments flags {A S}.
Arguments next_flag {A S}.
Arguments watchers {A S}.
Arguments lost {A S}.
Arguments audio {A S}.
Arguments drives {A S}.
Arguments wm {A S}.
Arguments mem {A S}.

Section state.
Context {A S : Type}.
Implicit Types s : Mmpm A S.
Definition with_devices m n s : Mmpm A S :=
  mk_mm m n (last_error s) (flags s) (next_flag s) (watchers s) (lost s) (audio s) (drives s) (wm s) (mem s).
Definition with_flags f n s : Mmpm A S :=
  mk_mm (devices s) (next_device_id s) (last_error s) f n (watchers s) (lost s) (audio s) (drives s) (wm s) (mem s).
Definition with_watchers w s : Mmpm A S :=
  mk_mm (devices s) (next_device_id s) (last_error s) (flags s) (next_flag s) w (lost s) (audio s) (drives s) (wm s) (mem s).
Definition with_audio a s : Mmpm A S :=
  mk_mm (devices s) (next_device_id s) (last_error s) (flags s) (next_flag s) (watchers s) (lost s) a (drives s) (wm s) (mem s).
Definition with_drives d s : Mmpm A S :=
  mk_mm (devices s) (next_device_id s) (last_error s) (flags s) (next_flag s) (watchers s) (lost s) (audio s) d (wm s) (mem s).
Definition with_wm w s : Mmpm A S :=
  mk_mm (devices s) (next_device_id s) (last_error s) (flags s) (next_flag s) (watchers s) (lost s) (audio s) (drives s) w (mem s).
Definition with_mem m s : Mmpm A S :=
  mk_mm (devices s) (next_device_id s) (last_error s) (flags s) (next_flag s) (watchers s) (lost s) (audio s) (drives s) (wm s) m.
Definition with_lost l s : Mmpm A S :=
  mk_mm (devices s) (next_device_id s) (last_error s) (flags s) (next_flag s) (watchers s) l (audio s) (drives s) (wm s) (mem s).
End state.

Definition mm (A S R : Type) : Type := Mmpm A S → outcome () (R * Mmpm A S).
#[export] Instance mm_ret {A S} : MRet (mm A S) := λ R r s, Ok (r, s).
#[export] Instance mm_bind {A S} : MBind (mm A S) := λ R C f m s, '(r, s) ← m s; f r s.

(** A call: its result, or its next step. *)
Inductive prog (A S R : Type) : Type :=
| Done (r : R)
| Step (f : Mmpm A S → outcome () (prog A S R * Mmpm A S)).
Arguments Done {A S R}.
Arguments Step {A S R}.
Fixpoint prog_then {A S R C} (g : R → prog A S C) (p : prog A S R) : prog A S C :=
  match p with
  | Done r => g r
  | Step f => Step (λ s, match f s with
                         | Ok (p, s) => Ok (prog_then g p, s)
                         | Err e => Err e
                         | Panic => Panic
                         | Diverge => Diverge
                         end)
  end.
#[export] Instance prog_ret {A S} : MRet (prog A S) := λ R r, Done r.
#[export] Instance prog_bind {A S} : MBind (prog A S) := λ R C g p, prog_then g p.
(** One step. *)
Definition atomic {A S R} (m : mm A S R) : prog A S R := Step (λ s, '(r, s) ← m s; Ok (Done r, s)).

Section calls.
Context {B : Build} {A S : Type} {AH : AudioHost A} {BE : Vfs.VfsBackend S}.
(** The order in which the maps yield their entries, encoding_rs, the active codepage, and the
    number of chunks that a file is read in at most. *)
Context (order : gmap Z Z → list (Z * Z)) (dev_order : gmap Z MciDevice → list (Z * MciDevice)).
Context (enc_decode : Encoding → bytes → rstring) (active_cp : Z) (chunks : nat).
Abbreviation mm := (mm A S).
Abbreviation prog := (prog A S).

Definition ask {R} (f : Mmpm A S → R) : mm R := λ s, Ok (f s, s).
Definition lift {R} (o : outcome () R) : mm R := λ s, r ← o; Ok (r, s).
Definition modify (f : Mmpm A S → Mmpm A S) : mm () := λ s, Ok (tt, f s).
Definition sdl (f : A → A) : mm () := modify (λ s, with_audio (f (audio s)) s).
Definition in_mem (f : GuestMemory → GuestMemory) : mm () := modify (λ s, with_mem (f (mem s)) s).
Definition read_str (p : Z) : mm rstring := ask (λ s, read_guest_string enc_decode active_cp (mem s) p).
Definition get32 (p off d : Z) : mm Z := a ← lift (uadd M32 p off); ask (λ s, default d (read32 (mem s) a)).
Definition put (n : nat) (p off v : Z) : mm () := a ← lift (uadd M32 p off); in_mem (λ m, poke n m a v).

(** [mgr.devices.get(&(device_id as u16))], and [get_mut] with an update. *)
Definition get_dev (device_id : Z) : mm (option MciDevice) := ask (λ s, devices s !! as_u M16 device_id).
Definition update_dev (device_id : Z) (f : MciDevice → MciDevice) : mm () :=
  modify (λ s, with_devices (alter f (as_u M16 device_id) (devices s)) (next_device_id s) s).
Definition set_flag (f : Z) : mm () := modify (λ s, with_flags (<[f := true]> (flags s)) (next_flag s) s).
Definition cancel (f : option Z) : mm () := match f with Some f => set_flag f | None => mret tt end.
Definition close_dev (a : Z) : mm () := if a =? 0 then mret tt else sdl (close_audio a).
(** [MciDevice::drop] *)
Definition drop_device (d : MciDevice) : mm () := cancel (notify_cancel d);; close_dev (audio_dev d).
Definition posted (hwnd msg mp1 mp2 : Z) (s : Mmpm A S) : Mmpm A S :=
  with_wm (match find_hmq_for_hwnd order (wm s) hwnd with
           | Some q => push_back q (mk_msg hwnd msg mp1 mp2 0 0 0) (wm s)
           | None => wm s end) s.
Definition post_pm_msg (hwnd msg mp1 mp2 : Z) : mm () := modify (posted hwnd msg mp1 mp2).

(** * Helpers *)

Definition clamp_volume (v : Z) : Z := Z.min v 100.
Definition apply_volume (src : bytes) (format vol : Z) : option bytes :=
  if (100 <=? vol) || (len src =? 0) then None else Some (mix src format (vol * 128 / 100)).
Definition bytes_per_frame (format channels : Z) : Z :=
  Z.max (Z.land format SDL_AUDIO_MASK_BITSIZE / 8) 1 * channels.
Definition ms_to_byte_offset (ms freq channels format : Z) : outcome () Z :=
  p ← umul M64 (as_u M64 freq) ms;
  o ← umul M64 (p / 1000) (bytes_per_frame format channels);
  Ok (as_u M32 o).
(** Whole seconds of [n] bytes, in milliseconds. *)
Definition byte_offset_to_ms (n freq channels format : Z) : outcome () Z :=
  bps ← umul M32 (as_u M32 freq) (bytes_per_frame format channels);
  if 0 <? bps then umul M32 (n / bps) 1000 else Ok 0.

Fixpoint read_chunks (n : nat) (hf : Z) : Vfs.vfs (Vfs.DriveManager S) bytes :=
  match n with
  | O => Vfs.vfs_lift Diverge
  | Datatypes.S n =>
    chunk ← Vfs.read_file hf 4096;
    if bool_decide (chunk = []) then mret [] else rest ← read_chunks n hf; mret (chunk ++ rest)
  end.
Definition on_drives {R} (op : Vfs.vfs (Vfs.DriveManager S) R) : mm (option R) := λ s,
  match op (drives s) with
  | (Ok r, d) => Ok (Some r, with_drives d s)
  | (Err _, d) => Ok (None, with_drives d s)
  | (Panic, _) => Panic
  | (Diverge, _) => Diverge
  end.
(** The result of [close_file] is dropped. *)
Definition load_wav_via_vfs (os2_path : rstring) : mm (option Wav) :=
  r ← on_drives (
    '(hf, _) ← Vfs.open_file os2_path Vfs.ReadOnly Vfs.DenyNone (Vfs.mk_flags Vfs.ExistOpen Vfs.NewFail) Vfs.ATTR_NORMAL;
    buf ← read_chunks chunks hf;
    mret (hf, buf));
  match r with
  | None => mret None
  | Some (hf, file_bytes) =>
    on_drives (Vfs.close_file hf);;
    mret (if bool_decide (file_bytes = []) then None else load_wav file_bytes)
  end.

(** * Commands *)

(** The entry of a new device; one that has its number is dropped. *)
Definition insert_dev (type element : rstring) (w : option Wav) : mm Z :=
  let sp := match w with Some w => w_spec w | None => mk_spec 44100 AUDIO_S16LSB 2 end in
  let data := w_data <$> w in
  id ← ask next_device_id;
  old ← ask (λ s, devices s !! id);
  modify (λ s, with_devices
    (<[id := mk_dev type element Stopped 0 data (from_option len 0 data) (sp_freq sp) (sp_format sp)
               (sp_channels sp) 0 100 0 None]> (devices s))
    (Z.max (wrapping_add M16 id 1) 1) s);;
  match old with Some d => drop_device d | None => mret tt end;;
  mret MCIERR_SUCCESS.
Definition mci_open_internal (type element : rstring) : prog Z :=
  if bool_decide (type ≠ str "waveaudio") then mret MCIERR_INVALID_DEVICE_NAME
  else
    wav ← (if bool_decide (element = []) then mret (Some None) else
           w ← atomic (load_wav_via_vfs element); mret (Some <$> w));
    match wav with
    | None => mret MCIERR_CANNOT_LOAD_DRIVER
    | Some w => atomic (insert_dev type element w)
    end.
Definition mci_open (param1 param2 : Z) : prog Z :=
  if param2 =? 0 then mret MCIERR_CANNOT_LOAD_DRIVER
  else
    psz_type ← (if negb (Z.land param1 MCI_OPEN_TYPE =? 0) then atomic (get32 param2 8 0) else mret 0);
    psz_elem ← (if negb (Z.land param1 MCI_OPEN_ELEMENT =? 0) then atomic (get32 param2 12 0) else mret 0);
    type ← (if psz_type =? 0 then mret (str "waveaudio")
            else t ← atomic (read_str psz_type); mret (Text.to_ascii_lowercase t));
    element ← (if psz_elem =? 0 then mret [] else atomic (read_str psz_elem));
    rc ← mci_open_internal type element;
    (if rc =? MCIERR_SUCCESS then
       id ← atomic (n ← ask next_device_id; lift (usub M16 n 1)); atomic (put 2 param2 4 id)
     else mret tt);;
    mret rc.
Definition mci_close (device_id : Z) : mm Z :=
  d ← get_dev device_id;
  match d with
  | Some d =>
    modify (λ s, with_devices (delete (as_u M16 device_id) (devices s)) (next_device_id s) s);;
    drop_device d;;
    mret MCIERR_SUCCESS
  | None => mret MCIERR_INVALID_DEVICE_ID
  end.
Definition mci_stop (device_id : Z) : mm Z :=
  d ← get_dev device_id;
  match d with
  | Some d =>
    cancel (notify_cancel d);;
    close_dev (audio_dev d);;
    update_dev device_id (λ d, with_cancel None (sounding Stopped 0 (notify_hwnd d) d));;
    mret MCIERR_SUCCESS
  | None => mret MCIERR_INVALID_DEVICE_ID
  end.
Definition mci_seek_to (device_id pos_ms : Z) : mm Z :=
  d ← get_dev device_id;
  match d with
  | Some d =>
    off ← lift (ms_to_byte_offset pos_ms (wav_freq d) (wav_channels d) (wav_format d));
    update_dev device_id (λ d, with_position (Z.min off (wav_len d)) d);;
    mret MCIERR_SUCCESS
  | None => mret MCIERR_INVALID_DEVICE_ID
  end.
Definition mci_seek (device_id param2 : Z) : prog Z :=
  pos_ms ← (if param2 =? 0 then mret 0 else atomic (get32 param2 4 0));
  atomic (mci_seek_to device_id pos_ms).
Definition mci_record (device_id : Z) : mm Z := mret MCIERR_UNSUPPORTED_FUNCTION.
Definition mci_set (device_id param1 param2 : Z) : mm Z :=
  if param2 =? 0 then mret MCIERR_SUCCESS
  else
    d ← get_dev device_id;
    match d with
    | None => mret MCIERR_INVALID_DEVICE_ID
    | Some _ =>
      (if negb (Z.land param1 MCI_SET_AUDIO =? 0) && negb (Z.land param1 MCI_SET_VOLUME =? 0) then
         _ ← get32 param2 16 0;
         level ← get32 param2 24 100;
         update_dev device_id (with_volume (clamp_volume level))
       else mret tt);;
      mret MCIERR_SUCCESS
    end.
Definition mode_code (m : MciMode) : Z :=
  match m with Playing => MCI_MODE_PLAY | Stopped => MCI_MODE_STOP | NotReady => MCI_MODE_NOT_READY end.
Definition mci_status (device_id param2 : Z) : mm Z :=
  d ← get_dev device_id;
  match d with
  | None => mret MCIERR_INVALID_DEVICE_ID
  | Some d =>
    if param2 =? 0 then mret MCIERR_SUCCESS
    else
      item ← get32 param2 8 0;
      val ← lift (
        if item =? MCI_STATUS_MODE then Ok (mode_code (mode d))
        else if item =? MCI_STATUS_LENGTH then
          byte_offset_to_ms (wav_len d) (wav_freq d) (wav_channels d) (wav_format d)
        else if item =? MCI_STATUS_POSITION then
          byte_offset_to_ms (current_position d) (wav_freq d) (wav_channels d) (wav_format d)
        else Ok 0);
      put 4 param2 4 val;;
      mret MCIERR_SUCCESS
  end.

(** ** Playing *)

(** The sound a device is to play: the samples from its position on, with its volume. *)
Definition sound_of (d : MciDevice) (buf : bytes) : bytes :=
  let raw := drop (Z.to_nat (Z.min (current_position d) (wav_len d))) buf in
  default raw (apply_volume raw (wav_format d) (volume d)).
Definition convert_audio (data : bytes) (desired obtained : AudioSpec) : bytes :=
  if negb (sp_freq obtained =? sp_freq desired) || negb (sp_format obtained =? sp_format desired)
     || negb (sp_channels obtained =? sp_channels desired)
  then default data (convert data desired obtained) else data.
(** The device is opened and fed; its number. *)
Definition start_sound (d : MciDevice) (data : bytes) : prog (option Z) :=
  let desired := mk_spec (wav_freq d) (wav_format d) (wav_channels d) in
  ready ← atomic (λ s, let '(b, a) := audio_init (audio s) in Ok (b, with_audio a s));
  if negb ready then mret None
  else
    o ← atomic (λ s, let '(o, a) := open_audio desired (audio s) in Ok (o, with_audio a s));
    match o with
    | None => mret None
    | Some (dev, obtained) =>
      atomic (sdl (queue_audio dev (convert_audio data desired obtained)));;
      atomic (sdl (unpause dev));;
      mret (Some dev)
    end.
Definition supersede (device_id : Z) : mm () :=
  d ← get_dev device_id;
  match d with
  | Some d => cancel (notify_cancel d);; update_dev device_id (with_cancel None)
  | None => mret tt
  end.
(** For an MCI device that is gone the number of the audio device is forgotten. *)
Definition attach_sound (device_id a hwnd : Z) : mm () :=
  d ← get_dev device_id;
  match d with
  | Some d => close_dev (audio_dev d);; update_dev device_id (sounding Playing a hwnd)
  | None => modify (λ s, with_lost (lost s ++ [(as_u M16 device_id, a)]) s)
  end.
(** The wait for the queue to drain, by a deadline. *)
Definition wait_drained (d : MciDevice) (a n : Z) : mm () :=
  x ← lift (umul M64 (as_u M64 (wav_freq d)) (wav_channels d));
  bytes_per_sec ← lift (umul M64 x 2);
  max_ms ← lift (if 0 <? bytes_per_sec then p ← umul M64 n 1000; uadd M64 (p / bytes_per_sec) 500 else Ok 2000);
  sdl (drain a max_ms).
(** The flag and the thread: that the thread starts later is seen by no one. *)
Definition spawn_watcher (device_id a hwnd : Z) : mm () :=
  modify (λ s,
    let f := next_flag s in
    let s := with_flags (<[f := false]> (flags s)) (f + 1) s in
    let s := with_devices (alter (with_cancel (Some f)) (as_u M16 device_id) (devices s)) (next_device_id s) s in
    with_watchers (<[f := mk_watcher a hwnd device_id Polling]> (watchers s)) s).
Definition mci_play_with_notify (device_id param1 hwnd_callback : Z) : prog Z :=
  d ← atomic (get_dev device_id);
  match d with
  | None => mret MCIERR_INVALID_DEVICE_ID
  | Some d =>
    match wav_buf d with
    | None => mret MCIERR_CANNOT_LOAD_DRIVER
    | Some buf =>
      atomic (supersede device_id);;
      let data := sound_of d buf in
      if len data =? 0 then mret MCIERR_SUCCESS
      else
        started ← start_sound d data;
        match started with
        | None => mret MCIERR_CANNOT_LOAD_DRIVER
        | Some a =>
          atomic (attach_sound device_id a hwnd_callback);;
          let notify := negb (Z.land param1 MCI_NOTIFY =? 0) && negb (hwnd_callback =? 0) in
          (if negb (Z.land param1 MCI_WAIT =? 0) then
             atomic (wait_drained d a (len data));;
             _ ← atomic (mci_stop device_id);
             if notify then atomic (post_pm_msg hwnd_callback MM_MCINOTIFY MCI_NOTIFY_SUCCESSFUL device_id)
             else mret tt
           else if notify then atomic (spawn_watcher device_id a hwnd_callback)
           else mret tt);;
          mret MCIERR_SUCCESS
        end
    end
  end.
Definition mci_play (device_id param1 param2 : Z) : prog Z :=
  hwnd_callback ← (if param2 =? 0 then mret 0 else atomic (get32 param2 0 0));
  (if negb (Z.land param1 MCI_FROM =? 0) && negb (param2 =? 0) then
     from_ms ← atomic (get32 param2 4 0); _ ← atomic (mci_seek_to device_id from_ms); mret tt
   else mret tt);;
  mci_play_with_notify device_id param1 hwnd_callback.

(** One turn of the watcher of flag [f]: its state after it, if it goes on, and the code it posts.
    [timeout] tells whether its hour is over. *)
Definition watcher_step (f : Z) (timeout : bool) : mm (option Z) :=
  w ← ask (λ s, watchers s !! f);
  cancelled ← ask (λ s, default false (flags s !! f));
  match w with
  | None => mret None
  | Some w =>
    let goto p := modify (λ s, with_watchers (<[f := mk_watcher (w_audio w) (w_hwnd w) (w_device w) p]> (watchers s)) s) in
    let exit := modify (λ s, with_watchers (delete f (watchers s)) s) in
    let tell code := post_pm_msg (w_hwnd w) MM_MCINOTIFY code (w_device w);; exit;; mret (Some code) in
    match w_phase w with
    | Polling =>
      if cancelled : bool then tell MCI_NOTIFY_SUPERSEDED
      else
        queued ← ask (λ s, queued_size (w_audio w) (audio s));
        (if (queued =? 0) || timeout then goto Broke else mret tt);; mret None
    | Broke => (if cancelled : bool then exit else goto Cleaning);; mret None
    | Cleaning =>
      d ← get_dev (w_device w);
      match d with
      | Some d =>
        close_dev (audio_dev d);;
        update_dev (w_device w) (λ d, with_cancel None (sounding Stopped 0 (notify_hwnd d) d))
      | None => mret tt
      end;;
      goto Posting;; mret None
    | Posting => tell MCI_NOTIFY_SUCCESSFUL
    end
  end.

(** * Commands as messages and as strings *)

Definition mci_send_command (device_id message param1 param2 : Z) : prog Z :=
  let msg := as_u M16 message in
  if msg =? MCI_OPEN then mci_open param1 param2
  else if msg =? MCI_CLOSE then atomic (mci_close device_id)
  else if msg =? MCI_PLAY then mci_play device_id param1 param2
  else if msg =? MCI_STOP then atomic (mci_stop device_id)
  else if msg =? MCI_SEEK then mci_seek device_id param2
  else if msg =? MCI_RECORD then atomic (mci_record device_id)
  else if msg =? MCI_SET then atomic (mci_set device_id param1 param2)
  else if msg =? MCI_STATUS then atomic (mci_status device_id param2)
  else mret MCIERR_UNSUPPORTED_FUNCTION.

(** [write_ret]: as much of [t] as the buffer takes, and a NUL. *)
Definition write_ret (psz cb : Z) (t : rstring) : prog () :=
  if negb (psz =? 0) && (0 <? cb) then
    let n := Z.min (len (as_bytes t)) (cb - 1) in
    atomic (in_mem (λ m, default m (write_bytes m psz (take (Z.to_nat n) (as_bytes t)))));;
    atomic (put 1 psz n 0)
  else mret tt.
Definition eq_ignore_ascii_case (a b : rstring) : bool :=
  bool_decide (Text.to_ascii_lowercase a = Text.to_ascii_lowercase b).
Definition mci_resolve_alias (alias : rstring) : mm Z :=
  match parse_uint M16 alias with
  | Some n => mret n
  | None => ask (λ s, match list_find (λ x, eq_ignore_ascii_case (element_name x.2) alias = true) (dev_order (devices s)) with
                      | Some (_, (id, _)) => id
                      | None => 0
                      end)
  end.
(** The words behind "open": the device type and the element. *)
Fixpoint open_words (n : nat) (tokens : list rstring) (type element : rstring) : rstring * rstring :=
  match n, tokens with
  | Datatypes.S n, t :: rest =>
    if bool_decide (t = str "type") then
      match rest with
      | t' :: rest => open_words n rest t' element
      | [] => (type, element)
      end
    else if bool_decide (t ∈ [str "alias"; str "wait"; str "notify"]) then open_words n (drop 1 rest) type element
    else open_words n rest type (if bool_decide (element = []) then t else element)
  | _, _ => (type, element)
  end.
Definition word (tokens : list rstring) (i : nat) : rstring := default [] (tokens !! i).
Definition has_word (tokens : list rstring) (w : string) : bool := bool_decide (str w ∈ tokens).
(** [tokens.get(vol_idx + 2).or_else(|| tokens.get(vol_idx + 1)).and_then(parse).unwrap_or(100)] *)
Definition level_word (tokens : list rstring) (vol_idx : nat) : Z :=
  let t := match tokens !! (vol_idx + 2)%nat with Some t => Some t | None => tokens !! (vol_idx + 1)%nat end in
  default 100 (t ≫= parse_uint M32).
Definition status_word (item : rstring) (m : option MciMode) : rstring :=
  if bool_decide (item = str "mode") then
    match m with Some Playing => str "playing" | Some Stopped => str "stopped" | _ => str "not ready" end
  else [].
Definition set_volume (dev_id level : Z) : mm Z :=
  d ← get_dev dev_id;
  match d with
  | Some _ => update_dev dev_id (with_volume (clamp_volume level));; mret MCIERR_SUCCESS
  | None => mret MCIERR_INVALID_DEVICE_ID
  end.
Definition mci_send_string (psz_cmd psz_ret cb_ret hwnd_callback : Z) : prog Z :=
  c ← atomic (read_str psz_cmd);
  let tokens := split_whitespace (Text.to_ascii_lowercase c) in
  let target := atomic (mci_resolve_alias (word tokens 1)) in
  match tokens with
  | [] => mret MCIERR_UNSUPPORTED_FUNCTION
  | verb :: args =>
    if bool_decide (verb = str "open") then
      match args with
      | [] => mret MCIERR_INVALID_DEVICE_NAME
      | _ =>
        let '(type, element) := open_words (length args) args (str "waveaudio") [] in
        rc ← mci_open_internal type element;
        (if rc =? MCIERR_SUCCESS then
           id ← atomic (n ← ask next_device_id; lift (usub M16 n 1)); write_ret psz_ret cb_ret (dec_str id)
         else mret tt);;
        mret rc
      end
    else if bool_decide (verb = str "play") then
      dev_id ← target;
      mci_play_with_notify dev_id
        (Z.lor (if has_word tokens "wait" then MCI_WAIT else 0) (if has_word tokens "notify" then MCI_NOTIFY else 0))
        hwnd_callback
    else if bool_decide (verb = str "stop") then dev_id ← target; atomic (mci_stop dev_id)
    else if bool_decide (verb = str "close") then dev_id ← target; atomic (mci_close dev_id)
    else if bool_decide (verb = str "seek") then
      dev_id ← target;
      atomic (mci_seek_to dev_id (default 0 (tokens !! 3%nat ≫= parse_uint M32)))
    else if bool_decide (verb = str "set") then
      dev_id ← target;
      match list_find (λ t, t = str "volume") tokens with
      | Some (vol_idx, _) => atomic (set_volume dev_id (level_word tokens vol_idx))
      | None => mret MCIERR_UNSUPPORTED_FUNCTION
      end
    else if bool_decide (verb = str "status") then
      dev_id ← target;
      d ← atomic (get_dev dev_id);
      write_ret psz_ret cb_ret (status_word (word tokens 2) (mode <$> d));;
      mret (match d with None => MCIERR_INVALID_DEVICE_ID | Some _ => MCIERR_SUCCESS end)
    else mret MCIERR_UNSUPPORTED_FUNCTION
  end.
Definition mci_free_block (pv : Z) : prog Z := mret MCIERR_SUCCESS.
Definition mci_get_last_error (device_id psz_buf cb_buf : Z) : prog Z :=
  err ← atomic (ask last_error);
  write_ret psz_buf cb_buf (str "Error " ++ dec_str err);;
  mret err.
End calls.

(** * Who owns the audio devices *)

(** What SDL promises: an opened device is new and not 0, a closed one is gone. *)
Class AudioHostLaws (A : Type) {AH : AudioHost A} := {
  opened : A → gset Z;
  init_law a : opened (audio_init a).2 = opened a;
  open_law sp a : opened (open_audio sp a).2 =
    match (open_audio sp a).1 with Some (dev, _) => {[dev]} | None => ∅ end ∪ opened a;
  open_fresh sp a dev o : (open_audio sp a).1 = Some (dev, o) → dev ≠ 0 ∧ dev ∉ opened a;
  queue_law dev data a : opened (queue_audio dev data a) = opened a;
  unpause_law dev a : opened (unpause dev a) = opened a;
  drain_law dev n a : opened (drain dev n a) = opened a;
  close_law dev a : opened (close_audio dev a) = opened a ∖ {[dev]};
}.

Section invariant.
Context {B : Build} {A S : Type} {AH : AudioHost A} {AL : AudioHostLaws A} {BE : VfsBackend S}.
Context (order : gmap Z Z → list (Z * Z)) (dev_order : gmap Z MciDevice → list (Z * MciDevice)).
Context (enc_decode : Encoding → bytes → rstring) (active_cp : Z) (chunks : nat).
Abbreviation mm := (mm A S).
Abbreviation Mmpm := (Mmpm A S).
Abbreviation prog := (prog A S).

(** The audio device that each MCI device plays on. *)
Definition sound (d : MciDevice) : option Z := if audio_dev d =? 0 then None else Some (audio_dev d).
Definition sounds (m : gmap Z MciDevice) : gmap Z Z := omap sound m.
Record device_ok (d : MciDevice) : Prop := {
  ok_volume : volume d ≤ 100;
  ok_position : 0 ≤ current_position d ≤ wav_len d;
  ok_len : wav_len d = from_option len 0 (wav_buf d);
}.

(** [h0] are the audio devices of others, [first] the first flag, and [log] the watchers that have
    posted a notification, with its code. *)
Record mm_ok (h0 : gset Z) (first : Z) (log : list (Z * Z)) (pend : gset Z) (s : Mmpm) : Prop := {
  ok_sounds : owns h0 pend (opened (audio s)) (sounds (devices s));
  ok_devices : map_Forall (λ _, device_ok) (devices s);
  ok_watchers : ∀ f w, watchers s !! f = Some w → (f < next_flag s) ∧ f ∉ log.*1;
  ok_log : NoDup log.*1 ∧ Forall (λ f, f < next_flag s) log.*1;
  ok_answered : ∀ f, first ≤ f < next_flag s →
    is_Some (watchers s !! f) ∨ (f ∈ log.*1) ∨ flags s !! f = Some true;
}.

Lemma sounds_insert i d m : sounds (<[i := d]> m) =
  match sound d with Some a => <[i := a]> (sounds m) | None => delete i (sounds m) end.
Proof. unfold sounds. rewrite omap_insert. by destruct (sound d). Qed.
Lemma sounds_lookup m i d : m !! i = Some d → sounds m !! i = sound d.
Proof. intros Hi. unfold sounds. by rewrite lookup_omap, Hi. Qed.
Lemma alter_known {V} (f : V → V) i (m : gmap Z V) v : m !! i = Some v → alter f i m = <[i := f v]> m.
Proof.
  intros Hi. apply map_eq. intros j. destruct (decide (j = i)) as [->|].
  - by rewrite lookup_alter_eq, lookup_insert_eq, Hi.
  - by rewrite lookup_alter_ne, lookup_insert_ne.
Qed.

(** An audio device, if it is one, is closed. *)
Definition closed (d : MciDevice) (a : A) : A := if audio_dev d =? 0 then a else close_audio (audio_dev d) a.
Lemma owns_silenced h0 pend a m i d : owns h0 pend (opened a) (sounds m) → m !! i = Some d →
  owns h0 pend (opened (closed d a)) (delete i (sounds m)).
Proof.
  intros Ho Hi. apply sounds_lookup in Hi. unfold sound in Hi. unfold closed. destruct (audio_dev d =? 0).
  - by rewrite delete_id.
  - rewrite close_law. by apply owns_dropped.
Qed.

(** ** Changes of one device *)

Section change.
Context (h0 : gset Z) (first : Z) (log : list (Z * Z)) (pend : gset Z) (s : Mmpm).
Hypothesis Hs : mm_ok h0 first log pend s.

Lemma ok_same m n a : owns h0 pend (opened a) (sounds m) → map_Forall (λ _, device_ok) m →
  mm_ok h0 first log pend (with_devices m n (with_audio a s)).
Proof. destruct Hs. by split. Qed.
Lemma ok_cancelled f : mm_ok h0 first log pend (with_flags (<[f := true]> (flags s)) (next_flag s) s).
Proof.
  destruct Hs as [? ? ? ? Ha]. split; try done. intros g Hg. destruct (Ha g Hg) as [?|[?|Ht]]; [by left|by right; left|].
  right. right. cbn. destruct (decide (f = g)) as [->|]; [apply lookup_insert_eq|by rewrite lookup_insert_ne].
Qed.
Lemma ok_insert i d d' n : devices s !! i = Some d → audio_dev d' = audio_dev d → device_ok d' →
  mm_ok h0 first log pend (with_devices (<[i := d']> (devices s)) n s).
Proof.
  intros Hi Ha Hd. destruct Hs as [Ho Hds ? ? ?]. split; try done; cbn.
  - rewrite sounds_insert. unfold sound. rewrite Ha. pose proof (sounds_lookup _ _ _ Hi) as Hl. unfold sound in Hl.
    destruct (audio_dev d =? 0); [by rewrite delete_id|by rewrite insert_id].
  - by apply map_Forall_insert_2.
Qed.
Lemma ok_silenced i d d' n : devices s !! i = Some d → audio_dev d' = 0 → device_ok d' →
  mm_ok h0 first log pend (with_devices (<[i := d']> (devices s)) n (with_audio (closed d (audio s)) s)).
Proof.
  intros Hi Ha Hd. destruct Hs as [Ho Hds ? ? ?]. apply ok_same; [|by apply map_Forall_insert_2].
  rewrite sounds_insert. unfold sound. rewrite Ha. cbn. by apply owns_silenced.
Qed.
Lemma ok_deleted i d n : devices s !! i = Some d →
  mm_ok h0 first log pend (with_devices (delete i (devices s)) n (with_audio (closed d (audio s)) s)).
Proof.
  intros Hi. destruct Hs as [Ho Hds ? ? ?]. apply ok_same; [|by apply map_Forall_delete].
  unfold sounds. rewrite omap_delete. by apply owns_silenced.
Qed.
(** A device that a call has opened takes the place of the present one. *)
Lemma ok_attached i d d' n : devices s !! i = Some d → audio_dev d' ≠ 0 → device_ok d' →
  audio_dev d' ∈ pend →
  mm_ok h0 first log (pend ∖ {[audio_dev d']}) (with_devices (<[i := d']> (devices s)) n (with_audio (closed d (audio s)) s)).
Proof.
  intros Hi Hd0 Hd Hp. destruct Hs as [Ho Hds Hw Hl Ha]. split; try done; cbn; [|by apply map_Forall_insert_2].
  rewrite sounds_insert. unfold sound at 1. rewrite (proj2 (Z.eqb_neq _ 0)) by done.
  assert (pend = {[audio_dev d']} ∪ pend ∖ {[audio_dev d']}) as Hpe by (by apply union_difference_singleton_L).
  rewrite Hpe in Ho. apply sounds_lookup in Hi. unfold sound in Hi. unfold closed. destruct (audio_dev d =? 0).
  - apply owns_stored; [done|set_solver|done].
  - rewrite <- (insert_delete_eq (sounds (devices s)) i).
    rewrite close_law. apply owns_stored; [|set_solver|apply lookup_delete_eq].
    by eapply owns_dropped.
Qed.
(** SDL opens a device for a call. *)
Lemma sound_opened a dev : dev ∉ opened (audio s) → opened a = {[dev]} ∪ opened (audio s) →
  mm_ok h0 first log ({[dev]} ∪ pend) (with_audio a s).
Proof. intros Hn Ha. destruct Hs as [Ho ? ? ? ?]. split; try done; cbn. rewrite Ha. by apply owns_opened. Qed.
Lemma ok_pending dev : dev ∈ pend → dev ∈ opened (audio s).
Proof. intros Hp. apply (owns_held _ _ _ _ (ok_sounds _ _ _ _ _ Hs)). by right; left. Qed.
End change.

(** ** Calls *)

Definition keeps {R} (m : mm R) : Prop := ∀ h0 first log pend s r s',
  mm_ok h0 first log pend s → m s = Ok (r, s') → mm_ok h0 first log pend s'.

Lemma mm_bind_inv {R C} (m : mm R) (f : R → mm C) s c s' : (m ≫= f) s = Ok (c, s') →
  ∃ r s1, m s = Ok (r, s1) ∧ f r s1 = Ok (c, s').
Proof. intros ([r s1] & ? & ?)%bind_Ok_inv. by exists r, s1. Qed.
Lemma keeps_ret {R} (r : R) : keeps (mret r).
Proof. by intros ? ? ? ? s x s' ? [= <- <-]. Qed.
Lemma mci_keeps_bind {R C} (m : mm R) (f : R → mm C) : keeps m → (∀ r, keeps (f r)) → keeps (m ≫= f).
Proof. intros Hm Hf h0 first log pend s c s' Hs (r & s1 & H1 & H2)%mm_bind_inv. eapply Hf, H2. by eapply Hm. Qed.
Lemma keeps_ask {R} (f : Mmpm → R) : keeps (ask f).
Proof. by intros ? ? ? ? s x s' ? [= <- <-]. Qed.
Lemma keeps_lift {R} (o : outcome () R) : keeps (lift o).
Proof. by intros ? ? ? ? s x s' ? (? & _ & [= <- <-])%bind_Ok_inv. Qed.
Lemma keeps_in_mem f : keeps (in_mem f).
Proof. intros h0 first log pend s x s' [] [= <- <-]. by split. Qed.
Lemma keeps_sdl f : (∀ a, opened (f a) = opened a) → keeps (sdl f).
Proof. intros Hf h0 first log pend s x s' [Ho ? ? ? ?] [= <- <-]. split; cbn; rewrite ?Hf; done. Qed.
Lemma keeps_drives {R} (op : vfs (DriveManager S) R) : keeps (on_drives op).
Proof.
  intros h0 first log pend s x s' [] H. unfold on_drives in H. destruct (op _) as [[] d]; try discriminate H;
    injection H as <- <-; by split.
Qed.
Lemma keeps_cancel f : keeps (cancel f).
Proof. intros h0 first log pend s x s' Hs H. destruct f as [f|]; injection H as <- <-; [by apply ok_cancelled|done]. Qed.
Lemma keeps_post hwnd msg mp1 mp2 : keeps (post_pm_msg order hwnd msg mp1 mp2).
Proof. intros h0 first log pend s x s' [] [= <- <-]. by split. Qed.
Lemma keeps_update id f : (∀ d, device_ok d → audio_dev (f d) = audio_dev d ∧ device_ok (f d)) → keeps (update_dev id f).
Proof.
  intros Hf h0 first log pend s x s' Hs [= <- <-]. destruct (devices s !! as_u M16 id) as [d|] eqn:Hd.
  - rewrite (alter_known _ _ _ _ Hd). destruct (Hf d) as [? ?]; [by eapply (ok_devices _ _ _ _ _ Hs)|].
    by eapply ok_insert.
  - rewrite alter_id; [by destruct Hs|]. intros d Hd'. by rewrite Hd in Hd'.
Qed.
Create HintDb keeps.
(** What leaves the lost devices alone, and the MCI devices where they are. *)
Definition still {R} (m : mm R) : Prop := ∀ s r s', m s = Ok (r, s') → lost s' = lost s.
Definition stays {R} (m : mm R) : Prop := ∀ s r s' id, m s = Ok (r, s') → is_Some (devices s !! id) → is_Some (devices s' !! id).
#[local] Hint Resolve keeps_ret keeps_ask keeps_lift keeps_in_mem keeps_drives keeps_cancel keeps_post : keeps.
Ltac keeps := cbv zeta; intros; repeat first
  [ assumption | solve [auto with keeps nocore]
  | apply mci_keeps_bind; [|intros ?]
  | match goal with |- keeps (match ?x with _ => _ end) => destruct x end ].
Ltac keeps_call := intros; match goal with |- keeps ?m => let f := head_symbol m in unfold f end; keeps.
Lemma keeps_get32 p off d : keeps (get32 p off d).
Proof. keeps_call. Qed.
Lemma keeps_put n p off v : keeps (put n p off v).
Proof. keeps_call. Qed.
Lemma keeps_get_dev id : keeps (get_dev id).
Proof. keeps_call. Qed.
Lemma keeps_read_str p : keeps (read_str enc_decode active_cp p).
Proof. keeps_call. Qed.
#[local] Hint Resolve keeps_get32 keeps_put keeps_get_dev keeps_read_str : keeps.
Lemma keeps_load p : keeps (load_wav_via_vfs chunks p).
Proof. keeps_call. Qed.
Lemma keeps_alias a : keeps (mci_resolve_alias dev_order a).
Proof. keeps_call. Qed.
Lemma keeps_wait d a n : keeps (wait_drained d a n).
Proof. unfold wait_drained. keeps. apply keeps_sdl. intros. apply drain_law. Qed.
#[local] Hint Resolve keeps_load keeps_alias keeps_wait : keeps.

Lemma device_same (d d' : MciDevice) : volume d' = volume d → current_position d' = current_position d →
  wav_len d' = wav_len d → wav_buf d' = wav_buf d → device_ok d → device_ok d'.
Proof. intros E1 E2 E3 E4 []. split; by rewrite ?E1, ?E2, ?E3, ?E4. Qed.
Lemma cancel_eq f (s : Mmpm) : cancel f s =
  Ok (tt, match f with Some f => with_flags (<[f := true]> (flags s)) (next_flag s) s | None => s end).
Proof. by destruct f. Qed.
Lemma close_eq d (s : Mmpm) : close_dev (audio_dev d) s = Ok (tt, with_audio (closed d (audio s)) s).
Proof. unfold close_dev, closed. destruct (audio_dev d =? 0); [by destruct s|done]. Qed.
Lemma flagged_devices f (s : Mmpm) :
  devices (match f with Some f => with_flags (<[f := true]> (flags s)) (next_flag s) s | None => s end) = devices s.
Proof. by destruct f. Qed.
Lemma keeps_cancelled h0 first log pend f (s : Mmpm) : mm_ok h0 first log pend s →
  mm_ok h0 first log pend (match f with Some f => with_flags (<[f := true]> (flags s)) (next_flag s) s | None => s end).
Proof. intros Hs. destruct f; [by apply ok_cancelled|done]. Qed.
Lemma bind_eq_mm {R C} (m : mm R) (f : R → mm C) s r s1 : m s = Ok (r, s1) → (m ≫= f) s = f r s1.
Proof. intros Hm. unfold mbind, mm_bind. by rewrite Hm. Qed.

Lemma keeps_stop id : keeps (mci_stop (A:=A) (S:=S) id).
Proof.
  intros h0 first log pend s r s' Hs. unfold mci_stop, get_dev. erewrite bind_eq_mm by done.
  destruct (devices s !! as_u M16 id) as [d|] eqn:Hd; [|by intros [= <- <-]].
  rewrite (bind_eq_mm _ _ _ _ _ (cancel_eq _ _)), (bind_eq_mm _ _ _ _ _ (close_eq _ _)).
  apply (keeps_cancelled _ _ _ _ (notify_cancel d)) in Hs. rewrite <- (flagged_devices (notify_cancel d)) in Hd.
  set (s1 := match notify_cancel d with Some _ => _ | None => _ end) in *. intros [= <- <-]. cbn.
  rewrite (alter_known _ _ _ _ Hd). apply ok_silenced; [done|done|done|].
  eapply device_same; [..|by eapply (ok_devices _ _ _ _ _ Hs)]; done.
Qed.
Lemma mci_keeps_close id : keeps (mci_close (A:=A) (S:=S) id).
Proof.
  intros h0 first log pend s r s' Hs. unfold mci_close, get_dev. erewrite bind_eq_mm by done.
  destruct (devices s !! as_u M16 id) as [d|] eqn:Hd; [|by intros [= <- <-]].
  unfold drop_device. erewrite bind_eq_mm by done. intros (u & s1 & H & [= <- <-])%mm_bind_inv. revert H.
  rewrite (bind_eq_mm _ _ _ _ _ (cancel_eq _ _)), close_eq. intros [= _ <-].
  pose proof (keeps_cancelled _ _ _ _ (notify_cancel d) _ Hs) as Hs1. rewrite <- (flagged_devices (notify_cancel d)) in Hd.
  pose proof (ok_deleted _ _ _ _ _ Hs1 _ _ (next_device_id s) Hd) as Hs2. by destruct (notify_cancel d).
Qed.

(** A new device, in the place of one that may have its number. *)
Lemma keeps_new_device id d n : audio_dev d = 0 → device_ok d →
  keeps (old ← ask (λ s : Mmpm, devices s !! id);
         modify (λ s, with_devices (<[id := d]> (devices s)) n s);;
         match old with Some d => drop_device d | None => mret tt end).
Proof.
  intros Hd0 Hd h0 first log pend s r s' Hs. erewrite bind_eq_mm by done. erewrite bind_eq_mm by done. cbv beta.
  destruct (devices s !! id) as [d0|] eqn:Hi.
  - unfold drop_device. rewrite (bind_eq_mm _ _ _ _ _ (cancel_eq _ _)), close_eq. intros [= _ <-].
    pose proof (keeps_cancelled _ _ _ _ (notify_cancel d0) _ Hs) as Hs1. rewrite <- (flagged_devices (notify_cancel d0)) in Hi.
    pose proof (ok_silenced _ _ _ _ _ Hs1 _ _ d n Hi Hd0 Hd) as Hs2. by destruct (notify_cancel d0).
  - intros [= _ <-]. destruct Hs as [Ho Hds ? ? ?]. split; try done; cbn; [|by apply map_Forall_insert_2].
    rewrite sounds_insert. unfold sound. rewrite Hd0. cbn. rewrite delete_id; [done|]. unfold sounds. by rewrite lookup_omap, Hi.
Qed.
Lemma keeps_insert_dev type element w : keeps (insert_dev (A:=A) (S:=S) type element w).
Proof.
  unfold insert_dev. cbv zeta. apply mci_keeps_bind; [keeps|intros id].
  intros h0 first log pend s r s' Hs (old & s1 & H1 & (u & s2 & H2 & (u' & s3 & H3 & [= <- <-])%mm_bind_inv)%mm_bind_inv)%mm_bind_inv.
  refine (keeps_new_device id _ _ _ _ h0 first log pend s u' s3 Hs _); cycle 2.
  { erewrite bind_eq_mm by exact H1. erewrite bind_eq_mm by exact H2. exact H3. }
  { done. } split; cbn; [done| |done].
  destruct w; cbn; unfold len; lia.
Qed.
Lemma keeps_seek_to id ms : keeps (mci_seek_to (A:=A) (S:=S) id ms).
Proof.
  unfold mci_seek_to. apply mci_keeps_bind; [keeps|]. intros [d|]; [|keeps].
  intros h0 first log pend s r s' Hs (off & s1 & H1 & H2)%mm_bind_inv. unfold lift in H1.
  apply bind_Ok_inv in H1 as (x & Hx & [= <- <-]). unfold ms_to_byte_offset in Hx.
  apply bind_Ok_inv in Hx as (y & _ & (z & _ & [= <-])%bind_Ok_inv). revert H2.
  assert (0 ≤ as_u M32 z) by (apply as_u_range; lia).
  refine (mci_keeps_bind _ _ _ _ h0 first log pend s r s' Hs); [|keeps]. apply keeps_update. intros e [? ? ?]. split; [done|].
  split; cbn; [done|lia|done].
Qed.
Lemma keeps_volume id v : keeps (update_dev (A:=A) (S:=S) id (with_volume (clamp_volume v))).
Proof. apply keeps_update. intros d [? ? ?]. split; [done|]. split; cbn; [unfold clamp_volume; lia|done|done]. Qed.
#[local] Hint Resolve keeps_insert_dev keeps_seek_to keeps_volume keeps_stop mci_keeps_close : keeps.
Lemma keeps_spawn id a hwnd : keeps (spawn_watcher (A:=A) (S:=S) id a hwnd).
Proof.
  intros h0 first log pend s r s' Hs [= <- <-]. destruct (keeps_update id (with_cancel (Some (next_flag s))) ltac:(intros d []; done)
    h0 first log pend s tt _ Hs eq_refl) as [Ho Hd Hw [Hn Hf] Ha]. cbn in *.
  split; cbn; [done|done| | |].
  - intros f w [[<- _]|[_ Hl]]%lookup_insert_Some.
    + split; [lia|]. intros Hin. rewrite Forall_forall in Hf. apply Hf in Hin. lia.
    + apply Hw in Hl as [? ?]. split; [lia|done].
  - split; [done|]. eapply Forall_impl; [exact Hf|]. cbn. lia.
  - intros f Hr. destruct (decide (f = next_flag s)) as [->|Hne].
    + left. rewrite lookup_insert_eq. by eexists.
    + rewrite !lookup_insert_ne by done. apply Ha. lia.
Qed.
Lemma keeps_set id p1 p2 : keeps (mci_set (A:=A) (S:=S) id p1 p2).
Proof. keeps_call. Qed.
Lemma keeps_set_volume id v : keeps (set_volume (A:=A) (S:=S) id v).
Proof. keeps_call. Qed.
Lemma keeps_status id p2 : keeps (mci_status (A:=A) (S:=S) id p2).
Proof. keeps_call. Qed.
Lemma keeps_record id : keeps (mci_record (A:=A) (S:=S) id).
Proof. keeps_call. Qed.
#[local] Hint Resolve keeps_set keeps_set_volume keeps_status keeps_record keeps_spawn : keeps.

(** ** Watchers *)

(** A turn of a watcher, which goes into the log when it posts. *)
Definition logged (f : Z) (o : option Z) : list (Z * Z) := match o with Some code => [(f, code)] | None => [] end.

Lemma ok_goto h0 first log pend (s : Mmpm) f w w' : mm_ok h0 first log pend s → watchers s !! f = Some w →
  mm_ok h0 first log pend (with_watchers (<[f := w']> (watchers s)) s).
Proof.
  intros [? ? Hw ? Ha] Hf. split; try done; cbn.
  - intros g v [[<- _]|[_ Hg]]%lookup_insert_Some; by eapply Hw.
  - intros g Hg. destruct (Ha g Hg) as [Hl|Hr]; [|by right]. left. apply lookup_insert_is_Some'. by right.
Qed.
Lemma ok_told h0 first log pend (s : Mmpm) f w code : mm_ok h0 first log pend s → watchers s !! f = Some w →
  mm_ok h0 first (log ++ [(f, code)]) pend (with_watchers (delete f (watchers s)) s).
Proof.
  intros [? ? Hw [Hn Hl] Ha] Hf. destruct (Hw _ _ Hf) as [Hlt Hin].
  split; try done; cbn; rewrite ?fmap_app; cbn.
  - intros g v [Hne Hg]%lookup_delete_Some. apply Hw in Hg as [? ?]. split; [done|]. set_solver.
  - split; [|apply Forall_app; split; [done|by apply Forall_singleton]].
    apply NoDup_app. split; [done|]. split; [set_solver|apply NoDup_singleton].
  - intros g Hg. destruct (decide (g = f)) as [->|]; [right; left; set_solver|].
    destruct (Ha g Hg) as [Hl'|[?|?]]; [left|right; left; set_solver|by right; right]. by rewrite lookup_delete_ne.
Qed.
Lemma ok_exit h0 first log pend (s : Mmpm) f w : mm_ok h0 first log pend s → watchers s !! f = Some w →
  flags s !! f = Some true → mm_ok h0 first log pend (with_watchers (delete f (watchers s)) s).
Proof.
  intros [? ? Hw ? Ha] Hf Ht. split; try done; cbn.
  - intros g v [_ Hg]%lookup_delete_Some. by eapply Hw.
  - intros g Hg. destruct (decide (g = f)) as [->|]; [by right; right|].
    destruct (Ha g Hg) as [Hl'|?]; [left|by right]. by rewrite lookup_delete_ne.
Qed.
Lemma watcher_keeps f timeout h0 first log pend (s : Mmpm) o s' : mm_ok h0 first log pend s →
  watcher_step order f timeout s = Ok (o, s') → mm_ok h0 first (log ++ logged f o) pend s'.
Proof.
  intros Hs. unfold watcher_step. erewrite bind_eq_mm by done. erewrite bind_eq_mm by done. cbv zeta.
  destruct (watchers s !! f) as [w|] eqn:Hw; [|intros [= <- <-]; cbn [logged]; by rewrite app_nil_r].
  assert (Hpost : ∀ code, mm_ok h0 first log pend (posted order (w_hwnd w) MM_MCINOTIFY code (w_device w) s)) by (destruct Hs; by split).
  destruct (w_phase w).
  - destruct (default false (flags s !! f)) eqn:Hf.
    + intros [= <- <-]. by apply (ok_told _ _ _ _ _ _ w _ (Hpost _)).
    + erewrite bind_eq_mm by done.
      destruct (_ || timeout); intros (u & s1 & [= <- <-] & [= <- <-])%mm_bind_inv; cbn [logged]; rewrite app_nil_r; [by eapply ok_goto|done].
  - intros (u & s1 & H1 & [= <- <-])%mm_bind_inv. cbn [logged]. rewrite app_nil_r.
    destruct (default false (flags s !! f)) eqn:Hf; injection H1 as <- <-; [|by eapply ok_goto].
    eapply ok_exit; [done..|]. by destruct (flags s !! f) as [[]|].
  - intros (d & s1 & [= <- <-] & H)%mm_bind_inv.
    destruct (devices s !! as_u M16 (w_device w)) as [d|] eqn:Hd.
    + apply mm_bind_inv in H as (u & s1 & H1 & H). rewrite (bind_eq_mm _ _ _ _ _ (close_eq _ _)) in H1. injection H1 as <- <-.
      apply mm_bind_inv in H as (u & s2 & [= <- <-] & [= <- <-]). cbn [logged]. rewrite app_nil_r. cbn. rewrite (alter_known _ _ _ _ Hd).
      refine (ok_goto _ _ _ _ (with_devices _ (next_device_id s) (with_audio _ s)) f w _ (ok_silenced _ _ _ _ _ Hs _ _ _ _ Hd _ _) Hw); [done|].
      eapply device_same; [..|by eapply (ok_devices _ _ _ _ _ Hs)]; done.
    + apply mm_bind_inv in H as (u & s1 & [= <- <-] & H). apply mm_bind_inv in H as (u & s2 & [= <- <-] & [= <- <-]).
      cbn [logged]. rewrite app_nil_r. by eapply ok_goto.
  - intros [= <- <-]. by apply (ok_told _ _ _ _ _ _ w _ (Hpost _)).
Qed.

(** ** Calls as programs *)

Lemma prog_induction {R} (P : prog R → Prop) :
  (∀ r, P (Done r)) → (∀ f, (∀ s q s', f s = Ok (q, s') → P q) → P (Step f)) → ∀ p, P p.
Proof.
  intros Hd Hs. fix IH 1. intros [r|f]; [apply Hd|]. apply Hs. intros s q s' H.
  destruct (f s) as [[q0 s0]| | |]; [|discriminate H..]. injection H as <- _. apply IH.
Qed.

(** The MCI device that a call knows of is still there. *)
Definition known (k : option Z) (s : Mmpm) : Prop :=
  match k with Some id => is_Some (devices s !! id) | None => True end.
(** The audio device that a call has opened and not yet attached. *)
Definition flying (o : option Z) (pend : gset Z) : Prop :=
  match o with Some a => a ∈ pend ∧ a ≠ 0 | None => True end.
(** How one step changes what the call holds ([o]) and what all calls hold or have lost ([pend]):
    not at all, or by an audio device that is opened, attached, or lost because the MCI device
    that the call knew of is gone. *)
Inductive hand (k : option Z) (s s' : Mmpm) : gset Z → gset Z → option Z → option Z → Prop :=
| hand_none pend o : lost s' = lost s → hand k s s' pend pend o o
| hand_open pend a : a ∉ pend → a ≠ 0 → lost s' = lost s → hand k s s' pend ({[a]} ∪ pend) None (Some a)
| hand_attach pend a : lost s' = lost s → hand k s s' pend (pend ∖ {[a]}) (Some a) None
| hand_lost pend a id : k = Some id → devices s !! id = None → lost s' = lost s ++ [(id, a)] →
    hand k s s' pend pend (Some a) None.
(** Every step of the call keeps the state in order, whatever happens between the steps; [Q] holds at
    its end. *)
Fixpoint safe {R} (Q : option Z → option Z → R → Prop) (k o : option Z) (p : prog R) : Prop :=
  match p with
  | Done r => Q k o r
  | Step f => ∀ h0 first log pend s, mm_ok h0 first log pend s → flying o pend →
    match f s with
    | Ok (q, s') => ∃ k' o' pend', hand k s s' pend pend' o o' ∧ mm_ok h0 first log pend' s' ∧
        (known k s → known k' s') ∧ safe Q k' o' q
    | _ => True
    end
  end.
Definition empty_handed {R} (k o : option Z) (r : R) : Prop := o = None.
Definition fine {R} (p : prog R) : Prop := safe empty_handed None None p.

Lemma safe_bind {R C} Q Q' k o (p : prog R) (g : R → prog C) :
  safe Q k o p → (∀ k o r, Q k o r → safe Q' k o (g r)) → safe Q' k o (p ≫= g).
Proof.
  unfold mbind, prog_bind. intros Hp Hg. revert k o Hp.
  induction p as [r|f IH] using prog_induction; intros k o Hp; cbn [prog_then safe] in *; [by apply Hg|].
  intros h0 first log pend s Hs Ho. specialize (Hp h0 first log pend s Hs Ho).
  destruct (f s) as [[q s']| | |] eqn:Hf; try done. destruct Hp as (k' & o' & pend' & H1 & H2 & H3 & H4).
  exists k', o', pend'. split_and!; try done. by eapply IH.
Qed.
(** What a call knows only helps. *)
Lemma safe_forget {R} k (p : prog R) : fine p → safe empty_handed k None p.
Proof.
  unfold fine. assert (∀ o, safe empty_handed None o p → safe empty_handed k o p) as H; [|apply H].
  intros o. destruct p as [r|f]; cbn [safe]; [done|]. intros Hp h0 first log pend s Hs Ho.
  specialize (Hp h0 first log pend s Hs Ho). destruct (f s) as [[q s']| | |]; try done.
  destruct Hp as (k' & o' & pend' & H1 & H2 & H3 & H4). exists k', o', pend'. split_and!; try done; [|by intros _; apply H3].
  inversion H1; subst; try discriminate; by constructor.
Qed.
Lemma fine_bind {R C} (p : prog R) (g : R → prog C) : fine p → (∀ r, fine (g r)) → fine (p ≫= g).
Proof. intros Hp Hg. eapply safe_bind; [exact Hp|]. intros k o r ->. by apply safe_forget. Qed.
Lemma fine_ret {R} (r : R) : fine (mret r).
Proof. done. Qed.
Lemma safe_atomic {R} (Q : option Z → option Z → R → Prop) k o (m : mm R) :
  (∀ h0 first log pend s r s', mm_ok h0 first log pend s → flying o pend → m s = Ok (r, s') →
     ∃ k' o' pend', hand k s s' pend pend' o o' ∧ mm_ok h0 first log pend' s' ∧ (known k s → known k' s') ∧ Q k' o' r) →
  safe Q k o (atomic m).
Proof.
  intros H h0 first log pend s Hs Ho. destruct (m s) as [[r s']| | |] eqn:Hm; simpl; try done.
  by apply (H h0 first log pend s r s').
Qed.

Lemma still_ret {R} (r : R) : still (mret r).
Proof. by intros s x s' [= <- <-]. Qed.
Lemma still_ask {R} (f : Mmpm → R) : still (ask f).
Proof. by intros s x s' [= <- <-]. Qed.
Lemma still_lift {R} (o : outcome () R) : still (lift o).
Proof. by intros s x s' (? & _ & [= <- <-])%bind_Ok_inv. Qed.
Lemma still_modify f : (∀ s : Mmpm, lost (f s) = lost s) → still (modify f).
Proof. by intros Hf s x s' [= <- <-]. Qed.
Lemma still_bind {R C} (m : mm R) (f : R → mm C) : still m → (∀ r, still (f r)) → still (m ≫= f).
Proof. intros Hm Hf s c s' (r & s1 & H1%Hm & H2%Hf)%mm_bind_inv. congruence. Qed.
Lemma still_drives {R} (op : vfs (DriveManager S) R) : still (on_drives op).
Proof. intros s x s' H. unfold on_drives in H. destruct (op _) as [[] d]; try discriminate H; by injection H as _ <-. Qed.
Ltac still := intros; repeat first
  [ assumption | apply still_ret | apply still_ask | apply still_lift | apply still_drives
  | apply still_modify; intros; reflexivity
  | apply still_bind; [|intros ?]
  | match goal with |- still (match ?x with _ => _ end) => destruct x end
  | match goal with |- still ?m => let f := head_symbol m in unfold f end; cbv zeta ].
(** One step of a call that holds nothing. *)
Lemma fine_atomic {R} (m : mm R) : keeps m → still m → fine (atomic m).
Proof.
  intros Hk Hl. apply safe_atomic. intros h0 first log pend s r s' Hs _ Hm. exists None, None, pend.
  split; [constructor; by eapply Hl|]. split; [by eapply Hk|done].
Qed.
Create HintDb fine.
#[local] Hint Resolve fine_ret : fine.
Ltac fine := cbv zeta; intros; repeat first
  [ assumption | solve [auto with fine nocore]
  | apply fine_atomic; [solve [keeps]|solve [still]]
  | apply fine_bind; [|intros ?]
  | match goal with |- fine (match ?x with _ => _ end) => destruct x end ].
Ltac fine_call := intros; match goal with |- fine ?m => let f := head_symbol m in unfold f end; fine.
Lemma fine_open_internal type element : fine (mci_open_internal chunks type element).
Proof. fine_call. Qed.
Lemma fine_write_ret p n t : fine (write_ret p n t).
Proof. fine_call. Qed.
#[local] Hint Resolve fine_open_internal fine_write_ret : fine.
Lemma fine_open p1 p2 : fine (mci_open enc_decode active_cp chunks p1 p2).
Proof. fine_call. Qed.
Lemma fine_seek id p2 : fine (mci_seek id p2).
Proof. fine_call. Qed.
#[local] Hint Resolve fine_open fine_seek : fine.

(** *** Playing *)

(** A step that leaves the known device there. *)
Lemma safe_staying {R} (Q : option Z → option Z → R → Prop) k o (m : mm R) :
  keeps m → still m → stays m → (∀ r, Q k o r) → safe Q k o (atomic m).
Proof.
  intros Hk Hl Hst HQ. apply safe_atomic. intros h0 first log pend s r s' Hs _ Hm. exists k, o, pend.
  split; [constructor; by eapply Hl|]. split; [by eapply Hk|]. split; [|done].
  destruct k as [id|]; [|done]. by eapply Hst.
Qed.
Lemma stays_same {R} (m : mm R) : (∀ s r s', m s = Ok (r, s') → devices s' = devices s) → stays m.
Proof. intros Hm s r s' id H. by rewrite (Hm s r s' H). Qed.
Lemma stays_supersede id : stays (supersede (A:=A) (S:=S) id).
Proof.
  intros s r s' i H Hi. unfold supersede, get_dev in H. erewrite bind_eq_mm in H by done.
  destruct (devices s !! as_u M16 id) as [d|]; [|by injection H as _ <-].
  rewrite (bind_eq_mm _ _ _ _ _ (cancel_eq _ _)) in H. injection H as _ <-. cbn. apply lookup_alter_is_Some.
  by rewrite flagged_devices.
Qed.
Lemma keeps_supersede id : keeps (supersede (A:=A) (S:=S) id).
Proof.
  unfold supersede. apply mci_keeps_bind; [keeps|]. intros [d|]; [|keeps].
  apply mci_keeps_bind; [keeps|intros _]. apply keeps_update. intros e []. done.
Qed.
Lemma known_devices k (s s' : Mmpm) : devices s' = devices s → known k s → known k s'.
Proof. unfold known. by intros ->. Qed.

(** The audio device is in the hands of the call from its opening on. *)
Lemma safe_start_sound id d data :
  safe (λ k o r, k = Some id ∧ o = r) (Some id) None (start_sound d data).
Proof.
  unfold start_sound. cbv zeta.
  apply (safe_bind (λ k o _, k = Some id ∧ o = None)).
  { apply safe_atomic. intros h0 first log pend s r s' Hs _ H. pose proof (init_law (audio s)) as Hi.
    destruct (audio_init (audio s)) as [b a1]. injection H as <- <-. exists (Some id), None, pend.
    split; [by constructor|]. split; [|split; [by apply known_devices|done]].
    destruct Hs as [Ho ? ? ? ?]. split; try done. cbn in *. by rewrite Hi. }
  intros k o [] [-> ->]; cbn [negb]; [|done].
  apply (safe_bind (λ k o r, k = Some id ∧ o = fst <$> r)).
  { apply safe_atomic. intros h0 first log pend s r s' Hs _ H.
    set (sp := mk_spec (wav_freq d) (wav_format d) (wav_channels d)) in *.
    pose proof (open_law sp (audio s)) as Hl. pose proof (open_fresh sp (audio s)) as Hf.
    destruct (open_audio sp (audio s)) as [o' a2]. injection H as <- <-. cbn in Hl, Hf.
    destruct o' as [[dev obtained]|].
    - destruct (Hf dev obtained eq_refl) as [H0 Hn]. exists (Some id), (Some dev), ({[dev]} ∪ pend). split_and!; try done.
      + constructor; [|done|done]. intros Hp. by apply Hn, (ok_pending _ _ _ _ _ Hs).
      + by apply sound_opened.
    - exists (Some id), None, pend. split_and!; try done; [by constructor|].
      destruct Hs as [Ho ? ? ? ?]. split; try done. cbn. by replace (opened a2) with (opened (audio s)) by (rewrite Hl; set_solver). }
  intros k o [[dev obtained]|] [-> ->]; [|done]. cbn [fmap option_fmap option_map].
  apply (safe_bind (λ k o _, k = Some id ∧ o = Some dev)).
  { apply safe_staying; [apply keeps_sdl; intros; apply queue_law|still|apply stays_same; by intros s r s' [= _ <-]|done]. }
  intros k o _ [-> ->]. apply (safe_bind (λ k o _, k = Some id ∧ o = Some dev)).
  { apply safe_staying; [apply keeps_sdl; intros; apply unpause_law|still|apply stays_same; by intros s r s' [= _ <-]|done]. }
  by intros k o _ [-> ->].
Qed.
Lemma safe_attach id a hwnd :
  safe empty_handed (Some (as_u M16 id)) (Some a) (atomic (attach_sound id a hwnd)).
Proof.
  apply safe_atomic. intros h0 first log pend s r s' Hs [Hp H0] H. unfold attach_sound, get_dev in H.
  erewrite bind_eq_mm in H by done. destruct (devices s !! as_u M16 id) as [d|] eqn:Hd.
  - rewrite (bind_eq_mm _ _ _ _ _ (close_eq _ _)) in H. injection H as _ <-.
    exists None, None, (pend ∖ {[a]}). split; [by constructor|]. split; [|done]. cbn. rewrite (alter_known _ _ _ _ Hd).
    refine (ok_attached h0 first log pend s Hs _ _ (sounding Playing a hwnd d) _ Hd _ _ _); [done| |done].
    eapply device_same; [..|by eapply (ok_devices _ _ _ _ _ Hs)]; done.
  - injection H as _ <-. exists None, None, pend. split; [by eapply hand_lost|]. split; [by destruct Hs|done].
Qed.
Lemma fine_play_with id p1 hwnd : fine (mci_play_with_notify order id p1 hwnd).
Proof.
  unfold mci_play_with_notify. apply (safe_bind (λ k o r, o = None ∧ (r = None ∨ k = Some (as_u M16 id)))).
  { apply safe_atomic. intros h0 first log pend s r s' Hs _ [= <- <-].
    destruct (devices s !! as_u M16 id) as [d|] eqn:Hd.
    - exists (Some (as_u M16 id)), None, pend. split; [by constructor|]. split; [done|]. split; [|auto].
      intros _. by exists d.
    - exists None, None, pend. split; [by constructor|]. auto. }
  intros k o [d|] [-> Hk]; [|by apply safe_forget, fine_ret]. destruct Hk as [?| ->]; [done|].
  destruct (wav_buf d) as [buf|]; [|by apply safe_forget, fine_ret].
  apply (safe_bind (λ k o _, k = Some (as_u M16 id) ∧ o = None)).
  { apply safe_staying; [apply keeps_supersede|still|apply stays_supersede|done]. }
  intros k o _ [-> ->]. cbv zeta. destruct (len _ =? 0); [done|].
  eapply safe_bind; [apply safe_start_sound|]. intros k o [a|] [-> ->]; [|done].
  eapply safe_bind; [apply safe_attach|]. intros k o _ ->. apply safe_forget. fine.
Qed.
#[local] Hint Resolve fine_play_with : fine.
Lemma fine_play id p1 p2 : fine (mci_play order id p1 p2).
Proof. fine_call. Qed.
#[local] Hint Resolve fine_play : fine.
Lemma fine_command id msg p1 p2 : fine (mci_send_command order enc_decode active_cp chunks id msg p1 p2).
Proof. fine_call. Qed.
Lemma fine_string c r n hwnd : fine (mci_send_string order dev_order enc_decode active_cp chunks c r n hwnd).
Proof. fine_call. Qed.

(** * Runs *)

Definition mci_call (method : string) (args : list Z) : option (prog Z) :=
  match args with
  | [a; b; c; d] =>
    if String.eqb method "mci_send_command" then Some (mci_send_command order enc_decode active_cp chunks a b c d)
    else if String.eqb method "mci_send_string" then Some (mci_send_string order dev_order enc_decode active_cp chunks a b c d)
    else None
  | [a; b; c] => if String.eqb method "mci_get_last_error" then Some (mci_get_last_error a b c) else None
  | [a] => if String.eqb method "mci_free_block" then Some (mci_free_block a) else None
  | _ => None
  end.
(** What may happen next: a thread of the program makes a call, or goes on by one step of it, which
    at its end is the return; a turn of a watcher; time that SDL plays on; a change of guest memory,
    drives and windows by other calls. *)
Inductive action :=
| Call (t : Z) (method : string) (args : list Z)
| Go (t : Z)
| Turn (f : Z) (timeout : bool)
| Time (dev ms : Z)
| Elsewhere (m : GuestMemory) (d : DriveManager S) (w : WindowManager).
(** The calls in progress, by thread. *)
Abbreviation calls := (gmap Z (prog Z)).
Definition act (x : action) (ts : calls) (log : list (Z * Z)) : mm (calls * list (Z * Z)) :=
  match x with
  | Call t method args =>
    match ts !! t, mci_call method args with
    | None, Some q => mret (<[t := q]> ts, log)
    | _, _ => mret (ts, log)
    end
  | Go t =>
    match ts !! t with
    | Some (Step f) => q ← f; mret (<[t := q]> ts, log)
    | Some (Done _) => mret (delete t ts, log)
    | None => mret (ts, log)
    end
  | Turn f timeout => o ← watcher_step order f timeout; mret (ts, log ++ logged f o)
  | Time dev ms => sdl (drain dev ms);; mret (ts, log)
  | Elsewhere m d w => modify (λ s, with_mem m (with_drives d (with_wm w s)));; mret (ts, log)
  end.
Fixpoint run (l : list action) (ts : calls) (log : list (Z * Z)) : mm (calls * list (Z * Z)) :=
  match l with
  | [] => mret (ts, log)
  | x :: l => '(ts, log) ← act x ts log; run l ts log
  end.
(** All calls are made by one thread. *)
Definition one_thread (t0 : Z) (l : list action) : Prop :=
  Forall (λ x, match x with Call t _ _ | Go t => t = t0 | _ => True end) l.

(** An audio device belongs to an MCI device, to a call that has opened it and not yet attached it, or
    to no one, for a call that lost it. *)
Inductive owner := Device (id : Z) | Starting (t : Z) | Lost (n : nat).
Definition holds (s : Mmpm) (fl : gmap Z Z) (x : owner) (a : Z) : Prop :=
  match x with
  | Device id => sounds (devices s) !! id = Some a
  | Starting t => fl !! t = Some a
  | Lost n => snd <$> lost s !! n = Some a
  end.
Record one_owner (h0 : gset Z) (fl : gmap Z Z) (s : Mmpm) : Prop := {
  oo_open : ∀ a, a ∈ opened (audio s) ↔ (a ∈ h0) ∨ ∃ x, holds s fl x a;
  oo_apart : ∀ x a, holds s fl x a → a ∉ h0;
  oo_one : ∀ x y a, holds s fl x a → holds s fl y a → x = y;
}.

(** The calls and the lost devices share out what is pending. *)
Record claims (pend : gset Z) (fl : gmap Z Z) (l : list (Z * Z)) : Prop := {
  cl_all : ∀ a, a ∈ pend ↔ (∃ t, fl !! t = Some a) ∨ (a ∈ l.*2);
  cl_one : ∀ t t' a, fl !! t = Some a → fl !! t' = Some a → t = t';
  cl_apart : ∀ t a, fl !! t = Some a → a ∉ l.*2;
  cl_lost : NoDup l.*2;
}.
Definition now_holds (t : Z) (o : option Z) (fl : gmap Z Z) : gmap Z Z :=
  match o with Some a => <[t := a]> fl | None => delete t fl end.
Lemma claims_hand k (s s' : Mmpm) pend pend' o o' fl t : hand k s s' pend pend' o o' → fl !! t = o →
  claims pend fl (lost s) → claims pend' (now_holds t o' fl) (lost s').
Proof.
  intros Hh Ht [Ha H1 Hp Hl]. destruct Hh as [pend o Hls|pend a Hn _ Hls|pend a Hls|pend a id _ _ Hls]; rewrite Hls; cbn [now_holds].
  - assert (now_holds t o fl = fl) as E by (destruct o; cbn; [by apply insert_id|by apply delete_id]). rewrite E. by split.
  - assert (Hnf : ∀ t', fl !! t' ≠ Some a) by (intros t' Hf; apply Hn, Ha; left; by exists t').
    assert (a ∉ (lost s).*2) as Hnl by (intros Hf; apply Hn, Ha; by right). split; [intros x|intros u u' x|intros u x|done].
    + rewrite elem_of_union, elem_of_singleton, Ha. split.
      * intros [->|[[u Hu]|?]]; [left; exists t; by rewrite lookup_insert_eq| |by right].
        left. exists u. rewrite lookup_insert_ne; [done|]. by intros ->; rewrite Ht in Hu.
      * intros [[u [[_ <-]|[_ Hu]]%lookup_insert_Some]|?]; [by left|right; left; by exists u|by right; right].
    + intros [[<- <-]|[? Hu]]%lookup_insert_Some [[<- ?]|[? Hu']]%lookup_insert_Some; try done; [by apply Hnf in Hu'|subst x; by apply Hnf in Hu|by eapply H1].
    + intros [[_ <-]|[_ Hu]]%lookup_insert_Some; [done|by eapply Hp].
  - split; [intros x|intros u u' x|intros u x|done].
    + rewrite elem_of_difference, elem_of_singleton, Ha. split.
      * intros [[[u Hu]|?] Hne]; [left|by right]. exists u. rewrite lookup_delete_ne; [done|]. intros ->. congruence.
      * intros [[u [Hne Hu]%lookup_delete_Some]|Hx]; [split; [left; by exists u|]|split; [by right|]].
        -- intros ->. apply Hne. by eapply H1.
        -- intros ->. by apply (Hp t a).
    + intros [_ Hu]%lookup_delete_Some [_ Hu']%lookup_delete_Some. by eapply H1.
    + intros [_ Hu]%lookup_delete_Some. by eapply Hp.
  - split; [intros x|intros u u' x|intros u x|]; rewrite ?fmap_app; cbn [fmap list_fmap snd].
    + rewrite Ha, elem_of_app, list_elem_of_singleton. split.
      * intros [[u Hu]|?]; [|by right; left]. destruct (decide (u = t)) as [->|]; [right; right; congruence|].
        left. exists u. by rewrite lookup_delete_ne.
      * intros [[u [_ Hu]%lookup_delete_Some]|[?| ->]]; [left; by exists u|by right|left; by exists t].
    + intros [_ Hu]%lookup_delete_Some [_ Hu']%lookup_delete_Some. by eapply H1.
    + intros [Hne Hu]%lookup_delete_Some [Hx| ->%list_elem_of_singleton]%elem_of_app; [by apply (Hp u x)|].
      apply Hne. by eapply H1.
    + apply NoDup_app. split; [done|]. split; [|apply NoDup_singleton]. intros x Hx ->%list_elem_of_singleton. by apply (Hp t a).
Qed.
Lemma claims_owners h0 pend fl (s : Mmpm) : owns h0 pend (opened (audio s)) (sounds (devices s)) →
  claims pend fl (lost s) → one_owner h0 fl s.
Proof.
  intros [Ho Hap Hpe H1] [Ha Hc Hp Hl].
  assert (Hlost : ∀ n a, snd <$> lost s !! n = Some a → a ∈ (lost s).*2).
  { intros n a H. apply list_elem_of_lookup. exists n. by rewrite list_lookup_fmap. }
  assert (Hpend : ∀ x a, holds s fl x a → (∃ id, x = Device id) ∨ a ∈ pend).
  { intros [id|t|n] a H; [left; by exists id|right; apply Ha; left; by exists t|right; apply Ha; right; by eapply Hlost]. }
  split.
  - intros a. rewrite Ho, Ha. split.
    + intros [?|[[[t Ht]|[n Hn]%list_elem_of_lookup]|[id Hid]]]; [by left|right..];
        [by exists (Starting t)|exists (Lost n); cbn; by rewrite <- list_lookup_fmap|by exists (Device id)].
    + intros [?|[[id|t|n] Hx]]; [by left|right; right; by exists id|right; left; left; by exists t|right; left; right; by eapply Hlost].
  - intros x a Hx. destruct (Hpend x a Hx) as [[id ->]|Hin]; [by apply Hap in Hx as [? _]|set_solver].
  - intros x y a Hx Hy. destruct x as [i|t|n], y as [j|u|m]; cbn in Hx, Hy.
    + f_equal. by eapply H1.
    + apply Hap in Hx as [_ Hn]. destruct Hn. apply Ha. left. by exists u.
    + apply Hap in Hx as [_ Hn]. destruct Hn. apply Ha. right. by eapply Hlost.
    + apply Hap in Hy as [_ Hn]. destruct Hn. apply Ha. left. by exists t.
    + f_equal. by eapply Hc.
    + exfalso. apply (Hp t a Hx). by eapply Hlost.
    + apply Hap in Hy as [_ Hn]. destruct Hn. apply Ha. right. by eapply Hlost.
    + exfalso. apply (Hp u a Hy). by eapply Hlost.
    + f_equal. rewrite <- list_lookup_fmap in Hx, Hy. by eapply NoDup_lookup.
Qed.

Lemma mci_call_fine method args q : mci_call method args = Some q → fine q.
Proof.
  unfold mci_call. intros Hm. do 5 (try (destruct args as [|? args]; try discriminate Hm));
    repeat (destruct (String.eqb _ _); try discriminate Hm); injection Hm as <-;
    first [apply fine_command|apply fine_string|fine_call].
Qed.
Lemma mci_ok_new (s : Mmpm) : devices s = ∅ → watchers s = ∅ → mm_ok (opened (audio s)) (next_flag s) [] ∅ s.
Proof.
  intros Hd Hw. split; rewrite ?Hd, ?Hw; cbn; [apply owns_new|apply map_Forall_empty| |by split; constructor|lia].
  intros f w. by rewrite lookup_empty.
Qed.

(** The calls in progress are in order; with a single thread nothing is lost. *)
Definition run_inv (solo : option Z) (h0 : gset Z) (first : Z) (ts : calls) (log : list (Z * Z)) (s : Mmpm) : Prop :=
  ∃ (ks : Z → option Z) fl pend, mm_ok h0 first log pend s ∧ claims pend fl (lost s) ∧
    (∀ t a, fl !! t = Some a → a ≠ 0 ∧ is_Some (ts !! t)) ∧
    (∀ t q, ts !! t = Some q → safe empty_handed (ks t) (fl !! t) q) ∧
    (∀ t0, solo = Some t0 → lost s = [] ∧ known (ks t0) s ∧ ∀ t, is_Some (ts !! t) → t = t0).
Lemma inv_called solo h0 first ts log (s : Mmpm) t q : run_inv solo h0 first ts log s → ts !! t = None → fine q →
  (∀ t0, solo = Some t0 → t = t0) → run_inv solo h0 first (<[t := q]> ts) log s.
Proof.
  intros (ks & fl & pend & Hs & Hc & Hf & Hq & Hsolo) Ht Hfine Hone.
  assert (fl !! t = None) as Hft.
  { destruct (fl !! t) as [a|] eqn:E; [|done]. apply Hf in E as [_ [? E]]. congruence. }
  exists (λ x, if decide (x = t) then None else ks x), fl, pend. split; [done|]. split; [done|]. split; [|split].
  - intros u a [? ?]%Hf. split; [done|]. apply lookup_insert_is_Some'. by right.
  - intros u q' [[<- <-]|[Hne Hu]]%lookup_insert_Some.
    + rewrite decide_True by done. by rewrite Hft.
    + rewrite decide_False by done. by apply Hq.
  - intros t0 Ht0. destruct (Hsolo t0 Ht0) as (? & ? & Hall). split; [done|]. split; [by destruct (decide _)|].
    intros u [->|?]%lookup_insert_is_Some; [by apply Hone|]. apply Hall. naive_solver.
Qed.
Lemma inv_went solo h0 first ts log (s s' : Mmpm) t f q : run_inv solo h0 first ts log s → ts !! t = Some (Step f) →
  f s = Ok (q, s') → run_inv solo h0 first (<[t := q]> ts) log s'.
Proof.
  intros (ks & fl & pend & Hs & Hc & Hf & Hq & Hsolo) Ht Hfs. pose proof (Hq t _ Ht) as Hsafe. cbn [safe] in Hsafe.
  specialize (Hsafe h0 first log pend s Hs). rewrite Hfs in Hsafe.
  destruct Hsafe as (k' & o' & pend' & Hh & Hs' & Hk & Hsafe).
  { destruct (fl !! t) as [a|] eqn:E; [|done]. split; [apply (cl_all _ _ _ Hc); left; by exists t|by eapply Hf]. }
  assert (Hlook : ∀ u, now_holds t o' fl !! u = if decide (u = t) then o' else fl !! u).
  { intros u. destruct o' as [a|]; cbn; destruct (decide (u = t)) as [->|];
      [apply lookup_insert_eq|by apply lookup_insert_ne|apply lookup_delete_eq|by apply lookup_delete_ne]. }
  exists (λ x, if decide (x = t) then k' else ks x), (now_holds t o' fl), pend'.
  split; [done|]. split; [by eapply claims_hand|]. split; [|split].
  - intros u a. rewrite Hlook. destruct (decide (u = t)) as [->|].
    + intros ->. split; [|rewrite lookup_insert_eq; by eexists]. inversion Hh; subst.
      * by eapply Hf.
      * done.
    + intros [? ?]%Hf. split; [done|]. by rewrite lookup_insert_ne.
  - intros u q'. rewrite Hlook. destruct (decide (u = t)) as [->|Hne].
    + rewrite lookup_insert_eq. by intros [= <-].
    + rewrite lookup_insert_ne by done. apply Hq.
  - intros t0 Ht0. destruct (Hsolo t0 Ht0) as (Hl & Hkn & Hall).
    assert (t = t0) as -> by (apply Hall; by eexists). rewrite decide_True by done. split; [|split; [by apply Hk|]].
    + destruct Hh as [? ? Hls|? ? ? ? Hls|? ? Hls|? ? id Hid Hnone _]; [congruence..|].
      rewrite Hid in Hkn. destruct Hkn as [? Hkn]. congruence.
    + intros u [->|[_ ?]]%lookup_insert_is_Some; [done|by apply Hall].
Qed.
Lemma inv_returned solo h0 first ts log (s : Mmpm) t r : run_inv solo h0 first ts log s → ts !! t = Some (Done r) →
  run_inv solo h0 first (delete t ts) log s.
Proof.
  intros (ks & fl & pend & Hs & Hc & Hf & Hq & Hsolo) Ht. pose proof (Hq t _ Ht) as Hnone. cbn in Hnone.
  unfold empty_handed in Hnone. exists ks, fl, pend. split; [done|]. split; [done|]. split; [|split].
  - intros u a Hu. destruct (Hf _ _ Hu) as [? ?]. split; [done|]. rewrite lookup_delete_ne; [done|]. intros ->. congruence.
  - intros u q [_ Hu]%lookup_delete_Some. by apply Hq.
  - intros t0 Ht0. destruct (Hsolo t0 Ht0) as (? & ? & Hall). split; [done|]. split; [done|].
    intros u [_ ?]%lookup_delete_is_Some. by apply Hall.
Qed.
(** What other threads do to the shared state. *)
Lemma inv_kept solo h0 first ts log log' (s s' : Mmpm) : run_inv solo h0 first ts log s →
  (∀ pend, mm_ok h0 first log pend s → mm_ok h0 first log' pend s') → lost s' = lost s →
  (∀ id, is_Some (devices s !! id) → is_Some (devices s' !! id)) → run_inv solo h0 first ts log' s'.
Proof.
  intros (ks & fl & pend & Hs & Hc & Hf & Hq & Hsolo) Hk Hl Hd. exists ks, fl, pend. rewrite Hl.
  split; [by apply Hk|]. split; [done|]. split; [done|]. split; [done|]. intros t0 Ht0.
  destruct (Hsolo t0 Ht0) as (? & Hkn & ?). split; [done|]. split; [|done].
  unfold known in *. destruct (ks t0); [by apply Hd|done].
Qed.
Lemma watcher_still f timeout : still (watcher_step (A:=A) (S:=S) order f timeout).
Proof. unfold watcher_step. cbv zeta. still. Qed.
Lemma watcher_stays f timeout (s : Mmpm) o s' id : watcher_step order f timeout s = Ok (o, s') →
  is_Some (devices s !! id) → is_Some (devices s' !! id).
Proof.
  unfold watcher_step. erewrite bind_eq_mm by done. erewrite bind_eq_mm by done. cbv zeta.
  destruct (watchers s !! f) as [w|]; [|by intros [= _ <-]].
  destruct (w_phase w).
  - destruct (default false _); [by intros [= _ <-]|]. erewrite bind_eq_mm by done.
    destruct (_ || timeout); by intros [= _ <-].
  - destruct (default false _); by intros [= _ <-].
  - intros (d & s1 & [= <- <-] & H)%mm_bind_inv Hi. apply mm_bind_inv in H as (u & s1 & H1 & [= _ <-]). cbn.
    destruct (devices s !! as_u M16 (w_device w)) as [d|]; [|by injection H1 as _ <-].
    rewrite (bind_eq_mm _ _ _ _ _ (close_eq _ _)) in H1. injection H1 as _ <-. cbn. by apply lookup_alter_is_Some.
  - by intros [= _ <-].
Qed.
Lemma act_inv solo h0 first ts log (s : Mmpm) x ts' log' s' : run_inv solo h0 first ts log s →
  match x with Call t _ _ | Go t => ∀ t0, solo = Some t0 → t = t0 | _ => True end →
  act x ts log s = Ok ((ts', log'), s') → run_inv solo h0 first ts' log' s'.
Proof.
  intros Hi Hone. destruct x as [t method args|t|f timeout|dev ms|m d w]; cbn [act].
  - destruct (ts !! t) eqn:Ht, (mci_call method args) as [q|] eqn:Hm; intros [= <- <- <-]; try done.
    apply inv_called; [done..| |done]. by eapply mci_call_fine.
  - destruct (ts !! t) as [[r|f]|] eqn:Ht; [intros [= <- <- <-]; by eapply inv_returned| |by intros [= <- <- <-]].
    intros (q & s1 & Hf & [= <- <- <-])%mm_bind_inv. by eapply inv_went.
  - intros (o & s1 & H1 & [= <- <- <-])%mm_bind_inv. eapply inv_kept; [done| |by eapply watcher_still|].
    + intros pend Hs. by eapply watcher_keeps.
    + intros id. by eapply watcher_stays.
  - intros (u & s1 & [= _ <-] & [= <- <- <-])%mm_bind_inv. eapply inv_kept; [done| |done|done].
    intros pend Hs. eapply (keeps_sdl (drain dev ms)); [intros; apply drain_law|exact Hs|done].
  - intros (u & s1 & [= _ <-] & [= <- <- <-])%mm_bind_inv. eapply inv_kept; [done| |done|done].
    intros pend []. by split.
Qed.


(** The registry's entries of MDM are these calls. *)
Lemma registry_mci id args : forallb (λ e,
  if String.eqb (ApiRegistry.module e) "MDM" then
    match ApiRegistry.handler e with
    | ApiRegistry.Normal m l => match mci_call m (map (ApiRegistry.arg_value id args) l) with Some _ => true | None => false end
    | _ => false
    end
  else true) ApiRegistry.REGISTRY = true.
Proof. vm_compute. reflexivity. Qed.
End invariant.

(** * An audio host and a drive for the examples

    The audio host lists its devices with the bytes in their queues; the drive has one file of four
    samples. *)
Definition FakeAudio : Type := list (Z * Z).
Definition next_dev (a : FakeAudio) : Z := foldr Z.max 1 a.*1 + 1.
#[export] Instance fake_audio : AudioHost FakeAudio := {
  load_wav b := Some (mk_wav b (mk_spec 1000 8 1));
  mix b _ v := map (λ x, x * v / 128) b;
  convert b _ _ := None;
  audio_init a := (true, a);
  open_audio sp a := (Some (next_dev a, sp), (next_dev a, 0) :: a);
  queue_audio dev b a := map (λ x, if x.1 =? dev then (x.1, x.2 + len b) else x) a;
  unpause _ a := a;
  close_audio dev a := filter (λ x, x.1 ≠ dev) a;
  queued_size dev a := from_option (snd ∘ snd) 0 (list_find (λ x, x.1 = dev) a);
  drain dev ms a := map (λ x, if x.1 =? dev then (x.1, 0) else x) a;
}.
Lemma fst_map (g : Z * Z → Z * Z) (a : FakeAudio) : (∀ x, (g x).1 = x.1) → (map g a).*1 = a.*1.
Proof. intros Hg. induction a as [|x a IH]; [done|]. cbn. by rewrite Hg, IH. Qed.
Lemma next_dev_fresh a : next_dev a ≠ 0 ∧ next_dev a ∉ (list_to_set a.*1 : gset Z).
Proof.
  rewrite elem_of_list_to_set. unfold next_dev. generalize (a.*1). intros l.
  assert (1 ≤ foldr Z.max 1 l ∧ ∀ x, x ∈ l → x ≤ foldr Z.max 1 l) as [H1 Hm].
  { induction l as [|y l [IH1 IH]]; cbn; [split; [lia|set_solver]|]. split; [lia|].
    intros x [->|Hx]%elem_of_cons; [lia|]. specialize (IH x Hx). lia. }
  split; [lia|]. intros Hi%Hm. lia.
Qed.
#[export] Instance fake_audio_laws : AudioHostLaws FakeAudio.
Proof.
  apply (Build_AudioHostLaws FakeAudio _ (λ a, list_to_set a.*1)); try done.
  - intros sp a dev o [= <- _]. apply next_dev_fresh.
  - intros dev b a. cbn. f_equal. apply fst_map. intros x. by destruct (x.1 =? dev).
  - intros dev n a. cbn. f_equal. apply fst_map. intros x. by destruct (x.1 =? dev).
  - intros dev a. apply set_eq. intros x. change (close_audio dev a) with (filter (λ y, y.1 ≠ dev) a).
    rewrite elem_of_list_to_set, elem_of_difference, elem_of_list_to_set, elem_of_singleton, !list_elem_of_fmap.
    setoid_rewrite list_elem_of_filter. naive_solver.
Defined.

Definition no {R} : vfs bytes R := vfs_err E_INVALID_FUNCTION.
#[export] Instance one_file : VfsBackend bytes := {
  be_open _ _ _ _ _ := mret (1, Existed);
  be_close _ := mret tt;
  be_read _ n := λ b, (Ok (take (Z.to_nat n) b), drop (Z.to_nat n) b);
  be_write _ _ := no; be_seek _ _ _ := no; be_set_file_size _ _ := no; be_flush _ := no;
  be_find_first _ _ := no; be_find_next _ := no; be_find_close _ := no; be_create_dir _ := no;
  be_delete_dir _ := no; be_delete _ := no; be_rename _ _ := no; be_copy _ _ := no;
  be_query_path_info _ _ := no; be_query_file_info _ _ := no; be_set_file_locks _ _ _ _ := no;
  be_to_host_path _ := mret None;
}.
Definition demo_decode (e : Encoding) (b : bytes) : rstring := b.
Definition fake_order {V} (m : gmap Z V) : list (Z * V) := map_to_list m.
(** Two command strings in guest memory, and the file on drive C. *)
Definition demo_mmpm : Mmpm FakeAudio bytes :=
  let put p t m := default m (write_bytes m p (str t ++ [0])) in
  mk_mm ∅ 1 0 ∅ 0 ∅ [] []
    (match mount dm_new 2 [10; 20; 30; 40] with Ok d => d | _ => dm_new end) wm_new
    (put 0x100 "open C:\a.wav alias snd" (put 0x200 "play 1 notify" (put 0x300 "play snd"
      (put 0x400 "close 1" (GuestMem.alloc 0x1000)))))%string.
Definition demo_run (l : list (@action bytes)) : outcome () (gmap Z (prog FakeAudio bytes Z) * list (Z * Z) * Mmpm FakeAudio bytes) :=
  run (B:=release_profile) fake_order fake_order demo_decode 437 10 l ∅ [] demo_mmpm.
(** A command string, and as many steps as it takes. *)
Definition call (t p hwnd : Z) : @action bytes := Call t "mci_send_string" [p; 0; 0; hwnd].
Definition says (t p hwnd : Z) : list (@action bytes) := call t p hwnd :: replicate 16 (Go t).
(** A sound is opened and played to its end; it is played again and closed while it plays. *)
Definition demo_actions : list (@action bytes) :=
  says 0 0x100 0 ++ says 0 0x200 7 ++
  [Turn 0 false; Time 2 100; Turn 0 false; Turn 0 false; Turn 0 false; Turn 0 false] ++
  says 0 0x200 7 ++ [Turn 1 false] ++ says 0 0x400 0 ++ [Turn 1 false].

(** A watcher that has looked at its flag and is about to clean up stops the sound that is started
    now: the second play is silent and no longer watched by the device. *)
Definition race_actions : list (@action bytes) :=
  says 0 0x100 0 ++ says 0 0x200 7 ++ [Time 2 100; Turn 0 false; Turn 0 false] ++ says 0 0x200 7 ++ [Turn 0 false].
Lemma stale_watcher_stops : ∃ s',
  demo_run race_actions = Ok (∅, [], s') ∧
  (mode <$> devices s' !! 1) = Some Stopped ∧ audio s' = [] ∧ watchers s' !! 1 = Some (mk_watcher 3 7 1 Polling).
Proof. eexists. split; [vm_compute; reflexivity|]. split_and!; reflexivity. Qed.
(** A device that one thread closes while another starts its sound: the audio device stays open for
    ever, and no MCI device knows it. *)
Lemma close_loses_sound : ∃ s',
  demo_run (says 0 0x100 0 ++ [call 0 0x200 0] ++ replicate 8 (Go 0) ++ says 1 0x400 0 ++ replicate 8 (Go 0)) = Ok (∅, [], s') ∧
  devices s' = ∅ ∧ lost s' = [(1, 2)] ∧ audio s' = [(2, 4)].
Proof. eexists. split; [vm_compute; reflexivity|]. split_and!; reflexivity. Qed.
(** The alias of an open command is dropped, and the device cannot be found by it: nothing plays. *)
Lemma alias_unknown : ∃ s', demo_run (says 0 0x100 0 ++ says 0 0x300 0) = Ok (∅, [], s') ∧
  (mode <$> devices s' !! 1) = Some Stopped ∧ audio s' = [] ∧
  (let '(r, _) := match mci_resolve_alias fake_order (str "snd") s' with Ok x => x | _ => (1, s') end in r) = 0.
Proof. eexists. split; [vm_compute; reflexivity|]. split_and!; reflexivity. Qed.
(** A seek of twelve hours into a stereo sound of 44.1 kHz wraps around to five hours and a quarter. *)
Lemma seek_wraps : ms_to_byte_offset (B:=release_profile) (12 * 3600 * 1000) 44100 2 AUDIO_S16LSB =
  Ok (12 * 3600 * 44100 * 4 - M32).
Proof. vm_compute. reflexivity. Qed.
